(* ===== verification/_CoqProject ===== *)
-Q . S2P
Prelude.v
Conditions.v
ConditionsMerge.v
ConditionsPatch.v
OptionValues.v
Bitmask.v
Cache.v
DiskController.v
DiskPlacement.v
Features.v
Hardware.v
NicMutator.v
VolumeMutator.v
VolumeRoom.v
HardwareValidator.v
CdromMutator.v
PowerState.v
ReplicaSet.v
ReplicaSetScaling.v
PolicyEvaluation.v
PolicyResults.v
VirtualController.v
ControllerReconcile.v
Priority.v
StorageControllers.v
GoErrors.v
VMGroup.v
GroupController.v
GroupLinks.v
GroupResults.v
GroupWebhook.v
GroupWitnesses.v
Resize.v
ResizeResults.v
ResizeDevices.v
ResizeDevicesResults.v
Compute.v
ComputeResults.v
ComputeWebhook.v
ComputeBackfill.v
ComputeCompose.v
Volumes.v
InstanceStorage.v
VolumeFrame.v
VolumeBatch.v
VolumeBatchResults.v
VolumeLegacy.v
VolumeLegacyResults.v
VolumeWitnesses.v
ResizeAnnotations.v
AdmissionVM.v
VMMutator.v
VMMutatorResults.v
VMMutatorFields.v
VMValidator.v
VMVolumeValidator.v
VMNetworkValidator.v
VMValidateHandlers.v
VMAdmissionResults.v
VMAdmissionDevices.v
VMWebhookWitnesses.v
SnapshotCapacity.v
Snapshots.v
StorageUsage.v
StorageQuota.v
StorageResults.v
QuotaResults.v
SnapshotResults.v
StorageWitnesses.v
VMLifecycle.v
VMController.v
ProviderVM.v
ProviderConcurrency.v
ProviderResults.v
VMLifeResults.v
LifeWitnesses.v
Prober.v
Endpoints.v
VMService.v
VMServiceResults.v
