(* ===== verification/Prelude.v ===== *)
(** * VM Operator: a verification library

    VM Operator runs virtual machines as Kubernetes objects: webhooks complete
    and check the specs users submit, controllers bring vSphere to the state the
    specs describe, and a provider talks to vCenter.  This library models, in
    executable definitions translated from the Go sources under src/, the parts
    of it that decide something, and proves what makes them correct.

    ** Parts, files and sources

    - Prelude (this file): results with errors and panics ([outcome] and its
      [let?]), int32 and int64 wrap-around, decimal numerals, Go's string order
      and string functions, its sort, list lemmas, the tactic [bool_to_prop] and the hint database
      [go].
    - Status conditions, pkg/conditions.  [Conditions]: the list with its
      lookups and Set, Mark and Delete (conditions.go, setter.go, getter.go).
      [ConditionsMerge]: summary, mirror and aggregate (merge.go,
      merge_strategies.go).  [ConditionsPatch]: the three-way merge (patch.go).
    - [OptionValues]: ExtraConfig lists (pkg/util/option_values.go).
    - [Bitmask]: named bit masks (pkg/bitmask/bitmask.go).
    - [Cache]: the expiring cache and its goroutines (pkg/util/cache.go).
    - [DiskController], [DiskPlacement]: EnsureDisksHaveControllers and its
      helpers (pkg/util/ensure_disk_controller.go), model and correctness.
    - [Features]: feature versions and the upgrade gate of the webhooks
      (pkg/util/vmopv1/features.go).
    - [Hardware]: controller types, unit numbers and controller sets
      (api/v1alpha6/virtualmachine_hardware_types.go,
      pkg/util/vmopv1/hardware.go).
    - The mutation webhook, webhooks/virtualmachine/mutation: [NicMutator] (unit
      numbers of interfaces), [VolumeMutator] and [VolumeRoom] (controllers and
      slots for volumes), [CdromMutator] (controllers and slots for CD-ROMs).
    - [HardwareValidator]: the checks of controllers and slots in the validation
      webhook (webhooks/virtualmachine/validation/
      virtualmachine_validator_hardware_controllers.go).
    - [PowerState]: power operations and restarts
      (pkg/util/vsphere/vm/power_state.go).
    - [ReplicaSet], [ReplicaSetScaling]: the replica set controller
      (controllers/virtualmachinereplicaset, pkg/util/replicaset_label.go), model
      and correctness.
    - [PolicyEvaluation], [PolicyResults]: the policy evaluation controller
      (controllers/vspherepolicy/policyevaluation, external/vsphere-policy), model
      and correctness.
    - [VirtualController], [ControllerReconcile]: the reconciler of storage
      controllers (pkg/vmconfig/virtualcontroller), model and correctness.
    - [Priority]: work queue priorities and the event handlers that set them
      (pkg/util/kube/priority.go, pkg/util/kube/vm.go).
    - [StorageControllers]: the merge of the controllers and disks of a class and
      an image, and the controllers of the user's spec (pkg/util/configspec.go,
      controller identities of pkg/util/devices.go).
    - [GoErrors]: errors that ask for a requeue or none (pkg/errors).
    - VM groups.  [VMGroup]: objects, links and mappers
      (api/v1alpha6/virtualmachinegroup_types.go, pkg/util/vmopv1/vmgroup.go).
      [GroupController]: the controller (controllers/virtualmachinegroup).
      [GroupWebhook]: mutation and validation (webhooks/virtualmachinegroup).
      [GroupLinks] and [GroupResults]: theorems on links and on the controller.
      [GroupWitnesses]: the theorems at concrete groups.
    - Resize.  [Resize], [ResizeResults]: the settings of a ConfigSpec that differ
      from a VM (pkg/util/resize/configspec.go), model and correctness.
      [ResizeDevices], [ResizeDevicesResults]: its devices
      (configspec_devices.go, configspec_pci_devices.go, backings.go).
    - Compute settings.  [Compute], [ComputeResults]: the compute fields of a spec
      over a ConfigSpec and a class copied into a spec
      (pkg/util/vmopv1/compute_overwrite.go, resize_class_sync.go).
      [ComputeWebhook]: their checks (virtualmachine_validator_compute.go).
      [ComputeBackfill]: reading them off a VM at a schema upgrade
      (pkg/providers/vsphere/upgrade/virtualmachine/backfill/compute.go).
      [ComputeCompose]: how the three fit together.
    - Volumes.  [Volumes]: objects and shared helpers (pkg/util/cns.go,
      pkg/util/vmopv1/target_id.go).  [InstanceStorage]: claims on the selected
      node (pkg/util/vmopv1/instancestorage.go).  [VolumeBatch],
      [VolumeBatchResults]: the batch controller
      (controllers/virtualmachine/volumebatch).  [VolumeLegacy],
      [VolumeLegacyResults]: the former one (controllers/virtualmachine/volume).
      [VolumeFrame]: the laws of their interface and what shared steps leave
      alone.  [VolumeWitnesses]: a server and the theorems at concrete VMs.
    - VMs in the webhooks.  [ResizeAnnotations]: the record of the last resize and
      the changes that are always applied (pkg/util/vmopv1/resize.go,
      resize_overwrite.go).  [AdmissionVM]: the VM, the request, the configuration
      and network providers (api/v1alpha6, pkg/context, pkg/config,
      pkg/util/kube/networksettings).  [VMMutator]: Mutate and the mutators it
      calls (webhooks/virtualmachine/mutation/virtualmachine_mutator.go);
      [VMMutatorResults], [VMMutatorFields]: what they change.
      [VMValidator], [VMVolumeValidator], [VMNetworkValidator]: the checks
      (webhooks/virtualmachine/validation/virtualmachine_validator.go,
      virtualmachine_validator_cdrom.go, pkg/util/vmopv1/network.go);
      [VMValidateHandlers]: ValidateCreate, ValidateUpdate and the response
      (webhooks/common/response.go).  [VMAdmissionResults], [VMAdmissionDevices]:
      sequences of updates that both webhooks admit.  [VMWebhookWitnesses]: a
      server and the theorems at concrete VMs.
    - Storage accounting.  [SnapshotCapacity]: objects and the capacity of a
      snapshot per storage class (pkg/util/kube/vmsnapshot.go).  [Snapshots]: the
      snapshot controller and webhooks (controllers/virtualmachinesnapshot,
      webhooks/virtualmachinesnapshot).  [StorageUsage]: the usage of a storage
      class (controllers/virtualmachine/storagepolicyusage).  [StorageQuota]: the
      webhook that tells the quota framework what an object would need
      (webhooks/unifiedstoragequota).  [StorageResults], [QuotaResults],
      [SnapshotResults]: theorems.  [StorageWitnesses]: a small namespace.
    - The life of a VM.  [VMLifecycle]: the VM, the claims it owns
      (pkg/util/kube/pvc.go) and the wait for a cached image
      (pkg/errors/vmicache_not_ready_error.go), with the interfaces of the API
      server and of the provider.  [VMController]: the controller
      (controllers/virtualmachine/virtualmachine).  [ProviderVM]: creating,
      updating and deleting VMs, with location and power state
      (pkg/providers/vsphere/vmprovider_vm.go, session/session_vm_update.go,
      resources/vm.go, virtualmachine/delete.go, pkg/context,
      pkg/topology/availability_zones.go).  [ProviderConcurrency]: the same
      operations as steps that interleave.  [ProviderResults],
      [VMLifeResults]: theorems.  [LifeWitnesses]: a small
      vCenter.
    - [Prober]: readiness probes, their workers and their manager
      (pkg/prober), model and correctness.
    - VM services.  [Endpoints]: endpoints in canonical form
      (controllers/virtualmachineservice/utils), model and correctness.  [VMService]:
      the controller and the load balancer providers
      (controllers/virtualmachineservice) and the checks of the webhook
      (webhooks/virtualmachineservice).  [VMServiceResults]: theorems and a small
      cluster.

    The mutators run on the upgraded objects [Features] lets through, place
    devices on the controllers of [Hardware], and the validator checks what they
    produced; the reconciler of [VirtualController] brings the VM's controllers to
    that spec, [StorageControllers] builds them for a new VM.  The controllers of
    replica sets, policies and groups report through [Conditions] and
    [ConditionsMerge]; the group webhook decides when the group controller applies
    a power state.  The compute webhook admits the specs that the overwrite
    applies, after the class was copied into them or the backfill filled them in.
    The volume controllers attach the volumes that the mutators placed.
    [VMMutator] runs all mutators in the order of the handler, [VMValidateHandlers]
    all checks, those of controllers and compute settings included; a class change
    that both admit is what [ResizeAnnotations] turns into a resize.  The capacity
    [StorageQuota] asks for a snapshot is the one [Snapshots] records and
    [StorageUsage] reserves.  [VMController] calls the provider through the class
    [VMProvider]; [ProviderVM] is its instance, runs the power operations of
    [PowerState], and its results keep the promise of [ProviderPromise] that the
    theorems on the controller rely on.  Its shared variables, the names of VMs that
    are created in the background and the number of creates, are [ProviderState];
    [ProviderConcurrency] has one label for every access to them.  The controller
    hands VMs to the manager of [Prober] through fields of [LifeAPI]; its workers
    write the Ready condition with the operations of [Conditions], which [VMService]
    reads to list a VM as ready.

    ** How code is modelled

    A struct is a record, an enumeration an inductive type with a case for other
    values where the Go type is a string, a Go map a [gmap], a Kubernetes
    [sets.Set] a [gset].  Pointers into a slice or to objects that are shared are
    indices into a list and writes through them are updates.  State is passed
    explicitly.  An error is a value, a panic is [Panic] or [None].  Integers are
    [Z]; they are wrapped where the code can overflow them.  Goroutines are labels
    of a step relation ([Cache], [ProviderConcurrency]).  Logging and, but for the VM
    controller, events are left out.

    Code outside src/ is an interface: a class of operations, a class of what
    the code relies on, and an instance that shows the laws can hold.  These are
    [Sparse] (intsets.Sparse, in [DiskController]), [VSphere] (govmomi, in
    [PowerState]), [Kube] (the API server and apimachinery, in [ReplicaSet]),
    [PolicyAPI] (the API server and regular expressions, in [PolicyEvaluation]),
    [GroupAPI] (the API server, the provider and time formats, in [VMGroup]),
    [VolumeAPI] (the API server, the provider and controller-runtime, in
    [Volumes]), [WebhookAPI] (reads of the API server, address and name formats
    and, of src/, the regular expressions of host names and the tables of
    extraconfig.go, in [AdmissionVM]), [StorageAPI] (the API server, the provider
    and controller-runtime, in [SnapshotCapacity]), [LifeAPI] (the API server,
    controller-runtime and, of src/, the prober, the recorder and the lookup of
    encrypted storage classes, in [VMLifecycle]) with [ClaimLaws] and [LifeLaws],
    [ProviderAPI] (vCenter and, of src/, the steps of a create and of an update
    that are not modelled, in [ProviderVM]) with [InventoryLaws], [WorkQueue] (the
    delaying work queue of client-go) with [QueueLaws] and [ProbeAPI] (the API
    server, the provider, the network and regular expressions, both in [Prober])
    with [ProbeLaws], [ServiceAPI] (the API server, controller-runtime and
    apimachinery, in [VMService]) with [ServiceLaws], [ServiceFormats] (checks of
    apimachinery and net, in [VMService]) with [FormatLaws], [DeepHash]
    (go-spew with MD5) with [HashLaws] and [GoRange] (the order of map iteration,
    both in [Endpoints]), [AnnotationCodec]
    (encoding/json, in [ResizeAnnotations]), [Quantity] and [Amounts]
    (resource.Quantity, in [Compute] and [SnapshotCapacity]), [ErrorsLib]
    (aggregates of errors, in [GoErrors]) and [MapRange] (the order of map
    iteration, in [VirtualController]).  The Go interfaces ControllerSpec and
    VirtualMachineOrGroup are the classes [ControllerSpec] of [Hardware] and
    [MemberObject] of [VMGroup], with laws every implementation discharges.

    ** What the theorems show

    - Conditions: operations refine a finite map keyed by type and keep the list
      sorted with one entry per type; merging picks status, reason and message by
      priority and is idempotent; a patch is a three-way merge that never loses a
      concurrent change.
    - Slots: every disk, volume, CD-ROM and interface that gets a slot gets a
      valid one that nothing else uses; a request fails or is left open only when
      there is no room; mutators change only what is unset and report exactly
      whether they changed anything; the validator accepts what they assign and
      characterises valid placements.
    - Storage controllers: the device changes of the reconciler leave exactly the
      controllers the spec lists, with fresh keys, and none when nothing is to do;
      a merge is refused exactly for incompatible controllers, keeps identities
      unique and disks attached, and loses a class disk in one case.
    - Power: a successful operation ends in the requested state, a restart
      request is served at most once.
    - Replica sets: scaling creates or deletes exactly the difference, never
      touches a VM of another owner, and the status tells the numbers; a missing
      replica count makes the reconciler panic.
    - Policies: evaluating a match tree agrees with its meaning, and the status
      records exactly the policies that apply or the error that prevented it.
    - Groups: members get the group's power state at the times the boot order
      asks for; a group is ready exactly when its members are; collecting members
      ends for any links, placement ends without cycles, hands over only VMs that
      are not placed and does not end with one; a forced sync stops at nested
      groups and misses VMs about to leave the power state.
    - Resize: a VM reconfigured with the differences found has what was asked for,
      and the next comparison finds none.
    - Compute settings: they settle after one reconfiguration, but for what is
      reported as blocked; a running VM is changed only where it can be; after a
      resize the class decides; an admitted spec is applied in full; a backfilled
      spec changes nothing; an unlimited memory limit becomes zero, and the
      backfill of a VM with locked memory is refused.
    - Volumes: attached volumes that stay in the spec stay attached whatever
      fails, a clean reconciliation writes exactly the volumes that are ready,
      before the VM runs they are attached in order and after instance storage; a
      missing hardware status detaches everything, and errors that ask for no
      retry hide others.
    - VM webhooks: a created VM is complete; the order of the registered mutators
      does not matter; a class change leads to a resize.  Whatever updates are
      admitted, the identity of a VM stays; users without privileges never change
      what is reserved, nor anything the schema upgrade fills in before it is done;
      volumes keep names, claims and slots apart and in place; a VM that is on
      keeps its guest, boot options and CD-ROMs, unless a user evades the check
      with an annotation.  Mutations of class instances are lost, and one kind of
      volume makes the validation panic.
    - Storage accounting: the capacity of a snapshot is, per storage class, the
      sum of what is needed of it; the usage of a storage class is the sum of what
      its VMs and snapshots may need and use; what the quota webhook asks for is
      what is reserved later.  A snapshot is ready exactly when it is created and
      synced, keeps its VM and its label, and loses its finalizer only when it is
      gone.
    - Life of a VM: every call of the provider and every background create is a
      path of the interleaved steps; however they interleave, the creates that are
      counted are those in flight, within the limit, none is left behind, no VM is
      created twice and none is deleted while it is created.  The finalizer of a
      deleted VM goes only when vCenter does not have it any more or is to keep it
      and no claim that the VM does not use is owned by it; exactly the references
      to the VM are taken from such claims.  A VM moved out of its hierarchy is
      only reported; one that is to be off is powered off even if its configuration
      cannot be reconciled; one that waits for an image waits for the place that
      the error names.
    - Readiness probes: a VM that was scheduled is probed as long as it exists and
      its probe has an action, removed from the manager or not; the Ready condition
      is what the probe found; a VM that loses its probe while it is scheduled makes
      the worker panic.
    - VM services: the endpoints that are written are exactly those of the selected
      VMs, ready as their probes say; repacking keeps what subsets say and is
      canonical; no change of a VM that matters to a service is missed; a Service
      settles and keeps its node ports, the ports of an admitted service are all
      served, and the finalizer goes after the Service and its Endpoints.
    - Priorities: urgent VMs come first and replays last.
    - Cache: the size stays bounded in every interleaving, and closing is safe
      exactly when it does not fall into the window the code leaves open.
    - Option values, feature versions, bit masks: their map and set semantics,
      round trips, and the termination of the bit mask printer.

    ** Bounds and fuel

    Loops over lists are structural.  The search for a unit number takes the
    number of units left in its band as fuel, which the loop bound of the code
    equals.  The printing loop of the bit mask takes fuel because it may not end;
    the theorem says for which masks some fuel is enough.  The recursion over
    nested groups takes fuel: one more than the number of groups is enough to
    collect members, one more than the height of the tree for placement.  Decimal
    numerals take twenty digits, enough for 64 bits.

    ** Not modelled

    Generated code and API conversions; controllers and providers that consist of
    calls to vCenter and the API server (image, publish and storage policy
    controllers; of the vSphere provider sessions, networks, placement, bootstrap,
    the status and the steps of a reconfiguration, which are fields of
    [ProviderAPI]); the guest-customisation schemas; the check of storage controllers against class
    and image at creation, which is an argument of the handlers; the webhooks of
    other objects.  Next in line: the remaining device helpers
    (pkg/util/devices.go), zone placement (pkg/providers/vsphere/placement) and the
    watcher (pkg/util/vsphere/watcher). *)

From stdpp Require Export base list gmap strings numbers sorting fin_maps pretty.

#[export] Set Default Proof Using "Type".
#[export] Set Warnings "-clear-no-such-hyp".

Declare Scope go_scope.
Delimit Scope go_scope with go.

(** ** Outcomes of Go calls

    A Go function that returns [(T, error)] and may also panic (nil
    dereference, explicit [panic]) is a value of [outcome E T]. *)

Inductive outcome (E A : Type) : Type :=
  | Ok (a : A)
  | Err (e : E)
  | Panic.
Arguments Ok {E A} a.
Arguments Err {E A} e.
Arguments Panic {E A}.

Definition outcome_bind {E A B} (m : outcome E A) (k : A → outcome E B) : outcome E B :=
  match m with
  | Ok a => k a
  | Err e => Err e
  | Panic => Panic
  end.

Notation "'let?' x := m 'in' k" := (outcome_bind m (λ x, k))
  (at level 10, x pattern, m at level 100, k at level 200,
   format "'[v' 'let?'  x  :=  m  'in' '//' k ']'") : go_scope.

Definition is_ok {E A} (m : outcome E A) : bool :=
  match m with Ok _ => true | _ => false end.

Definition is_panic {E A} (m : outcome E A) : bool :=
  match m with Panic => true | _ => false end.

(** ** Machine integers: Go's [int32] and [int64], two's complement *)

Definition wrap32 (z : Z) : Z := ((z + 2 ^ 31) `mod` 2 ^ 32 - 2 ^ 31)%Z.
Definition in_int32 (z : Z) : Prop := (- 2 ^ 31 ≤ z < 2 ^ 31)%Z.

Definition wrap64 (z : Z) : Z := ((z + 2 ^ 63) `mod` 2 ^ 64 - 2 ^ 63)%Z.
Definition in_int64 (z : Z) : Prop := (- 2 ^ 63 ≤ z < 2 ^ 63)%Z.

Lemma wrap32_id z : in_int32 z → wrap32 z = z.
Proof. unfold in_int32, wrap32. intros. rewrite Z.mod_small; lia. Qed.

Lemma wrap32_in z : in_int32 (wrap32 z).
Proof.
  unfold in_int32, wrap32.
  pose proof (Z.mod_pos_bound (z + 2 ^ 31) (2 ^ 32)). lia.
Qed.

Lemma wrap64_id z : in_int64 z → wrap64 z = z.
Proof. unfold in_int64, wrap64. intros. rewrite Z.mod_small; lia. Qed.

(** ** Decimal numerals, as [strconv] reads and writes them *)

Definition digit (c : Ascii.ascii) : option Z :=
  let n := Z.of_N (Ascii.N_of_ascii c) in
  if ((48 <=? n) && (n <=? 57))%Z then Some (n - 48)%Z else None.

Fixpoint parse_digits (s : string) (acc : Z) : option Z :=
  match s with
  | EmptyString => Some acc
  | String.String c s' =>
    match digit c with
    | Some d => parse_digits s' (acc * 10 + d)%Z
    | None => None
    end
  end.

(** The decimal digits of [n] in front of [acc]; [fuel] bounds their number. *)
Fixpoint format_digits (fuel : nat) (n : Z) (acc : string) : string :=
  match fuel with
  | O => acc
  | S fuel' =>
    let acc := String.String (Ascii.ascii_of_N (Z.to_N (48 + n `mod` 10))) acc in
    if (n / 10 =? 0)%Z then acc else format_digits fuel' (n / 10) acc
  end.

Lemma digit_nonneg c d : digit c = Some d → (0 ≤ d)%Z.
Proof.
  unfold digit. destruct (_ && _) eqn:E; [|done]. intros [= <-]. apply andb_true_iff in E as [E _]. apply Z.leb_le in E. lia.
Qed.

Lemma parse_digits_nonneg s acc n : (0 ≤ acc)%Z → parse_digits s acc = Some n → (0 ≤ n)%Z.
Proof.
  revert acc. induction s as [|c s IH]; simpl; intros acc Ha Hp; [by simplify_eq|].
  destruct (digit c) as [d|] eqn:Hd; [|done]. apply digit_nonneg in Hd.
  eapply IH; [|done]. lia.
Qed.

Lemma digit_ascii d : (0 ≤ d < 10)%Z → digit (Ascii.ascii_of_N (Z.to_N (48 + d))) = Some d.
Proof.
  intros Hd. unfold digit. rewrite Ascii.N_ascii_embedding by lia. rewrite Z2N.id by lia.
  rewrite !(proj2 (Z.leb_le _ _)) by lia. simpl. f_equal. lia.
Qed.

(** Reading what was written. *)
Lemma parse_format_digits fuel n acc :
  (0 ≤ n < 10 ^ Z.of_nat fuel)%Z → fuel ≠ O →
  parse_digits (format_digits fuel n acc) 0 = parse_digits acc n.
Proof.
  revert n acc. induction fuel as [|fuel IH]; intros n acc Hn Hf; [done|]. cbn [format_digits].
  pose proof (Z.mod_pos_bound n 10 ltac:(lia)) as Hm. pose proof (Z.div_mod n 10 ltac:(lia)) as Hdm.
  destruct (n / 10 =? 0)%Z eqn:E.
  - apply Z.eqb_eq in E. cbn [parse_digits]. rewrite digit_ascii by lia. f_equal. lia.
  - apply Z.eqb_neq in E. assert (0 ≤ n / 10)%Z by (apply Z.div_pos; lia).
    assert (fuel ≠ O) as Hf'.
    { intros ->. change (10 ^ Z.of_nat 1)%Z with 10%Z in Hn. rewrite Z.div_small in E; lia. }
    rewrite IH; [|split; [done|]|done].
    + cbn [parse_digits]. rewrite digit_ascii by lia. f_equal. lia.
    + apply Z.div_lt_upper_bound; [lia|].
      replace (Z.of_nat (S fuel)) with (Z.succ (Z.of_nat fuel)) in Hn by lia.
      rewrite Z.pow_succ_r in Hn by lia. lia.
Qed.

(** ** Strings: Go's [<] on strings is bytewise lexicographic *)

Definition string_lt (s1 s2 : string) : bool := String.ltb s1 s2.

Lemma string_lt_spec s1 s2 :
  string_lt s1 s2 = true ↔ String.le s1 s2 ∧ s1 ≠ s2.
Proof.
  unfold string_lt, String.ltb, String.le, String.leb.
  destruct (String.compare s1 s2) eqn:Hc; simpl.
  - apply String.compare_eq_iff in Hc as ->. split; [done|]. by intros [].
  - split; [intros _; split; [done|]|done].
    intros ->. pose proof (String.compare_antisym s2 s2) as Ha.
    by rewrite Hc in Ha.
  - split; [done|]. by intros [].
Qed.

Lemma string_lt_irrefl s : string_lt s s = false.
Proof.
  destruct (string_lt s s) eqn:E; [|done].
  by apply string_lt_spec in E as [].
Qed.

Lemma string_lt_false s1 s2 : string_lt s1 s2 = false ↔ String.le s2 s1.
Proof.
  split; intros H.
  - destruct (total String.le s1 s2) as [Hle|]; [|done].
    destruct (decide (s1 = s2)) as [->|Hne]; [done|].
    assert (string_lt s1 s2 = true) by (apply string_lt_spec; done). congruence.
  - destruct (string_lt s1 s2) eqn:E; [|done].
    apply string_lt_spec in E as [Hle Hne].
    exfalso. apply Hne. by apply (anti_symm String.le).
Qed.

Lemma string_lt_trans s1 s2 s3 :
  string_lt s1 s2 = true → string_lt s2 s3 = true → string_lt s1 s3 = true.
Proof.
  rewrite !string_lt_spec. intros [H1 N1] [H2 N2]. split; [by etrans|].
  intros ->. apply N1, (anti_symm String.le); done.
Qed.

Lemma string_lt_asym s1 s2 : string_lt s1 s2 = true → string_lt s2 s1 = false.
Proof. intros [H _]%string_lt_spec. by apply string_lt_false. Qed.

Lemma string_lt_total s1 s2 :
  s1 ≠ s2 → string_lt s1 s2 = false → string_lt s2 s1 = true.
Proof. rewrite string_lt_false, string_lt_spec. intros; split; congruence. Qed.

(** [strings.HasPrefix], [strings.HasSuffix] and [strings.Contains]. *)
Definition HasPrefix (s p : string) : bool := String.prefix p s.

Definition HasSuffix (s p : string) : bool :=
  (String.length p <=? String.length s)%nat &&
  bool_decide (String.substring (String.length s - String.length p) (String.length p) s = p).

Definition Contains (s p : string) : bool :=
  match String.index 0 p s with Some _ => true | None => false end.

(** [strings.ToLower] on ASCII strings. *)
Definition lower_ascii (c : Ascii.ascii) : Ascii.ascii :=
  let n := Ascii.N_of_ascii c in
  if (65 <=? n)%N && (n <=? 90)%N then Ascii.ascii_of_N (n + 32) else c.

Fixpoint ToLower (s : string) : string :=
  match s with
  | EmptyString => EmptyString
  | String.String c s' => String.String (lower_ascii c) (ToLower s')
  end.

(** ** Sorting

    [sort.Slice] and [sort.Sort] order a slice by a [less] callback.  For up
    to twelve elements the Go runtime runs the insertion sort below, walking
    each element left past the ones it is [less] than; for longer slices it
    promises some sorted permutation, which is the same list whenever no two
    elements tie ([go_sort_unique]). *)

Section GoSort.
Context {A : Type} (less : A → A → bool).

(* [rp] is the sorted prefix, last element first. *)
Fixpoint go_insert (x : A) (rp : list A) : list A :=
  match rp with
  | [] => [x]
  | y :: rp' => if less x y then y :: go_insert x rp' else x :: rp
  end.

Definition go_sort (l : list A) : list A :=
  reverse (foldl (λ rp x, go_insert x rp) [] l).

(** [x] may stand before [y] in the sorted order. *)
Definition not_after (x y : A) : Prop := less y x = false.

Lemma go_insert_perm x rp : go_insert x rp ≡ₚ x :: rp.
Proof.
  induction rp as [|y rp IH]; simpl; [done|].
  destruct (less x y); [|done]. rewrite IH. apply Permutation_swap.
Qed.

Lemma foldl_insert_perm l rp :
  foldl (λ rp x, go_insert x rp) rp l ≡ₚ rp ++ l.
Proof.
  revert rp. induction l as [|x l IH]; intros rp; simpl; [by rewrite app_nil_r|].
  rewrite IH, go_insert_perm. simpl. apply Permutation_middle.
Qed.

Lemma go_sort_perm l : go_sort l ≡ₚ l.
Proof. unfold go_sort. by rewrite reverse_Permutation, foldl_insert_perm. Qed.

Lemma elem_of_go_sort l x : x ∈ go_sort l ↔ x ∈ l.
Proof. by rewrite go_sort_perm. Qed.

Lemma length_go_sort l : length (go_sort l) = length l.
Proof. by rewrite go_sort_perm. Qed.

Context (less_asym : ∀ x y, less x y = true → less y x = false).
Context (less_trans_neg : ∀ x y z,
           less y x = false → less z y = false → less z x = false).

Lemma go_insert_sorted x rp :
  StronglySorted (flip not_after) rp →
  StronglySorted (flip not_after) (go_insert x rp).
Proof using less_asym less_trans_neg.
  unfold not_after, flip.
  induction 1 as [|y rp Hs IH Hall]; simpl; [repeat constructor|].
  destruct (less x y) eqn:Hxy; constructor.
  - done.
  - rewrite (go_insert_perm x rp). constructor; [|done].
    by apply less_asym.
  - by constructor.
  - constructor; [done|]. eapply Forall_impl; [exact Hall|].
    intros z Hz. simpl in *. by eapply less_trans_neg.
Qed.

Lemma foldl_insert_sorted l rp :
  StronglySorted (flip not_after) rp →
  StronglySorted (flip not_after) (foldl (λ rp x, go_insert x rp) rp l).
Proof using less_asym less_trans_neg.
  revert rp. induction l as [|x l IH]; intros rp Hs; simpl; [done|].
  by apply IH, go_insert_sorted.
Qed.

Lemma StronglySorted_reverse (R : relation A) l :
  StronglySorted (flip R) l → StronglySorted R (reverse l).
Proof.
  induction 1 as [|x l Hs IH Hall]; [constructor|].
  rewrite reverse_cons. apply StronglySorted_app. split_and!.
  - intros y z Hy ->%list_elem_of_singleton.
    rewrite Forall_forall in Hall. apply Hall. by apply elem_of_reverse.
  - done.
  - repeat constructor.
Qed.

(** The result is sorted: no element is [less] than an earlier one. *)
Lemma go_sort_sorted l : StronglySorted not_after (go_sort l).
Proof using less_asym less_trans_neg.
  apply StronglySorted_reverse, foldl_insert_sorted. constructor.
Qed.

(** If ties are excluded, every sorted permutation is the same list. *)
Lemma go_sort_unique l l' :
  (∀ x y, x ∈ l → y ∈ l → less x y = false → less y x = false → x = y) →
  l' ≡ₚ l → StronglySorted not_after l' → go_sort l = l'.
Proof using less_asym less_trans_neg.
  intros Htot Hp Hs. eapply (StronglySorted_unique_strong not_after).
  - intros x y Hx Hy H1 H2. apply Htot; try done.
    + by apply elem_of_go_sort.
    + by rewrite Hp in Hy.
  - apply go_sort_sorted.
  - done.
  - by rewrite go_sort_perm, Hp.
Qed.
End GoSort.

(** Sorting commutes with a map that preserves the comparison. *)
Lemma go_insert_fmap {A B} (f : A → B) (less : A → A → bool) (less' : B → B → bool) x rp :
  (∀ a b, less' (f a) (f b) = less a b) →
  go_insert less' (f x) (f <$> rp) = f <$> go_insert less x rp.
Proof.
  intros Hf. induction rp as [|y rp IH]; [done|]. rewrite fmap_cons. simpl.
  rewrite Hf. destruct (less x y); [|done]. rewrite fmap_cons. by f_equal.
Qed.

Lemma go_sort_fmap {A B} (f : A → B) (less : A → A → bool) (less' : B → B → bool) l :
  (∀ a b, less' (f a) (f b) = less a b) →
  go_sort less' (f <$> l) = f <$> go_sort less l.
Proof.
  intros Hf. unfold go_sort. rewrite fmap_reverse. f_equal.
  change (@nil B) with (f <$> @nil A). generalize (@nil A).
  induction l as [|x l IH]; intros rp; [done|]. rewrite fmap_cons. simpl.
  rewrite (go_insert_fmap f less less'); [apply IH|done].
Qed.

(** ** Generic lemmas shared by the components *)

Lemma foldl_app_singleton {A B} (f : B → A → B) (l : list A) x b :
  foldl f b (l ++ [x]) = f (foldl f b l) x.
Proof. by rewrite foldl_app. Qed.

Lemma NoDup_fmap_inv_eq {A B} (f : A → B) (l : list A) x y :
  NoDup (f <$> l) → x ∈ l → y ∈ l → f x = f y → x = y.
Proof.
  induction l as [|z l IH]; [set_solver|]. rewrite fmap_cons, NoDup_cons.
  intros [Hz Hnd] Hx Hy Hf.
  apply elem_of_cons in Hx as [->|Hx]; apply elem_of_cons in Hy as [->|Hy]; try done.
  - exfalso. apply Hz. rewrite Hf. by apply list_elem_of_fmap_2.
  - exfalso. apply Hz. rewrite <-Hf. by apply list_elem_of_fmap_2.
  - by apply IH.
Qed.

Lemma Forall_foldl_inv {A B} (f : B → A → B) (P : B → Prop) (l : list A) b :
  P b → (∀ b x, x ∈ l → P b → P (f b x)) → P (foldl f b l).
Proof.
  revert b. induction l as [|x l IH]; intros b Hb Hf; simpl; [done|].
  apply IH; [apply Hf; set_solver|]. intros; apply Hf; set_solver.
Qed.

Lemma omap_cons {A B} (f : A → option B) x l :
  omap f (x :: l) = match f x with Some y => y :: omap f l | None => omap f l end.
Proof. done. Qed.

Lemma length_omap_le {A B} (f : A → option B) l : (length (omap f l) ≤ length l)%nat.
Proof.
  induction l as [|x l IH]; [done|]. rewrite omap_cons. destruct (f x); simpl; lia.
Qed.

Lemma and_iff_cond (P Q R : Prop) : (P → Q ↔ R) → (P ∧ Q ↔ P ∧ R).
Proof. tauto. Qed.

Lemma list_filter_none {A} (P : A → Prop) `{∀ x, Decision (P x)} (l : list A) :
  (∀ x, x ∈ l → ¬ P x) → filter P l = [].
Proof.
  induction l as [|x l IH]; intros Hn; [done|].
  rewrite filter_cons_False by (apply Hn; set_solver). apply IH. set_solver.
Qed.

Lemma list_filter_all {A} (P : A → Prop) `{∀ x, Decision (P x)} (l : list A) :
  (∀ x, x ∈ l → P x) → filter P l = l.
Proof.
  induction l as [|x l IH]; intros Hn; [done|].
  rewrite filter_cons_True by (apply Hn; set_solver). f_equal. apply IH. set_solver.
Qed.

Lemma StronglySorted_filter {A} (R : relation A) (P : A → Prop) `{∀ x, Decision (P x)} l :
  StronglySorted R l → StronglySorted R (filter P l).
Proof.
  induction 1 as [|x l Hs IH Hall]; [constructor|]. rewrite filter_cons.
  case_decide; [|done]. constructor; [done|].
  rewrite Forall_forall in Hall |- *. intros y Hy. apply Hall.
  by apply list_elem_of_filter in Hy as [].
Qed.

(** ** Automation *)

Create HintDb go.
Create Rewrite HintDb go.
#[export] Hint Resolve wrap32_id wrap64_id : go.
#[export] Hint Rewrite @go_sort_perm @elem_of_go_sort @length_go_sort : go.

(** Case analysis on every [match] and [if] of the goal, then close. *)
Ltac go_cases :=
  repeat (case_match || case_decide || case_bool_decide); simplify_eq/=; try done.

Ltac bool_to_prop :=
  repeat match goal with
  | H : _ && _ = true |- _ => apply andb_true_iff in H as [? ?]
  | H : _ || _ = false |- _ => apply orb_false_iff in H as [? ?]
  | H : negb _ = true |- _ => apply negb_true_iff in H
  | H : negb _ = false |- _ => apply negb_false_iff in H
  | H : bool_decide _ = true |- _ => apply bool_decide_eq_true in H
  | H : bool_decide _ = false |- _ => apply bool_decide_eq_false in H
  | H : (_ <? _)%Z = true |- _ => apply Z.ltb_lt in H
  | H : (_ <? _)%Z = false |- _ => apply Z.ltb_ge in H
  | H : (_ <=? _)%Z = true |- _ => apply Z.leb_le in H
  | H : (_ <=? _)%Z = false |- _ => apply Z.leb_gt in H
  | H : (_ =? _)%Z = true |- _ => apply Z.eqb_eq in H
  | H : (_ =? _)%Z = false |- _ => apply Z.eqb_neq in H
  end.
