(* ===== verification/Conditions.v ===== *)
(** * Status conditions: pkg/conditions (conditions.go, setter.go, getter.go)

    The list type [Conditions] with its lookups and its state-changing
    operations [Set], [Mark*] and [Delete].  The object that carries the list
    ([Getter]/[Setter] in the code) is the record [Getter].  Theorems: the
    list stays sorted with one entry per type, and the operations refine
    insertion into and deletion from a finite map keyed by condition type. *)

From S2P Require Import Prelude.
Local Open Scope Z_scope.

(** ** Data: [metav1.Condition]

    Times are nanoseconds since Go's zero time, so [0] is [IsZero]. *)

Inductive ConditionStatus :=
  | ConditionTrue
  | ConditionFalse
  | ConditionUnknown
  | ConditionOther (s : string).

#[export] Instance ConditionStatus_eq_dec : EqDecision ConditionStatus.
Proof. solve_decision. Defined.

Record Condition := mkCondition {
  c_Type : string;
  c_Status : ConditionStatus;
  c_ObservedGeneration : Z;
  c_LastTransitionTime : Z;
  c_Reason : string;
  c_Message : string
}.

#[export] Instance Condition_eq_dec : EqDecision Condition.
Proof. solve_decision. Defined.

Definition with_Type (t : string) (c : Condition) : Condition :=
  mkCondition t (c_Status c) (c_ObservedGeneration c) (c_LastTransitionTime c)
    (c_Reason c) (c_Message c).

Definition with_LastTransitionTime (t : Z) (c : Condition) : Condition :=
  mkCondition (c_Type c) (c_Status c) (c_ObservedGeneration c) t
    (c_Reason c) (c_Message c).

Definition ReadyConditionType : string := "Ready".

Abbreviation Conditions := (list Condition).

(** [time.Now().UTC().Truncate(time.Second)] *)
Definition truncate_second (now : Z) : Z := now - now `mod` 10 ^ 9.

(** ** State equality and order *)

Definition hasSameState (a b : Condition) : bool :=
  bool_decide (c_Type a = c_Type b) &&
  bool_decide (c_Status a = c_Status b) &&
  bool_decide (c_Reason a = c_Reason b) &&
  bool_decide (c_Message a = c_Message b).

Definition lexicographicLess (a b : Condition) : bool :=
  (bool_decide (c_Type a = ReadyConditionType) || string_lt (c_Type a) (c_Type b))
  && negb (bool_decide (c_Type b = ReadyConditionType)).

(** ** Lookups *)

Fixpoint Get (l : Conditions) (t : string) : option Condition :=
  match l with
  | [] => None
  | c :: l' => if decide (c_Type c = t) then Some c else Get l' t
  end.

Definition Has (l : Conditions) (t : string) : bool :=
  match Get l t with Some _ => true | None => false end.

Definition IsTrue (l : Conditions) (t : string) : bool :=
  match Get l t with
  | Some c => bool_decide (c_Status c = ConditionTrue)
  | None => false
  end.

Definition IsFalse (l : Conditions) (t : string) : bool :=
  match Get l t with
  | Some c => bool_decide (c_Status c = ConditionFalse)
  | None => false
  end.

Definition IsUnknown (l : Conditions) (t : string) : bool :=
  match Get l t with
  | Some c => bool_decide (c_Status c = ConditionUnknown)
  | None => true
  end.

Definition GetReason (l : Conditions) (t : string) : string :=
  match Get l t with Some c => c_Reason c | None => "" end.

Definition GetMessage (l : Conditions) (t : string) : string :=
  match Get l t with Some c => c_Message c | None => "" end.

Definition GetLastTransitionTime (l : Conditions) (t : string) : option Z :=
  c_LastTransitionTime <$> Get l t.

(** ** Constructors

    [message] is the formatted [fmt.Sprintf(messageFormat, messageArgs...)]. *)

Definition TrueCondition (t : string) : Condition :=
  mkCondition t ConditionTrue 0 0 "True" "".

Definition FalseCondition (t reason message : string) : Condition :=
  mkCondition t ConditionFalse 0 0
    (if decide (reason = "") then "False" else reason) message.

Definition UnknownCondition (t reason message : string) : Condition :=
  mkCondition t ConditionUnknown 0 0
    (if decide (reason = "") then "Unknown" else reason) message.

(** ** State-changing operations

    [Set] also writes the transition time back through its pointer argument;
    [set_ptr] returns the new list with the updated condition. *)

Fixpoint set_existing (now : Z) (l : Conditions) (c : Condition)
    : option (Conditions * Condition) :=
  match l with
  | [] => None
  | e :: l' =>
    if decide (c_Type e = c_Type c) then
      if hasSameState e c
      then Some (l, with_LastTransitionTime (c_LastTransitionTime e) c)
      else let c' := with_LastTransitionTime (truncate_second now) c in
           Some (c' :: l', c')
    else match set_existing now l' c with
         | Some (l'', c') => Some (e :: l'', c')
         | None => None
         end
  end.

Definition set_new (now : Z) (l : Conditions) (c : Condition) : Conditions * Condition :=
  let c' := if decide (c_LastTransitionTime c = 0)
            then with_LastTransitionTime (truncate_second now) c else c in
  (l ++ [c'], c').

Definition set_ptr (now : Z) (l : Conditions) (c : option Condition)
    : Conditions * option Condition :=
  match c with
  | None => (l, None)
  | Some c =>
    let '(l', c') := default (set_new now l c) (set_existing now l c) in
    (go_sort lexicographicLess l', Some c')
  end.

Definition Set_ (now : Z) (l : Conditions) (c : option Condition) : Conditions :=
  (set_ptr now l c).1.

Definition MarkTrue (now : Z) (l : Conditions) (t : string) : Conditions :=
  Set_ now l (Some (TrueCondition t)).

Definition MarkUnknown (now : Z) (l : Conditions) (t reason message : string) : Conditions :=
  Set_ now l (Some (UnknownCondition t reason message)).

Definition MarkFalse (now : Z) (l : Conditions) (t reason message : string) : Conditions :=
  Set_ now l (Some (FalseCondition t reason message)).

(** [err] is [err.Error()]. *)
Definition MarkError (now : Z) (l : Conditions) (t reason err : string) : Conditions :=
  Set_ now l (Some (FalseCondition t reason err)).

Definition Delete (l : Conditions) (t : string) : Conditions :=
  match l with
  | [] => l
  | _ => filter (λ c, c_Type c ≠ t) l
  end.

(** ** Objects with conditions

    [Getter]/[Setter]: the conditions, and what the two type assertions used
    by the merge code find: the name when the value is a [metav1.Object], the
    kind when it is a [runtime.Object]. *)

Record Getter := mkGetter {
  g_Conditions : Conditions;
  g_Name : option string;
  g_Kind : option string
}.

Definition SetConditions (g : Getter) (l : Conditions) : Getter :=
  mkGetter l (g_Name g) (g_Kind g).

Definition obj_Set (now : Z) (g : Getter) (c : option Condition) : Getter :=
  SetConditions g (Set_ now (g_Conditions g) c).

Definition obj_Delete (g : Getter) (t : string) : Getter :=
  SetConditions g (Delete (g_Conditions g) t).

(** A list as the code keeps it: one entry per type, sorted. *)
Definition wf (l : Conditions) : Prop :=
  NoDup (c_Type <$> l) ∧ StronglySorted (not_after lexicographicLess) l.

(** ** Abstract specification: a finite map from type to condition *)

Definition abs (l : Conditions) : gmap string Condition :=
  list_to_map ((λ c, (c_Type c, c)) <$> l).

Definition spec_set (now : Z) (m : gmap string Condition) (c : Condition)
    : gmap string Condition :=
  match m !! c_Type c with
  | Some e =>
    if hasSameState e c then m
    else <[c_Type c := with_LastTransitionTime (truncate_second now) c]> m
  | None =>
    <[c_Type c := if decide (c_LastTransitionTime c = 0)
                  then with_LastTransitionTime (truncate_second now) c else c]> m
  end.

(** ** Order lemmas *)

Lemma hasSameState_refl a : hasSameState a a = true.
Proof. unfold hasSameState. by rewrite !bool_decide_eq_true_2. Qed.

Lemma hasSameState_spec a b :
  hasSameState a b = true ↔
  c_Type a = c_Type b ∧ c_Status a = c_Status b ∧
  c_Reason a = c_Reason b ∧ c_Message a = c_Message b.
Proof.
  unfold hasSameState. rewrite !andb_true_iff, !bool_decide_eq_true. tauto.
Qed.

(** The equivalence of conditions up to transition time and generation. *)
Definition same_state (a b : Condition) : Prop := hasSameState a b = true.

#[export] Instance same_state_equiv : Equivalence same_state.
Proof.
  unfold same_state. split.
  - intros a. apply hasSameState_refl.
  - intros a b. rewrite !hasSameState_spec. intuition congruence.
  - intros a b c. rewrite !hasSameState_spec. intuition congruence.
Qed.

Lemma lexicographicLess_true a b :
  lexicographicLess a b = true ↔
  (c_Type a = ReadyConditionType ∨ string_lt (c_Type a) (c_Type b) = true) ∧
  c_Type b ≠ ReadyConditionType.
Proof.
  unfold lexicographicLess.
  rewrite andb_true_iff, orb_true_iff, negb_true_iff, bool_decide_eq_true,
    bool_decide_eq_false. done.
Qed.

Lemma lexicographicLess_false a b :
  lexicographicLess a b = false ↔
  c_Type b = ReadyConditionType ∨
  (c_Type a ≠ ReadyConditionType ∧ String.le (c_Type b) (c_Type a)).
Proof.
  unfold lexicographicLess.
  rewrite andb_false_iff, orb_false_iff, negb_false_iff, bool_decide_eq_true,
    bool_decide_eq_false, string_lt_false. tauto.
Qed.

Lemma lexicographicLess_asym a b :
  lexicographicLess a b = true → lexicographicLess b a = false.
Proof.
  rewrite lexicographicLess_true, lexicographicLess_false.
  intros [[?|[? _]%string_lt_spec] ?]; tauto.
Qed.

Lemma lexicographicLess_trans_neg a b c :
  lexicographicLess b a = false → lexicographicLess c b = false →
  lexicographicLess c a = false.
Proof.
  rewrite !lexicographicLess_false.
  intros [?|[? Hab]] [?|[? Hbc]]; [tauto..|congruence|].
  right. split; [done|]. by etrans.
Qed.

Lemma lexicographicLess_tie a b :
  lexicographicLess a b = false → lexicographicLess b a = false →
  c_Type a = c_Type b.
Proof.
  rewrite !lexicographicLess_false.
  intros [?|[? H1]] [?|[? H2]]; [congruence..|].
  by apply (anti_symm String.le).
Qed.

#[export] Hint Resolve lexicographicLess_asym lexicographicLess_trans_neg
  hasSameState_refl : go.

Definition sort_conditions (l : Conditions) : Conditions := go_sort lexicographicLess l.

Lemma sort_conditions_sorted l :
  StronglySorted (not_after lexicographicLess) (go_sort lexicographicLess l).
Proof. apply go_sort_sorted; eauto with go. Qed.

(** ** Lookup lemmas *)

Lemma Get_elem_of l t c : Get l t = Some c → c ∈ l ∧ c_Type c = t.
Proof.
  induction l as [|x l IH]; simpl; [done|]. case_decide; [|set_solver].
  intros [= <-]. set_solver.
Qed.

Lemma Get_None l t : Get l t = None ↔ t ∉ c_Type <$> l.
Proof.
  induction l as [|x l IH]; simpl; [set_solver|].
  case_decide; [set_solver|]. rewrite IH. set_solver.
Qed.

Lemma elem_of_Get l c :
  NoDup (c_Type <$> l) → c ∈ l → Get l (c_Type c) = Some c.
Proof.
  intros Hnd Hc. destruct (Get l (c_Type c)) as [c'|] eqn:E.
  - apply Get_elem_of in E as [Hc' Ht]. f_equal. by eapply NoDup_fmap_inv_eq.
  - apply Get_None in E. exfalso. by apply E, list_elem_of_fmap_2.
Qed.

Lemma Get_perm l l' t :
  NoDup (c_Type <$> l) → l ≡ₚ l' → Get l t = Get l' t.
Proof.
  intros Hnd Hp. assert (NoDup (c_Type <$> l')) by by rewrite <-Hp.
  destruct (Get l t) as [c|] eqn:E.
  - apply Get_elem_of in E as [Hc <-]. symmetry. apply elem_of_Get; [done|].
    by rewrite <-Hp.
  - symmetry. apply Get_None. apply Get_None in E. by rewrite <-Hp.
Qed.

Lemma abs_lookup l t : abs l !! t = Get l t.
Proof.
  unfold abs. induction l as [|c l IH]; simpl; [done|].
  rewrite lookup_insert. case_decide; [done|]. apply IH.
Qed.

Lemma Get_app l l' t :
  Get (l ++ l') t = match Get l t with Some c => Some c | None => Get l' t end.
Proof. induction l as [|c l IH]; simpl; [done|]. by case_decide. Qed.

(** ** [Set] *)

Lemma set_existing_None now l c :
  set_existing now l c = None ↔ Get l (c_Type c) = None.
Proof.
  induction l as [|e l IH]; simpl; [done|].
  case_decide; [by destruct (hasSameState e c)|].
  rewrite <-IH. by destruct (set_existing now l c) as [[]|].
Qed.

Lemma set_existing_Some now l c l' c' :
  set_existing now l c = Some (l', c') →
  c_Type <$> l' = c_Type <$> l ∧
  ∃ e, Get l (c_Type c) = Some e ∧
  (∀ t, t ≠ c_Type c → Get l' t = Get l t) ∧
  if hasSameState e c
  then l' = l ∧ c' = with_LastTransitionTime (c_LastTransitionTime e) c
  else c' = with_LastTransitionTime (truncate_second now) c ∧
       Get l' (c_Type c) = Some c'.
Proof.
  revert l' c'. induction l as [|e l IH]; intros l' c'; simpl; [done|].
  case_decide as Ht.
  - destruct (hasSameState e c) eqn:Hs; intros [= <- <-].
    + split; [done|]. exists e. by rewrite Hs.
    + split; [by rewrite !fmap_cons, Ht|]. exists e. rewrite Hs. split_and!; simpl; try done.
      * intros t Hne. by rewrite !decide_False by congruence.
      * by rewrite decide_True.
  - destruct (set_existing now l c) as [[l1 c1]|]; [|done]. intros [= <- <-].
    destruct (IH _ _ eq_refl) as (Hty & e' & Hg & Hoth & Hcase).
    split; [by rewrite !fmap_cons, Hty|]. exists e'. split; [done|]. split.
    + intros t Hne. simpl. case_decide; [done|]. by apply Hoth.
    + destruct (hasSameState e' c); [naive_solver|]. simpl. by rewrite decide_False.
Qed.

(** What [Set] leaves before it sorts. *)
Definition set_unsorted (now : Z) (l : Conditions) (c : Condition) : Conditions * Condition :=
  default (set_new now l c) (set_existing now l c).

Lemma Set_unfold now l c :
  Set_ now l (Some c) = go_sort lexicographicLess (set_unsorted now l c).1.
Proof. unfold Set_, set_ptr, set_unsorted. by destruct (default _ _). Qed.

Lemma set_unsorted_types now l c :
  NoDup (c_Type <$> l) → NoDup (c_Type <$> (set_unsorted now l c).1).
Proof.
  intros Hnd. unfold set_unsorted.
  destruct (set_existing now l c) as [[l' c']|] eqn:E; simpl.
  - apply set_existing_Some in E as [-> _]. done.
  - apply set_existing_None, Get_None in E.
    rewrite fmap_app, NoDup_app. split_and!; [done| |by apply NoDup_singleton].
    intros t Ht ->%list_elem_of_singleton. simpl in Ht. by case_decide.
Qed.

Lemma set_unsorted_abs now l c :
  abs (set_unsorted now l c).1 = spec_set now (abs l) c.
Proof.
  apply map_eq. intros t. unfold spec_set, set_unsorted.
  rewrite abs_lookup. rewrite (abs_lookup l (c_Type c)).
  destruct (set_existing now l c) as [[l' c']|] eqn:E; simpl.
  - apply set_existing_Some in E as (_ & e & Hg & Hoth & Hcase). rewrite Hg.
    destruct (hasSameState e c).
    + destruct Hcase as [-> _]. by rewrite abs_lookup.
    + destruct Hcase as [-> Hg']. rewrite lookup_insert. case_decide; subst; [done|].
      rewrite abs_lookup. by apply Hoth.
  - apply set_existing_None in E. rewrite E, Get_app, lookup_insert.
    destruct (decide (c_Type c = t)) as [<-|Hne].
    + rewrite E. case_decide; simpl; by rewrite decide_True.
    + rewrite abs_lookup. destruct (Get l t); [done|].
      case_decide; simpl; by rewrite decide_False.
Qed.

Lemma set_unsorted_sort_abs now l c :
  NoDup (c_Type <$> l) → abs (Set_ now l (Some c)) = spec_set now (abs l) c.
Proof.
  intros Hnd. rewrite <-set_unsorted_abs, Set_unfold. apply map_eq. intros t.
  rewrite !abs_lookup. apply Get_perm; [|by rewrite go_sort_perm].
  rewrite go_sort_perm. by apply set_unsorted_types.
Qed.

Lemma Set_NoDup now l c :
  NoDup (c_Type <$> l) → NoDup (c_Type <$> Set_ now l c).
Proof.
  intros Hnd. destruct c as [c|]; [|done].
  rewrite Set_unfold, go_sort_perm. by apply set_unsorted_types.
Qed.

Lemma Set_lookup now l c t :
  NoDup (c_Type <$> l) → Get (Set_ now l (Some c)) t = spec_set now (abs l) c !! t.
Proof. intros. by rewrite <-abs_lookup, set_unsorted_sort_abs. Qed.

Lemma Set_Get_other now l c t :
  NoDup (c_Type <$> l) → t ≠ c_Type c → Get (Set_ now l (Some c)) t = Get l t.
Proof.
  intros Hnd Hne. rewrite Set_lookup by done. unfold spec_set.
  rewrite <-(abs_lookup l t). go_cases; by rewrite lookup_insert_ne.
Qed.

Lemma Set_Get_same now l c :
  NoDup (c_Type <$> l) →
  ∃ c', Get (Set_ now l (Some c)) (c_Type c) = Some c' ∧ hasSameState c' c = true.
Proof.
  intros Hnd. rewrite Set_lookup by done. unfold spec_set.
  destruct (abs l !! c_Type c) as [e|] eqn:He; [destruct (hasSameState e c) eqn:Hs|].
  - by exists e.
  - eexists. rewrite lookup_insert_eq. split; [done|]. by apply hasSameState_spec.
  - eexists. rewrite lookup_insert_eq. split; [done|].
    apply hasSameState_spec. by case_decide.
Qed.

Lemma Set_sorted now l c :
  StronglySorted (not_after lexicographicLess) (Set_ now l (Some c)).
Proof. rewrite Set_unfold. apply sort_conditions_sorted. Qed.

(** ** [Delete] *)

Lemma Delete_filter l t : Delete l t = filter (λ c, c_Type c ≠ t) l.
Proof. by destruct l. Qed.

Lemma Delete_abs l t : abs (Delete l t) = delete t (abs l).
Proof.
  apply map_eq. intros t'. rewrite Delete_filter, lookup_delete, !abs_lookup.
  induction l as [|c l IH]; simpl; [by case_decide|].
  rewrite filter_cons. repeat (case_decide; simpl in *; subst); congruence.
Qed.

Lemma Delete_lookup l t t' :
  Get (Delete l t) t' = if decide (t = t') then None else Get l t'.
Proof. by rewrite <-abs_lookup, Delete_abs, lookup_delete, abs_lookup. Qed.

Lemma Delete_NoDup l t : NoDup (c_Type <$> l) → NoDup (c_Type <$> Delete l t).
Proof.
  rewrite Delete_filter. intros Hnd.
  eapply sublist_NoDup; [exact Hnd|]. apply fmap_sublist, sublist_filter.
Qed.

(** ** Properties *)

(** The operations a controller performs on an object's conditions. *)
Inductive cond_op :=
  | OpSet (now : Z) (c : option Condition)
  | OpMarkTrue (now : Z) (t : string)
  | OpMarkUnknown (now : Z) (t reason message : string)
  | OpMarkFalse (now : Z) (t reason message : string)
  | OpMarkError (now : Z) (t reason err : string)
  | OpDelete (t : string).

Definition run_op (l : Conditions) (op : cond_op) : Conditions :=
  match op with
  | OpSet now c => Set_ now l c
  | OpMarkTrue now t => MarkTrue now l t
  | OpMarkUnknown now t r m => MarkUnknown now l t r m
  | OpMarkFalse now t r m => MarkFalse now l t r m
  | OpMarkError now t r e => MarkError now l t r e
  | OpDelete t => Delete l t
  end.

Lemma Set_wf now l c : wf l → wf (Set_ now l c).
Proof.
  intros [Hnd Hs]. split; [by apply Set_NoDup|].
  destruct c; [apply Set_sorted|done].
Qed.

Lemma Delete_wf l t : wf l → wf (Delete l t).
Proof.
  intros [Hnd Hs]. split; [by apply Delete_NoDup|].
  rewrite Delete_filter. by apply StronglySorted_filter.
Qed.

#[export] Hint Resolve Set_wf Delete_wf : go.

Lemma wf_nil : wf [].
Proof. split; constructor. Qed.

(** Every list of conditions a controller builds with Set, the Mark
    functions and Delete, in any order and at any times, has one entry per
    type and is sorted with Ready first. *)
Theorem conditions_always_wf (ops : list cond_op) : wf (foldl run_op [] ops).
Proof.
  apply Forall_foldl_inv; [apply wf_nil|].
  intros l [] _ Hl; simpl; unfold MarkTrue, MarkUnknown, MarkFalse, MarkError;
    eauto with go.
Qed.

(** C38: on a well-formed list, Set and Delete implement insertion into and
    deletion from the map of conditions keyed by type, where an insertion that
    does not change Status, Reason or Message leaves the map as it is, and Get
    is the map's lookup. *)
Theorem conditions_refine_map (now : Z) (l : Conditions) (c : Condition) (t : string) :
  wf l →
  abs (Set_ now l (Some c)) = spec_set now (abs l) c ∧
  abs (Delete l t) = delete t (abs l) ∧
  Get l t = abs l !! t.
Proof.
  intros [Hnd _]. split_and!.
  - by apply set_unsorted_sort_abs.
  - apply Delete_abs.
  - by rewrite abs_lookup.
Qed.

Definition ex_conditions : Conditions :=
  MarkFalse 5000000000 (MarkTrue 3000000000 [] "Created") "Ready" "NotReady" "booting".

Lemma ex_conditions_wf : wf ex_conditions.
Proof. unfold ex_conditions, MarkFalse, MarkTrue. eauto using wf_nil with go. Qed.

Lemma conditions_refine_map_witness :
  abs (Set_ 7 ex_conditions (Some (TrueCondition "Ready"))) =
    spec_set 7 (abs ex_conditions) (TrueCondition "Ready") ∧
  abs (Delete ex_conditions "Created") = delete "Created" (abs ex_conditions) ∧
  Get ex_conditions "Created" = abs ex_conditions !! "Created".
Proof. apply conditions_refine_map, ex_conditions_wf. Defined.

Lemma set_existing_same now l c e :
  Get l (c_Type c) = Some e → hasSameState e c = true →
  set_existing now l c = Some (l, with_LastTransitionTime (c_LastTransitionTime e) c).
Proof.
  intros Hg Hs. induction l as [|x l IH]; simpl in *; [done|].
  case_decide.
  - simplify_eq. by rewrite Hs.
  - by rewrite (IH Hg).
Qed.

Lemma go_sort_sorted_id l :
  wf l → go_sort lexicographicLess l = l.
Proof.
  intros [Hnd Hs]. apply go_sort_unique; eauto with go.
  intros x y Hx Hy H1 H2. eapply NoDup_fmap_inv_eq; [done..|].
  by apply lexicographicLess_tie.
Qed.

(** Setting a condition again in the same state, at any later time,
    changes nothing in the list, and hands the recorded transition time back
    to the caller: transition times only move on a change of state. *)
Theorem Set_same_state_keeps_time (now now' : Z) (l : Conditions) (c c' : Condition) :
  wf l → hasSameState c c' = true →
  ∃ e, Get (Set_ now l (Some c)) (c_Type c) = Some e ∧
    set_ptr now' (Set_ now l (Some c)) (Some c') =
      (Set_ now l (Some c),
       Some (with_LastTransitionTime (c_LastTransitionTime e) c')).
Proof.
  intros Hwf Hs. destruct (Set_Get_same now l c) as (e & He & Hse); [apply Hwf|].
  exists e. split; [done|]. assert (hasSameState e c' = true) as Hec'.
  { change (same_state e c'). by transitivity c. }
  assert (c_Type c' = c_Type c) as Ht by (apply hasSameState_spec in Hs as [-> _]; done).
  unfold set_ptr. rewrite (set_existing_same _ _ _ e) by (by rewrite ?Ht).
  simpl. rewrite go_sort_sorted_id; [done|]. by apply Set_wf.
Qed.

Lemma Set_same_state_keeps_time_witness :
  ∃ e, Get (Set_ 9000000000 ex_conditions (Some (TrueCondition "Ready"))) "Ready" = Some e ∧
    set_ptr 20000000000 (Set_ 9000000000 ex_conditions (Some (TrueCondition "Ready")))
      (Some (TrueCondition "Ready")) =
    (Set_ 9000000000 ex_conditions (Some (TrueCondition "Ready")),
     Some (with_LastTransitionTime (c_LastTransitionTime e) (TrueCondition "Ready"))).
Proof.
  apply (Set_same_state_keeps_time 9000000000 20000000000 ex_conditions
           (TrueCondition "Ready") (TrueCondition "Ready")).
  - apply ex_conditions_wf.
  - reflexivity.
Defined.

(** Whatever sorting algorithm the runtime uses, the list Set returns is
    determined: any sorted permutation of a list with one entry per type is
    the list of the model, and a Ready condition comes first in it. *)
Theorem Set_sort_deterministic (l l' : Conditions) :
  NoDup (c_Type <$> l) → l' ≡ₚ l →
  StronglySorted (not_after lexicographicLess) l' →
  go_sort lexicographicLess l = l' ∧
  (Has l ReadyConditionType = true → c_Type <$> head l' = Some ReadyConditionType).
Proof.
  intros Hnd Hp Hs. split.
  - apply go_sort_unique; eauto with go.
    intros x y Hx Hy H1 H2. eapply NoDup_fmap_inv_eq; [done..|].
    by apply lexicographicLess_tie.
  - unfold Has. destruct (Get l ReadyConditionType) as [r|] eqn:E; [|done]. intros _.
    apply Get_elem_of in E as [Hr Ht]. rewrite <-Hp in Hr.
    destruct l' as [|h l']; [by apply elem_of_nil in Hr|]. simpl. f_equal.
    apply elem_of_cons in Hr as [->|Hr]; [done|].
    apply StronglySorted_inv in Hs as [_ Hall]. rewrite Forall_forall in Hall.
    specialize (Hall r Hr). unfold not_after in Hall.
    apply lexicographicLess_false in Hall as [|[? _]]; [done|congruence].
Qed.

Lemma Set_sort_deterministic_witness :
  go_sort lexicographicLess (reverse ex_conditions) = ex_conditions ∧
  (Has (reverse ex_conditions) ReadyConditionType = true →
   c_Type <$> head ex_conditions = Some ReadyConditionType).
Proof.
  apply Set_sort_deterministic.
  - rewrite reverse_Permutation. apply ex_conditions_wf.
  - by rewrite reverse_Permutation.
  - apply ex_conditions_wf.
Defined.

(** For conditions with one of the three standard statuses exactly one of
    IsTrue, IsFalse and IsUnknown holds of a type; a type with no condition
    counts as Unknown. *)
Theorem status_predicates_partition (l : Conditions) (t : string) :
  Forall (λ c, ∀ s, c_Status c ≠ ConditionOther s) l →
  (length (filter (λ b : bool, b = true)
    [IsTrue l t; IsFalse l t; IsUnknown l t]) = 1)%nat ∧
  (Has l t = false → IsUnknown l t = true).
Proof.
  intros Hall. unfold Has, IsTrue, IsFalse, IsUnknown.
  destruct (Get l t) as [c|] eqn:E; [|done].
  apply Get_elem_of in E as [Hc _]. rewrite Forall_forall in Hall.
  specialize (Hall c Hc). split; [|done].
  destruct (c_Status c) as [| | |s]; [done..|]. by destruct (Hall s).
Qed.

Lemma status_predicates_partition_witness :
  (length (filter (λ b : bool, b = true)
    [IsTrue ex_conditions "Ready"; IsFalse ex_conditions "Ready";
     IsUnknown ex_conditions "Ready"]) = 1)%nat ∧
  (Has ex_conditions "Ready" = false → IsUnknown ex_conditions "Ready" = true).
Proof. apply status_predicates_partition. by repeat constructor. Defined.
