(* ===== verification/ConditionsMerge.v ===== *)
(** * Merging conditions: pkg/conditions (merge.go, merge_strategies.go, getter.go)

    Conditions of one object ([summary]) or of several ([aggregate]) are
    grouped by status, the groups sorted by priority, and the top group gives
    status, reason and message of the target condition.  [mirror] copies the
    Ready condition of another object. *)

From S2P Require Import Prelude Conditions.
Local Open Scope Z_scope.

(** ** Data *)

(** [lc_Condition] is a pointer, nil when the object has no such condition. *)
Record localizedCondition := mkLocalized {
  lc_Condition : option Condition;
  lc_Getter : Getter
}.

(** A localized condition whose pointer is not nil. *)
Abbreviation located := (Condition * Getter)%type.

Record conditionGroup := mkGroup {
  cg_status : ConditionStatus;
  cg_conditions : list located
}.

Abbreviation conditionGroups := (list conditionGroup).

(** A nil slice is [None]. *)
Record mergeOptions := mkMergeOptions {
  mo_conditionTypes : option (list string);
  mo_addSourceRef : bool;
  mo_addStepCounter : bool;
  mo_addStepCounterIfOnlyConditionTypes : option (list string);
  mo_stepCounter : Z
}.

Definition no_options : mergeOptions := mkMergeOptions None false false None 0.

Definition MergeOption : Type := mergeOptions → mergeOptions.

(** The slice a variadic parameter receives: nil when there are no arguments. *)
Definition variadic {A} (t : list A) : option (list A) :=
  match t with [] => None | _ => Some t end.

Definition WithConditions (t : list string) : MergeOption := λ c,
  mkMergeOptions (variadic t) (mo_addSourceRef c) (mo_addStepCounter c)
    (mo_addStepCounterIfOnlyConditionTypes c) (mo_stepCounter c).

Definition WithStepCounterIf (value : bool) : MergeOption := λ c,
  mkMergeOptions (mo_conditionTypes c) (mo_addSourceRef c) value
    (mo_addStepCounterIfOnlyConditionTypes c) (mo_stepCounter c).

Definition WithStepCounter : MergeOption := λ c,
  mkMergeOptions (mo_conditionTypes c) (mo_addSourceRef c) true
    (mo_addStepCounterIfOnlyConditionTypes c) (mo_stepCounter c).

Definition WithStepCounterIfOnly (t : list string) : MergeOption := λ c,
  mkMergeOptions (mo_conditionTypes c) (mo_addSourceRef c) (mo_addStepCounter c)
    (variadic t) (mo_stepCounter c).

Definition AddSourceRef : MergeOption := λ c,
  mkMergeOptions (mo_conditionTypes c) true (mo_addStepCounter c)
    (mo_addStepCounterIfOnlyConditionTypes c) (mo_stepCounter c).

Definition with_stepCounter (n : Z) : MergeOption := λ c,
  mkMergeOptions (mo_conditionTypes c) (mo_addSourceRef c) (mo_addStepCounter c)
    (mo_addStepCounterIfOnlyConditionTypes c) n.

Definition apply_options (options : list MergeOption) (o : mergeOptions) : mergeOptions :=
  foldl (λ o f, f o) o options.

(** ** Groups *)

Definition mergePriority (g : conditionGroup) : Z :=
  match cg_status g with
  | ConditionFalse => 2
  | ConditionTrue => 3
  | ConditionUnknown => 4
  | ConditionOther _ => 99
  end.

Definition groups_Less (a b : conditionGroup) : bool := mergePriority a <? mergePriority b.

(** The inner loop of [getConditionGroups]: append to the group with the
    condition's status, or open a new group. *)
Fixpoint add_to_groups (c : located) (groups : conditionGroups) : conditionGroups :=
  match groups with
  | [] => [mkGroup (c_Status c.1) [c]]
  | g :: groups' =>
    if decide (cg_status g = c_Status c.1)
    then mkGroup (cg_status g) (cg_conditions g ++ [c]) :: groups'
    else g :: add_to_groups c groups'
  end.

(** The comparison that sorts the top group. *)
Definition located_Less (a b : located) : bool :=
  if decide (c_Type a.1 = c_Type b.1) then
    match g_Name a.2, g_Name b.2 with
    | Some na, Some nb => string_lt na nb
    | None, Some _ => true
    | _, None => false
    end
  else lexicographicLess a.1 b.1.

Definition collect_groups (conditions : list localizedCondition) : conditionGroups :=
  foldl (λ groups lc,
           match lc_Condition lc with
           | None => groups
           | Some c => add_to_groups (c, lc_Getter lc) groups
           end) [] conditions.

Definition sort_top (groups : conditionGroups) : conditionGroups :=
  match groups with
  | [] => []
  | g :: groups' =>
    mkGroup (cg_status g) (go_sort located_Less (cg_conditions g)) :: groups'
  end.

Definition getConditionGroups (conditions : list localizedCondition) : conditionGroups :=
  sort_top (go_sort groups_Less (collect_groups conditions)).

Definition TopGroup (g : conditionGroups) : option conditionGroup := head g.

Fixpoint getByStatusAndSeverity (g : conditionGroups) (status : ConditionStatus)
    : option conditionGroup :=
  match g with
  | [] => None
  | group :: g' =>
    if decide (cg_status group = status) then Some group
    else getByStatusAndSeverity g' status
  end.

Definition TrueGroup (g : conditionGroups) : option conditionGroup :=
  getByStatusAndSeverity g ConditionTrue.

Definition FalseGroup (g : conditionGroups) : option conditionGroup :=
  getByStatusAndSeverity g ConditionFalse.

(** ** Merge strategies *)

Fixpoint find_type (t : string) (l : list located) : option located :=
  match l with
  | [] => None
  | c :: l' => if decide (c_Type c.1 = t) then Some c else find_type t l'
  end.

Fixpoint first_by_priority (priority : list string) (l : list located) : option located :=
  match priority with
  | [] => None
  | p :: priority' =>
    match find_type p l with
    | Some c => Some c
    | None => first_by_priority priority' l
    end
  end.

Definition getFirstCondition (g : conditionGroups) (priority : list string) : option located :=
  match TopGroup g with
  | None => None
  | Some topGroup =>
    match cg_conditions topGroup with
    | [] => None
    | [c] => Some c
    | c :: _ =>
      match first_by_priority priority (cg_conditions topGroup) with
      | Some c' => Some c'
      | None => Some c
      end
    end
  end.

(** [strings.Contains(s, "@")] *)
Fixpoint contains_at (s : string) : bool :=
  match s with
  | EmptyString => false
  | String a s' => bool_decide (String a EmptyString = "@") || contains_at s'
  end.

Definition localizeReason (reason : string) (from : Getter) : string :=
  if contains_at reason then reason
  else match g_Kind from, g_Name from with
       | Some kind, Some name => reason +:+ " @ " +:+ kind +:+ "/" +:+ name
       | _, _ => reason
       end.

Definition getFirstReason (g : conditionGroups) (order : list string) (addSourceRef : bool)
    : string :=
  match getFirstCondition g order with
  | Some condition =>
    if addSourceRef then localizeReason (c_Reason condition.1) condition.2
    else c_Reason condition.1
  | None => ""
  end.

Definition getReason (groups : conditionGroups) (options : mergeOptions) : string :=
  getFirstReason groups (default [] (mo_conditionTypes options)) (mo_addSourceRef options).

Definition getStepCounterMessage (groups : conditionGroups) (to : Z) : string :=
  let ct := match TrueGroup groups with
            | Some trueGroup => Z.of_nat (length (cg_conditions trueGroup))
            | None => 0
            end in
  pretty ct +:+ " of " +:+ pretty to +:+ " completed".

Definition getFirstMessage (groups : conditionGroups) (order : list string) : string :=
  match getFirstCondition groups order with
  | Some condition => c_Message condition.1
  | None => ""
  end.

Definition getMessage (groups : conditionGroups) (options : mergeOptions) : string :=
  if mo_addStepCounter options
  then getStepCounterMessage groups (mo_stepCounter options)
  else getFirstMessage groups (default [] (mo_conditionTypes options)).

(** ** merge *)

Definition merge (conditions : list localizedCondition) (targetCondition : string)
    (options : mergeOptions) : option Condition :=
  let g := getConditionGroups conditions in
  match TopGroup g with
  | None => None
  | Some top =>
    match cg_status top with
    | ConditionTrue => Some (TrueCondition targetCondition)
    | ConditionFalse =>
      Some (FalseCondition targetCondition (getReason g options) (getMessage g options))
    | _ =>
      Some (UnknownCondition targetCondition (getReason g options) (getMessage g options))
    end
  end.

(** ** summary, mirror, aggregate *)

Definition in_types (t : string) (types : list string) : bool := bool_decide (t ∈ types).

Definition in_summary_scope (o : mergeOptions) (c : Condition) : bool :=
  negb (bool_decide (c_Type c = ReadyConditionType)) &&
  match mo_conditionTypes o with
  | None => true
  | Some types => in_types (c_Type c) types
  end.

Definition summary_scope (o : mergeOptions) (from : Getter) : list localizedCondition :=
  (λ c, mkLocalized (Some c) from) <$>
    filter (λ c, in_summary_scope o c = true) (g_Conditions from).

Definition scope_within (types : list string) (scope : list localizedCondition) : bool :=
  forallb (λ lc, match lc_Condition lc with
                 | Some c => in_types (c_Type c) types
                 | None => true
                 end) scope.

Definition summary_options (o : mergeOptions) (scope : list localizedCondition) : mergeOptions :=
  let o := match mo_addStepCounterIfOnlyConditionTypes o with
           | Some types => if scope_within types scope then o else WithStepCounterIf false o
           | None => o
           end in
  if mo_addStepCounter o then
    let n := Z.of_nat (length scope) in
    let n := match mo_conditionTypes o with
             | Some types => Z.of_nat (length types) | None => n end in
    let n := match mo_addStepCounterIfOnlyConditionTypes o with
             | Some types => Z.of_nat (length types) | None => n end in
    with_stepCounter n o
  else o.

Definition summary (from : Getter) (options : list MergeOption) : option Condition :=
  let o := apply_options options no_options in
  let scope := summary_scope o from in
  merge scope ReadyConditionType (summary_options o scope).

Record mirrorOptions := mkMirrorOptions {
  mi_fallbackTo : option bool;
  mi_fallbackReason : string;
  mi_fallbackMessage : string
}.

Definition MirrorOptions : Type := mirrorOptions → mirrorOptions.

Definition WithFallbackValue (fallbackValue : bool) (reason message : string) : MirrorOptions :=
  λ _, mkMirrorOptions (Some fallbackValue) reason message.

Definition mirror (from : Getter) (targetCondition : string) (options : list MirrorOptions)
    : option Condition :=
  let o := foldl (λ o f, f o) (mkMirrorOptions None "" "") options in
  let condition :=
    match mi_fallbackTo o, Get (g_Conditions from) ReadyConditionType with
    | Some true, None => Some (TrueCondition targetCondition)
    | Some false, None =>
      Some (FalseCondition targetCondition (mi_fallbackReason o) (mi_fallbackMessage o))
    | _, c => c
    end in
  with_Type targetCondition <$> condition.

Definition aggregate (from : list Getter) (targetCondition : string)
    (options : list MergeOption) : option Condition :=
  let scope := (λ g, mkLocalized (Get (g_Conditions g) ReadyConditionType) g) <$> from in
  let o := apply_options options
             (mkMergeOptions None false true None (Z.of_nat (length from))) in
  merge scope targetCondition o.

(** A plain [Conditions] slice as a [Getter]: neither a [metav1.Object] nor a
    [runtime.Object]. *)
Definition conditions_getter (l : Conditions) : Getter := mkGetter l None None.

Definition SetSummary (now : Z) (l : Conditions) (options : list MergeOption) : Conditions :=
  Set_ now l (summary (conditions_getter l) options).

Definition SetMirror (now : Z) (l : Conditions) (targetCondition : string) (from : Getter)
    (options : list MirrorOptions) : Conditions :=
  Set_ now l (mirror from targetCondition options).

Definition SetAggregate (now : Z) (l : Conditions) (targetCondition : string)
    (from : list Getter) (options : list MergeOption) : Conditions :=
  Set_ now l (aggregate from targetCondition options).

(** ** Grouping lemmas *)

Definition located_of (conditions : list localizedCondition) : list located :=
  omap (λ lc, (λ c, (c, lc_Getter lc)) <$> lc_Condition lc) conditions.

Definition status_of (c : located) : ConditionStatus := c_Status c.1.

(** [gs] partitions [done] by status, each group in list order. *)
Definition groups_ok (done : list located) (gs : conditionGroups) : Prop :=
  NoDup (cg_status <$> gs) ∧
  (∀ g, g ∈ gs → cg_conditions g = filter (λ c, status_of c = cg_status g) done) ∧
  (∀ s, s ∈ cg_status <$> gs ↔ s ∈ status_of <$> done).

Lemma add_to_groups_status c gs :
  cg_status <$> add_to_groups c gs =
  (if decide (status_of c ∈ cg_status <$> gs) then cg_status <$> gs
   else (cg_status <$> gs) ++ [status_of c]).
Proof.
  unfold status_of. induction gs as [|g gs IH]; simpl; [done|].
  destruct (decide (cg_status g = c_Status c.1)) as [Hg|Hg]; rewrite !fmap_cons; simpl.
  - rewrite decide_True; [done|]. rewrite <-Hg. set_solver.
  - rewrite IH. repeat case_decide; simpl; try done; set_solver.
Qed.

Lemma add_to_groups_elem c gs g :
  NoDup (cg_status <$> gs) → g ∈ add_to_groups c gs →
  (g ∈ gs ∧ cg_status g ≠ status_of c) ∨
  (∃ g0, g0 ∈ gs ∧ cg_status g0 = status_of c ∧
         g = mkGroup (status_of c) (cg_conditions g0 ++ [c])) ∨
  ((status_of c ∉ (cg_status <$> gs)) ∧ g = mkGroup (status_of c) [c]).
Proof.
  unfold status_of. induction gs as [|x gs IH]; simpl.
  { intros _ ->%list_elem_of_singleton. right. right. set_solver. }
  rewrite NoDup_cons. intros [Hx Hnd]. case_decide as Hs.
  - intros [->|Hg]%elem_of_cons.
    + right. left. exists x. rewrite <-Hs. set_solver.
    + left. split; [set_solver|]. rewrite <-Hs. intros Heq. apply Hx. rewrite <-Heq.
      by apply list_elem_of_fmap_2.
  - intros [->|Hg]%elem_of_cons; [set_solver|].
    destruct (IH Hnd Hg) as [[]|[(g0&?&?&?)|[? ->]]].
    + left. set_solver.
    + right. left. exists g0. set_solver.
    + right. right. split; [|done]. apply not_elem_of_cons. done.
Qed.

Lemma groups_ok_add done gs c :
  groups_ok done gs → groups_ok (done ++ [c]) (add_to_groups c gs).
Proof.
  intros (Hnd & Hgrp & Hst). split_and!.
  - rewrite add_to_groups_status. case_decide; [done|].
    apply NoDup_app. split_and!; [done| |apply NoDup_singleton].
    intros s Hs ->%list_elem_of_singleton. done.
  - intros g Hg. rewrite filter_app. apply add_to_groups_elem in Hg; [|done].
    destruct Hg as [[Hg Hne]|[(g0 & Hg0 & Hs0 & ->)|[Hnew ->]]]; simpl.
    + rewrite filter_cons_False by congruence. rewrite filter_nil, app_nil_r. by apply Hgrp.
    + rewrite filter_cons_True by done. rewrite filter_nil, (Hgrp g0 Hg0).
      f_equal. by rewrite Hs0.
    + rewrite filter_cons_True by done. rewrite filter_nil.
      rewrite list_filter_none; [done|]. intros x Hx Hsx.
      apply Hnew, Hst. rewrite <-Hsx. by apply list_elem_of_fmap_2.
  - intros s. rewrite add_to_groups_status, fmap_app, elem_of_app. case_decide as Hin.
    + rewrite Hst. split; [set_solver|]. intros [|Hs]; [done|].
      simpl in Hs. apply list_elem_of_singleton in Hs as ->. by apply Hst.
    + rewrite elem_of_app, Hst. done.
Qed.

Lemma collect_groups_ok conditions :
  groups_ok (located_of conditions) (collect_groups conditions).
Proof.
  unfold collect_groups. induction conditions as [|lc l IH] using rev_ind.
  { simpl. split_and!; [constructor|set_solver|set_solver]. }
  rewrite foldl_app. unfold located_of in *. rewrite omap_app. simpl.
  destruct (lc_Condition lc) as [c|]; simpl.
  - by apply groups_ok_add.
  - by rewrite app_nil_r.
Qed.

Lemma groups_ok_perm done gs gs' :
  gs ≡ₚ gs' → groups_ok done gs → groups_ok done gs'.
Proof.
  intros Hp (Hnd & Hgrp & Hst). split_and!.
  - by rewrite <-Hp.
  - intros g Hg. apply Hgrp. by rewrite Hp.
  - intros s. by rewrite <-Hp.
Qed.

Lemma groups_Less_asym a b : groups_Less a b = true → groups_Less b a = false.
Proof. unfold groups_Less. rewrite Z.ltb_lt, Z.ltb_ge. lia. Qed.

Lemma groups_Less_trans_neg a b c :
  groups_Less b a = false → groups_Less c b = false → groups_Less c a = false.
Proof. unfold groups_Less. rewrite !Z.ltb_ge. lia. Qed.

(** The sorted groups: a partition whose first group has the least priority. *)
Lemma sorted_groups_top conditions :
  let gs := go_sort groups_Less (collect_groups conditions) in
  groups_ok (located_of conditions) gs ∧
  match gs with
  | [] => located_of conditions = []
  | top :: rest => ∀ g, g ∈ gs → mergePriority top ≤ mergePriority g
  end.
Proof.
  simpl. set (gs := go_sort groups_Less (collect_groups conditions)).
  assert (groups_ok (located_of conditions) gs) as Hok.
  { eapply groups_ok_perm; [symmetry; apply go_sort_perm|]. apply collect_groups_ok. }
  split; [done|].
  assert (StronglySorted (not_after groups_Less) gs) as Hs.
  { apply go_sort_sorted; [apply groups_Less_asym|apply groups_Less_trans_neg]. }
  destruct gs as [|top rest].
  - destruct Hok as (_ & _ & Hst). destruct (located_of conditions) as [|c l]; [done|].
    exfalso. eapply (not_elem_of_nil (A := ConditionStatus)).
    apply (Hst (status_of c)). simpl. set_solver.
  - intros g [->|Hg]%elem_of_cons; [lia|].
    apply StronglySorted_inv in Hs as [_ Hall]. rewrite Forall_forall in Hall.
    specialize (Hall g Hg). unfold not_after, groups_Less in Hall.
    apply Z.ltb_ge in Hall. lia.
Qed.

Lemma TopGroup_sort_top gs :
  TopGroup (sort_top gs) =
  (λ g, mkGroup (cg_status g) (go_sort located_Less (cg_conditions g))) <$> head gs.
Proof. by destruct gs. Qed.

(** The status the documentation of [merge] promises. *)
Definition expected_status (cs : list located) : ConditionStatus :=
  if decide (ConditionFalse ∈ status_of <$> cs) then ConditionFalse
  else if decide (ConditionTrue ∈ status_of <$> cs) then ConditionTrue
  else ConditionUnknown.

Lemma top_status done top rest :
  groups_ok done (top :: rest) →
  (∀ g, g ∈ top :: rest → mergePriority top ≤ mergePriority g) →
  match cg_status top with
  | ConditionTrue => expected_status done = ConditionTrue
  | ConditionFalse => expected_status done = ConditionFalse
  | _ => expected_status done = ConditionUnknown
  end.
Proof.
  intros (Hnd & Hgrp & Hst) Hmin.
  assert (∀ s, s ∈ status_of <$> done →
               mergePriority top ≤ mergePriority (mkGroup s [])) as Hle.
  { intros s Hs. apply Hst, list_elem_of_fmap_1 in Hs as (g & -> & Hg).
    apply (Hmin g Hg). }
  assert (cg_status top ∈ status_of <$> done) as Htop.
  { apply Hst. simpl. set_solver. }
  unfold expected_status.
  destruct (cg_status top) eqn:Et; unfold mergePriority in Hle; rewrite Et in Hle;
    repeat case_decide; try done; try congruence;
    match goal with
    | H : ?s ∈ status_of <$> done |- _ => specialize (Hle s H); simpl in Hle; lia
    end.
Qed.

(** ** Properties of [merge] *)

Definition with_status (s : ConditionStatus) (cs : list located) : list located :=
  filter (λ c, status_of c = s) cs.

(** The shape of the groups [merge] works on. *)
Lemma getConditionGroups_shape conditions :
  (located_of conditions = [] ∧ getConditionGroups conditions = []) ∨
  ∃ top rest,
    getConditionGroups conditions =
      mkGroup (cg_status top)
        (go_sort located_Less (with_status (cg_status top) (located_of conditions))) :: rest ∧
    groups_ok (located_of conditions) (top :: rest) ∧
    (∀ g, g ∈ top :: rest → mergePriority top ≤ mergePriority g).
Proof.
  destruct (sorted_groups_top conditions) as [Hok Htop]. unfold getConditionGroups.
  destruct (go_sort groups_Less (collect_groups conditions)) as [|top rest]; [by left|].
  right. exists top, rest. split_and!; [|done|done].
  destruct Hok as (_ & Hgrp & _). unfold sort_top, with_status.
  rewrite (Hgrp top) by set_solver. done.
Qed.

Lemma expected_status_False done :
  with_status ConditionFalse done ≠ [] → expected_status done = ConditionFalse.
Proof.
  intros Hne. unfold expected_status, with_status in *.
  rewrite decide_True; [done|].
  destruct (filter _ _) as [|c l] eqn:E; [done|].
  assert (c ∈ filter (λ c, status_of c = ConditionFalse) done) as Hc by (rewrite E; set_solver).
  apply list_elem_of_filter in Hc as [Hs Hc]. rewrite <-Hs. by apply list_elem_of_fmap_2.
Qed.

Lemma top_status_False done top rest :
  groups_ok done (top :: rest) →
  (∀ g, g ∈ top :: rest → mergePriority top ≤ mergePriority g) →
  with_status ConditionFalse done ≠ [] → cg_status top = ConditionFalse.
Proof.
  intros Hok Hmin Hne. pose proof (top_status _ _ _ Hok Hmin) as Hts.
  rewrite expected_status_False in Hts by done. by destruct (cg_status top).
Qed.

(** Merging returns nothing exactly when no condition is present;
    otherwise the target condition is False if any merged condition is False,
    else True if any is True, else Unknown, as documented. *)
Theorem merge_status_priority (conditions : list localizedCondition)
    (target : string) (o : mergeOptions) :
  match merge conditions target o with
  | None => located_of conditions = []
  | Some c => located_of conditions ≠ [] ∧ c_Type c = target ∧
              c_Status c = expected_status (located_of conditions)
  end.
Proof.
  unfold merge.
  destruct (getConditionGroups_shape conditions) as [[Hl ->]|(top & rest & -> & Hok & Hmin)];
    [done|]. simpl.
  assert (located_of conditions ≠ []) as Hne.
  { intros Hnil. destruct Hok as (_ & _ & Hst). rewrite Hnil in Hst.
    eapply (not_elem_of_nil (A := ConditionStatus)).
    apply (Hst (cg_status top)). simpl. set_solver. }
  pose proof (top_status _ _ _ Hok Hmin) as Hts.
  by destruct (cg_status top); rewrite Hts.
Qed.

Lemma find_type_Some t l x :
  find_type t l = Some x → x ∈ l ∧ c_Type x.1 = t.
Proof.
  induction l as [|c l IH]; simpl; [done|]. case_decide; [|set_solver].
  intros [= <-]. set_solver.
Qed.

Lemma find_type_None t l : find_type t l = None ↔ ∀ x, x ∈ l → c_Type x.1 ≠ t.
Proof.
  induction l as [|c l IH]; simpl; [set_solver|]. case_decide; [set_solver|].
  rewrite IH. set_solver.
Qed.

Lemma first_by_priority_Some order l x :
  first_by_priority order l = Some x → x ∈ l.
Proof.
  induction order as [|p order IH]; simpl; [done|].
  destruct (find_type p l) as [y|] eqn:E; [|done].
  intros [= <-]. by apply find_type_Some in E as [].
Qed.

(** The first listed type that occurs decides. *)
Lemma first_by_priority_order pre p post l y :
  (∀ q x, q ∈ pre → x ∈ l → c_Type x.1 ≠ q) → y ∈ l → c_Type y.1 = p →
  ∃ x, first_by_priority (pre ++ p :: post) l = Some x ∧ c_Type x.1 = p.
Proof.
  induction pre as [|q pre IH]; simpl; intros Hpre Hy Ht.
  - destruct (find_type p l) as [x|] eqn:E.
    + apply find_type_Some in E as []. eauto.
    + by destruct (proj1 (find_type_None p l) E y Hy).
  - assert (find_type q l = None) as ->.
    { apply find_type_None. intros x Hx. apply Hpre; set_solver. }
    apply IH; [|done|done]. intros q' x Hq'. apply Hpre. set_solver.
Qed.

Lemma getFirstCondition_top s cs rest order :
  cs ≠ [] →
  ∃ x, getFirstCondition (mkGroup s cs :: rest) order = Some x ∧ x ∈ cs ∧
    ∀ pre p post y, order = pre ++ p :: post →
      (∀ q z, q ∈ pre → z ∈ cs → c_Type z.1 ≠ q) →
      y ∈ cs → c_Type y.1 = p → c_Type x.1 = p.
Proof.
  intros Hne. unfold getFirstCondition. simpl.
  destruct cs as [|c [|c' cs]]; [done| |].
  - exists c. split_and!; [done|set_solver|].
    intros pre p post y _ _ ->%list_elem_of_singleton. done.
  - destruct (first_by_priority order (c :: c' :: cs)) as [x|] eqn:E.
    + exists x. split_and!; [done|by apply first_by_priority_Some in E|].
      intros pre p post y -> Hpre Hy Ht.
      destruct (first_by_priority_order pre p post _ y Hpre Hy Ht) as (x' & Hx' & <-).
      congruence.
    + exists c. split_and!; [done|set_solver|]. intros pre p post y -> Hpre Hy Ht.
      destruct (first_by_priority_order pre p post _ y Hpre Hy Ht) as (x' & Hx' & _).
      congruence.
Qed.

Lemma TrueGroup_count done gs s :
  groups_ok done gs →
  match getByStatusAndSeverity gs s with
  | Some g => length (cg_conditions g) = length (with_status s done)
  | None => with_status s done = []
  end.
Proof.
  intros (Hnd & Hgrp & Hst).
  assert (match getByStatusAndSeverity gs s with
          | Some g => g ∈ gs ∧ cg_status g = s
          | None => s ∉ (cg_status <$> gs) end) as Hget.
  { clear. induction gs as [|g gs IH]; simpl; [set_solver|].
    case_decide; [set_solver|]. destruct (getByStatusAndSeverity gs s); set_solver. }
  destruct (getByStatusAndSeverity gs s) as [g|].
  - destruct Hget as [Hg <-]. by rewrite (Hgrp g Hg).
  - apply list_filter_none. intros x Hx Hs. apply Hget, Hst. rewrite <-Hs.
    by apply list_elem_of_fmap_2.
Qed.

(** When some merged condition is False, reason and message of the target
    are those of a False condition: the one of the first type listed with
    WithConditions that is False, if there is one; and with a step counter the
    message counts the True conditions. *)
Theorem merge_false_origin (conditions : list localizedCondition)
    (target : string) (o : mergeOptions) :
  with_status ConditionFalse (located_of conditions) ≠ [] →
  mo_addSourceRef o = false →
  ∃ x, x ∈ with_status ConditionFalse (located_of conditions) ∧
    merge conditions target o =
      Some (FalseCondition target (c_Reason x.1)
        (if mo_addStepCounter o
         then pretty (Z.of_nat (length (with_status ConditionTrue (located_of conditions))))
              +:+ " of " +:+ pretty (mo_stepCounter o) +:+ " completed"
         else c_Message x.1)) ∧
    ∀ pre p post y, mo_conditionTypes o = Some (pre ++ p :: post) →
      (∀ q z, q ∈ pre → z ∈ with_status ConditionFalse (located_of conditions) →
              c_Type z.1 ≠ q) →
      y ∈ with_status ConditionFalse (located_of conditions) → c_Type y.1 = p →
      c_Type x.1 = p.
Proof.
  intros Hne Href. unfold merge.
  destruct (getConditionGroups_shape conditions) as [[Hl _]|(top & rest & -> & Hok & Hmin)].
  { by rewrite Hl in Hne. }
  pose proof (top_status_False _ _ _ Hok Hmin Hne) as Htop. rewrite Htop.
  set (cs := with_status ConditionFalse (located_of conditions)) in *.
  destruct (getFirstCondition_top ConditionFalse (go_sort located_Less cs) rest
              (default [] (mo_conditionTypes o))) as (x & Hx & Hxin & Hord).
  { intros Hnil. apply Hne, Permutation_nil_r. by rewrite <-Hnil, go_sort_perm. }
  exists x. split; [by apply elem_of_go_sort in Hxin|]. split.
  - simpl. do 2 f_equal.
    + unfold getReason, getFirstReason. by rewrite Hx, Href.
    + unfold getMessage. destruct (mo_addStepCounter o).
      * unfold getStepCounterMessage, TrueGroup. simpl.
        pose proof (TrueGroup_count _ _ ConditionTrue Hok) as Hc. simpl in Hc.
        rewrite Htop in Hc. simpl in Hc.
        destruct (getByStatusAndSeverity rest ConditionTrue); by rewrite Hc.
      * unfold getFirstMessage. by rewrite Hx.
  - intros pre p post y Ho Hpre Hy Ht. rewrite Ho in Hord. simpl in Hord.
    apply (Hord pre p post y); [done| |by apply elem_of_go_sort|done].
    intros q z Hq Hz. apply Hpre; [done|]. by apply elem_of_go_sort in Hz.
Qed.

Definition ex_scope : list localizedCondition :=
  (λ c, mkLocalized (Some c) (mkGetter [] None None)) <$>
    [FalseCondition "B" "b-reason" "b-msg"; TrueCondition "C";
     FalseCondition "A" "a-reason" "a-msg"].

Lemma merge_false_origin_witness :
  ∃ x, x ∈ with_status ConditionFalse (located_of ex_scope) ∧
    merge ex_scope "Ready" (WithConditions ["C"; "B"; "A"] no_options) =
      Some (FalseCondition "Ready" (c_Reason x.1) (c_Message x.1)) ∧
    ∀ pre p post y, Some ["C"; "B"; "A"] = Some (pre ++ p :: post) →
      (∀ q z, q ∈ pre → z ∈ with_status ConditionFalse (located_of ex_scope) →
              c_Type z.1 ≠ q) →
      y ∈ with_status ConditionFalse (located_of ex_scope) → c_Type y.1 = p →
      c_Type x.1 = p.
Proof.
  apply (merge_false_origin ex_scope "Ready" (WithConditions ["C"; "B"; "A"] no_options)).
  - vm_compute. discriminate.
  - reflexivity.
Defined.

(** ** [merge] reads only the name and kind of the source objects *)

Section Relocate.
Context (f : Getter → Getter).
Context (f_name : ∀ g, g_Name (f g) = g_Name g) (f_kind : ∀ g, g_Kind (f g) = g_Kind g).

Definition relocate (c : located) : located := (c.1, f c.2).
Definition relocate_lc (lc : localizedCondition) : localizedCondition :=
  mkLocalized (lc_Condition lc) (f (lc_Getter lc)).
Definition relocate_group (g : conditionGroup) : conditionGroup :=
  mkGroup (cg_status g) (relocate <$> cg_conditions g).

Lemma relocate_add c gs :
  add_to_groups (relocate c) (relocate_group <$> gs) =
  relocate_group <$> add_to_groups c gs.
Proof.
  induction gs as [|g gs IH]; [done|]. rewrite fmap_cons. simpl.
  case_decide; rewrite fmap_cons; [|by rewrite IH].
  unfold relocate_group. simpl. by rewrite fmap_app.
Qed.

Lemma relocate_collect conditions :
  collect_groups (relocate_lc <$> conditions) =
  relocate_group <$> collect_groups conditions.
Proof.
  unfold collect_groups. induction conditions as [|lc l IH] using rev_ind; [done|].
  rewrite fmap_app, !foldl_app, IH. simpl.
  destruct (lc_Condition lc); [|done]. apply (relocate_add (c, lc_Getter lc)).
Qed.

Lemma relocate_groups conditions :
  getConditionGroups (relocate_lc <$> conditions) =
  relocate_group <$> getConditionGroups conditions.
Proof using f_name.
  unfold getConditionGroups. rewrite relocate_collect.
  rewrite (go_sort_fmap relocate_group groups_Less groups_Less) by done.
  destruct (go_sort groups_Less (collect_groups conditions)) as [|g gs]; [done|].
  rewrite fmap_cons. simpl. f_equal. unfold relocate_group. simpl. f_equal.
  apply go_sort_fmap. intros a b. unfold located_Less, relocate. simpl.
  by rewrite !f_name.
Qed.

Lemma relocate_find p cs :
  find_type p (relocate <$> cs) = relocate <$> find_type p cs.
Proof. induction cs as [|c cs IH]; [done|]. rewrite fmap_cons. simpl. by case_decide. Qed.

Lemma relocate_first_by_priority order cs :
  first_by_priority order (relocate <$> cs) = relocate <$> first_by_priority order cs.
Proof.
  induction order as [|p order IH]; [done|]. simpl. rewrite relocate_find.
  by destruct (find_type p cs).
Qed.

Lemma relocate_first order gs :
  getFirstCondition (relocate_group <$> gs) order = relocate <$> getFirstCondition gs order.
Proof.
  unfold getFirstCondition. destruct gs as [|g gs]; [done|]. simpl.
  pose proof (relocate_first_by_priority order (cg_conditions g)) as Hf.
  destruct (cg_conditions g) as [|c [|c' cs]]; [done..|].
  rewrite !fmap_cons in Hf |- *. rewrite Hf.
  by destruct (first_by_priority order (c :: c' :: cs)).
Qed.

Lemma relocate_merge conditions target o :
  merge (relocate_lc <$> conditions) target o = merge conditions target o.
Proof using f_name f_kind.
  unfold merge. rewrite relocate_groups.
  assert (∀ gs, getReason (relocate_group <$> gs) o = getReason gs o) as Hr.
  { intros gs. unfold getReason, getFirstReason. rewrite relocate_first.
    destruct (getFirstCondition gs _) as [c|]; [|done]. simpl.
    unfold localizeReason. by rewrite f_name, f_kind. }
  assert (∀ gs, getMessage (relocate_group <$> gs) o = getMessage gs o) as Hm.
  { intros gs. unfold getMessage, getFirstMessage, getStepCounterMessage, TrueGroup.
    rewrite relocate_first. destruct (mo_addStepCounter o).
    - induction gs as [|g gs IH]; [done|]. rewrite fmap_cons. simpl.
      case_decide; [|done]. unfold relocate_group. simpl. by rewrite length_fmap.
    - by destruct (getFirstCondition gs _). }
  rewrite Hr, Hm. unfold TopGroup. by destruct (getConditionGroups conditions).
Qed.
End Relocate.

(** ** SetSummary *)

Lemma filter_scope_Set o now l c :
  wf l → c_Type c = ReadyConditionType →
  filter (λ x, in_summary_scope o x = true) (Set_ now l (Some c)) =
  filter (λ x, in_summary_scope o x = true) l.
Proof.
  intros Hwf Ht. set (P := λ x, in_summary_scope o x = true).
  pose proof (Set_wf now l (Some c) Hwf) as [Hnd' Hs']. destruct Hwf as [Hnd Hs].
  eapply (StronglySorted_unique_strong (not_after lexicographicLess)).
  - intros x y [_ Hx]%list_elem_of_filter [Hy1 Hy]%list_elem_of_filter H1 H2.
    pose proof (lexicographicLess_tie _ _ H2 H1) as Htie.
    assert (c_Type y ≠ ReadyConditionType).
    { unfold P, in_summary_scope in Hy1. by bool_to_prop. }
    pose proof (elem_of_Get _ _ Hnd' Hx) as Gx. pose proof (elem_of_Get _ _ Hnd Hy) as Gy.
    rewrite Htie, Set_Get_other in Gx by congruence. congruence.
  - by apply StronglySorted_filter.
  - by apply StronglySorted_filter.
  - apply NoDup_Permutation.
    + by apply NoDup_filter, (NoDup_fmap_1 c_Type).
    + by apply NoDup_filter, (NoDup_fmap_1 c_Type).
    + intros x. rewrite !list_elem_of_filter. apply and_iff_cond. intros HP.
      assert (c_Type x ≠ c_Type c) as Hne.
      { rewrite Ht. unfold P, in_summary_scope in HP. by bool_to_prop. }
      pose proof (Set_Get_other now l c (c_Type x) Hnd Hne) as HG.
      split; intros Hx.
      * apply elem_of_Get in Hx; [|done]. rewrite HG in Hx. by apply Get_elem_of in Hx as [].
      * apply elem_of_Get in Hx; [|done]. rewrite <-HG in Hx. by apply Get_elem_of in Hx as [].
Qed.

Lemma summary_Set_Ready now l c options :
  wf l → c_Type c = ReadyConditionType →
  summary (conditions_getter (Set_ now l (Some c))) options =
  summary (conditions_getter l) options.
Proof.
  intros Hwf Ht. unfold summary. set (o := apply_options options no_options).
  assert (summary_scope o (conditions_getter (Set_ now l (Some c))) =
          (λ c', mkLocalized (Some c') (conditions_getter (Set_ now l (Some c)))) <$>
            filter (λ x, in_summary_scope o x = true) l) as Hsc.
  { unfold summary_scope. simpl. by rewrite filter_scope_Set. }
  rewrite Hsc. unfold summary_scope. simpl.
  set (cs := filter (λ x, in_summary_scope o x = true) l).
  set (g' := conditions_getter (Set_ now l (Some c))).
  set (h := λ g, SetConditions g (g_Conditions g')).
  assert ((λ c', mkLocalized (Some c') g') <$> cs =
          relocate_lc h <$> ((λ c', mkLocalized (Some c') (conditions_getter l)) <$> cs)) as ->.
  { rewrite <-list_fmap_compose. done. }
  rewrite (relocate_merge h) by done. f_equal. unfold summary_options, scope_within.
  rewrite !length_fmap. rewrite <-list_fmap_compose.
  assert (∀ ts, forallb (λ lc, match lc_Condition lc with
                   | Some c0 => in_types (c_Type c0) ts | None => true end)
            ((relocate_lc h ∘ (λ c', mkLocalized (Some c') (conditions_getter l))) <$> cs) =
          forallb (λ lc, match lc_Condition lc with
                   | Some c0 => in_types (c_Type c0) ts | None => true end)
            ((λ c', mkLocalized (Some c') (conditions_getter l)) <$> cs)) as Hfb.
  { intros ts. induction cs as [|x cs' IH]; [done|]. rewrite !fmap_cons. simpl. by rewrite IH. }
  destruct (mo_addStepCounterIfOnlyConditionTypes o); [|done]. by rewrite Hfb.
Qed.

(** Summarising twice is summarising once: the second SetSummary, at any
    later time and with the same options, leaves the conditions unchanged. *)
Theorem SetSummary_idempotent (now now' : Z) (l : Conditions) (options : list MergeOption) :
  wf l → SetSummary now' (SetSummary now l options) options = SetSummary now l options.
Proof.
  intros Hwf. unfold SetSummary at 1 3.
  assert (match summary (conditions_getter l) options with
          | Some c => c_Type c = ReadyConditionType | None => True end) as Ht.
  { unfold summary, merge. destruct (TopGroup _) as [g|]; [|done].
    by destruct (cg_status g). }
  unfold SetSummary. destruct (summary (conditions_getter l) options) as [c|] eqn:E.
  - rewrite summary_Set_Ready by done. rewrite E.
    destruct (Set_Get_same now l c) as (e & He & Hse); [apply Hwf|].
    unfold Set_ at 1, set_ptr.
    rewrite (set_existing_same _ _ _ e) by done. simpl.
    by apply go_sort_sorted_id, Set_wf.
  - change (Set_ now l None) with l. by rewrite E.
Qed.

Lemma SetSummary_idempotent_witness :
  SetSummary 9 (SetSummary 5 ex_conditions [WithStepCounter]) [WithStepCounter] =
  SetSummary 5 ex_conditions [WithStepCounter].
Proof. apply SetSummary_idempotent, ex_conditions_wf. Defined.
