(* ===== verification/ConditionsPatch.v ===== *)
(** * Three-way merge of conditions: pkg/conditions/patch.go

    [NewPatch] computes the operations that turn the conditions of [before]
    into those of [after]; [Apply] replays them on a [latest] object that may
    have moved on, and reports a conflict when it deviated incompatibly. *)

From S2P Require Import Prelude Conditions.
Local Open Scope Z_scope.

Inductive PatchOperationType :=
  | AddConditionPatch
  | ChangeConditionPatch
  | RemoveConditionPatch
  | OtherConditionPatch (s : string).

#[export] Instance PatchOperationType_eq_dec : EqDecision PatchOperationType.
Proof. solve_decision. Defined.

Record PatchOperation := mkPatchOperation {
  p_Before : option Condition;
  p_After : option Condition;
  p_Op : PatchOperationType
}.

#[export] Instance PatchOperation_eq_dec : EqDecision PatchOperation.
Proof. solve_decision. Defined.

Abbreviation Patch := (list PatchOperation).

(** ** NewPatch *)

Definition patch_target (before : Conditions) (target : Condition) : list PatchOperation :=
  match Get before (c_Type target) with
  | None => [mkPatchOperation None (Some target) AddConditionPatch]
  | Some current =>
    if decide (target = current) then []
    else [mkPatchOperation (Some current) (Some target) ChangeConditionPatch]
  end.

Definition patch_base (after : Conditions) (base : Condition) : list PatchOperation :=
  match Get after (c_Type base) with
  | None => [mkPatchOperation (Some base) None RemoveConditionPatch]
  | Some _ => []
  end.

Definition NewPatch (before after : Getter) : Patch :=
  mjoin (patch_target (g_Conditions before) <$> g_Conditions after) ++
  mjoin (patch_base (g_Conditions after) <$> g_Conditions before).

(** ** Apply *)

Record applyOptions := mkApplyOptions {
  ao_ownedConditions : list string;
  ao_forceOverwrite : bool
}.

Definition isOwnedCondition (o : applyOptions) (t : string) : bool :=
  bool_decide (t ∈ ao_ownedConditions o).

Definition ApplyOption : Type := applyOptions → applyOptions.

Definition WithOwnedConditions (t : list string) : ApplyOption := λ o,
  mkApplyOptions t (ao_forceOverwrite o).

Definition WithForceOverwrite (v : bool) : ApplyOption := λ o,
  mkApplyOptions (ao_ownedConditions o) v.

Inductive patch_error :=
  | AddConflict (t : string)
  | ChangeDeletedConflict (t : string)
  | ChangeConflict (t : string)
  | RemoveConflict (t : string).

Definition overwrites (o : applyOptions) (t : string) : bool :=
  ao_forceOverwrite o || isOwnedCondition o t.

Definition apply_add (now : Z) (o : applyOptions) (latest : Getter) (after : Condition)
    : outcome patch_error Getter :=
  if overwrites o (c_Type after) then Ok (obj_Set now latest (Some after))
  else match Get (g_Conditions latest) (c_Type after) with
       | Some latestCondition =>
         if negb (hasSameState latestCondition after)
         then Err (AddConflict (c_Type after))
         else Ok latest
       | None => Ok (obj_Set now latest (Some after))
       end.

Definition apply_change (now : Z) (o : applyOptions) (latest : Getter)
    (before : option Condition) (after : Condition) : outcome patch_error Getter :=
  if overwrites o (c_Type after) then Ok (obj_Set now latest (Some after))
  else match Get (g_Conditions latest) (c_Type after) with
       | None => Err (ChangeDeletedConflict (c_Type after))
       | Some latestCondition =>
         if decide (Some latestCondition = before)
         then Ok (obj_Set now latest (Some after))
         else if negb (hasSameState latestCondition after)
              then Err (ChangeConflict (c_Type after))
              else Ok latest
       end.

Definition apply_remove (o : applyOptions) (latest : Getter) (before : Condition)
    : outcome patch_error Getter :=
  if overwrites o (c_Type before) then Ok (obj_Delete latest (c_Type before))
  else match Get (g_Conditions latest) (c_Type before) with
       | Some latestCondition =>
         if negb (hasSameState latestCondition before)
         then Err (RemoveConflict (c_Type before))
         else Ok (obj_Delete latest (c_Type before))
       | None => Ok (obj_Delete latest (c_Type before))
       end.

(** One iteration of the loop of [Apply]; dereferencing a nil [Before] or
    [After] panics. *)
Definition apply_op (now : Z) (o : applyOptions) (latest : Getter) (op : PatchOperation)
    : outcome patch_error Getter :=
  match p_Op op with
  | AddConditionPatch =>
    match p_After op with
    | Some after => apply_add now o latest after
    | None => Panic
    end
  | ChangeConditionPatch =>
    match p_After op with
    | Some after => apply_change now o latest (p_Before op) after
    | None => Panic
    end
  | RemoveConditionPatch =>
    match p_Before op with
    | Some before => apply_remove o latest before
    | None => Panic
    end
  | OtherConditionPatch _ => Ok latest
  end.

(** The loop, with the object as the operations before an error left it;
    [clock i] is the time the i-th operation reads. *)
Fixpoint apply_ops (clock : nat → Z) (o : applyOptions) (latest : Getter) (p : Patch)
    : Getter * outcome patch_error unit :=
  match p with
  | [] => (latest, Ok ())
  | op :: p' =>
    match apply_op (clock 0%nat) o latest op with
    | Ok latest' => apply_ops (λ i, clock (S i)) o latest' p'
    | Err e => (latest, Err e)
    | Panic => (latest, Panic)
    end
  end.

Definition Apply (clock : nat → Z) (p : Patch) (latest : Getter) (options : list ApplyOption)
    : Getter * outcome patch_error unit :=
  match p with
  | [] => (latest, Ok ())
  | _ => apply_ops clock (foldl (λ o f, f o) (mkApplyOptions [] false) options) latest p
  end.

Definition IsZero (p : Patch) : bool := bool_decide (length p = 0%nat).

(** ** Specification: the merge, type by type *)

(** The operation that turns [b] into [a], for one condition type. *)
Definition op_of (b a : option Condition) : option PatchOperation :=
  match b, a with
  | None, None => None
  | None, Some a => Some (mkPatchOperation None (Some a) AddConditionPatch)
  | Some b, Some a =>
    if decide (a = b) then None
    else Some (mkPatchOperation (Some b) (Some a) ChangeConditionPatch)
  | Some b, None => Some (mkPatchOperation (Some b) None RemoveConditionPatch)
  end.

(** What the merge leaves for one type: the caller's value where the caller
    changed it, the latest value elsewhere. *)
Definition merge3 (b a l : option Condition) : option Condition :=
  if decide (a = b) then l else a.

(** When the latest value stands in the way of the caller's change. *)
Definition conflict (b a l : option Condition) : Prop :=
  match b, a, l with
  | None, Some a, Some l => ¬ same_state l a
  | Some b, Some a, None => a ≠ b
  | Some b, Some a, Some l => a ≠ b ∧ l ≠ b ∧ ¬ same_state l a
  | Some b, None, Some l => ¬ same_state l b
  | _, _, _ => False
  end.

Abbreviation eq_state := (option_Forall2 same_state).

(** ** Lemmas on the patch *)

Definition op_type (op : PatchOperation) : string :=
  match p_After op, p_Before op with
  | Some a, _ => c_Type a
  | None, Some b => c_Type b
  | None, None => ""
  end.

Lemma op_of_type (t : string) b a op :
  (∀ c, b = Some c → c_Type c = t) → (∀ c, a = Some c → c_Type c = t) →
  op_of b a = Some op → op_type op = t.
Proof.
  intros Hb Ha Hop. destruct b as [b|], a as [a|]; simpl in Hop; try done;
    [case_decide; [done|]|..]; simplify_eq; unfold op_type; simpl; eauto.
Qed.

Lemma op_of_Get_type l l' t op :
  op_of (Get l t) (Get l' t) = Some op → op_type op = t.
Proof.
  apply op_of_type; intros c Hc; by apply Get_elem_of in Hc as [].
Qed.

Lemma elem_of_NewPatch (before after : Getter) op :
  NoDup (c_Type <$> g_Conditions before) → NoDup (c_Type <$> g_Conditions after) →
  op ∈ NewPatch before after ↔
  ∃ t, op_of (Get (g_Conditions before) t) (Get (g_Conditions after) t) = Some op.
Proof.
  intros Hb Ha. unfold NewPatch.
  rewrite elem_of_app, !list_elem_of_join. split.
  - intros [(ops & Hop & (c & -> & Hc)%list_elem_of_fmap_1)|
            (ops & Hop & (c & -> & Hc)%list_elem_of_fmap_1)]; exists (c_Type c).
    + rewrite (elem_of_Get _ _ Ha Hc). unfold patch_target in Hop.
      destruct (Get (g_Conditions before) (c_Type c)) as [b|]; simpl.
      * case_decide; [by apply elem_of_nil in Hop|].
        by apply list_elem_of_singleton in Hop as ->.
      * by apply list_elem_of_singleton in Hop as ->.
    + rewrite (elem_of_Get _ _ Hb Hc). unfold patch_base in Hop.
      destruct (Get (g_Conditions after) (c_Type c)) as [b|]; simpl.
      * by apply elem_of_nil in Hop.
      * by apply list_elem_of_singleton in Hop as ->.
  - intros [t Hop]. destruct (Get (g_Conditions after) t) as [a|] eqn:Ea.
    + apply Get_elem_of in Ea as [Hin <-]. left. eexists. split; [|by apply list_elem_of_fmap_2].
      unfold patch_target. destruct (Get (g_Conditions before) (c_Type a)); simpl in Hop;
        [case_decide; [done|]|]; simplify_eq; set_solver.
    + destruct (Get (g_Conditions before) t) as [b|] eqn:Eb; [|done]. simplify_eq/=.
      apply Get_elem_of in Eb as [Hin <-]. right. eexists.
      split; [|by apply list_elem_of_fmap_2]. unfold patch_base. rewrite Ea. set_solver.
Qed.

Lemma types_of_targets before (l : Conditions) :
  (op_type <$> mjoin (patch_target before <$> l)) `sublist_of` (c_Type <$> l).
Proof.
  induction l as [|c l IH]; [done|]. rewrite !fmap_cons. simpl. rewrite fmap_app.
  unfold patch_target at 1. destruct (Get before (c_Type c)); [case_decide|]; simpl;
    by constructor.
Qed.

Lemma types_of_bases after (l : Conditions) :
  (op_type <$> mjoin (patch_base after <$> l)) `sublist_of` (c_Type <$> l).
Proof.
  induction l as [|c l IH]; [done|]. rewrite !fmap_cons. simpl. rewrite fmap_app.
  unfold patch_base at 1. destruct (Get after (c_Type c)); simpl; by constructor.
Qed.

Lemma NewPatch_types_NoDup (before after : Getter) :
  NoDup (c_Type <$> g_Conditions before) → NoDup (c_Type <$> g_Conditions after) →
  NoDup (op_type <$> NewPatch before after).
Proof.
  intros Hb Ha. unfold NewPatch. rewrite fmap_app, NoDup_app. split_and!.
  - eapply sublist_NoDup; [exact Ha|]. apply types_of_targets.
  - intros t Ht Ht'.
    pose proof (types_of_targets (g_Conditions before) (g_Conditions after)) as Hs.
    pose proof (elem_of_submseteq _ _ _ Ht (sublist_submseteq _ _ Hs)) as Hta.
    apply list_elem_of_fmap_1 in Ht' as (op & -> & Hop).
    apply list_elem_of_join in Hop as (ops & Hop & (c & -> & Hc)%list_elem_of_fmap_1).
    unfold patch_base in Hop. destruct (Get (g_Conditions after) (c_Type c)) eqn:E.
    + by apply elem_of_nil in Hop.
    + apply list_elem_of_singleton in Hop as ->. by apply Get_None in E.
  - eapply sublist_NoDup; [exact Hb|]. apply types_of_bases.
Qed.

(** ** One operation *)

Abbreviation types g := (c_Type <$> g_Conditions g).

(** The object after a successful operation on type [t]: only [t] changed,
    and it is in the state [a]. *)
Definition op_done (latest latest' : Getter) (t : string) (a : option Condition) : Prop :=
  NoDup (types latest') ∧
  (∀ t', t' ≠ t → Get (g_Conditions latest') t' = Get (g_Conditions latest) t') ∧
  eq_state (Get (g_Conditions latest') t) a.

Lemma obj_Set_done now latest a :
  NoDup (types latest) → op_done latest (obj_Set now latest (Some a)) (c_Type a) (Some a).
Proof.
  intros Hnd. split_and!; simpl.
  - by apply Set_NoDup.
  - intros. by apply Set_Get_other.
  - destruct (Set_Get_same now (g_Conditions latest) a Hnd) as (c & -> & Hc). by constructor.
Qed.

Lemma obj_Delete_done latest t :
  NoDup (types latest) → op_done latest (obj_Delete latest t) t None.
Proof.
  intros Hnd. split_and!; simpl.
  - by apply Delete_NoDup.
  - intros. rewrite Delete_lookup. by rewrite decide_False.
  - rewrite Delete_lookup, decide_True by done. constructor.
Qed.

Lemma op_done_same latest t l a :
  NoDup (types latest) → Get (g_Conditions latest) t = Some l → same_state l a →
  op_done latest latest t (Some a).
Proof. intros Hnd Hg Hs. split_and!; [done..|]. rewrite Hg. by constructor. Qed.

#[export] Hint Resolve obj_Set_done obj_Delete_done op_done_same : go.

Lemma apply_op_spec now o latest t b a op :
  NoDup (types latest) →
  (∀ c, b = Some c → c_Type c = t) → (∀ c, a = Some c → c_Type c = t) →
  op_of b a = Some op →
  match apply_op now o latest op with
  | Ok latest' => (overwrites o t = true ∨ ¬ conflict b a (Get (g_Conditions latest) t)) ∧
                  op_done latest latest' t a
  | Err _ => overwrites o t = false ∧ conflict b a (Get (g_Conditions latest) t)
  | Panic => False
  end.
Proof.
  intros Hnd Hb Ha Hop. destruct b as [b|], a as [a|]; simpl in Hop; try done.
  - case_decide as Hab; [done|]. simplify_eq. rewrite <-(Ha a eq_refl) in *.
    unfold apply_op, apply_change; simpl.
    destruct (overwrites o (c_Type a)); [eauto with go|].
    destruct (Get (g_Conditions latest) (c_Type a)) as [l|] eqn:El; simpl; [|done].
    case_decide as Hl; [simplify_eq; split; [right; tauto|eauto with go]|].
    destruct (hasSameState l a) eqn:Hs; simpl.
    + split; [right; unfold same_state; tauto|]. by eapply op_done_same.
    + split; [done|]. unfold same_state. split_and!; congruence.
  - simplify_eq. rewrite <-(Hb b eq_refl) in *.
    unfold apply_op, apply_remove; simpl.
    destruct (overwrites o (c_Type b)); [eauto with go|].
    destruct (Get (g_Conditions latest) (c_Type b)) as [l|] eqn:El; simpl.
    + unfold same_state. destruct (hasSameState l b) eqn:Hs; simpl; [|split; [done|congruence]].
      split; [right; tauto|]. eauto with go.
    + split; [right; tauto|]. eauto with go.
  - simplify_eq. rewrite <-(Ha a eq_refl) in *.
    unfold apply_op, apply_add; simpl.
    destruct (overwrites o (c_Type a)); [eauto with go|].
    destruct (Get (g_Conditions latest) (c_Type a)) as [l|] eqn:El; simpl.
    + unfold same_state. destruct (hasSameState l a) eqn:Hs; simpl; [|split; [done|congruence]].
      split; [right; tauto|]. by eapply op_done_same.
    + split; [right; tauto|]. eauto with go.
Qed.

(** ** The loop *)

Section Loop.
Context (o : applyOptions) (b a : string → option Condition).
Context (b_type : ∀ t c, b t = Some c → c_Type c = t).
Context (a_type : ∀ t c, a t = Some c → c_Type c = t).

(** The operations are those of [op_of], one per type. *)
Definition ops_of (p : Patch) : Prop :=
  NoDup (op_type <$> p) ∧ Forall (λ op, op_of (b (op_type op)) (a (op_type op)) = Some op) p.

Definition blocked (latest : Getter) (t : string) : Prop :=
  overwrites o t = false ∧ conflict (b t) (a t) (Get (g_Conditions latest) t).

Lemma apply_ops_spec clock p latest :
  NoDup (types latest) → ops_of p →
  let '(latest', r) := apply_ops clock o latest p in
  match r with
  | Ok _ => (∀ t, t ∈ op_type <$> p → ¬ blocked latest t) ∧
            (∀ t, eq_state (Get (g_Conditions latest') t)
               (if decide (t ∈ op_type <$> p) then a t else Get (g_Conditions latest) t))
  | Err _ => ∃ t, (t ∈ op_type <$> p) ∧ blocked latest t
  | Panic => False
  end.
Proof using b_type a_type.
  revert clock latest. induction p as [|op p IH]; intros clock latest Hnd [Hty Hops]; simpl.
  { split; [set_solver|]. intros t. reflexivity. }
  rewrite fmap_cons, NoDup_cons in Hty. apply Forall_cons in Hops as [Hop Hops].
  destruct Hty as [Hnin Hty]. set (t := op_type op) in *.
  pose proof (apply_op_spec (clock 0%nat) o latest t (b t) (a t) op Hnd
                (b_type t) (a_type t) Hop) as Hspec.
  destruct (apply_op (clock 0%nat) o latest op) as [latest1|e|];
    [|exists t; split; [by apply list_elem_of_here|exact Hspec]|done].
  destruct Hspec as (Hcond & Hnd1 & Hoth & Hst).
  specialize (IH (λ i, clock (S i)) latest1 Hnd1 (conj Hty Hops)).
  assert (∀ t', t' ∈ op_type <$> p → blocked latest1 t' ↔ blocked latest t') as Hblk.
  { intros t' Ht'. unfold blocked. rewrite Hoth; [done|]. intros ->. done. }
  destruct (apply_ops _ o latest1 p) as [latest' r]. destruct r as [[]|e|].
  - destruct IH as [IH1 IH2]. split.
    + intros t' [->|Ht']%elem_of_cons; [unfold blocked; intros []; intuition congruence|].
      rewrite <-Hblk by done. by apply IH1.
    + intros t'. specialize (IH2 t').
      destruct (decide (t' ∈ op_type <$> p)) as [Hin|Hin].
      * by rewrite decide_True by set_solver.
      * destruct (decide (t' = t)) as [->|Hne].
        -- rewrite decide_True by set_solver. by etrans.
        -- rewrite decide_False by set_solver. by rewrite <-Hoth.
  - destruct IH as (t' & Ht' & Hb'). exists t'. split; [set_solver|]. by apply Hblk.
  - done.
Qed.
End Loop.

(** ** Properties *)

Definition final_options (options : list ApplyOption) : applyOptions :=
  foldl (λ o f, f o) (mkApplyOptions [] false) options.

Lemma Apply_apply_ops clock p latest options :
  Apply clock p latest options = apply_ops clock (final_options options) latest p.
Proof. by destruct p. Qed.

Lemma NewPatch_ops_of before after :
  NoDup (types before) → NoDup (types after) →
  ops_of (Get (g_Conditions before)) (Get (g_Conditions after)) (NewPatch before after).
Proof.
  intros Hb Ha. split; [by apply NewPatch_types_NoDup|].
  apply Forall_forall. intros op Hop.
  apply elem_of_NewPatch in Hop as [t Hop]; [|done..].
  by rewrite (op_of_Get_type _ _ _ _ Hop).
Qed.

Lemma elem_of_NewPatch_types before after t :
  NoDup (types before) → NoDup (types after) →
  t ∈ op_type <$> NewPatch before after ↔
  Get (g_Conditions after) t ≠ Get (g_Conditions before) t.
Proof.
  intros Hb Ha. split.
  - intros (op & -> & Hop)%list_elem_of_fmap_1.
    apply elem_of_NewPatch in Hop as [t Hop]; [|done..].
    rewrite (op_of_Get_type _ _ _ _ Hop). intros Heq. rewrite Heq in Hop.
    destruct (Get (g_Conditions before) t); simpl in Hop; [by rewrite decide_True in Hop|done].
  - intros Hne.
    destruct (op_of (Get (g_Conditions before) t) (Get (g_Conditions after) t)) as [op|] eqn:E.
    + rewrite <-(op_of_Get_type _ _ _ _ E). apply list_elem_of_fmap_2.
      apply elem_of_NewPatch; eauto.
    + exfalso. apply Hne. destruct (Get _ t), (Get _ t); simpl in E; try done.
      by case_decide; simplify_eq.
Qed.

Lemma Get_type l t c : Get l t = Some c → c_Type c = t.
Proof. by intros []%Get_elem_of. Qed.

Lemma Apply_merge3 (clock : nat → Z) (before after latest : Getter)
    (options : list ApplyOption) :
  NoDup (types before) → NoDup (types after) → NoDup (types latest) →
  let o := final_options options in
  let '(latest', r) := Apply clock (NewPatch before after) latest options in
  let b := Get (g_Conditions before) in
  let a := Get (g_Conditions after) in
  let l := Get (g_Conditions latest) in
  match r with
  | Ok _ => (∀ t, overwrites o t = true ∨ ¬ conflict (b t) (a t) (l t)) ∧
            (∀ t, eq_state (Get (g_Conditions latest') t) (merge3 (b t) (a t) (l t)))
  | Err _ => ∃ t, overwrites o t = false ∧ conflict (b t) (a t) (l t)
  | Panic => False
  end.
Proof.
  intros Hb Ha Hl. simpl. rewrite Apply_apply_ops.
  pose proof (apply_ops_spec (final_options options) (Get (g_Conditions before))
    (Get (g_Conditions after)) (Get_type _) (Get_type _) clock (NewPatch before after) latest
    Hl (NewPatch_ops_of _ _ Hb Ha)) as Hspec.
  destruct (apply_ops _ _ latest _) as [latest' r]. destruct r as [[]|e|]; [|naive_solver|done].
  destruct Hspec as [Hok Hget]. split; intros t.
  - destruct (overwrites _ t) eqn:Eo; [by left|]. right. intros Hc.
    destruct (decide (t ∈ op_type <$> NewPatch before after)) as [Hin|Hin].
    + by apply (Hok t Hin).
    + rewrite elem_of_NewPatch_types in Hin by done. apply dec_stable in Hin.
      rewrite Hin in Hc. unfold conflict in Hc. repeat case_match; naive_solver.
  - specialize (Hget t). unfold merge3.
    destruct (decide (t ∈ op_type <$> NewPatch before after)) as [Hin|Hin];
      rewrite elem_of_NewPatch_types in Hin by done.
    + by rewrite decide_False.
    + apply dec_stable in Hin. by rewrite decide_True.
Qed.

(** C3: applying the difference of two condition lists to a third is a
    three-way merge.  It succeeds exactly when no type that the caller changed
    (and neither owns nor forces) was changed incompatibly on the latest
    object; then every type the caller changed is in the caller's state and
    every other type is as on the latest object.  It never panics. *)
Theorem patch_three_way_merge (clock : nat → Z) (before after latest : Getter)
    (options : list ApplyOption) :
  NoDup (types before) → NoDup (types after) → NoDup (types latest) →
  let o := final_options options in
  let '(latest', r) := Apply clock (NewPatch before after) latest options in
  let b := Get (g_Conditions before) in
  let a := Get (g_Conditions after) in
  let l := Get (g_Conditions latest) in
  match r with
  | Ok _ => (∀ t, overwrites o t = true ∨ ¬ conflict (b t) (a t) (l t)) ∧
            (∀ t, eq_state (Get (g_Conditions latest') t) (merge3 (b t) (a t) (l t)))
  | Err _ => ∃ t, overwrites o t = false ∧ conflict (b t) (a t) (l t)
  | Panic => False
  end.
Proof. apply Apply_merge3. Qed.

Definition ex_before : Getter :=
  mkGetter [FalseCondition "Ready" "NotReady" "booting"; TrueCondition "Created"] None None.
Definition ex_after : Getter :=
  mkGetter [TrueCondition "Ready"; TrueCondition "Synced"] None None.
Definition ex_latest : Getter :=
  mkGetter [FalseCondition "Ready" "NotReady" "booting"; TrueCondition "Created";
            TrueCondition "Other"] None None.

Lemma patch_three_way_merge_witness :
  let '(latest', r) := Apply (λ _, 4) (NewPatch ex_before ex_after) ex_latest [] in
  let b := Get (g_Conditions ex_before) in
  let a := Get (g_Conditions ex_after) in
  let l := Get (g_Conditions ex_latest) in
  match r with
  | Ok _ => (∀ t, overwrites (final_options []) t = true ∨ ¬ conflict (b t) (a t) (l t)) ∧
            (∀ t, eq_state (Get (g_Conditions latest') t) (merge3 (b t) (a t) (l t)))
  | Err _ => ∃ t, overwrites (final_options []) t = false ∧ conflict (b t) (a t) (l t)
  | Panic => False
  end.
Proof.
  apply (patch_three_way_merge (λ _, 4) ex_before ex_after ex_latest []);
    apply (bool_decide_unpack _); vm_compute; exact I.
Defined.

(** The patch between two condition lists is exact: applied to the list it
    was computed from, with any options, it succeeds and leaves for every type
    the state of the target list. *)
Theorem patch_roundtrip (clock : nat → Z) (before after : Getter) (options : list ApplyOption) :
  NoDup (types before) → NoDup (types after) →
  let '(latest', r) := Apply clock (NewPatch before after) before options in
  r = Ok () ∧
  ∀ t, eq_state (Get (g_Conditions latest') t) (Get (g_Conditions after) t).
Proof.
  intros Hb Ha.
  pose proof (Apply_merge3 clock before after before options Hb Ha Hb) as Hm. simpl in Hm.
  destruct (Apply clock _ before options) as [latest' r]. destruct r as [[]|e|]; [|exfalso|done].
  - destruct Hm as [_ Hm]. split; [done|]. intros t. specialize (Hm t). unfold merge3 in Hm.
    case_decide as Heq; [by rewrite Heq|done].
  - destruct Hm as (t & _ & Hc). unfold conflict in Hc.
    destruct (Get (g_Conditions before) t), (Get (g_Conditions after) t); try done.
    naive_solver.
Qed.

Lemma patch_roundtrip_witness :
  let '(latest', r) := Apply (λ _, 4) (NewPatch ex_before ex_after) ex_before [] in
  r = Ok () ∧ ∀ t, eq_state (Get (g_Conditions latest') t) (Get (g_Conditions ex_after) t).
Proof.
  apply (patch_roundtrip (λ _, 4) ex_before ex_after []);
    apply (bool_decide_unpack _); vm_compute; exact I.
Defined.

(** With every changed type owned or the overwrite forced, applying never
    conflicts, whatever the latest object holds, and never touches a type the
    caller did not change. *)
Theorem patch_owned_never_conflicts (clock : nat → Z) (before after latest : Getter)
    (options : list ApplyOption) :
  NoDup (types before) → NoDup (types after) → NoDup (types latest) →
  (∀ t, Get (g_Conditions after) t ≠ Get (g_Conditions before) t →
        overwrites (final_options options) t = true) →
  let '(latest', r) := Apply clock (NewPatch before after) latest options in
  r = Ok () ∧
  ∀ t, eq_state (Get (g_Conditions latest') t)
         (merge3 (Get (g_Conditions before) t) (Get (g_Conditions after) t)
            (Get (g_Conditions latest) t)).
Proof.
  intros Hb Ha Hl Hown.
  pose proof (Apply_merge3 clock before after latest options Hb Ha Hl) as Hm. simpl in Hm.
  destruct (Apply clock _ latest options) as [latest' r]. destruct r as [[]|e|]; [|exfalso|done].
  - by destruct Hm.
  - destruct Hm as (t & Ho & Hc).
    destruct (decide (Get (g_Conditions after) t = Get (g_Conditions before) t)) as [Heq|Hne].
    + rewrite Heq in Hc. unfold conflict in Hc. repeat case_match; naive_solver.
    + rewrite Hown in Ho; done.
Qed.

Lemma patch_owned_never_conflicts_witness :
  let '(latest', r) := Apply (λ _, 4) (NewPatch ex_before ex_after)
                         (mkGetter [TrueCondition "Synced"] None None)
                         [WithForceOverwrite true] in
  r = Ok () ∧
  ∀ t, eq_state (Get (g_Conditions latest') t)
         (merge3 (Get (g_Conditions ex_before) t) (Get (g_Conditions ex_after) t)
            (Get [TrueCondition "Synced"] t)).
Proof.
  apply (patch_owned_never_conflicts (λ _, 4) ex_before ex_after
           (mkGetter [TrueCondition "Synced"] None None) [WithForceOverwrite true]);
    try (apply (bool_decide_unpack _); vm_compute; exact I).
  intros t _. reflexivity.
Defined.
