(* ===== verification/OptionValues.v ===== *)
(** * ExtraConfig lists: pkg/util/option_values.go

    [OptionValues] is a list of key/value pairs such as a VM's ExtraConfig.
    The list order and duplicate keys are kept; the theorems relate the list
    operations to the maps the lists denote (the last entry of a key wins). *)

From S2P Require Import Prelude.

Section OptionValues.
Context {A : Type} `{!EqDecision A}.

(** [fmt.Sprintf("%v", x)] of a value that is neither a string nor a pointer. *)
Context (sprint_v : A → string).

(** A dynamic [any] value: strings, pointers (with their address, since
    interface equality compares addresses) and everything else. *)
Inductive any :=
  | AnyString (s : string)
  | AnyNilPointer
  | AnyPointer (addr : positive) (elem : string + A)
  | AnyOther (a : A).

#[export] Instance any_eq_dec : EqDecision any.
Proof using EqDecision0. solve_decision. Defined.

Abbreviation OptionValue := (string * any)%type.

(** [None] is an element whose [GetOptionValue] is nil. *)
Abbreviation OptionValues := (list (option OptionValue)).

Definition getOptionValueAsString (val : any) : string :=
  match val with
  | AnyString s => s
  | AnyNilPointer => ""
  | AnyPointer _ (inl s) => s
  | AnyPointer _ (inr a) => sprint_v a
  | AnyOther a => sprint_v a
  end.

(** The map is walked in an unspecified order; this is one of them. *)
Definition OptionValuesFromMap (m : gmap string any) : OptionValues :=
  Some <$> map_to_list m.

Definition has_key (key : string) (o : option OptionValue) : bool :=
  match o with Some kv => bool_decide (kv.1 = key) | None => false end.

Definition Delete (ov : OptionValues) (key : string) : OptionValues :=
  filter (λ o, has_key key o = false) ov.

Fixpoint Get (ov : OptionValues) (key : string) : option any :=
  match ov with
  | [] => None
  | Some (k, v) :: ov' => if decide (k = key) then Some v else Get ov' key
  | None :: ov' => Get ov' key
  end.

Definition GetString (ov : OptionValues) (key : string) : string * bool :=
  match Get ov key with
  | Some v => (getOptionValueAsString v, true)
  | None => ("", false)
  end.

Definition Map (ov : OptionValues) : gmap string any :=
  foldl (λ out o, match o with Some (k, v) => <[k:=v]> out | None => out end) ∅ ov.

Definition StringMap (ov : OptionValues) : gmap string string :=
  foldl (λ out o, match o with
                  | Some (k, v) => <[k:=getOptionValueAsString v]> out
                  | None => out end) ∅ ov.

Definition diff (ov inn : OptionValues) (addOnly : bool) : OptionValues :=
  let leftOptVals := Map ov in
  omap (λ o,
    match o with
    | None => None
    | Some (k, v) =>
      match leftOptVals !! k with
      | None => Some (Some (k, v))
      | Some leftOptVal =>
        if negb addOnly && negb (bool_decide (v = leftOptVal))
        then Some (Some (k, v)) else None
      end
    end) inn.

Definition Additions (ov inn : OptionValues) : OptionValues := diff ov inn true.
Definition Diff (ov inn : OptionValues) : OptionValues := diff ov inn false.

(** The state of [merge]: the output slice of fresh [*OptionValue]s and the
    map from key to the pointer, as an index into the slice. *)
Definition merge_state : Type := list OptionValue * gmap string nat.

Definition merge_init (ov : OptionValues) : merge_state :=
  foldl (λ '(out, ptrs) o,
    match o with
    | Some (k, v) => (out ++ [(k, v)], <[k := length out]> ptrs)
    | None => (out, ptrs)
    end) ([], ∅) ov.

Definition merge_step (overwrite : bool) (st : merge_state) (o : option OptionValue)
    : merge_state :=
  let '(out, ptrs) := st in
  match o with
  | None => st
  | Some (k, v) =>
    match ptrs !! k with
    | None => (out ++ [(k, v)], ptrs)
    | Some p => if overwrite then (alter (λ kv, (kv.1, v)) p out, ptrs) else st
    end
  end.

Definition merge (ov inn : OptionValues) (overwrite : bool) : OptionValues :=
  match inn with
  | [] => ov
  | _ => Some <$> (foldl (merge_step overwrite) (merge_init ov) inn).1
  end.

Definition Merge (ov inn : OptionValues) : OptionValues := merge ov inn true.
Definition Append (ov inn : OptionValues) : OptionValues := merge ov inn false.

(** ** Lemmas *)

Definition pairs_map (l : list OptionValue) : gmap string any :=
  foldl (λ m kv, <[kv.1:=kv.2]> m) ∅ l.

Definition entries (ov : OptionValues) : list OptionValue := omap id ov.

Lemma entries_app ov ov' : entries (ov ++ ov') = entries ov ++ entries ov'.
Proof. apply omap_app. Qed.

Lemma entries_Some (l : list OptionValue) : entries (Some <$> l) = l.
Proof. induction l as [|x l IH]; [done|]. rewrite fmap_cons. simpl. by rewrite IH. Qed.

Lemma Map_entries ov : Map ov = pairs_map (entries ov).
Proof.
  unfold Map, pairs_map. generalize (∅ : gmap string any).
  induction ov as [|[[k v]|] ov IH]; intros m; simpl; [done|apply IH..].
Qed.

Lemma pairs_map_snoc l kv : pairs_map (l ++ [kv]) = <[kv.1:=kv.2]> (pairs_map l).
Proof. unfold pairs_map. by rewrite foldl_app. Qed.

Lemma Map_snoc ov k v : Map (ov ++ [Some (k, v)]) = <[k:=v]> (Map ov).
Proof. unfold Map. by rewrite foldl_app. Qed.

Lemma Map_snoc_nil ov : Map (ov ++ [None]) = Map ov.
Proof. unfold Map. by rewrite foldl_app. Qed.

Lemma pairs_map_lookup l k :
  pairs_map l !! k = snd <$> last (filter (λ kv : OptionValue, kv.1 = k) l).
Proof.
  induction l as [|kv l IH] using rev_ind; [done|].
  rewrite pairs_map_snoc, lookup_insert, filter_app, filter_cons, filter_nil.
  case_decide; [by rewrite last_snoc|]. by rewrite app_nil_r.
Qed.

Lemma Map_merge_nil ov overwrite : Map (merge ov [] overwrite) = Map ov.
Proof. done. Qed.

(** The pointer of a key is the last entry of that key. *)
Definition ptrs_ok (out : list OptionValue) (ptrs : gmap string nat) : Prop :=
  ∀ k p, ptrs !! k = Some p →
    ∃ v, out !! p = Some (k, v) ∧ ∀ q v', out !! q = Some (k, v') → q ≤ p.

Lemma ptrs_ok_snoc out ptrs k v :
  ptrs_ok out ptrs → ptrs_ok (out ++ [(k, v)]) (<[k := length out]> ptrs).
Proof.
  intros Hok k' p. rewrite lookup_insert. case_decide as Hk.
  - intros [= <-]. subst. exists v. split; [by rewrite list_lookup_middle|].
    intros q v' Hq. apply lookup_lt_Some in Hq. rewrite length_app in Hq. simpl in Hq. lia.
  - intros Hp. destruct (Hok k' p Hp) as (v' & Hv' & Hmax). exists v'. split.
    + by apply lookup_app_l_Some.
    + intros q w Hq. apply lookup_app_Some in Hq as [Hq|[_ Hq]]; [by eapply Hmax|].
      by apply list_lookup_singleton_Some in Hq as [_ [= -> _]].
Qed.

Lemma ptrs_ok_snoc_fresh out ptrs k v :
  ptrs_ok out ptrs → ptrs !! k = None → ptrs_ok (out ++ [(k, v)]) ptrs.
Proof.
  intros Hok Hk k' p Hp. destruct (Hok k' p Hp) as (v' & Hv' & Hmax). exists v'. split.
  - by apply lookup_app_l_Some.
  - intros q w Hq. apply lookup_app_Some in Hq as [Hq|[_ Hq]]; [by eapply Hmax|].
    apply list_lookup_singleton_Some in Hq as [_ [= -> _]]. congruence.
Qed.

Lemma ptrs_ok_alter out ptrs p v :
  ptrs_ok out ptrs → ptrs_ok (alter (λ kv, (kv.1, v)) p out) ptrs.
Proof.
  intros Hok k p' Hp'. destruct (Hok k p' Hp') as (w & Hw & Hmax).
  assert (∀ q k' v', alter (λ kv : OptionValue, (kv.1, v)) p out !! q = Some (k', v') →
                     ∃ v'', out !! q = Some (k', v'')) as Hkey.
  { intros q k' v'. rewrite list_lookup_alter. case_decide; subst; [|eauto].
    destruct (out !! q) as [[k0 v0]|]; simpl; [|done]. intros [= -> _]. eauto. }
  destruct (decide (p = p')) as [->|Hne].
  - exists v. split; [by rewrite list_lookup_alter, decide_True, Hw|].
    intros q v' (v'' & Hq)%Hkey. by eapply Hmax.
  - exists w. split; [by rewrite list_lookup_alter_ne|].
    intros q v' (v'' & Hq)%Hkey. by eapply Hmax.
Qed.

Lemma last_split (l1 l2 : list OptionValue) k v :
  (∀ kv, kv ∈ l2 → kv.1 ≠ k) → pairs_map (l1 ++ (k, v) :: l2) = <[k:=v]> (pairs_map (l1 ++ l2)).
Proof.
  intros Hl2. apply map_eq. intros k'. rewrite lookup_insert, !pairs_map_lookup.
  rewrite !filter_app, filter_cons. simpl. case_decide as Hk; [subst|done].
  rewrite (list_filter_none _ l2) by (intros x Hx; by apply Hl2). by rewrite last_snoc.
Qed.

Lemma pairs_map_alter out ptrs k p v :
  ptrs_ok out ptrs → ptrs !! k = Some p →
  pairs_map (alter (λ kv, (kv.1, v)) p out) = <[k:=v]> (pairs_map out).
Proof.
  intros Hok Hp. destruct (Hok k p Hp) as (w & Hw & Hmax).
  pose proof (take_drop_middle _ _ _ Hw) as Hsplit.
  set (l1 := take p out) in *. set (l2 := drop (S p) out) in *.
  assert (length l1 = p) as Hlen.
  { apply length_take_le. apply lookup_lt_Some in Hw. lia. }
  assert (∀ kv, kv ∈ l2 → kv.1 ≠ k) as Hl2.
  { intros [k' v'] Hin Heq. simpl in Heq. subst k'. apply list_elem_of_lookup in Hin as [j Hj].
    unfold l2 in Hj. rewrite lookup_drop in Hj. specialize (Hmax _ _ Hj). lia. }
  assert (alter (λ kv : OptionValue, (kv.1, v)) p out = l1 ++ (k, v) :: l2) as ->.
  { rewrite <-Hsplit, <-Hlen. rewrite alter_app_r_alt by lia.
    by rewrite Nat.sub_diag. }
  rewrite <-Hsplit at 1. rewrite !(last_split l1 l2 k) by done. by rewrite insert_insert_eq.
Qed.

Lemma merge_init_spec ov :
  let '(out, ptrs) := merge_init ov in
  out = entries ov ∧ ptrs_ok out ptrs ∧ dom ptrs = dom (pairs_map out).
Proof.
  unfold merge_init. induction ov as [|o ov IH] using rev_ind.
  { split_and!; [done| |by rewrite !dom_empty_L].
    intros k p Hp. by rewrite lookup_empty in Hp. }
  rewrite foldl_app. simpl. destruct (foldl _ _ ov) as [out ptrs].
  destruct IH as (-> & Hok & Hdom). rewrite entries_app. destruct o as [[k v]|]; simpl.
  - split_and!; [done|by apply ptrs_ok_snoc|].
    rewrite pairs_map_snoc, !dom_insert_L. simpl. by rewrite Hdom.
  - by rewrite app_nil_r.
Qed.

(** What the loop over the right side does to the denoted map. *)
Definition map_step (overwrite : bool) (left : gset string) (m : gmap string any)
    (o : option OptionValue) : gmap string any :=
  match o with
  | None => m
  | Some (k, v) => if decide (k ∈ left) then (if overwrite then <[k:=v]> m else m)
                   else <[k:=v]> m
  end.

Lemma merge_loop overwrite inn out ptrs :
  ptrs_ok out ptrs →
  let '(out', ptrs') := foldl (merge_step overwrite) (out, ptrs) inn in
  pairs_map out' = foldl (map_step overwrite (dom ptrs)) (pairs_map out) inn.
Proof.
  revert out. induction inn as [|o inn IH]; intros out Hok; [done|]. simpl.
  destruct o as [[k v]|]; simpl; [|by apply IH].
  destruct (ptrs !! k) as [p|] eqn:Hp.
  - assert (k ∈ dom ptrs) by (by apply elem_of_dom_2 in Hp).
    rewrite decide_True by done. destruct overwrite; [|by apply IH].
    specialize (IH (alter (λ kv, (kv.1, v)) p out) (ptrs_ok_alter _ _ _ _ Hok)).
    rewrite (pairs_map_alter out ptrs k) in IH by done. done.
  - assert (k ∉ dom ptrs) by (by apply not_elem_of_dom).
    rewrite decide_False by done.
    specialize (IH (out ++ [(k, v)]) (ptrs_ok_snoc_fresh _ _ _ _ Hok Hp)).
    by rewrite pairs_map_snoc in IH.
Qed.

Lemma map_step_overwrite (left : gset string) inn m :
  foldl (map_step true left) m inn = Map inn ∪ m.
Proof.
  induction inn as [|o inn IH] using rev_ind.
  { unfold Map. simpl. by rewrite (left_id_L ∅ (∪)). }
  rewrite foldl_app, IH. simpl. destruct o as [[k v]|]; simpl.
  - rewrite Map_snoc, insert_union_l. by case_decide.
  - by rewrite Map_snoc_nil.
Qed.

Lemma map_step_append (left : gset string) inn m :
  left = dom m → foldl (map_step false left) m inn = m ∪ Map inn.
Proof.
  intros ->. induction inn as [|o inn IH] using rev_ind.
  { unfold Map. simpl. by rewrite (right_id_L ∅ (∪)). }
  rewrite foldl_app, IH. simpl. destruct o as [[k v]|]; simpl.
  - rewrite Map_snoc. case_decide as Hk.
    + apply map_eq. intros k'. rewrite !lookup_union, lookup_insert.
      case_decide; [subst|done]. apply elem_of_dom in Hk as [x ->].
      by destruct (Map inn !! k').
    + rewrite <-insert_union_r; [done|]. by apply not_elem_of_dom.
  - by rewrite Map_snoc_nil.
Qed.

Lemma Map_merge ov inn overwrite :
  Map (merge ov inn overwrite) =
  if overwrite then Map inn ∪ Map ov else Map ov ∪ Map inn.
Proof.
  destruct inn as [|o inn].
  { change (Map []) with (∅ : gmap string any). simpl.
    destruct overwrite; by rewrite ?(left_id_L ∅ (∪)), ?(right_id_L ∅ (∪)). }
  unfold merge. pose proof (merge_init_spec ov) as Hinit.
  destruct (merge_init ov) as [out ptrs]. destruct Hinit as (Hout & Hok & Hdom).
  pose proof (merge_loop overwrite (o :: inn) out ptrs Hok) as Hloop.
  destruct (foldl (merge_step overwrite) (out, ptrs) (o :: inn)) as [out' ptrs'].
  rewrite Map_entries. cbn [fst]. rewrite entries_Some, Hloop.
  rewrite (Map_entries ov), <-Hout. destruct overwrite.
  - by rewrite map_step_overwrite.
  - by rewrite map_step_append.
Qed.

(** ** Lists with one entry per key *)

Definition keys (ov : OptionValues) : list string := fst <$> entries ov.

Lemma elem_of_pairs_map (l : list OptionValue) k v :
  NoDup (fst <$> l) → pairs_map l !! k = Some v ↔ (k, v) ∈ l.
Proof.
  intros Hnd. rewrite pairs_map_lookup. split.
  - destruct (last _) as [[k' v']|] eqn:E; simpl; [|done]. intros [= ->].
    apply last_Some_elem_of, list_elem_of_filter in E as [? ?]. by simplify_eq/=.
  - intros Hin. assert (filter (λ kv : OptionValue, kv.1 = k) l = [(k, v)]) as ->; [|done].
    induction l as [|[k' v'] l IH]; [by apply elem_of_nil in Hin|].
    rewrite fmap_cons, NoDup_cons in Hnd. destruct Hnd as [Hk' Hnd]. simpl in Hk'.
    rewrite filter_cons. simpl. apply elem_of_cons in Hin as [[= <- <-]|Hin].
    + rewrite decide_True by done. f_equal. apply list_filter_none.
      intros x Hx Heq. apply Hk'. rewrite <-Heq. by apply list_elem_of_fmap_2.
    + rewrite decide_False; [by apply IH|]. intros ->. apply Hk'.
      by apply (list_elem_of_fmap_2 fst l (k, v)).
Qed.

Lemma Get_entries ov k :
  Get ov k = snd <$> head (filter (λ kv : OptionValue, kv.1 = k) (entries ov)).
Proof.
  induction ov as [|[[k' v]|] ov IH]; simpl; [done| |done].
  rewrite filter_cons. simpl. by case_decide.
Qed.

Lemma Get_Map ov k : NoDup (keys ov) → Get ov k = Map ov !! k.
Proof.
  intros Hnd. rewrite Get_entries, Map_entries.
  destruct (pairs_map (entries ov) !! k) as [v|] eqn:E.
  - apply elem_of_pairs_map in E as Hin; [|done].
    destruct (filter (λ kv : OptionValue, kv.1 = k) (entries ov)) as [|[k' v'] l] eqn:Ef.
    + assert ((k, v) ∈ filter (λ kv : OptionValue, kv.1 = k) (entries ov)) as Hx
        by (by apply list_elem_of_filter). rewrite Ef in Hx. by apply elem_of_nil in Hx.
    + assert ((k', v') ∈ filter (λ kv : OptionValue, kv.1 = k) (entries ov)) as Hx
        by (rewrite Ef; by apply list_elem_of_here).
      apply list_elem_of_filter in Hx as [Hk' Hx]. simplify_eq/=.
      apply elem_of_pairs_map in Hx; [|done]. congruence.
  - rewrite pairs_map_lookup in E. apply fmap_None in E. apply last_None in E. by rewrite E.
Qed.

Lemma diff_entries ov inn addOnly :
  entries (diff ov inn addOnly) =
  filter (λ kv : OptionValue,
            match Map ov !! kv.1 with
            | None => true
            | Some w => negb addOnly && negb (bool_decide (kv.2 = w))
            end = true) (entries inn).
Proof.
  unfold diff, entries. induction inn as [|o inn IH]; [done|].
  rewrite !omap_cons. destruct o as [[k v]|]; [|done]. unfold id at 2.
  rewrite filter_cons. cbn [fst snd]. destruct (Map ov !! k) as [w|].
  - destruct (negb addOnly && negb (bool_decide (v = w))); [|done].
    rewrite omap_cons. unfold id at 1. by rewrite IH.
  - rewrite omap_cons. unfold id at 1. by rewrite IH.
Qed.

Lemma NoDup_filter_keys (P : OptionValue → Prop) `{∀ x, Decision (P x)} l :
  NoDup (fst <$> l) → NoDup (fst <$> filter P l).
Proof. intros Hnd. eapply sublist_NoDup; [exact Hnd|]. apply fmap_sublist, sublist_filter. Qed.

Lemma Map_Diff_union ov inn :
  NoDup (keys inn) → Map (Diff ov inn) ∪ Map ov = Map inn ∪ Map ov.
Proof.
  intros Hnd. apply map_eq. intros k. rewrite !lookup_union.
  rewrite (Map_entries (Diff ov inn)), (Map_entries inn). unfold Diff. rewrite diff_entries.
  set (P := λ kv : OptionValue, match Map ov !! kv.1 with
            | None => true | Some w => negb false && negb (bool_decide (kv.2 = w)) end = true).
  assert (NoDup (fst <$> filter P (entries inn))) as Hnd'
    by (by apply NoDup_filter_keys).
  destruct (pairs_map (entries inn) !! k) as [v|] eqn:Ein.
  - apply elem_of_pairs_map in Ein; [|done].
    destruct (decide (P (k, v))) as [HP|HP].
    + assert (pairs_map (filter P (entries inn)) !! k = Some v) as ->; [|done].
      apply elem_of_pairs_map; [done|]. by apply list_elem_of_filter.
    + unfold P in HP. simpl in HP. destruct (Map ov !! k) as [w|]; [|done].
      apply not_true_iff_false, negb_false_iff, bool_decide_eq_true in HP as ->.
      destruct (pairs_map (filter P (entries inn)) !! k) as [x|] eqn:Ef; [|done].
      apply elem_of_pairs_map in Ef; [|done]. apply list_elem_of_filter in Ef as [_ Ef].
      apply (elem_of_pairs_map _ k x) in Ef; [|done].
      apply (elem_of_pairs_map _ k w) in Ein; [|done]. simpl. congruence.
  - destruct (pairs_map (filter P (entries inn)) !! k) as [x|] eqn:Ef; [|done].
    apply elem_of_pairs_map in Ef; [|done]. apply list_elem_of_filter in Ef as [_ Ef].
    apply (elem_of_pairs_map _ k x) in Ef; [|done]. congruence.
Qed.

Lemma Diff_nil ov inn :
  Diff ov inn = [] ↔ ∀ k v, (k, v) ∈ entries inn → Map ov !! k = Some v.
Proof.
  unfold Diff, diff, entries. induction inn as [|[[k v]|] inn IH]; simpl; [set_solver| |done].
  destruct (Map ov !! k) as [w|] eqn:Ek; simpl.
  - destruct (decide (v = w)) as [->|Hne].
    + rewrite bool_decide_eq_true_2 by done. simpl. rewrite IH. split; [|set_solver].
      intros Hall k' v' [[= -> ->]|]%elem_of_cons; [done|by apply Hall].
    + rewrite bool_decide_eq_false_2 by done. simpl. split; [done|]. intros Hall.
      assert (Map ov !! k = Some v) by (apply Hall; set_solver). congruence.
  - split; [done|]. intros Hall.
    assert (Map ov !! k = Some v) by (apply Hall; set_solver). congruence.
Qed.

(** ** Properties *)

(** Merge and Append denote the union of the maps of the two lists, with
    the new values winning in Merge and the old ones in Append, for lists with
    repeated keys and nil elements too. *)
Theorem merge_append_denote_union (ov inn : OptionValues) :
  Map (Merge ov inn) = Map inn ∪ Map ov ∧ Map (Append ov inn) = Map ov ∪ Map inn.
Proof. unfold Merge, Append. by rewrite !Map_merge. Qed.

(** Diff is a minimal update: for an input without repeated keys, merging
    the difference has the effect of merging the whole input, and the
    difference is empty exactly when every entry of the input is already
    present with its value; a key that was deleted is gone. *)
Theorem diff_is_minimal_update (ov inn : OptionValues) (key : string) :
  NoDup (keys inn) →
  Map (Merge ov (Diff ov inn)) = Map (Merge ov inn) ∧
  (Diff ov inn = [] ↔ ∀ k v, Some (k, v) ∈ inn → Map ov !! k = Some v) ∧
  Get (Delete ov key) key = None.
Proof.
  intros Hnd. unfold Merge. rewrite !Map_merge. split_and!.
  - by apply Map_Diff_union.
  - rewrite Diff_nil. unfold entries. setoid_rewrite list_elem_of_omap. naive_solver.
  - unfold Delete. induction ov as [|o ov IH]; [done|]. rewrite filter_cons.
    case_decide as Hk; [|done]. destruct o as [[k v]|]; simpl; [|done].
    simpl in Hk. by rewrite decide_False by (by apply bool_decide_eq_false in Hk).
Qed.

(** A list built from a map, in whatever order the map is walked, denotes
    the map, and looking a key up in the list is looking it up in the map. *)
Theorem option_values_from_map_roundtrip (m : gmap string any) (ov : OptionValues) (k : string) :
  ov ≡ₚ OptionValuesFromMap m → Map ov = m ∧ Get ov k = m !! k.
Proof.
  intros Hp. assert (entries ov ≡ₚ map_to_list m) as He.
  { rewrite <-(entries_Some (map_to_list m)). unfold entries. by rewrite Hp. }
  assert (NoDup (keys ov)) as Hnd.
  { unfold keys. rewrite He. apply NoDup_fst_map_to_list. }
  assert (Map ov = m) as HM.
  { apply map_eq. intros k'. rewrite Map_entries. apply option_eq. intros v.
    rewrite elem_of_pairs_map by done. by rewrite He, elem_of_map_to_list. }
  split; [done|]. by rewrite Get_Map, HM.
Qed.
End OptionValues.

Arguments any : clear implicits.
Arguments AnyString {A} s.
Arguments AnyNilPointer {A}.
Arguments AnyPointer {A} addr elem.
Arguments AnyOther {A} a.

Lemma diff_is_minimal_update_witness :
  let ov : list (option (string * any Z)) := [Some ("a", AnyString "1"); Some ("b", AnyOther 2%Z)] in
  let inn := [Some ("b", AnyOther 2%Z); None; Some ("c", AnyString "3")] in
  Map (Merge ov (Diff ov inn)) = Map (Merge ov inn) ∧
  (Diff ov inn = [] ↔ ∀ k v, Some (k, v) ∈ inn → Map ov !! k = Some v) ∧
  Get (Delete ov "a") "a" = None.
Proof.
  apply diff_is_minimal_update. apply (bool_decide_unpack _). vm_compute. exact I.
Defined.

Lemma option_values_from_map_roundtrip_witness :
  let m : gmap string (any Z) := {[ "x" := AnyString "1"; "y" := AnyNilPointer ]} in
  Map (reverse (OptionValuesFromMap m)) = m ∧
  Get (reverse (OptionValuesFromMap m)) "y" = m !! "y".
Proof.
  apply option_values_from_map_roundtrip. apply reverse_Permutation.
Defined.
