(* ===== verification/Bitmask.v ===== *)
(** * Bitmasks: pkg/bitmask/bitmask.go

    A mask type is an unsigned integer of [width] bits with a name per bit and
    a largest valid bit.  The printing loop of [String] shifts a one of the
    mask's own width, so its termination depends on that width. *)

From S2P Require Import Prelude.
Local Open Scope Z_scope.

(** The constraints [Bit] and [Bitmask]: the width of the integer type, the
    two methods, and the optional [Write] method as a function from the
    buffer's content to its new content. *)
Class Bitmask := {
  width : Z;
  StringValue : Z → string;
  MaxValue : Z;
  Write : option (string → Z → string);
  width_pos : 1 ≤ width;
  MaxValue_range : 0 ≤ MaxValue < 2 ^ width
}.

Section Bitmask.
Context `{!Bitmask}.

Definition Has (a b : Z) : bool := 0 <? Z.land a b.
Definition Set_ (a b : Z) : Z := Z.lor a b.
Definition Unset (a b : Z) : Z := Z.ldiff a b.

Definition write (w : string) (b : Z) : string :=
  (if decide (String.length w = 0%nat) then w else w +:+ "And") +:+ StringValue b.

Definition writeFn : string → Z → string := default write Write.

(** [1 << i] in an unsigned type of [width] bits. *)
Definition one_shl (i : Z) : Z := Z.shiftl 1 i `mod` 2 ^ width.

(** The loop from counter [i], for at most [fuel] iterations; [None] when it
    has not left the loop by then. *)
Fixpoint string_loop (fuel : nat) (i : Z) (w : string) (a : Z) : option string :=
  match fuel with
  | O => None
  | S fuel' =>
    let b := one_shl i in
    if MaxValue <? b then Some w
    else string_loop fuel' (i + 1) (if Has a b then writeFn w b else w) a
  end.

Definition String (fuel : nat) (a : Z) : option string := string_loop fuel 0 "" a.

(** ** Lemmas *)

Lemma one_shl_small i : 0 ≤ i < width → one_shl i = 2 ^ i.
Proof.
  intros Hi. unfold one_shl. rewrite Z.shiftl_1_l. apply Z.mod_small.
  split; [lia|]. apply Z.pow_lt_mono_r; lia.
Qed.

Lemma one_shl_large i : width ≤ i → one_shl i = 0.
Proof.
  intros Hi. unfold one_shl. pose proof width_pos. rewrite Z.shiftl_1_l.
  replace i with ((i - width) + width) by lia.
  rewrite Z.pow_add_r by lia. by rewrite Z.mod_mul by lia.
Qed.

Lemma Has_pow2 a i : 0 ≤ a → 0 ≤ i → Has a (2 ^ i) = Z.testbit a i.
Proof.
  intros Ha Hi. unfold Has. rewrite <-Z.shiftl_1_l.
  destruct (Z.testbit a i) eqn:E.
  - apply Z.ltb_lt. assert (Z.testbit (Z.land a (Z.shiftl 1 i)) i = true) as Hb.
    { rewrite Z.land_spec, E, Z.shiftl_spec by lia. by rewrite Z.sub_diag. }
    assert (0 ≤ Z.land a (Z.shiftl 1 i)) by (apply Z.land_nonneg; by left).
    destruct (Z.eq_dec (Z.land a (Z.shiftl 1 i)) 0) as [Hz|]; [|lia].
    by rewrite Hz, Z.bits_0 in Hb.
  - apply Z.ltb_ge. enough (Z.land a (Z.shiftl 1 i) = 0) by lia.
    apply Z.bits_inj'. intros n Hn. rewrite Z.land_spec, Z.bits_0, Z.shiftl_1_l.
    destruct (decide (n = i)) as [->|Hne]; [by rewrite E|].
    rewrite Z.pow2_bits_false by lia. apply andb_false_r.
Qed.

(** The bits of [a] from [i] up to the largest valid bit, in order. *)
Definition bits_from (a i : Z) (n : nat) : list Z :=
  filter (λ j, Z.testbit a j = true) (seqZ i (Z.of_nat n)).

Lemma bits_from_S a i n :
  bits_from a i (S n) =
  (if Z.testbit a i then [i] else []) ++ bits_from a (i + 1) n.
Proof.
  unfold bits_from. rewrite Nat2Z.inj_succ, seqZ_cons by lia.
  rewrite Z.pred_succ, Z.add_1_r, filter_cons. case_decide as Hb.
  - by rewrite Hb.
  - by apply not_true_is_false in Hb as ->.
Qed.

Lemma string_loop_S fuel i w a :
  string_loop (S fuel) i w a =
  if MaxValue <? one_shl i then Some w
  else string_loop fuel (i + 1) (if Has a (one_shl i) then writeFn w (one_shl i) else w) a.
Proof. done. Qed.

(** [m] is the index of the largest valid bit. *)
Definition max_bit : Z := Z.log2 MaxValue.

Lemma loop_prints a n i w :
  0 ≤ a → 0 ≤ i → 0 < MaxValue → max_bit + 1 < width →
  i + Z.of_nat n = max_bit + 1 →
  string_loop (S n) i w a = Some (foldl (λ w j, writeFn w (2 ^ j)) w (bits_from a i n)).
Proof.
  intros Ha. revert i w. induction n as [|n IH]; intros i w Hi Hmax Hw Hn.
  - simpl. rewrite one_shl_small by lia.
    assert (MaxValue < 2 ^ i).
    { replace i with (Z.succ max_bit) by lia. apply Z.log2_spec. lia. }
    by rewrite (proj2 (Z.ltb_lt _ _)).
  - rewrite string_loop_S, one_shl_small by lia.
    assert (2 ^ i ≤ MaxValue).
    { etrans; [|apply (Z.log2_spec MaxValue); lia]. apply Z.pow_le_mono_r; unfold max_bit in *; lia. }
    rewrite (proj2 (Z.ltb_ge _ _)) by done.
    rewrite Has_pow2 by lia. rewrite bits_from_S. rewrite IH by lia.
    by destruct (Z.testbit a i).
Qed.

Lemma loop_diverges a fuel i w :
  2 ^ (width - 1) ≤ MaxValue → 0 ≤ i → string_loop fuel i w a = None.
Proof.
  intros Hm. revert i w. induction fuel as [|fuel IH]; intros i w Hi; [done|].
  rewrite string_loop_S. pose proof width_pos as Hw.
  assert (one_shl i ≤ MaxValue) as Hle.
  { destruct (decide (i < width)).
    - rewrite one_shl_small by lia. etrans; [|exact Hm]. apply Z.pow_le_mono_r; lia.
    - rewrite one_shl_large by lia. apply MaxValue_range. }
  rewrite (proj2 (Z.ltb_ge _ _)) by done. apply IH. lia.
Qed.

(** ** Properties *)

(** The bit set by Set is found by Has, the bit cleared by Unset is not,
    and neither operation touches another bit of the mask. *)
Theorem set_unset_bits (a i j : Z) :
  0 ≤ a → 0 ≤ i → 0 ≤ j →
  Has (Set_ a (2 ^ i)) (2 ^ j) = (bool_decide (i = j) || Has a (2 ^ j)) ∧
  Has (Unset a (2 ^ i)) (2 ^ j) = (negb (bool_decide (i = j)) && Has a (2 ^ j)).
Proof.
  intros Ha Hi Hj. unfold Set_, Unset.
  assert (Z.testbit (2 ^ i) j = bool_decide (i = j)) as Hb.
  { case_bool_decide; subst; [by apply Z.pow2_bits_true|]. by apply Z.pow2_bits_false. }
  assert (0 ≤ 2 ^ i) by lia. split; rewrite !Has_pow2; try done.
  - rewrite Z.lor_spec, Hb. apply orb_comm.
  - by apply Z.lor_nonneg.
  - rewrite Z.ldiff_spec, Hb. apply andb_comm.
  - apply Z.ldiff_nonneg. by left.
Qed.

(** String terminates within one iteration per valid bit when the largest
    valid bit is not the top bit of the mask's type, and then writes the set
    valid bits from the lowest to the highest; when the largest valid bit is
    the top bit, the shifted one wraps to zero and the loop never ends. *)
Theorem string_terminates_iff_headroom (a : Z) :
  0 ≤ a →
  (0 < MaxValue → MaxValue < 2 ^ (width - 1) →
   String (Z.to_nat (max_bit + 2)) a =
     Some (foldl (λ w j, writeFn w (2 ^ j)) "" (bits_from a 0 (Z.to_nat (max_bit + 1))))) ∧
  (2 ^ (width - 1) ≤ MaxValue → ∀ fuel, String fuel a = None).
Proof.
  intros Ha. split; intros Hm.
  - intros Hlt. assert (0 ≤ max_bit) by apply Z.log2_nonneg.
    assert (max_bit < width - 1) by (apply Z.log2_lt_pow2; lia).
    replace (Z.to_nat (max_bit + 2)) with (S (Z.to_nat (max_bit + 1))) by lia.
    apply loop_prints; lia.
  - intros fuel. by apply loop_diverges.
Qed.
End Bitmask.

(** A mask of three bits over [uint8], and the one that uses all eight. *)
Definition mask3 : Bitmask.
Proof.
  refine {| width := 8; MaxValue := 4; Write := None;
            StringValue b := if decide (b = 1) then "Aay"
                             else if decide (b = 2) then "Bee" else "Cee" |}; lia.
Defined.

Definition mask8 : Bitmask.
Proof.
  refine {| width := 8; MaxValue := 128; Write := None; StringValue b := "x" |}; lia.
Defined.

Lemma set_unset_bits_witness :
  Has (Set_ 5 (2 ^ 1)) (2 ^ 1) = (bool_decide (1 = 1) || Has 5 (2 ^ 1)) ∧
  Has (Unset 5 (2 ^ 1)) (2 ^ 1) = (negb (bool_decide (1 = 1)) && Has 5 (2 ^ 1)).
Proof. apply set_unset_bits; lia. Defined.

Lemma string_terminates_iff_headroom_witness :
  @String mask3 4 5 = Some "AayAndCee" ∧ ∀ fuel, @String mask8 fuel 1 = None.
Proof.
  split.
  - etransitivity; [apply (proj1 (@string_terminates_iff_headroom mask3 5 ltac:(lia)));
                    reflexivity|reflexivity].
  - apply (proj2 (@string_terminates_iff_headroom mask8 1 ltac:(lia))).
    vm_compute. discriminate.
Defined.
