(* ===== verification/Cache.v ===== *)
(** * The expiring cache: pkg/util/cache.go

    [Put], [Get] and [Delete] run under the mutex; an eviction goroutine
    removes expired items and starts one goroutine per notification; [Close]
    starts a goroutine that closes the notification channel once the
    wait group is zero.  The interleavings are a step relation whose labels
    name the goroutine that moves. *)

From S2P Require Import Prelude.
From stdpp Require Import relations.
Local Open Scope Z_scope.

Section Cache.
Context {T : Type}.

Record CacheItem := mkCacheItem {
  Item : T;
  LastUpdated : Z
}.

(** Where the eviction goroutine is: waiting for a tick; inside [evictFn]
    with the entries still to visit; inside [evictFn], past the [default] of
    the select for the evicted key but before [expiringNum.Add(1)]; returned. *)
Inductive evictor :=
  | EvIdle
  | EvScan (todo : list (string * CacheItem))
  | EvAdd (k : string) (todo : list (string * CacheItem))
  | EvExit.

Inductive closer :=
  | CloserNone
  | CloserWaiting
  | CloserDone.

Record Cache := mkCache {
  items : gmap string CacheItem;
  maxItems : Z;
  done_ : bool;                (* [close(c.done)] has run *)
  expiringNum : nat;           (* the wait group's counter *)
  chan_closed : bool;          (* [close(c.expiredChan)] has run *)
  ev : evictor;
  cl : closer;
  senders : list string;       (* goroutines blocked on [c.expiredChan <- k] *)
  sent : nat;                  (* goroutines between the send and [Done()] *)
  delivered : list string;     (* what subscribers received *)
  panicked : bool
}.

Definition set_items (m : gmap string CacheItem) (c : Cache) : Cache :=
  mkCache m (maxItems c) (done_ c) (expiringNum c) (chan_closed c) (ev c) (cl c)
    (senders c) (sent c) (delivered c) (panicked c).
Definition set_ev (e : evictor) (c : Cache) : Cache :=
  mkCache (items c) (maxItems c) (done_ c) (expiringNum c) (chan_closed c) e (cl c)
    (senders c) (sent c) (delivered c) (panicked c).

(** ** Operations *)

Definition NewCache (maxItems : Z) : Cache :=
  mkCache ∅ maxItems false 0 false EvIdle CloserNone [] 0 [] false.

Inductive CachePutResult :=
  | CachePutResultCreate
  | CachePutResultUpdate
  | CachePutResultMaxItemsExceeded.

Definition Put (now : Z) (id : string) (t : T) (c : Cache) : Cache * CachePutResult :=
  match items c !! id with
  | Some _ => (set_items (<[id := mkCacheItem t now]> (items c)) c, CachePutResultUpdate)
  | None =>
    if Z.of_nat (size (items c)) <? maxItems c
    then (set_items (<[id := mkCacheItem t now]> (items c)) c, CachePutResultCreate)
    else (c, CachePutResultMaxItemsExceeded)
  end.

Definition Get (id : string) (isHit : option (T → bool)) (c : Cache) : option T :=
  match items c !! id with
  | None => None
  | Some v =>
    match isHit with
    | Some f => if f (Item v) then Some (Item v) else None
    | None => Some (Item v)
    end
  end.

Definition Delete (id : string) (c : Cache) : Cache := set_items (delete id (items c)) c.

Definition Close (c : Cache) : Cache :=
  match cl c with
  | CloserNone =>
    mkCache (items c) (maxItems c) true (expiringNum c) (chan_closed c) (ev c) CloserWaiting
      (senders c) (sent c) (delivered c) (panicked c)
  | _ => c
  end.

(** One iteration of the loop in [evictFn], up to the select. *)
Definition evict_one (expireAfter now : Z) (k : string) (v : CacheItem)
    (todo : list (string * CacheItem)) (c : Cache) : Cache :=
  if expireAfter <? now - LastUpdated v then
    let c := set_items (delete k (items c)) c in
    if done_ c then set_ev (EvScan todo) c else set_ev (EvAdd k todo) c
  else set_ev (EvScan todo) c.

(** [expiringNum.Add(1)] and the start of the notifying goroutine. *)
Definition evict_notify (k : string) (todo : list (string * CacheItem)) (c : Cache) : Cache :=
  mkCache (items c) (maxItems c) (done_ c) (S (expiringNum c)) (chan_closed c) (EvScan todo)
    (cl c) (k :: senders c) (sent c) (delivered c) (panicked c).

(** [c.expiredChan <- k]: received by a subscriber, or a send on a closed
    channel, which panics. *)
Definition send (k : string) (rest : list string) (c : Cache) : Cache :=
  if chan_closed c then
    mkCache (items c) (maxItems c) (done_ c) (expiringNum c) (chan_closed c) (ev c) (cl c)
      rest (sent c) (delivered c) true
  else
    mkCache (items c) (maxItems c) (done_ c) (expiringNum c) (chan_closed c) (ev c) (cl c)
      rest (S (sent c)) (k :: delivered c) (panicked c).

(** [c.expiringNum.Done()] *)
Definition notify_done (n : nat) (c : Cache) : Cache :=
  mkCache (items c) (maxItems c) (done_ c) (pred (expiringNum c)) (chan_closed c) (ev c) (cl c)
    (senders c) n (delivered c) (panicked c).

(** [c.expiringNum.Wait()] has returned; [close(c.expiredChan)] *)
Definition close_chan (c : Cache) : Cache :=
  mkCache (items c) (maxItems c) (done_ c) (expiringNum c) true (ev c) CloserDone
    (senders c) (sent c) (delivered c) (panicked c).

(** ** Interleavings

    The mutex is held exactly while the evictor is inside [evictFn]. *)
Definition unlocked (c : Cache) : Prop :=
  match ev c with EvIdle | EvExit => True | _ => False end.

Inductive label := LPut | LDelete | LClose | LEvict | LSender | LCloser.

Inductive step (expireAfter : Z) : label → Cache → Cache → Prop :=
  | step_put now id t c :
      unlocked c → step expireAfter LPut c (Put now id t c).1
  | step_delete id c :
      unlocked c → step expireAfter LDelete c (Delete id c)
  | step_close c :
      step expireAfter LClose c (Close c)
  | step_tick todo c :
      ev c = EvIdle → todo ≡ₚ map_to_list (items c) →
      step expireAfter LEvict c (set_ev (EvScan todo) c)
  | step_exit c :
      ev c = EvIdle → done_ c = true → step expireAfter LEvict c (set_ev EvExit c)
  | step_evict now k v todo c :
      ev c = EvScan ((k, v) :: todo) →
      step expireAfter LEvict c (evict_one expireAfter now k v todo c)
  | step_notify k todo c :
      ev c = EvAdd k todo → step expireAfter LEvict c (evict_notify k todo c)
  | step_scan_end c :
      ev c = EvScan [] → step expireAfter LEvict c (set_ev EvIdle c)
  | step_send k l1 l2 c :
      senders c = l1 ++ k :: l2 → step expireAfter LSender c (send k (l1 ++ l2) c)
  | step_sent n c :
      sent c = S n → step expireAfter LSender c (notify_done n c)
  | step_close_chan c :
      cl c = CloserWaiting → expiringNum c = 0%nat →
      step expireAfter LCloser c (close_chan c).

Definition any_step (expireAfter : Z) (c c' : Cache) : Prop :=
  ∃ l, step expireAfter l c c'.

(** The runs in which [Close] is not called between the select and the
    [Add(1)] of an eviction. *)
Definition ordered_step (expireAfter : Z) (c c' : Cache) : Prop :=
  ∃ l, step expireAfter l c c' ∧ (l = LClose → ∀ k todo, ev c ≠ EvAdd k todo).

(** ** Invariants *)

Definition bounded (n : Z) (c : Cache) : Prop :=
  maxItems c = n ∧ Z.of_nat (size (items c)) ≤ Z.max 0 n.

Definition counted (c : Cache) : Prop :=
  expiringNum c = (length (senders c) + sent c)%nat.

Lemma size_delete_le (m : gmap string CacheItem) k : (size (delete k m) ≤ size m)%nat.
Proof. rewrite map_size_delete. case_match; [apply Nat.le_pred_l|done]. Qed.

Lemma Put_bounded n now id t c : bounded n c → bounded n (Put now id t c).1.
Proof.
  unfold bounded, Put. intros [Hn Hs]. destruct (items c !! id) eqn:E; simpl.
  - split; [done|]. by rewrite map_size_insert_Some.
  - case_match eqn:Hlt; simpl; [|done]. split; [done|]. apply Z.ltb_lt in Hlt.
    rewrite map_size_insert_None by done. lia.
Qed.

Lemma step_bounded expireAfter n l c c' :
  step expireAfter l c c' → bounded n c → bounded n c'.
Proof.
  intros Hstep Hb. destruct Hstep; try by destruct Hb.
  - by apply Put_bounded.
  - destruct Hb as [? ?]. split; [done|]. simpl. pose proof (size_delete_le (items c) id). lia.
  - unfold Close. by destruct (cl c).
  - destruct Hb as [? ?]. unfold evict_one. case_match; [|done].
    simpl. pose proof (size_delete_le (items c) k). case_match; split; simpl; done || lia.
  - unfold send. by destruct (chan_closed c).
Qed.

Lemma step_counted expireAfter l c c' :
  step expireAfter l c c' → panicked c' = false → counted c → counted c'.
Proof.
  unfold counted. intros Hstep Hp Hc. destruct Hstep; try done.
  - unfold Put. repeat case_match; done.
  - unfold Close. by destruct (cl c).
  - unfold evict_one. by repeat case_match.
  - simpl. lia.
  - unfold send in *. destruct (chan_closed c); [done|]. simpl.
    rewrite Hc. rewrite H, !length_app. simpl. lia.
  - simpl. lia.
Qed.

Definition no_pending (c : Cache) : Prop :=
  senders c = [] ∧ sent c = 0%nat ∧ ∀ k todo, ev c ≠ EvAdd k todo.

Definition closer_ok (c : Cache) : Prop :=
  match cl c with
  | CloserNone => chan_closed c = false ∧ done_ c = false
  | CloserWaiting => chan_closed c = false ∧ done_ c = true ∧ ∀ k todo, ev c ≠ EvAdd k todo
  | CloserDone => done_ c = true ∧ no_pending c
  end.

Definition safe (c : Cache) : Prop :=
  panicked c = false ∧ counted c ∧ closer_ok c.

Lemma evict_one_fields expireAfter now k v todo c :
  cl (evict_one expireAfter now k v todo c) = cl c ∧
  chan_closed (evict_one expireAfter now k v todo c) = chan_closed c ∧
  done_ (evict_one expireAfter now k v todo c) = done_ c ∧
  senders (evict_one expireAfter now k v todo c) = senders c ∧
  sent (evict_one expireAfter now k v todo c) = sent c ∧
  panicked (evict_one expireAfter now k v todo c) = panicked c ∧
  expiringNum (evict_one expireAfter now k v todo c) = expiringNum c ∧
  (done_ c = true → ∀ k' todo', ev (evict_one expireAfter now k v todo c) ≠ EvAdd k' todo').
Proof.
  unfold evict_one. case_match; simpl; [|split_and!; done].
  destruct (done_ c) eqn:E; simpl; split_and!; done.
Qed.

Lemma step_safe expireAfter l c c' :
  step expireAfter l c c' → (l = LClose → ∀ k todo, ev c ≠ EvAdd k todo) →
  safe c → safe c'.
Proof.
  intros Hstep Hord (Hp & Hcnt & Hcl). unfold safe.
  assert (panicked c' = false → counted c') as Hcnt'
    by (intros; by eapply step_counted).
  assert (panicked c' = false ∧ closer_ok c') as [? ?]; [|tauto].
  clear Hcnt'. unfold closer_ok, no_pending in *.
  destruct Hstep as [now id t c Hu|id c Hu|c|todo c He Ht|c He Hd|now k v todo c He|
                     k todo c He|c He|k l1 l2 c Hs|n c Hs|c Hw Hz].
  - unfold Put. destruct (items c !! id); [|destruct (_ <? _)]; (split; [exact Hp|exact Hcl]).
  - split; [exact Hp|exact Hcl].
  - unfold Close. destruct (cl c) eqn:Ec; simpl; [|rewrite Ec; by split..].
    split; [done|]. split_and!; [by destruct Hcl|done|by apply Hord].
  - simpl. split; [done|]. destruct (cl c); naive_solver congruence.
  - simpl. split; [done|]. destruct (cl c); naive_solver congruence.
  - destruct (evict_one_fields expireAfter now k v todo c)
      as (-> & -> & -> & -> & -> & -> & _ & Hev). split; [done|].
    destruct (cl c); naive_solver.
  - simpl. split; [done|]. rewrite He in Hcl. destruct (cl c); naive_solver.
  - simpl. split; [done|]. destruct (cl c); naive_solver congruence.
  - rewrite Hs in Hcl. unfold send.
    destruct (cl c) eqn:Ec; [destruct Hcl as [-> ?]|destruct Hcl as (-> & ? & ?)|];
      simpl; [done..|]. destruct Hcl as (_ & Hnil & _). by destruct l1.
  - rewrite Hs in Hcl. simpl. split; [done|]. destruct (cl c); naive_solver.
  - rewrite Hw in Hcl. unfold counted in Hcnt. rewrite Hz in Hcnt. simpl.
    split; [done|]. destruct Hcl as (_ & ? & ?).
    destruct (senders c); [|simpl in Hcnt; lia]. split_and!; done || (simpl in Hcnt; lia).
Qed.

Lemma ordered_safe expireAfter n c :
  rtc (ordered_step expireAfter) (NewCache n) c → safe c.
Proof.
  intros Hr. remember (NewCache n) as c0 eqn:Hc0.
  assert (safe c0) as Hs0 by (subst; split_and!; done). clear Hc0.
  induction Hr as [|c1 c2 c3 (l & Hs & Hord) _ IH]; [done|].
  apply IH. by eapply step_safe.
Qed.

(** ** Properties *)

(** However the goroutines interleave, the cache never holds more than
    its maximum number of items. *)
Theorem cache_size_bounded (expireAfter n : Z) (c : Cache) :
  0 ≤ n → rtc (any_step expireAfter) (NewCache n) c → Z.of_nat (size (items c)) ≤ n.
Proof.
  intros Hn Hr. assert (bounded n c) as [_ Hb]; [|lia].
  remember (NewCache n) as c0 eqn:Hc0. assert (bounded n c0) as Hb0.
  { subst. split; [done|]. simpl. rewrite map_size_empty. lia. }
  clear Hc0. induction Hr as [|c1 c2 c3 [l Hs] _ IH]; [done|].
  apply IH. by eapply step_bounded.
Qed.

(** As long as Close is not called between the check of the done channel
    and the increment of the wait group in an eviction, no notification is
    ever sent on the closed channel, and the wait group counts exactly the
    notifications in flight. *)
Theorem cache_close_safe_if_ordered (expireAfter n : Z) (c : Cache) :
  rtc (ordered_step expireAfter) (NewCache n) c →
  panicked c = false ∧
  expiringNum c = (length (senders c) + sent c)%nat ∧
  (chan_closed c = true → senders c = []).
Proof.
  intros (? & ? & Hcl)%ordered_safe.
  split_and!; [done..|]. intros Hclosed. unfold closer_ok, no_pending in Hcl.
  destruct (cl c); naive_solver congruence.
Qed.

(** Without that order the wait group does not protect the channel: a
    Close between the check and the increment lets the channel be closed
    first, and the notification then panics. *)
Theorem cache_close_race_panics (expireAfter n : Z) (t : T) :
  0 ≤ expireAfter → 0 < n →
  ∃ c, rtc (any_step expireAfter) (NewCache n) c ∧ panicked c = true.
Proof.
  intros He Hn. set (v := mkCacheItem t 0).
  set (c1 := (Put 0 "k" t (NewCache n)).1).
  assert (c1 = set_items {["k" := v]} (NewCache n)) as Hc1.
  { unfold c1, Put. cbn [items NewCache maxItems]. rewrite lookup_empty.
    rewrite (proj2 (Z.ltb_lt _ _)); [done|]. change (size ∅) with 0%nat. lia. }
  set (c2 := set_ev (EvScan [("k", v)]) c1).
  set (c3 := evict_one expireAfter (expireAfter + 1) "k" v [] c2).
  assert (c3 = set_ev (EvAdd "k" []) (set_items (delete "k" (items c1)) c2)) as Hc3.
  { unfold c3, evict_one. rewrite (proj2 (Z.ltb_lt _ _)) by (simpl; lia).
    unfold c2. by rewrite Hc1. }
  set (c4 := close_chan (Close c3)).
  exists (send "k" ([] ++ []) (evict_notify "k" [] c4)). split.
  - eapply rtc_l; [exists LPut; apply (step_put _ 0 "k" t); done|].
    eapply rtc_l; [exists LEvict; apply (step_tick _ [("k", v)])|].
    + change (ev c1 = EvIdle). by rewrite Hc1.
    + change ([("k", v)] ≡ₚ map_to_list (items c1)). rewrite Hc1. simpl.
      by rewrite map_to_list_singleton.
    + eapply rtc_l; [exists LEvict; by apply (step_evict _ (expireAfter + 1) "k" v [])|].
      eapply rtc_l; [exists LClose; apply step_close|].
      eapply rtc_l; [exists LCloser; apply step_close_chan|].
      * change (cl (Close c3) = CloserWaiting). rewrite Hc3. unfold c2. by rewrite Hc1.
      * change (expiringNum (Close c3) = 0%nat). rewrite Hc3. unfold c2. by rewrite Hc1.
      * eapply rtc_l; [exists LEvict; apply (step_notify _ "k" [])|].
        -- change (ev (close_chan (Close c3)) = EvAdd "k" []). rewrite Hc3.
           unfold c2. by rewrite Hc1.
        -- apply rtc_once. exists LSender. apply (step_send _ "k" [] []).
           change (senders (evict_notify "k" [] c4) = [] ++ ["k"]).
           unfold c4. rewrite Hc3. unfold c2. by rewrite Hc1.
  - done.
Qed.

Lemma drain_sent expireAfter c n :
  sent c = n → counted c → panicked c = false →
  ∃ c', rtc (any_step expireAfter) c c' ∧ sent c' = 0%nat ∧ senders c' = senders c ∧
    counted c' ∧ panicked c' = false ∧ cl c' = cl c ∧ chan_closed c' = chan_closed c ∧
    delivered c' = delivered c.
Proof.
  revert c. induction n as [|n IH]; intros c Hs Hc Hp.
  { exists c. split_and!; done. }
  destruct (IH (notify_done n c)) as (c' & Hr & ?); [done| |done|].
  - unfold counted in *. simpl. lia.
  - exists c'. split; [|done]. eapply rtc_l; [|exact Hr]. exists LSender. by apply step_sent.
Qed.

Lemma drain_senders expireAfter c l :
  senders c = l → counted c → panicked c = false → chan_closed c = false →
  ∃ c', rtc (any_step expireAfter) c c' ∧ senders c' = [] ∧
    counted c' ∧ panicked c' = false ∧ cl c' = cl c ∧ chan_closed c' = false ∧
    delivered c' ≡ₚ l ++ delivered c.
Proof.
  revert c. induction l as [|k l IH]; intros c Hs Hc Hp Hch.
  { exists c. split_and!; done. }
  assert (step expireAfter LSender c (send k ([] ++ l) c)) as Hst
    by (by apply (step_send _ k [] l)).
  assert (send k ([] ++ l) c =
    mkCache (items c) (maxItems c) (done_ c) (expiringNum c) (chan_closed c) (ev c) (cl c)
      l (S (sent c)) (k :: delivered c) (panicked c)) as Heq
    by (unfold send; by rewrite Hch).
  destruct (IH (send k ([] ++ l) c)) as (c' & Hr & ? & ? & ? & Hcl & ? & Hd);
    rewrite ?Heq; try done.
  { unfold counted in *. simpl. rewrite Hc, Hs. simpl. lia. }
  exists c'. rewrite Heq in Hcl, Hd. split_and!; try done.
  - eapply rtc_l; [|exact Hr]. by exists LSender.
  - rewrite Hd. simpl. by rewrite Permutation_middle.
Qed.

(** Closing the cache loses no notification: once Close has been called,
    if subscribers keep receiving, a run exists that delivers every pending
    notification exactly once and then closes the channel. *)
Theorem cache_close_delivers_pending (expireAfter n : Z) (c : Cache) :
  rtc (ordered_step expireAfter) (NewCache n) c → cl c = CloserWaiting →
  ∃ c', rtc (any_step expireAfter) c c' ∧ chan_closed c' = true ∧ panicked c' = false ∧
    delivered c' ≡ₚ senders c ++ delivered c.
Proof.
  intros (Hp & Hcnt & Hcl)%ordered_safe Hw.
  unfold closer_ok in Hcl. rewrite Hw in Hcl. destruct Hcl as (Hch & _ & _).
  destruct (drain_senders expireAfter c (senders c)) as (c1 & Hr1 & Hs1 & Hc1 & Hp1 & Hcl1 & Hch1 & Hd1);
    [done..|].
  destruct (drain_sent expireAfter c1 (sent c1)) as (c2 & Hr2 & Hn2 & Hs2 & Hc2 & Hp2 & Hcl2 & Hch2 & Hd2);
    [done..|].
  exists (close_chan c2). split_and!; [|done|done|by simpl; rewrite Hd2].
  etrans; [exact Hr1|]. etrans; [exact Hr2|]. apply rtc_once. exists LCloser.
  apply step_close_chan; [congruence|]. unfold counted in Hc2. rewrite Hs2, Hs1, Hn2 in Hc2. done.
Qed.

(** Put stores the item unless the id is new and the cache is full, Get
    then returns it when the hit test accepts it, other ids are untouched,
    and Delete makes Get miss. *)
Theorem put_get_delete (now : Z) (id id' : string) (t : T) (isHit : option (T → bool)) (c : Cache) :
  let '(c', r) := Put now id t c in
  match r with
  | CachePutResultMaxItemsExceeded =>
    c' = c ∧ items c !! id = None ∧ maxItems c ≤ Z.of_nat (size (items c))
  | _ =>
    Get id isHit c' = (match isHit with
                       | Some f => if f t then Some t else None
                       | None => Some t end) ∧
    (id' ≠ id → Get id' isHit c' = Get id' isHit c)
  end ∧ Get id isHit (Delete id c) = None.
Proof.
  unfold Put, Delete, Get. simpl. rewrite lookup_delete_eq.
  destruct (items c !! id) eqn:E; [|destruct (_ <? _) eqn:Hlt]; simpl; split; try done.
  - rewrite lookup_insert_eq. split; [by destruct isHit|].
    intros. by rewrite lookup_insert_ne.
  - rewrite lookup_insert_eq. split; [by destruct isHit|].
    intros. by rewrite lookup_insert_ne.
  - bool_to_prop. done.
Qed.
End Cache.

Arguments Cache : clear implicits.

Lemma cache_size_bounded_witness :
  Z.of_nat (size (items ((Put 3 "a" true (@NewCache bool 1)).1))) ≤ 1.
Proof.
  apply (cache_size_bounded 10 1); [lia|]. apply rtc_once. exists LPut.
  by apply step_put.
Defined.

Lemma cache_close_safe_if_ordered_witness :
  panicked (Close (@NewCache bool 1)) = false ∧
  expiringNum (Close (@NewCache bool 1)) =
    (length (senders (Close (@NewCache bool 1))) + sent (Close (@NewCache bool 1)))%nat ∧
  (chan_closed (Close (@NewCache bool 1)) = true → senders (Close (@NewCache bool 1)) = []).
Proof.
  apply (cache_close_safe_if_ordered 10 1). apply rtc_once. exists LClose.
  split; [apply step_close|]. done.
Defined.

Lemma cache_close_race_panics_witness :
  ∃ c : Cache bool, rtc (any_step 10) (NewCache 1) c ∧ panicked c = true.
Proof. apply (cache_close_race_panics 10 1 true); lia. Defined.

Lemma cache_close_delivers_pending_witness :
  ∃ c' : Cache bool, rtc (any_step 10) (Close (NewCache 1)) c' ∧ chan_closed c' = true ∧
    panicked c' = false ∧
    delivered c' ≡ₚ senders (Close (@NewCache bool 1)) ++ delivered (Close (@NewCache bool 1)).
Proof.
  apply (cache_close_delivers_pending 10 1); [|reflexivity]. apply rtc_once. exists LClose.
  split; [apply step_close|]. done.
Defined.
