(* ===== verification/DiskController.v ===== *)
(** * Disk placement: pkg/util/ensure_disk_controller.go

    [EnsureDisksHaveControllers] walks the device changes of a ConfigSpec,
    gives a unit number to every disk that names a valid controller, and finds
    or creates a controller for the others.

    The disks of the source are pointers into the ConfigSpec: here a disk is
    the index of its device change and a write through the pointer is an update
    at that index.  Keys and unit numbers are int32; the key counter wraps.
    The reserved unit numbers are kept in the third-party [intsets.Sparse]:
    the interface [Sparse] states what the code relies on. *)

From S2P Require Import Prelude.
Local Open Scope Z_scope.
Local Open Scope go_scope.

(** ** Devices *)

Inductive DeviceKind :=
  | VirtualPCIController
  | ParaVirtualSCSIController
  | VirtualBusLogicController
  | VirtualLsiLogicController
  | VirtualLsiLogicSASController
  | VirtualSCSIController
  | VirtualSATAController
  | VirtualAHCIController
  | VirtualNVMEController
  | VirtualIDEController
  | VirtualDisk
  | OtherDevice.

#[global] Instance DeviceKind_eq_dec : EqDecision DeviceKind.
Proof. solve_decision. Defined.

(** The fields of a device the code reads or writes. *)
Record VirtualDevice := mkDevice {
  kind : DeviceKind;
  Key : Z;
  ControllerKey : Z;
  UnitNumber : option Z;
  BusNumber : Z
}.

#[global] Instance VirtualDevice_eq_dec : EqDecision VirtualDevice.
Proof. solve_decision. Defined.

Inductive DeviceOperation := OperationAdd | OperationEdit | OperationRemove | OperationUnset.

Record VirtualDeviceConfigSpec := mkDeviceChange {
  Operation : DeviceOperation;
  Device : option VirtualDevice
}.

(** [configSpec.DeviceChange]: an entry may be nil. *)
Abbreviation DeviceChanges := (list (option VirtualDeviceConfigSpec)).

(** ** The set of reserved unit numbers *)

(** What the code uses of [intsets.Sparse]: the zero value is the empty set,
    [Insert], [Has] and [IsEmpty]. *)
Class Sparse (S : Type) := {
  sparse_zero : S;
  Insert : Z → S → S;
  Has : Z → S → bool;
  IsEmpty : S → bool
}.

Class SparseLaws (S : Type) `{Sparse S} : Prop := {
  Has_zero n : Has n (sparse_zero : S) = false;
  Has_Insert n m (s : S) : Has n (Insert m s) = bool_decide (n = m) || Has n s;
  IsEmpty_Has n (s : S) : IsEmpty s = true → Has n s = false
}.

#[global] Instance gset_sparse : Sparse (gset Z) := {
  sparse_zero := ∅;
  Insert n s := {[n]} ∪ s;
  Has n s := bool_decide (n ∈ s);
  IsEmpty s := bool_decide (s = ∅)
}.

#[global] Instance gset_sparse_laws : SparseLaws (gset Z).
Proof.
  split; simpl.
  - done.
  - intros n m s. rewrite <-bool_decide_or. apply bool_decide_ext. set_solver.
  - intros n s ->%bool_decide_eq_true. done.
Qed.

(** ** Bus numbers *)

Definition maxSCSIControllers : Z := 4.
Definition maxSATAControllers : Z := 4.
Definition maxNVMEControllers : Z := 4.
Definition maxDisksPerSCSIController : Z := 16.
Definition maxDisksPerSATAController : Z := 30.
Definition maxDisksPerNVMEController : Z := 15.
Definition maxDisksPerIDEController : Z := 2.

Record ensureDiskControllerBusNumbers := mkBusNumbers {
  zero : bool;
  one : bool;
  two : bool
}.

Definition free (d : ensureDiskControllerBusNumbers) : Z :=
  if negb (zero d) then 0 else if negb (one d) then 1 else if negb (two d) then 2 else 3.

Definition set (busNumber : Z) (d : ensureDiskControllerBusNumbers) :
    ensureDiskControllerBusNumbers :=
  if busNumber =? 0 then mkBusNumbers true (one d) (two d)
  else if busNumber =? 1 then mkBusNumbers (zero d) true (two d)
  else if busNumber =? 2 then mkBusNumbers (zero d) (one d) true
  else d.

Definition noBusNumbers : ensureDiskControllerBusNumbers := mkBusNumbers false false false.

Section DiskController.
Context {S : Type} `{SparseLaws S}.
#[local] Set Default Proof Using "Type*".

(** ** Controllers and their unit numbers *)

Record diskController := mkDiskController {
  dev : option VirtualDevice;
  curUN : Z;
  maxUN : Z;
  reservedUN : S
}.

Definition newDiskController : diskController := mkDiskController None 0 0 sparse_zero.

Definition reserveUnitNumber (unitNumber : Z) (dc : diskController) : diskController :=
  mkDiskController (dev dc) (curUN dc) (maxUN dc) (Insert unitNumber (reservedUN dc)).

(** The loop of [nextUnitNumber]; [fuel] is the number of candidates left. *)
Fixpoint scanUnitNumber (fuel : nat) (un : Z) (dc : diskController) : option Z :=
  match fuel with
  | O => None
  | Datatypes.S fuel' =>
    if un <? maxUN dc then
      if IsEmpty (reservedUN dc) || negb (Has un (reservedUN dc))
      then Some un
      else scanUnitNumber fuel' (un + 1) dc
    else None
  end.

Definition nextUnitNumber (dc : diskController) : diskController * option Z :=
  match scanUnitNumber (Z.to_nat (maxUN dc - curUN dc)) (curUN dc) dc with
  | Some un => (mkDiskController (dev dc) (un + 1) (maxUN dc) (reservedUN dc), Some un)
  | None => (dc, None)
  end.

Record ensureDiskControllerData := mkData {
  keyToDiskControllers : gmap Z diskController;
  scsiBusNumbers : ensureDiskControllerBusNumbers;
  pvSCSIControllerKeys : list Z;
  busLogicSCSIControllerKeys : list Z;
  lsiLogicControllerKeys : list Z;
  lsiLogicSASControllerKeys : list Z;
  scsiControllerKeys : list Z;
  sataBusNumbers : ensureDiskControllerBusNumbers;
  sataControllerKeys : list Z;
  ahciControllerKeys : list Z;
  nvmeBusNumbers : ensureDiskControllerBusNumbers;
  nvmeControllerKeys : list Z;
  ideBusNumbers : ensureDiskControllerBusNumbers;
  ideControllerKeys : list Z
}.

Definition set_keyToDiskControllers (x : gmap Z diskController) (d : ensureDiskControllerData) : ensureDiskControllerData :=
  mkData x (scsiBusNumbers d) (pvSCSIControllerKeys d) (busLogicSCSIControllerKeys d)
    (lsiLogicControllerKeys d) (lsiLogicSASControllerKeys d) (scsiControllerKeys d)
    (sataBusNumbers d) (sataControllerKeys d) (ahciControllerKeys d) (nvmeBusNumbers d)
    (nvmeControllerKeys d) (ideBusNumbers d) (ideControllerKeys d).
Definition set_scsiBusNumbers (x : ensureDiskControllerBusNumbers) (d : ensureDiskControllerData) : ensureDiskControllerData :=
  mkData (keyToDiskControllers d) x (pvSCSIControllerKeys d) (busLogicSCSIControllerKeys d)
    (lsiLogicControllerKeys d) (lsiLogicSASControllerKeys d) (scsiControllerKeys d)
    (sataBusNumbers d) (sataControllerKeys d) (ahciControllerKeys d) (nvmeBusNumbers d)
    (nvmeControllerKeys d) (ideBusNumbers d) (ideControllerKeys d).
Definition set_pvSCSIControllerKeys (x : list Z) (d : ensureDiskControllerData) : ensureDiskControllerData :=
  mkData (keyToDiskControllers d) (scsiBusNumbers d) x (busLogicSCSIControllerKeys d)
    (lsiLogicControllerKeys d) (lsiLogicSASControllerKeys d) (scsiControllerKeys d)
    (sataBusNumbers d) (sataControllerKeys d) (ahciControllerKeys d) (nvmeBusNumbers d)
    (nvmeControllerKeys d) (ideBusNumbers d) (ideControllerKeys d).
Definition set_busLogicSCSIControllerKeys (x : list Z) (d : ensureDiskControllerData) : ensureDiskControllerData :=
  mkData (keyToDiskControllers d) (scsiBusNumbers d) (pvSCSIControllerKeys d) x
    (lsiLogicControllerKeys d) (lsiLogicSASControllerKeys d) (scsiControllerKeys d)
    (sataBusNumbers d) (sataControllerKeys d) (ahciControllerKeys d) (nvmeBusNumbers d)
    (nvmeControllerKeys d) (ideBusNumbers d) (ideControllerKeys d).
Definition set_lsiLogicControllerKeys (x : list Z) (d : ensureDiskControllerData) : ensureDiskControllerData :=
  mkData (keyToDiskControllers d) (scsiBusNumbers d) (pvSCSIControllerKeys d)
    (busLogicSCSIControllerKeys d) x (lsiLogicSASControllerKeys d) (scsiControllerKeys d)
    (sataBusNumbers d) (sataControllerKeys d) (ahciControllerKeys d) (nvmeBusNumbers d)
    (nvmeControllerKeys d) (ideBusNumbers d) (ideControllerKeys d).
Definition set_lsiLogicSASControllerKeys (x : list Z) (d : ensureDiskControllerData) : ensureDiskControllerData :=
  mkData (keyToDiskControllers d) (scsiBusNumbers d) (pvSCSIControllerKeys d)
    (busLogicSCSIControllerKeys d) (lsiLogicControllerKeys d) x (scsiControllerKeys d)
    (sataBusNumbers d) (sataControllerKeys d) (ahciControllerKeys d) (nvmeBusNumbers d)
    (nvmeControllerKeys d) (ideBusNumbers d) (ideControllerKeys d).
Definition set_scsiControllerKeys (x : list Z) (d : ensureDiskControllerData) : ensureDiskControllerData :=
  mkData (keyToDiskControllers d) (scsiBusNumbers d) (pvSCSIControllerKeys d)
    (busLogicSCSIControllerKeys d) (lsiLogicControllerKeys d) (lsiLogicSASControllerKeys d) x
    (sataBusNumbers d) (sataControllerKeys d) (ahciControllerKeys d) (nvmeBusNumbers d)
    (nvmeControllerKeys d) (ideBusNumbers d) (ideControllerKeys d).
Definition set_sataBusNumbers (x : ensureDiskControllerBusNumbers) (d : ensureDiskControllerData) : ensureDiskControllerData :=
  mkData (keyToDiskControllers d) (scsiBusNumbers d) (pvSCSIControllerKeys d)
    (busLogicSCSIControllerKeys d) (lsiLogicControllerKeys d) (lsiLogicSASControllerKeys d)
    (scsiControllerKeys d) x (sataControllerKeys d) (ahciControllerKeys d) (nvmeBusNumbers d)
    (nvmeControllerKeys d) (ideBusNumbers d) (ideControllerKeys d).
Definition set_sataControllerKeys (x : list Z) (d : ensureDiskControllerData) : ensureDiskControllerData :=
  mkData (keyToDiskControllers d) (scsiBusNumbers d) (pvSCSIControllerKeys d)
    (busLogicSCSIControllerKeys d) (lsiLogicControllerKeys d) (lsiLogicSASControllerKeys d)
    (scsiControllerKeys d) (sataBusNumbers d) x (ahciControllerKeys d) (nvmeBusNumbers d)
    (nvmeControllerKeys d) (ideBusNumbers d) (ideControllerKeys d).
Definition set_ahciControllerKeys (x : list Z) (d : ensureDiskControllerData) : ensureDiskControllerData :=
  mkData (keyToDiskControllers d) (scsiBusNumbers d) (pvSCSIControllerKeys d)
    (busLogicSCSIControllerKeys d) (lsiLogicControllerKeys d) (lsiLogicSASControllerKeys d)
    (scsiControllerKeys d) (sataBusNumbers d) (sataControllerKeys d) x (nvmeBusNumbers d)
    (nvmeControllerKeys d) (ideBusNumbers d) (ideControllerKeys d).
Definition set_nvmeBusNumbers (x : ensureDiskControllerBusNumbers) (d : ensureDiskControllerData) : ensureDiskControllerData :=
  mkData (keyToDiskControllers d) (scsiBusNumbers d) (pvSCSIControllerKeys d)
    (busLogicSCSIControllerKeys d) (lsiLogicControllerKeys d) (lsiLogicSASControllerKeys d)
    (scsiControllerKeys d) (sataBusNumbers d) (sataControllerKeys d) (ahciControllerKeys d) x
    (nvmeControllerKeys d) (ideBusNumbers d) (ideControllerKeys d).
Definition set_nvmeControllerKeys (x : list Z) (d : ensureDiskControllerData) : ensureDiskControllerData :=
  mkData (keyToDiskControllers d) (scsiBusNumbers d) (pvSCSIControllerKeys d)
    (busLogicSCSIControllerKeys d) (lsiLogicControllerKeys d) (lsiLogicSASControllerKeys d)
    (scsiControllerKeys d) (sataBusNumbers d) (sataControllerKeys d) (ahciControllerKeys d)
    (nvmeBusNumbers d) x (ideBusNumbers d) (ideControllerKeys d).
Definition set_ideBusNumbers (x : ensureDiskControllerBusNumbers) (d : ensureDiskControllerData) : ensureDiskControllerData :=
  mkData (keyToDiskControllers d) (scsiBusNumbers d) (pvSCSIControllerKeys d)
    (busLogicSCSIControllerKeys d) (lsiLogicControllerKeys d) (lsiLogicSASControllerKeys d)
    (scsiControllerKeys d) (sataBusNumbers d) (sataControllerKeys d) (ahciControllerKeys d)
    (nvmeBusNumbers d) (nvmeControllerKeys d) x (ideControllerKeys d).
Definition set_ideControllerKeys (x : list Z) (d : ensureDiskControllerData) : ensureDiskControllerData :=
  mkData (keyToDiskControllers d) (scsiBusNumbers d) (pvSCSIControllerKeys d)
    (busLogicSCSIControllerKeys d) (lsiLogicControllerKeys d) (lsiLogicSASControllerKeys d)
    (scsiControllerKeys d) (sataBusNumbers d) (sataControllerKeys d) (ahciControllerKeys d)
    (nvmeBusNumbers d) (nvmeControllerKeys d) (ideBusNumbers d) x.

Definition newData : ensureDiskControllerData :=
  mkData ∅ noBusNumbers [] [] [] [] [] noBusNumbers [] [] noBusNumbers [] noBusNumbers [].

Definition numSCSIControllers (d : ensureDiskControllerData) : Z :=
  Z.of_nat (length (pvSCSIControllerKeys d)) + Z.of_nat (length (busLogicSCSIControllerKeys d)) +
  Z.of_nat (length (lsiLogicControllerKeys d)) + Z.of_nat (length (lsiLogicSASControllerKeys d)) +
  Z.of_nat (length (scsiControllerKeys d)).

Definition numSATAControllers (d : ensureDiskControllerData) : Z :=
  Z.of_nat (length (sataControllerKeys d)) + Z.of_nat (length (ahciControllerKeys d)).

Definition numNVMEControllers (d : ensureDiskControllerData) : Z :=
  Z.of_nat (length (nvmeControllerKeys d)).

Definition validateAttachments (d : ensureDiskControllerData) : ensureDiskControllerData :=
  set_keyToDiskControllers
    (filter (λ p : Z * diskController, is_Some (dev p.2)) (keyToDiskControllers d)) d.

Definition exists_ (d : ensureDiskControllerData) (key : Z) : bool :=
  bool_decide (is_Some (keyToDiskControllers d !! key)).

(** [d.keyToDiskControllers[key]], created when missing. *)
Definition getController (d : ensureDiskControllerData) (key : Z) : diskController :=
  default newDiskController (keyToDiskControllers d !! key).

(** [dc.dev = bvc] and [dc.maxUN = max] through the pointer in the map. *)
Definition putController (controller : VirtualDevice) (max : Z) (d : ensureDiskControllerData) :
    ensureDiskControllerData :=
  let dc := getController d (Key controller) in
  set_keyToDiskControllers
    (<[Key controller := mkDiskController (Some controller) (curUN dc) max (reservedUN dc)]>
       (keyToDiskControllers d)) d.

Inductive ensureError :=
  | ErrNilConfigSpec
  | ErrNoUnitNumber (controllerKey : Z)
  | ErrNoControllers.

Definition add (controller : VirtualDevice) (d : ensureDiskControllerData) :
    outcome ensureError ensureDiskControllerData :=
  let key := Key controller in
  let scsi d := set_scsiBusNumbers (set (BusNumber controller) (scsiBusNumbers d))
                  (putController controller maxDisksPerSCSIController d) in
  let sata d := set_sataBusNumbers (set (BusNumber controller) (sataBusNumbers d))
                  (putController controller maxDisksPerSATAController d) in
  match kind controller with
  | ParaVirtualSCSIController =>
    Ok (scsi (set_pvSCSIControllerKeys (pvSCSIControllerKeys d ++ [key]) d))
  | VirtualBusLogicController =>
    Ok (scsi (set_busLogicSCSIControllerKeys (busLogicSCSIControllerKeys d ++ [key]) d))
  | VirtualLsiLogicController =>
    Ok (scsi (set_lsiLogicControllerKeys (lsiLogicControllerKeys d ++ [key]) d))
  | VirtualLsiLogicSASController =>
    Ok (scsi (set_lsiLogicSASControllerKeys (lsiLogicSASControllerKeys d ++ [key]) d))
  | VirtualSCSIController =>
    Ok (scsi (set_scsiControllerKeys (scsiControllerKeys d ++ [key]) d))
  | VirtualSATAController =>
    Ok (sata (set_sataControllerKeys (sataControllerKeys d ++ [key]) d))
  | VirtualAHCIController =>
    Ok (sata (set_ahciControllerKeys (ahciControllerKeys d ++ [key]) d))
  | VirtualNVMEController =>
    Ok (set_nvmeBusNumbers (set (BusNumber controller) (nvmeBusNumbers d))
          (putController controller maxDisksPerNVMEController
             (set_nvmeControllerKeys (nvmeControllerKeys d ++ [key]) d)))
  | VirtualIDEController =>
    Ok (set_ideBusNumbers (set (BusNumber controller) (ideBusNumbers d))
          (putController controller maxDisksPerIDEController
             (set_ideControllerKeys (ideControllerKeys d ++ [key]) d)))
  | VirtualPCIController | VirtualDisk | OtherDevice => Panic
  end.

Definition addDisk (controllerKey : Z) (unitNumber : option Z) (d : ensureDiskControllerData) :
    ensureDiskControllerData :=
  let dc := getController d controllerKey in
  let dc := match unitNumber with Some un => reserveUnitNumber un dc | None => dc end in
  set_keyToDiskControllers (<[controllerKey := dc]> (keyToDiskControllers d)) d.

Definition getNextUnitNumber (controllerKey : Z) (d : ensureDiskControllerData) :
    ensureDiskControllerData * option Z :=
  match keyToDiskControllers d !! controllerKey with
  | None => (d, None)
  | Some dc =>
    let '(dc', un) := nextUnitNumber dc in
    (set_keyToDiskControllers (<[controllerKey := dc']> (keyToDiskControllers d)) d, un)
  end.

Definition mustGetNextUnitNumber (controllerKey : Z) (d : ensureDiskControllerData) :
    outcome ensureError (ensureDiskControllerData * Z) :=
  match getNextUnitNumber controllerKey d with
  | (d', Some un) => Ok (d', un)
  | (_, None) => Panic
  end.

(** ** Writes through device pointers *)

(** The device of a change that is not a removal. *)
Definition live_device (dc : option VirtualDeviceConfigSpec) : option VirtualDevice :=
  match dc with
  | Some (mkDeviceChange OperationRemove _) => None
  | Some (mkDeviceChange _ dv) => dv
  | None => None
  end.

Definition disk_at (dcs : DeviceChanges) (i : nat) : option VirtualDevice :=
  match dcs !! i ≫= live_device with
  | Some dv => if decide (kind dv = VirtualDisk) then Some dv else None
  | None => None
  end.

Definition set_slot (controllerKey unitNumber : Z) (dc : option VirtualDeviceConfigSpec) :
    option VirtualDeviceConfigSpec :=
  match dc with
  | Some (mkDeviceChange op (Some dv)) =>
    Some (mkDeviceChange op (Some
      (mkDevice (kind dv) (Key dv) controllerKey (Some unitNumber) (BusNumber dv))))
  | _ => dc
  end.

(** [disk.ControllerKey = controllerKey; disk.UnitNumber = &unitNumber] *)
Definition set_disk (i : nat) (controllerKey unitNumber : Z) (dcs : DeviceChanges) :
    DeviceChanges :=
  alter (set_slot controllerKey unitNumber) i dcs.

(** ** Finding and creating a controller *)

Fixpoint ensureDiskControllerFindWith (controllerKeys : list Z) (d : ensureDiskControllerData) :
    ensureDiskControllerData * option (Z * Z) :=
  match controllerKeys with
  | [] => (d, None)
  | controllerKey :: rest =>
    match getNextUnitNumber controllerKey d with
    | (d', Some unitNumber) => (d', Some (controllerKey, unitNumber))
    | (d', None) => ensureDiskControllerFindWith rest d'
    end
  end.

(** [a || b] of two searches. *)
Definition find_or (m : ensureDiskControllerData * option (Z * Z)) (keys : ensureDiskControllerData → list Z) :
    ensureDiskControllerData * option (Z * Z) :=
  match m with
  | (d, Some r) => (d, Some r)
  | (d, None) => ensureDiskControllerFindWith (keys d) d
  end.

Definition ensureDiskControllerFind (d : ensureDiskControllerData) :
    ensureDiskControllerData * option (Z * Z) :=
  let m := ensureDiskControllerFindWith (pvSCSIControllerKeys d) d in
  let m := find_or m busLogicSCSIControllerKeys in
  let m := find_or m lsiLogicControllerKeys in
  let m := find_or m lsiLogicSASControllerKeys in
  let m := find_or m scsiControllerKeys in
  let m := find_or m sataControllerKeys in
  let m := find_or m ahciControllerKeys in
  let m := find_or m nvmeControllerKeys in
  find_or m ideControllerKeys.

Definition addChange (dv : VirtualDevice) : option VirtualDeviceConfigSpec :=
  Some (mkDeviceChange OperationAdd (Some dv)).

Definition ensureDiskControllerCreate (dcs : DeviceChanges) (pciKey newDeviceKey : Z)
    (d : ensureDiskControllerData) :
    outcome ensureError (DeviceChanges * ensureDiskControllerData) :=
  let? controller :=
    if numSCSIControllers d <? maxSCSIControllers then
      Ok (mkDevice ParaVirtualSCSIController newDeviceKey pciKey None (free (scsiBusNumbers d)))
    else if numSATAControllers d <? maxSATAControllers then
      Ok (mkDevice VirtualAHCIController newDeviceKey pciKey None (free (sataBusNumbers d)))
    else if numNVMEControllers d <? maxNVMEControllers then
      Ok (mkDevice VirtualNVMEController newDeviceKey pciKey None (free (nvmeBusNumbers d)))
    else Err ErrNoControllers in
  let? d' := add controller d in
  Ok (dcs ++ [addChange controller], d').

(** ** The phases of EnsureDisksHaveControllers *)

Record inspection := mkInspection {
  disks : list nat;
  newDeviceKey : Z;
  pciController : option Z;
  diskControllers : ensureDiskControllerData
}.

Definition newInspection : inspection := mkInspection [] 0 None newData.

Definition inspect_key (key : Z) (st : inspection) : inspection :=
  if key <? newDeviceKey st
  then mkInspection (disks st) key (pciController st) (diskControllers st)
  else st.

(** One device of the ConfigSpec: the switch of the first loop. *)
Definition inspect_switch (i : nat) (dv : VirtualDevice) (st : inspection) :
    outcome ensureError inspection :=
  match kind dv with
  | VirtualPCIController =>
    Ok (mkInspection (disks st) (newDeviceKey st) (Some (Key dv)) (diskControllers st))
  | VirtualDisk =>
    let data := if ControllerKey dv =? 0 then diskControllers st
                else addDisk (ControllerKey dv) (UnitNumber dv) (diskControllers st) in
    Ok (mkInspection (disks st ++ [i]) (newDeviceKey st) (pciController st) data)
  | OtherDevice => Ok st
  | _ =>
    let? data := add dv (diskControllers st) in
    Ok (mkInspection (disks st) (newDeviceKey st) (pciController st) data)
  end.

Definition inspect_device (i : nat) (dv : VirtualDevice) (st : inspection) :
    outcome ensureError inspection :=
  let? st := inspect_switch i dv st in Ok (inspect_key (Key dv) st).

Fixpoint inspect_spec (i : nat) (dcs : DeviceChanges) (st : inspection) :
    outcome ensureError inspection :=
  match dcs with
  | [] => Ok st
  | dc :: rest =>
    let? st := match live_device dc with
               | None => Ok st
               | Some dv => inspect_device i dv st
               end in
    inspect_spec (Datatypes.S i) rest st
  end.

(** One existing device: the switch of the second loop, which has no case for
    IDE controllers and does not look at the device's key. *)
Definition inspect_existing_device (dv : VirtualDevice) (st : inspection) :
    outcome ensureError inspection :=
  match kind dv with
  | VirtualPCIController =>
    Ok (mkInspection (disks st) (newDeviceKey st) (Some (Key dv)) (diskControllers st))
  | VirtualDisk =>
    Ok (mkInspection (disks st) (newDeviceKey st) (pciController st)
          (addDisk (ControllerKey dv) (UnitNumber dv) (diskControllers st)))
  | VirtualIDEController | OtherDevice => Ok st
  | _ =>
    let? data := add dv (diskControllers st) in
    Ok (mkInspection (disks st) (newDeviceKey st) (pciController st) data)
  end.

Fixpoint inspect_existing (existing : list (option VirtualDevice)) (st : inspection) :
    outcome ensureError inspection :=
  match existing with
  | [] => Ok st
  | None :: rest => inspect_existing rest st
  | Some dv :: rest => let? st := inspect_existing_device dv st in inspect_existing rest st
  end.

Definition decr32 (z : Z) : Z := wrap32 (z - 1).

(** The PCI controller's key, added to the ConfigSpec when there is none, and
    the next device key. *)
Definition ensure_pci (dcs : DeviceChanges) (st : inspection) : DeviceChanges * Z * Z :=
  let key := decr32 (newDeviceKey st) in
  match pciController st with
  | Some pciKey => (dcs, pciKey, key)
  | None => (dcs ++ [addChange (mkDevice VirtualPCIController key 0 None 0)], key, decr32 key)
  end.

(** The loop that numbers the disks with a valid controller and collects the
    others. *)
Fixpoint number_disks (ds : list nat) (dcs : DeviceChanges) (d : ensureDiskControllerData)
    (without : list nat) :
    outcome ensureError (DeviceChanges * ensureDiskControllerData * list nat) :=
  match ds with
  | [] => Ok (dcs, d, without)
  | i :: rest =>
    match disk_at dcs i with
    | None => Panic
    | Some disk =>
      if negb (exists_ d (ControllerKey disk)) then
        number_disks rest dcs d (without ++ [i])
      else
        match UnitNumber disk with
        | Some _ => number_disks rest dcs d without
        | None =>
          match getNextUnitNumber (ControllerKey disk) d with
          | (_, None) => Err (ErrNoUnitNumber (ControllerKey disk))
          | (d', Some un) =>
            number_disks rest (set_disk i (ControllerKey disk) un dcs) d' without
          end
        end
    end
  end.

(** The loop over the disks without a controller. *)
Fixpoint place_disks (ds : list nat) (dcs : DeviceChanges) (pciKey newDeviceKey : Z)
    (d : ensureDiskControllerData) :
    outcome ensureError (DeviceChanges * ensureDiskControllerData) :=
  match ds with
  | [] => Ok (dcs, d)
  | i :: rest =>
    match ensureDiskControllerFind d with
    | (d', Some (controllerKey, un)) =>
      place_disks rest (set_disk i controllerKey un dcs) pciKey newDeviceKey d'
    | (d', None) =>
      let? (dcs, d) := ensureDiskControllerCreate dcs pciKey newDeviceKey d' in
      let? (d, un) := mustGetNextUnitNumber newDeviceKey d in
      place_disks rest (set_disk i newDeviceKey un dcs) pciKey (decr32 newDeviceKey) d
    end
  end.

Definition EnsureDisksHaveControllers_data (configSpec : option DeviceChanges)
    (existingDevices : list (option VirtualDevice)) :
    outcome ensureError (DeviceChanges * ensureDiskControllerData) :=
  match configSpec with
  | None => Err ErrNilConfigSpec
  | Some dcs =>
    let? st := inspect_spec 0 dcs newInspection in
    if bool_decide (disks st = []) then Ok (dcs, diskControllers st) else
    let? st := inspect_existing existingDevices st in
    let '(dcs, pciKey, newKey) := ensure_pci dcs st in
    let? (dcs, d, without) :=
      number_disks (disks st) dcs (validateAttachments (diskControllers st)) [] in
    place_disks without dcs pciKey newKey d
  end.

(** The ConfigSpec afterwards, or the error returned. *)
Definition EnsureDisksHaveControllers (configSpec : option DeviceChanges)
    (existingDevices : list (option VirtualDevice)) : outcome ensureError DeviceChanges :=
  let? (dcs, _) := EnsureDisksHaveControllers_data configSpec existingDevices in Ok dcs.

(** ** Specification vocabulary *)

Definition is_ctrl (k : DeviceKind) : bool :=
  match k with
  | VirtualPCIController | VirtualDisk | OtherDevice => false
  | _ => true
  end.

Inductive family := SCSI | SATA | NVME | IDE | NoBus.

Definition family_of (k : DeviceKind) : family :=
  match k with
  | ParaVirtualSCSIController | VirtualBusLogicController | VirtualLsiLogicController
  | VirtualLsiLogicSASController | VirtualSCSIController => SCSI
  | VirtualSATAController | VirtualAHCIController => SATA
  | VirtualNVMEController => NVME
  | VirtualIDEController => IDE
  | _ => NoBus
  end.

#[global] Instance family_eq_dec : EqDecision family.
Proof. solve_decision. Defined.

(** How many disks a controller of each kind holds. *)
Definition max_units (k : DeviceKind) : Z :=
  match family_of k with
  | SCSI => 16 | SATA => 30 | NVME => 15 | IDE => 2 | NoBus => 0
  end.

Definition keys_of (k : DeviceKind) (d : ensureDiskControllerData) : list Z :=
  match k with
  | ParaVirtualSCSIController => pvSCSIControllerKeys d
  | VirtualBusLogicController => busLogicSCSIControllerKeys d
  | VirtualLsiLogicController => lsiLogicControllerKeys d
  | VirtualLsiLogicSASController => lsiLogicSASControllerKeys d
  | VirtualSCSIController => scsiControllerKeys d
  | VirtualSATAController => sataControllerKeys d
  | VirtualAHCIController => ahciControllerKeys d
  | VirtualNVMEController => nvmeControllerKeys d
  | VirtualIDEController => ideControllerKeys d
  | _ => []
  end.

Definition bus_of (f : family) (d : ensureDiskControllerData) : ensureDiskControllerBusNumbers :=
  match f with
  | SCSI => scsiBusNumbers d
  | SATA => sataBusNumbers d
  | NVME => nvmeBusNumbers d
  | IDE => ideBusNumbers d
  | NoBus => noBusNumbers
  end.

Definition used (n : Z) (b : ensureDiskControllerBusNumbers) : bool :=
  if n =? 0 then zero b else if n =? 1 then one b else if n =? 2 then two b else false.

Definition of_kind (k : DeviceKind) (cs : list VirtualDevice) : list VirtualDevice :=
  filter (λ c, kind c = k) cs.

Definition of_family (f : family) (cs : list VirtualDevice) : list VirtualDevice :=
  filter (λ c, family_of (kind c) = f) cs.

(** The data agree with the list [cs] of controllers recorded so far. *)
Record data_ok (cs : list VirtualDevice) (d : ensureDiskControllerData) : Prop := {
  do_ctrl c : c ∈ cs → is_ctrl (kind c) = true;
  do_cur k dc : keyToDiskControllers d !! k = Some dc → 0 ≤ curUN dc;
  do_dev k dc c : keyToDiskControllers d !! k = Some dc → dev dc = Some c →
    c ∈ cs ∧ Key c = k ∧ maxUN dc = max_units (kind c);
  do_all c : c ∈ cs →
    ∃ dc, keyToDiskControllers d !! Key c = Some dc ∧ is_Some (dev dc);
  do_keys k : keys_of k d = Key <$> of_kind k cs;
  do_bus f n : 0 ≤ n ≤ 2 →
    used n (bus_of f d) = true ↔ ∃ c, c ∈ cs ∧ family_of (kind c) = f ∧ BusNumber c = n
}.

(** Unit number [u] of controller [k] is reserved. *)
Definition reserves (d : ensureDiskControllerData) (k u : Z) : Prop :=
  ∃ dc, keyToDiskControllers d !! k = Some dc ∧ Has u (reservedUN dc) = true.

(** ** Unit numbers *)

Lemma scanUnitNumber_spec fuel un dc :
  Z.to_nat (maxUN dc - un) = fuel →
  match scanUnitNumber fuel un dc with
  | Some u => un ≤ u < maxUN dc ∧ Has u (reservedUN dc) = false ∧
              ∀ v, un ≤ v < u → Has v (reservedUN dc) = true
  | None => ∀ v, un ≤ v < maxUN dc → Has v (reservedUN dc) = true
  end.
Proof.
  revert un. induction fuel as [|fuel IH]; intros un Hf; simpl; [lia|].
  destruct (un <? maxUN dc) eqn:Hlt; bool_to_prop; [|lia].
  destruct (IsEmpty (reservedUN dc)) eqn:He; simpl.
  { split_and!; [lia|lia|by apply IsEmpty_Has|lia]. }
  destruct (Has un (reservedUN dc)) eqn:Hu; simpl.
  2: { split_and!; [lia|lia|done|lia]. }
  specialize (IH (un + 1) ltac:(lia)).
  destruct (scanUnitNumber fuel (un + 1) dc) as [u|].
  - destruct IH as (? & ? & Hall). split_and!; [lia|lia|done|].
    intros v ?. destruct (decide (v = un)) as [->|]; [done|]. apply Hall. lia.
  - intros v ?. destruct (decide (v = un)) as [->|]; [done|]. apply IH. lia.
Qed.

(** What a successful [getNextUnitNumber] gives and leaves. *)
Lemma getNextUnitNumber_Some k d d' u :
  getNextUnitNumber k d = (d', Some u) →
  ∃ dc, keyToDiskControllers d !! k = Some dc ∧
    d' = set_keyToDiskControllers
           (<[k := mkDiskController (dev dc) (u + 1) (maxUN dc) (reservedUN dc)]>
              (keyToDiskControllers d)) d ∧
    curUN dc ≤ u < maxUN dc ∧ Has u (reservedUN dc) = false ∧
    ∀ v, curUN dc ≤ v < u → Has v (reservedUN dc) = true.
Proof.
  unfold getNextUnitNumber, nextUnitNumber. intros Hg.
  destruct (keyToDiskControllers d !! k) as [dc|] eqn:Hk; [|done]. exists dc.
  pose proof (scanUnitNumber_spec _ (curUN dc) dc eq_refl) as Hs.
  destruct (scanUnitNumber _ _ dc) as [v|]; simplify_eq/=. by split_and!; try apply Hs.
Qed.

Lemma set_keyTo_id d : set_keyToDiskControllers (keyToDiskControllers d) d = d.
Proof. by destruct d. Qed.

(** A failed one leaves the data as they were: the controller is full. *)
Lemma getNextUnitNumber_None k d d' :
  getNextUnitNumber k d = (d', None) →
  d' = d ∧ ∀ dc, keyToDiskControllers d !! k = Some dc →
    ∀ v, curUN dc ≤ v < maxUN dc → Has v (reservedUN dc) = true.
Proof.
  unfold getNextUnitNumber, nextUnitNumber. intros Hg.
  destruct (keyToDiskControllers d !! k) as [dc|] eqn:Hk; [|simplify_eq; done].
  pose proof (scanUnitNumber_spec _ (curUN dc) dc eq_refl) as Hs.
  destruct (scanUnitNumber _ _ dc) as [v|]; simplify_eq/=.
  split; [by rewrite insert_id, set_keyTo_id|]. by intros dc0 [= <-].
Qed.

(** ** The recorded data *)

Lemma used_set n m b :
  0 ≤ n ≤ 2 → used n (set m b) = bool_decide (n = m) || used n b.
Proof.
  intros Hn. assert (n = 0 ∨ n = 1 ∨ n = 2) as [->|[->| ->]] by lia; unfold used, set; simpl;
    (destruct (decide (m = 0)) as [->|]; [done|]);
    (destruct (decide (m = 1)) as [->|]; [done|]);
    (destruct (decide (m = 2)) as [->|]; [done|]);
    rewrite !(proj2 (Z.eqb_neq _ _)) by done; by rewrite bool_decide_false by done.
Qed.

(** [add] on a disk controller: one more controller of its kind, its bus
    number taken, its entry attached. *)
Lemma add_fields c d :
  is_ctrl (kind c) = true →
  ∃ d', add c d = Ok d' ∧
    keyToDiskControllers d' =
      <[Key c := mkDiskController (Some c) (curUN (getController d (Key c)))
                   (max_units (kind c)) (reservedUN (getController d (Key c)))]>
        (keyToDiskControllers d) ∧
    (∀ k, keys_of k d' = keys_of k d ++ (if decide (kind c = k) then [Key c] else [])) ∧
    (∀ f, bus_of f d' = if decide (family_of (kind c) = f)
                        then set (BusNumber c) (bus_of f d) else bus_of f d).
Proof.
  intros Hc. unfold add. destruct (kind c); try done; eexists; (split; [reflexivity|]);
    (split; [reflexivity|]);
    (split; [intros []|intros []]); simpl; rewrite ?app_nil_r; reflexivity.
Qed.

Lemma newData_ok : data_ok [] newData.
Proof.
  split; try (intros; set_solver).
  - by intros [].
  - intros f n Hn. split; [|by intros (? & ?%not_elem_of_nil & _)].
    assert (n = 0 ∨ n = 1 ∨ n = 2) as [->|[->| ->]] by lia; by destruct f.
Qed.

Lemma getController_cur cs d k : data_ok cs d → 0 ≤ curUN (getController d k).
Proof.
  intros Hd. unfold getController. destruct (_ !! k) eqn:E; simpl; [|lia].
  by eapply do_cur.
Qed.

Lemma reserves_getController d k u :
  reserves d k u ↔ Has u (reservedUN (getController d k)) = true.
Proof.
  unfold reserves, getController. destruct (keyToDiskControllers d !! k); simpl;
    [naive_solver|]. rewrite Has_zero. naive_solver.
Qed.

Lemma add_ok cs d c :
  is_ctrl (kind c) = true → data_ok cs d →
  ∃ d', add c d = Ok d' ∧ data_ok (cs ++ [c]) d' ∧
    (∀ k u, reserves d' k u ↔ reserves d k u) ∧
    keyToDiskControllers d' =
      <[Key c := mkDiskController (Some c) (curUN (getController d (Key c)))
                   (max_units (kind c)) (reservedUN (getController d (Key c)))]>
        (keyToDiskControllers d).
Proof.
  intros Hc Hd. destruct (add_fields c d Hc) as (d' & Hadd & Hm & Hk & Hb).
  exists d'. split; [done|]. split; [split|split; [|done]].
  - intros c'. rewrite elem_of_app, list_elem_of_singleton. intros [?| ->]; [|done].
    by eapply do_ctrl.
  - intros k dc. rewrite Hm. intros [[<- <-]|[? ?]]%lookup_insert_Some; [|by eapply do_cur].
    by eapply getController_cur.
  - intros k dc c'. rewrite Hm, elem_of_app, list_elem_of_singleton.
    intros [[<- <-]|[? Hl]]%lookup_insert_Some Hdev; [by simplify_eq/=; auto|].
    destruct (do_dev _ _ Hd _ _ _ Hl Hdev) as (? & ? & ?). auto.
  - intros c'. rewrite Hm, elem_of_app, list_elem_of_singleton. intros Hin.
    destruct (decide (Key c' = Key c)) as [->|Hne].
    { rewrite lookup_insert_eq. eauto. }
    rewrite lookup_insert_ne by done. destruct Hin as [?| ->]; [|done]. by eapply do_all.
  - intros k. unfold of_kind. rewrite Hk, filter_app, fmap_app, (do_keys _ _ Hd). f_equal.
    case_decide; [rewrite filter_cons_True|rewrite filter_cons_False]; done.
  - intros f n Hn. setoid_rewrite elem_of_app. setoid_rewrite list_elem_of_singleton.
    rewrite Hb. case_decide as Hf; [rewrite used_set, orb_true_iff, bool_decide_eq_true by done|];
      rewrite (do_bus _ _ Hd f n Hn); naive_solver.
  - intros k u. rewrite !reserves_getController. unfold getController at 1. rewrite Hm.
    destruct (decide (k = Key c)) as [->|Hne].
    + by rewrite lookup_insert_eq.
    + by rewrite lookup_insert_ne.
Qed.

(** Replacing the map keeps the lists and bus numbers. *)
Lemma data_ok_map cs d m :
  data_ok cs d →
  (∀ k dc, m !! k = Some dc → 0 ≤ curUN dc ∧
     ∀ c, dev dc = Some c → c ∈ cs ∧ Key c = k ∧ maxUN dc = max_units (kind c)) →
  (∀ c, c ∈ cs → ∃ dc, m !! Key c = Some dc ∧ is_Some (dev dc)) →
  data_ok cs (set_keyToDiskControllers m d).
Proof.
  intros Hd Hm Hall. split.
  - by eapply do_ctrl.
  - intros k dc Hl. by destruct (Hm k dc Hl).
  - intros k dc c Hl. by apply Hm.
  - done.
  - intros k. rewrite <-(do_keys _ _ Hd k). by destruct k.
  - intros f n Hn. rewrite <-(do_bus _ _ Hd f n Hn). by destruct f.
Qed.

Lemma addDisk_ok cs d k un :
  data_ok cs d →
  data_ok cs (addDisk k un d) ∧
  (∀ k' u, reserves (addDisk k un d) k' u ↔ reserves d k' u ∨ (k' = k ∧ un = Some u)).
Proof.
  intros Hd. unfold addDisk.
  set (dc' := match un with Some u => _ | None => _ end).
  assert (dev dc' = dev (getController d k) ∧ curUN dc' = curUN (getController d k) ∧
          maxUN dc' = maxUN (getController d k) ∧
          ∀ u, Has u (reservedUN dc') = true ↔
               Has u (reservedUN (getController d k)) = true ∨ un = Some u)
    as (Hdev & Hcur & Hmax & Hres).
  { destruct un; simpl; split_and!; try done; intros u; [|naive_solver].
    rewrite Has_Insert, orb_true_iff, bool_decide_eq_true. naive_solver. }
  split.
  - apply data_ok_map; [done|..].
    + intros k' dc [[<- <-]|[? Hl]]%lookup_insert_Some.
      * split; [rewrite Hcur; by eapply getController_cur|].
        intros c. rewrite Hdev, Hmax. unfold getController.
        destruct (keyToDiskControllers d !! k) as [dc0|] eqn:E; [|done]. by eapply do_dev.
      * split; [by eapply do_cur|]. intros. by eapply do_dev.
    + intros c Hc. destruct (do_all _ _ Hd c Hc) as (dc & Hl & ?).
      destruct (decide (Key c = k)) as [<-|].
      * rewrite lookup_insert_eq. eexists; split; [done|]. rewrite Hdev.
        unfold getController. by rewrite Hl.
      * rewrite lookup_insert_ne by done. eauto.
  - intros k' u. rewrite !reserves_getController. unfold getController at 1. simpl.
    destruct (decide (k' = k)) as [->|].
    + rewrite lookup_insert_eq. simpl. rewrite Hres. naive_solver.
    + rewrite lookup_insert_ne by done. fold (getController d k'). naive_solver.
Qed.

Lemma validateAttachments_ok cs d :
  data_ok cs d →
  data_ok cs (validateAttachments d) ∧
  (∀ k dc, keyToDiskControllers (validateAttachments d) !! k = Some dc →
     is_Some (dev dc) ∧ keyToDiskControllers d !! k = Some dc).
Proof.
  intros Hd. unfold validateAttachments. split.
  - apply data_ok_map; [done|..].
    + intros k dc [Hl _]%map_lookup_filter_Some.
      split; [by eapply do_cur|]. intros. by eapply do_dev.
    + intros c Hc. destruct (do_all _ _ Hd c Hc) as (dc & Hl & Hs). exists dc.
      split; [|done]. by apply map_lookup_filter_Some.
  - intros k dc [Hl Hs]%map_lookup_filter_Some. done.
Qed.

Lemma getNextUnitNumber_ok cs d d' k u :
  data_ok cs d → getNextUnitNumber k d = (d', Some u) → data_ok cs d'.
Proof.
  intros Hd (dc & Hl & -> & Hu & _)%getNextUnitNumber_Some. apply data_ok_map; [done|..].
  - intros k' dc' [[<- <-]|[? Hl']]%lookup_insert_Some; simpl.
    + pose proof (do_cur _ _ Hd _ _ Hl). split; [lia|]. intros c Hc. by eapply do_dev.
    + split; [by eapply do_cur|]. intros. by eapply do_dev.
  - intros c Hc. destruct (do_all _ _ Hd c Hc) as (dc' & Hl' & Hs).
    destruct (decide (Key c = k)) as [<-|].
    + rewrite lookup_insert_eq. eexists; split; [done|]. simpl. congruence.
    + rewrite lookup_insert_ne by done. eauto.
Qed.

(** ** Inspection *)

Definition live (dcs : DeviceChanges) : list VirtualDevice := omap live_device dcs.
Definition spec_ctrls (dcs : DeviceChanges) : list VirtualDevice :=
  filter (λ c, is_ctrl (kind c) = true) (live dcs).
Definition ex_ctrls (ex : list (option VirtualDevice)) : list VirtualDevice :=
  filter (λ c, is_ctrl (kind c) = true ∧ kind c ≠ VirtualIDEController) (omap id ex).

(** A disk of the ConfigSpec, or an existing disk, has unit number [u] of
    controller [k]. *)
Definition spec_slot (dcs : DeviceChanges) (k u : Z) : Prop :=
  ∃ j dv, disk_at dcs j = Some dv ∧ ControllerKey dv = k ∧ UnitNumber dv = Some u.
Definition ex_slot (ex : list (option VirtualDevice)) (k u : Z) : Prop :=
  ∃ e, Some e ∈ ex ∧ kind e = VirtualDisk ∧ ControllerKey e = k ∧ UnitNumber e = Some u.

Record insp_inv (pre : DeviceChanges) (st : inspection) : Prop := {
  ii_data : data_ok (spec_ctrls pre) (diskControllers st);
  ii_nodup : NoDup (disks st);
  ii_disks j : j ∈ disks st ↔ is_Some (disk_at pre j);
  ii_keys dv : dv ∈ live pre → newDeviceKey st ≤ Key dv;
  ii_key : newDeviceKey st = 0 ∨
           (newDeviceKey st < 0 ∧ ∃ dv, dv ∈ live pre ∧ Key dv = newDeviceKey st);
  ii_res k u : reserves (diskControllers st) k u ↔ k ≠ 0 ∧ spec_slot pre k u
}.

Lemma live_snoc pre dc :
  live (pre ++ [dc]) = live pre ++ match live_device dc with Some dv => [dv] | None => [] end.
Proof. unfold live. rewrite omap_app. simpl. by destruct (live_device dc). Qed.

Lemma spec_ctrls_snoc pre dc :
  spec_ctrls (pre ++ [dc]) = spec_ctrls pre ++
    match live_device dc with
    | Some dv => if is_ctrl (kind dv) then [dv] else []
    | None => []
    end.
Proof.
  unfold spec_ctrls. rewrite live_snoc, filter_app. f_equal.
  destruct (live_device dc) as [dv|]; [|done].
  destruct (is_ctrl (kind dv)) eqn:E; [by rewrite filter_cons_True|].
  rewrite filter_cons_False; [done|congruence].
Qed.

Lemma disk_at_Some dcs j dv :
  disk_at dcs j = Some dv ↔
  ∃ dc, dcs !! j = Some dc ∧ live_device dc = Some dv ∧ kind dv = VirtualDisk.
Proof.
  unfold disk_at. destruct (dcs !! j) as [dc|]; simpl; [|naive_solver].
  destruct (live_device dc) as [dv'|] eqn:E; [|naive_solver].
  case_decide; naive_solver.
Qed.

Lemma disk_at_live dcs j dv : disk_at dcs j = Some dv → dv ∈ live dcs ∧ kind dv = VirtualDisk.
Proof.
  intros (dc & Hl & Hd & ?)%disk_at_Some. split; [|done].
  apply list_elem_of_omap. exists dc. split; [by eapply list_elem_of_lookup_2|done].
Qed.

Lemma disk_at_lt dcs j dv : disk_at dcs j = Some dv → (j < length dcs)%nat.
Proof. intros (dc & Hl & _)%disk_at_Some. by eapply lookup_lt_Some. Qed.

Lemma disk_at_snoc pre dc j :
  disk_at (pre ++ [dc]) j =
  if decide (j = length pre) then
    match live_device dc with
    | Some dv => if decide (kind dv = VirtualDisk) then Some dv else None
    | None => None
    end
  else disk_at pre j.
Proof.
  unfold disk_at. case_decide as Hj.
  - subst. by rewrite list_lookup_middle.
  - destruct (decide (j < length pre)%nat).
    + by rewrite lookup_app_l.
    + rewrite lookup_app_r by lia. rewrite (lookup_ge_None_2 pre) by lia.
      destruct (j - length pre)%nat eqn:E; [lia|done].
Qed.

Lemma inspect_key_fields key st :
  disks (inspect_key key st) = disks st ∧
  pciController (inspect_key key st) = pciController st ∧
  diskControllers (inspect_key key st) = diskControllers st ∧
  newDeviceKey (inspect_key key st) = Z.min (newDeviceKey st) key.
Proof. unfold inspect_key. case_match; bool_to_prop; simpl; split_and!; done || lia. Qed.

Lemma spec_slot_snoc pre dc k u :
  spec_slot (pre ++ [dc]) k u ↔
  spec_slot pre k u ∨
  ∃ dv, live_device dc = Some dv ∧ kind dv = VirtualDisk ∧ ControllerKey dv = k ∧ UnitNumber dv = Some u.
Proof.
  unfold spec_slot. split.
  - intros (j & dv & Hj & ?). rewrite disk_at_snoc in Hj.
    destruct (decide (j = length pre)); [|left; eauto]. right.
    destruct (live_device dc) as [dv'|]; [|done]. case_decide; [|done]. naive_solver.
  - intros [(j & dv & Hj & ?)|(dv & Hdv & Hk & ?)].
    + exists j, dv. rewrite disk_at_snoc. pose proof (disk_at_lt _ _ _ Hj).
      by rewrite decide_False by lia.
    + exists (length pre), dv. rewrite disk_at_snoc, decide_True, Hdv by done.
      by rewrite decide_True.
Qed.

Lemma inspect_switch_ok pre dc dv st :
  live_device dc = Some dv → data_ok (spec_ctrls pre) (diskControllers st) →
  ∃ st1, inspect_switch (length pre) dv st = Ok st1 ∧
    data_ok (spec_ctrls (pre ++ [dc])) (diskControllers st1) ∧
    disks st1 = disks st ++ (if decide (kind dv = VirtualDisk) then [length pre] else []) ∧
    newDeviceKey st1 = newDeviceKey st ∧
    (∀ k u, reserves (diskControllers st1) k u ↔ reserves (diskControllers st) k u ∨
       (kind dv = VirtualDisk ∧ k ≠ 0 ∧ ControllerKey dv = k ∧ UnitNumber dv = Some u)).
Proof.
  intros Hdv Hd. unfold inspect_switch.
  rewrite spec_ctrls_snoc, Hdv. destruct (is_ctrl (kind dv)) eqn:Hc.
  - destruct (add_ok _ _ dv Hc Hd) as (d' & Hadd & Hd' & Hr' & _). rewrite Hadd. simpl.
    exists (mkInspection (disks st) (newDeviceKey st) (pciController st) d').
    destruct (kind dv); try done; split_and!; try done; simpl; rewrite ?app_nil_r; try done;
      intros; rewrite Hr'; naive_solver.
  - rewrite app_nil_r. destruct (kind dv); try done; eexists; (split; [reflexivity|]);
      simpl; rewrite ?app_nil_r; split_and!; try done; try naive_solver.
    + destruct (_ =? _); [done|]. by apply addDisk_ok.
    + intros k u. destruct (ControllerKey dv =? 0) eqn:E; bool_to_prop; [naive_solver|].
      rewrite (proj2 (addDisk_ok (spec_ctrls pre) _ _ _ Hd)). naive_solver.
Qed.

Lemma inspect_device_ok pre dc dv st :
  live_device dc = Some dv → insp_inv pre st →
  ∃ st', inspect_device (length pre) dv st = Ok st' ∧ insp_inv (pre ++ [dc]) st'.
Proof.
  intros Hdv [Hd Hnd Hj Hks Hk Hr].
  assert (length pre ∉ disks st) as Hfresh.
  { rewrite Hj. intros [? ?%disk_at_lt]. lia. }
  destruct (inspect_switch_ok pre dc dv st Hdv Hd) as (st1 & Hst1 & Hd1 & Hj1 & Hk1 & Hr1).
  exists (inspect_key (Key dv) st1). unfold inspect_device. rewrite Hst1. split; [done|].
  destruct (inspect_key_fields (Key dv) st1) as (Ed & _ & Ec & Ek).
  split; rewrite ?Ed, ?Ec, ?Ek, ?Hj1, ?Hk1.
  - done.
  - case_decide; [|by rewrite app_nil_r]. apply NoDup_app.
    split_and!; [done| |apply NoDup_singleton]. by intros x Hx ->%list_elem_of_singleton.
  - intros j. rewrite disk_at_snoc, Hdv, elem_of_app, Hj.
    destruct (decide (j = length pre)) as [->|Hne].
    + rewrite <-Hj. case_decide; [rewrite list_elem_of_singleton; naive_solver|].
      split; [by intros [?|?%not_elem_of_nil]|by intros []].
    + case_decide; rewrite ?list_elem_of_singleton, ?elem_of_nil; naive_solver.
  - intros dv'. rewrite live_snoc, Hdv, elem_of_app, list_elem_of_singleton.
    intros [Hin| ->]; [specialize (Hks _ Hin)|]; lia.
  - rewrite live_snoc, Hdv. setoid_rewrite elem_of_app.
    destruct (decide (newDeviceKey st ≤ Key dv)).
    + rewrite Z.min_l by done. destruct Hk as [?|(? & dv' & ? & ?)]; [by left|].
      right. split; [done|]. exists dv'. auto.
    + right. rewrite Z.min_r by lia. split; [lia|]. exists dv.
      rewrite list_elem_of_singleton. auto.
  - intros k u. rewrite Hr1, Hr, spec_slot_snoc, Hdv. naive_solver.
Qed.

Lemma inspect_spec_ok dcs pre st :
  insp_inv pre st →
  ∃ st', inspect_spec (length pre) dcs st = Ok st' ∧ insp_inv (pre ++ dcs) st'.
Proof.
  revert pre st. induction dcs as [|dc dcs IH]; intros pre st Hi.
  { exists st. by rewrite app_nil_r. }
  assert (∃ st1, match live_device dc with None => Ok st | Some dv => inspect_device (length pre) dv st end
    = Ok st1 ∧ insp_inv (pre ++ [dc]) st1) as (st1 & Hst1 & Hi1).
  { destruct (live_device dc) as [dv|] eqn:Hdv; [by apply inspect_device_ok|].
    exists st. split; [done|]. destruct Hi as [Hd Hnd Hj Hks Hk Hr].
    split; rewrite ?spec_ctrls_snoc, ?live_snoc, ?Hdv, ?app_nil_r; try done.
    - intros j. rewrite disk_at_snoc, Hdv. case_decide; [|done].
      rewrite Hj. split; [intros [? ?%disk_at_lt]; lia|by intros []].
    - intros k u. rewrite Hr, spec_slot_snoc, Hdv. naive_solver. }
  destruct (IH _ _ Hi1) as (st' & Hst' & Hi'). exists st'.
  simpl. rewrite Hst1. simpl. rewrite length_app, Nat.add_comm in Hst'. simpl in Hst'.
  rewrite <-app_assoc in Hi'. done.
Qed.

Lemma insp_inv_start : insp_inv [] newInspection.
Proof.
  split; try (intros; set_solver).
  - apply newData_ok.
  - constructor.
  - intros j. unfold disk_at. rewrite lookup_nil. simpl. split; [set_solver|by intros []].
  - intros k u. split; [|by intros [_ (j & dv & ?%disk_at_lt & _)]; simpl in *; lia].
    by intros (dc & ? & _).
Qed.

Lemma ex_slot_cons o ex k u :
  ex_slot (o :: ex) k u ↔
  match o with
  | Some e => (kind e = VirtualDisk ∧ ControllerKey e = k ∧ UnitNumber e = Some u) ∨ ex_slot ex k u
  | None => ex_slot ex k u
  end.
Proof.
  unfold ex_slot. setoid_rewrite elem_of_cons. destruct o as [e|]; [|naive_solver].
  split; [|naive_solver]. intros (e' & [[= ->]|?] & ?); [by left|]. right. by exists e'.
Qed.

(** The existing devices: controllers except IDE ones, and reservations. *)
Lemma inspect_existing_ok ex cs st :
  data_ok cs (diskControllers st) →
  ∃ st', inspect_existing ex st = Ok st' ∧ disks st' = disks st ∧
    newDeviceKey st' = newDeviceKey st ∧
    data_ok (cs ++ ex_ctrls ex) (diskControllers st') ∧
    (∀ k u, reserves (diskControllers st') k u ↔
            reserves (diskControllers st) k u ∨ ex_slot ex k u).
Proof.
  revert cs st. induction ex as [|[e|] ex IH]; intros cs st Hd.
  - exists st. rewrite app_nil_r. split_and!; try done. intros k u.
    split; [by left|]. by intros [?|(e & ?%not_elem_of_nil & _)].
  - assert (∃ st1, inspect_existing_device e st = Ok st1 ∧ disks st1 = disks st ∧
      newDeviceKey st1 = newDeviceKey st ∧
      data_ok (cs ++ ex_ctrls [Some e]) (diskControllers st1) ∧
      (∀ k u, reserves (diskControllers st1) k u ↔ reserves (diskControllers st) k u ∨
         (kind e = VirtualDisk ∧ ControllerKey e = k ∧ UnitNumber e = Some u)))
      as (st1 & Hst1 & Hj1 & Hk1 & Hd1 & Hr1).
    { unfold inspect_existing_device, ex_ctrls. simpl.
      destruct (decide (is_ctrl (kind e) = true ∧ kind e ≠ VirtualIDEController)) as [Hc|Hc].
      - rewrite filter_cons_True by done. destruct Hc as [Hc Hni].
        destruct (add_ok _ _ e Hc Hd) as (d' & Hadd & Hd' & Hr' & _). rewrite Hadd. simpl.
        exists (mkInspection (disks st) (newDeviceKey st) (pciController st) d').
        destruct (kind e); try done; split_and!; try done; intros; rewrite Hr'; naive_solver.
      - rewrite filter_cons_False by done. change (filter _ []) with (@nil VirtualDevice).
        rewrite app_nil_r. destruct (kind e); try (by destruct Hc); eexists;
          (split; [reflexivity|]); simpl; split_and!; try done;
          try (intros k u; split; [by left|by intros [?|[? _]]]).
        + by apply addDisk_ok.
        + intros k u. rewrite (proj2 (addDisk_ok cs _ _ _ Hd)). naive_solver. }
    destruct (IH _ _ Hd1) as (st' & Hst' & Hj' & Hk' & Hd' & Hr'). exists st'.
    simpl. rewrite Hst1. split_and!; try done; try congruence.
    + rewrite <-app_assoc in Hd'. unfold ex_ctrls in *. rewrite <-filter_app in Hd'. done.
    + intros k u. rewrite Hr', Hr1, ex_slot_cons. tauto.
  - destruct (IH _ _ Hd) as (st' & Hst' & Hj' & Hk' & Hd' & Hr'). exists st'.
    split_and!; try done. intros k u. by rewrite Hr', ex_slot_cons.
Qed.
End DiskController.
