(* ===== verification/DiskPlacement.v ===== *)
(** * Disk placement: correctness of EnsureDisksHaveControllers

    The invariant of the two placement loops of [DiskController], its
    preservation by numbering a disk and by creating a controller, and the
    properties of the whole function. *)

From S2P Require Import Prelude DiskController.
Local Open Scope Z_scope.
Local Open Scope go_scope.

Section DiskPlacement.
Context {S : Type} `{SparseLaws S}.
#[local] Set Default Proof Using "Type*".
Implicit Types d : (@ensureDiskControllerData S).

(** ** Placement *)

Definition set_dev (k u : Z) (dv : VirtualDevice) : VirtualDevice :=
  mkDevice (kind dv) (Key dv) k (Some u) (BusNumber dv).

Lemma live_device_set_slot k u dc : live_device (set_slot k u dc) = set_dev k u <$> live_device dc.
Proof. destruct dc as [[[] [dv|]]|]; done. Qed.

Lemma disk_at_set_disk dcs i j k u :
  disk_at (set_disk i k u dcs) j =
  if decide (j = i) then set_dev k u <$> disk_at dcs i else disk_at dcs j.
Proof.
  unfold disk_at, set_disk. case_decide as Hj.
  - subst. rewrite list_lookup_alter_eq. destruct (dcs !! i) as [dc|]; simpl; [|done].
    rewrite live_device_set_slot. destruct (live_device dc); simpl; [|done].
    by case_decide.
  - by rewrite list_lookup_alter_ne.
Qed.

(** Writing a disk changes no controller and no key. *)
Lemma set_disk_lists dcs i k u dv :
  disk_at dcs i = Some dv →
  spec_ctrls (set_disk i k u dcs) = spec_ctrls dcs ∧
  Key <$> live (set_disk i k u dcs) = Key <$> live dcs.
Proof.
  intros (dc & Hl & Hd & Hk)%disk_at_Some.
  apply list_elem_of_split_length in Hl as (l1 & l2 & -> & ->). unfold set_disk.
  rewrite alter_app_r_alt, Nat.sub_diag by lia. simpl.
  unfold spec_ctrls, live. rewrite !omap_app, !omap_cons, live_device_set_slot, Hd. simpl.
  rewrite !filter_app, !fmap_app. split; [|done]. f_equal.
  by rewrite !filter_cons_False by (simpl; by rewrite Hk).
Qed.

(** The controllers of the ConfigSpec and the existing ones (IDE apart). *)
Definition controllers (dcs : DeviceChanges) (ex : list (option VirtualDevice)) :
    list VirtualDevice :=
  spec_ctrls dcs ++ ex_ctrls ex.

(** The disk already names a controller that exists, and a unit number. *)
Definition preplaced (dcs : DeviceChanges) (ex : list (option VirtualDevice))
    (dv : VirtualDevice) : Prop :=
  ControllerKey dv ∈ Key <$> controllers dcs ex ∧ is_Some (UnitNumber dv).

#[local] Instance preplaced_dec dcs ex dv : Decision (preplaced dcs ex dv).
Proof. unfold preplaced. apply _. Defined.

(** What vSphere guarantees of the input: existing devices have keys that are
    not negative, no disk controller has key zero, and the ConfigSpec's keys
    leave room for new ones above the least int32. *)
Record input_ok (dcs : DeviceChanges) (ex : list (option VirtualDevice)) : Prop := {
  io_len : Z.of_nat (length dcs) + 2 ≤ 2 ^ 31;
  io_keys dv : dv ∈ live dcs → - 2 ^ 31 + 2 + Z.of_nat (length dcs) ≤ Key dv;
  io_ex e : Some e ∈ ex → 0 ≤ Key e ∧ 0 ≤ ControllerKey e;
  io_zero c : c ∈ controllers dcs ex → Key c ≠ 0
}.

(** [dcs'] is [dcs] with other slots for some disks and devices that are not
    disks added at the end. *)
Definition extends (dcs dcs' : DeviceChanges) : Prop :=
  (length dcs ≤ length dcs')%nat ∧
  ∀ j dc', dcs' !! j = Some dc' →
    match dcs !! j with
    | Some dc => dc' = dc ∨ (is_Some (disk_at dcs j) ∧ ∃ k u, dc' = set_slot k u dc)
    | None => ∃ c, dc' = addChange c ∧ kind c ≠ VirtualDisk
    end.

(** No two controllers of a family share a bus number. *)
Definition bus_ok (cs : list VirtualDevice) : Prop :=
  ∀ f, NoDup (BusNumber <$> of_family f cs).

Lemma extends_set_disk dcs dcs' i k u :
  is_Some (disk_at dcs i) → extends dcs dcs' → extends dcs (set_disk i k u dcs').
Proof.
  intros Hi [Hlen He]. unfold set_disk. split; [by rewrite length_alter|].
  intros j dc. destruct (decide (j = i)) as [->|]; [|rewrite list_lookup_alter_ne by done; apply He].
  rewrite list_lookup_alter_eq. intros (dc' & Hdc' & ->)%fmap_Some. specialize (He _ _ Hdc').
  destruct (dcs !! i) as [dc|] eqn:E; [|unfold disk_at in Hi; rewrite E in Hi; by destruct Hi].
  right. split; [done|]. exists k, u. destruct He as [->|(_ & k' & u' & ->)]; [done|].
  by destruct dc as [[? [?|]]|].
Qed.

Lemma extends_snoc dcs dcs' c :
  kind c ≠ VirtualDisk → extends dcs dcs' → extends dcs (dcs' ++ [addChange c]).
Proof.
  intros Hc [Hlen He]. split; [rewrite length_app; lia|]. intros j dc.
  intros [Hl|[Hj Hl]]%lookup_app_Some; [by apply He|].
  rewrite (lookup_ge_None_2 dcs) by lia. apply list_lookup_singleton_Some in Hl as [_ <-]. eauto.
Qed.


(** ** Counting controllers and choosing bus numbers *)

Lemma num_families cs d :
  data_ok cs d →
  numSCSIControllers d = Z.of_nat (length (of_family SCSI cs)) ∧
  numSATAControllers d = Z.of_nat (length (of_family SATA cs)) ∧
  numNVMEControllers d = Z.of_nat (length (of_family NVME cs)).
Proof.
  intros Hd. unfold numSCSIControllers, numSATAControllers, numNVMEControllers.
  rewrite (do_keys _ _ Hd ParaVirtualSCSIController : pvSCSIControllerKeys d = _).
  rewrite (do_keys _ _ Hd VirtualBusLogicController : busLogicSCSIControllerKeys d = _).
  rewrite (do_keys _ _ Hd VirtualLsiLogicController : lsiLogicControllerKeys d = _).
  rewrite (do_keys _ _ Hd VirtualLsiLogicSASController : lsiLogicSASControllerKeys d = _).
  rewrite (do_keys _ _ Hd VirtualSCSIController : scsiControllerKeys d = _).
  rewrite (do_keys _ _ Hd VirtualSATAController : sataControllerKeys d = _).
  rewrite (do_keys _ _ Hd VirtualAHCIController : ahciControllerKeys d = _).
  rewrite (do_keys _ _ Hd VirtualNVMEController : nvmeControllerKeys d = _).
  rewrite !length_fmap. unfold of_kind, of_family. clear Hd.
  induction cs as [|c cs IH]; [done|]. rewrite !filter_cons.
  destruct IH as (IH1 & IH2 & IH3). destruct (kind c); simpl; lia.
Qed.

Lemma free_unused (b : ensureDiskControllerBusNumbers) (l : list Z) :
  (∀ n, 0 ≤ n ≤ 2 → used n b = true ↔ n ∈ l) → (length l < 4)%nat → free b ∉ l.
Proof.
  intros Hu Hlen Hf. unfold free in Hf.
  destruct (zero b) eqn:E0; simpl in Hf; [|apply (Hu 0) in Hf; [|lia]; cbn in Hf; congruence].
  destruct (one b) eqn:E1; simpl in Hf; [|apply (Hu 1) in Hf; [|lia]; cbn in Hf; congruence].
  destruct (two b) eqn:E2; simpl in Hf; [|apply (Hu 2) in Hf; [|lia]; cbn in Hf; congruence].
  apply (Hu 0) in E0; [|lia]. apply (Hu 1) in E1; [|lia]. apply (Hu 2) in E2; [|lia].
  assert ([0; 1; 2; 3] ⊆+ l) as Hsub%submseteq_length; [|simpl in Hsub; lia].
  apply NoDup_submseteq; [by apply (bool_decide_eq_true_1 (NoDup [0; 1; 2; 3]))|].
  intros x. rewrite !elem_of_cons, elem_of_nil. by intros [->|[->|[->|[->|[]]]]].
Qed.

Lemma free_bus_ok cs d c :
  data_ok cs d → BusNumber c = free (bus_of (family_of (kind c)) d) →
  (length (of_family (family_of (kind c)) cs) < 4)%nat → bus_ok cs → bus_ok (cs ++ [c]).
Proof.
  intros Hd Hb Hlt Hok f. unfold of_family in *. rewrite filter_app, fmap_app.
  destruct (decide (family_of (kind c) = f)) as [<-|].
  - rewrite filter_cons_True by done. apply NoDup_app. split_and!; [apply Hok| |apply NoDup_singleton].
    intros x Hx ->%list_elem_of_singleton. rewrite Hb in Hx. revert Hx.
    apply free_unused; [|by rewrite length_fmap]. intros n Hn.
    rewrite (do_bus _ _ Hd _ n Hn), list_elem_of_fmap.
    setoid_rewrite list_elem_of_filter. naive_solver.
  - rewrite filter_cons_False by done. rewrite app_nil_r. apply Hok.
Qed.

(** ** Searching *)

Definition full (d : @ensureDiskControllerData S) (k : Z) : Prop :=
  ∀ dc v, keyToDiskControllers d !! k = Some dc → curUN dc ≤ v < maxUN dc →
    Has v (reservedUN dc) = true.

Lemma FindWith_spec keys d :
  match ensureDiskControllerFindWith keys d with
  | (d', Some (k, u)) => ∃ l1 l2, keys = l1 ++ k :: l2 ∧ (∀ k', k' ∈ l1 → full d k') ∧
      getNextUnitNumber k d = (d', Some u)
  | (d', None) => d' = d ∧ ∀ k, k ∈ keys → full d k
  end.
Proof.
  induction keys as [|k keys IH]; simpl; [split; [done|set_solver]|].
  destruct (getNextUnitNumber k d) as [d1 [u|]] eqn:Hg.
  { exists [], keys. split_and!; [done|set_solver|done]. }
  apply getNextUnitNumber_None in Hg as [-> Hfull].
  assert (full d k) as Hk by (intros dc v Hl; by apply Hfull).
  destruct (ensureDiskControllerFindWith keys d) as [d2 [[k' u]|]].
  - destruct IH as (l1 & l2 & -> & Hall & Hg). exists (k :: l1), l2. split_and!; [done| |done].
    intros k'' [->|?]%elem_of_cons; auto.
  - destruct IH as [-> Hall]. split; [done|]. intros k'' [->|?]%elem_of_cons; auto.
Qed.

(** The keys in the order of preference of [ensureDiskControllerFind]. *)
Definition search_order (d : @ensureDiskControllerData S) : list Z :=
  concat ((λ k, keys_of k d) <$>
    [ParaVirtualSCSIController; VirtualBusLogicController; VirtualLsiLogicController;
     VirtualLsiLogicSASController; VirtualSCSIController; VirtualSATAController;
     VirtualAHCIController; VirtualNVMEController; VirtualIDEController]).

Lemma FindWith_app l1 l2 d :
  ensureDiskControllerFindWith (l1 ++ l2) d =
  match ensureDiskControllerFindWith l1 d with
  | (d', Some r) => (d', Some r)
  | (_, None) => ensureDiskControllerFindWith l2 d
  end.
Proof.
  induction l1 as [|k l1 IH]; simpl; [done|].
  destruct (getNextUnitNumber k d) as [d1 [u|]] eqn:Hg; [done|].
  by apply getNextUnitNumber_None in Hg as [-> _].
Qed.

Lemma find_or_spec keys l d m :
  m = ensureDiskControllerFindWith l d →
  find_or m keys = ensureDiskControllerFindWith (l ++ keys d) d.
Proof.
  intros ->. rewrite FindWith_app. unfold find_or.
  pose proof (FindWith_spec l d) as Hs.
  destruct (ensureDiskControllerFindWith l d) as [d' [r|]]; [done|]. by destruct Hs as [-> _].
Qed.

(** The nine searches are one search in the order of preference. *)
Lemma Find_spec d :
  ensureDiskControllerFind d = ensureDiskControllerFindWith (search_order d) d.
Proof.
  unfold ensureDiskControllerFind, search_order. simpl. rewrite app_nil_r, !app_assoc.
  repeat (apply find_or_spec). done.
Qed.

Section Placement.
Context (dcs0 : DeviceChanges) (ex : list (option VirtualDevice)).
Context (Hin : input_ok dcs0 ex).

Definition pending0 (j : nat) : Prop :=
  ∃ dv, disk_at dcs0 j = Some dv ∧ ¬ preplaced dcs0 ex dv.

(** [P] holds of the disks not yet placed, [cs] lists the controllers in the
    order they were recorded. *)
(** A disk that is placed has unit number [u] of controller [k]. *)
Definition placed_slot (P : nat → Prop) (dcs : DeviceChanges) (k u : Z) : Prop :=
  ∃ j dv, ¬ P j ∧ disk_at dcs j = Some dv ∧ ControllerKey dv = k ∧ UnitNumber dv = Some u.

Record place_inv (P : nat → Prop) (dcs : DeviceChanges) (d : @ensureDiskControllerData S)
    (nk : Z) (cs : list VirtualDevice) : Prop := {
  pi_data : data_ok cs d;
  pi_dev k dc : keyToDiskControllers d !! k = Some dc → is_Some (dev dc);
  pi_cs : cs ≡ₚ controllers dcs ex;
  pi_sub c : c ∈ controllers dcs0 ex → c ∈ cs;
  pi_neg : nk < 0;
  pi_keys dv : dv ∈ live dcs → nk < Key dv;
  pi_pend j : P j → pending0 j;
  pi_same j dv : disk_at dcs0 j = Some dv → P j ∨ preplaced dcs0 ex dv → disk_at dcs j = Some dv;
  pi_disk j : is_Some (disk_at dcs j) ↔ is_Some (disk_at dcs0 j);
  pi_set j dv : disk_at dcs j = Some dv → ¬ P j →
    ∃ dc u, keyToDiskControllers d !! ControllerKey dv = Some dc ∧ UnitNumber dv = Some u ∧
            (Has u (reservedUN dc) = true ∨ u < curUN dc);
  pi_new j dv : disk_at dcs j = Some dv → ¬ P j → pending0 j →
    ∃ dc u, keyToDiskControllers d !! ControllerKey dv = Some dc ∧ UnitNumber dv = Some u ∧
            0 ≤ u < maxUN dc ∧ ¬ ex_slot ex (ControllerKey dv) u;
  pi_uniq i j di dj : i ≠ j → ¬ P i → ¬ P j → pending0 i →
    disk_at dcs i = Some di → disk_at dcs j = Some dj →
    (ControllerKey di, UnitNumber di) ≠ (ControllerKey dj, UnitNumber dj);
  pi_res k dc u : keyToDiskControllers d !! k = Some dc →
    Has u (reservedUN dc) = true → placed_slot P dcs k u ∨ ex_slot ex k u;
  pi_ex k dc u : keyToDiskControllers d !! k = Some dc → ex_slot ex k u →
    Has u (reservedUN dc) = true;
  pi_full k dc u : keyToDiskControllers d !! k = Some dc → 0 ≤ u < curUN dc →
    Has u (reservedUN dc) = true ∨ placed_slot P dcs k u;
  pi_frame : extends dcs0 dcs;
  pi_nodup : NoDup (Key <$> live dcs0) → NoDup (Key <$> live dcs);
  pi_bus : bus_ok (controllers dcs0 ex) → bus_ok cs;
  pi_limit f : (length (of_family f cs) ≤ 4 `max` length (of_family f (controllers dcs0 ex)))%nat
}.

Lemma place_inv_ext P Q dcs d nk cs :
  (∀ j, P j ↔ Q j) → place_inv P dcs d nk cs → place_inv Q dcs d nk cs.
Proof.
  intros HPQ Hi. assert (∀ j, ¬ Q j → ¬ P j) as HN by (intros j; by rewrite HPQ).
  assert (∀ k u, placed_slot P dcs k u → placed_slot Q dcs k u) as Hs.
  { intros k u (j & dv & Hj & ?). exists j, dv. by rewrite <-HPQ. }
  destruct Hi as [Hd Hdev Hcs Hsub Hneg Hks Hpd Hsm Hdk Hset Hnew Hun Hres Hex Hfull Hfr Hnd Hbus Hlim].
  split; try done; intros *; rewrite <-?HPQ; eauto.
  - intros ? [?|?]%(Hres k dc u); auto.
  - intros ? [?|?]%(Hfull k dc u); auto.
Qed.

(** A controller key is valid iff it is recorded. *)
Lemma place_inv_exists P dcs d nk cs k :
  place_inv P dcs d nk cs →
  is_Some (keyToDiskControllers d !! k) ↔ k ∈ Key <$> cs.
Proof.
  intros Hi. rewrite list_elem_of_fmap. split.
  - intros [dc Hl]. destruct (pi_dev _ _ _ _ _ Hi _ _ Hl) as [c Hc].
    destruct (do_dev _ _ (pi_data _ _ _ _ _ Hi) _ _ _ Hl Hc) as (? & ? & _). by exists c.
  - intros (c & -> & Hc).
    destruct (do_all _ _ (pi_data _ _ _ _ _ Hi) c Hc) as (dc & ? & _). by exists dc.
Qed.

Lemma placed_slot_assign P dcs i k u k' u' :
  P i → placed_slot P dcs k' u' → placed_slot (λ j, P j ∧ j ≠ i) (set_disk i k u dcs) k' u'.
Proof.
  intros HP (j & dv & Hj & Hdv & ?). exists j, dv. split; [tauto|].
  rewrite disk_at_set_disk, decide_False; [done|]. by intros ->.
Qed.

(** *** Numbering a pending disk

    The disk [i] gets the next free unit [u] of controller [k]. *)
Section Assign.
Context (P : nat → Prop) (dcs : DeviceChanges) (d : @ensureDiskControllerData S) (nk : Z)
  (cs : list VirtualDevice) (i : nat) (dv : VirtualDevice) (k u : Z) (dc : @diskController S).
Context (Hi : place_inv P dcs d nk cs) (HPi : P i) (Hdv : disk_at dcs i = Some dv).
Context (Hl : keyToDiskControllers d !! k = Some dc) (Hu : curUN dc ≤ u < maxUN dc)
  (Hfree : Has u (reservedUN dc) = false)
  (Hskip : ∀ v, curUN dc ≤ v < u → Has v (reservedUN dc) = true).

Definition assigned : @diskController S :=
  mkDiskController (dev dc) (u + 1) (maxUN dc) (reservedUN dc).

Lemma assign_at : disk_at (set_disk i k u dcs) i = Some (set_dev k u dv).
Proof using Hdv. by rewrite disk_at_set_disk, decide_True, Hdv. Qed.

Lemma assign_other j : j ≠ i → disk_at (set_disk i k u dcs) j = disk_at dcs j.
Proof. intros. by rewrite disk_at_set_disk, decide_False. Qed.

(** What is known of a controller carries over, in both directions. *)
Lemma assign_to k1 dc1 :
  keyToDiskControllers d !! k1 = Some dc1 →
  ∃ dc2, (<[k := assigned]> (keyToDiskControllers d)) !! k1 = Some dc2 ∧ maxUN dc2 = maxUN dc1 ∧
         reservedUN dc2 = reservedUN dc1 ∧ curUN dc1 ≤ curUN dc2.
Proof using All.
  intros Hl1. destruct (decide (k1 = k)) as [->|].
  - rewrite lookup_insert_eq. exists assigned. simplify_eq/=. split_and!; done || lia.
  - rewrite lookup_insert_ne by done. exists dc1. split_and!; done.
Qed.

Lemma assign_from k1 dc2 :
  (<[k := assigned]> (keyToDiskControllers d)) !! k1 = Some dc2 →
  ∃ dc1, keyToDiskControllers d !! k1 = Some dc1 ∧ dev dc2 = dev dc1 ∧
         reservedUN dc2 = reservedUN dc1.
Proof using All. intros [[<- <-]|[? ?]]%lookup_insert_Some; eauto. Qed.

(** The slot is not that of a disk placed before. *)
Lemma assign_fresh j dj :
  j ≠ i → ¬ P j → disk_at dcs j = Some dj → (ControllerKey dj, UnitNumber dj) ≠ (k, Some u).
Proof using All.
  intros Hj HPj Hdj [= Hk' Hu'].
  destruct (pi_set _ _ _ _ _ Hi j dj Hdj HPj) as (dc1 & u1 & ? & ? & [?|?]); simplify_eq; [congruence|lia].
Qed.

Lemma assign_set j dj :
  disk_at (set_disk i k u dcs) j = Some dj → ¬ (P j ∧ j ≠ i) →
  ∃ dc2 u1, (<[k := assigned]> (keyToDiskControllers d)) !! ControllerKey dj = Some dc2 ∧
    UnitNumber dj = Some u1 ∧ (Has u1 (reservedUN dc2) = true ∨ u1 < curUN dc2).
Proof using All.
  intros Hj HPj. destruct (decide (j = i)) as [->|Hne].
  - rewrite assign_at in Hj. simplify_eq/=. exists assigned, u. rewrite lookup_insert_eq.
    split_and!; [done..|]. simpl. right. lia.
  - rewrite assign_other in Hj by done.
    destruct (pi_set _ _ _ _ _ Hi j dj Hj) as (dc1 & u1 & Hl1 & ? & Hor); [tauto|].
    destruct (assign_to _ _ Hl1) as (dc2 & Hl2 & _ & Hr2 & Hc2). exists dc2, u1.
    split_and!; [done..|]. rewrite Hr2. destruct Hor; [by left|right; lia].
Qed.

Lemma assign_new j dj :
  disk_at (set_disk i k u dcs) j = Some dj → ¬ (P j ∧ j ≠ i) → pending0 j →
  ∃ dc2 u1, (<[k := assigned]> (keyToDiskControllers d)) !! ControllerKey dj = Some dc2 ∧
    UnitNumber dj = Some u1 ∧ 0 ≤ u1 < maxUN dc2 ∧ ¬ ex_slot ex (ControllerKey dj) u1.
Proof using All.
  pose proof (do_cur _ _ (pi_data _ _ _ _ _ Hi) _ _ Hl) as Hcur.
  intros Hj HPj Hp0. destruct (decide (j = i)) as [->|Hne].
  - rewrite assign_at in Hj. simplify_eq/=. exists assigned, u. rewrite lookup_insert_eq. simpl.
    split_and!; [done..|lia|lia|]. intros He. pose proof (pi_ex _ _ _ _ _ Hi _ _ _ Hl He). congruence.
  - rewrite assign_other in Hj by done.
    destruct (pi_new _ _ _ _ _ Hi j dj Hj) as (dc1 & u1 & Hl1 & ? & ? & ?); [tauto|done|].
    destruct (assign_to _ _ Hl1) as (dc2 & Hl2 & Hm2 & _). exists dc2, u1. by rewrite Hm2.
Qed.

Lemma assign_uniq a b da db :
  a ≠ b → ¬ (P a ∧ a ≠ i) → ¬ (P b ∧ b ≠ i) → pending0 a →
  disk_at (set_disk i k u dcs) a = Some da → disk_at (set_disk i k u dcs) b = Some db →
  (ControllerKey da, UnitNumber da) ≠ (ControllerKey db, UnitNumber db).
Proof using All.
  intros Hab HPa HPb Hp0 Ha Hb. destruct (decide (a = i)) as [->|Hai].
  - rewrite assign_other in Hb by done. rewrite assign_at in Ha. simplify_eq/=.
    intros Heq. apply (assign_fresh b db); [done|naive_solver|done|]. by rewrite <-Heq.
  - rewrite assign_other in Ha by done. destruct (decide (b = i)) as [->|Hbi].
    + rewrite assign_at in Hb. simplify_eq/=. apply (assign_fresh a da); [done|tauto|done].
    + rewrite assign_other in Hb by done. apply (pi_uniq _ _ _ _ _ Hi a b da db); try done; tauto.
Qed.

Lemma assign_full k1 dc2 u1 :
  (<[k := assigned]> (keyToDiskControllers d)) !! k1 = Some dc2 → 0 ≤ u1 < curUN dc2 →
  Has u1 (reservedUN dc2) = true ∨ placed_slot (λ j, P j ∧ j ≠ i) (set_disk i k u dcs) k1 u1.
Proof using All.
  intros Hl2 Hr. destruct (decide (k1 = k)) as [->|Hne].
  - rewrite lookup_insert_eq in Hl2. simplify_eq/=. destruct (decide (u1 < curUN dc)).
    { destruct (pi_full _ _ _ _ _ Hi _ _ u1 Hl ltac:(lia)); [by left|right]. by apply placed_slot_assign. }
    destruct (decide (u1 = u)) as [->|]; [right|left; apply Hskip; lia].
    exists i, (set_dev k u dv). split_and!; [tauto|apply assign_at|done..].
  - rewrite lookup_insert_ne in Hl2 by done.
    destruct (pi_full _ _ _ _ _ Hi _ _ u1 Hl2 ltac:(lia)); [by left|right]. by apply placed_slot_assign.
Qed.
End Assign.

(** A pending disk is numbered by a controller that has a free unit. *)
Lemma place_inv_assign P dcs d nk cs i dv k u d' :
  place_inv P dcs d nk cs → P i → disk_at dcs i = Some dv →
  getNextUnitNumber k d = (d', Some u) →
  place_inv (λ j, P j ∧ j ≠ i) (set_disk i k u dcs) d' nk cs.
Proof.
  intros Hi HPi Hdv Hg. pose proof (getNextUnitNumber_ok _ _ _ _ _ (pi_data _ _ _ _ _ Hi) Hg) as Hd'.
  destruct (getNextUnitNumber_Some _ _ _ _ Hg) as (dc & Hl & -> & Hu & Hfree & Hskip).
  destruct (set_disk_lists dcs i k u dv Hdv) as [Hctl Hkeys]. fold (assigned u dc) in *.
  pose proof Hi as Hi0.
  pose proof (assign_from P dcs d nk cs i dv k u dc Hi HPi Hdv Hl Hu Hfree Hskip) as Hfrom.
  destruct Hi as [Hd Hdev Hcs Hsub Hneg Hks Hpd Hsm Hdk Hset Hnew Hun Hres Hex Hfull Hfr Hnd Hbus Hlim].
  split; simpl; try done.
  - intros k1 dc2 Hl2. destruct (Hfrom _ _ Hl2) as (dc1 & Hl1 & -> & _). eauto.
  - unfold controllers in *. by rewrite Hctl.
  - intros dv1 Hdv1. assert (Key dv1 ∈ Key <$> live dcs) as (dv2 & -> & ?)%list_elem_of_fmap; [|auto].
    rewrite <-Hkeys. by apply list_elem_of_fmap_2.
  - intros j [? ?]. auto.
  - intros j dj Hj Hor. assert (j ≠ i) as Hne.
    { intros ->. destruct Hor as [[_ ?]|Hpre]; [done|].
      destruct (Hpd i HPi) as (dv' & ? & ?). by simplify_eq. }
    rewrite disk_at_set_disk, decide_False by done. apply Hsm; tauto.
  - intros j. rewrite disk_at_set_disk. case_decide; [subst|done].
    rewrite <-Hdk, Hdv. split; eauto.
  - intros j dj. by eapply assign_set.
  - intros j dj. by eapply assign_new.
  - intros a b da db. by eapply assign_uniq.
  - intros k1 dc2 u1 Hl2 Hh. destruct (Hfrom _ _ Hl2) as (dc1 & Hl1 & _ & Hr).
    rewrite Hr in Hh. destruct (Hres _ _ _ Hl1 Hh); [left|by right].
    by apply placed_slot_assign.
  - intros k1 dc2 u1 Hl2 He. destruct (Hfrom _ _ Hl2) as (dc1 & Hl1 & _ & ->). eauto.
  - intros k1 dc2 u1. by eapply assign_full.
  - apply extends_set_disk; [|done]. rewrite <-Hdk. eauto.
  - intros ?. rewrite Hkeys. auto.
Qed.

(** *** Adding a controller *)

(** The next key is not in use. *)
Lemma next_key_fresh P dcs d nk cs :
  place_inv P dcs d nk cs → keyToDiskControllers d !! nk = None.
Proof using Type* Hin.
  intros Hi. destruct (keyToDiskControllers d !! nk) eqn:E; [|done].
  assert (nk ∈ Key <$> cs) as (c' & Hc' & Hin')%list_elem_of_fmap
    by (eapply place_inv_exists; [exact Hi|by rewrite E]).
  rewrite (pi_cs _ _ _ _ _ Hi) in Hin'. unfold controllers in Hin'.
  apply elem_of_app in Hin' as [Hs|Hs].
  - apply list_elem_of_filter in Hs as [_ Hs]. pose proof (pi_keys _ _ _ _ _ Hi _ Hs). lia.
  - apply list_elem_of_filter in Hs as [_ Hs]. apply list_elem_of_omap in Hs as ([e|] & He & Hid);
      simplify_eq/=. pose proof (pi_neg _ _ _ _ _ Hi). destruct (io_ex _ _ Hin _ He). lia.
Qed.

(** A controller is no disk. *)
Lemma disk_at_addChange dcs c j :
  is_ctrl (kind c) = true → disk_at (dcs ++ [addChange c]) j = disk_at dcs j.
Proof.
  intros Hc. assert (live_device (addChange c) = Some c) as Hlc by done.
  rewrite disk_at_snoc, Hlc. case_decide; [|done].
  rewrite decide_False by (by destruct (kind c)).
  symmetry. destruct (disk_at dcs j) eqn:E; [|done]. apply disk_at_lt in E. lia.
Qed.

Lemma family_limit_snoc f c cs (m : nat) :
  (length (of_family f cs) ≤ 4 `max` m)%nat → (length (of_family (family_of (kind c)) cs) < 4)%nat →
  (length (of_family f (cs ++ [c])) ≤ 4 `max` m)%nat.
Proof.
  intros Hlim Hlt. unfold of_family in *. rewrite filter_app, length_app.
  destruct (decide (family_of (kind c) = f)) as [<-|].
  - rewrite filter_cons_True by done. simpl. change (filter _ []) with (@nil VirtualDevice). simpl. lia.
  - rewrite filter_cons_False by done. simpl. by rewrite Nat.add_0_r.
Qed.

(** A new controller with the next key. *)
Lemma place_inv_add P dcs d nk cs c d' :
  place_inv P dcs d nk cs → is_ctrl (kind c) = true → Key c = nk → add c d = Ok d' →
  (bus_ok cs → bus_ok (cs ++ [c])) → (length (of_family (family_of (kind c)) cs) < 4)%nat →
  place_inv P (dcs ++ [addChange c]) d' (nk - 1) (cs ++ [c]) ∧
  keyToDiskControllers d' !! nk =
    Some (mkDiskController (Some c) 0 (max_units (kind c)) sparse_zero).
Proof.
  intros Hi Hc Hk Hadd Hbusc Hlt.
  pose proof (next_key_fresh _ _ _ _ _ Hi) as Hfresh.
  destruct (add_ok cs d c Hc (pi_data _ _ _ _ _ Hi)) as (d2 & Hadd2 & Hd2 & _ & Hm).
  assert (d2 = d') as -> by congruence. clear Hadd2.
  unfold getController in Hm. rewrite Hk, Hfresh in Hm. simpl in Hm.
  destruct Hi as [Hd Hdev Hcs Hsub Hneg Hks Hpd Hsm Hdk Hset Hnew Hun Hres Hex Hfull Hfr Hnd Hbus Hlim].
  assert (live_device (addChange c) = Some c) as Hlc by done.
  pose proof (λ j, disk_at_addChange dcs c j Hc) as Hat.
  assert (∀ k dc, keyToDiskControllers d !! k = Some dc → keyToDiskControllers d' !! k = Some dc) as Hto.
  { intros k dc Hl. rewrite Hm, lookup_insert_ne; [done|]. congruence. }
  assert (∀ k dc, keyToDiskControllers d' !! k = Some dc →
    keyToDiskControllers d !! k = Some dc ∨
    (k = nk ∧ dc = mkDiskController (Some c) 0 (max_units (kind c)) sparse_zero)) as Hfrom.
  { intros k dc. rewrite Hm. intros [[<- <-]|[? ?]]%lookup_insert_Some; auto. }
  assert (∀ k u, placed_slot P dcs k u → placed_slot P (dcs ++ [addChange c]) k u) as Hsl.
  { intros k u (j & dv & ?). exists j, dv. by rewrite Hat. }
  split; [|by rewrite Hm, lookup_insert_eq].
  split; try setoid_rewrite Hat; try done.
  - intros k dc [?|[_ ->]]%Hfrom; [by eapply Hdev|]. by eexists.
  - unfold controllers in *. rewrite Hcs, spec_ctrls_snoc, Hlc, Hc.
    rewrite <-!app_assoc. f_equiv. apply Permutation_app_comm.
  - intros c' Hc'. apply elem_of_app. left. auto.
  - lia.
  - intros dv. rewrite live_snoc, Hlc, elem_of_app, list_elem_of_singleton.
    intros [?%Hks| ->]; lia.
  - intros j dv Hj HP. destruct (Hset j dv Hj HP) as (dc & u & ? & ?). eauto.
  - intros j dv Hj HP Hp0. destruct (Hnew j dv Hj HP Hp0) as (dc & u & ? & ?). eauto.
  - intros k dc u [?|[-> ->]]%Hfrom Hu; [|simpl in Hu; by rewrite Has_zero in Hu].
    destruct (Hres k dc u); auto.
  - intros k dc u [?|[-> ->]]%Hfrom He; [by eapply Hex|]. exfalso.
    destruct He as (e & He & _ & Hek & _). destruct (io_ex _ _ Hin _ He). lia.
  - intros k dc u [?|[-> ->]]%Hfrom Hu; [|simpl in Hu; lia].
    destruct (Hfull k dc u); auto.
  - apply extends_snoc; [by destruct (kind c)|done].
  - intros Hnd0. rewrite live_snoc, Hlc, fmap_app. apply NoDup_app.
    split_and!; [auto| |apply NoDup_singleton]. simpl.
    intros x (dv & -> & Hdv)%list_elem_of_fmap Hx%list_elem_of_singleton.
    pose proof (Hks dv Hdv). lia.
  - auto.
  - intros f. by apply family_limit_snoc.
Qed.

(** [ensureDiskControllerCreate] fails only when the three families are
    complete, and otherwise extends the placement. *)
Lemma create_ok P dcs d nk cs pci :
  place_inv P dcs d nk cs →
  match ensureDiskControllerCreate dcs pci nk d with
  | Ok (dcs', d') => ∃ c, place_inv P dcs' d' (nk - 1) (cs ++ [c]) ∧ dcs' = dcs ++ [addChange c] ∧
      kind c ≠ VirtualDisk ∧
      ∃ d'', getNextUnitNumber nk d' = (d'', Some 0)
  | Err e => e = ErrNoControllers ∧ ∀ f, f ∈ [SCSI; SATA; NVME] → (4 ≤ length (of_family f cs))%nat
  | Panic => False
  end.
Proof.
  intros Hi. pose proof (pi_data _ _ _ _ _ Hi) as Hd.
  destruct (num_families cs d Hd) as (Hscsi & Hsata & Hnvme).
  assert (∀ c, Key c = nk → is_ctrl (kind c) = true →
    BusNumber c = free (bus_of (family_of (kind c)) d) → 0 < max_units (kind c) →
    (length (of_family (family_of (kind c)) cs) < 4)%nat →
    ∃ d', add c d = Ok d' ∧ place_inv P (dcs ++ [addChange c]) d' (nk - 1) (cs ++ [c]) ∧
      ∃ d'', getNextUnitNumber nk d' = (d'', Some 0)) as Hgo.
  { intros c Hk Hc Hb Hmax Hlt. destruct (add_ok cs d c Hc Hd) as (d' & Hadd & _).
    exists d'. split; [done|].
    destruct (place_inv_add P dcs d nk cs c d') as [Hi' Hl]; try done.
    { by apply (free_bus_ok _ d). }
    split; [done|]. unfold getNextUnitNumber, nextUnitNumber. rewrite Hl. simpl.
    rewrite Z.sub_0_r. destruct (Z.to_nat (max_units (kind c))) eqn:E; [lia|]. simpl.
    rewrite (proj2 (Z.ltb_lt _ _)), Has_zero, orb_true_r by done. eauto. }
  unfold ensureDiskControllerCreate, maxSCSIControllers, maxSATAControllers, maxNVMEControllers.
  destruct (numSCSIControllers d <? 4) eqn:E1;
    [|destruct (numSATAControllers d <? 4) eqn:E2; [|destruct (numNVMEControllers d <? 4) eqn:E3]];
    bool_to_prop; cbv beta iota delta [outcome_bind].
  4: { split; [done|]. intros f. rewrite !elem_of_cons, elem_of_nil.
       intros [->|[->|[->|[]]]]; lia. }
  all: match goal with |- context [add ?c _] =>
         destruct (Hgo c) as (? & -> & ? & ?); [done..|simpl; lia|]; simpl; by exists c end.
Qed.


(** ** The loops *)

Lemma search_order_elem cs d c : data_ok cs d → c ∈ cs → Key c ∈ search_order d.
Proof.
  intros Hd Hc. pose proof (do_ctrl _ _ Hd c Hc) as Hk. unfold search_order. simpl.
  assert (Key c ∈ keys_of (kind c) d) as Hin'.
  { rewrite (do_keys _ _ Hd). apply list_elem_of_fmap_2. by apply list_elem_of_filter. }
  rewrite !elem_of_app. destruct (kind c); try done; simpl in Hin'; tauto.
Qed.

(** Every unit of controller [c] is in use. *)
Definition occupied (dcs : DeviceChanges) (c : VirtualDevice) : Prop :=
  ∀ u, 0 ≤ u < max_units (kind c) → spec_slot dcs (Key c) u ∨ ex_slot ex (Key c) u.

Lemma full_occupied P dcs d nk cs k :
  place_inv P dcs d nk cs → full d k → k ∈ Key <$> cs →
  ∃ c, c ∈ cs ∧ Key c = k ∧ occupied dcs c.
Proof.
  intros Hi Hf Hk. apply (place_inv_exists _ _ _ _ _ _ Hi) in Hk as [dc Hl].
  destruct (pi_dev _ _ _ _ _ Hi _ _ Hl) as [c Hc].
  destruct (do_dev _ _ (pi_data _ _ _ _ _ Hi) _ _ _ Hl Hc) as (Hcs & Hk & Hm).
  exists c. split_and!; try done. intros u Hu. rewrite Hk.
  assert (∀ v, placed_slot P dcs k v → spec_slot dcs k v) as Hps.
  { intros v (j & dv & _ & ?). by exists j, dv. }
  assert (Has u (reservedUN dc) = true ∨ placed_slot P dcs k u) as [Hr|]; [| |by left; auto].
  - destruct (decide (u < curUN dc)).
    + apply (pi_full _ _ _ _ _ Hi _ _ _ Hl). lia.
    + left. apply (Hf dc u Hl). lia.
  - destruct (pi_res _ _ _ _ _ Hi _ _ _ Hl Hr); auto.
Qed.

Lemma number_disks_ok ds wo P dcs d nk cs :
  cs = controllers dcs0 ex → place_inv P dcs d nk cs → NoDup (wo ++ ds) →
  (∀ j, j ∈ ds → is_Some (disk_at dcs0 j)) →
  (∀ j, P j → j ∈ wo ++ ds) → (∀ j, j ∈ wo → P j) → (∀ j, j ∈ ds → pending0 j → P j) →
  match number_disks ds dcs d wo with
  | Ok (dcs', d', wo') => place_inv (λ j, j ∈ wo') dcs' d' nk cs ∧ NoDup wo'
  | Err e => ∃ c dcs', e = ErrNoUnitNumber (Key c) ∧ c ∈ cs ∧ extends dcs0 dcs' ∧ occupied dcs' c
  | Panic => False
  end.
Proof.
  intros Hcs0. revert wo P dcs d. induction ds as [|i ds IH]; intros wo P dcs d Hi Hnd Hds HP Hwo Hpd; simpl.
  { rewrite app_nil_r in *. split; [|done].
    eapply place_inv_ext; [|exact Hi]. intros j. split; auto. }
  destruct (Hds i) as [dv0 Hdv0]; [set_solver|].
  destruct (proj2 (pi_disk _ _ _ _ _ Hi i)) as [dv Hdv]; [eauto|]. rewrite Hdv.
  assert (P i ∨ preplaced dcs0 ex dv0) as Hor.
  { destruct (decide (preplaced dcs0 ex dv0)); [by right|left].
    apply Hpd; [set_solver|]. by exists dv0. }
  assert (dv = dv0) as ->.
  { pose proof (pi_same _ _ _ _ _ Hi _ _ Hdv0 Hor). congruence. }
  assert (¬ (i ∈ ds) ∧ NoDup (wo ++ ds)) as [Hids Hnd'].
  { rewrite <-Permutation_middle, NoDup_cons, elem_of_app in Hnd. naive_solver. }
  assert (preplaced dcs0 ex dv0 ↔
          exists_ d (ControllerKey dv0) = true ∧ is_Some (UnitNumber dv0)) as Hpre.
  { unfold preplaced, exists_. rewrite bool_decide_eq_true, <-Hcs0.
    by rewrite (place_inv_exists _ _ _ _ _ _ Hi). }
  assert (preplaced dcs0 ex dv0 → ¬ P i) as HnP.
  { intros Hp HPi. destruct (pi_pend _ _ _ _ _ Hi _ HPi) as (dv' & ? & ?). by simplify_eq. }
  destruct (exists_ d (ControllerKey dv0)) eqn:Hex; simpl.
  - destruct (UnitNumber dv0) as [u0|] eqn:Hun.
    + assert (¬ P i) by (apply HnP, Hpre; eauto).
      apply (IH wo P); try done; [set_solver| |set_solver]. intros j HPj.
      assert (j ≠ i) by (by intros ->). specialize (HP j HPj). set_solver.
    + assert (P i) as HPi by (destruct Hor as [?|Hp]; [done|]; by apply Hpre in Hp as [_ []]).
      destruct (getNextUnitNumber (ControllerKey dv0) d) as [d' [u|]] eqn:Hg.
      * assert (i ∉ wo) by (rewrite <-Permutation_middle, NoDup_cons in Hnd; set_solver).
        apply (IH wo (λ j, P j ∧ j ≠ i) _ _
          (place_inv_assign _ _ _ _ _ _ _ _ _ _ Hi HPi Hdv Hg)); set_solver.
      * apply getNextUnitNumber_None in Hg as [_ Hf].
        destruct (full_occupied _ _ _ _ _ (ControllerKey dv0) Hi) as (c & Hc & Hk & Ho).
        { intros dc v Hl Hv. by apply (Hf dc Hl). }
        { apply (place_inv_exists _ _ _ _ _ _ Hi). unfold exists_ in Hex. by bool_to_prop. }
        exists c, dcs. rewrite Hk. split_and!; try done. by apply (pi_frame _ _ _ _ _ Hi).
  - assert (P i) as HPi by (destruct Hor as [?|Hp]; [done|]; by apply Hpre in Hp as [? _]).
    apply (IH (wo ++ [i]) P); rewrite <-?app_assoc; set_solver.
Qed.

Lemma place_disks_ok ds dcs d nk cs pci :
  place_inv (λ j, j ∈ ds) dcs d nk cs → NoDup ds → - 2 ^ 31 + Z.of_nat (length ds) ≤ nk →
  match place_disks ds dcs pci nk d with
  | Ok (dcs', d') => ∃ nk' cs', place_inv (λ _, False) dcs' d' nk' cs'
  | Err e => e = ErrNoControllers ∧ ∃ dcs' cs', extends dcs0 dcs' ∧ cs' ≡ₚ controllers dcs' ex ∧
      (∀ f, f ∈ [SCSI; SATA; NVME] → (4 ≤ length (of_family f cs'))%nat) ∧
      ∀ k, k ∈ Key <$> cs' → ∃ c, c ∈ cs' ∧ Key c = k ∧ occupied dcs' c
  | Panic => False
  end.
Proof.
  revert dcs d nk cs. induction ds as [|i ds IH]; intros dcs d nk cs Hi Hnd Hroom; simpl.
  { exists nk, cs. eapply place_inv_ext; [|exact Hi]. intros j. by rewrite elem_of_nil. }
  apply NoDup_cons in Hnd as [Hids Hnd].
  assert (i ∈ i :: ds) as Hii by set_solver.
  assert (∀ dcs d nk cs, place_inv (λ j, j ∈ i :: ds ∧ j ≠ i) dcs d nk cs →
            place_inv (λ j, j ∈ ds) dcs d nk cs) as Hshrink.
  { intros *. apply place_inv_ext. intros j. rewrite elem_of_cons. naive_solver. }
  destruct (pi_pend _ _ _ _ _ Hi i Hii) as (dv & Hdv0 & _).
  pose proof (pi_same _ _ _ _ _ Hi _ _ Hdv0 (or_introl Hii)) as Hdv.
  rewrite Find_spec. pose proof (FindWith_spec (search_order d) d) as Hf.
  destruct (ensureDiskControllerFindWith (search_order d) d) as [d' [[k u]|]].
  { destruct Hf as (_ & _ & _ & _ & Hg). apply (IH _ _ _ cs); [|done|simpl in Hroom; lia].
    apply Hshrink. by eapply place_inv_assign. }
  destruct Hf as [-> Hfull]. pose proof (create_ok _ _ _ _ _ pci Hi) as Hc.
  destruct (ensureDiskControllerCreate dcs pci nk d) as [[dcs1 d1]|e|]; [| |done].
  - destruct Hc as (c & Hi1 & -> & Hk & d2 & Hg). cbv beta iota delta [outcome_bind].
    unfold mustGetNextUnitNumber. rewrite Hg. pose proof (pi_neg _ _ _ _ _ Hi) as Hneg.
    assert (decr32 nk = nk - 1) as ->.
    { unfold decr32. apply wrap32_id. unfold in_int32. simpl in Hroom. lia. }
    apply (IH _ _ _ (cs ++ [c])); [|done|simpl in Hroom; lia].
    apply Hshrink. eapply place_inv_assign; [exact Hi1|done| |exact Hg].
    by apply (pi_same _ _ _ _ _ Hi1 _ _ Hdv0); left.
  - destruct Hc as [-> Hcount]. split; [done|]. exists dcs, cs.
    split_and!; [by apply (pi_frame _ _ _ _ _ Hi)|by apply (pi_cs _ _ _ _ _ Hi)|done|].
    intros k Hk. apply (full_occupied _ _ _ _ _ _ Hi); [|done].
    apply list_elem_of_fmap in Hk as (c & -> & Hc). apply Hfull.
    by apply (search_order_elem cs d c (pi_data _ _ _ _ _ Hi)).
Qed.

(** ** From the inspection to the first loop *)

Lemma place_start d1 dcs nk :
  data_ok (controllers dcs0 ex) d1 →
  (∀ k u, reserves d1 k u ↔ (k ≠ 0 ∧ spec_slot dcs0 k u) ∨ ex_slot ex k u) →
  (∀ k dc, keyToDiskControllers d1 !! k = Some dc → curUN dc = 0) →
  nk < 0 → (∀ dv, dv ∈ live dcs → nk < Key dv) →
  (∀ j, disk_at dcs j = disk_at dcs0 j) → controllers dcs ex = controllers dcs0 ex →
  extends dcs0 dcs → (NoDup (Key <$> live dcs0) → NoDup (Key <$> live dcs)) →
  place_inv pending0 dcs (validateAttachments d1) nk (controllers dcs0 ex).
Proof.
  intros Hd Hr Hcur Hneg Hks Hat Hctl Hext Hnd.
  destruct (validateAttachments_ok _ _ Hd) as [Hdv Hsubm].
  assert (∀ k dc, keyToDiskControllers (validateAttachments d1) !! k = Some dc →
            k ∈ Key <$> controllers dcs0 ex ∧ k ≠ 0) as Hkey.
  { intros k dc Hl. destruct (Hsubm _ _ Hl) as [[c Hc] _].
    destruct (do_dev _ _ Hdv _ _ _ Hl Hc) as (Hcin & <- & _).
    split; [by apply list_elem_of_fmap_2|]. by apply (io_zero _ _ Hin). }
  assert (∀ k dc u, keyToDiskControllers (validateAttachments d1) !! k = Some dc →
            (Has u (reservedUN dc) = true ↔ reserves d1 k u)) as Hres.
  { intros k dc u Hl. destruct (Hsubm _ _ Hl) as [_ Hl1]. unfold reserves.
    split; [eauto|]. intros (dc' & ? & ?). by simplify_eq. }
  assert (∀ j dv, disk_at dcs0 j = Some dv → ¬ pending0 j → preplaced dcs0 ex dv) as Hpre.
  { intros j dv Hj Hp. destruct (decide (preplaced dcs0 ex dv)); [done|]. destruct Hp. by exists dv. }
  split; try done; try setoid_rewrite Hat; try done.
  - intros k dc Hl. by apply (Hsubm k).
  - by rewrite Hctl.
  - intros j dv Hj Hp. destruct (Hpre j dv Hj Hp) as [(c & Hk & Hc)%list_elem_of_fmap [u Hu]].
    destruct (do_all _ _ Hdv c Hc) as (dc & Hl & _). rewrite <-Hk in Hl. exists dc, u.
    split_and!; try done. left. apply (Hres _ _ _ Hl), Hr. left.
    split; [by apply (Hkey _ _ Hl)|]. by exists j, dv.
  - intros k dc u Hl Hu. apply (Hres _ _ _ Hl), Hr in Hu as [[Hk (j & dv & Hj & <- & Hun)]|]; [left|by right].
    exists j, dv. rewrite Hat. split_and!; try done. intros (dv' & ? & Hnp). simplify_eq.
    destruct Hnp. split; [by apply (Hkey _ _ Hl)|by rewrite Hun].
  - intros k dc u Hl He. apply (Hres _ _ _ Hl), Hr. by right.
  - intros k dc u Hl Hu. destruct (Hsubm _ _ Hl) as [_ Hl1].
    rewrite (Hcur _ _ Hl1) in Hu. lia.
  - intros f. lia.
Qed.
End Placement.

(** No unit number has been handed out during the inspection. *)
Definition cur0 (d : @ensureDiskControllerData S) : Prop :=
  ∀ k dc, keyToDiskControllers d !! k = Some dc → curUN dc = 0.

Lemma cur0_insert d k dc :
  cur0 d → curUN dc = curUN (getController d k) →
  cur0 (set_keyToDiskControllers (<[k := dc]> (keyToDiskControllers d)) d).
Proof.
  intros Hd Hdc k' dc'. simpl. intros [[<- <-]|[? ?]]%lookup_insert_Some; [|by eapply Hd].
  rewrite Hdc. unfold getController. destruct (_ !! k) eqn:E; [by eapply Hd|done].
Qed.

Lemma add_cur0 c d d' : add c d = Ok d' → cur0 d → cur0 d'.
Proof.
  intros Hadd Hd. destruct (is_ctrl (kind c)) eqn:Hc; [|unfold add in Hadd; by destruct (kind c)].
  destruct (add_fields c d Hc) as (d2 & Hadd2 & Hm & _). rewrite Hadd in Hadd2. simplify_eq.
  pose proof (cur0_insert d (Key c) _ Hd (eq_refl (curUN (mkDiskController (Some c)
    (curUN (getController d (Key c))) (max_units (kind c)) (reservedUN (getController d (Key c)))))))
    as Hcur.
  intros k dc. rewrite Hm. apply Hcur.
Qed.

Lemma addDisk_cur0 k un d : cur0 d → cur0 (addDisk k un d).
Proof. intros Hd. apply cur0_insert; [done|]. by destruct un. Qed.

Lemma inspect_spec_cur0 dcs i st st' :
  inspect_spec i dcs st = Ok st' → cur0 (diskControllers st) → cur0 (diskControllers st').
Proof.
  revert i st. induction dcs as [|dc dcs IH]; intros i st Hs Hc; simpl in Hs; [by simplify_eq|].
  destruct (live_device dc) as [dv|]; [|by eapply IH].
  unfold inspect_device in Hs. destruct (inspect_switch i dv st) as [st1| |] eqn:Hsw; try done.
  apply IH in Hs; [done|]. rewrite (proj1 (proj2 (proj2 (inspect_key_fields (Key dv) st1)))).
  unfold inspect_switch in Hsw.
  destruct (kind dv); simplify_eq/=; try done;
    try (destruct (add dv _) eqn:Ha; simplify_eq/=; by eapply add_cur0).
  destruct (_ =? _); [done|by apply addDisk_cur0].
Qed.

Lemma inspect_existing_cur0 ex st st' :
  inspect_existing ex st = Ok st' → cur0 (diskControllers st) → cur0 (diskControllers st').
Proof.
  revert st. induction ex as [|[e|] ex IH]; intros st Hs Hc; simpl in Hs; [by simplify_eq| |by eapply IH].
  destruct (inspect_existing_device e st) as [st1| |] eqn:Hsw; try done.
  apply IH in Hs; [done|]. unfold inspect_existing_device in Hsw.
  destruct (kind e); simplify_eq/=; try done;
    try (destruct (add e _) eqn:Ha; simplify_eq/=; by eapply add_cur0).
  by apply addDisk_cur0.
Qed.

(** The PCI controller that may be added is no disk controller, and the key
    counter ends below every key in use. *)
Lemma ensure_pci_ok dcs ex st dcs' pci nk :
  input_ok dcs ex → insp_inv dcs st → ∀ pc,
  ensure_pci dcs (mkInspection (disks st) (newDeviceKey st) pc (diskControllers st)) = (dcs', pci, nk) →
  nk < 0 ∧ - 2 ^ 31 + Z.of_nat (length dcs) ≤ nk ∧ (∀ dv, dv ∈ live dcs' → nk < Key dv) ∧
  (∀ j, disk_at dcs' j = disk_at dcs j) ∧ controllers dcs' ex = controllers dcs ex ∧
  extends dcs dcs' ∧ (NoDup (Key <$> live dcs) → NoDup (Key <$> live dcs')).
Proof.
  intros Hin Hi pc. pose proof (io_len _ _ Hin) as Hlen.
  set (m := newDeviceKey st).
  assert (m ≤ 0 ∧ - 2 ^ 31 + 2 + Z.of_nat (length dcs) ≤ m) as [Hm0 Hm1].
  { unfold m. destruct (ii_key _ _ Hi) as [?|(? & dv & Hdv & ?)]; [lia|].
    pose proof (io_keys _ _ Hin dv Hdv). lia. }
  assert (decr32 m = m - 1) as Hd1 by (apply wrap32_id; unfold in_int32; lia).
  assert (decr32 (m - 1) = m - 2) as Hd2.
  { unfold decr32. rewrite wrap32_id; unfold in_int32; lia. }
  unfold ensure_pci. cbn [newDeviceKey pciController]. fold m. rewrite Hd1, Hd2.
  assert (∀ dv, dv ∈ live dcs → m ≤ Key dv) as Hks by apply (ii_keys _ _ Hi).
  destruct pc as [pk|]; intros [= <- <- <-].
  { split_and!; try done; try lia; [intros dv Hdv; specialize (Hks dv Hdv); lia|].
    split; [done|]. intros j dc ->. by left. }
  set (c := mkDevice _ _ _ _ _). assert (live_device (addChange c) = Some c) as Hlc by done.
  split_and!; try lia.
  - intros dv. rewrite live_snoc, Hlc, elem_of_app, list_elem_of_singleton.
    intros [Hdv| ->]; [specialize (Hks dv Hdv)|simpl]; lia.
  - intros j. rewrite disk_at_snoc, Hlc. case_decide; [|done]. rewrite decide_False by done.
    symmetry. destruct (disk_at dcs j) eqn:E; [|done]. apply disk_at_lt in E. lia.
  - unfold controllers. by rewrite spec_ctrls_snoc, Hlc, app_nil_r.
  - apply extends_snoc; [done|]. split; [done|]. intros j dc ->. by left.
  - intros Hnd. rewrite live_snoc, Hlc, fmap_app. apply NoDup_app.
    split_and!; [auto| |apply NoDup_singleton]. simpl.
    intros x (dv & -> & Hdv)%list_elem_of_fmap Hx%list_elem_of_singleton.
    specialize (Hks dv Hdv). lia.
Qed.

Lemma NoDup_below (l : list nat) n : NoDup l → (∀ j, j ∈ l → (j < n)%nat) → (length l ≤ n)%nat.
Proof.
  intros Hnd Hb. rewrite <-(length_seq n 0). apply submseteq_length, NoDup_submseteq; [done|].
  intros j Hj. apply elem_of_seq. specialize (Hb j Hj). lia.
Qed.

(** The whole function: nothing to do, a complete placement, or an error with
    the placement reached. *)
Lemma ensure_result dcs ex :
  input_ok dcs ex →
  match EnsureDisksHaveControllers_data (Some dcs) ex with
  | Ok (dcs', d') => (dcs' = dcs ∧ ∀ j, disk_at dcs j = None) ∨
      ∃ nk cs, place_inv dcs ex (λ _, False) dcs' d' nk cs
  | Err (ErrNoUnitNumber k) => ∃ c dcs', k = Key c ∧ c ∈ controllers dcs ex ∧
      extends dcs dcs' ∧ occupied ex dcs' c
  | Err ErrNoControllers => ∃ dcs' cs', extends dcs dcs' ∧ cs' ≡ₚ controllers dcs' ex ∧
      (∀ f, f ∈ [SCSI; SATA; NVME] → (4 ≤ length (of_family f cs'))%nat) ∧
      ∀ k, k ∈ Key <$> cs' → ∃ c, c ∈ cs' ∧ Key c = k ∧ occupied ex dcs' c
  | Err ErrNilConfigSpec => False
  | Panic => False
  end.
Proof.
  intros Hin. unfold EnsureDisksHaveControllers_data.
  destruct (inspect_spec_ok dcs [] newInspection insp_inv_start) as (st & Hst & Hi).
  simpl in Hst, Hi. rewrite Hst. cbn [outcome_bind].
  pose proof (inspect_spec_cur0 _ _ _ _ Hst ltac:(by intros k dc ?)) as Hc0.
  case_bool_decide as Hdisks.
  { left. split; [done|]. intros j. destruct (disk_at dcs j) eqn:E; [|done].
    assert (j ∈ disks st) as Hj by (apply (ii_disks _ _ Hi); eauto). by rewrite Hdisks in Hj; apply not_elem_of_nil in Hj. }
  destruct (inspect_existing_ok ex _ st (ii_data _ _ Hi)) as (st2 & Hst2 & Hdk & Hk & Hd & Hr).
  rewrite Hst2. cbn [outcome_bind].
  pose proof (inspect_existing_cur0 _ _ _ Hst2 Hc0) as Hc2.
  destruct (ensure_pci dcs st2) as [[dcs1 pci] nk] eqn:Hpci.
  destruct (ensure_pci_ok dcs ex st dcs1 pci nk Hin Hi (pciController st2))
    as (Hneg & Hroom & Hks & Hat & Hctl & Hext & Hnd).
  { rewrite <-Hpci. unfold ensure_pci. simpl. by rewrite Hk. }
  assert (place_inv dcs ex (pending0 dcs ex) dcs1 (validateAttachments (diskControllers st2)) nk
            (controllers dcs ex)) as Hplace.
  { apply place_start; try done. intros k u. rewrite Hr, (ii_res _ _ Hi). done. }
  assert (∀ j, pending0 dcs ex j → j ∈ disks st2) as Hpd.
  { intros j (dv & Hj & _). rewrite Hdk. apply (ii_disks _ _ Hi). eauto. }
  assert (NoDup (disks st2)) as Hnd2 by (rewrite Hdk; apply (ii_nodup _ _ Hi)).
  assert (∀ j, j ∈ disks st2 → is_Some (disk_at dcs j)) as Hsome
    by (intros j; rewrite Hdk; apply (ii_disks _ _ Hi)).
  pose proof (number_disks_ok dcs ex Hin (disks st2) [] _ _ _ _ _ eq_refl Hplace Hnd2 Hsome Hpd
    (λ j Hj, False_ind _ (not_elem_of_nil j Hj)) (λ j _ Hj, Hj)) as Hn.
  destruct (number_disks (disks st2) dcs1 _ []) as [[[dcs2 d2] wo]|e|]; cbn [outcome_bind]; [| |done].
  2: { destruct Hn as (c & dcs' & -> & Hc & ?). by exists c, dcs'. }
  destruct Hn as [Hp2 Hndw].
  pose proof (place_disks_ok dcs ex Hin wo dcs2 d2 nk _ pci Hp2 Hndw) as Hpl.
  assert (length wo ≤ length dcs)%nat.
  { apply NoDup_below; [done|]. intros j Hj.
    destruct (pi_pend _ _ _ _ _ _ _ Hp2 j Hj) as (dv & Hdv & _). by eapply disk_at_lt. }
  destruct (place_disks wo dcs2 pci nk d2) as [[dcs3 d3]|e|].
  - right. apply Hpl. lia.
  - destruct Hpl as [-> Hpl]; [lia|]. exact Hpl.
  - apply Hpl. lia.
Qed.

Lemma ensure_Ok dcs ex dcs' :
  input_ok dcs ex → EnsureDisksHaveControllers (Some dcs) ex = Ok dcs' →
  (dcs' = dcs ∧ ∀ j, disk_at dcs j = None) ∨
  ∃ d nk cs, place_inv dcs ex (λ _, False) dcs' d nk cs.
Proof.
  intros Hin. unfold EnsureDisksHaveControllers. pose proof (ensure_result dcs ex Hin) as Hr.
  destruct (EnsureDisksHaveControllers_data (Some dcs) ex) as [[dcs1 d]| |]; simpl; [|done..].
  intros [= <-]. destruct Hr as [?|(nk & cs & ?)]; eauto 6.
Qed.

(** ** Properties *)

(** When EnsureDisksHaveControllers succeeds, every disk of the
    ConfigSpec names a controller that exists and a unit number, in the
    controller's range if it was chosen here; disks that were placed already
    keep their slot, other devices are untouched, and only devices that are not
    disks are added. *)
Theorem ensure_places_every_disk (dcs : DeviceChanges) (ex : list (option VirtualDevice))
    (dcs' : DeviceChanges) :
  input_ok dcs ex → EnsureDisksHaveControllers (Some dcs) ex = Ok dcs' →
  extends dcs dcs' ∧
  (∀ j dv, disk_at dcs j = Some dv → preplaced dcs ex dv → disk_at dcs' j = Some dv) ∧
  (∀ j dv', disk_at dcs' j = Some dv' →
     ∃ c u, c ∈ controllers dcs' ex ∧ ControllerKey dv' = Key c ∧ UnitNumber dv' = Some u ∧
       ∀ dv, disk_at dcs j = Some dv → ¬ preplaced dcs ex dv → 0 ≤ u < max_units (kind c)).
Proof.
  intros Hin [[-> Hno]|(d & nk & cs & Hi)]%ensure_Ok; [| |done].
  { split_and!; [|done|intros j dv; by rewrite Hno].
    split; [done|]. intros j dc ->. by left. }
  split_and!; [by apply (pi_frame _ _ _ _ _ _ _ Hi)|by intros; eapply pi_same; eauto|].
  intros j dv' Hj. destruct (pi_set _ _ _ _ _ _ _ Hi j dv' Hj) as (dc & u & Hl & Hu & _); [tauto|].
  destruct (pi_dev _ _ _ _ _ _ _ Hi _ _ Hl) as [c Hc].
  destruct (do_dev _ _ (pi_data _ _ _ _ _ _ _ Hi) _ _ _ Hl Hc) as (Hcs & Hk & Hm).
  exists c, u. split_and!; [|done|done|].
  - by rewrite <-(pi_cs _ _ _ _ _ _ _ Hi).
  - intros dv Hdv Hnp.
    destruct (pi_new _ _ _ _ _ _ _ Hi j dv' Hj) as (dc2 & u2 & ? & ? & ? & _); [tauto|by exists dv|].
    simplify_eq. by rewrite <-Hm.
Qed.

(** C1: a slot chosen by EnsureDisksHaveControllers is shared with no other
    disk, neither of the ConfigSpec nor of the existing devices. *)
Theorem ensure_slots_unique (dcs : DeviceChanges) (ex : list (option VirtualDevice))
    (dcs' : DeviceChanges) (i : nat) (dv di : VirtualDevice) :
  input_ok dcs ex → EnsureDisksHaveControllers (Some dcs) ex = Ok dcs' →
  disk_at dcs i = Some dv → ¬ preplaced dcs ex dv → disk_at dcs' i = Some di →
  (∀ j dj, j ≠ i → disk_at dcs' j = Some dj →
     (ControllerKey dj, UnitNumber dj) ≠ (ControllerKey di, UnitNumber di)) ∧
  (∀ e, Some e ∈ ex → kind e = VirtualDisk →
     (ControllerKey e, UnitNumber e) ≠ (ControllerKey di, UnitNumber di)).
Proof.
  intros Hin [[-> Hno]|(d & nk & cs & Hi)]%ensure_Ok Hdv Hnp Hdi; [by rewrite Hno in Hdv| |done].
  assert (pending0 dcs ex i) as Hp by (by exists dv).
  split.
  - intros j dj Hj Hdj Heq. destruct (pi_uniq _ _ _ _ _ _ _ Hi i j di dj); auto.
  - intros e He Hk [= Hck Hun].
    destruct (pi_new _ _ _ _ _ _ _ Hi i di Hdi) as (dc & u & _ & Hu & _ & Hns); [tauto|done|].
    apply Hns. exists e. rewrite Hun, Hu. done.
Qed.

(** EnsureDisksHaveControllers never panics, and it fails only for lack
    of room: when every unit of the controller a disk asks for is in use, or
    when the VM has four SCSI, four SATA and four NVMe controllers and every
    unit of every controller is in use. *)
Theorem ensure_fails_only_without_room (dcs : DeviceChanges) (ex : list (option VirtualDevice)) :
  input_ok dcs ex →
  match EnsureDisksHaveControllers (Some dcs) ex with
  | Ok _ => True
  | Err (ErrNoUnitNumber k) => ∃ c dcs', k = Key c ∧ c ∈ controllers dcs ex ∧
      extends dcs dcs' ∧ occupied ex dcs' c
  | Err ErrNoControllers => ∃ dcs' cs', extends dcs dcs' ∧ cs' ≡ₚ controllers dcs' ex ∧
      (∀ f, f ∈ [SCSI; SATA; NVME] → (4 ≤ length (of_family f cs'))%nat) ∧
      ∀ k, k ∈ Key <$> cs' → ∃ c, c ∈ cs' ∧ Key c = k ∧ occupied ex dcs' c
  | Err ErrNilConfigSpec => False
  | Panic => False
  end.
Proof.
  intros Hin. unfold EnsureDisksHaveControllers. pose proof (ensure_result dcs ex Hin) as Hr.
  by destruct (EnsureDisksHaveControllers_data (Some dcs) ex) as [[dcs1 d]| |].
Qed.

(** The controllers that are added get fresh device keys and bus numbers
    that no controller of their family has, and no family grows beyond four. *)
Theorem ensure_new_controllers_fresh (dcs : DeviceChanges) (ex : list (option VirtualDevice))
    (dcs' : DeviceChanges) :
  input_ok dcs ex → EnsureDisksHaveControllers (Some dcs) ex = Ok dcs' →
  (NoDup (Key <$> live dcs) → NoDup (Key <$> live dcs')) ∧
  (bus_ok (controllers dcs ex) → bus_ok (controllers dcs' ex)) ∧
  (∀ f, length (of_family f (controllers dcs' ex)) ≤
        4 `max` length (of_family f (controllers dcs ex)))%nat.
Proof.
  intros Hin [[-> Hno]|(d & nk & cs & Hi)]%ensure_Ok; [split_and!; auto; lia| |done].
  pose proof (pi_cs _ _ _ _ _ _ _ Hi) as Hcs.
  assert (∀ f, of_family f (controllers dcs' ex) ≡ₚ of_family f cs) as Hf.
  { intros f. unfold of_family. by rewrite Hcs. }
  split_and!.
  - by apply (pi_nodup _ _ _ _ _ _ _ Hi).
  - intros Hb f. rewrite Hf. by apply (pi_bus _ _ _ _ _ _ _ Hi).
  - intros f. rewrite Hf. by apply (pi_limit _ _ _ _ _ _ _ Hi).
Qed.

(** EnsureDiskControllerFind tries the controllers by kind in the
    documented order of preference, takes the first with a free unit number and
    gives the least one free; it finds nothing only if all are full, and then
    changes nothing. *)
Theorem find_prefers_first_free (d : @ensureDiskControllerData S) :
  match ensureDiskControllerFind d with
  | (d', Some (k, u)) => ∃ l1 l2 dc, search_order d = l1 ++ k :: l2 ∧ (∀ k', k' ∈ l1 → full d k') ∧
      keyToDiskControllers d !! k = Some dc ∧ curUN dc ≤ u < maxUN dc ∧
      Has u (reservedUN dc) = false ∧ ∀ v, curUN dc ≤ v < u → Has v (reservedUN dc) = true
  | (d', None) => d' = d ∧ ∀ k, k ∈ search_order d → full d k
  end.
Proof.
  rewrite Find_spec. pose proof (FindWith_spec (search_order d) d) as Hs.
  destruct (ensureDiskControllerFindWith _ d) as [d' [[k u]|]]; [|done].
  destruct Hs as (l1 & l2 & ? & ? & (dc & ? & _ & ? & ? & ?)%getNextUnitNumber_Some).
  by exists l1, l2, dc.
Qed.
End DiskPlacement.

(** ** A concrete ConfigSpec: two disks without a controller, and an existing
    paravirtual SCSI controller with one disk. *)

Definition ex_disk (k : Z) : VirtualDevice := mkDevice VirtualDisk k 0 None 0.
Definition ex_spec : DeviceChanges := [addChange (ex_disk (-1)); None; addChange (ex_disk (-2))].
Definition ex_existing : list (option VirtualDevice) :=
  [Some (mkDevice ParaVirtualSCSIController 1000 100 None 0);
   Some (mkDevice VirtualDisk 2000 1000 (Some 0) 0); None].

Definition ex_placed (k u : Z) : VirtualDevice := mkDevice VirtualDisk k 1000 (Some u) 0.

Lemma ex_input_ok : input_ok ex_spec ex_existing.
Proof.
  split.
  - done.
  - intros dv. change (live ex_spec) with [ex_disk (-1); ex_disk (-2)].
    rewrite !elem_of_cons, elem_of_nil. by intros [->|[->|[]]].
  - intros e. unfold ex_existing. rewrite !elem_of_cons, elem_of_nil. intros [[= ->]|[[= ->]|[?|[]]]]; done.
  - intros c. change (controllers ex_spec ex_existing)
      with [mkDevice ParaVirtualSCSIController 1000 100 None 0].
    rewrite list_elem_of_singleton. by intros ->.
Qed.

Lemma ex_run :
  EnsureDisksHaveControllers (S := gset Z) (Some ex_spec) ex_existing =
  Ok [addChange (ex_placed (-1) 1); None; addChange (ex_placed (-2) 2);
      addChange (mkDevice VirtualPCIController (-3) 0 None 0)].
Proof. vm_compute. reflexivity. Qed.

Lemma ex_not_preplaced : ¬ preplaced ex_spec ex_existing (ex_disk (-1)).
Proof. intros [_ []]. done. Qed.

Lemma ensure_places_every_disk_witness :
  extends ex_spec [addChange (ex_placed (-1) 1); None; addChange (ex_placed (-2) 2);
                   addChange (mkDevice VirtualPCIController (-3) 0 None 0)].
Proof.
  apply (ensure_places_every_disk (S := gset Z) ex_spec ex_existing _ ex_input_ok).
  vm_compute. reflexivity.
Defined.

Lemma ensure_slots_unique_witness :
  (ControllerKey (ex_placed (-2) 2), UnitNumber (ex_placed (-2) 2)) ≠ (1000, Some 1) ∧
  ∀ e, Some e ∈ ex_existing → kind e = VirtualDisk →
    (ControllerKey e, UnitNumber e) ≠ (1000, Some 1).
Proof.
  destruct (ensure_slots_unique (S := gset Z) ex_spec ex_existing _ 0 (ex_disk (-1))
    (ex_placed (-1) 1) ex_input_ok ex_run eq_refl ex_not_preplaced eq_refl) as [Hs He].
  split; [by apply (Hs 2%nat)|exact He].
Defined.

(** An IDE controller with both units taken and a disk that asks for a third. *)
Definition ex_full : DeviceChanges :=
  [addChange (mkDevice VirtualIDEController 5 0 None 0);
   addChange (mkDevice VirtualDisk (-1) 5 (Some 0) 0);
   addChange (mkDevice VirtualDisk (-2) 5 (Some 1) 0);
   addChange (mkDevice VirtualDisk (-3) 5 None 0)].

Lemma ex_full_run :
  EnsureDisksHaveControllers (S := gset Z) (Some ex_full) [] = Err (ErrNoUnitNumber 5).
Proof. vm_compute. reflexivity. Qed.

Lemma ex_full_ok : input_ok ex_full [].
Proof.
  split.
  - done.
  - intros dv. change (live ex_full) with
      [mkDevice VirtualIDEController 5 0 None 0; mkDevice VirtualDisk (-1) 5 (Some 0) 0;
       mkDevice VirtualDisk (-2) 5 (Some 1) 0; mkDevice VirtualDisk (-3) 5 None 0].
    rewrite !elem_of_cons, elem_of_nil. by intros [->|[->|[->|[->|[]]]]].
  - by intros e ?%not_elem_of_nil.
  - intros c. change (controllers ex_full []) with [mkDevice VirtualIDEController 5 0 None 0].
    rewrite list_elem_of_singleton. by intros ->.
Qed.

Lemma ensure_fails_only_without_room_witness :
  ∃ c dcs', 5 = Key c ∧ c ∈ controllers ex_full [] ∧ extends ex_full dcs' ∧ occupied [] dcs' c.
Proof.
  pose proof (ensure_fails_only_without_room (S := gset Z) ex_full [] ex_full_ok) as Hr.
  rewrite ex_full_run in Hr. exact Hr.
Defined.

Lemma ensure_new_controllers_fresh_witness :
  NoDup (Key <$> live [addChange (ex_placed (-1) 1); None; addChange (ex_placed (-2) 2);
                       addChange (mkDevice VirtualPCIController (-3) 0 None 0)]).
Proof.
  apply (ensure_new_controllers_fresh (S := gset Z) ex_spec ex_existing _ ex_input_ok ex_run).
  by apply (bool_decide_eq_true_1 (NoDup [-1; -2])).
Defined.

Definition ex_data : @ensureDiskControllerData (gset Z) :=
  match add (mkDevice ParaVirtualSCSIController 7 0 None 0) (addDisk 7 (Some 0) newData) with
  | Ok d => d
  | _ => newData
  end.

Lemma find_prefers_first_free_witness :
  ∃ l1 l2 dc, search_order ex_data = l1 ++ 7 :: l2 ∧ (∀ k', k' ∈ l1 → full ex_data k') ∧
    keyToDiskControllers ex_data !! 7 = Some dc ∧ curUN dc ≤ 1 < maxUN dc ∧
    Has 1 (reservedUN dc) = false ∧ ∀ v, curUN dc ≤ v < 1 → Has v (reservedUN dc) = true.
Proof.
  pose proof (find_prefers_first_free (S := gset Z) ex_data) as Hf.
  assert ((ensureDiskControllerFind ex_data).2 = Some (7, 1)) as Hr by (vm_compute; reflexivity).
  destruct (ensureDiskControllerFind ex_data) as [d' r]. simpl in Hr. rewrite Hr in Hf. exact Hf.
Defined.
