(* ===== verification/Features.v ===== *)
(** * Feature versions and the upgrade gate: pkg/util/vmopv1/features.go

    A feature version is a uint16 bit mask, printed in decimal as an annotation
    of the object.  [IsObjectUpgraded] compares the annotations with the build,
    the API version and the activated features, and gates the mutators and
    validators of the VM webhooks. *)

From S2P Require Import Prelude.
Local Open Scope Z_scope.

(** ** The mask *)

Definition FeatureVersionBase : Z := 1.
Definition FeatureVersionVMSharedDisks : Z := 2.
Definition FeatureVersionAllDisksArePVCs : Z := 4.
Definition FeatureVersionTelcoVMServiceAPI : Z := 8.
Definition FeatureVersionNICUnitNumbers : Z := 16.
Definition FeatureVersionEmpty : Z := 0.

Definition FeatureVersionAll : Z :=
  Z.lor (Z.lor (Z.lor (Z.lor FeatureVersionBase FeatureVersionVMSharedDisks)
    FeatureVersionAllDisksArePVCs) FeatureVersionTelcoVMServiceAPI) FeatureVersionNICUnitNumbers.

Definition FeatureVersions : list Z :=
  [FeatureVersionBase; FeatureVersionVMSharedDisks; FeatureVersionAllDisksArePVCs;
   FeatureVersionTelcoVMServiceAPI; FeatureVersionNICUnitNumbers].

(** [^x] on uint16. *)
Definition not16 (x : Z) : Z := Z.lxor x (2 ^ 16 - 1).

Definition IsValid (a : Z) : bool :=
  negb (a =? FeatureVersionEmpty) && (Z.land a (not16 FeatureVersionAll) =? 0).

Definition String (a : Z) : string := if IsValid a then pretty a else "".

Definition Has (a b : Z) : bool := negb (Z.land a b =? 0).

Definition IsOrSuperset (a b : Z) : bool :=
  if a =? b then true
  else
    let bm := filter (λ f, Has b f = true) FeatureVersions in
    forallb (λ f, Has a f) bm.

(** [Set], through the pointer. *)
Definition Set_ (a b : Z) : Z := Z.lor a b.

(** ** Parsing *)

(** [strconv.ParseUint(s, 10, 16)]: one or more decimal digits, at most the
    largest uint16. *)
Definition ParseUint16 (s : string) : option Z :=
  match s with
  | EmptyString => None
  | _ => match parse_digits s 0 with
         | Some n => if n <=? 2 ^ 16 - 1 then Some n else None
         | None => None
         end
  end.

Definition ParseFeatureVersion (s : string) : Z :=
  match ParseUint16 s with
  | None => FeatureVersionEmpty
  | Some v => if negb (IsValid v) then FeatureVersionEmpty else v
  end.

(** ** The activated features *)

Record FeatureStates := mkFeatures {
  VMSharedDisks : bool;
  AllDisksArePVCs : bool;
  VMServiceClasslessVM : bool;
  VMNetworkUnitNumbers : bool
}.

Definition ActivatedFeatureVersion (f : FeatureStates) : Z :=
  let v := FeatureVersionBase in
  let v := if VMSharedDisks f then Set_ v FeatureVersionVMSharedDisks else v in
  let v := if AllDisksArePVCs f || VMSharedDisks f
           then Set_ v FeatureVersionAllDisksArePVCs else v in
  let v := if VMServiceClasslessVM f then Set_ v FeatureVersionTelcoVMServiceAPI else v in
  if VMNetworkUnitNumbers f then Set_ v FeatureVersionNICUnitNumbers else v.

(** ** The gate *)

Record NotUpgradedErr := mkNotUpgraded {
  Type_ : string;
  Object : string;
  Target : string
}.

Definition UpgradedToBuildVersionAnnotationKey : string :=
  "vmoperator.vmware.com/upgraded-to-build-version".
Definition UpgradedToSchemaVersionAnnotationKey : string :=
  "vmoperator.vmware.com/upgraded-to-schema-version".
Definition UpgradedToFeatureVersionAnnotationKey : string :=
  "vmoperator.vmware.com/upgraded-to-feature-version".

Definition annotation (a : gmap string string) (key : string) : string := default "" (a !! key).

(** The errors that are joined; none means upgraded. *)
Definition IsObjectUpgraded (buildVersion schemaVersion : string) (f : FeatureStates)
    (a : gmap string string) : list NotUpgradedErr :=
  let objBV := annotation a UpgradedToBuildVersionAnnotationKey in
  let objSV := annotation a UpgradedToSchemaVersionAnnotationKey in
  let objFV := ParseFeatureVersion (annotation a UpgradedToFeatureVersionAnnotationKey) in
  let tgtFV := ActivatedFeatureVersion f in
  (if bool_decide (objBV = "") || negb (bool_decide (objBV = buildVersion))
   then [mkNotUpgraded "buildVersion" objBV buildVersion] else []) ++
  (if bool_decide (objSV = "") || negb (bool_decide (objSV = schemaVersion))
   then [mkNotUpgraded "schemaVersion" objSV schemaVersion] else []) ++
  (if (objFV =? FeatureVersionEmpty) || negb (IsOrSuperset objFV tgtFV)
   then [mkNotUpgraded "featureVersion" (String objFV) (String tgtFV)] else []).

(** ** Lemmas *)

(** The bits outside [FeatureVersionAll] are those from the sixth on. *)
Lemma IsValid_spec a : 0 ≤ a < 2 ^ 16 → IsValid a = true ↔ 1 ≤ a ≤ 31.
Proof.
  intros Ha. unfold IsValid, FeatureVersionEmpty.
  change (not16 FeatureVersionAll) with (Z.shiftl (Z.ones 11) 5).
  assert (Z.land a (Z.shiftl (Z.ones 11) 5) = Z.shiftl (a / 32) 5) as ->.
  { apply Z.bits_inj'. intros i Hi. rewrite Z.land_spec, !Z.shiftl_spec by lia.
    change 32 with (2 ^ 5). rewrite <-Z.shiftr_div_pow2 by lia.
    destruct (decide (i < 5)).
    - rewrite !(Z.testbit_neg_r _ (i - 5)) by lia. apply andb_false_r.
    - rewrite Z.shiftr_spec by lia. replace (i - 5 + 5) with i by lia.
      destruct (decide (i < 16)).
      + rewrite Z.ones_spec_low, andb_true_r by lia. done.
      + rewrite Z.ones_spec_high, andb_false_r by lia. symmetry.
        destruct (decide (a = 0)) as [->|]; [apply Z.bits_0|].
        apply Z.bits_above_log2; [lia|]. apply Z.log2_lt_pow2; [lia|].
        eapply Z.lt_le_trans; [apply Ha|]. apply Z.pow_le_mono_r; lia. }
  rewrite Z.shiftl_mul_pow2 by lia. rewrite andb_true_iff, negb_true_iff, Z.eqb_neq, Z.eqb_eq.
  pose proof (Z.div_mod a 32). pose proof (Z.mod_pos_bound a 32). lia.
Qed.

Lemma ParseFeatureVersion_range s :
  ParseFeatureVersion s = FeatureVersionEmpty ∨ 1 ≤ ParseFeatureVersion s ≤ 31.
Proof.
  unfold ParseFeatureVersion, ParseUint16. destruct s as [|c s]; [by left|].
  destruct (parse_digits _ 0) as [n|] eqn:E; [|by left].
  apply parse_digits_nonneg in E; [|done]. destruct (n <=? _) eqn:Hn; [|by left].
  destruct (IsValid n) eqn:Hv; [right|by left]. bool_to_prop. simpl.
  apply IsValid_spec; [lia|done].
Qed.

(** A property of all valid masks, by computation. *)
Lemma valid_cases (P : Z → Prop) :
  Forall P (Z.of_nat <$> seq 1 31) → ∀ a, 1 ≤ a ≤ 31 → P a.
Proof.
  rewrite Forall_forall. intros HP a Ha. apply HP. apply list_elem_of_fmap.
  exists (Z.to_nat a). split; [lia|]. apply elem_of_seq. lia.
Qed.

Lemma features_Has_pow2 a i : 0 ≤ i → Has a (2 ^ i) = Z.testbit a i.
Proof.
  intros Hi. unfold Has. destruct (Z.testbit a i) eqn:E.
  - apply negb_true_iff, Z.eqb_neq. intros H0.
    assert (Z.testbit (Z.land a (2 ^ i)) i = false) as H1 by (by rewrite H0, Z.bits_0).
    rewrite Z.land_spec, Z.pow2_bits_true, E in H1 by done. done.
  - apply negb_false_iff, Z.eqb_eq, Z.bits_inj'. intros j Hj.
    rewrite Z.bits_0, Z.land_spec. destruct (decide (i = j)) as [->|]; [by rewrite E|].
    rewrite Z.pow2_bits_false by done. apply andb_false_r.
Qed.

(** ** Properties *)

(** A valid feature version survives printing and parsing, and whatever
    string is parsed, the result is a valid mask or empty. *)
Theorem feature_version_roundtrip (a : Z) (s : string) :
  0 ≤ a < 2 ^ 16 → IsValid a = true →
  ParseFeatureVersion (String a) = a ∧
  (ParseFeatureVersion s = FeatureVersionEmpty ∨ IsValid (ParseFeatureVersion s) = true).
Proof.
  intros Ha Hv%IsValid_spec; [|done]. split.
  - apply (valid_cases (λ a, ParseFeatureVersion (String a) = a)); [|done].
    apply (bool_decide_unpack _). vm_compute. exact I.
  - destruct (ParseFeatureVersion_range s) as [|Hr]; [by left|right].
    apply IsValid_spec; lia.
Qed.

(** IsOrSuperset tells whether every known feature of the second mask is
    in the first; the masks being equal is enough. *)
Theorem is_or_superset_bits (a b : Z) :
  IsOrSuperset a b = true ↔
  a = b ∨ ∀ i, 0 ≤ i < 5 → Z.testbit b i = true → Z.testbit a i = true.
Proof.
  unfold IsOrSuperset. destruct (a =? b) eqn:E; bool_to_prop; [naive_solver|].
  rewrite forallb_forall. setoid_rewrite <-list_elem_of_In.
  setoid_rewrite list_elem_of_filter. split.
  - intros Hall. right. intros i Hi Hb. rewrite <-features_Has_pow2 by lia.
    apply Hall. rewrite features_Has_pow2 by lia. split; [done|].
    assert (i = 0 ∨ i = 1 ∨ i = 2 ∨ i = 3 ∨ i = 4) as Hi5 by lia.
    destruct Hi5 as [->|[->|[->|[->| ->]]]]; by apply (bool_decide_unpack _).
  - intros [?|Hall] f [Hf Hin]; [done|].
    assert (∃ i, 0 ≤ i < 5 ∧ f = 2 ^ i) as (i & Hi & ->).
    { unfold FeatureVersions in Hin. rewrite !elem_of_cons, elem_of_nil in Hin.
      destruct Hin as [->|[->|[->|[->|[->|[]]]]]];
        [exists 0|exists 1|exists 2|exists 3|exists 4]; split; done || lia. }
    rewrite features_Has_pow2 in * by lia. auto.
Qed.

(** An object stamped with the build, schema and feature version of a
    configuration is upgraded for it, and stays upgraded when features are
    disabled later; if a feature is enabled that it was not stamped with, it is
    not. *)
Theorem upgrade_gate (bv sv : string) (f g : FeatureStates) (a : gmap string string) :
  bv ≠ "" → sv ≠ "" →
  a !! UpgradedToBuildVersionAnnotationKey = Some bv →
  a !! UpgradedToSchemaVersionAnnotationKey = Some sv →
  a !! UpgradedToFeatureVersionAnnotationKey = Some (String (ActivatedFeatureVersion g)) →
  IsObjectUpgraded bv sv f a = [] ↔
  (VMSharedDisks f → VMSharedDisks g) ∧
  (AllDisksArePVCs f → AllDisksArePVCs g ∨ VMSharedDisks g) ∧
  (VMServiceClasslessVM f → VMServiceClasslessVM g) ∧
  (VMNetworkUnitNumbers f → VMNetworkUnitNumbers g).
Proof.
  intros Hb Hs Ab As Af. unfold IsObjectUpgraded, annotation. rewrite Ab, As, Af. simpl.
  rewrite !(bool_decide_false (_ = "")), !bool_decide_true by done. simpl. clear Ab As Af.
  destruct f as [[] [] [] []], g as [[] [] [] []]; vm_compute; split; try tauto;
    intros; try done; naive_solver.
Qed.

Lemma feature_version_roundtrip_witness :
  ParseFeatureVersion (String 19) = 19 ∧
  (ParseFeatureVersion "32" = FeatureVersionEmpty ∨ IsValid (ParseFeatureVersion "32") = true).
Proof. apply (feature_version_roundtrip 19 "32"); [lia|reflexivity]. Defined.

Definition ex_annotations : gmap string string :=
  {[ UpgradedToBuildVersionAnnotationKey := "v1";
     UpgradedToSchemaVersionAnnotationKey := "v1alpha6";
     UpgradedToFeatureVersionAnnotationKey := "7" ]}.

Lemma upgrade_gate_witness :
  IsObjectUpgraded "v1" "v1alpha6" (mkFeatures false true false false) ex_annotations = [].
Proof.
  apply (upgrade_gate "v1" "v1alpha6" (mkFeatures false true false false)
           (mkFeatures true false false false)); try done. simpl. auto.
Defined.
