(* ===== verification/Hardware.v ===== *)
(** * Controllers and unit numbers

    api/v1alpha6/virtualmachine_hardware_types.go (the controller types and
    their limits), pkg/util/vmopv1/hardware.go (the [ControllerSpec] interface,
    the search for a unit number, the set of controllers of a VM).

    The Go interface is the class [ControllerSpec]; what its users rely on is
    [ControllerSpecLaws], discharged for every implementation.  A Kubernetes
    [sets.Set[int32]] is a Go map from int32 to the empty struct: a [gset Z]. *)

From S2P Require Import Prelude.
Local Open Scope Z_scope.

(** ** Controller types *)

(** The string type [VirtualControllerType]: its constants, the empty string
    and any other value. *)
Inductive VirtualControllerType :=
  | VirtualControllerTypeIDE
  | VirtualControllerTypeNVME
  | VirtualControllerTypeSCSI
  | VirtualControllerTypeSATA
  | NoControllerType
  | OtherControllerType (s : string).

#[global] Instance VirtualControllerType_eq_dec : EqDecision VirtualControllerType.
Proof. solve_decision. Defined.

#[global] Instance VirtualControllerType_countable : Countable VirtualControllerType.
Proof.
  apply (inj_countable'
    (λ t, match t with
          | VirtualControllerTypeIDE => inl 0%nat
          | VirtualControllerTypeNVME => inl 1%nat
          | VirtualControllerTypeSCSI => inl 2%nat
          | VirtualControllerTypeSATA => inl 3%nat
          | NoControllerType => inl 4%nat
          | OtherControllerType s => inr s
          end : nat + string)
    (λ x, match x with
          | inl 0%nat => VirtualControllerTypeIDE
          | inl 1%nat => VirtualControllerTypeNVME
          | inl 2%nat => VirtualControllerTypeSCSI
          | inl 3%nat => VirtualControllerTypeSATA
          | inl _ => NoControllerType
          | inr s => OtherControllerType s
          end)).
  by intros [].
Defined.

Definition type_MaxCount (t : VirtualControllerType) : Z :=
  match t with
  | VirtualControllerTypeIDE => 2
  | VirtualControllerTypeNVME | VirtualControllerTypeSATA | VirtualControllerTypeSCSI => 4
  | _ => 0
  end.

Inductive VirtualControllerSharingMode :=
  | VirtualControllerSharingModeNone
  | VirtualControllerSharingModePhysical
  | VirtualControllerSharingModeVirtual
  | NoSharingMode
  | OtherSharingMode (s : string).

#[global] Instance VirtualControllerSharingMode_eq_dec : EqDecision VirtualControllerSharingMode.
Proof. solve_decision. Defined.

Inductive SCSIControllerType :=
  | SCSIControllerTypeParaVirtualSCSI
  | SCSIControllerTypeBusLogic
  | SCSIControllerTypeLsiLogic
  | SCSIControllerTypeLsiLogicSAS
  | OtherSCSIControllerType (s : string).

#[global] Instance SCSIControllerType_eq_dec : EqDecision SCSIControllerType.
Proof. solve_decision. Defined.

(** ** The interface *)

(** [ControllerSpec], with the optional [firstUnitNumberer] extension: zero
    where the Go type does not implement it. *)
Class ControllerSpec (A : Type) := {
  MaxSlots : A → Z;
  MaxCount : A → Z;
  ReservedUnitNumber : A → Z;
  FirstUnitNumber : A → Z
}.

(** What the unit-number search relies on: the band of unit numbers does not
    start below zero and fits in an int32. *)
Class ControllerSpecLaws (A : Type) `{ControllerSpec A} : Prop := {
  FirstUnitNumber_nonneg (c : A) : 0 ≤ FirstUnitNumber c;
  MaxSlots_nonneg (c : A) : 0 ≤ MaxSlots c;
  band_int32 (c : A) : in_int32 (FirstUnitNumber c + MaxSlots c)
}.

Record IDEControllerSpec := mkIDE { ide_BusNumber : Z }.
Record NVMEControllerSpec := mkNVME {
  nvme_BusNumber : Z;
  nvme_SharingMode : VirtualControllerSharingMode
}.
Record SATAControllerSpec := mkSATA { sata_BusNumber : Z }.
Record SCSIControllerSpec := mkSCSI {
  scsi_BusNumber : Z;
  scsi_SharingMode : VirtualControllerSharingMode;
  scsi_Type : SCSIControllerType
}.
Record NICBusSpec := mkNICBus {}.

#[global] Instance IDEControllerSpec_eq_dec : EqDecision IDEControllerSpec.
Proof. solve_decision. Defined.
#[global] Instance NVMEControllerSpec_eq_dec : EqDecision NVMEControllerSpec.
Proof. solve_decision. Defined.
#[global] Instance SATAControllerSpec_eq_dec : EqDecision SATAControllerSpec.
Proof. solve_decision. Defined.
#[global] Instance SCSIControllerSpec_eq_dec : EqDecision SCSIControllerSpec.
Proof. solve_decision. Defined.

Definition NICUnitNumberFirst : Z := 7.
Definition NICUnitNumberMax : Z := 16.

#[global] Instance IDE_spec : ControllerSpec IDEControllerSpec := {
  MaxSlots _ := 2;
  MaxCount _ := type_MaxCount VirtualControllerTypeIDE;
  ReservedUnitNumber _ := -1;
  FirstUnitNumber _ := 0
}.

#[global] Instance NVME_spec : ControllerSpec NVMEControllerSpec := {
  MaxSlots _ := 64;
  MaxCount _ := type_MaxCount VirtualControllerTypeNVME;
  ReservedUnitNumber _ := -1;
  FirstUnitNumber _ := 0
}.

#[global] Instance SATA_spec : ControllerSpec SATAControllerSpec := {
  MaxSlots _ := 30;
  MaxCount _ := type_MaxCount VirtualControllerTypeSATA;
  ReservedUnitNumber _ := -1;
  FirstUnitNumber _ := 0
}.

#[global] Instance SCSI_spec : ControllerSpec SCSIControllerSpec := {
  MaxSlots c := match scsi_Type c with
                | SCSIControllerTypeParaVirtualSCSI => 65
                | SCSIControllerTypeBusLogic | SCSIControllerTypeLsiLogic
                | SCSIControllerTypeLsiLogicSAS => 16
                | OtherSCSIControllerType _ => 0
                end;
  MaxCount _ := type_MaxCount VirtualControllerTypeSCSI;
  ReservedUnitNumber _ := 7;
  FirstUnitNumber _ := 0
}.

#[global] Instance NICBus_spec : ControllerSpec NICBusSpec := {
  MaxSlots _ := NICUnitNumberMax - NICUnitNumberFirst + 1;
  MaxCount _ := 1;
  ReservedUnitNumber _ := -1;
  FirstUnitNumber _ := NICUnitNumberFirst
}.

#[global] Instance IDE_laws : ControllerSpecLaws IDEControllerSpec.
Proof. by split; intros []. Qed.
#[global] Instance NVME_laws : ControllerSpecLaws NVMEControllerSpec.
Proof. by split; intros []. Qed.
#[global] Instance SATA_laws : ControllerSpecLaws SATAControllerSpec.
Proof. by split; intros []. Qed.
#[global] Instance SCSI_laws : ControllerSpecLaws SCSIControllerSpec.
Proof. by split; intros [? ? []]. Qed.
#[global] Instance NICBus_laws : ControllerSpecLaws NICBusSpec.
Proof. by split; intros []. Qed.

(** ** A dynamic value of the interface *)

Inductive Controller :=
  | SCSIController (c : SCSIControllerSpec)
  | SATAController (c : SATAControllerSpec)
  | NVMEController (c : NVMEControllerSpec)
  | IDEController (c : IDEControllerSpec)
  | NICBus (c : NICBusSpec).

#[global] Instance Controller_spec : ControllerSpec Controller := {
  MaxSlots c := match c with
                | SCSIController c => MaxSlots c | SATAController c => MaxSlots c
                | NVMEController c => MaxSlots c | IDEController c => MaxSlots c
                | NICBus c => MaxSlots c end;
  MaxCount c := match c with
                | SCSIController c => MaxCount c | SATAController c => MaxCount c
                | NVMEController c => MaxCount c | IDEController c => MaxCount c
                | NICBus c => MaxCount c end;
  ReservedUnitNumber c := match c with
                | SCSIController c => ReservedUnitNumber c | SATAController c => ReservedUnitNumber c
                | NVMEController c => ReservedUnitNumber c | IDEController c => ReservedUnitNumber c
                | NICBus c => ReservedUnitNumber c end;
  FirstUnitNumber c := match c with
                | SCSIController c => FirstUnitNumber c | SATAController c => FirstUnitNumber c
                | NVMEController c => FirstUnitNumber c | IDEController c => FirstUnitNumber c
                | NICBus c => FirstUnitNumber c end
}.

#[global] Instance Controller_laws : ControllerSpecLaws Controller.
Proof. by split; intros [[? ? []]|[]|[]|[]|[]]. Qed.

(** ** The search for a unit number *)

Section NextAvailable.
Context {A : Type} `{ControllerSpecLaws A}.

(** The loop of [NextAvailableUnitNumber]; [fuel] is the number of unit
    numbers left in the band. *)
Fixpoint scan_band (fuel : nat) (unitNumber : Z) (c : A) (occupiedSlots : gset Z) : Z :=
  match fuel with
  | O => -1
  | S fuel' =>
    if unitNumber <? wrap32 (FirstUnitNumber c + MaxSlots c) then
      if bool_decide (unitNumber ∉ occupiedSlots) && negb (unitNumber =? ReservedUnitNumber c)
      then unitNumber
      else scan_band fuel' (wrap32 (unitNumber + 1)) c occupiedSlots
    else -1
  end.

Definition NextAvailableUnitNumber (controller : option A) (occupiedSlots : gset Z) : Z :=
  match controller with
  | None => -1
  | Some c => scan_band (Z.to_nat (MaxSlots c)) (FirstUnitNumber c) c occupiedSlots
  end.

(** [u] is in the controller's band, not reserved, and free. *)
Definition assignable (c : A) (u : Z) : Prop :=
  FirstUnitNumber c ≤ u < FirstUnitNumber c + MaxSlots c ∧ u ≠ ReservedUnitNumber c.

Lemma scan_band_spec fuel u c occ :
  Z.of_nat fuel = FirstUnitNumber c + MaxSlots c - u → FirstUnitNumber c ≤ u →
  let r := scan_band fuel u c occ in
  (r = -1 ∧ ∀ v, assignable c v → u ≤ v → v ∈ occ) ∨
  (assignable c r ∧ u ≤ r ∧ ¬ (r ∈ occ) ∧ ∀ v, assignable c v → u ≤ v < r → v ∈ occ).
Proof using Type*.
  revert u. induction fuel as [|fuel IH]; intros u Hf Hu; simpl.
  { left. split; [done|]. intros v [? _] ?. lia. }
  pose proof (FirstUnitNumber_nonneg c). pose proof (MaxSlots_nonneg c).
  pose proof (band_int32 c) as Hb. rewrite (wrap32_id _ Hb). unfold in_int32 in Hb.
  rewrite (proj2 (Z.ltb_lt _ _)) by lia.
  rewrite wrap32_id by (unfold in_int32; lia).
  destruct (bool_decide (u ∉ occ) && negb (u =? ReservedUnitNumber c)) eqn:E.
  - right. bool_to_prop. split_and!; [split; [lia|done]|lia|done|lia].
  - assert (∀ v, assignable c v → v = u → v ∈ occ) as Hhere.
    { intros v [_ Hr] ->. apply andb_false_iff in E as [E|E]; bool_to_prop; [|done].
      by destruct (decide (u ∈ occ)). }
    destruct (IH (u + 1)) as [[Hr Hall]|(? & ? & ? & Hall)]; [lia|lia|left|right].
    + split; [done|]. intros v Hv ?. destruct (decide (v = u)) as [?|]; [by apply Hhere|].
      apply Hall; [done|lia].
    + split_and!; [done|lia|done|]. intros v Hv ?.
      destruct (decide (v = u)) as [?|]; [by apply Hhere|]. apply Hall; [done|lia].
Qed.

(** Either there is no free unit number and the result is minus one, or the
    result is the least free one. *)
Lemma next_available_cases c occ :
  (NextAvailableUnitNumber (Some c) occ = -1 ∧ ∀ v, assignable c v → v ∈ occ) ∨
  (assignable c (NextAvailableUnitNumber (Some c) occ) ∧
   0 ≤ NextAvailableUnitNumber (Some c) occ ∧ ¬ (NextAvailableUnitNumber (Some c) occ ∈ occ) ∧
   ∀ v, assignable c v → v < NextAvailableUnitNumber (Some c) occ → v ∈ occ).
Proof using Type*.
  unfold NextAvailableUnitNumber.
  pose proof (FirstUnitNumber_nonneg c). pose proof (MaxSlots_nonneg c).
  destruct (scan_band_spec (Z.to_nat (MaxSlots c)) (FirstUnitNumber c) c occ)
    as [[Hr Hall]|(Hr & ? & ? & Hall)]; [lia|lia|left|right].
  - split; [done|]. intros v Hv. apply Hall; [done|]. destruct Hv. lia.
  - split_and!; [done|lia|done|]. intros v Hv ?. apply Hall; [done|].
    destruct Hv. lia.
Qed.
End NextAvailable.

(** ** Controller identities *)

Record ControllerID := mkControllerID {
  cid_Type : VirtualControllerType;
  cid_BusNumber : Z
}.

#[global] Instance ControllerID_eq_dec : EqDecision ControllerID.
Proof. solve_decision. Defined.

#[global] Instance ControllerID_countable : Countable ControllerID.
Proof.
  apply (inj_countable' (λ i, (cid_Type i, cid_BusNumber i)) (λ p, mkControllerID p.1 p.2)).
  by intros [].
Defined.

Definition GenerateControllerID (controller : option Controller) : ControllerID :=
  match controller with
  | None => mkControllerID NoControllerType (-1)
  | Some (SCSIController c) => mkControllerID VirtualControllerTypeSCSI (scsi_BusNumber c)
  | Some (SATAController c) => mkControllerID VirtualControllerTypeSATA (sata_BusNumber c)
  | Some (NVMEController c) => mkControllerID VirtualControllerTypeNVME (nvme_BusNumber c)
  | Some (IDEController c) => mkControllerID VirtualControllerTypeIDE (ide_BusNumber c)
  | Some (NICBus _) => mkControllerID NoControllerType (-1)
  end.

Definition GetControllerSharingMode (controller : Controller) : VirtualControllerSharingMode :=
  match controller with
  | SCSIController c => scsi_SharingMode c
  | NVMEController c => nvme_SharingMode c
  | _ => VirtualControllerSharingModeNone
  end.

Definition CreateNewController (controllerType : VirtualControllerType) (busNumber : Z)
    (sharingMode : VirtualControllerSharingMode) : option Controller :=
  match controllerType with
  | VirtualControllerTypeSCSI =>
    Some (SCSIController (mkSCSI busNumber sharingMode SCSIControllerTypeParaVirtualSCSI))
  | VirtualControllerTypeSATA => Some (SATAController (mkSATA busNumber))
  | VirtualControllerTypeNVME => Some (NVMEController (mkNVME busNumber sharingMode))
  | VirtualControllerTypeIDE => Some (IDEController (mkIDE busNumber))
  | _ => None
  end.

(** ** The virtual machine's hardware *)

Inductive VolumeApplicationType :=
  | VolumeApplicationTypeOracleRAC
  | VolumeApplicationTypeMicrosoftWSFC
  | OtherApplicationType (s : string).

#[global] Instance VolumeApplicationType_eq_dec : EqDecision VolumeApplicationType.
Proof. solve_decision. Defined.

(** The fields of a volume the mutators read or write; the mode fields are
    strings, empty when unset. *)
Record VirtualMachineVolume := mkVolume {
  vol_Name : string;
  ApplicationType : VolumeApplicationType;
  vol_ControllerType : VirtualControllerType;
  vol_ControllerBusNumber : option Z;
  vol_UnitNumber : option Z;
  DiskMode : string;
  SharingMode : string
}.

#[global] Instance VirtualMachineVolume_eq_dec : EqDecision VirtualMachineVolume.
Proof. solve_decision. Defined.

Record VirtualMachineCdromSpec := mkCdrom {
  cdrom_Name : string;
  cdrom_ControllerType : VirtualControllerType;
  cdrom_ControllerBusNumber : option Z;
  cdrom_UnitNumber : option Z
}.

#[global] Instance VirtualMachineCdromSpec_eq_dec : EqDecision VirtualMachineCdromSpec.
Proof. solve_decision. Defined.

Record VirtualMachineHardwareSpec := mkHardware {
  SCSIControllers : list SCSIControllerSpec;
  SATAControllers : list SATAControllerSpec;
  NVMEControllers : list NVMEControllerSpec;
  IDEControllers : list IDEControllerSpec;
  Cdrom : list VirtualMachineCdromSpec
}.

#[global] Instance VirtualMachineHardwareSpec_eq_dec : EqDecision VirtualMachineHardwareSpec.
Proof. solve_decision. Defined.

Definition DefaultControllerSharingMode (vol : VirtualMachineVolume) :
    VirtualControllerSharingMode :=
  if decide (ApplicationType vol = VolumeApplicationTypeMicrosoftWSFC)
  then VirtualControllerSharingModePhysical
  else VirtualControllerSharingModeNone.

(** ** The controllers of a VM, by type and bus number *)

Abbreviation ControllerSpecs := (gmap VirtualControllerType (gmap Z Controller)).

Definition Get (c : ControllerSpecs) (controllerType : VirtualControllerType) (busNumber : Z) :
    option Controller :=
  match c !! controllerType with
  | Some controllers => controllers !! busNumber
  | None => None
  end.

Definition Set_ (controllerType : VirtualControllerType) (busNumber : Z) (controller : Controller)
    (c : ControllerSpecs) : ControllerSpecs :=
  <[controllerType := <[busNumber := controller]> (default ∅ (c !! controllerType))]> c.

Definition CountControllers (c : ControllerSpecs) (controllerType : VirtualControllerType) : Z :=
  match c !! controllerType with
  | None => 0
  | Some controllers => Z.of_nat (size controllers)
  end.

(** The controllers of the hardware spec, in the order they are recorded. *)
Definition hw_controllers (hw : VirtualMachineHardwareSpec) : list Controller :=
  (SCSIController <$> SCSIControllers hw) ++ (SATAController <$> SATAControllers hw) ++
  (NVMEController <$> NVMEControllers hw) ++ (IDEController <$> IDEControllers hw).

Definition set_controller (cs : ControllerSpecs) (c : Controller) : ControllerSpecs :=
  let id := GenerateControllerID (Some c) in Set_ (cid_Type id) (cid_BusNumber id) c cs.

Definition NewControllerSpecs (hw : option VirtualMachineHardwareSpec) : ControllerSpecs :=
  match hw with
  | None => ∅
  | Some hw => foldl set_controller ∅ (hw_controllers hw)
  end.

Lemma Get_Set t b t' b' c cs :
  Get (Set_ t b c cs) t' b' = if decide (t' = t ∧ b' = b) then Some c else Get cs t' b'.
Proof.
  unfold Get, Set_. destruct (decide (t' = t)) as [->|Hne].
  - rewrite lookup_insert_eq. destruct (decide (b' = b)) as [->|].
    + by rewrite lookup_insert_eq, decide_True.
    + rewrite lookup_insert_ne, decide_False by naive_solver.
      destruct (cs !! t); simpl; [done|]. apply lookup_empty.
  - rewrite lookup_insert_ne, decide_False by naive_solver. done.
Qed.

Lemma Count_Set t b t' c cs :
  CountControllers (Set_ t b c cs) t' =
  CountControllers cs t' + (if decide (t' = t ∧ Get cs t b = None) then 1 else 0).
Proof.
  unfold CountControllers, Set_, Get. destruct (decide (t' = t)) as [->|Hne].
  - rewrite lookup_insert_eq. destruct (cs !! t) as [m|]; simpl.
    + destruct (m !! b) eqn:E.
      * rewrite map_size_insert_Some by done. rewrite decide_False by naive_solver. lia.
      * rewrite map_size_insert_None by done. rewrite decide_True by done. lia.
    + rewrite decide_True by done. rewrite map_size_insert_None by apply lookup_empty.
      rewrite map_size_empty. lia.
  - rewrite lookup_insert_ne, decide_False by naive_solver. lia.
Qed.
