(* ===== verification/NicMutator.v ===== *)
(** * Unit numbers of network interfaces

    webhooks/virtualmachine/mutation/virtualmachine_mutator_network_unit_numbers.go:
    on update of an upgraded VM, interfaces without a unit number get the next
    free one of the ethernet band.  The interfaces of the source are pointers
    into the spec; here they are indices. *)

From S2P Require Import Prelude Hardware Features.
Local Open Scope Z_scope.

Record VirtualMachineNetworkInterfaceSpec := mkInterface {
  if_Name : string;
  if_UnitNumber : option Z
}.

Definition set_unit (u : Z) (i : VirtualMachineNetworkInterfaceSpec) :
    VirtualMachineNetworkInterfaceSpec :=
  mkInterface (if_Name i) (Some u).

(** First phase: the slots in use and the indices of the others. *)
Fixpoint collect (i : nat) (ifs : list VirtualMachineNetworkInterfaceSpec)
    (st : gset Z * list nat) : gset Z * list nat :=
  match ifs with
  | [] => st
  | f :: rest =>
    let '(occupiedSlots, unnumbered) := st in
    collect (S i) rest
      (match if_UnitNumber f with
       | Some u => ({[u]} ∪ occupiedSlots, unnumbered)
       | None => (occupiedSlots, unnumbered ++ [i])
       end)
  end.

(** Second phase. *)
Fixpoint number (unnumbered : list nat) (occupiedSlots : gset Z)
    (ifs : list VirtualMachineNetworkInterfaceSpec) (wasMutated : bool) :
    list VirtualMachineNetworkInterfaceSpec * bool :=
  match unnumbered with
  | [] => (ifs, wasMutated)
  | i :: rest =>
    let nextUnit := NextAvailableUnitNumber (Some (mkNICBus)) occupiedSlots in
    if nextUnit <? 0 then number rest occupiedSlots ifs wasMutated
    else number rest ({[nextUnit]} ∪ occupiedSlots) (alter (set_unit nextUnit) i ifs) true
  end.

Definition MutateNICUnitNumbersOnUpdate (buildVersion schemaVersion : string)
    (features : FeatureStates) (isUpdate : bool) (annotations : gmap string string)
    (network : option (list VirtualMachineNetworkInterfaceSpec)) :
    option (list VirtualMachineNetworkInterfaceSpec) * bool :=
  if negb (VMNetworkUnitNumbers features) then (network, false)
  else if negb isUpdate then (network, false)
  else match IsObjectUpgraded buildVersion schemaVersion features annotations with
  | _ :: _ => (network, false)
  | [] =>
    match network with
    | None | Some [] => (network, false)
    | Some ifs =>
      let '(occupiedSlots, unnumbered) := collect 0 ifs (∅, []) in
      let '(ifs', wasMutated) := number unnumbered occupiedSlots ifs false in
      (Some ifs', wasMutated)
    end
  end.

(** ** Lemmas *)

Definition slots (ifs : list VirtualMachineNetworkInterfaceSpec) : gset Z :=
  list_to_set (omap if_UnitNumber ifs).

Lemma elem_of_slots ifs u :
  u ∈ slots ifs ↔ ∃ i f, ifs !! i = Some f ∧ if_UnitNumber f = Some u.
Proof.
  unfold slots. rewrite elem_of_list_to_set, list_elem_of_omap. split.
  - intros (f & [i Hi]%list_elem_of_lookup & Hf). eauto.
  - intros (i & f & Hi & Hf). exists f. split; [|done]. by eapply list_elem_of_lookup_2.
Qed.

(** The first phase finds the slots in use and the indices without one. *)
Lemma collect_spec ifs i occ un :
  NoDup un → (∀ j, j ∈ un → (j < i)%nat) →
  let '(occ', un') := collect i ifs (occ, un) in
  occ' = slots ifs ∪ occ ∧ NoDup un' ∧
  ∀ j, j ∈ un' ↔ j ∈ un ∨ ∃ k f, j = (i + k)%nat ∧ ifs !! k = Some f ∧ if_UnitNumber f = None.
Proof.
  revert i occ un. induction ifs as [|f ifs IH]; intros i occ un Hnd Hlt; simpl.
  { split_and!; [set_solver|done|]. intros j. split; [by left|]. by intros [?|(k & f & _ & ? & _)]. }
  destruct (if_UnitNumber f) as [u|] eqn:Hf.
  - specialize (IH (S i) ({[u]} ∪ occ) un Hnd ltac:(intros j Hj; specialize (Hlt j Hj); lia)).
    destruct (collect (S i) ifs ({[u]} ∪ occ, un)) as [occ' un'].
    destruct IH as (-> & ? & Hun). split_and!; [|done|].
    + unfold slots. simpl. rewrite Hf. simpl. set_solver.
    + intros j. rewrite Hun. apply or_iff_compat_l. split.
      * intros (k & g & -> & ? & ?). exists (S k), g. split_and!; [lia|done..].
      * intros ([|k] & g & -> & ? & ?); simplify_eq/=. exists k, g. split_and!; [lia|done..].
  - specialize (IH (S i) occ (un ++ [i])).
    destruct (collect (S i) ifs (occ, un ++ [i])) as [occ' un'].
    destruct IH as (-> & ? & Hun).
    { apply NoDup_app. split_and!; [done| |apply NoDup_singleton].
      intros x Hx ->%list_elem_of_singleton. specialize (Hlt i Hx). lia. }
    { intros j [Hj| ->%list_elem_of_singleton]%elem_of_app; [specialize (Hlt j Hj)|]; lia. }
    split_and!; [|done|].
    + unfold slots. simpl. by rewrite Hf.
    + intros j. rewrite Hun, elem_of_app, list_elem_of_singleton. split.
      * intros [[?| ->]|(k & g & -> & ? & ?)]; [by left|right; exists 0%nat, f|right; exists (S k), g];
          split_and!; done || lia.
      * intros [?|([|k] & g & -> & ? & ?)]; [by left; left|left; right; lia|right].
        exists k, g. split_and!; [lia|done..].
Qed.

(** The state of the second phase: [l0] at its start, [l] now. *)
Record number_inv (l0 l : list VirtualMachineNetworkInterfaceSpec) (ids : list nat)
    (occ : gset Z) (mut : bool) : Prop := {
  ni_occ : occ = slots l;
  ni_keep i f : l0 !! i = Some f → is_Some (if_UnitNumber f) ∨ i ∈ ids → l !! i = Some f;
  ni_name i f : l0 !! i = Some f → ∃ g, l !! i = Some g ∧ if_Name g = if_Name f;
  ni_len : length l = length l0;
  ni_todo i f : i ∈ ids → l0 !! i = Some f → if_UnitNumber f = None;
  ni_uniq i j f g h u : i ≠ j → l0 !! i = Some f → if_UnitNumber f = None →
    l !! i = Some g → if_UnitNumber g = Some u → l !! j = Some h → if_UnitNumber h ≠ Some u;
  ni_band i f g u : l0 !! i = Some f → if_UnitNumber f = None → l !! i = Some g →
    if_UnitNumber g = Some u → NICUnitNumberFirst ≤ u ≤ NICUnitNumberMax;
  ni_mut : mut = true ↔ l ≠ l0
}.

Lemma slots_alter l i f u :
  l !! i = Some f → if_UnitNumber f = None → slots (alter (set_unit u) i l) = {[u]} ∪ slots l.
Proof.
  intros Hi Hf. apply set_eq. intros v. rewrite elem_of_union, elem_of_singleton, !elem_of_slots.
  split.
  - intros (j & g & Hj & Hg). destruct (decide (j = i)) as [->|].
    + rewrite list_lookup_alter_eq, Hi in Hj. simplify_eq/=. by left.
    + rewrite list_lookup_alter_ne in Hj by done. right. eauto.
  - intros [->|(j & g & Hj & Hg)].
    + exists i, (set_unit u f). by rewrite list_lookup_alter_eq, Hi.
    + exists j, g. rewrite list_lookup_alter_ne; [done|]. intros <-. congruence.
Qed.

Lemma number_step l0 l i f ids occ mut u :
  number_inv l0 l (i :: ids) occ mut → i ∉ ids → l0 !! i = Some f →
  u ∉ occ → NICUnitNumberFirst ≤ u ≤ NICUnitNumberMax →
  number_inv l0 (alter (set_unit u) i l) ids ({[u]} ∪ occ) true.
Proof.
  intros [-> Hk Hn Hl Ht Hu Hb Hm] Hi Hf Hocc Hband.
  assert (if_UnitNumber f = None) as HfN by (apply (Ht i); [left|done]).
  assert (l !! i = Some f) as Hli by (apply Hk; [done|right; left]).
  assert (alter (set_unit u) i l !! i = Some (set_unit u f)) as Hnew
    by (by rewrite list_lookup_alter_eq, Hli).
  split.
  - by rewrite (slots_alter _ _ f).
  - intros j g Hj Hor. destruct (decide (j = i)) as [->|].
    + exfalso. simplify_eq. destruct Hor as [[? ?]|]; [congruence|done].
    + rewrite list_lookup_alter_ne by done. apply Hk; [done|].
      destruct Hor; [by left|right; by right].
  - intros j g Hj. destruct (decide (j = i)) as [->|].
    + simplify_eq. eauto.
    + rewrite list_lookup_alter_ne by done. by apply Hn.
  - by rewrite length_alter.
  - intros j g Hj. apply Ht. by right.
  - intros j k g g' h v Hjk Hj HgN. destruct (decide (j = i)) as [->|].
    + rewrite Hnew. intros [= <-] [= <-]. rewrite list_lookup_alter_ne by done. intros Hh Hv.
      apply Hocc, elem_of_slots. eauto.
    + rewrite list_lookup_alter_ne by done. intros Hg' Hv. destruct (decide (k = i)) as [->|].
      * rewrite Hnew. intros [= <-] [= ->]. apply Hocc, elem_of_slots. eauto.
      * rewrite list_lookup_alter_ne by done. by eapply Hu.
  - intros j g g' v Hj HgN. destruct (decide (j = i)) as [->|].
    + rewrite Hnew. by intros [= <-] [= <-].
    + rewrite list_lookup_alter_ne by done. by eapply Hb.
  - split; [|done]. intros _ Heq. rewrite <-Heq in Hf. rewrite Hnew in Hf.
    injection Hf as Hf. apply (f_equal if_UnitNumber) in Hf. simpl in Hf. congruence.
Qed.

Lemma number_inv_skip l0 l i ids occ mut :
  number_inv l0 l (i :: ids) occ mut → number_inv l0 l ids occ mut.
Proof.
  intros [Ho Hk Hn Hl Ht Hu Hb Hm]. split; try done.
  - intros j f Hj [?|?]; (apply Hk; [done|]); [by left|right; by right].
  - intros j f Hj. apply Ht. by right.
Qed.

Lemma nic_next occ :
  (NextAvailableUnitNumber (Some mkNICBus) occ = -1 ∧
     ∀ u, NICUnitNumberFirst ≤ u ≤ NICUnitNumberMax → u ∈ occ) ∨
  (¬ (NextAvailableUnitNumber (Some mkNICBus) occ ∈ occ) ∧
   NICUnitNumberFirst ≤ NextAvailableUnitNumber (Some mkNICBus) occ ≤ NICUnitNumberMax).
Proof.
  unfold NICUnitNumberFirst, NICUnitNumberMax.
  destruct (next_available_cases mkNICBus occ) as [[-> Hall]|((Hr & _) & _ & Hn & _)].
  - left. split; [done|]. intros u Hu. apply Hall. split; simpl; unfold NICUnitNumberFirst,
      NICUnitNumberMax; lia.
  - right. split; [done|]. cbn [FirstUnitNumber MaxSlots NICBus_spec] in Hr.
    unfold NICUnitNumberFirst, NICUnitNumberMax in Hr. lia.
Qed.

Lemma number_ok ids l0 l occ mut :
  number_inv l0 l ids occ mut → NoDup ids → (∀ i, i ∈ ids → (i < length l0)%nat) →
  ∃ occ', number_inv l0 (number ids occ l mut).1 [] occ' (number ids occ l mut).2.
Proof.
  revert l occ mut. induction ids as [|i ids IH]; intros l occ mut Hi Hnd Hlt; cbn [number]; [eauto|].
  apply NoDup_cons in Hnd as [Hni Hnd].
  assert (∀ j, j ∈ ids → (j < length l0)%nat) as Hlt' by (intros j Hj; apply Hlt; by right).
  destruct (lookup_lt_is_Some_2 l0 i) as [f Hf]; [apply Hlt; by left|].
  destruct (nic_next occ) as [[-> _]|[Hn Hb]].
  - simpl. apply IH; [by eapply number_inv_skip|done|done].
  - rewrite (proj2 (Z.ltb_ge _ _)) by (unfold NICUnitNumberFirst in Hb; lia).
    apply IH; [by eapply number_step|done|done].
Qed.

(** When nothing is left to number in the band, ten slots are in use. *)
Lemma band_full (occ : gset Z) :
  (∀ u, NICUnitNumberFirst ≤ u ≤ NICUnitNumberMax → u ∈ occ) → (10 ≤ size occ)%nat.
Proof.
  intros Hall. unfold NICUnitNumberFirst, NICUnitNumberMax in Hall.
  transitivity (size (list_to_set (seqZ 7 10) : gset Z)); [by vm_compute|].
  apply subseteq_size. intros u. rewrite elem_of_list_to_set, elem_of_seqZ. intros. apply Hall. lia.
Qed.

Lemma size_slots ifs i f :
  ifs !! i = Some f → if_UnitNumber f = None → (size (slots ifs) < length ifs)%nat.
Proof.
  intros Hi Hf. unfold slots.
  assert (length (omap if_UnitNumber ifs) < length ifs)%nat as Hlen.
  { revert i Hi. induction ifs as [|g ifs IH]; [done|].
    intros [|i] Hi; [injection Hi as ->|change (ifs !! i = Some f) in Hi].
    - rewrite omap_cons, Hf. simpl. pose proof (length_omap_le if_UnitNumber ifs). lia.
    - specialize (IH i Hi). rewrite omap_cons. destruct (if_UnitNumber g); simpl; lia. }
  eapply Nat.le_lt_trans; [|exact Hlen]. clear Hlen.
  induction (omap if_UnitNumber ifs) as [|u l IH]; [by rewrite list_to_set_nil, size_empty|].
  rewrite list_to_set_cons, size_union_alt, size_singleton. simpl. apply le_n_S.
  etrans; [|exact IH]. apply subseteq_size. set_solver.
Qed.

(** With at most ten interfaces, every one of them gets a number. *)
Lemma number_all ids l0 l occ mut :
  number_inv l0 l ids occ mut → NoDup ids → (∀ i, i ∈ ids → (i < length l0)%nat) →
  (length l0 ≤ 10)%nat →
  (∀ i f, l !! i = Some f → if_UnitNumber f = None → i ∈ ids) →
  ∀ i f, (number ids occ l mut).1 !! i = Some f → if_UnitNumber f ≠ None.
Proof.
  revert l occ mut. induction ids as [|i ids IH]; intros l occ mut Hi Hnd Hlt H10 Hn; cbn [number].
  { intros i f Hf HN. by eapply not_elem_of_nil, Hn. }
  apply NoDup_cons in Hnd as [Hni Hnd].
  assert (∀ j, j ∈ ids → (j < length l0)%nat) as Hlt' by (intros j Hj; apply Hlt; by right).
  destruct (lookup_lt_is_Some_2 l0 i) as [f Hf]; [apply Hlt; by left|].
  assert (l !! i = Some f ∧ if_UnitNumber f = None) as [Hli HfN].
  { split; [apply (ni_keep _ _ _ _ _ Hi); [done|right; by left]|].
    apply (ni_todo _ _ _ _ _ Hi i); [by left|done]. }
  destruct (nic_next occ) as [[_ Hall]|[Hno Hb]].
  - exfalso. apply band_full in Hall. rewrite (ni_occ _ _ _ _ _ Hi) in Hall.
    pose proof (size_slots l i f Hli HfN). rewrite (ni_len _ _ _ _ _ Hi) in *. lia.
  - rewrite (proj2 (Z.ltb_ge _ _)) by (unfold NICUnitNumberFirst in Hb; lia).
    apply IH; try done; [by eapply number_step|].
    intros j g. destruct (decide (j = i)) as [->|].
    + rewrite list_lookup_alter_eq, Hli. by intros [= <-].
    + rewrite list_lookup_alter_ne by done. intros Hj HgN.
      by destruct (elem_of_cons ids j i) as [[?|?] _]; [by eapply Hn|..].
Qed.

Lemma number_inv_start ifs un :
  (∀ j, j ∈ un ↔ ∃ f, ifs !! j = Some f ∧ if_UnitNumber f = None) →
  number_inv ifs ifs un (slots ifs) false.
Proof.
  intros Hun. split; try done; try (by intros; eauto).
  - intros i f Hi Hf. apply Hun in Hi as (g & ? & ?). naive_solver.
  - intros i j f g h u _ Hi Hf Hg Hu. by simplify_eq.
  - intros i f g u Hi Hf Hg Hu. by simplify_eq.
Qed.

(** ** Properties *)

(** The NIC mutator keeps names and explicit unit numbers, the numbers it
    assigns lie in the ethernet band and are shared with no other interface,
    and it reports a mutation exactly when something changed. *)
Theorem nic_unit_numbers_unique (bv sv : string) (fs : FeatureStates) (isUpdate : bool)
    (a : gmap string string) (ifs : list VirtualMachineNetworkInterfaceSpec) :
  let '(res, mutated) := MutateNICUnitNumbersOnUpdate bv sv fs isUpdate a (Some ifs) in
  ∃ ifs', res = Some ifs' ∧ length ifs' = length ifs ∧
    (mutated = true ↔ ifs' ≠ ifs) ∧
    (∀ i f, ifs !! i = Some f → ∃ g, ifs' !! i = Some g ∧ if_Name g = if_Name f ∧
       (is_Some (if_UnitNumber f) → g = f)) ∧
    (∀ i j f g h u, i ≠ j → ifs !! i = Some f → if_UnitNumber f = None →
       ifs' !! i = Some g → if_UnitNumber g = Some u → ifs' !! j = Some h →
       if_UnitNumber h ≠ Some u ∧ NICUnitNumberFirst ≤ u ≤ NICUnitNumberMax).
Proof.
  assert (∃ ifs', Some ifs = Some ifs' ∧ length ifs' = length ifs ∧
    (false = true ↔ ifs' ≠ ifs) ∧
    (∀ i f, ifs !! i = Some f → ∃ g, ifs' !! i = Some g ∧ if_Name g = if_Name f ∧
       (is_Some (if_UnitNumber f) → g = f)) ∧
    (∀ i j f g h u, i ≠ j → ifs !! i = Some f → if_UnitNumber f = None →
       ifs' !! i = Some g → if_UnitNumber g = Some u → ifs' !! j = Some h →
       if_UnitNumber h ≠ Some u ∧ NICUnitNumberFirst ≤ u ≤ NICUnitNumberMax)) as Hsame.
  { exists ifs. split_and!; try done; naive_solver. }
  unfold MutateNICUnitNumbersOnUpdate.
  destruct (VMNetworkUnitNumbers fs); [|done]. destruct isUpdate; [|done].
  destruct (IsObjectUpgraded bv sv fs a); [|done].
  destruct ifs as [|f0 ifs0]; [done|]. set (ifs := f0 :: ifs0) in *. clearbody ifs. clear Hsame.
  pose proof (collect_spec ifs 0 ∅ [] ltac:(constructor)
    ltac:(by intros j ?%not_elem_of_nil)) as Hc.
  destruct (collect 0 ifs (∅, [])) as [occ un]. destruct Hc as (-> & Hnd & Hun).
  rewrite (right_id_L ∅ (∪)).
  assert (number_inv ifs ifs un (slots ifs) false) as Hi.
  { apply number_inv_start. intros j. rewrite Hun, elem_of_nil. naive_solver. }
  destruct (number_ok un ifs ifs (slots ifs) false Hi Hnd) as [occ' Ho].
  { intros j [?%not_elem_of_nil|(k & f & -> & Hf & _)]%Hun; [done|by eapply lookup_lt_Some]. }
  destruct (number un (slots ifs) ifs false) as [ifs' mut]. simpl in Ho.
  exists ifs'. split_and!; [done|by apply Ho|by apply Ho| |].
  - intros i f Hf. destruct (ni_name _ _ _ _ _ Ho i f Hf) as (g & Hg & Hname).
    exists g. split_and!; [done|done|]. intros Hs.
    pose proof (ni_keep _ _ _ _ _ Ho i f Hf (or_introl Hs)). congruence.
  - intros i j f g h u Hij Hf HfN Hg Hu Hh. split; [by eapply (ni_uniq _ _ _ _ _ Ho)|].
    by eapply (ni_band _ _ _ _ _ Ho).
Qed.

(** Ten interfaces, the most the API admits, always fit: on an upgraded VM
    every interface has a unit number after the mutation. *)
Theorem nic_unit_numbers_complete (bv sv : string) (fs : FeatureStates) (a : gmap string string)
    (ifs : list VirtualMachineNetworkInterfaceSpec) :
  VMNetworkUnitNumbers fs = true → IsObjectUpgraded bv sv fs a = [] → (length ifs ≤ 10)%nat →
  ∃ ifs', (MutateNICUnitNumbersOnUpdate bv sv fs true a (Some ifs)).1 = Some ifs' ∧
    ∀ f, f ∈ ifs' → is_Some (if_UnitNumber f).
Proof.
  intros Hfs Hup H10. unfold MutateNICUnitNumbersOnUpdate. rewrite Hfs, Hup. simpl.
  destruct ifs as [|f0 ifs0]; [exists []; split; [done|by intros f ?%not_elem_of_nil]|].
  set (ifs := f0 :: ifs0) in *. clearbody ifs.
  pose proof (collect_spec ifs 0 ∅ [] ltac:(constructor)
    ltac:(by intros j ?%not_elem_of_nil)) as Hc.
  destruct (collect 0 ifs (∅, [])) as [occ un]. destruct Hc as (-> & Hnd & Hun).
  rewrite (right_id_L ∅ (∪)).
  assert (∀ j, j ∈ un ↔ ∃ f, ifs !! j = Some f ∧ if_UnitNumber f = None) as Hun'.
  { intros j. rewrite Hun, elem_of_nil. naive_solver. }
  pose proof (number_all un ifs ifs (slots ifs) false (number_inv_start _ _ Hun') Hnd) as Hall.
  destruct (number un (slots ifs) ifs false) as [ifs' mut]. simpl in Hall.
  exists ifs'. split; [done|]. intros f [i Hi]%list_elem_of_lookup.
  destruct (if_UnitNumber f) eqn:E; [done|]. exfalso.
  eapply Hall; [|done| |exact Hi|exact E].
  - intros j (g & Hg & _)%Hun'. by eapply lookup_lt_Some.
  - intros j g Hj HgN. apply Hun'. eauto.
Qed.

Lemma nic_unit_numbers_complete_witness :
  ∃ ifs', (MutateNICUnitNumbersOnUpdate "v1" "v1alpha6" (mkFeatures false false false true) true
      {[ UpgradedToBuildVersionAnnotationKey := "v1";
         UpgradedToSchemaVersionAnnotationKey := "v1alpha6";
         UpgradedToFeatureVersionAnnotationKey := "17" ]}
      (Some [mkInterface "eth0" None; mkInterface "eth1" (Some 7)])).1 = Some ifs' ∧
    ∀ f, f ∈ ifs' → is_Some (if_UnitNumber f).
Proof. apply nic_unit_numbers_complete; [done|vm_compute; reflexivity|simpl; lia]. Defined.

Example nic_example :
  MutateNICUnitNumbersOnUpdate "v1" "v1alpha6" (mkFeatures false false false true) true
      {[ UpgradedToBuildVersionAnnotationKey := "v1";
         UpgradedToSchemaVersionAnnotationKey := "v1alpha6";
         UpgradedToFeatureVersionAnnotationKey := "17" ]}
      (Some [mkInterface "eth0" None; mkInterface "eth1" (Some 7)]) =
  (Some [mkInterface "eth0" (Some 8); mkInterface "eth1" (Some 7)], true).
Proof. vm_compute. reflexivity. Qed.
