(* ===== verification/VolumeMutator.v ===== *)
(** * Controllers for volumes

    webhooks/virtualmachine/mutation/virtualmachine_mutator_hardware_controllers.go:
    [AddControllersForVolumes] gives every volume a controller and a unit
    number, adding controllers to the spec where no slot is free, and
    [SetPVCVolumeDefaults] fills in the disk and sharing modes.

    Volumes are pointers into the spec in the source and indices here; the
    controller set, the occupied slots, the VM and the mutation flag are
    threaded through explicitly. *)

From S2P Require Import Prelude Hardware.
Local Open Scope Z_scope.

Abbreviation OccupiedSlots := (gmap ControllerID (gset Z)).

(** [occupiedSlots[id]]: a nil set reads as the empty one. *)
Definition slots_at (occ : OccupiedSlots) (id : ControllerID) : gset Z := default ∅ (occ !! id).

(** [if occupiedSlots[id] == nil { occupiedSlots[id] = sets.New[int32]() }] *)
Definition init_slots (id : ControllerID) (occ : OccupiedSlots) : OccupiedSlots :=
  match occ !! id with Some _ => occ | None => <[id := ∅]> occ end.

Definition insert_slot (id : ControllerID) (u : Z) (occ : OccupiedSlots) : OccupiedSlots :=
  <[id := {[u]} ∪ slots_at occ id]> occ.

(** ** The target controller of a volume *)

(** The first loop: a controller with the sharing mode and a free slot. *)
Fixpoint find_available (buses : list Z) (t : VirtualControllerType)
    (sharingMode : VirtualControllerSharingMode) (specs : ControllerSpecs) (occ : OccupiedSlots) :
    option Controller * OccupiedSlots :=
  match buses with
  | [] => (None, occ)
  | busNum :: rest =>
    let controllerID := mkControllerID t busNum in
    match Get specs t busNum with
    | Some controller =>
      let occ := init_slots controllerID occ in
      let hasAvailableSlots := 0 <=? NextAvailableUnitNumber (Some controller) (slots_at occ controllerID) in
      let sharingModeMatches := bool_decide (GetControllerSharingMode controller = sharingMode) in
      if sharingModeMatches && hasAvailableSlots then (Some controller, occ)
      else find_available rest t sharingMode specs occ
    | None => find_available rest t sharingMode specs occ
    end
  end.

(** The second loop: a new controller on the first free bus number. *)
Fixpoint find_unused (buses : list Z) (t : VirtualControllerType)
    (sharingMode : VirtualControllerSharingMode) (specs : ControllerSpecs) : option Controller :=
  match buses with
  | [] => None
  | busNum :: rest =>
    match Get specs t busNum with
    | None => CreateNewController t busNum sharingMode
    | Some _ => find_unused rest t sharingMode specs
    end
  end.

Definition determineTargetController (vol : VirtualMachineVolume) (specs : ControllerSpecs)
    (occ : OccupiedSlots) : option Controller * OccupiedSlots :=
  let t := if decide (vol_ControllerType vol = NoControllerType)
           then VirtualControllerTypeSCSI else vol_ControllerType vol in
  let sharingMode := DefaultControllerSharingMode vol in
  match vol_ControllerBusNumber vol with
  | Some b =>
    match Get specs t b with
    | Some controller => (Some controller, occ)
    | None => (CreateNewController t b sharingMode, occ)
    end
  | None =>
    match find_available (seqZ 0 (type_MaxCount t)) t sharingMode specs occ with
    | (Some controller, occ) => (Some controller, occ)
    | (None, occ) => (find_unused (seqZ 0 (type_MaxCount t)) t sharingMode specs, occ)
    end
  end.

(** ** Processing the volumes *)

Record vmState := mkState {
  Hardware_ : option VirtualMachineHardwareSpec;
  Volumes : list VirtualMachineVolume;
  controllerSpecs : ControllerSpecs;
  occupiedSlots : OccupiedSlots;
  wasMutated : bool
}.

Definition emptyHardware : VirtualMachineHardwareSpec := mkHardware [] [] [] [] [].

(** The type switch that appends to the spec's list of that type; [None] is
    its default case. *)
Definition append_controller (c : Controller) (hw : VirtualMachineHardwareSpec) :
    option VirtualMachineHardwareSpec :=
  match c with
  | SCSIController c => Some (mkHardware (SCSIControllers hw ++ [c]) (SATAControllers hw)
                                (NVMEControllers hw) (IDEControllers hw) (Cdrom hw))
  | SATAController c => Some (mkHardware (SCSIControllers hw) (SATAControllers hw ++ [c])
                                (NVMEControllers hw) (IDEControllers hw) (Cdrom hw))
  | NVMEController c => Some (mkHardware (SCSIControllers hw) (SATAControllers hw)
                                (NVMEControllers hw ++ [c]) (IDEControllers hw) (Cdrom hw))
  | IDEController c => Some (mkHardware (SCSIControllers hw) (SATAControllers hw)
                                (NVMEControllers hw) (IDEControllers hw ++ [c]) (Cdrom hw))
  | NICBus _ => None
  end.

Definition set_type (t : VirtualControllerType) (v : VirtualMachineVolume) : VirtualMachineVolume :=
  mkVolume (vol_Name v) (ApplicationType v) t (vol_ControllerBusNumber v) (vol_UnitNumber v)
    (DiskMode v) (SharingMode v).
Definition set_bus (b : Z) (v : VirtualMachineVolume) : VirtualMachineVolume :=
  mkVolume (vol_Name v) (ApplicationType v) (vol_ControllerType v) (Some b) (vol_UnitNumber v)
    (DiskMode v) (SharingMode v).
Definition set_vol_unit (u : Z) (v : VirtualMachineVolume) : VirtualMachineVolume :=
  mkVolume (vol_Name v) (ApplicationType v) (vol_ControllerType v) (vol_ControllerBusNumber v)
    (Some u) (DiskMode v) (SharingMode v).

(** Add the controller to the spec unless it is there; [None] is the
    [continue] of the loop, with the state it leaves. *)
Definition ensure_controller (id : ControllerID) (c : Controller) (st : vmState) :
    vmState * bool :=
  match Get (controllerSpecs st) (cid_Type id) (cid_BusNumber id) with
  | Some _ => (st, true)
  | None =>
    if MaxCount c <=? CountControllers (controllerSpecs st) (cid_Type id) then (st, false)
    else
      let hw := default emptyHardware (Hardware_ st) in
      match append_controller c hw with
      | None => (mkState (Some hw) (Volumes st) (controllerSpecs st) (occupiedSlots st)
                   (wasMutated st), false)
      | Some hw' => (mkState (Some hw') (Volumes st)
                       (Set_ (cid_Type id) (cid_BusNumber id) c (controllerSpecs st))
                       (occupiedSlots st) true, true)
      end
  end.

(** Point the volume to the controller and reserve its slot. *)
Definition place_volume (id : ControllerID) (c : Controller) (i : nat) (vol : VirtualMachineVolume)
    (st : vmState) : vmState :=
  let '(vol, mut) := if decide (vol_ControllerType vol = NoControllerType)
                     then (set_type (cid_Type id) vol, true) else (vol, wasMutated st) in
  let '(vol, mut) := match vol_ControllerBusNumber vol with
                     | None => (set_bus (cid_BusNumber id) vol, true)
                     | Some _ => (vol, mut)
                     end in
  let occ := init_slots id (occupiedSlots st) in
  let '(vol, mut, occ) :=
    match vol_UnitNumber vol with
    | Some u => (vol, mut, insert_slot id u occ)
    | None =>
      let nextUnit := NextAvailableUnitNumber (Some c) (slots_at occ id) in
      if 0 <=? nextUnit then (set_vol_unit nextUnit vol, true, insert_slot id nextUnit occ)
      else (vol, mut, occ)
    end in
  mkState (Hardware_ st) (<[i := vol]> (Volumes st)) (controllerSpecs st) occ mut.

Definition process_volume (st : vmState) (i : nat) : vmState :=
  match Volumes st !! i with
  | None => st
  | Some vol =>
    let '(target, occ) := determineTargetController vol (controllerSpecs st) (occupiedSlots st) in
    let st := mkState (Hardware_ st) (Volumes st) (controllerSpecs st) occ (wasMutated st) in
    let id := GenerateControllerID target in
    match target with
    | Some c =>
      if 0 <=? cid_BusNumber id then
        match ensure_controller id c st with
        | (st, true) => place_volume id c i vol st
        | (st, false) => st
        end
      else st
    | None => st
    end
  end.

Definition processVolumes (volumes : list nat) (st : vmState) : vmState :=
  foldl process_volume st volumes.

(** ** The mutator *)

Definition cdrom_slot (cd : VirtualMachineCdromSpec) : option (ControllerID * Z) :=
  match cdrom_ControllerBusNumber cd, cdrom_UnitNumber cd with
  | Some b, Some u =>
    if decide (cdrom_ControllerType cd = NoControllerType) then None
    else if 0 <=? u then Some (mkControllerID (cdrom_ControllerType cd) b, u) else None
  | _, _ => None
  end.

Definition add_cdrom_slot (occ : OccupiedSlots) (cd : VirtualMachineCdromSpec) : OccupiedSlots :=
  match cdrom_slot cd with
  | Some (id, u) => insert_slot id u (init_slots id occ)
  | None => occ
  end.

Definition cdroms (hw : option VirtualMachineHardwareSpec) : list VirtualMachineCdromSpec :=
  match hw with Some hw => Cdrom hw | None => [] end.

(** The condition that separates explicit from implicit placement. *)
Definition explicit (v : VirtualMachineVolume) : bool :=
  match vol_ControllerBusNumber v, vol_UnitNumber v with
  | Some _, Some u => negb (bool_decide (vol_ControllerType v = NoControllerType)) && (0 <=? u)
  | _, _ => false
  end.

Definition indices_where (P : VirtualMachineVolume → bool) (vols : list VirtualMachineVolume) :
    list nat :=
  filter (λ i, match vols !! i with Some v => P v | None => false end = true)
    (seq 0 (length vols)).

Definition AddControllersForVolumes (hw : option VirtualMachineHardwareSpec)
    (vols : list VirtualMachineVolume) :
    option VirtualMachineHardwareSpec * list VirtualMachineVolume * bool :=
  match vols with
  | [] => (hw, vols, false)
  | _ =>
    let occ := foldl add_cdrom_slot ∅ (cdroms hw) in
    let st := mkState hw vols (NewControllerSpecs hw) occ false in
    let st := processVolumes (indices_where explicit vols) st in
    let st := processVolumes (indices_where (λ v, negb (explicit v)) vols) st in
    (Hardware_ st, Volumes st, wasMutated st)
  end.

(** ** Defaults of the volume modes *)

Definition default_mode (m d : string) : string * bool :=
  if decide (m = "") then (d, true) else (m, false).

Definition pvc_defaults (v : VirtualMachineVolume) : VirtualMachineVolume * bool :=
  let '(dm, sm) := match ApplicationType v with
                   | VolumeApplicationTypeOracleRAC => ("IndependentPersistent", "MultiWriter")
                   | VolumeApplicationTypeMicrosoftWSFC => ("IndependentPersistent", "None")
                   | OtherApplicationType _ => ("Persistent", "None")
                   end in
  let '(d, m1) := default_mode (DiskMode v) dm in
  let '(s, m2) := default_mode (SharingMode v) sm in
  (mkVolume (vol_Name v) (ApplicationType v) (vol_ControllerType v) (vol_ControllerBusNumber v)
     (vol_UnitNumber v) d s, m1 || m2).

Definition SetPVCVolumeDefaults (vols : list VirtualMachineVolume) :
    list VirtualMachineVolume * bool :=
  foldl (λ '(out, mut) v, let '(v', m) := pvc_defaults v in (out ++ [v'], mut || m)) ([], false) vols.

(** ** Lemmas on controller sets *)

#[local] Arguments GenerateControllerID : simpl never.

(** Every controller is recorded under its own identity. *)
Definition specs_ok (specs : ControllerSpecs) : Prop :=
  ∀ t b c, Get specs t b = Some c → GenerateControllerID (Some c) = mkControllerID t b.

Lemma Create_id t b sm c :
  CreateNewController t b sm = Some c →
  GenerateControllerID (Some c) = mkControllerID t b ∧ MaxCount c = type_MaxCount t.
Proof. destruct t; intros [= <-]; done. Qed.

Lemma Create_None t b sm : CreateNewController t b sm = None → type_MaxCount t = 0.
Proof. by destruct t. Qed.

Lemma MaxCount_id c :
  0 ≤ cid_BusNumber (GenerateControllerID (Some c)) →
  MaxCount c = type_MaxCount (cid_Type (GenerateControllerID (Some c))).
Proof. unfold GenerateControllerID. destruct c; simpl; done || lia. Qed.

Lemma set_controller_comm m a b :
  GenerateControllerID (Some a) ≠ GenerateControllerID (Some b) →
  set_controller (set_controller m a) b = set_controller (set_controller m b) a.
Proof.
  unfold set_controller, Set_. destruct (GenerateControllerID (Some a)) as [ta ba],
    (GenerateControllerID (Some b)) as [tb bb]. simpl. intros Hne.
  destruct (decide (ta = tb)) as [->|Ht].
  - rewrite !lookup_insert_eq, !insert_insert_eq. simpl. f_equal.
    apply insert_insert_ne. congruence.
  - rewrite !lookup_insert_ne by done. by apply insert_insert_ne.
Qed.

Lemma set_controller_move m l c :
  (∀ x, x ∈ l → GenerateControllerID (Some x) ≠ GenerateControllerID (Some c)) →
  foldl set_controller (set_controller m c) l = set_controller (foldl set_controller m l) c.
Proof.
  revert m. induction l as [|x l IH]; intros m Hl; simpl; [done|].
  rewrite set_controller_comm by (apply not_eq_sym, Hl; by left). apply IH.
  intros y Hy. apply Hl. by right.
Qed.

(** The controllers in the fold are those of the list. *)
Lemma fold_Get l m t b :
  Get (foldl set_controller m l) t b = None ↔
  Get m t b = None ∧ ∀ x, x ∈ l → GenerateControllerID (Some x) ≠ mkControllerID t b.
Proof.
  revert m. induction l as [|x l IH]; intros m; simpl.
  { split; [|by intros []]. intros ?. split; [done|]. by intros ? ?%not_elem_of_nil. }
  rewrite IH. unfold set_controller. rewrite Get_Set.
  destruct (GenerateControllerID (Some x)) as [tx bx] eqn:Hx. cbn [cid_Type cid_BusNumber].
  setoid_rewrite elem_of_cons. case_decide as Hd.
  - destruct Hd as [-> ->]. split; [by intros []|]. intros [_ Hall].
    exfalso. apply (Hall x); [by left|done].
  - split.
    + intros [? Hall]. split; [done|]. intros y [->|?]; [|by apply Hall]. rewrite Hx. naive_solver.
    + intros [? Hall]. split; [done|]. intros y ?. apply Hall. by right.
Qed.

Lemma fold_Get_Some l m t b c :
  Get (foldl set_controller m l) t b = Some c →
  Get m t b = Some c ∨ (c ∈ l ∧ GenerateControllerID (Some c) = mkControllerID t b).
Proof.
  revert m. induction l as [|x l IH]; intros m Hg; simpl in *; [by left|].
  apply IH in Hg as [Hg|[? ?]]; [|right; split; [by right|done]].
  unfold set_controller in Hg. rewrite Get_Set in Hg. case_decide as Hd; [|by left].
  injection Hg as <-. right. split; [by left|]. destruct Hd as [-> ->].
  by destruct (GenerateControllerID (Some x)).
Qed.

Lemma Get_empty t b : Get ∅ t b = None.
Proof. unfold Get. by rewrite lookup_empty. Qed.

Lemma NewControllerSpecs_ok hw : specs_ok (NewControllerSpecs hw).
Proof.
  intros t b c. unfold NewControllerSpecs. destruct hw as [hw|]; [|by rewrite Get_empty].
  intros [Hg|[_ ?]]%fold_Get_Some; [by rewrite Get_empty in Hg|done].
Qed.

(** Appending a controller that is not there yet records it. *)
Lemma append_controller_specs c hw hw' :
  append_controller c (default emptyHardware hw) = Some hw' →
  Get (NewControllerSpecs hw) (cid_Type (GenerateControllerID (Some c)))
    (cid_BusNumber (GenerateControllerID (Some c))) = None →
  NewControllerSpecs (Some hw') = set_controller (NewControllerSpecs hw) c ∧
  ∃ l1 l2, hw_controllers (default emptyHardware hw) = l1 ++ l2 ∧ hw_controllers hw' = l1 ++ c :: l2.
Proof.
  intros Ha Hg. set (h := default emptyHardware hw) in *.
  assert (NewControllerSpecs hw = foldl set_controller ∅ (hw_controllers h)) as Hspecs
    by (by destruct hw).
  assert (∃ l1 l2, hw_controllers h = l1 ++ l2 ∧ hw_controllers hw' = l1 ++ c :: l2) as (l1 & l2 & E1 & E2).
  { unfold append_controller in Ha. unfold hw_controllers. destruct c; simplify_eq/=.
    - exists (SCSIController <$> SCSIControllers h). eexists. split; [done|].
      rewrite fmap_app, <-app_assoc. done.
    - exists ((SCSIController <$> SCSIControllers h) ++ (SATAController <$> SATAControllers h)).
      eexists. rewrite fmap_app, <-!app_assoc. split; done.
    - exists ((SCSIController <$> SCSIControllers h) ++ (SATAController <$> SATAControllers h) ++
              (NVMEController <$> NVMEControllers h)).
      eexists. rewrite fmap_app, <-!app_assoc. split; done.
    - exists (hw_controllers h), []. unfold hw_controllers.
      rewrite app_nil_r, fmap_app, <-!app_assoc. split; done. }
  split; [|by exists l1, l2]. rewrite Hspecs in *. unfold NewControllerSpecs. rewrite E2, E1, !foldl_app.
  apply (set_controller_move _ l2 c). intros x Hx.
  apply fold_Get in Hg as [_ Hg]. rewrite E1 in Hg.
  destruct (GenerateControllerID (Some c)). apply Hg. apply elem_of_app. by right.
Qed.

(** ** Lemmas on slots and targets *)

Lemma slots_at_init occ id id' : slots_at (init_slots id occ) id' = slots_at occ id'.
Proof.
  unfold slots_at, init_slots. destruct (occ !! id) eqn:E; [done|].
  destruct (decide (id' = id)) as [->|].
  - by rewrite lookup_insert_eq, E.
  - by rewrite lookup_insert_ne.
Qed.

Lemma slots_at_insert occ id u id' :
  slots_at (insert_slot id u occ) id' =
  if decide (id' = id) then {[u]} ∪ slots_at occ id else slots_at occ id'.
Proof.
  unfold insert_slot, slots_at at 1. case_decide as Hd.
  - subst. by rewrite lookup_insert_eq.
  - by rewrite lookup_insert_ne.
Qed.

Lemma find_available_ok buses t sm specs occ :
  let '(r, occ') := find_available buses t sm specs occ in
  (∀ id, slots_at occ' id = slots_at occ id) ∧
  match r with Some c => ∃ b, b ∈ buses ∧ Get specs t b = Some c | None => True end.
Proof.
  revert occ. induction buses as [|b buses IH]; intros occ; cbn [find_available]; [done|].
  destruct (Get specs t b) as [c|] eqn:Hg.
  - cbv zeta. destruct (_ && _).
    + split; [intros; apply slots_at_init|]. exists b. split; [by left|done].
    + specialize (IH (init_slots (mkControllerID t b) occ)).
      destruct (find_available buses t sm specs _) as [[c'|] occ']; destruct IH as [Hs Hr].
      * split; [intros; by rewrite Hs, slots_at_init|]. destruct Hr as (b' & ? & ?).
        exists b'. split; [by right|done].
      * split; [intros; by rewrite Hs, slots_at_init|done].
  - specialize (IH occ).
    destruct (find_available buses t sm specs _) as [[c'|] occ']; destruct IH as [Hs Hr];
      (split; [done|]); [|done].
    destruct Hr as (b' & ? & ?). exists b'. split; [by right|done].
Qed.

Lemma find_unused_ok buses t sm specs c :
  find_unused buses t sm specs = Some c →
  ∃ b, b ∈ buses ∧ Get specs t b = None ∧ CreateNewController t b sm = Some c.
Proof.
  induction buses as [|b buses IH]; simpl; [done|]. destruct (Get specs t b) as [c'|] eqn:Hg.
  - intros (b' & ? & ?)%IH. exists b'. split; [by right|done].
  - intros Hc. exists b. split; [by left|done].
Qed.

Definition target_type (v : VirtualMachineVolume) : VirtualControllerType :=
  if decide (vol_ControllerType v = NoControllerType)
  then VirtualControllerTypeSCSI else vol_ControllerType v.

(** The target has the volume's type and bus number, where given, and is
    either recorded already or new. *)
Lemma determine_ok v specs occ :
  specs_ok specs →
  let '(r, occ') := determineTargetController v specs occ in
  (∀ id, slots_at occ' id = slots_at occ id) ∧
  match r with
  | Some c => ∃ b, GenerateControllerID (Some c) = mkControllerID (target_type v) b ∧
      (∀ b', vol_ControllerBusNumber v = Some b' → b = b') ∧
      (vol_ControllerBusNumber v = None → 0 ≤ b < type_MaxCount (target_type v)) ∧
      (Get specs (target_type v) b = Some c ∨ Get specs (target_type v) b = None)
  | None => ∀ b, vol_ControllerBusNumber v = Some b →
      Get specs (target_type v) b = None ∧ type_MaxCount (target_type v) = 0
  end.
Proof.
  intros Hok. unfold determineTargetController. fold (target_type v).
  destruct (vol_ControllerBusNumber v) as [b|] eqn:Hb.
  - destruct (Get specs (target_type v) b) as [c|] eqn:Hg.
    + split; [done|]. exists b. split_and!; [by apply Hok|by intros b' [= <-]|done|by left].
    + split; [done|]. destruct (CreateNewController _ _ _) as [c|] eqn:Hc.
      * exists b. split_and!; [by eapply Create_id|by intros b' [= <-]|done|by right].
      * intros b' [= <-]. split; [done|]. by eapply Create_None.
  - set (buses := seqZ 0 (type_MaxCount (target_type v))). set (sm := DefaultControllerSharingMode v).
    pose proof (find_available_ok buses (target_type v) sm specs occ) as Hf.
    destruct (find_available buses (target_type v) sm specs occ) as [[c|] occ'];
      destruct Hf as [Hs Hr].
    + split; [done|]. destruct Hr as (b & ?%elem_of_seqZ & Hg). exists b.
      split_and!; [by apply Hok|done|lia..|by left].
    + split; [done|]. destruct (find_unused buses (target_type v) sm specs) as [c|] eqn:Hu; [|done].
      apply find_unused_ok in Hu as (b & ?%elem_of_seqZ & Hg & Hc). exists b.
      split_and!; [by eapply Create_id|done|lia..|by right].
Qed.

(** ** The invariant of the loop *)

Definition vol_slot (v : VirtualMachineVolume) : option (ControllerID * Z) :=
  match vol_ControllerBusNumber v, vol_UnitNumber v with
  | Some b, Some u => Some (mkControllerID (vol_ControllerType v) b, u)
  | _, _ => None
  end.

(** Only unset fields are filled in; an unset type becomes SCSI. *)
Record refines_volume (v v' : VirtualMachineVolume) : Prop := {
  rv_name : vol_Name v' = vol_Name v ∧ ApplicationType v' = ApplicationType v ∧
            DiskMode v' = DiskMode v ∧ SharingMode v' = SharingMode v;
  rv_type : vol_ControllerType v' = vol_ControllerType v ∨ vol_ControllerType v' = target_type v;
  rv_bus b : vol_ControllerBusNumber v = Some b → vol_ControllerBusNumber v' = Some b;
  rv_unit u : vol_UnitNumber v = Some u → vol_UnitNumber v' = Some u
}.

(** What the controllers and set fields amount to; it grows with every
    mutation. *)
Definition vol_weight (v : VirtualMachineVolume) : nat :=
  (if decide (vol_ControllerType v = NoControllerType) then 0 else 1) +
  (match vol_ControllerBusNumber v with Some _ => 1 | None => 0 end) +
  (match vol_UnitNumber v with Some _ => 1 | None => 0 end).

Definition weight (hw : option VirtualMachineHardwareSpec) (vols : list VirtualMachineVolume) : nat :=
  length (hw_controllers (default emptyHardware hw)) + sum_list_with vol_weight vols.

(** The slot is taken, or its controller is not there and cannot be added. *)
Definition slot_closed (specs : ControllerSpecs) (occ : OccupiedSlots) (s : ControllerID * Z) : Prop :=
  s.2 ∈ slots_at occ s.1 ∨ cid_BusNumber s.1 < 0 ∨
  (Get specs (cid_Type s.1) (cid_BusNumber s.1) = None ∧
   type_MaxCount (cid_Type s.1) ≤ CountControllers specs (cid_Type s.1)).

Section Loop.
Context (hw0 : option VirtualMachineHardwareSpec) (vols0 : list VirtualMachineVolume).

(** [P] holds of the volumes not yet processed. *)
Record loop_inv (P : nat → Prop) (st : vmState) : Prop := {
  li_specs : controllerSpecs st = NewControllerSpecs (Hardware_ st);
  li_cdroms : cdroms (Hardware_ st) = cdroms hw0;
  li_len : length (Volumes st) = length vols0;
  li_todo i v : vols0 !! i = Some v → P i → Volumes st !! i = Some v;
  li_ref i v : vols0 !! i = Some v → ∃ v', Volumes st !! i = Some v' ∧ refines_volume v v';
  li_bus i v v' b : vols0 !! i = Some v → vol_ControllerBusNumber v = None →
    Volumes st !! i = Some v' → vol_ControllerBusNumber v' = Some b →
    0 ≤ b < type_MaxCount (vol_ControllerType v');
  li_cdrom cd s : cd ∈ cdroms hw0 → cdrom_slot cd = Some s → s.2 ∈ slots_at (occupiedSlots st) s.1;
  li_closed i v s : Volumes st !! i = Some v → ¬ P i → vol_slot v = Some s →
    slot_closed (controllerSpecs st) (occupiedSlots st) s;
  li_new i v v' s : vols0 !! i = Some v → vol_UnitNumber v = None → ¬ P i →
    Volumes st !! i = Some v' → vol_slot v' = Some s →
    (∃ c, Get (controllerSpecs st) (cid_Type s.1) (cid_BusNumber s.1) = Some c ∧ assignable c s.2) ∧
    (∀ cd, cd ∈ cdroms hw0 → cdrom_slot cd ≠ Some s) ∧
    (∀ j w, j ≠ i → ¬ P j → Volumes st !! j = Some w → vol_slot w ≠ Some s);
  li_limit t : CountControllers (controllerSpecs st) t ≤
    Z.max (type_MaxCount t) (CountControllers (NewControllerSpecs hw0) t);
  li_keep c : c ∈ hw_controllers (default emptyHardware hw0) →
    c ∈ hw_controllers (default emptyHardware (Hardware_ st));
  li_same : wasMutated st = false → Hardware_ st = hw0 ∧ Volumes st = vols0;
  li_grow : wasMutated st = true → (weight hw0 vols0 < weight (Hardware_ st) (Volumes st))%nat
}.

Lemma slot_closed_ext specs occ occ' s :
  (∀ id, slots_at occ' id = slots_at occ id) → slot_closed specs occ s → slot_closed specs occ' s.
Proof. intros Hs. unfold slot_closed. by rewrite Hs. Qed.

Lemma weight_neq hw vols hw' vols' :
  (weight hw vols < weight hw' vols')%nat → (hw', vols') ≠ (hw, vols).
Proof. intros Hlt [= -> ->]. lia. Qed.

Lemma loop_inv_ext P Q st : (∀ j, P j ↔ Q j) → loop_inv P st → loop_inv Q st.
Proof.
  intros HPQ Hi. assert (∀ j, ¬ Q j → ¬ P j) as HN by (intros j; by rewrite HPQ).
  destruct Hi as [Hsp Hcdr Hlen Htd Hrf Hbu Hcd Hcls Hnew Hlim Hkeep Hsame Hgrow].
  split; try done; intros *; rewrite <-?HPQ; eauto.
  intros Hv Hu HP Hv' Hs. destruct (Hnew i v v' s Hv Hu HP Hv' Hs) as (? & ? & Ho).
  split_and!; [done|done|]. intros j w Hj. rewrite <-HPQ. eauto.
Qed.

(** Only the contents of the occupied slots matter. *)
Lemma loop_inv_slots P st occ' :
  loop_inv P st → (∀ id, slots_at occ' id = slots_at (occupiedSlots st) id) →
  loop_inv P (mkState (Hardware_ st) (Volumes st) (controllerSpecs st) occ' (wasMutated st)).
Proof.
  intros [Hsp Hcdr Hlen Htd Hrf Hbu Hcd Hcls Hnew Hlim Hkeep Hsame Hgrow] Hocc.
  split; cbn [Hardware_ Volumes controllerSpecs occupiedSlots wasMutated]; try done.
  - intros cd s ? ?. rewrite Hocc. eauto.
  - intros j w s ? ? ?. apply (slot_closed_ext _ (occupiedSlots st)); eauto.
Qed.

(** A volume that is left as it is. *)
Lemma loop_inv_skip P st occ' i v :
  loop_inv P st → vols0 !! i = Some v → P i → (∀ id, slots_at occ' id = slots_at (occupiedSlots st) id) →
  (∀ s, vol_slot v = Some s → slot_closed (controllerSpecs st) (occupiedSlots st) s) →
  (is_Some (vol_UnitNumber v) → ∀ j w, vols0 !! j = Some w → vol_UnitNumber w = None → P j) →
  loop_inv (λ j, P j ∧ j ≠ i)
    (mkState (Hardware_ st) (Volumes st) (controllerSpecs st) occ' (wasMutated st)).
Proof.
  intros Hi Hv HP Hocc Hcl Hord. pose proof (li_todo _ _ Hi i v Hv HP) as Hiv.
  destruct Hi as [Hsp Hcdr Hlen Htd Hrf Hbu Hcd Hcls Hnew Hlim Hkeep Hsame Hgrow].
  split; cbn [Hardware_ Volumes controllerSpecs occupiedSlots wasMutated]; try done.
  - intros j w Hj [? ?]. auto.
  - intros cd s ? ?. rewrite Hocc. eauto.
  - intros j w s Hj HPj Hs. apply (slot_closed_ext _ (occupiedSlots st)); [done|].
    destruct (decide (j = i)) as [->|]; [simplify_eq; auto|]. eapply Hcls; [done|tauto|done].
  - intros j w w' s Hj Hun HPj Hw' Hs. destruct (decide (j = i)) as [->|Hji].
    { exfalso. simplify_eq. unfold vol_slot in Hs. rewrite Hun in Hs. by destruct (vol_ControllerBusNumber _). }
    destruct (Hnew j w w' s) as (? & ? & Hoth); try done; [tauto|].
    split_and!; try done. intros k x Hkj HPk Hx Hxs. destruct (decide (k = i)) as [->|].
    + simplify_eq. apply HPj. split; [|done]. apply (Hord ltac:(unfold vol_slot in Hxs;
        repeat case_match; simplify_eq; eauto) j w Hj Hun).
    + by apply (Hoth k x Hkj ltac:(tauto) Hx).
Qed.

(** Adding the controller keeps the invariant; when it cannot be added the
    slots on it stay closed. *)
Lemma ensure_controller_ok P st c :
  let id := GenerateControllerID (Some c) in
  loop_inv P st → 0 ≤ cid_BusNumber id →
  (Get (controllerSpecs st) (cid_Type id) (cid_BusNumber id) = Some c ∨
   Get (controllerSpecs st) (cid_Type id) (cid_BusNumber id) = None) →
  match ensure_controller id c st with
  | (st', true) => loop_inv P st' ∧ Volumes st' = Volumes st ∧
      Get (controllerSpecs st') (cid_Type id) (cid_BusNumber id) = Some c
  | (st', false) => st' = st ∧ ∀ u, slot_closed (controllerSpecs st) (occupiedSlots st) (id, u)
  end.
Proof.
  intros id Hi Hb Hg. unfold ensure_controller.
  destruct (Get (controllerSpecs st) (cid_Type id) (cid_BusNumber id)) as [c'|] eqn:E.
  { destruct Hg as [[= ->]|]; [|done]. split_and!; done. }
  rewrite (MaxCount_id c Hb). fold id.
  destruct (_ <=? _) eqn:Hle; bool_to_prop.
  { split; [done|]. intros u. right. right. done. }
  destruct (append_controller c _) as [hw'|] eqn:Ha; [|by destruct c; vm_compute in Hb].
  destruct Hi as [Hsp Hcdr Hlen Htd Hrf Hbu Hcd Hcls Hnew Hlim Hkeep Hsame Hgrow].
  rewrite Hsp in E. destruct (append_controller_specs _ _ _ Ha E) as (Hspecs & l1 & l2 & E1 & E2).
  assert (∀ t b, Get (Set_ (cid_Type id) (cid_BusNumber id) c (controllerSpecs st)) t b =
    if decide (t = cid_Type id ∧ b = cid_BusNumber id) then Some c else Get (controllerSpecs st) t b)
    as HGet by (intros; apply Get_Set).
  split_and!; [|done|by cbn [controllerSpecs]; rewrite HGet, decide_True].
  split; cbn [Hardware_ Volumes controllerSpecs occupiedSlots wasMutated]; try done.
  - by rewrite Hspecs, Hsp.
  - rewrite <-Hcdr. destruct (Hardware_ st); destruct c; simplify_eq/=; done.
  - intros i v s Hv HP Hs. destruct (Hcls i v s Hv HP Hs) as [?|[?|[HN Hmax]]];
      [by left|by right; left|right; right].
    assert (cid_Type s.1 ≠ cid_Type id) as Hne by (intros Heq; rewrite Heq in *; lia).
    rewrite HGet, decide_False, Count_Set, decide_False by naive_solver. split; [done|lia].
  - intros i v v' s Hv Hun HP Hv' Hs. destruct (Hnew i v v' s Hv Hun HP Hv' Hs) as ((c' & Hc' & ?) & ? & ?).
    split_and!; [|done|done]. exists c'. split; [|done]. rewrite HGet, decide_False; [done|].
    intros [Ht Hbn]. rewrite Ht, Hbn, Hsp, E in Hc'. done.
  - intros t. rewrite Count_Set. specialize (Hlim t). case_decide as Hd; [|lia].
    destruct Hd as [-> _]. lia.
  - intros c' Hc'%Hkeep. cbn [default from_option id]. rewrite E1 in Hc'. simpl. rewrite E2.
    rewrite elem_of_app in Hc'. rewrite elem_of_app, elem_of_cons. tauto.
  - intros _. unfold weight in *. simpl. rewrite E2, length_app. simpl.
    destruct (wasMutated st) eqn:Em.
    + specialize (Hgrow eq_refl). rewrite E1, length_app in Hgrow. lia.
    + destruct (Hsame eq_refl) as [Hh Hvv]. rewrite <-Hh, Hvv, E1, length_app. lia.
Qed.

(** ** Placing a volume *)

(** The volume after it has been pointed to [id] and, if it has no unit number
    and [next] is one, numbered. *)
Definition placed (id : ControllerID) (next : Z) (v : VirtualMachineVolume) : VirtualMachineVolume :=
  mkVolume (vol_Name v) (ApplicationType v)
    (if decide (vol_ControllerType v = NoControllerType) then cid_Type id else vol_ControllerType v)
    (Some (default (cid_BusNumber id) (vol_ControllerBusNumber v)))
    (match vol_UnitNumber v with
     | Some u => Some u
     | None => if 0 <=? next then Some next else None
     end) (DiskMode v) (SharingMode v).

Definition claim (id : ControllerID) (u : option Z) (occ : OccupiedSlots) : OccupiedSlots :=
  match u with Some u => insert_slot id u occ | None => occ end.

Lemma place_volume_eq id c i v st :
  cid_Type id ≠ NoControllerType →
  let next := NextAvailableUnitNumber (Some c) (slots_at (occupiedSlots st) id) in
  place_volume id c i v st =
  mkState (Hardware_ st) (<[i := placed id next v]> (Volumes st)) (controllerSpecs st)
    (claim id (vol_UnitNumber (placed id next v)) (init_slots id (occupiedSlots st)))
    (wasMutated st || bool_decide (placed id next v ≠ v)).
Proof.
  intros Hid next. unfold place_volume. rewrite slots_at_init. fold next.
  destruct v as [n a t b u dm sm]. unfold placed, claim. cbn -[NextAvailableUnitNumber].
  destruct (decide (t = NoControllerType)) as [->|Ht], b as [b|], u as [u|];
    cbn -[NextAvailableUnitNumber Z.leb]; try destruct (0 <=? next) eqn:Hn;
    cbn -[NextAvailableUnitNumber];
    try (rewrite bool_decide_true by congruence; by rewrite orb_true_r);
    try (rewrite bool_decide_false by (intros Hneq; by apply Hneq); by rewrite orb_false_r).
Qed.

Lemma placed_refines id next v :
  cid_Type id = target_type v → refines_volume v (placed id next v).
Proof.
  intros Hid. destruct v as [n a t b u dm sm]. split; unfold placed; simpl.
  - done.
  - case_decide; [by right|by left].
  - by intros ? ->.
  - by intros ? ->.
Qed.

Lemma placed_weight id next v :
  cid_Type id ≠ NoControllerType →
  placed id next v = v ∨ (vol_weight v < vol_weight (placed id next v))%nat.
Proof.
  intros Hid. destruct v as [n a t b u dm sm]. unfold placed, vol_weight. simpl.
  destruct (decide (t = NoControllerType)) as [->|Ht], b as [b|], u as [u|]; simpl;
    try destruct (0 <=? next); simpl; rewrite ?(decide_False (P := cid_Type id = _)) by done;
    rewrite ?(decide_False (P := t = _)) by done; (by left) || (right; lia).
Qed.

Lemma sum_weight_insert vols i v v' :
  vols !! i = Some v →
  (sum_list_with vol_weight (<[i := v']> vols) + vol_weight v =
   sum_list_with vol_weight vols + vol_weight v')%nat.
Proof.
  revert i. induction vols as [|x vols IH]; [done|]. intros [|i] Hi; simpl in *.
  - injection Hi as ->. lia.
  - specialize (IH i Hi). lia.
Qed.

(** The slot of a placed volume is on its controller. *)
Lemma placed_slot id next v s :
  cid_Type id = target_type v →
  (∀ b, vol_ControllerBusNumber v = Some b → b = cid_BusNumber id) →
  vol_slot (placed id next v) = Some s →
  s.1 = id ∧ vol_UnitNumber (placed id next v) = Some s.2.
Proof.
  intros Ht Hb. destruct v as [n a t b u dm sm]. unfold vol_slot, placed in *. simpl in *.
  destruct (match u with Some u => _ | None => _ end) as [x|]; [|done]. intros [= <-]. simpl.
  split; [|done]. destruct id as [it ib]. simpl in *. f_equal.
  - unfold target_type in Ht. simpl in Ht. by case_decide.
  - destruct b; simpl; [|done]. auto.
Qed.

Lemma slots_at_claim id u occ id' x :
  x ∈ slots_at (claim id u (init_slots id occ)) id' ↔
  x ∈ slots_at occ id' ∨ (id' = id ∧ u = Some x).
Proof.
  unfold claim. destruct u as [y|]; [|rewrite slots_at_init; naive_solver].
  rewrite slots_at_insert. case_decide; subst; rewrite ?slots_at_init; set_solver.
Qed.

Lemma bus_id_type c :
  0 ≤ cid_BusNumber (GenerateControllerID (Some c)) →
  cid_Type (GenerateControllerID (Some c)) ≠ NoControllerType.
Proof. intros Hb. by destruct c; vm_compute in Hb. Qed.

(** The state after volume [i] is placed on controller [c]. *)
Section Place.
Context (P : nat → Prop) (st : vmState) (i : nat) (v : VirtualMachineVolume) (c : Controller).
Let id := GenerateControllerID (Some c).
Let next := NextAvailableUnitNumber (Some c) (slots_at (occupiedSlots st) id).
Let v' := placed id next v.
Context (Hi : loop_inv P st) (Hv : vols0 !! i = Some v) (HP : P i) (Hb : 0 ≤ cid_BusNumber id).
Context (Hg : Get (controllerSpecs st) (cid_Type id) (cid_BusNumber id) = Some c).
Context (Ht : cid_Type id = target_type v)
  (Hbus : ∀ b, vol_ControllerBusNumber v = Some b → b = cid_BusNumber id).
Context (Hord : is_Some (vol_UnitNumber v) →
  ∀ j w, vols0 !! j = Some w → vol_UnitNumber w = None → P j).

Lemma place_at j :
  <[i:=v']> (Volumes st) !! j = if decide (j = i) then Some v' else Volumes st !! j.
Proof using Hi Hv HP.
  pose proof (li_todo _ _ Hi i v Hv HP) as Hiv. case_decide as Hd.
  - subst j. apply list_lookup_insert_eq. by eapply lookup_lt_Some.
  - by apply list_lookup_insert_ne.
Qed.

Lemma place_slot s : vol_slot v' = Some s → s.1 = id ∧ vol_UnitNumber v' = Some s.2.
Proof using Ht Hbus. by apply placed_slot. Qed.

(** The number given to a volume without one is free. *)
Lemma place_fresh u :
  vol_UnitNumber v = None → vol_UnitNumber v' = Some u →
  assignable c u ∧ ¬ (u ∈ slots_at (occupiedSlots st) id).
Proof.
  intros HN. unfold v', placed. simpl. rewrite HN.
  destruct (0 <=? next) eqn:Hn; [|done]. intros [= <-].
  destruct (next_available_cases c (slots_at (occupiedSlots st) id)) as [[Hm _]|(? & _ & ? & _)];
    [|done]. fold next in Hm. bool_to_prop. lia.
Qed.

(** Slots of processed volumes on a recorded controller are taken. *)
Lemma place_taken j w s :
  Volumes st !! j = Some w → ¬ P j → vol_slot w = Some s → s.1 = id →
  s.2 ∈ slots_at (occupiedSlots st) id.
Proof using Hi Hb Hg.
  intros Hw HPj Hs Hs1. rewrite <-Hs1 in Hb, Hg |- *. destruct (li_closed _ _ Hi j w s Hw HPj Hs) as [?|[?|[? _]]];
    [done|lia|congruence].
Qed.

Lemma place_new j w w' s :
  vols0 !! j = Some w → vol_UnitNumber w = None → ¬ (P j ∧ j ≠ i) →
  <[i:=v']> (Volumes st) !! j = Some w' → vol_slot w' = Some s →
  (∃ c, Get (controllerSpecs st) (cid_Type s.1) (cid_BusNumber s.1) = Some c ∧ assignable c s.2) ∧
  (∀ cd, cd ∈ cdroms hw0 → cdrom_slot cd ≠ Some s) ∧
  (∀ k x, k ≠ j → ¬ (P k ∧ k ≠ i) → <[i:=v']> (Volumes st) !! k = Some x → vol_slot x ≠ Some s).
Proof using All.
  intros Hj Hun HPj Hw' Hs. rewrite place_at in Hw'. setoid_rewrite place_at.
  destruct (decide (j = i)) as [->|Hji].
  - injection Hw' as <-. rewrite Hv in Hj. injection Hj as <-. destruct (place_slot s Hs) as [Hs1 Hu].
    destruct (place_fresh _ Hun Hu) as [Has Hno]. split_and!.
    + exists c. by rewrite Hs1.
    + intros cd Hcin Hcs. apply Hno. rewrite <-Hs1. by apply (li_cdrom _ _ Hi cd).
    + intros k x Hk HPk Hx Hxs. rewrite decide_False in Hx by done.
      apply Hno. apply (place_taken k x s); try done. tauto.
  - destruct (li_new _ _ Hi j w w' s) as (? & ? & Hoth); try done; [tauto|].
    split_and!; [done|done|]. intros k x Hk HPk Hx Hxs. destruct (decide (k = i)) as [->|].
    + injection Hx as <-. destruct (place_slot s Hxs) as [Hs1 Hu].
      destruct (vol_UnitNumber v) as [u0|] eqn:HN.
      { apply HPj. split; [|done]. by apply (Hord ltac:(eauto) j w). }
      destruct (place_fresh _ HN Hu) as [_ Hno]. apply Hno, (place_taken j w' s); try done. tauto.
    + by apply (Hoth k x Hk ltac:(tauto) Hx).
Qed.

Lemma place_flag :
  let mut := wasMutated st || bool_decide (v' ≠ v) in
  (mut = false → Hardware_ st = hw0 ∧ <[i:=v']> (Volumes st) = vols0) ∧
  (mut = true → (weight hw0 vols0 < weight (Hardware_ st) (<[i:=v']> (Volumes st)))%nat).
Proof using Hi Hv HP Hb.
  pose proof (li_todo _ _ Hi i v Hv HP) as Hiv. split.
  - intros [Hm Hv']%orb_false_iff. bool_to_prop. destruct (li_same _ _ Hi Hm) as [-> ->].
    split; [done|]. apply list_insert_id. rewrite Hv. f_equal. symmetry.
    by destruct (decide (v' = v)).
  - intros Hm. pose proof (li_grow _ _ Hi) as Hgrow. unfold weight in *.
    pose proof (sum_weight_insert _ _ _ v' Hiv) as Hsum.
    destruct (placed_weight id next v (bus_id_type c Hb) : v' = v ∨ (vol_weight v < vol_weight v')%nat) as [Heq|Hlt].
    + rewrite bool_decide_false, orb_false_r in Hm by (intros Hn; by apply Hn).
      specialize (Hgrow Hm). rewrite Heq in Hsum |- *. lia.
    + destruct (wasMutated st) eqn:Em; [specialize (Hgrow eq_refl); lia|].
      destruct (li_same _ _ Hi Em) as [Hh Hvv]. rewrite <-Hh, <-Hvv. lia.
Qed.
End Place.

Lemma place_volume_ok P st i v c :
  let id := GenerateControllerID (Some c) in
  loop_inv P st → vols0 !! i = Some v → P i → 0 ≤ cid_BusNumber id →
  Get (controllerSpecs st) (cid_Type id) (cid_BusNumber id) = Some c →
  cid_Type id = target_type v →
  (∀ b, vol_ControllerBusNumber v = Some b → b = cid_BusNumber id) →
  (vol_ControllerBusNumber v = None → 0 ≤ cid_BusNumber id < type_MaxCount (cid_Type id)) →
  (is_Some (vol_UnitNumber v) → ∀ j w, vols0 !! j = Some w → vol_UnitNumber w = None → P j) →
  loop_inv (λ j, P j ∧ j ≠ i) (place_volume id c i v st).
Proof.
  intros id Hi Hv HP Hb Hg Ht Hbus Hrange Hord.
  rewrite place_volume_eq by (by apply bus_id_type).
  set (next := NextAvailableUnitNumber (Some c) (slots_at (occupiedSlots st) id)).
  set (v' := placed id next v).
  pose proof (place_at P st i v c Hi Hv HP) as Hat.
  pose proof (slots_at_claim id (vol_UnitNumber v') (occupiedSlots st)) as Hsl.
  destruct (place_flag P st i v c Hi Hv HP Hb) as [Hsame Hgrow].
  pose proof (place_new P st i v c Hi Hv HP Hb Hg Ht Hbus Hord) as Hnew'.
  fold id next v' in Hat, Hsame, Hgrow, Hnew'.
  split; cbn [Hardware_ Volumes controllerSpecs occupiedSlots wasMutated]; try done.
  - apply Hi.
  - apply Hi.
  - rewrite length_insert. apply Hi.
  - intros j w Hj [? ?]. rewrite Hat, decide_False by done. by apply Hi.
  - intros j w Hj. rewrite Hat. destruct (decide (j = i)) as [->|]; [|by apply Hi].
    rewrite Hv in Hj. injection Hj as <-. exists v'. split; [done|by apply placed_refines].
  - intros j w w' b Hj Hbn. rewrite Hat. destruct (decide (j = i)) as [->|]; [|by apply (li_bus _ _ Hi j w w')].
    intros [= <-]. rewrite Hv in Hj. injection Hj as <-. unfold v', placed. simpl. rewrite Hbn. intros [= <-].
    unfold target_type in Ht. case_decide; rewrite <-?Ht; auto.
  - intros cd s ? ?. apply Hsl. left. by apply (li_cdrom _ _ Hi cd).
  - intros j w s. rewrite Hat. destruct (decide (j = i)) as [->|].
    + intros [= <-] _ Hs. destruct (place_slot st v c Ht Hbus s Hs) as [Hs1 Hu]. left. apply Hsl. auto.
    + intros Hw HPj Hs. destruct (li_closed _ _ Hi j w s Hw ltac:(tauto) Hs) as [?|?]; [|by right].
      left. apply Hsl. by left.
  - apply Hi.
  - apply Hi.
Qed.

(** Either no unit number is asked for, or the placement is complete. *)
Definition clean (v : VirtualMachineVolume) : Prop :=
  vol_UnitNumber v = None ∨ explicit v = true.

Lemma explicit_type v : explicit v = true → vol_ControllerType v ≠ NoControllerType.
Proof.
  unfold explicit. destruct (vol_ControllerBusNumber v), (vol_UnitNumber v); try done.
  intros ?. by bool_to_prop.
Qed.

Lemma clean_slot v s :
  clean v → vol_slot v = Some s →
  is_Some (vol_UnitNumber v) ∧ target_type v = vol_ControllerType v ∧
  vol_ControllerBusNumber v = Some (cid_BusNumber s.1) ∧ vol_ControllerType v = cid_Type s.1.
Proof.
  intros Hc Hs. assert (explicit v = true) as Hne%explicit_type.
  { destruct Hc as [HN|]; [|done]. unfold vol_slot in Hs. rewrite HN in Hs.
    by destruct (vol_ControllerBusNumber v). }
  unfold vol_slot in Hs. unfold target_type. rewrite decide_False by done.
  destruct (vol_ControllerBusNumber v), (vol_UnitNumber v); simplify_eq/=. eauto.
Qed.

(** One iteration. *)
Lemma process_volume_ok P st i v :
  loop_inv P st → vols0 !! i = Some v → P i → clean v →
  (is_Some (vol_UnitNumber v) → ∀ j w, vols0 !! j = Some w → vol_UnitNumber w = None → P j) →
  loop_inv (λ j, P j ∧ j ≠ i) (process_volume st i).
Proof.
  intros Hi Hv HP Hcl Hord. unfold process_volume. rewrite (li_todo _ _ Hi i v Hv HP).
  assert (specs_ok (controllerSpecs st)) as Hok
    by (rewrite (li_specs _ _ Hi); apply NewControllerSpecs_ok).
  pose proof (determine_ok v (controllerSpecs st) (occupiedSlots st) Hok) as Hd.
  destruct (determineTargetController v (controllerSpecs st) (occupiedSlots st)) as [[c|] occ'];
    destruct Hd as [Hocc Hd]; cbv zeta beta iota.
  2: { apply (loop_inv_skip P st occ' i v); try done. intros s Hs.
       destruct (clean_slot v s Hcl Hs) as (_ & Htt & Hb & Ht).
       destruct (Hd _ Hb) as [Hg Hm]. rewrite Htt, Ht in *. right. right. split; [done|].
       rewrite Hm. unfold CountControllers. case_match; lia. }
  destruct Hd as (b & Hid & Hb & Hrange & Hg).
  destruct (0 <=? cid_BusNumber (GenerateControllerID (Some c))) eqn:Hpos; bool_to_prop.
  2: { apply (loop_inv_skip P st occ' i v); try done. intros s Hs.
       destruct (clean_slot v s Hcl Hs) as (_ & _ & Hvb & _).
       right. left. specialize (Hb _ Hvb). rewrite Hid in Hpos. simpl in Hpos. lia. }
  set (st1 := mkState _ _ _ _ _).
  pose proof (ensure_controller_ok P st1 c (loop_inv_slots P st occ' Hi Hocc) Hpos) as He. rewrite Hid in He. simpl in He.
  specialize (He Hg). rewrite Hid. destruct (ensure_controller _ c st1) as [st2 []].
  - destruct He as (Hi2 & _ & Hg2). rewrite <-Hid.
    apply place_volume_ok; rewrite ?Hid; simpl; try done.
    + rewrite Hid in Hpos. done.
    + intros b' Hb'. symmetry. auto.
  - destruct He as [-> Hclosed]. apply (loop_inv_skip P st occ' i v); try done. intros s Hs.
    destruct (clean_slot v s Hcl Hs) as (_ & Htt & Hvb & Ht).
    apply (slot_closed_ext _ (occupiedSlots st1)); [by intros; rewrite Hocc|].
    specialize (Hclosed s.2). rewrite (Hb _ Hvb), Htt, Ht in Hclosed.
    by destruct s as [[] ?].
Qed.

(** The loop over volumes, for any invariant one iteration preserves: explicit
    volumes come before those without a unit number. *)
Definition step_preserves (Inv : (nat → Prop) → vmState → Prop) : Prop :=
  ∀ P st i v, Inv P st → vols0 !! i = Some v → P i → clean v →
    (is_Some (vol_UnitNumber v) → ∀ j w, vols0 !! j = Some w → vol_UnitNumber w = None → P j) →
    Inv (λ j, P j ∧ j ≠ i) (process_volume st i).

Lemma processVolumes_inv (Inv : (nat → Prop) → vmState → Prop) ids P st :
  step_preserves Inv → (∀ P Q st, (∀ j, P j ↔ Q j) → Inv P st → Inv Q st) →
  Inv P st → NoDup ids →
  (∀ i, i ∈ ids → P i ∧ ∃ v, vols0 !! i = Some v ∧ clean v ∧
     (is_Some (vol_UnitNumber v) →
      ∀ j w, vols0 !! j = Some w → vol_UnitNumber w = None → P j ∧ j ∉ ids)) →
  Inv (λ j, P j ∧ j ∉ ids) (processVolumes ids st).
Proof.
  intros Hstep Hext. revert P st. induction ids as [|i ids IH]; intros P st Hi Hnd Hids; simpl.
  { eapply Hext; [|exact Hi]. intros j. split; [|tauto].
    intros ?. split; [done|apply not_elem_of_nil]. }
  apply NoDup_cons in Hnd as [Hni Hnd].
  destruct (Hids i) as (HPi & v & Hv & Hcl & Hord); [by left|].
  eapply Hext; [|apply (IH (λ j, P j ∧ j ≠ i))]; [| |done|].
  - intros j. rewrite not_elem_of_cons. tauto.
  - apply (Hstep P st i v); try done. intros Hs j w Hj Hw. by apply (Hord Hs j w Hj Hw).
  - intros k Hk. destruct (Hids k) as (HPk & w & Hw & Hclw & Hordw); [by right|].
    assert (k ≠ i) by (by intros ->). split; [done|]. exists w. split_and!; try done.
    intros Hs j x Hj Hx. destruct (Hordw Hs j x Hj Hx) as [? Hn].
    rewrite not_elem_of_cons in Hn. tauto.
Qed.
End Loop.

(** ** The whole mutator *)

Lemma elem_of_indices P vols i :
  i ∈ indices_where P vols ↔ ∃ v, vols !! i = Some v ∧ P v = true.
Proof.
  unfold indices_where. rewrite list_elem_of_filter, elem_of_seq. split.
  - intros [Hm _]. destruct (vols !! i) as [v|]; [|done]. eauto.
  - intros (v & Hv & HP). rewrite Hv. split; [done|]. apply lookup_lt_Some in Hv. lia.
Qed.

Lemma NoDup_indices P vols : NoDup (indices_where P vols).
Proof. apply NoDup_filter, NoDup_seq. Qed.

(** The occupied slots before the loop are those of the CD-ROMs. *)
Lemma cdrom_slots_iff cds s :
  s.2 ∈ slots_at (foldl add_cdrom_slot ∅ cds) s.1 ↔ ∃ cd, cd ∈ cds ∧ cdrom_slot cd = Some s.
Proof.
  induction cds as [|cd cds IH] using rev_ind; [set_solver|]. rewrite foldl_snoc.
  setoid_rewrite elem_of_app. unfold add_cdrom_slot at 1. destruct (cdrom_slot cd) as [[id u]|] eqn:E.
  - rewrite slots_at_insert, !slots_at_init. destruct s as [id' u']. simpl in *.
    case_decide; set_solver.
  - rewrite IH. set_solver.
Qed.

Definition initial_state (hw : option VirtualMachineHardwareSpec)
    (vols : list VirtualMachineVolume) : vmState :=
  mkState hw vols (NewControllerSpecs hw) (foldl add_cdrom_slot ∅ (cdroms hw)) false.

Lemma AddControllers_inv hw vols (Inv : (nat → Prop) → vmState → Prop) :
  step_preserves vols Inv → (∀ P Q st, (∀ j, P j ↔ Q j) → Inv P st → Inv Q st) →
  Inv (λ j, is_Some (vols !! j)) (initial_state hw vols) →
  (∀ v, v ∈ vols → clean v) → vols ≠ [] →
  ∃ st, AddControllersForVolumes hw vols = (Hardware_ st, Volumes st, wasMutated st) ∧
        Inv (λ _, False) st.
Proof.
  intros Hstep Hext H0 Hcl Hne. unfold AddControllersForVolumes. destruct vols as [|v0 vols0]; [done|].
  fold (initial_state hw (v0 :: vols0)).
  set (vols := v0 :: vols0) in *. clearbody vols. eexists. split; [reflexivity|].
  assert (∀ i v, vols !! i = Some v → clean v) as Hcl'
    by (intros i v Hv; apply Hcl; by eapply list_elem_of_lookup_2).
  eapply Hext; [|apply (processVolumes_inv vols Inv _
    (λ j, is_Some (vols !! j) ∧ j ∉ indices_where explicit vols)); [done|done| |apply NoDup_indices|]].
  - intros j. split; [|done]. intros [[[v Hv] He] Hn]. rewrite !elem_of_indices in *.
    destruct (explicit v) eqn:E; [apply He|apply Hn]; exists v; [done|by rewrite E].
  - apply (processVolumes_inv vols Inv); [done|done|done|apply NoDup_indices|].
    intros i (v & Hv & He)%elem_of_indices. rewrite Hv. split; [done|]. exists v.
    split_and!; [done|by eapply Hcl'|]. intros _ j w Hj Hw. rewrite Hj, elem_of_indices.
    split; [done|]. intros (w' & Hw' & He'). rewrite Hj in Hw'. injection Hw' as <-. unfold explicit in He'.
    rewrite Hw in He'. by destruct (vol_ControllerBusNumber w).
  - intros i (v & Hv & He)%elem_of_indices. apply negb_true_iff in He.
    rewrite Hv, elem_of_indices. split; [split; [done|]; naive_solver congruence|].
    exists v. split_and!; [done|by eapply Hcl'|]. intros [u Hu].
    destruct (Hcl' i v Hv); congruence.
Qed.

Lemma loop_inv_initial hw vols :
  loop_inv hw vols (λ j, is_Some (vols !! j)) (initial_state hw vols).
Proof.
  split; cbn [initial_state Hardware_ Volumes controllerSpecs occupiedSlots wasMutated]; try done.
  - intros i v Hv. exists v. split; [done|]. split; [done|by left|done|done].
  - intros i v v' b Hv HN Hv'. simplify_eq. congruence.
  - intros cd s ? ?. apply cdrom_slots_iff. eauto.
  - intros i v s Hv []. by rewrite Hv.
  - intros i v v' s Hv _ []. by rewrite Hv.
  - intros t. lia.
Qed.

Lemma AddControllers_ok hw vols :
  (∀ v, v ∈ vols → clean v) → vols ≠ [] →
  ∃ st, AddControllersForVolumes hw vols = (Hardware_ st, Volumes st, wasMutated st) ∧
        loop_inv hw vols (λ _, False) st.
Proof.
  apply AddControllers_inv.
  - intros P st i v. apply process_volume_ok.
  - intros P Q st. apply loop_inv_ext.
  - apply loop_inv_initial.
Qed.

(** ** Properties *)


(** The volume mutator reports a mutation exactly when it changed the
    VM; it keeps the controllers of the spec and never adds one of a type that
    has reached its limit. *)
Theorem volume_mutation_flag (hw : option VirtualMachineHardwareSpec)
    (vols : list VirtualMachineVolume) :
  (∀ v, v ∈ vols → clean v) →
  let '(hw', vols', mutated) := AddControllersForVolumes hw vols in
  (mutated = true ↔ (hw', vols') ≠ (hw, vols)) ∧
  (∀ c, c ∈ hw_controllers (default emptyHardware hw) →
        c ∈ hw_controllers (default emptyHardware hw')) ∧
  (∀ t, CountControllers (NewControllerSpecs hw') t ≤
        Z.max (type_MaxCount t) (CountControllers (NewControllerSpecs hw) t)).
Proof.
  intros Hcl. destruct (decide (vols = [])) as [->|Hne].
  { simpl. split_and!; [naive_solver|done|intros; lia]. }
  destruct (AddControllers_ok hw vols Hcl Hne) as (st & -> & Hi). split_and!.
  - split.
    + intros Hm. by apply weight_neq, Hi.
    + intros Hne'. destruct (wasMutated st) eqn:Em; [done|].
      destruct (li_same _ _ _ _ Hi Em) as [Hh Hv]. congruence.
  - by apply Hi.
  - rewrite <-(li_specs _ _ _ _ Hi). by apply Hi.
Qed.

#[local] Arguments pvc_defaults : simpl never.

Lemma SetPVC_foldl vols out mut :
  foldl (λ '(out, mut) v, let '(v', m) := pvc_defaults v in (out ++ [v'], mut || m)) (out, mut) vols =
  (out ++ (fst ∘ pvc_defaults <$> vols), mut || existsb (snd ∘ pvc_defaults) vols).
Proof.
  revert out mut. induction vols as [|v vols IH]; intros out mut; simpl.
  { by rewrite app_nil_r, orb_false_r. }
  destruct (pvc_defaults v) as [v' m]. rewrite IH. simpl. by rewrite <-app_assoc, orb_assoc.
Qed.

Lemma pvc_defaults_flag v : (pvc_defaults v).2 = true ↔ (pvc_defaults v).1 ≠ v.
Proof.
  destruct v as [n a t b u d s]. unfold pvc_defaults, default_mode. simpl.
  destruct a; repeat case_decide; simplify_eq/=; split; try done; try congruence;
    intros Hn; by destruct Hn.
Qed.

Lemma pvc_defaults_idem v : (pvc_defaults (pvc_defaults v).1).2 = false.
Proof.
  destruct v as [n a t b u d s]. unfold pvc_defaults, default_mode.
  destruct a; simpl; repeat case_decide; simplify_eq/=; done.
Qed.

Lemma existsb_flag vols :
  existsb (snd ∘ pvc_defaults) vols = true ↔ (fst ∘ pvc_defaults <$> vols) ≠ vols.
Proof.
  induction vols as [|v vols IH]; [naive_solver|]. rewrite fmap_cons. cbn [existsb].
  change ((snd ∘ pvc_defaults) v) with (pvc_defaults v).2.
  change ((fst ∘ pvc_defaults) v) with (pvc_defaults v).1.
  rewrite orb_true_iff, pvc_defaults_flag, IH. split.
  - intros [?|?] [= ? ?]; done.
  - intros Hne. destruct (decide ((pvc_defaults v).1 = v)) as [Hv|]; [right|by left].
    intros Heq. apply Hne. by rewrite Hv, Heq.
Qed.

(** SetPVCVolumeDefaults reports a mutation exactly when a mode was
    unset, leaves no mode unset, and does nothing the second time. *)
Theorem pvc_defaults_settle (vols : list VirtualMachineVolume) :
  let '(vols', mutated) := SetPVCVolumeDefaults vols in
  (mutated = true ↔ vols' ≠ vols) ∧
  (∀ v, v ∈ vols' → DiskMode v ≠ "" ∧ SharingMode v ≠ "") ∧
  SetPVCVolumeDefaults vols' = (vols', false).
Proof.
  unfold SetPVCVolumeDefaults. rewrite SetPVC_foldl. simpl. split_and!.
  - apply existsb_flag.
  - intros v (w & -> & _)%list_elem_of_fmap. unfold compose.
    destruct w as [n a t b u d s]. unfold pvc_defaults, default_mode.
    destruct a; simpl; repeat case_decide; simpl; done.
  - rewrite SetPVC_foldl. simpl. f_equal.
    + rewrite <-list_fmap_compose. apply list_fmap_ext. intros i v _. unfold compose.
      destruct (decide ((pvc_defaults (pvc_defaults v).1).1 = (pvc_defaults v).1)) as [|Hn]; [done|].
      apply pvc_defaults_flag in Hn. by rewrite pvc_defaults_idem in Hn.
    + induction vols as [|v vols IH]; [done|]. rewrite fmap_cons. cbn [existsb].
      change ((snd ∘ pvc_defaults) ((fst ∘ pvc_defaults) v)) with (pvc_defaults (pvc_defaults v).1).2.
      by rewrite pvc_defaults_idem.
Qed.

(** ** A concrete VM: one SATA CD-ROM, an explicit SATA volume, two volumes
    without a placement. *)

Definition ex_vol (n : string) (t : VirtualControllerType) (b u : option Z) : VirtualMachineVolume :=
  mkVolume n (OtherApplicationType "") t b u "" "".

Definition ex_hw : option VirtualMachineHardwareSpec :=
  Some (mkHardware [] [mkSATA 0] [] []
    [mkCdrom "cd" VirtualControllerTypeSATA (Some 0) (Some 0)]).

Definition ex_vols : list VirtualMachineVolume :=
  [ex_vol "a" NoControllerType None None; ex_vol "b" VirtualControllerTypeSATA (Some 0) (Some 1);
   ex_vol "c" VirtualControllerTypeSATA None None].

Lemma ex_vols_clean : ∀ v, v ∈ ex_vols → clean v.
Proof.
  intros v. unfold ex_vols. rewrite !elem_of_cons, elem_of_nil.
  intros [->|[->|[->|[]]]]; [by left|by right|by left].
Qed.

Example ex_volumes_run :
  AddControllersForVolumes ex_hw ex_vols =
  (Some (mkHardware
     [mkSCSI 0 VirtualControllerSharingModeNone SCSIControllerTypeParaVirtualSCSI] [mkSATA 0] [] []
     [mkCdrom "cd" VirtualControllerTypeSATA (Some 0) (Some 0)]),
   [ex_vol "a" VirtualControllerTypeSCSI (Some 0) (Some 0);
    ex_vol "b" VirtualControllerTypeSATA (Some 0) (Some 1);
    ex_vol "c" VirtualControllerTypeSATA (Some 0) (Some 2)], true).
Proof. vm_compute. reflexivity. Qed.


Lemma volume_mutation_flag_witness :
  let '(hw', vols', mutated) := AddControllersForVolumes ex_hw ex_vols in
  mutated = true ↔ (hw', vols') ≠ (ex_hw, ex_vols).
Proof.
  pose proof (volume_mutation_flag ex_hw ex_vols ex_vols_clean) as Hu.
  destruct (AddControllersForVolumes ex_hw ex_vols) as [[hw' vols'] m]. by destruct Hu as [? _].
Defined.
