(* ===== verification/VolumeRoom.v ===== *)
(** * When the volume mutator leaves a volume without a slot

    A second invariant of the loop of [VolumeMutator]: every slot recorded as
    occupied is held by a CD-ROM or a volume of the spec, and a volume that was
    processed and has no unit number had no room. *)

From S2P Require Import Prelude Hardware VolumeMutator.
Local Open Scope Z_scope.

(** Every unit number of the controller is taken. *)
Definition full (occ : OccupiedSlots) (c : Controller) (id : ControllerID) : Prop :=
  ∀ u, assignable c u → u ∈ slots_at occ id.

(** No unit number can be given to [v]: on the controller it names, or, when it
    names none, on any controller that could be used or added. *)
Definition no_room (specs : ControllerSpecs) (occ : OccupiedSlots) (v : VirtualMachineVolume) : Prop :=
  let t := target_type v in
  match vol_ControllerBusNumber v with
  | Some b => b < 0 ∨ (Get specs t b = None ∧ type_MaxCount t ≤ CountControllers specs t) ∨
      ∃ c, Get specs t b = Some c ∧ full occ c (mkControllerID t b)
  | None => type_MaxCount t ≤ CountControllers specs t ∧
      ∀ b c, 0 ≤ b < type_MaxCount t → Get specs t b = Some c →
        GetControllerSharingMode c = DefaultControllerSharingMode v →
        full occ c (mkControllerID t b)
  end.

(** What one iteration does to controllers and slots. *)
Definition specs_grow (specs specs' : ControllerSpecs) : Prop :=
  specs' = specs ∨ ∃ t b c, specs' = Set_ t b c specs ∧ Get specs t b = None ∧
    CountControllers specs t < type_MaxCount t.

Lemma no_room_mono specs specs' occ occ' v :
  specs_grow specs specs' → (∀ id, slots_at occ id ⊆ slots_at occ' id) →
  no_room specs occ v → no_room specs' occ' v.
Proof.
  intros Hg Hocc. assert (∀ c id, full occ c id → full occ' c id) as Hf
    by (intros c id Hf u Hu; by apply Hocc, Hf).
  destruct Hg as [->|(t & b & c & -> & HN & Hc)]; unfold no_room.
  { destruct (vol_ControllerBusNumber v); [|naive_solver]. intros [?|[?|(c & ? & ?)]]; eauto 6. }
  destruct (vol_ControllerBusNumber v) as [vb|].
  - intros [?|[[HN' Hm]|(c' & Hg & ?)]]; [by left| |].
    + right. left. rewrite Get_Set, Count_Set. rewrite !decide_False by (intros [Heq ?]; rewrite Heq in *; lia).
      split; [done|lia].
    + right. right. exists c'. rewrite Get_Set, decide_False by naive_solver congruence. eauto.
  - intros [Hm Hall]. rewrite Count_Set.
    assert (target_type v ≠ t) as Hne by (intros Heq; rewrite Heq in *; lia).
    rewrite decide_False by naive_solver. split; [lia|].
    intros b' c' Hb'. rewrite Get_Set, decide_False by naive_solver. eauto.
Qed.

(** ** The search fails only without room *)

Lemma find_available_full buses t sm specs occ :
  (find_available buses t sm specs occ).1 = None →
  ∀ b c, b ∈ buses → Get specs t b = Some c → GetControllerSharingMode c = sm →
    full occ c (mkControllerID t b).
Proof.
  revert occ. induction buses as [|b0 buses IH]; intros occ Hf b c Hb Hg Hs; [by apply not_elem_of_nil in Hb|].
  cbn [find_available] in Hf. destruct (Get specs t b0) as [c0|] eqn:Hg0.
  - cbv zeta in Hf. destruct (_ && _) eqn:E; [done|].
    assert (∀ b c, b ∈ buses → Get specs t b = Some c → GetControllerSharingMode c = sm →
      full occ c (mkControllerID t b)) as Hrest.
    { intros b' c' ? ? ?. intros u Hu. erewrite <-slots_at_init. by eapply (IH _ Hf b' c'). }
    apply elem_of_cons in Hb as [->|Hb]; [|by eapply Hrest]. rewrite Hg in Hg0. injection Hg0 as <-.
    rewrite bool_decide_true, andb_true_l, slots_at_init in E by done. apply Z.leb_gt in E.
    intros u Hu. destruct (next_available_cases c (slots_at occ (mkControllerID t b0)))
      as [[_ Hall]|(_ & ? & _)]; [by apply Hall|lia].
  - apply elem_of_cons in Hb as [->|Hb]; [congruence|by eapply IH].
Qed.

Lemma find_unused_None buses t sm specs :
  find_unused buses t sm specs = None →
  type_MaxCount t = 0 ∨ ∀ b, b ∈ buses → is_Some (Get specs t b).
Proof.
  induction buses as [|b buses IH]; simpl; intros Hf; [right; by intros ? ?%not_elem_of_nil|].
  destruct (Get specs t b) as [c|] eqn:Hg; [|left; by eapply Create_None].
  destruct (IH Hf) as [?|Hall]; [by left|right]. intros b' [->|?]%elem_of_cons; eauto.
Qed.

(** A type whose bus numbers are all in use has reached its limit. *)
Lemma all_buses_count specs t :
  (∀ b, b ∈ seqZ 0 (type_MaxCount t) → is_Some (Get specs t b)) →
  type_MaxCount t ≤ CountControllers specs t.
Proof.
  intros Hall. unfold Get, CountControllers in *. destruct (specs !! t) as [m|].
  - assert (list_to_set (seqZ 0 (type_MaxCount t)) ⊆ dom m) as Hsub%subseteq_size.
    { intros b Hb%elem_of_list_to_set. by apply elem_of_dom, Hall. }
    rewrite size_list_to_set, length_seqZ, size_dom in Hsub by apply NoDup_seqZ. lia.
  - destruct (decide (type_MaxCount t ≤ 0)) as [?|Hpos]; [done|].
    destruct (Hall 0) as [? ?]; [apply elem_of_seqZ; lia|done].
Qed.

(** The target is missing or new only when no controller could be used. *)
Lemma determine_room v specs occ :
  vol_ControllerBusNumber v = None →
  let '(r, occ') := determineTargetController v specs occ in
  (∃ c b, r = Some c ∧ Get specs (target_type v) b = Some c) ∨
  (∀ b c, 0 ≤ b < type_MaxCount (target_type v) → Get specs (target_type v) b = Some c →
     GetControllerSharingMode c = DefaultControllerSharingMode v →
     full occ c (mkControllerID (target_type v) b)) ∧
  (r = None → type_MaxCount (target_type v) ≤ CountControllers specs (target_type v)).
Proof.
  intros HN. unfold determineTargetController. fold (target_type v). rewrite HN.
  set (buses := seqZ 0 (type_MaxCount (target_type v))). set (sm := DefaultControllerSharingMode v).
  pose proof (find_available_full buses (target_type v) sm specs occ) as Hf.
  pose proof (find_available_ok buses (target_type v) sm specs occ) as Ho.
  destruct (find_available buses (target_type v) sm specs occ) as [[c|] occ'].
  { left. destruct Ho as (_ & b & _ & ?). eauto. }
  right. split.
  - intros b c Hb. apply (Hf eq_refl b c). apply elem_of_seqZ. lia.
  - intros Hu. destruct (find_unused_None _ _ _ _ Hu) as [->|Hall]; [|by apply all_buses_count].
    unfold CountControllers. case_match; lia.
Qed.

(** ** The invariant *)

Section Room.
Context (hw0 : option VirtualMachineHardwareSpec) (vols0 : list VirtualMachineVolume).

Definition held (P : nat → Prop) (st : vmState) (s : ControllerID * Z) : Prop :=
  (∃ cd, cd ∈ cdroms hw0 ∧ cdrom_slot cd = Some s) ∨
  (∃ j w, ¬ P j ∧ Volumes st !! j = Some w ∧ vol_slot w = Some s).

Record room_inv (P : nat → Prop) (st : vmState) : Prop := {
  ri_room i v : Volumes st !! i = Some v → ¬ P i → vol_UnitNumber v = None →
    no_room (controllerSpecs st) (occupiedSlots st) v;
  ri_held id u : u ∈ slots_at (occupiedSlots st) id → held P st (id, u)
}.

Lemma room_inv_ext P Q st : (∀ j, P j ↔ Q j) → room_inv P st → room_inv Q st.
Proof.
  intros HPQ [Hr Hh]. split.
  - intros i v. rewrite <-HPQ. apply Hr.
  - intros id u Hu. destruct (Hh id u Hu) as [?|(j & w & ? & ?)]; [by left|right].
    exists j, w. by rewrite <-HPQ.
Qed.

(** A volume that is left as it is. *)
Lemma room_skip P st occ' i v :
  loop_inv hw0 vols0 P st → room_inv P st → vols0 !! i = Some v → P i →
  (∀ id, slots_at occ' id = slots_at (occupiedSlots st) id) →
  (vol_UnitNumber v = None → no_room (controllerSpecs st) (occupiedSlots st) v) →
  room_inv (λ j, P j ∧ j ≠ i)
    (mkState (Hardware_ st) (Volumes st) (controllerSpecs st) occ' (wasMutated st)).
Proof.
  intros Hi [Hr Hh] Hv HP Hocc Hnr. pose proof (li_todo _ _ _ _ Hi i v Hv HP) as Hiv.
  split; cbn [Hardware_ Volumes controllerSpecs occupiedSlots wasMutated].
  - intros j w Hw HPj Hu. apply (no_room_mono (controllerSpecs st) _ (occupiedSlots st));
      [by left|by intros id; rewrite Hocc|].
    destruct (decide (j = i)) as [->|]; [simplify_eq; auto|]. eapply Hr; [done|tauto|done].
  - intros id u Hu. rewrite Hocc in Hu. destruct (Hh id u Hu) as [?|(j & w & ? & ?)]; [by left|right].
    exists j, w. split; [tauto|done].
Qed.

Lemma ensure_controller_cases id c st :
  0 ≤ cid_BusNumber id → MaxCount c = type_MaxCount (cid_Type id) →
  match ensure_controller id c st with
  | (st', true) => Volumes st' = Volumes st ∧ occupiedSlots st' = occupiedSlots st ∧
      specs_grow (controllerSpecs st) (controllerSpecs st')
  | (st', false) => append_controller c (default emptyHardware (Hardware_ st)) = None ∨
      (Get (controllerSpecs st) (cid_Type id) (cid_BusNumber id) = None ∧
       type_MaxCount (cid_Type id) ≤ CountControllers (controllerSpecs st) (cid_Type id))
  end.
Proof.
  intros Hb Hm. unfold ensure_controller.
  destruct (Get _ _ _) as [c'|] eqn:E; [split_and!; [done..|by left]|]. rewrite Hm.
  destruct (_ <=? _) eqn:Hle; bool_to_prop; [by right|].
  destruct (append_controller _ _) eqn:Ha; [|by left].
  split_and!; [done..|]. right. exists (cid_Type id), (cid_BusNumber id), c. done.
Qed.

Lemma room_place P st i v c :
  let id := GenerateControllerID (Some c) in
  loop_inv hw0 vols0 P st → room_inv P st → vols0 !! i = Some v → P i → 0 ≤ cid_BusNumber id →
  Get (controllerSpecs st) (cid_Type id) (cid_BusNumber id) = Some c →
  target_type v = cid_Type id →
  (∀ b, vol_ControllerBusNumber v = Some b → b = cid_BusNumber id) →
  room_inv (λ j, P j ∧ j ≠ i) (place_volume id c i v st).
Proof.
  intros id Hi [Hr Hh] Hv HP Hb Hg Ht Hbus.
  assert (cid_Type id ≠ NoControllerType) as Hid by (by destruct c; vm_compute in Hb).
  rewrite place_volume_eq by done.
  set (next := NextAvailableUnitNumber (Some c) (slots_at (occupiedSlots st) id)).
  set (v' := placed id next v). pose proof (li_todo _ _ _ _ Hi i v Hv HP) as Hiv.
  assert (<[i:=v']> (Volumes st) !! i = Some v') as Hati
    by (apply list_lookup_insert_eq; by eapply lookup_lt_Some).
  pose proof (slots_at_claim id (vol_UnitNumber v') (occupiedSlots st)) as Hsl.
  assert (vol_ControllerType v' = cid_Type id ∧ vol_ControllerBusNumber v' = Some (cid_BusNumber id))
    as [Ht' Hb'].
  { unfold v', placed. simpl. unfold target_type in Ht. split; [by case_decide|].
    destruct (vol_ControllerBusNumber v) as [b|]; simpl; [by rewrite (Hbus b)|done]. }
  split; cbn [Hardware_ Volumes controllerSpecs occupiedSlots wasMutated].
  - intros j w Hw HPj Hu. destruct (decide (j = i)) as [->|Hji].
    + rewrite Hati in Hw. injection Hw as <-. unfold no_room, target_type. rewrite Hb', Ht'.
      rewrite decide_False by done. right. right. exists c. split; [done|]. intros u Hu'.
      apply Hsl. left.
      destruct (next_available_cases c (slots_at (occupiedSlots st) id)) as [[_ Hall]|(_ & Hpos & _)].
      { destruct id. by apply Hall. }
      exfalso. fold next in Hpos. unfold v', placed in Hu. simpl in Hu.
      rewrite (proj2 (Z.leb_le 0 next)) in Hu by done. by destruct (vol_UnitNumber v).
    + rewrite list_lookup_insert_ne in Hw by done.
      apply (no_room_mono (controllerSpecs st) _ (occupiedSlots st)); [by left| |].
      * intros id' u Hu'. apply Hsl. by left.
      * apply (Hr j w Hw); [tauto|done].
  - intros id' u [Hu|[-> Hu]]%Hsl.
    + destruct (Hh id' u Hu) as [?|(j & w & HPj & Hw & Hs)]; [by left|right].
      exists j, w. split; [tauto|]. split; [|done]. cbn [Volumes].
      rewrite list_lookup_insert_ne; [done|by intros ->].
    + right. exists i, v'. split; [tauto|]. split; [done|]. unfold vol_slot.
      rewrite Hb', Hu, Ht'. by destruct id.
Qed.

Lemma room_step P st i v :
  loop_inv hw0 vols0 P st → room_inv P st → vols0 !! i = Some v → P i → clean v →
  room_inv (λ j, P j ∧ j ≠ i) (process_volume st i).
Proof.
  intros Hi Hr Hv HP Hcl. unfold process_volume. rewrite (li_todo _ _ _ _ Hi i v Hv HP).
  assert (specs_ok (controllerSpecs st)) as Hok
    by (rewrite (li_specs _ _ _ _ Hi); apply NewControllerSpecs_ok).
  pose proof (determine_ok v (controllerSpecs st) (occupiedSlots st) Hok) as Hd.
  pose proof (determine_room v (controllerSpecs st) (occupiedSlots st)) as Hroom.
  destruct (determineTargetController v (controllerSpecs st) (occupiedSlots st)) as [[c|] occ'];
    destruct Hd as [Hocc Hd]; cbv zeta beta iota.
  2: { apply (room_skip P st occ' i v); try done. intros _. unfold no_room.
       destruct (vol_ControllerBusNumber v) as [b|].
       - destruct (Hd b eq_refl) as [Hg ->]. right. left. split; [done|].
         unfold CountControllers. case_match; lia.
       - destruct (Hroom eq_refl) as [(? & ? & ? & _)|[Hf Hm]]; [done|]. split; [by apply Hm|done]. }
  destruct Hd as (b & Hid & Hb & Hrange & Hg).
  destruct (0 <=? cid_BusNumber (GenerateControllerID (Some c))) eqn:Hpos; bool_to_prop.
  2: { rewrite Hid in Hpos. simpl in Hpos. apply (room_skip P st occ' i v); try done. intros _.
       unfold no_room. destruct (vol_ControllerBusNumber v) as [b'|].
       - left. specialize (Hb _ eq_refl). lia.
       - specialize (Hrange eq_refl). lia. }
  set (st1 := mkState _ _ _ _ _).
  pose proof (ensure_controller_cases _ c st1 Hpos (MaxCount_id c Hpos)) as He.
  pose proof (ensure_controller_ok _ _ P st1 c (loop_inv_slots _ _ _ _ _ Hi Hocc) Hpos) as Hok1.
  rewrite Hid in *. cbn [cid_Type cid_BusNumber] in *. specialize (Hok1 Hg).
  destruct (ensure_controller _ c st1) as [st2 []].
  - destruct He as (Hv2 & Ho2 & Hgr), Hok1 as (Hi2 & _ & Hg2). rewrite <-Hid.
    apply room_place; rewrite ?Hid; cbn [cid_Type cid_BusNumber]; try done.
    + destruct Hr as [Hr Hh]. split.
      * intros j w Hw HPj Hu. rewrite Hv2 in Hw.
        apply (no_room_mono (controllerSpecs st) _ (occupiedSlots st)); [done| |by eapply Hr].
        intros id. rewrite Ho2. simpl. by rewrite Hocc.
      * intros id u. rewrite Ho2. simpl. rewrite Hocc. intros [?|(j & w & ?)]%Hh; [by left|right].
        exists j, w. by rewrite Hv2.
    + intros b' Hb'. symmetry. auto.
  - destruct Hok1 as [-> _], He as [Ha|[HN Hmax]].
    { unfold GenerateControllerID in Hid. destruct c; try done. simplify_eq/=. lia. }
    apply (room_skip P st occ' i v); try done. intros _. unfold no_room.
    destruct (vol_ControllerBusNumber v) as [b'|].
    + rewrite <-(Hb _ eq_refl). right. left. done.
    + destruct (Hroom eq_refl) as [(c' & b' & [= <-] & Hg')|[Hf _]]; [|done].
      pose proof (Hok _ _ _ Hg') as Hid'. rewrite Hid in Hid'. by simplify_eq/=.
Qed.
End Room.

(** ** Properties *)

Lemma room_initial hw vols :
  room_inv hw (λ j, is_Some (vols !! j)) (initial_state hw vols).
Proof.
  split; cbn [initial_state Hardware_ Volumes controllerSpecs occupiedSlots wasMutated].
  - intros i v Hv []. by rewrite Hv.
  - intros id u Hu. left. by apply (cdrom_slots_iff _ (id, u)).
Qed.

(** A volume the mutator leaves without a unit number had no room: the
    controller it names has a negative bus number, is full, or is missing
    while its type has reached its limit; or it names none, its type has reached
    its limit and every controller with its sharing mode is full.  Full means that
    every unit number is held by a CD-ROM or a volume of the result. *)
Theorem volume_unplaced_only_without_room (hw : option VirtualMachineHardwareSpec)
    (vols : list VirtualMachineVolume) :
  (∀ v, v ∈ vols → clean v) →
  let '(hw', vols', _) := AddControllersForVolumes hw vols in
  let specs := NewControllerSpecs hw' in
  let taken s := (∃ cd, cd ∈ cdroms hw' ∧ cdrom_slot cd = Some s) ∨
                 (∃ w, w ∈ vols' ∧ vol_slot w = Some s) in
  let full c t b := ∀ u, assignable c u → taken (mkControllerID t b, u) in
  ∀ v, v ∈ vols' → vol_UnitNumber v = None →
    let t := target_type v in
    match vol_ControllerBusNumber v with
    | Some b => b < 0 ∨ (Get specs t b = None ∧ type_MaxCount t ≤ CountControllers specs t) ∨
        ∃ c, Get specs t b = Some c ∧ full c t b
    | None => type_MaxCount t ≤ CountControllers specs t ∧
        ∀ b c, 0 ≤ b < type_MaxCount t → Get specs t b = Some c →
          GetControllerSharingMode c = DefaultControllerSharingMode v → full c t b
    end.
Proof.
  intros Hcl. destruct (decide (vols = [])) as [->|Hne]; [by intros ? ?%not_elem_of_nil|].
  destruct (AddControllers_inv hw vols (λ P st, loop_inv hw vols P st ∧ room_inv hw P st))
    as (st & -> & Hi & Hr); [| | |done|done|].
  - intros P st i v [Hi Hr] Hv HP Hclv Hord.
    split; [by eapply process_volume_ok|by eapply room_step].
  - intros P Q st HPQ []. split; [by eapply loop_inv_ext|by eapply room_inv_ext].
  - split; [apply loop_inv_initial|apply room_initial].
  - intros specs taken full' v [i Hv]%list_elem_of_lookup_1 Hu t.
    assert (∀ c b, full (occupiedSlots st) c (mkControllerID t b) → full' c t b) as Hf.
    { intros c b Hf u [(cd & ? & ?)|(j & w & _ & ? & ?)]%Hf%(ri_held _ _ _ Hr); unfold taken.
      - left. exists cd. by rewrite (li_cdroms _ _ _ _ Hi).
      - right. exists w. split; [by eapply list_elem_of_lookup_2|done]. }
    pose proof (ri_room _ _ _ Hr i v Hv ltac:(tauto) Hu) as Hn. unfold no_room in Hn.
    rewrite (li_specs _ _ _ _ Hi) in Hn. fold specs t in Hn.
    destruct (vol_ControllerBusNumber v) as [b|]; [|naive_solver].
    destruct Hn as [?|[?|(c & ? & ?)]]; eauto 6.
Qed.

(** Five volumes on IDE controllers: the fifth has no slot. *)
Definition ex_ide (n : string) : VirtualMachineVolume :=
  mkVolume n (OtherApplicationType "") VirtualControllerTypeIDE None None "" "".
Definition ex_ides : list VirtualMachineVolume :=
  ex_ide <$> ["a"; "b"; "c"; "d"; "e"].

Example ex_ides_run :
  vol_slot <$> (AddControllersForVolumes None ex_ides).1.2 =
  [Some (mkControllerID VirtualControllerTypeIDE 0, 0); Some (mkControllerID VirtualControllerTypeIDE 0, 1);
   Some (mkControllerID VirtualControllerTypeIDE 1, 0); Some (mkControllerID VirtualControllerTypeIDE 1, 1);
   None].
Proof. vm_compute. reflexivity. Qed.

Lemma volume_unplaced_only_without_room_witness :
  ex_ide "e" ∈ (AddControllersForVolumes None ex_ides).1.2 ∧
  type_MaxCount VirtualControllerTypeIDE ≤
    CountControllers (NewControllerSpecs (AddControllersForVolumes None ex_ides).1.1)
      VirtualControllerTypeIDE.
Proof.
  assert (ex_ide "e" ∈ (AddControllersForVolumes None ex_ides).1.2) as Hin
    by (apply (list_elem_of_lookup_2 _ 4); vm_compute; reflexivity).
  split; [exact Hin|].
  assert (∀ v, v ∈ ex_ides → clean v) as Hcl
    by (intros v (x & -> & _)%list_elem_of_fmap; left; reflexivity).
  pose proof (volume_unplaced_only_without_room None ex_ides Hcl) as H.
  destruct (AddControllersForVolumes None ex_ides) as [[hw' vols'] m].
  apply (H (ex_ide "e") Hin eq_refl).
Defined.
