(* ===== verification/HardwareValidator.v ===== *)
(** * Validation of controllers and slots

    webhooks/virtualmachine/validation/virtualmachine_validator_hardware_controllers.go
    ([validateControllers] and what it calls, up to the checks that read the
    class and the image) and [IsFSRSupported] of pkg/util/vmopv1/vm.go.  The
    validator runs on what the mutators of [VolumeMutator] produced: a slot they
    assigned is accepted.

    A [field.Error] is a value of [FieldError], which names the index of the
    volume or controller and carries the data of the message. *)

From S2P Require Import Prelude Features Hardware VolumeMutator.
Local Open Scope Z_scope.

(** ** Errors *)

Inductive FieldError :=
  | InvalidBusNumber (volume : nat) (bus max : Z)
  | NoSuchController (volume : nat) (t : VirtualControllerType) (bus : Z)
  | InvalidUnitNumber (volume : nat) (unit max : Z)
  | ReservedUnit (volume : nat) (unit : Z)
  | UnitInUse (volume : nat) (t : VirtualControllerType) (bus unit : Z)
  | ControllerFull (volume : nat) (t : VirtualControllerType) (bus max : Z)
  | SCSISharingModeChanged (controller : nat)
  | SCSITypeChanged (controller : nat)
  | NVMESharingModeChanged (controller : nat)
  | HotAddedSCSI (controller : nat)
  | IDECount (n : Z).

(** The index of the volume an error is about. *)
Definition error_volume (e : FieldError) : option nat :=
  match e with
  | InvalidBusNumber i _ _ | NoSuchController i _ _ | InvalidUnitNumber i _ _
  | ReservedUnit i _ | UnitInUse i _ _ _ | ControllerFull i _ _ _ => Some i
  | _ => None
  end.

(** ** The slots of volumes *)

(** One iteration of the loop of [validateControllerSlots]. *)
Definition check_volume (specs : ControllerSpecs) (occ : OccupiedSlots) (i : nat)
    (vol : VirtualMachineVolume) : OccupiedSlots * list FieldError :=
  match vol_ControllerBusNumber vol, vol_UnitNumber vol with
  | Some busNumber, Some unitNum =>
    let t := vol_ControllerType vol in
    if decide (t = NoControllerType) then (occ, [])
    else
    let controllerKey := mkControllerID t busNumber in
    let maxBusNumber := type_MaxCount t in
    if (busNumber <? 0) || (maxBusNumber <=? busNumber)
    then (occ, [InvalidBusNumber i busNumber (maxBusNumber - 1)])
    else
    match Get specs t busNumber with
    | None => (occ, [NoSuchController i t busNumber])
    | Some targetController =>
      let reservedUnit := ReservedUnitNumber targetController in
      let maxSlots := MaxSlots targetController in
      if (unitNum <? 0) || (maxSlots <=? unitNum)
      then (occ, [InvalidUnitNumber i unitNum (maxSlots - 1)])
      else if unitNum =? reservedUnit then (occ, [ReservedUnit i reservedUnit])
      else
        let occ := init_slots controllerKey occ in
        if bool_decide (unitNum ∈ slots_at occ controllerKey)
        then (occ, [UnitInUse i t busNumber unitNum])
        else
          (insert_slot controllerKey unitNum occ,
           if maxSlots <=? Z.of_nat (size (slots_at occ controllerKey))
           then [ControllerFull i t busNumber maxSlots] else [])
    end
  | _, _ => (occ, [])
  end.

Fixpoint check_volumes (specs : ControllerSpecs) (occ : OccupiedSlots) (i : nat)
    (vols : list VirtualMachineVolume) : list FieldError :=
  match vols with
  | [] => []
  | vol :: rest =>
    let '(occ, errs) := check_volume specs occ i vol in
    errs ++ check_volumes specs occ (S i) rest
  end.

Definition validateControllerSlots (hw : VirtualMachineHardwareSpec)
    (vols : list VirtualMachineVolume) : list FieldError :=
  match vols with
  | [] => []
  | _ => check_volumes (NewControllerSpecs (Some hw)) (foldl add_cdrom_slot ∅ (Cdrom hw)) 0 vols
  end.

(** ** Changes of controllers *)

Record VirtualMachine := mkVM {
  vm_Annotations : gmap string string;
  vm_PowerState : string;
  vm_Hardware : option VirtualMachineHardwareSpec;
  vm_Volumes : list VirtualMachineVolume
}.

Definition VirtualMachinePowerStateOn : string := "PoweredOn".

Definition IsFSRSupported (vm : VirtualMachine) : bool :=
  match vm_Hardware vm with
  | None => true
  | Some hw =>
    let controllersWithDisks : gset Z :=
      foldl (λ s vol, match vol_ControllerBusNumber vol with
                      | Some b => if decide (vol_ControllerType vol = VirtualControllerTypeSCSI)
                                  then {[b]} ∪ s else s
                      | None => s
                      end) ∅ (vm_Volumes vm) in
    negb (existsb (λ c, bool_decide (scsi_SharingMode c = VirtualControllerSharingModePhysical) &&
                        bool_decide (scsi_BusNumber c ∈ controllersWithDisks)) (SCSIControllers hw))
  end.

Section Validator.
Context (buildVersion schemaVersion : string) (features : FeatureStates).

Definition upgraded (vm : VirtualMachine) : bool :=
  match IsObjectUpgraded buildVersion schemaVersion features (vm_Annotations vm) with
  | [] => true | _ => false
  end.

Definition validateHotAddedControllers (vm oldVM : VirtualMachine) : list FieldError :=
  match vm_Hardware oldVM, vm_Hardware vm with
  | Some oldHW, Some hw =>
    if negb (upgraded oldVM) then []
    else if IsFSRSupported oldVM then []
    else
      let existingControllers : gset Z := list_to_set (scsi_BusNumber <$> SCSIControllers oldHW) in
      concat (imap (λ i newC, if bool_decide (scsi_BusNumber newC ∈ existingControllers)
                              then [] else [HotAddedSCSI i]) (SCSIControllers hw))
  | _, _ => []
  end.

(** The settings of the old controllers, by bus number; a later controller with
    the same number replaces an earlier one. *)
Definition settings {A} (bus : A → Z) (l : list A) : gmap Z A :=
  foldl (λ m c, <[bus c := c]> m) ∅ l.

Definition check_scsi (old : gmap Z SCSIControllerSpec) (i : nat) (newC : SCSIControllerSpec) :
    list FieldError :=
  match old !! scsi_BusNumber newC with
  | Some oldC =>
    (if decide (scsi_SharingMode newC = scsi_SharingMode oldC) then [] else [SCSISharingModeChanged i]) ++
    (if decide (scsi_Type newC = scsi_Type oldC) then [] else [SCSITypeChanged i])
  | None => []
  end.

Definition check_nvme (old : gmap Z NVMEControllerSpec) (i : nat) (newC : NVMEControllerSpec) :
    list FieldError :=
  match old !! nvme_BusNumber newC with
  | Some oldC => if decide (nvme_SharingMode newC = nvme_SharingMode oldC) then [] else [NVMESharingModeChanged i]
  | None => []
  end.

Definition validateControllerWhenPoweredOn (vm : VirtualMachine) (oldVM : option VirtualMachine) :
    list FieldError :=
  match oldVM with
  | None => []
  | Some oldVM =>
    if negb (bool_decide (vm_PowerState oldVM = VirtualMachinePowerStateOn)) then []
    else
      let oldHW := default emptyHardware (vm_Hardware oldVM) in
      let oldSCSI := settings scsi_BusNumber (SCSIControllers oldHW) in
      let oldNVME := settings nvme_BusNumber (NVMEControllers oldHW) in
      match vm_Hardware vm with
      | None => []
      | Some hw =>
        concat (imap (check_scsi oldSCSI) (SCSIControllers hw)) ++
        concat (imap (check_nvme oldNVME) (NVMEControllers hw)) ++
        validateHotAddedControllers vm oldVM
      end
  end.

Definition validateControllers (vm : VirtualMachine) (oldVM : option VirtualMachine) :
    list FieldError :=
  if negb (VMSharedDisks features) then []
  else if negb (upgraded vm) then []
  else match vm_Hardware vm with
  | None => []
  | Some hw =>
    let numIDEControllers := Z.of_nat (length (IDEControllers hw)) in
    validateControllerWhenPoweredOn vm oldVM ++
    (if numIDEControllers =? type_MaxCount VirtualControllerTypeIDE then []
     else [IDECount numIDEControllers]) ++
    validateControllerSlots hw (vm_Volumes vm)
  end.
End Validator.

(** ** Slots and when they are valid *)

(** The slot of a volume all of whose placement fields are set. *)
Definition full_slot (v : VirtualMachineVolume) : option (ControllerID * Z) :=
  if decide (vol_ControllerType v = NoControllerType) then None else vol_slot v.

(** The bus number is in range and the unit number is one of its controller. *)
Definition valid_slot (specs : ControllerSpecs) (s : ControllerID * Z) : Prop :=
  0 ≤ cid_BusNumber s.1 < type_MaxCount (cid_Type s.1) ∧
  ∃ c, Get specs (cid_Type s.1) (cid_BusNumber s.1) = Some c ∧
    0 ≤ s.2 < MaxSlots c ∧ s.2 ≠ ReservedUnitNumber c.

Definition taken (occ : OccupiedSlots) (s : ControllerID * Z) : Prop := s.2 ∈ slots_at occ s.1.

(** The occupied unit numbers exist on their controllers. *)
Definition in_range (specs : ControllerSpecs) (occ : OccupiedSlots) : Prop :=
  ∀ s c, taken occ s → Get specs (cid_Type s.1) (cid_BusNumber s.1) = Some c → 0 ≤ s.2 < MaxSlots c.

(** A free unit number leaves room below the number of slots. *)
Lemma free_below (m u : Z) (X : gset Z) :
  (∀ x, x ∈ X → 0 ≤ x < m) → 0 ≤ u < m → u ∉ X → Z.of_nat (size X) < m.
Proof.
  intros HX Hu Hn. assert ({[u]} ∪ X ⊆ list_to_set (seqZ 0 m)) as Hs%subseteq_size.
  { intros x Hx. rewrite elem_of_list_to_set, elem_of_seqZ. set_unfold. naive_solver lia. }
  rewrite size_union, size_singleton, size_list_to_set, length_seqZ in Hs
    by (apply NoDup_seqZ || set_solver). lia.
Qed.

(** What the check of one volume amounts to. *)
Definition check_ok (specs : ControllerSpecs) (occ : OccupiedSlots) (i : nat)
    (slot : option (ControllerID * Z)) (r : OccupiedSlots * list FieldError) : Prop :=
  in_range specs r.1 ∧ (∀ e, e ∈ r.2 → error_volume e = Some i) ∧
  (r.2 = [] ↔ ∀ s, slot = Some s → valid_slot specs s ∧ ¬ taken occ s) ∧
  (∀ s, taken r.1 s ↔ taken occ s ∨ (r.2 = [] ∧ slot = Some s)).

Lemma check_skip specs occ i : in_range specs occ → check_ok specs occ i None (occ, []).
Proof. intros Hr. split_and!; simpl; [done|by intros ? ?%not_elem_of_nil|done|naive_solver]. Qed.

Lemma check_reject specs occ occ' i s e :
  in_range specs occ → (∀ id, slots_at occ' id = slots_at occ id) → error_volume e = Some i →
  ¬ (valid_slot specs s ∧ ¬ taken occ s) → check_ok specs occ i (Some s) (occ', [e]).
Proof.
  intros Hr Ho He Hn. split_and!; simpl.
  - intros s' c. unfold taken. rewrite Ho. apply Hr.
  - by intros ? ->%list_elem_of_singleton.
  - split; [done|]. intros Hall. by destruct Hn, (Hall s).
  - intros s'. unfold taken. rewrite Ho. naive_solver.
Qed.

Lemma check_accept specs occ i c id u errs :
  in_range specs occ → 0 ≤ cid_BusNumber id < type_MaxCount (cid_Type id) →
  Get specs (cid_Type id) (cid_BusNumber id) = Some c → 0 ≤ u < MaxSlots c →
  u ≠ ReservedUnitNumber c → ¬ taken occ (id, u) → errs = [] →
  check_ok specs occ i (Some (id, u)) (insert_slot id u (init_slots id occ), errs).
Proof.
  intros Hr Hb Hg Hu Hre Ht ->.
  assert (∀ s, taken (insert_slot id u (init_slots id occ)) s ↔ taken occ s ∨ (id, u) = s) as Hin.
  { intros [id' x]. unfold taken. simpl. rewrite slots_at_insert, !slots_at_init.
    case_decide; set_solver. }
  split_and!; simpl.
  - intros s c' [Hs|<-]%Hin; [by apply Hr|]. simpl. rewrite Hg. by intros [= <-].
  - by intros ? ?%not_elem_of_nil.
  - split; [|done]. intros _ s [= <-]. split; [|done]. split; [done|]. exists c. done.
  - intros s. rewrite Hin. naive_solver.
Qed.

Lemma check_volume_spec specs occ i v :
  in_range specs occ → check_ok specs occ i (full_slot v) (check_volume specs occ i v).
Proof.
  intros Hr. unfold check_volume, full_slot, vol_slot.
  destruct (vol_ControllerBusNumber v) as [b|]; [|case_decide; by apply check_skip].
  destruct (vol_UnitNumber v) as [u|]; [|case_decide; by apply check_skip].
  cbv zeta. case_decide as Ht; [by apply check_skip|].
  set (t := vol_ControllerType v). set (id := mkControllerID t b).
  destruct (_ || _) eqn:Hb.
  { apply check_reject; try done. intros [[Hv _] _]. simpl in Hv.
    apply orb_true_iff in Hb as [?|?]; bool_to_prop; lia. }
  destruct (Get specs t b) as [c|] eqn:Hg.
  2: { apply check_reject; try done. intros [(_ & c & Hc & _) _]. simpl in Hc. congruence. }
  assert (∀ c', Get specs t b = Some c' → c' = c) as Huniq by congruence.
  destruct ((u <? 0) || _) eqn:Hu.
  { apply check_reject; try done. intros [(_ & c' & Hc & Hv & _) _]. simpl in *.
    rewrite (Huniq _ Hc) in Hv. apply orb_true_iff in Hu as [?|?]; bool_to_prop; lia. }
  destruct (u =? _) eqn:Hre; bool_to_prop.
  { apply check_reject; try done. intros [(_ & c' & Hc & _ & Hv) _]. simpl in *.
    by rewrite (Huniq _ Hc) in Hv. }
  destruct (bool_decide _) eqn:Hocc; bool_to_prop.
  { apply check_reject; try done; [intros; apply slots_at_init|]. intros [_ Hn]. apply Hn.
    unfold taken. by rewrite slots_at_init in Hocc. }
  rewrite slots_at_init in *. apply (check_accept _ _ _ c); try done; [simpl; lia..|].
  destruct (MaxSlots c <=? _) eqn:Hm; [|done]. bool_to_prop. exfalso.
  pose proof (free_below (MaxSlots c) u (slots_at occ id)) as Hf.
  assert (Z.of_nat (size (slots_at occ id)) < MaxSlots c); [|lia].
  apply Hf; [|lia|done]. intros x Hx. by apply (Hr (id, x) c).
Qed.

(** ** The whole list *)

Lemma check_volumes_nil specs occ i vols :
  in_range specs occ →
  check_volumes specs occ i vols = [] ↔
  (∀ v s, v ∈ vols → full_slot v = Some s → valid_slot specs s ∧ ¬ taken occ s) ∧
  NoDup (omap full_slot vols).
Proof.
  revert occ i. induction vols as [|v vols IH]; intros occ i Hr; simpl.
  { split; [|done]. intros _. split; [by intros ? ? ?%not_elem_of_nil|constructor]. }
  pose proof (check_volume_spec specs occ i v Hr) as Hc.
  destruct (check_volume specs occ i v) as [occ' errs]. destruct Hc as (Hr' & _ & Hok & Hin).
  cbn [fst snd] in *. setoid_rewrite elem_of_cons.
  assert (errs ++ check_volumes specs occ' (S i) vols = [] ↔
          errs = [] ∧ check_volumes specs occ' (S i) vols = []) as -> by apply app_nil.
  rewrite (IH occ' (S i) Hr'). setoid_rewrite Hin.
  assert (∀ s, s ∈ omap full_slot vols ↔ ∃ w, w ∈ vols ∧ full_slot w = Some s) as Hom
    by (intros; apply list_elem_of_omap).
  destruct (full_slot v) as [s|] eqn:Hs.
  - rewrite NoDup_cons, Hom. split.
    + intros (He & Hall & Hnd). split_and!; [|intros (w & Hw & Hws)|done].
      * intros w s' [->|Hw] Hws; [apply Hok; [done|congruence]|]. destruct (Hall w s' Hw Hws). tauto.
      * destruct (Hall w s Hw Hws) as [_ Hn]. tauto.
    + intros (Hall & Hns & Hnd). split_and!; [|intros w s' Hw Hws|done].
      * apply Hok. intros s' [= <-]. by apply (Hall v); [left|].
      * destruct (Hall w s' ltac:(by right) Hws). split; [done|].
        intros [?|[_ [= <-]]]; [done|]. apply Hns. eauto.
  - assert (errs = []) as -> by (by apply Hok). split.
    + intros (_ & Hall & Hnd). split; [|done]. intros w s' [->|Hw] Hws; [congruence|].
      destruct (Hall w s' Hw Hws). tauto.
    + intros [Hall Hnd]. split_and!; [done| |done]. intros w s' Hw Hws.
      destruct (Hall w s' ltac:(by right) Hws). split; [done|]. by intros [?|[_ ?]].
Qed.

Lemma check_volumes_index specs occ i vols e :
  in_range specs occ → e ∈ check_volumes specs occ i vols →
  ∃ j, error_volume e = Some j ∧ (i ≤ j)%nat.
Proof.
  revert occ i. induction vols as [|v vols IH]; intros occ i Hr He; simpl in He.
  - by apply not_elem_of_nil in He.
  - pose proof (check_volume_spec specs occ i v Hr) as Hc.
    destruct (check_volume specs occ i v) as [occ' errs]. destruct Hc as (Hr' & Hi & _).
    apply elem_of_app in He as [He|He]; [rewrite (Hi e He); eauto|].
    destruct (IH occ' (S i) Hr' He) as (j & ? & ?). exists j. split; [done|lia].
Qed.

(** A volume whose slot is valid and held by nothing before it draws no error. *)
Lemma check_volumes_no_error specs occ i vols k v e :
  in_range specs occ → vols !! k = Some v →
  (∀ s, full_slot v = Some s → valid_slot specs s ∧ ¬ taken occ s ∧
     ∀ j w, (j < k)%nat → vols !! j = Some w → full_slot w ≠ Some s) →
  e ∈ check_volumes specs occ i vols → error_volume e ≠ Some (i + k)%nat.
Proof.
  revert occ i k. induction vols as [|v0 vols IH]; intros occ i k Hr Hv Hs He; [done|].
  simpl in He. pose proof (check_volume_spec specs occ i v0 Hr) as Hc.
  destruct (check_volume specs occ i v0) as [occ' errs]. destruct Hc as (Hr' & Hi & Hok & Hin).
  cbn [fst snd] in *. apply elem_of_app in He as [He|He].
  - rewrite (Hi e He). intros [= Hk]. assert (k = 0%nat) as -> by lia. simpl in Hv. injection Hv as ->.
    assert (errs = []) as -> by (apply Hok; intros s' Hs'; by destruct (Hs s' Hs') as (? & ? & _)).
    by apply not_elem_of_nil in He.
  - destruct k as [|k].
    + destruct (check_volumes_index _ _ _ _ _ Hr' He) as (j & -> & ?). intros [= ?]. lia.
    + replace (i + S k)%nat with (S i + k)%nat by lia. apply (IH occ' (S i) k); try done.
      intros s Hfs. destruct (Hs s Hfs) as (? & ? & Hbefore). split_and!; [done| |].
      * rewrite Hin. intros [?|[_ Heq]]; [done|]. by apply (Hbefore 0%nat v0); [lia| |].
      * intros j w Hj Hw. apply (Hbefore (S j)); [lia|done].
Qed.

(** ** Lemmas on the checks of controllers *)

Lemma concat_imap_nil {A B} (f : nat → A → list B) (l : list A) :
  concat (imap f l) = [] ↔ ∀ i x, l !! i = Some x → f i x = [].
Proof.
  split.
  - intros Hc i x Hx. assert (f i x ∈ imap f l) as Hin by (apply elem_of_lookup_imap; eauto).
    apply list_elem_of_split in Hin as (l1 & l2 & E). rewrite E, concat_app in Hc.
    by apply app_nil in Hc as [_ [? _]%app_nil].
  - intros Hall. assert (∀ y, y ∈ imap f l → y = []) as Hy
      by (intros y (i & x & -> & Hx)%elem_of_lookup_imap; eauto).
    revert Hy. induction (imap f l) as [|y ys IH]; intros Hy; [done|]. simpl.
    rewrite (Hy y) by (by left). apply IH. intros z Hz. apply Hy. by right.
Qed.

(** With one controller per bus number the map is the list. *)
Lemma settings_lookup {A} (bus : A → Z) (l : list A) b c :
  NoDup (bus <$> l) → settings bus l !! b = Some c ↔ c ∈ l ∧ bus c = b.
Proof.
  unfold settings. revert b c. induction l as [|x l IH] using rev_ind; intros b c Hnd; [set_solver|].
  rewrite fmap_app in Hnd. apply NoDup_app in Hnd as (Hnd & Hx & _).
  rewrite foldl_snoc, elem_of_app, list_elem_of_singleton.
  destruct (decide (b = bus x)) as [->|Hne].
  - rewrite lookup_insert_eq. split; [intros [= ->]; auto|]. intros [ [Hc | ->] Hb ]; [|done].
    exfalso. apply (Hx (bus c)); [by apply list_elem_of_fmap_2|simpl; rewrite Hb; by left].
  - rewrite lookup_insert_ne, IH by done. naive_solver.
Qed.

Lemma IsFSRSupported_false vm hw :
  vm_Hardware vm = Some hw →
  IsFSRSupported vm = false ↔
  ∃ c vol, c ∈ SCSIControllers hw ∧ scsi_SharingMode c = VirtualControllerSharingModePhysical ∧
    vol ∈ vm_Volumes vm ∧ vol_ControllerType vol = VirtualControllerTypeSCSI ∧
    vol_ControllerBusNumber vol = Some (scsi_BusNumber c).
Proof.
  intros Hhw. unfold IsFSRSupported. rewrite Hhw. rewrite negb_false_iff, existsb_exists.
  setoid_rewrite andb_true_iff. setoid_rewrite bool_decide_eq_true.
  assert (∀ vols (X : gset Z) b, b ∈ foldl (λ s vol, match vol_ControllerBusNumber vol with
      | Some b => if decide (vol_ControllerType vol = VirtualControllerTypeSCSI) then {[b]} ∪ s else s
      | None => s end) X vols ↔ b ∈ X ∨ ∃ vol, vol ∈ vols ∧
      vol_ControllerType vol = VirtualControllerTypeSCSI ∧ vol_ControllerBusNumber vol = Some b) as Hin.
  { intros vols. induction vols as [|v vols IH]; intros X b; simpl; [set_solver|]. rewrite IH.
    setoid_rewrite elem_of_cons. destruct (vol_ControllerBusNumber v) eqn:Eb; [case_decide|]; set_solver. }
  setoid_rewrite Hin. setoid_rewrite <-list_elem_of_In. set_solver.
Qed.

Lemma settings_check {A B} (bus : A → Z) (l : list A) (f : A → list B) b :
  NoDup (bus <$> l) →
  match settings bus l !! b with Some o => f o | None => [] end = [] ↔
  ∀ c, c ∈ l → b = bus c → f c = [].
Proof.
  intros Hnd. destruct (settings bus l !! b) as [o|] eqn:E.
  - pose proof (proj1 (settings_lookup _ _ _ _ Hnd) E) as [Ho Hb]. split; [|by intros Hall; apply Hall].
    intros Hn c Hc Heq. assert (Some c = Some o) as [= ->]; [|done].
    rewrite <-E. symmetry. by apply settings_lookup.
  - split; [|done]. intros _ c Hc Heq.
    assert (settings bus l !! b = Some c) as Hsome by (by apply settings_lookup). congruence.
Qed.

Lemma check_scsi_nil l i c :
  NoDup (scsi_BusNumber <$> l) →
  check_scsi (settings scsi_BusNumber l) i c = [] ↔
  ∀ c', c' ∈ l → scsi_BusNumber c = scsi_BusNumber c' → c = c'.
Proof.
  intros Hnd. unfold check_scsi. rewrite settings_check by done.
  split; intros Hall c' Hc' Hb; specialize (Hall c' Hc' Hb).
  - destruct c, c'. repeat case_decide; by simplify_eq/=.
  - subst c'. by rewrite !decide_True by done.
Qed.

Lemma check_nvme_nil l i c :
  NoDup (nvme_BusNumber <$> l) →
  check_nvme (settings nvme_BusNumber l) i c = [] ↔
  ∀ c', c' ∈ l → nvme_BusNumber c = nvme_BusNumber c' → c = c'.
Proof.
  intros Hnd. unfold check_nvme. rewrite settings_check by done.
  split; intros Hall c' Hc' Hb; specialize (Hall c' Hc' Hb).
  - destruct c, c'. case_decide; by simplify_eq/=.
  - subst c'. by rewrite decide_True by done.
Qed.

Lemma concat_imap_check {A B} (f : nat → A → list B) (P : A → Prop) (l : list A) :
  (∀ i c, f i c = [] ↔ P c) → concat (imap f l) = [] ↔ ∀ c, c ∈ l → P c.
Proof.
  intros Hf. rewrite concat_imap_nil. setoid_rewrite Hf. split.
  - intros Hall c [i Hc]%list_elem_of_lookup_1. eauto.
  - intros Hall i c Hc. apply Hall. by eapply list_elem_of_lookup_2.
Qed.

(** Unit numbers of a controller in a spec start at zero. *)
Lemma spec_first_unit hw t b c :
  Get (NewControllerSpecs hw) t b = Some c → FirstUnitNumber c = 0.
Proof.
  unfold NewControllerSpecs. destruct hw as [hw|]; [|by rewrite Get_empty].
  intros [Hg|[Hc _]]%fold_Get_Some; [by rewrite Get_empty in Hg|].
  unfold hw_controllers in Hc. rewrite !elem_of_app, !list_elem_of_fmap in Hc.
  naive_solver.
Qed.

(** ** Properties *)

(** Every unit number of a CD-ROM exists on its controller. *)
Definition cdroms_fit (hw : VirtualMachineHardwareSpec) : Prop :=
  ∀ cd s c, cd ∈ Cdrom hw → cdrom_slot cd = Some s →
    Get (NewControllerSpecs (Some hw)) (cid_Type s.1) (cid_BusNumber s.1) = Some c →
    0 ≤ s.2 < MaxSlots c.

Lemma cdroms_in_range hw :
  cdroms_fit hw →
  in_range (NewControllerSpecs (Some hw)) (foldl add_cdrom_slot ∅ (Cdrom hw)).
Proof. intros Hf s c (cd & ? & ?)%cdrom_slots_iff. by apply (Hf cd). Qed.

(** The validator accepts the volumes exactly when every volume with a
    complete placement names an existing controller with a bus number in range
    and a unit number that exists there and is not reserved, no two volumes share
    a slot and none sits on a CD-ROM's slot: the capacity check adds nothing. *)
Theorem controller_slots_valid_iff (hw : VirtualMachineHardwareSpec)
    (vols : list VirtualMachineVolume) :
  cdroms_fit hw →
  validateControllerSlots hw vols = [] ↔
  (∀ v s, v ∈ vols → full_slot v = Some s →
     valid_slot (NewControllerSpecs (Some hw)) s ∧ ∀ cd, cd ∈ Cdrom hw → cdrom_slot cd ≠ Some s) ∧
  NoDup (omap full_slot vols).
Proof.
  intros Hf. destruct (decide (vols = [])) as [->|Hne].
  { split; [|done]. intros _. split; [by intros ? ? ?%not_elem_of_nil|constructor]. }
  assert (validateControllerSlots hw vols = check_volumes (NewControllerSpecs (Some hw))
    (foldl add_cdrom_slot ∅ (Cdrom hw)) 0 vols) as -> by (by destruct vols).
  rewrite check_volumes_nil by (by apply cdroms_in_range). unfold taken.
  setoid_rewrite cdrom_slots_iff. set (specs := NewControllerSpecs (Some hw)).
  split; intros [Hall Hnd]; (split; [|done]); intros v s Hv Hs; destruct (Hall v s Hv Hs) as [? Hn];
    (split; [done|]); [by eauto|]. intros (cd & ? & ?). by apply (Hn cd).
Qed.

(** The slot of a volume that got its unit number from the mutator. *)
Lemma mutated_slot_valid hw vols st i v v' s :
  loop_inv hw vols (λ _, False) st → vols !! i = Some v → vol_UnitNumber v = None →
  (∀ b, vol_ControllerBusNumber v = Some b → 0 ≤ b < type_MaxCount (target_type v)) →
  Volumes st !! i = Some v' → full_slot v' = Some s →
  valid_slot (NewControllerSpecs (Hardware_ st)) s.
Proof.
  intros Hi Hv Hu Hb Hv' Hs. unfold full_slot in Hs. case_decide as Ht; [done|].
  destruct (li_new _ _ _ _ Hi i v v' s Hv Hu ltac:(tauto) Hv' Hs) as ((c & Hg & [Has Hre]) & _ & _).
  rewrite (li_specs _ _ _ _ Hi) in Hg. rewrite (spec_first_unit _ _ _ _ Hg) in Has.
  split; [|exists c; split_and!; [done|lia..|done]].
  destruct (li_ref _ _ _ _ Hi i v Hv) as (w & Hw & Href). rewrite Hv' in Hw. injection Hw as <-.
  assert (vol_ControllerBusNumber v' = Some (cid_BusNumber s.1) ∧ cid_Type s.1 = vol_ControllerType v')
    as [Hb' ->] by (unfold vol_slot in Hs; repeat case_match; by simplify_eq/=).
  destruct (vol_ControllerBusNumber v) as [b|] eqn:Ebus.
  - pose proof (rv_bus _ _ Href b Ebus) as Hbb. rewrite Hb' in Hbb. injection Hbb as ->.
    destruct (rv_type _ _ Href) as [Heq | ->]; [|by apply Hb].
    specialize (Hb _ eq_refl). unfold target_type in Hb.
    rewrite Heq in Ht |- *. by rewrite decide_False in Hb.
  - by eapply (li_bus _ _ _ _ Hi i v v').
Qed.


(** While the VM is powered on, an update passes exactly when no SCSI or
    NVMe controller changes its settings and, on an upgraded VM with a disk on a
    physically shared SCSI controller, no SCSI controller is added. *)
Theorem powered_on_controllers_kept (bv sv : string) (fs : FeatureStates)
    (vm old : VirtualMachine) (hw oldHW : VirtualMachineHardwareSpec) :
  vm_PowerState old = VirtualMachinePowerStateOn →
  vm_Hardware vm = Some hw → vm_Hardware old = Some oldHW →
  NoDup (scsi_BusNumber <$> SCSIControllers oldHW) →
  NoDup (nvme_BusNumber <$> NVMEControllers oldHW) →
  validateControllerWhenPoweredOn bv sv fs vm (Some old) = [] ↔
  (∀ c c', c ∈ SCSIControllers hw → c' ∈ SCSIControllers oldHW →
     scsi_BusNumber c = scsi_BusNumber c' → c = c') ∧
  (∀ c c', c ∈ NVMEControllers hw → c' ∈ NVMEControllers oldHW →
     nvme_BusNumber c = nvme_BusNumber c' → c = c') ∧
  (IsObjectUpgraded bv sv fs (vm_Annotations old) = [] →
   (∃ c vol, c ∈ SCSIControllers oldHW ∧ scsi_SharingMode c = VirtualControllerSharingModePhysical ∧
      vol ∈ vm_Volumes old ∧ vol_ControllerType vol = VirtualControllerTypeSCSI ∧
      vol_ControllerBusNumber vol = Some (scsi_BusNumber c)) →
   ∀ c, c ∈ SCSIControllers hw → scsi_BusNumber c ∈ scsi_BusNumber <$> SCSIControllers oldHW).
Proof.
  intros Hon Hhw Hold Hs Hn. unfold validateControllerWhenPoweredOn. rewrite Hhw, Hold.
  rewrite bool_decide_true by done. cbn [negb default from_option id].
  assert (∀ A (l1 l2 : list A), l1 ++ l2 = [] ↔ l1 = [] ∧ l2 = []) as Happ by (intros; apply app_nil).
  rewrite !Happ.
  rewrite (concat_imap_check _ _ (SCSIControllers hw) (λ i c, check_scsi_nil _ i c Hs)).
  rewrite (concat_imap_check _ _ (NVMEControllers hw) (λ i c, check_nvme_nil _ i c Hn)).
  assert (validateHotAddedControllers bv sv fs vm old = [] ↔
    (IsObjectUpgraded bv sv fs (vm_Annotations old) = [] → IsFSRSupported old = false →
     ∀ c, c ∈ SCSIControllers hw → scsi_BusNumber c ∈ scsi_BusNumber <$> SCSIControllers oldHW)) as ->.
  { unfold validateHotAddedControllers, upgraded. rewrite Hold, Hhw.
    destruct (IsObjectUpgraded _ _ _ _); simpl; [|done].
    destruct (IsFSRSupported old); [done|].
    rewrite (concat_imap_check _ (λ c, scsi_BusNumber c ∈ scsi_BusNumber <$> SCSIControllers oldHW)).
    - naive_solver.
    - intros i c. case_bool_decide as Hc; rewrite elem_of_list_to_set in Hc; done. }
  rewrite (IsFSRSupported_false old oldHW Hold). naive_solver.
Qed.

(** ** Examples *)

Definition ex_result : VirtualMachineHardwareSpec :=
  mkHardware [mkSCSI 0 VirtualControllerSharingModeNone SCSIControllerTypeParaVirtualSCSI] [mkSATA 0] [] []
    [mkCdrom "cd" VirtualControllerTypeSATA (Some 0) (Some 0)].

Lemma ex_result_fits : cdroms_fit ex_result.
Proof.
  intros cd s c Hcd Hs Hg. apply list_elem_of_singleton in Hcd as ->. vm_compute in Hs.
  injection Hs as <-. vm_compute in Hg. injection Hg as <-. by vm_compute.
Defined.

(** Two volumes on one slot: the second is refused. *)
Lemma controller_slots_valid_iff_witness :
  ¬ NoDup (omap full_slot [ex_vol "a" VirtualControllerTypeSATA (Some 0) (Some 1);
                           ex_vol "b" VirtualControllerTypeSATA (Some 0) (Some 1)]).
Proof.
  intros Hnd.
  assert (validateControllerSlots ex_result
    [ex_vol "a" VirtualControllerTypeSATA (Some 0) (Some 1);
     ex_vol "b" VirtualControllerTypeSATA (Some 0) (Some 1)] = []) as He; [|vm_compute in He; discriminate].
  apply (controller_slots_valid_iff ex_result _ ex_result_fits). split; [|exact Hnd].
  intros v s Hv Hs.
  assert (s = (mkControllerID VirtualControllerTypeSATA 0, 1)) as ->.
  { rewrite !elem_of_cons in Hv. destruct Hv as [->|[->|Hv]]; [vm_compute in Hs; congruence..|].
    by apply not_elem_of_nil in Hv. }
  split.
  - split; [vm_compute; split; congruence|]. exists (SATAController (mkSATA 0)).
    split_and!; [reflexivity|simpl; lia..|simpl; lia].
  - intros cd Hcd. apply list_elem_of_singleton in Hcd as ->. by vm_compute.
Defined.

(** With an invalid explicit volume beside it, the volume the mutator placed is
    not the one that is refused. *)
Definition ex_bad : list VirtualMachineVolume :=
  [ex_vol "a" NoControllerType None None; ex_vol "b" VirtualControllerTypeSATA (Some 0) (Some 0)].

Lemma ex_bad_clean : ∀ v, v ∈ ex_bad → clean v.
Proof.
  intros v Hv. unfold ex_bad in Hv. rewrite !elem_of_cons in Hv.
  destruct Hv as [->|[->|Hv]]; [by left|by right|].
  by apply not_elem_of_nil in Hv.
Defined.


Definition ex_vm (m : VirtualControllerSharingMode) : VirtualMachine :=
  mkVM ∅ VirtualMachinePowerStateOn
    (Some (mkHardware [mkSCSI 0 m SCSIControllerTypeParaVirtualSCSI] [] [] [] [])) [].

Lemma powered_on_controllers_kept_witness :
  validateControllerWhenPoweredOn "v1" "v1alpha6" (mkFeatures true true true true)
    (ex_vm VirtualControllerSharingModeNone) (Some (ex_vm VirtualControllerSharingModePhysical)) ≠ [].
Proof.
  intros He.
  destruct (proj1 (powered_on_controllers_kept _ _ _
    (ex_vm VirtualControllerSharingModeNone) (ex_vm VirtualControllerSharingModePhysical)
    (mkHardware [mkSCSI 0 VirtualControllerSharingModeNone SCSIControllerTypeParaVirtualSCSI] [] [] [] [])
    (mkHardware [mkSCSI 0 VirtualControllerSharingModePhysical SCSIControllerTypeParaVirtualSCSI] [] [] [] [])
    eq_refl eq_refl eq_refl (NoDup_singleton _) NoDup_nil_2) He) as (Hc & _).
  specialize (Hc _ _ (list_elem_of_here _ _) (list_elem_of_here _ _) eq_refl). discriminate.
Defined.
