(* ===== verification/CdromMutator.v ===== *)
(** * Controllers for CD-ROMs

    webhooks/virtualmachine/mutation/virtualmachine_mutator_cdrom.go: on update
    of an upgraded VM, CD-ROMs get a slot on an IDE or SATA controller, which is
    added to the spec when needed.

    In this file the occupied-slot map doubles as the set of known
    controllers, so whether a key is present matters; inserting into the nil set
    of a missing key panics in Go and is [Panic] here. *)

From S2P Require Import Prelude Hardware Features.
Local Open Scope Z_scope.
Local Open Scope go_scope.

Abbreviation Slots := (gmap ControllerID (gset Z)).
Abbreviation result := (outcome Empty_set).

(** [occupiedSlots[id].Insert(u)] *)
Definition insert_unit (id : ControllerID) (u : Z) (occ : Slots) : result Slots :=
  match occ !! id with
  | Some s => Ok (<[id := {[u]} ∪ s]> occ)
  | None => Panic
  end.

(** ** Occupied slots *)

Inductive VirtualDeviceType := VirtualDeviceTypeCDROM | VirtualDeviceTypeDisk | OtherDeviceType.

Record VirtualControllerStatus := mkControllerStatus {
  cs_Type : VirtualControllerType;
  cs_BusNumber : Z;
  cs_Devices : list (VirtualDeviceType * Z)
}.

Definition is_cdrom_type (t : VirtualControllerType) : bool :=
  match t with VirtualControllerTypeIDE | VirtualControllerTypeSATA => true | _ => false end.

Definition mark_device (id : ControllerID) (occ : Slots) (dev : VirtualDeviceType * Z) : Slots :=
  match dev.1 with
  | VirtualDeviceTypeCDROM => occ
  | _ => match occ !! id with Some s => <[id := {[dev.2]} ∪ s]> occ | None => occ end
  end.

Definition mark_controller (occ : Slots) (ctrl : VirtualControllerStatus) : Slots :=
  if is_cdrom_type (cs_Type ctrl) then
    let id := mkControllerID (cs_Type ctrl) (cs_BusNumber ctrl) in
    match occ !! id with
    | None => occ
    | Some _ => foldl (mark_device id) occ (cs_Devices ctrl)
    end
  else occ.

Definition constructOccupiedSlots (hw : VirtualMachineHardwareSpec)
    (status : option (list VirtualControllerStatus)) : Slots :=
  let occ := foldl (λ occ c, <[mkControllerID VirtualControllerTypeIDE (ide_BusNumber c) := ∅]> occ)
               (∅ : Slots) (IDEControllers hw) in
  let occ := foldl (λ occ c, <[mkControllerID VirtualControllerTypeSATA (sata_BusNumber c) := ∅]> occ)
               occ (SATAControllers hw) in
  match status with
  | None => occ
  | Some ctrls => foldl mark_controller occ ctrls
  end.

(** ** Finding and adding controllers *)

Definition addControllerAndInitSlotMap (t : VirtualControllerType) (busNumber : option Z)
    (occ : Slots) (hw : VirtualMachineHardwareSpec) : Slots * VirtualMachineHardwareSpec * bool :=
  match busNumber with
  | None => (occ, hw, false)
  | Some b =>
    let id := mkControllerID t b in
    match occ !! id with
    | Some _ => (occ, hw, false)
    | None =>
      match t with
      | VirtualControllerTypeIDE =>
        (<[id := ∅]> occ, mkHardware (SCSIControllers hw) (SATAControllers hw) (NVMEControllers hw)
                            (IDEControllers hw ++ [mkIDE b]) (Cdrom hw), true)
      | VirtualControllerTypeSATA =>
        (<[id := ∅]> occ, mkHardware (SCSIControllers hw) (SATAControllers hw ++ [mkSATA b])
                            (NVMEControllers hw) (IDEControllers hw) (Cdrom hw), true)
      | _ => (occ, hw, false)
      end
    end
  end.

Definition next_unit (id : ControllerID) (occ : Slots) : Z :=
  NextAvailableUnitNumber (CreateNewController (cid_Type id) (cid_BusNumber id) NoSharingMode)
    (default ∅ (occ !! id)).

Fixpoint find_bus (buses : list Z) (t : VirtualControllerType) (occ : Slots) (firstAvailable : Z) : Z :=
  match buses with
  | [] => firstAvailable
  | busNum :: rest =>
    let id := mkControllerID t busNum in
    match occ !! id with
    | Some _ => if next_unit id occ =? -1 then find_bus rest t occ firstAvailable else busNum
    | None => find_bus rest t occ (if firstAvailable =? -1 then busNum else firstAvailable)
    end
  end.

Definition findNextAvailableBusNumber (occ : Slots) (t : VirtualControllerType) : Z :=
  find_bus (seqZ 0 (type_MaxCount t)) t occ (-1).

(** ** The two passes *)

Record cdState := mkCdState {
  hwSpec : VirtualMachineHardwareSpec;
  occupied : Slots;
  mutated : bool
}.

Definition set_cdroms (cds : list VirtualMachineCdromSpec) (hw : VirtualMachineHardwareSpec) :
    VirtualMachineHardwareSpec :=
  mkHardware (SCSIControllers hw) (SATAControllers hw) (NVMEControllers hw) (IDEControllers hw) cds.

(** The call of [addControllerAndInitSlotMap] with its effect on the state. *)
Definition add_controller (t : VirtualControllerType) (b : option Z) (st : cdState) : cdState :=
  let '(occ, hw, added) := addControllerAndInitSlotMap t b (occupied st) (hwSpec st) in
  mkCdState hw occ (mutated st || added).

Definition process_explicit (st : cdState) (i : nat) : result cdState :=
  match Cdrom (hwSpec st) !! i with
  | None => Panic
  | Some cd =>
    let st := add_controller (cdrom_ControllerType cd) (cdrom_ControllerBusNumber cd) st in
    match cdrom_ControllerBusNumber cd, cdrom_UnitNumber cd with
    | Some b, Some u =>
      let? occ := insert_unit (mkControllerID (cdrom_ControllerType cd) b) u (occupied st) in
      Ok (mkCdState (hwSpec st) occ (mutated st))
    | _, _ => Panic
    end
  end.

(** The controller a CD-ROM should use: [None] skips it. *)
Definition desired_controller (cd : VirtualMachineCdromSpec) (occ : Slots) : option ControllerID :=
  match cdrom_ControllerBusNumber cd, cdrom_UnitNumber cd with
  | Some b, None =>
    if decide (cdrom_ControllerType cd = NoControllerType) then None
    else Some (mkControllerID (cdrom_ControllerType cd) b)
  | None, None =>
    if decide (cdrom_ControllerType cd = NoControllerType) then
      let b := findNextAvailableBusNumber occ VirtualControllerTypeIDE in
      if b =? -1 then
        let b := findNextAvailableBusNumber occ VirtualControllerTypeSATA in
        if b =? -1 then None else Some (mkControllerID VirtualControllerTypeSATA b)
      else Some (mkControllerID VirtualControllerTypeIDE b)
    else None
  | _, _ => None
  end.

Definition place_cdrom (id : ControllerID) (u : Z) (cd : VirtualMachineCdromSpec) :
    VirtualMachineCdromSpec :=
  mkCdrom (cdrom_Name cd) (cid_Type id) (Some (cid_BusNumber id)) (Some u).

Definition process_implicit (st : cdState) (i : nat) : result cdState :=
  match Cdrom (hwSpec st) !! i with
  | None => Panic
  | Some cd =>
    match desired_controller cd (occupied st) with
    | None => Ok st
    | Some id =>
      let st := add_controller (cid_Type id) (Some (cid_BusNumber id)) st in
      let u := next_unit id (occupied st) in
      if u =? -1 then Ok st
      else
        let? occ := insert_unit id u (occupied st) in
        Ok (mkCdState (set_cdroms (<[i := place_cdrom id u cd]> (Cdrom (hwSpec st))) (hwSpec st)) occ true)
    end
  end.

Fixpoint run (f : cdState → nat → result cdState) (ids : list nat) (st : cdState) : result cdState :=
  match ids with
  | [] => Ok st
  | i :: rest => let? st := f st i in run f rest st
  end.

Definition processExplicitCdroms := run process_explicit.
Definition processImplicitCdroms := run process_implicit.

(** ** The mutator *)

Definition supported (cd : VirtualMachineCdromSpec) : bool :=
  is_cdrom_type (cdrom_ControllerType cd) ||
  bool_decide (cdrom_ControllerType cd = NoControllerType).

Definition explicit_cdrom (cd : VirtualMachineCdromSpec) : bool :=
  match cdrom_ControllerBusNumber cd, cdrom_UnitNumber cd with
  | Some _, Some _ => negb (bool_decide (cdrom_ControllerType cd = NoControllerType))
  | _, _ => false
  end.

Definition cdrom_indices (P : VirtualMachineCdromSpec → bool) (cds : list VirtualMachineCdromSpec) :
    list nat :=
  filter (λ i, match cds !! i with Some cd => supported cd && P cd | None => false end = true)
    (seq 0 (length cds)).

Definition MutateCdromControllerOnUpdate (buildVersion schemaVersion : string)
    (features : FeatureStates) (isUpdate : bool) (annotations : gmap string string)
    (hardware : option VirtualMachineHardwareSpec)
    (status : option (list VirtualControllerStatus)) :
    result (option VirtualMachineHardwareSpec * bool) :=
  if negb (VMSharedDisks features) then Ok (hardware, false)
  else if negb isUpdate then Ok (hardware, false)
  else match IsObjectUpgraded buildVersion schemaVersion features annotations with
  | _ :: _ => Ok (hardware, false)
  | [] =>
    match hardware with
    | None => Ok (hardware, false)
    | Some hw =>
      if bool_decide (Cdrom hw = []) then Ok (hardware, false)
      else
        let st := mkCdState hw (constructOccupiedSlots hw status) false in
        let? st := processExplicitCdroms (cdrom_indices explicit_cdrom (Cdrom hw)) st in
        let? st := processImplicitCdroms
                     (cdrom_indices (λ cd, negb (explicit_cdrom cd)) (Cdrom hw)) st in
        Ok (Some (hwSpec st), mutated st)
    end
  end.

(** ** Lemmas on slots *)

Definition units_at (occ : Slots) (id : ControllerID) : gset Z := default ∅ (occ !! id).

(** The hardware spec has the IDE or SATA controller. *)
Definition has_controller (hw : VirtualMachineHardwareSpec) (id : ControllerID) : Prop :=
  match cid_Type id with
  | VirtualControllerTypeIDE => cid_BusNumber id ∈ ide_BusNumber <$> IDEControllers hw
  | VirtualControllerTypeSATA => cid_BusNumber id ∈ sata_BusNumber <$> SATAControllers hw
  | _ => False
  end.

Lemma insert_unit_ok id u occ :
  is_Some (occ !! id) →
  ∃ occ', insert_unit id u occ = Ok occ' ∧
    (∀ id', is_Some (occ' !! id') ↔ is_Some (occ !! id')) ∧
    ∀ id' x, x ∈ units_at occ' id' ↔ x ∈ units_at occ id' ∨ (id' = id ∧ x = u).
Proof.
  intros [s Hs]. unfold insert_unit. rewrite Hs. eexists. split; [done|]. split.
  - intros id'. rewrite lookup_insert_is_Some'. split; [intros [<-|?]; eauto|by right].
  - intros id' x. unfold units_at. destruct (decide (id' = id)) as [->|].
    + rewrite lookup_insert_eq, Hs. simpl. set_solver.
    + rewrite lookup_insert_ne by done. naive_solver.
Qed.

(** Adding a controller: known afterwards if it is of a CD-ROM type, in the
    spec iff known, and no slot is taken. *)
Record added (t : VirtualControllerType) (b : Z) (st st' : cdState) : Prop := {
  ad_cd : Cdrom (hwSpec st') = Cdrom (hwSpec st);
  ad_known : is_cdrom_type t = true → is_Some (occupied st' !! mkControllerID t b);
  ad_units id : units_at (occupied st') id = units_at (occupied st) id;
  ad_mono id : is_Some (occupied st !! id) → is_Some (occupied st' !! id);
  ad_dom : (∀ id, is_Some (occupied st !! id) ↔ has_controller (hwSpec st) id) →
           (∀ id, is_Some (occupied st' !! id) ↔ has_controller (hwSpec st') id);
  ad_flag : st' = st ∨
    (mutated st' = true ∧
     length (IDEControllers (hwSpec st')) + length (SATAControllers (hwSpec st')) =
     S (length (IDEControllers (hwSpec st)) + length (SATAControllers (hwSpec st))))%nat
}.

Lemma add_controller_ok t b st : added t b st (add_controller t (Some b) st).
Proof.
  destruct st as [hw occ m]. unfold add_controller, addControllerAndInitSlotMap. cbn.
  destruct (occ !! mkControllerID t b) as [s|] eqn:E.
  { rewrite orb_false_r. split; cbn; try done; by left. }
  destruct t; cbn; rewrite ?orb_false_r; try (split; cbn; try done; by left).
  all: split; cbn; [done|intros _; rewrite lookup_insert_eq; eauto| |
         by intros id ?; apply lookup_insert_is_Some'; right| |right; split;
         [apply orb_true_r|rewrite length_app; simpl; lia]].
  all: try (intros id; unfold units_at; rewrite lookup_insert; case_decide; subst;
         [by rewrite E|done]).
  all: intros Hdom id; rewrite lookup_insert_is_Some', Hdom; destruct id as [[] bn]; unfold has_controller; cbn;
       rewrite ?fmap_app, ?elem_of_app; cbn; rewrite ?list_elem_of_singleton;
       (split; [intros [[=]|?]; subst; tauto|try (intros [?|?]; [by right|subst; by left]); tauto]).
Qed.

(** ** The invariant of the passes *)

(** The slot of a CD-ROM whose placement is complete. *)
Definition full_slot (cd : VirtualMachineCdromSpec) : option (ControllerID * Z) :=
  match cdrom_ControllerBusNumber cd, cdrom_UnitNumber cd with
  | Some b, Some u =>
    if decide (cdrom_ControllerType cd = NoControllerType) then None
    else Some (mkControllerID (cdrom_ControllerType cd) b, u)
  | _, _ => None
  end.

Definition cd_weight (cd : VirtualMachineCdromSpec) : nat :=
  match cdrom_UnitNumber cd with Some _ => 1 | None => 0 end.

Definition hw_weight (hw : VirtualMachineHardwareSpec) : nat :=
  length (IDEControllers hw) + length (SATAControllers hw) + sum_list_with cd_weight (Cdrom hw).

(** The unit number fits the CD-ROM's controller type. *)
Definition fits (id : ControllerID) (u : Z) : Prop :=
  ∃ c, CreateNewController (cid_Type id) (cid_BusNumber id) NoSharingMode = Some c ∧ assignable c u.

Section Passes.
Context (hw0 : VirtualMachineHardwareSpec) (occ0 : Slots).

(** The CD-ROM is left to the second pass. *)
Definition implicit_at (i : nat) : Prop :=
  ∃ cd, Cdrom hw0 !! i = Some cd ∧ full_slot cd = None.

Record pass_inv (P : nat → Prop) (st : cdState) : Prop := {
  pa_dom id : is_Some (occupied st !! id) ↔ has_controller (hwSpec st) id;
  pa_todo i cd : Cdrom hw0 !! i = Some cd → P i → Cdrom (hwSpec st) !! i = Some cd;
  pa_keep i cd : Cdrom hw0 !! i = Some cd →
    ∃ cd', Cdrom (hwSpec st) !! i = Some cd' ∧
      (cd' = cd ∨ (full_slot cd = None ∧ ∃ id u, cd' = place_cdrom id u cd));
  pa_len : length (Cdrom (hwSpec st)) = length (Cdrom hw0);
  pa_occ id u : u ∈ units_at occ0 id → u ∈ units_at (occupied st) id;
  pa_closed i cd s : Cdrom (hwSpec st) !! i = Some cd → ¬ P i → full_slot cd = Some s →
    is_cdrom_type (cid_Type s.1) = true → s.2 ∈ units_at (occupied st) s.1;
  pa_new i cd s : implicit_at i → ¬ P i → Cdrom (hwSpec st) !! i = Some cd → full_slot cd = Some s →
    has_controller (hwSpec st) s.1 ∧ fits s.1 s.2 ∧ ¬ (s.2 ∈ units_at occ0 s.1) ∧
    ∀ j cd', j ≠ i → ¬ P j → Cdrom (hwSpec st) !! j = Some cd' → full_slot cd' ≠ Some s;
  pa_same : mutated st = false → hwSpec st = hw0;
  pa_grow : mutated st = true → (hw_weight hw0 < hw_weight (hwSpec st))%nat
}.

Lemma has_controller_type hw id : has_controller hw id → is_cdrom_type (cid_Type id) = true.
Proof. unfold has_controller. by destruct (cid_Type id). Qed.

Lemma pass_add P st st' t b : pass_inv P st → added t b st st' → pass_inv P st'.
Proof.
  intros [Hdom Htd Hkeep Hlen Hocc Hcl Hnew Hsame Hgrow] Ha.
  pose proof (ad_dom _ _ _ _ Ha Hdom) as Hdom'. pose proof (ad_units _ _ _ _ Ha) as Hun.
  split; rewrite ?(ad_cd _ _ _ _ Ha); try done.
  - intros id u. rewrite Hun. auto.
  - intros i cd s. rewrite Hun. eauto.
  - intros i cd s Him HP Hi Hs. destruct (Hnew i cd s Him HP Hi Hs) as (Hc & ? & ? & ?).
    split_and!; try done. by apply Hdom', (ad_mono _ _ _ _ Ha), Hdom.
  - intros Hm. destruct (ad_flag _ _ _ _ Ha) as [->|[? _]]; [auto|congruence].
  - intros Hm. unfold hw_weight in *. destruct (ad_flag _ _ _ _ Ha) as [->|[_ Hl]]; [auto|].
    rewrite (ad_cd _ _ _ _ Ha). destruct (mutated st) eqn:Em; [specialize (Hgrow eq_refl); lia|].
    rewrite <-(Hsame eq_refl). lia.
Qed.

Lemma pass_inv_ext P Q st : (∀ j, P j ↔ Q j) → pass_inv P st → pass_inv Q st.
Proof.
  intros HPQ [Hdom Htd Hkeep Hlen Hocc Hcl Hnew Hsame Hgrow].
  assert (∀ j, ¬ Q j → ¬ P j) as HN by (intros j; by rewrite HPQ).
  split; try done; intros *; rewrite <-?HPQ; eauto.
  intros Him HP Hi Hs. destruct (Hnew i cd s Him HP Hi Hs) as (? & ? & ? & Ho).
  split_and!; try done. intros j cd' Hj. rewrite <-HPQ. eauto.
Qed.

(** A CD-ROM of the second pass that is skipped. *)
Lemma pass_skip P st i cd :
  pass_inv P st → Cdrom hw0 !! i = Some cd → P i → full_slot cd = None →
  pass_inv (λ j, P j ∧ j ≠ i) st.
Proof.
  intros Hi Hcd HP Hf. pose proof (pa_todo _ _ Hi i cd Hcd HP) as Hat.
  destruct Hi as [Hdom Htd Hkeep Hlen Hocc Hcl Hnew Hsame Hgrow]. split; try done.
  - intros j cd' Hj [? ?]. auto.
  - intros j cd' s Hj HPj Hs. destruct (decide (j = i)) as [->|]; [congruence|].
    eapply Hcl; [done|tauto|done].
  - intros j cd' s Him HPj Hj Hs. destruct (decide (j = i)) as [->|]; [congruence|].
    destruct (Hnew j cd' s Him ltac:(tauto) Hj Hs) as (? & ? & ? & Ho). split_and!; try done.
    intros k cd2 Hk HPk Hk2 Hs2. destruct (decide (k = i)) as [->|]; [congruence|].
    by apply (Ho k cd2 Hk ltac:(tauto) Hk2).
Qed.

(** A CD-ROM of the first pass: its slot is recorded, and no set is nil. *)
Lemma process_explicit_ok P st i cd s :
  pass_inv P st → Cdrom (hwSpec st) = Cdrom hw0 → Cdrom hw0 !! i = Some cd → P i →
  full_slot cd = Some s → is_cdrom_type (cid_Type s.1) = true →
  ∃ st', process_explicit st i = Ok st' ∧ pass_inv (λ j, P j ∧ j ≠ i) st' ∧
         Cdrom (hwSpec st') = Cdrom hw0.
Proof.
  intros Hi Hcds Hcd HP Hs Ht. unfold process_explicit. rewrite Hcds, Hcd.
  assert (cdrom_ControllerBusNumber cd = Some (cid_BusNumber s.1) ∧
          cdrom_UnitNumber cd = Some s.2 ∧ cdrom_ControllerType cd = cid_Type s.1) as (Hb & Hu & Hty).
  { unfold full_slot in Hs. destruct (cdrom_ControllerBusNumber cd), (cdrom_UnitNumber cd); try done.
    case_decide; by simplify_eq/=. }
  rewrite Hb, Hu, Hty. cbv zeta.
  pose proof (add_controller_ok (cid_Type s.1) (cid_BusNumber s.1) st) as Ha.
  pose proof (pass_add _ _ _ _ _ Hi Ha) as Hi1. set (st1 := add_controller _ _ _) in *.
  destruct (insert_unit_ok (mkControllerID (cid_Type s.1) (cid_BusNumber s.1)) s.2 (occupied st1)
    (ad_known _ _ _ _ Ha Ht)) as (occ' & -> & Hd' & Hu').
  eexists. split; [reflexivity|]. split; [|cbn; by rewrite (ad_cd _ _ _ _ Ha)].
  assert (Cdrom (hwSpec st1) = Cdrom hw0) as Hcds1 by (by rewrite (ad_cd _ _ _ _ Ha)).
  assert (mkControllerID (cid_Type s.1) (cid_BusNumber s.1) = s.1) as Hid by (by destruct s as [[]]).
  rewrite Hid in *. clear Hi Hcds Ha.
  destruct Hi1 as [Hdom Htd Hkeep Hlen Hocc Hcl Hnew Hsame Hgrow].
  split; cbn [hwSpec occupied mutated]; try done.
  - intros id. by rewrite Hd'.
  - intros j cd' Hj [? ?]. auto.
  - intros id u Hx. apply Hu'. left. auto.
  - intros j cd' s' Hj HPj Hs' Ht'. apply Hu'. destruct (decide (j = i)) as [->|].
    + right. rewrite Hcds1, Hcd in Hj. by simplify_eq.
    + left. eapply Hcl; [done|tauto|done|done].
  - intros j cd' s' (cd2 & Hj2 & Hn2) HPj Hj Hs'. rewrite Hcds1 in Hj. congruence.
Qed.

Lemma next_unit_cases id occ :
  is_cdrom_type (cid_Type id) = true →
  next_unit id occ = -1 ∨
  (next_unit id occ ≠ -1 ∧ fits id (next_unit id occ) ∧ ¬ (next_unit id occ ∈ units_at occ id)).
Proof.
  intros Ht. unfold next_unit, fits. fold (units_at occ id).
  destruct (CreateNewController (cid_Type id) (cid_BusNumber id) NoSharingMode) as [c|] eqn:E;
    [|by destruct (cid_Type id)].
  destruct (next_available_cases c (units_at occ id)) as [[-> _]|(? & ? & ? & _)]; [by left|right].
  split_and!; [lia|by exists c|done].
Qed.

Lemma desired_supported cd occ id :
  supported cd = true → desired_controller cd occ = Some id →
  is_cdrom_type (cid_Type id) = true ∧ full_slot cd = None.
Proof.
  unfold supported, desired_controller, full_slot. intros Hs.
  destruct (cdrom_ControllerBusNumber cd), (cdrom_UnitNumber cd); try done.
  - case_decide as Hn; [done|]. intros [= <-]. split; [|done].
    apply orb_true_iff in Hs as [?|?]; [done|]. by bool_to_prop.
  - case_decide; [|done]. cbv zeta. repeat case_match; try done; by intros [= <-].
Qed.

Lemma sum_weight_cd cds i cd cd' :
  cds !! i = Some cd →
  (sum_list_with cd_weight (<[i := cd']> cds) + cd_weight cd =
   sum_list_with cd_weight cds + cd_weight cd')%nat.
Proof.
  revert i. induction cds as [|x cds IH]; [done|]. intros [|i] Hi; simpl in *.
  - injection Hi as ->. lia.
  - specialize (IH i Hi). lia.
Qed.

(** Giving a CD-ROM a free unit of a known controller. *)
Lemma pass_place P st i cd id u occ' :
  pass_inv P st → Cdrom hw0 !! i = Some cd → P i → full_slot cd = None →
  cdrom_UnitNumber cd = None → is_Some (occupied st !! id) →
  fits id u → ¬ (u ∈ units_at (occupied st) id) →
  (∀ id', is_Some (occ' !! id') ↔ is_Some (occupied st !! id')) →
  (∀ id' x, x ∈ units_at occ' id' ↔ x ∈ units_at (occupied st) id' ∨ (id' = id ∧ x = u)) →
  pass_inv (λ j, P j ∧ j ≠ i)
    (mkCdState (set_cdroms (<[i := place_cdrom id u cd]> (Cdrom (hwSpec st))) (hwSpec st)) occ' true).
Proof.
  intros Hi Hcd HP Hf HuN Hknown Hfit Hfree Hd' Hu'.
  pose proof (pa_todo _ _ Hi i cd Hcd HP) as Hat.
  assert (<[i := place_cdrom id u cd]> (Cdrom (hwSpec st)) !! i = Some (place_cdrom id u cd)) as Hati
    by (apply list_lookup_insert_eq; by eapply lookup_lt_Some).
  assert (∀ j, j ≠ i → <[i := place_cdrom id u cd]> (Cdrom (hwSpec st)) !! j = Cdrom (hwSpec st) !! j)
    as Hatj by (intros; by apply list_lookup_insert_ne).
  assert (has_controller (hwSpec st) id) as Hctl by (by apply (pa_dom _ _ Hi)).
  assert (full_slot (place_cdrom id u cd) = Some (id, u)) as Hslot.
  { unfold full_slot. simpl. rewrite decide_False; [by destruct id|].
    intros Hn. apply has_controller_type in Hctl. by rewrite Hn in Hctl. }
  destruct Hi as [Hdom Htd Hkeep Hlen Hocc Hcl Hnew Hsame Hgrow].
  split; cbn [hwSpec occupied mutated set_cdroms Cdrom]; try done.
  - intros id'. rewrite Hd', Hdom. done.
  - intros j cd' Hj [? ?]. rewrite Hatj by done. auto.
  - intros j cd' Hj. destruct (decide (j = i)) as [->|]; [|rewrite Hatj by done; auto].
    simplify_eq. eexists. split; [done|]. right. eauto.
  - by rewrite length_insert.
  - intros id' x Hx. apply Hu'. left. auto.
  - intros j cd' s Hj HPj Hs Ht. apply Hu'. destruct (decide (j = i)) as [->|].
    + rewrite Hati in Hj. simplify_eq. by right.
    + rewrite Hatj in Hj by done. left. eapply Hcl; [done|tauto|done|done].
  - intros j cd' s Him HPj Hj Hs. destruct (decide (j = i)) as [->|Hji].
    + rewrite Hati in Hj. simplify_eq. simpl. split_and!; [done|done|by intros ?%Hocc|].
      intros k cd2 Hk HPk Hk2 Hs2. rewrite Hatj in Hk2 by done.
      apply Hfree, (Hcl k cd2 (id, u)); try done; [tauto|]. by eapply has_controller_type.
    + rewrite Hatj in Hj by done.
      destruct (Hnew j cd' s Him ltac:(tauto) Hj Hs) as (Hc & ? & ? & Ho). split_and!; try done.
      intros k cd2 Hk HPk Hk2 Hs2. destruct (decide (k = i)) as [->|].
      * rewrite Hati in Hk2. simplify_eq. apply Hfree, (Hcl j cd' (id, u)); try done; [tauto|].
        by eapply has_controller_type.
      * rewrite Hatj in Hk2 by done. by apply (Ho k cd2 Hk ltac:(tauto) Hk2).
  - intros _. unfold hw_weight in *. cbn.
    pose proof (sum_weight_cd _ _ _ (place_cdrom id u cd) Hat) as Hsum.
    assert (cd_weight cd = 0%nat) as H0 by (unfold cd_weight; by rewrite HuN).
    change (cd_weight (place_cdrom id u cd)) with 1%nat in Hsum.
    destruct (mutated st) eqn:Em; [specialize (Hgrow eq_refl); lia|]. rewrite <-(Hsame eq_refl). lia.
Qed.

Lemma desired_unit cd occ id : desired_controller cd occ = Some id → cdrom_UnitNumber cd = None.
Proof.
  unfold desired_controller. by destruct (cdrom_ControllerBusNumber cd), (cdrom_UnitNumber cd).
Qed.

Lemma process_implicit_ok P st i cd :
  pass_inv P st → Cdrom hw0 !! i = Some cd → P i → full_slot cd = None → supported cd = true →
  ∃ st', process_implicit st i = Ok st' ∧ pass_inv (λ j, P j ∧ j ≠ i) st'.
Proof.
  intros Hi Hcd HP Hf Hsup. unfold process_implicit. rewrite (pa_todo _ _ Hi i cd Hcd HP).
  destruct (desired_controller cd (occupied st)) as [id|] eqn:Hd.
  2: { exists st. split; [done|by eapply pass_skip]. }
  pose proof (desired_unit _ _ _ Hd) as HuN.
  destruct (desired_supported _ _ _ Hsup Hd) as [Ht _]. cbv zeta.
  pose proof (add_controller_ok (cid_Type id) (cid_BusNumber id) st) as Ha.
  pose proof (pass_add _ _ _ _ _ Hi Ha) as Hi1. set (st1 := add_controller _ _ _) in *.
  destruct (next_unit_cases id (occupied st1) Ht) as [Hn|(Hn & Hfit & Hfree)].
  { rewrite Hn. exists st1. split; [done|by eapply pass_skip]. }
  rewrite (proj2 (Z.eqb_neq _ _)) by done.
  assert (is_Some (occupied st1 !! id)) as Hk.
  { pose proof (ad_known _ _ _ _ Ha Ht) as Hk. by destruct id. }
  destruct (insert_unit_ok id (next_unit id (occupied st1)) (occupied st1) Hk) as (occ' & -> & Hd' & Hu').
  eexists. split; [reflexivity|]. by eapply pass_place.
Qed.

Lemma explicit_full cd : explicit_cdrom cd = true ↔ is_Some (full_slot cd).
Proof.
  unfold explicit_cdrom, full_slot.
  destruct (cdrom_ControllerBusNumber cd), (cdrom_UnitNumber cd); try (split; [done|by intros []]).
  rewrite negb_true_iff, bool_decide_eq_false. case_decide; naive_solver.
Qed.

(** Both passes run to the end. *)
Lemma explicit_pass ids P st :
  pass_inv P st → Cdrom (hwSpec st) = Cdrom hw0 → NoDup ids →
  (∀ i, i ∈ ids → P i ∧ ∃ cd, Cdrom hw0 !! i = Some cd ∧ supported cd = true ∧ explicit_cdrom cd = true) →
  ∃ st', processExplicitCdroms ids st = Ok st' ∧ pass_inv (λ j, P j ∧ j ∉ ids) st'.
Proof.
  revert P st. unfold processExplicitCdroms.
  induction ids as [|i ids IH]; intros P st Hi Hc Hnd Hids; cbn [run].
  { exists st. split; [done|]. eapply pass_inv_ext; [|exact Hi]. intros j.
    split; [|tauto]. intros ?. split; [done|apply not_elem_of_nil]. }
  apply NoDup_cons in Hnd as [Hni Hnd].
  destruct (Hids i) as (HPi & cd & Hcd & Hsup & [s Hs]%explicit_full); [by left|].
  destruct (process_explicit_ok P st i cd s) as (st1 & -> & Hi1 & Hc1); try done.
  { unfold supported, full_slot in *. destruct (cdrom_ControllerBusNumber cd), (cdrom_UnitNumber cd); try done.
    case_decide; simplify_eq/=. apply orb_true_iff in Hsup as [?|?]; [done|by bool_to_prop]. }
  cbn [outcome_bind]. destruct (IH _ _ Hi1 Hc1 Hnd) as (st2 & -> & Hi2).
  { intros k Hk. destruct (Hids k) as (HPk & cdk); [by right|]. split; [|done].
    split; [done|]. by intros ->. }
  exists st2. split; [done|]. eapply pass_inv_ext; [|exact Hi2]. intros j. rewrite not_elem_of_cons. tauto.
Qed.

Lemma implicit_pass ids P st :
  pass_inv P st → NoDup ids →
  (∀ i, i ∈ ids → P i ∧ ∃ cd, Cdrom hw0 !! i = Some cd ∧ supported cd = true ∧ explicit_cdrom cd = false) →
  ∃ st', processImplicitCdroms ids st = Ok st' ∧ pass_inv (λ j, P j ∧ j ∉ ids) st'.
Proof.
  revert P st. unfold processImplicitCdroms.
  induction ids as [|i ids IH]; intros P st Hi Hnd Hids; cbn [run].
  { exists st. split; [done|]. eapply pass_inv_ext; [|exact Hi]. intros j.
    split; [|tauto]. intros ?. split; [done|apply not_elem_of_nil]. }
  apply NoDup_cons in Hnd as [Hni Hnd].
  destruct (Hids i) as (HPi & cd & Hcd & Hsup & Hexp); [by left|].
  destruct (process_implicit_ok P st i cd) as (st1 & -> & Hi1); try done.
  { destruct (full_slot cd) eqn:E; [|done]. assert (explicit_cdrom cd = true); [|congruence].
    apply explicit_full. by rewrite E. }
  cbn [outcome_bind]. destruct (IH _ _ Hi1 Hnd) as (st2 & -> & Hi2).
  { intros k Hk. destruct (Hids k) as (HPk & cdk); [by right|]. split; [|done].
    split; [done|]. by intros ->. }
  exists st2. split; [done|]. eapply pass_inv_ext; [|exact Hi2]. intros j. rewrite not_elem_of_cons. tauto.
Qed.
End Passes.

(** ** The initial slots *)

Lemma foldl_insert_dom {A} (f : A → ControllerID) (l : list A) (occ : Slots) id :
  is_Some (foldl (λ occ c, <[f c := ∅]> occ) occ l !! id) ↔ is_Some (occ !! id) ∨ id ∈ f <$> l.
Proof.
  revert occ. induction l as [|c l IH]; intros occ; cbn [foldl].
  { rewrite elem_of_nil. tauto. }
  rewrite IH, lookup_insert_is_Some', fmap_cons, elem_of_cons. naive_solver.
Qed.

Lemma mark_device_dom id occ dev id' : is_Some (mark_device id occ dev !! id') ↔ is_Some (occ !! id').
Proof.
  unfold mark_device. destruct dev as [[] u]; simpl; [done| |];
    (destruct (occ !! id) eqn:E; [|done]; rewrite lookup_insert_is_Some';
     split; [intros [<-|?]; [by rewrite E|done]|by right]).
Qed.

Lemma mark_device_units id occ dev id' x :
  is_Some (occ !! id) →
  x ∈ units_at (mark_device id occ dev) id' ↔
  x ∈ units_at occ id' ∨ (id' = id ∧ dev.1 ≠ VirtualDeviceTypeCDROM ∧ x = dev.2).
Proof.
  intros [s Hs]. unfold mark_device, units_at. destruct dev as [[] u]; cbn [fst snd]; rewrite ?Hs;
    [naive_solver| |]; (destruct (decide (id' = id)) as [->|];
    [rewrite lookup_insert_eq, Hs; simpl; set_solver|rewrite lookup_insert_ne by done; naive_solver]).
Qed.

Lemma mark_devices id devs occ :
  is_Some (occ !! id) →
  (∀ id', is_Some (foldl (mark_device id) occ devs !! id') ↔ is_Some (occ !! id')) ∧
  ∀ id' x, x ∈ units_at (foldl (mark_device id) occ devs) id' ↔
    x ∈ units_at occ id' ∨ (id' = id ∧ ∃ t, (t, x) ∈ devs ∧ t ≠ VirtualDeviceTypeCDROM).
Proof.
  revert occ. induction devs as [|dev devs IH]; intros occ Hk; cbn [foldl].
  { split; [done|]. intros id' x. split; [by left|]. by intros [?|(_ & t & ?%not_elem_of_nil & _)]. }
  destruct (IH (mark_device id occ dev)) as [Hd Hu]; [by apply mark_device_dom|]. split.
  - intros id'. by rewrite Hd, mark_device_dom.
  - intros id' x. rewrite Hu, mark_device_units by done. destruct dev as [t0 u0]. simpl.
    setoid_rewrite elem_of_cons. split.
    + intros [[?|(-> & ? & ->)]|(-> & t & ? & ?)]; [by left|right; eauto..].
    + intros [?|(-> & t & [[= -> ->]|?] & ?)]; [by left; left|left; right; done|right; eauto].
Qed.

Lemma mark_controllers ctrls occ :
  (∀ id, is_Some (foldl mark_controller occ ctrls !! id) ↔ is_Some (occ !! id)) ∧
  (∀ id x, x ∈ units_at occ id → x ∈ units_at (foldl mark_controller occ ctrls) id) ∧
  ∀ ctrl t x, ctrl ∈ ctrls → is_cdrom_type (cs_Type ctrl) = true →
    is_Some (occ !! mkControllerID (cs_Type ctrl) (cs_BusNumber ctrl)) →
    (t, x) ∈ cs_Devices ctrl → t ≠ VirtualDeviceTypeCDROM →
    x ∈ units_at (foldl mark_controller occ ctrls) (mkControllerID (cs_Type ctrl) (cs_BusNumber ctrl)).
Proof.
  revert occ. induction ctrls as [|c ctrls IH]; intros occ; cbn [foldl].
  { split_and!; try done. by intros ? ? ? ?%not_elem_of_nil. }
  destruct (IH (mark_controller occ c)) as (Hd & Hm & Hall).
  assert ((∀ id, is_Some (mark_controller occ c !! id) ↔ is_Some (occ !! id)) ∧
          (∀ id x, x ∈ units_at occ id → x ∈ units_at (mark_controller occ c) id) ∧
          ∀ t x, is_cdrom_type (cs_Type c) = true →
            is_Some (occ !! mkControllerID (cs_Type c) (cs_BusNumber c)) →
            (t, x) ∈ cs_Devices c → t ≠ VirtualDeviceTypeCDROM →
            x ∈ units_at (mark_controller occ c) (mkControllerID (cs_Type c) (cs_BusNumber c)))
    as (Hd1 & Hm1 & Hc1).
  { unfold mark_controller. destruct (is_cdrom_type (cs_Type c)); [|done]. cbv zeta.
    destruct (occ !! mkControllerID (cs_Type c) (cs_BusNumber c)) as [s|] eqn:E;
      [|split_and!; [done|done|by intros ? ? _ [? ?]]].
    destruct (mark_devices (mkControllerID (cs_Type c) (cs_BusNumber c)) (cs_Devices c) occ) as [Hd1 Hu1];
      [by rewrite E|]. split_and!; [done| |].
    - intros id x ?. apply Hu1. by left.
    - intros t x _ _ ? ?. apply Hu1. right. eauto. }
  split_and!.
  - intros id. by rewrite Hd, Hd1.
  - intros. auto.
  - intros ctrl t x [->|Hin]%elem_of_cons Ht Hk Hdev Hnc; [by apply Hm, (Hc1 t)|].
    apply (Hall ctrl t); try done. by apply Hd1.
Qed.

Lemma constructOccupiedSlots_ok hw status :
  (∀ id, is_Some (constructOccupiedSlots hw status !! id) ↔ has_controller hw id) ∧
  ∀ ctrls ctrl t x, status = Some ctrls → ctrl ∈ ctrls → (t, x) ∈ cs_Devices ctrl →
    t ≠ VirtualDeviceTypeCDROM → has_controller hw (mkControllerID (cs_Type ctrl) (cs_BusNumber ctrl)) →
    x ∈ units_at (constructOccupiedSlots hw status) (mkControllerID (cs_Type ctrl) (cs_BusNumber ctrl)).
Proof.
  unfold constructOccupiedSlots. cbv zeta. set (occ := foldl _ (foldl _ _ _) _).
  assert (∀ id, is_Some (occ !! id) ↔ has_controller hw id) as Hdom.
  { intros [t b]. unfold occ. rewrite !foldl_insert_dom, lookup_empty, !list_elem_of_fmap.
    unfold has_controller. cbn [cid_Type cid_BusNumber]. split.
    - intros [[[? ?]|(c & [= -> ->] & ?)]|(c & [= -> ->] & ?)]; [done|..]; by apply list_elem_of_fmap_2.
    - destruct t; try done; intros (c & -> & ?)%list_elem_of_fmap; [left; right|right]; by exists c. }
  destruct status as [ctrls|]; [|split; [done|by intros]].
  destruct (mark_controllers ctrls occ) as (Hd & _ & Hall). split.
  - intros id. by rewrite Hd.
  - intros ctrls' ctrl t x [= <-] ? ? ? Hc. apply (Hall ctrl t); try done.
    + by apply has_controller_type in Hc.
    + by apply Hdom.
Qed.

(** ** The whole mutator *)

Lemma elem_of_cdrom_indices P cds i :
  i ∈ cdrom_indices P cds ↔ ∃ cd, cds !! i = Some cd ∧ supported cd = true ∧ P cd = true.
Proof.
  unfold cdrom_indices. rewrite list_elem_of_filter, elem_of_seq. split.
  - intros [Hm _]. destruct (cds !! i) as [cd|]; [|done]. apply andb_true_iff in Hm. eauto.
  - intros (cd & Hcd & Hs & HP). rewrite Hcd, Hs, HP. split; [done|]. apply lookup_lt_Some in Hcd. lia.
Qed.

(** The mutator does nothing, or runs both passes. *)
Lemma MutateCdrom_ok bv sv fs isUpdate a hardware status :
  MutateCdromControllerOnUpdate bv sv fs isUpdate a hardware status = Ok (hardware, false) ∨
  ∃ hw st, hardware = Some hw ∧
    MutateCdromControllerOnUpdate bv sv fs isUpdate a hardware status = Ok (Some (hwSpec st), mutated st) ∧
    pass_inv hw (constructOccupiedSlots hw status) (λ _, False) st.
Proof.
  unfold MutateCdromControllerOnUpdate.
  destruct (VMSharedDisks fs); [|by left]. destruct isUpdate; [|by left].
  destruct (IsObjectUpgraded bv sv fs a); [|by left]. destruct hardware as [hw|]; [|by left].
  simpl. case_bool_decide; [by left|]. right. cbv zeta.
  set (occ := constructOccupiedSlots hw status). set (st0 := mkCdState hw occ false).
  set (P := λ j, ∃ cd, Cdrom hw !! j = Some cd ∧ supported cd = true).
  assert (pass_inv hw occ P st0) as H0.
  { split; cbn [st0 hwSpec occupied mutated]; try done.
    - apply constructOccupiedSlots_ok.
    - intros i cd Hcd. exists cd. split; [done|by left].
    - intros i cd s Hcd HP Hs Ht. exfalso. apply HP. exists cd. split; [done|].
      unfold supported. unfold full_slot in Hs. repeat case_match; simplify_eq/=. by rewrite Ht.
    - intros i cd s (cd' & ? & ?) HP Hcd Hs. congruence. }
  destruct (explicit_pass hw occ (cdrom_indices explicit_cdrom (Cdrom hw)) P st0 H0 eq_refl) as (st1 & -> & H1).
  { apply NoDup_filter, NoDup_seq. }
  { intros i (cd & ? & ? & ?)%elem_of_cdrom_indices. split; [by exists cd|eauto]. }
  cbn [outcome_bind].
  destruct (implicit_pass hw occ (cdrom_indices (λ cd, negb (explicit_cdrom cd)) (Cdrom hw)) _ st1 H1)
    as (st2 & -> & H2).
  { apply NoDup_filter, NoDup_seq. }
  { intros i (cd & ? & ? & He)%elem_of_cdrom_indices. apply negb_true_iff in He.
    split; [|eauto]. split; [by exists cd|]. intros (cd' & ? & ? & ?)%elem_of_cdrom_indices. congruence. }
  exists hw, st2. split_and!; [done|done|]. eapply pass_inv_ext; [|exact H2].
  intros j. split; [|done]. rewrite !elem_of_cdrom_indices.
  intros [[(cd & Hcd & Hs) He] Hn]. destruct (explicit_cdrom cd) eqn:E; [apply He|apply Hn]; exists cd.
  - done.
  - by rewrite E.
Qed.

(** ** Properties *)

(** The CD-ROM mutator never inserts into a nil set, and reports a
    mutation exactly when it changed the hardware spec. *)
Theorem cdrom_mutation_safe (bv sv : string) (fs : FeatureStates) (isUpdate : bool)
    (a : gmap string string) (hardware : option VirtualMachineHardwareSpec)
    (status : option (list VirtualControllerStatus)) :
  ∃ hardware' m,
    MutateCdromControllerOnUpdate bv sv fs isUpdate a hardware status = Ok (hardware', m) ∧
    (m = true ↔ hardware' ≠ hardware).
Proof.
  destruct (MutateCdrom_ok bv sv fs isUpdate a hardware status) as [->|(hw & st & -> & -> & Hi)].
  { do 2 eexists. split; [done|naive_solver]. }
  do 2 eexists. split; [done|]. split.
  - intros Hm [= Heq]. pose proof (pa_grow _ _ _ _ Hi Hm) as Hg. rewrite Heq in Hg. lia.
  - intros Hne. destruct (mutated st) eqn:Em; [done|].
    rewrite (pa_same _ _ _ _ Hi Em) in Hne. done.
Qed.

(** A CD-ROM with a complete placement is left alone; a slot the mutator
    gives to one lies on a controller of the resulting spec, fits it, is used by
    no other CD-ROM of the spec and by no other device the status reports on a
    controller of the spec. *)
Theorem cdrom_slots_unique (bv sv : string) (fs : FeatureStates) (isUpdate : bool)
    (a : gmap string string) (hw hw' : VirtualMachineHardwareSpec)
    (status : option (list VirtualControllerStatus)) (m : bool) :
  MutateCdromControllerOnUpdate bv sv fs isUpdate a (Some hw) status = Ok (Some hw', m) →
  length (Cdrom hw') = length (Cdrom hw) ∧
  (∀ i cd, Cdrom hw !! i = Some cd → is_Some (full_slot cd) → Cdrom hw' !! i = Some cd) ∧
  (∀ i cd cd' s, Cdrom hw !! i = Some cd → full_slot cd = None →
     Cdrom hw' !! i = Some cd' → full_slot cd' = Some s →
     has_controller hw' s.1 ∧ fits s.1 s.2 ∧
     (∀ j cdj, j ≠ i → Cdrom hw' !! j = Some cdj → full_slot cdj ≠ Some s) ∧
     (∀ ctrls ctrl t, status = Some ctrls → ctrl ∈ ctrls → (t, s.2) ∈ cs_Devices ctrl →
        t ≠ VirtualDeviceTypeCDROM → has_controller hw s.1 →
        mkControllerID (cs_Type ctrl) (cs_BusNumber ctrl) ≠ s.1)).
Proof.
  intros Hrun.
  destruct (MutateCdrom_ok bv sv fs isUpdate a (Some hw) status) as [Hr|(hw1 & st & [= <-] & Hr & Hi)];
    rewrite Hrun in Hr; simplify_eq.
  { split_and!; [done|done|]. intros. congruence. }
  split_and!; [by apply Hi| |].
  - intros i cd Hcd [s Hs]. destruct (pa_keep _ _ _ _ Hi i cd Hcd) as (cd' & Hcd' & [->|[? _]]); [done|congruence].
  - intros i cd cd' s Hcd Hf Hcd' Hs.
    destruct (pa_new _ _ _ _ Hi i cd' s) as (Hc & Hfit & Hocc & Ho); try done; [by exists cd|tauto|].
    split_and!; try done; [by intros j cdj ?; apply Ho; [|tauto]|].
    intros ctrls ctrl t -> Hin Hdev Hnc Hk Heq. apply Hocc. rewrite <-Heq in *.
    by eapply (proj2 (constructOccupiedSlots_ok hw (Some ctrls))).
Qed.

Definition ex_cd_hw : VirtualMachineHardwareSpec :=
  mkHardware [] [] [] [mkIDE 0]
    [mkCdrom "cd1" NoControllerType None None;
     mkCdrom "cd2" VirtualControllerTypeIDE (Some 0) (Some 0)].
Definition ex_cd_hw' : VirtualMachineHardwareSpec :=
  mkHardware [] [] [] [mkIDE 0; mkIDE 1]
    [mkCdrom "cd1" VirtualControllerTypeIDE (Some 1) (Some 0);
     mkCdrom "cd2" VirtualControllerTypeIDE (Some 0) (Some 0)].
Definition ex_cd_annotations : gmap string string :=
  {[ UpgradedToBuildVersionAnnotationKey := "v1"; UpgradedToSchemaVersionAnnotationKey := "v1alpha6";
     UpgradedToFeatureVersionAnnotationKey := "7" ]}.
Definition ex_cd_status : option (list VirtualControllerStatus) :=
  Some [mkControllerStatus VirtualControllerTypeIDE 0 [(VirtualDeviceTypeDisk, 1)]].

Lemma cdrom_slots_unique_witness :
  length (Cdrom ex_cd_hw') = length (Cdrom ex_cd_hw) ∧
  Cdrom ex_cd_hw' !! 1%nat = Some (mkCdrom "cd2" VirtualControllerTypeIDE (Some 0) (Some 0)).
Proof.
  destruct (cdrom_slots_unique "v1" "v1alpha6" (mkFeatures true false false false) true
    ex_cd_annotations ex_cd_hw ex_cd_hw' ex_cd_status true) as (Hl & Hk & _).
  { vm_compute. reflexivity. }
  split; [exact Hl|]. apply (Hk 1%nat); [done|by eexists].
Defined.
