(* ===== verification/PowerState.v ===== *)
(** * Power operations: pkg/util/vsphere/vm/power_state.go

    [setPowerState] brings a VM to a power state with a hard or soft operation
    or both, [restart] restarts it once per requested restart time, which it
    records in the VM's ExtraConfig.  The vSphere API is the class [VSphere],
    with what the code relies on in [VSphereLaws]; the state of the VM in vCenter
    is threaded through.  Times are nanoseconds since the epoch, int64. *)

From S2P Require Import Prelude.
Local Open Scope Z_scope.

(** ** Behaviours, states and results *)

Inductive PowerOpBehavior :=
  | PowerOpBehaviorUnset
  | PowerOpBehaviorHard
  | PowerOpBehaviorSoft
  | PowerOpBehaviorTrySoft
  | PowerOpBehaviorOther (n : Z).

Definition behavior_String (b : PowerOpBehavior) : string :=
  match b with
  | PowerOpBehaviorHard => "Hard"
  | PowerOpBehaviorSoft => "Soft"
  | PowerOpBehaviorTrySoft => "TrySoft"
  | _ => ""
  end.

(** [vimtypes.VirtualMachinePowerState], a string type. *)
Abbreviation PowerState := string.
Definition PoweredOff : PowerState := "poweredOff".
Definition PoweredOn : PowerState := "poweredOn".
Definition Suspended : PowerState := "suspended".

Inductive PowerOpResult :=
  | PowerOpResultNone
  | PowerOpResultChanged
  | PowerOpResultChangedHard
  | PowerOpResultChangedSoft.

Definition AnyChange (r : PowerOpResult) : bool :=
  match r with PowerOpResultNone => false | _ => true end.

Definition ParsePowerOpMode (m : string) : PowerOpBehavior :=
  if bool_decide (ToLower m = ToLower (behavior_String PowerOpBehaviorHard)) then PowerOpBehaviorHard
  else if bool_decide (ToLower m = ToLower (behavior_String PowerOpBehaviorSoft)) then PowerOpBehaviorSoft
  else if bool_decide (ToLower m = ToLower (behavior_String PowerOpBehaviorTrySoft))
       then PowerOpBehaviorTrySoft
  else PowerOpBehaviorUnset.

Definition ParsePowerState (m : string) : PowerState :=
  if bool_decide (ToLower m = ToLower PoweredOff) then PoweredOff
  else if bool_decide (ToLower m = ToLower PoweredOn) then PoweredOn
  else if bool_decide (ToLower m = ToLower Suspended) then Suspended
  else "".

(** ** Numbers in ExtraConfig *)

Definition minus_sign : Ascii.ascii := Ascii.ascii_of_N 45.
Definition plus_sign : Ascii.ascii := Ascii.ascii_of_N 43.

(** [strconv.FormatInt(n, 10)] and [strconv.ParseInt(s, 10, 64)]. *)
Definition FormatInt (n : Z) : string :=
  if n <? 0 then String.String minus_sign (format_digits 20 (- n) "") else format_digits 20 n "".

Definition ParseInt (s : string) : option Z :=
  let parse neg rest :=
    match rest with
    | EmptyString => None
    | _ =>
      match parse_digits rest 0 with
      | Some n => if (neg : bool) then (if n <=? 2 ^ 63 then Some (- n) else None)
                  else (if n <? 2 ^ 63 then Some n else None)
      | None => None
      end
    end in
  match s with
  | EmptyString => None
  | String.String c rest =>
    if bool_decide (c = minus_sign) then parse true rest
    else if bool_decide (c = plus_sign) then parse false rest
    else parse false s
  end.

(** The dynamic value of an ExtraConfig entry; a float64 is given by its
    conversion to int64. *)
Inductive ecValue :=
  | ECString (s : string)
  | ECInt (n : Z)
  | ECInt64 (n : Z)
  | ECFloat64 (n : Z)
  | ECOther.

Abbreviation ExtraConfig := (list (option (string * ecValue))).

Definition ExtraConfigKeyLastRestartTime : string := "vmservice.lastRestartTime".

Inductive powerError (E : Type) :=
  | ErrProperties (e : E)
  | ErrNilConfig
  | ErrInvalidPowerState (s : PowerState)
  | ErrInvalidPowerOpBehavior (b : PowerOpBehavior)
  | ErrMissingOps
  | ErrInvokeHard (s : PowerState) (e : E)
  | ErrHard (s : PowerState) (infraMaintenance : bool) (msg : string) (e : E)
  | ErrSoft (s : PowerState) (e : E)
  | ErrTimeout (s : PowerState)
  | ErrWait (s : PowerState) (e : E)
  | ErrInvokeHardRestart (e : E)
  | ErrHardRestart (e : E)
  | ErrSoftRestartTimeout
  | ErrSoftRestart (e : E)
  | ErrParseRestartTime (s : string)
  | ErrInvokeReconfigure (e : E)
  | ErrReconfigure (e : E).
Arguments ErrProperties {E}. Arguments ErrNilConfig {E}. Arguments ErrInvalidPowerState {E}.
Arguments ErrInvalidPowerOpBehavior {E}. Arguments ErrMissingOps {E}. Arguments ErrInvokeHard {E}.
Arguments ErrHard {E}. Arguments ErrSoft {E}. Arguments ErrTimeout {E}. Arguments ErrWait {E}.
Arguments ErrInvokeHardRestart {E}. Arguments ErrHardRestart {E}. Arguments ErrSoftRestartTimeout {E}.
Arguments ErrSoftRestart {E}. Arguments ErrParseRestartTime {E}. Arguments ErrInvokeReconfigure {E}.
Arguments ErrReconfigure {E}.

(** The first entry with the key decides; zero and other types mean not set. *)
Fixpoint GetLastRestartTimeFromExtraConfig {E} (extraConfig : ExtraConfig) :
    powerError E + option Z :=
  match extraConfig with
  | [] => inr None
  | None :: rest => GetLastRestartTimeFromExtraConfig rest
  | Some (k, v) :: rest =>
    if bool_decide (k = ExtraConfigKeyLastRestartTime) then
      match v with
      | ECString s =>
        match ParseInt s with
        | None => inl (ErrParseRestartTime s)
        | Some epoch => inr (if epoch =? 0 then None else Some epoch)
        end
      | ECInt n | ECInt64 n | ECFloat64 n => inr (if n =? 0 then None else Some n)
      | ECOther => inr None
      end
    else GetLastRestartTimeFromExtraConfig rest
  end.

(** ** The vSphere API *)

Inductive HardOp := PowerOn | PowerOff | Suspend | Reset.
Inductive SoftOp := ShutdownGuest | StandbyGuest | RebootGuest.

(** What is read of a task's info: [IsInfraMaintenanceFault] and
    [ErrorMessageFromTaskInfo]. *)
Record TaskInfo := mkTaskInfo {
  isInfraMaintenanceFault : bool;
  errorMessage : string
}.

(** The fault of a failed task: the error, its info, and the states of an
    [InvalidPowerState] fault in its chain. *)
Record TaskFault (E : Type) := mkTaskFault {
  fault_err : E;
  fault_info : option TaskInfo;
  fault_invalidPowerState : option (PowerState * PowerState)
}.
Arguments mkTaskFault {E}. Arguments fault_err {E}. Arguments fault_info {E}.
Arguments fault_invalidPowerState {E}.

(** [W] is the state of vCenter as far as this VM goes. *)
Class VSphere (W E : Type) := {
  (* power state and ExtraConfig; the config may be nil *)
  Properties : W → E + (PowerState * option ExtraConfig);
  (* an error invoking the operation, or the fault of its task *)
  hard_op : HardOp → W → W * (E + option (TaskFault E));
  soft_op : SoftOp → W → W * option E;
  (* the flag: the deadline was exceeded *)
  WaitForPowerState : PowerState → W → W * option (E * bool);
  (* a RebootGuest under a deadline, with the same flag *)
  deadline_exceeded : W → bool;
  Reconfigure : string → string → W → W * (E + option E)
}.

Section PowerState.
Context {W E : Type} `{VSphere W E}.

(** The managed object as known to the caller. *)
Record moVM := mkMO {
  mo_PowerState : PowerState;
  mo_Config : option ExtraConfig
}.

(** ** Setting the power state *)

Definition WrapHardPowerOpFailure (desired : PowerState) (ti : option TaskInfo) (e : E) : powerError E :=
  match ti with
  | Some ti => ErrHard desired (isInfraMaintenanceFault ti) (errorMessage ti) e
  | None => ErrHard desired false "" e
  end.

Definition doAndWaitOnHardPowerOp (desired : PowerState) (op : HardOp) (w : W) :
    W * (powerError E + PowerOpResult) :=
  match hard_op op w with
  | (w, inl e) => (w, inl (ErrInvokeHard desired e))
  | (w, inr (Some f)) =>
    match fault_invalidPowerState f with
    | Some (existing, requested) =>
      if bool_decide (existing = requested) then (w, inr PowerOpResultNone)
      else (w, inl (WrapHardPowerOpFailure desired (fault_info f) (fault_err f)))
    | None => (w, inl (WrapHardPowerOpFailure desired (fault_info f) (fault_err f)))
    end
  | (w, inr None) =>
    if bool_decide (desired = PoweredOn) then (w, inr PowerOpResultChanged)
    else if bool_decide (desired = PoweredOff) || bool_decide (desired = Suspended)
         then (w, inr PowerOpResultChangedHard)
    else (w, inl (ErrInvalidPowerState desired))
  end.

Definition doAndWaitOnSoftPowerOp (desired : PowerState) (op : SoftOp) (w : W) :
    W * (powerError E + PowerOpResult) :=
  match soft_op op w with
  | (w, Some e) => (w, inl (ErrSoft desired e))
  | (w, None) =>
    match WaitForPowerState desired w with
    | (w, Some (_, true)) => (w, inl (ErrTimeout desired))
    | (w, Some (e, false)) => (w, inl (ErrWait desired e))
    | (w, None) => (w, inr PowerOpResultChangedSoft)
    end
  end.

(** The operations for a desired state and a behaviour: the nested switch. *)
Definition power_ops (desired : PowerState) (b : PowerOpBehavior) :
    powerError E + (option HardOp * option SoftOp) :=
  if bool_decide (desired = PoweredOn) then inr (Some PowerOn, None)
  else if bool_decide (desired = PoweredOff) then
    match b with
    | PowerOpBehaviorHard => inr (Some PowerOff, None)
    | PowerOpBehaviorSoft => inr (None, Some ShutdownGuest)
    | PowerOpBehaviorTrySoft => inr (Some PowerOff, Some ShutdownGuest)
    | _ => inl (ErrInvalidPowerOpBehavior b)
    end
  else if bool_decide (desired = Suspended) then
    match b with
    | PowerOpBehaviorHard => inr (Some Suspend, None)
    | PowerOpBehaviorSoft => inr (None, Some StandbyGuest)
    | PowerOpBehaviorTrySoft => inr (Some Suspend, Some StandbyGuest)
    | _ => inl (ErrInvalidPowerOpBehavior b)
    end
  else inl (ErrInvalidPowerState desired).

Definition run_ops (desired : PowerState) (ops : option HardOp * option SoftOp) (w : W) :
    W * (powerError E + PowerOpResult) :=
  match ops with
  | (Some hard, None) => doAndWaitOnHardPowerOp desired hard w
  | (None, Some soft) => doAndWaitOnSoftPowerOp desired soft w
  | (Some hard, Some soft) =>
    match doAndWaitOnSoftPowerOp desired soft w with
    | (w, inl _) => doAndWaitOnHardPowerOp desired hard w
    | (w, inr r) => (w, inr r)
    end
  | (None, None) => (w, inl ErrMissingOps)
  end.

Definition setPowerState (mo : moVM) (fetchProperties : bool) (desired : PowerState)
    (b : PowerOpBehavior) (w : W) : W * (powerError E + PowerOpResult) :=
  let current :=
    if bool_decide (mo_PowerState mo = "") || fetchProperties then
      match Properties w with
      | inl e => inl (ErrProperties e)
      | inr (ps, _) => inr ps
      end
    else inr (mo_PowerState mo) in
  match current with
  | inl e => (w, inl e)
  | inr current =>
    if bool_decide (current = desired) then (w, inr PowerOpResultNone)
    else
      match power_ops desired b with
      | inl e => (w, inl e)
      | inr ops => run_ops desired ops w
      end
  end.

(** [SetPowerState] sends the one value below on the channel and closes it. *)
Definition SetAndWaitOnPowerState := setPowerState.

(** ** Restarting *)

Definition doAndWaitOnHardRestart (w : W) : W * (powerError E + PowerOpResult) :=
  match hard_op Reset w with
  | (w, inl e) => (w, inl (ErrInvokeHardRestart e))
  | (w, inr (Some f)) => (w, inl (ErrHardRestart (fault_err f)))
  | (w, inr None) => (w, inr PowerOpResultChangedHard)
  end.

Definition doAndWaitOnSoftRestart (w : W) : W * (powerError E + PowerOpResult) :=
  match soft_op RebootGuest w with
  | (w, Some e) =>
    if deadline_exceeded w then (w, inl ErrSoftRestartTimeout) else (w, inl (ErrSoftRestart e))
  | (w, None) => (w, inr PowerOpResultChangedSoft)
  end.

Definition setLastRestartTimeInExtraConfigAndWait (lastRestartTime : Z) (w : W) :
    W * option (powerError E) :=
  match Reconfigure ExtraConfigKeyLastRestartTime (FormatInt lastRestartTime) w with
  | (w, inl e) => (w, Some (ErrInvokeReconfigure e))
  | (w, inr (Some e)) => (w, Some (ErrReconfigure e))
  | (w, inr None) => (w, None)
  end.

Definition restart_op (b : PowerOpBehavior) (w : W) : W * (powerError E + PowerOpResult) :=
  match b with
  | PowerOpBehaviorHard => doAndWaitOnHardRestart w
  | PowerOpBehaviorSoft => doAndWaitOnSoftRestart w
  | PowerOpBehaviorTrySoft =>
    match doAndWaitOnSoftRestart w with
    | (w, inl _) => doAndWaitOnHardRestart w
    | (w, inr r) => (w, inr r)
    end
  | _ => (w, inl (ErrInvalidPowerOpBehavior b))
  end.

(** The managed object after fetching what is missing or asked for. *)
Definition restart_props (mo : moVM) (fetchProperties : bool) (w : W) : powerError E + moVM :=
  let needPower := fetchProperties || bool_decide (mo_PowerState mo = "") in
  let needConfig := fetchProperties ||
    match mo_Config mo with None | Some [] => true | Some _ => false end in
  if needPower || needConfig then
    match Properties w with
    | inl e => inl (ErrProperties e)
    | inr (ps, cfg) => inr (mkMO (if needPower then ps else mo_PowerState mo)
                                 (if needConfig then cfg else mo_Config mo))
    end
  else inr mo.

Definition restart (mo : moVM) (fetchProperties : bool) (desiredLastRestartTime now : Z)
    (b : PowerOpBehavior) (w : W) : W * (powerError E + PowerOpResult) :=
  match restart_props mo fetchProperties w with
  | inl e => (w, inl e)
  | inr mo =>
    match mo_Config mo with
    | None => (w, inl ErrNilConfig)
    | Some extraConfig =>
      if negb (bool_decide (mo_PowerState mo = PoweredOn))
      then (w, inl (ErrInvalidPowerState (mo_PowerState mo)))
      else
        match GetLastRestartTimeFromExtraConfig extraConfig with
        | inl e => (w, inl e)
        | inr current =>
          if match current with Some t => desiredLastRestartTime <=? t | None => false end
          then (w, inr PowerOpResultNone)
          else if now <? desiredLastRestartTime then (w, inr PowerOpResultNone)
          else
            match restart_op b w with
            | (w, inl e) => (w, inl e)
            | (w, inr result) =>
              if AnyChange result then
                match setLastRestartTimeInExtraConfigAndWait desiredLastRestartTime w with
                | (w, Some e) => (w, inl e)
                | (w, None) => (w, inr result)
                end
              else (w, inr result)
            end
        end
    end
  end.
End PowerState.

(** ** What the code relies on *)

Definition hard_target (op : HardOp) : PowerState :=
  match op with
  | PowerOn | Reset => PoweredOn
  | PowerOff => PoweredOff
  | Suspend => Suspended
  end.

Fixpoint first_value (ec : ExtraConfig) (k : string) : option ecValue :=
  match ec with
  | [] => None
  | Some (k', v) :: rest => if bool_decide (k' = k) then Some v else first_value rest k
  | None :: rest => first_value rest k
  end.

(** The VM's power state and ExtraConfig, and the documented effect of the
    calls: a finished power operation leaves the VM in its state, an
    InvalidPowerState fault whose states agree means it was there already, a
    wait ends in the state, a guest reboot keeps it, and a reconfigure stores
    the key and keeps the power state. *)
Class VSphereLaws (W E : Type) `{VSphere W E} := {
  vm_power : W → PowerState;
  vm_extra : W → ExtraConfig;
  Properties_sound w ps cfg : Properties w = inr (ps, cfg) →
    ps = vm_power w ∧ ∀ ec, cfg = Some ec → ec = vm_extra w;
  hard_op_done op w w' : hard_op op w = (w', inr None) → vm_power w' = hard_target op;
  hard_op_already op w w' f s : hard_op op w = (w', inr (Some f)) →
    fault_invalidPowerState f = Some (s, s) → vm_power w' = hard_target op;
  wait_done s w w' : WaitForPowerState s w = (w', None) → vm_power w' = s;
  reboot_keeps w w' : soft_op RebootGuest w = (w', None) → vm_power w' = vm_power w;
  reconfigure_stores k v w w' : Reconfigure k v w = (w', inr None) →
    vm_power w' = vm_power w ∧ first_value (vm_extra w') k = Some (ECString v)
}.

Section Properties.
Context {W E : Type} `{VSphereLaws W E}.

Lemma GetLastRestartTime_first ec :
  GetLastRestartTimeFromExtraConfig (E := E) ec =
  match first_value ec ExtraConfigKeyLastRestartTime with
  | None | Some ECOther => inr None
  | Some (ECString s) =>
    match ParseInt s with
    | None => inl (ErrParseRestartTime s)
    | Some epoch => inr (if epoch =? 0 then None else Some epoch)
    end
  | Some (ECInt n | ECInt64 n | ECFloat64 n) => inr (if n =? 0 then None else Some n)
  end.
Proof using Type.
  induction ec as [|[[k v]|] ec IH]; simpl; [done| |done].
  case_bool_decide; [|done]. by destruct v.
Qed.

Lemma format_digits_head fuel n acc :
  (0 < fuel)%nat → 0 ≤ n → ∃ d s, format_digits fuel n acc = String.String (Ascii.ascii_of_N (Z.to_N (48 + d))) s ∧ 0 ≤ d < 10.
Proof using Type.
  revert n acc. induction fuel as [|fuel IH]; intros n acc Hf Hn; [lia|]. cbn [format_digits].
  pose proof (Z.mod_pos_bound n 10 ltac:(lia)). destruct (n / 10 =? 0); [by do 2 eexists|].
  destruct fuel as [|fuel]; [by do 2 eexists|]. apply IH; [lia|]. apply Z.div_pos; lia.
Qed.

Lemma digit_not_sign d :
  0 ≤ d < 10 → Ascii.ascii_of_N (Z.to_N (48 + d)) ≠ minus_sign ∧ Ascii.ascii_of_N (Z.to_N (48 + d)) ≠ plus_sign.
Proof using Type.
  intros Hd. assert (digit (Ascii.ascii_of_N (Z.to_N (48 + d))) = Some d) as Hdig by (by apply digit_ascii).
  split; intros Heq; rewrite Heq in Hdig; by vm_compute in Hdig.
Qed.

Lemma parse_format_int n : in_int64 n → ParseInt (FormatInt n) = Some n.
Proof using Type.
  unfold in_int64. intros Hn. unfold FormatInt. destruct (n <? 0) eqn:Hs; bool_to_prop.
  - unfold ParseInt. rewrite bool_decide_true by done. cbv zeta beta.
    destruct (format_digits_head 20 (- n) "" ltac:(lia) ltac:(lia)) as (d & r & Hd & _).
    rewrite Hd. rewrite <-Hd. rewrite parse_format_digits by (simpl; lia). cbn [parse_digits].
    rewrite (proj2 (Z.leb_le _ _)) by lia. f_equal. lia.
  - destruct (format_digits_head 20 n "" ltac:(lia) ltac:(lia)) as (d & r & Hd & Hr).
    destruct (digit_not_sign d Hr) as [Hm Hp]. unfold ParseInt.
    rewrite Hd. rewrite !bool_decide_false by done. cbv zeta beta. rewrite <-Hd.
    rewrite parse_format_digits by (simpl; lia). cbn [parse_digits].
    by rewrite (proj2 (Z.ltb_lt _ _)) by lia.
Qed.

(** ** Power operations end in their state *)

Lemma hard_power_op_ok desired op w w' r :
  doAndWaitOnHardPowerOp desired op w = (w', inr r) → hard_target op = desired →
  vm_power w' = desired ∧ r ≠ PowerOpResultChangedSoft ∧
  (r = PowerOpResultChanged → desired = PoweredOn) ∧ (r = PowerOpResultChangedHard → desired ≠ PoweredOn).
Proof using Type*.
  unfold doAndWaitOnHardPowerOp. intros Hop Ht. destruct (hard_op op w) as [w1 [e|[f|]]] eqn:E1; [done| |].
  - destruct (fault_invalidPowerState f) as [[s1 s2]|] eqn:Ef; [|done].
    case_bool_decide; [|done]. simplify_eq. split_and!; try done. by eapply hard_op_already.
  - pose proof (hard_op_done _ _ _ E1) as Hd. repeat case_bool_decide; simplify_eq/=; try done;
      split_and!; try done; congruence.
Qed.

Lemma soft_power_op_ok desired op w w' r :
  doAndWaitOnSoftPowerOp desired op w = (w', inr r) → vm_power w' = desired ∧ r = PowerOpResultChangedSoft.
Proof using Type*.
  unfold doAndWaitOnSoftPowerOp. destruct (soft_op op w) as [w1 [e|]]; [done|].
  destruct (WaitForPowerState desired w1) as [w2 [[e []]|]] eqn:E2; try done.
  intros [= <- <-]. split; [by eapply wait_done|done].
Qed.

Lemma power_ops_target desired b hard soft :
  power_ops (E := E) desired b = inr (hard, soft) →
  (∀ op, hard = Some op → hard_target op = desired ∧ (desired = PoweredOn ∨ b ≠ PowerOpBehaviorSoft)) ∧
  (∀ op, soft = Some op → desired ≠ PoweredOn ∧ b ≠ PowerOpBehaviorHard).
Proof using Type.
  unfold power_ops. intros Hp. repeat case_bool_decide; simplify_eq; destruct b; simplify_eq/=;
    split; intros op Hop; simplify_eq/=; split; try done; try (by right); by left.
Qed.

(** ** Properties *)


Lemma hard_restart_on w w' r :
  doAndWaitOnHardRestart w = (w', inr r) → vm_power w' = PoweredOn.
Proof using Type*.
  unfold doAndWaitOnHardRestart. destruct (hard_op Reset w) as [w1 [e|[f|]]] eqn:Hr; try done.
  intros [= <- <-]. by apply hard_op_done in Hr.
Qed.

Lemma soft_restart_on w w' r :
  doAndWaitOnSoftRestart w = (w', inr r) → vm_power w' = vm_power w.
Proof using Type*.
  unfold doAndWaitOnSoftRestart. destruct (soft_op RebootGuest w) as [w1 [e|]] eqn:Hr.
  { by destruct (deadline_exceeded w1). }
  intros [= <- <-]. by eapply reboot_keeps.
Qed.

Lemma restart_op_on b w w' r :
  restart_op b w = (w', inr r) → vm_power w = PoweredOn → vm_power w' = PoweredOn.
Proof using Type*.
  unfold restart_op. intros Hr Hon. destruct b; try done.
  - by eapply hard_restart_on.
  - apply soft_restart_on in Hr. congruence.
  - destruct (doAndWaitOnSoftRestart w) as [w1 [e|r1]] eqn:Hs.
    + by eapply hard_restart_on.
    + simplify_eq. apply soft_restart_on in Hs. congruence.
Qed.

(** A restart request is carried out at most once: after a restart for
    time [d] succeeded, a request for [d] or earlier, whatever its behaviour and
    whenever it comes, leaves the VM alone. *)
Theorem restart_at_most_once (mo mo' : moVM) (d d' now now' : Z) (b b' : PowerOpBehavior) (w w' : W)
    (r : PowerOpResult) (ps : PowerState) (ec : ExtraConfig) :
  in_int64 d → d ≠ 0 → d' ≤ d →
  restart mo true d now b w = (w', inr r) → AnyChange r = true →
  Properties w' = inr (ps, Some ec) →
  restart mo' true d' now' b' w' = (w', inr PowerOpResultNone).
Proof using Type*.
  intros Hd Hd0 Hle Hr Hch Hp. unfold restart, restart_props in Hr. cbn in Hr.
  destruct (Properties w) as [e|[ps0 cfg0]] eqn:Hp0; [done|]. cbn in Hr.
  destruct cfg0 as [ec0|]; [|done]. apply Properties_sound in Hp0 as [-> _].
  case_bool_decide as Hon; [|done]. cbn in Hr.
  destruct (GetLastRestartTimeFromExtraConfig ec0) as [e|cur]; [done|].
  destruct (match cur with Some t => d <=? t | None => false end); [by simplify_eq|].
  destruct (now <? d); [by simplify_eq|].
  destruct (restart_op b w) as [w1 [e|r1]] eqn:Hop; [done|].
  apply restart_op_on in Hop; [|done].
  destruct (AnyChange r1) eqn:Hr1; [|simplify_eq; congruence].
  unfold setLastRestartTimeInExtraConfigAndWait in Hr.
  destruct (Reconfigure _ _ w1) as [w2 [e|[e|]]] eqn:Hrc; [done|done|]. simplify_eq.
  destruct (reconfigure_stores _ _ _ _ Hrc) as [Hpw Hfv].
  destruct (Properties_sound _ _ _ Hp) as [-> Hec]. rewrite <-(Hec ec eq_refl) in Hfv.
  unfold restart, restart_props. cbn. rewrite Hp. cbn.
  rewrite bool_decide_true by congruence. cbn.
  rewrite GetLastRestartTime_first, Hfv, parse_format_int by done.
  rewrite (proj2 (Z.eqb_neq _ _)) by done. by rewrite (proj2 (Z.leb_le _ _)).
Qed.

(** The restart time and the names of behaviours and states survive being
    written and read back, in any letter case. *)
Theorem power_state_roundtrips (n : Z) (b : PowerOpBehavior) (m : string) :
  in_int64 n →
  ParseInt (FormatInt n) = Some n ∧
  (ParsePowerOpMode m ≠ PowerOpBehaviorUnset →
     ToLower (behavior_String (ParsePowerOpMode m)) = ToLower m) ∧
  (ToLower m = ToLower (behavior_String b) → behavior_String b ≠ "" → ParsePowerOpMode m = b) ∧
  (ParsePowerState m ≠ "" → ToLower (ParsePowerState m) = ToLower m) ∧
  (m ∈ [PoweredOn; PoweredOff; Suspended] → ParsePowerState m = m).
Proof using Type.
  intros Hn. split_and!.
  - by apply parse_format_int.
  - unfold ParsePowerOpMode. by repeat case_bool_decide.
  - intros Hm Hb. unfold ParsePowerOpMode. rewrite Hm. by destruct b.
  - unfold ParsePowerState. by repeat case_bool_decide.
  - rewrite !elem_of_cons, elem_of_nil. intros [->|[->|[->|[]]]]; done.
Qed.
End Properties.

(** ** A simulated VM *)

Record simVM := mkSim { sim_power : PowerState; sim_extra : ExtraConfig }.

#[global] Instance sim_vsphere : VSphere simVM unit := {
  Properties w := inr (sim_power w, Some (sim_extra w));
  hard_op op w :=
    if bool_decide (sim_power w = hard_target op) && negb (match op with Reset => true | _ => false end)
    then (w, inr (Some (mkTaskFault tt None (Some (sim_power w, sim_power w)))))
    else (mkSim (hard_target op) (sim_extra w), inr None);
  soft_op op w :=
    match op with
    | ShutdownGuest => (mkSim PoweredOff (sim_extra w), None)
    | StandbyGuest => (mkSim Suspended (sim_extra w), None)
    | RebootGuest => (w, None)
    end;
  WaitForPowerState s w := if bool_decide (sim_power w = s) then (w, None) else (w, Some (tt, true));
  deadline_exceeded _ := false;
  Reconfigure k v w := (mkSim (sim_power w) (Some (k, ECString v) :: sim_extra w), inr None)
}.

#[global] Instance sim_laws : VSphereLaws simVM unit.
Proof.
  refine {| vm_power := sim_power; vm_extra := sim_extra |}.
  - intros w ps cfg [= <- <-]. split; [done|]. by intros ec [= <-].
  - intros op w w'. simpl. destruct (_ && _); [done|]. by intros [= <-].
  - intros op w w' f s. simpl. destruct (_ && _) eqn:Hb; [|done]. intros [= <- <-] [= <-].
    by bool_to_prop.
  - intros s w w'. simpl. case_bool_decide; [|done]. by intros [= <-].
  - by intros w w' [= <-].
  - intros k v w w' [= <-]. split; [done|]. simpl. by rewrite bool_decide_true.
Defined.


Lemma restart_at_most_once_witness :
  restart (mkMO "" None) true 12 40 PowerOpBehaviorSoft
    (mkSim PoweredOn [Some (ExtraConfigKeyLastRestartTime, ECString "17")]) =
  (mkSim PoweredOn [Some (ExtraConfigKeyLastRestartTime, ECString "17")], inr PowerOpResultNone).
Proof.
  apply (restart_at_most_once (mkMO "" None) (mkMO "" None) 17 12 20 40
    PowerOpBehaviorHard PowerOpBehaviorSoft (mkSim PoweredOn []) _ PowerOpResultChangedHard
    PoweredOn [Some (ExtraConfigKeyLastRestartTime, ECString "17")]);
    [unfold in_int64; lia|lia|lia|vm_compute; reflexivity|done|done].
Defined.

Lemma power_state_roundtrips_witness :
  ParseInt (FormatInt (-42)) = Some (-42) ∧ ParsePowerOpMode "trysoft" = PowerOpBehaviorTrySoft.
Proof.
  destruct (power_state_roundtrips (-42) PowerOpBehaviorTrySoft "trysoft") as (Hn & _ & Hm & _).
  { unfold in_int64. lia. }
  split; [exact Hn|]. by apply Hm.
Defined.
