(* ===== verification/ReplicaSet.v ===== *)
(** * The replica set controller

    controllers/virtualmachinereplicaset (the reconciler and the delete policy)
    and pkg/util/replicaset_label.go: adoption of matching VMs, labelling,
    scaling up and down, and the status.

    The API server and the Kubernetes libraries are the class [Kube]: its state
    is threaded through, and what the theorems rely on is [KubeLaws].  The
    reconciler's own error handling, its early returns and the two nil
    dereferences it can run into are modelled; events and logging are not. *)

From S2P Require Import Prelude Conditions.
Local Open Scope Z_scope.

(** ** Label values: pkg/util/replicaset_label.go *)

(** [hash/fnv]'s 32-bit FNV-1a over the bytes of a string. *)
Fixpoint fnv32a (s : string) (h : Z) : Z :=
  match s with
  | EmptyString => h
  | String.String c s' =>
    fnv32a s' (Z.land (Z.lxor h (Z.of_N (Ascii.N_of_ascii c)) * 16777619) (2 ^ 32 - 1))
  end.

(** The alphabet of [base64.URLEncoding]. *)
Definition base64_char (d : Z) : Ascii.ascii :=
  Ascii.ascii_of_N (Z.to_N (
    if d <? 26 then 65 + d else if d <? 52 then 71 + d else if d <? 62 then d - 4
    else if d =? 62 then 45 else 95)).

(** Four bytes, big endian, without padding: five digits of six bits and one
    of the last two bits. *)
Definition base64_uint32 (h : Z) : string :=
  fold_right (λ sh s, String.String (base64_char (Z.land (Z.shiftr (Z.shiftl h 4) sh) 63)) s)
    EmptyString [30; 24; 18; 12; 6; 0].

Definition FormatValue (IsValidLabelValue : string → bool) (str : string) : string :=
  if IsValidLabelValue str then str
  else ("hash_" +:+ base64_uint32 (fnv32a str 2166136261) +:+ "_z")%string.

(** ** Objects *)

Record OwnerReference := mkOwner {
  or_Kind : string;
  or_Name : string;
  or_UID : string;
  or_Controller : bool
}.

Record VirtualMachineReadinessProbeSpec := mkProbe {
  TCPSocket : bool;
  GuestHeartbeat : bool;
  GuestInfo : list (string * string)
}.

(** The fields of the spec the controller does not look at are one value. *)
Record VirtualMachineSpec := mkVMSpec {
  ReadinessProbe : option VirtualMachineReadinessProbeSpec;
  spec_Other : string
}.

(** [vm_Labels] is a Go map: [None] is nil. *)
Record VM := mkVM {
  vm_Name : string;
  vm_GenerateName : string;
  vm_Namespace : string;
  vm_Labels : option (gmap string string);
  vm_Annotations : gmap string string;
  vm_OwnerReferences : list OwnerReference;
  vm_Deleting : bool;
  vm_Conditions : Conditions;
  vm_Spec : VirtualMachineSpec
}.

Record LabelSelector := mkSelector {
  MatchLabels : option (gmap string string);
  MatchExpressions : list string
}.

Record VirtualMachineReplicaSetStatus := mkStatus {
  Replicas : Z;
  FullyLabeledReplicas : Z;
  ReadyReplicas : Z;
  ObservedGeneration : Z;
  status_Conditions : Conditions
}.

Record VirtualMachineReplicaSet := mkRS {
  rs_Name : string;
  rs_Namespace : string;
  rs_UID : string;
  rs_Generation : Z;
  rs_Deleting : bool;
  rs_Finalizers : list string;
  rs_Labels : option (gmap string string);
  rs_Replicas : option Z;
  rs_Selector : option LabelSelector;
  rs_TemplateLabels : option (gmap string string);
  rs_TemplateAnnotations : gmap string string;
  rs_TemplateSpec : VirtualMachineSpec;
  rs_Status : VirtualMachineReplicaSetStatus
}.

Definition set_rs_Finalizers (l : list string) (rs : VirtualMachineReplicaSet) :=
  mkRS (rs_Name rs) (rs_Namespace rs) (rs_UID rs) (rs_Generation rs) (rs_Deleting rs) l
    (rs_Labels rs) (rs_Replicas rs) (rs_Selector rs) (rs_TemplateLabels rs)
    (rs_TemplateAnnotations rs) (rs_TemplateSpec rs) (rs_Status rs).

Definition set_rs_maps (labels : option (gmap string string)) (sel : option LabelSelector)
    (tl : option (gmap string string)) (rs : VirtualMachineReplicaSet) :=
  mkRS (rs_Name rs) (rs_Namespace rs) (rs_UID rs) (rs_Generation rs) (rs_Deleting rs)
    (rs_Finalizers rs) labels (rs_Replicas rs) sel tl
    (rs_TemplateAnnotations rs) (rs_TemplateSpec rs) (rs_Status rs).

Definition set_rs_Status (st : VirtualMachineReplicaSetStatus) (rs : VirtualMachineReplicaSet) :=
  mkRS (rs_Name rs) (rs_Namespace rs) (rs_UID rs) (rs_Generation rs) (rs_Deleting rs)
    (rs_Finalizers rs) (rs_Labels rs) (rs_Replicas rs) (rs_Selector rs) (rs_TemplateLabels rs)
    (rs_TemplateAnnotations rs) (rs_TemplateSpec rs) st.

Definition rs_Conditions (rs : VirtualMachineReplicaSet) : Conditions :=
  status_Conditions (rs_Status rs).

Definition rs_SetConditions (rs : VirtualMachineReplicaSet) (l : Conditions) :
    VirtualMachineReplicaSet :=
  let st := rs_Status rs in
  set_rs_Status (mkStatus (Replicas st) (FullyLabeledReplicas st) (ReadyReplicas st)
                   (ObservedGeneration st) l) rs.

Definition set_vm_OwnerReferences (l : list OwnerReference) (vm : VM) : VM :=
  mkVM (vm_Name vm) (vm_GenerateName vm) (vm_Namespace vm) (vm_Labels vm) (vm_Annotations vm)
    l (vm_Deleting vm) (vm_Conditions vm) (vm_Spec vm).
Definition set_vm_Labels (l : option (gmap string string)) (vm : VM) : VM :=
  mkVM (vm_Name vm) (vm_GenerateName vm) (vm_Namespace vm) l (vm_Annotations vm)
    (vm_OwnerReferences vm) (vm_Deleting vm) (vm_Conditions vm) (vm_Spec vm).
Definition set_vm_Name (n : string) (vm : VM) : VM :=
  mkVM n (vm_GenerateName vm) (vm_Namespace vm) (vm_Labels vm) (vm_Annotations vm)
    (vm_OwnerReferences vm) (vm_Deleting vm) (vm_Conditions vm) (vm_Spec vm).

Definition finalizerName : string := "virtualmachinereplicaset.vmoperator.vmware.com".
Definition VirtualMachineReplicaSetNameLabel : string := "vmoperator.vmware.com/replicaset-name".
Definition VirtualMachineReplicaSetReplicaFailure : string := "ReplicaFailure".
Definition VirtualMachinesCreatedCondition : string := "VirtualMachinesCreated".
Definition VirtualMachinesReadyCondition : string := "VirtualMachinesReady".
Definition ResizedCondition : string := "Resized".
Definition VirtualMachineCreationFailedReason : string := "VirtualMachineCreationFailed".
Definition VirtualMachineDeletionFailedReason : string := "VirtualMachineDeletionFailed".
Definition VirtualMachinesNotReadyReason : string := "VirtualMachinesNotReady".
Definition ScalingUpReason : string := "ScalingUp".
Definition ScalingDownReason : string := "ScalingDown".

(** ** The delete policy *)

Definition mustDelete : Z := 100.
Definition couldDelete : Z := 50.
Definition mustNotDelete : Z := 0.

Definition randomDeletePolicy (vm : VM) : Z :=
  if vm_Deleting vm then mustDelete else couldDelete.

Definition sortable_Less (priority : VM → Z) (a b : VM) : bool :=
  if priority a =? priority b then string_lt (vm_Name a) (vm_Name b)
  else priority b <? priority a.

(** The machines to delete; the sort is in place, so the second component is
    the caller's slice afterwards. *)
Definition getMachinesToDeletePrioritized (filteredMachines : list VM) (diff : Z)
    (fun_ : VM → Z) : list VM * list VM :=
  if Z.of_nat (length filteredMachines) <=? diff then (filteredMachines, filteredMachines)
  else if diff <=? 0 then ([], filteredMachines)
  else
    let machines := go_sort (sortable_Less fun_) filteredMachines in
    (take (Z.to_nat diff) machines, machines).

Definition getDeletePriorityFunc (rs : VirtualMachineReplicaSet) : VM → Z := randomDeletePolicy.

(** ** The API server and the Kubernetes libraries

    [W] is the state of the API server as seen by the controller and [E] the
    type of its errors. *)
Class Kube (W E : Type) := {
  Now : W → Z;
  ErrorString : E → string;
  NewAggregate : list E → E;
  IsNotFound : E → bool;
  GetRS : string → string → W → E + VirtualMachineReplicaSet;
  NewRSPatchHelper : VirtualMachineReplicaSet → option E;
  PatchRS : VirtualMachineReplicaSet → VirtualMachineReplicaSet → W → W * option E;
  ListVMs : string → gmap string string → W → E + list VM;
  GetVM : string → string → W → E + VM;
  CreateVM : VM → W → W * (E + VM);
  DeleteVM : VM → W → W * option E;
  PatchVM : VM → VM → W → W * (E + VM);
  NewVMPatchHelper : VM → option E;
  HelperPatchVM : VM → VM → W → W * option E;
  PollUntilContextTimeout : (W → E + bool) → W → W * option E;
  ContainsFinalizer : list string → string → bool;
  AddFinalizer : list string → string → list string;
  RemoveFinalizer : list string → string → list string;
  LabelSelectorAsMap : LabelSelector → E + gmap string string;
  SelectorMatches : gmap string string → gmap string string → bool;
  GetControllerOf : list OwnerReference → option OwnerReference;
  NewControllerRef : string → string → OwnerReference;
  IsValidLabelValue : string → bool
}.

Section Controller.
Context {W E : Type} `{Kube W E}.

Inductive syncError :=
  | NilReplicas
  | AggregateError (e : E)
  | WaitError (name : string) (e : E).

Inductive rsError :=
  | ErrSelector (e : E)
  | ErrList (e : E)
  | ErrHelper (e : E)
  | ErrLabel (e : E)
  | ErrSync (e : syncError).

Definition MustFormatValue (s : string) : string := FormatValue IsValidLabelValue s.

Definition MustEqualValue (rsName labelValue : string) : bool :=
  bool_decide (labelValue = MustFormatValue rsName).

(** *** New replicas *)

Definition getLabelsFromVMReplicaSet (rs : VirtualMachineReplicaSet) : gmap string string :=
  <[VirtualMachineReplicaSetNameLabel := MustFormatValue (rs_Name rs)]>
    (default ∅ (rs_TemplateLabels rs)).

Definition getAnnotationsFromReplicaSet (rs : VirtualMachineReplicaSet) : gmap string string :=
  rs_TemplateAnnotations rs.

Definition getNewVirtualMachine (rs : VirtualMachineReplicaSet) : VM :=
  mkVM "" (rs_Name rs +:+ "-")%string (rs_Namespace rs) (Some (getLabelsFromVMReplicaSet rs))
    (getAnnotationsFromReplicaSet rs) [NewControllerRef (rs_Name rs) (rs_UID rs)] false [] (rs_TemplateSpec rs).

(** *** Waiting *)

Definition deletion_confirmed (vm : VM) (w : W) : E + bool :=
  match GetVM (vm_Namespace vm) (vm_Name vm) w with
  | inl err => if IsNotFound err then inr true else inl err
  | inr m => inr (vm_Deleting m)
  end.

Definition creation_confirmed (vm : VM) (w : W) : E + bool :=
  match GetVM (vm_Namespace vm) (vm_Name vm) w with
  | inl err => if IsNotFound err then inr false else inl err
  | inr _ => inr true
  end.

Fixpoint waitForVM (cond : VM → W → E + bool) (vmList : list VM) (w : W) : W * option syncError :=
  match vmList with
  | [] => (w, None)
  | vm :: rest =>
    match PollUntilContextTimeout (cond vm) w with
    | (w, Some e) => (w, Some (WaitError (vm_Name vm) e))
    | (w, None) => waitForVM cond rest w
    end
  end.

Definition waitForVMDeletion := waitForVM deletion_confirmed.
Definition waitForVMCreation := waitForVM creation_confirmed.

(** *** Scaling *)

(** The creation loop: the VMs created and the errors. *)
Fixpoint create_vms (n : nat) (rs : VirtualMachineReplicaSet) (vmList : list VM) (errs : list E)
    (w : W) : W * VirtualMachineReplicaSet * list VM * list E :=
  match n with
  | O => (w, rs, vmList, errs)
  | S n =>
    match CreateVM (getNewVirtualMachine rs) w with
    | (w, inl err) =>
      let rs := rs_SetConditions rs (MarkError (Now w) (rs_Conditions rs)
        VirtualMachinesCreatedCondition VirtualMachineCreationFailedReason (ErrorString err)) in
      create_vms n rs vmList (errs ++ [err]) w
    | (w, inr vm) => create_vms n rs (vmList ++ [vm]) errs w
    end
  end.

Fixpoint delete_vms (vms : list VM) (errs : list E) (w : W) : W * list E :=
  match vms with
  | [] => (w, errs)
  | vm :: rest =>
    if vm_Deleting vm then delete_vms rest errs w
    else match DeleteVM vm w with
         | (w, Some err) => delete_vms rest (errs ++ [err]) w
         | (w, None) => delete_vms rest errs w
         end
  end.

Definition replica_failure (reason : string) (e : E) : Condition :=
  mkCondition VirtualMachineReplicaSetReplicaFailure ConditionTrue 0 0 reason (ErrorString e).

Definition fail_sync (reason : string) (errs : list E) (rs : VirtualMachineReplicaSet) (w : W) :
    VirtualMachineReplicaSet * syncError :=
  let aggErr := NewAggregate errs in
  (rs_SetConditions rs (Set_ (Now w) (rs_Conditions rs) (Some (replica_failure reason aggErr))),
   AggregateError aggErr).

Definition clear_failure (rs : VirtualMachineReplicaSet) : VirtualMachineReplicaSet :=
  rs_SetConditions rs (Delete (rs_Conditions rs) VirtualMachineReplicaSetReplicaFailure).

(** The last component is the caller's slice of VMs. *)
Definition syncReplicas (rs : VirtualMachineReplicaSet) (vms : list VM) (w : W) :
    W * VirtualMachineReplicaSet * option syncError * list VM :=
  match rs_Replicas rs with
  | None => (w, rs, Some NilReplicas, vms)
  | Some replicas =>
    let diff := Z.of_nat (length vms) - replicas in
    if diff <? 0 then
      let '(w, rs, vmList, errs) := create_vms (Z.to_nat (- diff)) rs [] [] w in
      match errs with
      | [] =>
        let rs := clear_failure rs in
        let '(w, err) := waitForVMCreation vmList w in
        (w, rs, err, vms)
      | _ =>
        let '(rs, err) := fail_sync VirtualMachineCreationFailedReason errs rs w in
        (w, rs, Some err, vms)
      end
    else if 0 <? diff then
      let '(vmsToDelete, vms) := getMachinesToDeletePrioritized vms diff (getDeletePriorityFunc rs) in
      let '(w, errs) := delete_vms vmsToDelete [] w in
      match errs with
      | [] =>
        let rs := clear_failure rs in
        let '(w, err) := waitForVMDeletion vmsToDelete w in
        (w, rs, err, vms)
      | _ =>
        let '(rs, err) := fail_sync VirtualMachineDeletionFailedReason errs rs w in
        (w, rs, Some err, vms)
      end
    else (w, rs, None, vms)
  end.

(** *** Status *)

Definition isVMReady (vm : VM) : bool :=
  match Get (vm_Conditions vm) ReadyConditionType with
  | Some c => bool_decide (c_Status c = ConditionTrue)
  | None =>
    match ReadinessProbe (vm_Spec vm) with
    | None => true
    | Some p => negb (TCPSocket p) && negb (GuestHeartbeat p) && bool_decide (GuestInfo p = [])
    end
  end.

Definition count (P : VM → bool) (vms : list VM) : Z := Z.of_nat (length (filter (λ vm, P vm = true) vms)).

Definition show (n : Z) : string :=
  if n <? 0 then ("-" +:+ format_digits 20 (- n) "")%string else format_digits 20 n "".

Definition scaling_message (dir : string) (desired current : Z) : string :=
  ("Scaling " +:+ dir +:+ " VirtualMachineReplicaSet to " +:+ show desired +:+
   " replicas (currentReplicas " +:+ show current +:+ ")")%string.

(** The status counts that are written back. *)
Definition new_status (rs : VirtualMachineReplicaSet) (vms : list VM) : VirtualMachineReplicaSetStatus :=
  let template := default ∅ (rs_TemplateLabels rs) in
  mkStatus (wrap32 (Z.of_nat (length vms)))
    (wrap32 (count (λ vm, SelectorMatches template (default ∅ (vm_Labels vm))) vms))
    (wrap32 (count isVMReady vms)) (ObservedGeneration (rs_Status rs)) (rs_Conditions rs).

Definition write_status (rs : VirtualMachineReplicaSet) (newStatus : VirtualMachineReplicaSetStatus) :
    VirtualMachineReplicaSet :=
  let st := rs_Status rs in
  if negb (Replicas st =? Replicas newStatus) ||
     negb (FullyLabeledReplicas st =? FullyLabeledReplicas newStatus) ||
     negb (ReadyReplicas st =? ReadyReplicas newStatus) ||
     negb (rs_Generation rs =? ObservedGeneration st)
  then set_rs_Status (mkStatus (Replicas newStatus) (FullyLabeledReplicas newStatus)
         (ReadyReplicas newStatus) (rs_Generation rs) (status_Conditions newStatus)) rs
  else rs.

Definition resize_conditions (now desired : Z) (newStatus : VirtualMachineReplicaSetStatus)
    (l : Conditions) : Conditions :=
  let replicas := Replicas newStatus in
  if replicas <? desired then
    MarkFalse now l ResizedCondition ScalingUpReason (scaling_message "up" desired replicas)
  else if desired <? replicas then
    let l := MarkFalse now l ResizedCondition ScalingDownReason (scaling_message "down" desired replicas) in
    MarkTrue now l VirtualMachinesCreatedCondition
  else
    let l := if ReadyReplicas newStatus =? replicas then MarkTrue now l ResizedCondition else l in
    MarkTrue now l VirtualMachinesCreatedCondition.

Definition ready_condition (now desired : Z) (newStatus : VirtualMachineReplicaSetStatus)
    (l : Conditions) : Conditions :=
  if desired <=? ReadyReplicas newStatus then MarkTrue now l VirtualMachinesReadyCondition
  else MarkFalse now l VirtualMachinesReadyCondition VirtualMachinesNotReadyReason
         (show (ReadyReplicas newStatus) +:+ " of " +:+ show desired +:+ " replicas ready")%string.

(** [None] is the dereference of a nil [Spec.Replicas]. *)
Definition updateStatus (rs : VirtualMachineReplicaSet) (filteredVMs : list VM) (w : W) :
    option VirtualMachineReplicaSet :=
  match rs_Replicas rs with
  | None => None
  | Some desiredReplicas =>
    let newStatus := new_status rs filteredVMs in
    let rs := write_status rs newStatus in
    Some (rs_SetConditions rs (ready_condition (Now w) desiredReplicas newStatus
            (resize_conditions (Now w) desiredReplicas newStatus (rs_Conditions rs))))
  end.

(** *** Adoption and labels *)

Definition adoptOrphan (rs : VirtualMachineReplicaSet) (vm : VM) (w : W) : W * (E + VM) :=
  PatchVM vm (set_vm_OwnerReferences (vm_OwnerReferences vm ++ [NewControllerRef (rs_Name rs) (rs_UID rs)]) vm) w.

Definition IsControlledBy (vm : VM) (rs : VirtualMachineReplicaSet) : bool :=
  match GetControllerOf (vm_OwnerReferences vm) with
  | Some ref => bool_decide (or_UID ref = rs_UID rs)
  | None => false
  end.

Fixpoint filter_vms (rs : VirtualMachineReplicaSet) (allVMs filteredVMs : list VM) (w : W) :
    W * list VM :=
  match allVMs with
  | [] => (w, filteredVMs)
  | vm :: rest =>
    match GetControllerOf (vm_OwnerReferences vm) with
    | None =>
      match adoptOrphan rs vm w with
      | (w, inl _) => filter_vms rs rest filteredVMs w
      | (w, inr vm) => filter_vms rs rest (filteredVMs ++ [vm]) w
      end
    | Some _ =>
      if negb (IsControlledBy vm rs) then filter_vms rs rest filteredVMs w
      else filter_vms rs rest (filteredVMs ++ [vm]) w
    end
  end.

Definition has_name_label (rs : VirtualMachineReplicaSet) (vm : VM) : bool :=
  match default ∅ (vm_Labels vm) !! VirtualMachineReplicaSetNameLabel with
  | Some rsName => MustEqualValue (rs_Name rs) rsName
  | None => false
  end.

(** The loop over the filtered VMs, whose labels it updates in place; [Panic]
    is the write to a nil map. *)
Fixpoint label_vms (rs : VirtualMachineReplicaSet) (vms labelled : list VM) (w : W) :
    W * outcome rsError (list VM) :=
  match vms with
  | [] => (w, Ok labelled)
  | vm :: rest =>
    if has_name_label rs vm then label_vms rs rest (labelled ++ [vm]) w
    else
      match NewVMPatchHelper vm with
      | Some e => (w, Err (ErrHelper e))
      | None =>
        match vm_Labels vm with
        | None => (w, Panic)
        | Some labels =>
          let vm' := set_vm_Labels (Some (<[VirtualMachineReplicaSetNameLabel :=
                       MustFormatValue (rs_Name rs)]> labels)) vm in
          match HelperPatchVM vm vm' w with
          | (w, Some e) => (w, Err (ErrLabel e))
          | (w, None) => label_vms rs rest (labelled ++ [vm']) w
          end
        end
      end
  end.

(** *** The reconciler *)

Definition ReconcileDelete (rs : VirtualMachineReplicaSet) : VirtualMachineReplicaSet :=
  if ContainsFinalizer (rs_Finalizers rs) finalizerName
  then set_rs_Finalizers (RemoveFinalizer (rs_Finalizers rs) finalizerName) rs else rs.

(** Nil maps are made; [None] is a nil selector. *)
Definition init_maps (rs : VirtualMachineReplicaSet) : option VirtualMachineReplicaSet :=
  match rs_Selector rs with
  | None => None
  | Some sel =>
    Some (set_rs_maps (Some (default ∅ (rs_Labels rs)))
            (Some (mkSelector (Some (default ∅ (MatchLabels sel))) (MatchExpressions sel)))
            (Some (default ∅ (rs_TemplateLabels rs))) rs)
  end.

(** After the labels: sync, clear a stale failure, update the status. *)
Definition sync_and_status (rs : VirtualMachineReplicaSet) (filteredVMs : list VM) (w : W) :
    W * VirtualMachineReplicaSet * outcome rsError Z :=
  let '(w, rs, syncErr, filteredVMs) := syncReplicas rs filteredVMs w in
  let rs := match syncErr with None => clear_failure rs | Some _ => rs end in
  match updateStatus rs filteredVMs w with
  | None => (w, rs, Panic)
  | Some rs =>
    match syncErr with
    | Some e => (w, rs, Err (ErrSync e))
    | None =>
      let replicas := default 0 (rs_Replicas rs) in
      (w, rs, Ok (if ReadyReplicas (rs_Status rs) =? replicas then 0 else 15))
    end
  end.

(** The result is the number of seconds after which to requeue, zero for not. *)
Definition ReconcileNormal (rs : VirtualMachineReplicaSet) (w : W) :
    W * VirtualMachineReplicaSet * outcome rsError Z :=
  if negb (ContainsFinalizer (rs_Finalizers rs) finalizerName)
  then (w, set_rs_Finalizers (AddFinalizer (rs_Finalizers rs) finalizerName) rs, Ok 0)
  else
    match init_maps rs with
    | None => (w, set_rs_maps (Some (default ∅ (rs_Labels rs))) None (rs_TemplateLabels rs) rs, Panic)
    | Some rs =>
      match LabelSelectorAsMap (default (mkSelector None []) (rs_Selector rs)) with
      | inl e => (w, rs, Err (ErrSelector e))
      | inr selectorMap =>
        match ListVMs (rs_Namespace rs) selectorMap w with
        | inl e => (w, rs, Err (ErrList e))
        | inr allVMs =>
          let '(w, filteredVMs) := filter_vms rs allVMs [] w in
          match label_vms rs filteredVMs [] w with
          | (w, Ok filteredVMs) => sync_and_status rs filteredVMs w
          | (w, Err e) => (w, rs, Err e)
          | (w, Panic) => (w, rs, Panic)
          end
        end
      end
    end.

Inductive reconcileError :=
  | ErrGet (e : E)
  | ErrInitHelper (e : E)
  | ErrNormal (e : rsError)
  | ErrPatchRS (e : E).

(** The deferred patch runs on every return; its error counts only when there
    is no other.  It also runs while a panic unwinds. *)
Definition Reconcile (namespace name : string) (w : W) : W * outcome reconcileError Z :=
  match GetRS namespace name w with
  | inl e => (w, if IsNotFound e then Ok 0 else Err (ErrGet e))
  | inr rs =>
    match NewRSPatchHelper rs with
    | Some e => (w, Err (ErrInitHelper e))
    | None =>
      let '(w, rs', r) :=
        if rs_Deleting rs then (w, ReconcileDelete rs, Ok 0) else ReconcileNormal rs w in
      let '(w, patchErr) := PatchRS rs rs' w in
      (w, match r with
          | Ok s => match patchErr with Some e => Err (ErrPatchRS e) | None => Ok s end
          | Err e => Err (ErrNormal e)
          | Panic => Panic
          end)
    end
  end.
End Controller.

Arguments syncError : clear implicits.
Arguments rsError : clear implicits.
Arguments reconcileError : clear implicits.
