(* ===== verification/ReplicaSetScaling.v ===== *)
(** * Correctness of the replica set controller

    What [ReplicaSet] promises against a server that obeys [KubeLaws]: the
    choice of machines to delete, the exact effect of scaling on the store, that
    VMs of other controllers are never touched, and the reported status. *)

From S2P Require Import Prelude Conditions ReplicaSet.
Local Open Scope Z_scope.

Definition key (vm : VM) : string * string := (vm_Namespace vm, vm_Name vm).

(** ** What the controller relies on

    [store] is what the server holds.  Reads are up to date, a write changes
    one object, nobody else writes during the call, and the ownership functions
    find the controller reference they add. *)
Class KubeLaws (W E : Type) `{Kube W E} := {
  store : W → gmap (string * string) VM;
  create_ok vm w w' vm' : CreateVM vm w = (w', inr vm') →
    store w !! key vm' = None ∧ store w' = <[key vm' := vm']> (store w) ∧
    vm_Namespace vm' = vm_Namespace vm ∧ vm_OwnerReferences vm' = vm_OwnerReferences vm ∧
    vm_Labels vm' = vm_Labels vm ∧ vm_Deleting vm' = vm_Deleting vm;
  create_err vm w w' e : CreateVM vm w = (w', inl e) → store w' = store w;
  delete_ok vm w w' : DeleteVM vm w = (w', None) →
    (∀ k, k ≠ key vm → store w' !! k = store w !! k) ∧
    (∀ m, store w' !! key vm = Some m → vm_Deleting m = true);
  delete_err vm w w' e : DeleteVM vm w = (w', Some e) → store w' = store w;
  patch_frame a b w w' r k : PatchVM a b w = (w', r) → k ≠ key a → store w' !! k = store w !! k;
  patch_ok a b w w' vm : PatchVM a b w = (w', inr vm) →
    key vm = key b ∧ vm_OwnerReferences vm = vm_OwnerReferences b;
  helper_frame a b w w' r k : HelperPatchVM a b w = (w', r) → k ≠ key a →
    store w' !! k = store w !! k;
  poll_quiet c w w' r : PollUntilContextTimeout c w = (w', r) → store w' = store w;
  list_ok ns sel w l : ListVMs ns sel w = inr l →
    NoDup (key <$> l) ∧ ∀ vm, vm ∈ l → store w !! key vm = Some vm;
  controller_none : GetControllerOf [] = None;
  controller_add l name uid : GetControllerOf l = None →
    GetControllerOf (l ++ [NewControllerRef name uid]) = Some (NewControllerRef name uid);
  controller_uid name uid : or_UID (NewControllerRef name uid) = uid
}.

(** ** The choice of machines to delete *)

Lemma sortable_Less_asym p a b : sortable_Less p a b = true → sortable_Less p b a = false.
Proof.
  unfold sortable_Less. rewrite (Z.eqb_sym (p b)). destruct (p a =? p b) eqn:E.
  - apply string_lt_asym.
  - intros ?. bool_to_prop. apply Z.ltb_ge. lia.
Qed.

Lemma sortable_Less_false p a b :
  sortable_Less p a b = false ↔ p a < p b ∨ (p a = p b ∧ String.le (vm_Name b) (vm_Name a)).
Proof.
  unfold sortable_Less. destruct (p a =? p b) eqn:E; bool_to_prop.
  - rewrite string_lt_false. lia || (split; [auto|intros [?|[_ ?]]; [lia|done]]).
  - rewrite Z.ltb_ge. split; [left; lia|intros [?|[? _]]; lia].
Qed.

Lemma sortable_Less_trans_neg p a b c :
  sortable_Less p b a = false → sortable_Less p c b = false → sortable_Less p c a = false.
Proof.
  rewrite !sortable_Less_false. intros [?|[? H1]] [?|[? H2]]; [left; lia..|].
  right. split; [lia|]. by etrans.
Qed.

Lemma sortable_Less_tie p a b :
  sortable_Less p a b = false → sortable_Less p b a = false → vm_Name a = vm_Name b.
Proof.
  rewrite !sortable_Less_false. intros [?|[? H1]] [?|[? H2]]; try lia.
  by apply (anti_symm String.le).
Qed.

#[export] Hint Resolve sortable_Less_asym sortable_Less_trans_neg : go.

Definition chosen (vms : list VM) (d : Z) : list VM :=
  (getMachinesToDeletePrioritized vms d randomDeletePolicy).1.

(** The selection splits the machines, and no machine left is before a chosen
    one. *)
Lemma chosen_split vms d :
  0 < d → ∃ rest, chosen vms d ++ rest ≡ₚ vms ∧
    (rest = [] ∨ Z.of_nat (length (chosen vms d)) = d) ∧
    ∀ a b, a ∈ chosen vms d → b ∈ rest → sortable_Less randomDeletePolicy b a = false.
Proof.
  intros Hd. unfold chosen, getMachinesToDeletePrioritized.
  destruct (_ <=? d) eqn:Hle; bool_to_prop; simpl.
  { exists []. rewrite app_nil_r. split_and!; [done|by left|by intros ? ? _ ?%not_elem_of_nil]. }
  rewrite (proj2 (Z.leb_gt d 0)) by lia. simpl.
  set (l := go_sort (sortable_Less randomDeletePolicy) vms). exists (drop (Z.to_nat d) l).
  rewrite take_drop. unfold l. split_and!.
  - apply go_sort_perm.
  - right. rewrite length_take, length_go_sort. lia.
  - assert (StronglySorted (not_after (sortable_Less randomDeletePolicy)) l) as Hs
      by (apply go_sort_sorted; eauto with go).
    rewrite <-(take_drop (Z.to_nat d) l) in Hs. apply StronglySorted_app in Hs as (Hs & _ & _).
    exact Hs.
Qed.

(** Scaling down by [d] picks [d] machines (all, if there are no more);
    machines that are being deleted are picked first and ties are broken by
    name, so that the choice does not depend on the order of the list. *)
Theorem delete_choice (vms vms' : list VM) (d : Z) :
  0 < d → NoDup (vm_Name <$> vms) → vms' ≡ₚ vms →
  Z.of_nat (length (chosen vms d)) = Z.min d (Z.of_nat (length vms)) ∧
  (∀ a, a ∈ chosen vms d → a ∈ vms) ∧
  (∀ a b, a ∈ chosen vms d → b ∈ vms → b ∉ chosen vms d →
     (vm_Deleting b = true → vm_Deleting a = true) ∧
     (vm_Deleting b = vm_Deleting a → string_lt (vm_Name a) (vm_Name b) = true)) ∧
  chosen vms' d ≡ₚ chosen vms d.
Proof.
  intros Hd Hnd Hp. destruct (chosen_split vms d Hd) as (rest & Hsplit & Hlen & Hord). split_and!.
  - pose proof (Permutation_length Hsplit) as Hl. rewrite length_app in Hl.
    destruct Hlen as [->|Hlen]; simpl in *; [|lia].
    unfold chosen, getMachinesToDeletePrioritized in *.
    destruct (_ <=? d) eqn:Hle; bool_to_prop; simpl in *; [lia|].
    rewrite (proj2 (Z.leb_gt d 0)) in * by lia. simpl in *.
    rewrite length_take, length_go_sort in *. lia.
  - intros a Ha. rewrite <-Hsplit. apply elem_of_app. by left.
  - intros a b Ha Hb Hnb. rewrite <-Hsplit, elem_of_app in Hb. destruct Hb as [|Hb]; [done|].
    pose proof (Hord a b Ha Hb) as Hab. rewrite sortable_Less_false in Hab.
    unfold randomDeletePolicy, mustDelete, couldDelete in Hab.
    assert (vm_Name a ≠ vm_Name b) as Hne.
    { rewrite <-Hsplit, fmap_app in Hnd. apply NoDup_app in Hnd as (_ & Hdis & _). intros Heq.
      apply (Hdis (vm_Name a)); [by apply list_elem_of_fmap_2|]. rewrite Heq. by apply list_elem_of_fmap_2. }
    split.
    + intros Hdb. rewrite Hdb in Hab. destruct (vm_Deleting a); [done|lia].
    + intros Heq. rewrite Heq in Hab. destruct Hab as [?|[_ Hle]]; [lia|].
      by apply string_lt_spec.
  - unfold chosen, getMachinesToDeletePrioritized. rewrite (Permutation_length Hp).
    destruct (_ <=? d); simpl; [by rewrite Hp|]. destruct (d <=? 0); [done|]. simpl.
    rewrite (go_sort_unique (sortable_Less randomDeletePolicy) (sortable_Less_asym _)
      (sortable_Less_trans_neg _) vms' (go_sort (sortable_Less randomDeletePolicy) vms)); [done|..].
    + intros x y Hx Hy H1 H2. rewrite Hp in Hx, Hy. apply (NoDup_fmap_inv_eq vm_Name vms); try done.
      by apply (sortable_Less_tie randomDeletePolicy).
    + by rewrite go_sort_perm.
    + apply go_sort_sorted; eauto with go.
Qed.

(** ** Scaling *)

Section Scaling.
Context {W E : Type} `{KubeLaws W E}.

(** A VM created for the replica set. *)
Definition replica_of (rs : VirtualMachineReplicaSet) (vm : VM) : Prop :=
  vm_Namespace vm = rs_Namespace rs ∧
  (∃ ref, GetControllerOf (vm_OwnerReferences vm) = Some ref ∧ or_UID ref = rs_UID rs) ∧
  vm_Labels vm = Some (getLabelsFromVMReplicaSet rs) ∧ vm_Deleting vm = false.

Definition objects (vms : list VM) : gmap (string * string) VM :=
  list_to_map ((λ vm, (key vm, vm)) <$> vms).

Lemma created_replica rs w w' vm :
  CreateVM (getNewVirtualMachine rs) w = (w', inr vm) →
  store w !! key vm = None ∧ store w' = <[key vm := vm]> (store w) ∧ replica_of rs vm.
Proof.
  intros (? & ? & Hns & Ho & Hl & Hd)%create_ok. split_and!; [done..|]. split_and!; [done| |done..].
  exists (NewControllerRef (rs_Name rs) (rs_UID rs)). rewrite Ho. split; [|apply controller_uid].
  apply (controller_add []), controller_none.
Qed.

Lemma create_vms_ok n rs vmList errs w w' rs' vmList' errs' :
  create_vms n rs vmList errs w = (w', rs', vmList', errs') →
  (∃ l, rs' = rs_SetConditions rs l ∧ (wf (rs_Conditions rs) → wf l)) ∧
  ∃ new es, vmList' = vmList ++ new ∧ errs' = errs ++ es ∧ (length new + length es = n)%nat ∧
    NoDup (key <$> new) ∧ (∀ vm, vm ∈ new → store w !! key vm = None ∧ replica_of rs vm) ∧
    store w' = objects new ∪ store w.
Proof.
  revert rs vmList errs w. induction n as [|n IH]; intros rs vmList errs w; simpl.
  { intros [= <- <- <- <-]. split; [exists (rs_Conditions rs); split; [by destruct rs as [????????????[]]|done]|].
    exists [], []. rewrite !app_nil_r. split_and!; [done..|constructor|by intros ? ?%not_elem_of_nil|].
    unfold objects. simpl. by rewrite (left_id_L ∅ (∪)). }
  destruct (CreateVM _ w) as [w1 [e|vm]] eqn:Hc.
  - set (rs1 := rs_SetConditions rs _). intros Hr.
    destruct (IH rs1 _ _ _ Hr) as ((l & -> & Hwf) & new & es & -> & -> & Hlen & Hnd & Hnew & Hst).
    split.
    + exists l. split; [by destruct rs as [????????????[]]|]. intros Hw. apply Hwf. by apply Set_wf.
    + exists new, (e :: es). rewrite <-(assoc_L (++)), <-(create_err _ _ _ _ Hc).
      split_and!; [done|done|simpl; lia|done|done|done].
  - intros Hr. destruct (created_replica _ _ _ _ Hc) as (Hfr & Hst1 & Hrep).
    destruct (IH _ _ _ _ Hr) as (Hl & new & es & -> & -> & Hlen & Hnd & Hnew & Hst).
    split; [done|]. exists (vm :: new), es. rewrite <-(assoc_L (++)). rewrite Hst1 in *.
    assert (∀ vm', vm' ∈ new → key vm' ≠ key vm ∧ store w !! key vm' = None ∧ replica_of rs vm') as Hnew'.
    { intros vm' Hv. destruct (Hnew vm' Hv) as [Hk ?]. apply lookup_insert_None in Hk. naive_solver. }
    split_and!; [done|done|simpl; lia| | |].
    + rewrite fmap_cons. constructor; [|done]. intros (vm' & Hk & Hv)%list_elem_of_fmap.
      by destruct (Hnew' vm' Hv) as [[] _].
    + intros vm' [->|Hv]%elem_of_cons; [done|]. by apply Hnew'.
    + rewrite Hst. unfold objects. simpl. rewrite <-insert_union_l, insert_union_r; [done|].
      apply not_elem_of_list_to_map. rewrite <-list_fmap_compose. simpl.
      intros (vm' & Hk & Hv)%list_elem_of_fmap. by destruct (Hnew' vm' Hv) as [[] _].
Qed.

Lemma waitForVM_store cond vms w w' r : waitForVM cond vms w = (w', r) → store w' = store w.
Proof.
  revert w. induction vms as [|vm vms IH]; intros w; simpl; [by intros [= <- <-]|].
  destruct (PollUntilContextTimeout _ w) as [w1 [e|]] eqn:Hp.
  - intros [= <- <-]. by eapply poll_quiet.
  - intros ->%IH. by eapply poll_quiet.
Qed.

Lemma delete_vms_ok vms errs w w' errs' :
  delete_vms vms errs w = (w', errs') →
  ∃ es, errs' = errs ++ es ∧
    (∀ k, k ∉ key <$> vms → store w' !! k = store w !! k) ∧
    (es = [] → NoDup (key <$> vms) → ∀ vm m, vm ∈ vms → store w !! key vm = Some vm →
       store w' !! key vm = Some m → vm_Deleting m = true).
Proof.
  revert errs w. induction vms as [|vm vms IH]; intros errs w; simpl.
  { intros [= <- <-]. exists []. rewrite app_nil_r. split_and!; [done..|by intros _ _ ? ? ?%not_elem_of_nil]. }
  destruct (vm_Deleting vm) eqn:Hd; [|destruct (DeleteVM vm w) as [w1 [e|]] eqn:Hdel].
  - intros (es & -> & Hfr & Hdone)%IH. exists es. split_and!; [done| |].
    + intros k Hk. apply Hfr. set_solver.
    + intros He Hnd x m Hx Hst Hst'. apply NoDup_cons in Hnd as [Hni Hnd].
      apply elem_of_cons in Hx as [->|Hx]; [|by eapply Hdone].
      rewrite Hfr, Hst in Hst' by done. by injection Hst' as <-.
  - intros (es & -> & Hfr & _)%IH. exists (e :: es). rewrite <-(assoc_L (++)).
    split_and!; [done| |done]. intros k Hk. rewrite Hfr by set_solver.
    by rewrite (delete_err _ _ _ _ Hdel).
  - intros (es & -> & Hfr & Hdone)%IH. exists es. destruct (delete_ok _ _ _ Hdel) as [Hf1 Hd1].
    split_and!; [done| |].
    + intros k Hk. rewrite Hfr by set_solver. apply Hf1. set_solver.
    + intros He Hnd x m Hx Hst Hst'. apply NoDup_cons in Hnd as [Hni Hnd].
      apply elem_of_cons in Hx as [->|Hx].
      * rewrite Hfr in Hst' by done. by eapply Hd1.
      * eapply Hdone; [done|done|done| |done]. rewrite Hf1; [done|].
        intros Heq. apply Hni. rewrite <-Heq. by apply list_elem_of_fmap_2.
Qed.

Lemma rs_Conditions_set rs l : rs_Conditions (rs_SetConditions rs l) = l.
Proof. done. Qed.

(** Setting and deleting the failure condition. *)
Lemma fail_sync_condition reason errs rs w :
  wf (rs_Conditions rs) →
  IsTrue (rs_Conditions (fail_sync reason errs rs w).1) VirtualMachineReplicaSetReplicaFailure = true ∧
  wf (rs_Conditions (fail_sync reason errs rs w).1).
Proof.
  intros Hwf. unfold fail_sync. simpl. rewrite rs_Conditions_set. split; [|by apply Set_wf].
  set (c := replica_failure reason (NewAggregate errs)). unfold IsTrue.
  destruct (Set_Get_same (Now w) (rs_Conditions rs) c (proj1 Hwf)) as (c' & Hg & Hs).
  change VirtualMachineReplicaSetReplicaFailure with (c_Type c). rewrite Hg.
  apply hasSameState_spec in Hs as (_ & -> & _). by apply bool_decide_eq_true.
Qed.

Lemma clear_failure_condition rs :
  Has (rs_Conditions (clear_failure rs)) VirtualMachineReplicaSetReplicaFailure = false.
Proof.
  unfold clear_failure. rewrite rs_Conditions_set. unfold Has. by rewrite Delete_lookup, decide_True.
Qed.

Lemma clear_failure_wf rs : wf (rs_Conditions rs) → wf (rs_Conditions (clear_failure rs)).
Proof. apply Delete_wf. Qed.

Lemma waitForVM_error cond vms w e : (waitForVM cond vms w).2 ≠ Some (AggregateError e).
Proof.
  revert w. induction vms as [|vm vms IH]; intros w; simpl; [done|].
  by destruct (PollUntilContextTimeout _ w) as [w1 [?|]].
Qed.

(** C11: with fewer VMs than replicas, the sync creates exactly the missing
    ones under fresh names, each controlled by the replica set, with the
    template's labels and the name label, and changes nothing else; it creates
    fewer only when the server refused some, and then it reports the error and
    the failure condition is true, while otherwise that condition is gone. *)
Theorem scale_up_exact (rs rs' : VirtualMachineReplicaSet) (vms vms' : list VM) (w w' : W)
    (err : option (syncError E)) (r : Z) :
  rs_Replicas rs = Some r → Z.of_nat (length vms) < r → wf (rs_Conditions rs) →
  syncReplicas rs vms w = (w', rs', err, vms') →
  ∃ new, NoDup (key <$> new) ∧
    (∀ vm, vm ∈ new → store w !! key vm = None ∧ replica_of rs vm) ∧
    store w' = objects new ∪ store w ∧
    match err with
    | Some (AggregateError _) =>
      Z.of_nat (length vms + length new) < r ∧
      IsTrue (rs_Conditions rs') VirtualMachineReplicaSetReplicaFailure = true
    | _ => Z.of_nat (length vms + length new) = r ∧
      Has (rs_Conditions rs') VirtualMachineReplicaSetReplicaFailure = false
    end.
Proof.
  intros Hr Hlt Hwf. unfold syncReplicas. rewrite Hr. rewrite (proj2 (Z.ltb_lt _ 0)) by lia.
  destruct (create_vms _ rs [] [] w) as [[[w1 rs1] vmList] errs] eqn:Hc.
  destruct (create_vms_ok _ _ _ _ _ _ _ _ _ Hc) as ((l & -> & Hwl) & new & es & -> & -> & Hlen & Hnd & Hnew & Hst).
  simpl. destruct es as [|e es].
  - destruct (waitForVMCreation new w1) as [w2 err2] eqn:Hw. intros [= <- <- <- _].
    exists new. rewrite (waitForVM_store _ _ _ _ _ Hw). split_and!; [done..|].
    pose proof (waitForVM_error creation_confirmed new w1) as Hne.
    unfold waitForVMCreation in Hw. rewrite Hw in Hne. simpl in Hne.
    assert (Z.of_nat (length vms + length new) = r) by (simpl in Hlen; lia).
    destruct err2 as [[]|]; try (split; [done|apply clear_failure_condition]). by destruct (Hne e).
  - intros Hs. injection Hs as <- <- <- _. exists new.
    split_and!; [done..|simpl in Hlen; lia|].
    apply (fail_sync_condition VirtualMachineCreationFailedReason (e :: es) (rs_SetConditions rs l) w1).
    rewrite rs_Conditions_set. auto.
Qed.

(** With more VMs than replicas, the sync deletes only the chosen
    surplus ([delete_choice]); when the server refuses none, every chosen VM is
    gone or being deleted, and the rest is as it was. *)
Theorem scale_down_exact (rs rs' : VirtualMachineReplicaSet) (vms vms' : list VM) (w w' : W)
    (err : option (syncError E)) (r : Z) :
  rs_Replicas rs = Some r → 0 ≤ r < Z.of_nat (length vms) → wf (rs_Conditions rs) →
  NoDup (key <$> vms) → (∀ vm, vm ∈ vms → store w !! key vm = Some vm) →
  syncReplicas rs vms w = (w', rs', err, vms') →
  let surplus := chosen vms (Z.of_nat (length vms) - r) in
  vms' ≡ₚ vms ∧ Z.of_nat (length vms - length surplus) = r ∧
  (∀ k, k ∉ key <$> surplus → store w' !! k = store w !! k) ∧
  match err with
  | Some (AggregateError _) =>
    IsTrue (rs_Conditions rs') VirtualMachineReplicaSetReplicaFailure = true
  | _ => Has (rs_Conditions rs') VirtualMachineReplicaSetReplicaFailure = false ∧
    ∀ vm m, vm ∈ surplus → store w' !! key vm = Some m → vm_Deleting m = true
  end.
Proof.
  intros Hr Hlt Hwf Hnd Hin Hsync surplus. set (d := Z.of_nat (length vms) - r) in *.
  destruct (chosen_split vms d ltac:(lia)) as (rest & Hsplit & Hlen & _). fold surplus in Hsplit, Hlen.
  assert (∀ vm, vm ∈ surplus → vm ∈ vms) as Hsub
    by (intros vm Hv; rewrite <-Hsplit; apply elem_of_app; by left).
  assert (NoDup (key <$> surplus)) as Hnds
    by (rewrite <-Hsplit, fmap_app in Hnd; by apply NoDup_app in Hnd as [? _]).
  unfold syncReplicas in Hsync. rewrite Hr in Hsync. fold d in Hsync.
  rewrite (proj2 (Z.ltb_ge d 0)), (proj2 (Z.ltb_lt 0 d)) in Hsync by lia.
  unfold getDeletePriorityFunc in Hsync.
  destruct (getMachinesToDeletePrioritized vms d randomDeletePolicy) as [sel vms1] eqn:Hg.
  assert (sel = surplus) as -> by (unfold surplus, chosen; by rewrite Hg).
  assert (vms1 ≡ₚ vms ∧ Z.of_nat (length vms - length surplus) = r) as [Hperm Hcount].
  { unfold getMachinesToDeletePrioritized in Hg. unfold d in *.
    destruct (_ <=? _) eqn:Hle; bool_to_prop; [injection Hg as <- <-; split; [done|lia]|].
    rewrite (proj2 (Z.leb_gt _ 0)) in Hg by lia. injection Hg as Hs <-.
    split; [apply go_sort_perm|]. rewrite <-Hs, length_take, length_go_sort. lia. }
  destruct (delete_vms surplus [] w) as [w1 errs] eqn:Hd.
  destruct (delete_vms_ok _ _ _ _ _ Hd) as (es & -> & Hfr & Hdone). simpl in Hsync.
  destruct es as [|e es].
  - destruct (waitForVMDeletion surplus w1) as [w2 err2] eqn:Hw. injection Hsync as <- <- <- <-.
    rewrite (waitForVM_store _ _ _ _ _ Hw). split_and!; [done..|].
    assert (∀ vm m, vm ∈ surplus → store w1 !! key vm = Some m → vm_Deleting m = true) as Hdel
      by (intros vm m Hv; apply (Hdone eq_refl Hnds vm m Hv); auto).
    pose proof (waitForVM_error deletion_confirmed surplus w1) as Hne.
    unfold waitForVMDeletion in Hw. rewrite Hw in Hne. simpl in Hne.
    destruct err2 as [[]|]; try (split; [apply clear_failure_condition|done]). by destruct (Hne e).
  - pose proof (fail_sync_condition VirtualMachineDeletionFailedReason (e :: es) rs w1 Hwf) as [Hc _].
    injection Hsync as <- <- <- <-. split_and!; done.
Qed.

(** ** Ownership *)

(** Adoption patches orphans only and keeps what the replica set may own. *)
Lemma filter_vms_frame rs allVMs acc w w' fl :
  filter_vms rs allVMs acc w = (w', fl) →
  (∀ k, (∀ vm, vm ∈ allVMs → key vm = k → GetControllerOf (vm_OwnerReferences vm) ≠ None) →
     store w' !! k = store w !! k) ∧
  (∀ vm, vm ∈ fl → vm ∈ acc ∨ ∃ vm0, vm0 ∈ allVMs ∧ key vm = key vm0 ∧
     (GetControllerOf (vm_OwnerReferences vm0) = None ∨ IsControlledBy vm0 rs = true)).
Proof.
  revert acc w. induction allVMs as [|vm0 l IH]; intros acc w; simpl.
  { intros [= <- <-]. auto. }
  destruct (GetControllerOf (vm_OwnerReferences vm0)) as [ref|] eqn:Ho;
    [destruct (IsControlledBy vm0 rs) eqn:Hc; simpl|
     unfold adoptOrphan; destruct (PatchVM vm0 _ w) as [w1 [e|vm1]] eqn:Hp];
    intros [Hfr Hfl]%IH; (split; [intros k Hk|intros vm Hv]).
  1, 3: apply Hfr; intros vm Hv; apply Hk; by right.
  3, 5: rewrite Hfr by (intros vm Hv; apply Hk; by right); eapply patch_frame; [done|];
        intros ->; by apply (Hk vm0); [left| |].
  all: destruct (Hfl vm Hv) as [Hin|(v & Hin & ?)]; [|right; exists v; split; [by right|done]].
  - apply elem_of_app in Hin as [|Hin]; [by left|]. apply list_elem_of_singleton in Hin as ->.
    right. exists vm0. split_and!; [by left|done|by right].
  - by left.
  - by left.
  - apply elem_of_app in Hin as [|Hin]; [by left|]. apply list_elem_of_singleton in Hin as ->.
    right. exists vm0. destruct (patch_ok _ _ _ _ _ Hp) as [Hk _].
    split_and!; [by left|done|by left].
Qed.

Lemma label_vms_frame rs vms acc w w' r :
  label_vms rs vms acc w = (w', r) →
  (∀ k, k ∉ key <$> vms → store w' !! k = store w !! k) ∧
  (∀ fl, r = Ok fl → key <$> fl = key <$> acc ++ vms).
Proof.
  revert acc w. induction vms as [|vm vms IH]; intros acc w; simpl.
  { intros [= <- <-]. split; [done|]. intros fl [= <-]. by rewrite app_nil_r. }
  destruct (has_name_label rs vm).
  { intros [Hfr Hk]%IH. split; [intros k Hn; apply Hfr; set_solver|]. intros fl Hfl.
    by rewrite (Hk fl Hfl), <-(assoc_L (++)). }
  destruct (NewVMPatchHelper vm); [by intros [= <- <-]|].
  destruct (vm_Labels vm) as [l|]; [|by intros [= <- <-]].
  destruct (HelperPatchVM vm _ w) as [w1 [e|]] eqn:Hp.
  - intros [= <- <-]. split; [|done]. intros k Hn. eapply helper_frame; [done|]. set_solver.
  - intros [Hfr Hk]%IH. split.
    + intros k Hn. rewrite Hfr by set_solver. eapply helper_frame; [done|]. set_solver.
    + intros fl Hfl. rewrite (Hk fl Hfl), !fmap_app. by rewrite <-(assoc_L (++)).
Qed.

Lemma syncReplicas_frame rs vms w w' rs' err vms' k vm :
  syncReplicas rs vms w = (w', rs', err, vms') → k ∉ key <$> vms →
  store w !! k = Some vm → store w' !! k = Some vm.
Proof.
  intros Hs Hk Hvm. unfold syncReplicas in Hs. destruct (rs_Replicas rs) as [r|]; [|by injection Hs as <- _].
  destruct (_ <? 0).
  - destruct (create_vms _ rs [] [] w) as [[[w1 rs1] vmList] errs] eqn:Hc.
    destruct (create_vms_ok _ _ _ _ _ _ _ _ _ Hc) as (_ & new & es & _ & _ & _ & _ & Hnew & Hst).
    assert (store w1 !! k = Some vm) as Hw1.
    { rewrite Hst, lookup_union_r; [done|]. apply not_elem_of_list_to_map. rewrite <-list_fmap_compose.
      intros (v & -> & Hv)%list_elem_of_fmap. destruct (Hnew v Hv). simpl in *. congruence. }
    destruct errs; [|by injection Hs as <- _].
    destruct (waitForVMCreation vmList w1) as [w2 e2] eqn:Hw. injection Hs as <- _.
    by rewrite (waitForVM_store _ _ _ _ _ Hw).
  - destruct (0 <? _) eqn:Hpos; [|by injection Hs as <- _]. bool_to_prop.
    set (d := Z.of_nat (length vms) - r) in *. unfold getDeletePriorityFunc in Hs.
    destruct (chosen_split vms d Hpos) as (rest & Hsplit & _). unfold chosen in Hsplit.
    destruct (getMachinesToDeletePrioritized vms d randomDeletePolicy) as [sel vms1]. simpl in Hsplit.
    destruct (delete_vms sel [] w) as [w1 errs] eqn:Hd.
    destruct (delete_vms_ok _ _ _ _ _ Hd) as (es & _ & Hfr & _).
    assert (store w1 !! k = Some vm) as Hw1.
    { rewrite Hfr; [done|]. intros Hin. apply Hk. rewrite <-Hsplit, fmap_app. apply elem_of_app. by left. }
    destruct errs; [|by injection Hs as <- _].
    destruct (waitForVMDeletion sel w1) as [w2 e2] eqn:Hw. injection Hs as <- _.
    by rewrite (waitForVM_store _ _ _ _ _ Hw).
Qed.

(** A VM controlled by another owner is left exactly as it is by a
    reconciliation, whatever its outcome. *)
Theorem reconcile_leaves_foreign_vms (rs rs' : VirtualMachineReplicaSet) (w w' : W)
    (r : outcome (rsError E) Z) (k : string * string) (vm : VM) (ref : OwnerReference) :
  ReconcileNormal rs w = (w', rs', r) →
  store w !! k = Some vm → GetControllerOf (vm_OwnerReferences vm) = Some ref →
  or_UID ref ≠ rs_UID rs → store w' !! k = Some vm.
Proof.
  intros Hrec Hvm Href Huid. unfold ReconcileNormal in Hrec.
  destruct (negb _); [by injection Hrec as <- _|].
  unfold init_maps in Hrec. destruct (rs_Selector rs) as [sel|]; [|by injection Hrec as <- _].
  set (rs1 := set_rs_maps _ _ _ rs) in Hrec.
  destruct (LabelSelectorAsMap _) as [e|m]; [by injection Hrec as <- _|].
  destruct (ListVMs _ m w) as [e|allVMs] eqn:Hl; [by injection Hrec as <- _|].
  destruct (list_ok _ _ _ _ Hl) as [_ Hall].
  assert (∀ v, v ∈ allVMs → key v = k → v = vm) as Hk
    by (intros v Hv <-; specialize (Hall v Hv); congruence).
  destruct (filter_vms rs1 allVMs [] w) as [w1 fl] eqn:Hf.
  destruct (filter_vms_frame _ _ _ _ _ _ Hf) as [Hfr Hown].
  assert (store w1 !! k = Some vm) as Hw1.
  { rewrite Hfr; [done|]. intros v Hv Hkv. rewrite (Hk v Hv Hkv). congruence. }
  assert (k ∉ key <$> fl) as Hn.
  { intros (v & -> & Hv)%list_elem_of_fmap. destruct (Hown v Hv) as [?%not_elem_of_nil|(v0 & Hv0 & Hkey & Hc)]; [done|].
    rewrite (Hk v0 Hv0 (eq_sym Hkey)) in Hc. unfold IsControlledBy in Hc. rewrite Href in Hc.
    destruct Hc as [|Hc]; [done|]. by apply bool_decide_eq_true in Hc. }
  destruct (label_vms rs1 fl [] w1) as [w2 r2] eqn:Hlab.
  destruct (label_vms_frame _ _ _ _ _ _ Hlab) as [Hfr2 Hkeys].
  assert (store w2 !! k = Some vm) as Hw2 by (by rewrite Hfr2).
  destruct r2 as [fl'|e|]; [|by injection Hrec as <- _..].
  unfold sync_and_status in Hrec.
  destruct (syncReplicas rs1 fl' w2) as [[[w3 rs3] err] vms'] eqn:Hs.
  assert (store w3 !! k = Some vm) as Hw3.
  { eapply syncReplicas_frame; [done| |done]. by rewrite (Hkeys fl' eq_refl). }
  destruct (updateStatus _ vms' w3), err; by injection Hrec as <- _.
Qed.

(** ** Status *)

(** A condition in the state the code asked for. *)
Definition in_state (l : Conditions) (c : Condition) : Prop :=
  ∃ c', Get l (c_Type c) = Some c' ∧ hasSameState c' c = true.

Lemma in_state_set now l c : wf l → in_state (Set_ now l (Some c)) c.
Proof. intros [Hnd _]. by apply Set_Get_same. Qed.

Lemma in_state_other now l c c' :
  wf l → c_Type c ≠ c_Type c' → in_state l c → in_state (Set_ now l (Some c')) c.
Proof. intros [Hnd _] Hne (x & Hx & ?). exists x. by rewrite Set_Get_other. Qed.

Lemma write_status_conditions rs vms :
  rs_Conditions (write_status rs (new_status rs vms)) = rs_Conditions rs.
Proof. unfold write_status. by destruct (_ || _). Qed.

Lemma write_status_counts rs vms :
  let st := rs_Status (write_status rs (new_status rs vms)) in
  let new := new_status rs vms in
  Replicas st = Replicas new ∧ FullyLabeledReplicas st = FullyLabeledReplicas new ∧
  ReadyReplicas st = ReadyReplicas new ∧ ObservedGeneration st = rs_Generation rs.
Proof.
  unfold write_status. destruct (_ || _) eqn:Hd; simpl; [done|]. bool_to_prop. done.
Qed.

Lemma count_le P vms : 0 ≤ count P vms ≤ Z.of_nat (length vms).
Proof. unfold count. pose proof (length_filter (λ vm, P vm = true) vms). lia. Qed.

Lemma resize_conditions_spec now r st l :
  wf l →
  let n := Replicas st in
  let l' := resize_conditions now r st l in
  wf l' ∧
  (n < r → in_state l' (FalseCondition ResizedCondition ScalingUpReason (scaling_message "up" r n))) ∧
  (r < n → in_state l' (FalseCondition ResizedCondition ScalingDownReason (scaling_message "down" r n))) ∧
  (n = r → ReadyReplicas st = n → in_state l' (TrueCondition ResizedCondition)) ∧
  (r ≤ n → in_state l' (TrueCondition VirtualMachinesCreatedCondition)).
Proof.
  intros Hwf n l'. unfold l', resize_conditions. fold n. split_and!.
  - repeat case_match; eauto with go.
  - intros Hlt. rewrite (proj2 (Z.ltb_lt _ _)) by done. by apply in_state_set.
  - intros Hlt. rewrite (proj2 (Z.ltb_ge _ _)), (proj2 (Z.ltb_lt _ _)) by lia.
    apply in_state_other; [by apply Set_wf|done|by apply in_state_set].
  - intros Heq Hrn. rewrite !(proj2 (Z.ltb_ge _ _)) by lia. rewrite (proj2 (Z.eqb_eq _ _)) by done.
    apply in_state_other; [by apply Set_wf|done|by apply in_state_set].
  - intros Hge. rewrite (proj2 (Z.ltb_ge _ _)) by lia.
    repeat case_match; apply in_state_set; try done; by apply Set_wf.
Qed.

Lemma in_state_IsTrue l c :
  in_state l c → IsTrue l (c_Type c) = bool_decide (c_Status c = ConditionTrue).
Proof.
  intros (c' & Hg & Hs). unfold IsTrue. rewrite Hg. by apply hasSameState_spec in Hs as (_ & -> & _).
Qed.

Lemma ready_condition_spec now r st l :
  wf l →
  let l' := ready_condition now r st l in
  wf l' ∧ (IsTrue l' VirtualMachinesReadyCondition = true ↔ r ≤ ReadyReplicas st) ∧
  (∀ c, c_Type c ≠ VirtualMachinesReadyCondition → in_state l c → in_state l' c).
Proof.
  intros Hwf l'. unfold l', ready_condition. destruct (_ <=? _) eqn:Hc; bool_to_prop; split_and!.
  - by apply Set_wf.
  - pose proof (in_state_IsTrue _ _ (in_state_set now l (TrueCondition VirtualMachinesReadyCondition) Hwf)).
    done.
  - intros c Hne Hs. by apply in_state_other.
  - by apply Set_wf.
  - pose proof (in_state_IsTrue _ _ (in_state_set now l (FalseCondition VirtualMachinesReadyCondition
      VirtualMachinesNotReadyReason (show (ReadyReplicas st) +:+ " of " +:+ show r +:+ " replicas ready")%string) Hwf)) as Hi.
    simpl in Hi. unfold MarkFalse. rewrite Hi. split; [done|lia].
  - intros c Hne Hs. by apply in_state_other.
Qed.

(** The status update records the number of VMs and of ready VMs and the
    generation it acted on; the Resized condition is false with the direction
    of scaling while the numbers differ and true once all replicas are ready,
    VirtualMachinesCreated is true from enough VMs on, and VirtualMachinesReady
    tells whether enough are ready. *)
Theorem status_reflects_replicas (rs rs' : VirtualMachineReplicaSet) (vms : list VM) (w : W) (r : Z) :
  rs_Replicas rs = Some r → wf (rs_Conditions rs) → Z.of_nat (length vms) < 2 ^ 31 →
  updateStatus rs vms w = Some rs' →
  let n := Z.of_nat (length vms) in
  let ready := count isVMReady vms in
  let l := rs_Conditions rs' in
  Replicas (rs_Status rs') = n ∧ ReadyReplicas (rs_Status rs') = ready ∧
  ObservedGeneration (rs_Status rs') = rs_Generation rs ∧ wf l ∧
  (n < r → in_state l (FalseCondition ResizedCondition ScalingUpReason (scaling_message "up" r n))) ∧
  (r < n → in_state l (FalseCondition ResizedCondition ScalingDownReason (scaling_message "down" r n))) ∧
  (n = r → ready = n → in_state l (TrueCondition ResizedCondition)) ∧
  (r ≤ n → in_state l (TrueCondition VirtualMachinesCreatedCondition)) ∧
  (IsTrue l VirtualMachinesReadyCondition = true ↔ r ≤ ready).
Proof.
  intros Hr Hwf Hn Hup n ready l. unfold updateStatus in Hup. rewrite Hr in Hup. injection Hup as <-.
  destruct (write_status_counts rs vms) as (H1 & _ & H2 & H3).
  pose proof (count_le isVMReady vms) as Hle.
  assert (Replicas (new_status rs vms) = n) as En by (apply wrap32_id; unfold in_int32; lia).
  assert (ReadyReplicas (new_status rs vms) = ready) as Er by (apply wrap32_id; unfold in_int32; lia).
  rewrite En in H1. rewrite Er in H2. unfold l. rewrite rs_Conditions_set, write_status_conditions.
  destruct (resize_conditions_spec (Now w) r (new_status rs vms) _ Hwf) as (Hwf1 & Hup & Hdown & Hdone & Hcr).
  destruct (ready_condition_spec (Now w) r (new_status rs vms) _ Hwf1) as (Hwf2 & Hrd & Hkeep).
  rewrite En, Er in *. split_and!; try done; intros; (apply Hkeep; [done|auto]).
Qed.

(** Without a replica count the sync is refused with an error, but the
    status update dereferences the count: the reconciliation panics. *)
Theorem nil_replicas_panics (rs : VirtualMachineReplicaSet) (sel : LabelSelector)
    (m : gmap string string) (w : W) :
  ContainsFinalizer (rs_Finalizers rs) finalizerName = true → rs_Replicas rs = None →
  rs_Selector rs = Some sel →
  LabelSelectorAsMap (mkSelector (Some (default ∅ (MatchLabels sel))) (MatchExpressions sel)) = inr m →
  ListVMs (rs_Namespace rs) m w = inr [] →
  syncReplicas rs [] w = (w, rs, Some NilReplicas, []) ∧ (ReconcileNormal rs w).2 = Panic.
Proof.
  intros Hf Hr Hs Hm Hl. split; [unfold syncReplicas; by rewrite Hr|].
  unfold ReconcileNormal, init_maps. rewrite Hf, Hs. cbn [negb rs_Selector set_rs_maps default from_option id].
  rewrite Hm. cbn [rs_Namespace set_rs_maps]. rewrite Hl. simpl.
  unfold sync_and_status, syncReplicas, updateStatus. simpl. by rewrite Hr; simpl; rewrite Hr.
Qed.
End Scaling.

(** ** A server that obeys the laws

    Objects in a map, fresh names, deletion by
    marking; polling looks once. *)

Abbreviation Sim := (gmap (string * string) VM).

Definition sim_name (w : Sim) : string := fresh (set_map snd (dom w) : gset string).

Lemma sim_name_fresh w : sim_name w ∉ (set_map snd (dom w) : gset string).
Proof. unfold sim_name. apply is_fresh. Qed.
#[local] Opaque sim_name.

Definition mark_deleting (vm : VM) : VM :=
  mkVM (vm_Name vm) (vm_GenerateName vm) (vm_Namespace vm) (vm_Labels vm) (vm_Annotations vm)
    (vm_OwnerReferences vm) true (vm_Conditions vm) (vm_Spec vm).

Definition sim_controller (l : list OwnerReference) : option OwnerReference :=
  head (filter (λ r, or_Controller r = true) l).

#[export] Instance SimKube : Kube Sim string := {
  Now _ := 10 ^ 9;
  ErrorString e := e;
  NewAggregate es := default "" (head es);
  IsNotFound e := bool_decide (e = "not found");
  GetRS _ _ _ := inl "not found";
  NewRSPatchHelper _ := None;
  PatchRS _ _ w := (w, None);
  ListVMs ns sel w := inr (filter (λ vm, vm_Namespace vm = ns ∧ sel ⊆ default ∅ (vm_Labels vm))
                             (snd <$> filter (λ p, key p.2 = p.1) (map_to_list w)));
  GetVM ns n w := match w !! (ns, n) with Some vm => inr vm | None => inl "not found" end;
  CreateVM vm w := let vm' := set_vm_Name (sim_name w) vm in
                   (<[key vm' := vm']> w, inr vm');
  DeleteVM vm w := (alter mark_deleting (key vm) w, None);
  PatchVM a b w := (<[key a := b]> w, inr b);
  NewVMPatchHelper _ := None;
  HelperPatchVM a b w := (<[key a := b]> w, None);
  PollUntilContextTimeout c w :=
    (w, match c w with inr true => None | inr false => Some "timeout" | inl e => Some e end);
  ContainsFinalizer l f := bool_decide (f ∈ l);
  AddFinalizer l f := l ++ [f];
  RemoveFinalizer l f := filter (λ x, x ≠ f) l;
  LabelSelectorAsMap s := match MatchExpressions s with
                          | [] => inr (default ∅ (MatchLabels s))
                          | _ => inl "expressions"
                          end;
  SelectorMatches a b := bool_decide (a ⊆ b);
  GetControllerOf := sim_controller;
  NewControllerRef name uid := mkOwner "VirtualMachineReplicaSet" name uid true;
  IsValidLabelValue s := (String.length s <=? 63)%nat
}.

#[export, refine] Instance SimLaws : KubeLaws Sim string := { store w := w }.
Proof.
  - intros vm w w' vm' [= <- <-]. split_and!; try done. apply not_elem_of_dom. intros Hin.
    apply (sim_name_fresh w).
    apply elem_of_map. eexists. split; [|exact Hin]. reflexivity.
  - done.
  - intros vm w w' [= <-]. split.
    + intros k Hk. by apply lookup_alter_ne.
    + intros m. rewrite (lookup_alter_eq (M := gmap _)). destruct (w !! key vm); [|done]. by intros [= <-].
  - done.
  - intros a b w w' r k [= <- <-] Hk. by apply lookup_insert_ne.
  - by intros a b w w' vm [= <- <-].
  - intros a b w w' r k [= <- <-] Hk. by apply lookup_insert_ne.
  - by intros c w w' r [= <- <-].
  - intros ns sel w l [= <-].
    assert (∀ x : list (string * string * VM), Forall (λ p, key p.2 = p.1) x → key <$> (snd <$> x) = x.*1) as Hkeys.
    { induction 1; simpl; [done|]. by f_equal. }
    split.
    + eapply sublist_NoDup; [|apply fmap_sublist, sublist_filter].
      rewrite Hkeys by (apply Forall_forall; by intros p [? _]%list_elem_of_filter).
      eapply sublist_NoDup; [|apply fmap_sublist, sublist_filter]. apply NoDup_fst_map_to_list.
    + intros vm [_ ([k v] & -> & [Hk Hv]%list_elem_of_filter)%list_elem_of_fmap]%list_elem_of_filter.
      simpl in *. rewrite Hk. by apply elem_of_map_to_list.
  - done.
  - intros l name uid Hl. unfold GetControllerOf, SimKube, sim_controller in *.
    rewrite filter_app. destruct (filter _ l); [done|]. by simpl in Hl.
  - done.
Defined.

(** ** Label values *)

(** What Kubernetes documents a label value to be: at most 63 letters, digits,
    dashes, underscores and dots, beginning and ending with a letter or digit. *)
Definition in_range_ascii (lo hi : N) (c : Ascii.ascii) : bool :=
  (lo <=? Ascii.N_of_ascii c)%N && (Ascii.N_of_ascii c <=? hi)%N.
Definition alphanumeric (c : Ascii.ascii) : bool :=
  in_range_ascii 48 57 c || in_range_ascii 65 90 c || in_range_ascii 97 122 c.
Definition label_char (c : Ascii.ascii) : bool :=
  alphanumeric c || existsb (Ascii.eqb c) (String.list_ascii_of_string "-_.").

Definition label_value (s : string) : bool :=
  let l := String.list_ascii_of_string s in
  (length l <=? 63)%nat && forallb label_char l &&
  match head l, last l with Some a, Some b => alphanumeric a && alphanumeric b | _, _ => true end.

Lemma base64_label_char d : 0 ≤ d < 64 → label_char (base64_char d) = true.
Proof.
  intros Hd.
  assert (forallb (λ d, label_char (base64_char d)) (seqZ 0 64) = true) as Hall by (vm_compute; reflexivity).
  rewrite forallb_forall in Hall. apply Hall, list_elem_of_In, elem_of_seqZ. lia.
Qed.

Lemma hash_label_value h :
  label_value ("hash_" +:+ base64_uint32 h +:+ "_z")%string = true.
Proof.
  assert (∀ x, label_char (base64_char (Z.land x 63)) = true) as Hc.
  { intros x. apply base64_label_char. change 63 with (Z.ones 6). rewrite Z.land_ones by lia.
    apply Z.mod_pos_bound. lia. }
  set (f sh := base64_char (Z.land (Z.shiftr (Z.shiftl h 4) sh) 63)).
  assert (String.list_ascii_of_string ("hash_" +:+ base64_uint32 h +:+ "_z")%string =
    String.list_ascii_of_string "hash_" ++ (f <$> [30; 24; 18; 12; 6; 0]) ++
    String.list_ascii_of_string "_z") as E by reflexivity.
  unfold label_value. rewrite E, !forallb_app.
  assert (forallb label_char (f <$> [30; 24; 18; 12; 6; 0]) = true) as ->.
  { apply forallb_forall. intros c (sh & -> & _)%list_elem_of_In%list_elem_of_fmap. apply Hc. }
  reflexivity.
Qed.

(** Whatever the name of the replica set, the value of the label its VMs
    get is a valid label value; a valid name is used as it is. *)
Theorem replica_label_valid (IsValidLabelValue : string → bool) (s : string) :
  (∀ v, label_value v = true → IsValidLabelValue v = true) →
  IsValidLabelValue (FormatValue IsValidLabelValue s) = true ∧
  (IsValidLabelValue s = true → FormatValue IsValidLabelValue s = s) ∧
  FormatValue IsValidLabelValue (FormatValue IsValidLabelValue s) = FormatValue IsValidLabelValue s.
Proof.
  intros Hv. unfold FormatValue. destruct (IsValidLabelValue s) eqn:Hs.
  - by rewrite Hs.
  - rewrite (Hv _ (hash_label_value _)). done.
Qed.

Lemma replica_label_valid_witness :
  label_value (FormatValue label_value "a name with spaces") = true ∧
  FormatValue label_value "web" = "web".
Proof.
  split.
  - apply (replica_label_valid label_value "a name with spaces" (λ v Hv, Hv)).
  - exact (proj1 (proj2 (replica_label_valid label_value "web" (λ v Hv, Hv))) eq_refl).
Defined.

(** ** Examples *)

Definition ex_spec : VirtualMachineSpec := mkVMSpec None "best-effort-small".
Definition ex_rs (n : option Z) : VirtualMachineReplicaSet :=
  mkRS "web" "ns" "uid-1" 1 false [finalizerName] None n
    (Some (mkSelector (Some {[ "app" := "web" ]}) [])) (Some {[ "app" := "web" ]}) ∅ ex_spec
    (mkStatus 0 0 0 0 []).
Definition ex_owned (name uid : string) (deleting : bool) : VM :=
  mkVM name "" "ns" (Some {[ "app" := "web"; VirtualMachineReplicaSetNameLabel := "web" ]}) ∅
    [mkOwner "VirtualMachineReplicaSet" "web" uid true] deleting [] ex_spec.
Definition ex_world : Sim :=
  objects [ex_owned "a" "uid-1" false; ex_owned "b" "uid-1" true; ex_owned "x" "uid-2" false].

Definition ex_machines : list VM :=
  [ex_owned "a" "uid-1" false; ex_owned "b" "uid-1" true; ex_owned "c" "uid-1" false].

Example ex_chosen : vm_Name <$> chosen ex_machines 2 = ["b"; "a"].
Proof. vm_compute. reflexivity. Qed.

Lemma delete_choice_witness :
  chosen (reverse ex_machines) 2 ≡ₚ chosen ex_machines 2.
Proof.
  apply (delete_choice ex_machines (reverse ex_machines) 2).
  - lia.
  - apply (bool_decide_unpack _). vm_compute. exact I.
  - apply reverse_Permutation.
Defined.

Lemma scale_up_exact_witness :
  let '(w', rs', err, _) := syncReplicas (ex_rs (Some 4)) [ex_owned "a" "uid-1" false] ex_world in
  ∃ new, store w' = objects new ∪ store ex_world.
Proof.
  destruct (syncReplicas _ _ _) as [[[w' rs'] err] vms'] eqn:E.
  destruct (scale_up_exact (ex_rs (Some 4)) rs' [ex_owned "a" "uid-1" false] vms' ex_world w' err 4)
    as (new & _ & _ & Hst & _); [reflexivity|simpl; lia|apply wf_nil|exact E|by exists new].
Defined.

Lemma scale_down_exact_witness :
  let '(w', _, _, _) := syncReplicas (ex_rs (Some 1))
    [ex_owned "a" "uid-1" false; ex_owned "b" "uid-1" true] ex_world in
  store w' !! ("ns", "a") = store ex_world !! ("ns", "a").
Proof.
  destruct (syncReplicas _ _ _) as [[[w' rs'] err] vms'] eqn:E.
  destruct (scale_down_exact (ex_rs (Some 1)) rs'
    [ex_owned "a" "uid-1" false; ex_owned "b" "uid-1" true] vms' ex_world w' err 1)
    as (_ & _ & Hfr & _); [reflexivity|simpl; lia|apply wf_nil| | |exact E|].
  - apply (bool_decide_unpack _). vm_compute. exact I.
  - intros vm Hvm. rewrite !elem_of_cons in Hvm. destruct Hvm as [->|[->|Hvm]]; [reflexivity..|].
    by apply not_elem_of_nil in Hvm.
  - apply Hfr. apply (bool_decide_unpack _). vm_compute. exact I.
Defined.

Lemma reconcile_leaves_foreign_vms_witness :
  store (ReconcileNormal (ex_rs (Some 0)) ex_world).1.1 !! ("ns", "x") = Some (ex_owned "x" "uid-2" false).
Proof.
  destruct (ReconcileNormal (ex_rs (Some 0)) ex_world) as [[w' rs'] r] eqn:E.
  apply (reconcile_leaves_foreign_vms (ex_rs (Some 0)) rs' ex_world w' r ("ns", "x")
    (ex_owned "x" "uid-2" false) (mkOwner "VirtualMachineReplicaSet" "web" "uid-2" true) E);
    [reflexivity|reflexivity|discriminate].
Defined.

Lemma status_reflects_replicas_witness :
  match updateStatus (ex_rs (Some 1)) [ex_owned "a" "uid-1" false] (ex_world : Sim) with
  | Some rs' => Replicas (rs_Status rs') = 1 ∧ in_state (rs_Conditions rs') (TrueCondition ResizedCondition)
  | None => False
  end.
Proof.
  destruct (updateStatus _ _ _) as [rs'|] eqn:E; [|discriminate].
  destruct (status_reflects_replicas (ex_rs (Some 1)) rs' [ex_owned "a" "uid-1" false] ex_world 1)
    as (H1 & _ & _ & _ & _ & _ & H2 & _); [reflexivity|apply wf_nil|simpl; lia|exact E|].
  split; [exact H1|]. apply H2; reflexivity.
Defined.

Lemma nil_replicas_panics_witness :
  (ReconcileNormal (ex_rs None) (∅ : Sim)).2 = Panic.
Proof.
  apply (nil_replicas_panics (ex_rs None) (mkSelector (Some {[ "app" := "web" ]}) [])
    {[ "app" := "web" ]} (∅ : Sim)); reflexivity.
Defined.
