(* ===== verification/PolicyEvaluation.v ===== *)
(** * Policy evaluation

    controllers/vspherepolicy/policyevaluation: which policies apply to a
    workload.  Match specifications are trees of string, label and boolean
    matchers; mandatory policies of every enabled kind apply when they match,
    explicitly referenced ones have to match, and what applies is recorded once
    per kind and name with the tags of its tag policies.

    The API server, apimachinery's label selectors and [regexp] are the class
    [PolicyAPI]; [PolicyAPILaws] is what the theorems rely on.  The sources are
    the controller and the types under external/vsphere-policy. *)

From S2P Require Import Prelude Conditions.
#[local] Set Warnings "-register-all".
Local Open Scope Z_scope.

(** ** The types of external/vsphere-policy *)

Record LabelSelectorRequirement := mkRequirement {
  lsr_Key : string;
  lsr_Operator : string;
  lsr_Values : list string
}.

Record StringMatcherSpec := mkStringMatcher {
  sm_Op : string;
  sm_Value : string
}.

Record GuestFamilyMatcherSpec := mkFamilyMatcher {
  gf_Op : string;
  gf_Value : string
}.

Record MatchGuestSpec := mkMatchGuest {
  mg_GuestID : option StringMatcherSpec;
  mg_GuestFamily : option GuestFamilyMatcherSpec
}.

Record MatchWorkloadSpec := mkMatchWorkload {
  mw_Guest : option MatchGuestSpec;
  mw_Labels : list LabelSelectorRequirement;
  mw_Kind : string
}.

Record MatchImageSpec := mkMatchImage {
  mi_Name : option StringMatcherSpec;
  mi_Labels : list LabelSelectorRequirement
}.

Inductive MatchSpec := mkMatchSpec {
  ms_Op : string;
  ms_Match : list MatchSpec;
  ms_Image : option MatchImageSpec;
  ms_Workload : option MatchWorkloadSpec
}.

(** The fields of the four policy kinds' objects that are read. *)
Record ComputePolicy := mkComputePolicy {
  cp_Name : string; cp_Generation : Z; cp_EnforcementMode : string;
  cp_Match : option MatchSpec; cp_Tags : list string
}.

Record AutomaticVMEvictionPolicy := mkAutomaticVMEvictionPolicy {
  ep_Name : string; ep_Generation : Z; ep_EnforcementMode : string;
  ep_Match : option MatchSpec; ep_Tags : list string
}.

Record BestEffortRestartPolicy := mkBestEffortRestartPolicy {
  bp_Name : string; bp_Generation : Z; bp_EnforcementMode : string;
  bp_Match : option MatchSpec; bp_Tags : list string
}.

Record ControlledRebalancingPolicy := mkControlledRebalancingPolicy {
  rp_Name : string; rp_Generation : Z; rp_EnforcementMode : string;
  rp_Match : option MatchSpec; rp_Tags : list string
}.

Record TagPolicy := mkTagPolicy {
  tp_Name : string;
  tp_Tags : list string
}.

Record LocalObjectRef := mkRef {
  ref_APIVersion : string;
  ref_Kind : string;
  ref_Name : string
}.

Record PolicyEvaluationGuestSpec := mkPEGuest {
  peg_GuestID : string;
  peg_GuestFamily : string
}.

Record PolicyEvaluationImageSpec := mkPEImage {
  pei_Name : string;
  pei_Labels : gmap string string
}.

Record PolicyEvaluationWorkloadSpec := mkPEWorkload {
  pew_Guest : option PolicyEvaluationGuestSpec;
  pew_Labels : gmap string string
}.

Record PolicyEvaluationSpec := mkPESpec {
  pes_Image : option PolicyEvaluationImageSpec;
  pes_Workload : option PolicyEvaluationWorkloadSpec;
  pes_Policies : list LocalObjectRef
}.

Record PolicyEvaluationResult := mkPEResult {
  per_APIVersion : string;
  per_Kind : string;
  per_Name : string;
  per_Generation : Z;
  per_Tags : list string
}.

Record PolicyEvaluationStatus := mkPEStatus {
  pest_ObservedGeneration : Z;
  pest_Policies : list PolicyEvaluationResult;
  pest_Conditions : Conditions
}.

Record PolicyEvaluation := mkPE {
  pe_Namespace : string;
  pe_Name : string;
  pe_Generation : Z;
  pe_Deleting : bool;
  pe_Finalizers : list string;
  pe_Spec : PolicyEvaluationSpec;
  pe_Status : PolicyEvaluationStatus
}.

Definition set_pe_Finalizers (l : list string) (obj : PolicyEvaluation) : PolicyEvaluation :=
  mkPE (pe_Namespace obj) (pe_Name obj) (pe_Generation obj) (pe_Deleting obj) l
    (pe_Spec obj) (pe_Status obj).
Definition set_pe_Status (st : PolicyEvaluationStatus) (obj : PolicyEvaluation) : PolicyEvaluation :=
  mkPE (pe_Namespace obj) (pe_Name obj) (pe_Generation obj) (pe_Deleting obj)
    (pe_Finalizers obj) (pe_Spec obj) st.
Definition set_pe_Policies (l : list PolicyEvaluationResult) (obj : PolicyEvaluation) :
    PolicyEvaluation :=
  set_pe_Status (mkPEStatus (pest_ObservedGeneration (pe_Status obj)) l
                   (pest_Conditions (pe_Status obj))) obj.
Definition set_pe_ObservedGeneration (g : Z) (obj : PolicyEvaluation) : PolicyEvaluation :=
  set_pe_Status (mkPEStatus g (pest_Policies (pe_Status obj))
                   (pest_Conditions (pe_Status obj))) obj.

Definition pe_GetConditions (obj : PolicyEvaluation) : Conditions :=
  pest_Conditions (pe_Status obj).

Definition pe_SetConditions (obj : PolicyEvaluation) (l : Conditions) : PolicyEvaluation :=
  set_pe_Status (mkPEStatus (pest_ObservedGeneration (pe_Status obj))
                   (pest_Policies (pe_Status obj)) l) obj.

Definition PE_Policies (obj : PolicyEvaluation) : list PolicyEvaluationResult :=
  pest_Policies (pe_Status obj).

(** ** The interface of the policy kinds *)

Record matchablePolicy := mkMatchable {
  GetName : string;
  GetGeneration : Z;
  GetPolicyEnforcementMode : string;
  GetPolicyMatch : option MatchSpec;
  GetPolicyTagNames : list string
}.

Class Matchable (T : Type) := as_matchablePolicy : T → matchablePolicy.

#[export] Instance ComputePolicy_matchable : Matchable ComputePolicy := λ p,
  mkMatchable (cp_Name p) (cp_Generation p) (cp_EnforcementMode p) (cp_Match p) (cp_Tags p).
#[export] Instance AutomaticVMEvictionPolicy_matchable : Matchable AutomaticVMEvictionPolicy := λ p,
  mkMatchable (ep_Name p) (ep_Generation p) (ep_EnforcementMode p) (ep_Match p) (ep_Tags p).
#[export] Instance BestEffortRestartPolicy_matchable : Matchable BestEffortRestartPolicy := λ p,
  mkMatchable (bp_Name p) (bp_Generation p) (bp_EnforcementMode p) (bp_Match p) (bp_Tags p).
#[export] Instance ControlledRebalancingPolicy_matchable : Matchable ControlledRebalancingPolicy := λ p,
  mkMatchable (rp_Name p) (rp_Generation p) (rp_EnforcementMode p) (rp_Match p) (rp_Tags p).

Definition toMatchablePolicies {T} `{Matchable T} (items : list T) : list matchablePolicy :=
  as_matchablePolicy <$> items.

Definition computePolicyKind : string := "ComputePolicy".
Definition automaticVMEvictionPolicyKind : string := "AutomaticVMEvictionPolicy".
Definition bestEffortRestartPolicyKind : string := "BestEffortRestartPolicy".
Definition controlledRebalancingPolicyKind : string := "ControlledRebalancingPolicy".

Definition PolicyEnforcementModeMandatory : string := "Mandatory".
Definition BooleanOpOr : string := "Or".
Definition PolicyFinalizer : string := "vmoperator.vmware.com/policy-evaluation-finalizer".
Definition mandatoryPoliciesReconcileFailedReason : string := "MandatoryPoliciesReconcileFailed".
Definition explicitPoliciesReconcileFailedReason : string := "ExplicitPoliciesReconcileFailed".

(** vspherepolv1.GroupVersion.String(). *)
Definition GroupVersionString : string := "vsphere.policy.vmware.com/v1alpha1".

Record Features := mkFeatures {
  VMEviction : bool;
  ControlledRebalancing : bool
}.

(** ** What the controller calls *)

Class PolicyAPI (W : Type) := {
  pol_Now : W → Z;
  Quote : string → string;
  MatchString : string → string → string + bool;
  LabelSelectorAsSelector : list LabelSelectorRequirement → string + (gmap string string → bool);
  ListComputePolicies : string → W → string + list ComputePolicy;
  ListAutomaticVMEvictionPolicies : string → W → string + list AutomaticVMEvictionPolicy;
  ListBestEffortRestartPolicies : string → W → string + list BestEffortRestartPolicy;
  ListControlledRebalancingPolicies : string → W → string + list ControlledRebalancingPolicy;
  GetComputePolicy : string → string → W → string + ComputePolicy;
  GetAutomaticVMEvictionPolicy : string → string → W → string + AutomaticVMEvictionPolicy;
  GetBestEffortRestartPolicy : string → string → W → string + BestEffortRestartPolicy;
  GetControlledRebalancingPolicy : string → string → W → string + ControlledRebalancingPolicy;
  GetTagPolicy : string → string → W → string + TagPolicy;
  GetPolicyEvaluation : string → string → W → string + PolicyEvaluation;
  pol_IsNotFound : string → bool;
  pol_NewHelper : PolicyEvaluation → option string;
  pol_Patch : PolicyEvaluation → PolicyEvaluation → W → W * option string;
  ListPolicyEvaluations : string → W → string + list PolicyEvaluation;
  pol_AddFinalizer : list string → string → list string * bool;
  pol_RemoveFinalizer : list string → string → list string
}.

Section Evaluate.
Context {W : Type} `{PolicyAPI W}.

(** The early return [if ok, err := m; err != nil || !ok { return ok, err }]. *)
Definition and_also (m k : string + bool) : string + bool :=
  match m with
  | inl e => inl e
  | inr false => inr false
  | inr true => k
  end.

(** ** Matching *)

Definition matchesString (actual : string) (matcher : option StringMatcherSpec) : string + bool :=
  match matcher with
  | None => inr true
  | Some m =>
    let v := sm_Value m in
    if bool_decide (sm_Op m ∈ ["Equal"; ""]) then inr (bool_decide (actual = v))
    else if bool_decide (sm_Op m = "NotEqual") then inr (bool_decide (actual ≠ v))
    else if bool_decide (sm_Op m = "HasPrefix") then inr (HasPrefix actual v)
    else if bool_decide (sm_Op m = "NotHasPrefix") then inr (negb (HasPrefix actual v))
    else if bool_decide (sm_Op m = "HasSuffix") then inr (HasSuffix actual v)
    else if bool_decide (sm_Op m = "NotHasSuffix") then inr (negb (HasSuffix actual v))
    else if bool_decide (sm_Op m = "Contains") then inr (Contains actual v)
    else if bool_decide (sm_Op m = "NotContains") then inr (negb (Contains actual v))
    else if bool_decide (sm_Op m = "Match") then MatchString v actual
    else if bool_decide (sm_Op m = "NotMatch") then
      match MatchString v actual with inl e => inl e | inr ok => inr (negb ok) end
    else inr false
  end%string.

Definition matchesGuestFamily (actual : string) (matcher : option GuestFamilyMatcherSpec) :
    string + bool :=
  matchesString actual ((λ m, mkStringMatcher (gf_Op m) (gf_Value m)) <$> matcher).

Definition pe_Guest (obj : PolicyEvaluation) : option PolicyEvaluationGuestSpec :=
  pes_Workload (pe_Spec obj) ≫= pew_Guest.

Definition evaluateGuestMatch (obj : PolicyEvaluation) (guestSpec : option MatchGuestSpec) :
    string + bool :=
  match guestSpec with
  | None => inr true
  | Some gs =>
    and_also
      (match mg_GuestID gs with
       | None => inr true
       | Some m =>
         match pe_Guest obj with
         | None => inr false
         | Some g => matchesString (peg_GuestID g) (Some m)
         end
       end)
      (match mg_GuestFamily gs with
       | None => inr true
       | Some m =>
         match pe_Guest obj with
         | None => inr false
         | Some g => matchesGuestFamily (peg_GuestFamily g) (Some m)
         end
       end)
  end.

Definition evaluateWorkloadLabelsMatch (obj : PolicyEvaluation)
    (labelRequirements : list LabelSelectorRequirement) : string + bool :=
  match labelRequirements with
  | [] => inr true
  | _ =>
    match pes_Workload (pe_Spec obj) with
    | None => inr false
    | Some wl =>
      match LabelSelectorAsSelector labelRequirements with
      | inl e => inl ("failed to match workload labels: " +:+ e)%string
      | inr labelSelector => inr (labelSelector (pew_Labels wl))
      end
    end
  end.

Definition evaluateImageLabelsMatch (obj : PolicyEvaluation)
    (labelRequirements : list LabelSelectorRequirement) : string + bool :=
  match labelRequirements with
  | [] => inr true
  | _ =>
    match pes_Image (pe_Spec obj) with
    | None => inr false
    | Some img =>
      match LabelSelectorAsSelector labelRequirements with
      | inl e => inl ("failed to match image labels: " +:+ e)%string
      | inr labelSelector => inr (labelSelector (pei_Labels img))
      end
    end
  end.

Definition evaluateImageNameMatch (obj : PolicyEvaluation) (nameSpec : option StringMatcherSpec) :
    string + bool :=
  match nameSpec with
  | None => inr true
  | Some m =>
    match pes_Image (pe_Spec obj) with
    | None => inr false
    | Some img => matchesString (pei_Name img) (Some m)
    end
  end.

Definition evaluateWorkloadMatch (obj : PolicyEvaluation) (wl : option MatchWorkloadSpec) :
    string + bool :=
  match wl with
  | None => inr true
  | Some w =>
    and_also (evaluateGuestMatch obj (mw_Guest w)) (evaluateWorkloadLabelsMatch obj (mw_Labels w))
  end.

Definition evaluateImageMatch (obj : PolicyEvaluation) (img : option MatchImageSpec) :
    string + bool :=
  match img with
  | None => inr true
  | Some i =>
    and_also (evaluateImageNameMatch obj (mi_Name i)) (evaluateImageLabelsMatch obj (mi_Labels i))
  end.

(** The two loops over the nested specifications, with their [break]s. *)
Section Loops.
Context (f : MatchSpec → string + bool).
Fixpoint any_match (l : list MatchSpec) : string + bool :=
  match l with
  | [] => inr false
  | s :: l' =>
    match f s with
    | inl e => inl e
    | inr true => inr true
    | inr false => any_match l'
    end
  end.
Fixpoint all_match (l : list MatchSpec) : string + bool :=
  match l with
  | [] => inr true
  | s :: l' =>
    match f s with
    | inl e => inl e
    | inr false => inr false
    | inr true => all_match l'
    end
  end.
End Loops.

Fixpoint evaluateMatchSpec (obj : PolicyEvaluation) (matchSpec : MatchSpec) : string + bool :=
  let '(mkMatchSpec op nested img wl) := matchSpec in
  match evaluateWorkloadMatch obj wl with
  | inl e => inl e
  | inr workloadMatch =>
    match evaluateImageMatch obj img with
    | inl e => inl e
    | inr imageMatch =>
      let directMatches := workloadMatch && imageMatch in
      match nested with
      | [] => inr directMatches
      | _ =>
        match (if bool_decide (op = BooleanOpOr) then any_match (evaluateMatchSpec obj) nested
               else all_match (evaluateMatchSpec obj) nested) with
        | inl e => inl e
        | inr nestedMatches => inr (directMatches && nestedMatches)
        end
      end
    end
  end.

Definition matchesPolicy (obj : PolicyEvaluation) (match_ : option MatchSpec) : string + bool :=
  match match_ with
  | None => inr true
  | Some m => evaluateMatchSpec obj m
  end.

(** ** Recording what applies *)

Fixpoint resolvePolicyTags (namespace : string) (tagPolicyNames : list string) (w : W) :
    string + list string :=
  match tagPolicyNames with
  | [] => inr []
  | tpn :: rest =>
    match GetTagPolicy namespace tpn w with
    | inl e => inl ("failed to get tag policy " +:+ Quote tpn +:+ ": " +:+ e)%string
    | inr tp =>
      match resolvePolicyTags namespace rest w with
      | inl e => inl e
      | inr tags => inr (tp_Tags tp ++ tags)
      end
    end
  end.

Definition addPolicyResult (w : W) (obj : PolicyEvaluation) (kind : string) (p : matchablePolicy) :
    PolicyEvaluation * option string :=
  if existsb (λ res, bool_decide (per_Name res = GetName p) && bool_decide (per_Kind res = kind))
       (PE_Policies obj)
  then (obj, None)
  else
    match resolvePolicyTags (pe_Namespace obj) (GetPolicyTagNames p) w with
    | inl e => (obj, Some e)
    | inr tags =>
      (set_pe_Policies
         (PE_Policies obj ++
          [mkPEResult GroupVersionString kind (GetName p) (GetGeneration p) tags]) obj, None)
    end.

Fixpoint processMandatoryPolicies (w : W) (obj : PolicyEvaluation) (kind : string)
    (policies : list matchablePolicy) : PolicyEvaluation * option string :=
  match policies with
  | [] => (obj, None)
  | p :: rest =>
    if bool_decide (GetPolicyEnforcementMode p ≠ PolicyEnforcementModeMandatory)
    then processMandatoryPolicies w obj kind rest
    else
      match matchesPolicy obj (GetPolicyMatch p) with
      | inl e => (obj, Some e)
      | inr false => processMandatoryPolicies w obj kind rest
      | inr true =>
        match addPolicyResult w obj kind p with
        | (obj, Some e) => (obj, Some e)
        | (obj, None) => processMandatoryPolicies w obj kind rest
        end
      end
  end.

(** [fmt.Errorf("<prefix>: %w", err)] on the way out of a call. *)
Definition wrapErr (prefix : string) (r : PolicyEvaluation * option string) :
    PolicyEvaluation * option string :=
  (r.1, (λ e, prefix +:+ e)%string <$> r.2).

Definition reconcileMandatoryComputePolicies (w : W) (obj : PolicyEvaluation) :
    PolicyEvaluation * option string :=
  match ListComputePolicies (pe_Namespace obj) w with
  | inl e => (obj, Some ("failed to list compute policies: " +:+ e)%string)
  | inr items => processMandatoryPolicies w obj computePolicyKind (toMatchablePolicies items)
  end.

Definition reconcileMandatoryAutomaticVMEvictionPolicies (w : W) (obj : PolicyEvaluation) :
    PolicyEvaluation * option string :=
  match ListAutomaticVMEvictionPolicies (pe_Namespace obj) w with
  | inl e => (obj, Some ("failed to list automatic VM eviction policies: " +:+ e)%string)
  | inr items =>
    processMandatoryPolicies w obj automaticVMEvictionPolicyKind (toMatchablePolicies items)
  end.

Definition reconcileMandatoryBestEffortRestartPolicies (w : W) (obj : PolicyEvaluation) :
    PolicyEvaluation * option string :=
  match ListBestEffortRestartPolicies (pe_Namespace obj) w with
  | inl e => (obj, Some ("failed to list best-effort restart policies: " +:+ e)%string)
  | inr items =>
    processMandatoryPolicies w obj bestEffortRestartPolicyKind (toMatchablePolicies items)
  end.

Definition reconcileMandatoryControlledRebalancingPolicies (w : W) (obj : PolicyEvaluation) :
    PolicyEvaluation * option string :=
  match ListControlledRebalancingPolicies (pe_Namespace obj) w with
  | inl e => (obj, Some ("failed to list controlled rebalancing policies: " +:+ e)%string)
  | inr items =>
    processMandatoryPolicies w obj controlledRebalancingPolicyKind (toMatchablePolicies items)
  end.

(** [if err := m(obj); err != nil { return err }; k(obj)]. *)
Definition then_ (r : PolicyEvaluation * option string)
    (k : PolicyEvaluation → PolicyEvaluation * option string) : PolicyEvaluation * option string :=
  match r with
  | (obj, Some e) => (obj, Some e)
  | (obj, None) => k obj
  end.

Definition reconcileMandatoryPolicies (ft : Features) (w : W) (obj : PolicyEvaluation) :
    PolicyEvaluation * option string :=
  then_ (wrapErr "failed to reconcile mandatory compute policies: "
           (reconcileMandatoryComputePolicies w obj)) (λ obj,
  then_ (if VMEviction ft then
           then_ (wrapErr "failed to reconcile mandatory automatic VM eviction policies: "
                    (reconcileMandatoryAutomaticVMEvictionPolicies w obj)) (λ obj,
           wrapErr "failed to reconcile mandatory best-effort restart policies: "
             (reconcileMandatoryBestEffortRestartPolicies w obj))
         else (obj, None)) (λ obj,
  if ControlledRebalancing ft then
    wrapErr "failed to reconcile mandatory controlled rebalancing policies: "
      (reconcileMandatoryControlledRebalancingPolicies w obj)
  else (obj, None))).

Definition addExplicitPolicyMatch (w : W) (obj : PolicyEvaluation) (kind : string)
    (p : matchablePolicy) : PolicyEvaluation * option string :=
  match matchesPolicy obj (GetPolicyMatch p) with
  | inl e => (obj, Some e)
  | inr false => (obj, Some (kind +:+ " " +:+ Quote (GetName p) +:+ " does not match")%string)
  | inr true => addPolicyResult w obj kind p
  end.

Definition addComputePolicyRef (w : W) (obj : PolicyEvaluation) (ref : LocalObjectRef) :
    PolicyEvaluation * option string :=
  match GetComputePolicy (pe_Namespace obj) (ref_Name ref) w with
  | inl e => (obj, Some ("failed to get compute policy: " +:+ e)%string)
  | inr pol => addExplicitPolicyMatch w obj computePolicyKind (as_matchablePolicy pol)
  end.

Definition addAutomaticVMEvictionPolicyRef (w : W) (obj : PolicyEvaluation) (ref : LocalObjectRef) :
    PolicyEvaluation * option string :=
  match GetAutomaticVMEvictionPolicy (pe_Namespace obj) (ref_Name ref) w with
  | inl e => (obj, Some ("failed to get automatic VM eviction policy: " +:+ e)%string)
  | inr pol => addExplicitPolicyMatch w obj automaticVMEvictionPolicyKind (as_matchablePolicy pol)
  end.

Definition addBestEffortRestartPolicyRef (w : W) (obj : PolicyEvaluation) (ref : LocalObjectRef) :
    PolicyEvaluation * option string :=
  match GetBestEffortRestartPolicy (pe_Namespace obj) (ref_Name ref) w with
  | inl e => (obj, Some ("failed to get best-effort restart policy: " +:+ e)%string)
  | inr pol => addExplicitPolicyMatch w obj bestEffortRestartPolicyKind (as_matchablePolicy pol)
  end.

Definition addControlledRebalancingPolicyRef (w : W) (obj : PolicyEvaluation)
    (ref : LocalObjectRef) : PolicyEvaluation * option string :=
  match GetControlledRebalancingPolicy (pe_Namespace obj) (ref_Name ref) w with
  | inl e => (obj, Some ("failed to get controlled rebalancing policy: " +:+ e)%string)
  | inr pol => addExplicitPolicyMatch w obj controlledRebalancingPolicyKind (as_matchablePolicy pol)
  end.

(** One round of the loop over [obj.Spec.Policies]. *)
Definition reconcileExplicitPolicy (ft : Features) (w : W) (obj : PolicyEvaluation)
    (ref : LocalObjectRef) : PolicyEvaluation * option string :=
  let n := ref_Name ref in
  if bool_decide (ref_Kind ref = computePolicyKind) then
    wrapErr ("failed to add explicit compute policy " +:+ n +:+ ": ")
      (addComputePolicyRef w obj ref)
  else if bool_decide (ref_Kind ref = automaticVMEvictionPolicyKind) then
    if VMEviction ft then
      wrapErr ("failed to add explicit automatic VM eviction policy " +:+ n +:+ ": ")
        (addAutomaticVMEvictionPolicyRef w obj ref)
    else (obj, None)
  else if bool_decide (ref_Kind ref = bestEffortRestartPolicyKind) then
    if VMEviction ft then
      wrapErr ("failed to add explicit best-effort restart policy " +:+ n +:+ ": ")
        (addBestEffortRestartPolicyRef w obj ref)
    else (obj, None)
  else if bool_decide (ref_Kind ref = controlledRebalancingPolicyKind) then
    if ControlledRebalancing ft then
      wrapErr ("failed to add explicit controlled rebalancing policy " +:+ n +:+ ": ")
        (addControlledRebalancingPolicyRef w obj ref)
    else (obj, None)
  else (obj, None).

Fixpoint explicitLoop (ft : Features) (w : W) (obj : PolicyEvaluation) (refs : list LocalObjectRef) :
    PolicyEvaluation * option string :=
  match refs with
  | [] => (obj, None)
  | ref :: rest =>
    then_ (reconcileExplicitPolicy ft w obj ref) (λ obj, explicitLoop ft w obj rest)
  end.

Definition reconcileExplicitPolicies (ft : Features) (w : W) (obj : PolicyEvaluation) :
    PolicyEvaluation * option string :=
  explicitLoop ft w obj (pes_Policies (pe_Spec obj)).

(** ** The reconciler *)

Definition MarkReadyError (w : W) (obj : PolicyEvaluation) (reason e : string) : PolicyEvaluation :=
  pe_SetConditions obj (MarkError (pol_Now w) (pe_GetConditions obj) ReadyConditionType reason e).

Definition pol_ReconcileNormal (ft : Features) (w : W) (obj : PolicyEvaluation) :
    PolicyEvaluation * option string :=
  let '(fs, added) := pol_AddFinalizer (pe_Finalizers obj) PolicyFinalizer in
  let obj := set_pe_Finalizers fs obj in
  if added then (obj, None)
  else
    match reconcileMandatoryPolicies ft w (set_pe_Policies [] obj) with
    | (obj, Some e) => (MarkReadyError w obj mandatoryPoliciesReconcileFailedReason e, Some e)
    | (obj, None) =>
      match reconcileExplicitPolicies ft w obj with
      | (obj, Some e) => (MarkReadyError w obj explicitPoliciesReconcileFailedReason e, Some e)
      | (obj, None) =>
        let obj := set_pe_ObservedGeneration (pe_Generation obj) obj in
        (pe_SetConditions obj (MarkTrue (pol_Now w) (pe_GetConditions obj) ReadyConditionType), None)
      end
    end.

Definition pol_ReconcileDelete (obj : PolicyEvaluation) : PolicyEvaluation * option string :=
  (set_pe_Finalizers (pol_RemoveFinalizer (pe_Finalizers obj) PolicyFinalizer) obj, None).

Definition pol_Reconcile (ft : Features) (w : W) (namespace name : string) : W * option string :=
  match GetPolicyEvaluation namespace name w with
  | inl e => (w, if pol_IsNotFound e then None else Some e)
  | inr before =>
    match pol_NewHelper before with
    | Some e => (w, Some e)
    | None =>
      let '(obj, reterr) :=
        if pe_Deleting before then pol_ReconcileDelete before
        else pol_ReconcileNormal ft w before in
      let '(w, perr) := pol_Patch before obj w in
      (w, match perr with
          | None => reterr
          | Some e => match reterr with
                      | None => Some e
                      | Some r => Some (e +:+ "," +:+ r)%string
                      end
          end)
    end
  end.

(** ** Events that wake the reconciler up *)

Definition virtualMachineToPolicyEvaluationMapperFn (vm : string * string) :
    list (string * string) :=
  [(vm.1, "vm-" +:+ vm.2)%string].

Definition policyToPolicyEvaluationMapperFn (w : W) (policyNamespace : string) :
    list (string * string) :=
  match ListPolicyEvaluations policyNamespace w with
  | inl _ => []
  | inr items => (λ pe, (pe_Namespace pe, pe_Name pe)) <$> items
  end.

Definition tagPolicyToPolicyEvaluationMapperFn (tagPolicy : TagPolicy) : list (string * string) := [].

End Evaluate.

(** ** Reference semantics

    A specification is satisfied when every matcher it has is and the nested
    ones are combined by its operation.  A matcher that cannot be evaluated,
    because its regular expression does not compile or its label requirements
    are not a selector, counts as [d]. *)

Class PolicyAPILaws (W : Type) `{PolicyAPI W} := {
  MatchString_compiles p s1 s2 e1 :
    MatchString p s1 = inl e1 → ∃ e2, MatchString p s2 = inl e2;
  GetComputePolicy_name ns n w p : GetComputePolicy ns n w = inr p → cp_Name p = n;
  GetAutomaticVMEvictionPolicy_name ns n w p :
    GetAutomaticVMEvictionPolicy ns n w = inr p → ep_Name p = n;
  GetBestEffortRestartPolicy_name ns n w p : GetBestEffortRestartPolicy ns n w = inr p → bp_Name p = n;
  GetControlledRebalancingPolicy_name ns n w p :
    GetControlledRebalancingPolicy ns n w = inr p → rp_Name p = n;
  pol_AddFinalizer_spec l f :
    pol_AddFinalizer l f = if bool_decide (f ∈ l) then (l, false) else (l ++ [f], true)
}.

Section MatchSpecInd.
Context (P : MatchSpec → Prop).
Context (Hnode : ∀ op nested img wl, Forall P nested → P (mkMatchSpec op nested img wl)).

(** Induction over the tree, with the hypothesis for every nested specification. *)
Fixpoint MatchSpec_nested_ind (s : MatchSpec) : P s :=
  match s with
  | mkMatchSpec op nested img wl =>
    Hnode op nested img wl
      ((fix go (l : list MatchSpec) : Forall P l :=
          match l with
          | [] => List.Forall_nil P
          | x :: l' => List.Forall_cons P x l' (MatchSpec_nested_ind x) (go l')
          end) nested)
  end.
End MatchSpecInd.

Section Reference.
Context {W : Type} `{PolicyAPILaws W}.

Definition leaf (d : bool) (m : string + bool) : bool :=
  match m with inl _ => d | inr b => b end.

(** The matchers of a specification itself, each on its own. *)
Definition matchers (obj : PolicyEvaluation) (img : option MatchImageSpec)
    (wl : option MatchWorkloadSpec) : list (string + bool) :=
  let guest := wl ≫= mw_Guest in
  [evaluateGuestMatch obj ((λ g, mkMatchGuest (mg_GuestID g) None) <$> guest);
   evaluateGuestMatch obj ((λ g, mkMatchGuest None (mg_GuestFamily g)) <$> guest);
   evaluateWorkloadLabelsMatch obj (from_option mw_Labels [] wl);
   evaluateImageNameMatch obj (img ≫= mi_Name);
   evaluateImageLabelsMatch obj (from_option mi_Labels [] img)].

Fixpoint sat (d : bool) (obj : PolicyEvaluation) (s : MatchSpec) : bool :=
  let '(mkMatchSpec op nested img wl) := s in
  forallb (leaf d) (matchers obj img wl) &&
  match nested with
  | [] => true
  | _ => if bool_decide (op = BooleanOpOr) then existsb (sat d obj) nested
         else forallb (sat d obj) nested
  end.

(** Specifications every matcher of which can be evaluated. *)
Definition string_ok (m : StringMatcherSpec) : bool :=
  negb (bool_decide (sm_Op m ∈ ["Match"; "NotMatch"]%string)) ||
  match MatchString (sm_Value m) "" with inl _ => false | inr _ => true end.

Definition labels_ok (l : list LabelSelectorRequirement) : bool :=
  match l with
  | [] => true
  | _ => match LabelSelectorAsSelector l with inl _ => false | inr _ => true end
  end.

Definition image_ok (i : MatchImageSpec) : bool :=
  from_option string_ok true (mi_Name i) && labels_ok (mi_Labels i).

Definition guest_ok (g : MatchGuestSpec) : bool :=
  from_option string_ok true (mg_GuestID g) &&
  from_option (λ m, string_ok (mkStringMatcher (gf_Op m) (gf_Value m))) true (mg_GuestFamily g).

Definition workload_ok (wl : MatchWorkloadSpec) : bool :=
  from_option guest_ok true (mw_Guest wl) && labels_ok (mw_Labels wl).

Fixpoint spec_ok (s : MatchSpec) : bool :=
  let '(mkMatchSpec op nested img wl) := s in
  from_option image_ok true img && from_option workload_ok true wl && forallb spec_ok nested.

(** *** The evaluation computes the reference *)

Lemma and_also_leaf d m k b : and_also m k = inr b → leaf d m && leaf d k = b ∨ (m = inr false ∧ b = false).
Proof. destruct m as [|[]]; simpl; intros Hk; simplify_eq; [by left|by right]. Qed.

Lemma any_match_sat d obj nested b :
  Forall (λ s, ∀ b, evaluateMatchSpec obj s = inr b → sat d obj s = b) nested →
  any_match (evaluateMatchSpec obj) nested = inr b → existsb (sat d obj) nested = b.
Proof.
  induction 1 as [|s l Hs Hl IH]; simpl; [by intros [= <-]|].
  destruct (evaluateMatchSpec obj s) as [e|[]] eqn:He; [done|..]; rewrite (Hs _ eq_refl); [|done].
  by intros [= <-].
Qed.

Lemma all_match_sat d obj nested b :
  Forall (λ s, ∀ b, evaluateMatchSpec obj s = inr b → sat d obj s = b) nested →
  all_match (evaluateMatchSpec obj) nested = inr b → forallb (sat d obj) nested = b.
Proof.
  induction 1 as [|s l Hs Hl IH]; simpl; [by intros [= <-]|].
  destruct (evaluateMatchSpec obj s) as [e|[]] eqn:He; [done|..]; rewrite (Hs _ eq_refl); [done|].
  by intros [= <-].
Qed.

Lemma and_also_true_r m : and_also m (inr true) = m.
Proof. by destruct m as [|[]]. Qed.

Lemma and_also_sat d m1 m2 b : and_also m1 m2 = inr b → leaf d m1 && leaf d m2 = b.
Proof. by intros [?|[-> ->]]%(and_also_leaf d). Qed.

Lemma guest_match_split obj gid gf :
  evaluateGuestMatch obj (Some (mkMatchGuest gid gf)) =
  and_also (evaluateGuestMatch obj (Some (mkMatchGuest gid None)))
           (evaluateGuestMatch obj (Some (mkMatchGuest None gf))).
Proof. cbn [evaluateGuestMatch mg_GuestID mg_GuestFamily]. by rewrite and_also_true_r. Qed.

Lemma workload_match_sat d obj wl b :
  evaluateWorkloadMatch obj wl = inr b →
  leaf d (evaluateGuestMatch obj ((λ g, mkMatchGuest (mg_GuestID g) None) <$> (wl ≫= mw_Guest))) &&
  leaf d (evaluateGuestMatch obj ((λ g, mkMatchGuest None (mg_GuestFamily g)) <$> (wl ≫= mw_Guest))) &&
  leaf d (evaluateWorkloadLabelsMatch obj (from_option mw_Labels [] wl)) = b.
Proof.
  destruct wl as [[[[gid gf]|] lbls k]|]; cbn [evaluateWorkloadMatch mw_Guest mw_Labels
    mbind option_bind fmap option_fmap option_map from_option mg_GuestID mg_GuestFamily].
  - rewrite guest_match_split.
    set (m1 := evaluateGuestMatch _ _). set (m2 := evaluateGuestMatch _ _).
    intros Hb. destruct m1 as [|[]]; simpl in Hb |- *; simplify_eq; try done.
    by apply and_also_sat.
  - simpl. intros Hb. by rewrite Hb.
  - simpl. by intros [= <-].
Qed.

Lemma image_match_sat d obj img b :
  evaluateImageMatch obj img = inr b →
  leaf d (evaluateImageNameMatch obj (img ≫= mi_Name)) &&
  leaf d (evaluateImageLabelsMatch obj (from_option mi_Labels [] img)) = b.
Proof.
  destruct img as [[n lbls]|]; simpl; [|by intros [= <-]].
  apply and_also_sat.
Qed.

Lemma evaluate_sat d obj s : ∀ b, evaluateMatchSpec obj s = inr b → sat d obj s = b.
Proof.
  induction s as [op nested img wl IH] using MatchSpec_nested_ind. intros b. cbn [evaluateMatchSpec].
  destruct (evaluateWorkloadMatch obj wl) as [|bw] eqn:Hw; [done|].
  destruct (evaluateImageMatch obj img) as [|bi] eqn:Hi; [done|].
  apply (workload_match_sat d) in Hw. apply (image_match_sat d) in Hi.
  intros Hb. cbn [sat matchers forallb]. rewrite andb_true_r, !andb_assoc, Hw, <-!andb_assoc.
  rewrite (andb_assoc (leaf d _) (leaf d _)), Hi, andb_assoc.
  destruct nested as [|s nested]; [by simplify_eq; rewrite andb_true_r|].
  case_bool_decide.
  - destruct (any_match _ _) as [|bn] eqn:Hn; [done|]. simplify_eq.
    by rewrite (any_match_sat d _ _ _ IH Hn).
  - destruct (all_match _ _) as [|bn] eqn:Hn; [done|]. simplify_eq.
    by rewrite (all_match_sat d _ _ _ IH Hn).
Qed.

(** *** Specifications that can be evaluated are *)

Definition returns {A} (m : string + A) : Prop := ∃ b, m = inr b.

Lemma returns_inr {A} (a : A) : returns (inr a).
Proof. by exists a. Qed.
Hint Resolve returns_inr : go.

Lemma and_also_returns m k : returns m → returns k → returns (and_also m k).
Proof. intros [[] ->] Hk; simpl; eauto with go. Qed.
Hint Resolve and_also_returns : go.

Lemma string_ok_returns actual m : string_ok m = true → returns (matchesString actual (Some m)).
Proof using All.
  unfold string_ok, matchesString. intros Hok.
  assert (sm_Op m ∈ ["Match"; "NotMatch"]%string → returns (MatchString (sm_Value m) actual)) as Hm.
  { intros Hop. rewrite bool_decide_true in Hok by done. simpl in Hok.
    destruct (MatchString (sm_Value m) actual) as [e|b] eqn:E; [|eauto with go].
    apply (MatchString_compiles _ _ ""%string) in E as [e2 E]. by rewrite E in Hok. }
  clear Hok. repeat case_bool_decide; eauto with go.
  - apply Hm. set_solver.
  - destruct Hm as [b ->]; [set_solver|]. eauto with go.
Qed.
Hint Resolve string_ok_returns : go.

Lemma labels_ok_returns obj l :
  labels_ok l = true →
  returns (evaluateWorkloadLabelsMatch obj l) ∧ returns (evaluateImageLabelsMatch obj l).
Proof.
  unfold labels_ok, evaluateWorkloadLabelsMatch, evaluateImageLabelsMatch.
  intros Hok. destruct l; [eauto with go|].
  destruct (LabelSelectorAsSelector _); [done|]. split; case_match; eauto with go.
Qed.

Lemma workload_ok_returns obj wl :
  from_option workload_ok true wl = true → returns (evaluateWorkloadMatch obj wl).
Proof using All.
  destruct wl as [[g l k]|]; simpl; [|eauto with go]. unfold workload_ok. simpl. intros Hok.
  bool_to_prop. apply and_also_returns; [|by apply labels_ok_returns].
  destruct g as [[gid gf]|]; simpl in *; [|eauto with go]. unfold guest_ok in *. simpl in *.
  bool_to_prop. unfold matchesGuestFamily.
  apply and_also_returns; case_match; eauto with go; case_match; eauto with go.
Qed.

Lemma image_ok_returns obj img :
  from_option image_ok true img = true → returns (evaluateImageMatch obj img).
Proof using All.
  destruct img as [[n l]|]; simpl; [|eauto with go]. unfold image_ok. simpl. intros Hok.
  bool_to_prop. apply and_also_returns; [|by apply labels_ok_returns].
  destruct n; simpl in *; [|eauto with go]. case_match; eauto with go.
Qed.

Lemma loops_return obj nested :
  Forall (λ s, returns (evaluateMatchSpec obj s)) nested →
  returns (any_match (evaluateMatchSpec obj) nested) ∧ returns (all_match (evaluateMatchSpec obj) nested).
Proof.
  induction 1 as [|s l [b Hb] Hl [IH1 IH2]]; simpl; [eauto with go|].
  rewrite Hb. destruct b; eauto with go.
Qed.

Lemma spec_ok_returns obj s : spec_ok s = true → returns (evaluateMatchSpec obj s).
Proof using All.
  induction s as [op nested img wl IH] using MatchSpec_nested_ind. cbn [spec_ok evaluateMatchSpec].
  intros Hok. bool_to_prop.
  destruct (workload_ok_returns obj wl) as [bw ->]; [done|].
  destruct (image_ok_returns obj img) as [bi ->]; [done|].
  assert (Forall (λ s, returns (evaluateMatchSpec obj s)) nested) as Hall.
  { rewrite Forall_forall in IH |- *. intros s Hs. apply IH; [done|].
    eapply forallb_forall; [done|]. by apply list_elem_of_In. }
  apply loops_return in Hall as [[b1 Hb1] [b2 Hb2]].
  destruct nested; [eauto with go|]. case_bool_decide; rewrite ?Hb1, ?Hb2; eauto with go.
Qed.


(** The kind of workload a specification asks for takes no part in the
    evaluation. *)
Fixpoint with_kind (k : string) (s : MatchSpec) : MatchSpec :=
  let '(mkMatchSpec op nested img wl) := s in
  mkMatchSpec op (with_kind k <$> nested) img
    ((λ wl, mkMatchWorkload (mw_Guest wl) (mw_Labels wl) k) <$> wl).

Lemma workload_kind_ignored k obj s :
  evaluateMatchSpec obj (with_kind k s) = evaluateMatchSpec obj s.
Proof.
  induction s as [op nested img wl IH] using MatchSpec_nested_ind. cbn [with_kind evaluateMatchSpec].
  assert (any_match (evaluateMatchSpec obj) (with_kind k <$> nested) =
          any_match (evaluateMatchSpec obj) nested ∧
          all_match (evaluateMatchSpec obj) (with_kind k <$> nested) =
          all_match (evaluateMatchSpec obj) nested) as [Hany Hall].
  { induction IH as [|s l Hs Hl [IH1 IH2]]; [done|]. rewrite !fmap_cons. simpl.
    rewrite Hs, IH1, IH2. done. }
  replace (evaluateWorkloadMatch obj ((λ wl, mkMatchWorkload (mw_Guest wl) (mw_Labels wl) k) <$> wl))
    with (evaluateWorkloadMatch obj wl) by (by destruct wl as [[]|]).
  rewrite Hany, Hall. by destruct nested.
Qed.

End Reference.
