(* ===== verification/PolicyResults.v ===== *)
(** * What a policy evaluation records

    The list of results the reconciler of [PolicyEvaluation] leaves in the
    status: exactly the mandatory policies that match and the policies the
    evaluation refers to, once each, with the tags of their tag policies; when
    the reconciler succeeds, and what it reports when it does not. *)

From S2P Require Import Prelude Conditions PolicyEvaluation.
Local Open Scope Z_scope.

#[local] Set Default Proof Using "All".
#[local] Arguments wrapErr : simpl never.
#[local] Arguments then_ : simpl never.

Section Results.
Context {W : Type} `{PolicyAPILaws W}.

(** ** Sources of policies *)

Definition inr_map {A B} (f : A → B) (m : string + A) : string + B :=
  match m with inl e => inl e | inr a => inr (f a) end.

(** The kinds that are evaluated under the features, with what is listed. *)
Definition listed (ft : Features) (ns : string) (w : W) :
    list (string * (string + list matchablePolicy)) :=
  [(computePolicyKind, inr_map toMatchablePolicies (ListComputePolicies ns w))] ++
  (if VMEviction ft then
     [(automaticVMEvictionPolicyKind, inr_map toMatchablePolicies (ListAutomaticVMEvictionPolicies ns w));
      (bestEffortRestartPolicyKind, inr_map toMatchablePolicies (ListBestEffortRestartPolicies ns w))]
   else []) ++
  (if ControlledRebalancing ft then
     [(controlledRebalancingPolicyKind,
       inr_map toMatchablePolicies (ListControlledRebalancingPolicies ns w))]
   else []).

(** What a reference resolves to; [None] for unknown and disabled kinds. *)
Definition referenced (ft : Features) (ns : string) (w : W) (ref : LocalObjectRef) :
    option (string + matchablePolicy) :=
  let n := ref_Name ref in
  if bool_decide (ref_Kind ref = computePolicyKind) then
    Some (inr_map as_matchablePolicy (GetComputePolicy ns n w))
  else if bool_decide (ref_Kind ref = automaticVMEvictionPolicyKind) then
    if VMEviction ft then Some (inr_map as_matchablePolicy (GetAutomaticVMEvictionPolicy ns n w))
    else None
  else if bool_decide (ref_Kind ref = bestEffortRestartPolicyKind) then
    if VMEviction ft then Some (inr_map as_matchablePolicy (GetBestEffortRestartPolicy ns n w))
    else None
  else if bool_decide (ref_Kind ref = controlledRebalancingPolicyKind) then
    if ControlledRebalancing ft then
      Some (inr_map as_matchablePolicy (GetControlledRebalancingPolicy ns n w))
    else None
  else None.

Definition Mandatory (p : matchablePolicy) : Prop :=
  GetPolicyEnforcementMode p = PolicyEnforcementModeMandatory.

(** The policy's specification is satisfied, or it has none. *)
Definition satisfied (obj : PolicyEvaluation) (p : matchablePolicy) : Prop :=
  from_option (sat false obj) true (GetPolicyMatch p) = true.

Definition policy_ok (p : matchablePolicy) : Prop :=
  from_option spec_ok true (GetPolicyMatch p) = true.

(** The policies that apply to [obj], by the kind they are recorded under. *)
Inductive Applies (ft : Features) (w : W) (obj : PolicyEvaluation) :
    string → matchablePolicy → Prop :=
  | applies_mandatory kind l p :
      (kind, inr l) ∈ listed ft (pe_Namespace obj) w → p ∈ l → Mandatory p → satisfied obj p →
      Applies ft w obj kind p
  | applies_explicit ref p :
      ref ∈ pes_Policies (pe_Spec obj) →
      referenced ft (pe_Namespace obj) w ref = Some (inr p) → satisfied obj p →
      Applies ft w obj (ref_Kind ref) p.

(** [r] is what recording [p] under [kind] yields. *)
Definition result_of (w : W) (ns kind : string) (p : matchablePolicy) (r : PolicyEvaluationResult) :
    Prop :=
  ∃ tags, resolvePolicyTags ns (GetPolicyTagNames p) w = inr tags ∧
  r = mkPEResult GroupVersionString kind (GetName p) (GetGeneration p) tags.

Definition result_key (r : PolicyEvaluationResult) : string * string := (per_Kind r, per_Name r).

(** [l] records exactly the candidates [C]. *)
Record Recorded (w : W) (ns : string) (C : string → matchablePolicy → Prop)
    (l : list PolicyEvaluationResult) : Prop := {
  recorded_nodup : NoDup (result_key <$> l);
  recorded_sound r : r ∈ l → ∃ kind p, C kind p ∧ result_of w ns kind p r;
  recorded_complete kind p : C kind p → (kind, GetName p) ∈ result_key <$> l
}.

Implicit Types (obj : PolicyEvaluation) (kind : string) (p : matchablePolicy).

(** ** Helper lemmas *)

Lemma then_ok r k obj : then_ r k = (obj, None) ↔ ∃ o, r = (o, None) ∧ k o = (obj, None).
Proof. destruct r as [o [e|]]; simpl; naive_solver. Qed.

Lemma wrapErr_ok prefix r obj : wrapErr prefix r = (obj, None) ↔ r = (obj, None).
Proof. destruct r as [o [e|]]; unfold wrapErr; simpl; naive_solver. Qed.

Lemma sat_spec d obj obj' s : pe_Spec obj = pe_Spec obj' → sat d obj s = sat d obj' s.
Proof.
  intros Hs.
  assert (∀ img wl, matchers obj img wl = matchers obj' img wl) as Hm.
  { intros img wl. unfold matchers, evaluateGuestMatch, evaluateWorkloadLabelsMatch,
      evaluateImageNameMatch, evaluateImageLabelsMatch, pe_Guest. by rewrite Hs. }
  induction s as [op nested img wl IH] using MatchSpec_nested_ind. cbn [sat].
  assert (existsb (sat d obj) nested = existsb (sat d obj') nested ∧
          forallb (sat d obj) nested = forallb (sat d obj') nested) as [He Hf].
  { induction IH as [|s l Hs' Hl [IH1 IH2]]; [done|]. simpl. by rewrite Hs', IH1, IH2. }
  by rewrite Hm, He, Hf.
Qed.

Lemma satisfied_spec obj obj' p : pe_Spec obj = pe_Spec obj' → satisfied obj p ↔ satisfied obj' p.
Proof.
  intros Hs. unfold satisfied. destruct (GetPolicyMatch p); simpl; [|done].
  by rewrite (sat_spec false obj obj').
Qed.

Lemma matchesPolicy_satisfied obj p b :
  matchesPolicy obj (GetPolicyMatch p) = inr b → (b = true ↔ satisfied obj p).
Proof.
  unfold matchesPolicy, satisfied. destruct (GetPolicyMatch p) as [s|]; simpl.
  - by intros ->%(evaluate_sat false).
  - by intros [= <-].
Qed.

Lemma matchesPolicy_ok obj p :
  policy_ok p → ∃ b, matchesPolicy obj (GetPolicyMatch p) = inr b ∧ (b = true ↔ satisfied obj p).
Proof using All.
  intros Hok. assert (∃ b, matchesPolicy obj (GetPolicyMatch p) = inr b) as [b Hb].
  { unfold policy_ok, matchesPolicy in *. destruct (GetPolicyMatch p); simpl in *; [|eauto].
    by apply spec_ok_returns. }
  exists b. split; [done|]. by apply matchesPolicy_satisfied.
Qed.

(** Only the recorded policies change while they are collected. *)
Definition collected obj (l : list PolicyEvaluationResult) : PolicyEvaluation := set_pe_Policies l obj.

Lemma PE_Policies_set obj l : PE_Policies (set_pe_Policies l obj) = l.
Proof. done. Qed.

Lemma collected_id obj : collected obj (PE_Policies obj) = obj.
Proof. by destruct obj as [??????[]]. Qed.

Lemma Recorded_iff w ns (C C' : string → matchablePolicy → Prop) l :
  (∀ kind p, C kind p ↔ C' kind p) → Recorded w ns C l → Recorded w ns C' l.
Proof.
  intros HC [Hnd Hs Hc]. split; [done|..].
  - intros r (kind & p & ? & ?)%Hs. exists kind, p. by rewrite <-HC.
  - intros kind p ?%HC. by apply Hc.
Qed.

(** [obj'] is [obj] with the candidates [C] recorded on top. *)
Definition Extends (w : W) (C : string → matchablePolicy → Prop) obj obj' : Prop :=
  obj' = collected obj (PE_Policies obj') ∧
  ∀ C0, Recorded w (pe_Namespace obj) C0 (PE_Policies obj) →
    Recorded w (pe_Namespace obj) (λ kind p, C0 kind p ∨ C kind p) (PE_Policies obj').

Lemma Extends_spec w C obj obj' :
  Extends w C obj obj' → pe_Spec obj' = pe_Spec obj ∧ pe_Namespace obj' = pe_Namespace obj.
Proof. by intros [-> _]. Qed.

Lemma Extends_refl w (C : string → matchablePolicy → Prop) obj :
  (∀ kind p, ¬ C kind p) → Extends w C obj obj.
Proof.
  intros HC. split; [by rewrite collected_id|]. intros C0.
  apply Recorded_iff. intros kind p. specialize (HC kind p). tauto.
Qed.

Lemma Extends_trans w C1 C2 obj1 obj2 obj3 :
  Extends w C1 obj1 obj2 → Extends w C2 obj2 obj3 →
  Extends w (λ kind p, C1 kind p ∨ C2 kind p) obj1 obj3.
Proof.
  intros [H1 Hr1] [H2 Hr2]. split.
  - rewrite H2 at 1. by rewrite H1.
  - intros C0 HC0%Hr1. rewrite H1 in Hr2. apply Hr2 in HC0.
    eapply Recorded_iff, HC0. simpl. tauto.
Qed.

Lemma Extends_iff w (C C' : string → matchablePolicy → Prop) obj obj' :
  (∀ kind p, C kind p ↔ C' kind p) → Extends w C obj obj' → Extends w C' obj obj'.
Proof.
  intros HC [He Hr]. split; [done|]. intros C0 H0'%Hr.
  eapply Recorded_iff, H0'. intros kind p. simpl. by rewrite HC.
Qed.

Lemma already_recorded obj kind p :
  existsb (λ res, bool_decide (per_Name res = GetName p) && bool_decide (per_Kind res = kind))
    (PE_Policies obj) = true ↔ (kind, GetName p) ∈ result_key <$> PE_Policies obj.
Proof.
  rewrite existsb_exists, list_elem_of_fmap. unfold result_key. split.
  - intros (r & Hr & Hb). bool_to_prop. exists r. rewrite list_elem_of_In. split; [|done]. congruence.
  - intros (r & Hk & Hr). injection Hk as -> ->. exists r. rewrite <-list_elem_of_In. split; [done|].
    rewrite !bool_decide_true by done. done.
Qed.

Lemma addPolicyResult_extends w obj kind p obj' :
  addPolicyResult w obj kind p = (obj', None) →
  Extends w (λ k q, k = kind ∧ q = p) obj obj'.
Proof.
  unfold addPolicyResult. destruct (existsb _ _) eqn:Ex.
  - intros [= <-]. apply already_recorded in Ex. split; [by rewrite collected_id|].
    intros C0 [Hnd Hs Hc]. split; [done|..].
    + intros r (k & q & ? & ?)%Hs. exists k, q. auto.
    + intros k q [?|[-> ->]]; auto.
  - destruct (resolvePolicyTags _ _ _) as [e|tags] eqn:Ht; [done|]. intros [= <-].
    split; [done|]. intros C0 [Hnd Hs Hc]. rewrite PE_Policies_set.
    assert ((kind, GetName p) ∉ result_key <$> PE_Policies obj) as Hn.
    { intros Hin. apply already_recorded in Hin. congruence. }
    split; rewrite ?fmap_app.
    + apply NoDup_app. split_and!; [done| |apply NoDup_singleton].
      intros x Hx ->%list_elem_of_singleton. by apply Hn.
    + intros r Hr. apply elem_of_app in Hr as [Hr|Hr]; [|apply list_elem_of_singleton in Hr as ->].
      * apply Hs in Hr as (k & q & ? & ?). exists k, q. auto.
      * exists kind, p. split; [auto|]. exists tags. done.
    + intros k q [Hq|[-> ->]]; apply elem_of_app; [left; auto|right]. set_solver.
Qed.

Lemma processMandatory_extends w kind l obj obj' :
  processMandatoryPolicies w obj kind l = (obj', None) →
  Extends w (λ k p, k = kind ∧ p ∈ l ∧ Mandatory p ∧ satisfied obj p) obj obj'.
Proof.
  revert obj. induction l as [|p l IH]; intros obj; simpl.
  { intros [= <-]. apply Extends_refl. set_solver. }
  case_bool_decide as Hm.
  { intros Hx. eapply Extends_iff, IH, Hx. intros k q. set_solver. }
  destruct (matchesPolicy obj (GetPolicyMatch p)) as [e|b] eqn:Hb; [done|].
  apply matchesPolicy_satisfied in Hb. destruct b.
  - destruct (addPolicyResult w obj kind p) as [o [e|]] eqn:Ha; [done|]. intros Hx.
    apply addPolicyResult_extends in Ha. apply IH in Hx.
    pose proof (Extends_spec _ _ _ _ Ha) as [Hsp _].
    eapply Extends_iff, (Extends_trans _ _ _ _ _ _ Ha Hx). intros k q. simpl.
    rewrite (satisfied_spec o obj) by done.
    rewrite elem_of_cons. unfold Mandatory. naive_solver.
  - intros Hx. eapply Extends_iff, IH, Hx. intros k q. simpl. rewrite elem_of_cons. naive_solver.
Qed.

(** The four listings are one function of the kind and what was listed. *)
Definition mandatory_of (w : W) obj (src : string * (string + list matchablePolicy)) :
    PolicyEvaluation * option string :=
  match src.2 with
  | inl e => (obj, Some e)
  | inr l => processMandatoryPolicies w obj src.1 l
  end.

Fixpoint mandatory_all (w : W) obj (srcs : list (string * (string + list matchablePolicy))) :
    PolicyEvaluation * option string :=
  match srcs with
  | [] => (obj, None)
  | src :: rest => then_ (mandatory_of w obj src) (λ obj, mandatory_all w obj rest)
  end.

Lemma mandatory_all_extends w srcs obj obj' :
  mandatory_all w obj srcs = (obj', None) →
  Extends w (λ k p, ∃ l, (k, inr l) ∈ srcs ∧ p ∈ l ∧ Mandatory p ∧ satisfied obj p) obj obj'.
Proof.
  revert obj. induction srcs as [|[kind m] srcs IH]; intros obj; simpl.
  { intros [= <-]. apply Extends_refl. set_solver. }
  intros (o & Hm & Hx)%then_ok. unfold mandatory_of in Hm. simpl in Hm.
  destruct m as [e|l]; [done|]. apply processMandatory_extends in Hm. apply IH in Hx.
  pose proof (Extends_spec _ _ _ _ Hm) as [Hsp _].
  eapply Extends_iff, (Extends_trans _ _ _ _ _ _ Hm Hx). intros k q. simpl.
  setoid_rewrite (satisfied_spec o obj); [|done]. setoid_rewrite elem_of_cons. naive_solver.
Qed.

Lemma mandatory_of_namespace w obj src o :
  mandatory_of w obj src = (o, None) → pe_Namespace o = pe_Namespace obj.
Proof.
  unfold mandatory_of. destruct src as [kind [e|l]]; simpl; [done|].
  intros Hm%processMandatory_extends. by apply Extends_spec in Hm as [].
Qed.

Lemma mandatory_kinds w obj :
  let ns := pe_Namespace obj in
  let same (r r' : PolicyEvaluation * option string) := ∀ o, r = (o, None) ↔ r' = (o, None) in
  same (reconcileMandatoryComputePolicies w obj)
       (mandatory_of w obj (computePolicyKind, inr_map toMatchablePolicies (ListComputePolicies ns w))) ∧
  same (reconcileMandatoryAutomaticVMEvictionPolicies w obj)
       (mandatory_of w obj (automaticVMEvictionPolicyKind,
          inr_map toMatchablePolicies (ListAutomaticVMEvictionPolicies ns w))) ∧
  same (reconcileMandatoryBestEffortRestartPolicies w obj)
       (mandatory_of w obj (bestEffortRestartPolicyKind,
          inr_map toMatchablePolicies (ListBestEffortRestartPolicies ns w))) ∧
  same (reconcileMandatoryControlledRebalancingPolicies w obj)
       (mandatory_of w obj (controlledRebalancingPolicyKind,
          inr_map toMatchablePolicies (ListControlledRebalancingPolicies ns w))).
Proof.
  unfold reconcileMandatoryComputePolicies, reconcileMandatoryAutomaticVMEvictionPolicies,
    reconcileMandatoryBestEffortRestartPolicies, reconcileMandatoryControlledRebalancingPolicies,
    mandatory_of.
  split_and!; intros o; simpl.
  - by destruct (ListComputePolicies _ _).
  - by destruct (ListAutomaticVMEvictionPolicies _ _).
  - by destruct (ListBestEffortRestartPolicies _ _).
  - by destruct (ListControlledRebalancingPolicies _ _).
Qed.

Lemma mandatory_ok_all ft w obj o :
  reconcileMandatoryPolicies ft w obj = (o, None) ↔
  mandatory_all w obj (listed ft (pe_Namespace obj) w) = (o, None).
Proof.
  unfold reconcileMandatoryPolicies, listed. cbn [mandatory_all app]. rewrite !then_ok.
  setoid_rewrite wrapErr_ok. apply exist_proper. intros o1.
  rewrite (proj1 (mandatory_kinds w obj)). apply and_iff_cond. intros Hn1%mandatory_of_namespace.
  destruct (mandatory_kinds w o1) as (_ & He & _ & Hr1).
  assert (∀ o2, pe_Namespace o2 = pe_Namespace obj →
    (if ControlledRebalancing ft
     then wrapErr "failed to reconcile mandatory controlled rebalancing policies: "
            (reconcileMandatoryControlledRebalancingPolicies w o2) else (o2, None)) = (o, None) ↔
    mandatory_all w o2 (if ControlledRebalancing ft then
      [(controlledRebalancingPolicyKind,
        inr_map toMatchablePolicies (ListControlledRebalancingPolicies (pe_Namespace obj) w))]
      else []) = (o, None)) as Hlast.
  { intros o2 <-. destruct (mandatory_kinds w o2) as (_ & _ & _ & Hr).
    destruct (ControlledRebalancing ft); simpl; [|done]. rewrite wrapErr_ok, Hr, then_ok. naive_solver. }
  rewrite then_ok. destruct (VMEviction ft); simpl.
  - rewrite then_ok. setoid_rewrite then_ok. setoid_rewrite wrapErr_ok. rewrite <-Hn1.
    split.
    + intros (o2 & (o3 & Ha & Hb) & Hc). apply He in Ha as Ha'.
      pose proof (mandatory_of_namespace _ _ _ _ Ha') as Hn3.
      apply mandatory_kinds in Hb as Hb'. pose proof (mandatory_of_namespace _ _ _ _ Hb') as Hn2.
      exists o3. split; [done|]. exists o2. rewrite Hn3 in Hb'. split; [done|].
      rewrite Hn1. apply Hlast; [congruence|done].
    + intros (o3 & Ha & o2 & Hb & Hc).
      pose proof (mandatory_of_namespace _ _ _ _ Ha) as Hn3.
      pose proof (mandatory_of_namespace _ _ _ _ Hb) as Hn2.
      exists o2. rewrite <-Hn3 in Hb. apply He in Ha. apply mandatory_kinds in Hb.
      split; [by exists o3|]. rewrite Hn1 in Hc. apply Hlast; [congruence|done].
  - split.
    + intros (o2 & [= <-] & Hc). by apply Hlast.
    + intros Hc. exists o1. split; [done|]. by apply Hlast.
Qed.

(** ** References *)

Lemma addExplicit_extends w obj kind p obj' :
  addExplicitPolicyMatch w obj kind p = (obj', None) →
  satisfied obj p ∧ Extends w (λ k q, k = kind ∧ q = p) obj obj'.
Proof.
  unfold addExplicitPolicyMatch. destruct (matchesPolicy obj _) as [e|b] eqn:Hb; [done|].
  apply matchesPolicy_satisfied in Hb. destruct b; [|done].
  intros Ha%addPolicyResult_extends. split; [by apply Hb|done].
Qed.

(** One round of the loop, by what the reference resolves to. *)
Definition explicit_of (w : W) obj (ref : LocalObjectRef) (m : option (string + matchablePolicy)) :
    PolicyEvaluation * option string :=
  match m with
  | None => (obj, None)
  | Some (inl e) => (obj, Some e)
  | Some (inr p) => addExplicitPolicyMatch w obj (ref_Kind ref) p
  end.

Lemma explicit_ok ft w obj ref o :
  reconcileExplicitPolicy ft w obj ref = (o, None) ↔
  explicit_of w obj ref (referenced ft (pe_Namespace obj) w ref) = (o, None).
Proof.
  unfold reconcileExplicitPolicy, referenced, addComputePolicyRef, addAutomaticVMEvictionPolicyRef,
    addBestEffortRestartPolicyRef, addControlledRebalancingPolicyRef.
  case_bool_decide as Hk1.
  { rewrite wrapErr_ok, <-Hk1. by destruct (GetComputePolicy _ _ _). }
  case_bool_decide as Hk2.
  { destruct (VMEviction ft); [|done]. rewrite wrapErr_ok, <-Hk2.
    by destruct (GetAutomaticVMEvictionPolicy _ _ _). }
  case_bool_decide as Hk3.
  { destruct (VMEviction ft); [|done]. rewrite wrapErr_ok, <-Hk3.
    by destruct (GetBestEffortRestartPolicy _ _ _). }
  case_bool_decide as Hk4; [|done].
  destruct (ControlledRebalancing ft); [|done]. rewrite wrapErr_ok, <-Hk4.
  by destruct (GetControlledRebalancingPolicy _ _ _).
Qed.

Lemma referenced_name ft ns w ref p :
  referenced ft ns w ref = Some (inr p) → GetName p = ref_Name ref.
Proof.
  unfold referenced, inr_map. intros Hr. repeat case_match; simplify_eq/=;
    eauto using GetComputePolicy_name, GetAutomaticVMEvictionPolicy_name,
      GetBestEffortRestartPolicy_name, GetControlledRebalancingPolicy_name.
Qed.

Definition explicit_candidates ft w obj (refs : list LocalObjectRef) kind p : Prop :=
  ∃ ref, ref ∈ refs ∧ kind = ref_Kind ref ∧
         referenced ft (pe_Namespace obj) w ref = Some (inr p) ∧ satisfied obj p.

Lemma explicitLoop_extends ft w refs obj obj' :
  explicitLoop ft w obj refs = (obj', None) →
  Extends w (explicit_candidates ft w obj refs) obj obj' ∧
  ∀ ref m, ref ∈ refs → referenced ft (pe_Namespace obj) w ref = Some m →
    ∃ p, m = inr p ∧ satisfied obj p.
Proof.
  revert obj. induction refs as [|ref refs IH]; intros obj; simpl.
  { intros [= <-]. split; [|set_solver]. apply Extends_refl. unfold explicit_candidates. set_solver. }
  intros (o & Ho & Hx)%then_ok. apply explicit_ok in Ho. apply IH in Hx as [Hx Hrefs].
  assert (∃ C, Extends w C obj o ∧
    (∀ k q, C k q ↔ k = ref_Kind ref ∧ referenced ft (pe_Namespace obj) w ref = Some (inr q) ∧
                    satisfied obj q) ∧
    ∀ m, referenced ft (pe_Namespace obj) w ref = Some m → ∃ p, m = inr p ∧ satisfied obj p)
    as (C & HC & HCe & Href).
  { unfold explicit_of in Ho. destruct (referenced ft _ w ref) as [[e|p]|]; [done|..].
    - apply addExplicit_extends in Ho as [Hs Ho]. eexists. split; [done|].
      split; [intros; simpl; naive_solver|]. intros m [= <-]. eauto.
    - injection Ho as <-. exists (λ _ _, False). split; [apply Extends_refl; tauto|].
      split; [naive_solver|done]. }
  pose proof (Extends_spec _ _ _ _ HC) as [Hsp Hns]. split.
  - eapply Extends_iff, (Extends_trans _ _ _ _ _ _ HC Hx). intros k q.
    unfold explicit_candidates. rewrite HCe, Hns. setoid_rewrite (satisfied_spec o obj); [|done].
    setoid_rewrite elem_of_cons. naive_solver.
  - intros ref' m [->|Hin]%elem_of_cons Hm; [by apply Href|].
    rewrite <-Hns in Hm. destruct (Hrefs ref' m Hin Hm) as (p & -> & Hp).
    exists p. split; [done|]. by apply (satisfied_spec o obj).
Qed.

(** ** The reconciler *)

Definition pe_ready obj : option Condition := Get (pe_GetConditions obj) ReadyConditionType.

(** What happens between the finalizer and the condition. *)
Definition evaluated ft w obj : PolicyEvaluation * option string :=
  then_ (reconcileMandatoryPolicies ft w (set_pe_Policies [] obj)) (reconcileExplicitPolicies ft w).

Lemma Recorded_nil w ns : Recorded w ns (λ _ _, False) [].
Proof. split; [apply NoDup_nil_2|set_solver|done]. Qed.

Lemma evaluated_recorded ft w obj obj' :
  evaluated ft w obj = (obj', None) →
  obj' = collected obj (PE_Policies obj') ∧
  Recorded w (pe_Namespace obj) (Applies ft w obj) (PE_Policies obj') ∧
  ∀ ref m, ref ∈ pes_Policies (pe_Spec obj) → referenced ft (pe_Namespace obj) w ref = Some m →
    ∃ p, m = inr p ∧ satisfied obj p.
Proof.
  intros (o & Hm & Hx)%then_ok. apply mandatory_ok_all, mandatory_all_extends in Hm.
  apply explicitLoop_extends in Hx as [Hx Hrefs].
  pose proof (Extends_spec _ _ _ _ Hm) as [Hsp Hns]. simpl in Hsp, Hns.
  pose proof (Extends_trans _ _ _ _ _ _ Hm Hx) as [He Hrec].
  split; [by rewrite He|]. split.
  - eapply Recorded_iff, Hrec, Recorded_nil. intros k p. unfold explicit_candidates. simpl.
    rewrite Hsp, Hns. setoid_rewrite (satisfied_spec o obj); [|done].
    setoid_rewrite (satisfied_spec (set_pe_Policies [] obj) obj); [|done]. split.
    + intros [[]|[(l & ? & ? & ? & ?)|(ref & ? & -> & ? & ?)]]; by econstructor.
    + intros []; right; [left|right]; eauto 10.
  - intros ref m Hin Hr. rewrite <-Hns in Hr. rewrite <-Hsp in Hin.
    destruct (Hrefs ref m Hin Hr) as (p & -> & Hp). exists p. split; [done|].
    by apply (satisfied_spec o obj).
Qed.

(** Whether they succeed or not, the steps touch nothing but the recorded
    policies. *)
Definition Framed obj (r : PolicyEvaluation * option string) : Prop :=
  ∃ l, r.1 = collected obj l.

Lemma Framed_refl obj e : Framed obj (obj, e).
Proof. exists (PE_Policies obj). by rewrite collected_id. Qed.

Lemma Framed_then obj r k : Framed obj r → (∀ o, Framed o (k o)) → Framed obj (then_ r k).
Proof.
  intros [l Hl] Hk. destruct r as [o [e|]]; unfold then_; [by exists l|].
  destruct (Hk o) as [l' Hl']. simpl in Hl. exists l'. by rewrite Hl', Hl.
Qed.

Lemma Framed_wrap obj prefix r : Framed obj r → Framed obj (wrapErr prefix r).
Proof. done. Qed.

Lemma addPolicyResult_framed w obj kind p : Framed obj (addPolicyResult w obj kind p).
Proof.
  unfold addPolicyResult. destruct (existsb _ _); [apply Framed_refl|].
  destruct (resolvePolicyTags _ _ _); [apply Framed_refl|]. by eexists.
Qed.

Lemma addExplicit_framed w obj kind p : Framed obj (addExplicitPolicyMatch w obj kind p).
Proof.
  unfold addExplicitPolicyMatch.
  destruct (matchesPolicy _ _) as [|[]]; auto using Framed_refl, addPolicyResult_framed.
Qed.

Lemma processMandatory_framed w kind l obj : Framed obj (processMandatoryPolicies w obj kind l).
Proof.
  revert obj. induction l as [|p l IH]; intros obj; simpl; [apply Framed_refl|].
  case_bool_decide; [done|]. destruct (matchesPolicy _ _) as [|[]]; [apply Framed_refl| |done].
  change (Framed obj (then_ (addPolicyResult w obj kind p)
    (λ o, processMandatoryPolicies w o kind l))).
  apply Framed_then; [apply addPolicyResult_framed|done].
Qed.

Lemma evaluated_framed ft w obj : Framed obj (evaluated ft w obj).
Proof.
  unfold evaluated. apply Framed_then.
  { enough (∀ o, Framed o (reconcileMandatoryPolicies ft w o)) as Hm.
    { destruct (Hm (set_pe_Policies [] obj)) as [l Hl]. by exists l. }
    intros o. unfold reconcileMandatoryPolicies, reconcileMandatoryComputePolicies,
      reconcileMandatoryAutomaticVMEvictionPolicies, reconcileMandatoryBestEffortRestartPolicies,
      reconcileMandatoryControlledRebalancingPolicies.
    repeat first [apply Framed_then; intros | apply Framed_wrap | apply Framed_refl
      | apply processMandatory_framed | case_match]. }
  intros o. unfold reconcileExplicitPolicies. generalize (pes_Policies (pe_Spec o)). intros refs.
  revert o. induction refs as [|ref refs IH]; intros o; simpl; [apply Framed_refl|].
  apply Framed_then; [|done].
  unfold reconcileExplicitPolicy, addComputePolicyRef, addAutomaticVMEvictionPolicyRef,
    addBestEffortRestartPolicyRef, addControlledRebalancingPolicyRef.
  repeat first [apply Framed_wrap | apply Framed_refl | apply addExplicit_framed | case_match].
Qed.

Lemma normal_unfold ft w obj :
  PolicyFinalizer ∈ pe_Finalizers obj →
  (∃ obj1, evaluated ft w obj = (obj1, None) ∧
     pol_ReconcileNormal ft w obj =
       (pe_SetConditions (set_pe_ObservedGeneration (pe_Generation obj1) obj1)
          (MarkTrue (pol_Now w) (pe_GetConditions obj1) ReadyConditionType), None)) ∨
  (∃ obj1 e reason, evaluated ft w obj = (obj1, Some e) ∧
     (reason = mandatoryPoliciesReconcileFailedReason ∨
      reason = explicitPoliciesReconcileFailedReason) ∧
     pol_ReconcileNormal ft w obj = (MarkReadyError w obj1 reason e, Some e)).
Proof.
  intros Hf. unfold pol_ReconcileNormal, evaluated. rewrite pol_AddFinalizer_spec.
  rewrite bool_decide_true by done. simpl.
  replace (set_pe_Finalizers (pe_Finalizers obj) obj) with obj by by destruct obj.
  destruct (reconcileMandatoryPolicies ft w _) as [o [e|]]; unfold then_.
  - right. exists o, e, mandatoryPoliciesReconcileFailedReason. auto.
  - destruct (reconcileExplicitPolicies ft w o) as [o1 [e|]].
    + right. exists o1, e, explicitPoliciesReconcileFailedReason. auto.
    + left. exists o1. auto.
Qed.


(** When the evaluation fails the Ready condition is false with the error as
    its message and a reason that tells whether mandatory or referenced
    policies failed; the observed generation, the spec and the other conditions
    stay as they were. *)
Theorem failed_evaluation_reported ft w obj obj' e :
  PolicyFinalizer ∈ pe_Finalizers obj → NoDup (c_Type <$> pe_GetConditions obj) →
  pol_ReconcileNormal ft w obj = (obj', Some e) →
  IsFalse (pe_GetConditions obj') ReadyConditionType = true ∧
  GetMessage (pe_GetConditions obj') ReadyConditionType = e ∧
  (GetReason (pe_GetConditions obj') ReadyConditionType = mandatoryPoliciesReconcileFailedReason ∨
   GetReason (pe_GetConditions obj') ReadyConditionType = explicitPoliciesReconcileFailedReason) ∧
  pest_ObservedGeneration (pe_Status obj') = pest_ObservedGeneration (pe_Status obj) ∧
  pe_Spec obj' = pe_Spec obj ∧
  (∀ t, t ≠ ReadyConditionType → Get (pe_GetConditions obj') t = Get (pe_GetConditions obj) t).
Proof.
  intros Hf Hnd Hr. destruct (normal_unfold ft w obj Hf) as [(o & _ & Hn)|(o & e' & r & He & Hreason & Hn)];
    rewrite Hn in Hr; [done|]. injection Hr as <- <-.
  destruct (evaluated_framed ft w obj) as [l Hl]. rewrite He in Hl. simpl in Hl. subst o.
  unfold IsFalse, GetMessage, GetReason, MarkReadyError, MarkError.
  cbn [pe_GetConditions pe_SetConditions set_pe_Status pe_Status pest_Conditions
       pest_ObservedGeneration pe_Spec collected set_pe_Policies].
  destruct (Set_Get_same (pol_Now w) (pe_GetConditions obj) (FalseCondition ReadyConditionType r e'))
    as (c & Hg & Hs); [done|].
  change (c_Type (FalseCondition ReadyConditionType r e')) with ReadyConditionType in Hg.
  unfold pe_GetConditions in Hg. rewrite Hg. apply hasSameState_spec in Hs as (_ & Hst & Hre & Hms).
  split_and!; [by rewrite Hst|done| |done|done|].
  - rewrite Hre. simpl. destruct Hreason as [->| ->]; auto.
  - intros t Ht. by apply Set_Get_other.
Qed.

(** ** When the evaluation succeeds *)

Definition tags_resolve (w : W) ns p : Prop := returns (resolvePolicyTags ns (GetPolicyTagNames p) w).

(** Every kind can be listed, what applies can be recorded, and the references
    resolve to policies that match. *)
Record Evaluable ft w obj : Prop := {
  evaluable_listed kind m : (kind, m) ∈ listed ft (pe_Namespace obj) w →
    ∃ l, m = inr l ∧
    ∀ p, p ∈ l → Mandatory p →
      policy_ok p ∧ (satisfied obj p → tags_resolve w (pe_Namespace obj) p);
  evaluable_referenced ref m : ref ∈ pes_Policies (pe_Spec obj) →
    referenced ft (pe_Namespace obj) w ref = Some m →
    ∃ p, m = inr p ∧ policy_ok p ∧ satisfied obj p ∧ tags_resolve w (pe_Namespace obj) p
}.

Lemma addPolicyResult_succeeds w obj kind p :
  tags_resolve w (pe_Namespace obj) p → ∃ o, addPolicyResult w obj kind p = (o, None).
Proof.
  intros [tags Ht]. unfold addPolicyResult. rewrite Ht. destruct (existsb _ _); by eexists.
Qed.

Lemma processMandatory_succeeds w kind l obj :
  (∀ p, p ∈ l → Mandatory p → policy_ok p ∧ (satisfied obj p → tags_resolve w (pe_Namespace obj) p)) →
  ∃ o, processMandatoryPolicies w obj kind l = (o, None).
Proof.
  revert obj. induction l as [|p l IH]; intros obj Hl; simpl; [by eexists|].
  case_bool_decide as Hm; [apply IH; set_solver|].
  destruct (Hl p) as [Hok Ht]; [set_solver|done|].
  destruct (matchesPolicy_ok obj p Hok) as (b & -> & Hb). destruct b; [|apply IH; set_solver].
  destruct (addPolicyResult_succeeds w obj kind p) as [o Ho]; [by apply Ht, Hb|]. rewrite Ho.
  apply addPolicyResult_extends, Extends_spec in Ho as [Hsp Hns].
  apply IH. intros q Hq Hmq. rewrite (satisfied_spec o obj), Hns by done. apply Hl; [set_solver|done].
Qed.

Lemma mandatory_all_succeeds w srcs obj :
  (∀ kind m, (kind, m) ∈ srcs → ∃ l, m = inr l ∧ ∀ p, p ∈ l → Mandatory p →
     policy_ok p ∧ (satisfied obj p → tags_resolve w (pe_Namespace obj) p)) →
  ∃ o, mandatory_all w obj srcs = (o, None).
Proof.
  revert obj. induction srcs as [|[kind m] srcs IH]; intros obj Hs; simpl; [by eexists|].
  destruct (Hs kind m) as (l & -> & Hl); [set_solver|]. unfold mandatory_of at 1. simpl.
  destruct (processMandatory_succeeds w kind l obj Hl) as [o Ho]. rewrite Ho. unfold then_.
  apply processMandatory_extends, Extends_spec in Ho as [Hsp Hns].
  apply IH. intros k' m' Hin. destruct (Hs k' m') as (l' & -> & Hl'); [set_solver|].
  exists l'. split; [done|]. intros q. rewrite (satisfied_spec o obj), Hns by done. apply Hl'.
Qed.

Lemma explicitLoop_succeeds ft w refs obj :
  (∀ ref m, ref ∈ refs → referenced ft (pe_Namespace obj) w ref = Some m →
     ∃ p, m = inr p ∧ policy_ok p ∧ satisfied obj p ∧ tags_resolve w (pe_Namespace obj) p) →
  ∃ o, explicitLoop ft w obj refs = (o, None).
Proof.
  revert obj. induction refs as [|ref refs IH]; intros obj Hs; simpl; [by eexists|].
  assert (∃ o, reconcileExplicitPolicy ft w obj ref = (o, None)) as [o Ho].
  { setoid_rewrite explicit_ok. unfold explicit_of.
    destruct (referenced ft (pe_Namespace obj) w ref) as [m|] eqn:Hr; [|by eexists].
    destruct (Hs ref m) as (p & -> & Hok & Hsat & Ht); [set_solver|done|].
    unfold addExplicitPolicyMatch. destruct (matchesPolicy_ok obj p Hok) as (b & -> & Hb).
    rewrite (proj2 Hb) by done. by apply addPolicyResult_succeeds. }
  rewrite Ho. unfold then_. assert (explicitLoop ft w obj [ref] = (o, None)) as Hone
    by (simpl; by rewrite Ho).
  apply explicitLoop_extends in Hone as [[Hsp Hns]%Extends_spec _].
  apply IH. intros r m Hin Hr. rewrite Hns in Hr. rewrite Hns.
  destruct (Hs r m) as (p & ? & ? & ? & ?); [set_solver|done|]. exists p.
  split_and!; try done. by apply (satisfied_spec o obj).
Qed.

(** The evaluation succeeds whenever the policies of every enabled kind can
    be listed, the specifications of the mandatory ones can be evaluated, the
    references of enabled kinds resolve to policies that match, and the tag
    policies of what applies exist. *)
Theorem evaluation_succeeds ft w obj :
  PolicyFinalizer ∈ pe_Finalizers obj → Evaluable ft w obj →
  ∃ obj', pol_ReconcileNormal ft w obj = (obj', None).
Proof.
  intros Hf [Hl Hr].
  assert (∃ o, evaluated ft w obj = (o, None)) as [o Ho].
  { unfold evaluated. setoid_rewrite then_ok. setoid_rewrite mandatory_ok_all.
    destruct (mandatory_all_succeeds w (listed ft (pe_Namespace obj) w) (set_pe_Policies [] obj))
      as [o Ho].
    { intros kind m Hin. destruct (Hl kind m Hin) as (l & -> & Hall). exists l. split; [done|].
      intros p. rewrite (satisfied_spec (set_pe_Policies [] obj) obj) by done. apply Hall. }
    pose proof (mandatory_all_extends _ _ _ _ Ho) as [Hsp Hns]%Extends_spec. simpl in Hsp, Hns.
    destruct (explicitLoop_succeeds ft w (pes_Policies (pe_Spec o)) o) as [o' Ho'].
    { intros ref m. rewrite Hsp, Hns. intros Hin Hm. destruct (Hr ref m Hin Hm) as (p & ? & ? & ? & ?).
      exists p. split_and!; try done. by apply (satisfied_spec o obj). }
    by exists o', o. }
  destruct (normal_unfold ft w obj Hf) as [(o1 & _ & Hn)|(o1 & e & r & He & _)]; [by eexists|].
  congruence.
Qed.

End Results.

(** ** A simulated API server *)

Module PolicySim.
Local Open Scope string_scope.

Record World := mkWorld {
  compute : list (string * ComputePolicy);
  eviction : list (string * AutomaticVMEvictionPolicy);
  restart : list (string * BestEffortRestartPolicy);
  rebalancing : list (string * ControlledRebalancingPolicy);
  tagPolicies : list (string * TagPolicy);
  evaluations : list PolicyEvaluation
}.

Definition in_namespace {A} (ns : string) (l : list (string * A)) : list A :=
  snd <$> filter (λ x, x.1 = ns) l.

Definition get_named {A} (name : A → string) (ns n : string) (l : list (string * A)) : string + A :=
  match filter (λ x, name x = n) (in_namespace ns l) with
  | x :: _ => inr x
  | [] => inl ("not found: " +:+ n)%string
  end.

Lemma get_named_name {A} (name : A → string) ns n l x : get_named name ns n l = inr x → name x = n.
Proof.
  unfold get_named. destruct (filter _ _) as [|y l'] eqn:Hf; [done|]. intros [= <-].
  assert (y ∈ filter (λ x, name x = n) (in_namespace ns l)) as Hy by (rewrite Hf; set_solver).
  by apply list_elem_of_filter in Hy as [].
Qed.

Definition requirement_holds (labels : gmap string string) (r : LabelSelectorRequirement) : bool :=
  if bool_decide (lsr_Operator r = "In")
  then match labels !! lsr_Key r with Some v => bool_decide (v ∈ lsr_Values r) | None => false end
  else if bool_decide (lsr_Operator r = "NotIn")
  then match labels !! lsr_Key r with Some v => bool_decide (v ∉ lsr_Values r) | None => true end
  else if bool_decide (lsr_Operator r = "Exists") then bool_decide (is_Some (labels !! lsr_Key r))
  else bool_decide (labels !! lsr_Key r = None).

Definition known_operator (r : LabelSelectorRequirement) : bool :=
  bool_decide (lsr_Operator r ∈ ["In"; "NotIn"; "Exists"; "DoesNotExist"]%string).

(** Patterns are literals; an open parenthesis alone does not compile. *)
#[export] Instance api : PolicyAPI World := {
  pol_Now _ := 5%Z;
  Quote s := s;
  MatchString p s := if bool_decide (p = "(") then inl "missing closing )" else inr (Contains s p);
  LabelSelectorAsSelector l :=
    if forallb known_operator l then inr (λ labels, forallb (requirement_holds labels) l)
    else inl "not a valid label selector operator";
  ListComputePolicies ns w := inr (in_namespace ns (compute w));
  ListAutomaticVMEvictionPolicies ns w := inr (in_namespace ns (eviction w));
  ListBestEffortRestartPolicies ns w := inr (in_namespace ns (restart w));
  ListControlledRebalancingPolicies ns w := inr (in_namespace ns (rebalancing w));
  GetComputePolicy ns n w := get_named cp_Name ns n (compute w);
  GetAutomaticVMEvictionPolicy ns n w := get_named ep_Name ns n (eviction w);
  GetBestEffortRestartPolicy ns n w := get_named bp_Name ns n (restart w);
  GetControlledRebalancingPolicy ns n w := get_named rp_Name ns n (rebalancing w);
  GetTagPolicy ns n w := get_named tp_Name ns n (tagPolicies w);
  GetPolicyEvaluation ns n w :=
    get_named pe_Name ns n ((λ pe, (pe_Namespace pe, pe)) <$> evaluations w);
  pol_IsNotFound e := HasPrefix e "not found: ";
  pol_NewHelper _ := None;
  pol_Patch before after w :=
    (mkWorld (compute w) (eviction w) (restart w) (rebalancing w) (tagPolicies w)
       ((λ pe, if bool_decide (pe_Namespace pe = pe_Namespace before ∧ pe_Name pe = pe_Name before)
               then after else pe) <$> evaluations w), None);
  ListPolicyEvaluations ns w := inr (filter (λ pe, pe_Namespace pe = ns) (evaluations w));
  pol_AddFinalizer l f := if bool_decide (f ∈ l) then (l, false) else ((l ++ [f])%list, true);
  pol_RemoveFinalizer l f := filter (λ x, x ≠ f) l
}.

#[export] Instance laws : PolicyAPILaws World.
Proof.
  split.
  - intros p s1 s2 e1. simpl. case_bool_decide; [|done]. intros _. by eexists.
  - intros ns n w p. apply (get_named_name cp_Name).
  - intros ns n w p. apply (get_named_name ep_Name).
  - intros ns n w p. apply (get_named_name bp_Name).
  - intros ns n w p. apply (get_named_name rp_Name).
  - done.
Qed.

Definition linux : StringMatcherSpec := mkStringMatcher "HasPrefix" "ubuntu".
Definition nested_spec : MatchSpec :=
  mkMatchSpec "Or" [mkMatchSpec "" [] (Some (mkMatchImage (Some linux) [])) None;
                    mkMatchSpec "" [] (Some (mkMatchImage (Some (mkStringMatcher "Match" "(")) [])) None]
    None (Some (mkMatchWorkload None [mkRequirement "tier" "In" ["gold"]] "Pod")).

Definition gold_spec : MatchSpec :=
  mkMatchSpec "And" [mkMatchSpec "" [] (Some (mkMatchImage (Some linux) [])) None]
    None (Some (mkMatchWorkload None [mkRequirement "tier" "In" ["gold"]] "")).

Definition world : World :=
  mkWorld
    [("ns", mkComputePolicy "fast" 3 "Mandatory" (Some nested_spec) ["t1"; "t2"]);
     ("ns", mkComputePolicy "other" 1 "Optional" None ["t2"]);
     ("gold", mkComputePolicy "golden" 2 "Mandatory" (Some gold_spec) ["t1"]);
     ("elsewhere", mkComputePolicy "far" 1 "Mandatory" None [])]
    [("ns", mkAutomaticVMEvictionPolicy "evict" 1 "Mandatory" None [])] [] []
    [("ns", mkTagPolicy "t1" ["a"; "b"]); ("ns", mkTagPolicy "t2" ["c"]); ("gold", mkTagPolicy "t1" ["g"])] [].

Definition vm_eval (refs : list LocalObjectRef) : PolicyEvaluation :=
  mkPE "ns" "vm-x" 7 false [PolicyFinalizer]
    (mkPESpec (Some (mkPEImage "ubuntu-24" ∅))
       (Some (mkPEWorkload None {["tier" := "gold"]})) refs)
    (mkPEStatus 6 [mkPEResult "" "stale" "stale" 0 []] []).

Definition eval_two : PolicyEvaluation :=
  vm_eval [mkRef "" "ComputePolicy" "other"; mkRef "" "ComputePolicy" "fast";
           mkRef "" "BestEffortRestartPolicy" "ignored"].

Definition eval_missing : PolicyEvaluation := vm_eval [mkRef "" "ComputePolicy" "gone"].

(** A namespace of its own for the evaluation that succeeds. *)
Definition eval_gold : PolicyEvaluation :=
  mkPE "gold" "vm-y" 2 false [PolicyFinalizer]
    (mkPESpec (Some (mkPEImage "ubuntu-24" ∅))
       (Some (mkPEWorkload None {["tier" := "gold"]})) [mkRef "" "ComputePolicy" "golden"])
    (mkPEStatus 1 [] []).

Definition no_features : Features := mkFeatures false false.

End PolicySim.
#[local] Existing Instance PolicySim.api.
#[local] Existing Instance PolicySim.laws.



(** A reference to a policy that does not exist. *)
Lemma failed_evaluation_reported_witness :
  GetReason (pe_GetConditions (pol_ReconcileNormal PolicySim.no_features PolicySim.world
    PolicySim.eval_missing).1) ReadyConditionType = "ExplicitPoliciesReconcileFailed"%string ∧
  IsFalse (pe_GetConditions (pol_ReconcileNormal PolicySim.no_features PolicySim.world
    PolicySim.eval_missing).1) ReadyConditionType = true.
Proof.
  split; [by vm_compute|].
  apply (failed_evaluation_reported PolicySim.no_features PolicySim.world PolicySim.eval_missing _
    "failed to add explicit compute policy gone: failed to get compute policy: not found: gone").
  - by apply list_elem_of_singleton.
  - constructor.
  - by vm_compute.
Defined.

Lemma evaluation_succeeds_witness :
  ∃ obj', pol_ReconcileNormal PolicySim.no_features PolicySim.world PolicySim.eval_gold = (obj', None).
Proof.
  apply (evaluation_succeeds PolicySim.no_features PolicySim.world PolicySim.eval_gold).
  { by apply list_elem_of_singleton. }
  split.
  - intros kind m Hin. vm_compute in Hin. apply list_elem_of_singleton in Hin. simplify_eq.
    eexists. split; [done|]. intros p Hp _.
    apply list_elem_of_singleton in Hp as ->. split; [by vm_compute|]. intros _. eexists. by vm_compute.
  - intros ref m Hin Hm. apply list_elem_of_singleton in Hin as ->. vm_compute in Hm. simplify_eq.
    eexists. split; [done|]. split_and!; [by vm_compute|by vm_compute|]. eexists. by vm_compute.
Defined.
