(* ===== verification/VirtualController.v ===== *)
(** * The controller reconciler: model

    pkg/vmconfig/virtualcontroller: compares the storage controllers of a VM with
    the ones its spec asks for, by family and bus number, and appends device
    changes to the ConfigSpec that add, edit and remove controllers.

    The devices of the VM are shared with the caller and edited in place: a
    pointer to one of them is its index, and the functions return the list with
    their writes.  Go iterates maps in an unspecified order: [MapRange] is any
    enumeration of a map's entries.  The counter behind [newDeviceKey] is passed
    along; it is an int32.  [context], logging and the nil checks of arguments
    every caller passes are left out. *)

From S2P Require Import Prelude DiskController Hardware.
Local Open Scope Z_scope.
Local Open Scope go_scope.

(** ** Devices *)

(** The string types VirtualSCSISharing and VirtualNVMEControllerSharing. *)
Inductive Sharing :=
  | NoSharing
  | PhysicalSharing
  | VirtualSharing
  | OtherSharing (s : string).

#[global] Instance Sharing_eq_dec : EqDecision Sharing.
Proof. solve_decision. Defined.

(** A device with the bus sharing of SCSI and NVME controllers. *)
Record HwDevice := mkHw {
  hw_dev : VirtualDevice;
  SharedBus : Sharing
}.

#[global] Instance HwDevice_eq_dec : EqDecision HwDevice.
Proof. solve_decision. Defined.

Definition hw_kind (d : HwDevice) : DeviceKind := kind (hw_dev d).
Definition hw_Key (d : HwDevice) : Z := Key (hw_dev d).
Definition hw_BusNumber (d : HwDevice) : Z := BusNumber (hw_dev d).
Definition set_SharedBus (s : Sharing) (d : HwDevice) : HwDevice := mkHw (hw_dev d) s.

Record HwChange := mkHwChange {
  hc_Operation : DeviceOperation;
  hc_Device : option HwDevice
}.

Inductive PowerState := PoweredOff | PoweredOn | Suspended | OtherPowerState.

#[global] Instance DeviceOperation_eq_dec : EqDecision DeviceOperation.
Proof. solve_decision. Defined.
#[global] Instance PowerState_eq_dec : EqDecision PowerState.
Proof. solve_decision. Defined.

(** ** New controllers *)

(** The controller structs share the fields the constructors set. *)
Definition controller_device (k : DeviceKind) (pciControllerKey key busNumber : Z) : VirtualDevice :=
  mkDevice k key pciControllerKey None busNumber.

Definition NewIDEController (spec : IDEControllerSpec) (pciControllerKey newDeviceKey : Z) :
    Z * HwDevice :=
  let newDeviceKey := wrap32 (newDeviceKey - 1) in
  (newDeviceKey,
   mkHw (controller_device VirtualIDEController pciControllerKey newDeviceKey (ide_BusNumber spec))
     NoSharing).

Definition validateNVMEController (spec : NVMEControllerSpec) : bool :=
  match nvme_SharingMode spec with
  | VirtualControllerSharingModeNone | VirtualControllerSharingModePhysical => true
  | _ => false
  end.

Definition sharingModeToSCSIVimTypes (sharingMode : VirtualControllerSharingMode) : Sharing :=
  match sharingMode with
  | VirtualControllerSharingModeNone => NoSharing
  | VirtualControllerSharingModePhysical => PhysicalSharing
  | VirtualControllerSharingModeVirtual => VirtualSharing
  | _ => NoSharing
  end.

Definition sharingModeToNVMEControllerSharing (sharingMode : VirtualControllerSharingMode) : Sharing :=
  match sharingMode with
  | VirtualControllerSharingModeNone => NoSharing
  | VirtualControllerSharingModePhysical => PhysicalSharing
  | _ => NoSharing
  end.

Definition NewNVMEController (spec : NVMEControllerSpec) (pciControllerKey newDeviceKey : Z) :
    Z * HwDevice :=
  let newDeviceKey := wrap32 (newDeviceKey - 1) in
  (newDeviceKey,
   mkHw (controller_device VirtualNVMEController pciControllerKey newDeviceKey (nvme_BusNumber spec))
     (sharingModeToNVMEControllerSharing (nvme_SharingMode spec))).

Definition NewSATAController (spec : SATAControllerSpec) (pciControllerKey newDeviceKey : Z) :
    Z * HwDevice :=
  let newDeviceKey := wrap32 (newDeviceKey - 1) in
  (newDeviceKey,
   mkHw (controller_device VirtualAHCIController pciControllerKey newDeviceKey (sata_BusNumber spec))
     NoSharing).

(** The interface value is nil for any other type. *)
Definition NewSCSIController (spec : SCSIControllerSpec) (pciControllerKey newDeviceKey : Z) :
    Z * option HwDevice :=
  let newDeviceKey := wrap32 (newDeviceKey - 1) in
  let controller k :=
    Some (mkHw (controller_device k pciControllerKey newDeviceKey (scsi_BusNumber spec))
            (sharingModeToSCSIVimTypes (scsi_SharingMode spec))) in
  (newDeviceKey,
   match scsi_Type spec with
   | SCSIControllerTypeParaVirtualSCSI => controller ParaVirtualSCSIController
   | SCSIControllerTypeBusLogic => controller VirtualBusLogicController
   | SCSIControllerTypeLsiLogic => controller VirtualLsiLogicController
   | SCSIControllerTypeLsiLogicSAS => controller VirtualLsiLogicSASController
   | OtherSCSIControllerType _ => None
   end).

Definition addDeviceChangeOp (cs : list (option HwChange)) (controller : HwDevice)
    (op : DeviceOperation) : list (option HwChange) :=
  cs ++ [Some (mkHwChange op (Some controller))].

(** ** Matching and editing *)

Definition nvmeDeviceMatchSpec (d : HwDevice) (spec : NVMEControllerSpec) : bool :=
  bool_decide (sharingModeToNVMEControllerSharing (nvme_SharingMode spec) = SharedBus d).

Definition SCSIControllerTypeMatch (d : HwDevice) (specType : SCSIControllerType) : bool :=
  match hw_kind d with
  | ParaVirtualSCSIController => bool_decide (specType = SCSIControllerTypeParaVirtualSCSI)
  | VirtualBusLogicController => bool_decide (specType = SCSIControllerTypeBusLogic)
  | VirtualLsiLogicController => bool_decide (specType = SCSIControllerTypeLsiLogic)
  | VirtualLsiLogicSASController => bool_decide (specType = SCSIControllerTypeLsiLogicSAS)
  | _ => false
  end.

Definition scsiDeviceMatchSpec (d : HwDevice) (spec : SCSIControllerSpec) : bool :=
  bool_decide (sharingModeToSCSIVimTypes (scsi_SharingMode spec) = SharedBus d) &&
  SCSIControllerTypeMatch d (scsi_Type spec).

(** The device after the edit, and whether it has to be recreated. *)
Definition editNVMEController (d : HwDevice) (spec : NVMEControllerSpec) : HwDevice * bool :=
  let s := sharingModeToNVMEControllerSharing (nvme_SharingMode spec) in
  (if bool_decide (SharedBus d ≠ s) then set_SharedBus s d else d, false).

Definition editSCSIController (d : HwDevice) (spec : SCSIControllerSpec) : HwDevice * bool :=
  if negb (SCSIControllerTypeMatch d (scsi_Type spec)) then (d, true)
  else
    let s := sharingModeToSCSIVimTypes (scsi_SharingMode spec) in
    (if bool_decide (SharedBus d ≠ s) then set_SharedBus s d else d, false).

(** ** The difference by bus number *)

Class MapRange := {
  map_range {A} : gmap Z A → list (Z * A);
  map_range_perm {A} (m : gmap Z A) : map_range m ≡ₚ map_to_list m
}.

Record diffState (Spec : Type) := mkDiff {
  toAdd : list Spec;
  toEdit : list nat;
  toRemove : list nat;
  diff_devs : list HwDevice
}.
Arguments mkDiff {Spec}.
Arguments toAdd {Spec}.
Arguments toEdit {Spec}.
Arguments toRemove {Spec}.
Arguments diff_devs {Spec}.

Section Reconciler.
Context `{MapRange}.
(** One round of the second loop, for the device at index [i]. *)
Definition diff_existing {Spec} (desired : gmap Z Spec)
    (match_ : option (HwDevice → Spec → bool)) (edit : option (HwDevice → Spec → HwDevice * bool))
    (st : diffState Spec) (entry : Z * nat) : diffState Spec :=
  let '(bus, i) := entry in
  match desired !! bus, diff_devs st !! i with
  | _, None => st
  | None, Some _ => mkDiff (toAdd st) (toEdit st) (toRemove st ++ [i]) (diff_devs st)
  | Some spec, Some dev =>
    match match_ with
    | Some m =>
      if m dev spec then st
      else
        match edit with
        | None => st
        | Some e =>
          let '(dev', needRecreate) := e dev spec in
          let devs := <[i := dev']> (diff_devs st) in
          if needRecreate
          then mkDiff (toAdd st ++ [spec]) (toEdit st) (toRemove st ++ [i]) devs
          else mkDiff (toAdd st) (toEdit st ++ [i]) (toRemove st) devs
        end
    | None => st
    end
  end.

Definition diffByBusNumber {Spec} (devs : list HwDevice) (existing : gmap Z nat)
    (desired : gmap Z Spec) (match_ : option (HwDevice → Spec → bool))
    (edit : option (HwDevice → Spec → HwDevice * bool)) : diffState Spec :=
  let added := foldl (λ l '(bus, spec),
                 match existing !! bus with None => l ++ [spec] | Some _ => l end)
                 [] (map_range desired) in
  foldl (diff_existing desired match_ edit) (mkDiff added [] [] devs) (map_range existing).

Definition diffIDEControllerByBusNumber (devs : list HwDevice) (existing : gmap Z nat)
    (desired : gmap Z IDEControllerSpec) : diffState IDEControllerSpec :=
  diffByBusNumber devs existing desired None None.

Definition diffNVMEControllerByBusNumber (devs : list HwDevice) (existing : gmap Z nat)
    (desired : gmap Z NVMEControllerSpec) : diffState NVMEControllerSpec :=
  diffByBusNumber devs existing desired (Some nvmeDeviceMatchSpec) (Some editNVMEController).

Definition diffSATAControllerByBusNumber (devs : list HwDevice) (existing : gmap Z nat)
    (desired : gmap Z SATAControllerSpec) : diffState SATAControllerSpec :=
  diffByBusNumber devs existing desired None None.

Definition diffSCSIControllerByBusNumber (devs : list HwDevice) (existing : gmap Z nat)
    (desired : gmap Z SCSIControllerSpec) : diffState SCSIControllerSpec :=
  diffByBusNumber devs existing desired (Some scsiDeviceMatchSpec) (Some editSCSIController).

(** ** The four families *)

(** What the reconcilers thread through: the ConfigSpec's device changes, the
    key counter and the VM's devices. *)
Record recState := mkRec {
  rs_changes : list (option HwChange);
  rs_key : Z;
  rs_devs : list HwDevice
}.

(** [for _, dev := range l { addDeviceChangeOp(configSpec, dev, op) }]. *)
Definition change_devices (op : DeviceOperation) (l : list nat) (st : recState) : recState :=
  mkRec (foldl (λ cs i, match rs_devs st !! i with
                        | Some d => addDeviceChangeOp cs d op
                        | None => cs
                        end) (rs_changes st) l)
    (rs_key st) (rs_devs st).

(** [for _, spec := range toAdd { addDeviceChangeOp(configSpec, New...(spec), Add) }]. *)
Fixpoint add_controllers {Spec} (new : Spec → Z → Z * HwDevice) (l : list Spec)
    (st : recState) : recState :=
  match l with
  | [] => st
  | spec :: rest =>
    let '(key, d) := new spec (rs_key st) in
    add_controllers new rest
      (mkRec (addDeviceChangeOp (rs_changes st) d OperationAdd) key (rs_devs st))
  end.

Definition by_bus {Spec} (bus : Spec → Z) (l : list Spec) : gmap Z Spec :=
  foldl (λ m c, <[bus c := c]> m) ∅ l.

Definition reconcileIDEControllers (pciKey : Z) (hardwareSpec : option VirtualMachineHardwareSpec)
    (existing : gmap Z nat) (st : recState) : recState :=
  let desired := by_bus ide_BusNumber (from_option IDEControllers [] hardwareSpec) in
  let d := diffIDEControllerByBusNumber (rs_devs st) existing desired in
  let st := mkRec (rs_changes st) (rs_key st) (diff_devs d) in
  let st := change_devices OperationRemove (toRemove d) st in
  add_controllers (λ spec, NewIDEController spec pciKey) (toAdd d) st.

Definition reconcileNVMEControllers (pciKey : Z) (hardwareSpec : option VirtualMachineHardwareSpec)
    (existing : gmap Z nat) (st : recState) : recState :=
  let desired := by_bus nvme_BusNumber
    (filter (λ c, validateNVMEController c = true) (from_option NVMEControllers [] hardwareSpec)) in
  let d := diffNVMEControllerByBusNumber (rs_devs st) existing desired in
  let st := mkRec (rs_changes st) (rs_key st) (diff_devs d) in
  let st := change_devices OperationRemove (toRemove d) st in
  let st := add_controllers (λ spec, NewNVMEController spec pciKey) (toAdd d) st in
  change_devices OperationEdit (toEdit d) st.

Definition reconcileSATAControllers (pciKey : Z) (hardwareSpec : option VirtualMachineHardwareSpec)
    (existing : gmap Z nat) (st : recState) : recState :=
  let desired := by_bus sata_BusNumber (from_option SATAControllers [] hardwareSpec) in
  let d := diffSATAControllerByBusNumber (rs_devs st) existing desired in
  let st := mkRec (rs_changes st) (rs_key st) (diff_devs d) in
  let st := change_devices OperationRemove (toRemove d) st in
  let st := add_controllers (λ spec, NewSATAController spec pciKey) (toAdd d) st in
  change_devices OperationEdit (toEdit d) st.

(** The type assertion on a nil controller panics. *)
Fixpoint add_scsi_controllers (pciKey : Z) (l : list SCSIControllerSpec) (st : recState) :
    option recState :=
  match l with
  | [] => Some st
  | spec :: rest =>
    match NewSCSIController spec pciKey (rs_key st) with
    | (_, None) => None
    | (key, Some d) =>
      add_scsi_controllers pciKey rest
        (mkRec (addDeviceChangeOp (rs_changes st) d OperationAdd) key (rs_devs st))
    end
  end.

Definition reconcileSCSIControllers (pciKey : Z) (hardwareSpec : option VirtualMachineHardwareSpec)
    (existing : gmap Z nat) (st : recState) : option recState :=
  let desired := by_bus scsi_BusNumber (from_option SCSIControllers [] hardwareSpec) in
  let d := diffSCSIControllerByBusNumber (rs_devs st) existing desired in
  let st := mkRec (rs_changes st) (rs_key st) (diff_devs d) in
  let st := change_devices OperationRemove (toRemove d) st in
  match add_scsi_controllers pciKey (toAdd d) st with
  | None => None
  | Some st => Some (change_devices OperationEdit (toEdit d) st)
  end.

(** ** The reconciler *)

Definition init_key (key : Z) (bdc : option HwChange) : Z :=
  match bdc with
  | None => key
  | Some dc =>
    if bool_decide (hc_Operation dc = OperationRemove) then key
    else match hc_Device dc with
         | None => key
         | Some d => if hw_Key d <? key then hw_Key d else key
         end
  end.

Definition InitDeviceKey (newDeviceKey : Z) (deviceChange : list (option HwChange)) : Z :=
  foldl init_key newDeviceKey deviceChange.

(** The family of a device in the type switch. *)
Definition family (k : DeviceKind) : option VirtualControllerType :=
  match k with
  | VirtualIDEController => Some VirtualControllerTypeIDE
  | VirtualNVMEController => Some VirtualControllerTypeNVME
  | VirtualAHCIController => Some VirtualControllerTypeSATA
  | ParaVirtualSCSIController | VirtualBusLogicController | VirtualLsiLogicController
  | VirtualLsiLogicSASController | VirtualSCSIController => Some VirtualControllerTypeSCSI
  | _ => None
  end.

(** The map of one family: bus number to the device's index. *)
Definition collect_family (t : VirtualControllerType) (devs : list HwDevice) : gmap Z nat :=
  foldl (λ m '(i, d), if bool_decide (family (hw_kind d) = Some t)
                      then <[hw_BusNumber d := i]> m else m)
    ∅ (imap pair devs).

(** The last PCI controller among the devices. *)
Definition find_pci (devs : list HwDevice) : option HwDevice :=
  last (filter (λ d, hw_kind d = VirtualPCIController) devs).

Definition is_edit (bdc : option HwChange) : bool :=
  match bdc with
  | Some dc => bool_decide (hc_Operation dc = OperationEdit)
  | None => false
  end.

(** [config] is moVM.Config.Hardware.Device, [None] when moVM.Config is nil. *)
Definition vc_Reconcile (hardwareSpec : option VirtualMachineHardwareSpec) (powerState : PowerState)
    (config : option (list HwDevice)) (deviceChange : list (option HwChange)) :
    outcome string (list (option HwChange) * option (list HwDevice)) :=
  match config with
  | None => Ok (deviceChange, None)
  | Some devs =>
    let existing t := collect_family t devs in
    match find_pci devs with
    | None => Err "PCI Controller not presented"%string
    | Some pci =>
      let key := InitDeviceKey 0 deviceChange in
      let st := mkRec deviceChange key devs in
      let st := reconcileIDEControllers (hw_Key pci) hardwareSpec (existing VirtualControllerTypeIDE) st in
      let st := reconcileNVMEControllers (hw_Key pci) hardwareSpec (existing VirtualControllerTypeNVME) st in
      let st := reconcileSATAControllers (hw_Key pci) hardwareSpec (existing VirtualControllerTypeSATA) st in
      match reconcileSCSIControllers (hw_Key pci) hardwareSpec (existing VirtualControllerTypeSCSI) st with
      | None => Panic
      | Some st =>
        let new := drop (length deviceChange) (rs_changes st) in
        if existsb is_edit new && bool_decide (powerState ≠ PoweredOff)
        then Ok (deviceChange, Some (rs_devs st))
        else Ok (rs_changes st, Some (rs_devs st))
      end
    end
  end.

End Reconciler.
