(* ===== verification/ControllerReconcile.v ===== *)
(** * The controller reconciler: correctness

    What the device changes of [VirtualController] do to the devices of a VM:
    once they are carried out there is exactly one controller for every bus the
    spec lists, as the spec wants it, and none elsewhere; devices that are no
    controllers stay.  New controllers have fresh temporary keys, edits are
    only requested while the VM is off, and a VM that is as wanted gets no
    changes. *)

From S2P Require Import Prelude DiskController Hardware VirtualController.
Local Open Scope Z_scope.

(** ** Carrying out device changes *)

Definition change_of (op : DeviceOperation) (d : HwDevice) : option HwChange :=
  Some (mkHwChange op (Some d)).

(** The keys of the devices a list of changes removes or edits, and the devices
    it adds or leaves edited. *)
Definition touched (ch : list (option HwChange)) : list Z :=
  omap (λ c, match c with
             | Some (mkHwChange (OperationRemove | OperationEdit) (Some d)) => Some (hw_Key d)
             | _ => None
             end) ch.

Definition placed (ch : list (option HwChange)) : list HwDevice :=
  omap (λ c, match c with
             | Some (mkHwChange (OperationAdd | OperationEdit) (Some d)) => Some d
             | _ => None
             end) ch.

Definition added (ch : list (option HwChange)) : list HwDevice :=
  omap (λ c, match c with
             | Some (mkHwChange OperationAdd (Some d)) => Some d
             | _ => None
             end) ch.

(** [n] keys counting down from [k], and where the counter ends. *)
Fixpoint countdown (k : Z) (n : nat) : list Z :=
  match n with
  | O => []
  | S n' => wrap32 (k - 1) :: countdown (wrap32 (k - 1)) n'
  end.

Fixpoint count_end (k : Z) (n : nat) : Z :=
  match n with
  | O => k
  | S n' => count_end (wrap32 (k - 1)) n'
  end.

(** The devices after the changes. *)
Definition reconfigured (devs : list HwDevice) (ch : list (option HwChange)) : list HwDevice :=
  filter (λ d, hw_Key d ∉ touched ch) devs ++ placed ch.

Lemma touched_app ch1 ch2 : touched (ch1 ++ ch2) = touched ch1 ++ touched ch2.
Proof. apply omap_app. Qed.
Lemma placed_app ch1 ch2 : placed (ch1 ++ ch2) = placed ch1 ++ placed ch2.
Proof. apply omap_app. Qed.

Lemma touched_changes op ds :
  touched (change_of op <$> ds) =
  match op with OperationRemove | OperationEdit => hw_Key <$> ds | _ => [] end.
Proof.
  unfold touched. induction ds as [|d ds IH]; [by destruct op|].
  rewrite fmap_cons, omap_cons. destruct op; simpl; rewrite IH; done.
Qed.

Lemma placed_changes op ds :
  placed (change_of op <$> ds) = match op with OperationAdd | OperationEdit => ds | _ => [] end.
Proof.
  unfold placed. induction ds as [|d ds IH]; [by destruct op|].
  rewrite fmap_cons, omap_cons. destruct op; simpl; rewrite IH; done.
Qed.

Lemma added_app ch1 ch2 : added (ch1 ++ ch2) = added ch1 ++ added ch2.
Proof. apply omap_app. Qed.

Lemma added_changes op ds :
  added (change_of op <$> ds) = match op with OperationAdd => ds | _ => [] end.
Proof.
  unfold added. induction ds as [|d ds IH]; [by destruct op|].
  rewrite fmap_cons, omap_cons. destruct op; simpl; rewrite IH; done.
Qed.

Lemma countdown_app k n m : countdown k n ++ countdown (count_end k n) m = countdown k (n + m).
Proof. revert k. induction n as [|n IH]; intros k; simpl; [done|]. by rewrite IH. Qed.

Lemma count_end_add k n m : count_end (count_end k n) m = count_end k (n + m).
Proof. revert k. induction n as [|n IH]; intros k; simpl; [done|]. by rewrite IH. Qed.

(** ** Keyed updates of a list *)

Lemma alter_same {A} (f : A → A) i (xs : list A) :
  (∀ x, xs !! i = Some x → f x = x) → alter f i xs = xs.
Proof.
  intros Hf. apply list_eq. intros j. destruct (decide (i = j)) as [->|Hne].
  - rewrite list_lookup_alter_eq. destruct (xs !! j) eqn:E; simpl; [|done]. by rewrite Hf.
  - by rewrite list_lookup_alter_ne.
Qed.

Lemma lookup_alters {A} (f : Z → A → A) (l : list (Z * nat)) (xs : list A) j :
  NoDup l.*2 →
  (∀ b, (b, j) ∈ l → foldl (λ xs '(b, i), alter (f b) i xs) xs l !! j = f b <$> xs !! j) ∧
  (j ∉ l.*2 → foldl (λ xs '(b, i), alter (f b) i xs) xs l !! j = xs !! j).
Proof.
  revert xs. induction l as [|[b i] l IH]; intros xs; [set_solver|].
  rewrite fmap_cons, NoDup_cons. simpl. intros [Hi Hnd]. destruct (IH (alter (f b) i xs) Hnd) as [IH1 IH2].
  split.
  - intros b' [Heq|Hin]%elem_of_cons.
    + simplify_eq. rewrite IH2 by done. by rewrite list_lookup_alter_eq.
    + rewrite (IH1 b' Hin). rewrite list_lookup_alter_ne; [done|].
      intros ->. apply Hi. apply list_elem_of_fmap. by exists (b', j).
  - intros Hj. rewrite IH2 by set_solver. apply list_lookup_alter_ne. set_solver.
Qed.

Lemma length_alters {A} (f : Z → A → A) (l : list (Z * nat)) (xs : list A) :
  length (foldl (λ xs '(b, i), alter (f b) i xs) xs l) = length xs.
Proof.
  revert xs. induction l as [|[b i] l IH]; intros xs; [done|]. simpl. by rewrite IH, length_alter.
Qed.

Lemma NoDup_omap_keys {A B C} (f : A → option B) (k : A → C) (g : B → C) (l : list A) :
  NoDup (k <$> l) → (∀ x y, x ∈ l → f x = Some y → g y = k x) → NoDup (g <$> omap f l).
Proof.
  intros Hnd Hf. induction l as [|x l IH]; [constructor|].
  rewrite fmap_cons, NoDup_cons in Hnd. destruct Hnd as [Hx Hnd]. rewrite omap_cons.
  assert (NoDup (g <$> omap f l)) by (apply IH; [done|set_solver]).
  destruct (f x) as [y|] eqn:Hy; [|done]. rewrite fmap_cons. constructor; [|done].
  rewrite (Hf x y) by (done || set_solver).
  intros (z & Hz & (w & Hw & Hfw)%list_elem_of_omap)%list_elem_of_fmap.
  apply Hx. rewrite Hz, (Hf w z) by (done || set_solver). by apply list_elem_of_fmap_2.
Qed.

Lemma elem_of_range `{MapRange} {A} (m : gmap Z A) b a : (b, a) ∈ map_range m ↔ m !! b = Some a.
Proof. by rewrite map_range_perm, elem_of_map_to_list. Qed.

Lemma NoDup_range_keys `{MapRange} {A} (m : gmap Z A) : NoDup (map_range m).*1.
Proof. rewrite map_range_perm. apply NoDup_fst_map_to_list. Qed.

(** Values of an injective map are listed once. *)
Lemma NoDup_range_values `{MapRange} {A} (m : gmap Z A) :
  (∀ b b' a, m !! b = Some a → m !! b' = Some a → b = b') → NoDup (map_range m).*2.
Proof.
  intros Hinj. rewrite map_range_perm.
  apply NoDup_fmap_2_strong; [|apply NoDup_map_to_list].
  intros [b a] [b' a'] Hb%elem_of_map_to_list Hb'%elem_of_map_to_list Ha. simpl in Ha. subst a'.
  by rewrite (Hinj b b' a).
Qed.

(** ** One family *)

(** [ch] brings the controllers of family [t] among the devices [D] to what is
    wanted: [wants] gives, for a bus, what its controller has to satisfy. *)
Record FamilyChanges (t : VirtualControllerType) (D : list HwDevice)
    (wants : Z → option (HwDevice → Prop)) (ch : list (option HwChange)) : Prop := {
  fc_touched k : k ∈ touched ch → ∃ d, d ∈ D ∧ family (hw_kind d) = Some t ∧ hw_Key d = k;
  fc_placed d : d ∈ placed ch →
    family (hw_kind d) = Some t ∧ ∃ P, wants (hw_BusNumber d) = Some P ∧ P d;
  fc_kept d : d ∈ D → family (hw_kind d) = Some t → hw_Key d ∉ touched ch →
    ∃ P, wants (hw_BusNumber d) = Some P ∧ P d;
  fc_complete b P : wants b = Some P →
    (∃ d, d ∈ D ∧ family (hw_kind d) = Some t ∧ hw_BusNumber d = b ∧ hw_Key d ∉ touched ch) ∨
    (∃ d, d ∈ placed ch ∧ hw_BusNumber d = b);
  fc_nodup : NoDup (hw_BusNumber <$> placed ch);
  fc_disjoint d : d ∈ D → family (hw_kind d) = Some t → hw_Key d ∉ touched ch →
    hw_BusNumber d ∉ hw_BusNumber <$> placed ch
}.

(** What one of the four reconcilers does to the state. *)
Record FamilyStep (t : VirtualControllerType) (wants : Z → option (HwDevice → Prop))
    (st st' : recState) (ch : list (option HwChange)) (n : nat) : Prop := {
  step_changes : rs_changes st' = rs_changes st ++ ch;
  step_devices : hw_dev <$> rs_devs st' = hw_dev <$> rs_devs st;
  step_others i d : family (hw_kind d) ≠ Some t →
    rs_devs st' !! i = Some d ↔ rs_devs st !! i = Some d;
  step_family : NoDup (hw_Key <$> rs_devs st) → FamilyChanges t (rs_devs st) wants ch;
  step_added : hw_Key <$> added ch = countdown (rs_key st) n;
  step_key : rs_key st' = count_end (rs_key st) n
}.

Section Family.
#[local] Set Default Proof Using "All".
Context `{MapRange} {Spec : Type}.
Context (t : VirtualControllerType) (bus : Spec → Z).
Context (match_ : option (HwDevice → Spec → bool)).
Context (edit : option (HwDevice → Spec → HwDevice * bool)).
Context (conforms : Spec → HwDevice → Prop).

(** What becomes of an existing controller the spec lists. *)
Definition recreates (d : HwDevice) (s : Spec) : bool :=
  match match_, edit with
  | Some m, Some e => negb (m d s) && (e d s).2
  | _, _ => false
  end.

Definition edited (d : HwDevice) (s : Spec) : option HwDevice :=
  match match_, edit with
  | Some m, Some e => if m d s || (e d s).2 then None else Some (e d s).1
  | _, _ => None
  end.

(** What the family's matching and editing functions have to satisfy. *)
Record FamilyLaws : Prop := {
  recreate_unchanged d s : recreates d s = true → ∀ e, edit = Some e → (e d s).1 = d;
  edited_same d s d' : edited d s = Some d' → hw_dev d' = hw_dev d ∧ conforms s d';
  kept_conforms d s :
    family (hw_kind d) = Some t → edited d s = None → recreates d s = false → conforms s d
}.

Context (Hlaws : FamilyLaws).
Context (D : list HwDevice) (existing : gmap Z nat) (desired : gmap Z Spec).
Context (Hex : ∀ b i, existing !! b = Some i ↔
           ∃ d, D !! i = Some d ∧ family (hw_kind d) = Some t ∧ hw_BusNumber d = b).
Context (Hdes : ∀ b s, desired !! b = Some s → bus s = b).

(** The second loop, as functions of the devices it started with. *)
Definition add_of (D : list HwDevice) (p : Z * nat) : option Spec :=
  s ← desired !! p.1; d ← D !! p.2; if recreates d s then Some s else None.
Definition edit_of (D : list HwDevice) (p : Z * nat) : option nat :=
  s ← desired !! p.1; d ← D !! p.2; _ ← edited d s; Some p.2.
Definition remove_of (D : list HwDevice) (p : Z * nat) : option nat :=
  d ← D !! p.2;
  match desired !! p.1 with
  | None => Some p.2
  | Some s => if recreates d s then Some p.2 else None
  end.
Definition after (b : Z) (d : HwDevice) : HwDevice :=
  match desired !! b with Some s => default d (edited d s) | None => d end.

Lemma diff_existing_step st p :
  diff_existing desired match_ edit st p =
  mkDiff (toAdd st ++ option_list (add_of (diff_devs st) p))
         (toEdit st ++ option_list (edit_of (diff_devs st) p))
         (toRemove st ++ option_list (remove_of (diff_devs st) p))
         (alter (after p.1) p.2 (diff_devs st)).
Proof.
  destruct p as [b i]. destruct st as [ta te tr devs].
  unfold diff_existing, add_of, edit_of, remove_of, after. simpl.
  destruct (devs !! i) as [d|] eqn:Hi; simpl.
  2: { destruct (desired !! b); simpl; rewrite !app_nil_r; f_equal;
         symmetry; apply alter_same; intros ? ?; congruence. }
  destruct (desired !! b) as [s|]; simpl.
  2: { rewrite !app_nil_r. f_equal. symmetry. by apply alter_same. }
  pose proof (recreate_unchanged Hlaws d s) as Hrec. unfold recreates, edited in *.
  assert (∀ f, f d = d → alter f i devs = devs) as Hsame.
  { intros f Hf. apply alter_same. intros x Hx. congruence. }
  destruct match_ as [m|]; simpl; [|rewrite !app_nil_r, Hsame; done].
  destruct edit as [e|]; simpl.
  2: { destruct (m d s); simpl; rewrite !app_nil_r, Hsame; done. }
  destruct (m d s) eqn:Hm; simpl in *; [rewrite !app_nil_r, Hsame by (by rewrite Hm); done|].
  destruct (e d s) as [d' r] eqn:He. simpl in *. destruct r; simpl.
  - rewrite !app_nil_r. specialize (Hrec eq_refl e eq_refl). rewrite He in Hrec. simpl in Hrec. subst d'.
    f_equal. rewrite Hsame by (by rewrite Hm, He). apply list_insert_id. done.
  - rewrite !app_nil_r. f_equal. apply list_eq. intros j. destruct (decide (i = j)) as [->|Hne].
    + rewrite list_lookup_insert_eq by (by eapply lookup_lt_Some).
      rewrite list_lookup_alter_eq, Hi. simpl. by rewrite Hm, He.
    + by rewrite list_lookup_insert_ne, list_lookup_alter_ne.
Qed.

Lemma diff_loop l st :
  NoDup l.*2 →
  foldl (diff_existing desired match_ edit) st l =
  mkDiff (toAdd st ++ omap (add_of (diff_devs st)) l)
         (toEdit st ++ omap (edit_of (diff_devs st)) l)
         (toRemove st ++ omap (remove_of (diff_devs st)) l)
         (foldl (λ xs '(b, i), alter (after b) i xs) (diff_devs st) l).
Proof.
  revert st. induction l as [|[b i] l IH]; intros st.
  { intros _. cbn [foldl omap list_omap]. rewrite !app_nil_r. by destruct st. }
  rewrite fmap_cons, NoDup_cons. intros [Hi Hnd]. cbn [foldl].
  rewrite IH, diff_existing_step by done. rewrite !omap_cons. cbn [fst snd toAdd toEdit toRemove diff_devs] in *.
  assert (∀ p, p ∈ l → alter (after b) i (diff_devs st) !! p.2 = diff_devs st !! p.2) as Hl.
  { intros p Hp. apply list_lookup_alter_ne. intros ->. apply Hi. by apply list_elem_of_fmap_2. }
  rewrite <-!(assoc_L (++)).
  assert (∀ {B} (g : list HwDevice → Z * nat → option B),
    (∀ D1 D2 p, D1 !! p.2 = D2 !! p.2 → g D1 p = g D2 p) →
    omap (g (alter (after b) i (diff_devs st))) l = omap (g (diff_devs st)) l) as Hext.
  { intros B g Hg. clear IH Hnd Hi. induction l as [|p l IHl]; [done|]. rewrite !omap_cons.
    rewrite (Hg _ (diff_devs st)) by (apply Hl; set_solver). rewrite IHl; [done|]. set_solver. }
  rewrite !Hext; first last.
  1-3: intros D1 D2 p Hp; unfold add_of, edit_of, remove_of; by rewrite Hp.
  f_equal; f_equal; unfold option_list; case_match; done.
Qed.

Definition diff : diffState Spec := diffByBusNumber D existing desired match_ edit.

Lemma existing_inj b b' i : existing !! b = Some i → existing !! b' = Some i → b = b'.
Proof. intros (d & Hd & _ & <-)%Hex (d' & Hd' & _ & <-)%Hex. congruence. Qed.

Lemma diff_eq :
  diff = mkDiff (omap (λ p, match existing !! p.1 with None => Some p.2 | Some _ => None end)
                   (map_range desired) ++ omap (add_of D) (map_range existing))
           (omap (edit_of D) (map_range existing))
           (omap (remove_of D) (map_range existing))
           (foldl (λ xs '(b, i), alter (after b) i xs) D (map_range existing)).
Proof.
  unfold diff, diffByBusNumber.
  rewrite diff_loop by (apply NoDup_range_values; apply existing_inj). simpl. f_equal. f_equal.
  enough (∀ l acc, foldl (λ l '(bus, spec),
                 match existing !! bus with None => l ++ [spec] | Some _ => l end) acc l =
             acc ++ omap (λ p : Z * Spec, match existing !! p.1 with None => Some p.2 | Some _ => None end) l)
    as Hf by apply (Hf _ []).
  induction l as [|[b s] l IH]; intros acc; simpl; [by rewrite app_nil_r|].
  rewrite IH. destruct (existing !! b); [done|]. by rewrite <-(assoc_L (++)).
Qed.

Definition D' : list HwDevice := diff_devs diff.
Definition removed_devices : list HwDevice := omap (D' !!.) (toRemove diff).
Definition edited_devices : list HwDevice := omap (D' !!.) (toEdit diff).

Lemma existing_lookup b i :
  existing !! b = Some i →
  ∃ d, D !! i = Some d ∧ D' !! i = Some (after b d) ∧ family (hw_kind d) = Some t ∧ hw_BusNumber d = b.
Proof.
  intros Hb. pose proof Hb as (d & Hd & Ht & Hbus)%Hex. exists d. split_and!; try done.
  unfold D'. rewrite diff_eq. cbn [diff_devs].
  rewrite (proj1 (lookup_alters after (map_range existing) D i
    (NoDup_range_values _ existing_inj)) b); [by rewrite Hd|]. by apply elem_of_range.
Qed.

(** Devices of other families are not written. *)
Lemma other_families_kept i d :
  family (hw_kind d) ≠ Some t → D' !! i = Some d ↔ D !! i = Some d.
Proof.
  intros Ht. destruct (decide (i ∈ (map_range existing).*2)) as [Hin|Hin].
  - apply list_elem_of_fmap in Hin as ([b j] & -> & Hin%elem_of_range). simpl.
    destruct (existing_lookup b j Hin) as (d0 & -> & -> & Ht0 & _). split; intros [= <-]; [|done].
    exfalso. apply Ht. revert Ht0. unfold after, hw_kind.
    destruct (desired !! b) as [s|]; [|done]. destruct (edited d0 s) as [d1|] eqn:He; simpl; [|done].
    by apply (edited_same Hlaws) in He as [-> _].
  - unfold D'. rewrite diff_eq. cbn [diff_devs].
    by rewrite (proj2 (lookup_alters after (map_range existing) D i
      (NoDup_range_values _ existing_inj)) Hin).
Qed.

Lemma devices_preserved : hw_dev <$> D' = hw_dev <$> D.
Proof.
  apply list_eq. intros i. rewrite !list_lookup_fmap.
  destruct (decide (i ∈ (map_range existing).*2)) as [Hin|Hin].
  - apply list_elem_of_fmap in Hin as ([b j] & -> & Hin%elem_of_range). simpl.
    destruct (existing_lookup b j Hin) as (d0 & -> & -> & _). simpl. f_equal. unfold after.
    destruct (desired !! b) as [s|]; [|done]. destruct (edited d0 s) as [d1|] eqn:He; simpl; [|done].
    by apply (edited_same Hlaws) in He as [-> _].
  - unfold D'. rewrite diff_eq. cbn [diff_devs].
    by rewrite (proj2 (lookup_alters after (map_range existing) D i
      (NoDup_range_values _ existing_inj)) Hin).
Qed.

Lemma recreates_not_edited d s : recreates d s = true → edited d s = None.
Proof.
  unfold recreates, edited. intros Hr. destruct match_ as [m|], edit as [e|]; try done.
  apply andb_true_iff in Hr as [_ ->]. by rewrite orb_true_r.
Qed.

Lemma elem_of_removed x :
  x ∈ removed_devices ↔ x ∈ D ∧ family (hw_kind x) = Some t ∧
    match desired !! hw_BusNumber x with None => True | Some s => recreates x s = true end.
Proof.
  unfold removed_devices. rewrite list_elem_of_omap. setoid_rewrite diff_eq at 1.
  cbn [toRemove]. setoid_rewrite list_elem_of_omap. split.
  - intros (i & ([b j] & Hin%elem_of_range & Hr) & Hx). unfold remove_of in Hr. simpl in Hr.
    destruct (existing_lookup b j Hin) as (d & Hd & Hd' & Ht & <-). rewrite Hd in Hr. simpl in Hr.
    unfold after in Hd'. destruct (desired !! hw_BusNumber d) as [s|] eqn:Hs.
    + destruct (recreates d s) eqn:Hrec; [|done]. rewrite (recreates_not_edited _ _ Hrec) in Hd'.
      simpl in Hd'. simplify_eq. rewrite Hs.
      split_and!; [by eapply list_elem_of_lookup_2|done|done].
    + simplify_eq. rewrite Hs. split_and!; [by eapply list_elem_of_lookup_2|done|done].
  - intros (Hx & Ht & Hm). apply list_elem_of_lookup_1 in Hx as [i Hi].
    assert (existing !! hw_BusNumber x = Some i) as Hb by (apply Hex; eauto).
    exists i. destruct (existing_lookup _ _ Hb) as (d & Hd & Hd' & _). rewrite Hi in Hd. simplify_eq.
    split.
    + exists (hw_BusNumber d, i). split; [by apply elem_of_range|]. unfold remove_of. simpl.
      rewrite Hi. simpl. destruct (desired !! hw_BusNumber d); [by rewrite Hm|done].
    + rewrite Hd'. unfold after. destruct (desired !! hw_BusNumber d) as [s|]; [|done].
      by rewrite (recreates_not_edited _ _ Hm).
Qed.

Lemma elem_of_edited x :
  x ∈ edited_devices ↔ ∃ d s, d ∈ D ∧ family (hw_kind d) = Some t ∧
    desired !! hw_BusNumber d = Some s ∧ edited d s = Some x.
Proof.
  unfold edited_devices. rewrite list_elem_of_omap. setoid_rewrite diff_eq at 1.
  cbn [toEdit]. setoid_rewrite list_elem_of_omap. split.
  - intros (i & ([b j] & Hin%elem_of_range & Hr) & Hx). unfold edit_of in Hr. simpl in Hr.
    destruct (existing_lookup b j Hin) as (d & Hd & Hd' & Ht & <-).
    destruct (desired !! hw_BusNumber d) as [s|] eqn:Hs; [|done]. simpl in Hr. rewrite Hd in Hr.
    simpl in Hr. destruct (edited d s) as [y|] eqn:He; [|done]. simpl in Hr.
    unfold after in Hd'. rewrite Hs, He in Hd'. simpl in Hd'. simplify_eq.
    exists d, s. split_and!; try done. by eapply list_elem_of_lookup_2.
  - intros (d & s & Hd & Ht & Hs & He). apply list_elem_of_lookup_1 in Hd as [i Hi].
    assert (existing !! hw_BusNumber d = Some i) as Hb by (apply Hex; eauto).
    exists i. destruct (existing_lookup _ _ Hb) as (d1 & Hd1 & Hd' & _). rewrite Hi in Hd1. simplify_eq.
    split.
    + exists (hw_BusNumber d1, i). split; [by apply elem_of_range|]. unfold edit_of. simpl.
      rewrite Hs. simpl. rewrite Hi. simpl. by rewrite He.
    + rewrite Hd'. unfold after. by rewrite Hs, He.
Qed.

Lemma elem_of_toAdd s :
  s ∈ toAdd diff ↔ desired !! bus s = Some s ∧
    (∀ d, d ∈ D → family (hw_kind d) = Some t → hw_BusNumber d = bus s → recreates d s = true).
Proof.
  rewrite diff_eq. cbn [toAdd]. rewrite elem_of_app, !list_elem_of_omap. split.
  - intros [([b s'] & Hin%elem_of_range & Hs)|([b i] & Hin%elem_of_range & Hs)].
    + simpl in Hs. destruct (existing !! b) eqn:Hb; [done|]. simplify_eq.
      pose proof (Hdes _ _ Hin) as Hbus. rewrite Hbus. split; [done|].
      intros d Hd Ht Hdb. apply list_elem_of_lookup_1 in Hd as [i Hi].
      assert (existing !! b = Some i) by (apply Hex; eauto). congruence.
    + unfold add_of in Hs. simpl in Hs. destruct (desired !! b) as [s'|] eqn:Hb; [|done]. simpl in Hs.
      destruct (existing_lookup _ _ Hin) as (d & Hd & _ & Ht & Hdb). rewrite Hd in Hs. simpl in Hs.
      destruct (recreates d s') eqn:Hr; [|done]. simplify_eq. rewrite (Hdes _ _ Hb). split; [done|].
      intros d' Hd' Ht' Hb'. apply list_elem_of_lookup_1 in Hd' as [j Hj].
      assert (existing !! hw_BusNumber d = Some j) as Hj' by (apply Hex; eauto). congruence.
  - intros [Hs Hr]. destruct (existing !! bus s) as [i|] eqn:Hb.
    + right. exists (bus s, i). split; [by apply elem_of_range|]. unfold add_of. simpl. rewrite Hs. simpl.
      destruct (existing_lookup _ _ Hb) as (d & Hd & _ & Ht & Hdb). rewrite Hd. simpl.
      rewrite Hr; [done| |done|done]. by eapply list_elem_of_lookup_2.
    + left. exists (bus s, s). split; [by apply elem_of_range|]. simpl. by rewrite Hb.
Qed.

(** Bus numbers of what is added or edited do not repeat. *)
Lemma NoDup_toAdd : NoDup (bus <$> toAdd diff).
Proof.
  rewrite diff_eq. cbn [toAdd]. rewrite fmap_app. apply NoDup_app. split_and!.
  - apply (NoDup_omap_keys _ fst); [apply NoDup_range_keys|].
    intros [b s] y Hin%elem_of_range. simpl. destruct (existing !! b); [done|]. intros [= <-]. by apply Hdes.
  - intros b (s & -> & ([b1 s1] & Hin1%elem_of_range & Hs1)%list_elem_of_omap)%list_elem_of_fmap
      (s2 & Hb2 & ([b3 i] & Hin3%elem_of_range & Hs3)%list_elem_of_omap)%list_elem_of_fmap.
    simpl in Hs1. destruct (existing !! b1) eqn:He; [done|]. simplify_eq.
    unfold add_of in Hs3. simpl in Hs3. destruct (desired !! b3) as [s3|] eqn:Hd3; [|done]. simpl in Hs3.
    destruct (D !! i); simpl in Hs3; [|done]. destruct (recreates _ _); [|done]. simplify_eq.
    apply Hdes in Hin1, Hd3. congruence.
  - apply (NoDup_omap_keys _ fst); [apply NoDup_range_keys|].
    intros [b i] y _. unfold add_of. simpl. destruct (desired !! b) as [s|] eqn:Hs; [|done]. simpl.
    destruct (D !! i); simpl; [|done]. destruct (recreates _ _); [|done]. intros [= <-]. by apply Hdes.
Qed.

Lemma NoDup_edited : NoDup (hw_BusNumber <$> edited_devices).
Proof.
  assert (edited_devices = omap (λ p, edit_of D p ≫= (D' !!.)) (map_range existing)) as ->.
  { unfold edited_devices. setoid_rewrite diff_eq at 1. cbn [toEdit].
    induction (map_range existing) as [|p l IH]; [done|]. rewrite !omap_cons.
    destruct (edit_of D p) as [i|]; simpl; [|done]. by rewrite <-IH. }
  apply (NoDup_omap_keys _ fst); [apply NoDup_range_keys|].
  intros [b i] x Hin%elem_of_range Hx. unfold edit_of in Hx. simpl in *.
  destruct (existing_lookup b i Hin) as (d & Hd & Hd' & Ht & <-).
  destruct (desired !! hw_BusNumber d) as [s|] eqn:Hs; [|done]. simpl in Hx. rewrite Hd in Hx. simpl in Hx.
  destruct (edited d s) as [y|] eqn:He; [|done]. simpl in Hx. unfold after in Hd'.
  rewrite Hs, He in Hd'. simpl in Hd'. simplify_eq. unfold hw_BusNumber.
  by apply (edited_same Hlaws) in He as [-> _].
Qed.

(** Controllers that are as wanted are left alone. *)
Lemma family_idle :
  (∀ d, d ∈ D → family (hw_kind d) = Some t →
     ∃ s, desired !! hw_BusNumber d = Some s ∧ edited d s = None ∧ recreates d s = false) →
  (∀ b s, desired !! b = Some s → ∃ d, d ∈ D ∧ family (hw_kind d) = Some t ∧ hw_BusNumber d = b) →
  removed_devices = [] ∧ edited_devices = [] ∧ toAdd diff = [] ∧ D' = D.
Proof.
  intros Hkeep Hall. split_and!.
  - apply elem_of_nil_inv. intros x (Hx & Ht & Hm)%elem_of_removed.
    destruct (Hkeep x Hx Ht) as (s & Hs & _ & Hr). rewrite Hs in Hm. congruence.
  - apply elem_of_nil_inv. intros x (d & s & Hd & Ht & Hs & He)%elem_of_edited.
    destruct (Hkeep d Hd Ht) as (s' & Hs' & He' & _). congruence.
  - apply elem_of_nil_inv. intros s [Hs Hr]%elem_of_toAdd.
    destruct (Hall _ _ Hs) as (d & Hd & Ht & Hb). destruct (Hkeep d Hd Ht) as (s' & Hs' & _ & Hr').
    rewrite Hb, Hs in Hs'. simplify_eq. rewrite Hr in Hr'; done.
  - apply list_eq. intros i. destruct (decide (i ∈ (map_range existing).*2)) as [Hin|Hin].
    + apply list_elem_of_fmap in Hin as ([b j] & -> & Hin%elem_of_range). simpl.
      destruct (existing_lookup b j Hin) as (d & Hd & -> & Ht & <-). rewrite Hd. f_equal.
      apply list_elem_of_lookup_2 in Hd. destruct (Hkeep d Hd Ht) as (s & Hs & He & _).
      unfold after. by rewrite Hs, He.
    + unfold D'. rewrite diff_eq. cbn [diff_devs].
      by rewrite (proj2 (lookup_alters after (map_range existing) D i
        (NoDup_range_values _ existing_inj)) Hin).
Qed.

(** *** The device changes of the family *)

Context (built : Spec → Z → HwDevice → Prop).
Context (Hbuilt : ∀ s k d, built s k d →
  family (hw_kind d) = Some t ∧ hw_BusNumber d = bus s ∧ hw_Key d = k ∧ conforms s d).

(** [ds] are new controllers for the specs, with keys counting down from [k]. *)
Inductive Built : Z → list Spec → list HwDevice → Z → Prop :=
  | Built_nil k : Built k [] [] k
  | Built_cons k s l d ds k' :
      built s (wrap32 (k - 1)) d → Built (wrap32 (k - 1)) l ds k' → Built k (s :: l) (d :: ds) k'.

Lemma Built_elem k l ds k' d :
  Built k l ds k' → d ∈ ds → ∃ s j, s ∈ l ∧ built s j d.
Proof.
  induction 1 as [|k s l d0 ds k' Hb _ IH]; [set_solver|].
  intros [->|Hd]%elem_of_cons; [set_solver|]. destruct (IH Hd) as (s' & j & ? & ?). set_solver.
Qed.

Lemma Built_spec k l ds k' s : Built k l ds k' → s ∈ l → ∃ d j, d ∈ ds ∧ built s j d.
Proof.
  induction 1 as [|k s0 l d0 ds k' Hb _ IH]; [set_solver|].
  intros [->|Hd]%elem_of_cons; [set_solver|]. destruct (IH Hd) as (d' & j & ? & ?). set_solver.
Qed.

Lemma Built_buses k l ds k' : Built k l ds k' → hw_BusNumber <$> ds = bus <$> l.
Proof.
  induction 1 as [|k s0 l d0 ds k' Hb _ IH]; [done|]. rewrite !fmap_cons, IH. f_equal.
  by apply Hbuilt in Hb as (_ & -> & _).
Qed.

Definition family_changes (ds : list HwDevice) : list (option HwChange) :=
  (change_of OperationRemove <$> removed_devices) ++
  (change_of OperationAdd <$> ds) ++ (change_of OperationEdit <$> edited_devices).

Lemma touched_family ds k :
  k ∈ touched (family_changes ds) ↔
  k ∈ hw_Key <$> removed_devices ∨ k ∈ hw_Key <$> edited_devices.
Proof.
  unfold family_changes. rewrite !touched_app, !touched_changes. rewrite app_nil_l. apply elem_of_app.
Qed.

Lemma placed_family ds : placed (family_changes ds) = ds ++ edited_devices.
Proof. unfold family_changes. by rewrite !placed_app, !placed_changes, app_nil_l. Qed.

Definition wants (b : Z) : option (HwDevice → Prop) := conforms <$> desired !! b.

Context (HD : NoDup (hw_Key <$> D)).

(** A device the changes do not touch is neither removed nor edited. *)
Lemma untouched ds d :
  d ∈ D → family (hw_kind d) = Some t →
  hw_Key d ∉ touched (family_changes ds) ↔
  ∃ s, desired !! hw_BusNumber d = Some s ∧ recreates d s = false ∧ edited d s = None.
Proof.
  intros Hd Ht. rewrite touched_family. split.
  - intros Hn. destruct (desired !! hw_BusNumber d) as [s|] eqn:Hs.
    + exists s. split; [done|]. split.
      * apply not_true_is_false. intros Hr. apply Hn. left. apply list_elem_of_fmap_2, elem_of_removed.
        by rewrite Hs.
      * destruct (edited d s) as [x|] eqn:He; [|done]. exfalso. apply Hn. right.
        apply list_elem_of_fmap. exists x. split; [|apply elem_of_edited; eauto 10].
        unfold hw_Key. by apply (edited_same Hlaws) in He as [-> _].
    + exfalso. apply Hn. left. apply list_elem_of_fmap_2, elem_of_removed. by rewrite Hs.
  - intros (s & Hs & Hr & He) [Hk|Hk]; apply list_elem_of_fmap in Hk as (x & Hk & Hx).
    + apply elem_of_removed in Hx as (Hx & _ & Hm).
      assert (d = x) as <- by (by eapply NoDup_fmap_inv_eq). rewrite Hs in Hm. congruence.
    + apply elem_of_edited in Hx as (d1 & s1 & Hd1 & _ & Hs1 & He1).
      assert (d = d1) as <-.
      { eapply NoDup_fmap_inv_eq; [exact HD|done|done|]. rewrite Hk. unfold hw_Key.
        by apply (edited_same Hlaws) in He1 as [-> _]. }
      congruence.
Qed.

Lemma same_slot d d' :
  d ∈ D → d' ∈ D → family (hw_kind d) = Some t → family (hw_kind d') = Some t →
  hw_BusNumber d = hw_BusNumber d' → d = d'.
Proof.
  intros Hd Hd' Ht Ht' Hb.
  apply list_elem_of_lookup_1 in Hd as [i Hi]. apply list_elem_of_lookup_1 in Hd' as [j Hj].
  assert (existing !! hw_BusNumber d = Some i) by (apply Hex; eauto).
  assert (existing !! hw_BusNumber d = Some j) by (apply Hex; eauto). congruence.
Qed.

Lemma added_placed k ds k' b s :
  Built k (toAdd diff) ds k' → desired !! b = Some s →
  (∀ d, d ∈ D → family (hw_kind d) = Some t → hw_BusNumber d = b → recreates d s = true) →
  ∃ d, d ∈ placed (family_changes ds) ∧ hw_BusNumber d = b.
Proof.
  intros Hb Hs Hr. pose proof (Hdes _ _ Hs) as Hbus. subst b.
  destruct (Built_spec _ _ _ _ s Hb) as (d & j & Hd & (_ & Hdb & _)%Hbuilt); [by apply elem_of_toAdd|].
  exists d. rewrite placed_family, elem_of_app. auto.
Qed.

Lemma family_changes_ok k ds k' :
  Built k (toAdd diff) ds k' → FamilyChanges t D wants (family_changes ds).
Proof.
  intros Hb. unfold wants. split.
  - intros j. rewrite touched_family. intros [Hj|Hj]; apply list_elem_of_fmap in Hj as (x & -> & Hx).
    + apply elem_of_removed in Hx as (? & ? & _). eauto.
    + apply elem_of_edited in Hx as (d & s & ? & ? & _ & He). exists d. split_and!; [done..|].
      unfold hw_Key. by apply (edited_same Hlaws) in He as [-> _].
  - intros d. rewrite placed_family, elem_of_app. intros [Hd|Hd].
    + destruct (Built_elem _ _ _ _ _ Hb Hd) as (s & j & Hs & (Ht & -> & _ & Hc)%Hbuilt).
      apply elem_of_toAdd in Hs as [-> _]. simpl. eauto.
    + apply elem_of_edited in Hd as (d0 & s & _ & Ht & Hs & [He Hc]%(edited_same Hlaws)).
      unfold hw_kind, hw_BusNumber in *. rewrite He. split; [done|]. rewrite Hs. simpl. eauto.
  - intros d Hd Ht Hn. apply (untouched ds d Hd Ht) in Hn as (s & -> & Hr & He). simpl.
    exists (conforms s). split; [done|]. by apply (kept_conforms Hlaws).
  - intros b P. destruct (desired !! b) as [s|] eqn:Hs; [|done]. intros _.
    destruct (existing !! b) as [i|] eqn:Hi.
    + apply Hex in Hi as (d & Hd & Ht & <-). apply list_elem_of_lookup_2 in Hd.
      destruct (recreates d s) eqn:Hr; [|destruct (edited d s) as [x|] eqn:He].
      * right. eapply added_placed; [done|done|]. intros d' Hd' Ht' Hb'.
        by rewrite (same_slot d' d).
      * right. exists x. rewrite placed_family, elem_of_app. split.
        { right. apply elem_of_edited. eauto 10. }
        unfold hw_BusNumber. by apply (edited_same Hlaws) in He as [-> _].
      * left. exists d. split_and!; [done..|]. apply untouched; eauto.
    + right. eapply added_placed; [done|done|]. intros d Hd Ht Hb'.
      apply list_elem_of_lookup_1 in Hd as [i Hd].
      assert (existing !! b = Some i) by (apply Hex; eauto). congruence.
  - rewrite placed_family, fmap_app. apply NoDup_app. split_and!; [| |apply NoDup_edited].
    + rewrite (Built_buses _ _ _ _ Hb). apply NoDup_toAdd.
    + rewrite (Built_buses _ _ _ _ Hb).
      intros b (s & -> & [Hs Hrec]%elem_of_toAdd)%list_elem_of_fmap
        (x & Hx & (d & s' & Hd & Ht & Hs' & He)%elem_of_edited)%list_elem_of_fmap.
      assert (hw_BusNumber d = bus s) as Hdb.
      { rewrite Hx. unfold hw_BusNumber. by apply (edited_same Hlaws) in He as [-> _]. }
      rewrite Hdb, Hs in Hs'. simplify_eq.
      rewrite (recreates_not_edited d s') in He; [done|]. by apply Hrec.
  - intros d Hd Ht (s & Hs & Hr & He)%untouched; [|done..].
    rewrite placed_family, fmap_app, elem_of_app. intros [Hin|Hin].
    + rewrite (Built_buses _ _ _ _ Hb) in Hin.
      apply list_elem_of_fmap in Hin as (s' & Hb' & [Hs' Hrec]%elem_of_toAdd).
      rewrite <-Hb', Hs in Hs'. simplify_eq. rewrite Hrec in Hr; done.
    + apply list_elem_of_fmap in Hin as (x & Hx & (d' & s' & Hd' & Ht' & Hs' & He')%elem_of_edited).
      assert (hw_BusNumber d' = hw_BusNumber d) as Hdb.
      { rewrite Hx. unfold hw_BusNumber. by apply (edited_same Hlaws) in He' as [-> _]. }
      rewrite (same_slot d' d Hd' Hd Ht' Ht Hdb) in *. congruence.
Qed.
End Family.

(** The map of a family's controllers among the devices. *)
Definition indexes (t : VirtualControllerType) (existing : gmap Z nat) (D : list HwDevice) : Prop :=
  ∀ b i, existing !! b = Some i ↔
    ∃ d, D !! i = Some d ∧ family (hw_kind d) = Some t ∧ hw_BusNumber d = b.

Lemma family_step `{MapRange} {Spec} t (bus : Spec → Z) match_ edit conforms built existing desired k ds st :
  FamilyLaws t match_ edit conforms →
  indexes t existing (rs_devs st) →
  (∀ b s, desired !! b = Some s → bus s = b) →
  (∀ s k d, built s k d →
     family (hw_kind d) = Some t ∧ hw_BusNumber d = bus s ∧ hw_Key d = k ∧ conforms s d) →
  Built built (rs_key st) (toAdd (diff match_ edit (rs_devs st) existing desired)) ds k →
  FamilyStep t (wants conforms desired) st
    (mkRec (rs_changes st ++ family_changes match_ edit (rs_devs st) existing desired ds) k
       (D' match_ edit (rs_devs st) existing desired))
    (family_changes match_ edit (rs_devs st) existing desired ds) (length ds).
Proof.
  intros Hl Hex Hdes Hb HB. split; simpl.
  - done.
  - by eapply devices_preserved.
  - intros i d. by eapply other_families_kept.
  - intros HD. by eapply family_changes_ok.
  - unfold family_changes. rewrite !added_app, !added_changes, app_nil_l, app_nil_r.
    clear -Hb HB. induction HB as [|k s l d ds k' Hd _ IH]; [done|].
    rewrite fmap_cons, IH. cbn [length countdown]. f_equal. by apply Hb in Hd as (_ & _ & -> & _).
  - clear -HB. by induction HB as [|k s l d ds k' Hd _ IH].
Qed.

(** ** The four families *)

Section Families.
Context `{MapRange}.
#[local] Set Default Proof Using "All".

(** What the spec wants at a bus of a family. *)
Definition ide_wanted (hw : option VirtualMachineHardwareSpec) : gmap Z IDEControllerSpec :=
  by_bus ide_BusNumber (from_option IDEControllers [] hw).
Definition nvme_wanted (hw : option VirtualMachineHardwareSpec) : gmap Z NVMEControllerSpec :=
  by_bus nvme_BusNumber
    (filter (λ c, validateNVMEController c = true) (from_option NVMEControllers [] hw)).
Definition sata_wanted (hw : option VirtualMachineHardwareSpec) : gmap Z SATAControllerSpec :=
  by_bus sata_BusNumber (from_option SATAControllers [] hw).
Definition scsi_wanted (hw : option VirtualMachineHardwareSpec) : gmap Z SCSIControllerSpec :=
  by_bus scsi_BusNumber (from_option SCSIControllers [] hw).

Definition any_conforms {Spec} (s : Spec) (d : HwDevice) : Prop := True.
Definition nvme_conforms (s : NVMEControllerSpec) (d : HwDevice) : Prop :=
  SharedBus d = sharingModeToNVMEControllerSharing (nvme_SharingMode s).
Definition scsi_conforms (s : SCSIControllerSpec) (d : HwDevice) : Prop :=
  SharedBus d = sharingModeToSCSIVimTypes (scsi_SharingMode s) ∧
  SCSIControllerTypeMatch d (scsi_Type s) = true.

Definition wanted (hw : option VirtualMachineHardwareSpec) (t : VirtualControllerType) (b : Z) :
    option (HwDevice → Prop) :=
  match t with
  | VirtualControllerTypeIDE => any_conforms <$> ide_wanted hw !! b
  | VirtualControllerTypeNVME => nvme_conforms <$> nvme_wanted hw !! b
  | VirtualControllerTypeSATA => any_conforms <$> sata_wanted hw !! b
  | VirtualControllerTypeSCSI => scsi_conforms <$> scsi_wanted hw !! b
  | _ => None
  end.

Lemma by_bus_elem {Spec} (bus : Spec → Z) l b s : by_bus bus l !! b = Some s → s ∈ l ∧ bus s = b.
Proof.
  unfold by_bus. induction l as [|c l IH] using rev_ind; [done|].
  rewrite foldl_app. simpl. rewrite lookup_insert_Some, elem_of_app, list_elem_of_singleton. naive_solver.
Qed.

Lemma by_bus_lookup {Spec} (bus : Spec → Z) l b s : by_bus bus l !! b = Some s → bus s = b.
Proof. by intros [_ ?]%by_bus_elem. Qed.

Lemma no_match_laws {Spec} t :
  FamilyLaws (Spec := Spec) t None None any_conforms.
Proof. by split. Qed.

Lemma nvme_laws :
  FamilyLaws VirtualControllerTypeNVME (Some nvmeDeviceMatchSpec) (Some editNVMEController) nvme_conforms.
Proof.
  split; unfold recreates, edited, editNVMEController, nvmeDeviceMatchSpec, nvme_conforms; simpl.
  - intros d s. by rewrite andb_false_r.
  - intros d s d'. rewrite orb_false_r. case_bool_decide as Hm; [done|]. intros [= <-].
    case_bool_decide; [done|]. by split; [|apply dec_stable].
  - intros d s _. rewrite orb_false_r. by case_bool_decide.
Qed.

Lemma scsi_laws :
  FamilyLaws VirtualControllerTypeSCSI (Some scsiDeviceMatchSpec) (Some editSCSIController) scsi_conforms.
Proof.
  split; unfold recreates, edited.
  - intros d s Hr e [= <-]. apply andb_true_iff in Hr as [_ Hr]. unfold editSCSIController in *.
    by destruct (SCSIControllerTypeMatch d (scsi_Type s)).
  - intros d s d'. unfold scsiDeviceMatchSpec, editSCSIController, scsi_conforms.
    destruct (SCSIControllerTypeMatch d (scsi_Type s)) eqn:Hty; simpl.
    + case_bool_decide as Hm; simpl; [done|]. intros [= <-].
      rewrite bool_decide_true by congruence. done.
    + by rewrite orb_true_r.
  - intros d s _. unfold scsiDeviceMatchSpec, editSCSIController, scsi_conforms.
    destruct (SCSIControllerTypeMatch d (scsi_Type s)) eqn:Hty; simpl.
    + case_bool_decide as Hm; simpl; [done|]. by rewrite ?orb_false_r.
    + by rewrite ?andb_false_r.
Qed.

(** *** What the loops append *)

Lemma change_devices_eq op l st :
  change_devices op l st =
  mkRec (rs_changes st ++ (change_of op <$> omap (rs_devs st !!.) l)) (rs_key st) (rs_devs st).
Proof.
  unfold change_devices. f_equal. generalize (rs_changes st) as cs.
  induction l as [|i l IH]; intros cs; simpl; [by rewrite app_nil_r|].
  rewrite IH. destruct (rs_devs st !! i); simpl; [|done].
  unfold addDeviceChangeOp. by rewrite <-(assoc_L (++)).
Qed.

Lemma add_controllers_eq {Spec} (new : Spec → Z → Z * HwDevice) (built : Spec → Z → HwDevice → Prop) l st :
  (∀ s k, (new s k).1 = wrap32 (k - 1) ∧ built s (wrap32 (k - 1)) (new s k).2) →
  ∃ ds key, add_controllers new l st =
    mkRec (rs_changes st ++ (change_of OperationAdd <$> ds)) key (rs_devs st) ∧
  Built built (rs_key st) l ds key.
Proof.
  intros Hnew. revert st. induction l as [|s l IH]; intros st.
  { exists [], (rs_key st). simpl. rewrite app_nil_r. split; [by destruct st|constructor]. }
  simpl. destruct (Hnew s (rs_key st)) as [Hk Hb]. destruct (new s (rs_key st)) as [key d]. simpl in *. subst key.
  destruct (IH (mkRec (addDeviceChangeOp (rs_changes st) d OperationAdd) (wrap32 (rs_key st - 1)) (rs_devs st)))
    as (ds & key & -> & HB). simpl in *. exists (d :: ds), key. split; [|by constructor].
  unfold addDeviceChangeOp. by rewrite <-(assoc_L (++)).
Qed.

Definition scsi_built (pci : Z) (s : SCSIControllerSpec) (k : Z) (d : HwDevice) : Prop :=
  ∃ k0, NewSCSIController s pci k0 = (k, Some d).

Lemma add_scsi_controllers_eq pci l st st' :
  add_scsi_controllers pci l st = Some st' →
  ∃ ds key, st' = mkRec (rs_changes st ++ (change_of OperationAdd <$> ds)) key (rs_devs st) ∧
  Built (scsi_built pci) (rs_key st) l ds key.
Proof.
  revert st. induction l as [|s l IH]; intros st; cbn [add_scsi_controllers].
  { intros [= <-]. exists [], (rs_key st). simpl. rewrite app_nil_r. split; [by destruct st|constructor]. }
  destruct (NewSCSIController s pci (rs_key st)) as [key [d|]] eqn:Hn; [|done].
  intros (ds & key' & -> & HB)%IH. simpl in *.
  assert (key = wrap32 (rs_key st - 1)) as -> by (by injection Hn).
  exists (d :: ds), key'. split; [|constructor; [by exists (rs_key st)|done]].
  unfold addDeviceChangeOp. by rewrite <-(assoc_L (++)).
Qed.

(** The three loops of a reconciler: remove, add, edit. *)
Lemma family_run {Spec} t (bus : Spec → Z) match_ edit conforms built existing l st ds key :
  FamilyLaws t match_ edit conforms → indexes t existing (rs_devs st) →
  (∀ s k d, built s k d →
     family (hw_kind d) = Some t ∧ hw_BusNumber d = bus s ∧ hw_Key d = k ∧ conforms s d) →
  let d := diffByBusNumber (rs_devs st) existing (by_bus bus l) match_ edit in
  let st1 := change_devices OperationRemove (toRemove d) (mkRec (rs_changes st) (rs_key st) (diff_devs d)) in
  Built built (rs_key st) (toAdd d) ds key →
  ∃ ch, FamilyStep t (wants conforms (by_bus bus l)) st
    (change_devices OperationEdit (toEdit d)
       (mkRec (rs_changes st1 ++ (change_of OperationAdd <$> ds)) key (rs_devs st1))) ch (length ds).
Proof.
  intros Hl Hex Hb d st1 HB. unfold st1. rewrite !change_devices_eq. simpl.
  rewrite <-!(assoc_L (++)). eexists.
  by apply (family_step t bus match_ edit conforms built existing (by_bus bus l) key ds st Hl Hex
    (by_bus_lookup _ _)).
Qed.

(** The same with [add_controllers] in the middle. *)
Lemma family_run_add {Spec} t (bus : Spec → Z) match_ edit conforms existing l st
    (new : Spec → Z → Z * HwDevice) :
  FamilyLaws t match_ edit conforms → indexes t existing (rs_devs st) →
  (∀ s k, (new s k).1 = wrap32 (k - 1) ∧ hw_Key (new s k).2 = wrap32 (k - 1) ∧
          family (hw_kind (new s k).2) = Some t ∧ hw_BusNumber (new s k).2 = bus s ∧
          conforms s (new s k).2) →
  let d := diffByBusNumber (rs_devs st) existing (by_bus bus l) match_ edit in
  let st1 := change_devices OperationRemove (toRemove d) (mkRec (rs_changes st) (rs_key st) (diff_devs d)) in
  ∃ ch n, FamilyStep t (wants conforms (by_bus bus l)) st
    (change_devices OperationEdit (toEdit d) (add_controllers new (toAdd d) st1)) ch n.
Proof.
  intros Hl Hex Hnew d st1.
  set (built := λ s k (d : HwDevice), ∃ k0, d = (new s k0).2 ∧ k = wrap32 (k0 - 1)).
  destruct (add_controllers_eq new built (toAdd d) st1) as (ds & key & -> & HB).
  { intros s k. split; [by apply Hnew|]. by exists k. }
  assert (∀ s k x, built s k x → family (hw_kind x) = Some t ∧ hw_BusNumber x = bus s ∧
                                 hw_Key x = k ∧ conforms s x) as Hb.
  { intros s k x (k0 & -> & ->). by destruct (Hnew s k0) as (_ & ? & ? & ? & ?). }
  destruct (family_run t bus match_ edit conforms built existing l st ds key Hl Hex Hb HB) as (ch & Hch).
  by exists ch, (length ds).
Qed.

Lemma no_edits {Spec} devs existing (desired : gmap Z Spec) :
  toEdit (diffByBusNumber devs existing desired None None) = [].
Proof.
  unfold diffByBusNumber.
  apply (Forall_foldl_inv _ (λ st, toEdit st = [])); [done|].
  intros st [b i] _ Hst. unfold diff_existing. by repeat case_match.
Qed.

Lemma ide_step pci hw existing st :
  indexes VirtualControllerTypeIDE existing (rs_devs st) →
  ∃ ch n, FamilyStep VirtualControllerTypeIDE (wanted hw VirtualControllerTypeIDE) st
            (reconcileIDEControllers pci hw existing st) ch n.
Proof.
  intros Hex.
  destruct (family_run_add VirtualControllerTypeIDE ide_BusNumber None None any_conforms existing
    (from_option IDEControllers [] hw) st (λ s, NewIDEController s pci) (no_match_laws _) Hex)
    as (ch & n & Hs); [done|].
  rewrite no_edits, change_devices_eq in Hs. cbn [omap list_omap fmap list_fmap] in Hs.
  rewrite app_nil_r in Hs. exists ch, n. unfold reconcileIDEControllers.
  set (r := add_controllers _ _ _) in *. by destruct r.
Qed.

Lemma nvme_step pci hw existing st :
  indexes VirtualControllerTypeNVME existing (rs_devs st) →
  ∃ ch n, FamilyStep VirtualControllerTypeNVME (wanted hw VirtualControllerTypeNVME) st
            (reconcileNVMEControllers pci hw existing st) ch n.
Proof.
  intros Hex. by apply (family_run_add VirtualControllerTypeNVME nvme_BusNumber _ _ nvme_conforms existing
    _ st (λ s, NewNVMEController s pci) nvme_laws Hex).
Qed.

Lemma sata_step pci hw existing st :
  indexes VirtualControllerTypeSATA existing (rs_devs st) →
  ∃ ch n, FamilyStep VirtualControllerTypeSATA (wanted hw VirtualControllerTypeSATA) st
            (reconcileSATAControllers pci hw existing st) ch n.
Proof.
  intros Hex. by apply (family_run_add VirtualControllerTypeSATA sata_BusNumber None None any_conforms
    existing _ st (λ s, NewSATAController s pci) (no_match_laws _) Hex).
Qed.

Lemma scsi_step pci hw existing st st' :
  indexes VirtualControllerTypeSCSI existing (rs_devs st) →
  reconcileSCSIControllers pci hw existing st = Some st' →
  ∃ ch n, FamilyStep VirtualControllerTypeSCSI (wanted hw VirtualControllerTypeSCSI) st st' ch n.
Proof.
  intros Hex. unfold reconcileSCSIControllers.
  destruct (add_scsi_controllers _ _ _) as [st2|] eqn:Ha; [|done]. intros [= <-].
  apply add_scsi_controllers_eq in Ha as (ds & key & -> & HB).
  destruct (family_run VirtualControllerTypeSCSI scsi_BusNumber _ _ scsi_conforms (scsi_built pci) existing
    (from_option SCSIControllers [] hw) st ds key scsi_laws Hex) as (ch & Hch); [|done|by eauto].
  intros s k d (k0 & Hn). unfold NewSCSIController in Hn. injection Hn as <- Hd.
  destruct (scsi_Type s) eqn:Ht; simplify_eq; (split_and!; [done..|]); unfold scsi_conforms; by rewrite Ht.
Qed.

End Families.

(** ** The reconciler *)

(** The devices of a VM: keys are unique, and so are the bus numbers of a
    family's controllers. *)
Record devices_wf (devs : list HwDevice) : Prop := {
  wf_keys : NoDup (hw_Key <$> devs);
  wf_slots i j d d' : devs !! i = Some d → devs !! j = Some d' →
    is_Some (family (hw_kind d)) → family (hw_kind d) = family (hw_kind d') →
    hw_BusNumber d = hw_BusNumber d' → i = j
}.

Definition families : list VirtualControllerType :=
  [VirtualControllerTypeIDE; VirtualControllerTypeNVME; VirtualControllerTypeSATA;
   VirtualControllerTypeSCSI].

Lemma family_elem k t : family k = Some t → t ∈ families.
Proof. destruct k; intros [= <-]; unfold families; set_solver. Qed.

Lemma collect_family_indexes t devs : devices_wf devs → indexes t (collect_family t devs) devs.
Proof.
  intros [_ Hslots] b i. unfold collect_family.
  enough (∀ l, l `prefix_of` devs →
    foldl (λ m '(i, d), if bool_decide (family (hw_kind d) = Some t)
                        then <[hw_BusNumber d := i]> m else m) (∅ : gmap Z nat) (imap pair l) !! b = Some i ↔
    ∃ d, l !! i = Some d ∧ family (hw_kind d) = Some t ∧ hw_BusNumber d = b) as Hl by (by apply Hl).
  intros l. induction l as [|d l IH] using rev_ind; intros Hp.
  { simpl. split; [done|]. intros (d & ? & _). done. }
  rewrite imap_app, foldl_app. cbn [imap foldl]. rewrite Nat.add_0_r.
  specialize (IH (prefix_app_l _ _ _ Hp)).
  assert (devs !! length l = Some d) as Hlast.
  { eapply prefix_lookup_Some; [|done]. apply list_lookup_middle. done. }
  case_bool_decide as Ht.
  - rewrite lookup_insert_Some, IH. split.
    + intros [[<- <-]|[Hne (d' & Hd' & ?)]].
      * exists d. split; [|done]. by apply list_lookup_middle.
      * exists d'. split; [|done]. by apply lookup_app_l_Some.
    + intros (d' & Hd' & Ht' & Hb). apply lookup_snoc_Some in Hd' as [[Hlt Hd']|[-> <-]].
      * right. split; [|eauto]. intros Hb'.
        assert (devs !! i = Some d') as Hi.
        { eapply prefix_lookup_Some; [|done]. by apply lookup_app_l_Some. }
        assert (i = length l); [|lia].
        eapply Hslots; [done..|by rewrite Ht'|congruence|congruence].
      * left. done.
  - rewrite IH. split.
    + intros (d' & Hd' & ?). exists d'. split; [|done]. by apply lookup_app_l_Some.
    + intros (d' & Hd' & Ht' & Hb). apply lookup_snoc_Some in Hd' as [[Hlt Hd']|[-> <-]]; [eauto|done].
Qed.

Lemma indexes_step t t' wants ex st st' ch n :
  t ≠ t' → FamilyStep t' wants st st' ch n → indexes t ex (rs_devs st) → indexes t ex (rs_devs st').
Proof.
  intros Hne Hs Hi b i. rewrite (Hi b i). apply exist_proper. intros d.
  split; intros (Hd & Ht & Hb); (split; [|done]); apply (step_others _ _ _ _ _ _ Hs); try done; congruence.
Qed.

Lemma FamilyChanges_transfer t wants D D' ch :
  (∀ d, family (hw_kind d) = Some t → d ∈ D ↔ d ∈ D') →
  FamilyChanges t D wants ch → FamilyChanges t D' wants ch.
Proof.
  intros Hd [H1 H2 H3 H4 H5 H6]. split; try done.
  - intros k (d & ? & ? & ?)%H1. exists d. by rewrite <-Hd.
  - intros d ? ?. apply H3; [by apply Hd|done].
  - intros b P [(d & ? & ? & ? & ?)|?]%H4; [left|by right]. exists d. by rewrite <-Hd.
  - intros d ? ?. apply H6; [by apply Hd|done].
Qed.

Section Reconcile.
Context `{MapRange}.
#[local] Set Default Proof Using "All".
Implicit Types (hw : option VirtualMachineHardwareSpec) (devs : list HwDevice)
  (dc : list (option HwChange)).

(** A chain of family steps over the families [ts]. *)
Inductive Steps hw : list VirtualControllerType → recState → recState →
    (VirtualControllerType → list (option HwChange)) → nat → Prop :=
  | Steps_nil st chs : Steps hw [] st st chs 0
  | Steps_cons t ts st st' st'' chs n m :
      FamilyStep t (wanted hw t) st st' (chs t) n → Steps hw ts st' st'' chs m →
      Steps hw (t :: ts) st st'' chs (n + m).

Lemma Steps_result hw ts st st' chs n :
  Steps hw ts st st' chs n →
  rs_changes st' = rs_changes st ++ concat (chs <$> ts) ∧
  hw_dev <$> rs_devs st' = hw_dev <$> rs_devs st ∧
  hw_Key <$> added (concat (chs <$> ts)) = countdown (rs_key st) n.
Proof.
  induction 1 as [st chs|t ts st st1 st' chs n m Hs _ (IH1 & IH2 & IH3)].
  { by rewrite app_nil_r. }
  cbn [concat fmap list_fmap]. split_and!.
  - rewrite IH1, (step_changes _ _ _ _ _ _ Hs). by rewrite <-(assoc_L (++)).
  - rewrite IH2. apply (step_devices _ _ _ _ _ _ Hs).
  - rewrite added_app, fmap_app. rewrite (step_added _ _ _ _ _ _ Hs).
    change (list_fmap _ _ chs ts) with (chs <$> ts). rewrite IH3, (step_key _ _ _ _ _ _ Hs).
    apply countdown_app.
Qed.

(** Every family's changes refer to the devices the chain started with. *)
Lemma Steps_families hw ts st st' chs n t :
  Steps hw ts st st' chs n → NoDup ts → NoDup (hw_Key <$> rs_devs st) → t ∈ ts →
  FamilyChanges t (rs_devs st) (wanted hw t) (chs t).
Proof.
  induction 1 as [st chs|t0 ts st st1 st' chs n m Hs _ IH]; [set_solver|].
  intros [Ht0 Hnd]%NoDup_cons Hk [->|Ht]%elem_of_cons.
  { by apply (step_family _ _ _ _ _ _ Hs). }
  eapply FamilyChanges_transfer; [|apply IH; [done| |done]].
  - intros d Hd. rewrite !list_elem_of_lookup. apply exist_proper. intros i.
    apply (step_others _ _ _ _ _ _ Hs). rewrite Hd. intros [= ->]. done.
  - enough (hw_Key <$> rs_devs st1 = hw_Key <$> rs_devs st) as -> by done.
    change hw_Key with (Key ∘ hw_dev). rewrite !list_fmap_compose.
    by rewrite (step_devices _ _ _ _ _ _ Hs).
Qed.

(** The state before the SCSI controllers are reconciled. *)
Definition before_scsi hw devs dc (pci : HwDevice) : recState :=
  reconcileSATAControllers (hw_Key pci) hw (collect_family VirtualControllerTypeSATA devs)
    (reconcileNVMEControllers (hw_Key pci) hw (collect_family VirtualControllerTypeNVME devs)
       (reconcileIDEControllers (hw_Key pci) hw (collect_family VirtualControllerTypeIDE devs)
          (mkRec dc (InitDeviceKey 0 dc) devs))).

Lemma vc_Reconcile_unfold hw ps devs dc pci :
  find_pci devs = Some pci →
  vc_Reconcile hw ps (Some devs) dc =
  match reconcileSCSIControllers (hw_Key pci) hw (collect_family VirtualControllerTypeSCSI devs)
          (before_scsi hw devs dc pci) with
  | None => Panic
  | Some st =>
    if existsb is_edit (drop (length dc) (rs_changes st)) && bool_decide (ps ≠ PoweredOff)
    then Ok (dc, Some (rs_devs st)) else Ok (rs_changes st, Some (rs_devs st))
  end.
Proof. intros Hp. unfold vc_Reconcile. by rewrite Hp. Qed.

Lemma first_three_steps hw devs dc pci :
  devices_wf devs →
  ∃ chs n, Steps hw [VirtualControllerTypeIDE; VirtualControllerTypeNVME; VirtualControllerTypeSATA]
             (mkRec dc (InitDeviceKey 0 dc) devs) (before_scsi hw devs dc pci) chs n ∧
  indexes VirtualControllerTypeSCSI (collect_family VirtualControllerTypeSCSI devs)
    (rs_devs (before_scsi hw devs dc pci)).
Proof.
  intros Hwf. unfold before_scsi. set (st0 := mkRec dc (InitDeviceKey 0 dc) devs).
  assert (∀ t, indexes t (collect_family t devs) (rs_devs st0)) as Hix
    by (intros t; by apply collect_family_indexes).
  destruct (ide_step (hw_Key pci) hw _ _ (Hix VirtualControllerTypeIDE)) as (c1 & n1 & S1).
  set (st1 := reconcileIDEControllers _ _ _ _) in *.
  assert (∀ t, t ≠ VirtualControllerTypeIDE → indexes t (collect_family t devs) (rs_devs st1)) as Hix1
    by (intros t Ht; by apply (indexes_step _ _ _ _ _ _ _ _ Ht S1)).
  destruct (nvme_step (hw_Key pci) hw _ _ (Hix1 VirtualControllerTypeNVME ltac:(done))) as (c2 & n2 & S2).
  set (st2 := reconcileNVMEControllers _ _ _ _) in *.
  assert (∀ t, t ≠ VirtualControllerTypeIDE → t ≠ VirtualControllerTypeNVME →
    indexes t (collect_family t devs) (rs_devs st2)) as Hix2
    by (intros t Ht Ht'; apply (indexes_step _ _ _ _ _ _ _ _ Ht' S2); auto).
  destruct (sata_step (hw_Key pci) hw _ _ (Hix2 VirtualControllerTypeSATA ltac:(done) ltac:(done)))
    as (c3 & n3 & S3).
  set (chs := λ t, match t with
                   | VirtualControllerTypeIDE => c1 | VirtualControllerTypeNVME => c2
                   | VirtualControllerTypeSATA => c3 | _ => [] end).
  exists chs, (n1 + (n2 + (n3 + 0)))%nat. split; [repeat (econstructor; [eassumption|]); constructor|].
  apply (indexes_step VirtualControllerTypeSCSI VirtualControllerTypeSATA _ _ _ _ _ _ ltac:(done) S3); auto.
Qed.

Lemma Steps_snoc hw ts st st' st'' chs n t ch m :
  Steps hw ts st st' chs n → t ∉ ts → FamilyStep t (wanted hw t) st' st'' ch m →
  Steps hw (ts ++ [t]) st st'' (λ x, if decide (x = t) then ch else chs x) (n + m).
Proof.
  induction 1 as [st chs|t0 ts st st1 st' chs n k Hs _ IH]; intros Ht Hlast; simpl.
  - replace m with (m + 0)%nat by lia. econstructor; [|constructor]. by rewrite decide_True.
  - rewrite <-Nat.add_assoc. econstructor; [|apply IH; [set_solver|done]].
    by rewrite decide_False by set_solver.
Qed.

Lemma reconcile_steps hw ps devs dc r :
  devices_wf devs → vc_Reconcile hw ps (Some devs) dc = Ok r →
  ∃ chs n st, Steps hw families (mkRec dc (InitDeviceKey 0 dc) devs) st chs n ∧
    r = (if existsb is_edit (concat (chs <$> families)) && bool_decide (ps ≠ PoweredOff)
         then dc else dc ++ concat (chs <$> families), Some (rs_devs st)).
Proof.
  intros Hwf Hr. destruct (find_pci devs) as [pci|] eqn:Hp; [|unfold vc_Reconcile in Hr; by rewrite Hp in Hr].
  rewrite (vc_Reconcile_unfold _ _ _ _ _ Hp) in Hr.
  destruct (first_three_steps hw devs dc pci Hwf) as (chs & n & Hs & Hix).
  destruct (reconcileSCSIControllers _ _ _ _) as [st|] eqn:H4; [|done].
  destruct (scsi_step _ _ _ _ _ Hix H4) as (c4 & n4 & S4).
  assert (VirtualControllerTypeSCSI ∉ [VirtualControllerTypeIDE; VirtualControllerTypeNVME;
    VirtualControllerTypeSATA]) as Hnin by (clear; set_solver).
  pose proof (Steps_snoc _ _ _ _ _ _ _ _ _ _ Hs Hnin S4) as Hsteps. clear H4 Hs Hix.
  eexists _, _, st. split; [exact Hsteps|].
  apply Steps_result in Hsteps as (Hch & _). rewrite Hch in Hr. simpl rs_changes in Hr.
  rewrite drop_app_length in Hr. change families with ([VirtualControllerTypeIDE;
    VirtualControllerTypeNVME; VirtualControllerTypeSATA] ++ [VirtualControllerTypeSCSI]).
  destruct (_ && _); by simplify_eq.
Qed.

(** *** After the changes *)

Definition at_slot (t : VirtualControllerType) (b : Z) (d : HwDevice) : Prop :=
  family (hw_kind d) = Some t ∧ hw_BusNumber d = b.

(** The devices [l] have exactly the controllers the spec wants. *)
Definition as_wanted hw (l : list HwDevice) : Prop :=
  ∀ t b, t ∈ families →
  match wanted hw t b with
  | None => ∀ d, d ∈ l → ¬ at_slot t b d
  | Some P => ∃ d, d ∈ l ∧ at_slot t b d ∧ P d ∧ ∀ d', d' ∈ l → at_slot t b d' → d' = d
  end.

Lemma elem_of_concat_chs {A} (f : list (option HwChange) → list A)
    (chs : VirtualControllerType → list (option HwChange)) ts x :
  (∀ c1 c2, f (c1 ++ c2) = f c1 ++ f c2) → f [] = [] →
  x ∈ f (concat (chs <$> ts)) ↔ ∃ t, t ∈ ts ∧ x ∈ f (chs t).
Proof.
  intros Happ Hnil. induction ts as [|t ts IH]; simpl; [rewrite Hnil; set_solver|].
  rewrite Happ, elem_of_app. change (list_fmap _ _ chs ts) with (chs <$> ts). rewrite IH. set_solver.
Qed.

Lemma as_wanted_intro hw devs :
  devices_wf devs →
  (∀ t d, d ∈ devs → family (hw_kind d) = Some t →
     ∃ P, wanted hw t (hw_BusNumber d) = Some P ∧ P d) →
  (∀ t b P, t ∈ families → wanted hw t b = Some P → ∃ d, d ∈ devs ∧ at_slot t b d) →
  as_wanted hw devs.
Proof.
  intros Hwf Hok Hall t b Ht. destruct (wanted hw t b) as [P|] eqn:HP.
  - destruct (Hall t b P Ht HP) as (d & Hd & Hs). exists d. pose proof Hs as [Hf Hb].
    destruct (Hok t d Hd Hf) as (P' & HP' & HPd). rewrite Hb, HP in HP'. simplify_eq.
    split_and!; [done..|]. intros d' Hd' [Hf' Hb'].
    apply list_elem_of_lookup_1 in Hd as [i Hi]. apply list_elem_of_lookup_1 in Hd' as [j Hj].
    assert (i = j) by (eapply (wf_slots _ Hwf); try done; [by rewrite Hf|congruence..]). congruence.
  - intros d Hd [Hf <-]. destruct (Hok t d Hd Hf) as (P' & HP' & _). congruence.
Qed.

Section Applied.
Context hw devs (chs : VirtualControllerType → list (option HwChange)).
Context (Hwf : devices_wf devs).
Context (Hfam : ∀ t, t ∈ families → FamilyChanges t devs (wanted hw t) (chs t)).
Let new := concat (chs <$> families).

Lemma key_touched d :
  d ∈ devs →
  hw_Key d ∈ touched new ↔ ∃ t, family (hw_kind d) = Some t ∧ hw_Key d ∈ touched (chs t).
Proof.
  intros Hd. unfold new. rewrite (elem_of_concat_chs touched); [|apply touched_app|done]. split.
  - intros (t & Ht & Hk). exists t. split; [|done].
    destruct (fc_touched _ _ _ _ (Hfam t Ht) _ Hk) as (d' & Hd' & Hf & Hk').
    by rewrite (NoDup_fmap_inv_eq _ _ d d' (wf_keys _ Hwf)).
  - intros (t & Ht & Hk). exists t. split; [by eapply family_elem|done].
Qed.

Lemma elem_of_reconfigured t b d :
  at_slot t b d →
  d ∈ reconfigured devs new ↔ (d ∈ devs ∧ hw_Key d ∉ touched (chs t)) ∨ d ∈ placed (chs t).
Proof.
  intros [Ht _]. unfold reconfigured. rewrite elem_of_app, list_elem_of_filter.
  unfold new at 2. rewrite (elem_of_concat_chs placed); [|apply placed_app|done]. split.
  - intros [[Hn Hd]|(t' & Ht' & Hp)].
    + left. split; [done|]. intros Hk. apply Hn, key_touched; eauto.
    + right. destruct (fc_placed _ _ _ _ (Hfam t' Ht') _ Hp) as [Hf _]. congruence.
  - intros [[Hd Hk]|Hp].
    + left. split; [|done]. intros (t' & Ht' & Hk')%key_touched; [|done]. congruence.
    + right. exists t. split; [by eapply family_elem|done].
Qed.

Lemma reconfigured_as_wanted : as_wanted hw (reconfigured devs new).
Proof.
  intros t b Ht. pose proof (Hfam t Ht) as Hf.
  assert (∀ d, d ∈ reconfigured devs new → at_slot t b d → ∃ P, wanted hw t b = Some P ∧ P d) as Hok.
  { intros d Hd Hs. pose proof Hs as [Hdt <-]. apply (elem_of_reconfigured _ _ _ Hs) in Hd as [[Hd Hk]|Hp].
    - by apply (fc_kept _ _ _ _ Hf).
    - by apply (fc_placed _ _ _ _ Hf). }
  destruct (wanted hw t b) as [P|] eqn:HP.
  2: { intros d Hd Hs. by destruct (Hok d Hd Hs) as (? & ? & _). }
  assert (∀ d d', d ∈ reconfigured devs new → d' ∈ reconfigured devs new →
    at_slot t b d → at_slot t b d' → d = d') as Huniq.
  { intros d d' Hd Hd' Hs Hs'. apply (elem_of_reconfigured _ _ _ Hs) in Hd.
    apply (elem_of_reconfigured _ _ _ Hs') in Hd'. destruct Hs as [Hdt Hb], Hs' as [Hdt' Hb'].
    destruct Hd as [[Hd Hk]|Hd], Hd' as [[Hd' Hk']|Hd'].
    - apply list_elem_of_lookup_1 in Hd as [i Hi]. apply list_elem_of_lookup_1 in Hd' as [j Hj].
      assert (i = j) by (eapply (wf_slots _ Hwf); try done; [by rewrite Hdt|congruence..]). congruence.
    - destruct (fc_disjoint _ _ _ _ Hf d Hd Hdt Hk). rewrite Hb, <-Hb'. by apply list_elem_of_fmap_2.
    - destruct (fc_disjoint _ _ _ _ Hf d' Hd' Hdt' Hk'). rewrite Hb', <-Hb. by apply list_elem_of_fmap_2.
    - eapply NoDup_fmap_inv_eq; [apply (fc_nodup _ _ _ _ Hf)|done|done|congruence]. }
  assert (∃ d, d ∈ reconfigured devs new ∧ at_slot t b d) as (d & Hd & Hs).
  { destruct (fc_complete _ _ _ _ Hf b P HP) as [(d & Hd & Hdt & Hb & Hk)|(d & Hd & Hb)]; exists d.
    - split; [|done]. apply (elem_of_reconfigured t b d); [done|]. by left.
    - assert (at_slot t b d) by (split; [by apply (fc_placed _ _ _ _ Hf)|done]).
      split; [|done]. apply (elem_of_reconfigured t b d); [done|]. by right. }
  exists d. split_and!; [done..| |].
  - destruct (Hok d Hd Hs) as (P' & [= <-] & ?). done.
  - intros d' Hd' Hs'. by apply Huniq.
Qed.

Lemma reconfigured_others d :
  family (hw_kind d) = None → d ∈ reconfigured devs new ↔ d ∈ devs.
Proof.
  intros Hn. unfold reconfigured. rewrite elem_of_app, list_elem_of_filter.
  unfold new at 2. rewrite (elem_of_concat_chs placed); [|apply placed_app|done]. split.
  - intros [[_ Hd]|(t & Ht & Hp)]; [done|].
    destruct (fc_placed _ _ _ _ (Hfam t Ht) _ Hp) as [Hf _]. congruence.
  - intros Hd. left. split; [|done]. intros (t & Ht & _)%key_touched; [congruence|done].
Qed.
End Applied.

(** C8: Carrying out the device changes the reconciler requests leaves the VM
    with exactly one controller at every bus the spec lists for a family, of
    the wanted type and bus sharing, no controller at any other bus, and every
    device that is no controller as it was; the changes already in the
    ConfigSpec are kept in front. *)
Theorem controllers_become_wanted hw ps devs dc dc' config' :
  devices_wf devs → vc_Reconcile hw ps (Some devs) dc = Ok (dc', config') →
  ps = PoweredOff ∨ dc' ≠ dc →
  ∃ new, dc' = dc ++ new ∧ as_wanted hw (reconfigured devs new) ∧
  ∀ d, family (hw_kind d) = None → d ∈ reconfigured devs new ↔ d ∈ devs.
Proof.
  intros Hwf Hr Hps. apply reconcile_steps in Hr as (chs & n & st & Hs & Hr); [|done].
  assert (∀ t, t ∈ families → FamilyChanges t devs (wanted hw t) (chs t)) as Hfam.
  { intros t Ht. apply (Steps_families _ _ _ _ _ _ _ Hs); [|apply Hwf|done].
    unfold families. repeat constructor; set_solver. }
  exists (concat (chs <$> families)). split_and!.
  - destruct (_ && _) eqn:Hc; [|by simplify_eq]. apply andb_true_iff in Hc as [_ Hc].
    bool_to_prop. simplify_eq. by destruct Hps.
  - by apply reconfigured_as_wanted.
  - intros d. by apply (reconfigured_others hw).
Qed.

(** While the VM is not powered off the reconciler never asks for a
    controller to be edited: either what it adds are additions and removals
    only, or, when an edit would be needed, it adds nothing at all. *)
Theorem no_hot_edits hw ps devs dc dc' config' :
  devices_wf devs → vc_Reconcile hw ps (Some devs) dc = Ok (dc', config') → ps ≠ PoweredOff →
  ∃ new, dc' = dc ++ new ∧ ∀ c, c ∈ new → is_edit c = false.
Proof.
  intros Hwf Hr Hps. apply reconcile_steps in Hr as (chs & n & st & Hs & Hr); [|done].
  rewrite bool_decide_true, andb_true_r in Hr by done.
  destruct (existsb is_edit _) eqn:He; simplify_eq.
  - exists []. rewrite app_nil_r. split; [done|set_solver].
  - exists (concat (chs <$> families)). split; [done|]. intros c Hc.
    apply not_true_is_false. intros Hce. assert (existsb is_edit (concat (chs <$> families)) = true); [|congruence].
    apply existsb_exists. exists c. by rewrite <-list_elem_of_In.
Qed.

(** *** Temporary keys *)

Lemma countdown_range k n x :
  - 2 ^ 31 ≤ k - Z.of_nat n → k ≤ 0 → x ∈ countdown k n → k - Z.of_nat n ≤ x < k.
Proof using.
  revert k. induction n as [|n IH]; intros k Hlo Hk; cbn [countdown]; [set_solver|].
  rewrite wrap32_id by (unfold in_int32; lia). intros [->|Hx]%elem_of_cons; [lia|].
  apply IH in Hx; lia.
Qed.

Lemma countdown_NoDup k n : - 2 ^ 31 ≤ k - Z.of_nat n → k ≤ 0 → NoDup (countdown k n).
Proof using.
  revert k. induction n as [|n IH]; intros k Hlo Hk; cbn [countdown]; [constructor|].
  rewrite wrap32_id by (unfold in_int32; lia). constructor; [|apply IH; lia].
  intros Hx. apply countdown_range in Hx; lia.
Qed.

Lemma length_countdown k n : length (countdown k n) = n.
Proof using. revert k. induction n as [|n IH]; intros k; simpl; [done|]. by rewrite IH. Qed.

(** The keys of the devices a ConfigSpec adds or edits. *)
Definition live_keys (dc : list (option HwChange)) : list Z :=
  omap (λ c, match c with
             | Some (mkHwChange OperationRemove _) => None
             | Some (mkHwChange _ (Some d)) => Some (hw_Key d)
             | _ => None
             end) dc.

Lemma InitDeviceKey_le k dc :
  InitDeviceKey k dc ≤ k ∧ ∀ x, x ∈ live_keys dc → InitDeviceKey k dc ≤ x.
Proof using.
  unfold InitDeviceKey. revert k. induction dc as [|c dc IH]; intros k; cbn [foldl].
  { split; [lia|]. unfold live_keys. set_solver. }
  destruct (IH (init_key k c)) as [IH1 IH2].
  assert (init_key k c ≤ k) by (unfold init_key; repeat case_match; bool_to_prop; lia).
  split; [lia|]. unfold live_keys. rewrite omap_cons. intros x. case_match eqn:Hc; [|by apply IH2].
  intros [->|Hx]%elem_of_cons; [|by apply IH2]. etrans; [exact IH1|].
  unfold init_key. repeat case_match; simplify_eq/=; bool_to_prop; try done; lia.
Qed.

(** The controllers the reconciler adds get temporary keys that are negative,
    different from each other and below every key in use in the ConfigSpec, as
    long as the counter does not leave the 32-bit range. *)
Theorem new_keys_fresh hw ps devs dc new config' :
  devices_wf devs → vc_Reconcile hw ps (Some devs) dc = Ok (dc ++ new, config') →
  - 2 ^ 31 ≤ InitDeviceKey 0 dc - Z.of_nat (length (added new)) →
  NoDup (hw_Key <$> added new) ∧
  ∀ d, d ∈ added new → hw_Key d < 0 ∧ ∀ x, x ∈ live_keys dc → hw_Key d < x.
Proof.
  intros Hwf Hr Hlo. apply reconcile_steps in Hr as (chs & n & st & Hs & Hr); [|done].
  apply Steps_result in Hs as (_ & _ & Hadd). cbn [rs_key] in Hadd.
  destruct (InitDeviceKey_le 0 dc) as [Hk Hlive].
  assert (new = [] ∨ hw_Key <$> added new = countdown (InitDeviceKey 0 dc) n) as [->|Hn].
  { destruct (_ && _); injection Hr as Heq _; [left|right].
    - by apply (app_inv_head dc); rewrite app_nil_r.
    - apply app_inv_head in Heq as ->. done. }
  { split; [constructor|]. unfold added. set_solver. }
  assert (n = length (added new)) as ->
    by (rewrite <-(length_fmap hw_Key), Hn; symmetry; apply length_countdown).
  rewrite Hn. split; [by apply countdown_NoDup|]. intros d Hd.
  apply (list_elem_of_fmap_2 hw_Key) in Hd. rewrite Hn in Hd. apply countdown_range in Hd; [|lia..].
  split; [lia|]. intros x Hx%Hlive. lia.
Qed.

(** *** A VM that is as wanted *)

Lemma idle_run {Spec} t (bus : Spec → Z) match_ edit conforms existing l st :
  FamilyLaws t match_ edit conforms → indexes t existing (rs_devs st) →
  (∀ s d, conforms s d → edited match_ edit d s = None ∧ recreates match_ edit d s = false) →
  (∀ d, d ∈ rs_devs st → family (hw_kind d) = Some t →
     ∃ P, wants conforms (by_bus bus l) (hw_BusNumber d) = Some P ∧ P d) →
  (∀ b P, wants conforms (by_bus bus l) b = Some P →
     ∃ d, d ∈ rs_devs st ∧ family (hw_kind d) = Some t ∧ hw_BusNumber d = b) →
  let d := diffByBusNumber (rs_devs st) existing (by_bus bus l) match_ edit in
  toAdd d = [] ∧ mkRec (rs_changes st) (rs_key st) (diff_devs d) = st ∧
  ∀ op, change_devices op (toRemove d) st = st ∧ change_devices op (toEdit d) st = st.
Proof.
  intros Hl Hex Hc Hkeep Hall d.
  destruct (family_idle t bus match_ edit conforms Hl (rs_devs st) existing (by_bus bus l) Hex
    (by_bus_lookup _ _)) as (Hrem & Hed & Hadd & HD).
  { intros x Hx Ht. destruct (Hkeep x Hx Ht) as (P & HP & HPx). unfold wants in HP.
    destruct (by_bus bus l !! hw_BusNumber x) as [s|]; [|done]. simplify_eq/=.
    exists s. split; [done|]. by apply Hc. }
  { intros b s Hs. apply (Hall b (conforms s)). unfold wants. by rewrite Hs. }
  split; [exact Hadd|]. change (diff_devs d) with (D' match_ edit (rs_devs st) existing (by_bus bus l)).
  split; [rewrite HD; by destruct st|]. intros op. rewrite !change_devices_eq, <-HD.
  change (omap _ (toRemove d)) with (removed_devices match_ edit (rs_devs st) existing (by_bus bus l)).
  change (omap _ (toEdit d)) with (edited_devices match_ edit (rs_devs st) existing (by_bus bus l)).
  rewrite Hrem, Hed, HD, app_nil_r. by destruct st.
Qed.

Lemma as_wanted_slots hw devs t :
  as_wanted hw devs → t ∈ families →
  (∀ d, d ∈ devs → family (hw_kind d) = Some t → ∃ P, wanted hw t (hw_BusNumber d) = Some P ∧ P d) ∧
  (∀ b P, wanted hw t b = Some P → ∃ d, d ∈ devs ∧ family (hw_kind d) = Some t ∧ hw_BusNumber d = b).
Proof.
  intros Hw Ht. split.
  - intros d Hd Hf. specialize (Hw t (hw_BusNumber d) Ht). destruct (wanted hw t _) as [P|].
    + destruct Hw as (d' & _ & _ & HP & Hu). exists P. split; [done|].
      by rewrite (Hu d Hd (conj Hf eq_refl)).
    + by destruct (Hw d Hd).
  - intros b P HP. specialize (Hw t b Ht). rewrite HP in Hw. destruct Hw as (d & Hd & [Hf Hb] & _). eauto.
Qed.

Lemma nvme_conforms_kept s d :
  nvme_conforms s d → edited (Some nvmeDeviceMatchSpec) (Some editNVMEController) d s = None ∧
  recreates (Some nvmeDeviceMatchSpec) (Some editNVMEController) d s = false.
Proof.
  unfold nvme_conforms, edited, recreates, nvmeDeviceMatchSpec. intros ->.
  by rewrite bool_decide_true.
Qed.

Lemma scsi_conforms_kept s d :
  scsi_conforms s d → edited (Some scsiDeviceMatchSpec) (Some editSCSIController) d s = None ∧
  recreates (Some scsiDeviceMatchSpec) (Some editSCSIController) d s = false.
Proof.
  unfold scsi_conforms, edited, recreates, scsiDeviceMatchSpec. intros [-> ->].
  by rewrite bool_decide_true.
Qed.

Lemma ide_idle pci hw devs existing st :
  as_wanted hw devs → rs_devs st = devs → indexes VirtualControllerTypeIDE existing devs →
  reconcileIDEControllers pci hw existing st = st.
Proof.
  intros Hw <- Hix. destruct (as_wanted_slots _ _ VirtualControllerTypeIDE Hw ltac:(unfold families; set_solver)) as [W1 W2].
  destruct (idle_run VirtualControllerTypeIDE ide_BusNumber None None any_conforms existing
    (from_option IDEControllers [] hw) st (no_match_laws _) Hix ltac:(done) W1 W2) as (Ha & Hd & Hc).
  unfold reconcileIDEControllers, diffIDEControllerByBusNumber. rewrite Hd, (proj1 (Hc _)), Ha. done.
Qed.

Lemma nvme_idle pci hw devs existing st :
  as_wanted hw devs → rs_devs st = devs → indexes VirtualControllerTypeNVME existing devs →
  reconcileNVMEControllers pci hw existing st = st.
Proof.
  intros Hw <- Hix. destruct (as_wanted_slots _ _ VirtualControllerTypeNVME Hw ltac:(unfold families; set_solver)) as [W1 W2].
  destruct (idle_run VirtualControllerTypeNVME nvme_BusNumber _ _ nvme_conforms existing _ st
    nvme_laws Hix nvme_conforms_kept W1 W2) as (Ha & Hd & Hc).
  unfold reconcileNVMEControllers, diffNVMEControllerByBusNumber. rewrite Hd, (proj1 (Hc _)), Ha. apply Hc.
Qed.

Lemma sata_idle pci hw devs existing st :
  as_wanted hw devs → rs_devs st = devs → indexes VirtualControllerTypeSATA existing devs →
  reconcileSATAControllers pci hw existing st = st.
Proof.
  intros Hw <- Hix. destruct (as_wanted_slots _ _ VirtualControllerTypeSATA Hw ltac:(unfold families; set_solver)) as [W1 W2].
  destruct (idle_run VirtualControllerTypeSATA sata_BusNumber None None any_conforms existing _ st
    (no_match_laws _) Hix ltac:(done) W1 W2) as (Ha & Hd & Hc).
  unfold reconcileSATAControllers, diffSATAControllerByBusNumber. rewrite Hd, (proj1 (Hc _)), Ha. apply Hc.
Qed.

Lemma scsi_idle pci hw devs existing st :
  as_wanted hw devs → rs_devs st = devs → indexes VirtualControllerTypeSCSI existing devs →
  reconcileSCSIControllers pci hw existing st = Some st.
Proof.
  intros Hw <- Hix. destruct (as_wanted_slots _ _ VirtualControllerTypeSCSI Hw ltac:(unfold families; set_solver)) as [W1 W2].
  destruct (idle_run VirtualControllerTypeSCSI scsi_BusNumber _ _ scsi_conforms existing _ st
    scsi_laws Hix scsi_conforms_kept W1 W2) as (Ha & Hd & Hc).
  unfold reconcileSCSIControllers, diffSCSIControllerByBusNumber. rewrite Hd, (proj1 (Hc _)), Ha.
  cbn [add_scsi_controllers]. f_equal. apply Hc.
Qed.

(** A VM whose controllers are as the spec wants them is left alone: no
    device change is added and no device is written, whatever its power state. *)
Theorem wanted_controllers_left_alone hw ps devs dc :
  devices_wf devs → is_Some (find_pci devs) → as_wanted hw devs →
  vc_Reconcile hw ps (Some devs) dc = Ok (dc, Some devs).
Proof.
  intros Hwf [pci Hpci] Hw. unfold vc_Reconcile. rewrite Hpci.
  rewrite (ide_idle _ _ devs), (nvme_idle _ _ devs), (sata_idle _ _ devs), (scsi_idle _ _ devs)
    by (done || by apply collect_family_indexes).
  cbn [rs_changes rs_devs]. rewrite drop_all. done.
Qed.

Lemma add_unknown_scsi pci l st s name :
  s ∈ l → scsi_Type s = OtherSCSIControllerType name → add_scsi_controllers pci l st = None.
Proof.
  intros Hs Ht. revert st. induction l as [|s' l IH]; intros st; [set_solver|].
  cbn [add_scsi_controllers]. apply elem_of_cons in Hs as [<-|Hs].
  - unfold NewSCSIController. by rewrite Ht.
  - destruct (NewSCSIController s' pci (rs_key st)) as [key [d|]]; [|done]. by apply IH.
Qed.

(** A SCSI controller of a type outside the four known ones, at a bus where
    the VM has none, makes the reconciler panic: the constructor returns nil and
    the type assertion on it fails. *)
Theorem unknown_scsi_type_panics hw ps devs dc b s name :
  devices_wf devs → is_Some (find_pci devs) →
  scsi_wanted hw !! b = Some s → scsi_Type s = OtherSCSIControllerType name →
  (∀ d, d ∈ devs → ¬ at_slot VirtualControllerTypeSCSI b d) →
  vc_Reconcile hw ps (Some devs) dc = Panic.
Proof.
  intros Hwf [pci Hp] Hs Ht Hno. rewrite (vc_Reconcile_unfold _ _ _ _ _ Hp).
  destruct (first_three_steps hw devs dc pci Hwf) as (chs & n & Hsteps & Hix).
  unfold reconcileSCSIControllers.
  rewrite (add_unknown_scsi _ _ _ s name); [done| |done].
  pose proof (by_bus_lookup scsi_BusNumber _ _ _ Hs) as Hb.
  apply (elem_of_toAdd VirtualControllerTypeSCSI scsi_BusNumber _ _ scsi_conforms scsi_laws _ _ _ Hix
    (by_bus_lookup _ _)). rewrite Hb. split; [exact Hs|].
  intros d Hd Hf Hdb. apply list_elem_of_lookup_1 in Hd as [i Hi].
  assert (collect_family VirtualControllerTypeSCSI devs !! b = Some i) as Hc by (apply Hix; eauto).
  apply (collect_family_indexes _ _ Hwf) in Hc as (d' & Hd' & Hf' & Hb').
  destruct (Hno d'); [by eapply list_elem_of_lookup_2|done].
Qed.

End Reconcile.

(** ** Witnesses *)

#[local] Instance sorted_range : MapRange := {
  map_range _ m := map_to_list m;
  map_range_perm _ _ := reflexivity _
}.

Module ControllerWitness.

Definition device (k : DeviceKind) (key bus : Z) (s : Sharing) : HwDevice :=
  mkHw (mkDevice k key 100 None bus) s.

Definition devs : list HwDevice :=
  [device VirtualPCIController 100 0 NoSharing; device VirtualIDEController 200 0 NoSharing;
   device ParaVirtualSCSIController 1000 0 NoSharing; device ParaVirtualSCSIController 1001 1 NoSharing;
   device VirtualNVMEController 31000 0 NoSharing; device VirtualDisk 2000 0 NoSharing].

(** One controller more per family, a changed type, a changed sharing. *)
Definition hw : option VirtualMachineHardwareSpec :=
  Some (mkHardware
    [mkSCSI 0 VirtualControllerSharingModePhysical SCSIControllerTypeParaVirtualSCSI;
     mkSCSI 1 VirtualControllerSharingModeNone SCSIControllerTypeLsiLogic]
    [mkSATA 0] [] [mkIDE 0; mkIDE 1] []).

(** What the VM has already. *)
Definition hw_same : option VirtualMachineHardwareSpec :=
  Some (mkHardware
    [mkSCSI 0 VirtualControllerSharingModeNone SCSIControllerTypeParaVirtualSCSI;
     mkSCSI 1 VirtualControllerSharingModeNone SCSIControllerTypeParaVirtualSCSI]
    [] [mkNVME 0 VirtualControllerSharingModeNone] [mkIDE 0] []).

Definition hw_unknown : option VirtualMachineHardwareSpec :=
  Some (mkHardware [mkSCSI 2 VirtualControllerSharingModeNone (OtherSCSIControllerType "New")] [] [] [] []).

Definition earlier : list (option HwChange) :=
  [change_of OperationAdd (device VirtualDisk (-7) 0 NoSharing)].

Lemma devs_wf : devices_wf devs.
Proof.
  split.
  - apply (bool_decide_unpack (NoDup _)). by vm_compute.
  - intros i j d d' Hi Hj Hf Hff Hb.
    do 6 try (destruct i as [|i]); try done; do 6 try (destruct j as [|j]); try done;
      simplify_eq/=; try done; by destruct Hf.
Qed.

Lemma same_as_wanted : as_wanted hw_same devs.
Proof.
  apply as_wanted_intro; [apply devs_wf|..].
  - intros t d Hd Hf. unfold devs in Hd.
    repeat (apply elem_of_cons in Hd as [->|Hd];
      [first [discriminate Hf | injection Hf as <-; eexists; by split]|]).
    by apply elem_of_nil in Hd.
  - assert (∀ t b d, d ∈ devs → at_slot t b d → ∃ d, d ∈ devs ∧ at_slot t b d) as Hex by eauto.
    intros t b P Ht HP. destruct t; try done; simpl in HP;
      apply fmap_Some in HP as (s & [Hs <-]%by_bus_elem & _).
    + apply list_elem_of_singleton in Hs as ->.
      by apply (Hex _ _ (device VirtualIDEController 200 0 NoSharing)); [set_solver|].
    + apply list_elem_of_singleton in Hs as ->.
      by apply (Hex _ _ (device VirtualNVMEController 31000 0 NoSharing)); [set_solver|].
    + apply elem_of_cons in Hs as [->|Hs].
      * by apply (Hex _ _ (device ParaVirtualSCSIController 1000 0 NoSharing)); [set_solver|].
      * apply list_elem_of_singleton in Hs as ->.
        by apply (Hex _ _ (device ParaVirtualSCSIController 1001 1 NoSharing)); [set_solver|].
Qed.

End ControllerWitness.

Lemma controllers_become_wanted_witness :
  ∃ new, match vc_Reconcile ControllerWitness.hw PoweredOff (Some ControllerWitness.devs)
                 ControllerWitness.earlier with
         | Ok (dc', _) => dc' = ControllerWitness.earlier ++ new ∧ length new = 6%nat
         | _ => False
         end ∧ as_wanted ControllerWitness.hw (reconfigured ControllerWitness.devs new).
Proof.
  set (r := vc_Reconcile ControllerWitness.hw PoweredOff (Some ControllerWitness.devs)
              ControllerWitness.earlier).
  destruct r as [[dc' cfg]| |] eqn:Hr; [|by vm_compute in Hr..].
  destruct (controllers_become_wanted _ _ _ _ _ _ ControllerWitness.devs_wf Hr (or_introl eq_refl))
    as (new & Hnew & Hw & _).
  exists new. split; [|done]. split; [done|].
  assert (length dc' = 7%nat) as Hl by (vm_compute in Hr; injection Hr as <- _; done).
  rewrite Hnew, length_app in Hl. simpl in Hl. lia.
Defined.

Lemma no_hot_edits_witness :
  ∃ new, vc_Reconcile ControllerWitness.hw PoweredOn (Some ControllerWitness.devs)
           ControllerWitness.earlier ≠ Panic ∧
         match vc_Reconcile ControllerWitness.hw PoweredOn (Some ControllerWitness.devs)
                 ControllerWitness.earlier with
         | Ok (dc', _) => dc' = ControllerWitness.earlier ++ new
         | _ => False
         end.
Proof.
  set (r := vc_Reconcile ControllerWitness.hw PoweredOn (Some ControllerWitness.devs)
              ControllerWitness.earlier).
  destruct r as [[dc' cfg]| |] eqn:Hr; [|by vm_compute in Hr..].
  destruct (no_hot_edits _ _ _ _ _ _ ControllerWitness.devs_wf Hr ltac:(done)) as (new & Hnew & _).
  by exists new.
Defined.

Lemma new_keys_fresh_witness :
  ∃ new, hw_Key <$> added new = [-8; -9; -10] ∧ NoDup (hw_Key <$> added new).
Proof.
  set (r := vc_Reconcile ControllerWitness.hw PoweredOff (Some ControllerWitness.devs)
              ControllerWitness.earlier).
  destruct r as [[dc' cfg]| |] eqn:Hr; [|by vm_compute in Hr..].
  assert (dc' = ControllerWitness.earlier ++ drop 1 dc' ∧
    hw_Key <$> added (drop 1 dc') = [-8; -9; -10]) as [Hdc Hk]
    by (vm_compute in Hr; injection Hr as <- _; by vm_compute).
  exists (drop 1 dc'). split; [done|]. rewrite Hdc in Hr.
  destruct (new_keys_fresh _ _ _ _ _ _ ControllerWitness.devs_wf Hr) as [Hnd _]; [|done].
  rewrite <-(length_fmap hw_Key), Hk. by vm_compute.
Defined.

Lemma wanted_controllers_left_alone_witness :
  vc_Reconcile ControllerWitness.hw_same PoweredOn (Some ControllerWitness.devs)
    ControllerWitness.earlier = Ok (ControllerWitness.earlier, Some ControllerWitness.devs).
Proof.
  apply (wanted_controllers_left_alone ControllerWitness.hw_same PoweredOn ControllerWitness.devs).
  - apply ControllerWitness.devs_wf.
  - by eexists.
  - apply ControllerWitness.same_as_wanted.
Defined.

Lemma unknown_scsi_type_panics_witness :
  vc_Reconcile ControllerWitness.hw_unknown PoweredOff (Some ControllerWitness.devs) [] = Panic.
Proof.
  apply (unknown_scsi_type_panics ControllerWitness.hw_unknown PoweredOff ControllerWitness.devs [] 2
    (mkSCSI 2 VirtualControllerSharingModeNone (OtherSCSIControllerType "New")) "New").
  - apply ControllerWitness.devs_wf.
  - by eexists.
  - by vm_compute.
  - done.
  - intros d Hd [Hf Hb]. unfold ControllerWitness.devs in Hd.
    repeat (apply elem_of_cons in Hd as [->|Hd]; [by vm_compute in Hf, Hb|]). by apply elem_of_nil in Hd.
Defined.
