(* ===== verification/Priority.v ===== *)
(** * Work queue priorities

    pkg/util/kube/priority.go (the event handlers that put requests on the work
    queue) and pkg/util/kube/vm.go (the priority of a VM).

    A handler's effect is the call it makes on the queue, if any: [Add] on a
    plain work queue, [AddWithOpts] on a priority queue, where larger numbers are
    served first.  [handler.LowPriority] belongs to controller-runtime: it is a
    parameter, and what is relied on is that it lies below the priorities of the
    events.  A call on a nil object panics. *)

From S2P Require Import Prelude Conditions PowerState.
Local Open Scope Z_scope.
Local Open Scope go_scope.

(** ** Events *)

Inductive EventType := EventCreate | EventUpdate | EventDelete | EventGeneric | OtherEvent (n : Z).

Definition EventType_String (e : EventType) : string :=
  match e with
  | EventCreate => "create"
  | EventUpdate => "update"
  | EventDelete => "delete"
  | EventGeneric => "generic"
  | OtherEvent _ => "unknown"
  end.

Definition PriorityGeneric : Z := 1.
Definition PriorityUpdate : Z := 2.
Definition PriorityDelete : Z := 3.
Definition PriorityCreate : Z := 4.

Definition PriorityVirtualMachineCreating : Z := 100.
Definition PriorityVirtualMachinePowerStateChange : Z := 99.
Definition PriorityVirtualMachineWaitingForIP : Z := 98.
Definition PriorityVirtualMachineDeleting : Z := 97.
Definition PriorityVirtualMachineWaitingForDiskPromo : Z := 96.

(** ** Objects *)

Record NetworkStatus := mkNetworkStatus {
  PrimaryIP4 : string;
  PrimaryIP6 : string
}.

(** The fields of a VirtualMachine the priority depends on; [vmp_Network] is
    the Disabled flag of Spec.Network where that is set. *)
Record PriorityVM := mkPriorityVM {
  vmp_Deleting : bool;
  vmp_Conditions : Conditions;
  vmp_StatusPowerState : string;
  vmp_SpecPowerState : string;
  vmp_Network : option bool;
  vmp_NetworkStatus : option NetworkStatus;
  vmp_PromoteDisksMode : string
}.

(** A [client.Object]; [obj_VM] is present when it is a VirtualMachine. *)
Record Object := mkObject {
  obj_Namespace : string;
  obj_Name : string;
  obj_Annotations : gmap string string;
  obj_Generation : Z;
  obj_ResourceVersion : string;
  obj_VM : option PriorityVM
}.

Definition ReconcilePriorityAnnotationKey : string :=
  "vmoperator.vmware.com.protected/reconcile-priority".
Definition VirtualMachineConditionCreated : string := "VirtualMachineCreated".
Definition VirtualMachineDiskPromotionSynced : string := "VirtualMachineDiskPromotionSynced".
Definition VirtualMachinePowerStateOn : string := "PoweredOn".
Definition VirtualMachinePromoteDisksModeDisabled : string := "Disabled".

(** [strconv.Atoi] of a 64-bit platform. *)
Definition Atoi (s : string) : option Z := ParseInt s.

(** ** The priority of a VM *)

Definition annotated_priority (o : Object) : option Z :=
  match obj_Annotations o !! ReconcilePriorityAnnotationKey with
  | Some v => if bool_decide (v = "") then None else Atoi v
  | None => None
  end.

Definition waiting_for_ip (vm : PriorityVM) : bool :=
  match vmp_Network vm with
  | Some disabled =>
    negb disabled &&
    match vmp_NetworkStatus vm with
    | None => true
    | Some st => bool_decide (PrimaryIP4 st = "") && bool_decide (PrimaryIP6 st = "")
    end
  | None => false
  end.

(** The [switch] on the VM: the first case that holds is the only one taken. *)
Definition vm_priority (vm : PriorityVM) (defaultPriority : Z) : Z :=
  if vmp_Deleting vm then PriorityVirtualMachineDeleting
  else if negb (IsTrue (vmp_Conditions vm) VirtualMachineConditionCreated)
  then PriorityVirtualMachineCreating
  else if bool_decide (vmp_StatusPowerState vm ≠ vmp_SpecPowerState vm)
  then PriorityVirtualMachinePowerStateChange
  else if bool_decide (vmp_StatusPowerState vm = VirtualMachinePowerStateOn)
  then if waiting_for_ip vm then PriorityVirtualMachineWaitingForIP else defaultPriority
  else if bool_decide (vmp_PromoteDisksMode vm ≠ VirtualMachinePromoteDisksModeDisabled)
  then if IsTrue (vmp_Conditions vm) VirtualMachineDiskPromotionSynced then defaultPriority
       else PriorityVirtualMachineWaitingForDiskPromo
  else defaultPriority.

(** [None] when [newObj] is nil: the call on it panics. *)
Definition GetVirtualMachineReconcilePriority (eventType : EventType) (newObj oldObj : option Object)
    (defaultPriority : Z) : option Z :=
  match newObj with
  | None => None
  | Some o =>
    match annotated_priority o with
    | Some i => Some i
    | None =>
      match obj_VM o with
      | None => Some defaultPriority
      | Some vm => Some (vm_priority vm defaultPriority)
      end
    end
  end.

(** ** The handlers *)

Definition GetPriorityFn : Type := EventType → option Object → option Object → Z → option Z.

Definition getPriority (eventType : EventType) (newObj oldObj : option Object) (defaultPriority : Z)
    (getPriorityFn : option GetPriorityFn) : option Z :=
  match getPriorityFn with
  | None => Some defaultPriority
  | Some f => f eventType newObj oldObj defaultPriority
  end.

Definition Request : Type := string * string.

Inductive QueueCall :=
  | Add (item : Request)
  | AddWithOpts (priority : Z) (item : Request).

Section Handlers.
Context (LowPriority : Z).
(** Whether the queue is a priority queue, and the handler's [GetPriority]. *)
Context (isPriorityQueue : bool) (fn : option GetPriorityFn).

Definition with_priority (p : option Z) (item : Request) : option (list QueueCall) :=
  match p with
  | None => None
  | Some priority => Some [AddWithOpts priority item]
  end.

Definition addToQueueCreate (obj : option Object) (isInInitialList : bool) (item : Request)
    (defaultPriority : Z) : option (list QueueCall) :=
  if negb isPriorityQueue then Some [Add item]
  else with_priority (if isInInitialList then Some LowPriority
                      else getPriority EventCreate obj obj defaultPriority fn) item.

Definition resource_version (o : option Object) : string := from_option obj_ResourceVersion "" o.

Definition addToQueueUpdate (objOld objNew : option Object) (item : Request) (defaultPriority : Z) :
    option (list QueueCall) :=
  if negb isPriorityQueue then Some [Add item]
  else with_priority (if bool_decide (resource_version objOld = resource_version objNew)
                      then Some LowPriority
                      else getPriority EventUpdate objNew objOld defaultPriority fn) item.

Definition addToQueueDelete (obj : option Object) (item : Request) (defaultPriority : Z) :
    option (list QueueCall) :=
  if negb isPriorityQueue then Some [Add item]
  else with_priority (getPriority EventDelete obj obj defaultPriority fn) item.

Definition addToQueueGeneric (obj : option Object) (item : Request) (defaultPriority : Z) :
    option (list QueueCall) :=
  if negb isPriorityQueue then Some [Add item]
  else with_priority (getPriority EventGeneric obj obj defaultPriority fn) item.

Definition request_of (o : Object) : Request := (obj_Namespace o, obj_Name o).

Definition handle_Create (obj : option Object) (isInInitialList : bool) : option (list QueueCall) :=
  match obj with
  | None => Some []
  | Some o => addToQueueCreate obj isInInitialList (request_of o) PriorityCreate
  end.

Definition handle_Update (objOld objNew : option Object) : option (list QueueCall) :=
  match objNew, objOld with
  | Some n, _ => addToQueueUpdate objOld objNew (request_of n) PriorityUpdate
  | None, Some o => addToQueueUpdate objOld objNew (request_of o) PriorityUpdate
  | None, None => Some []
  end.

Definition handle_Delete (obj : option Object) : option (list QueueCall) :=
  match obj with
  | None => Some []
  | Some o => addToQueueDelete obj (request_of o) PriorityDelete
  end.

Definition handle_Generic (obj : option Object) : option (list QueueCall) :=
  match obj with
  | None => Some []
  | Some o => addToQueueGeneric obj (request_of o) PriorityGeneric
  end.
End Handlers.

(** ** Properties *)

(** The events that concern an object, as the handlers receive them. *)
Inductive Event :=
  | CreateEvent (o : Object) (initial : bool)
  | UpdateEvent (o n : Object)
  | DeleteEvent (o : Object)
  | GenericEvent (o : Object).

Definition event_object (e : Event) : Object :=
  match e with CreateEvent o _ | UpdateEvent _ o | DeleteEvent o | GenericEvent o => o end.

(** Replays of what is known already: the initial list and unchanged versions. *)
Definition resync (e : Event) : bool :=
  match e with
  | CreateEvent _ initial => initial
  | UpdateEvent o n => bool_decide (obj_ResourceVersion o = obj_ResourceVersion n)
  | _ => false
  end.

Definition default_of (e : Event) : Z :=
  match e with
  | CreateEvent _ _ => PriorityCreate
  | UpdateEvent _ _ => PriorityUpdate
  | DeleteEvent _ => PriorityDelete
  | GenericEvent _ => PriorityGeneric
  end.

Definition handle (low : Z) (prioq : bool) (fn : option GetPriorityFn) (e : Event) :
    option (list QueueCall) :=
  match e with
  | CreateEvent o initial => handle_Create low prioq fn (Some o) initial
  | UpdateEvent o n => handle_Update low prioq fn (Some o) (Some n)
  | DeleteEvent o => handle_Delete prioq fn (Some o)
  | GenericEvent o => handle_Generic prioq fn (Some o)
  end.

(** What the VM is waiting for, most urgent first in the order it is served. *)
Inductive Urgency := Creating | ChangingPower | WaitingForIP | Deleting | WaitingForPromotion | Settled.

Definition urgency (vm : PriorityVM) : Urgency :=
  if vmp_Deleting vm then Deleting
  else if negb (IsTrue (vmp_Conditions vm) VirtualMachineConditionCreated) then Creating
  else if bool_decide (vmp_StatusPowerState vm ≠ vmp_SpecPowerState vm) then ChangingPower
  else if bool_decide (vmp_StatusPowerState vm = VirtualMachinePowerStateOn)
  then if waiting_for_ip vm then WaitingForIP else Settled
  else if bool_decide (vmp_PromoteDisksMode vm ≠ VirtualMachinePromoteDisksModeDisabled) &&
          negb (IsTrue (vmp_Conditions vm) VirtualMachineDiskPromotionSynced)
  then WaitingForPromotion else Settled.

(** The rank of an urgency; a settled VM keeps the rank of its event. *)
Definition rank (u : Urgency) : nat :=
  match u with
  | Creating => 5 | ChangingPower => 4 | WaitingForIP => 3 | Deleting => 2
  | WaitingForPromotion => 1 | Settled => 0
  end.

Lemma vm_priority_urgency vm d :
  vm_priority vm d = match urgency vm with Settled => d | u => 95 + Z.of_nat (rank u) end.
Proof.
  unfold vm_priority, urgency. repeat case_match; simplify_eq/=; bool_to_prop; try done; congruence.
Qed.

Lemma handle_vm low e vm :
  annotated_priority (event_object e) = None → obj_VM (event_object e) = Some vm →
  handle low true (Some GetVirtualMachineReconcilePriority) e =
  Some [AddWithOpts (if resync e then low else vm_priority vm (default_of e))
          (request_of (event_object e))].
Proof.
  intros Ha Hvm. destruct e as [o i|o n|o|o]; simpl in *;
    unfold handle_Create, handle_Update, handle_Delete, handle_Generic, addToQueueCreate,
      addToQueueUpdate, addToQueueDelete, addToQueueGeneric, getPriority, resource_version; simpl.
  - destruct i; simpl; [done|]. by rewrite Ha, Hvm.
  - case_bool_decide; [done|]. simpl. by rewrite Ha, Hvm.
  - by rewrite Ha, Hvm.
  - by rewrite Ha, Hvm.
Qed.

(** Every event of a VM puts exactly one request for it on the priority
    queue.  Of two events that are no replays, the one whose VM is more urgent
    gets the larger priority: VMs being created before power changes, before
    VMs waiting for an address, before deletions, before disk promotions, before
    settled ones; replays come after all of them. *)
Theorem urgent_requests_first low e1 e2 vm1 vm2 :
  low < PriorityGeneric →
  obj_VM (event_object e1) = Some vm1 → obj_VM (event_object e2) = Some vm2 →
  annotated_priority (event_object e1) = None → annotated_priority (event_object e2) = None →
  resync e1 = false → (rank (urgency vm2) < rank (urgency vm1))%nat ∨ resync e2 = true →
  ∃ p1 p2, p2 < p1 ∧
    handle low true (Some GetVirtualMachineReconcilePriority) e1 =
      Some [AddWithOpts p1 (request_of (event_object e1))] ∧
    handle low true (Some GetVirtualMachineReconcilePriority) e2 =
      Some [AddWithOpts p2 (request_of (event_object e2))].
Proof.
  intros Hlow Hv1 Hv2 Ha1 Ha2 Hr1 Hr. rewrite (handle_vm low e1 vm1), (handle_vm low e2 vm2) by done.
  rewrite Hr1. eexists _, _. split; [|done].
  assert (1 ≤ default_of e1 ≤ 4 ∧ 1 ≤ default_of e2 ≤ 4) as [? ?]
    by (destruct e1, e2; simpl; unfold PriorityCreate, PriorityUpdate, PriorityDelete, PriorityGeneric; lia).
  rewrite !vm_priority_urgency. unfold PriorityGeneric in Hlow.
  destruct (resync e2); [|destruct Hr as [Hr|Hr]; [|done]]; destruct (urgency vm1), (urgency vm2);
    simpl in *; lia.
Qed.

(** An update event that carries only the old object panics when the VM's
    priority function is installed, unless the old object has no version. *)
Theorem update_without_new_object_panics low o :
  obj_ResourceVersion o ≠ "" →
  handle_Update low true (Some GetVirtualMachineReconcilePriority) (Some o) None = None.
Proof.
  intros Hr. unfold handle_Update, addToQueueUpdate, resource_version. simpl.
  by rewrite bool_decide_false.
Qed.

(** A VM that is powered on as requested never gets the priority of disk
    promotion, whatever its promotion mode: the case for running VMs is taken
    before it. *)
Lemma running_vm_never_waits_for_promotion vm d :
  vmp_StatusPowerState vm = VirtualMachinePowerStateOn →
  vmp_SpecPowerState vm = VirtualMachinePowerStateOn →
  d ≠ PriorityVirtualMachineWaitingForDiskPromo →
  vm_priority vm d ≠ PriorityVirtualMachineWaitingForDiskPromo.
Proof.
  intros Hs Hp Hd. unfold vm_priority. rewrite Hs, Hp. repeat case_match; done.
Qed.

(** ** Witnesses *)

Module PriorityWitness.
Local Open Scope string_scope.

Definition created : Conditions :=
  [mkCondition VirtualMachineConditionCreated ConditionTrue 0 0 "True" ""].
Definition settled_vm : PriorityVM :=
  mkPriorityVM false created "PoweredOff" "PoweredOff" None None "Disabled".
Definition starting_vm : PriorityVM :=
  mkPriorityVM false created "PoweredOff" "PoweredOn" None None "Disabled".
Definition object (name version : string) (vm : PriorityVM) : Object :=
  mkObject "ns" name ∅ 1 version (Some vm).

End PriorityWitness.

Lemma urgent_requests_first_witness :
  ∃ p1 p2, p2 < p1 ∧
    handle (-100) true (Some GetVirtualMachineReconcilePriority)
      (UpdateEvent (PriorityWitness.object "a" "1" PriorityWitness.settled_vm)
                   (PriorityWitness.object "a" "2" PriorityWitness.starting_vm)) =
      Some [AddWithOpts p1 ("ns", "a")]%string ∧
    handle (-100) true (Some GetVirtualMachineReconcilePriority)
      (CreateEvent (PriorityWitness.object "b" "7" PriorityWitness.settled_vm) false) =
      Some [AddWithOpts p2 ("ns", "b")]%string.
Proof.
  apply (urgent_requests_first (-100)
    (UpdateEvent (PriorityWitness.object "a" "1" PriorityWitness.settled_vm)
                 (PriorityWitness.object "a" "2" PriorityWitness.starting_vm))
    (CreateEvent (PriorityWitness.object "b" "7" PriorityWitness.settled_vm) false)
    PriorityWitness.starting_vm PriorityWitness.settled_vm); try done.
  left. vm_compute. lia.
Defined.

Lemma update_without_new_object_panics_witness :
  handle_Update (-100) true (Some GetVirtualMachineReconcilePriority)
    (Some (PriorityWitness.object "a" "1" PriorityWitness.settled_vm)) None = None.
Proof. by apply update_without_new_object_panics. Defined.
