(* ===== verification/StorageControllers.v ===== *)
(** * Merging storage controllers and disks

    pkg/util/configspec.go and the controller identities of pkg/util/devices.go:
    the ConfigSpec of a VM class is checked against that of an image, controllers
    both have are taken from the image, the class's disks are moved to them, and
    the image's controllers and disks are copied over.  The controllers of the
    user's spec are then checked against the result.

    A ConfigSpec is its list of device changes; an entry is never a nil
    interface, on which the code would panic.  Devices are values: the one write
    through a shared pointer, to a disk's controller key, is an update. *)

From S2P Require Import Prelude DiskController Hardware VirtualController ControllerReconcile.
Local Open Scope Z_scope.
Local Open Scope go_scope.

(** ** Device changes *)

Record StorChange := mkStorChange {
  sc_Operation : DeviceOperation;
  sc_FileOperation : string;
  sc_Device : option HwDevice;
  sc_Profile : list string
}.

Definition with_Device (d : HwDevice) (c : StorChange) : StorChange :=
  mkStorChange (sc_Operation c) (sc_FileOperation c) (Some d) (sc_Profile c).

Definition hw_ControllerKey (d : HwDevice) : Z := ControllerKey (hw_dev d).
Definition set_ControllerKey (k : Z) (d : HwDevice) : HwDevice :=
  let v := hw_dev d in mkHw (mkDevice (kind v) (Key v) k (UnitNumber v) (BusNumber v)) (SharedBus d).

Definition DevicesFromConfigSpec (configSpec : list StorChange) : list HwDevice :=
  omap sc_Device configSpec.

Definition RemoveDevicesFromConfigSpec (configSpec : list StorChange) (fn : HwDevice → bool) :
    list StorChange :=
  filter (λ c, from_option fn false (sc_Device c) = false) configSpec.

Definition getAddDevice (devChange : StorChange) : option HwDevice :=
  if bool_decide (sc_Operation devChange ≠ OperationAdd) then None else sc_Device devChange.

(** ** Controllers *)

Definition is_scsi (k : DeviceKind) : bool :=
  match k with
  | ParaVirtualSCSIController | VirtualBusLogicController | VirtualLsiLogicController
  | VirtualLsiLogicSASController | VirtualSCSIController => true
  | _ => false
  end.

Definition is_sata (k : DeviceKind) : bool :=
  match k with VirtualSATAController | VirtualAHCIController => true | _ => false end.

Definition GetControllerIDFromDevice (device : HwDevice) : option ControllerID :=
  let bus := hw_BusNumber device in
  match hw_kind device with
  | VirtualIDEController => Some (mkControllerID VirtualControllerTypeIDE bus)
  | VirtualNVMEController => Some (mkControllerID VirtualControllerTypeNVME bus)
  | k => if is_scsi k then Some (mkControllerID VirtualControllerTypeSCSI bus)
         else if is_sata k then Some (mkControllerID VirtualControllerTypeSATA bus)
         else None
  end.

(** [None] is the empty string. *)
Definition scsiControllerTypeToVMOPType (d : HwDevice) : option SCSIControllerType :=
  match hw_kind d with
  | ParaVirtualSCSIController => Some SCSIControllerTypeParaVirtualSCSI
  | VirtualBusLogicController => Some SCSIControllerTypeBusLogic
  | VirtualLsiLogicController => Some SCSIControllerTypeLsiLogic
  | VirtualLsiLogicSASController => Some SCSIControllerTypeLsiLogicSAS
  | _ => None
  end.

Inductive controllerConflict :=
  | SCSISharedBusMismatch (bus : Z) (dst src : Sharing)
  | SCSIUnsupportedType (bus : Z)
  | SCSISubtypeMismatch (bus : Z) (dst src : SCSIControllerType)
  | NVMESharedBusMismatch (bus : Z) (dst src : Sharing).

(** The checks of the two cases that have any, for a source controller whose
    identity the destination has too. *)
Definition check_controller (dstCtrl srcCtrl : HwDevice) : option controllerConflict :=
  let bus := hw_BusNumber srcCtrl in
  if is_scsi (hw_kind srcCtrl) then
    if bool_decide (SharedBus dstCtrl ≠ SharedBus srcCtrl)
    then Some (SCSISharedBusMismatch bus (SharedBus dstCtrl) (SharedBus srcCtrl))
    else
      match scsiControllerTypeToVMOPType dstCtrl, scsiControllerTypeToVMOPType srcCtrl with
      | Some dt, Some st =>
        if bool_decide (dt ≠ st) then Some (SCSISubtypeMismatch bus dt st) else None
      | _, _ => Some (SCSIUnsupportedType bus)
      end
  else if bool_decide (hw_kind srcCtrl = VirtualNVMEController) then
    if bool_decide (SharedBus dstCtrl ≠ SharedBus srcCtrl)
    then Some (NVMESharedBusMismatch bus (SharedBus dstCtrl) (SharedBus srcCtrl)) else None
  else None.

Definition collect_controllers (cs : list StorChange) : gmap ControllerID HwDevice :=
  foldl (λ m c, match getAddDevice c with
                | Some d => match GetControllerIDFromDevice d with
                            | Some id => <[id := d]> m
                            | None => m
                            end
                | None => m
                end) ∅ cs.

Fixpoint validate_controllers (dstCtrls : gmap ControllerID HwDevice) (src : list StorChange)
    (dstKeyToSrcKey : gmap Z Z) (controllersToRemove : gset ControllerID) :
    controllerConflict + (gmap Z Z * gset ControllerID) :=
  match src with
  | [] => inr (dstKeyToSrcKey, controllersToRemove)
  | devChange :: rest =>
    match getAddDevice devChange with
    | None => validate_controllers dstCtrls rest dstKeyToSrcKey controllersToRemove
    | Some d =>
      match GetControllerIDFromDevice d with
      | None => validate_controllers dstCtrls rest dstKeyToSrcKey controllersToRemove
      | Some ctrlKey =>
        match dstCtrls !! ctrlKey with
        | None => validate_controllers dstCtrls rest dstKeyToSrcKey controllersToRemove
        | Some ctrl =>
          match check_controller ctrl d with
          | Some e => inl e
          | None => validate_controllers dstCtrls rest
                      (<[hw_Key ctrl := hw_Key d]> dstKeyToSrcKey) ({[ctrlKey]} ∪ controllersToRemove)
          end
        end
      end
    end
  end.

Definition ValidateStorageControllerCompatibility (dst src : list StorChange) :
    controllerConflict + (gmap Z Z * gset ControllerID) :=
  validate_controllers (collect_controllers dst) src ∅ ∅.

(** ** Copying and merging *)

(** [vimtypes.BaseVirtualController]. *)
Definition is_controller (k : DeviceKind) : bool :=
  match k with VirtualDisk | OtherDevice => false | _ => true end.

Definition is_disk (d : HwDevice) : bool := bool_decide (hw_kind d = VirtualDisk).

(** The change a source entry is copied as. *)
Definition copy_change (storagePolicyID : string) (c : StorChange) : option StorChange :=
  match getAddDevice c with
  | None => None
  | Some d =>
    match GetControllerIDFromDevice d with
    | Some _ => Some (mkStorChange OperationAdd "" (Some d) [])
    | None =>
      if is_disk d
      then Some (mkStorChange OperationAdd "create" (Some d)
                   (if bool_decide (storagePolicyID = "") then [] else [storagePolicyID]))
      else None
    end
  end.

Definition controller_keys (src : list StorChange) : list Z :=
  omap (λ c, d ← getAddDevice c; _ ← GetControllerIDFromDevice d; Some (hw_Key d)) src.

Definition disk_controller_keys (src : list StorChange) : list Z :=
  omap (λ c, d ← getAddDevice c; if is_disk d then Some (hw_ControllerKey d) else None) src.

Definition unused_controller (src : list StorChange) (d : HwDevice) : bool :=
  is_controller (hw_kind d) && bool_decide (hw_Key d ∈ controller_keys src) &&
  bool_decide (hw_Key d ∉ disk_controller_keys src).

Definition CopyStorageControllersAndDisks (dst src : list StorChange) (storagePolicyID : string) :
    list StorChange :=
  RemoveDevicesFromConfigSpec (dst ++ omap (copy_change storagePolicyID) src) (unused_controller src).

(** The write to [disk.ControllerKey]. *)
Definition remap_device (dstKeyToSrcKey : gmap Z Z) (d : HwDevice) : HwDevice :=
  if is_disk d
  then match dstKeyToSrcKey !! hw_ControllerKey d with
       | Some k => set_ControllerKey k d
       | None => d
       end
  else d.

Definition remap_disk (dstKeyToSrcKey : gmap Z Z) (c : StorChange) : StorChange :=
  match getAddDevice c with
  | Some d => with_Device (remap_device dstKeyToSrcKey d) c
  | None => c
  end.

Definition MergeStorageControllersAndDisks (dst src : list StorChange) (dstKeyToSrcKey : gmap Z Z)
    (controllersToRemove : gset ControllerID) (storagePolicyID : string) : list StorChange :=
  let dst := RemoveDevicesFromConfigSpec dst (λ d,
               match GetControllerIDFromDevice d with
               | Some id => bool_decide (id ∈ controllersToRemove)
               | None => false
               end) in
  let dst := remap_disk dstKeyToSrcKey <$> dst in
  CopyStorageControllersAndDisks dst src storagePolicyID.

(** ** The controllers of the user's spec *)

Definition findPCIController (deviceSpecs : list StorChange) : option HwDevice :=
  head (filter (λ d, hw_kind d = VirtualPCIController) (omap getAddDevice deviceSpecs)).

Definition add_change (d : HwDevice) : StorChange := mkStorChange OperationAdd "" (Some d) [].

Definition scsi_complete (spec : SCSIControllerSpec) : bool :=
  match scsi_Type spec with
  | OtherSCSIControllerType _ => false
  | _ => match scsi_SharingMode spec with
         | VirtualControllerSharingModeNone | VirtualControllerSharingModePhysical
         | VirtualControllerSharingModeVirtual => true
         | _ => false
         end
  end.

Definition nvme_complete (spec : NVMEControllerSpec) : bool :=
  match nvme_SharingMode spec with
  | VirtualControllerSharingModeNone | VirtualControllerSharingModePhysical => true
  | _ => false
  end.

(** A loop over controllers of one family: [new] is the constructor. *)
Fixpoint user_controllers {Spec} (complete : Spec → bool) (new : Spec → Z → Z * option HwDevice)
    (l : list Spec) (key : Z) (acc : list StorChange) : Z * list StorChange :=
  match l with
  | [] => (key, acc)
  | spec :: rest =>
    if complete spec then
      let '(key, ctrl) := new spec key in
      user_controllers complete new rest key
        (match ctrl with Some d => acc ++ [add_change d] | None => acc end)
    else user_controllers complete new rest key acc
  end.

Definition always_new {Spec} (new : Spec → Z → Z → Z * HwDevice) (pciKey : Z) (s : Spec) (key : Z) :
    Z * option HwDevice :=
  let '(key, d) := new s pciKey key in (key, Some d).

Definition CreateUserStorageControllersConfigSpec (hardware : option VirtualMachineHardwareSpec)
    (configSpec : list StorChange) : list StorChange :=
  match hardware with
  | None => []
  | Some hw =>
    let key := InitDeviceKey 0 ((λ c, Some (mkHwChange (sc_Operation c) (sc_Device c))) <$> configSpec) in
    let pciKey := from_option hw_Key 0 (findPCIController configSpec) in
    let '(key, acc) := user_controllers scsi_complete (λ s, NewSCSIController s pciKey)
                         (SCSIControllers hw) key [] in
    let '(key, acc) := user_controllers (λ _, true) (always_new NewSATAController pciKey)
                         (SATAControllers hw) key acc in
    let '(key, acc) := user_controllers nvme_complete (always_new NewNVMEController pciKey)
                         (NVMEControllers hw) key acc in
    let '(_, acc) := user_controllers (λ _, true) (always_new NewIDEController pciKey)
                       (IDEControllers hw) key acc in
    acc
  end.

(** ** The devices of a ConfigSpec *)

Definition adds (cs : list StorChange) : list HwDevice := omap getAddDevice cs.

Definition identified (d : HwDevice) : option (ControllerID * HwDevice) :=
  id ← GetControllerIDFromDevice d; Some (id, d).

(** The controllers the ConfigSpec adds, with their identities. *)
Definition controllers (cs : list StorChange) : list (ControllerID * HwDevice) :=
  omap identified (adds cs).

Definition disks (cs : list StorChange) : list HwDevice :=
  filter (λ d, is_disk d = true) (adds cs).

(** [d] hangs on the controller of identity [id]. *)
Definition attached_to (cs : list StorChange) (d : HwDevice) (id : ControllerID) : Prop :=
  ∃ c, (id, c) ∈ controllers cs ∧ hw_Key c = hw_ControllerKey d.

(** No two controllers of the ConfigSpec have the same identity. *)
Definition unique_ids (cs : list StorChange) : Prop := NoDup (controllers cs).*1.

(** What it takes for the source controller to replace the destination's. *)
Definition compatible (dst src : HwDevice) : Prop :=
  if is_scsi (hw_kind src) then
    SharedBus dst = SharedBus src ∧
    ∃ t, scsiControllerTypeToVMOPType dst = Some t ∧ scsiControllerTypeToVMOPType src = Some t
  else hw_kind src = VirtualNVMEController → SharedBus dst = SharedBus src.

Lemma elem_of_adds cs d : d ∈ adds cs ↔ ∃ c, c ∈ cs ∧ getAddDevice c = Some d.
Proof. apply list_elem_of_omap. Qed.

Lemma elem_of_controllers cs id d :
  (id, d) ∈ controllers cs ↔ d ∈ adds cs ∧ GetControllerIDFromDevice d = Some id.
Proof.
  unfold controllers. rewrite list_elem_of_omap. split.
  - intros (x & Hx & He). unfold identified in He.
    destruct (GetControllerIDFromDevice x) eqn:E; simplify_eq/=. done.
  - intros [Hd Hi]. exists d. split; [done|]. unfold identified. by rewrite Hi.
Qed.

Lemma elem_of_disks cs d : d ∈ disks cs ↔ is_disk d = true ∧ d ∈ adds cs.
Proof. unfold disks. by rewrite list_elem_of_filter. Qed.

Lemma controllers_app cs1 cs2 : controllers (cs1 ++ cs2) = controllers cs1 ++ controllers cs2.
Proof. unfold controllers, adds. by rewrite !omap_app. Qed.

Lemma unique_controller cs id c c' :
  unique_ids cs → (id, c) ∈ controllers cs → (id, c') ∈ controllers cs → c = c'.
Proof.
  intros Hu H1 H2. assert ((id, c) = (id, c')) as [=]; [|done].
  by apply (NoDup_fmap_inv_eq fst (controllers cs)).
Qed.

Lemma check_controller_spec dst src : check_controller dst src = None ↔ compatible dst src.
Proof.
  unfold check_controller, compatible. destruct (is_scsi (hw_kind src)).
  - case_bool_decide as Hs; [split; [done|by intros [? _]]|].
    destruct (scsiControllerTypeToVMOPType dst) as [dt|],
      (scsiControllerTypeToVMOPType src) as [st|];
      try case_bool_decide as Ht; (split; [intros Hx|intros (_ & t & Hd & Hst)]); simplify_eq; eauto.
  - repeat case_bool_decide; split; intros; try done; by exfalso; auto.
Qed.

(** ** Maps filled by a loop *)

Section InsertPairs.
Context {K A : Type} `{Countable K}.

Definition insert_pairs (m : gmap K A) (l : list (K * A)) : gmap K A :=
  foldl (λ m p, <[p.1 := p.2]> m) m l.

Lemma insert_pairs_sound l m k x :
  insert_pairs m l !! k = Some x → (k, x) ∈ l ∨ m !! k = Some x ∧ k ∉ l.*1.
Proof.
  revert m. induction l as [|[k' x'] l IH]; intros m; simpl; [set_solver|].
  intros [Hl|[Hm Hn]]%IH; [set_solver|]. simpl in Hm.
  destruct (decide (k = k')) as [->|Hne].
  - rewrite lookup_insert_eq in Hm. simplify_eq. set_solver.
  - rewrite lookup_insert_ne in Hm by done. set_solver.
Qed.

Lemma insert_pairs_dom l m k : is_Some (insert_pairs m l !! k) ↔ k ∈ l.*1 ∨ is_Some (m !! k).
Proof.
  revert m. induction l as [|[k' x'] l IH]; intros m; simpl; [set_solver|].
  unfold insert_pairs in IH. rewrite IH. simpl. rewrite lookup_insert_is_Some'. set_solver.
Qed.

(** Entries that agree on their keys are all found. *)
Lemma insert_pairs_lookup l k x :
  (∀ x x', (k, x) ∈ l → (k, x') ∈ l → x = x') → insert_pairs ∅ l !! k = Some x ↔ (k, x) ∈ l.
Proof.
  intros Hu. split.
  - intros [?|[Hm _]]%insert_pairs_sound; [done|]. by rewrite lookup_empty in Hm.
  - intros Hin. destruct (proj2 (insert_pairs_dom l ∅ k)) as [x' Hx'].
    { left. apply list_elem_of_fmap. by exists (k, x). }
    rewrite Hx'. f_equal. apply Hu; [|done].
    apply insert_pairs_sound in Hx' as [?|[Hm _]]; [done|]. by rewrite lookup_empty in Hm.
Qed.
End InsertPairs.

(** ** Validation *)

Lemma controllers_cons c cs :
  controllers (c :: cs) =
  match d ← getAddDevice c; identified d with
  | Some p => p :: controllers cs
  | None => controllers cs
  end.
Proof.
  unfold controllers, adds. rewrite omap_cons. destruct (getAddDevice c) as [d|]; [|done].
  by rewrite omap_cons.
Qed.

Lemma collect_controllers_eq cs : collect_controllers cs = insert_pairs ∅ (controllers cs).
Proof.
  unfold collect_controllers. generalize (∅ : gmap ControllerID HwDevice).
  induction cs as [|c cs IH]; intros m; [done|]. cbn [foldl]. rewrite controllers_cons.
  destruct (getAddDevice c) as [d|]; [|apply IH]. cbn [mbind option_bind]. unfold identified.
  destruct (GetControllerIDFromDevice d) as [id|]; apply IH.
Qed.

Lemma collect_lookup cs id d :
  unique_ids cs → collect_controllers cs !! id = Some d ↔ (id, d) ∈ controllers cs.
Proof.
  intros Hu. rewrite collect_controllers_eq. split.
  - intros [?|[Hm _]]%insert_pairs_sound; [done|]. by rewrite lookup_empty in Hm.
  - intros Hin. apply insert_pairs_lookup; [|done]. intros d1 d2 ??. by eapply unique_controller.
Qed.

Definition key_pair (D : gmap ControllerID HwDevice) (p : ControllerID * HwDevice) : option (Z * Z) :=
  c ← D !! p.1; Some (hw_Key c, hw_Key p.2).

(** The loop, over the source's controllers. *)
Lemma validate_controllers_spec D src m rm :
  match validate_controllers D src m rm with
  | inl e => ∃ id c d, (id, d) ∈ controllers src ∧ D !! id = Some c ∧ check_controller c d = Some e
  | inr (m', rm') =>
    (∀ id c d, (id, d) ∈ controllers src → D !! id = Some c → check_controller c d = None) ∧
    m' = insert_pairs m (omap (key_pair D) (controllers src)) ∧
    (∀ id, id ∈ rm' ↔ id ∈ rm ∨ id ∈ (controllers src).*1 ∧ is_Some (D !! id))
  end.
Proof.
  revert m rm. induction src as [|c src IH]; intros m rm; [set_solver|].
  cbn [validate_controllers]. rewrite controllers_cons.
  destruct (getAddDevice c) as [d|]; [|apply IH]. cbn [mbind option_bind]. unfold identified.
  destruct (GetControllerIDFromDevice d) as [id|]; [|apply IH]. cbn [mbind option_bind].
  rewrite omap_cons. unfold key_pair at 1. cbn [fst snd].
  destruct (D !! id) as [ctrl|] eqn:HD; cbn [mbind option_bind].
  - destruct (check_controller ctrl d) as [e|] eqn:Hc.
    { exists id, ctrl, d. set_solver. }
    specialize (IH (<[hw_Key ctrl := hw_Key d]> m) ({[id]} ∪ rm)).
    destruct (validate_controllers _ _ _ _) as [e|[m' rm']].
    + destruct IH as (id' & c' & d' & ? & ? & ?). exists id', c', d'. set_solver.
    + destruct IH as (H1 & H2 & H3). split_and!; [|done|].
      * intros id' c' d' [[= -> ->]|Hin]%elem_of_cons ?; [congruence|eauto].
      * intros id'. rewrite H3. set_solver.
  - specialize (IH m rm). destruct (validate_controllers _ _ _ _) as [e|[m' rm']].
    + destruct IH as (id' & c' & d' & ? & ? & ?). exists id', c', d'. set_solver.
    + destruct IH as (H1 & H2 & H3). split_and!; [|done|].
      * intros id' c' d' [[= -> ->]|Hin]%elem_of_cons ?; [congruence|eauto].
      * intros id'. rewrite H3. cbn [fmap list_fmap fst]. rewrite elem_of_cons.
        split; [tauto|]. intros [?|[[->|?] [? ?]]]; [tauto|congruence|eauto].
Qed.

(** No two controllers of the ConfigSpec have the same device key. *)
Definition unique_keys (cs : list StorChange) : Prop := NoDup (hw_Key ∘ snd <$> controllers cs).

(** The controllers [c] and [d] of [dst] and [src] share the identity [id]. *)
Definition shared (dst src : list StorChange) (id : ControllerID) (c d : HwDevice) : Prop :=
  (id, c) ∈ controllers dst ∧ (id, d) ∈ controllers src.

Lemma elem_of_ids cs id : id ∈ (controllers cs).*1 ↔ ∃ c, (id, c) ∈ controllers cs.
Proof. rewrite list_elem_of_fmap. split; [intros ([? c] & -> & ?); eauto|intros [c ?]; by exists (id, c)]. Qed.

Lemma unique_key cs id id' c c' :
  unique_keys cs → (id, c) ∈ controllers cs → (id', c') ∈ controllers cs →
  hw_Key c = hw_Key c' → id = id' ∧ c = c'.
Proof.
  intros Hu H1 H2 Hk. assert ((id, c) = (id', c')) as [=]; [|done].
  by apply (NoDup_fmap_inv_eq (hw_Key ∘ snd) (controllers cs)).
Qed.

Lemma elem_of_key_pairs dst src k k' :
  unique_ids dst →
  (k, k') ∈ omap (key_pair (collect_controllers dst)) (controllers src) ↔
  ∃ id c d, shared dst src id c d ∧ hw_Key c = k ∧ hw_Key d = k'.
Proof.
  intros Hd. rewrite list_elem_of_omap. split.
  - intros ([id d] & Hin & Hp). unfold key_pair in Hp. cbn [fst snd] in Hp.
    destruct (collect_controllers dst !! id) as [c|] eqn:Hc; simplify_eq/=.
    apply collect_lookup in Hc; [|done]. by exists id, c, d.
  - intros (id & c & d & [Hc Hin] & <- & <-). exists (id, d). split; [done|].
    unfold key_pair. cbn [fst snd]. by rewrite (proj2 (collect_lookup dst id c Hd) Hc).
Qed.

Section Validation.
Context (dst src : list StorChange).
Context (Hdst : unique_ids dst) (Hsrc : unique_ids src).

Lemma validate_spec :
  match ValidateStorageControllerCompatibility dst src with
  | inl _ => ∃ id c d, shared dst src id c d ∧ ¬ compatible c d
  | inr (m, rm) =>
    (∀ id c d, shared dst src id c d → compatible c d) ∧
    (∀ id, id ∈ rm ↔ id ∈ (controllers dst).*1 ∧ id ∈ (controllers src).*1) ∧
    (unique_keys dst → ∀ k k', m !! k = Some k' ↔
       ∃ id c d, shared dst src id c d ∧ hw_Key c = k ∧ hw_Key d = k')
  end.
Proof using All.
  unfold ValidateStorageControllerCompatibility.
  pose proof (validate_controllers_spec (collect_controllers dst) src ∅ ∅) as Hv.
  destruct (validate_controllers _ _ _ _) as [e|[m rm]].
  - destruct Hv as (id & c & d & Hd & Hc & He). apply collect_lookup in Hc; [|done].
    exists id, c, d. split; [done|]. rewrite <-check_controller_spec. congruence.
  - destruct Hv as (Hok & -> & Hrm). split_and!.
    + intros id c d [Hc Hd]. apply check_controller_spec. apply (Hok id); [done|].
      by apply collect_lookup.
    + intros id. rewrite Hrm, (elem_of_ids dst). unfold is_Some. setoid_rewrite collect_lookup; [|done].
      set_solver.
    + intros Hk k k'. rewrite <-elem_of_key_pairs by done. apply insert_pairs_lookup.
      intros k1 k2 (id & c & d & [Hc Hd] & Hck & <-)%elem_of_key_pairs; [|done].
      intros (id' & c' & d' & [Hc' Hd'] & Hck' & <-)%elem_of_key_pairs; [|done].
      destruct (unique_key dst id id' c c') as [<- <-]; [done..|congruence|].
      f_equal. by apply (unique_controller src id).
Qed.
End Validation.

(** ** The merged ConfigSpec *)

Lemma adds_app cs1 cs2 : adds (cs1 ++ cs2) = adds cs1 ++ adds cs2.
Proof. apply omap_app. Qed.

Lemma adds_cons c cs : adds (c :: cs) = match getAddDevice c with Some d => d :: adds cs | None => adds cs end.
Proof. apply omap_cons. Qed.

Lemma adds_remove cs fn : adds (RemoveDevicesFromConfigSpec cs fn) = filter (λ d, fn d = false) (adds cs).
Proof.
  unfold RemoveDevicesFromConfigSpec. induction cs as [|c cs IH]; [done|].
  rewrite adds_cons, filter_cons. destruct c as [op fo [d|] pr]; cbn [sc_Device from_option].
  - unfold getAddDevice at 1. cbn [sc_Operation sc_Device].
    destruct (fn d) eqn:Hf; [rewrite decide_False by done|rewrite decide_True by done; rewrite adds_cons;
      unfold getAddDevice at 1; cbn [sc_Operation sc_Device]]; case_bool_decide;
      rewrite ?filter_cons, ?Hf, IH; done.
  - rewrite decide_True by done. rewrite adds_cons. unfold getAddDevice. cbn [sc_Operation sc_Device].
    by case_bool_decide; rewrite IH.
Qed.

Lemma adds_remap m cs : adds (remap_disk m <$> cs) = remap_device m <$> adds cs.
Proof.
  induction cs as [|c cs IH]; [done|]. rewrite fmap_cons, !adds_cons. unfold remap_disk at 1.
  destruct (getAddDevice c) as [d|] eqn:Hc; [|by rewrite Hc].
  unfold getAddDevice in *. simpl. case_bool_decide; [done|]. by rewrite IH.
Qed.

(** The devices a source contributes. *)
Definition copied (d : HwDevice) : Prop := is_Some (GetControllerIDFromDevice d) ∨ is_disk d = true.

#[global] Instance copied_dec d : Decision (copied d).
Proof. apply _. Defined.

Lemma adds_copy pol cs : adds (omap (copy_change pol) cs) = filter copied (adds cs).
Proof.
  induction cs as [|c cs IH]; [done|]. rewrite omap_cons, adds_cons. unfold copy_change at 1.
  destruct (getAddDevice c) as [d|]; [|done]. rewrite filter_cons.
  destruct (GetControllerIDFromDevice d) as [id|] eqn:Hi.
  - rewrite adds_cons. cbn [getAddDevice sc_Operation sc_Device]. rewrite IH.
    by rewrite decide_True by (unfold copied; rewrite ?Hi; eauto).
  - destruct (is_disk d) eqn:Hk.
    + rewrite adds_cons. cbn [getAddDevice sc_Operation sc_Device]. rewrite IH.
      by rewrite decide_True by (unfold copied; rewrite ?Hi; eauto).
    + rewrite decide_False; [done|]. unfold copied. rewrite Hi. by intros [[? ?]|?]; congruence.
Qed.

Definition replaced (rm : gset ControllerID) (d : HwDevice) : bool :=
  match GetControllerIDFromDevice d with Some id => bool_decide (id ∈ rm) | None => false end.

Lemma adds_merge dst src m rm pol :
  adds (MergeStorageControllersAndDisks dst src m rm pol) =
  filter (λ d, unused_controller src d = false)
    ((remap_device m <$> filter (λ d, replaced rm d = false) (adds dst)) ++ filter copied (adds src)).
Proof.
  unfold MergeStorageControllersAndDisks, CopyStorageControllersAndDisks.
  by rewrite adds_remove, adds_app, adds_remap, adds_remove, adds_copy.
Qed.

Lemma remap_kind m d : hw_kind (remap_device m d) = hw_kind d.
Proof. unfold remap_device. by repeat case_match. Qed.
Lemma remap_key m d : hw_Key (remap_device m d) = hw_Key d.
Proof. unfold remap_device. by repeat case_match. Qed.
Lemma remap_id m d : GetControllerIDFromDevice (remap_device m d) = GetControllerIDFromDevice d.
Proof. unfold remap_device. by repeat case_match. Qed.
Lemma remap_not_disk m d : is_disk d = false → remap_device m d = d.
Proof. unfold remap_device. by intros ->. Qed.
Lemma disk_no_id d : is_disk d = true → GetControllerIDFromDevice d = None.
Proof. unfold is_disk, GetControllerIDFromDevice. intros Hk. bool_to_prop. by rewrite Hk. Qed.
Lemma id_not_disk d id : GetControllerIDFromDevice d = Some id → is_disk d = false.
Proof. intros Hi. destruct (is_disk d) eqn:E; [|done]. apply disk_no_id in E. congruence. Qed.
Lemma id_is_controller d id : GetControllerIDFromDevice d = Some id → is_controller (hw_kind d) = true.
Proof. unfold GetControllerIDFromDevice. by destruct (hw_kind d). Qed.

Lemma ids_eq cs : (controllers cs).*1 = omap GetControllerIDFromDevice (adds cs).
Proof.
  unfold controllers. induction (adds cs) as [|d l IH]; [done|]. rewrite !omap_cons.
  unfold identified at 1. destruct (GetControllerIDFromDevice d); [|apply IH]. cbn. f_equal. apply IH.
Qed.

Lemma omap_sublist {A B} (f : A → option B) l l' : l `sublist_of` l' → omap f l `sublist_of` omap f l'.
Proof.
  induction 1 as [|x l l' Hl IH|x l l' Hl IH]; [done|..]; rewrite ?omap_cons;
    destruct (f x); try done; by constructor.
Qed.

Lemma omap_remap_ids m (l : list HwDevice) :
  omap GetControllerIDFromDevice (remap_device m <$> l) = omap GetControllerIDFromDevice l.
Proof. induction l as [|d l IH]; [done|]. rewrite fmap_cons, !omap_cons, remap_id. by rewrite IH. Qed.

Lemma elem_of_controller_keys src k :
  k ∈ controller_keys src ↔ ∃ id c, (id, c) ∈ controllers src ∧ hw_Key c = k.
Proof.
  unfold controller_keys. rewrite list_elem_of_omap. setoid_rewrite elem_of_controllers.
  setoid_rewrite elem_of_adds. split.
  - intros (x & Hx & He). destruct (getAddDevice x) as [d|] eqn:Hd; [|done]. simpl in He.
    destruct (GetControllerIDFromDevice d) as [id|] eqn:Hi; simplify_eq/=. eauto 10.
  - intros (id & c & [(x & Hx & Hc) Hi] & <-). exists x. split; [done|]. rewrite Hc. simpl. by rewrite Hi.
Qed.

Lemma elem_of_disk_controller_keys src k :
  k ∈ disk_controller_keys src ↔ ∃ d, d ∈ disks src ∧ hw_ControllerKey d = k.
Proof.
  unfold disk_controller_keys. rewrite list_elem_of_omap. setoid_rewrite elem_of_disks.
  setoid_rewrite elem_of_adds. split.
  - intros (x & Hx & He). destruct (getAddDevice x) as [d|] eqn:Hd; [|done]. simpl in He.
    destruct (is_disk d) eqn:Hi; simplify_eq/=. eauto 10.
  - intros (d & [Hi (x & Hx & Hc)] & <-). exists x. split; [done|]. rewrite Hc. simpl. by rewrite Hi.
Qed.

Lemma disk_not_unused src d : is_disk d = true → unused_controller src d = false.
Proof. unfold is_disk, unused_controller. intros Hk. bool_to_prop. by rewrite Hk. Qed.

Section Merge.
Context (dst src : list StorChange) (m : gmap Z Z) (rm : gset ControllerID) (pol : string).
Context (Hdst : unique_ids dst) (Hsrc : unique_ids src).
Context (Hv : ValidateStorageControllerCompatibility dst src = inr (m, rm)).

#[local] Abbreviation merged := (MergeStorageControllersAndDisks dst src m rm pol).

Lemma rm_spec id : id ∈ rm ↔ id ∈ (controllers dst).*1 ∧ id ∈ (controllers src).*1.
Proof using Hdst Hsrc Hv. pose proof (validate_spec dst src Hdst Hsrc) as H. rewrite Hv in H. apply H. Qed.

Lemma m_spec : unique_keys dst → ∀ k k', m !! k = Some k' ↔
  ∃ id c d, shared dst src id c d ∧ hw_Key c = k ∧ hw_Key d = k'.
Proof using Hdst Hsrc Hv. pose proof (validate_spec dst src Hdst Hsrc) as H. rewrite Hv in H. apply H. Qed.

Lemma merged_unique_ids : unique_ids merged.
Proof using All.
  unfold unique_ids. rewrite ids_eq, adds_merge.
  eapply sublist_NoDup; [|apply omap_sublist, sublist_filter].
  rewrite omap_app, omap_remap_ids. apply NoDup_app. split_and!.
  - eapply sublist_NoDup; [|apply omap_sublist, sublist_filter]. rewrite <-ids_eq. apply Hdst.
  - intros id (d & [Hr Hd]%list_elem_of_filter & Hi)%list_elem_of_omap.
    intros (d' & [_ Hd']%list_elem_of_filter & Hi')%list_elem_of_omap.
    unfold replaced in Hr. rewrite Hi in Hr. bool_to_prop. apply Hr, rm_spec.
    rewrite !elem_of_ids. split; [exists d|exists d']; by apply elem_of_controllers.
  - eapply sublist_NoDup; [|apply omap_sublist, sublist_filter]. rewrite <-ids_eq. apply Hsrc.
Qed.

Lemma elem_of_merged d :
  d ∈ adds merged ↔
  unused_controller src d = false ∧
  ((∃ d0, d = remap_device m d0 ∧ replaced rm d0 = false ∧ d0 ∈ adds dst) ∨ copied d ∧ d ∈ adds src).
Proof.
  rewrite adds_merge, list_elem_of_filter, elem_of_app, list_elem_of_fmap.
  setoid_rewrite list_elem_of_filter. done.
Qed.

Lemma src_controller_merged id c :
  (id, c) ∈ controllers src → hw_Key c ∈ disk_controller_keys src → (id, c) ∈ controllers merged.
Proof.
  rewrite !elem_of_controllers. intros [Hc Hi] Hk. split; [|done]. apply elem_of_merged. split.
  - unfold unused_controller. rewrite (bool_decide_false (_ ∉ _)) by (by intros ?). by rewrite andb_false_r.
  - right. split; [left; eauto|done].
Qed.

Lemma dst_controller_merged id c :
  (id, c) ∈ controllers dst → id ∉ (controllers src).*1 → hw_Key c ∉ controller_keys src →
  (id, c) ∈ controllers merged.
Proof using All.
  rewrite !elem_of_controllers. intros [Hc Hi] Hns Hk. split; [|done]. apply elem_of_merged. split.
  - unfold unused_controller. by rewrite (bool_decide_false (hw_Key c ∈ _)), andb_false_r by done.
  - left. exists c. split_and!; [|unfold replaced; rewrite Hi|done].
    + by rewrite remap_not_disk by by eapply id_not_disk.
    + apply bool_decide_false. rewrite rm_spec. tauto.
Qed.

(** A disk of the destination keeps the identity of its controller. *)
Lemma dst_disk_attached d id :
  unique_keys dst →
  (∀ c c', shared dst src id c c' → hw_Key c' ∈ disk_controller_keys src) →
  (∀ k, k ∈ controller_keys dst → k ∉ controller_keys src) →
  attached_to dst d id → is_disk d = true →
  attached_to merged (remap_device m d) id.
Proof using All.
  intros Hk Hused Hdisj (c & Hc & Hck) Hd. unfold attached_to, remap_device. rewrite Hd.
  destruct (m !! hw_ControllerKey d) as [k'|] eqn:Hm.
  - apply m_spec in Hm as (id' & c1 & c2 & [H1 H2] & Hk1 & <-); [|done].
    destruct (unique_key dst id id' c c1) as [<- <-]; [done..|congruence|].
    exists c2. split; [|done]. apply src_controller_merged; [done|]. by apply (Hused c).
  - exists c. split; [|done]. apply dst_controller_merged; [done|..].
    + intros [c' Hc']%elem_of_ids.
      enough (m !! hw_ControllerKey d = Some (hw_Key c')) by congruence.
      apply m_spec; [done|]. by exists id, c, c'.
    + apply Hdisj, elem_of_controller_keys. eauto.
Qed.

Lemma src_disk_attached d id :
  attached_to src d id → d ∈ disks src → attached_to merged d id.
Proof.
  intros (c & Hc & Hk) Hd. exists c. split; [|done]. apply src_controller_merged; [done|].
  rewrite Hk. apply elem_of_disk_controller_keys. eauto.
Qed.

Lemma merged_disks_src d : d ∈ disks src → d ∈ disks merged.
Proof.
  rewrite !elem_of_disks. intros [Hk Hd]. split; [done|]. apply elem_of_merged.
  split; [by apply disk_not_unused|]. right. by split; [right|].
Qed.

Lemma merged_disks_dst d : d ∈ disks dst → remap_device m d ∈ disks merged.
Proof.
  rewrite !elem_of_disks. intros [Hk Hd]. assert (is_disk (remap_device m d) = true) as Hk'.
  { unfold is_disk. rewrite remap_kind. by bool_to_prop. }
  split; [done|]. apply elem_of_merged. split; [by apply disk_not_unused|].
  left. exists d. split_and!; [done| |done]. unfold replaced. by rewrite disk_no_id.
Qed.

Lemma merged_disks_only d :
  d ∈ disks merged → d ∈ disks src ∨ ∃ d0, d0 ∈ disks dst ∧ d = remap_device m d0.
Proof.
  rewrite elem_of_disks. intros [Hk [_ [(d0 & -> & _ & Hd)|[_ Hd]]]%elem_of_merged].
  - right. exists d0. rewrite elem_of_disks. split_and!; [|done..].
    unfold is_disk in *. by rewrite remap_kind in Hk.
  - left. by rewrite elem_of_disks.
Qed.
End Merge.

(** ** Controllers of the user's spec *)

(** A complete spec gets a controller of its identity at the next key. *)
Definition creates {Spec} (complete : Spec → bool) (new : Spec → Z → Z * option HwDevice)
    (ident : Spec → ControllerID) : Prop :=
  ∀ s key, complete s = true → ∃ d,
    new s key = (wrap32 (key - 1), Some d) ∧ hw_Key d = wrap32 (key - 1) ∧
    GetControllerIDFromDevice d = Some (ident s).

Lemma user_controllers_spec {Spec} complete (new : Spec → Z → Z * option HwDevice) ident l key acc :
  creates complete new ident →
  ∃ ds, user_controllers complete new l key acc = (count_end key (length ds), acc ++ (add_change <$> ds)) ∧
        hw_Key <$> ds = countdown key (length ds) ∧
        omap GetControllerIDFromDevice ds = ident <$> filter (λ s, complete s = true) l.
Proof.
  intros Hc. revert key acc. induction l as [|s l IH]; intros key acc; cbn [user_controllers].
  { exists []. by rewrite app_nil_r. }
  rewrite filter_cons. destruct (complete s) eqn:Hs; [|apply IH].
  destruct (Hc s key Hs) as (d & -> & Hk & Hi).
  destruct (IH (wrap32 (key - 1)) (acc ++ [add_change d])) as (ds & -> & Hks & Hids).
  exists (d :: ds). split_and!.
  - by rewrite <-app_assoc.
  - rewrite fmap_cons, Hks, Hk. done.
  - rewrite omap_cons, Hi, Hids. by rewrite decide_True.
Qed.

Definition scsi_id (s : SCSIControllerSpec) := mkControllerID VirtualControllerTypeSCSI (scsi_BusNumber s).
Definition sata_id (s : SATAControllerSpec) := mkControllerID VirtualControllerTypeSATA (sata_BusNumber s).
Definition nvme_id (s : NVMEControllerSpec) := mkControllerID VirtualControllerTypeNVME (nvme_BusNumber s).
Definition ide_id (s : IDEControllerSpec) := mkControllerID VirtualControllerTypeIDE (ide_BusNumber s).

Lemma scsi_creates pci : creates scsi_complete (λ s, NewSCSIController s pci) scsi_id.
Proof.
  intros s key Hs. unfold scsi_complete in Hs. unfold NewSCSIController.
  destruct (scsi_Type s); [eexists; by split_and!..|done].
Qed.
Lemma sata_creates pci : creates (λ _, true) (always_new NewSATAController pci) sata_id.
Proof. intros s key _. eexists. by split_and!. Qed.
Lemma nvme_creates pci : creates nvme_complete (always_new NewNVMEController pci) nvme_id.
Proof. intros s key _. eexists. by split_and!. Qed.
Lemma ide_creates pci : creates (λ _, true) (always_new NewIDEController pci) ide_id.
Proof. intros s key _. eexists. by split_and!. Qed.

Lemma adds_add_change ds : adds (add_change <$> ds) = ds.
Proof. induction ds as [|d ds IH]; [done|]. rewrite fmap_cons, adds_cons. simpl. by rewrite IH. Qed.

(** The identities the user's spec defines completely, in the code's order. *)
Definition user_ids (hw : VirtualMachineHardwareSpec) : list ControllerID :=
  (scsi_id <$> filter (λ s, scsi_complete s = true) (SCSIControllers hw)) ++
  (sata_id <$> SATAControllers hw) ++
  (nvme_id <$> filter (λ s, nvme_complete s = true) (NVMEControllers hw)) ++
  (ide_id <$> IDEControllers hw).

Definition as_changes (cs : list StorChange) : list (option HwChange) :=
  (λ c, Some (mkHwChange (sc_Operation c) (sc_Device c))) <$> cs.

Lemma filter_complete_all {A} (l : list A) : filter (λ _, true = true) l = l.
Proof. by apply list_filter_all. Qed.

(** Rewrites the first loop of the goal. *)
Ltac run_family Hc ds Hk Hi :=
  match goal with
  | |- context [user_controllers ?c ?n ?l ?k ?a] =>
    destruct (user_controllers_spec c n _ l k a Hc) as (ds & -> & Hk & Hi)
  end.

Lemma create_user_spec hw cs :
  ∃ ds, CreateUserStorageControllersConfigSpec (Some hw) cs = add_change <$> ds ∧
        hw_Key <$> ds = countdown (InitDeviceKey 0 (as_changes cs)) (length ds) ∧
        omap GetControllerIDFromDevice ds = user_ids hw.
Proof.
  unfold CreateUserStorageControllersConfigSpec. fold (as_changes cs).
  generalize (InitDeviceKey 0 (as_changes cs)) as key. generalize (from_option hw_Key 0 (findPCIController cs)) as pci.
  intros pci key.
  run_family (scsi_creates pci) d1 K1 I1. run_family (sata_creates pci) d2 K2 I2.
  run_family (nvme_creates pci) d3 K3 I3. run_family (ide_creates pci) d4 K4 I4.
  exists (d1 ++ d2 ++ d3 ++ d4). rewrite !fmap_app, !length_app, K1, K2, K3, K4, !omap_app, I1, I2, I3, I4.
  rewrite !filter_complete_all. split_and!; [|by rewrite !countdown_app|done].
  by rewrite app_nil_l, !app_assoc.
Qed.

(** ** Properties *)

(** For ConfigSpecs with one controller per bus, validation fails exactly when
    a controller of the image and one of the class with the same identity differ
    in bus sharing or subtype; otherwise it returns the identities both have and
    the class's keys mapped to the image's. *)
Theorem validation_exact dst src :
  unique_ids dst → unique_ids src → unique_keys dst →
  match ValidateStorageControllerCompatibility dst src with
  | inl _ => ∃ id c d, shared dst src id c d ∧ ¬ compatible c d
  | inr (m, rm) =>
    (∀ id c d, shared dst src id c d → compatible c d) ∧
    (∀ id, id ∈ rm ↔ id ∈ (controllers dst).*1 ∧ id ∈ (controllers src).*1) ∧
    (∀ k k', m !! k = Some k' ↔ ∃ id c d, shared dst src id c d ∧ hw_Key c = k ∧ hw_Key d = k')
  end.
Proof.
  intros Hd Hs Hk. pose proof (validate_spec dst src Hd Hs) as Hv.
  destruct (ValidateStorageControllerCompatibility dst src) as [e|[m rm]]; [done|].
  destruct Hv as (? & ? & ?). auto.
Qed.

(** After a validated merge every controller identity still belongs to one
    controller. *)
Theorem merged_one_controller_per_slot dst src m rm pol :
  unique_ids dst → unique_ids src →
  ValidateStorageControllerCompatibility dst src = inr (m, rm) →
  unique_ids (MergeStorageControllersAndDisks dst src m rm pol).
Proof. intros. by apply merged_unique_ids. Qed.

(** A validated merge keeps every disk of both sides, the class's with their
    controller keys remapped, and each hangs on a controller of the identity it
    hung on before, provided the two sides use different keys and every
    controller both have carries a disk of the image. *)
Theorem merge_keeps_disks_attached dst src m rm pol :
  unique_ids dst → unique_ids src → unique_keys dst →
  (∀ k, k ∈ controller_keys dst → k ∉ controller_keys src) →
  (∀ id c c', shared dst src id c c' → hw_Key c' ∈ disk_controller_keys src) →
  ValidateStorageControllerCompatibility dst src = inr (m, rm) →
  let merged := MergeStorageControllersAndDisks dst src m rm pol in
  (∀ d, d ∈ disks merged ↔ d ∈ disks src ∨ ∃ d0, d0 ∈ disks dst ∧ d = remap_device m d0) ∧
  (∀ d id, d ∈ disks src → attached_to src d id → attached_to merged d id) ∧
  (∀ d id, d ∈ disks dst → attached_to dst d id → attached_to merged (remap_device m d) id).
Proof.
  intros Hd Hs Hk Hdisj Hused Hv merged. split_and!.
  - intros d. split; [apply merged_disks_only|]. intros [?|(d0 & ? & ->)];
      [by apply merged_disks_src|by apply merged_disks_dst].
  - intros d id ? ?. by apply src_disk_attached.
  - intros d id [? _]%elem_of_disks ?. apply dst_disk_attached; auto. intros c c'. apply Hused.
Qed.

(** A class disk on a controller the image has too, but without an image
    disk on it, is left without a controller: its key is remapped to the image's
    controller, and that one is dropped because only the image's own disks count
    as its users. *)
Theorem class_disk_orphaned dst src m rm pol id c c' d :
  unique_ids dst → unique_ids src → unique_keys dst →
  ValidateStorageControllerCompatibility dst src = inr (m, rm) →
  shared dst src id c c' → hw_Key c' ∉ disk_controller_keys src →
  d ∈ disks dst → hw_ControllerKey d = hw_Key c →
  let merged := MergeStorageControllersAndDisks dst src m rm pol in
  remap_device m d ∈ disks merged ∧ ∀ id', ¬ attached_to merged (remap_device m d) id'.
Proof.
  intros Hd Hs Hk Hv Hsh Hun Hdd Hck merged. split; [by apply merged_disks_dst|].
  intros id' (x & [Hx Hxi]%elem_of_controllers & Hxk).
  apply elem_of_merged in Hx as [Hu _]. apply elem_of_disks in Hdd as [Hisd _].
  assert (m !! hw_ControllerKey d = Some (hw_Key c')) as Hm.
  { apply (m_spec dst src m rm); [done..|]. exists id, c, c'. by rewrite Hck. }
  unfold remap_device in Hxk. rewrite Hisd, Hm in Hxk.
  unfold unused_controller in Hu. change (hw_Key x = hw_Key c') in Hxk.
  rewrite (id_is_controller x id'), Hxk in Hu by done.
  rewrite !bool_decide_true in Hu; [done|done|]. apply elem_of_controller_keys.
  exists id, c'. split; [apply Hsh|done].
Qed.

(** The controllers built from the user's spec are exactly the ones it defines
    completely, in order, with temporary keys that are negative, distinct and
    below every key of the ConfigSpec while the counter stays in range. *)
Theorem user_controllers_exact hw cs :
  let created := adds (CreateUserStorageControllersConfigSpec (Some hw) cs) in
  omap GetControllerIDFromDevice created = user_ids hw ∧
  (- 2 ^ 31 ≤ InitDeviceKey 0 (as_changes cs) - Z.of_nat (length created) →
   NoDup (hw_Key <$> created) ∧
   ∀ d, d ∈ created → hw_Key d < 0 ∧ ∀ x, x ∈ live_keys (as_changes cs) → hw_Key d < x).
Proof.
  destruct (create_user_spec hw cs) as (ds & -> & Hk & Hi). rewrite adds_add_change. cbv zeta.
  split; [done|]. intros Hlo. destruct (InitDeviceKey_le 0 (as_changes cs)) as [H0 Hlive].
  rewrite Hk. split; [by apply countdown_NoDup|]. intros d Hd.
  apply (list_elem_of_fmap_2 hw_Key) in Hd. rewrite Hk in Hd. apply countdown_range in Hd; [|lia..].
  split; [lia|]. intros x Hx%Hlive. lia.
Qed.

(** ** Witnesses *)

Definition ex_dev (k : DeviceKind) (key ctrl bus : Z) : HwDevice := mkHw (mkDevice k key ctrl None bus) NoSharing.
Definition ex_scsi (key bus : Z) : HwDevice := ex_dev ParaVirtualSCSIController key 100 bus.
Definition ex_disk (key ctrl : Z) : HwDevice := ex_dev VirtualDisk key ctrl 0.

(** A class with controllers SCSI 0 and SCSI 1 and a disk on each, and an image
    with SCSI 0 and its disk. *)
Definition ex_class : list StorChange :=
  add_change <$> [ex_scsi 1000 0; ex_scsi 1001 1; ex_disk 2000 1000; ex_disk 2001 1001].
Definition ex_image : list StorChange := add_change <$> [ex_scsi (-1) 0; ex_disk (-2) (-1)].

Definition ex_map : gmap Z Z := {[1000 := -1]}.
Definition ex_remove : gset ControllerID := {[mkControllerID VirtualControllerTypeSCSI 0]}.

(** The image without its disk. *)
Definition ex_bare_image : list StorChange := add_change <$> [ex_scsi (-1) 0].

Lemma ex_validated src :
  src = ex_image ∨ src = ex_bare_image →
  unique_ids ex_class ∧ unique_ids src ∧ unique_keys ex_class ∧
  ValidateStorageControllerCompatibility ex_class src = inr (ex_map, ex_remove).
Proof.
  unfold unique_ids, unique_keys.
  intros [->| ->]; (split_and!; [apply (bool_decide_unpack _); vm_compute; reflexivity..|vm_compute; reflexivity]).
Qed.

Lemma ex_shared id c c' :
  shared ex_class ex_image id c c' → c' = ex_scsi (-1) 0.
Proof.
  intros [_ H]. cbv in H. apply list_elem_of_singleton in H. by simplify_eq.
Qed.

Lemma validation_exact_witness :
  match ValidateStorageControllerCompatibility ex_class ex_image with
  | inl _ => ∃ id c d, shared ex_class ex_image id c d ∧ ¬ compatible c d
  | inr (m, rm) =>
    (∀ id c d, shared ex_class ex_image id c d → compatible c d) ∧
    (∀ id, id ∈ rm ↔ id ∈ (controllers ex_class).*1 ∧ id ∈ (controllers ex_image).*1) ∧
    (∀ k k', m !! k = Some k' ↔ ∃ id c d, shared ex_class ex_image id c d ∧ hw_Key c = k ∧ hw_Key d = k')
  end.
Proof.
  destruct (ex_validated ex_image (or_introl eq_refl)) as (H1 & H2 & H3 & _).
  exact (validation_exact ex_class ex_image H1 H2 H3).
Defined.

Lemma merged_one_controller_per_slot_witness :
  unique_ids (MergeStorageControllersAndDisks ex_class ex_image ex_map ex_remove "").
Proof.
  destruct (ex_validated ex_image (or_introl eq_refl)) as (H1 & H2 & _ & H4).
  exact (merged_one_controller_per_slot ex_class ex_image ex_map ex_remove "" H1 H2 H4).
Defined.

Lemma merge_keeps_disks_attached_witness :
  attached_to (MergeStorageControllersAndDisks ex_class ex_image ex_map ex_remove "policy")
    (ex_disk 2000 (-1)) (mkControllerID VirtualControllerTypeSCSI 0).
Proof.
  destruct (ex_validated ex_image (or_introl eq_refl)) as (H1 & H2 & H3 & H4).
  refine (proj2 (proj2 (merge_keeps_disks_attached ex_class ex_image ex_map ex_remove "policy" H1 H2 H3 _ _ H4))
    (ex_disk 2000 1000) (mkControllerID VirtualControllerTypeSCSI 0) _ _).
  - apply Forall_forall. apply (bool_decide_unpack _). vm_compute. reflexivity.
  - intros id c c' Hs. apply ex_shared in Hs as ->. apply (bool_decide_unpack _). vm_compute. reflexivity.
  - apply (bool_decide_unpack _). vm_compute. reflexivity.
  - exists (ex_scsi 1000 0). split; [|done]. apply (bool_decide_unpack _). vm_compute. reflexivity.
Defined.

Lemma class_disk_orphaned_witness :
  ex_disk 2000 (-1) ∈ disks (MergeStorageControllersAndDisks ex_class ex_bare_image ex_map ex_remove "") ∧
  ¬ attached_to (MergeStorageControllersAndDisks ex_class ex_bare_image ex_map ex_remove "")
      (ex_disk 2000 (-1)) (mkControllerID VirtualControllerTypeSCSI 0).
Proof.
  destruct (ex_validated ex_bare_image (or_intror eq_refl)) as (H1 & H2 & H3 & H4).
  destruct (class_disk_orphaned ex_class ex_bare_image ex_map ex_remove ""
    (mkControllerID VirtualControllerTypeSCSI 0) (ex_scsi 1000 0) (ex_scsi (-1) 0) (ex_disk 2000 1000)
    H1 H2 H3 H4) as [Hin Hno].
  - split; apply (bool_decide_unpack _); vm_compute; reflexivity.
  - apply (bool_decide_unpack _). vm_compute. reflexivity.
  - apply (bool_decide_unpack _). vm_compute. reflexivity.
  - reflexivity.
  - split; [exact Hin|apply Hno].
Defined.

Definition ex_hardware : VirtualMachineHardwareSpec :=
  mkHardware
    [mkSCSI 0 VirtualControllerSharingModeNone SCSIControllerTypeParaVirtualSCSI;
     mkSCSI 1 NoSharingMode SCSIControllerTypeLsiLogic]
    [mkSATA 0] [mkNVME 0 VirtualControllerSharingModePhysical] [mkIDE 1] [].

(** The SCSI controller without a sharing mode is left out. *)
Lemma user_controllers_exact_witness :
  hw_Key <$> adds (CreateUserStorageControllersConfigSpec (Some ex_hardware) ex_image) = [-3; -4; -5; -6] ∧
  NoDup (hw_Key <$> adds (CreateUserStorageControllersConfigSpec (Some ex_hardware) ex_image)).
Proof.
  split; [vm_compute; reflexivity|].
  apply (proj2 (user_controllers_exact ex_hardware ex_image)). vm_compute. discriminate.
Defined.
