(* ===== verification/GoErrors.v ===== *)
(** * Errors and reconcile results

    pkg/errors: the errors that ask for a requeue or for none, and
    [ResultFromError], which turns the error of a reconciliation into what the
    work queue is told.

    An error value is a tree: [fmt.Errorf] with one or two wrapped errors, [errors.Join]
    and controller-runtime's [TerminalError] are unwrapped by [errors.As],
    Kubernetes' [Aggregate] only where the library says so. *)

From S2P Require Import Prelude.
Local Open Scope Z_scope.

#[local] Set Warnings "-register-all".
Inductive goerror :=
  | ErrorString (msg : string)
  | StatusError (reason msg : string)
  | NoRequeueError (Message : string) (DoNotErr : bool)
  | RequeueError (After : Z) (Message : string)
  | VMICacheNotReadyError (Message Name DatacenterID DatastoreID ProfileID : string)
  | Wrapped (prefix : string) (err : goerror)
  | WrappedBoth (err1 err2 : goerror)
  | Joined (errs : list goerror)
  | TerminalError (err : goerror)
  | Aggregate (errs : list goerror).

(** What the libraries around errors do: whether [errors.As] looks inside an
    aggregate, the text of an aggregate and of a duration. *)
Class ErrorsLib := {
  aggregate_unwraps : bool;
  aggregate_Error : list string → string;
  Duration_String : Z → string
}.

Section Errors.
Context `{ErrorsLib}.

Definition RequeueError_Error (after : Z) (message : string) : string :=
  if bool_decide (message = "") then
    if after =? 0 then "requeue immediately" else "requeue after " +:+ Duration_String after
  else if after =? 0 then "requeue immediately: " +:+ message
  else "requeue after " +:+ Duration_String after +:+ ": " +:+ message.

Definition NoRequeueError_Error (message : string) : string :=
  if bool_decide (message = "") then "no requeue" else message.

Fixpoint Error (e : goerror) : string :=
  match e with
  | ErrorString msg => msg
  | StatusError _ msg => msg
  | NoRequeueError msg _ => NoRequeueError_Error msg
  | RequeueError after msg => RequeueError_Error after msg
  | VMICacheNotReadyError msg _ _ _ _ => if bool_decide (msg = "") then "cache not ready" else msg
  | Wrapped prefix e => prefix +:+ ": " +:+ Error e
  | WrappedBoth e1 e2 => Error e1 +:+ ", " +:+ Error e2
  | Joined es => String.concat (String.String (Ascii.ascii_of_N 10) EmptyString) (Error <$> es)
  | TerminalError e => "terminal error: " +:+ Error e
  | Aggregate es => aggregate_Error (Error <$> es)
  end.

(** [errors.As]: the first error of the tree, in depth-first order, that [f]
    accepts. *)
Fixpoint As {A} (f : goerror → option A) (e : goerror) : option A :=
  match f e with
  | Some a => Some a
  | None =>
    let first := fix first (l : list goerror) : option A :=
      match l with
      | [] => None
      | x :: l' => match As f x with Some a => Some a | None => first l' end
      end in
    match e with
    | Wrapped _ e' | TerminalError e' => As f e'
    | WrappedBoth e1 e2 => match As f e1 with Some a => Some a | None => As f e2 end
    | Joined es => first es
    | Aggregate es => if aggregate_unwraps then first es else None
    | _ => None
    end
  end.

Definition is_requeue (e : goerror) : option Z :=
  match e with RequeueError after _ => Some after | _ => None end.
Definition is_norequeue (e : goerror) : option bool :=
  match e with NoRequeueError _ doNotErr => Some doNotErr | _ => None end.

(** [errors.Is] at an error made by [errors.New], which is told by its text, and
    at a [NoRequeueError] that is no error. *)
Definition is_sentinel (msg : string) (e : goerror) : option unit :=
  match e with ErrorString m => if bool_decide (m = msg) then Some tt else None | _ => None end.
Definition IsSentinel (msg : string) (e : goerror) : bool := bool_decide (is_Some (As (is_sentinel msg) e)).
Definition is_noerr (msg : string) (e : goerror) : option unit :=
  match e with NoRequeueError m true => if bool_decide (m = msg) then Some tt else None | _ => None end.
Definition IsNoRequeueNoErr (msg : string) (e : goerror) : bool := bool_decide (is_Some (As (is_noerr msg) e)).

Definition IsRequeueError (e : goerror) : bool := bool_decide (is_Some (As is_requeue e)).
Definition IsNoRequeueError (e : goerror) : bool := bool_decide (is_Some (As is_norequeue e)).
Definition IsNoRequeueNoError (e : goerror) : bool :=
  match As is_norequeue e with Some doNotErr => doNotErr | None => false end.

(** *** Results *)

Record Result := mkResult { Requeue : bool; RequeueAfter : Z }.
Definition no_result : Result := mkResult false 0.

Definition ResultFromError (err : option goerror) : Result * option goerror :=
  match err with
  | None => (no_result, None)
  | Some e =>
    match As is_requeue e with
    | Some after =>
      if after =? 0 then (mkResult true 0, None) else (mkResult false after, None)
    | None =>
      match As is_norequeue e with
      | Some true => (no_result, None)
      | Some false => (no_result, Some (TerminalError e))
      | None => (no_result, Some e)
      end
    end
  end.

End Errors.
