(* ===== verification/VMGroup.v ===== *)
(** * VM groups: objects and links

    api/v1alpha6/virtualmachinegroup_types.go and pkg/util/vmopv1/vmgroup.go: the
    group, its members and their links, the mappers that queue groups and
    members, and the collection of a group's VMs.

    The Go interface [VirtualMachineOrGroup] is the class [MemberObject] with its
    two implementations.  The API server and the libraries the code calls are
    the class [GroupAPI].  A nil map of labels or annotations is the empty map,
    which the code cannot tell apart; a time is its number of nanoseconds since
    the zero time, which is 0. *)

From S2P Require Import Prelude Conditions ConditionsMerge GoErrors.
Local Open Scope Z_scope.

(** ** Objects *)

Definition VirtualMachinePowerStateOn : string := "PoweredOn".
Definition VirtualMachinePowerStateOff : string := "PoweredOff".
Definition ApplyPowerStateTimeAnnotation : string :=
  "vmoperator.vmware.com.protected/apply-power-state-time".
Definition LabelTopologyZone : string := "topology.kubernetes.io/zone".
Definition CAPWClusterRoleLabelKey : string := "capw.vmware.com/cluster.role".
Definition CAPVClusterRoleLabelKey : string := "capv.vmware.com/cluster.role".
Definition HasCAPILabels (labels : gmap string string) : bool :=
  bool_decide (is_Some (labels !! CAPWClusterRoleLabelKey)) ||
  bool_decide (is_Some (labels !! CAPVClusterRoleLabelKey)).

Record OwnerRef := mkOwnerRef {
  ow_Kind : string;
  ow_Name : string;
  ow_UID : string
}.

#[global] Instance OwnerRef_eq_dec : EqDecision OwnerRef.
Proof. solve_decision. Defined.

Record GroupMember := mkGroupMember {
  gm_Name : string;
  gm_Kind : string
}.

#[global] Instance GroupMember_eq_dec : EqDecision GroupMember.
Proof. solve_decision. Defined.

(** Delays are in nanoseconds. *)
Record VirtualMachineGroupBootOrderGroup := mkBootOrder {
  bo_Members : list GroupMember;
  PowerOnDelay : option Z;
  PowerOffDelay : option Z
}.

Record VirtualMachineGroupSpec := mkGroupSpec {
  gs_GroupName : string;
  BootOrder : list VirtualMachineGroupBootOrderGroup;
  gs_PowerState : string;
  NextForcePowerStateSyncTime : string;
  gs_PowerOffMode : string;
  gs_SuspendMode : string
}.

(** The placement is kept as one value: the controller never looks into it. *)
Record VirtualMachineGroupMemberStatus := mkMemberStatus {
  ms_Name : string;
  ms_Kind : string;
  ms_UID : string;
  ms_Placement : option string;
  ms_PowerState : option string;
  ms_Conditions : Conditions
}.

Record VirtualMachineGroupStatus := mkGroupStatus {
  Members : list VirtualMachineGroupMemberStatus;
  LastUpdatedPowerStateTime : option Z;
  gst_Conditions : Conditions
}.

Record VirtualMachineGroup := mkVMGroup {
  vg_Name : string;
  vg_Namespace : string;
  vg_UID : string;
  vg_Deleting : bool;
  vg_Finalizers : list string;
  vg_Annotations : gmap string string;
  vg_Owners : list OwnerRef;
  vg_Spec : VirtualMachineGroupSpec;
  vg_Status : VirtualMachineGroupStatus
}.

(** The parts of a VM the group code reads and writes. *)
Record GroupVM := mkGroupVM {
  gv_Name : string;
  gv_Namespace : string;
  gv_UID : string;
  gv_Labels : gmap string string;
  gv_Annotations : gmap string string;
  gv_Owners : list OwnerRef;
  gv_GroupName : string;
  gv_PowerState : string;
  gv_PowerOffMode : string;
  gv_SuspendMode : string;
  gv_StatusPowerState : string;
  gv_UniqueID : string;
  gv_Zone : string;
  gv_Conditions : Conditions
}.

Definition set_vg_Finalizers (l : list string) (g : VirtualMachineGroup) : VirtualMachineGroup :=
  mkVMGroup (vg_Name g) (vg_Namespace g) (vg_UID g) (vg_Deleting g) l (vg_Annotations g)
    (vg_Owners g) (vg_Spec g) (vg_Status g).
Definition set_vg_Annotations (m : gmap string string) (g : VirtualMachineGroup) : VirtualMachineGroup :=
  mkVMGroup (vg_Name g) (vg_Namespace g) (vg_UID g) (vg_Deleting g) (vg_Finalizers g) m
    (vg_Owners g) (vg_Spec g) (vg_Status g).
Definition set_vg_Owners (l : list OwnerRef) (g : VirtualMachineGroup) : VirtualMachineGroup :=
  mkVMGroup (vg_Name g) (vg_Namespace g) (vg_UID g) (vg_Deleting g) (vg_Finalizers g)
    (vg_Annotations g) l (vg_Spec g) (vg_Status g).
Definition set_vg_Spec (s : VirtualMachineGroupSpec) (g : VirtualMachineGroup) : VirtualMachineGroup :=
  mkVMGroup (vg_Name g) (vg_Namespace g) (vg_UID g) (vg_Deleting g) (vg_Finalizers g)
    (vg_Annotations g) (vg_Owners g) s (vg_Status g).
Definition set_vg_Status (s : VirtualMachineGroupStatus) (g : VirtualMachineGroup) : VirtualMachineGroup :=
  mkVMGroup (vg_Name g) (vg_Namespace g) (vg_UID g) (vg_Deleting g) (vg_Finalizers g)
    (vg_Annotations g) (vg_Owners g) (vg_Spec g) s.

Definition vg_GetConditions (g : VirtualMachineGroup) : Conditions := gst_Conditions (vg_Status g).
Definition vg_SetConditions (l : Conditions) (g : VirtualMachineGroup) : VirtualMachineGroup :=
  set_vg_Status (mkGroupStatus (Members (vg_Status g)) (LastUpdatedPowerStateTime (vg_Status g)) l) g.
Definition set_vg_Members (l : list VirtualMachineGroupMemberStatus) (g : VirtualMachineGroup) :
    VirtualMachineGroup :=
  set_vg_Status (mkGroupStatus l (LastUpdatedPowerStateTime (vg_Status g)) (vg_GetConditions g)) g.
Definition set_vg_LastUpdated (t : option Z) (g : VirtualMachineGroup) : VirtualMachineGroup :=
  set_vg_Status (mkGroupStatus (Members (vg_Status g)) t (vg_GetConditions g)) g.

Definition ms_SetConditions (l : Conditions) (ms : VirtualMachineGroupMemberStatus) :
    VirtualMachineGroupMemberStatus :=
  mkMemberStatus (ms_Name ms) (ms_Kind ms) (ms_UID ms) (ms_Placement ms) (ms_PowerState ms) l.
Definition set_ms_PowerState (p : option string) (ms : VirtualMachineGroupMemberStatus) :
    VirtualMachineGroupMemberStatus :=
  mkMemberStatus (ms_Name ms) (ms_Kind ms) (ms_UID ms) (ms_Placement ms) p (ms_Conditions ms).
Definition set_ms_UID (u : string) (ms : VirtualMachineGroupMemberStatus) :
    VirtualMachineGroupMemberStatus :=
  mkMemberStatus (ms_Name ms) (ms_Kind ms) u (ms_Placement ms) (ms_PowerState ms) (ms_Conditions ms).

Definition gv_SetConditions (l : Conditions) (vm : GroupVM) : GroupVM :=
  mkGroupVM (gv_Name vm) (gv_Namespace vm) (gv_UID vm) (gv_Labels vm) (gv_Annotations vm)
    (gv_Owners vm) (gv_GroupName vm) (gv_PowerState vm) (gv_PowerOffMode vm) (gv_SuspendMode vm)
    (gv_StatusPowerState vm) (gv_UniqueID vm) (gv_Zone vm) l.
Definition set_gv_Owners (l : list OwnerRef) (vm : GroupVM) : GroupVM :=
  mkGroupVM (gv_Name vm) (gv_Namespace vm) (gv_UID vm) (gv_Labels vm) (gv_Annotations vm)
    l (gv_GroupName vm) (gv_PowerState vm) (gv_PowerOffMode vm) (gv_SuspendMode vm)
    (gv_StatusPowerState vm) (gv_UniqueID vm) (gv_Zone vm) (gv_Conditions vm).
Definition set_gv_Power (m : gmap string string) (powerState powerOffMode suspendMode : string)
    (vm : GroupVM) : GroupVM :=
  mkGroupVM (gv_Name vm) (gv_Namespace vm) (gv_UID vm) (gv_Labels vm) m
    (gv_Owners vm) (gv_GroupName vm) powerState powerOffMode suspendMode
    (gv_StatusPowerState vm) (gv_UniqueID vm) (gv_Zone vm) (gv_Conditions vm).

Definition GroupLinked : string := "GroupLinked".
Definition PowerStateSynced : string := "PowerStateSynced".
Definition PlacementReady : string := "PlacementReady".
(** [VirtualMachineConditionPlacementReady] of the VM. *)
Definition VMPlacementReady : string := "VirtualMachineConditionPlacementReady".
Definition vmKind : string := "VirtualMachine".
Definition vmgKind : string := "VirtualMachineGroup".

(** ** The interface of members *)

Class MemberObject (A : Type) := {
  GetMemberKind : string;
  mo_Name : A → string;
  mo_Namespace : A → string;
  GetGroupName : A → string;
  GetPowerState : A → string;
  mo_Conditions : A → Conditions;
  mo_SetConditions : Conditions → A → A;
  mo_Owners : A → list OwnerRef;
  mo_SetOwners : list OwnerRef → A → A
}.
Arguments GetMemberKind A {_}.

Class MemberObjectLaws (A : Type) `{MemberObject A} : Prop := {
  mo_get_set_Conditions l (a : A) : mo_Conditions (mo_SetConditions l a) = l;
  mo_get_set_Owners l (a : A) : mo_Owners (mo_SetOwners l a) = l
}.

#[global] Instance VM_member : MemberObject GroupVM := {
  GetMemberKind := vmKind;
  mo_Name := gv_Name;
  mo_Namespace := gv_Namespace;
  GetGroupName := gv_GroupName;
  GetPowerState := gv_StatusPowerState;
  mo_Conditions := gv_Conditions;
  mo_SetConditions := gv_SetConditions;
  mo_Owners := gv_Owners;
  mo_SetOwners := set_gv_Owners
}.

#[global] Instance Group_member : MemberObject VirtualMachineGroup := {
  GetMemberKind := vmgKind;
  mo_Name := vg_Name;
  mo_Namespace := vg_Namespace;
  GetGroupName g := gs_GroupName (vg_Spec g);
  GetPowerState _ := "";
  mo_Conditions := vg_GetConditions;
  mo_SetConditions := vg_SetConditions;
  mo_Owners := vg_Owners;
  mo_SetOwners := set_vg_Owners
}.

#[global] Instance VM_member_laws : MemberObjectLaws GroupVM.
Proof. done. Qed.
#[global] Instance Group_member_laws : MemberObjectLaws VirtualMachineGroup.
Proof. done. Qed.

(** ** The API server and the libraries *)

(** What placement is asked for: the group, as a reference into the store, and
    its VMs. *)
Record VMGroupPlacement := mkPlacement {
  pl_VMGroup : nat;
  VMMembers : list GroupVM
}.

(** Patches take the object before the change and the changed object.
    [GetNilObject] is the error of reading into no object.  [SetOwnerReference]
    of controller-runtime works on the owner's and the object's references;
    [patch_empty] says whether a merge patch has no change. *)
Class GroupAPI (W : Type) := {
  gr_Now : W → Z;
  ParseTime : string → goerror + Z;
  FormatTime : Z → string;
  GetVM : string → string → W → goerror + GroupVM;
  GetVMGroup : string → string → W → goerror + VirtualMachineGroup;
  ReadVMGroup : string → string → W → goerror + VirtualMachineGroup;
  GetNilObject : W → goerror;
  gr_IsNotFound : goerror → bool;
  SetOwnerReference : VirtualMachineGroup → list OwnerRef → goerror + list OwnerRef;
  PatchVM : GroupVM → GroupVM → W → W * (goerror + GroupVM);
  PatchVMGroup : VirtualMachineGroup → VirtualMachineGroup → W → W * (goerror + VirtualMachineGroup);
  gr_ContainsFinalizer : list string → string → bool;
  gr_AddFinalizer : list string → string → list string;
  gr_RemoveFinalizer : list string → string → list string;
  gr_NewHelper : VirtualMachineGroup → option goerror;
  gr_Patch : VirtualMachineGroup → VirtualMachineGroup → W → W * option goerror;
  patch_empty : VirtualMachineGroup → VirtualMachineGroup → goerror + bool;
  PatchVMGroupStatus : VirtualMachineGroup → VirtualMachineGroup → W → W * option goerror;
  PlaceVirtualMachineGroup : nat → list VMGroupPlacement → list VirtualMachineGroup → W →
    W * list VirtualMachineGroup * option goerror
}.

Section Groups.
Context {W : Type} `{ErrorsLib} `{GroupAPI W}.

(** ** Mappers *)

Definition Request : Type := string * string.

(** The request of one member status, if any. *)
Definition member_request (w : W) (group : VirtualMachineGroup) (memberKind : string)
    (m : VirtualMachineGroupMemberStatus) : option Request :=
  if bool_decide (ms_Kind m ≠ memberKind) then None
  else if negb (IsTrue (ms_Conditions m) GroupLinked) then None
  else if bool_decide (memberKind = vmKind) then
    match GetVM (vg_Namespace group) (ms_Name m) w with
    | inl _ => None
    | inr vm =>
      if bool_decide (gv_GroupName vm ≠ vg_Name group) then None
      else if negb (IsTrue (gv_Conditions vm) GroupLinked) || negb (IsTrue (gv_Conditions vm) VMPlacementReady)
      then Some (vg_Namespace group, ms_Name m) else None
    end
  else if bool_decide (memberKind = vmgKind) then
    match GetVMGroup (vg_Namespace group) (ms_Name m) w with
    | inl _ => None
    | inr vmg =>
      if bool_decide (gs_GroupName (vg_Spec vmg) ≠ vg_Name group) then None
      else if negb (IsTrue (vg_GetConditions vmg) GroupLinked)
      then Some (vg_Namespace group, ms_Name m) else None
    end
  else None.

Definition GroupToMembersMapperFn (memberKind : string) (w : W) (group : VirtualMachineGroup) :
    list Request :=
  omap (member_request w group memberKind) (Members (vg_Status group)).

Definition MemberToGroupMapperFn `{MemberObject A} (memberObj : A) : list Request :=
  if bool_decide (GetGroupName memberObj ≠ "") && IsTrue (mo_Conditions memberObj) GroupLinked
  then [(mo_Namespace memberObj, GetGroupName memberObj)] else [].

(** ** Links *)

(** [m.Kind == member.GetMemberKind() && m.Name == member.GetName()] for some
    member of the boot order. *)
Definition lists_member (bos : list VirtualMachineGroupBootOrderGroup) (kind name : string) : bool :=
  existsb (λ bo, existsb (λ m, bool_decide (gm_Kind m = kind) && bool_decide (gm_Name m = name))
                   (bo_Members bo)) bos.

(** The member with its conditions, and the error. *)
Definition UpdateGroupLinkedCondition `{MemberObject A} (member : A) (w : W) : A * option goerror :=
  let l := mo_Conditions member in
  if bool_decide (GetGroupName member = "") then (mo_SetConditions (Delete l GroupLinked) member, None)
  else
    match GetVMGroup (mo_Namespace member) (GetGroupName member) w with
    | inl err =>
      if negb (gr_IsNotFound err)
      then (mo_SetConditions (MarkError (gr_Now w) l GroupLinked "Error" (Error err)) member, Some err)
      else (mo_SetConditions (MarkFalse (gr_Now w) l GroupLinked "NotFound" "") member, None)
    | inr obj =>
      if lists_member (BootOrder (vg_Spec obj)) (GetMemberKind A) (mo_Name member)
      then (mo_SetConditions (MarkTrue (gr_Now w) l GroupLinked) member, None)
      else (mo_SetConditions (MarkFalse (gr_Now w) l GroupLinked "NotMember" "") member, None)
    end.

(** The new object, and whether its references were changed. *)
Definition RemoveStaleGroupOwnerRef `{MemberObject A} (newObj oldObj : A) : A * bool :=
  let oldGroupName := GetGroupName oldObj in
  if bool_decide (oldGroupName = "") || bool_decide (oldGroupName = GetGroupName newObj)
  then (newObj, false)
  else
    let stale (ref : OwnerRef) := ow_Kind ref = vmgKind ∧ ow_Name ref = oldGroupName in
    let filteredRefs := filter (λ ref, ¬ stale ref) (mo_Owners newObj) in
    if existsb (λ ref, bool_decide (stale ref)) (mo_Owners newObj)
    then (mo_SetOwners filteredRefs newObj, true) else (newObj, false).

(** ** The VMs of a group *)

(** [%q] on a name without characters to escape. *)
Definition quoted (s : string) : string :=
  let q := String.String (Ascii.ascii_of_N 34) EmptyString in q +:+ s +:+ q.

Definition loop_error (name : string) : goerror :=
  ErrorString ("a loop is detected among groups: " +:+ quoted name +:+ " visited").
Definition duplicate_error (name : string) : goerror :=
  ErrorString ("duplicate member " +:+ quoted name +:+ " found in the group").
(** The names are printed in some order. *)
Definition duplicates_error (names : gset string) : goerror :=
  ErrorString ("duplicate member(s) found in the group: [" +:+
               String.concat " " (quoted <$> elements names) +:+ "]").
Definition unknown_kind_error (group kind : string) : goerror :=
  ErrorString ("VM group " +:+ quoted group +:+ " status has a member with unknown kind: " +:+ quoted kind).

(** The loop over the members; [rec] is the recursive call, [None] its running
    out of fuel.  The set of visited groups is shared by all calls. *)
Section MemberLoop.
Context (rec : string → gset string → option (gset string * (goerror + gset string))).

Fixpoint retrieve_members (group : string) (ms : list VirtualMachineGroupMemberStatus)
    (visitedGroups vmSet : gset string) : option (gset string * (goerror + gset string)) :=
  match ms with
  | [] => Some (visitedGroups, inr vmSet)
  | member :: rest =>
    if negb (IsTrue (ms_Conditions member) GroupLinked)
    then retrieve_members group rest visitedGroups vmSet
    else if bool_decide (ms_Kind member = vmKind) then
      if bool_decide (ms_Name member ∈ vmSet)
      then Some (visitedGroups, inl (duplicate_error (ms_Name member)))
      else retrieve_members group rest visitedGroups ({[ms_Name member]} ∪ vmSet)
    else if bool_decide (ms_Kind member = vmgKind) then
      match rec (ms_Name member) visitedGroups with
      | None => None
      | Some (visitedGroups, inl err) => Some (visitedGroups, inl err)
      | Some (visitedGroups, inr childVMSet) =>
        if bool_decide (childVMSet ∩ vmSet ≠ ∅)
        then Some (visitedGroups, inl (duplicates_error (childVMSet ∩ vmSet)))
        else retrieve_members group rest visitedGroups (vmSet ∪ childVMSet)
      end
    else Some (visitedGroups, inl (unknown_kind_error group (ms_Kind member)))
  end.
End MemberLoop.

Fixpoint RetrieveVMGroupMembers (fuel : nat) (ns : string) (w : W) (name : string)
    (visitedGroups : gset string) : option (gset string * (goerror + gset string)) :=
  match fuel with
  | O => None
  | S fuel =>
    if bool_decide (name ∈ visitedGroups) then Some (visitedGroups, inl (loop_error name))
    else
      let visitedGroups := {[name]} ∪ visitedGroups in
      match GetVMGroup ns name w with
      | inl err => Some (visitedGroups, inl err)
      | inr vmGroup =>
        retrieve_members (RetrieveVMGroupMembers fuel ns w) (vg_Name vmGroup)
          (Members (vg_Status vmGroup)) visitedGroups ∅
      end
  end.

End Groups.
