(* ===== verification/GroupController.v ===== *)
(** * The VM group controller: model

    controllers/virtualmachinegroup: the members of a group are linked and
    patched with the group's power state, each boot order after its delay, and
    the VMs that are not placed yet are handed to the provider, for the root of
    a tree of groups and everything below it.

    The pointers to groups that placement works on are indexes into a store, its
    first entry the group being reconciled: the provider and the code both write
    through them.  The recursion over nested groups takes fuel; running out of
    it is [None].  Events and logging are left out. *)

From S2P Require Import Prelude Conditions ConditionsMerge GoErrors VMGroup VirtualController.
Local Open Scope Z_scope.

Definition groupFinalizer : string := "vmoperator.vmware.com/virtualmachinegroup".
Definition LastUpdatedPowerStateTimeAnnotation : string :=
  "vmoperator.vmware.com.protected/last-updated-power-state-time".

(** A Go map read at an absent key gives the empty string. *)
Definition map_get (m : gmap string string) (k : string) : string := default "" (m !! k).

Section Controller.
Context {W : Type} `{ErrorsLib} `{GroupAPI W} `{MapRange}.

(** ** Conditions of a member status *)

Definition mark_true (w : W) (t : string) (ms : VirtualMachineGroupMemberStatus) :=
  ms_SetConditions (MarkTrue (gr_Now w) (ms_Conditions ms) t) ms.
Definition mark_false (w : W) (t reason message : string) (ms : VirtualMachineGroupMemberStatus) :=
  ms_SetConditions (MarkFalse (gr_Now w) (ms_Conditions ms) t reason message) ms.
Definition mark_error (w : W) (t reason : string) (err : goerror) (ms : VirtualMachineGroupMemberStatus) :=
  ms_SetConditions (MarkError (gr_Now w) (ms_Conditions ms) t reason (Error err)) ms.
Definition delete_condition (t : string) (ms : VirtualMachineGroupMemberStatus) :=
  ms_SetConditions (Delete (ms_Conditions ms) t) ms.

(** ** Power states *)

(** The flag, the time of the last update in the annotation, or an error. *)
Definition shouldUpdatePowerState (g : VirtualMachineGroup) : goerror + bool * Z :=
  if bool_decide (gs_PowerState (vg_Spec g) = "") then inr (false, 0)
  else
    let val := map_get (vg_Annotations g) LastUpdatedPowerStateTimeAnnotation in
    match (if bool_decide (val ≠ "") then ParseTime val else inr 0) with
    | inl err => inl err
    | inr lastUpdateAnnotation =>
      match LastUpdatedPowerStateTime (vg_Status g) with
      | Some t => if lastUpdateAnnotation <? t then inr (false, lastUpdateAnnotation)
                  else inr (true, lastUpdateAnnotation)
      | None => inr (true, lastUpdateAnnotation)
      end
    end.

Definition reverseBootOrder (bootOrders : list VirtualMachineGroupBootOrderGroup) :
    list VirtualMachineGroupBootOrderGroup := reverse bootOrders.

Definition on_or_off (powerState : string) : bool :=
  bool_decide (powerState = VirtualMachinePowerStateOn) ||
  bool_decide (powerState = VirtualMachinePowerStateOff).

Definition power_annotations (g : VirtualMachineGroup) (applyPowerStateTime : Z)
    (annotations : gmap string string) : gmap string string :=
  if on_or_off (gs_PowerState (vg_Spec g))
  then <[ApplyPowerStateTimeAnnotation := FormatTime applyPowerStateTime]> annotations
  else annotations.

(** [updateMemberPowerState], by the member's type. *)
Definition updateVMPowerState (g : VirtualMachineGroup) (applyPowerStateTime : Z) (vm : GroupVM) : GroupVM :=
  set_gv_Power (power_annotations g applyPowerStateTime (gv_Annotations vm))
    (gs_PowerState (vg_Spec g)) (gs_PowerOffMode (vg_Spec g)) (gs_SuspendMode (vg_Spec g)) vm.

Definition updateGroupPowerState (g : VirtualMachineGroup) (applyPowerStateTime : Z)
    (m : VirtualMachineGroup) : VirtualMachineGroup :=
  let s := vg_Spec m in
  set_vg_Annotations (power_annotations g applyPowerStateTime (vg_Annotations m))
    (set_vg_Spec (mkGroupSpec (gs_GroupName s) (BootOrder s) (gs_PowerState (vg_Spec g))
                    (NextForcePowerStateSyncTime s) (gs_PowerOffMode (vg_Spec g))
                    (gs_SuspendMode (vg_Spec g))) m).

(** ** One member *)

Definition member_key (kind name : string) : string := kind +:+ "/" +:+ name.

(** The status of a VM's power state, and whether the jump to the patch is
    taken. *)
Definition vm_power_status (g : VirtualMachineGroup) (updatePowerState : bool) (w : W) (vm : GroupVM)
    (ms : VirtualMachineGroupMemberStatus) : VirtualMachineGroupMemberStatus * bool :=
  let vmStatusPowerState := GetPowerState vm in
  let groupState := gs_PowerState (vg_Spec g) in
  let ms := set_ms_PowerState
              (if bool_decide (vmStatusPowerState = "") then None else Some vmStatusPowerState) ms in
  if bool_decide (groupState = "") then (delete_condition PowerStateSynced ms, true)
  else if bool_decide (vmStatusPowerState = groupState) then (mark_true w PowerStateSynced ms, true)
  else if updatePowerState || bool_decide (gv_PowerState vm = groupState)
  then (mark_false w PowerStateSynced "Pending" "" ms, false)
  else (mark_false w PowerStateSynced "NotSynced" "" ms, false).

Definition not_member_error (kind name groupName : string) : goerror :=
  if bool_decide (groupName = "")
  then ErrorString ("member " +:+ quoted (member_key kind name) +:+ " has no group name")
  else ErrorString ("member " +:+ quoted (member_key kind name) +:+
                    " has different group name: " +:+ quoted groupName).

(** The reading of the member failed. *)
Definition member_unread (w : W) (kind name : string) (err : goerror)
    (ms : VirtualMachineGroupMemberStatus) : VirtualMachineGroupMemberStatus * goerror :=
  if negb (gr_IsNotFound err) then (mark_error w GroupLinked "Error" err ms, err)
  else (mark_false w GroupLinked "NotFound" "" ms,
        NoRequeueError ("member " +:+ quoted (member_key kind name) +:+ " not found") false).

(** The member was read: [power] is what the code does for a VM before the
    patch, [update] the change of the power state, [patch] the request. *)
Definition reconcile_found `{MemberObject A} (g : VirtualMachineGroup) (name : string) (obj : A)
    (power : VirtualMachineGroupMemberStatus → VirtualMachineGroupMemberStatus * bool)
    (update : A → A) (patch : A → A → W → W * (goerror + A))
    (ms : VirtualMachineGroupMemberStatus) (updatePowerState : bool) (w : W) :
    W * VirtualMachineGroupMemberStatus * option goerror :=
  let kind := GetMemberKind A in
  if bool_decide (GetGroupName obj ≠ vg_Name g) then
    let err := not_member_error kind name (GetGroupName obj) in
    (w, mark_error w GroupLinked "NotMember" err ms, Some (NoRequeueError (Error err) false))
  else
    match SetOwnerReference g (mo_Owners obj) with
    | inl err =>
      (w, mark_error w GroupLinked "SetOwnerRefError" err ms,
       Some (Wrapped ("failed to set owner reference to member " +:+ quoted (member_key kind name)) err))
    | inr refs =>
      let '(ms, skip) := power ms in
      let new := mo_SetOwners refs obj in
      let new := if updatePowerState && negb skip then update new else new in
      let '(w, r) := patch obj new w in
      match r with
      | inl err =>
        let ms := mark_error w GroupLinked "OwnerRefPatchError" err ms in
        let ms := if updatePowerState then mark_error w PowerStateSynced "PowerStatePatchError" err ms else ms in
        (w, ms, Some (Wrapped ("failed to patch group member " +:+ quoted (member_key kind name)) err))
      | inr obj =>
        let ms := mark_true w GroupLinked ms in
        let ms := if bool_decide (kind = vmgKind)
                  then ms_SetConditions (SetMirror (gr_Now w) (ms_Conditions ms) ReadyConditionType
                         (mkGetter (mo_Conditions obj) (Some (mo_Name obj)) (Some vmgKind)) []) ms
                  else ms in
        (w, ms, None)
      end
    end.

Definition reconcileMember (g : VirtualMachineGroup) (member : GroupMember)
    (ms : VirtualMachineGroupMemberStatus) (updatePowerState : bool) (applyPowerStateTime : Z) (w : W) :
    W * VirtualMachineGroupMemberStatus * option goerror :=
  let ns := vg_Namespace g in
  let name := gm_Name member in
  let kind := gm_Kind member in
  let unread err := let '(ms, e) := member_unread w kind name err ms in (w, ms, Some e) in
  if bool_decide (kind = vmKind) then
    match GetVM ns name w with
    | inl err => unread err
    | inr vm =>
      reconcile_found g name vm (vm_power_status g updatePowerState w vm)
        (updateVMPowerState g applyPowerStateTime) PatchVM ms updatePowerState w
    end
  else if bool_decide (kind = vmgKind) then
    match GetVMGroup ns name w with
    | inl err => unread err
    | inr vmg =>
      reconcile_found g name vmg (λ ms, (ms, false))
        (updateGroupPowerState g applyPowerStateTime) PatchVMGroup ms updatePowerState w
    end
  else unread (GetNilObject w).

(** ** All members *)

Definition existing_statuses (l : list VirtualMachineGroupMemberStatus) :
    gmap string VirtualMachineGroupMemberStatus :=
  foldl (λ m ms, <[member_key (ms_Kind ms) (ms_Name ms) := ms]> m) ∅ l.

Definition start_status (existing : gmap string VirtualMachineGroupMemberStatus) (member : GroupMember) :
    VirtualMachineGroupMemberStatus :=
  default (mkMemberStatus (gm_Name member) (gm_Kind member) "" None None [])
    (existing !! member_key (gm_Kind member) (gm_Name member)).

(** What the loops build: the statuses and the errors. *)
Record membersState := mkMembersState {
  mst_world : W;
  memberStatuses : list VirtualMachineGroupMemberStatus;
  memberErrs : list goerror
}.

Definition member_step (g : VirtualMachineGroup) (existing : gmap string VirtualMachineGroupMemberStatus)
    (updatePowerState : bool) (applyPowerStateTime : Z) (st : membersState) (member : GroupMember) :
    membersState :=
  let '(w, ms, err) := reconcileMember g member (start_status existing member) updatePowerState
                         applyPowerStateTime (mst_world st) in
  mkMembersState w (memberStatuses st ++ [ms])
    (match err with Some e => memberErrs st ++ [e] | None => memberErrs st end).

Definition delayed (g : VirtualMachineGroup) (updatePowerState : bool)
    (bootOrder : VirtualMachineGroupBootOrderGroup) (applyPowerStateTime : Z) : Z :=
  if updatePowerState then
    if bool_decide (gs_PowerState (vg_Spec g) = VirtualMachinePowerStateOn)
    then match PowerOnDelay bootOrder with Some d => applyPowerStateTime + d | None => applyPowerStateTime end
    else if bool_decide (gs_PowerState (vg_Spec g) = VirtualMachinePowerStateOff)
    then match PowerOffDelay bootOrder with Some d => applyPowerStateTime + d | None => applyPowerStateTime end
    else applyPowerStateTime
  else applyPowerStateTime.

Fixpoint boot_order_loop (g : VirtualMachineGroup) (existing : gmap string VirtualMachineGroupMemberStatus)
    (updatePowerState : bool) (bootOrders : list VirtualMachineGroupBootOrderGroup)
    (applyPowerStateTime : Z) (st : membersState) : membersState :=
  match bootOrders with
  | [] => st
  | bootOrder :: rest =>
    let applyPowerStateTime := delayed g updatePowerState bootOrder applyPowerStateTime in
    boot_order_loop g existing updatePowerState rest applyPowerStateTime
      (foldl (member_step g existing updatePowerState applyPowerStateTime) st (bo_Members bootOrder))
  end.

Definition aggregateOrNoRequeue (errs : list goerror) : option goerror :=
  match errs with
  | [] => None
  | _ =>
    let agg := Aggregate errs in
    if forallb IsNoRequeueError errs then Some (NoRequeueError (Error agg) false) else Some agg
  end.

(** The time the delays count from: the one set by the parent, or that of the
    last update. *)
Definition base_time (g : VirtualMachineGroup) (updatePowerState : bool) (lastUpdateAnnoTime : Z) :
    goerror + Z :=
  let v := map_get (vg_Annotations g) ApplyPowerStateTimeAnnotation in
  match (if updatePowerState && on_or_off (gs_PowerState (vg_Spec g)) && bool_decide (v ≠ "")
         then ParseTime v else inr 0) with
  | inl err => inl err
  | inr t => inr (if t =? 0 then lastUpdateAnnoTime else t)
  end.

Definition reconcileMembers (g : VirtualMachineGroup) (w : W) : W * VirtualMachineGroup * option goerror :=
  let existing := existing_statuses (Members (vg_Status g)) in
  match shouldUpdatePowerState g with
  | inl err => (w, g, Some err)
  | inr (updatePowerState, lastUpdateAnnoTime) =>
    match base_time g updatePowerState lastUpdateAnnoTime with
    | inl err => (w, g, Some err)
    | inr applyPowerStateTime =>
      let bootOrders :=
        if bool_decide (gs_PowerState (vg_Spec g) = VirtualMachinePowerStateOff)
        then reverseBootOrder (BootOrder (vg_Spec g)) else BootOrder (vg_Spec g) in
      let st := boot_order_loop g existing updatePowerState bootOrders applyPowerStateTime
                  (mkMembersState w [] []) in
      let g := if updatePowerState && bool_decide (memberErrs st = [])
               then set_vg_LastUpdated (Some (gr_Now (mst_world st))) g else g in
      (mst_world st, set_vg_Members (memberStatuses st) g, aggregateOrNoRequeue (memberErrs st))
    end
  end.

(** ** The group's own link *)

Definition reconcileGroupName (g : VirtualMachineGroup) (w : W) : VirtualMachineGroup * option goerror :=
  match UpdateGroupLinkedCondition g w with
  | (g, Some err) => (g, Some (Wrapped "failed to update group linked condition" err))
  | (g, None) =>
    if IsFalse (vg_GetConditions g) GroupLinked
    then (g, Some (ErrorString "group is not linked to its parent group")) else (g, None)
  end.

(** ** Readiness *)

Definition expected_conditions (kind : string) : list string :=
  if bool_decide (kind = vmKind) then [GroupLinked; PlacementReady]
  else if bool_decide (kind = vmgKind) then [GroupLinked; ReadyConditionType]
  else [].

Definition condition_map (l : Conditions) : gmap string Condition :=
  foldl (λ m c, <[c_Type c := c]> m) ∅ l.

Definition status_text (s : ConditionStatus) : string :=
  match s with
  | ConditionTrue => "True"
  | ConditionFalse => "False"
  | ConditionUnknown => "Unknown"
  | ConditionOther s => s
  end.

Definition condition_is (key : string) (c : Condition) (t : string) : string :=
  key +:+ " condition " +:+ t +:+ " is " +:+ status_text (c_Status c).

Fixpoint unmet_expected (key : string) (m : gmap string Condition) (expected : list string) : option string :=
  match expected with
  | [] => None
  | t :: rest =>
    match m !! t with
    | None => Some (key +:+ " missing condition " +:+ t)
    | Some c => if bool_decide (c_Status c ≠ ConditionTrue) then Some (condition_is key c t)
                else unmet_expected key m rest
    end
  end.

(** [None] when the member is ready, else the reason. *)
Definition isMemberReady (ms : VirtualMachineGroupMemberStatus) : option string :=
  let key := member_key (ms_Kind ms) (ms_Name ms) in
  match unmet_expected key (condition_map (ms_Conditions ms)) (expected_conditions (ms_Kind ms)) with
  | Some reason => Some reason
  | None =>
    match filter (λ c, c_Status c ≠ ConditionTrue) (ms_Conditions ms) with
    | [] => None
    | c :: _ => Some (condition_is key c (c_Type c))
    end
  end.

Definition setReadyCondition (w : W) (err : option goerror) (g : VirtualMachineGroup) : VirtualMachineGroup :=
  let l := vg_GetConditions g in
  let members := Members (vg_Status g) in
  let mark_ready := vg_SetConditions (MarkTrue (gr_Now w) l ReadyConditionType) g in
  match err, members with
  | None, [] => mark_ready
  | _, _ =>
    match omap isMemberReady members with
    | [] =>
      match err with
      | None => mark_ready
      | Some e => vg_SetConditions (MarkError (gr_Now w) l ReadyConditionType "Error" (Error e)) g
      end
    | failureReasons =>
      let msg := pretty (Z.of_nat (length failureReasons)) +:+ " of " +:+
                 pretty (Z.of_nat (length members)) +:+ " members not ready: " +:+
                 String.concat "; " failureReasons in
      vg_SetConditions (MarkFalse (gr_Now w) l ReadyConditionType "MembersNotReady" msg) g
    end
  end.
(** ** Placement *)

Fixpoint findMemberStatus (name kind : string) (members : list VirtualMachineGroupMemberStatus) :
    option (nat * VirtualMachineGroupMemberStatus) :=
  match members with
  | [] => None
  | m :: rest =>
    if bool_decide (ms_Name m = name) && bool_decide (ms_Kind m = kind) then Some (O, m)
    else match findMemberStatus name kind rest with
         | Some (i, m) => Some (S i, m)
         | None => None
         end
  end.

Definition spec_vm_members (g : VirtualMachineGroup) : gset string :=
  list_to_set (gm_Name <$> filter (λ m, gm_Kind m = vmKind) (BootOrder (vg_Spec g) ≫= bo_Members)).

Definition status_vm_members (g : VirtualMachineGroup) : gmap string bool :=
  foldl (λ m ms, if bool_decide (ms_Kind ms = vmKind)
                 then <[ms_Name ms := IsTrue (ms_Conditions ms) PlacementReady]> m else m)
    ∅ (Members (vg_Status g)).

Definition all_placement_ready (g : VirtualMachineGroup) : bool :=
  bool_decide (∀ n, n ∈ spec_vm_members g → default false (status_vm_members g !! n) = true).

(** The group to go on with: the one passed in, or a fresh copy of it. *)
Definition ensurePlacementStatusUpToDate (w : W) (g : VirtualMachineGroup) :
    goerror + option VirtualMachineGroup :=
  match BootOrder (vg_Spec g) with
  | [] => inr None
  | _ =>
    if all_placement_ready g then inr None
    else match ReadVMGroup (vg_Namespace g) (vg_Name g) w with
         | inl err => inl (Wrapped "failed to get group from API reader" err)
         | inr fresh => inr (Some fresh)
         end
  end.

(** The store of groups and, for the child groups, their copies from before. *)
Record placementState := mkPlacementState {
  ps_store : list VirtualMachineGroup;
  groupPatches : gmap Z VirtualMachineGroup
}.

Definition upd_group (r : nat) (f : VirtualMachineGroup → VirtualMachineGroup) (st : placementState) :
    placementState := mkPlacementState (alter f r (ps_store st)) (groupPatches st).

(** The write through the pointer to a member status. *)
Definition upd_status (i : nat) (f : VirtualMachineGroupMemberStatus → VirtualMachineGroupMemberStatus)
    (g : VirtualMachineGroup) : VirtualMachineGroup :=
  set_vg_Members (alter f i (Members (vg_Status g))) g.

Definition already_placed (zone : string) : Condition :=
  mkCondition PlacementReady ConditionTrue 0 0 "AlreadyPlaced" zone.

(** Whether a VM that is not placed yet is left to its zone label. *)
Definition pinned_to_zone (VMAffinityDuringExecution : bool) (vm : GroupVM) : bool :=
  bool_decide (map_get (gv_Labels vm) LabelTopologyZone ≠ "") &&
  (negb VMAffinityDuringExecution || HasCAPILabels (gv_Labels vm)).

(** The VM to place, if any, with the member's status after the call. *)
Definition getVMForPlacement (VMAffinityDuringExecution : bool) (w : W) (g : VirtualMachineGroup)
    (vmName : string) : VirtualMachineGroup * (goerror + option GroupVM) :=
  match findMemberStatus vmName vmKind (Members (vg_Status g)) with
  | None => (g, inl (ErrorString ("VM " +:+ quoted vmName +:+ " is not in group member status")))
  | Some (i, memberStatus) =>
    let fail err := (upd_status i (mark_error w PlacementReady "Error" err) g, inl err) in
    if negb (IsTrue (ms_Conditions memberStatus) GroupLinked)
    then fail (ErrorString ("VM " +:+ quoted vmName +:+ " is not linked for group " +:+ quoted (vg_Name g)))
    else
      match GetVM (vg_Namespace g) vmName w with
      | inl err => fail (Wrapped ("failed to get group member VM " +:+ quoted vmName) err)
      | inr vm =>
        if bool_decide (gv_GroupName vm ≠ vg_Name g)
        then fail (ErrorString ("VM " +:+ quoted vmName +:+ " is assigned to group " +:+
               quoted (gv_GroupName vm) +:+ " instead of expected " +:+ quoted (vg_Name g)))
        else if bool_decide (gv_UID vm = ms_UID memberStatus) &&
                IsTrue (ms_Conditions memberStatus) PlacementReady
        then (g, inr None)
        else
          let g := upd_status i (set_ms_UID (gv_UID vm)) g in
          if bool_decide (gv_UniqueID vm ≠ "") then
            (upd_status i (λ ms, ms_SetConditions
               (Set_ (gr_Now w) (ms_Conditions ms) (Some (already_placed (gv_Zone vm)))) ms) g, inr None)
          else if pinned_to_zone VMAffinityDuringExecution vm then (g, inr None)
          else (g, inr (Some vm))
      end
  end.

Section PlacementLoop.
Context (VMAffinityDuringExecution : bool) (w : W).
(** The recursive call, for the group at a reference. *)
Context (rec : nat → placementState → option (placementState * (goerror + list VMGroupPlacement))).

(** [vmGroup := &VirtualMachineGroup{}] and the copy from the API reader are new
    entries of the store. *)
Definition getGroupsForPlacement (parent : VirtualMachineGroup) (groupName : string) (st : placementState) :
    option (placementState * (goerror + list VMGroupPlacement)) :=
  match findMemberStatus groupName vmgKind (Members (vg_Status parent)) with
  | None => Some (st, inl (ErrorString ("VM Group " +:+ quoted groupName +:+ " is not in parent group " +:+
                             quoted (vg_Name parent) +:+ " member status")))
  | Some (_, member) =>
    if negb (IsTrue (ms_Conditions member) GroupLinked)
    then Some (st, inl (ErrorString ("VM Group " +:+ quoted groupName +:+ " is not linked for parent group " +:+
                          quoted (vg_Name parent))))
    else
      match GetVMGroup (vg_Namespace parent) groupName w with
      | inl err => Some (st, inl (Wrapped ("failed to get group member group " +:+ groupName) err))
      | inr vmGroup =>
        let r := length (ps_store st) in
        let st := mkPlacementState (ps_store st ++ [vmGroup]) (groupPatches st) in
        if bool_decide (is_Some (groupPatches st !! Z.of_nat r))
        then Some (st, inl (ErrorString ("cycle detected in group hierarchy: " +:+ quoted groupName)))
        else
          match ensurePlacementStatusUpToDate w vmGroup with
          | inl err => Some (st, inl err)
          | inr fresh =>
            let '(r, vmGroup, st) :=
              match fresh with
              | None => (r, vmGroup, st)
              | Some g => (length (ps_store st), g, mkPlacementState (ps_store st ++ [g]) (groupPatches st))
              end in
            rec r (mkPlacementState (ps_store st) (<[Z.of_nat r := vmGroup]> (groupPatches st)))
          end
      end
  end.

(** The loop over the members of the group at [r]; the VMs to place and the
    placements of the groups below are collected apart. *)
Fixpoint placement_members (r : nat) (members : list GroupMember) (vms : list GroupVM)
    (groupPlacements : list VMGroupPlacement) (st : placementState) :
    option (placementState * (goerror + list GroupVM * list VMGroupPlacement)) :=
  match members with
  | [] => Some (st, inr (vms, groupPlacements))
  | member :: rest =>
    match ps_store st !! r with
    | None => Some (st, inr (vms, groupPlacements))
    | Some g =>
      if bool_decide (gm_Kind member = vmKind) then
        match getVMForPlacement VMAffinityDuringExecution w g (gm_Name member) with
        | (g, inl err) => Some (upd_group r (λ _, g) st, inl err)
        | (g, inr vm) =>
          placement_members r rest (vms ++ option_list vm) groupPlacements (upd_group r (λ _, g) st)
        end
      else if bool_decide (gm_Kind member = vmgKind) then
        match getGroupsForPlacement g (gm_Name member) st with
        | None => None
        | Some (st, inl err) => Some (st, inl err)
        | Some (st, inr ps) => placement_members r rest vms (groupPlacements ++ ps) st
        end
      else placement_members r rest vms groupPlacements st
    end
  end.
End PlacementLoop.

Fixpoint getPlacementMembers (fuel : nat) (VMAffinityDuringExecution : bool) (w : W) (r : nat)
    (st : placementState) : option (placementState * (goerror + list VMGroupPlacement)) :=
  match fuel with
  | O => None
  | S fuel =>
    match ps_store st !! r with
    | None => Some (st, inr [])
    | Some g =>
      match placement_members VMAffinityDuringExecution w
              (getPlacementMembers fuel VMAffinityDuringExecution w)
              r (BootOrder (vg_Spec g) ≫= bo_Members) [] [] st with
      | None => None
      | Some (st, inl err) => Some (st, inl err)
      | Some (st, inr (vms, groupPlacements)) =>
        Some (st, inr (match vms with [] => groupPlacements | _ => groupPlacements ++ [mkPlacement r vms] end))
      end
    end
  end.

(** The loop over the child groups' patches. *)
Definition patch_child (root : VirtualMachineGroup) (store : list VirtualMachineGroup)
    (acc : W * list goerror) (entry : Z * VirtualMachineGroup) : W * list goerror :=
  let '(w, errs) := acc in
  let '(r, before) := entry in
  match store !! Z.to_nat r with
  | None => acc
  | Some group =>
    if bool_decide (vg_Name root = vg_Name group) then acc
    else
      match patch_empty before group with
      | inl err => (w, errs ++ [Wrapped ("failed to calculate placement status patch for child group " +:+
                                         quoted (vg_Name group)) err])
      | inr true => acc
      | inr false =>
        match PatchVMGroupStatus before group w with
        | (w, Some err) => (w, errs ++ [Wrapped ("failed to patch placement status for child group " +:+
                                                 quoted (vg_Name group)) err])
        | (w, None) => (w, errs)
        end
      end
  end.

(** The group after the call, with what placement wrote to it; [errors.Join]
    of no error is nil. *)
Definition reconcilePlacement (fuel : nat) (VMAffinityDuringExecution : bool) (g : VirtualMachineGroup) (w : W) :
    option (W * VirtualMachineGroup * option goerror) :=
  if bool_decide (gs_GroupName (vg_Spec g) ≠ "") then Some (w, g, None)
  else
    match getPlacementMembers fuel VMAffinityDuringExecution w 0 (mkPlacementState [g] ∅) with
    | None => None
    | Some (st, inl err) =>
      Some (w, default g (ps_store st !! 0%nat), Some (Wrapped "failed to get all placement members" err))
    | Some (st, inr []) => Some (w, default g (ps_store st !! 0%nat), None)
    | Some (st, inr groupPlacements) =>
      let '(w, store, err) := PlaceVirtualMachineGroup 0 groupPlacements (ps_store st) w in
      let errs := match err with
                  | Some e => [Wrapped "failed to place group members" e]
                  | None => []
                  end in
      let root := default g (store !! 0%nat) in
      let '(w, errs) := foldl (patch_child root store) (w, errs) (map_range (groupPatches st)) in
      Some (w, root, match errs with [] => None | _ => Some (Joined errs) end)
    end.

(** ** Reconciling *)

Definition group_ReconcileDelete (g : VirtualMachineGroup) : VirtualMachineGroup :=
  if gr_ContainsFinalizer (vg_Finalizers g) groupFinalizer
  then set_vg_Finalizers (gr_RemoveFinalizer (vg_Finalizers g) groupFinalizer) g else g.

(** The three steps, with the first error. *)
Definition reconcile_steps (fuel : nat) (VMAffinityDuringExecution : bool) (g : VirtualMachineGroup) (w : W) :
    option (W * VirtualMachineGroup * option goerror) :=
  match reconcileGroupName g w with
  | (g, Some err) => Some (w, g, Some (Wrapped "failed to reconcile group name" err))
  | (g, None) =>
    match reconcileMembers g w with
    | (w, g, Some err) => Some (w, g, Some (Wrapped "failed to reconcile group members" err))
    | (w, g, None) =>
      match reconcilePlacement fuel VMAffinityDuringExecution g w with
      | None => None
      | Some (w, g, Some err) => Some (w, g, Some (Wrapped "failed to reconcile group placement" err))
      | Some (w, g, None) => Some (w, g, None)
      end
    end
  end.

Definition group_ReconcileNormal (fuel : nat) (VMAffinityDuringExecution : bool) (g : VirtualMachineGroup)
    (w : W) : option (W * VirtualMachineGroup * option goerror) :=
  if negb (gr_ContainsFinalizer (vg_Finalizers g) groupFinalizer)
  then Some (w, set_vg_Finalizers (gr_AddFinalizer (vg_Finalizers g) groupFinalizer) g, None)
  else
    match reconcile_steps fuel VMAffinityDuringExecution g w with
    | None => None
    | Some (w, g, err) => Some (w, setReadyCondition w err g, err)
    end.

Definition ignore_not_found (err : goerror) : option goerror :=
  if gr_IsNotFound err then None else Some err.

Definition group_Reconcile (fuel : nat) (VMAffinityDuringExecution : bool) (ns name : string) (w : W) :
    option (W * Result * option goerror) :=
  match GetVMGroup ns name w with
  | inl err => Some (w, no_result, ignore_not_found err)
  | inr vmGroup =>
    match ensurePlacementStatusUpToDate w vmGroup with
    | inl err => Some (w, no_result, ignore_not_found err)
    | inr fresh =>
      let before := default vmGroup fresh in
      match gr_NewHelper before with
      | Some err => Some (w, no_result, Some (Wrapped ("failed to init patch helper for " +:+ ns +:+ "/" +:+ name) err))
      | None =>
        match (if vg_Deleting before then Some (w, group_ReconcileDelete before, None)
               else group_ReconcileNormal fuel VMAffinityDuringExecution before w) with
        | None => None
        | Some (w, after, err) =>
          let '(res, reterr) := if vg_Deleting before then (no_result, None) else ResultFromError err in
          match gr_Patch before after w with
          | (w, Some e) => Some (w, res, Some (default e reterr))
          | (w, None) => Some (w, res, reterr)
          end
        end
      end
    end
  end.
End Controller.
