(* ===== verification/GroupLinks.v ===== *)
(** * The VMs of a group

    What [RetrieveVMGroupMembers] returns and that it returns, whatever links
    the groups have, and what the references and conditions of a member become. *)

From S2P Require Import Prelude Conditions ConditionsMerge GoErrors VMGroup.
Local Open Scope Z_scope.

Section Retrieve.
Context {W : Type} `{ErrorsLib} `{GroupAPI W} (ns : string) (w : W).
#[local] Set Default Proof Using "Type".

Abbreviation retrieved := (option (gset string * (goerror + gset string))).

Definition linked (m : VirtualMachineGroupMemberStatus) : Prop :=
  IsTrue (ms_Conditions m) GroupLinked = true.

(** The VM [v] belongs to the group [n] or to one nested in it. *)
Inductive in_group : string → string → Prop :=
  | in_group_direct n g m :
      GetVMGroup ns n w = inr g → m ∈ Members (vg_Status g) → linked m → ms_Kind m = vmKind →
      in_group n (ms_Name m)
  | in_group_nested n g m v :
      GetVMGroup ns n w = inr g → m ∈ Members (vg_Status g) → linked m → ms_Kind m = vmgKind →
      in_group (ms_Name m) v → in_group n v.

(** The VMs one member status stands for. *)
Definition member_vms (m : VirtualMachineGroupMemberStatus) (v : string) : Prop :=
  linked m ∧ (ms_Kind m = vmKind ∧ v = ms_Name m ∨ ms_Kind m = vmgKind ∧ in_group (ms_Name m) v).

Lemma kinds_differ : vmgKind ≠ vmKind.
Proof. done. Qed.

Lemma in_group_members n g v :
  GetVMGroup ns n w = inr g →
  in_group n v ↔ ∃ m, m ∈ Members (vg_Status g) ∧ member_vms m v.
Proof.
  intros Hg. split.
  - inversion 1 as [? g2 m Hg2 Hm|? g2 m ? Hg2 Hm]; subst; rewrite Hg in Hg2; injection Hg2 as <-;
      exists m; (split; [done|]); split; auto.
  - intros (m & Hm & Hl & [[Hk ->]|[Hk Hv]]); [by eapply in_group_direct|by eapply in_group_nested].
Qed.

(** One round of the loop, with what its branches are. *)
Section Loop.
Context (rec : string → gset string → retrieved).

Lemma retrieve_members_visited group ms visited vmSet visited' r :
  (∀ n v v' r, rec n v = Some (v', r) → v ⊆ v') →
  retrieve_members rec group ms visited vmSet = Some (visited', r) → visited ⊆ visited'.
Proof.
  intros Hrec. revert visited vmSet. induction ms as [|m ms IH]; intros visited vmSet; cbn [retrieve_members].
  { by intros [= <- _]. }
  destruct (IsTrue _ _); cbn [negb]; [|apply IH].
  case_bool_decide; [case_bool_decide; [by intros [= <- _]|apply IH]|].
  case_bool_decide; [|by intros [= <- _]].
  destruct (rec _ _) as [[v [e|c]]|] eqn:Hr; [by intros [= <- _]; eauto| |done].
  apply Hrec in Hr. case_bool_decide; [by intros [= <- _]|]. intros ?%IH. by etrans.
Qed.

(** The loop returns when the calls it makes do. *)
Lemma retrieve_members_returns group ms visited vmSet :
  (∀ n v v' r, rec n v = Some (v', r) → v ⊆ v') →
  (∀ n v, visited ⊆ v → is_Some (rec n v)) →
  is_Some (retrieve_members rec group ms visited vmSet).
Proof.
  intros Hmono. revert visited vmSet. induction ms as [|m ms IH]; intros visited vmSet Hrec;
    cbn [retrieve_members]; [eauto|].
  destruct (IsTrue _ _); cbn [negb]; [|by apply IH].
  case_bool_decide; [case_bool_decide; [eauto|by apply IH]|].
  case_bool_decide; [|eauto].
  destruct (Hrec (ms_Name m) visited) as [[v [e|c]] Hr]; [done|..]; rewrite Hr; [eauto|].
  case_bool_decide; [eauto|]. apply IH. intros n v' Hv. apply Hrec. etrans; [|exact Hv]. by eapply Hmono.
Qed.

(** On success the set has the VMs of every member. *)
Lemma retrieve_members_exact group ms visited vmSet visited' s :
  (∀ n v v' c x, rec n v = Some (v', inr c) → x ∈ c ↔ in_group n x) →
  retrieve_members rec group ms visited vmSet = Some (visited', inr s) →
  ∀ x, x ∈ s ↔ x ∈ vmSet ∨ ∃ m, m ∈ ms ∧ member_vms m x.
Proof.
  intros Hrec. revert visited vmSet. induction ms as [|m ms IH]; intros visited vmSet; cbn [retrieve_members].
  { intros [= _ <-] x. set_solver. }
  assert (∀ (P : Prop) x, (P ↔ member_vms m x) →
    (∃ m', m' ∈ m :: ms ∧ member_vms m' x) ↔ P ∨ ∃ m', m' ∈ ms ∧ member_vms m' x) as Hcons.
  { intros P x ->. setoid_rewrite elem_of_cons. naive_solver. }
  destruct (IsTrue _ _) eqn:Hl; cbn [negb].
  - case_bool_decide as Hk.
    + case_bool_decide; [done|]. intros Hr x. rewrite (IH _ _ Hr), (Hcons (x = ms_Name m)); [set_solver|].
      unfold member_vms, linked. split; [auto|]. intros [_ [[_ ?]|[? _]]]; [done|destruct kinds_differ; congruence].
    + case_bool_decide as Hk'; [|done].
      destruct (rec _ _) as [[v [e|c]]|] eqn:Hr; [done| |done].
      case_bool_decide; [done|]. intros Hr' x. rewrite (IH _ _ Hr'), (Hcons (x ∈ c)); [set_solver|].
      unfold member_vms, linked. rewrite (Hrec _ _ _ _ _ Hr). split; [auto|]. by intros [_ [[? _]|[_ ?]]].
  - intros Hr x. rewrite (IH _ _ Hr), (Hcons False); [tauto|].
    split; [done|]. unfold member_vms, linked. by intros [? _]; congruence.
Qed.
End Loop.

Lemma retrieve_visited fuel n visited visited' r :
  RetrieveVMGroupMembers fuel ns w n visited = Some (visited', r) → visited ⊆ visited'.
Proof.
  revert n visited visited' r. induction fuel as [|fuel IH]; intros n visited visited' r; [done|].
  cbn [RetrieveVMGroupMembers]. case_bool_decide; [by intros [= <- _]|].
  destruct (GetVMGroup ns n w); [intros [= <- _]; set_solver|].
  intros Hr. apply retrieve_members_visited in Hr; [set_solver|done].
Qed.

(** Each call that reads its group visits one more of the existing groups. *)
Lemma retrieve_returns (groups : gset string) fuel n visited :
  (∀ n g, GetVMGroup ns n w = inr g → n ∈ groups) →
  (size (groups ∖ visited) < fuel)%nat → is_Some (RetrieveVMGroupMembers fuel ns w n visited).
Proof.
  intros Hgroups. revert n visited. induction fuel as [|fuel IH]; intros n visited Hf; [lia|].
  cbn [RetrieveVMGroupMembers]. case_bool_decide as Hn; [eauto|].
  destruct (GetVMGroup ns n w) as [e|g] eqn:Hg; [eauto|].
  apply retrieve_members_returns; [apply retrieve_visited|]. intros n' v Hv. apply IH.
  assert (size (groups ∖ v) < size (groups ∖ visited))%nat; [|lia].
  apply subset_size. apply Hgroups in Hg. set_solver.
Qed.

Lemma retrieve_exact fuel n visited visited' s v :
  RetrieveVMGroupMembers fuel ns w n visited = Some (visited', inr s) → v ∈ s ↔ in_group n v.
Proof.
  revert n visited visited' s v. induction fuel as [|fuel IH]; intros n visited visited' s v; [done|].
  cbn [RetrieveVMGroupMembers]. case_bool_decide; [done|].
  destruct (GetVMGroup ns n w) as [e|g] eqn:Hg; [done|]. intros Hr.
  rewrite (retrieve_members_exact _ _ _ _ _ _ _ IH Hr), (in_group_members n g v Hg). set_solver.
Qed.

(** Collecting the VMs of a group returns after at most one call per existing
    group and one more, even when groups contain each other, and on success the
    result is exactly the VMs linked to the group or to a group nested in it. *)
Theorem group_members_retrieved (groups : gset string) n :
  (∀ n g, GetVMGroup ns n w = inr g → n ∈ groups) →
  ∃ visited r, RetrieveVMGroupMembers (S (size groups)) ns w n ∅ = Some (visited, r) ∧
    ∀ s, r = inr s → ∀ v, v ∈ s ↔ in_group n v.
Proof.
  intros Hgroups. destruct (retrieve_returns groups (S (size groups)) n ∅) as [[visited r] Hr]; [done| |].
  { rewrite difference_empty_L. lia. }
  exists visited, r. split; [done|]. intros s -> v. by eapply retrieve_exact.
Qed.

(** ** Links *)

(** The condition a member gets, as its status and reason. *)
Definition link_state `{MemberObject A} (member : A) : ConditionStatus * string :=
  match GetVMGroup (mo_Namespace member) (GetGroupName member) w with
  | inl err => (ConditionFalse, if gr_IsNotFound err then "NotFound" else "Error")
  | inr g => if lists_member (BootOrder (vg_Spec g)) (GetMemberKind A) (mo_Name member)
             then (ConditionTrue, "True") else (ConditionFalse, "NotMember")
  end.

Lemma link_case now l c :
  NoDup (c_Type <$> l) → c_Type c = GroupLinked →
  (∀ t, t ≠ GroupLinked → Get (Set_ now l (Some c)) t = Get l t) ∧
  ∃ c', Get (Set_ now l (Some c)) GroupLinked = Some c' ∧ c_Status c' = c_Status c ∧ c_Reason c' = c_Reason c.
Proof.
  intros Hnd Ht. split; [intros t Hne; apply Set_Get_other; congruence|].
  destruct (Set_Get_same now l c Hnd) as (c' & Hg & Hs). rewrite Ht in Hg. exists c'.
  split; [done|]. apply hasSameState_spec in Hs. naive_solver.
Qed.

(** Closes a branch that sets the condition. *)
Ltac link_branch Hnd cond :=
  intros [= <- <-]; rewrite mo_get_set_Conditions;
  let c := fresh "c" in let Hg := fresh "Hg" in let Hs := fresh "Hs" in let Hr := fresh "Hr" in
  destruct (link_case (gr_Now w) _ cond Hnd eq_refl) as (? & c & Hg & Hs & Hr);
  split; [assumption|]; exists c; split; [exact Hg|]; rewrite Hs, Hr; split; [done|];
  split; [by intros [? ?]|by intros ?; eauto].

(** A member without a group name has no link condition; otherwise the
    condition is True exactly when its group exists and lists it, and names the
    obstacle otherwise; no other condition changes, and only a failed read is an
    error. *)
Theorem link_condition_exact `{MemberObjectLaws A} (member member' : A) err :
  NoDup (c_Type <$> mo_Conditions member) →
  UpdateGroupLinkedCondition member w = (member', err) →
  (∀ t, t ≠ GroupLinked → Get (mo_Conditions member') t = Get (mo_Conditions member) t) ∧
  (if bool_decide (GetGroupName member = "")
   then Get (mo_Conditions member') GroupLinked = None ∧ err = None
   else ∃ c, Get (mo_Conditions member') GroupLinked = Some c ∧ (c_Status c, c_Reason c) = link_state member ∧
     (is_Some err ↔ c_Reason c = "Error")).
Proof.
  intros Hnd. unfold UpdateGroupLinkedCondition, link_state. case_bool_decide.
  - intros [= <- <-]. rewrite mo_get_set_Conditions. split_and!; [|by rewrite Delete_lookup; case_decide|done].
    intros t Ht. rewrite Delete_lookup. by rewrite decide_False.
  - destruct (GetVMGroup _ _ w) as [e|g].
    + destruct (gr_IsNotFound e); cbn [negb].
      * link_branch Hnd (FalseCondition GroupLinked "NotFound" "").
      * link_branch Hnd (FalseCondition GroupLinked "Error" (Error e)).
    + destruct (lists_member _ _ _).
      * link_branch Hnd (TrueCondition GroupLinked).
      * link_branch Hnd (FalseCondition GroupLinked "NotMember" "").
Qed.
End Retrieve.
