(* ===== verification/GroupResults.v ===== *)
(** * The VM group controller: theorems

    What the members of a group are sent and when they are to act on it, when a
    group is ready, how errors of members are reported, which VMs are handed to
    placement, and what happens when groups contain each other. *)

From S2P Require Import Prelude Conditions ConditionsMerge GoErrors VMGroup VirtualController GroupController.
Local Open Scope Z_scope.

(** ** The requests of a reconciliation *)

Inductive PatchRequest :=
  | RequestVM (before after : GroupVM)
  | RequestGroup (before after : VirtualMachineGroup).

Section Traced.
Context {W : Type} `{ErrorsLib} `{GroupAPI W} `{MapRange}.
#[local] Set Default Proof Using "Type".

(** The same API server, with a log of the patches members are sent. *)
#[local] Instance traced : GroupAPI (W * list PatchRequest) := {
  gr_Now w := gr_Now w.1;
  ParseTime := ParseTime;
  FormatTime := FormatTime;
  GetVM ns n w := GetVM ns n w.1;
  GetVMGroup ns n w := GetVMGroup ns n w.1;
  ReadVMGroup ns n w := ReadVMGroup ns n w.1;
  GetNilObject w := GetNilObject w.1;
  gr_IsNotFound := gr_IsNotFound;
  SetOwnerReference := SetOwnerReference;
  PatchVM b a w := let '(w', r) := PatchVM b a w.1 in ((w', w.2 ++ [RequestVM b a]), r);
  PatchVMGroup b a w := let '(w', r) := PatchVMGroup b a w.1 in ((w', w.2 ++ [RequestGroup b a]), r);
  gr_ContainsFinalizer := gr_ContainsFinalizer;
  gr_AddFinalizer := gr_AddFinalizer;
  gr_RemoveFinalizer := gr_RemoveFinalizer;
  gr_NewHelper := gr_NewHelper;
  gr_Patch b a w := let '(w', r) := gr_Patch b a w.1 in ((w', w.2), r);
  patch_empty := patch_empty;
  PatchVMGroupStatus b a w := let '(w', r) := PatchVMGroupStatus b a w.1 in ((w', w.2), r);
  PlaceVirtualMachineGroup r ps st w :=
    let '(w', st', e) := PlaceVirtualMachineGroup r ps st w.1 in ((w', w.2), st', e)
}.

(** ** The schedule *)

Definition sum_delays (delay : VirtualMachineGroupBootOrderGroup → option Z)
    (bos : list VirtualMachineGroupBootOrderGroup) : Z :=
  foldr (λ bo acc, default 0 (delay bo) + acc) 0 bos.

(** When the members of the boot order at [i] are to change their power state:
    switching on goes through the boot orders from the first, switching off from
    the last, each adding its delay to the ones before. *)
Definition apply_time (g : VirtualMachineGroup) (t0 : Z) (i : nat) : Z :=
  let bos := BootOrder (vg_Spec g) in
  if bool_decide (gs_PowerState (vg_Spec g) = VirtualMachinePowerStateOn)
  then t0 + sum_delays PowerOnDelay (take (S i) bos)
  else if bool_decide (gs_PowerState (vg_Spec g) = VirtualMachinePowerStateOff)
  then t0 + sum_delays PowerOffDelay (drop i bos)
  else t0.

(** The members with their times, in the order the loops reach them. *)
Fixpoint schedule (g : VirtualMachineGroup) (updatePowerState : bool)
    (bos : list VirtualMachineGroupBootOrderGroup) (t : Z) : list (GroupMember * Z) :=
  match bos with
  | [] => []
  | bo :: rest =>
    let t := delayed g updatePowerState bo t in
    ((λ m, (m, t)) <$> bo_Members bo) ++ schedule g updatePowerState rest t
  end.

Lemma sum_delays_app delay l1 l2 :
  sum_delays delay (l1 ++ l2) = sum_delays delay l1 + sum_delays delay l2.
Proof. induction l1 as [|bo l1 IH]; simpl; [done|]. rewrite IH. lia. Qed.

Lemma sum_delays_reverse delay l : sum_delays delay (reverse l) = sum_delays delay l.
Proof. induction l as [|bo l IH]; [done|]. rewrite reverse_cons, sum_delays_app, IH. simpl. lia. Qed.

(** One step of the time is a delay. *)
Definition step_delay (g : VirtualMachineGroup) (bo : VirtualMachineGroupBootOrderGroup) : option Z :=
  if bool_decide (gs_PowerState (vg_Spec g) = VirtualMachinePowerStateOn) then PowerOnDelay bo
  else if bool_decide (gs_PowerState (vg_Spec g) = VirtualMachinePowerStateOff) then PowerOffDelay bo
  else None.

Lemma delayed_eq g bo t : delayed g true bo t = t + default 0 (step_delay g bo).
Proof. unfold delayed, step_delay. repeat case_bool_decide; [case_match; simpl; lia..|simpl; lia]. Qed.

Lemma schedule_elem g bos t i bo m :
  bos !! i = Some bo → m ∈ bo_Members bo →
  (m, t + sum_delays (step_delay g) (take (S i) bos)) ∈ schedule g true bos t.
Proof.
  revert t i. induction bos as [|b bos IH]; intros t i Hi Hm; [done|]. cbn [schedule].
  rewrite delayed_eq. apply elem_of_app. destruct i as [|i]; simplify_eq/=.
  - left. apply list_elem_of_fmap. exists m. split; [|done]. f_equal. simpl; lia.
  - right. specialize (IH (t + default 0 (step_delay g b)) i Hi Hm). by rewrite Z.add_assoc.
Qed.

Definition ordered_boot_orders (g : VirtualMachineGroup) : list VirtualMachineGroupBootOrderGroup :=
  if bool_decide (gs_PowerState (vg_Spec g) = VirtualMachinePowerStateOff)
  then reverseBootOrder (BootOrder (vg_Spec g)) else BootOrder (vg_Spec g).

Lemma sum_delays_ext d d' l : (∀ bo, d bo = d' bo) → sum_delays d l = sum_delays d' l.
Proof. intros Hd. induction l as [|bo l IH]; simpl; [done|]. by rewrite Hd, IH. Qed.

Lemma sum_delays_none l : sum_delays (λ _, None) l = 0.
Proof. induction l as [|bo l IH]; simpl; [done|]. rewrite IH. lia. Qed.

Lemma on_not_off : VirtualMachinePowerStateOn ≠ VirtualMachinePowerStateOff.
Proof. done. Qed.

Lemma schedule_apply_time g t i bo m :
  BootOrder (vg_Spec g) !! i = Some bo → m ∈ bo_Members bo →
  (m, apply_time g t i) ∈ schedule g true (ordered_boot_orders g) t.
Proof.
  intros Hi Hm. unfold apply_time, ordered_boot_orders.
  case_bool_decide as Hon; [|case_bool_decide as Hoff].
  - rewrite bool_decide_false by (rewrite Hon; apply on_not_off).
    rewrite (sum_delays_ext PowerOnDelay (step_delay g)); [by eapply schedule_elem|].
    intros b. unfold step_delay. by rewrite bool_decide_true.
  - set (bos := BootOrder (vg_Spec g)) in *. pose proof (lookup_lt_Some _ _ _ Hi) as Hlt.
    assert (reverse bos !! (length bos - S i)%nat = Some bo) as Hr.
    { rewrite reverse_lookup by lia. rewrite <-Hi. f_equal. lia. }
    rewrite (sum_delays_ext PowerOffDelay (step_delay g)).
    + replace (sum_delays (step_delay g) (drop i bos))
        with (sum_delays (step_delay g) (take (S (length bos - S i)) (reverse bos))); [by eapply schedule_elem|].
      replace (S (length bos - S i)) with (length bos - i)%nat by lia.
      rewrite <-(sum_delays_reverse _ (drop i bos)). rewrite take_reverse. do 3 f_equal. lia.
    + intros b. unfold step_delay. by rewrite bool_decide_false, bool_decide_true.
  - pose proof (schedule_elem g _ t _ _ _ Hi Hm) as He.
    rewrite (sum_delays_ext (step_delay g) (λ _, None)), sum_delays_none, Z.add_0_r in He; [done|].
    intros b. unfold step_delay. by rewrite !bool_decide_false.
Qed.

Lemma boot_order_loop_schedule {W'} `{GroupAPI W'} g existing upd bos t (st : membersState) :
  boot_order_loop (W:=W') g existing upd bos t st =
  foldl (λ st p, member_step g existing upd p.2 st p.1) st (schedule g upd bos t).
Proof.
  revert t st. induction bos as [|bo bos IH]; intros t st; [done|]. cbn [boot_order_loop schedule].
  rewrite foldl_app, IH. f_equal. generalize (delayed g upd bo t) as t'. intros t'.
  revert st. induction (bo_Members bo) as [|m ms IHm]; intros st; [done|]. apply IHm.
Qed.
(** *** One member *)

Lemma reconcile_found_inv {W'} `{GroupAPI W'} `{MemberObject A} g name (obj : A) power update patch ms upd
    (w w' : W') ms' :
  reconcile_found g name obj power update patch ms upd w = (w', ms', None) →
  GetGroupName obj = vg_Name g ∧
  ∃ refs obj', SetOwnerReference g (mo_Owners obj) = inr refs ∧
    patch obj (if upd && negb (power ms).2 then update (mo_SetOwners refs obj) else mo_SetOwners refs obj) w
      = (w', inr obj').
Proof.
  unfold reconcile_found. case_bool_decide as Hg; [done|]. intros Hr. split; [done|].
  destruct (SetOwnerReference g (mo_Owners obj)) as [e|refs]; [done|]. exists refs.
  destruct (power ms) as [ms0 skip]. cbn [snd].
  destruct (patch _ _ w) as [w1 [e|obj']]; [done|]. exists obj'. by simplify_eq.
Qed.

(** The change a VM is sent: nothing but the owner where the group asks for no
    power state or the VM is already in it. *)
Definition vm_request (g : VirtualMachineGroup) (upd : bool) (t : Z) (refs : list OwnerRef) (vm : GroupVM) :
    GroupVM :=
  let new := set_gv_Owners refs vm in
  if upd && negb (bool_decide (gs_PowerState (vg_Spec g) = "") ||
                  bool_decide (gv_StatusPowerState vm = gs_PowerState (vg_Spec g)))
  then updateVMPowerState (W:=W) g t new else new.

Definition group_request (g : VirtualMachineGroup) (upd : bool) (t : Z) (refs : list OwnerRef)
    (vmg : VirtualMachineGroup) : VirtualMachineGroup :=
  let new := set_vg_Owners refs vmg in if upd then updateGroupPowerState (W:=W) g t new else new.

(** The member [m] of [g] was read, belongs to the group and was sent the change
    for the time [t]. *)
Definition sent (g : VirtualMachineGroup) (upd : bool) (m : GroupMember) (t : Z) (log : list PatchRequest) : Prop :=
  (gm_Kind m = vmKind ∧ ∃ w vm refs, GetVM (vg_Namespace g) (gm_Name m) (w : W) = inr vm ∧
     gv_GroupName vm = vg_Name g ∧ SetOwnerReference (W:=W) g (gv_Owners vm) = inr refs ∧
     RequestVM vm (vm_request g upd t refs vm) ∈ log) ∨
  (gm_Kind m = vmgKind ∧ ∃ w vmg refs, GetVMGroup (vg_Namespace g) (gm_Name m) (w : W) = inr vmg ∧
     gs_GroupName (vg_Spec vmg) = vg_Name g ∧ SetOwnerReference (W:=W) g (vg_Owners vmg) = inr refs ∧
     RequestGroup vmg (group_request g upd t refs vmg) ∈ log).

Lemma vm_power_skip {W'} `{GroupAPI W'} g upd (w : W') vm ms :
  (vm_power_status g upd w vm ms).2 =
  bool_decide (gs_PowerState (vg_Spec g) = "") || bool_decide (gv_StatusPowerState vm = gs_PowerState (vg_Spec g)).
Proof. unfold vm_power_status. cbn [GetPowerState VM_member]. by repeat case_bool_decide; destruct upd. Qed.

Lemma member_unread_error {W'} `{GroupAPI W'} (w : W') kind name e ms (w' : W') ms' :
  (let '(ms, e) := member_unread w kind name e ms in (w, ms, Some e)) = (w', ms', @None goerror) → False.
Proof. by destruct (member_unread w kind name e ms). Qed.

Lemma reconcileMember_sent g m ms upd t w log w' log' ms' :
  reconcileMember g m ms upd t (w, log) = ((w', log'), ms', None) → sent g upd m t log'.
Proof.
  unfold reconcileMember, sent. case_bool_decide as Hk.
  - destruct (GetVM _ _ (w, log)) as [e|vm] eqn:Hg; [by intros ?%member_unread_error|].
    intros (Hn & refs & vm' & Ho & Hp)%reconcile_found_inv. left. split; [done|].
    exists w, vm, refs. split_and!; [done..|]. rewrite vm_power_skip in Hp. cbn in Hp.
    destruct (PatchVM _ _ w) as [w1 r]. injection Hp as _ <- _. apply elem_of_app. right.
    apply list_elem_of_singleton. done.
  - case_bool_decide as Hk'; [|by intros ?%member_unread_error].
    destruct (GetVMGroup _ _ (w, log)) as [e|vmg] eqn:Hg; [by intros ?%member_unread_error|].
    intros (Hn & refs & vmg' & Ho & Hp)%reconcile_found_inv. right. split; [done|].
    exists w, vmg, refs. split_and!; [done..|]. cbn in Hp. rewrite andb_true_r in Hp.
    destruct (PatchVMGroup _ _ w) as [w1 r]. injection Hp as _ <- _. apply elem_of_app. right.
    apply list_elem_of_singleton. done.
Qed.
(** Whatever its outcome, a member only adds to the log and keeps its name. *)
Definition extends (w w' : W * list PatchRequest) : Prop := w.2 `prefix_of` w'.2.

Lemma reconcile_found_frame `{MemberObject A} g name (obj : A) power update patch ms upd w :
  (∀ b a w, extends w (patch b a w).1) → (∀ ms, ms_Name (power ms).1 = ms_Name ms ∧ ms_Kind (power ms).1 = ms_Kind ms) →
  let r := reconcile_found g name obj power update patch ms upd w in
  extends w r.1.1 ∧ ms_Name r.1.2 = ms_Name ms ∧ ms_Kind r.1.2 = ms_Kind ms.
Proof.
  intros Hpatch Hpower. unfold reconcile_found. case_bool_decide; [by split; [exists []; rewrite app_nil_r|]|].
  destruct (SetOwnerReference _ _) as [e|refs]; [by split; [exists []; rewrite app_nil_r|]|].
  specialize (Hpower ms). destruct (power ms) as [ms0 skip]. cbn [fst] in Hpower.
  match goal with |- context [patch ?b ?a w] => specialize (Hpatch b a w); destruct (patch b a w) as [w1 [e|o]] end;
    (split; [done|]); [by destruct upd|by case_bool_decide].
Qed.

Lemma extends_refl w : extends w w.
Proof. by exists []; rewrite app_nil_r. Qed.

Lemma member_unread_frame (w : W * list PatchRequest) kind name e ms :
  let r := (let '(ms, e) := member_unread w kind name e ms in (w, ms, Some e)) in
  extends w r.1.1 ∧ ms_Name r.1.2 = ms_Name ms ∧ ms_Kind r.1.2 = ms_Kind ms.
Proof. unfold member_unread. destruct (negb _); (split; [apply extends_refl|done]). Qed.

Lemma vm_power_frame g upd (w : W * list PatchRequest) vm ms :
  ms_Name (vm_power_status g upd w vm ms).1 = ms_Name ms ∧ ms_Kind (vm_power_status g upd w vm ms).1 = ms_Kind ms.
Proof. unfold vm_power_status. by repeat case_match. Qed.

Lemma reconcileMember_frame g m ms upd t (w : W * list PatchRequest) :
  let r := reconcileMember g m ms upd t w in
  extends w r.1.1 ∧ ms_Name r.1.2 = ms_Name ms ∧ ms_Kind r.1.2 = ms_Kind ms.
Proof.
  assert (∀ b a w, extends w (PatchVM (W:=W * list PatchRequest) b a w).1) as Hp1.
  { intros b a [w0 l]. cbn. destruct (PatchVM b a w0). by exists [RequestVM b a]. }
  assert (∀ b a w, extends w (PatchVMGroup (W:=W * list PatchRequest) b a w).1) as Hp2.
  { intros b a [w0 l]. cbn. destruct (PatchVMGroup b a w0). by exists [RequestGroup b a]. }
  unfold reconcileMember. case_bool_decide.
  - destruct (GetVM _ _ w); [apply member_unread_frame|].
    apply reconcile_found_frame; [done|]. intros. apply vm_power_frame.
  - case_bool_decide; [|apply member_unread_frame].
    destruct (GetVMGroup _ _ w); [apply member_unread_frame|]. by apply reconcile_found_frame.
Qed.

Lemma sent_mono g upd m t log log' : log `prefix_of` log' → sent g upd m t log → sent g upd m t log'.
Proof.
  intros [l ->]. unfold sent. setoid_rewrite elem_of_app. naive_solver.
Qed.

(** *** The loops *)

Definition status_key (ms : VirtualMachineGroupMemberStatus) : string := member_key (ms_Kind ms) (ms_Name ms).

Lemma existing_statuses_key l k ms : existing_statuses l !! k = Some ms → status_key ms = k.
Proof.
  unfold existing_statuses. revert k ms.
  apply (Forall_foldl_inv _ (λ m : gmap string _, ∀ k ms, m !! k = Some ms → status_key ms = k)).
  - intros k ms. by rewrite lookup_empty.
  - intros m x _ IH k ms. destruct (decide (status_key x = k)) as [<-|Hne].
    + unfold status_key at 1. rewrite lookup_insert_eq. by intros [= ->].
    + rewrite lookup_insert_ne by done. apply IH.
Qed.

Lemma start_status_key l m :
  status_key (start_status (existing_statuses l) m) = member_key (gm_Kind m) (gm_Name m).
Proof.
  unfold start_status. destruct (_ !! _) as [ms|] eqn:He; [|done]. by apply existing_statuses_key in He.
Qed.

Lemma members_loop g statuses upd sched (st : membersState (W:=W * list PatchRequest)) :
  let st' := foldl (λ st p, member_step g (existing_statuses statuses) upd p.2 st p.1) st sched in
  extends (mst_world st) (mst_world st') ∧
  status_key <$> memberStatuses st' =
    (status_key <$> memberStatuses st) ++ ((λ p, member_key (gm_Kind p.1) (gm_Name p.1)) <$> sched) ∧
  (memberErrs st' = [] → memberErrs st = [] ∧ ∀ m t, (m, t) ∈ sched → sent g upd m t (mst_world st').2).
Proof.
  revert st. induction sched as [|[m t] sched IH]; intros st; cbn [foldl].
  { split; [apply extends_refl|]. rewrite fmap_nil, app_nil_r. split; [done|]. intros ->. set_solver. }
  unfold member_step at 2 4 6 8. cbn [fst snd].
  pose proof (reconcileMember_frame g m (start_status (existing_statuses statuses) m) upd t (mst_world st)) as Hf.
  destruct (reconcileMember g m _ upd t _) as [[w' ms'] err] eqn:Hr. cbn [fst snd] in Hf.
  destruct Hf as (Hext & Hn & Hk). specialize (IH (mkMembersState w' (memberStatuses st ++ [ms'])
    (match err with Some e => memberErrs st ++ [e] | None => memberErrs st end))).
  cbn [mst_world memberStatuses memberErrs] in IH. destruct IH as (IH1 & IH2 & IH3). split_and!.
  - unfold extends in *. by etrans.
  - rewrite IH2, fmap_app, fmap_cons, <-app_assoc. f_equal. cbn. f_equal.
    unfold status_key. rewrite Hn, Hk. apply start_status_key.
  - intros Hnil. destruct (IH3 Hnil) as [Herr Hsent]. destruct err as [e|]; [by destruct (memberErrs st)|].
    split; [done|]. intros m' t' [[= -> ->]|Hin]%elem_of_cons; [|by apply Hsent].
    destruct (mst_world st) as [w log], w' as [w'' log'']. eapply sent_mono; [exact IH1|].
    by eapply reconcileMember_sent.
Qed.

(** *** Properties of the requests *)

Lemma mark_true_is l now t : NoDup (c_Type <$> l) → IsTrue (MarkTrue now l t) t = true.
Proof.
  intros Hnd. destruct (Set_Get_same now l (TrueCondition t) Hnd) as (c & Hg & Hs).
  apply hasSameState_spec in Hs. unfold IsTrue, MarkTrue. cbn [c_Type TrueCondition] in Hg. rewrite Hg.
  destruct Hs as (_ & Hst & _). rewrite Hst. done.
Qed.

(** A VM that is in the group's power state but whose own spec asks for
    another one keeps that spec when the group's power state is applied, and the
    group reports it as synced: the VM's own change goes through afterwards. *)
Theorem pending_power_change_survives g m ms t w log vm refs w1 vm1 :
  gm_Kind m = vmKind → GetVM (vg_Namespace g) (gm_Name m) w = inr vm → gv_GroupName vm = vg_Name g →
  gs_PowerState (vg_Spec g) ≠ "" → gv_StatusPowerState vm = gs_PowerState (vg_Spec g) →
  gv_PowerState vm ≠ gs_PowerState (vg_Spec g) →
  SetOwnerReference (W:=W) g (gv_Owners vm) = inr refs →
  PatchVM vm (set_gv_Owners refs vm) w = (w1, inr vm1) → NoDup (c_Type <$> ms_Conditions ms) →
  ∃ ms', reconcileMember g m ms true t (w, log) =
           ((w1, log ++ [RequestVM vm (set_gv_Owners refs vm)]), ms', None) ∧
         gv_PowerState (set_gv_Owners refs vm) ≠ gs_PowerState (vg_Spec g) ∧
         IsTrue (ms_Conditions ms') PowerStateSynced = true.
Proof.
  intros Hk Hg Hn Hp Hst Hne Ho Hpatch Hnd. unfold reconcileMember. rewrite bool_decide_true by done.
  cbn [GetVM traced fst]. rewrite Hg. unfold reconcile_found. cbn [GetGroupName VM_member mo_Owners].
  rewrite bool_decide_false by auto. cbn [SetOwnerReference traced]. rewrite Ho.
  unfold vm_power_status. cbn [GetPowerState VM_member]. rewrite Hst.
  rewrite (bool_decide_false _ Hp), (bool_decide_true _ eq_refl). cbn [negb andb].
  cbn [PatchVM traced mo_SetOwners VM_member fst snd]. rewrite Hpatch.
  eexists. split; [done|]. split; [done|].
  rewrite (bool_decide_false (GetMemberKind GroupVM = vmgKind)) by done.
  change (IsTrue (Set_ (gr_Now w1) (MarkTrue (gr_Now w) (ms_Conditions ms) PowerStateSynced)
    (Some (TrueCondition GroupLinked))) PowerStateSynced = true).
  unfold IsTrue. rewrite Set_Get_other; [|by apply Set_NoDup|done].
  exact (mark_true_is (ms_Conditions ms) (gr_Now w) PowerStateSynced Hnd).
Qed.
End Traced.

(** ** Readiness *)

Section Ready.
Context {W : Type} `{ErrorsLib} `{GroupAPI W} `{MapRange}.
#[local] Set Default Proof Using "Type".

(** Every condition the kind of member needs is there, and all conditions are
    True. *)
Definition member_ready (ms : VirtualMachineGroupMemberStatus) : Prop :=
  (∀ t, t ∈ expected_conditions (ms_Kind ms) → ∃ c, c ∈ ms_Conditions ms ∧ c_Type c = t) ∧
  ∀ c, c ∈ ms_Conditions ms → c_Status c = ConditionTrue.

Lemma condition_map_elem l t c : condition_map l !! t = Some c → c ∈ l ∧ c_Type c = t.
Proof.
  unfold condition_map. revert t c.
  apply (Forall_foldl_inv _ (λ m : gmap string Condition, ∀ t c, m !! t = Some c → c ∈ l ∧ c_Type c = t)).
  - intros t c. by rewrite lookup_empty.
  - intros m x Hx IH t c. destruct (decide (c_Type x = t)) as [<-|Hne].
    + rewrite lookup_insert_eq. by intros [= <-].
    + rewrite lookup_insert_ne by done. apply IH.
Qed.

Lemma condition_map_dom l c : c ∈ l → is_Some (condition_map l !! c_Type c).
Proof.
  unfold condition_map. induction l as [|x l IH] using rev_ind; [set_solver|].
  rewrite foldl_app_singleton, elem_of_app, list_elem_of_singleton, lookup_insert_is_Some'. naive_solver.
Qed.

Lemma unmet_expected_None key l expected :
  (∀ c, c ∈ l → c_Status c = ConditionTrue) →
  unmet_expected key (condition_map l) expected = None ↔
  ∀ t, t ∈ expected → ∃ c, c ∈ l ∧ c_Type c = t.
Proof.
  intros Hall. induction expected as [|t rest IH]; cbn [unmet_expected]; [set_solver|].
  destruct (condition_map l !! t) as [c|] eqn:Hc.
  - apply condition_map_elem in Hc as [Hc Ht]. rewrite bool_decide_false by (rewrite (Hall c Hc); auto).
    rewrite IH. setoid_rewrite elem_of_cons. naive_solver.
  - split; [done|]. intros Hex. destruct (Hex t) as (c & Hin & <-); [set_solver|].
    destruct (condition_map_dom l c Hin) as [c' Hc']. congruence.
Qed.

Lemma unmet_expected_true key l expected t :
  unmet_expected key (condition_map l) expected = None → t ∈ expected →
  ∃ c, c ∈ l ∧ c_Type c = t.
Proof.
  induction expected as [|x rest IH]; cbn [unmet_expected]; [set_solver|].
  destruct (condition_map l !! x) as [c|] eqn:Hc; [|done]. apply condition_map_elem in Hc as [Hc Ht].
  case_bool_decide; [done|]. intros Hu [->|Hin]%elem_of_cons; eauto.
Qed.

Lemma isMemberReady_spec ms : isMemberReady ms = None ↔ member_ready ms.
Proof.
  unfold isMemberReady, member_ready. split.
  - destruct (unmet_expected _ _ _) eqn:Hu; [done|].
    destruct (filter _ _) as [|c l] eqn:Hf; [|done]. intros _. split.
    + intros t Ht. by eapply unmet_expected_true.
    + intros c Hc. destruct (decide (c_Status c = ConditionTrue)) as [|Hne]; [done|].
      assert (c ∈ filter (λ c, c_Status c ≠ ConditionTrue) (ms_Conditions ms)) as Hin
        by (by apply list_elem_of_filter). rewrite Hf in Hin. by apply elem_of_nil in Hin.
  - intros [Hex Hall]. rewrite (proj2 (unmet_expected_None _ _ _ Hall) Hex).
    rewrite list_filter_none; [done|]. intros c Hc Hne. by apply Hne, Hall.
Qed.

Lemma mark_false_not l now t r msg : NoDup (c_Type <$> l) → IsTrue (MarkFalse now l t r msg) t = false.
Proof.
  intros Hnd. destruct (Set_Get_same now l (FalseCondition t r msg) Hnd) as (c & Hg & Hs).
  apply hasSameState_spec in Hs. unfold IsTrue, MarkFalse. cbn [c_Type FalseCondition] in Hg. rewrite Hg.
  destruct Hs as (_ & Hst & _). rewrite Hst. done.
Qed.

(** After a reconciliation the group is Ready exactly when it ended without an
    error and every member has the conditions its kind needs and no condition
    that is not True. *)
Theorem group_ready_iff (w : W) err g :
  NoDup (c_Type <$> vg_GetConditions g) →
  IsTrue (vg_GetConditions (setReadyCondition w err g)) ReadyConditionType = true ↔
  err = None ∧ ∀ ms, ms ∈ Members (vg_Status g) → member_ready ms.
Proof.
  intros Hnd. unfold setReadyCondition.
  assert (omap isMemberReady (Members (vg_Status g)) = [] ↔ ∀ ms, ms ∈ Members (vg_Status g) → member_ready ms) as Hready.
  { setoid_rewrite <-isMemberReady_spec. induction (Members (vg_Status g)) as [|ms l IH]; [set_solver|].
    rewrite omap_cons. destruct (isMemberReady ms) eqn:Hm.
    - split; [done|]. intros Hall. specialize (Hall ms). rewrite Hm in Hall. set_solver.
    - rewrite IH. setoid_rewrite elem_of_cons. naive_solver. }
  assert (IsTrue (vg_GetConditions (vg_SetConditions (MarkTrue (gr_Now w) (vg_GetConditions g) ReadyConditionType) g))
    ReadyConditionType = true) as Htrue by (by apply mark_true_is).
  destruct (omap isMemberReady (Members (vg_Status g))) as [|r rs] eqn:Ho.
  - destruct err as [e|].
    + split; [|by intros [? _]]. replace (match Members (vg_Status g) with [] | _ => _ end) with
        (vg_SetConditions (MarkError (gr_Now w) (vg_GetConditions g) ReadyConditionType "Error" (Error e)) g)
        by (by destruct (Members (vg_Status g))).
      intros Ht. cbn [vg_GetConditions vg_SetConditions vg_Status set_vg_Status gst_Conditions] in Ht.
      unfold MarkError in Ht. fold (MarkFalse (gr_Now w) (vg_GetConditions g) ReadyConditionType "Error" (Error e)) in Ht.
      rewrite mark_false_not in Ht; done.
    + split; [intros _; split; [done|by apply Hready]|]. intros _. by destruct (Members (vg_Status g)).
  - split; [|intros [_ Hall]; by apply Hready in Hall].
    destruct (Members (vg_Status g)) as [|ms l] eqn:Hms; [done|]. intros Ht.
    destruct err; cbn in Ht; by rewrite mark_false_not in Ht.
Qed.
End Ready.

(** ** Placement *)

Section Placement.
Context {W : Type} `{ErrorsLib} `{GroupAPI W} `{MapRange} (aff : bool) (w : W).
#[local] Set Default Proof Using "Type".

Definition boot_members (g : VirtualMachineGroup) : list GroupMember := BootOrder (vg_Spec g) ≫= bo_Members.

(** A VM that may be handed to the provider: it is not placed, it is not left to
    its zone label and it was read as a member of its group. *)
Definition placeable (vm : GroupVM) : Prop :=
  gv_UniqueID vm = "" ∧ pinned_to_zone aff vm = false ∧
  ∃ ns g, GetVM ns g w = inr vm ∧ gv_GroupName vm ≠ "".

Definition placements_ok (ps : list VMGroupPlacement) : Prop :=
  ∀ p, p ∈ ps → VMMembers p ≠ [] ∧ Forall placeable (VMMembers p).

Lemma getVMForPlacement_ok g name g' vm :
  vg_Name g ≠ "" → getVMForPlacement aff w g name = (g', inr (Some vm)) → placeable vm.
Proof.
  intros Hn. unfold getVMForPlacement. destruct (findMemberStatus _ _ _) as [[i ms]|]; [|done].
  destruct (negb _); [done|]. destruct (GetVM _ _ w) as [e|v] eqn:Hg; [done|].
  case_bool_decide as Hgn; [done|]. destruct (_ && _); [done|].
  case_bool_decide as Hu; [done|]. destruct (pinned_to_zone aff v) eqn:Hp; [done|].
  intros [= _ <-]. split_and!; [done..|]. exists (vg_Namespace g), name. split; [done|congruence].
Qed.

Lemma getVMForPlacement_name g name : vg_Name (getVMForPlacement aff w g name).1 = vg_Name g.
Proof.
  unfold getVMForPlacement. destruct (findMemberStatus _ _ _) as [[i ms]|]; [|done].
  destruct (negb _); [done|]. destruct (GetVM _ _ w) as [e|v]; [done|].
  by repeat (case_bool_decide || case_match).
Qed.

(** Groups are read under the name asked for, and have one. *)
Definition named_groups : Prop :=
  ∀ ns n g, GetVMGroup ns n w = inr g ∨ ReadVMGroup ns n w = inr g → vg_Name g = n ∧ n ≠ "".

Lemma ensure_name g fresh :
  named_groups → ensurePlacementStatusUpToDate w g = inr (Some fresh) → vg_Name fresh = vg_Name g.
Proof.
  unfold ensurePlacementStatusUpToDate. intros Hn. destruct (BootOrder _); [done|].
  destruct (all_placement_ready _); [done|]. destruct (ReadVMGroup _ _ w) as [e|f] eqn:Hr; [done|].
  intros [= <-]. by destruct (Hn (vg_Namespace g) (vg_Name g) f) as [? _]; [right|].
Qed.

(** All groups of the store have names. *)
Definition store_named (st : placementState) : Prop := ∀ r g, ps_store st !! r = Some g → vg_Name g ≠ "".

Definition call_ok (r : option (placementState * (goerror + list VMGroupPlacement))) : Prop :=
  match r with
  | None => True
  | Some (st, inl _) => store_named st
  | Some (st, inr ps) => store_named st ∧ placements_ok ps
  end.

Lemma store_named_snoc st g p :
  store_named st → vg_Name g ≠ "" → store_named (mkPlacementState (ps_store st ++ [g]) p).
Proof.
  intros Hst Hg r g'. cbn [ps_store]. intros [?|[_ [_ <-]%list_lookup_singleton_Some]]%lookup_app_Some;
    [by eapply Hst|done].
Qed.

Lemma getGroupsForPlacement_ok rec parent name st :
  named_groups → store_named st → (∀ r st, store_named st → call_ok (rec r st)) →
  call_ok (getGroupsForPlacement w rec parent name st).
Proof.
  intros Hn Hst Hrec. unfold getGroupsForPlacement.
  destruct (findMemberStatus _ _ _) as [[i ms]|]; [|done]. destruct (negb _); [done|].
  destruct (GetVMGroup _ _ w) as [e|g] eqn:Hg; [done|].
  destruct (Hn (vg_Namespace parent) name g (or_introl Hg)) as [Hgn Hne].
  assert (vg_Name g ≠ "") as Hgne by congruence. case_bool_decide; [by apply store_named_snoc|].
  destruct (ensurePlacementStatusUpToDate w g) as [e|[f|]] eqn:He; [by apply store_named_snoc|..].
  - apply Hrec. apply (store_named_snoc (mkPlacementState (ps_store st ++ [g]) (groupPatches st)));
      [by apply store_named_snoc|]. by rewrite (ensure_name g f).
  - apply Hrec. by apply store_named_snoc.
Qed.

Lemma upd_group_named r g st : store_named st → vg_Name g ≠ "" → store_named (upd_group r (λ _, g) st).
Proof.
  intros Hst Hg r' g'. cbn [ps_store upd_group]. destruct (decide (r' = r)) as [->|Hne].
  - rewrite list_lookup_alter_eq. destruct (ps_store st !! r); intros He; simplify_eq/=; done.
  - rewrite list_lookup_alter_ne by done. apply Hst.
Qed.

Lemma placement_members_ok rec r ms vms gps st :
  named_groups → store_named st → (∀ r st, store_named st → call_ok (rec r st)) →
  Forall placeable vms → placements_ok gps →
  match placement_members aff w rec r ms vms gps st with
  | None => True
  | Some (st, inl _) => store_named st
  | Some (st, inr (vms, gps)) => store_named st ∧ Forall placeable vms ∧ placements_ok gps
  end.
Proof.
  intros Hn Hst Hrec. revert vms gps st Hst. induction ms as [|m ms IH]; intros vms gps st Hst Hv Hg;
    cbn [placement_members]; [done|].
  destruct (ps_store st !! r) as [g|] eqn:Hr; [|done]. apply Hst in Hr. case_bool_decide.
  - pose proof (getVMForPlacement_name g (gm_Name m)) as Hname.
    destruct (getVMForPlacement aff w g (gm_Name m)) as [g' [e|vm]] eqn:Hvm; cbn [fst] in Hname.
    + apply upd_group_named; [done|congruence].
    + apply IH; [apply upd_group_named; [done|congruence]| |done]. apply Forall_app. split; [done|].
      destruct vm as [vm|]; [|constructor]. constructor; [|constructor]. by eapply getVMForPlacement_ok.
  - case_bool_decide; [|by apply IH].
    pose proof (getGroupsForPlacement_ok rec g (gm_Name m) st Hn Hst Hrec) as Hc.
    destruct (getGroupsForPlacement w rec g (gm_Name m) st) as [[st' [e|ps]]|]; [done| |done].
    destruct Hc as [Hst' Hps]. apply IH; [done..|]. intros p [?|?]%elem_of_app; auto.
Qed.

(** Every placement the provider is asked for names at least one VM, and
    every VM in it was read as a member of a group, is not placed yet and is not
    pinned to a zone. *)
Theorem placement_only_unplaced fuel r st st' ps :
  named_groups → store_named st → getPlacementMembers fuel aff w r st = Some (st', inr ps) → placements_ok ps.
Proof.
  intros Hn. enough (∀ fuel r st, store_named st → call_ok (getPlacementMembers fuel aff w r st)) as Hall.
  { intros Hst Hp. specialize (Hall fuel r st Hst). rewrite Hp in Hall. apply Hall. }
  clear fuel r st st' ps. intros fuel. induction fuel as [|fuel IH]; intros r st Hst; [done|].
  cbn [getPlacementMembers]. destruct (ps_store st !! r) as [g|]; [|by split; [|set_solver]].
  assert (placements_ok []) as Hnil by set_solver.
  pose proof (placement_members_ok _ r (boot_members g) [] [] st Hn Hst IH (List.Forall_nil _) Hnil) as Hm.
  fold (boot_members g). destruct (placement_members _ _ _ _ _ _ _ _) as [[st' [e|[vms gps]]]|]; [done| |done].
  destruct Hm as (Hst' & Hv & Hg). split; [done|]. destruct vms as [|vm vms]; [done|].
  intros p [?| ->%list_elem_of_singleton]%elem_of_app; [auto|]. done.
Qed.

(** ** Groups that contain each other *)

(** The first member of the group is the group [n], and it is linked. *)
Definition first_group (g : VirtualMachineGroup) (n : string) : Prop :=
  (∃ rest, boot_members g = mkGroupMember n vmgKind :: rest) ∧
  ∃ i ms, findMemberStatus n vmgKind (Members (vg_Status g)) = Some (i, ms) ∧
          IsTrue (ms_Conditions ms) GroupLinked = true.

(** Every group of [C] starts with a group of [C]. *)
Definition cyclic (ns : string) (C : gset string) : Prop :=
  ∀ n, n ∈ C → ∃ g, GetVMGroup ns n w = inr g ∧ vg_Namespace g = ns ∧
    ReadVMGroup ns (vg_Name g) w = inr g ∧ ∃ n', n' ∈ C ∧ first_group g n'.

(** Copies are recorded for groups of the store only. *)
Definition patches_ok (st : placementState) : Prop :=
  ∀ k, is_Some (groupPatches st !! k) → k < Z.of_nat (length (ps_store st)).

Lemma ensure_same ns C n g :
  cyclic ns C → n ∈ C → GetVMGroup ns n w = inr g →
  ensurePlacementStatusUpToDate w g = inr None ∨ ensurePlacementStatusUpToDate w g = inr (Some g).
Proof.
  intros Hc Hn Hg. destruct (Hc n Hn) as (g' & Hg' & Hns & Hr & _). rewrite Hg in Hg'. injection Hg' as <-.
  unfold ensurePlacementStatusUpToDate. destruct (BootOrder _); [by left|].
  destruct (all_placement_ready g); [by left|]. right. by rewrite Hns, Hr.
Qed.

(** When groups contain each other, the search for members to place never
    returns: the check for a cycle looks up a group read a moment ago, which is
    not the one recorded before. *)
Theorem placement_cycle_diverges ns C fuel r st g n :
  cyclic ns C → ps_store st !! r = Some g → vg_Namespace g = ns → n ∈ C → first_group g n → patches_ok st →
  getPlacementMembers fuel aff w r st = None.
Proof.
  intros Hcyc. revert r st g n. induction fuel as [|fuel IH]; intros r st g n Hr Hns Hn Hf Hp; [done|].
  cbn [getPlacementMembers]. rewrite Hr. destruct Hf as ([rest Hb] & i & ms & Hfind & Hl).
  fold (boot_members g). rewrite Hb. cbn [placement_members]. rewrite Hr. cbn [gm_Kind gm_Name].
  rewrite (bool_decide_false (vmgKind = vmKind)), (bool_decide_true (vmgKind = vmgKind)) by done.
  enough (getGroupsForPlacement w (getPlacementMembers fuel aff w) g n st = None) as -> by done.
  unfold getGroupsForPlacement. rewrite Hfind, Hl, Hns. cbn [negb].
  destruct (Hcyc n Hn) as (g' & Hg' & Hns' & _ & n' & Hn' & Hf'). rewrite Hg'. cbn [groupPatches].
  rewrite bool_decide_false by (intros Hs; apply Hp in Hs; lia).
  destruct (ensure_same ns C n g' Hcyc Hn Hg') as [-> | ->]; cbn [ps_store].
  - eapply IH; [|done..|]; cbn [ps_store groupPatches].
    + apply list_lookup_middle. done.
    + intros k. cbn [ps_store groupPatches]. rewrite length_app. simpl. rewrite lookup_insert_is_Some'.
      intros [<-|Hk]; [lia|apply Hp in Hk; lia].
  - eapply IH; [|done..|]; cbn [ps_store groupPatches].
    + apply list_lookup_middle. done.
    + intros k. cbn [ps_store groupPatches]. rewrite !length_app. simpl. rewrite lookup_insert_is_Some'.
      intros [<-|Hk]; [lia|apply Hp in Hk; lia].
Qed.

(** Groups that do not: the names of nested groups go down in [rank]. *)
Definition acyclic (rank : string → nat) : Prop :=
  ∀ ns n g, GetVMGroup ns n w = inr g ∨ ReadVMGroup ns n w = inr g →
    vg_Name g = n ∧ ∀ m, m ∈ boot_members g → gm_Kind m = vmgKind → (rank (gm_Name m) < rank n)%nat.

Definition descends (rank : string → nat) (k : nat) (st : placementState) (r : nat) : Prop :=
  ∀ g, ps_store st !! r = Some g →
    ∀ m, m ∈ boot_members g → gm_Kind m = vmgKind → (rank (gm_Name m) < k)%nat.

Lemma acyclic_descends rank ns n g :
  acyclic rank → GetVMGroup ns n w = inr g ∨ ReadVMGroup ns n w = inr g →
  ∀ m, m ∈ boot_members g → gm_Kind m = vmgKind → (rank (gm_Name m) < rank n)%nat.
Proof. intros Ha Hg. by apply (Ha ns n g). Qed.

Lemma getGroupsForPlacement_returns rank rec parent name st :
  acyclic rank → (∀ r st, descends rank (rank name) st r → is_Some (rec r st)) →
  is_Some (getGroupsForPlacement w rec parent name st).
Proof.
  intros Ha Hrec. unfold getGroupsForPlacement.
  destruct (findMemberStatus _ _ _) as [[i ms]|]; [|eauto]. destruct (negb _); [eauto|].
  destruct (GetVMGroup _ _ w) as [e|g] eqn:Hg; [eauto|]. case_bool_decide; [eauto|].
  destruct (Ha _ _ _ (or_introl Hg)) as [Hname _].
  destruct (ensurePlacementStatusUpToDate w g) as [e|[f|]] eqn:He; [eauto|..]; apply Hrec; intros g' Hg';
    cbn [ps_store] in Hg'; rewrite list_lookup_middle in Hg' by done; injection Hg' as <-.
  - unfold ensurePlacementStatusUpToDate in He. destruct (BootOrder (vg_Spec g)); [done|].
    destruct (all_placement_ready g); [done|]. destruct (ReadVMGroup _ _ w) as [e|f'] eqn:Hr; simplify_eq.
    apply (acyclic_descends rank _ _ f Ha (or_intror Hr)).
  - apply (acyclic_descends rank _ _ g Ha (or_introl Hg)).
Qed.

Lemma placement_members_returns rank k rec r ms vms gps st :
  acyclic rank → (∀ m, m ∈ ms → gm_Kind m = vmgKind → (rank (gm_Name m) < k)%nat) →
  (∀ r st k', (k' < k)%nat → descends rank k' st r → is_Some (rec r st)) →
  is_Some (placement_members aff w rec r ms vms gps st).
Proof.
  intros Ha Hms Hrec. revert vms gps st. induction ms as [|m ms IH]; intros vms gps st;
    cbn [placement_members]; [eauto|].
  destruct (ps_store st !! r) as [g|]; [|eauto]. case_bool_decide.
  - destruct (getVMForPlacement _ _ _ _) as [g' [e|vm]]; [eauto|]. apply IH. set_solver.
  - case_bool_decide as Hk; [|apply IH; set_solver].
    destruct (getGroupsForPlacement_returns rank rec g (gm_Name m) st Ha) as [[st' [e|ps]] ->];
      [|eauto|apply IH; set_solver].
    intros r' st'. apply Hrec, Hms; [set_solver|done].
Qed.

Lemma getPlacementMembers_returns rank fuel k r st :
  acyclic rank → (k < fuel)%nat → descends rank k st r → is_Some (getPlacementMembers fuel aff w r st).
Proof.
  intros Ha. revert k r st. induction fuel as [|fuel IH]; intros k r st Hk Hd; [lia|].
  cbn [getPlacementMembers]. destruct (ps_store st !! r) as [g|] eqn:Hg; [|eauto].
  destruct (placement_members_returns rank k (getPlacementMembers fuel aff w) r (BootOrder (vg_Spec g) ≫= bo_Members)
    [] [] st Ha) as [[st' [e|[vms gps]]] ->]; [by apply Hd| |eauto..].
  intros r' st' k' Hlt. apply IH. lia.
Qed.

(** C40: The placement step of a group whose nested groups form no cycle returns,
    with fuel one more than its height. *)
Theorem placement_terminates rank g :
  acyclic rank →
  (∀ m, m ∈ boot_members g → gm_Kind m = vmgKind → (rank (gm_Name m) < rank (vg_Name g))%nat) →
  is_Some (reconcilePlacement (S (rank (vg_Name g))) aff g w).
Proof.
  intros Ha Hg. unfold reconcilePlacement. case_bool_decide; [eauto|].
  destruct (getPlacementMembers_returns rank (S (rank (vg_Name g))) (rank (vg_Name g)) 0
    (mkPlacementState [g] ∅) Ha) as [[st [e|ps]] ->]; [lia|by intros g' [= <-]|..].
  - eauto.
  - destruct ps as [|p ps]; [eauto|]. destruct (PlaceVirtualMachineGroup _ _ _ w) as [[w' store] err].
    destruct (foldl _ _ _). eauto.
Qed.
End Placement.

(** ** Errors of members *)

(** Unless aggregates are unwrapped, the errors of members are reported as final
    when each of them is, and as an error to retry otherwise. *)
Lemma member_errors_reported `{ErrorsLib} prefix errs e :
  aggregate_unwraps = false → aggregateOrNoRequeue errs = Some e →
  ResultFromError (Some (Wrapped prefix e)) =
    (no_result, Some (if forallb IsNoRequeueError errs then TerminalError (Wrapped prefix e)
                      else Wrapped prefix e)).
Proof.
  intros Hu. unfold aggregateOrNoRequeue. destruct errs as [|e0 errs]; [done|].
  destruct (forallb IsNoRequeueError (e0 :: errs)); intros [= <-]; [done|].
  unfold ResultFromError. cbn [As is_requeue is_norequeue]. by rewrite Hu.
Qed.
