(* ===== verification/GroupWebhook.v ===== *)
(** * The webhooks of VM groups

    webhooks/virtualmachinegroup: the mutation that records when the power state
    of a group was changed and drops references to a former parent, and the
    validation of power state, members and group name.

    [now] is the current time in the annotation's format. *)

From S2P Require Import Prelude Conditions GoErrors VMGroup GroupController VirtualController.
Local Open Scope Z_scope.

(** ** Mutation *)

(** [strings.EqualFold("now", s)]: no character outside ASCII folds to one of
    its letters. *)
Definition equal_fold_now (s : string) : bool :=
  let folds c lo up := bool_decide (c = Ascii.ascii_of_N lo) || bool_decide (c = Ascii.ascii_of_N up) in
  match s with
  | String.String a (String.String b (String.String c EmptyString)) =>
    folds a 110%N 78%N && folds b 111%N 79%N && folds c 119%N 87%N
  | _ => false
  end.

Definition set_NextForce (v : string) (g : VirtualMachineGroup) : VirtualMachineGroup :=
  let s := vg_Spec g in
  set_vg_Spec (mkGroupSpec (gs_GroupName s) (BootOrder s) (gs_PowerState s) v (gs_PowerOffMode s)
                 (gs_SuspendMode s)) g.

(** The group a creation is compared with. *)
Definition no_group : VirtualMachineGroup :=
  mkVMGroup "" "" "" false [] ∅ [] (mkGroupSpec "" [] "" "" "" "") (mkGroupStatus [] None []).

(** The switch on the force-sync value: the group, whether it was changed and
    whether a sync is forced; [None] when the value is refused. *)
Definition force_sync (now : string) (newVMG oldVMG : VirtualMachineGroup) :
    option (VirtualMachineGroup * bool * bool) :=
  let oldVal := NextForcePowerStateSyncTime (vg_Spec oldVMG) in
  let newVal := NextForcePowerStateSyncTime (vg_Spec newVMG) in
  if bool_decide (newVal = "") then Some (set_NextForce oldVal newVMG, bool_decide (oldVal ≠ ""), false)
  else if equal_fold_now newVal then Some (set_NextForce now newVMG, true, true)
  else if bool_decide (newVal ≠ oldVal) then None
  else Some (newVMG, false, false).

Definition ProcessPowerState (now : string) (newVMG : VirtualMachineGroup)
    (oldVMG : option VirtualMachineGroup) : option (VirtualMachineGroup * bool) :=
  let oldVMG := default no_group oldVMG in
  match force_sync now newVMG oldVMG with
  | None => None
  | Some (newVMG, wasMutated, shouldForceSync) =>
    let shouldUpdateAnnotation :=
      shouldForceSync || bool_decide (gs_PowerState (vg_Spec newVMG) ≠ gs_PowerState (vg_Spec oldVMG)) in
    let '(newVMG, wasMutated) :=
      if shouldUpdateAnnotation
      then (set_vg_Annotations (<[LastUpdatedPowerStateTimeAnnotation := now]> (vg_Annotations newVMG)) newVMG, true)
      else (newVMG, wasMutated) in
    let oldAnnoTime := map_get (vg_Annotations oldVMG) ApplyPowerStateTimeAnnotation in
    let newAnnoTime := map_get (vg_Annotations newVMG) ApplyPowerStateTimeAnnotation in
    if bool_decide (oldAnnoTime ≠ newAnnoTime) then Some (newVMG, wasMutated)
    else if shouldUpdateAnnotation && bool_decide (newAnnoTime ≠ "")
    then Some (set_vg_Annotations (delete ApplyPowerStateTimeAnnotation (vg_Annotations newVMG)) newVMG, true)
    else Some (newVMG, wasMutated)
  end.

Inductive Operation := Create | Update (old : VirtualMachineGroup) | OtherOperation.

(** [Denied] carries no object, [Allowed] leaves it as it is. *)
Inductive Response := Allowed | Denied | Patched (g : VirtualMachineGroup).

Definition group_Mutate (now : string) (op : Operation) (obj : VirtualMachineGroup) : Response :=
  match op with
  | OtherOperation => Allowed
  | Create =>
    match ProcessPowerState now obj None with
    | None => Denied
    | Some (modified, ok) => if ok then Patched modified else Allowed
    end
  | Update old =>
    match ProcessPowerState now obj (Some old) with
    | None => Denied
    | Some (modified, ok) =>
      let '(modified, removed) := RemoveStaleGroupOwnerRef modified old in
      if ok || removed then Patched modified else Allowed
    end
  end.

(** ** Validation *)

(** The field errors, by what they name. *)
Inductive groupFieldError :=
  | AnnotationForbidden
  | AnnotationInvalid (v : string)
  | PowerStateForbidden
  | DuplicateMember (i j : nat) (key : string)
  | SelfMember (i j : nat) (key : string)
  | SelfGroupName (name : string)
  | PowerOffDelayForbidden (i : nat).

Section Validation.
Context {W : Type} `{ErrorsLib} `{GroupAPI W}.

Definition validatePowerState (privileged : bool) (newVMGroup : VirtualMachineGroup)
    (oldVMGroup : option VirtualMachineGroup) : list groupFieldError :=
  let oldVMGroup := default no_group oldVMGroup in
  let oldSpec := vg_Spec oldVMGroup in
  let newSpec := vg_Spec newVMGroup in
  let oldTime := map_get (vg_Annotations oldVMGroup) LastUpdatedPowerStateTimeAnnotation in
  let newTime := map_get (vg_Annotations newVMGroup) LastUpdatedPowerStateTimeAnnotation in
  (if negb privileged && bool_decide (oldTime ≠ newTime) &&
      bool_decide (gs_PowerState oldSpec = gs_PowerState newSpec) &&
      bool_decide (NextForcePowerStateSyncTime oldSpec = NextForcePowerStateSyncTime newSpec)
   then [AnnotationForbidden] else []) ++
  (if bool_decide (newTime ≠ "")
   then match ParseTime newTime with inl _ => [AnnotationInvalid newTime] | inr _ => [] end else []) ++
  (if bool_decide (gs_PowerState oldSpec ≠ "") && bool_decide (gs_PowerState newSpec = "")
   then [PowerStateForbidden] else []).

(** The two loops over boot orders and members, with their indexes and the set
    of keys seen. *)
Fixpoint check_members (name : string) (i j : nat) (members : list GroupMember) (seen : gset string) :
    list groupFieldError * gset string :=
  match members with
  | [] => ([], seen)
  | m :: rest =>
    let key := member_key (gm_Kind m) (gm_Name m) in
    let dup := if bool_decide (key ∈ seen) then [DuplicateMember i j key] else [] in
    let self := if bool_decide (gm_Kind m = vmgKind) && bool_decide (gm_Name m = name)
                then [SelfMember i j key] else [] in
    let '(errs, seen) := check_members name i (S j) rest ({[key]} ∪ seen) in
    (dup ++ self ++ errs, seen)
  end.

Fixpoint check_boot_orders (name : string) (i : nat) (bos : list VirtualMachineGroupBootOrderGroup)
    (seen : gset string) : list groupFieldError :=
  match bos with
  | [] => []
  | bo :: rest =>
    let '(errs, seen) := check_members name i 0 (bo_Members bo) seen in
    errs ++ check_boot_orders name (S i) rest seen
  end.

Definition validateBootOrderMembers (vmGroup : VirtualMachineGroup) : list groupFieldError :=
  check_boot_orders (vg_Name vmGroup) 0 (BootOrder (vg_Spec vmGroup)) ∅.

Definition validateGroupName (vmGroup : VirtualMachineGroup) : list groupFieldError :=
  if bool_decide (gs_GroupName (vg_Spec vmGroup) = vg_Name vmGroup)
  then [SelfGroupName (gs_GroupName (vg_Spec vmGroup))] else [].

Definition validatePowerOffDelay (VMServiceClasslessVM : bool) (vmGroup : VirtualMachineGroup) :
    list groupFieldError :=
  if VMServiceClasslessVM then []
  else (concat (imap (λ i bo, match PowerOffDelay bo with
                                 | Some _ => [PowerOffDelayForbidden i]
                                 | None => []
                                 end) (BootOrder (vg_Spec vmGroup)))).

(** [ValidateCreate] without an old object, [ValidateUpdate] with one. *)
Definition group_Validate (privileged VMServiceClasslessVM : bool) (vmGroup : VirtualMachineGroup)
    (oldVMGroup : option VirtualMachineGroup) : list groupFieldError :=
  validatePowerState privileged vmGroup oldVMGroup ++ validateBootOrderMembers vmGroup ++
  validateGroupName vmGroup ++ validatePowerOffDelay VMServiceClasslessVM vmGroup.
End Validation.

(** ** Theorems *)

(** The reference is to the group the object belonged to before. *)
Definition stale `{MemberObject A} (newObj oldObj : A) (ref : OwnerRef) : Prop :=
  GetGroupName oldObj ≠ "" ∧ GetGroupName oldObj ≠ GetGroupName newObj ∧
  ow_Kind ref = vmgKind ∧ ow_Name ref = GetGroupName oldObj.

#[global] Instance stale_dec `{MemberObject A} (newObj oldObj : A) ref : Decision (stale newObj oldObj ref).
Proof. unfold stale. apply _. Defined.

(** When the name of the group an object belongs to is removed or changed, the
    update loses exactly the owner references to the former group, and reports a
    change exactly when there was one. *)
Theorem stale_owner_removed `{MemberObjectLaws A} (newObj oldObj newObj' : A) changed :
  RemoveStaleGroupOwnerRef newObj oldObj = (newObj', changed) →
  mo_Owners newObj' = filter (λ ref, ¬ stale newObj oldObj ref) (mo_Owners newObj) ∧
  (changed = true ↔ ∃ ref, ref ∈ mo_Owners newObj ∧ stale newObj oldObj ref).
Proof.
  unfold RemoveStaleGroupOwnerRef. intros Hr.
  destruct (bool_decide (GetGroupName oldObj = "") || bool_decide (GetGroupName oldObj = GetGroupName newObj)) eqn:Hg.
  - injection Hr as <- <-. assert (∀ ref, ¬ stale newObj oldObj ref) as Hno.
    { intros ref (H1 & H2 & _). apply orb_true_iff in Hg as [Hg|Hg]; bool_to_prop; done. }
    split; [symmetry; by apply list_filter_all|]. split; [done|]. intros (ref & _ & Hs). by apply Hno in Hs.
  - apply orb_false_iff in Hg as [Hg1 Hg2]. bool_to_prop.
    assert (∀ ref, stale newObj oldObj ref ↔ ow_Kind ref = vmgKind ∧ ow_Name ref = GetGroupName oldObj) as Hst
      by (unfold stale; tauto).
    destruct (existsb _ _) eqn:He; injection Hr as <- <-.
    + rewrite mo_get_set_Owners. split; [apply list_filter_iff; intros ref; by rewrite Hst|].
      split; [intros _|done]. apply existsb_exists in He as (ref & Hin & Hs). bool_to_prop.
      exists ref. rewrite Hst. by apply list_elem_of_In in Hin.
    + assert (∀ ref, ref ∈ mo_Owners newObj → ¬ stale newObj oldObj ref) as Hno.
      { intros ref Hin Hs. apply not_true_iff_false in He. apply He, existsb_exists. exists ref.
        split; [by apply list_elem_of_In|]. apply bool_decide_true. by apply Hst in Hs. }
      split; [symmetry; by apply list_filter_all|]. split; [done|]. intros (ref & Hin & Hs). by apply Hno in Hin.
Qed.

Lemma annotations_differ : ApplyPowerStateTimeAnnotation ≠ LastUpdatedPowerStateTimeAnnotation.
Proof. done. Qed.

(** What the mutation makes of an update that does not ask for a sync itself. *)
Lemma process_update now new old new' ok :
  equal_fold_now (NextForcePowerStateSyncTime (vg_Spec new)) = false →
  ProcessPowerState now new (Some old) = Some (new', ok) →
  gs_PowerState (vg_Spec new') = gs_PowerState (vg_Spec new) ∧ vg_Status new' = vg_Status new ∧
  map_get (vg_Annotations new') LastUpdatedPowerStateTimeAnnotation =
    if bool_decide (gs_PowerState (vg_Spec new) = gs_PowerState (vg_Spec old))
    then map_get (vg_Annotations new) LastUpdatedPowerStateTimeAnnotation else now.
Proof.
  intros Hnow. unfold ProcessPowerState. change (default no_group (Some old)) with old.
  destruct (force_sync now new old) as [[[new1 m] f]|] eqn:Hf; [|done].
  assert (f = false ∧ gs_PowerState (vg_Spec new1) = gs_PowerState (vg_Spec new) ∧
          vg_Status new1 = vg_Status new ∧ vg_Annotations new1 = vg_Annotations new) as (-> & <- & <- & <-).
  { unfold force_sync in Hf. rewrite Hnow in Hf. repeat case_bool_decide; simplify_eq; done. }
  cbn [orb]. rewrite (bool_decide_not (gs_PowerState (vg_Spec new1) = _)).
  destruct (bool_decide (gs_PowerState (vg_Spec new1) = gs_PowerState (vg_Spec old))); cbn [negb andb].
  - case_bool_decide; intros [= <- _]; done.
  - case_bool_decide; [|case_bool_decide]; intros [= <- _]; (split; [done|]); (split; [done|]);
      unfold map_get; cbn [vg_Annotations set_vg_Annotations]; rewrite ?lookup_delete_ne by done;
      by rewrite lookup_insert_eq.
Qed.

Section Nested.
Context {W : Type} `{ErrorsLib} `{GroupAPI W}.

(** A group that applies its power state to a nested group makes the nested
    group apply it to its own members exactly when the nested group's power state
    changes by it: a forced sync to the power state it already has stops there. *)
Theorem nested_sync_needs_change parent child refs t now child' ok ta ts tn :
  ProcessPowerState now (updateGroupPowerState (W:=W) parent t (set_vg_Owners refs child)) (Some child)
    = Some (child', ok) →
  equal_fold_now (NextForcePowerStateSyncTime (vg_Spec child)) = false → gs_PowerState (vg_Spec parent) ≠ "" →
  map_get (vg_Annotations child) LastUpdatedPowerStateTimeAnnotation ≠ "" → now ≠ "" →
  ParseTime (W:=W) (map_get (vg_Annotations child) LastUpdatedPowerStateTimeAnnotation) = inr ta →
  ParseTime (W:=W) now = inr tn →
  LastUpdatedPowerStateTime (vg_Status child) = Some ts → ta < ts ≤ tn →
  shouldUpdatePowerState (W:=W) child' =
    if bool_decide (gs_PowerState (vg_Spec parent) = gs_PowerState (vg_Spec child))
    then inr (false, ta) else inr (true, tn).
Proof.
  intros Hp Hfold Hne Hann Hnow Hta Htn Hts Hlt.
  apply process_update in Hp as (Hps & Hst & Ha); [|done]. cbn in Hps, Hst, Ha.
  unfold shouldUpdatePowerState. rewrite Hps, Hst, Ha, Hts. rewrite (bool_decide_false _ Hne).
  case_bool_decide.
  - assert (map_get (power_annotations (W:=W) parent t (vg_Annotations child)) LastUpdatedPowerStateTimeAnnotation
      = map_get (vg_Annotations child) LastUpdatedPowerStateTimeAnnotation) as ->.
    { unfold power_annotations, map_get. destruct (on_or_off _); [|done]. by rewrite lookup_insert_ne. }
    rewrite (bool_decide_true _ Hann), Hta. by rewrite (proj2 (Z.ltb_lt ta ts)) by lia.
  - rewrite (bool_decide_true _ Hnow), Htn. by rewrite (proj2 (Z.ltb_ge tn ts)) by lia.
Qed.
End Nested.

(** *** Validation of members *)

Definition member_keys (bos : list VirtualMachineGroupBootOrderGroup) : list string :=
  (λ m, member_key (gm_Kind m) (gm_Name m)) <$> (bos ≫= bo_Members).

Definition self_member (name : string) (m : GroupMember) : Prop := gm_Kind m = vmgKind ∧ gm_Name m = name.

Lemma check_members_spec name i j ms seen :
  let keys := (λ m, member_key (gm_Kind m) (gm_Name m)) <$> ms in
  (check_members name i j ms seen).2 = list_to_set keys ∪ seen ∧
  ((check_members name i j ms seen).1 = [] ↔
   NoDup keys ∧ (∀ k, k ∈ keys → k ∉ seen) ∧ ∀ m, m ∈ ms → ¬ self_member name m).
Proof.
  revert j seen. induction ms as [|m ms IH]; intros j seen; cbn [check_members fmap list_fmap].
  { cbn. split; [set_solver|]. split; [|done]. intros _. split_and!; [constructor|set_solver..]. }
  set (key := member_key (gm_Kind m) (gm_Name m)).
  specialize (IH (S j) ({[key]} ∪ seen)). destruct (check_members name i (S j) ms _) as [errs seen'].
  cbn [fst snd] in *. destruct IH as [-> IH]. split; [set_solver|].
  rewrite !app_nil, IH, NoDup_cons. setoid_rewrite elem_of_cons.
  assert ((if bool_decide (key ∈ seen) then [DuplicateMember i j key] else []) = [] ↔ key ∉ seen) as ->
    by (case_bool_decide; done).
  assert ((if bool_decide (gm_Kind m = vmgKind) && bool_decide (gm_Name m = name) then [SelfMember i j key] else []) = []
    ↔ ¬ self_member name m) as -> by (unfold self_member; repeat case_bool_decide; simpl; naive_solver).
  split; [intros (? & ? & ? & Hs & ?)|intros ((? & ?) & ? & ?)]; split_and!; try set_solver.
Qed.

Lemma check_boot_orders_spec name i bos seen :
  check_boot_orders name i bos seen = [] ↔
  NoDup (member_keys bos) ∧ (∀ k, k ∈ member_keys bos → k ∉ seen) ∧
  ∀ m, m ∈ bos ≫= bo_Members → ¬ self_member name m.
Proof.
  revert i seen. induction bos as [|bo bos IH]; intros i seen; cbn [check_boot_orders].
  { split; [|done]. intros _. split_and!; [constructor|set_solver..]. }
  destruct (check_members_spec name i 0 (bo_Members bo) seen) as [Hs He].
  destruct (check_members name i 0 (bo_Members bo) seen) as [errs seen']. cbn [fst snd] in *. subst seen'.
  unfold member_keys. rewrite app_nil, He, IH. rewrite bind_cons, fmap_app, NoDup_app.
  fold (member_keys bos). setoid_rewrite elem_of_app. setoid_rewrite elem_of_union. setoid_rewrite elem_of_list_to_set.
  naive_solver.
Qed.

(** The validator accepts the boot orders of a group exactly when no member is
    listed twice and the group is not its own member. *)
Theorem boot_order_valid_iff g :
  validateBootOrderMembers g = [] ↔
  NoDup (member_keys (BootOrder (vg_Spec g))) ∧
  ∀ m, m ∈ BootOrder (vg_Spec g) ≫= bo_Members → ¬ self_member (vg_Name g) m.
Proof.
  unfold validateBootOrderMembers. rewrite check_boot_orders_spec. set_solver.
Qed.
