(* ===== verification/GroupWitnesses.v ===== *)
(** * VM groups: concrete instances

    An API server that is a pair of finite maps, two groups of VMs, two groups
    that contain each other, and the theorems on groups applied to them. *)

From S2P Require Import Prelude Conditions ConditionsMerge GoErrors VMGroup VirtualController GroupController.
From S2P Require Import GroupLinks GroupResults GroupWebhook.
Local Open Scope Z_scope.

(** ** The API server *)

Record exWorld := mkWorld {
  ex_vms : gmap string GroupVM;
  ex_groups : gmap string VirtualMachineGroup
}.

Definition ex_not_found : goerror := StatusError "NotFound" "not found".

Definition ex_find {A} (m : gmap string A) (n : string) : goerror + A :=
  match m !! n with Some a => inr a | None => inl ex_not_found end.

#[local] Instance ex_errors : ErrorsLib := {
  aggregate_unwraps := false;
  aggregate_Error := String.concat ", ";
  Duration_String := pretty
}.

#[local] Instance ex_range : MapRange := {
  map_range _ m := map_to_list m;
  map_range_perm _ _ := Permutation_refl _
}.

#[local] Instance ex_api : GroupAPI exWorld := {
  gr_Now _ := 7;
  ParseTime s := match parse_digits s 0 with Some t => inr t | None => inl (ErrorString "time") end;
  FormatTime t := pretty t;
  GetVM _ n w := ex_find (ex_vms w) n;
  GetVMGroup _ n w := ex_find (ex_groups w) n;
  ReadVMGroup _ n w := ex_find (ex_groups w) n;
  GetNilObject _ := ErrorString "nil object";
  gr_IsNotFound e := match e with StatusError _ _ => true | _ => false end;
  SetOwnerReference g refs :=
    inr (filter (λ r, ow_Name r ≠ vg_Name g) refs ++ [mkOwnerRef vmgKind (vg_Name g) (vg_UID g)]);
  PatchVM _ a w := (mkWorld (<[gv_Name a := a]> (ex_vms w)) (ex_groups w), inr a);
  PatchVMGroup _ a w := (mkWorld (ex_vms w) (<[vg_Name a := a]> (ex_groups w)), inr a);
  gr_ContainsFinalizer l f := bool_decide (f ∈ l);
  gr_AddFinalizer l f := l ++ [f];
  gr_RemoveFinalizer l f := filter (λ x, x ≠ f) l;
  gr_NewHelper _ := None;
  gr_Patch _ a w := (mkWorld (ex_vms w) (<[vg_Name a := a]> (ex_groups w)), None);
  patch_empty _ _ := inr false;
  PatchVMGroupStatus _ a w := (mkWorld (ex_vms w) (<[vg_Name a := a]> (ex_groups w)), None);
  PlaceVirtualMachineGroup _ _ st w := (w, st, None)
}.

(** ** Objects *)

Definition ex_linked : Conditions := [TrueCondition GroupLinked].

Definition ex_vm (name group spec status : string) : GroupVM :=
  mkGroupVM name "ns" name ∅ ∅ [] group spec "" "" status "" "" [].

Definition ex_status (kind name : string) : VirtualMachineGroupMemberStatus :=
  mkMemberStatus name kind "" None None ex_linked.

Definition ex_boot (on off : option Z) (kind name : string) : VirtualMachineGroupBootOrderGroup :=
  mkBootOrder [mkGroupMember name kind] on off.

Definition ex_group (name parent powerState : string) (bos : list VirtualMachineGroupBootOrderGroup) :
    VirtualMachineGroup :=
  mkVMGroup name "ns" name false [] {[LastUpdatedPowerStateTimeAnnotation := "100"]} []
    (mkGroupSpec parent bos powerState "" "Hard" "Soft")
    (mkGroupStatus ((λ m, ex_status (gm_Kind m) (gm_Name m)) <$> (bos ≫= bo_Members)) None []).

(** A database before its application, and a VM that is running but asked to
    stop. *)
Definition ex_app : VirtualMachineGroup :=
  ex_group "app" "" VirtualMachinePowerStateOn
    [ex_boot (Some 10) None vmKind "db"; ex_boot (Some 20) None vmKind "web"].

Definition ex_world : exWorld :=
  mkWorld {["db" := ex_vm "db" "app" "PoweredOff" "PoweredOff"; "web" := ex_vm "web" "app" "PoweredOff" "PoweredOff";
            "stopping" := ex_vm "stopping" "app" "PoweredOff" "PoweredOn"]}
    {["app" := ex_app]}.

(** Two groups that are members of each other, and a root above. *)
Definition ex_nested (name child : string) : VirtualMachineGroup := ex_group name "" "" [ex_boot None None vmgKind child].
Definition ex_loop : exWorld := mkWorld ∅ {["x" := ex_nested "x" "y"; "y" := ex_nested "y" "x"]}.
(** A tree: the root has the group "app". *)
Definition ex_root : VirtualMachineGroup := ex_nested "root" "app".
Definition ex_tree : exWorld := mkWorld (ex_vms ex_world) {["root" := ex_root; "app" := ex_app]}.

Lemma ex_find_elem {A} (m : gmap string A) n a (P : string → A → Prop) :
  map_Forall P m → ex_find m n = inr a → P n a.
Proof. unfold ex_find. intros Hm. destruct (m !! n) eqn:He; intros; simplify_eq. by apply Hm. Qed.

(** ** Witnesses *)

Lemma group_members_retrieved_witness :
  ∃ visited r, RetrieveVMGroupMembers (S (size (dom (ex_groups ex_loop)))) "ns" ex_loop "x" ∅ = Some (visited, r) ∧
    ∀ s, r = inr s → ∀ v, v ∈ s ↔ in_group "ns" ex_loop "x" v.
Proof.
  apply (group_members_retrieved "ns" ex_loop (dom (ex_groups ex_loop)) "x").
  intros n g Hg. apply elem_of_dom. cbn [GetVMGroup ex_api] in Hg. unfold ex_find in Hg.
  destruct (ex_groups ex_loop !! n); [eauto|done].
Defined.

Lemma link_condition_exact_witness :
  ∃ c, Get (gv_Conditions (UpdateGroupLinkedCondition (ex_vm "db" "app" "" "") ex_world).1) GroupLinked = Some c ∧
    (c_Status c, c_Reason c) = link_state ex_world (ex_vm "db" "app" "" "") ∧
    (is_Some (UpdateGroupLinkedCondition (ex_vm "db" "app" "" "") ex_world).2 ↔ c_Reason c = "Error").
Proof.
  refine (proj2 (link_condition_exact ex_world (ex_vm "db" "app" "" "")
    (UpdateGroupLinkedCondition (ex_vm "db" "app" "" "") ex_world).1
    (UpdateGroupLinkedCondition (ex_vm "db" "app" "" "") ex_world).2 _ _)).
  - constructor.
  - apply surjective_pairing.
Defined.

Definition ex_log : list PatchRequest := (reconcileMembers (H0:=traced) ex_app (ex_world, [])).1.1.2.


Definition ex_stopping : GroupVM := ex_vm "stopping" "app" "PoweredOff" "PoweredOn".
Definition ex_owner : list OwnerRef := [mkOwnerRef vmgKind "app" "app"].

Lemma pending_power_change_survives_witness :
  ∃ ms', reconcileMember (H0:=traced) ex_app (mkGroupMember "stopping" vmKind) (ex_status vmKind "stopping") true 100
           (ex_world, []) =
         ((mkWorld (<["stopping" := set_gv_Owners ex_owner ex_stopping]> (ex_vms ex_world)) (ex_groups ex_world),
           [RequestVM ex_stopping (set_gv_Owners ex_owner ex_stopping)]), ms', None) ∧
         gv_PowerState (set_gv_Owners ex_owner ex_stopping) ≠ gs_PowerState (vg_Spec ex_app) ∧
         IsTrue (ms_Conditions ms') PowerStateSynced = true.
Proof.
  refine (pending_power_change_survives ex_app (mkGroupMember "stopping" vmKind) (ex_status vmKind "stopping") 100
    ex_world [] ex_stopping ex_owner _ (set_gv_Owners ex_owner ex_stopping) _ _ _ _ _ _ _ _ _);
    try reflexivity; try discriminate.
  apply NoDup_singleton.
Defined.

Lemma group_ready_iff_witness :
  IsTrue (vg_GetConditions (setReadyCondition ex_world None ex_app)) ReadyConditionType = true ↔
  @None goerror = None ∧ ∀ ms, ms ∈ Members (vg_Status ex_app) → member_ready ms.
Proof. apply (group_ready_iff ex_world None ex_app). constructor. Defined.

Lemma ex_named w :
  map_Forall (λ n g, vg_Name g = n ∧ n ≠ "") (ex_groups w) → named_groups w.
Proof.
  intros Hw ns n g [Hg|Hg]; cbn [GetVMGroup ReadVMGroup ex_api] in Hg; by apply (ex_find_elem _ _ _ _ Hw) in Hg.
Qed.

Definition ex_placements : list VMGroupPlacement :=
  match getPlacementMembers 2 false ex_tree 0 (mkPlacementState [ex_root] ∅) with
  | Some (_, inr ps) => ps
  | _ => []
  end.

Lemma placement_only_unplaced_witness :
  (gv_Name <$> (ex_placements ≫= VMMembers)) = ["db"; "web"] ∧ placements_ok false ex_tree ex_placements.
Proof.
  split; [vm_compute; reflexivity|].
  eapply (placement_only_unplaced false ex_tree 2 0 (mkPlacementState [ex_root] ∅)).
  - apply ex_named. apply (bool_decide_unpack _). vm_compute. reflexivity.
  - intros r g Hr. destruct r as [|r]; [|discriminate Hr]. injection Hr as <-. discriminate.
  - vm_compute. reflexivity.
Defined.

Lemma ex_first n child : first_group (ex_nested n child) child.
Proof.
  split; [by exists []|]. exists 0%nat, (ex_status vmgKind child). split; [|done].
  change (findMemberStatus child vmgKind [ex_status vmgKind child] = Some (0%nat, ex_status vmgKind child)).
  cbn [findMemberStatus ex_status ms_Name ms_Kind]. by rewrite !bool_decide_true.
Qed.

Lemma ex_cyclic : cyclic ex_loop "ns" {["x"; "y"]}.
Proof.
  intros n [->%elem_of_singleton| ->%elem_of_singleton]%elem_of_union.
  - exists (ex_nested "x" "y"). split_and!; [done..|]. exists "y". split; [set_solver|apply ex_first].
  - exists (ex_nested "y" "x"). split_and!; [done..|]. exists "x". split; [set_solver|apply ex_first].
Qed.

Lemma placement_cycle_diverges_witness :
  getPlacementMembers 40 false ex_loop 0 (mkPlacementState [ex_nested "root" "x"] ∅) = None.
Proof.
  refine (placement_cycle_diverges false ex_loop "ns" {["x"; "y"]} 40 0
    (mkPlacementState [ex_nested "root" "x"] ∅) (ex_nested "root" "x") "x" ex_cyclic _ _ _ _ _).
  - reflexivity.
  - reflexivity.
  - apply (bool_decide_unpack _). vm_compute. reflexivity.
  - apply ex_first.
  - intros k [g Hg]. discriminate Hg.
Defined.

Definition ex_rank (n : string) : nat := if bool_decide (n = "root") then 1 else 0.

Lemma ex_acyclic : acyclic ex_tree ex_rank.
Proof.
  intros ns n g Hg. assert (ex_find (ex_groups ex_tree) n = inr g) as Hf by (by destruct Hg).
  refine (ex_find_elem _ _ _ (λ n g, vg_Name g = n ∧ ∀ m, m ∈ boot_members g → gm_Kind m = vmgKind →
    (ex_rank (gm_Name m) < ex_rank n)%nat) _ Hf).
  apply map_Forall_insert_2; [|apply map_Forall_singleton]; (split; [done|]).
  - intros m Hm _. cbv in Hm. apply list_elem_of_singleton in Hm as ->. vm_compute. lia.
  - intros m Hm. cbv in Hm. apply elem_of_cons in Hm as [->|Hm]; [done|].
    by apply list_elem_of_singleton in Hm as ->.
Qed.

Lemma placement_terminates_witness : is_Some (reconcilePlacement (S (ex_rank "root")) false ex_root ex_tree).
Proof.
  apply (placement_terminates false ex_tree ex_rank ex_root ex_acyclic).
  intros m Hm _. cbv in Hm. apply list_elem_of_singleton in Hm as ->. vm_compute. lia.
Defined.

Definition ex_moved : VirtualMachineGroup := set_vg_Owners ex_owner (ex_nested "child" "z").

Lemma stale_owner_removed_witness :
  vg_Owners (RemoveStaleGroupOwnerRef ex_moved (ex_group "child" "app" "" [])).1 = [] ∧
  (RemoveStaleGroupOwnerRef ex_moved (ex_group "child" "app" "" [])).2 = true.
Proof.
  destruct (stale_owner_removed ex_moved (ex_group "child" "app" "" [])
    (RemoveStaleGroupOwnerRef ex_moved (ex_group "child" "app" "" [])).1
    (RemoveStaleGroupOwnerRef ex_moved (ex_group "child" "app" "" [])).2 (surjective_pairing _)) as [Hr Hc].
  split; [exact Hr|]. apply Hc. exists (mkOwnerRef vmgKind "app" "app").
  split; [apply list_elem_of_singleton; reflexivity|]. split_and!; try reflexivity; discriminate.
Defined.

(** A nested group that was switched on at 100 and again asked to be on. *)
Definition ex_child : VirtualMachineGroup :=
  set_vg_LastUpdated (Some 110) (ex_group "child" "app" VirtualMachinePowerStateOn []).

Lemma nested_sync_needs_change_witness :
  match ProcessPowerState "200" (updateGroupPowerState (W:=exWorld) ex_app 200 (set_vg_Owners ex_owner ex_child))
          (Some ex_child) with
  | Some (child', _) => shouldUpdatePowerState (W:=exWorld) child' = inr (false, 100)
  | None => False
  end.
Proof.
  destruct (ProcessPowerState "200" (updateGroupPowerState (W:=exWorld) ex_app 200 (set_vg_Owners ex_owner ex_child))
    (Some ex_child)) as [[child' ok]|] eqn:Hp; [|discriminate Hp].
  exact (nested_sync_needs_change (W:=exWorld) ex_app ex_child ex_owner 200 "200" child' ok 100 110 200
    Hp eq_refl ltac:(discriminate) ltac:(discriminate) ltac:(discriminate) eq_refl eq_refl eq_refl ltac:(lia)).
Defined.
