(* ===== verification/Resize.v ===== *)
(** * Resizing a VM to a class

    pkg/util/resize/configspec.go: the current configuration of a VM is compared
    with the one its class asks for, and the differences become the ConfigSpec of
    a reconfiguration.

    Every comparison writes fields of the output that no other one writes, and
    the output starts empty: a comparison is a function to the values of its
    fields, and the whole is the record of them.  A nil pointer or slice is
    [None].  The device changes, which
    compareHardwareDevices computes into a field of their own, are in
    ResizeDevices; of the devices that are asked for only whether one is a PCI
    passthrough device matters here. *)

From S2P Require Import Prelude OptionValues.
Local Open Scope Z_scope.

(** ** Comparing one field *)

(** The zero value of a Go type: what leaves a field of a ConfigSpec unset. *)
Class Zero (A : Type) := zero : A.
#[global] Instance Z_zero : Zero Z := 0.
#[global] Instance string_zero : Zero string := "".
#[global] Instance option_zero A : Zero (option A) := None.

(** [cmp(a, b, &out)] and [cmpPtr(a, b, &out)], with [out] at its zero value. *)
Definition cmp {A} `{EqDecision A} `{Zero A} (a b : A) : A := if bool_decide (a ≠ b) then b else zero.

Definition cmpPtr {A} `{EqDecision A} (a b : option A) : option A :=
  match a, b with
  | Some x, Some y => if bool_decide (x ≠ y) then b else None
  | _, _ => b
  end.

Definition ptrEqual {A} `{EqDecision A} (a b : option A) : bool :=
  match a, b with
  | None, None => true
  | Some x, Some y => bool_decide (x = y)
  | _, _ => false
  end.

(** ** Configurations *)

Record SharesInfo := mkShares { sh_Shares : Z; sh_Level : string }.
#[global] Instance SharesInfo_eq_dec : EqDecision SharesInfo.
Proof. solve_decision. Defined.

Record ResourceAllocationInfo := mkAllocation {
  ra_Reservation : option Z;
  ra_Limit : option Z;
  ra_Shares : option SharesInfo
}.

Record FlagInfo := mkFlags {
  CbrcCacheEnabled : option bool;
  DisableAcceleration : option bool;
  DiskUuidEnabled : option bool;
  EnableLogging : option bool;
  UseToe : option bool;
  VvtdEnabled : option bool;
  VbsEnabled : option bool;
  MonitorType : string;
  VirtualMmuUsage : string;
  VirtualExecUsage : string
}.
#[global] Instance FlagInfo_eq_dec : EqDecision FlagInfo.
Proof. solve_decision. Defined.

Record LatencySensitivity := mkLatency { ls_Level : string; ls_Sensitivity : Z }.
Record GuestMonitoringModeInfo := mkGMM { GmmFile : string; GmmAppliance : string }.
Record SgxInfo := mkSgx {
  EpcSize : Z;
  FlcMode : string;
  LePubKeyHash : string;
  RequireAttestation : option bool
}.
Record VirtualNuma := mkNuma { CoresPerNumaNode : option Z; ExposeVnumaOnCpuHotadd : option bool }.
#[global] Instance VirtualNuma_eq_dec : EqDecision VirtualNuma.
Proof. solve_decision. Defined.

Record NumaInfo := mkNumaInfo {
  ni_CoresPerNumaNode : option Z;
  AutoCoresPerNumaNode : option bool;
  VnumaOnCpuHotaddExposed : option bool
}.

(** The provider of a key is a pointer: comparing two keys compares its address. *)
Record CryptoKeyId := mkKeyId { KeyId : string; ProviderId : option positive }.
#[global] Instance CryptoKeyId_eq_dec : EqDecision CryptoKeyId.
Proof. solve_decision. Defined.

Record ToolsConfigInfo := mkTools {
  BeforeGuestReboot : option bool;
  BeforeGuestShutdown : option bool;
  BeforeGuestStandby : option bool;
  AfterResume : option bool;
  AfterPowerOn : option bool;
  ToolsInstallType : string;
  ToolsUpgradePolicy : string;
  PendingCustomization : string;
  SyncTimeWithHost : option bool;
  SyncTimeWithHostAllowed : option bool;
  CustomizationKeyId : option CryptoKeyId
}.
#[global] Instance ToolsConfigInfo_eq_dec : EqDecision ToolsConfigInfo.
Proof. solve_decision. Defined.

(** NPIV settings: what the VM has, and what is asked for. *)
Record NpivInfo := mkNpivInfo { NodeWorldWideName : option (list Z); PortWorldWideName : option (list Z) }.
Record NpivSpec := mkNpivSpec {
  NpivWorldWideNameOp : string;
  NpivNodeWorldWideName : option (list Z);
  NpivPortWorldWideName : option (list Z);
  NpivDesiredNodeWwns : Z;
  NpivDesiredPortWwns : Z
}.
#[global] Instance NpivSpec_eq_dec : EqDecision NpivSpec.
Proof. solve_decision. Defined.

Definition no_npiv : NpivSpec := mkNpivSpec "" None None 0 0.

(** The fields that are compared as they are, in a ConfigInfo, where some are in
    its Hardware, and in a ConfigSpec. *)
Record Plain := mkPlain {
  NumCPUs : Z;
  NumCoresPerSocket : option Z;
  MemoryMB : Z;
  VirtualICH7MPresent : option bool;
  VirtualSMCPresent : option bool;
  MotherboardLayout : string;
  SimultaneousThreads : Z;
  CpuHotAddEnabled : option bool;
  CpuHotRemoveEnabled : option bool;
  VPMCEnabled : option bool;
  MemoryHotAddEnabled : option bool;
  FixedPassthruHotPlugEnabled : option bool;
  NestedHVEnabled : option bool;
  SevEnabled : option bool;
  VmxStatsCollectionEnabled : option bool;
  NpivTemporaryDisabled : option bool;
  NpivOnNonRdmDisks : option bool
}.

(** The boot options; the devices of the boot order are compared deeply. *)
Record BootOptions {D : Type} := mkBoot {
  BootDelay : Z;
  BootRetryEnabled : option bool;
  BootRetryDelay : Z;
  EnterBIOSSetup : option bool;
  EfiSecureBootEnabled : option bool;
  NetworkBootProtocol : string;
  BootOrder : option (list D)
}.
Arguments BootOptions : clear implicits.
#[global] Instance BootOptions_eq_dec `{EqDecision D} : EqDecision (BootOptions D).
Proof. solve_decision. Defined.

Definition no_boot {D} : BootOptions D := mkBoot D 0 None 0 None None "" None.

(** The options as the output of the comparison; it is not part of a resize. *)
Definition CompareBootOptions `{EqDecision D} (ci cs : option (BootOptions D)) : option (BootOptions D) :=
  match cs with
  | None => None
  | Some y =>
    let boot :=
      match ci with
      | None => y
      | Some x => mkBoot D
        (cmp (BootDelay x) (BootDelay y))
        (cmpPtr (BootRetryEnabled x) (BootRetryEnabled y))
        (cmp (BootRetryDelay x) (BootRetryDelay y))
        (cmpPtr (EnterBIOSSetup x) (EnterBIOSSetup y))
        (cmpPtr (EfiSecureBootEnabled x) (EfiSecureBootEnabled y))
        (cmp (NetworkBootProtocol x) (NetworkBootProtocol y))
        (if bool_decide (BootOrder x ≠ BootOrder y) then BootOrder y else None)
      end in
    if bool_decide (boot = no_boot) then None else Some boot
  end.

Section Resize.
Context {A : Type} `{!EqDecision A}.

Record ConfigInfo := mkInfo {
  ci_Annotation : string;
  ci_Plain : Plain;
  ci_CpuAllocation : option ResourceAllocationInfo;
  ci_MemoryAllocation : option ResourceAllocationInfo;
  ci_CpuAffinity : option (option (list Z));
  ci_LatencySensitivity : option LatencySensitivity;
  ci_ExtraConfig : list (option (string * any A));
  ci_Flags : FlagInfo;
  ci_MemoryReservationLockedToMax : option bool;
  ci_GuestMonitoringModeInfo : option GuestMonitoringModeInfo;
  ci_MigrateEncryption : string;
  ci_Npiv : NpivInfo;
  ci_SgxInfo : option SgxInfo;
  ci_Pmem : option string;
  ci_Tools : option ToolsConfigInfo;
  ci_NumaInfo : option NumaInfo
}.

Record ConfigSpec := mkSpec {
  cs_Annotation : string;
  cs_Plain : Plain;
  cs_CpuAllocation : option ResourceAllocationInfo;
  cs_MemoryAllocation : option ResourceAllocationInfo;
  cs_CpuAffinity : option (option (list Z));
  cs_LatencySensitivity : option LatencySensitivity;
  cs_ExtraConfig : list (option (string * any A));
  cs_Flags : option FlagInfo;
  cs_MemoryReservationLockedToMax : option bool;
  cs_GuestMonitoringModeInfo : option GuestMonitoringModeInfo;
  cs_MigrateEncryption : string;
  cs_FtEncryptionMode : string;
  cs_Npiv : NpivSpec;
  cs_SgxInfo : option SgxInfo;
  cs_Pmem : option string;
  cs_Tools : option ToolsConfigInfo;
  cs_VirtualNuma : option VirtualNuma;
  cs_HasPCIPassthrough : bool
}.

(** ** The comparisons *)

Definition compareAnnotation (ci : ConfigInfo) (cs : ConfigSpec) : string :=
  if bool_decide (ci_Annotation ci = "") then cs_Annotation cs else "".

(** compareHardware, compareCPUHotAddOrRemove, compareCPUPerfCounter,
    compareMemoryHotAdd, compareFixedPassthruHotPlug, compareNestedHVEnabled,
    compareSevEnabled, compareVmxStatsCollectionEnabled and the two flags of
    compareNPIV. *)
Definition comparePlain (a b : Plain) : Plain :=
  mkPlain
    (cmp (NumCPUs a) (NumCPUs b))
    (cmpPtr (NumCoresPerSocket a) (NumCoresPerSocket b))
    (cmp (MemoryMB a) (MemoryMB b))
    (cmpPtr (VirtualICH7MPresent a) (VirtualICH7MPresent b))
    (cmpPtr (VirtualSMCPresent a) (VirtualSMCPresent b))
    (cmp (MotherboardLayout a) (MotherboardLayout b))
    (cmp (SimultaneousThreads a) (SimultaneousThreads b))
    (cmpPtr (CpuHotAddEnabled a) (CpuHotAddEnabled b))
    (cmpPtr (CpuHotRemoveEnabled a) (CpuHotRemoveEnabled b))
    (cmpPtr (VPMCEnabled a) (VPMCEnabled b))
    (cmpPtr (MemoryHotAddEnabled a) (MemoryHotAddEnabled b))
    (cmpPtr (FixedPassthruHotPlugEnabled a) (FixedPassthruHotPlugEnabled b))
    (cmpPtr (NestedHVEnabled a) (NestedHVEnabled b))
    (cmpPtr (SevEnabled a) (SevEnabled b))
    (cmpPtr (VmxStatsCollectionEnabled a) (VmxStatsCollectionEnabled b))
    (cmpPtr (NpivTemporaryDisabled a) (NpivTemporaryDisabled b))
    (cmpPtr (NpivOnNonRdmDisks a) (NpivOnNonRdmDisks b)).

Definition SharesLevelCustom : string := "custom".

(** The desired number where it is set and the VM has another one or none. *)
Definition changed_number (ci cs : option Z) : option Z :=
  match cs with
  | None => None
  | Some y => match ci with
              | None => cs
              | Some x => if bool_decide (x ≠ y) then cs else None
              end
  end.

Definition changed_shares (ci cs : option SharesInfo) : option SharesInfo :=
  match cs with
  | None => None
  | Some y =>
    match ci with
    | None => cs
    | Some x =>
      if bool_decide (sh_Level x ≠ sh_Level y) ||
         (bool_decide (sh_Level y = SharesLevelCustom) && bool_decide (sh_Shares x ≠ sh_Shares y))
      then cs else None
    end
  end.

(** CompareCPUAllocation and CompareMemoryAllocation. *)
Definition compareAllocation (ci cs : option ResourceAllocationInfo) : option ResourceAllocationInfo :=
  match cs with
  | None => None
  | Some csAllocation =>
    let reservation := changed_number (ci ≫= ra_Reservation) (ra_Reservation csAllocation) in
    let limit := changed_number (ci ≫= ra_Limit) (ra_Limit csAllocation) in
    let shares := changed_shares (ci ≫= ra_Shares) (ra_Shares csAllocation) in
    if bool_decide (reservation ≠ None) || bool_decide (limit ≠ None) || bool_decide (shares ≠ None)
    then Some (mkAllocation reservation limit shares) else None
  end.

(** [slices.Sort] on integers. *)
Definition sort_set (s : option (list Z)) : option (list Z) := go_sort Z.ltb <$> s.

(** The affinity sets are sorted in place before they are compared. *)
Definition compareCPUAffinity (ci cs : option (option (list Z))) : option (option (list Z)) :=
  match cs with
  | None => None
  | Some csSet =>
    match ci with
    | None => Some csSet
    | Some ciSet => if bool_decide (sort_set ciSet ≠ sort_set csSet) then Some (sort_set csSet) else None
    end
  end.

Definition compareLatencySensitivity (ci cs : option LatencySensitivity) : option LatencySensitivity :=
  match cs with
  | None => None
  | Some y =>
    match ci with
    | None => Some (mkLatency (ls_Level y) 0)
    | Some x =>
      if bool_decide (ls_Sensitivity x ≠ ls_Sensitivity y) || bool_decide (ls_Level x ≠ ls_Level y)
      then Some (mkLatency (ls_Level y) 0) else None
    end
  end.

Definition no_flags : FlagInfo := mkFlags None None None None None None None "" "" "".

Definition compareFlags (ci : FlagInfo) (cs : option FlagInfo) : option FlagInfo :=
  match cs with
  | None => None
  | Some y =>
    let flags := mkFlags
      (cmpPtr (CbrcCacheEnabled ci) (CbrcCacheEnabled y))
      (cmpPtr (DisableAcceleration ci) (DisableAcceleration y))
      (cmpPtr (DiskUuidEnabled ci) (DiskUuidEnabled y))
      (cmpPtr (EnableLogging ci) (EnableLogging y))
      (cmpPtr (UseToe ci) (UseToe y))
      (cmpPtr (VvtdEnabled ci) (VvtdEnabled y))
      (cmpPtr (VbsEnabled ci) (VbsEnabled y))
      (cmp (MonitorType ci) (MonitorType y))
      (cmp (VirtualMmuUsage ci) (VirtualMmuUsage y))
      (cmp (VirtualExecUsage ci) (VirtualExecUsage y)) in
    if bool_decide (flags = no_flags) then None else Some flags
  end.

Definition compareMemoryReservationLockedToMax (ci : option bool) (cs : ConfigSpec) : option bool :=
  let memLockedMax :=
    match cs_MemoryReservationLockedToMax cs with
    | Some false => if cs_HasPCIPassthrough cs then Some true else Some false
    | m => m
    end in
  cmpPtr ci memLockedMax.

Definition compareGMM (ci cs : option GuestMonitoringModeInfo) : option GuestMonitoringModeInfo :=
  match cs with
  | None => None
  | Some y =>
    match ci with
    | None => Some (mkGMM (GmmFile y) (GmmAppliance y))
    | Some x =>
      if bool_decide (GmmFile x ≠ GmmFile y) || bool_decide (GmmAppliance x ≠ GmmAppliance y)
      then Some (mkGMM (GmmFile y) (GmmAppliance y)) else None
    end
  end.

Definition compareEncryptionModes (ci : string) (cs : ConfigSpec) : string :=
  if bool_decide (cs_MigrateEncryption cs = "") && bool_decide (cs_FtEncryptionMode cs = "") then ""
  else if bool_decide (cs_MigrateEncryption cs ≠ "") then cmp ci (cs_MigrateEncryption cs) else "".

(** [int16(n)]. *)
Definition wrap16 (z : Z) : Z := (z + 2 ^ 15) `mod` 2 ^ 16 - 2 ^ 15.
Definition len_names (names : option (list Z)) : Z := Z.of_nat (length (default [] names)).

Definition compareNPIV (ci : NpivInfo) (cs : NpivSpec) : NpivSpec :=
  let op := NpivWorldWideNameOp cs in
  if bool_decide (op = "") then no_npiv
  else if bool_decide (op = "remove") then
    if negb (len_names (NodeWorldWideName ci) =? 0) && negb (len_names (PortWorldWideName ci) =? 0)
    then mkNpivSpec op None None 0 0 else no_npiv
  else if bool_decide (op = "generate") then
    if (wrap16 (len_names (NodeWorldWideName ci)) <? NpivDesiredNodeWwns cs) &&
       (wrap16 (len_names (PortWorldWideName ci)) <? NpivDesiredPortWwns cs)
    then mkNpivSpec op None None (NpivDesiredNodeWwns cs) (NpivDesiredPortWwns cs) else no_npiv
  else if bool_decide (op = "set") then
    if bool_decide (NodeWorldWideName ci ≠ NpivNodeWorldWideName cs) &&
       bool_decide (PortWorldWideName ci ≠ NpivPortWorldWideName cs)
    then cs else no_npiv
  else no_npiv.

Definition FlcModeUnlocked : string := "unlocked".
Definition FlcModeLocked : string := "locked".

Definition compareSgx (ci cs : option SgxInfo) : option SgxInfo :=
  match cs with
  | None => None
  | Some y =>
    match ci with
    | None => Some y
    | Some x =>
      if bool_decide (EpcSize x ≠ EpcSize y) ||
         (bool_decide (FlcMode x ≠ FlcModeUnlocked) && bool_decide (FlcMode y ≠ "") &&
          bool_decide (FlcMode x ≠ FlcMode y)) ||
         (bool_decide (FlcMode y = FlcModeLocked) && bool_decide (LePubKeyHash y ≠ LePubKeyHash x)) ||
         negb (ptrEqual (RequireAttestation x) (RequireAttestation y))
      then Some y else None
    end
  end.

Definition compareVirtualPMem (ci cs : option string) : option string :=
  match cs with
  | None => None
  | Some y => match ci with
              | None => Some y
              | Some x => if bool_decide (x ≠ y) then Some y else None
              end
  end.

Definition no_tools : ToolsConfigInfo := mkTools None None None None None "" "" "" None None None.

Definition compareVirtualMachineToolsConfig (ci cs : option ToolsConfigInfo) : option ToolsConfigInfo :=
  match cs with
  | None => None
  | Some y =>
    let tools :=
      match ci with
      | None => y
      | Some x => mkTools
        (cmpPtr (BeforeGuestReboot x) (BeforeGuestReboot y))
        (cmpPtr (BeforeGuestShutdown x) (BeforeGuestShutdown y))
        (cmpPtr (BeforeGuestStandby x) (BeforeGuestStandby y))
        (cmpPtr (AfterResume x) (AfterResume y))
        (cmpPtr (AfterPowerOn x) (AfterPowerOn y))
        (cmp (ToolsInstallType x) (ToolsInstallType y))
        (cmp (ToolsUpgradePolicy x) (ToolsUpgradePolicy y))
        (cmp (PendingCustomization x) (PendingCustomization y))
        (cmpPtr (SyncTimeWithHost x) (SyncTimeWithHost y))
        (cmpPtr (SyncTimeWithHostAllowed x) (SyncTimeWithHostAllowed y))
        (cmpPtr (CustomizationKeyId x) (CustomizationKeyId y))
      end in
    if bool_decide (tools = no_tools) then None else Some tools
  end.

Definition no_numa : VirtualNuma := mkNuma None None.

(** Whether the cores per NUMA node are to be set. *)
Definition numa_cores_change (x : NumaInfo) (y : VirtualNuma) : bool :=
  match AutoCoresPerNumaNode x with
  | Some true => match CoresPerNumaNode y with Some n => negb (n =? 0) | None => false end
  | _ => negb (ptrEqual (ni_CoresPerNumaNode x) (CoresPerNumaNode y))
  end.

Definition compareVirtualNuma (ci : option NumaInfo) (cs : option VirtualNuma) : option VirtualNuma :=
  match cs with
  | None => None
  | Some y =>
    let numa :=
      match ci with
      | None => y
      | Some x => mkNuma (if numa_cores_change x y then CoresPerNumaNode y else None)
                    (cmpPtr (VnumaOnCpuHotaddExposed x) (ExposeVnumaOnCpuHotadd y))
      end in
    if bool_decide (numa = no_numa) then None else Some numa
  end.

Definition CreateResizeConfigSpec (ci : ConfigInfo) (cs : ConfigSpec) : ConfigSpec :=
  mkSpec
    (compareAnnotation ci cs)
    (comparePlain (ci_Plain ci) (cs_Plain cs))
    (compareAllocation (ci_CpuAllocation ci) (cs_CpuAllocation cs))
    (compareAllocation (ci_MemoryAllocation ci) (cs_MemoryAllocation cs))
    (compareCPUAffinity (ci_CpuAffinity ci) (cs_CpuAffinity cs))
    (compareLatencySensitivity (ci_LatencySensitivity ci) (cs_LatencySensitivity cs))
    (Diff (ci_ExtraConfig ci) (cs_ExtraConfig cs))
    (compareFlags (ci_Flags ci) (cs_Flags cs))
    (compareMemoryReservationLockedToMax (ci_MemoryReservationLockedToMax ci) cs)
    (compareGMM (ci_GuestMonitoringModeInfo ci) (cs_GuestMonitoringModeInfo cs))
    (compareEncryptionModes (ci_MigrateEncryption ci) cs)
    ""
    (compareNPIV (ci_Npiv ci) (cs_Npiv cs))
    (compareSgx (ci_SgxInfo ci) (cs_SgxInfo cs))
    (compareVirtualPMem (ci_Pmem ci) (cs_Pmem cs))
    (compareVirtualMachineToolsConfig (ci_Tools ci) (cs_Tools cs))
    (compareVirtualNuma (ci_NumaInfo ci) (cs_VirtualNuma cs))
    false.

Definition no_plain : Plain :=
  mkPlain 0 None 0 None None "" 0 None None None None None None None None None None.

Definition empty_spec : ConfigSpec :=
  mkSpec "" no_plain None None None None [] None None None "" "" no_npiv None None None None false.

Definition CreateResizeCPUMemoryConfigSpec (ci : ConfigInfo) (cs : ConfigSpec) : ConfigSpec :=
  mkSpec ""
    (mkPlain (cmp (NumCPUs (ci_Plain ci)) (NumCPUs (cs_Plain cs))) None
       (cmp (MemoryMB (ci_Plain ci)) (MemoryMB (cs_Plain cs))) None None "" 0 None None None None None None
       None None None None)
    (compareAllocation (ci_CpuAllocation ci) (cs_CpuAllocation cs))
    (compareAllocation (ci_MemoryAllocation ci) (cs_MemoryAllocation cs))
    None None [] None None None "" "" no_npiv None None None None false.
End Resize.
Arguments ConfigInfo : clear implicits.
Arguments ConfigSpec : clear implicits.
