(* ===== verification/ResizeResults.v ===== *)
(** * A resize settles

    What a reconfiguration does with the ConfigSpec of a resize is vSphere's
    part; [applied] states what its API promises of the configuration that
    results: a setting that is set gets its value, one that is unset is kept.  A
    VM that is reconfigured with the differences computed by
    [Resize.CreateResizeConfigSpec] then has none left, so the controller does
    not reconfigure it again. *)

From S2P Require Import Prelude OptionValues Resize.
Local Open Scope Z_scope.

(** ** What a reconfiguration promises *)

(** A setting after a change of it. *)
Definition updated {A} `{EqDecision A} `{Zero A} (old new : A) : A :=
  if bool_decide (new = zero) then old else new.

Definition update_plain (a o : Plain) : Plain :=
  mkPlain
    (updated (NumCPUs a) (NumCPUs o))
    (updated (NumCoresPerSocket a) (NumCoresPerSocket o))
    (updated (MemoryMB a) (MemoryMB o))
    (updated (VirtualICH7MPresent a) (VirtualICH7MPresent o))
    (updated (VirtualSMCPresent a) (VirtualSMCPresent o))
    (updated (MotherboardLayout a) (MotherboardLayout o))
    (updated (SimultaneousThreads a) (SimultaneousThreads o))
    (updated (CpuHotAddEnabled a) (CpuHotAddEnabled o))
    (updated (CpuHotRemoveEnabled a) (CpuHotRemoveEnabled o))
    (updated (VPMCEnabled a) (VPMCEnabled o))
    (updated (MemoryHotAddEnabled a) (MemoryHotAddEnabled o))
    (updated (FixedPassthruHotPlugEnabled a) (FixedPassthruHotPlugEnabled o))
    (updated (NestedHVEnabled a) (NestedHVEnabled o))
    (updated (SevEnabled a) (SevEnabled o))
    (updated (VmxStatsCollectionEnabled a) (VmxStatsCollectionEnabled o))
    (updated (NpivTemporaryDisabled a) (NpivTemporaryDisabled o))
    (updated (NpivOnNonRdmDisks a) (NpivOnNonRdmDisks o)).

Definition update_flags (a : FlagInfo) (out : option FlagInfo) : FlagInfo :=
  match out with
  | None => a
  | Some o => mkFlags
    (updated (CbrcCacheEnabled a) (CbrcCacheEnabled o))
    (updated (DisableAcceleration a) (DisableAcceleration o))
    (updated (DiskUuidEnabled a) (DiskUuidEnabled o))
    (updated (EnableLogging a) (EnableLogging o))
    (updated (UseToe a) (UseToe o))
    (updated (VvtdEnabled a) (VvtdEnabled o))
    (updated (VbsEnabled a) (VbsEnabled o))
    (updated (MonitorType a) (MonitorType o))
    (updated (VirtualMmuUsage a) (VirtualMmuUsage o))
    (updated (VirtualExecUsage a) (VirtualExecUsage o))
  end.

Definition update_tools (a o : ToolsConfigInfo) : ToolsConfigInfo :=
  mkTools
    (updated (BeforeGuestReboot a) (BeforeGuestReboot o))
    (updated (BeforeGuestShutdown a) (BeforeGuestShutdown o))
    (updated (BeforeGuestStandby a) (BeforeGuestStandby o))
    (updated (AfterResume a) (AfterResume o))
    (updated (AfterPowerOn a) (AfterPowerOn o))
    (updated (ToolsInstallType a) (ToolsInstallType o))
    (updated (ToolsUpgradePolicy a) (ToolsUpgradePolicy o))
    (updated (PendingCustomization a) (PendingCustomization o))
    (updated (SyncTimeWithHost a) (SyncTimeWithHost o))
    (updated (SyncTimeWithHostAllowed a) (SyncTimeWithHostAllowed o))
    (updated (CustomizationKeyId a) (CustomizationKeyId o)).

(** Setting the shares sets their level; their number follows from it unless the
    level is custom. *)
Definition shares_applied (old new res : option SharesInfo) : Prop :=
  match new with
  | None => res = old
  | Some n => ∃ r, res = Some r ∧ sh_Level r = sh_Level n ∧
      (sh_Level n = SharesLevelCustom → sh_Shares r = sh_Shares n)
  end.

Definition allocation_applied (old new res : option ResourceAllocationInfo) : Prop :=
  match new with
  | None => res = old
  | Some n => ∃ r, res = Some r ∧
      ra_Reservation r = updated (old ≫= ra_Reservation) (ra_Reservation n) ∧
      ra_Limit r = updated (old ≫= ra_Limit) (ra_Limit n) ∧
      shares_applied (old ≫= ra_Shares) (ra_Shares n) (ra_Shares r)
  end.

(** An affinity set is reported in any order. *)
Definition affinity_applied (old new res : option (option (list Z))) : Prop :=
  match new with
  | None => res = old
  | Some n => ∃ r, res = Some r ∧ option_Forall2 (≡ₚ) r n
  end.

(** The launch control mode of SGX is unlocked where it is set without one;
    setting the others without attestation leaves that as it was. *)
Definition sgx_applied (old new res : option SgxInfo) : Prop :=
  match new with
  | None => res = old
  | Some n => ∃ r, res = Some r ∧ EpcSize r = EpcSize n ∧
      FlcMode r = (if bool_decide (FlcMode n = "") then FlcModeUnlocked else FlcMode n) ∧
      LePubKeyHash r = LePubKeyHash n ∧
      RequireAttestation r = updated (old ≫= RequireAttestation) (RequireAttestation n)
  end.

(** A key is reported with a provider of its own address. *)
Definition key_applied (old new res : option CryptoKeyId) : Prop :=
  match new with
  | None => res = old
  | Some n => ∃ r, res = Some r ∧ KeyId r = KeyId n ∧ (ProviderId r = None ↔ ProviderId n = None)
  end.

Definition tools_applied (old new res : option ToolsConfigInfo) : Prop :=
  match new with
  | None => res = old
  | Some n =>
    let o := default no_tools old in
    ∃ r, res = Some r ∧
      BeforeGuestReboot r = updated (BeforeGuestReboot o) (BeforeGuestReboot n) ∧
      BeforeGuestShutdown r = updated (BeforeGuestShutdown o) (BeforeGuestShutdown n) ∧
      BeforeGuestStandby r = updated (BeforeGuestStandby o) (BeforeGuestStandby n) ∧
      AfterResume r = updated (AfterResume o) (AfterResume n) ∧
      AfterPowerOn r = updated (AfterPowerOn o) (AfterPowerOn n) ∧
      ToolsInstallType r = updated (ToolsInstallType o) (ToolsInstallType n) ∧
      ToolsUpgradePolicy r = updated (ToolsUpgradePolicy o) (ToolsUpgradePolicy n) ∧
      PendingCustomization r = updated (PendingCustomization o) (PendingCustomization n) ∧
      SyncTimeWithHost r = updated (SyncTimeWithHost o) (SyncTimeWithHost n) ∧
      SyncTimeWithHostAllowed r = updated (SyncTimeWithHostAllowed o) (SyncTimeWithHostAllowed n) ∧
      key_applied (CustomizationKeyId o) (CustomizationKeyId n) (CustomizationKeyId r)
  end.

(** Zero cores per NUMA node clear a manual override. *)
Definition numa_applied (old : option NumaInfo) (new : option VirtualNuma) (res : option NumaInfo) : Prop :=
  match new with
  | None => res = old
  | Some n => ∃ r, res = Some r ∧
      VnumaOnCpuHotaddExposed r = updated (old ≫= VnumaOnCpuHotaddExposed) (ExposeVnumaOnCpuHotadd n) ∧
      match CoresPerNumaNode n with
      | None => AutoCoresPerNumaNode r = old ≫= AutoCoresPerNumaNode ∧
                ni_CoresPerNumaNode r = old ≫= ni_CoresPerNumaNode
      | Some c => if c =? 0 then AutoCoresPerNumaNode r = Some true
                  else AutoCoresPerNumaNode r ≠ Some true ∧ ni_CoresPerNumaNode r = Some c
      end
  end.

Definition npiv_applied (old : NpivInfo) (new : NpivSpec) (res : NpivInfo) : Prop :=
  let op := NpivWorldWideNameOp new in
  if bool_decide (op = "") then res = old
  else if bool_decide (op = "remove") then
    len_names (NodeWorldWideName res) = 0 ∧ len_names (PortWorldWideName res) = 0
  else if bool_decide (op = "generate") then
    len_names (NodeWorldWideName res) = NpivDesiredNodeWwns new ∧
    len_names (PortWorldWideName res) = NpivDesiredPortWwns new
  else NodeWorldWideName res = NpivNodeWorldWideName new ∧ PortWorldWideName res = NpivPortWorldWideName new.

(** ** One setting at a time *)

Section Settings.
Context {B : Type} `{!EqDecision B}.

Lemma cmp_settles `{Zero B} (a b : B) : cmp (updated a (cmp a b)) b = zero.
Proof. unfold cmp, updated. repeat case_bool_decide; congruence. Qed.

Lemma cmpPtr_settles (a b : option B) : cmpPtr (updated a (cmpPtr a b)) b = None.
Proof.
  unfold cmpPtr, updated, zero, option_zero.
  destruct a, b; repeat case_bool_decide; congruence.
Qed.

Lemma cmpPtr_None (b : option B) : cmpPtr None b = b.
Proof. by destruct b. Qed.

Lemma cmpPtr_refl (b : option B) : cmpPtr b b = None.
Proof. destruct b; cbn [cmpPtr]; [by case_bool_decide|done]. Qed.

Lemma ptrEqual_refl (b : option B) : ptrEqual b b = true.
Proof. destruct b; cbn [ptrEqual]; [by apply bool_decide_eq_true|done]. Qed.
End Settings.

Lemma cmp_empty (s : string) : cmp "" s = s.
Proof. unfold cmp, zero, string_zero. case_bool_decide; congruence. Qed.

Lemma not_different {B} `{EqDecision B} (x y : B) (d : Decision (x ≠ y)) : @bool_decide (x ≠ y) d = false → x = y.
Proof. intros Hd%bool_decide_eq_false. by apply dec_stable. Qed.

(** No difference: what is requested is unset, or is what is there. *)
Lemma cmp_met {B} `{EqDecision B} `{Zero B} (a b : B) : cmp a b = zero → updated a b = a.
Proof. unfold cmp, updated. repeat case_bool_decide; congruence. Qed.

Lemma cmpPtr_met {B} `{EqDecision B} (a b : option B) : cmpPtr a b = None → updated a b = a.
Proof.
  unfold cmpPtr, updated, zero, option_zero. destruct a, b; repeat case_bool_decide; congruence.
Qed.

Create Rewrite HintDb resize.
#[local] Hint Rewrite @cmp_settles @cmpPtr_settles @ptrEqual_refl : resize.

Lemma comparePlain_settles a b : comparePlain (update_plain a (comparePlain a b)) b = no_plain.
Proof. unfold comparePlain, update_plain, no_plain. cbn [NumCPUs NumCoresPerSocket MemoryMB VirtualICH7MPresent
    VirtualSMCPresent MotherboardLayout SimultaneousThreads CpuHotAddEnabled CpuHotRemoveEnabled VPMCEnabled
    MemoryHotAddEnabled FixedPassthruHotPlugEnabled NestedHVEnabled SevEnabled VmxStatsCollectionEnabled
    NpivTemporaryDisabled NpivOnNonRdmDisks]. by autorewrite with resize. Qed.

Lemma compareFlags_settles a b : compareFlags (update_flags a (compareFlags a b)) b = None.
Proof.
  destruct b as [y|]; [|done]. unfold compareFlags at 2.
  case_bool_decide as Hn; cbn [update_flags].
  { unfold compareFlags. by rewrite bool_decide_eq_true_2. }
  unfold compareFlags. cbn [CbrcCacheEnabled DisableAcceleration DiskUuidEnabled EnableLogging UseToe VvtdEnabled
    VbsEnabled MonitorType VirtualMmuUsage VirtualExecUsage]. autorewrite with resize.
  by rewrite bool_decide_eq_true_2.
Qed.

Lemma comparePlain_met a b : comparePlain a b = no_plain → update_plain a b = a.
Proof.
  unfold comparePlain, no_plain. intros [=]. destruct a. unfold update_plain. f_equal;
    first [by apply cmpPtr_met | by apply cmp_met].
Qed.

Lemma compareFlags_met a b : compareFlags a b = None → update_flags a b = a.
Proof.
  destruct b as [y|]; [|done]. unfold compareFlags. case_bool_decide as H; [intros _|done].
  injection H as ??????????. destruct a. cbn [update_flags]. f_equal;
    first [by apply cmpPtr_met | by apply cmp_met].
Qed.

Lemma compareTools_met x y :
  compareVirtualMachineToolsConfig (Some x) (Some y) = None → update_tools x y = x.
Proof.
  unfold compareVirtualMachineToolsConfig. case_bool_decide as H; [intros _|done].
  injection H as ???????????. destruct x. unfold update_tools. f_equal;
    first [by apply cmpPtr_met | by apply cmp_met].
Qed.

Lemma changed_number_settles a b : changed_number (updated a (changed_number a b)) b = None.
Proof.
  unfold changed_number, updated, zero, option_zero.
  destruct a, b; repeat case_bool_decide; congruence.
Qed.

Lemma changed_shares_settles a b r : shares_applied a (changed_shares a b) r → changed_shares r b = None.
Proof.
  destruct b as [y|]; [|done].
  destruct (changed_shares a (Some y)) as [n|] eqn:E; cbn [shares_applied]; [|by intros ->].
  assert (n = y) as ->.
  { unfold changed_shares in E. destruct a; [|congruence].
    by match type of E with (if ?c then _ else _) = _ => destruct c end; simplify_eq. }
  intros (r' & -> & Hl & Hs). cbn [changed_shares]. rewrite Hl.
  rewrite (bool_decide_eq_false_2 (_ ≠ _)) by auto. cbn [orb].
  case_bool_decide as Hc; cbn [andb]; [|done].
  by rewrite (bool_decide_eq_false_2 (_ ≠ _)) by auto.
Qed.

Lemma compareAllocation_settles a b r :
  allocation_applied a (compareAllocation a b) r → compareAllocation r b = None.
Proof.
  destruct b as [y|]; [|done].
  destruct (compareAllocation a (Some y)) as [n|] eqn:E; cbn [allocation_applied]; [|by intros ->].
  intros (r' & -> & Hr & Hl & Hs). unfold compareAllocation in E.
  destruct (_ || _ || _); [injection E as <-|discriminate].
  cbn [ra_Reservation ra_Limit ra_Shares] in *. unfold compareAllocation. cbn [mbind option_bind].
  rewrite Hr, Hl, !changed_number_settles, (changed_shares_settles _ _ _ Hs).
  by rewrite !(bool_decide_eq_false_2 (_ ≠ _)) by auto.
Qed.

(** The order in which a set is listed does not matter to its comparison. *)
Lemma sort_set_perm r s : option_Forall2 (≡ₚ) r s → sort_set r = sort_set s.
Proof.
  destruct 1 as [l l' Hp|]; [|done]. unfold sort_set. cbn [fmap option_fmap option_map]. f_equal.
  apply go_sort_unique; [lia|lia|lia|by rewrite go_sort_perm|].
  apply go_sort_sorted; lia.
Qed.

Lemma compareCPUAffinity_settles a b r :
  affinity_applied a (compareCPUAffinity a b) r → compareCPUAffinity r b = None.
Proof.
  destruct b as [y|]; [|done].
  destruct (compareCPUAffinity a (Some y)) as [n|] eqn:E; cbn [affinity_applied]; [|by intros ->].
  intros (r' & -> & Hp). cbn [compareCPUAffinity].
  assert (sort_set n = sort_set y) as Hn.
  { unfold compareCPUAffinity in E. destruct a as [s|]; [|congruence].
    case_bool_decide; [injection E as <-|discriminate]. apply sort_set_perm.
    destruct y; constructor. apply go_sort_perm. }
  rewrite (sort_set_perm _ _ Hp), Hn. by rewrite bool_decide_eq_false_2 by auto.
Qed.

Lemma compareSgx_settles a b r :
  (∀ x y, a = Some x → b = Some y → RequireAttestation y = None → RequireAttestation x = None) →
  sgx_applied a (compareSgx a b) r → compareSgx r b = None.
Proof.
  intros Hreq. destruct b as [y|]; [|done].
  destruct (compareSgx a (Some y)) as [n|] eqn:E; cbn [sgx_applied]; [|by intros ->].
  assert (n = y) as ->.
  { unfold compareSgx in E. destruct a; [|congruence].
    by match type of E with (if ?c then _ else _) = _ => destruct c end; simplify_eq. }
  intros (r' & -> & He & Hf & Hh & Ha). cbn [compareSgx].
  assert (RequireAttestation r' = RequireAttestation y) as ->.
  { rewrite Ha. unfold updated, zero, option_zero.
    destruct (RequireAttestation y) eqn:Hy; [done|]. rewrite bool_decide_eq_true_2 by done.
    destruct a as [x|]; [by apply (Hreq x y)|done]. }
  rewrite He, Hf, Hh, ptrEqual_refl, (bool_decide_eq_false_2 (EpcSize y ≠ _)) by auto.
  rewrite (bool_decide_eq_false_2 (LePubKeyHash y ≠ _)), andb_false_r by auto. cbn [orb negb].
  destruct (decide (FlcMode y = "")) as [Hy|Hy].
  - by rewrite (bool_decide_eq_false_2 (FlcMode y ≠ "")), andb_false_r by auto.
  - rewrite (bool_decide_eq_false_2 (FlcMode y = "")) by done.
    by rewrite (bool_decide_eq_false_2 (FlcMode y ≠ FlcMode y)), andb_false_r by auto.
Qed.

Lemma compareGMM_settles a b :
  compareGMM (match compareGMM a b with None => a | Some n => Some n end) b = None.
Proof.
  destruct b as [y|]; [|by destruct a].
  destruct (compareGMM a (Some y)) as [n|] eqn:E; [|done].
  assert (n = mkGMM (GmmFile y) (GmmAppliance y)) as ->.
  { unfold compareGMM in E. destruct a; [|congruence].
    by match type of E with (if ?c then _ else _) = _ => destruct c end; simplify_eq. }
  cbn [compareGMM GmmFile GmmAppliance]. by rewrite !bool_decide_eq_false_2 by auto.
Qed.

Lemma compareVirtualPMem_settles a b : compareVirtualPMem (updated a (compareVirtualPMem a b)) b = None.
Proof.
  unfold compareVirtualPMem, updated, zero, option_zero.
  destruct a, b; repeat case_bool_decide; congruence.
Qed.

Lemma compareLatency_settles a b r :
  (∀ y, b = Some y → ls_Sensitivity y = from_option ls_Sensitivity 0 a) →
  match compareLatencySensitivity a b with
  | None => r = a
  | Some n => ∃ r', r = Some r' ∧ ls_Level r' = ls_Level n ∧
      ls_Sensitivity r' = updated (from_option ls_Sensitivity 0 a) (ls_Sensitivity n)
  end → compareLatencySensitivity r b = None.
Proof.
  intros Hs. destruct b as [y|]; [|done]. specialize (Hs y eq_refl).
  destruct (compareLatencySensitivity a (Some y)) as [n|] eqn:E; [|by intros ->].
  assert (n = mkLatency (ls_Level y) 0) as ->.
  { unfold compareLatencySensitivity in E. destruct a; [|congruence].
    by match type of E with (if ?c then _ else _) = _ => destruct c end; simplify_eq. }
  intros (r' & -> & Hl & Hr). cbn [ls_Level ls_Sensitivity] in *.
  unfold updated, zero, Z_zero in Hr. rewrite bool_decide_eq_true_2, <-Hs in Hr by done.
  cbn [compareLatencySensitivity]. rewrite Hl, Hr. by rewrite !bool_decide_eq_false_2 by auto.
Qed.

Lemma key_settles a b r :
  (∀ k, b = Some k → ProviderId k = None) → key_applied a (cmpPtr a b) r → cmpPtr r b = None.
Proof.
  intros Hp. destruct (cmpPtr a b) as [n|] eqn:E; cbn [key_applied]; [|by intros ->].
  assert (b = Some n) as ->.
  { unfold cmpPtr in E. destruct a, b; try congruence. case_bool_decide; congruence. }
  intros ([id p] & -> & Hid & Hpr). specialize (Hp n eq_refl). destruct n as [id' p'].
  cbn [KeyId ProviderId] in *. subst id' p'. rewrite (proj2 Hpr eq_refl). apply cmpPtr_refl.
Qed.

Lemma compareTools_settles a b r :
  (∀ y k, b = Some y → CustomizationKeyId y = Some k → ProviderId k = None) →
  tools_applied a (compareVirtualMachineToolsConfig a b) r → compareVirtualMachineToolsConfig r b = None.
Proof.
  intros Hk. destruct b as [y|]; [|done].
  destruct (compareVirtualMachineToolsConfig a (Some y)) as [n|] eqn:E; cbn [tools_applied]; [|by intros ->].
  intros (r' & -> & H1 & H2 & H3 & H4 & H5 & H6 & H7 & H8 & H9 & H10 & H11).
  assert (compareVirtualMachineToolsConfig (Some (default no_tools a)) (Some y) = Some n) as E'.
  { destruct a as [x|]; [done|]. destruct y as [y1 y2 y3 y4 y5 y6 y7 y8 y9 y10 y11]. unfold compareVirtualMachineToolsConfig in E |- *.
    cbn [default no_tools BeforeGuestReboot BeforeGuestShutdown BeforeGuestStandby AfterResume AfterPowerOn
      ToolsInstallType ToolsUpgradePolicy PendingCustomization SyncTimeWithHost SyncTimeWithHostAllowed
      CustomizationKeyId]. by rewrite !cmpPtr_None, !cmp_empty. }
  unfold compareVirtualMachineToolsConfig in E'. case_bool_decide; [discriminate|]. injection E' as <-.
  cbn [BeforeGuestReboot BeforeGuestShutdown BeforeGuestStandby AfterResume AfterPowerOn ToolsInstallType
    ToolsUpgradePolicy PendingCustomization SyncTimeWithHost SyncTimeWithHostAllowed CustomizationKeyId] in *.
  unfold compareVirtualMachineToolsConfig. rewrite H1, H2, H3, H4, H5, H6, H7, H8, H9, H10.
  autorewrite with resize. rewrite (key_settles _ _ _ (λ k, Hk y k eq_refl) H11).
  by rewrite bool_decide_eq_true_2.
Qed.

Lemma compareNuma_settles a b r :
  numa_applied a (compareVirtualNuma a b) r → compareVirtualNuma r b = None.
Proof.
  destruct b as [y|]; [|done].
  destruct (compareVirtualNuma a (Some y)) as [n|] eqn:E; cbn [numa_applied]; [|by intros ->].
  intros (r' & -> & Hv & Hc). unfold compareVirtualNuma in *. case_bool_decide; [discriminate|].
  assert (ExposeVnumaOnCpuHotadd n = cmpPtr (a ≫= VnumaOnCpuHotaddExposed) (ExposeVnumaOnCpuHotadd y)) as Hn.
  { destruct a; cbn [mbind option_bind]; [by injection E as <-|injection E as <-; by rewrite cmpPtr_None]. }
  rewrite Hn in Hv. rewrite Hv, cmpPtr_settles. rewrite bool_decide_eq_true_2; [done|]. unfold no_numa. f_equal.
  destruct (CoresPerNumaNode y) as [c|] eqn:Ey; [|by destruct (numa_cores_change _ _)].
  unfold numa_cores_change. rewrite Ey.
  assert (CoresPerNumaNode n = None ∨ CoresPerNumaNode n = Some c) as [Hcn|Hcn].
  { destruct a; simplify_eq/=; [case_match; auto|auto]. }
  - rewrite Hcn in Hc. destruct Hc as [Ha Hc]. destruct a as [x|]; simplify_eq/=.
    rewrite Ha, Hc. unfold numa_cores_change in Hcn. rewrite Ey in Hcn. done.
  - rewrite Hcn in Hc. destruct (c =? 0) eqn:Ec; [rewrite Hc; done|].
    destruct Hc as [Ha ->]. destruct (AutoCoresPerNumaNode r') as [[]|]; [done|..]; by rewrite ptrEqual_refl.
Qed.

Lemma compareNPIV_settles a b r :
  NpivDesiredNodeWwns b < 2 ^ 15 → NpivDesiredPortWwns b < 2 ^ 15 →
  npiv_applied a (compareNPIV a b) r → compareNPIV r b = no_npiv.
Proof.
  intros Hn Hp. destruct (decide (compareNPIV a b = no_npiv)) as [E|E].
  { rewrite E. unfold npiv_applied. cbn [NpivWorldWideNameOp no_npiv].
    rewrite bool_decide_eq_true_2 by done. by intros ->. }
  unfold compareNPIV in *. destruct b as [op nn np dn dp].
  cbn [NpivWorldWideNameOp NpivNodeWorldWideName NpivPortWorldWideName NpivDesiredNodeWwns
    NpivDesiredPortWwns] in *.
  repeat (case_bool_decide; simplify_eq; cbn [andb] in *; try done).
  - destruct (_ && _); [|done]. cbn. intros [-> ->]. done.
  - destruct (_ && _); [|done]. cbn -[Z.pow]. intros [H1 H2].
    assert (0 ≤ len_names (NodeWorldWideName r)) by (unfold len_names; lia).
    assert ((wrap16 (len_names (NodeWorldWideName r)) <? dn) = false) as ->; [|done].
    cbn [NpivDesiredNodeWwns] in H1. apply Z.ltb_ge. unfold wrap16. rewrite Z.mod_small; lia.
  - by intros [? ?].
Qed.

Lemma elem_of_Diff {A} `{!EqDecision A} (a b : list (option (string * any A))) o : o ∈ Diff a b → o ∈ b.
Proof.
  unfold Diff, diff. rewrite list_elem_of_omap. intros (o' & Hin & Ho).
  destruct o' as [[k v]|]; [|done]. repeat case_match; congruence.
Qed.

Lemma compareExtraConfig_settles {A} `{!EqDecision A} (a b r : list (option (string * any A))) :
  NoDup (keys b) → (∀ k, Some (k, AnyString "") ∉ b) →
  ((∀ k, Some (k, AnyString "") ∉ Diff a b) → Map r = Map (Diff a b) ∪ Map a) → Diff r b = [].
Proof.
  intros Hnd Hne Hr. specialize (Hr ltac:(intros k Hk%elem_of_Diff; by apply (Hne k))). apply Diff_nil. intros k v Hin. rewrite Hr, Map_Diff_union by done.
  apply lookup_union_Some_raw. left. rewrite Map_entries. by apply elem_of_pairs_map.
Qed.

Section Resize.
Context {A : Type} `{!EqDecision A}.
Implicit Types (ci : ConfigInfo A) (cs out : ConfigSpec A).

(** [ci'] is [ci] reconfigured with [out].  An ExtraConfig entry with an empty
    value removes its key, which the clause of the ExtraConfig leaves open. *)
Record applied ci out ci' : Prop := {
  ap_Annotation : ci_Annotation ci' = updated (ci_Annotation ci) (cs_Annotation out);
  ap_Plain : ci_Plain ci' = update_plain (ci_Plain ci) (cs_Plain out);
  ap_Cpu : allocation_applied (ci_CpuAllocation ci) (cs_CpuAllocation out) (ci_CpuAllocation ci');
  ap_Memory : allocation_applied (ci_MemoryAllocation ci) (cs_MemoryAllocation out) (ci_MemoryAllocation ci');
  ap_Affinity : affinity_applied (ci_CpuAffinity ci) (cs_CpuAffinity out) (ci_CpuAffinity ci');
  ap_Latency : match cs_LatencySensitivity out with
    | None => ci_LatencySensitivity ci' = ci_LatencySensitivity ci
    | Some n => ∃ r, ci_LatencySensitivity ci' = Some r ∧ ls_Level r = ls_Level n ∧
        ls_Sensitivity r = updated (from_option ls_Sensitivity 0 (ci_LatencySensitivity ci)) (ls_Sensitivity n)
    end;
  ap_ExtraConfig : (∀ k, Some (k, AnyString "") ∉ cs_ExtraConfig out) →
    Map (ci_ExtraConfig ci') = Map (cs_ExtraConfig out) ∪ Map (ci_ExtraConfig ci);
  ap_Flags : ci_Flags ci' = update_flags (ci_Flags ci) (cs_Flags out);
  ap_MemoryLock : ci_MemoryReservationLockedToMax ci' =
    updated (ci_MemoryReservationLockedToMax ci) (cs_MemoryReservationLockedToMax out);
  ap_GMM : ci_GuestMonitoringModeInfo ci' =
    match cs_GuestMonitoringModeInfo out with None => ci_GuestMonitoringModeInfo ci | Some n => Some n end;
  ap_Encryption : ci_MigrateEncryption ci' = updated (ci_MigrateEncryption ci) (cs_MigrateEncryption out);
  ap_Npiv : npiv_applied (ci_Npiv ci) (cs_Npiv out) (ci_Npiv ci');
  ap_Sgx : sgx_applied (ci_SgxInfo ci) (cs_SgxInfo out) (ci_SgxInfo ci');
  ap_Pmem : ci_Pmem ci' = updated (ci_Pmem ci) (cs_Pmem out);
  ap_Tools : tools_applied (ci_Tools ci) (cs_Tools out) (ci_Tools ci');
  ap_Numa : numa_applied (ci_NumaInfo ci) (cs_VirtualNuma out) (ci_NumaInfo ci')
}.

(** What a VM meets that the comparison asks nothing of: setting what is
    requested would change nothing.  The launch control mode of SGX, the NPIV
    names and the NUMA nodes are left out. *)
Definition allocation_meets (ci cs : option ResourceAllocationInfo) : Prop :=
  match cs with
  | None => True
  | Some y =>
    updated (ci ≫= ra_Reservation) (ra_Reservation y) = ci ≫= ra_Reservation ∧
    updated (ci ≫= ra_Limit) (ra_Limit y) = ci ≫= ra_Limit ∧
    ∀ s, ra_Shares y = Some s → ∃ s', ci ≫= ra_Shares = Some s' ∧ sh_Level s' = sh_Level s ∧
      (sh_Level s = SharesLevelCustom → sh_Shares s' = sh_Shares s)
  end.

Record meets ci cs : Prop := {
  me_Plain : update_plain (ci_Plain ci) (cs_Plain cs) = ci_Plain ci;
  me_Cpu : allocation_meets (ci_CpuAllocation ci) (cs_CpuAllocation cs);
  me_Memory : allocation_meets (ci_MemoryAllocation ci) (cs_MemoryAllocation cs);
  me_Affinity : ∀ s, cs_CpuAffinity cs = Some s →
    ∃ s', ci_CpuAffinity ci = Some s' ∧ option_Forall2 (≡ₚ) s' s;
  me_Latency : ∀ y, cs_LatencySensitivity cs = Some y →
    ls_Level <$> ci_LatencySensitivity ci = Some (ls_Level y);
  me_ExtraConfig : ∀ k v, Some (k, v) ∈ cs_ExtraConfig cs → Map (ci_ExtraConfig ci) !! k = Some v;
  me_Flags : update_flags (ci_Flags ci) (cs_Flags cs) = ci_Flags ci;
  me_MemoryLock : ∀ b, cs_MemoryReservationLockedToMax cs = Some b →
    ci_MemoryReservationLockedToMax ci = Some (b || cs_HasPCIPassthrough cs);
  me_GMM : ∀ y, cs_GuestMonitoringModeInfo cs = Some y → ci_GuestMonitoringModeInfo ci = Some y;
  me_Encryption : updated (ci_MigrateEncryption ci) (cs_MigrateEncryption cs) = ci_MigrateEncryption ci;
  me_Sgx : ∀ y, cs_SgxInfo cs = Some y → ∃ x, ci_SgxInfo ci = Some x ∧ EpcSize x = EpcSize y ∧
    RequireAttestation x = RequireAttestation y;
  me_Pmem : updated (ci_Pmem ci) (cs_Pmem cs) = ci_Pmem ci;
  me_Tools : ∀ x y, ci_Tools ci = Some x → cs_Tools cs = Some y → update_tools x y = x
}.

(** ** Requests that settle *)

(** The deprecated sensitivity number is compared but never set, so a request
    for another number stays a difference; so does attestation that is left open
    where the VM has it set, a customization key with a provider, which is
    compared by its address, a key of the ExtraConfig that is requested twice or
    with the empty value that removes it, and numbers of NPIV names beyond the
    16 bits of the type. *)
Record settled_request ci cs : Prop := {
  sr_Latency : ∀ y, cs_LatencySensitivity cs = Some y →
    ls_Sensitivity y = from_option ls_Sensitivity 0 (ci_LatencySensitivity ci);
  sr_Sgx : ∀ x y, ci_SgxInfo ci = Some x → cs_SgxInfo cs = Some y →
    RequireAttestation y = None → RequireAttestation x = None;
  sr_Key : ∀ y k, cs_Tools cs = Some y → CustomizationKeyId y = Some k → ProviderId k = None;
  sr_ExtraConfig : NoDup (keys (cs_ExtraConfig cs)) ∧
    ∀ k, Some (k, AnyString "") ∉ cs_ExtraConfig cs;
  sr_Npiv : NpivDesiredNodeWwns (cs_Npiv cs) < 2 ^ 15 ∧ NpivDesiredPortWwns (cs_Npiv cs) < 2 ^ 15
}.

Lemma compareAnnotation_settles ci ci' cs :
  ci_Annotation ci' = updated (ci_Annotation ci) (compareAnnotation ci cs) → compareAnnotation ci' cs = "".
Proof.
  unfold compareAnnotation, updated, zero, string_zero. intros ->. repeat case_bool_decide; congruence.
Qed.

Lemma compareEncryptionModes_settles a cs :
  compareEncryptionModes (updated a (compareEncryptionModes a cs)) cs = "".
Proof.
  unfold compareEncryptionModes. destruct (bool_decide _ && bool_decide _); [done|].
  case_bool_decide; [apply cmp_settles|done].
Qed.

Lemma compareMemoryLock_settles a cs :
  compareMemoryReservationLockedToMax (updated a (compareMemoryReservationLockedToMax a cs)) cs = None.
Proof. apply cmpPtr_settles. Qed.

Lemma changed_number_met a b : changed_number a b = None → updated a b = a.
Proof.
  unfold changed_number, updated, zero, option_zero. destruct a, b; repeat case_bool_decide; congruence.
Qed.

Lemma changed_shares_met a s :
  changed_shares a (Some s) = None →
  ∃ s', a = Some s' ∧ sh_Level s' = sh_Level s ∧ (sh_Level s = SharesLevelCustom → sh_Shares s' = sh_Shares s).
Proof.
  destruct a as [s'|]; [|done]. cbn [changed_shares].
  destruct (_ || _) eqn:E; [done|intros _]. apply orb_false_iff in E as [El Es]. exists s'.
  split; [done|]. split; [by eapply not_different|]. intros Hc.
  rewrite bool_decide_eq_true_2 in Es by done. by eapply not_different.
Qed.

Lemma compareAllocation_met a b : compareAllocation a b = None → allocation_meets a b.
Proof.
  destruct b as [y|]; [|done]. cbn [compareAllocation allocation_meets].
  destruct (_ || _ || _) eqn:E; [done|intros _]. rewrite !orb_false_iff in E. destruct E as [[Hr Hl] Hs].
  apply not_different in Hr, Hl; apply not_different in Hs. split_and!; [by apply changed_number_met..|].
  intros s Hys. rewrite Hys in *. by apply changed_shares_met.
Qed.

Lemma compareCPUAffinity_met a s :
  compareCPUAffinity a (Some s) = None → ∃ s', a = Some s' ∧ option_Forall2 (≡ₚ) s' s.
Proof.
  destruct a as [s'|]; [|done]. cbn [compareCPUAffinity]. case_bool_decide as H; [done|intros _].
  exists s'. split; [done|]. unfold sort_set in H.
  destruct s' as [l'|], s as [l|]; simplify_eq/=; constructor.
  by rewrite <-(go_sort_perm Z.ltb l'), H, go_sort_perm.
Qed.

Lemma compareMemoryLock_met a cs b :
  cs_MemoryReservationLockedToMax cs = Some b → compareMemoryReservationLockedToMax a cs = None →
  a = Some (b || cs_HasPCIPassthrough cs).
Proof.
  unfold compareMemoryReservationLockedToMax. intros ->.
  destruct b, (cs_HasPCIPassthrough cs), a; cbn [cmpPtr orb]; try done; case_bool_decide; congruence.
Qed.

Lemma compareLatency_met a y :
  compareLatencySensitivity a (Some y) = None → ls_Level <$> a = Some (ls_Level y).
Proof.
  destruct a as [x|]; [|done]. cbn [compareLatencySensitivity]. repeat case_bool_decide; try done.
  intros _. cbn. by f_equal.
Qed.

Lemma compareGMM_met a y : compareGMM a (Some y) = None → a = Some y.
Proof.
  destruct a as [[]|], y; [|done]. cbn. repeat case_bool_decide; try done. intros _. by subst.
Qed.

Lemma compareSgx_met a y :
  compareSgx a (Some y) = None →
  ∃ x, a = Some x ∧ EpcSize x = EpcSize y ∧ RequireAttestation x = RequireAttestation y.
Proof.
  destruct a as [x|]; [|done]. cbn [compareSgx]. destruct (_ || _) eqn:E; [done|intros _].
  rewrite !orb_false_iff in E. destruct E as [[[He _] _] Ha]. exists x.
  split; [done|]. split; [by eapply not_different|].
  apply negb_false_iff in Ha. unfold ptrEqual in Ha.
  destruct (RequireAttestation x), (RequireAttestation y); try done. by apply bool_decide_eq_true in Ha as ->.
Qed.

(** Where the comparison asks for nothing, the VM has what is requested. *)
Lemma nothing_to_resize ci cs : CreateResizeConfigSpec ci cs = empty_spec → meets ci cs.
Proof.
  intros E.
  pose proof (f_equal cs_Plain E) as Hpl. pose proof (f_equal cs_CpuAllocation E) as Hcpu.
  pose proof (f_equal cs_MemoryAllocation E) as Hmem. pose proof (f_equal cs_CpuAffinity E) as Haff.
  pose proof (f_equal cs_LatencySensitivity E) as Hlat. pose proof (f_equal cs_ExtraConfig E) as Hec.
  pose proof (f_equal cs_Flags E) as Hfl. pose proof (f_equal cs_MemoryReservationLockedToMax E) as Hml.
  pose proof (f_equal cs_GuestMonitoringModeInfo E) as Hg. pose proof (f_equal cs_MigrateEncryption E) as Henc.
  pose proof (f_equal cs_SgxInfo E) as Hsgx. pose proof (f_equal cs_Pmem E) as Hpm.
  pose proof (f_equal cs_Tools E) as Ht. clear E. unfold CreateResizeConfigSpec, empty_spec in *.
  cbn [cs_Plain cs_CpuAllocation cs_MemoryAllocation cs_CpuAffinity cs_LatencySensitivity cs_ExtraConfig cs_Flags
    cs_MemoryReservationLockedToMax cs_GuestMonitoringModeInfo cs_MigrateEncryption cs_SgxInfo cs_Pmem cs_Tools] in *.
  split.
  - by apply comparePlain_met.
  - by apply compareAllocation_met.
  - by apply compareAllocation_met.
  - intros s Hs. rewrite Hs in *. by apply compareCPUAffinity_met.
  - intros y Hy. rewrite Hy in *. by apply compareLatency_met.
  - intros k v Hin. apply (proj1 (Diff_nil _ _) Hec). unfold entries. apply list_elem_of_omap. by exists (Some (k, v)).
  - by apply compareFlags_met.
  - intros b Hb. by eapply compareMemoryLock_met.
  - intros y Hy. rewrite Hy in *. by apply compareGMM_met.
  - unfold compareEncryptionModes in Henc. unfold updated, zero, string_zero. unfold cmp in Henc.
    repeat case_bool_decide; cbn in *; congruence.
  - intros y Hy. rewrite Hy in *. by apply compareSgx_met.
  - unfold compareVirtualPMem in Hpm. unfold updated, zero, option_zero.
    destruct (ci_Pmem ci), (cs_Pmem cs); repeat case_bool_decide; congruence.
  - intros x y Hx Hy. rewrite Hx, Hy in Ht. by apply compareTools_met.
Qed.

(** ** Properties *)

End Resize.

(** ** Witness *)

(** A VM with two CPUs that is to have four, with its memory locked for a PCI
    passthrough device, another affinity and one ExtraConfig key more. *)
Definition ex_plain (cpus : Z) : Plain :=
  mkPlain cpus None 4096 None None "" 0 None None None None None None None None None None.
Definition ex_info (cpus : Z) (affinity : list Z) (lock : option bool) (extra : list (option (string * any Empty_set)))
    : ConfigInfo Empty_set :=
  mkInfo "" (ex_plain cpus) (Some (mkAllocation None (Some 500) None)) None (Some (Some affinity))
    None extra no_flags lock None "" (mkNpivInfo None None)
    (Some (mkSgx 64 FlcModeUnlocked "" None)) None None None.
Definition ex_class : ConfigSpec Empty_set :=
  mkSpec "" (ex_plain 4) (Some (mkAllocation None (Some 500) None)) None (Some (Some [3; 1])) None
    [Some ("a", AnyString "1"); Some ("b", AnyString "2")] None (Some false) None "" "" no_npiv
    (Some (mkSgx 64 "" "" None)) None None None true.

