(* ===== verification/ResizeDevices.v ===== *)
(** * Device changes of a resize

    pkg/util/resize/configspec_devices.go, configspec_pci_devices.go and
    backings.go: the devices a class asks for are compared with those of the VM.
    PCI passthrough devices are matched by their backing; the devices of the other
    supported types are compared in their relative order, type by type.

    A device has its key, its backing and the fields of its type that are
    compared.  A nil pointer, slice or interface is [None]. *)

From S2P Require Import Prelude Resize.
Local Open Scope Z_scope.

(** ** Backings *)

Record DeviceBackingInfo := mkDeviceBacking { DeviceName : string; UseAutoDetect : option bool }.
Record URIBackingInfo := mkURIBacking { ServiceURI : string; Direction : string; ProxyURI : string }.
Record AllowedDevice := mkAllowed { VendorId : Z; DeviceId : Z }.

Inductive Operation := OperationAdd | OperationEdit | OperationRemove.
#[global] Instance Operation_eq_dec : EqDecision Operation.
Proof. solve_decision. Defined.

Section Devices.
(** [V] are the values of configuration parameters up to semantic deep equality,
    [F] the filters of a VMCI device up to the equality of the language. *)
Context {V F : Type} `{!EqDecision V} `{!EqDecision F}.

Inductive Backing :=
  | ParallelPortDeviceBacking (b : DeviceBackingInfo)
  | ParallelPortFileBacking (FileName : string)
  | PointingDeviceBacking (HostPointingDevice : string) (b : DeviceBackingInfo)
  | PrecisionClockBacking (Protocol : string)
  | SoundCardDeviceBacking (b : DeviceBackingInfo)
  | SerialPortDeviceBacking (b : DeviceBackingInfo)
  | SerialPortFileBacking (FileName : string)
  | SerialPortPipeBacking (PipeName : string) (Endpoint : string) (NoRxLoss : option bool)
  | SerialPortThinPrintBacking
  | SerialPortURIBacking (b : URIBackingInfo)
  | SCSIPassthroughDeviceBacking (b : DeviceBackingInfo)
  | EthernetCardNetworkBacking (b : DeviceBackingInfo)
  | EthernetCardDistributedVirtualPortBacking (SwitchUuid PortgroupKey : string)
  | EthernetCardOpaqueNetworkBacking (OpaqueNetworkId OpaqueNetworkType : string)
  | PCIPassthroughVmiopBacking (Vgpu : string)
  | PCIPassthroughDynamicBacking (CustomLabel : string) (Allowed : list AllowedDevice)
  | PCIPassthroughDvxBacking (DeviceClass : string) (ConfigParams : list (string * V))
  | OtherBacking.

Definition MatchVirtualDeviceDeviceBackingInfo (expected cur : DeviceBackingInfo) : bool :=
  if bool_decide (DeviceName expected ≠ DeviceName cur) then false
  else match UseAutoDetect expected with
       | None => match UseAutoDetect cur with None => true | Some b => negb b end
       | Some e => match UseAutoDetect cur with None => false | Some b => bool_decide (e = b) end
       end.

Definition MatchVirtualDeviceURIBackingInfo (expected cur : URIBackingInfo) : bool :=
  bool_decide (ServiceURI expected = ServiceURI cur) && bool_decide (Direction expected = Direction cur) &&
  bool_decide (ProxyURI expected = ProxyURI cur).

Definition MatchVirtualParallelPortDeviceBackingInfo (expected : DeviceBackingInfo) (base : Backing) : bool :=
  match base with
  | ParallelPortDeviceBacking cur => MatchVirtualDeviceDeviceBackingInfo expected cur
  | _ => false
  end.

Definition MatchVirtualParallelPortFileBackingInfo (expected : string) (base : Backing) : bool :=
  match base with ParallelPortFileBacking cur => bool_decide (expected = cur) | _ => false end.

Definition MatchVirtualPointingDeviceDeviceBackingInfo (host : string) (expected : DeviceBackingInfo)
    (base : Backing) : bool :=
  match base with
  | PointingDeviceBacking curHost cur =>
    if bool_decide (curHost ≠ host) && (bool_decide (host ≠ "") || bool_decide (curHost ≠ "autodetect"))
    then false else MatchVirtualDeviceDeviceBackingInfo expected cur
  | _ => false
  end.

Definition MatchVirtualPrecisionClockSystemClockBackingInfo (expected : string) (base : Backing) : bool :=
  match base with PrecisionClockBacking cur => bool_decide (expected = cur) | _ => false end.

Definition MatchVirtualSoundCardDeviceBackingInfo (expected : DeviceBackingInfo) (base : Backing) : bool :=
  match base with
  | SoundCardDeviceBacking cur => MatchVirtualDeviceDeviceBackingInfo expected cur
  | _ => false
  end.

Definition MatchVirtualSerialPortDeviceBackingInfo (expected : DeviceBackingInfo) (base : Backing) : bool :=
  match base with
  | SerialPortDeviceBacking cur => MatchVirtualDeviceDeviceBackingInfo expected cur
  | _ => false
  end.

Definition MatchVirtualSerialPortFileBackingInfo (expected : string) (base : Backing) : bool :=
  match base with SerialPortFileBacking cur => bool_decide (expected = cur) | _ => false end.

Definition MatchVirtualSerialPortPipeBackingInfo (pipe endpoint : string) (noRxLoss : option bool)
    (base : Backing) : bool :=
  match base with
  | SerialPortPipeBacking curPipe curEndpoint curLoss =>
    if bool_decide (endpoint ≠ curEndpoint) then false
    else if negb (ptrEqual noRxLoss curLoss) then false
    else bool_decide (pipe = curPipe)
  | _ => false
  end.

Definition MatchVirtualSerialPortThinPrintBackingInfo (base : Backing) : bool :=
  match base with SerialPortThinPrintBacking => true | _ => false end.

Definition MatchVirtualSerialPortURIBackingInfo (expected : URIBackingInfo) (base : Backing) : bool :=
  match base with
  | SerialPortURIBacking cur => MatchVirtualDeviceURIBackingInfo expected cur
  | _ => false
  end.

Definition MatchVirtualSCSIPassthroughDeviceBackingInfo (expected : DeviceBackingInfo) (base : Backing) : bool :=
  match base with
  | SCSIPassthroughDeviceBacking cur => MatchVirtualDeviceDeviceBackingInfo expected cur
  | _ => false
  end.

Definition MatchVirtualEthernetCardNetworkBackingInfo (expected : DeviceBackingInfo) (base : Backing) : bool :=
  match base with
  | EthernetCardNetworkBacking cur => MatchVirtualDeviceDeviceBackingInfo expected cur
  | _ => false
  end.

Definition MatchVirtualEthernetCardDistributedVirtualPortBackingInfo (switchUuid portgroupKey : string)
    (base : Backing) : bool :=
  match base with
  | EthernetCardDistributedVirtualPortBacking s p =>
    bool_decide (switchUuid = s) && bool_decide (portgroupKey = p)
  | _ => false
  end.

Definition MatchVirtualEthernetCardOpaqueNetworkBackingInfo (id type : string) (base : Backing) : bool :=
  match base with
  | EthernetCardOpaqueNetworkBacking i t => bool_decide (id = i) && bool_decide (type = t)
  | _ => false
  end.

Definition MatchVirtualPCIPassthroughVmiopBackingInfo (expected : string) (base : Backing) : bool :=
  match base with PCIPassthroughVmiopBacking cur => bool_decide (expected = cur) | _ => false end.

Definition same_device (x y : AllowedDevice) : bool :=
  (DeviceId x =? DeviceId y) && (VendorId x =? VendorId y).

Definition MatchVirtualPCIPassthroughDynamicBackingInfo (label : string) (allowed : list AllowedDevice)
    (base : Backing) : bool :=
  match base with
  | PCIPassthroughDynamicBacking curLabel curAllowed =>
    if bool_decide (label ≠ "") && bool_decide (label ≠ curLabel) then false
    else match allowed with
         | [] => true
         | _ => existsb (λ x, existsb (same_device x) allowed) curAllowed
         end
  | _ => false
  end.

(** Two lists of parameters of one length, as maps: the last value of a key. *)
Definition params_map (l : list (string * V)) : gmap string V := foldl (λ m kv, <[kv.1 := kv.2]> m) ∅ l.

Definition MatchVirtualPCIPassthroughDVXBackingInfo (class : string) (params : list (string * V))
    (base : Backing) : bool :=
  match base with
  | PCIPassthroughDvxBacking curClass curParams =>
    bool_decide (curClass = class) && (Nat.eqb (length curParams) (length params)) &&
    bool_decide (params_map curParams = params_map params)
  | _ => false
  end.

(** ** Devices *)

Record USBController := mkUSB { AutoConnectDevices : option bool; EhciEnabled : option bool }.
Record USBXHCIController := mkXHCI { XhciAutoConnectDevices : option bool }.
Record VMCIDevice := mkVMCI {
  AllowUnrestrictedCommunication : option bool;
  FilterEnable : option bool;
  FilterInfo : option (list F)
}.
Record VideoCard := mkVideo {
  VideoRamSizeInKB : Z;
  NumDisplays : Z;
  VideoUseAutoDetect : option bool;
  Enable3DSupport : option bool;
  Use3dRenderer : string;
  GraphicsMemorySizeInKB : Z
}.
Record TPM := mkTPM {
  EndorsementKeyCertificateSigningRequest : option (list (list Z));
  EndorsementKeyCertificate : option (list (list Z))
}.
Record WDT := mkWDT { RunOnBoot : bool }.

Inductive Body :=
  | VirtualUSBController (d : USBController)
  | VirtualUSBXHCIController (d : USBXHCIController)
  | VirtualMachineVMCIDevice (d : VMCIDevice)
  | VirtualMachineVideoCard (d : VideoCard)
  | VirtualParallelPort
  | VirtualPointingDevice
  | VirtualPrecisionClock
  | VirtualSCSIPassthrough
  | VirtualSerialPort
  | VirtualEnsoniq1371
  | VirtualHdAudioCard
  | VirtualSoundBlaster16
  | VirtualTPM (d : TPM)
  | VirtualWDT (d : WDT)
  | VirtualPCIPassthrough
  | OtherDevice.

(** A device whose fields are of type [T]: [unit] for a type with none. *)
Record dev {T : Type} := mkDev { Key : Z; DevBacking : option Backing; Fields : T }.
Arguments dev : clear implicits.
Arguments mkDev {T}.

Record DeviceChange := mkChange { Op : Operation; ChangedDevice : dev Body }.

(** A type of devices, with its injection into all devices; a type assertion is
    the partial inverse. *)
Record DeviceType {T : Type} := mkType {
  to_body : T → Body;
  of_body : Body → option T
}.
Arguments DeviceType : clear implicits.
Arguments mkType {T}.

Definition as_device {T} (ty : DeviceType T) (d : dev T) : dev Body :=
  mkDev (Key d) (DevBacking d) (to_body ty (Fields d)).

Definition SelectDevicesByType {T} (ty : DeviceType T) (devices : list (dev Body)) : list (dev T) :=
  omap (λ d, mkDev (Key d) (DevBacking d) <$> of_body ty (Fields d)) devices.

(** ** Comparing the devices of a type *)

Definition zipVirtualDevicesOfType {T} (ty : DeviceType T) (matchDevFn : dev T → dev T → option (dev T))
    (expectedDevs curDevs : list (dev T)) (defaultDevice : bool) : list DeviceChange :=
  let minLen := Nat.min (length expectedDevs) (length curDevs) in
  let edits := omap (λ p, matchDevFn p.1 p.2) (zip expectedDevs curDevs) in
  let change op d := mkChange op (as_device ty d) in
  (change OperationEdit <$> edits) ++
  (change OperationAdd <$> drop minLen expectedDevs) ++
  (if defaultDevice then [] else change OperationRemove <$> drop minLen curDevs).

(** The device to edit, with the key of the current one, if it is not empty. *)
Definition edit_if_set {T} `{EqDecision T} (empty : T) (backing : option Backing) (fields : T) (key : Z)
    : option (dev T) :=
  match backing with
  | None => if bool_decide (fields = empty) then None else Some (mkDev key None fields)
  | Some _ => Some (mkDev key backing fields)
  end.

(** The backing to set: the expected one unless it is unset or matches. *)
Definition cmpBacking {T} (expectedDev curDev : dev T) (cmpFn : Backing → Backing → bool) : option Backing :=
  match DevBacking expectedDev, DevBacking curDev with
  | None, _ => None
  | Some e, Some c => if cmpFn e c then None else Some e
  | Some e, None => Some e
  end.

#[local] Instance USBController_eq_dec : EqDecision USBController.
Proof. solve_decision. Defined.
#[local] Instance USBXHCIController_eq_dec : EqDecision USBXHCIController.
Proof. solve_decision. Defined.
#[local] Instance VMCIDevice_eq_dec : EqDecision VMCIDevice.
Proof using EqDecision1. solve_decision. Defined.
#[local] Instance VideoCard_eq_dec : EqDecision VideoCard.
Proof. solve_decision. Defined.
#[local] Instance TPM_eq_dec : EqDecision TPM.
Proof. solve_decision. Defined.
#[local] Instance WDT_eq_dec : EqDecision WDT.
Proof. solve_decision. Defined.
#[local] Instance bool_zero : Zero bool := false.

Definition MatchVirtualUSBController (e c : dev USBController) : option (dev USBController) :=
  edit_if_set (mkUSB None None) None
    (mkUSB (cmpPtr (AutoConnectDevices (Fields c)) (AutoConnectDevices (Fields e)))
       (cmpPtr (EhciEnabled (Fields c)) (EhciEnabled (Fields e)))) (Key c).

Definition MatchVirtualUSBXHCIController (e c : dev USBXHCIController) : option (dev USBXHCIController) :=
  edit_if_set (mkXHCI None) None
    (mkXHCI (cmpPtr (XhciAutoConnectDevices (Fields c)) (XhciAutoConnectDevices (Fields e)))) (Key c).

Definition MatchVirtualMachineVMCIDevice (e c : dev VMCIDevice) : option (dev VMCIDevice) :=
  edit_if_set (mkVMCI None None None) None
    (mkVMCI
      (cmpPtr (AllowUnrestrictedCommunication (Fields c)) (AllowUnrestrictedCommunication (Fields e)))
      (cmpPtr (FilterEnable (Fields c)) (FilterEnable (Fields e)))
      (match FilterInfo (Fields e) with
       | None => None
       | Some fe => match FilterInfo (Fields c) with
                    | None => Some fe
                    | Some fc => if bool_decide (fc ≠ fe) then Some fe else None
                    end
       end)) (Key c).

Definition MatchVirtualMachineVideoCard (e c : dev VideoCard) : option (dev VideoCard) :=
  edit_if_set (mkVideo 0 0 None None "" 0) None
    (mkVideo
      (cmp (VideoRamSizeInKB (Fields c)) (VideoRamSizeInKB (Fields e)))
      (cmp (NumDisplays (Fields c)) (NumDisplays (Fields e)))
      (cmpPtr (VideoUseAutoDetect (Fields c)) (VideoUseAutoDetect (Fields e)))
      (cmpPtr (Enable3DSupport (Fields c)) (Enable3DSupport (Fields e)))
      (cmp (Use3dRenderer (Fields c)) (Use3dRenderer (Fields e)))
      (cmp (GraphicsMemorySizeInKB (Fields c)) (GraphicsMemorySizeInKB (Fields e)))) (Key c).

(** A device whose type has no fields: only its backing is compared. *)
Definition match_backing (cmpFn : Backing → Backing → bool) (e c : dev unit) : option (dev unit) :=
  edit_if_set tt (cmpBacking e c cmpFn) tt (Key c).

Definition MatchVirtualParallelPort : dev unit → dev unit → option (dev unit) :=
  match_backing (λ exp cur,
    match exp with
    | ParallelPortDeviceBacking eb => MatchVirtualParallelPortDeviceBackingInfo eb cur
    | ParallelPortFileBacking eb => MatchVirtualParallelPortFileBackingInfo eb cur
    | _ => false
    end).

(** Not called: the comparison of pointing devices is disabled. *)
Definition MatchVirtualPointingDevice : dev unit → dev unit → option (dev unit) :=
  match_backing (λ exp cur,
    match exp with
    | PointingDeviceBacking host eb => MatchVirtualPointingDeviceDeviceBackingInfo host eb cur
    | _ => false
    end).

Definition MatchVirtualPrecisionClock : dev unit → dev unit → option (dev unit) :=
  match_backing (λ exp cur,
    match exp with
    | PrecisionClockBacking eb => MatchVirtualPrecisionClockSystemClockBackingInfo eb cur
    | _ => false
    end).

Definition MatchVirtualSCSIPassthrough : dev unit → dev unit → option (dev unit) :=
  match_backing (λ exp cur,
    match exp with
    | SCSIPassthroughDeviceBacking eb => MatchVirtualSCSIPassthroughDeviceBackingInfo eb cur
    | _ => false
    end).

(** MatchVirtualEnsoniq1371, MatchVirtualHdAudioCard and MatchVirtualSoundBlaster16. *)
Definition matchBaseVirtualSoundCard : dev unit → dev unit → option (dev unit) :=
  match_backing (λ exp cur,
    match exp with
    | SoundCardDeviceBacking eb => MatchVirtualSoundCardDeviceBackingInfo eb cur
    | _ => false
    end).

Definition MatchVirtualSerialPort : dev unit → dev unit → option (dev unit) :=
  match_backing (λ exp cur,
    match exp with
    | SerialPortDeviceBacking eb => MatchVirtualSerialPortDeviceBackingInfo eb cur
    | SerialPortFileBacking eb => MatchVirtualSerialPortFileBackingInfo eb cur
    | SerialPortPipeBacking p ep l => MatchVirtualSerialPortPipeBackingInfo p ep l cur
    | SerialPortThinPrintBacking => MatchVirtualSerialPortThinPrintBackingInfo cur
    | SerialPortURIBacking eb => MatchVirtualSerialPortURIBackingInfo eb cur
    | _ => false
    end).

(** The expected certificates where they differ; a nil slice equals an empty one. *)
Definition changed_certificates (e c : option (list (list Z))) : option (list (list Z)) :=
  if bool_decide (default [] e ≠ default [] c) then e else None.

Definition MatchVirtualTPM (e c : dev TPM) : option (dev TPM) :=
  edit_if_set (mkTPM None None) None
    (mkTPM
      (changed_certificates (EndorsementKeyCertificateSigningRequest (Fields e))
         (EndorsementKeyCertificateSigningRequest (Fields c)))
      (changed_certificates (EndorsementKeyCertificate (Fields e)) (EndorsementKeyCertificate (Fields c))))
    (Key c).

Definition MatchVirtualWDT (e c : dev WDT) : option (dev WDT) :=
  edit_if_set (mkWDT false) None (mkWDT (cmp (RunOnBoot (Fields c)) (RunOnBoot (Fields e)))) (Key c).

(** ** The types that are compared *)

Definition usb : DeviceType USBController :=
  mkType VirtualUSBController (λ b, match b with VirtualUSBController d => Some d | _ => None end).
Definition xhci : DeviceType USBXHCIController :=
  mkType VirtualUSBXHCIController (λ b, match b with VirtualUSBXHCIController d => Some d | _ => None end).
Definition vmci : DeviceType VMCIDevice :=
  mkType VirtualMachineVMCIDevice (λ b, match b with VirtualMachineVMCIDevice d => Some d | _ => None end).
Definition video : DeviceType VideoCard :=
  mkType VirtualMachineVideoCard (λ b, match b with VirtualMachineVideoCard d => Some d | _ => None end).
Definition parallel : DeviceType unit :=
  mkType (λ _, VirtualParallelPort) (λ b, match b with VirtualParallelPort => Some tt | _ => None end).
Definition clock : DeviceType unit :=
  mkType (λ _, VirtualPrecisionClock) (λ b, match b with VirtualPrecisionClock => Some tt | _ => None end).
Definition scsi : DeviceType unit :=
  mkType (λ _, VirtualSCSIPassthrough) (λ b, match b with VirtualSCSIPassthrough => Some tt | _ => None end).
Definition serial : DeviceType unit :=
  mkType (λ _, VirtualSerialPort) (λ b, match b with VirtualSerialPort => Some tt | _ => None end).
Definition ensoniq : DeviceType unit :=
  mkType (λ _, VirtualEnsoniq1371) (λ b, match b with VirtualEnsoniq1371 => Some tt | _ => None end).
Definition hdaudio : DeviceType unit :=
  mkType (λ _, VirtualHdAudioCard) (λ b, match b with VirtualHdAudioCard => Some tt | _ => None end).
Definition soundblaster : DeviceType unit :=
  mkType (λ _, VirtualSoundBlaster16) (λ b, match b with VirtualSoundBlaster16 => Some tt | _ => None end).
Definition tpm : DeviceType TPM :=
  mkType VirtualTPM (λ b, match b with VirtualTPM d => Some d | _ => None end).
Definition wdt : DeviceType WDT :=
  mkType VirtualWDT (λ b, match b with VirtualWDT d => Some d | _ => None end).
Definition passthrough : DeviceType unit :=
  mkType (λ _, VirtualPCIPassthrough) (λ b, match b with VirtualPCIPassthrough => Some tt | _ => None end).

(** One block of compareDevicesByZipping. *)
Definition compare_type {T} (ty : DeviceType T) (matchDevFn : dev T → dev T → option (dev T))
    (defaultDevice : bool) (expectedDevices currentDevices : list (dev Body)) : list DeviceChange :=
  zipVirtualDevicesOfType ty matchDevFn (SelectDevicesByType ty expectedDevices)
    (SelectDevicesByType ty currentDevices) defaultDevice.

Definition compareDevicesByZipping (exp cur : list (dev Body)) : list DeviceChange :=
  compare_type usb MatchVirtualUSBController false exp cur ++
  compare_type xhci MatchVirtualUSBXHCIController false exp cur ++
  compare_type vmci MatchVirtualMachineVMCIDevice true exp cur ++
  compare_type video MatchVirtualMachineVideoCard true exp cur ++
  compare_type parallel MatchVirtualParallelPort false exp cur ++
  compare_type clock MatchVirtualPrecisionClock false exp cur ++
  compare_type scsi MatchVirtualSCSIPassthrough false exp cur ++
  compare_type serial MatchVirtualSerialPort false exp cur ++
  compare_type ensoniq matchBaseVirtualSoundCard false exp cur ++
  compare_type hdaudio matchBaseVirtualSoundCard false exp cur ++
  compare_type soundblaster matchBaseVirtualSoundCard false exp cur ++
  compare_type tpm MatchVirtualTPM false exp cur ++
  compare_type wdt MatchVirtualWDT false exp cur.

(** ** PCI passthrough devices *)

Definition pciDevicesStartDeviceKey : Z := -200.

(** Every device gets a key of its own, downwards. *)
Fixpoint number_devices (deviceKey : Z) (l : list (dev unit)) : list (dev unit) :=
  match l with
  | [] => []
  | d :: l' => mkDev deviceKey (DevBacking d) tt :: number_devices (deviceKey - 1) l'
  end.
Definition CreatePCIDevicesFromConfigSpec : list (dev unit) → list (dev unit) :=
  number_devices pciDevicesStartDeviceKey.

(** Whether a current device has the backing that is expected. *)
Definition backing_match (expected cur : option Backing) : bool :=
  match cur with
  | None => false
  | Some c =>
    match expected with
    | Some (PCIPassthroughVmiopBacking v) => MatchVirtualPCIPassthroughVmiopBackingInfo v c
    | Some (PCIPassthroughDynamicBacking l a) => MatchVirtualPCIPassthroughDynamicBackingInfo l a c
    | Some (PCIPassthroughDvxBacking cl ps) => MatchVirtualPCIPassthroughDVXBackingInfo cl ps c
    | _ => false
    end
  end.

(** The current devices without the first one that matches, if one does. *)
Fixpoint take_match (expected : option Backing) (cur : list (dev unit)) : option (list (dev unit)) :=
  match cur with
  | [] => None
  | c :: cur' => if backing_match expected (DevBacking c) then Some cur'
                 else cons c <$> take_match expected cur'
  end.

(** The devices to add, and the current ones that no expected device took. *)
Fixpoint match_devices (expected cur : list (dev unit)) : list (dev unit) * list (dev unit) :=
  match expected with
  | [] => ([], cur)
  | e :: expected' =>
    match take_match (DevBacking e) cur with
    | Some cur' => match_devices expected' cur'
    | None => let '(added, rest) := match_devices expected' cur in (e :: added, rest)
    end
  end.

Definition ComparePCIDevices (desired current : list (dev Body)) : list DeviceChange :=
  let currentPassthru := SelectDevicesByType passthrough current in
  let expectedPCI := CreatePCIDevicesFromConfigSpec (SelectDevicesByType passthrough desired) in
  let '(added, rest) := match_devices expectedPCI currentPassthru in
  (mkChange OperationRemove ∘ as_device passthrough <$> rest) ++
  (mkChange OperationAdd ∘ as_device passthrough <$> added).

Definition compareHardwareDevices (desired current : list (dev Body)) : list DeviceChange :=
  ComparePCIDevices desired current ++ compareDevicesByZipping desired current.
End Devices.
Arguments Backing : clear implicits.
Arguments Body : clear implicits.
Arguments VMCIDevice : clear implicits.
Arguments dev : clear implicits.
Arguments mkDev {V T}.
Arguments DeviceType : clear implicits.
Arguments mkType {F T}.
Arguments DeviceChange : clear implicits.
