(* ===== verification/ResizeDevicesResults.v ===== *)
(** * The devices of a resize settle

    As for the settings of [ResizeResults]: [devices_applied] states what a
    reconfiguration promises of the devices that result, and a VM reconfigured
    with the changes that [ResizeDevices.compareHardwareDevices] computes has the
    devices that were asked for, so that the next comparison changes nothing. *)

From S2P Require Import Prelude Resize ResizeDevices ResizeResults.
Local Open Scope Z_scope.

Section Devices.
Context {V F : Type} `{!EqDecision V} `{!EqDecision F}.
Abbreviation device := (dev V).

(** ** One type of devices *)

(** What editing the fields of a device does: the fields that are set are. *)
Definition update_usb (c d : USBController) : USBController :=
  mkUSB (updated (AutoConnectDevices c) (AutoConnectDevices d)) (updated (EhciEnabled c) (EhciEnabled d)).
Definition update_xhci (c d : USBXHCIController) : USBXHCIController :=
  mkXHCI (updated (XhciAutoConnectDevices c) (XhciAutoConnectDevices d)).
Definition update_vmci (c d : VMCIDevice F) : VMCIDevice F :=
  mkVMCI (updated (AllowUnrestrictedCommunication c) (AllowUnrestrictedCommunication d))
    (updated (FilterEnable c) (FilterEnable d)) (updated (FilterInfo c) (FilterInfo d)).
Definition update_video (c d : VideoCard) : VideoCard :=
  mkVideo (updated (VideoRamSizeInKB c) (VideoRamSizeInKB d)) (updated (NumDisplays c) (NumDisplays d))
    (updated (VideoUseAutoDetect c) (VideoUseAutoDetect d)) (updated (Enable3DSupport c) (Enable3DSupport d))
    (updated (Use3dRenderer c) (Use3dRenderer d))
    (updated (GraphicsMemorySizeInKB c) (GraphicsMemorySizeInKB d)).
Definition update_unit (c d : unit) : unit := tt.
Definition update_tpm (c d : TPM) : TPM :=
  mkTPM
    (updated (EndorsementKeyCertificateSigningRequest c) (EndorsementKeyCertificateSigningRequest d))
    (updated (EndorsementKeyCertificate c) (EndorsementKeyCertificate d)).
(** The watchdog's only field is set whenever it is edited. *)
Definition update_wdt (c d : WDT) : WDT := d.

(** A current device after the edit that its comparison asks for, if it does. *)
Definition edited {T} (upd : T → T → T) (c : device T) (d : option (device T)) : device T :=
  match d with
  | None => c
  | Some d => mkDev (Key c) (match DevBacking d with None => DevBacking c | b => b end) (upd (Fields c) (Fields d))
  end.

(** A device that was added has the backing and the fields it was added with. *)
Definition same_as {T} (e c : device T) : Prop := DevBacking c = DevBacking e ∧ Fields c = Fields e.

(** The devices of a type after the changes of [zipVirtualDevicesOfType]: those
    that have a counterpart are edited, then come the added ones; the others are
    removed unless the type is one of default devices. *)
Definition type_applied {T} (matchDevFn : device T → device T → option (device T)) (upd : T → T → T)
    (dflt : bool) (exp cur res : list (device T)) : Prop :=
  ∃ added, Forall2 same_as (drop (length cur) exp) added ∧
    res = zip_with (λ e c, edited upd c (matchDevFn e c)) exp cur ++ added ++
          (if dflt then drop (length exp) cur else []).

(** The devices of a type match those expected in their order; only default
    devices may be left over. *)
Definition type_met {T} (matchDevFn : device T → device T → option (device T)) (dflt : bool)
    (exp cur : list (device T)) : Prop :=
  ∃ l rest, cur = l ++ rest ∧ Forall2 (λ e c, matchDevFn e c = None) exp l ∧ (dflt = false → rest = []).

(** What the comparison of a type owes for its changes to settle. *)
Record settling {T} (matchDevFn : device T → device T → option (device T)) (upd : T → T → T)
    (supported : device T → Prop) : Prop := {
  edit_settles : ∀ e c, supported e → matchDevFn e (edited upd c (matchDevFn e c)) = None;
  add_settles : ∀ e c, supported e → same_as e c → matchDevFn e c = None
}.

Section OneType.
Context {T : Type} (ty : DeviceType F T) (matchDevFn : device T → device T → option (device T)).
Context (upd : T → T → T) (supported : device T → Prop) (Hs : settling matchDevFn upd supported).

Lemma add_all_settle exp added :
  Forall supported exp → Forall2 same_as exp added → Forall2 (λ e c, matchDevFn e c = None) exp added.
Proof using Hs. intros Hsup. induction 1; inversion Hsup; constructor; [by apply Hs|auto]. Qed.

Lemma type_settles dflt exp cur res :
  Forall supported exp → type_applied matchDevFn upd dflt exp cur res → type_met matchDevFn dflt exp res.
Proof using Hs.
  intros Hsup (added & Hadd & ->). revert cur added Hsup Hadd.
  induction exp as [|e exp IH]; intros cur added Hsup Hadd.
  - rewrite drop_nil in Hadd. inversion Hadd. subst. exists [], (if dflt then cur else []).
    split; [done|]. split; [done|]. by intros ->.
  - inversion Hsup as [|?? He Hsup']. subst. destruct cur as [|c cur]; cbn [length drop zip_with app] in *.
    + exists added, (if dflt then [] else []). split; [done|]. split; [|by intros ->].
      apply add_all_settle; [by constructor|done].
    + destruct (IH cur added Hsup' Hadd) as (l & rest & E & Hall & Hr).
      exists (edited upd c (matchDevFn e c) :: l), rest.
      split; [cbn [app]; by rewrite <-E|]. split; [|done]. constructor; [by apply Hs|done].
Qed.

Lemma zip_nil dflt exp cur :
  type_met matchDevFn dflt exp cur ↔ zipVirtualDevicesOfType ty matchDevFn exp cur dflt = [].
Proof.
  unfold zipVirtualDevicesOfType. revert cur. induction exp as [|e exp IH]; intros cur.
  - cbn. rewrite drop_0. split.
    + intros (l & rest & -> & Hl & Hr). inversion Hl. subst. destruct dflt; [done|]. by rewrite Hr.
    + intros E. exists [], cur. split; [done|]. split; [done|]. intros ->. by apply fmap_nil_inv in E.
  - destruct cur as [|c cur].
    + cbn. split; [|done]. intros (l & rest & E & Hl & _). inversion Hl. by subst.
    + cbn [length Nat.min zip zip_with drop]. rewrite omap_cons. cbn [fst snd]. split.
      * intros (l & rest & E & Hl & Hr). inversion Hl as [|? c' ? l' Hc Hl']. subst. injection E as <- ->.
        rewrite Hc. apply IH. by exists l', rest.
      * destruct (matchDevFn e c) eqn:Hc; [done|]. intros E. apply IH in E as (l & rest & -> & Hl & Hr).
        exists (c :: l), rest. split; [done|]. split; [by constructor|done].
Qed.
End OneType.

(** ** The types that are compared *)

Lemma edit_if_set_None {T} `{EqDecision T} (empty : T) (key : Z) : @edit_if_set V T _ empty None empty key = None.
Proof. cbn [edit_if_set]. by rewrite bool_decide_eq_true_2. Qed.

Lemma edit_if_set_Some {T} `{EqDecision T} (empty fields : T) (key : Z) :
  fields ≠ empty → @edit_if_set V T _ empty None fields key = Some (mkDev key None fields).
Proof. intros Hne. cbn [edit_if_set]. by rewrite bool_decide_eq_false_2. Qed.

(** A device without a backing that is compared: it settles where its fields do. *)
Lemma fields_settling {T} `{EqDecision T} (empty : T) (diff upd : T → T → T) :
  (∀ e c, diff e c ≠ empty → diff e (upd c (diff e c)) = empty) → (∀ e, diff e e = empty) →
  settling (λ e c, edit_if_set empty None (diff (Fields e) (Fields c)) (Key c)) upd (λ _, True).
Proof.
  intros Hupd Hrefl. split.
  - intros e c _. destruct (decide (diff (Fields e) (Fields c) = empty)) as [E|E].
    + rewrite E, edit_if_set_None. cbn [edited]. by rewrite E, edit_if_set_None.
    + rewrite (edit_if_set_Some empty (diff _ _) (Key c) E). cbn [edited Fields Key].
      by rewrite Hupd, edit_if_set_None by done.
  - intros e c _ [_ ->]. by rewrite Hrefl, edit_if_set_None.
Qed.

Lemma backing_settling (cmpFn : Backing V → Backing V → bool) :
  settling (match_backing cmpFn) update_unit (λ e, ∀ b, DevBacking e = Some b → cmpFn b b = true).
Proof.
  unfold match_backing, cmpBacking. split.
  - intros [ke be []] [kc bc []] Hb. cbn [DevBacking Key] in *. destruct be as [b|]; [|done].
    specialize (Hb b eq_refl). destruct bc as [c|]; [destruct (cmpFn b c) eqn:E|];
      rewrite ?edit_if_set_None; cbn [edited DevBacking Key edit_if_set]; by rewrite ?E, ?Hb, ?edit_if_set_None.
  - intros e c Hb [-> _]. destruct (DevBacking e) as [b|]; [|done]. by rewrite (Hb b eq_refl).
Qed.

Lemma cmp_refl {A} `{EqDecision A} `{Zero A} (a : A) : cmp a a = zero.
Proof. unfold cmp. by case_bool_decide. Qed.

Lemma usb_settling : settling MatchVirtualUSBController update_usb (λ _, True).
Proof.
  apply (fields_settling _ (λ e c, mkUSB (cmpPtr (AutoConnectDevices c) (AutoConnectDevices e))
    (cmpPtr (EhciEnabled c) (EhciEnabled e)))); cbn; intros; by rewrite ?cmpPtr_settles, ?cmpPtr_refl.
Qed.

Lemma xhci_settling : settling MatchVirtualUSBXHCIController update_xhci (λ _, True).
Proof.
  apply (fields_settling _ (λ e c, mkXHCI (cmpPtr (XhciAutoConnectDevices c) (XhciAutoConnectDevices e))));
    cbn; intros; by rewrite ?cmpPtr_settles, ?cmpPtr_refl.
Qed.

Lemma vmci_settling : settling MatchVirtualMachineVMCIDevice update_vmci (λ _, True).
Proof.
  apply (fields_settling _ (λ e c, mkVMCI
    (cmpPtr (AllowUnrestrictedCommunication c) (AllowUnrestrictedCommunication e))
    (cmpPtr (FilterEnable c) (FilterEnable e))
    (match FilterInfo e with
     | None => None
     | Some fe => match FilterInfo c with
                  | None => Some fe
                  | Some fc => if bool_decide (fc ≠ fe) then Some fe else None
                  end
     end))); cbn [update_vmci AllowUnrestrictedCommunication FilterEnable FilterInfo].
  - intros e c _. rewrite !cmpPtr_settles. f_equal. unfold updated, zero, option_zero.
    destruct (FilterInfo e), (FilterInfo c); repeat case_bool_decide; congruence.
  - intros e. rewrite !cmpPtr_refl. f_equal. destruct (FilterInfo e); [by case_bool_decide|done].
Qed.

Lemma video_settling : settling MatchVirtualMachineVideoCard update_video (λ _, True).
Proof.
  apply (fields_settling _ (λ e c, mkVideo
    (cmp (VideoRamSizeInKB c) (VideoRamSizeInKB e)) (cmp (NumDisplays c) (NumDisplays e))
    (cmpPtr (VideoUseAutoDetect c) (VideoUseAutoDetect e)) (cmpPtr (Enable3DSupport c) (Enable3DSupport e))
    (cmp (Use3dRenderer c) (Use3dRenderer e)) (cmp (GraphicsMemorySizeInKB c) (GraphicsMemorySizeInKB e))));
    cbn [update_video VideoRamSizeInKB NumDisplays VideoUseAutoDetect Enable3DSupport Use3dRenderer
         GraphicsMemorySizeInKB]; intros; by rewrite ?cmpPtr_settles, ?cmpPtr_refl, ?cmp_settles, ?cmp_refl.
Qed.

Lemma tpm_settling : settling MatchVirtualTPM update_tpm (λ _, True).
Proof.
  assert (∀ a b, changed_certificates a (updated b (changed_certificates a b)) = None) as Hupd.
  { intros a b. unfold changed_certificates, updated, zero, option_zero.
    destruct a, b; repeat case_bool_decide; congruence. }
  assert (∀ a, changed_certificates a a = None) as Hrefl.
  { intros a. unfold changed_certificates. by case_bool_decide. }
  apply (fields_settling _ (λ e c, mkTPM
    (changed_certificates (EndorsementKeyCertificateSigningRequest e) (EndorsementKeyCertificateSigningRequest c))
    (changed_certificates (EndorsementKeyCertificate e) (EndorsementKeyCertificate c))));
    cbn [update_tpm EndorsementKeyCertificateSigningRequest EndorsementKeyCertificate]; intros;
    by rewrite ?Hupd, ?Hrefl.
Qed.

Lemma wdt_settling : settling MatchVirtualWDT update_wdt (λ _, True).
Proof.
  apply (fields_settling _ (λ e c, mkWDT (@cmp bool _ bool_zero (RunOnBoot c) (RunOnBoot e))));
    unfold update_wdt; intros [[]]; try intros [[]]; done.
Qed.

(** ** PCI passthrough devices *)

Implicit Types (cur exp added : list (device unit)) (b : option (Backing V)).

(** The kinds of backing that a passthrough device is matched by. *)
Definition pci_backing (b : option (Backing V)) : bool :=
  match b with
  | Some (PCIPassthroughVmiopBacking _ | PCIPassthroughDynamicBacking _ _ | PCIPassthroughDvxBacking _ _) => true
  | _ => false
  end.

Lemma backing_match_refl b : pci_backing b = true → backing_match b b = true.
Proof.
  destruct b as [[]|]; try done; intros _; cbn.
  - by apply bool_decide_eq_true.
  - rewrite (bool_decide_eq_false_2 (CustomLabel ≠ CustomLabel)), andb_false_r by auto.
    destruct Allowed as [|x l]; [done|]. cbn [existsb]. unfold same_device at 1. by rewrite !Z.eqb_refl.
  - by rewrite !bool_decide_eq_true_2, Nat.eqb_refl by done.
Qed.

Lemma take_match_Some b cur cur' :
  take_match b cur = Some cur' → ∃ l1 c l2, cur = l1 ++ c :: l2 ∧ cur' = l1 ++ l2 ∧
    backing_match b (DevBacking c) = true ∧ Forall (λ c, backing_match b (DevBacking c) = false) l1.
Proof.
  revert cur'. induction cur as [|c cur IH]; intros cur'; cbn [take_match]; [done|].
  destruct (backing_match b (DevBacking c)) eqn:E.
  - intros [= <-]. by exists [], c, cur.
  - intros (l & Hl & ->)%fmap_Some. apply IH in Hl as (l1 & c' & l2 & -> & -> & Hm & Hno).
    exists (c :: l1), c', l2. auto.
Qed.

Lemma take_match_None b cur :
  take_match b cur = None ↔ Forall (λ c, backing_match b (DevBacking c) = false) cur.
Proof.
  induction cur as [|c cur IH]; cbn [take_match]; [done|]. rewrite Forall_cons.
  destruct (backing_match b (DevBacking c)); [split; [done|by intros []]|].
  rewrite fmap_None. naive_solver.
Qed.

Lemma take_match_app b l1 c l2 :
  Forall (λ c, backing_match b (DevBacking c) = false) l1 → backing_match b (DevBacking c) = true →
  take_match b (l1 ++ c :: l2) = Some (l1 ++ l2).
Proof.
  intros Hno Hm. induction Hno as [|c' l1 Hc _ IH]; cbn [app take_match]; [by rewrite Hm|].
  rewrite Hc. by rewrite IH.
Qed.

(** The current devices that are not removed. *)
Definition kept (rest cur : list (device unit)) : list (device unit) :=
  filter (λ c, Key c ∉ Key <$> rest) cur.

Lemma kept_all_removed cur : kept cur cur = [].
Proof.
  apply elem_of_nil_inv. intros c [Hc Hin]%list_elem_of_filter. apply Hc. by apply list_elem_of_fmap_2.
Qed.

Lemma Forall_kept (P : device unit → Prop) rest cur : Forall P cur → Forall P (kept rest cur).
Proof. intros HP. apply Forall_forall. intros c [_ Hc]%list_elem_of_filter. by eapply Forall_forall. Qed.

Lemma match_devices_rest exp cur : (match_devices exp cur).2 ⊆ cur.
Proof.
  revert cur. induction exp as [|e exp IH]; intros cur; cbn [match_devices]; [done|].
  destruct (take_match (DevBacking e) cur) as [cur'|] eqn:E.
  - apply take_match_Some in E as (l1 & c & l2 & -> & -> & _). etrans; [apply IH|]. set_solver.
  - specialize (IH cur). by destruct (match_devices exp cur).
Qed.

(** Matching again, after the devices that were left over are removed and the
    ones that found no match are added at the end, pairs all of both. *)
Lemma match_devices_settles exp cur added :
  Forall (λ e, pci_backing (DevBacking e) = true) exp → NoDup (Key <$> cur) →
  Forall2 (λ e c, DevBacking c = DevBacking e) (match_devices exp cur).1 added →
  match_devices exp (kept (match_devices exp cur).2 cur ++ added) = ([], []).
Proof.
  intros Hexp. revert cur added. induction Hexp as [|e exp He Hexp IH]; intros cur added Hnd Hadd.
  - cbn in *. inversion Hadd. subst. rewrite app_nil_r, kept_all_removed. done.
  - cbn [match_devices] in *. destruct (take_match (DevBacking e) cur) as [cur'|] eqn:E.
    + apply take_match_Some in E as (l1 & c & l2 & -> & -> & Hm & Hno).
      rewrite fmap_app, fmap_cons in Hnd. pose proof (match_devices_rest exp (l1 ++ l2)) as Hrest.
      assert (NoDup (Key <$> l1 ++ l2) ∧ Key c ∉ Key <$> l1 ++ l2) as [Hnd' Hc].
      { rewrite fmap_app. rewrite <-Permutation_middle in Hnd. by apply NoDup_cons in Hnd as [? ?]. }
      specialize (IH (l1 ++ l2) added Hnd' Hadd). unfold kept in *. rewrite !filter_app, filter_cons in *.
      rewrite decide_True by set_solver. rewrite <-app_assoc. cbn [app].
      rewrite take_match_app; [|by apply Forall_kept|done]. by rewrite app_assoc.
    + destruct (match_devices exp cur) as [a r] eqn:Em. cbn [fst snd] in *.
      inversion Hadd as [|? d ? added' Hd Hadd']. subst. specialize (IH cur added' Hnd). rewrite Em in IH.
      rewrite take_match_app.
      * by apply IH.
      * apply Forall_kept. by apply take_match_None.
      * rewrite Hd. by apply backing_match_refl.
Qed.

Lemma match_devices_pairs exp cur :
  match_devices exp cur = ([], []) →
  ∃ l, l ≡ₚ cur ∧ Forall2 (λ e c, backing_match (DevBacking e) (DevBacking c) = true) exp l.
Proof.
  revert cur. induction exp as [|e exp IH]; intros cur; cbn [match_devices]; [intros [= ->]; by exists []|].
  destruct (take_match (DevBacking e) cur) as [cur'|] eqn:E; [|by destruct (match_devices exp cur)].
  apply take_match_Some in E as (l1 & c & l2 & -> & -> & Hm & _). intros (l & Hl & Hall)%IH.
  exists (c :: l). split; [rewrite Hl; apply Permutation_middle|by constructor].
Qed.

(** ** All devices *)

(** A statement of every type that is compared by zipping. *)
Definition all_types (P : ∀ T, DeviceType F T → (device T → device T → option (device T)) → (T → T → T) → bool → Prop)
    : Prop :=
  P _ usb MatchVirtualUSBController update_usb false ∧
  P _ xhci MatchVirtualUSBXHCIController update_xhci false ∧
  P _ vmci MatchVirtualMachineVMCIDevice update_vmci true ∧
  P _ video MatchVirtualMachineVideoCard update_video true ∧
  P _ parallel MatchVirtualParallelPort update_unit false ∧
  P _ clock MatchVirtualPrecisionClock update_unit false ∧
  P _ scsi MatchVirtualSCSIPassthrough update_unit false ∧
  P _ serial MatchVirtualSerialPort update_unit false ∧
  P _ ensoniq matchBaseVirtualSoundCard update_unit false ∧
  P _ hdaudio matchBaseVirtualSoundCard update_unit false ∧
  P _ soundblaster matchBaseVirtualSoundCard update_unit false ∧
  P _ tpm MatchVirtualTPM update_tpm false ∧
  P _ wdt MatchVirtualWDT update_wdt false.

Lemma all_types_impl (P Q R S : ∀ T, DeviceType F T → (device T → device T → option (device T)) → (T → T → T) → bool → Prop) :
  (∀ T ty m upd dflt, P T ty m upd dflt → Q T ty m upd dflt → R T ty m upd dflt → S T ty m upd dflt) →
  all_types P → all_types Q → all_types R → all_types S.
Proof.
  unfold all_types. intros HS HP HQ HR. destruct_and! HP. destruct_and! HQ. destruct_and! HR. split_and!; auto.
Qed.

Lemma backing_settling_self (cmpFn : Backing V → Backing V → bool) :
  settling (match_backing cmpFn) update_unit (λ e, match_backing cmpFn e e = None).
Proof.
  assert (∀ e, match_backing cmpFn e e = None → ∀ bk, DevBacking e = Some bk → cmpFn bk bk = true) as Hself.
  { intros e. unfold match_backing, cmpBacking. intros He bk Hb. rewrite Hb in He. by destruct (cmpFn bk bk). }
  split.
  - intros e c He. apply (edit_settles _ _ _ (backing_settling cmpFn)). by apply Hself.
  - intros e c He Hsame. apply (add_settles _ _ _ (backing_settling cmpFn)); [by apply Hself|done].
Qed.

Lemma settling_weaken {T} m (upd : T → T → T) (P : device T → Prop) :
  settling m upd (λ _, True) → settling m upd P.
Proof. intros Hs. split; intros; by apply Hs. Qed.

Lemma types_settling : all_types (λ T ty m upd dflt, settling m upd (λ e, m e e = None)).
Proof.
  unfold all_types. split_and!; try apply backing_settling_self; apply settling_weaken;
    auto using usb_settling, xhci_settling, vmci_settling, video_settling, tpm_settling, wdt_settling.
Qed.

Lemma compareDevicesByZipping_nil desired current :
  compareDevicesByZipping desired current = [] ↔
  all_types (λ T ty m _ dflt, type_met m dflt (SelectDevicesByType ty desired) (SelectDevicesByType ty current)).
Proof.
  unfold compareDevicesByZipping, compare_type, all_types. rewrite !app_nil. by rewrite <-!zip_nil.
Qed.

(** The devices of the changes with an operation. *)
Definition changed (op : Operation) (changes : list (DeviceChange V F)) : list (device (Body F)) :=
  ChangedDevice <$> filter (λ ch, Op ch = op) changes.

(** [current'] are the devices of a VM with the devices [current] after it was
    reconfigured with the changes: a device is removed by its key, added ones
    come last. *)
Definition devices_applied (desired current current' : list (device (Body F))) : Prop :=
  (∃ added,
     Forall2 (λ d c, DevBacking c = DevBacking d) (changed OperationAdd (ComparePCIDevices desired current)) added ∧
     SelectDevicesByType passthrough current' =
       filter (λ c, Key c ∉ Key <$> changed OperationRemove (ComparePCIDevices desired current))
         (SelectDevicesByType passthrough current) ++ added) ∧
  all_types (λ T ty m upd dflt, type_applied m upd dflt (SelectDevicesByType ty desired)
    (SelectDevicesByType ty current) (SelectDevicesByType ty current')).

Lemma filter_op_fmap {A} op op' (f : A → device (Body F)) (l : list A) :
  changed op (mkChange op' ∘ f <$> l) = if decide (op' = op) then f <$> l else [].
Proof.
  unfold changed. induction l as [|x l IH]; [by destruct (decide _)|].
  rewrite fmap_cons, filter_cons. cbn [Op compose]. destruct (decide (op' = op)) as [->|]; [|done].
  rewrite !fmap_cons. by rewrite IH.
Qed.

Lemma changed_app op l l' : changed op (l ++ l') = changed op l ++ changed op l'.
Proof. unfold changed. by rewrite filter_app, fmap_app. Qed.

Lemma pci_changed desired current :
  let r := match_devices (CreatePCIDevicesFromConfigSpec (SelectDevicesByType passthrough desired))
             (SelectDevicesByType passthrough current) in
  changed OperationAdd (ComparePCIDevices (F:=F) desired current) = as_device passthrough <$> r.1 ∧
  changed OperationRemove (ComparePCIDevices (F:=F) desired current) = as_device passthrough <$> r.2.
Proof.
  cbn zeta. unfold ComparePCIDevices. destruct (match_devices _ _) as [added rest]. cbn [fst snd].
  rewrite !changed_app, !filter_op_fmap. repeat case_decide; try done. by rewrite app_nil_r.
Qed.

(** Numbering the devices leaves their backings as they are. *)
Lemma number_devices_Forall (P : option (Backing V) → Prop) k l :
  Forall (λ d, P (DevBacking d)) l → Forall (λ d, P (DevBacking d)) (number_devices k l).
Proof. intros Hl. revert k. induction Hl; intros k; constructor; auto. Qed.

Lemma number_devices_Forall2 {B} (P : option (Backing V) → B → Prop) k l r :
  Forall2 (λ d, P (DevBacking d)) (number_devices k l) r → Forall2 (λ d, P (DevBacking d)) l r.
Proof.
  revert k r. induction l as [|d l IH]; intros k r Hr; inversion Hr; subst; constructor; eauto.
Qed.

(** ** Property *)

End Devices.

(** ** Witness *)

(** A VM with one vGPU, a USB controller and a serial port to a file is to have
    another vGPU and two serial ports to a service. *)
Definition ex_uri : Backing Z := SerialPortURIBacking (mkURIBacking "telnet://host" "server" "").
Definition ex_desired : list (dev Z (Body Z)) :=
  [mkDev (-1) (Some ex_uri) VirtualSerialPort;
   mkDev (-2) (Some (PCIPassthroughVmiopBacking "grid_p40")) VirtualPCIPassthrough;
   mkDev (-3) (Some ex_uri) VirtualSerialPort].
Definition ex_current : list (dev Z (Body Z)) :=
  [mkDev 7000 None (VirtualUSBController (mkUSB None (Some true)));
   mkDev 13000 (Some (PCIPassthroughVmiopBacking "grid_m60")) VirtualPCIPassthrough;
   mkDev 9000 (Some (SerialPortFileBacking "a.log")) VirtualSerialPort].
Definition ex_after : list (dev Z (Body Z)) :=
  [mkDev 9000 (Some ex_uri) VirtualSerialPort; mkDev 9001 (Some ex_uri) VirtualSerialPort;
   mkDev 13001 (Some (PCIPassthroughVmiopBacking "grid_p40")) VirtualPCIPassthrough].

