(* ===== verification/Compute.v ===== *)
(** * Compute settings of a VM's spec

    pkg/util/vmopv1/compute_overwrite.go: the compute fields of a VM's spec (CPU
    and memory sizes, allocations, latency sensitivity, topology and flags) are
    written over the ConfigSpec of a reconfiguration; fields that cannot be
    applied are reported.  pkg/util/vmopv1/resize_class_sync.go: a resize copies
    the sizes and allocations of the class into the spec first.  The memory lock
    that devices require is RequiresMemoryReservationLock of pkg/util/devices.go.

    A quantity of the API is a value of an interface, [Quantity]; the hardware
    version is parsed by govmomi, so the parser is a parameter. *)

From S2P Require Import Prelude Resize.
Local Open Scope Z_scope.

(** ** Quantities *)

(** resource.Quantity: its value, rounded away from zero, its comparison with
    another one, and the quantity of a number. *)
Class Quantity (Q : Type) := {
  Value : Q → Z;
  Cmp : Q → Q → comparison;
  IsZero : Q → bool;
  NewQuantity : Z → Q
}.
Class QuantityLaws (Q : Type) `{Quantity Q} := {
  Value_NewQuantity : ∀ n, Value (NewQuantity n) = n;
  Cmp_NewQuantity : ∀ m n, Cmp (NewQuantity m) (NewQuantity n) = (m ?= n);
  Cmp_Eq_Value : ∀ q q', Cmp q q' = Eq → Value q = Value q';
  IsZero_Value : ∀ q, IsZero q = (Value q =? 0)
}.

(** Whole numbers are quantities. *)
#[global] Instance Z_quantity : Quantity Z :=
  { Value := id; Cmp := Z.compare; IsZero := λ q, q =? 0; NewQuantity := id }.
#[global] Instance Z_quantity_laws : QuantityLaws Z.
Proof. split; try done. apply Z.compare_eq. Qed.

(** ** Devices that need the memory lock *)

Inductive LockDeviceType := PCIPassthroughDevice | SriovEthernetCard | OtherType.
Record LockDevice := mkLockDevice { ld_Type : LockDeviceType; ld_Key : Z }.
Inductive DeviceOperation := DeviceAdd | DeviceEdit | DeviceRemove | DeviceNoOperation.
Record DeviceSpec := mkDeviceSpec { ds_Operation : DeviceOperation; ds_Device : option LockDevice }.
#[global] Instance DeviceOperation_eq_dec : EqDecision DeviceOperation.
Proof. solve_decision. Defined.

Definition isMemReservationLockRequiredDevice (d : LockDevice) : bool :=
  match ld_Type d with PCIPassthroughDevice | SriovEthernetCard => true | OtherType => false end.

(** The first loop: [None] if a device will exist, else the keys removed. *)
Fixpoint removed_keys (changes : list DeviceSpec) (removedKeys : gset Z) : option (gset Z) :=
  match changes with
  | [] => Some removedKeys
  | spec :: changes' =>
    match ds_Device spec with
    | None => removed_keys changes' removedKeys
    | Some d =>
      if negb (isMemReservationLockRequiredDevice d) then removed_keys changes' removedKeys
      else if bool_decide (ds_Operation spec ≠ DeviceRemove) then None
      else removed_keys changes' ({[ld_Key d]} ∪ removedKeys)
    end
  end.

Definition RequiresMemoryReservationLock (existing : list LockDevice) (changes : list DeviceSpec) : bool :=
  match removed_keys changes ∅ with
  | None => true
  | Some removedKeys =>
    existsb (λ d, isMemReservationLockRequiredDevice d && negb (bool_decide (ld_Key d ∈ removedKeys))) existing
  end.

(** ** The spec, the configuration and the changes *)

Section Spec.
Context {Q : Type}.

Record ResourceQuantity := mkQuantity { CPU : option Q; Memory : option Q }.
Record ResourcesSpec := mkResources {
  Size : option ResourceQuantity;
  Requests : option ResourceQuantity;
  Limits : option ResourceQuantity
}.
Record CPUTopologySpec := mkTopology { CoresPerSocket : option Z; VNUMANodeCount : option Z }.
Inductive LatencySensitivityLevel := LatencyNormal | LatencyHigh | LatencyHighWithHyperthreading | LatencyOther.
Record CPUAdvancedSpec := mkCPUAdvanced {
  ca_LatencySensitivity : option LatencySensitivityLevel;
  Topology : option CPUTopologySpec;
  ca_HotAddEnabled : option bool;
  IOMMUEnabled : option bool;
  NestedHardwareVirtualizationEnabled : option bool;
  PerformanceCountersEnabled : option bool
}.
Record MemoryAdvancedSpec := mkMemoryAdvanced {
  ma_HotAddEnabled : option bool;
  ReservationLockedToMax : option bool
}.
(** The compute part of a VM's spec. *)
Record ComputeSpec := mkSpec {
  Resources : option ResourcesSpec;
  CPUAdvanced : option CPUAdvancedSpec;
  MemoryAdvanced : option MemoryAdvancedSpec
}.
End Spec.
#[global] Instance LatencySensitivityLevel_eq_dec : EqDecision LatencySensitivityLevel.
Proof. solve_decision. Defined.
#[global] Instance CPUTopologySpec_eq_dec : EqDecision CPUTopologySpec.
Proof. solve_decision. Defined.
#[global] Instance CPUAdvancedSpec_eq_dec : EqDecision CPUAdvancedSpec.
Proof. solve_decision. Defined.
#[global] Instance MemoryAdvancedSpec_eq_dec : EqDecision MemoryAdvancedSpec.
Proof. solve_decision. Defined.
Arguments ResourceQuantity : clear implicits.
Arguments ResourcesSpec : clear implicits.
Arguments ComputeSpec : clear implicits.

(** What is read of the configuration of a VM. *)
Record LiveConfig := mkLive {
  li_Version : string;
  li_NumCPU : Z;
  li_MemoryMB : Z;
  li_CpuHotAddEnabled : option bool;
  li_MemoryHotAddEnabled : option bool;
  li_CpuAllocation : option ResourceAllocationInfo;
  li_MemoryAllocation : option ResourceAllocationInfo;
  li_LatencySensitivity : option LatencySensitivity;
  li_SimultaneousThreads : Z;
  li_NumCoresPerSocket : option Z;
  li_AutoCoresPerSocket : option bool;
  li_NumaInfo : option NumaInfo;
  li_VvtdEnabled : option bool;
  li_NestedHVEnabled : option bool;
  li_VPMCEnabled : option bool;
  li_MemoryReservationLockedToMax : option bool;
  li_Device : list LockDevice
}.

(** What is written of the ConfigSpec. *)
Record ComputeChange := mkCompute {
  cc_NumCPUs : Z;
  cc_MemoryMB : Z;
  cc_CpuAllocation : option ResourceAllocationInfo;
  cc_MemoryAllocation : option ResourceAllocationInfo;
  cc_LatencySensitivity : option LatencySensitivity;
  cc_SimultaneousThreads : Z;
  cc_NumCoresPerSocket : option Z;
  cc_VirtualNuma : option VirtualNuma;
  cc_CpuHotAddEnabled : option bool;
  cc_Flags : option FlagInfo;
  cc_NestedHVEnabled : option bool;
  cc_VPMCEnabled : option bool;
  cc_MemoryHotAddEnabled : option bool;
  cc_MemoryReservationLockedToMax : option bool;
  cc_DeviceChange : list DeviceSpec
}.

Definition set_NumCPUs (x : Z) (cs : ComputeChange) : ComputeChange :=
  mkCompute x (cc_MemoryMB cs) (cc_CpuAllocation cs) (cc_MemoryAllocation cs) (cc_LatencySensitivity cs)
    (cc_SimultaneousThreads cs) (cc_NumCoresPerSocket cs) (cc_VirtualNuma cs) (cc_CpuHotAddEnabled cs)
    (cc_Flags cs) (cc_NestedHVEnabled cs) (cc_VPMCEnabled cs) (cc_MemoryHotAddEnabled cs)
    (cc_MemoryReservationLockedToMax cs) (cc_DeviceChange cs).

Definition set_MemoryMB (x : Z) (cs : ComputeChange) : ComputeChange :=
  mkCompute (cc_NumCPUs cs) x (cc_CpuAllocation cs) (cc_MemoryAllocation cs) (cc_LatencySensitivity cs)
    (cc_SimultaneousThreads cs) (cc_NumCoresPerSocket cs) (cc_VirtualNuma cs) (cc_CpuHotAddEnabled cs)
    (cc_Flags cs) (cc_NestedHVEnabled cs) (cc_VPMCEnabled cs) (cc_MemoryHotAddEnabled cs)
    (cc_MemoryReservationLockedToMax cs) (cc_DeviceChange cs).

Definition set_CpuAllocation (x : option ResourceAllocationInfo) (cs : ComputeChange) : ComputeChange :=
  mkCompute (cc_NumCPUs cs) (cc_MemoryMB cs) x (cc_MemoryAllocation cs) (cc_LatencySensitivity cs)
    (cc_SimultaneousThreads cs) (cc_NumCoresPerSocket cs) (cc_VirtualNuma cs) (cc_CpuHotAddEnabled cs)
    (cc_Flags cs) (cc_NestedHVEnabled cs) (cc_VPMCEnabled cs) (cc_MemoryHotAddEnabled cs)
    (cc_MemoryReservationLockedToMax cs) (cc_DeviceChange cs).

Definition set_MemoryAllocation (x : option ResourceAllocationInfo) (cs : ComputeChange) : ComputeChange :=
  mkCompute (cc_NumCPUs cs) (cc_MemoryMB cs) (cc_CpuAllocation cs) x (cc_LatencySensitivity cs)
    (cc_SimultaneousThreads cs) (cc_NumCoresPerSocket cs) (cc_VirtualNuma cs) (cc_CpuHotAddEnabled cs)
    (cc_Flags cs) (cc_NestedHVEnabled cs) (cc_VPMCEnabled cs) (cc_MemoryHotAddEnabled cs)
    (cc_MemoryReservationLockedToMax cs) (cc_DeviceChange cs).

Definition set_LatencySensitivity (x : option LatencySensitivity) (cs : ComputeChange) : ComputeChange :=
  mkCompute (cc_NumCPUs cs) (cc_MemoryMB cs) (cc_CpuAllocation cs) (cc_MemoryAllocation cs) x
    (cc_SimultaneousThreads cs) (cc_NumCoresPerSocket cs) (cc_VirtualNuma cs) (cc_CpuHotAddEnabled cs)
    (cc_Flags cs) (cc_NestedHVEnabled cs) (cc_VPMCEnabled cs) (cc_MemoryHotAddEnabled cs)
    (cc_MemoryReservationLockedToMax cs) (cc_DeviceChange cs).

Definition set_SimultaneousThreads (x : Z) (cs : ComputeChange) : ComputeChange :=
  mkCompute (cc_NumCPUs cs) (cc_MemoryMB cs) (cc_CpuAllocation cs) (cc_MemoryAllocation cs)
    (cc_LatencySensitivity cs) x (cc_NumCoresPerSocket cs) (cc_VirtualNuma cs) (cc_CpuHotAddEnabled cs)
    (cc_Flags cs) (cc_NestedHVEnabled cs) (cc_VPMCEnabled cs) (cc_MemoryHotAddEnabled cs)
    (cc_MemoryReservationLockedToMax cs) (cc_DeviceChange cs).

Definition set_NumCoresPerSocket (x : option Z) (cs : ComputeChange) : ComputeChange :=
  mkCompute (cc_NumCPUs cs) (cc_MemoryMB cs) (cc_CpuAllocation cs) (cc_MemoryAllocation cs)
    (cc_LatencySensitivity cs) (cc_SimultaneousThreads cs) x (cc_VirtualNuma cs)
    (cc_CpuHotAddEnabled cs) (cc_Flags cs) (cc_NestedHVEnabled cs) (cc_VPMCEnabled cs)
    (cc_MemoryHotAddEnabled cs) (cc_MemoryReservationLockedToMax cs) (cc_DeviceChange cs).

Definition set_VirtualNuma (x : option VirtualNuma) (cs : ComputeChange) : ComputeChange :=
  mkCompute (cc_NumCPUs cs) (cc_MemoryMB cs) (cc_CpuAllocation cs) (cc_MemoryAllocation cs)
    (cc_LatencySensitivity cs) (cc_SimultaneousThreads cs) (cc_NumCoresPerSocket cs) x
    (cc_CpuHotAddEnabled cs) (cc_Flags cs) (cc_NestedHVEnabled cs) (cc_VPMCEnabled cs)
    (cc_MemoryHotAddEnabled cs) (cc_MemoryReservationLockedToMax cs) (cc_DeviceChange cs).

Definition set_CpuHotAddEnabled (x : option bool) (cs : ComputeChange) : ComputeChange :=
  mkCompute (cc_NumCPUs cs) (cc_MemoryMB cs) (cc_CpuAllocation cs) (cc_MemoryAllocation cs)
    (cc_LatencySensitivity cs) (cc_SimultaneousThreads cs) (cc_NumCoresPerSocket cs) (cc_VirtualNuma cs)
    x (cc_Flags cs) (cc_NestedHVEnabled cs) (cc_VPMCEnabled cs) (cc_MemoryHotAddEnabled cs)
    (cc_MemoryReservationLockedToMax cs) (cc_DeviceChange cs).

Definition set_Flags (x : option FlagInfo) (cs : ComputeChange) : ComputeChange :=
  mkCompute (cc_NumCPUs cs) (cc_MemoryMB cs) (cc_CpuAllocation cs) (cc_MemoryAllocation cs)
    (cc_LatencySensitivity cs) (cc_SimultaneousThreads cs) (cc_NumCoresPerSocket cs) (cc_VirtualNuma cs)
    (cc_CpuHotAddEnabled cs) x (cc_NestedHVEnabled cs) (cc_VPMCEnabled cs) (cc_MemoryHotAddEnabled cs)
    (cc_MemoryReservationLockedToMax cs) (cc_DeviceChange cs).

Definition set_NestedHVEnabled (x : option bool) (cs : ComputeChange) : ComputeChange :=
  mkCompute (cc_NumCPUs cs) (cc_MemoryMB cs) (cc_CpuAllocation cs) (cc_MemoryAllocation cs)
    (cc_LatencySensitivity cs) (cc_SimultaneousThreads cs) (cc_NumCoresPerSocket cs) (cc_VirtualNuma cs)
    (cc_CpuHotAddEnabled cs) (cc_Flags cs) x (cc_VPMCEnabled cs) (cc_MemoryHotAddEnabled cs)
    (cc_MemoryReservationLockedToMax cs) (cc_DeviceChange cs).

Definition set_VPMCEnabled (x : option bool) (cs : ComputeChange) : ComputeChange :=
  mkCompute (cc_NumCPUs cs) (cc_MemoryMB cs) (cc_CpuAllocation cs) (cc_MemoryAllocation cs)
    (cc_LatencySensitivity cs) (cc_SimultaneousThreads cs) (cc_NumCoresPerSocket cs) (cc_VirtualNuma cs)
    (cc_CpuHotAddEnabled cs) (cc_Flags cs) (cc_NestedHVEnabled cs) x (cc_MemoryHotAddEnabled cs)
    (cc_MemoryReservationLockedToMax cs) (cc_DeviceChange cs).

Definition set_MemoryHotAddEnabled (x : option bool) (cs : ComputeChange) : ComputeChange :=
  mkCompute (cc_NumCPUs cs) (cc_MemoryMB cs) (cc_CpuAllocation cs) (cc_MemoryAllocation cs)
    (cc_LatencySensitivity cs) (cc_SimultaneousThreads cs) (cc_NumCoresPerSocket cs) (cc_VirtualNuma cs)
    (cc_CpuHotAddEnabled cs) (cc_Flags cs) (cc_NestedHVEnabled cs) (cc_VPMCEnabled cs) x
    (cc_MemoryReservationLockedToMax cs) (cc_DeviceChange cs).

Definition set_MemoryReservationLockedToMax (x : option bool) (cs : ComputeChange) : ComputeChange :=
  mkCompute (cc_NumCPUs cs) (cc_MemoryMB cs) (cc_CpuAllocation cs) (cc_MemoryAllocation cs)
    (cc_LatencySensitivity cs) (cc_SimultaneousThreads cs) (cc_NumCoresPerSocket cs) (cc_VirtualNuma cs)
    (cc_CpuHotAddEnabled cs) (cc_Flags cs) (cc_NestedHVEnabled cs) (cc_VPMCEnabled cs)
    (cc_MemoryHotAddEnabled cs) x (cc_DeviceChange cs).

(** ** Desired values *)

Section Compute.
Context {Q : Type} `{Quantity Q}.
Context (ParseHardwareVersion : string → Z).
Implicit Types (vm : ComputeSpec Q) (ci : LiveConfig) (cs : ComputeChange).

(** The quantity of the spec that a path of pointers leads to. *)
Definition size_cpu vm : option Q := (Resources vm ≫= Size) ≫= CPU.
Definition size_memory vm : option Q := (Resources vm ≫= Size) ≫= Memory.
Definition requests_cpu vm : option Q := (Resources vm ≫= Requests) ≫= CPU.
Definition requests_memory vm : option Q := (Resources vm ≫= Requests) ≫= Memory.
Definition limits_cpu vm : option Q := (Resources vm ≫= Limits) ≫= CPU.
Definition limits_memory vm : option Q := (Resources vm ≫= Limits) ≫= Memory.

(** [q.Value() / 1024 / 1024]. *)
Definition mebibytes (q : Q) : Z := Z.quot (Z.quot (Value q) 1024) 1024.

Definition desiredCPUAllocation vm : Z * Z :=
  (from_option Value 0 (requests_cpu vm), from_option Value (-1) (limits_cpu vm)).

Definition desiredMemoryAllocation vm : Z * Z :=
  (from_option mebibytes 0 (requests_memory vm), from_option mebibytes (-1) (limits_memory vm)).

Definition LevelNormal : string := "normal".
Definition LevelHigh : string := "high".

Definition desiredLatencySensitivity vm : string * Z :=
  match CPUAdvanced vm ≫= ca_LatencySensitivity with
  | Some LatencyHigh => (LevelHigh, 0)
  | Some LatencyHighWithHyperthreading => (LevelHigh, 2)
  | _ => (LevelNormal, 0)
  end.

Definition desiredCPUHotAddEnabled vm : bool := default false (CPUAdvanced vm ≫= ca_HotAddEnabled).
Definition desiredIOMMU vm : bool := default false (CPUAdvanced vm ≫= IOMMUEnabled).
Definition desiredNestedHV vm : bool := default false (CPUAdvanced vm ≫= NestedHardwareVirtualizationEnabled).
Definition desiredPerfCounters vm : bool := default false (CPUAdvanced vm ≫= PerformanceCountersEnabled).
Definition desiredMemHotAdd vm : bool := default false (MemoryAdvanced vm ≫= ma_HotAddEnabled).
Definition desiredMemReservationLocked vm : bool := default false (MemoryAdvanced vm ≫= ReservationLockedToMax).
Definition topologySpec vm : option CPUTopologySpec := CPUAdvanced vm ≫= Topology.

Definition FullMemReservationSpecMet vm : bool :=
  if default false (MemoryAdvanced vm ≫= ReservationLockedToMax) then true
  else match requests_memory vm, size_memory vm with
       | Some r, Some s => match Cmp r s with Eq => true | _ => false end
       | _, _ => false
       end.

(** ** Fields *)

Record computeFieldDef := mkField {
  fieldName : string;
  minHWVer : Z;
  prerequisite : ComputeSpec Q → LiveConfig → ComputeChange → option string;
  hotPluggable : ComputeSpec Q → LiveConfig → bool;
  differs : ComputeSpec Q → LiveConfig → ComputeChange → bool;
  apply_field : ComputeSpec Q → LiveConfig → ComputeChange → ComputeChange
}.

Definition alwaysHotPluggable vm ci : bool := true.
Definition neverHotPluggable vm ci : bool := false.
(** A field without a prerequisite. *)
Definition no_prerequisite vm ci cs : option string := None.

Definition cpuSizeField : computeFieldDef :=
  mkField "resources.size.cpu" 0 no_prerequisite
    (λ vm ci, default false (li_CpuHotAddEnabled ci) &&
       match size_cpu vm with Some q => li_NumCPU ci <? wrap32 (Value q) | None => false end)
    (λ vm ci cs,
       match size_cpu vm with
       | None => false
       | Some q => let specCPU := wrap32 (Value q) in
         negb (specCPU =? li_NumCPU ci) || (negb (cc_NumCPUs cs =? 0) && negb (specCPU =? cc_NumCPUs cs))
       end)
    (λ vm ci cs, match size_cpu vm with Some q => set_NumCPUs (wrap32 (Value q)) cs | None => cs end).

Definition memorySizeField : computeFieldDef :=
  mkField "resources.size.memory" 0 no_prerequisite
    (λ vm ci, default false (li_MemoryHotAddEnabled ci) &&
       match size_memory vm with Some q => li_MemoryMB ci <? mebibytes q | None => false end)
    (λ vm ci cs,
       match size_memory vm with
       | None => false
       | Some q => let specMB := mebibytes q in
         negb (specMB =? li_MemoryMB ci) || (negb (cc_MemoryMB cs =? 0) && negb (specMB =? cc_MemoryMB cs))
       end)
    (λ vm ci cs, match size_memory vm with Some q => set_MemoryMB (mebibytes q) cs | None => cs end).

(** The reservation and the limit of an allocation: none, and unlimited, where unset. *)
Definition allocation_values (a : option ResourceAllocationInfo) : Z * Z :=
  (default 0 (a ≫= ra_Reservation), default (-1) (a ≫= ra_Limit)).

Definition no_allocation : ResourceAllocationInfo := mkAllocation None None None.

Definition cpuAllocationField : computeFieldDef :=
  mkField "resources.allocation.cpu" 0 no_prerequisite alwaysHotPluggable
    (λ vm ci cs,
       if bool_decide (desiredCPUAllocation vm ≠ allocation_values (li_CpuAllocation ci)) then true
       else match cc_CpuAllocation cs with
            | None => false
            | a => bool_decide (desiredCPUAllocation vm ≠ allocation_values a)
            end)
    (λ vm ci cs,
       let '(res, lim) := desiredCPUAllocation vm in
       let a := default no_allocation (cc_CpuAllocation cs) in
       set_CpuAllocation (Some (mkAllocation (Some res) (Some lim) (ra_Shares a))) cs).

Definition memoryAllocationField : computeFieldDef :=
  mkField "resources.allocation.memory" 0 no_prerequisite alwaysHotPluggable
    (λ vm ci cs,
       let desired := desiredMemoryAllocation vm in
       let live := allocation_values (li_MemoryAllocation ci) in
       if desiredMemReservationLocked vm then
         if negb (desired.2 =? live.2) then true
         else match cc_MemoryAllocation cs with
              | None => false
              | a => negb (desired.2 =? (allocation_values a).2)
              end
       else if bool_decide (desired ≠ live) then true
       else match cc_MemoryAllocation cs with
            | None => false
            | a => bool_decide (desired ≠ allocation_values a)
            end)
    (λ vm ci cs,
       let '(res, lim) := desiredMemoryAllocation vm in
       let a := default no_allocation (cc_MemoryAllocation cs) in
       set_MemoryAllocation
         (Some (mkAllocation (if desiredMemReservationLocked vm then ra_Reservation a else Some res)
                  (Some lim) (ra_Shares a))) cs).

Definition latencySensitivityField : computeFieldDef :=
  mkField "cpuAdvanced.latencySensitivity" 0
    (λ vm _ _,
       if bool_decide ((desiredLatencySensitivity vm).1 ≠ LevelHigh) then None
       else if negb (FullMemReservationSpecMet vm)
       then Some "full memory reservation required: set spec.memoryAdvanced.reservationLockedToMax=true, or set spec.resources.requests.memory equal to spec.resources.size.memory"
       else match requests_cpu vm with
            | Some q => if IsZero q then Some "full CPU reservation required: set spec.resources.requests.cpu" else None
            | None => Some "full CPU reservation required: set spec.resources.requests.cpu"
            end)
    alwaysHotPluggable
    (λ vm ci cs,
       let '(level, threads) := desiredLatencySensitivity vm in
       let liveLevel := from_option ls_Level LevelNormal (li_LatencySensitivity ci) in
       if bool_decide (level ≠ liveLevel) then true
       else if (0 <? threads) && negb (li_SimultaneousThreads ci =? threads) then true
       else if (threads =? 0) && (1 <? li_SimultaneousThreads ci) then true
       else match cc_LatencySensitivity cs with
            | None => false
            | Some l => bool_decide (level ≠ ls_Level l)
            end)
    (λ vm ci cs,
       let '(level, threads) := desiredLatencySensitivity vm in
       let cs := set_LatencySensitivity (Some (mkLatency level 0)) cs in
       if 0 <? threads then set_SimultaneousThreads threads cs
       else if 1 <? li_SimultaneousThreads ci then set_SimultaneousThreads 1 cs else cs).

Definition VMX7 : Z := 7.
Definition VMX9 : Z := 9.
Definition VMX11 : Z := 11.
Definition VMX20 : Z := 20.

(** The explicit number of cores per socket. *)
Definition explicit_cores vm : option Z :=
  match topologySpec vm ≫= CoresPerSocket with
  | Some n => if 0 <? n then Some n else None
  | None => None
  end.

Definition coresPerSocketField (hwVer : Z) : computeFieldDef :=
  mkField "cpuAdvanced.topology.coresPerSocket" 0 no_prerequisite neverHotPluggable
    (λ vm ci cs,
       let live := default 1 (li_NumCoresPerSocket ci) in
       let class_differs want :=
         match cc_NumCoresPerSocket cs with Some c => negb (c =? want) | None => false end in
       match explicit_cores vm with
       | Some n => if negb (n =? live) then true else class_differs n
       | None =>
         if VMX20 <=? hwVer then
           if negb (default false (li_AutoCoresPerSocket ci)) then true else class_differs 0
         else if 1 <? live then true else class_differs 1
       end)
    (λ vm ci cs,
       match explicit_cores vm with
       | Some n => set_NumCoresPerSocket (Some n) cs
       | None => set_NumCoresPerSocket (Some (if VMX20 <=? hwVer then 0 else 1)) cs
       end).

Definition vnumaDivisibilityBlocked (numCPUs nodeCount coresPerSocket : Z) : option string :=
  if numCPUs <=? 0 then None
  else if negb (Z.rem numCPUs nodeCount =? 0) then Some "numCPUs must be evenly divisible by vnumaNodeCount"
  else
    let coresPerNode := Z.quot numCPUs nodeCount in
    if negb (Z.rem coresPerNode coresPerSocket =? 0) && negb (Z.rem coresPerSocket coresPerNode =? 0)
    then Some "derived coresPerNumaNode must be a multiple or divisor of coresPerSocket"
    else None.

(** The number of CPUs after the reconfiguration. *)
Definition resolved_cpus ci cs : Z := if cc_NumCPUs cs =? 0 then li_NumCPU ci else cc_NumCPUs cs.

Definition set_cores_per_node (n : Z) cs : ComputeChange :=
  set_VirtualNuma
    (Some (mkNuma (Some n) (cc_VirtualNuma cs ≫= ExposeVnumaOnCpuHotadd))) cs.

Definition vnumaNodeCountField : computeFieldDef :=
  mkField "cpuAdvanced.topology.vnumaNodeCount" VMX20
    (λ vm ci cs,
       match topologySpec vm ≫= VNUMANodeCount with
       | None => None
       | Some nodeCount =>
         if nodeCount =? 0 then None
         else match topologySpec vm ≫= CoresPerSocket with
              | None => Some "coresPerSocket must be set to an explicit non-zero value when vnumaNodeCount is set"
              | Some cores =>
                if cores =? 0
                then Some "coresPerSocket must be set to an explicit non-zero value when vnumaNodeCount is set"
                else vnumaDivisibilityBlocked (resolved_cpus ci cs) nodeCount cores
              end
       end)
    neverHotPluggable
    (λ vm ci cs,
       let numCPUs := resolved_cpus ci cs in
       let auto :=
         match li_NumaInfo ci with
         | Some info => if negb (default false (AutoCoresPerNumaNode info)) then true
                        else match cc_VirtualNuma cs ≫= CoresPerNumaNode with Some c => negb (c =? 0) | None => false end
         | None => match cc_VirtualNuma cs ≫= CoresPerNumaNode with Some c => negb (c =? 0) | None => false end
         end in
       match topologySpec vm ≫= VNUMANodeCount with
       | Some nodeCount =>
         if 0 <? nodeCount then
           if 0 <? numCPUs then
             let desired := Z.quot numCPUs nodeCount in
             if negb (desired =? default 0 (li_NumaInfo ci ≫= ni_CoresPerNumaNode)) then true
             else match cc_VirtualNuma cs ≫= CoresPerNumaNode with
                  | Some c => negb (desired =? c)
                  | None => false
                  end
           else true
         else auto
       | None => auto
       end)
    (λ vm ci cs,
       match topologySpec vm ≫= VNUMANodeCount with
       | Some nodeCount =>
         if 0 <? nodeCount then
           if 0 <? resolved_cpus ci cs then set_cores_per_node (Z.quot (resolved_cpus ci cs) nodeCount) cs else cs
         else set_cores_per_node 0 cs
       | None => set_cores_per_node 0 cs
       end).

(** A flag that is off unless it is desired. *)
Definition flag_differs (desired : bool) (live cs : option bool) : bool :=
  negb (Bool.eqb desired (default false live)) ||
  match cs with Some b => negb (Bool.eqb desired b) | None => false end.

Definition cpuHotAddFlagField : computeFieldDef :=
  mkField "cpuAdvanced.hotAddEnabled" VMX11 no_prerequisite neverHotPluggable
    (λ vm ci cs, flag_differs (desiredCPUHotAddEnabled vm) (li_CpuHotAddEnabled ci) (cc_CpuHotAddEnabled cs))
    (λ vm ci cs, set_CpuHotAddEnabled (Some (desiredCPUHotAddEnabled vm)) cs).

Definition set_vvtd (b : bool) (f : FlagInfo) : FlagInfo :=
  mkFlags (CbrcCacheEnabled f) (DisableAcceleration f) (DiskUuidEnabled f) (EnableLogging f) (UseToe f)
    (Some b) (VbsEnabled f) (MonitorType f) (VirtualMmuUsage f) (VirtualExecUsage f).

Definition iommuField : computeFieldDef :=
  mkField "cpuAdvanced.iommuEnabled" 0 no_prerequisite neverHotPluggable
    (λ vm ci cs, flag_differs (desiredIOMMU vm) (li_VvtdEnabled ci) (cc_Flags cs ≫= VvtdEnabled))
    (λ vm ci cs, set_Flags (Some (set_vvtd (desiredIOMMU vm) (default no_flags (cc_Flags cs)))) cs).

Definition nestedHVField : computeFieldDef :=
  mkField "cpuAdvanced.nestedHardwareVirtualizationEnabled" VMX9 no_prerequisite neverHotPluggable
    (λ vm ci cs, flag_differs (desiredNestedHV vm) (li_NestedHVEnabled ci) (cc_NestedHVEnabled cs))
    (λ vm ci cs, set_NestedHVEnabled (Some (desiredNestedHV vm)) cs).

Definition perfCountersField : computeFieldDef :=
  mkField "cpuAdvanced.performanceCountersEnabled" VMX9 no_prerequisite neverHotPluggable
    (λ vm ci cs, flag_differs (desiredPerfCounters vm) (li_VPMCEnabled ci) (cc_VPMCEnabled cs))
    (λ vm ci cs, set_VPMCEnabled (Some (desiredPerfCounters vm)) cs).

Definition memHotAddFlagField : computeFieldDef :=
  mkField "memoryAdvanced.hotAddEnabled" VMX7 no_prerequisite neverHotPluggable
    (λ vm ci cs, flag_differs (desiredMemHotAdd vm) (li_MemoryHotAddEnabled ci) (cc_MemoryHotAddEnabled cs))
    (λ vm ci cs, set_MemoryHotAddEnabled (Some (desiredMemHotAdd vm)) cs).

Definition memReservationLockedField : computeFieldDef :=
  mkField "memoryAdvanced.reservationLockedToMax" 0
    (λ vm ci cs,
       if desiredMemReservationLocked vm then None
       else if RequiresMemoryReservationLock (li_Device ci) (cc_DeviceChange cs)
       then Some "must be true when PCI passthrough or SR-IOV devices are configured" else None)
    alwaysHotPluggable
    (λ vm ci cs,
       if negb (desiredMemReservationLocked vm) && RequiresMemoryReservationLock (li_Device ci) (cc_DeviceChange cs)
       then true
       else flag_differs (desiredMemReservationLocked vm) (li_MemoryReservationLockedToMax ci)
              (cc_MemoryReservationLockedToMax cs))
    (λ vm ci cs, set_MemoryReservationLockedToMax (Some (desiredMemReservationLocked vm)) cs).

Definition computeFields (hwVer : Z) : list computeFieldDef :=
  [cpuSizeField; memorySizeField; cpuAllocationField; memoryAllocationField; latencySensitivityField;
   coresPerSocketField hwVer; vnumaNodeCountField; cpuHotAddFlagField; iommuField; nestedHVField;
   perfCountersField; memHotAddFlagField; memReservationLockedField].

(** ** The loop *)

Record overwrite_state := mkOverwrite {
  ow_cs : ComputeChange;
  ow_blocked : list string;
  ow_blockedPowerOff : list string
}.

(** Why a field that differs is skipped, if it is. *)
Definition field_blocked (hwVer : Z) (f : computeFieldDef) vm ci cs : option string :=
  if (0 <? minHWVer f) && (hwVer <? minHWVer f)
  then Some (fieldName f +:+ " (requires hwVer >= " +:+ format_digits 20 (minHWVer f) "" +:+ ")")
  else match prerequisite f vm ci cs with
       | Some reason => Some (fieldName f +:+ " (" +:+ reason +:+ ")")
       | None => None
       end.

Definition overwrite_field (hwVer : Z) vm ci (poweredOn : bool) (st : overwrite_state) (f : computeFieldDef)
    : overwrite_state :=
  let '(mkOverwrite cs blocked blockedPowerOff) := st in
  if negb (differs f vm ci cs) then st
  else match field_blocked hwVer f vm ci cs with
       | Some msg => mkOverwrite cs (blocked ++ [msg]) blockedPowerOff
       | None =>
         if poweredOn && negb (hotPluggable f vm ci)
         then mkOverwrite cs blocked (blockedPowerOff ++ [fieldName f])
         else mkOverwrite (apply_field f vm ci cs) blocked blockedPowerOff
       end.

Definition OverwriteSpecComputeConfig vm (liveCI : LiveConfig) (poweredOn : bool) cs : overwrite_state :=
  let hwVer := ParseHardwareVersion (li_Version liveCI) in
  foldl (overwrite_field hwVer vm liveCI poweredOn) (mkOverwrite cs [] []) (computeFields hwVer).

(** ** Copying a class into the spec *)

Definition no_quantity : ResourceQuantity Q := mkQuantity None None.
Definition no_resources : ResourcesSpec Q := mkResources None None None.
Definition no_memory_advanced : MemoryAdvancedSpec := mkMemoryAdvanced None None.

Definition set_Resources (r : option (ResourcesSpec Q)) vm : ComputeSpec Q :=
  mkSpec r (CPUAdvanced vm) (MemoryAdvanced vm).
Definition ensureResources vm : ComputeSpec Q := set_Resources (Some (default no_resources (Resources vm))) vm.
Definition ensureSize vm : ComputeSpec Q :=
  let vm := ensureResources vm in
  set_Resources ((λ r, mkResources (Some (default no_quantity (Size r))) (Requests r) (Limits r)) <$> Resources vm) vm.
Definition ensureRequests vm : ComputeSpec Q :=
  let vm := ensureResources vm in
  set_Resources ((λ r, mkResources (Size r) (Some (default no_quantity (Requests r))) (Limits r)) <$> Resources vm) vm.
Definition ensureLimits vm : ComputeSpec Q :=
  let vm := ensureResources vm in
  set_Resources ((λ r, mkResources (Size r) (Requests r) (Some (default no_quantity (Limits r)))) <$> Resources vm) vm.
Definition ensureMemoryAdvanced vm : ComputeSpec Q :=
  mkSpec (Resources vm) (CPUAdvanced vm) (Some (default no_memory_advanced (MemoryAdvanced vm))).

(** Writing through the pointers, where they are not nil. *)
Definition set_size (f : ResourceQuantity Q → ResourceQuantity Q) vm : ComputeSpec Q :=
  set_Resources ((λ r, mkResources (f <$> Size r) (Requests r) (Limits r)) <$> Resources vm) vm.
Definition set_requests (f : ResourceQuantity Q → ResourceQuantity Q) vm : ComputeSpec Q :=
  set_Resources ((λ r, mkResources (Size r) (f <$> Requests r) (Limits r)) <$> Resources vm) vm.
Definition set_limits (f : ResourceQuantity Q → ResourceQuantity Q) vm : ComputeSpec Q :=
  set_Resources ((λ r, mkResources (Size r) (Requests r) (f <$> Limits r)) <$> Resources vm) vm.
Definition with_CPU (x : option Q) (q : ResourceQuantity Q) : ResourceQuantity Q := mkQuantity x (Memory q).
Definition with_Memory (x : option Q) (q : ResourceQuantity Q) : ResourceQuantity Q := mkQuantity (CPU q) x.

(** [n * 1024 * 1024] in 64 bits. *)
Definition of_mebibytes (n : Z) : Z := wrap64 (wrap64 (n * 1024) * 1024).

Definition syncClassSizeToSpec vm cs : ComputeSpec Q :=
  let vm := if 0 <? cc_NumCPUs cs
            then set_size (with_CPU (Some (NewQuantity (cc_NumCPUs cs)))) (ensureSize vm) else vm in
  if 0 <? cc_MemoryMB cs
  then set_size (with_Memory (Some (NewQuantity (of_mebibytes (cc_MemoryMB cs))))) (ensureSize vm) else vm.

(** The reservation and the limit of an allocation, into the fields that [put]
    writes, as quantities of [scale]. *)
Definition sync_allocation (put : option Q → ResourceQuantity Q → ResourceQuantity Q) (scale : Z → Z)
    (a : option ResourceAllocationInfo) vm : ComputeSpec Q :=
  match a with
  | None => vm
  | Some a =>
    let vm := match ra_Reservation a with
              | None => vm
              | Some res => if 0 <? res then set_requests (put (Some (NewQuantity (scale res)))) (ensureRequests vm)
                            else set_requests (put None) vm
              end in
    match ra_Limit a with
    | None => vm
    | Some lim => if 0 <? lim then set_limits (put (Some (NewQuantity (scale lim)))) (ensureLimits vm)
                  else if lim <? 0 then set_limits (put None) vm else vm
    end
  end.

Definition syncClassAllocationToSpec vm cs : ComputeSpec Q :=
  let vm := sync_allocation with_CPU id (cc_CpuAllocation cs) vm in
  sync_allocation with_Memory of_mebibytes (cc_MemoryAllocation cs) vm.

Definition syncClassMemoryReservationLockToSpec vm cs : ComputeSpec Q :=
  match cc_MemoryReservationLockedToMax cs with
  | None => vm
  | Some v =>
    let vm := ensureMemoryAdvanced vm in
    mkSpec (Resources vm) (CPUAdvanced vm)
      ((λ m, mkMemoryAdvanced (ma_HotAddEnabled m) (Some v)) <$> MemoryAdvanced vm)
  end.

Definition SyncClassSizeAndAllocationToSpec vm (classCS : ComputeChange) : ComputeSpec Q :=
  syncClassMemoryReservationLockToSpec
    (syncClassAllocationToSpec (syncClassSizeToSpec vm classCS) classCS) classCS.
End Compute.
