(* ===== verification/ComputeResults.v ===== *)
(** * Compute settings settle

    Theorems on [Compute]: a powered-off VM that was reconfigured with the
    overwritten ConfigSpec has the compute settings of its spec, but for those
    that are reported as blocked; a powered-on VM is changed only where it can be
    while it runs; and after a resize the class decides the settings. *)

From S2P Require Import Prelude Resize ResizeResults Compute.
Local Open Scope Z_scope.

(** ** What a reconfiguration promises *)

Definition limit_applied (old new res : option ResourceAllocationInfo) : Prop :=
  (allocation_values res).2 = default (allocation_values old).2 (new ≫= ra_Limit).
Definition reservation_applied (old new res : option ResourceAllocationInfo) : Prop :=
  (allocation_values res).1 = default (allocation_values old).1 (new ≫= ra_Reservation).

(** [ci'] is [ci] reconfigured with [cs]: what is set gets its value.  While the
    memory reservation is locked, vSphere sets it.  Zero cores per socket mean
    automatic sockets; zero cores per NUMA node, automatic nodes. *)
Record compute_applied (ci : LiveConfig) (cs : ComputeChange) (ci' : LiveConfig) : Prop := {
  ca_Version : li_Version ci' = li_Version ci;
  ca_NumCPU : li_NumCPU ci' = updated (li_NumCPU ci) (cc_NumCPUs cs);
  ca_MemoryMB : li_MemoryMB ci' = updated (li_MemoryMB ci) (cc_MemoryMB cs);
  ca_CpuHotAdd : li_CpuHotAddEnabled ci' = updated (li_CpuHotAddEnabled ci) (cc_CpuHotAddEnabled cs);
  ca_MemoryHotAdd : li_MemoryHotAddEnabled ci' = updated (li_MemoryHotAddEnabled ci) (cc_MemoryHotAddEnabled cs);
  ca_CpuReservation : reservation_applied (li_CpuAllocation ci) (cc_CpuAllocation cs) (li_CpuAllocation ci');
  ca_CpuLimit : limit_applied (li_CpuAllocation ci) (cc_CpuAllocation cs) (li_CpuAllocation ci');
  ca_MemoryReservation : default false (li_MemoryReservationLockedToMax ci') = false →
    reservation_applied (li_MemoryAllocation ci) (cc_MemoryAllocation cs) (li_MemoryAllocation ci');
  ca_MemoryLimit : limit_applied (li_MemoryAllocation ci) (cc_MemoryAllocation cs) (li_MemoryAllocation ci');
  ca_Latency : from_option ls_Level LevelNormal (li_LatencySensitivity ci') =
    match cc_LatencySensitivity cs with
    | Some l => ls_Level l
    | None => from_option ls_Level LevelNormal (li_LatencySensitivity ci)
    end;
  ca_Threads : li_SimultaneousThreads ci' = updated (li_SimultaneousThreads ci) (cc_SimultaneousThreads cs);
  ca_Cores : match cc_NumCoresPerSocket cs with
    | None => li_NumCoresPerSocket ci' = li_NumCoresPerSocket ci ∧ li_AutoCoresPerSocket ci' = li_AutoCoresPerSocket ci
    | Some n => if n =? 0 then li_AutoCoresPerSocket ci' = Some true else li_NumCoresPerSocket ci' = Some n
    end;
  ca_Numa : numa_applied (li_NumaInfo ci) (cc_VirtualNuma cs) (li_NumaInfo ci');
  ca_Vvtd : li_VvtdEnabled ci' = updated (li_VvtdEnabled ci) (cc_Flags cs ≫= VvtdEnabled);
  ca_NestedHV : li_NestedHVEnabled ci' = updated (li_NestedHVEnabled ci) (cc_NestedHVEnabled cs);
  ca_VPMC : li_VPMCEnabled ci' = updated (li_VPMCEnabled ci) (cc_VPMCEnabled cs);
  ca_Lock : li_MemoryReservationLockedToMax ci' =
    updated (li_MemoryReservationLockedToMax ci) (cc_MemoryReservationLockedToMax cs);
  ca_Device : RequiresMemoryReservationLock (li_Device ci') [] =
    RequiresMemoryReservationLock (li_Device ci) (cc_DeviceChange cs)
}.

Definition no_change : ComputeChange :=
  mkCompute 0 0 None None None 0 None None None None None None None None [].

Section Compute.
Context {Q : Type} `{Quantity Q} (parse : string → Z).
Implicit Types (vm : ComputeSpec Q) (ci : LiveConfig) (cs : ComputeChange).

(** ** One step of the loop *)

Section Loop.
Context (hw : Z) vm ci (p : bool).
Abbreviation step := (overwrite_field hw vm ci p).
Abbreviation start cs := (mkOverwrite cs [] []).

(** The part [π] of the changes is not touched by a field. *)
Definition preserves {A} (π : ComputeChange → A) (f : computeFieldDef) : Prop :=
  ∀ cs, π (apply_field f vm ci cs) = π cs.

(** A field reads and writes only the part [π]. *)
Definition local {A} (π : ComputeChange → A) (f : computeFieldDef) : Prop :=
  ∀ cs cs', π cs = π cs' →
    differs f vm ci cs = differs f vm ci cs' ∧ field_blocked hw f vm ci cs = field_blocked hw f vm ci cs' ∧
    π (apply_field f vm ci cs) = π (apply_field f vm ci cs').

Lemma step_preserves {A} (π : ComputeChange → A) f st : preserves π f → π (ow_cs (step st f)) = π (ow_cs st).
Proof.
  intros Hp. destruct st as [cs b o]. cbn [overwrite_field]. destruct (differs f vm ci cs); [|done].
  cbn [negb]. destruct (field_blocked hw f vm ci cs); [done|]. destruct (p && negb (hotPluggable f vm ci)); [done|].
  apply Hp.
Qed.

Lemma foldl_preserves {A} (π : ComputeChange → A) fs st :
  Forall (preserves π) fs → π (ow_cs (foldl step st fs)) = π (ow_cs st).
Proof. intros Hfs. revert st. induction Hfs as [|f fs Hf _ IH]; intros st; [done|]. cbn. rewrite IH. by apply step_preserves. Qed.

Lemma step_local {A} (π : ComputeChange → A) f st st' :
  local π f → π (ow_cs st) = π (ow_cs st') → π (ow_cs (step st f)) = π (ow_cs (step st' f)).
Proof.
  intros Hl Hst. destruct st as [cs b o], st' as [cs' b' o']. cbn [ow_cs] in Hst.
  destruct (Hl cs cs' Hst) as (Hd & Hb & Ha). cbn [overwrite_field]. rewrite Hd, Hb.
  destruct (negb (differs f vm ci cs')); [done|]. destruct (field_blocked hw f vm ci cs'); [done|].
  by destruct (p && negb (hotPluggable f vm ci)).
Qed.

(** What the whole loop leaves of the part of one field is what its step leaves. *)
Lemma loop_at {A} (π : ComputeChange → A) l1 f l2 cs :
  Forall (preserves π) l1 → Forall (preserves π) l2 → local π f →
  π (ow_cs (foldl step (start cs) (l1 ++ f :: l2))) = π (ow_cs (step (start cs) f)).
Proof.
  intros H1 H2 Hl. rewrite foldl_app. cbn [foldl]. rewrite foldl_preserves by done.
  apply step_local; [done|]. by rewrite foldl_preserves.
Qed.
End Loop.

(** ** Powered-off VMs *)

Section Off.
Context (hw : Z) vm ci cs.
Abbreviation step f := (ow_cs (overwrite_field hw vm ci false (mkOverwrite cs [] []) f)).

Lemma off_step f :
  step f = if differs f vm ci cs then match field_blocked hw f vm ci cs with
             | Some _ => cs | None => apply_field f vm ci cs end else cs.
Proof.
  cbn [overwrite_field]. destruct (differs f vm ci cs); [|done]. cbn [negb andb].
  by destruct (field_blocked hw f vm ci cs).
Qed.

Lemma updated_Z (a b : Z) : updated a b = if b =? 0 then a else b.
Proof. unfold updated, zero, Z_zero. case_bool_decide; case (Z.eqb_spec b 0); congruence. Qed.

(** Without a prerequisite and a hardware version, a field is not blocked. *)
Lemma never_blocked f cs' ci' : minHWVer f = 0 → prerequisite f vm ci' cs' = None → field_blocked hw f vm ci' cs' = None.
Proof. intros Hm Hp. unfold field_blocked. by rewrite Hm, Hp. Qed.

Lemma cpu_size_settles ci' :
  (∀ q, size_cpu vm = Some q → 0 < wrap32 (Value q)) →
  li_NumCPU ci' = updated (li_NumCPU ci) (cc_NumCPUs (step cpuSizeField)) →
  differs cpuSizeField vm ci' no_change = false.
Proof.
  intros Hpos. rewrite off_step, never_blocked, updated_Z by done. cbn [differs cpuSizeField apply_field no_change cc_NumCPUs].
  destruct (size_cpu vm) as [q|]; [|done]. specialize (Hpos q eq_refl).
  set (n := wrap32 (Value q)) in *. cbn [Z.eqb negb andb]. rewrite orb_false_r.
  intros ->. apply negb_false_iff, Z.eqb_eq.
  destruct (n =? li_NumCPU ci) eqn:E1, (cc_NumCPUs cs =? 0) eqn:E2, (n =? cc_NumCPUs cs) eqn:E3;
    cbn [negb andb orb cc_NumCPUs set_NumCPUs]; rewrite ?E2; try destruct (n =? 0) eqn:E4; bool_to_prop; lia.
Qed.

Lemma memory_size_settles ci' :
  (∀ q, size_memory vm = Some q → mebibytes q ≠ 0) →
  li_MemoryMB ci' = updated (li_MemoryMB ci) (cc_MemoryMB (step memorySizeField)) →
  differs memorySizeField vm ci' no_change = false.
Proof.
  intros Hpos. rewrite off_step, never_blocked, updated_Z by done.
  cbn [differs memorySizeField apply_field no_change cc_MemoryMB].
  destruct (size_memory vm) as [q|]; [|done]. specialize (Hpos q eq_refl).
  set (n := mebibytes q) in *. cbn [Z.eqb negb andb]. rewrite orb_false_r.
  intros ->. apply negb_false_iff, Z.eqb_eq.
  destruct (n =? li_MemoryMB ci) eqn:E1, (cc_MemoryMB cs =? 0) eqn:E2, (n =? cc_MemoryMB cs) eqn:E3;
    cbn [negb andb orb cc_MemoryMB set_MemoryMB]; rewrite ?E2; try destruct (n =? 0) eqn:E4; bool_to_prop; lia.
Qed.

(** The values of the allocation that results from [old], changed by the field to
    the values [d] where they differ. *)
Lemma cpu_allocation_settles ci' :
  let new := cc_CpuAllocation (step cpuAllocationField) in
  reservation_applied (li_CpuAllocation ci) new (li_CpuAllocation ci') →
  limit_applied (li_CpuAllocation ci) new (li_CpuAllocation ci') →
  differs cpuAllocationField vm ci' no_change = false.
Proof.
  cbn zeta. rewrite off_step, never_blocked by done. unfold reservation_applied, limit_applied.
  cbn [differs cpuAllocationField apply_field no_change cc_CpuAllocation].
  destruct (desiredCPUAllocation vm) as [res lim]. intros Hr Hl.
  rewrite bool_decide_eq_false_2; [done|]. intros Hne. apply Hne.
  rewrite (surjective_pairing (allocation_values (li_CpuAllocation ci'))), Hr, Hl.
  case_bool_decide as E1; [done|]. rewrite <-E1 in *. cbn [fst snd] in *.
  destruct (cc_CpuAllocation cs) as [a|] eqn:Ea; [|by rewrite Ea].
  case_bool_decide as E2; [done|]. rewrite Ea. injection E2 as -> ->. unfold allocation_values. cbn.
  by destruct (ra_Reservation a), (ra_Limit a).
Qed.

Lemma memory_allocation_settles ci' :
  let new := cc_MemoryAllocation (step memoryAllocationField) in
  (desiredMemReservationLocked vm = false → reservation_applied (li_MemoryAllocation ci) new (li_MemoryAllocation ci')) →
  limit_applied (li_MemoryAllocation ci) new (li_MemoryAllocation ci') →
  differs memoryAllocationField vm ci' no_change = false.
Proof.
  cbn zeta. rewrite off_step, never_blocked by done. unfold reservation_applied, limit_applied.
  cbn [differs memoryAllocationField apply_field no_change cc_MemoryAllocation].
  destruct (desiredMemoryAllocation vm) as [res lim]. cbn [fst snd].
  destruct (desiredMemReservationLocked vm) eqn:Hlock; intros Hr Hl.
  - assert (lim = (allocation_values (li_MemoryAllocation ci')).2) as <-; [|by rewrite Z.eqb_refl].
    rewrite Hl. destruct (lim =? (allocation_values (li_MemoryAllocation ci)).2) eqn:E1; cbn [negb]; [|done].
    apply Z.eqb_eq in E1. destruct (cc_MemoryAllocation cs) as [a|] eqn:Ea; [|by rewrite Ea].
    destruct (lim =? (allocation_values (Some a)).2) eqn:E2; cbn [negb]; [|done].
    apply Z.eqb_eq in E2. rewrite Ea. unfold allocation_values in E2. cbn in E2 |- *. by destruct (ra_Limit a).
  - specialize (Hr eq_refl). rewrite bool_decide_eq_false_2; [done|]. intros Hne. apply Hne.
    rewrite (surjective_pairing (allocation_values (li_MemoryAllocation ci'))), Hr, Hl.
    case_bool_decide as E1; [done|]. rewrite <-E1 in *. cbn [fst snd] in *.
    destruct (cc_MemoryAllocation cs) as [a|] eqn:Ea; [|by rewrite Ea].
    case_bool_decide as E2; [done|]. rewrite Ea. injection E2 as -> ->. unfold allocation_values. cbn.
    by destruct (ra_Reservation a), (ra_Limit a).
Qed.

Lemma latency_settles ci' :
  cc_SimultaneousThreads cs = 0 →
  from_option ls_Level LevelNormal (li_LatencySensitivity ci') =
    match cc_LatencySensitivity (step latencySensitivityField) with
    | Some l => ls_Level l
    | None => from_option ls_Level LevelNormal (li_LatencySensitivity ci)
    end →
  li_SimultaneousThreads ci' =
    updated (li_SimultaneousThreads ci) (cc_SimultaneousThreads (step latencySensitivityField)) →
  differs latencySensitivityField vm ci' no_change = true →
  is_Some (field_blocked hw latencySensitivityField vm ci' no_change).
Proof.
  intros Hcs. rewrite off_step, updated_Z.
  assert (field_blocked hw latencySensitivityField vm ci cs =
          field_blocked hw latencySensitivityField vm ci' no_change) as -> by done.
  destruct (field_blocked hw latencySensitivityField vm ci' no_change); [by eauto|].
  cbn [differs latencySensitivityField apply_field no_change cc_LatencySensitivity].
  assert ((desiredLatencySensitivity vm).2 = 0 ∨ (desiredLatencySensitivity vm).2 = 2) as Ht.
  { unfold desiredLatencySensitivity. repeat case_match; auto. }
  destruct (desiredLatencySensitivity vm) as [level threads]. cbn [snd] in Ht.
  intros Hl Hs. rewrite Hl, Hs.
  destruct Ht as [-> | ->]; cbn [Z.ltb Z.eqb andb negb Z.compare] in *;
    repeat (first [rewrite Hcs | case_bool_decide | case_match]; cbn in *; simplify_eq; try done);
    bool_to_prop; lia.
Qed.

Lemma cores_settles ci' :
  match cc_NumCoresPerSocket (step (coresPerSocketField hw)) with
  | None => li_NumCoresPerSocket ci' = li_NumCoresPerSocket ci ∧ li_AutoCoresPerSocket ci' = li_AutoCoresPerSocket ci
  | Some n => if n =? 0 then li_AutoCoresPerSocket ci' = Some true else li_NumCoresPerSocket ci' = Some n
  end →
  differs (coresPerSocketField hw) vm ci' no_change = false.
Proof.
  rewrite off_step, never_blocked by done.
  cbn [differs coresPerSocketField apply_field no_change cc_NumCoresPerSocket].
  assert (∀ n, explicit_cores vm = Some n → 0 < n) as Hpos.
  { intros n. unfold explicit_cores. repeat case_match; intros; simplify_eq. bool_to_prop. lia. }
  destruct (explicit_cores vm) as [n|].
  - specialize (Hpos n eq_refl). assert ((n =? 0) = false) as Hn by (apply Z.eqb_neq; lia).
    intros Hcores. apply not_true_iff_false. intros Hd.
    assert (default 1 (li_NumCoresPerSocket ci') = n) as Hlive; [|by rewrite Hlive, Z.eqb_refl in Hd].
    revert Hcores. destruct (n =? default 1 (li_NumCoresPerSocket ci)) eqn:E1; cbn [negb].
    + apply Z.eqb_eq in E1. destruct (cc_NumCoresPerSocket cs) as [c|] eqn:Ec.
      * destruct (c =? n) eqn:E2; cbn [negb set_NumCoresPerSocket cc_NumCoresPerSocket].
        -- apply Z.eqb_eq in E2 as ->. rewrite Ec, Hn. by intros ->.
        -- rewrite Hn. by intros ->.
      * rewrite Ec. by intros [-> _].
    + cbn [set_NumCoresPerSocket cc_NumCoresPerSocket]. rewrite Hn. by intros ->.
  - destruct (VMX20 <=? hw).
    + intros Hcores. apply not_true_iff_false. intros Hd.
      assert (li_AutoCoresPerSocket ci' = Some true) as Hauto; [|by rewrite Hauto in Hd].
      revert Hcores. destruct (li_AutoCoresPerSocket ci) as [[]|] eqn:E1; cbn -[Z.eqb]; try done.
      destruct (cc_NumCoresPerSocket cs) as [c|] eqn:Ec; [|rewrite Ec; by intros [_ ->]].
      destruct (c =? 0) eqn:E2; cbn -[Z.eqb]; [|done]. by rewrite Ec, E2.
    + intros Hcores. apply not_true_iff_false. intros Hd.
      assert (default 1 (li_NumCoresPerSocket ci') <= 1) as Hlive.
      { revert Hcores. destruct (1 <? default 1 (li_NumCoresPerSocket ci)) eqn:E1; cbn -[Z.eqb Z.ltb default].
        - intros ->. done.
        - apply Z.ltb_ge in E1. destruct (cc_NumCoresPerSocket cs) as [c|] eqn:Ec; [|rewrite Ec; by intros [-> _]].
          destruct (c =? 1) eqn:E2; cbn -[Z.eqb]; [|by intros ->].
          apply Z.eqb_eq in E2 as ->. rewrite Ec. by intros ->. }
      destruct (1 <? default 1 (li_NumCoresPerSocket ci')) eqn:E; [|done]. bool_to_prop. lia.
Qed.

(** The number of nodes that is set. *)
Definition explicit_nodes : option Z :=
  match topologySpec vm ≫= VNUMANodeCount with
  | Some n => if 0 <? n then Some n else None
  | None => None
  end.

Lemma vnuma_differs ci0 cs0 :
  0 < resolved_cpus ci0 cs0 →
  differs vnumaNodeCountField vm ci0 cs0 =
  match explicit_nodes with
  | Some n => negb (Z.quot (resolved_cpus ci0 cs0) n =? default 0 (li_NumaInfo ci0 ≫= ni_CoresPerNumaNode)) ||
      match cc_VirtualNuma cs0 ≫= CoresPerNumaNode with
      | Some c => negb (Z.quot (resolved_cpus ci0 cs0) n =? c) | None => false end
  | None => (match li_NumaInfo ci0 with Some i => negb (default false (AutoCoresPerNumaNode i)) | None => false end) ||
      match cc_VirtualNuma cs0 ≫= CoresPerNumaNode with Some c => negb (c =? 0) | None => false end
  end.
Proof.
  intros Hpos. cbn [differs vnumaNodeCountField]. unfold explicit_nodes.
  rewrite (proj2 (Z.ltb_lt 0 (resolved_cpus ci0 cs0))) by done.
  destruct (topologySpec vm ≫= VNUMANodeCount) as [n|]; [destruct (0 <? n)|]; repeat case_match; done.
Qed.

Lemma vnuma_apply ci0 cs0 :
  0 < resolved_cpus ci0 cs0 →
  cc_VirtualNuma (apply_field vnumaNodeCountField vm ci0 cs0) =
  Some (mkNuma (Some (match explicit_nodes with Some n => Z.quot (resolved_cpus ci0 cs0) n | None => 0 end))
          (cc_VirtualNuma cs0 ≫= ExposeVnumaOnCpuHotadd)).
Proof.
  intros Hpos. cbn [apply_field vnumaNodeCountField]. unfold explicit_nodes.
  rewrite (proj2 (Z.ltb_lt 0 (resolved_cpus ci0 cs0))) by done.
  destruct (topologySpec vm ≫= VNUMANodeCount) as [n|]; [destruct (0 <? n)|]; done.
Qed.

(** Where the topology is not blocked, the nodes have at least one core. *)
Lemma vnuma_positive ci0 cs0 n :
  0 < resolved_cpus ci0 cs0 → explicit_nodes = Some n → field_blocked hw vnumaNodeCountField vm ci0 cs0 = None →
  0 < Z.quot (resolved_cpus ci0 cs0) n.
Proof.
  intros Hpos Hn. unfold explicit_nodes in Hn. unfold field_blocked.
  destruct (_ && _); [done|]. cbn [prerequisite vnumaNodeCountField].
  destruct (topologySpec vm ≫= VNUMANodeCount) as [n'|]; [|done].
  destruct (0 <? n') eqn:E; [|done]. injection Hn as ->. apply Z.ltb_lt in E.
  rewrite (proj2 (Z.eqb_neq n 0)) by lia.
  destruct (topologySpec vm ≫= CoresPerSocket) as [c|]; [|done]. destruct (c =? 0); [done|].
  unfold vnumaDivisibilityBlocked. rewrite (proj2 (Z.leb_gt _ _)) by lia.
  destruct (Z.rem (resolved_cpus ci0 cs0) n =? 0) eqn:Er; [|done]. intros _. apply Z.eqb_eq in Er.
  pose proof (Z.quot_rem' (resolved_cpus ci0 cs0) n). nia.
Qed.

Lemma vnuma_settles ci' :
  0 < resolved_cpus ci cs → (li_NumaInfo ci = None → cc_VirtualNuma cs = None) →
  li_NumCPU ci' = resolved_cpus ci cs →
  numa_applied (li_NumaInfo ci) (cc_VirtualNuma (step vnumaNodeCountField)) (li_NumaInfo ci') →
  differs vnumaNodeCountField vm ci' no_change = true →
  is_Some (field_blocked hw vnumaNodeCountField vm ci' no_change).
Proof.
  intros Hpos Hnone Hcpu. rewrite off_step.
  assert (resolved_cpus ci' no_change = resolved_cpus ci cs) as Hres by done.
  assert (field_blocked hw vnumaNodeCountField vm ci cs =
          field_blocked hw vnumaNodeCountField vm ci' no_change) as Hb.
  { unfold field_blocked. cbn [prerequisite vnumaNodeCountField]. by rewrite Hres. }
  rewrite Hb. destruct (field_blocked hw vnumaNodeCountField vm ci' no_change) eqn:Hb'; [by eauto|].
  rewrite (vnuma_differs ci'), Hres by (by rewrite Hres). rewrite vnuma_differs by done.
  pose proof (λ n E, vnuma_positive ci cs n Hpos E Hb) as Hcores. intros Happ Hd. exfalso. revert Happ Hd.
  cbn [no_change cc_VirtualNuma mbind option_bind]. rewrite orb_false_r.
  destruct explicit_nodes as [n|] eqn:En.
  - specialize (Hcores n eq_refl). set (c := Z.quot (resolved_cpus ci cs) n) in *.
    assert ((c =? 0) = false) as Hc0 by (apply Z.eqb_neq; lia).
    destruct (_ || _) eqn:E.
    + rewrite vnuma_apply, En by done. fold c. cbn [numa_applied CoresPerNumaNode]. rewrite Hc0.
      intros (r & -> & _ & _ & Hr). cbn. by rewrite Hr, Z.eqb_refl.
    + apply orb_false_iff in E as [E1 E2]. apply negb_false_iff, Z.eqb_eq in E1.
      destruct (cc_VirtualNuma cs) as [v|]; cbn [numa_applied]; [|intros ->; by rewrite <-E1, Z.eqb_refl].
      intros (r & -> & _ & Hr). cbn in *. destruct (CoresPerNumaNode v) as [c'|].
      * apply negb_false_iff, Z.eqb_eq in E2 as <-. rewrite Hc0 in Hr. destruct Hr as [_ ->]. cbn. by rewrite Z.eqb_refl.
      * destruct Hr as [_ ->]. by rewrite <-E1, Z.eqb_refl.
  - destruct (_ || _) eqn:E.
    + rewrite vnuma_apply, En by done. cbn. by intros (r & -> & _ & ->).
    + apply orb_false_iff in E as [E1 E2]. destruct (cc_VirtualNuma cs) as [v|]; cbn [numa_applied];
        [|intros ->; by rewrite E1].
      intros (r & -> & _ & Hr). cbn in E2. destruct (CoresPerNumaNode v) as [c'|].
      * apply negb_false_iff in E2. rewrite E2 in Hr. by rewrite Hr.
      * destruct Hr as [-> _]. destruct (li_NumaInfo ci) as [i|]; [cbn [mbind option_bind]; by rewrite E1|].
        by specialize (Hnone eq_refl).
Qed.

Lemma flag_settles d live c (blocked : option string) :
  blocked = None →
  flag_differs d
    (updated live (if flag_differs d live c then match blocked with Some _ => c | None => Some d end else c)) None = false.
Proof.
  intros ->. unfold updated, zero, option_zero. destruct d, live as [[]|], c as [[]|]; done.
Qed.
End Off.

(** ** The whole loop *)

(** A VM has CPUs, the sizes in the spec are at least one CPU and one mebibyte,
    the spec asks for the memory lock that the devices need, the class leaves the
    number of threads open, and a virtual NUMA request is made only where the VM
    reports its NUMA nodes. *)
Record settled_spec vm ci cs : Prop := {
  sp_CPUs : 0 < li_NumCPU ci ∧ 0 ≤ cc_NumCPUs cs;
  sp_Size : ∀ q, size_cpu vm = Some q → 0 < wrap32 (Value q);
  sp_Memory : ∀ q, size_memory vm = Some q → mebibytes q ≠ 0;
  sp_Lock : desiredMemReservationLocked vm = true ∨
    RequiresMemoryReservationLock (li_Device ci) (cc_DeviceChange cs) = false;
  sp_Threads : cc_SimultaneousThreads cs = 0;
  sp_Numa : li_NumaInfo ci = None → cc_VirtualNuma cs = None
}.

#[local] Ltac solve_preserves :=
  repeat (apply Forall_cons; split; [intros ?; cbn; repeat case_match; reflexivity|]); apply Forall_nil; exact I.

(* The equation of the parts is used on both of a pair. *)
#[local] Ltac solve_local :=
  let x := fresh in let y := fresh in let E := fresh in let E' := fresh in
  intros x y E; unfold field_blocked; cbn in E |- *;
  try (injection E as E E'; rewrite ?E');
  rewrite ?E; split_and!; repeat case_match; cbn; congruence.

Section Whole.
Context vm ci cs.
Abbreviation hw := (parse (li_Version ci)).
Abbreviation final := (ow_cs (OverwriteSpecComputeConfig parse vm ci false cs)).
Abbreviation step f := (ow_cs (overwrite_field hw vm ci false (mkOverwrite cs [] []) f)).

Lemma final_NumCPUs : cc_NumCPUs final = cc_NumCPUs (step cpuSizeField).
Proof.
  apply (loop_at hw vm ci false cc_NumCPUs (take 0 (computeFields hw)) cpuSizeField (drop 1 (computeFields hw)));
    [solve_preserves..|solve_local].
Qed.

Lemma final_MemoryMB : cc_MemoryMB final = cc_MemoryMB (step memorySizeField).
Proof.
  apply (loop_at hw vm ci false cc_MemoryMB (take 1 (computeFields hw)) memorySizeField (drop 2 (computeFields hw)));
    [solve_preserves..|solve_local].
Qed.

Lemma final_CpuAllocation : cc_CpuAllocation final = cc_CpuAllocation (step cpuAllocationField).
Proof.
  apply (loop_at hw vm ci false cc_CpuAllocation (take 2 (computeFields hw)) cpuAllocationField (drop 3 (computeFields hw)));
    [solve_preserves..|solve_local].
Qed.

Lemma final_MemoryAllocation : cc_MemoryAllocation final = cc_MemoryAllocation (step memoryAllocationField).
Proof.
  apply (loop_at hw vm ci false cc_MemoryAllocation (take 3 (computeFields hw)) memoryAllocationField (drop 4 (computeFields hw)));
    [solve_preserves..|solve_local].
Qed.

Lemma final_latency : (λ cs, (cc_LatencySensitivity cs, cc_SimultaneousThreads cs)) final = (λ cs, (cc_LatencySensitivity cs, cc_SimultaneousThreads cs)) (step latencySensitivityField).
Proof.
  apply (loop_at hw vm ci false (λ cs, (cc_LatencySensitivity cs, cc_SimultaneousThreads cs)) (take 4 (computeFields hw)) latencySensitivityField (drop 5 (computeFields hw)));
    [solve_preserves..|solve_local].
Qed.

Lemma final_cores : cc_NumCoresPerSocket final = cc_NumCoresPerSocket (step (coresPerSocketField hw)).
Proof.
  apply (loop_at hw vm ci false cc_NumCoresPerSocket (take 5 (computeFields hw)) (coresPerSocketField hw) (drop 6 (computeFields hw)));
    [solve_preserves..|solve_local].
Qed.

Lemma final_CpuHotAdd : cc_CpuHotAddEnabled final = cc_CpuHotAddEnabled (step cpuHotAddFlagField).
Proof.
  apply (loop_at hw vm ci false cc_CpuHotAddEnabled (take 7 (computeFields hw)) cpuHotAddFlagField (drop 8 (computeFields hw)));
    [solve_preserves..|solve_local].
Qed.

Lemma final_Flags : cc_Flags final = cc_Flags (step iommuField).
Proof.
  apply (loop_at hw vm ci false cc_Flags (take 8 (computeFields hw)) iommuField (drop 9 (computeFields hw)));
    [solve_preserves..|solve_local].
Qed.

Lemma final_NestedHV : cc_NestedHVEnabled final = cc_NestedHVEnabled (step nestedHVField).
Proof.
  apply (loop_at hw vm ci false cc_NestedHVEnabled (take 9 (computeFields hw)) nestedHVField (drop 10 (computeFields hw)));
    [solve_preserves..|solve_local].
Qed.

Lemma final_VPMC : cc_VPMCEnabled final = cc_VPMCEnabled (step perfCountersField).
Proof.
  apply (loop_at hw vm ci false cc_VPMCEnabled (take 10 (computeFields hw)) perfCountersField (drop 11 (computeFields hw)));
    [solve_preserves..|solve_local].
Qed.

Lemma final_MemoryHotAdd : cc_MemoryHotAddEnabled final = cc_MemoryHotAddEnabled (step memHotAddFlagField).
Proof.
  apply (loop_at hw vm ci false cc_MemoryHotAddEnabled (take 11 (computeFields hw)) memHotAddFlagField (drop 12 (computeFields hw)));
    [solve_preserves..|solve_local].
Qed.

Lemma final_Lock : (λ cs, (cc_MemoryReservationLockedToMax cs, cc_DeviceChange cs)) final = (λ cs, (cc_MemoryReservationLockedToMax cs, cc_DeviceChange cs)) (step memReservationLockedField).
Proof.
  apply (loop_at hw vm ci false (λ cs, (cc_MemoryReservationLockedToMax cs, cc_DeviceChange cs)) (take 12 (computeFields hw)) memReservationLockedField (drop 13 (computeFields hw)));
    [solve_preserves..|solve_local].
Qed.

(** The NUMA nodes are computed with the CPUs that result. *)
Lemma final_Numa :
  cc_VirtualNuma final =
  cc_VirtualNuma (ow_cs (overwrite_field hw vm ci false
    (mkOverwrite (set_NumCPUs (cc_NumCPUs final) cs) [] []) vnumaNodeCountField)).
Proof.
  set (st := foldl (overwrite_field hw vm ci false) (mkOverwrite cs [] []) (take 6 (computeFields hw))).
  assert (ow_cs (OverwriteSpecComputeConfig parse vm ci false cs) =
    ow_cs (foldl (overwrite_field hw vm ci false) (overwrite_field hw vm ci false st vnumaNodeCountField)
             (drop 7 (computeFields hw)))) as -> by done.
  rewrite !(foldl_preserves hw vm ci false _ (drop 7 _)) by solve_preserves.
  refine (f_equal snd (step_local hw vm ci false (λ cs, (cc_NumCPUs cs, cc_VirtualNuma cs)) _ _ _ _ _)).
  - intros x y [= E E']. unfold field_blocked. cbn [prerequisite differs vnumaNodeCountField minHWVer fieldName apply_field].
    assert (resolved_cpus ci x = resolved_cpus ci y) as -> by (unfold resolved_cpus; by rewrite E).
    rewrite E'. split_and!; [done..|]. repeat case_match; cbn; congruence.
  - cbn [ow_cs set_NumCPUs cc_NumCPUs cc_VirtualNuma]. f_equal.
    + symmetry. apply step_preserves. intros ?. cbn. repeat case_match; reflexivity.
    + apply (foldl_preserves hw vm ci false cc_VirtualNuma (take 6 (computeFields hw))). solve_preserves.
Qed.

Lemma flag_field_settles (f : computeFieldDef) (π : ComputeChange → option bool) (live live' : option bool) (d : bool) ci' :
  (∀ cs0, differs f vm ci cs0 = flag_differs d live (π cs0)) → (∀ cs0, π (apply_field f vm ci cs0) = Some d) →
  differs f vm ci' no_change = flag_differs d live' None →
  field_blocked hw f vm ci cs = field_blocked hw f vm ci' no_change →
  live' = updated live (π (step f)) →
  differs f vm ci' no_change = true → is_Some (field_blocked hw f vm ci' no_change).
Proof.
  intros Hd Ha Hd' Hb -> Htrue. destruct (field_blocked hw f vm ci' no_change) eqn:E; [by eauto|].
  rewrite Hd', off_step, Hd, Hb in Htrue. exfalso. apply diff_true_false. rewrite <-Htrue.
  rewrite <-(flag_settles d live (π cs) None eq_refl). f_equal. f_equal.
  destruct (flag_differs d live (π cs)); [apply Ha|done].
Qed.

Lemma final_cpus_nonneg : settled_spec vm ci cs → 0 ≤ cc_NumCPUs final.
Proof.
  intros [[_ Hcs] Hsize _ _ _ _]. rewrite final_NumCPUs, off_step. destruct (differs _ _ _ _); [|done].
  destruct (field_blocked _ _ _ _ _); [done|]. cbn [cpuSizeField apply_field].
  destruct (size_cpu vm) as [q|]; [|done]. specialize (Hsize q eq_refl). cbn. lia.
Qed.

(** The device changes are not touched. *)
Lemma final_requires_lock ci' :
  compute_applied ci final ci' →
  RequiresMemoryReservationLock (li_Device ci') [] = RequiresMemoryReservationLock (li_Device ci) (cc_DeviceChange cs).
Proof.
  intros Hap. rewrite (ca_Device _ _ _ Hap). f_equal. pose proof (f_equal snd final_Lock) as Hdev. cbn [snd] in Hdev.
  rewrite Hdev. apply (step_preserves hw vm ci false cc_DeviceChange). by intros ?.
Qed.

Lemma lock_settles ci' :
  settled_spec vm ci cs → compute_applied ci final ci' →
  differs memReservationLockedField vm ci' no_change = true →
  is_Some (field_blocked hw memReservationLockedField vm ci' no_change).
Proof.
  intros Hsp Hap. pose proof (f_equal fst final_Lock) as Hlock. cbn [fst] in Hlock.
  pose proof (final_requires_lock ci' Hap) as Hreq.
  assert (negb (desiredMemReservationLocked vm) &&
          RequiresMemoryReservationLock (li_Device ci) (cc_DeviceChange cs) = false) as Hno.
  { destruct (sp_Lock _ _ _ Hsp) as [-> | ->]; [done|]. apply andb_false_r. }
  assert (∀ ci0 cs0, RequiresMemoryReservationLock (li_Device ci0) (cc_DeviceChange cs0) =
            RequiresMemoryReservationLock (li_Device ci) (cc_DeviceChange cs) →
          field_blocked hw memReservationLockedField vm ci0 cs0 =
          field_blocked hw memReservationLockedField vm ci cs) as Hb.
  { intros ci0 cs0 E. unfold field_blocked. cbn [prerequisite memReservationLockedField]. by rewrite E. }
  intros Hd. destruct (field_blocked hw memReservationLockedField vm ci' no_change) eqn:E; [by eauto|].
  exfalso. revert Hd. apply not_true_iff_false. cbn [differs memReservationLockedField].
  change (cc_DeviceChange no_change) with (@nil DeviceSpec). rewrite Hreq, Hno.
  rewrite (ca_Lock _ _ _ Hap), Hlock, off_step, <-(Hb ci' no_change Hreq), E.
  cbn [differs memReservationLockedField]. rewrite Hno.
  etrans; [|exact (flag_settles (desiredMemReservationLocked vm) (li_MemoryReservationLockedToMax ci)
             (cc_MemoryReservationLockedToMax cs) None eq_refl)].
  f_equal. f_equal. by destruct (flag_differs _ _ _).
Qed.

Lemma settled_lock_value ci' :
  settled_spec vm ci cs → compute_applied ci final ci' → desiredMemReservationLocked vm = false →
  default false (li_MemoryReservationLockedToMax ci') = false.
Proof.
  intros Hsp Hap Hdes. destruct (differs memReservationLockedField vm ci' no_change) eqn:Hd.
  - destruct (lock_settles ci' Hsp Hap Hd) as [msg Hmsg]. unfold field_blocked in Hmsg.
    cbn [prerequisite memReservationLockedField minHWVer] in Hmsg.
    destruct (sp_Lock _ _ _ Hsp) as [|Hreq]; [congruence|].
    pose proof (final_requires_lock ci' Hap) as Hreq'. rewrite Hreq in Hreq'.
    change (cc_DeviceChange no_change) with (@nil DeviceSpec) in Hmsg. by rewrite Hdes, Hreq' in Hmsg.
  - cbn [differs memReservationLockedField] in Hd. rewrite Hdes in Hd. cbn [negb andb] in Hd.
    destruct (RequiresMemoryReservationLock _ _); [done|]. unfold flag_differs in Hd.
    apply orb_false_iff in Hd as [Hd _]. by destruct (default false (li_MemoryReservationLockedToMax ci')).
Qed.

#[local] Ltac solve_flag := intros; reflexivity.

Lemma fields_settled ci' :
  settled_spec vm ci cs → compute_applied ci final ci' →
  Forall (λ f, differs f vm ci' no_change = true → is_Some (field_blocked hw f vm ci' no_change)) (computeFields hw).
Proof.
  intros Hsp Hap. pose proof Hsp as [[Hpos Hcs] Hsize Hmem _ Hthr Hnuma]. pose proof Hap as Hap'. destruct Hap'.
  assert (li_NumCPU ci' = resolved_cpus ci (set_NumCPUs (cc_NumCPUs final) cs)) as Hcpu.
  { rewrite ca_NumCPU0, updated_Z. done. }
  assert (0 < resolved_cpus ci (set_NumCPUs (cc_NumCPUs final) cs)) as Hres.
  { unfold resolved_cpus. cbn [set_NumCPUs cc_NumCPUs]. destruct (_ =? 0) eqn:E; [done|]. apply Z.eqb_neq in E.
    pose proof final_cpus_nonneg Hsp. lia. }
  pose proof (f_equal fst final_latency) as Hlat1. pose proof (f_equal snd final_latency) as Hlat2.
  cbn [fst snd] in Hlat1, Hlat2.
  repeat (apply Forall_cons; split); [..|apply Forall_nil; exact I].
  - rewrite (cpu_size_settles hw vm ci cs ci' Hsize); [done|]. by rewrite <-final_NumCPUs.
  - rewrite (memory_size_settles hw vm ci cs ci' Hmem); [done|]. by rewrite <-final_MemoryMB.
  - rewrite (cpu_allocation_settles hw vm ci cs ci'); [done|..]; by rewrite <-final_CpuAllocation.
  - rewrite (memory_allocation_settles hw vm ci cs ci'); [done|intros Hl|]; rewrite <-final_MemoryAllocation; [|done].
    apply ca_MemoryReservation0. by apply settled_lock_value.
  - apply (latency_settles hw vm ci cs ci' Hthr); [by rewrite <-Hlat1|by rewrite <-Hlat2].
  - rewrite (cores_settles hw vm ci cs ci'); [done|]. by rewrite <-final_cores.
  - apply (vnuma_settles hw vm ci (set_NumCPUs (cc_NumCPUs final) cs) ci' Hres); [done|done|]. by rewrite <-final_Numa.
  - apply (flag_field_settles cpuHotAddFlagField cc_CpuHotAddEnabled (li_CpuHotAddEnabled ci) (li_CpuHotAddEnabled ci') (desiredCPUHotAddEnabled vm)); [solve_flag..|by rewrite <-final_CpuHotAdd].
  - apply (flag_field_settles iommuField (λ cs, cc_Flags cs ≫= VvtdEnabled) (li_VvtdEnabled ci) (li_VvtdEnabled ci') (desiredIOMMU vm)); [solve_flag..|by rewrite <-final_Flags].
  - apply (flag_field_settles nestedHVField cc_NestedHVEnabled (li_NestedHVEnabled ci) (li_NestedHVEnabled ci') (desiredNestedHV vm)); [solve_flag..|by rewrite <-final_NestedHV].
  - apply (flag_field_settles perfCountersField cc_VPMCEnabled (li_VPMCEnabled ci) (li_VPMCEnabled ci') (desiredPerfCounters vm)); [solve_flag..|by rewrite <-final_VPMC].
  - apply (flag_field_settles memHotAddFlagField cc_MemoryHotAddEnabled (li_MemoryHotAddEnabled ci) (li_MemoryHotAddEnabled ci') (desiredMemHotAdd vm)); [solve_flag..|by rewrite <-final_MemoryHotAdd].
  - by apply lock_settles.
Qed.
End Whole.

(** A loop over fields that differ only where they are blocked changes nothing. *)
Lemma idle_loop hw vm ci p cs fs b o :
  Forall (λ f, differs f vm ci cs = true → is_Some (field_blocked hw f vm ci cs)) fs →
  ow_cs (foldl (overwrite_field hw vm ci p) (mkOverwrite cs b o) fs) = cs.
Proof.
  intros Hfs. revert b o. induction Hfs as [|f fs Hf _ IH]; intros b o; [done|]. cbn [foldl overwrite_field].
  destruct (differs f vm ci cs); [|apply IH]. destruct (Hf eq_refl) as [msg ->]. apply IH.
Qed.

(** ** Properties *)


Lemma step_hot hw vm ci f st :
  ow_blockedPowerOff (overwrite_field hw vm ci true st f) = [] →
  ow_blockedPowerOff st = [] ∧ overwrite_field hw vm ci true st f = overwrite_field hw vm ci false st f.
Proof.
  destruct st as [cs b o]. cbn [overwrite_field]. destruct (differs f vm ci cs); [|done]. cbn [negb].
  destruct (field_blocked hw f vm ci cs); [done|]. cbn [andb].
  destruct (hotPluggable f vm ci); cbn [negb]; [done|]. cbn. intros E. by apply app_nil in E as [_ ?].
Qed.

Lemma loop_hot hw vm ci fs st :
  ow_blockedPowerOff (foldl (overwrite_field hw vm ci true) st fs) = [] →
  ow_blockedPowerOff st = [] ∧
  foldl (overwrite_field hw vm ci true) st fs = foldl (overwrite_field hw vm ci false) st fs.
Proof.
  revert st. induction fs as [|f fs IH]; intros st; [done|]. cbn [foldl]. intros Hfs.
  apply IH in Hfs as [Hst ->]. apply step_hot in Hst as [Hst ->]. done.
Qed.

Lemma loop_off hw vm ci fs st :
  ow_blockedPowerOff (foldl (overwrite_field hw vm ci false) st fs) = ow_blockedPowerOff st.
Proof.
  revert st. induction fs as [|f fs IH]; intros st; [done|]. cbn [foldl]. rewrite IH. destruct st as [cs b o].
  cbn. repeat case_match; done.
Qed.

Lemma step_cases hw vm ci f cs b o :
  ow_cs (overwrite_field hw vm ci true (mkOverwrite cs b o) f) = cs ∨
  hotPluggable f vm ci = true ∧
  ow_cs (overwrite_field hw vm ci true (mkOverwrite cs b o) f) = apply_field f vm ci cs.
Proof. cbn. repeat case_match; auto. bool_to_prop. cbn in *. destruct (hotPluggable f vm ci); auto. Qed.

(** A field that is not hot-pluggable leaves a powered-on VM's changes alone. *)
Lemma cold_preserves {A} (π : ComputeChange → A) hw vm ci cs fs :
  Forall (λ f, hotPluggable f vm ci = true → ∀ cs, π (apply_field f vm ci cs) = π cs) fs →
  π (ow_cs (foldl (overwrite_field hw vm ci true) (mkOverwrite cs [] []) fs)) = π cs.
Proof.
  assert (∀ st, Forall (λ f, hotPluggable f vm ci = true → ∀ cs, π (apply_field f vm ci cs) = π cs) fs →
    π (ow_cs (foldl (overwrite_field hw vm ci true) st fs)) = π (ow_cs st)) as Hgen; [|by apply Hgen].
  intros st Hfs. revert st. induction Hfs as [|f fs Hf _ IH]; intros [cs0 b o]; [done|]. cbn [foldl]. rewrite IH.
  destruct (step_cases hw vm ci f cs0 b o) as [-> | [Hh ->]]; [done|]. by apply Hf.
Qed.

#[local] Ltac solve_cold :=
  repeat (apply Forall_cons; split;
    [let Hh := fresh in intros Hh ?; first [discriminate Hh | cbn; repeat case_match; reflexivity]|]);
  apply Forall_nil; exact I.

Lemma hot_cpus hw vm ci cs :
  let n := cc_NumCPUs (ow_cs (foldl (overwrite_field hw vm ci true) (mkOverwrite cs [] []) (computeFields hw))) in
  n = cc_NumCPUs cs ∨ li_CpuHotAddEnabled ci = Some true ∧ li_NumCPU ci < n.
Proof.
  cbn zeta. change (computeFields hw) with (cpuSizeField :: drop 1 (computeFields (Q:=Q) hw)). cbn [foldl].
  rewrite foldl_preserves by solve_preserves.
  destruct (step_cases hw vm ci cpuSizeField cs [] []) as [-> | [Hh ->]]; [by left|].
  cbn [hotPluggable apply_field cpuSizeField] in *. destruct (size_cpu vm) as [q|]; [|by left]. right.
  bool_to_prop. cbn [set_NumCPUs cc_NumCPUs]. destruct (li_CpuHotAddEnabled ci) as [[]|]; done.
Qed.

Lemma hot_memory hw vm ci cs :
  let n := cc_MemoryMB (ow_cs (foldl (overwrite_field hw vm ci true) (mkOverwrite cs [] []) (computeFields hw))) in
  n = cc_MemoryMB cs ∨ li_MemoryHotAddEnabled ci = Some true ∧ li_MemoryMB ci < n.
Proof.
  cbn zeta. change (computeFields hw) with (cpuSizeField :: memorySizeField :: drop 2 (computeFields (Q:=Q) hw)).
  cbn [foldl]. rewrite foldl_preserves by solve_preserves.
  assert (cc_MemoryMB (ow_cs (overwrite_field hw vm ci true (mkOverwrite cs [] []) cpuSizeField)) = cc_MemoryMB cs) as Hc.
  { rewrite step_preserves; [done|]. intros ?. cbn. by case_match. }
  destruct (overwrite_field hw vm ci true (mkOverwrite cs [] []) cpuSizeField) as [cs0 b o]. cbn [ow_cs] in Hc.
  destruct (step_cases hw vm ci memorySizeField cs0 b o) as [-> | [Hh ->]]; [by left|].
  cbn [hotPluggable apply_field memorySizeField] in *. destruct (size_memory vm) as [q|]; [|by left]. right.
  bool_to_prop. cbn [set_MemoryMB cc_MemoryMB]. destruct (li_MemoryHotAddEnabled ci) as [[]|]; done.
Qed.

(** A powered-on VM is changed only where it can be while it runs: the topology,
    the NUMA nodes and the flags keep what they had, CPUs and memory change only
    with hot-add enabled and to more than the VM has; if no field is reported to
    need a power-off, the result is the one a powered-off VM gets, which never
    reports one. *)
Theorem powered_on_changes_hot vm ci cs :
  let on := OverwriteSpecComputeConfig parse vm ci true cs in
  let off := OverwriteSpecComputeConfig parse vm ci false cs in
  (cc_NumCoresPerSocket (ow_cs on), cc_VirtualNuma (ow_cs on), cc_CpuHotAddEnabled (ow_cs on), cc_Flags (ow_cs on),
   cc_NestedHVEnabled (ow_cs on), cc_VPMCEnabled (ow_cs on), cc_MemoryHotAddEnabled (ow_cs on)) =
  (cc_NumCoresPerSocket cs, cc_VirtualNuma cs, cc_CpuHotAddEnabled cs, cc_Flags cs,
   cc_NestedHVEnabled cs, cc_VPMCEnabled cs, cc_MemoryHotAddEnabled cs) ∧
  (cc_NumCPUs (ow_cs on) = cc_NumCPUs cs ∨
   li_CpuHotAddEnabled ci = Some true ∧ li_NumCPU ci < cc_NumCPUs (ow_cs on)) ∧
  (cc_MemoryMB (ow_cs on) = cc_MemoryMB cs ∨
   li_MemoryHotAddEnabled ci = Some true ∧ li_MemoryMB ci < cc_MemoryMB (ow_cs on)) ∧
  ow_blockedPowerOff off = [] ∧ (ow_blockedPowerOff on = [] → on = off).
Proof.
  cbn zeta. unfold OverwriteSpecComputeConfig. set (hw := parse (li_Version ci)). split_and!.
  - rewrite !(cold_preserves _ hw vm ci cs) by solve_cold. done.
  - by apply hot_cpus.
  - by apply hot_memory.
  - apply loop_off.
  - intros Hon. by apply loop_hot in Hon as [_ ->].
Qed.

(** ** A class copied into the spec *)

#[local] Ltac by_cases_on_spec vm :=
  destruct vm as [[[[[]|] [[]|] [[]|]]|] ca [[]|]]; reflexivity.

Lemma sync_size_cpu vm cs :
  0 < cc_NumCPUs cs → size_cpu (syncClassSizeToSpec vm cs) = Some (NewQuantity (cc_NumCPUs cs)).
Proof.
  intros Hn. unfold syncClassSizeToSpec. rewrite (proj2 (Z.ltb_lt _ _) Hn).
  destruct (0 <? cc_MemoryMB cs); by_cases_on_spec vm.
Qed.

Lemma sync_size_memory vm cs :
  0 < cc_MemoryMB cs → size_memory (syncClassSizeToSpec vm cs) = Some (NewQuantity (of_mebibytes (cc_MemoryMB cs))).
Proof.
  intros Hn. unfold syncClassSizeToSpec. rewrite (proj2 (Z.ltb_lt _ _) Hn).
  destruct (0 <? cc_NumCPUs cs); by_cases_on_spec vm.
Qed.

(** The copy of an allocation leaves the sizes, and the other quantities. *)
Lemma sync_allocation_size put scale a vm :
  (Resources (sync_allocation put scale a vm) ≫= Size) = (Resources vm ≫= Size).
Proof.
  destruct a as [[[r|] [l|] s]|]; cbn; repeat case_match; by_cases_on_spec vm.
Qed.

Lemma sync_cpu_allocation a vm r l :
  ra_Reservation a = Some r → 0 ≤ r → ra_Limit a = Some l → l ≠ 0 →
  let vm' := sync_allocation with_CPU id (Some a) vm in
  requests_cpu vm' = (if 0 <? r then Some (NewQuantity r) else None) ∧
  limits_cpu vm' = (if l <? 0 then None else Some (NewQuantity l)).
Proof.
  intros Hr Hr0 Hl Hl0. cbn [sync_allocation]. rewrite Hr, Hl.
  destruct (0 <? r), (0 <? l) eqn:E, (l <? 0) eqn:E'; bool_to_prop; try lia; split; by_cases_on_spec vm.
Qed.

Lemma sync_memory_allocation a vm r l :
  ra_Reservation a = Some r → 0 ≤ r → ra_Limit a = Some l → l ≠ 0 →
  let vm' := sync_allocation with_Memory of_mebibytes (Some a) vm in
  requests_memory vm' = (if 0 <? r then Some (NewQuantity (of_mebibytes r)) else None) ∧
  limits_memory vm' = (if l <? 0 then None else Some (NewQuantity (of_mebibytes l))).
Proof.
  intros Hr Hr0 Hl Hl0. cbn [sync_allocation]. rewrite Hr, Hl.
  destruct (0 <? r), (0 <? l) eqn:E, (l <? 0) eqn:E'; bool_to_prop; try lia; split; by_cases_on_spec vm.
Qed.

Lemma sync_memory_keeps_cpu a vm :
  requests_cpu (sync_allocation with_Memory of_mebibytes a vm) = requests_cpu vm ∧
  limits_cpu (sync_allocation with_Memory of_mebibytes a vm) = limits_cpu vm.
Proof.
  destruct a as [[[r|] [l|] s]|]; cbn; repeat case_match; split; by_cases_on_spec vm.
Qed.

(** Mebibytes that fit 64 bits survive the conversion to bytes and back. *)
Lemma mebibytes_roundtrip `{!QuantityLaws Q} n : 0 ≤ n < 2 ^ 43 → mebibytes (NewQuantity (Q:=Q) (of_mebibytes n)) = n.
Proof.
  intros Hn. unfold mebibytes, of_mebibytes. rewrite Value_NewQuantity.
  rewrite !wrap64_id by (unfold in_int64; rewrite ?wrap64_id; unfold in_int64; lia).
  rewrite !Z.quot_mul; lia.
Qed.

(** A class that sets sizes and allocations: [r] and [l] are the reservation and
    the limit of CPU, [rm] and [lm] those of memory in mebibytes; a negative limit
    is unlimited. *)
Record class_sizing (cls : ComputeChange) (r l rm lm : Z) : Prop := {
  cz_CPUs : 0 < cc_NumCPUs cls < 2 ^ 31;
  cz_Memory : 0 < cc_MemoryMB cls < 2 ^ 43;
  cz_Cpu : ∃ sh, cc_CpuAllocation cls = Some (mkAllocation (Some r) (Some l) sh);
  cz_Mem : ∃ sh, cc_MemoryAllocation cls = Some (mkAllocation (Some rm) (Some lm) sh);
  cz_Reservations : 0 ≤ r ∧ 0 ≤ rm < 2 ^ 43;
  cz_Limits : l ≠ 0 ∧ lm ≠ 0 ∧ lm < 2 ^ 43
}.

(** What the spec asks for once the class is copied into it. *)
Lemma class_desired `{!QuantityLaws Q} vm cls r l rm lm :
  class_sizing cls r l rm lm →
  let vm' := SyncClassSizeAndAllocationToSpec vm cls in
  (wrap32 ∘ Value <$> size_cpu vm') = Some (cc_NumCPUs cls) ∧
  (mebibytes <$> size_memory vm') = Some (cc_MemoryMB cls) ∧
  desiredCPUAllocation vm' = (r, if l <? 0 then -1 else l) ∧
  desiredMemoryAllocation vm' = (rm, if lm <? 0 then -1 else lm).
Proof.
  intros [Hcpu Hmem [sh Hca] [shm Hma] [Hr Hrm] (Hl & Hlm & Hlm')]. cbn zeta.
  assert (Resources (SyncClassSizeAndAllocationToSpec vm cls) =
    Resources (syncClassAllocationToSpec (syncClassSizeToSpec vm cls) cls)) as Hres.
  { unfold SyncClassSizeAndAllocationToSpec, syncClassMemoryReservationLockToSpec.
    by destruct (cc_MemoryReservationLockedToMax cls). }
  unfold size_cpu, size_memory, desiredCPUAllocation, desiredMemoryAllocation, requests_cpu, requests_memory,
    limits_cpu, limits_memory. rewrite Hres. unfold syncClassAllocationToSpec. rewrite !sync_allocation_size.
  rewrite Hca, Hma. set (vm0 := syncClassSizeToSpec vm cls) in *.
  set (vm1 := sync_allocation with_CPU id _ vm0).
  destruct (sync_memory_allocation (mkAllocation (Some rm) (Some lm) shm) vm1 rm lm) as [Hrm' Hlm'']; [done|lia|done|done|].
  destruct (sync_memory_keeps_cpu (Some (mkAllocation (Some rm) (Some lm) shm)) vm1) as [Hkr Hkl].
  destruct (sync_cpu_allocation (mkAllocation (Some r) (Some l) sh) vm0 r l) as [Hr' Hl']; [done..|].
  fold vm1 in Hr', Hl'. unfold requests_cpu, limits_cpu, requests_memory, limits_memory in *.
  rewrite Hkr, Hkl, Hr', Hl', Hrm', Hlm''. split_and!.
  - fold (size_cpu vm0). unfold vm0. rewrite sync_size_cpu by lia. cbn. rewrite Value_NewQuantity, wrap32_id; [done|].
    unfold in_int32. lia.
  - fold (size_memory vm0). unfold vm0. rewrite sync_size_memory by lia. cbn. by rewrite mebibytes_roundtrip by lia.
  - destruct (0 <? r) eqn:E1, (l <? 0) eqn:E2; cbn; rewrite ?Value_NewQuantity; bool_to_prop; f_equal; lia.
  - destruct (0 <? rm) eqn:E1, (lm <? 0) eqn:E2; cbn; bool_to_prop; rewrite ?mebibytes_roundtrip by lia; f_equal; lia.
Qed.

(** After a resize the class decides: when the sizes and allocations of a class
    are copied into the spec of a powered-off VM and the VM is reconfigured with
    the overwritten ConfigSpec, it has the CPUs, the memory, the CPU reservation
    and limit and the memory limit of the class, and the memory reservation too
    unless the reservation is locked to the whole memory. *)
Theorem class_resize_reaches `{!QuantityLaws Q} vm cls r l rm lm ci cs ci' :
  class_sizing cls r l rm lm →
  settled_spec (SyncClassSizeAndAllocationToSpec vm cls) ci cs →
  compute_applied ci
    (ow_cs (OverwriteSpecComputeConfig parse (SyncClassSizeAndAllocationToSpec vm cls) ci false cs)) ci' →
  li_NumCPU ci' = cc_NumCPUs cls ∧ li_MemoryMB ci' = cc_MemoryMB cls ∧
  allocation_values (li_CpuAllocation ci') = (r, if l <? 0 then -1 else l) ∧
  (allocation_values (li_MemoryAllocation ci')).2 = (if lm <? 0 then -1 else lm) ∧
  (desiredMemReservationLocked (SyncClassSizeAndAllocationToSpec vm cls) = false →
   (allocation_values (li_MemoryAllocation ci')).1 = rm).
Proof.
  intros Hcls Hsp Hap. destruct (class_desired vm cls r l rm lm Hcls) as (Hcpu & Hmem & Hca & Hma).
  set (vm' := SyncClassSizeAndAllocationToSpec vm cls) in *.
  pose proof (fields_settled vm' ci cs ci' Hsp Hap) as Hfs.
  assert (∀ i f, computeFields (parse (li_Version ci)) !! i = Some f → minHWVer f = 0 →
    prerequisite f vm' ci' no_change = None → differs f vm' ci' no_change = false) as Hun.
  { intros i f Hf Hm Hp. pose proof (Forall_lookup_1 _ _ i f Hfs Hf) as Hb. cbn beta in Hb.
    destruct (differs f vm' ci' no_change); [|done]. destruct (Hb eq_refl) as [msg Hmsg].
    by rewrite never_blocked in Hmsg. }
  pose proof (Hun 0%nat _ eq_refl eq_refl eq_refl) as H1. pose proof (Hun 1%nat _ eq_refl eq_refl eq_refl) as H2.
  pose proof (Hun 2%nat _ eq_refl eq_refl eq_refl) as H3. pose proof (Hun 3%nat _ eq_refl eq_refl eq_refl) as H4.
  cbn [differs cpuSizeField memorySizeField cpuAllocationField memoryAllocationField no_change cc_NumCPUs cc_MemoryMB
       cc_CpuAllocation cc_MemoryAllocation] in H1, H2, H3, H4.
  destruct (size_cpu vm') as [q|]; [|done]. destruct (size_memory vm') as [q'|]; [|done].
  injection Hcpu as Hcpu. injection Hmem as Hmem. cbn [compose] in Hcpu. rewrite Hcpu in H1. rewrite Hmem in H2.
  rewrite Hca in H3. rewrite Hma in H4.
  apply orb_false_iff in H1 as [H1 _]. apply orb_false_iff in H2 as [H2 _]. apply negb_false_iff, Z.eqb_eq in H1, H2.
  split_and!; [done|done|..].
  - clear H4. case_bool_decide as E; [done|]. by rewrite <-E.
  - clear H3. destruct (desiredMemReservationLocked vm'); cbn [snd] in H4.
    + destruct (_ =? _) eqn:E; [|done]. by apply Z.eqb_eq in E.
    + case_bool_decide as E; [done|]. by rewrite <-E.
  - clear H3. intros Hl. rewrite Hl in H4. case_bool_decide as E; [done|]. by rewrite <-E.
Qed.
End Compute.

(** ** Witnesses *)

(** A VM with two CPUs that is to have four in two NUMA nodes, eight gibibytes
    and hot-add of CPUs. *)
Definition ex_vm : ComputeSpec Z :=
  mkSpec (Some (mkResources (Some (mkQuantity (Some 4) (Some (8192 * 1024 * 1024)))) (Some (mkQuantity (Some 500) None)) None))
    (Some (mkCPUAdvanced None (Some (mkTopology (Some 2) (Some 2))) (Some true) None None None)) None.
Definition ex_live (cpus memory reservation : Z) (cores perNode : option Z) (auto : bool) (hotAdd : option bool)
    : LiveConfig :=
  mkLive "vmx-21" cpus memory hotAdd None (Some (mkAllocation (Some reservation) None None)) None None 0
    cores (Some auto) (Some (mkNumaInfo perNode (Some auto) None)) None None None None [].


(** The VM without topology, resized to a class of eight CPUs, sixteen gibibytes
    and reservations. *)
Definition ex_resized_vm : ComputeSpec Z := mkSpec (Resources ex_vm) None None.
Definition ex_cls : ComputeChange :=
  mkCompute 8 16384 (Some (mkAllocation (Some 1000) (Some (-1)) None)) (Some (mkAllocation (Some 2048) (Some (-1)) None))
    None 0 None None None None None None None None [].
Definition ex_resized : LiveConfig :=
  mkLive "vmx-21" 8 16384 (Some false) None (Some (mkAllocation (Some 1000) (Some (-1)) None))
    (Some (mkAllocation (Some 2048) (Some (-1)) None)) None 0 None (Some true) (Some (mkNumaInfo None (Some true) None))
    None None None None [].

Lemma class_resize_reaches_witness :
  li_NumCPU ex_resized = 8 ∧ allocation_values (li_CpuAllocation ex_resized) = (1000, -1).
Proof.
  refine ((λ h, conj (proj1 h) (proj1 (proj2 (proj2 h))))
    (class_resize_reaches (λ _, 21) ex_resized_vm ex_cls 1000 (-1) 2048 (-1)
       (ex_live 2 4096 0 None None true (Some false)) no_change ex_resized _ _ _)).
  - split; try (split; vm_compute; congruence); try (by eexists).
  - split.
    + split; vm_compute; congruence.
    + intros q Hq. vm_compute in Hq. injection Hq as <-. vm_compute. reflexivity.
    + intros q Hq. vm_compute in Hq. injection Hq as <-. vm_compute. discriminate.
    + right. reflexivity.
    + reflexivity.
    + discriminate.
  - split; vm_compute; auto.
Defined.
