(* ===== verification/ComputeWebhook.v ===== *)
(** * The checks of compute settings in the validation webhook

    webhooks/virtualmachine/validation/virtualmachine_validator_compute.go: sizes,
    reservations, limits, latency sensitivity, the memory lock and the topology of
    a VM's spec.  An error is its kind, the path of the field and the text; the
    value it quotes is left out. *)

From S2P Require Import Prelude Resize Compute.
Local Open Scope Z_scope.

Inductive ErrorType := ErrorForbidden | ErrorInvalid.
Record ComputeError := mkError { err_Type : ErrorType; err_Field : string; err_Detail : string }.
Definition Forbidden (path detail : string) : ComputeError := mkError ErrorForbidden path detail.
Definition Invalid (path detail : string) : ComputeError := mkError ErrorInvalid path detail.

(** An error list with one error where the condition holds. *)
Definition when (b : bool) (e : ComputeError) : list ComputeError := if b then [e] else [].

Section Validate.
Context {Q : Type} `{Quantity Q}.
Implicit Types (vm : ComputeSpec Q) (size req lim : ResourceQuantity Q).

Definition unlimitedSentinel : Q := NewQuantity (-1).
Definition isUnlimitedSentinel (q : Q) : bool :=
  match Cmp q unlimitedSentinel with Eq => true | _ => false end.

(** [q.Cmp(q') > 0] and [q.Cmp(q') < 0]. *)
Definition exceeds (q q' : Q) : bool := match Cmp q q' with Gt => true | _ => false end.
Definition below (q q' : Q) : bool := match Cmp q q' with Lt => true | _ => false end.

Definition MaxInt32 : Z := 2147483647.

Definition validateComputeSize (size : option (ResourceQuantity Q)) : list ComputeError :=
  match size with
  | None => []
  | Some size =>
    match CPU size with
    | None => []
    | Some q =>
      if IsZero q || (Value q <? 0)
      then [Invalid "spec.resources.size.cpu" "must be greater than 0 when set"]
      else when (MaxInt32 <? Value q) (Invalid "spec.resources.size.cpu" "must not exceed 2147483647")
    end ++
    match Memory size with
    | None => []
    | Some q => when (IsZero q || (Value q <? 0))
        (Invalid "spec.resources.size.memory" "must be greater than 0 when set")
    end
  end.

Definition limit_valid (q : option Q) : bool :=
  match q with None => true | Some q => isUnlimitedSentinel q || (0 <? Value q) end.

Definition limit_text : string := "must be greater than 0 or -1 (unlimited) when set (nil = unlimited)".

Definition validateComputeLimits (lim : option (ResourceQuantity Q)) : list ComputeError :=
  match lim with
  | None => []
  | Some lim =>
    when (negb (limit_valid (CPU lim))) (Invalid "spec.resources.limits.cpu" limit_text) ++
    when (negb (limit_valid (Memory lim))) (Invalid "spec.resources.limits.memory" limit_text)
  end.

Definition request_negative (q : option Q) : bool := match q with None => false | Some q => Value q <? 0 end.

Definition validateComputeRequests (req : option (ResourceQuantity Q)) : list ComputeError :=
  match req with
  | None => []
  | Some req =>
    when (request_negative (CPU req)) (Invalid "spec.resources.requests.cpu" "must not be negative when set") ++
    when (request_negative (Memory req)) (Invalid "spec.resources.requests.memory" "must not be negative when set")
  end.

(** A request over its limit, unless that is unlimited. *)
Definition over_limit (req lim : option Q) : bool :=
  match req, lim with
  | Some r, Some l => negb (isUnlimitedSentinel l) && exceeds r l
  | _, _ => false
  end.

Definition validateComputeRequestBounds (resources : ResourcesSpec Q) : list ComputeError :=
  let req_cpu := Requests resources ≫= CPU in
  let req_memory := Requests resources ≫= Memory in
  when (over_limit req_cpu (Limits resources ≫= CPU))
    (Invalid "spec.resources.requests.cpu" "must be less than or equal to limits.cpu") ++
  when (match req_memory, Size resources ≫= Memory with Some r, Some s => exceeds r s | _, _ => false end)
    (Invalid "spec.resources.requests.memory" "must be less than or equal to size.memory") ++
  when (over_limit req_memory (Limits resources ≫= Memory))
    (Invalid "spec.resources.requests.memory" "must be less than or equal to limits.memory").

Definition validateComputeResourceFields vm : list ComputeError :=
  match Resources vm with
  | None => []
  | Some resources =>
    validateComputeSize (Size resources) ++ validateComputeLimits (Limits resources) ++
    validateComputeRequests (Requests resources) ++ validateComputeRequestBounds resources
  end.

Definition latency_path : string := "spec.cpuAdvanced.latencySensitivity".

Definition validateComputeLatencySensitivity vm : list ComputeError :=
  match CPUAdvanced vm ≫= ca_LatencySensitivity with
  | Some (LatencyHigh | LatencyHighWithHyperthreading) =>
    when (negb (FullMemReservationSpecMet vm))
      (Invalid latency_path "requires full memory reservation: spec.resources.requests.memory must equal spec.resources.size.memory, or spec.memoryAdvanced.reservationLockedToMax must be true") ++
    when (match requests_cpu vm with Some q => IsZero q | None => true end)
      (Invalid latency_path "High Latency Sensitivity requires you to set 100% CPU reservation for this VM")
  | _ => []
  end.

Definition validateComputeReservationLockedToMax vm : list ComputeError :=
  if negb (default false (MemoryAdvanced vm ≫= ReservationLockedToMax)) then []
  else
    when (bool_decide (is_Some (requests_memory vm)))
      (Invalid "spec.resources.requests.memory" "must not be set when spec.memoryAdvanced.reservationLockedToMax is true: vSphere owns the memory reservation when the lock is active") ++
    match limits_memory vm, size_memory vm with
    | Some l, Some s =>
      when (negb (isUnlimitedSentinel l) && below l s)
        (Invalid "spec.resources.limits.memory" "must be greater than or equal to size.memory when spec.memoryAdvanced.reservationLockedToMax is true: vSphere pins the reservation to size.memory and requires Limit >= Reservation")
    | _, _ => []
    end.

(** Per network interface, UPTv2Enabled of its VMXNet3 options. *)
Definition upt_interfaces : Type := list (option (option bool)).

Fixpoint upt_errors (i : Z) (ifaces : upt_interfaces) : list ComputeError :=
  match ifaces with
  | [] => []
  | iface :: rest =>
    when (default false (iface ≫= id))
      (Invalid ("spec.network.interfaces[" +:+ format_digits 20 i "" +:+ "].vmxnet3.uptv2Enabled")
         "requires full guest memory reservation: set spec.memoryAdvanced.reservationLockedToMax=true, or set spec.resources.requests.memory equal to spec.resources.size.memory") ++
    upt_errors (i + 1) rest
  end.

Definition validateUPTv2MemoryReservation vm (network : option upt_interfaces) : list ComputeError :=
  if FullMemReservationSpecMet vm then []
  else match network with None => [] | Some ifaces => upt_errors 0 ifaces end.

Definition nodes_path : string := "spec.cpuAdvanced.topology.vnumaNodeCount".

Definition validateComputeTopology vm : list ComputeError :=
  match topologySpec vm with
  | None => []
  | Some t =>
    match VNUMANodeCount t with
    | None => []
    | Some nodes =>
      if negb (0 <? nodes) then []
      else
        when (match CoresPerSocket t with None => true | Some c => c =? 0 end)
          (Invalid nodes_path "requires coresPerSocket to be set to an explicit (non-zero) value") ++
        match CoresPerSocket t, size_cpu vm with
        | Some cores, Some q =>
          if negb (0 <? cores) then []
          else if negb (Z.rem (Value q) nodes =? 0)
          then [Invalid nodes_path "size.cpu must be evenly divisible by vnumaNodeCount"]
          else
            let coresPerNode := Z.quot (Value q) nodes in
            when (negb (Z.rem coresPerNode cores =? 0) && negb (Z.rem cores coresPerNode =? 0))
              (Invalid nodes_path "derived coresPerNumaNode must be a multiple or divisor of coresPerSocket")
        | _, _ => []
        end
    end
  end.

Definition notEnabled : string :=
  "the VM Compute Config (via VMServiceClasslessVM) feature is not enabled".

Definition validateComputeConfig (classless : bool) vm (network : option upt_interfaces) : list ComputeError :=
  if negb classless then
    when (bool_decide (is_Some (Resources vm))) (Forbidden "spec.resources" notEnabled) ++
    when (bool_decide (is_Some (CPUAdvanced vm))) (Forbidden "spec.cpuAdvanced" notEnabled) ++
    when (bool_decide (is_Some (MemoryAdvanced vm))) (Forbidden "spec.memoryAdvanced" notEnabled)
  else
    validateComputeResourceFields vm ++ validateComputeLatencySensitivity vm ++
    validateComputeReservationLockedToMax vm ++ validateComputeTopology vm ++
    validateUPTv2MemoryReservation vm network.

(** ** Settings frozen during the schema upgrade *)

(** Semantic.DeepEqual: quantities are compared by value, nil differs from set. *)
Definition same_option {A} (eq : A → A → bool) (a b : option A) : bool :=
  match a, b with
  | None, None => true
  | Some x, Some y => eq x y
  | _, _ => false
  end.
Definition same_quantity (q q' : Q) : bool := match Cmp q q' with Eq => true | _ => false end.
Definition same_resource_quantity (a b : ResourceQuantity Q) : bool :=
  same_option same_quantity (CPU a) (CPU b) && same_option same_quantity (Memory a) (Memory b).
Definition same_resources (a b : ResourcesSpec Q) : bool :=
  same_option same_resource_quantity (Size a) (Size b) &&
  same_option same_resource_quantity (Requests a) (Requests b) &&
  same_option same_resource_quantity (Limits a) (Limits b).

Definition notUpgraded : string := "modifying this VM is not allowed until it is upgraded".

Definition validateComputeConfigBackfilledFieldsNotChanged vm (oldVM : ComputeSpec Q) : list ComputeError :=
  when (negb (same_option same_resources (Resources vm) (Resources oldVM)))
    (Forbidden "spec.resources" notUpgraded) ++
  when (bool_decide (CPUAdvanced vm ≠ CPUAdvanced oldVM)) (Forbidden "spec.cpuAdvanced" notUpgraded) ++
  when (bool_decide (MemoryAdvanced vm ≠ MemoryAdvanced oldVM)) (Forbidden "spec.memoryAdvanced" notUpgraded).
End Validate.
