(* ===== verification/ComputeBackfill.v ===== *)
(** * Compute settings taken from the live VM

    pkg/providers/vsphere/upgrade/virtualmachine/backfill/compute.go: when a VM's
    schema is upgraded, the compute fields of its spec that are unset are filled
    in from its configuration in vSphere.  The init helpers are those of
    [Compute] under other names. *)

From S2P Require Import Prelude Resize Compute.
Local Open Scope Z_scope.

Section Backfill.
Context {Q : Type} `{Quantity Q}.
Implicit Types (vm : ComputeSpec Q) (ci : LiveConfig).

Definition no_cpu_advanced : CPUAdvancedSpec := mkCPUAdvanced None None None None None None.
Definition no_topology : CPUTopologySpec := mkTopology None None.

Definition initSize vm : ComputeSpec Q := ensureSize vm.
Definition initRequests vm : ComputeSpec Q := ensureRequests vm.
Definition initLimits vm : ComputeSpec Q := ensureLimits vm.
Definition initMemoryAdvanced vm : ComputeSpec Q := ensureMemoryAdvanced vm.

Definition set_cpu_advanced (f : CPUAdvancedSpec → CPUAdvancedSpec) vm : ComputeSpec Q :=
  mkSpec (Resources vm) (f <$> CPUAdvanced vm) (MemoryAdvanced vm).
Definition initCPUAdvanced vm : ComputeSpec Q :=
  mkSpec (Resources vm) (Some (default no_cpu_advanced (CPUAdvanced vm))) (MemoryAdvanced vm).
Definition set_topology (f : option CPUTopologySpec → option CPUTopologySpec) (c : CPUAdvancedSpec) : CPUAdvancedSpec :=
  mkCPUAdvanced (ca_LatencySensitivity c) (f (Topology c)) (ca_HotAddEnabled c) (IOMMUEnabled c)
    (NestedHardwareVirtualizationEnabled c) (PerformanceCountersEnabled c).
Definition initTopology vm : ComputeSpec Q :=
  set_cpu_advanced (set_topology (λ t, Some (default no_topology t))) (initCPUAdvanced vm).
Definition set_memory_advanced (f : MemoryAdvancedSpec → MemoryAdvancedSpec) vm : ComputeSpec Q :=
  mkSpec (Resources vm) (CPUAdvanced vm) (f <$> MemoryAdvanced vm).

(** A write that happens under a condition, and whether it did. *)
Definition mutate (cond : bool) (f : ComputeSpec Q → ComputeSpec Q) (st : ComputeSpec Q * bool) : ComputeSpec Q * bool :=
  if cond then (f st.1, true) else st.

Definition unset {A} (x : option A) : bool := match x with None => true | Some _ => false end.

Definition backfillSize ci vm : ComputeSpec Q * bool :=
  let st := mutate ((0 <? li_NumCPU ci) && unset (size_cpu vm))
    (λ vm, set_size (with_CPU (Some (NewQuantity (li_NumCPU ci)))) (initSize vm)) (vm, false) in
  mutate ((0 <? li_MemoryMB ci) && unset (size_memory st.1))
    (λ vm, set_size (with_Memory (Some (NewQuantity (of_mebibytes (li_MemoryMB ci))))) (initSize vm)) st.

(** The reservation and the limit of an allocation, where they are positive and
    the fields of the spec are unset. *)
Definition backfill_allocation (get : ResourceQuantity Q → option Q)
    (put : option Q → ResourceQuantity Q → ResourceQuantity Q) (scale : Z → Z)
    (a : option ResourceAllocationInfo) (st : ComputeSpec Q * bool) : ComputeSpec Q * bool :=
  match a with
  | None => st
  | Some a =>
    let st := match ra_Reservation a with
              | Some res => mutate ((0 <? res) && unset ((Resources st.1 ≫= Requests) ≫= get))
                  (λ vm, set_requests (put (Some (NewQuantity (scale res)))) (initRequests vm)) st
              | None => st
              end in
    match ra_Limit a with
    | Some lim => mutate ((0 <? lim) && unset ((Resources st.1 ≫= Limits) ≫= get))
        (λ vm, set_limits (put (Some (NewQuantity (scale lim)))) (initLimits vm)) st
    | None => st
    end
  end.

Definition backfillAllocation ci vm : ComputeSpec Q * bool :=
  backfill_allocation Memory with_Memory of_mebibytes (li_MemoryAllocation ci)
    (backfill_allocation CPU with_CPU id (li_CpuAllocation ci) (vm, false)).

Definition set_latency (l : LatencySensitivityLevel) (c : CPUAdvancedSpec) : CPUAdvancedSpec :=
  mkCPUAdvanced (Some l) (Topology c) (ca_HotAddEnabled c) (IOMMUEnabled c)
    (NestedHardwareVirtualizationEnabled c) (PerformanceCountersEnabled c).

Definition backfillLatencySensitivity ci vm : ComputeSpec Q * bool :=
  match li_LatencySensitivity ci with
  | None => (vm, false)
  | Some ls =>
    if negb (unset (CPUAdvanced vm ≫= ca_LatencySensitivity)) then (vm, false)
    else
      let level :=
        if bool_decide (ls_Level ls = LevelHigh)
        then Some (if li_SimultaneousThreads ci =? 2 then LatencyHighWithHyperthreading else LatencyHigh)
        else if bool_decide (ls_Level ls = LevelNormal) then Some LatencyNormal else None in
      match level with
      | Some l => (set_cpu_advanced (set_latency l) (initCPUAdvanced vm), true)
      | None => (vm, false)
      end
  end.

Definition with_CoresPerSocket (n : Z) (t : CPUTopologySpec) : CPUTopologySpec := mkTopology (Some n) (VNUMANodeCount t).
Definition with_VNUMANodeCount (n : Z) (t : CPUTopologySpec) : CPUTopologySpec := mkTopology (CoresPerSocket t) (Some n).

Definition backfillCPUTopology ci vm : ComputeSpec Q * bool :=
  let st :=
    match li_NumCoresPerSocket ci with
    | Some cps =>
      mutate (negb (default false (li_AutoCoresPerSocket ci)) && (0 <? cps) && unset (topologySpec vm ≫= CoresPerSocket))
        (λ vm, set_cpu_advanced (set_topology (fmap (with_CoresPerSocket cps))) (initTopology vm)) (vm, false)
    | None => (vm, false)
    end in
  match li_NumaInfo ci with
  | None => st
  | Some n =>
    match ni_CoresPerNumaNode n with
    | Some c =>
      mutate (negb (default false (AutoCoresPerNumaNode n)) && (0 <? li_NumCPU ci) && (0 <? c) &&
              (Z.rem (li_NumCPU ci) c =? 0) && unset (topologySpec st.1 ≫= VNUMANodeCount))
        (λ vm, set_cpu_advanced (set_topology (fmap (with_VNUMANodeCount (Z.quot (li_NumCPU ci) c)))) (initTopology vm)) st
    | None => st
    end
  end.

(** A flag that is on in the VM and unset in the spec is set. *)
Definition backfill_cpu_flag (live : option bool) (get : CPUAdvancedSpec → option bool)
    (put : CPUAdvancedSpec → CPUAdvancedSpec) (st : ComputeSpec Q * bool) : ComputeSpec Q * bool :=
  mutate (default false live && unset (CPUAdvanced st.1 ≫= get)) (λ vm, set_cpu_advanced put (initCPUAdvanced vm)) st.
Definition backfill_memory_flag (live : option bool) (get : MemoryAdvancedSpec → option bool)
    (put : MemoryAdvancedSpec → MemoryAdvancedSpec) (st : ComputeSpec Q * bool) : ComputeSpec Q * bool :=
  mutate (default false live && unset (MemoryAdvanced st.1 ≫= get))
    (λ vm, set_memory_advanced put (initMemoryAdvanced vm)) st.

Definition backfillCPUFlags ci vm : ComputeSpec Q * bool :=
  backfill_cpu_flag (li_VPMCEnabled ci) PerformanceCountersEnabled
    (λ c, mkCPUAdvanced (ca_LatencySensitivity c) (Topology c) (ca_HotAddEnabled c) (IOMMUEnabled c)
            (NestedHardwareVirtualizationEnabled c) (Some true))
  (backfill_cpu_flag (li_NestedHVEnabled ci) NestedHardwareVirtualizationEnabled
    (λ c, mkCPUAdvanced (ca_LatencySensitivity c) (Topology c) (ca_HotAddEnabled c) (IOMMUEnabled c)
            (Some true) (PerformanceCountersEnabled c))
  (backfill_cpu_flag (li_VvtdEnabled ci) IOMMUEnabled
    (λ c, mkCPUAdvanced (ca_LatencySensitivity c) (Topology c) (ca_HotAddEnabled c) (Some true)
            (NestedHardwareVirtualizationEnabled c) (PerformanceCountersEnabled c))
  (backfill_cpu_flag (li_CpuHotAddEnabled ci) ca_HotAddEnabled
    (λ c, mkCPUAdvanced (ca_LatencySensitivity c) (Topology c) (Some true) (IOMMUEnabled c)
            (NestedHardwareVirtualizationEnabled c) (PerformanceCountersEnabled c)) (vm, false)))).

Definition backfillMemoryFlags ci vm : ComputeSpec Q * bool :=
  backfill_memory_flag (li_MemoryReservationLockedToMax ci) ReservationLockedToMax
    (λ m, mkMemoryAdvanced (ma_HotAddEnabled m) (Some true))
  (backfill_memory_flag (li_MemoryHotAddEnabled ci) ma_HotAddEnabled
    (λ m, mkMemoryAdvanced (Some true) (ReservationLockedToMax m)) (vm, false)).

(** The steps in their order; each reports whether it changed something. *)
Definition then_backfill (f : ComputeSpec Q → ComputeSpec Q * bool) (st : ComputeSpec Q * bool) : ComputeSpec Q * bool :=
  let '(vm, m) := f st.1 in (vm, m || st.2).

Definition ComputeConfigFromMoVM vm (config : option LiveConfig) : ComputeSpec Q * bool :=
  match config with
  | None => (vm, false)
  | Some ci =>
    then_backfill (backfillMemoryFlags ci) (then_backfill (backfillCPUFlags ci)
      (then_backfill (backfillCPUTopology ci) (then_backfill (backfillLatencySensitivity ci)
        (then_backfill (backfillAllocation ci) (backfillSize ci vm)))))
  end.
End Backfill.
