(* ===== verification/ComputeCompose.v ===== *)
(** * Compute settings from admission to the VM

    The webhook ([ComputeWebhook]), the backfill at a schema upgrade
    ([ComputeBackfill]) and the reconfiguration ([Compute]) work on one spec.
    What the webhook admits is applied in full; what the backfill reads off a VM
    is what the VM has, so that reconfiguring it changes nothing.  Two places
    where they do not fit are proved as such. *)

From S2P Require Import Prelude Resize ResizeResults Compute ComputeResults ComputeWebhook ComputeBackfill.
Local Open Scope Z_scope.

Section Compose.
Context {Q : Type} `{Quantity Q} `{!QuantityLaws Q} (parse : string → Z).
Implicit Types (vm : ComputeSpec Q) (ci : LiveConfig) (cs : ComputeChange).

(** ** What the webhook admits *)

Lemma when_nil b e : when b e = [] → b = false.
Proof. by destruct b. Qed.

Section Admission.
Context vm (net : option upt_interfaces) (Hok : validateComputeConfig true vm net = []).

Lemma admitted_parts :
  validateComputeResourceFields vm = [] ∧ validateComputeLatencySensitivity vm = [] ∧
  validateComputeReservationLockedToMax vm = [] ∧ validateComputeTopology vm = [].
Proof using Hok.
  unfold validateComputeConfig in Hok. cbn [negb] in Hok. rewrite !app_nil in Hok. by destruct_and! Hok.
Qed.

Lemma admitted_size q : size_cpu vm = Some q → 0 < Value q ∧ wrap32 (Value q) = Value q.
Proof using Hok QuantityLaws0.
  destruct admitted_parts as (Hres & _). unfold size_cpu, validateComputeResourceFields in *.
  destruct (Resources vm) as [r|]; [|done]. rewrite !app_nil in Hres. destruct Hres as (Hsize & _).
  cbn [mbind option_bind]. destruct (Size r) as [s|]; [|done]. cbn [mbind option_bind] in *.
  unfold validateComputeSize in Hsize. intros Hq. rewrite Hq in Hsize. apply app_nil in Hsize as [Hsize _].
  rewrite IsZero_Value in Hsize. destruct (_ || _) eqn:E; [done|]. apply when_nil in Hsize. unfold MaxInt32 in *.
  bool_to_prop. split; [lia|]. apply wrap32_id. unfold in_int32. lia.
Qed.

(** The prerequisite of the latency sensitivity is the webhook's check. *)
Lemma admitted_latency ci cs : prerequisite latencySensitivityField vm ci cs = None.
Proof using Hok.
  destruct admitted_parts as (_ & Hlat & _). unfold validateComputeLatencySensitivity in Hlat.
  cbn [prerequisite latencySensitivityField]. unfold desiredLatencySensitivity.
  destruct (CPUAdvanced vm ≫= ca_LatencySensitivity) as [[]|]; try done; cbn [fst];
    (rewrite app_nil in Hlat; destruct Hlat as [Hm Hc]; apply when_nil, negb_false_iff in Hm; apply when_nil in Hc;
     rewrite Hm; cbn; destruct (requests_cpu vm); [by rewrite Hc|done]).
Qed.

(** The topology of the webhook is that of the reconfiguration once the CPUs are
    those of the spec. *)
Lemma admitted_topology ci cs q n :
  (topologySpec vm ≫= VNUMANodeCount) = Some n → 0 ≤ n → (∀ c, (topologySpec vm ≫= CoresPerSocket) = Some c → 0 ≤ c) →
  size_cpu vm = Some q → resolved_cpus ci cs = Value q →
  prerequisite vnumaNodeCountField vm ci cs = None.
Proof using Hok QuantityLaws0.
  intros Hn Hn0 Hc0 Hq Hres. destruct admitted_parts as (_ & _ & _ & Htopo). unfold validateComputeTopology in Htopo.
  destruct (admitted_size q Hq) as [Hpos _]. rewrite Hq in Htopo.
  cbn [prerequisite vnumaNodeCountField]. rewrite Hres. destruct (topologySpec vm) as [t|]; [|done].
  cbn [mbind option_bind] in *. rewrite Hn in *.
  destruct (n =? 0) eqn:E; [done|]. apply Z.eqb_neq in E.
  rewrite (proj2 (Z.ltb_lt 0 n)) in Htopo by lia. cbn [negb] in Htopo. apply app_nil in Htopo as [Hcores Htopo].
  destruct (CoresPerSocket t) as [c|]; [|done]. apply when_nil in Hcores. rewrite Hcores.
  specialize (Hc0 c eq_refl). apply Z.eqb_neq in Hcores. rewrite (proj2 (Z.ltb_lt 0 c)) in Htopo by lia. cbn [negb] in Htopo.
  unfold vnumaDivisibilityBlocked. rewrite (proj2 (Z.leb_gt _ _)) by lia.
  destruct (Z.rem (Value q) n =? 0); cbn [negb] in *; [|done]. apply when_nil in Htopo. by rewrite Htopo.
Qed.
End Admission.

(** The rest of what a reconfiguration needs: a VM with CPUs on hardware version
    20 or later, at least one mebibyte of memory, the lock that devices need, a
    class that leaves the threads open, NUMA nodes that are reported, and a number
    of NUMA nodes only together with a number of CPUs. *)
Record reconfigurable vm ci cs : Prop := {
  rc_Version : VMX20 ≤ parse (li_Version ci);
  rc_CPUs : 0 < li_NumCPU ci ∧ 0 ≤ cc_NumCPUs cs;
  rc_Memory : ∀ q, size_memory vm = Some q → mebibytes q ≠ 0;
  rc_Lock : desiredMemReservationLocked vm = true ∨
    RequiresMemoryReservationLock (li_Device ci) (cc_DeviceChange cs) = false;
  rc_Threads : cc_SimultaneousThreads cs = 0;
  rc_Numa : li_NumaInfo ci = None → cc_VirtualNuma cs = None;
  rc_Nodes : ∀ n, (topologySpec vm ≫= VNUMANodeCount) = Some n → 0 ≤ n ∧ is_Some (size_cpu vm);
  rc_Cores : ∀ c, (topologySpec vm ≫= CoresPerSocket) = Some c → 0 ≤ c
}.

Lemma unblocked hw f vm ci cs :
  VMX20 ≤ hw → minHWVer f ≤ VMX20 → prerequisite f vm ci cs = None → field_blocked hw f vm ci cs = None.
Proof.
  intros Hhw Hm Hp. unfold field_blocked. rewrite Hp.
  rewrite (proj2 (Z.ltb_ge hw (minHWVer f))) by lia. by rewrite andb_false_r.
Qed.


(** The webhook and the API accept -1 as no limit; for memory the reconfiguration
    divides it to mebibytes, which truncates it to a limit of zero.  The limit of
    CPUs stays unlimited. *)
Theorem unlimited_memory_becomes_zero vm :
  limits_memory vm = Some unlimitedSentinel → limits_cpu vm = Some unlimitedSentinel →
  validateComputeLimits (Resources vm ≫= Limits) = [] ∧
  (desiredCPUAllocation vm).2 = -1 ∧ (desiredMemoryAllocation vm).2 = 0.
Proof using QuantityLaws0.
  intros Hm Hc. unfold desiredMemoryAllocation, desiredCPUAllocation. rewrite Hm, Hc. unfold limits_memory, limits_cpu in *.
  destruct (Resources vm) as [r|]; [|done]. cbn [mbind option_bind] in *. destruct (Limits r) as [l|]; [|done].
  cbn [mbind option_bind] in *. cbn [validateComputeLimits]. rewrite Hm, Hc. unfold limit_valid, isUnlimitedSentinel, unlimitedSentinel.
  rewrite Cmp_NewQuantity, Z.compare_refl. cbn [fst snd from_option]. unfold mebibytes. by rewrite Value_NewQuantity.
Qed.

(** ** The backfill *)

Definition blank : ComputeSpec Q := mkSpec None None None.
Abbreviation backfilled ci := (ComputeConfigFromMoVM blank (Some ci)).1.

(** Each step writes one part of the spec. *)
Lemma then_backfill_1 (f : ComputeSpec Q → ComputeSpec Q * bool) st : (then_backfill f st).1 = (f st.1).1.
Proof. unfold then_backfill. by destruct (f st.1). Qed.

Lemma mutate_preserves {A} (π : ComputeSpec Q → A) cond f st :
  (∀ vm, π (f vm) = π vm) → π (mutate cond f st).1 = π st.1.
Proof. intros Hf. unfold mutate. destruct cond; [apply Hf|done]. Qed.

Lemma size_preserves {A} (π : ComputeSpec Q → A) ci vm :
  (∀ r vm, π (set_Resources r vm) = π vm) → π (backfillSize ci vm).1 = π vm.
Proof.
  intros Hπ. unfold backfillSize. rewrite !mutate_preserves; [done|..]; intros vm'; unfold set_size, initSize, ensureSize, ensureResources; by rewrite !Hπ.
Qed.

Lemma allocation_preserves {A} (π : ComputeSpec Q → A) get put scale a st :
  (∀ r vm, π (set_Resources r vm) = π vm) → π (backfill_allocation get put scale a st).1 = π st.1.
Proof.
  intros Hπ. destruct a as [[[r|] [l|] s]|]; cbn [backfill_allocation ra_Reservation ra_Limit]; [..|done];
    rewrite ?mutate_preserves; try done; intros vm';
    unfold set_requests, set_limits, initRequests, initLimits, ensureRequests, ensureLimits, ensureResources; by rewrite !Hπ.
Qed.

Lemma latency_preserves {A} (π : ComputeSpec Q → A) ci vm :
  (∀ f vm, π (set_cpu_advanced f vm) = π vm) → (∀ vm, π (initCPUAdvanced vm) = π vm) →
  π (backfillLatencySensitivity ci vm).1 = π vm.
Proof.
  intros Hset Hinit. unfold backfillLatencySensitivity. destruct (li_LatencySensitivity ci); [|done].
  destruct (negb _); [done|]. destruct (if bool_decide _ then _ else _); [|done]. cbn [fst]. by rewrite Hset, Hinit.
Qed.

Lemma topology_preserves {A} (π : ComputeSpec Q → A) ci vm :
  (∀ f vm, π (set_cpu_advanced f vm) = π vm) → (∀ vm, π (initCPUAdvanced vm) = π vm) →
  π (backfillCPUTopology ci vm).1 = π vm.
Proof.
  intros Hset Hinit. unfold backfillCPUTopology.
  destruct (li_NumCoresPerSocket ci) as [n|], (li_NumaInfo ci) as [i|]; [destruct (ni_CoresPerNumaNode i)| |destruct (ni_CoresPerNumaNode i)|];
    rewrite ?mutate_preserves; try done; intros vm'; unfold initTopology; by rewrite ?Hset, ?Hinit.
Qed.

Lemma cpu_flags_preserve {A} (π : ComputeSpec Q → A) ci vm :
  (∀ f vm, π (set_cpu_advanced f vm) = π vm) → (∀ vm, π (initCPUAdvanced vm) = π vm) →
  π (backfillCPUFlags ci vm).1 = π vm.
Proof.
  intros Hset Hinit. unfold backfillCPUFlags, backfill_cpu_flag.
  rewrite !mutate_preserves; [done|..]; intros vm'; by rewrite Hset, Hinit.
Qed.

Lemma memory_flags_preserve {A} (π : ComputeSpec Q → A) ci vm :
  (∀ f vm, π (set_memory_advanced f vm) = π vm) → (∀ vm, π (initMemoryAdvanced vm) = π vm) →
  π (backfillMemoryFlags ci vm).1 = π vm.
Proof.
  intros Hset Hinit. unfold backfillMemoryFlags, backfill_memory_flag.
  rewrite !mutate_preserves; [done|..]; intros vm'; by rewrite Hset, Hinit.
Qed.

Lemma backfilled_parts ci :
  Resources (backfilled ci) = Resources (backfillAllocation ci (backfillSize ci blank).1).1 ∧
  (∃ vm, CPUAdvanced vm = None ∧ CPUAdvanced (backfilled ci) =
    CPUAdvanced (backfillCPUFlags ci (backfillCPUTopology ci (backfillLatencySensitivity ci vm).1).1).1) ∧
  ∃ vm, MemoryAdvanced vm = None ∧ MemoryAdvanced (backfilled ci) = MemoryAdvanced (backfillMemoryFlags ci vm).1.
Proof.
  unfold ComputeConfigFromMoVM. rewrite !then_backfill_1. split_and!.
  - rewrite (memory_flags_preserve Resources), (cpu_flags_preserve Resources), (topology_preserves Resources),
      (latency_preserves Resources) by done. done.
  - eexists. split; [|by rewrite (memory_flags_preserve CPUAdvanced)].
    unfold backfillAllocation. rewrite !(allocation_preserves CPUAdvanced) by done. cbn [fst]. by rewrite (size_preserves CPUAdvanced).
  - eexists. split; [|done].
    rewrite (cpu_flags_preserve MemoryAdvanced), (topology_preserves MemoryAdvanced), (latency_preserves MemoryAdvanced) by done.
    unfold backfillAllocation. rewrite !(allocation_preserves MemoryAdvanced) by done. cbn [fst]. by rewrite (size_preserves MemoryAdvanced).
Qed.

(** The quantity that is written for a value that is positive. *)
Definition positive_quantity (scale : Z → Z) (n : option Z) : option Q :=
  match n with Some n => if 0 <? n then Some (NewQuantity (scale n)) else None | None => None end.

Lemma backfilled_resources ci :
  let vm := backfilled ci in
  size_cpu vm = positive_quantity id (Some (li_NumCPU ci)) ∧
  size_memory vm = positive_quantity of_mebibytes (Some (li_MemoryMB ci)) ∧
  requests_cpu vm = positive_quantity id (li_CpuAllocation ci ≫= ra_Reservation) ∧
  limits_cpu vm = positive_quantity id (li_CpuAllocation ci ≫= ra_Limit) ∧
  requests_memory vm = positive_quantity of_mebibytes (li_MemoryAllocation ci ≫= ra_Reservation) ∧
  limits_memory vm = positive_quantity of_mebibytes (li_MemoryAllocation ci ≫= ra_Limit).
Proof.
  cbn zeta. destruct (backfilled_parts ci) as [Hres _].
  unfold size_cpu, size_memory, requests_cpu, limits_cpu, requests_memory, limits_memory. rewrite Hres. clear Hres.
  unfold backfillAllocation, backfillSize, positive_quantity, mutate. cbn [unset size_cpu blank Resources mbind option_bind].
  destruct (0 <? li_NumCPU ci), (0 <? li_MemoryMB ci);
  destruct (li_CpuAllocation ci) as [[[r|] [l|] s]|]; cbn; try destruct (0 <? r); try destruct (0 <? l); cbn;
  destruct (li_MemoryAllocation ci) as [[[rm|] [lm|] sm]|]; cbn; try destruct (0 <? rm); try destruct (0 <? lm);
  cbn; repeat split; reflexivity.
Qed.

(** The latency sensitivity, the cores per socket and the NUMA nodes that are
    read off a VM. *)
Definition live_latency ci : option LatencySensitivityLevel :=
  ls ← li_LatencySensitivity ci;
  if bool_decide (ls_Level ls = LevelHigh)
  then Some (if li_SimultaneousThreads ci =? 2 then LatencyHighWithHyperthreading else LatencyHigh)
  else if bool_decide (ls_Level ls = LevelNormal) then Some LatencyNormal else None.
Definition live_cores ci : option Z :=
  n ← li_NumCoresPerSocket ci; if negb (default false (li_AutoCoresPerSocket ci)) && (0 <? n) then Some n else None.
Definition live_nodes ci : option Z :=
  i ← li_NumaInfo ci; c ← ni_CoresPerNumaNode i;
  if negb (default false (AutoCoresPerNumaNode i)) && (0 <? li_NumCPU ci) && (0 <? c) && (Z.rem (li_NumCPU ci) c =? 0)
  then Some (Z.quot (li_NumCPU ci) c) else None.

(** The flags leave the latency sensitivity and the topology. *)
Lemma cpu_flags_keep {A} (get : CPUAdvancedSpec → option A) ci vm :
  get no_cpu_advanced = None →
  (∀ l t h h' i i' n n' p p', get (mkCPUAdvanced l t h i n p) = get (mkCPUAdvanced l t h' i' n' p')) →
  (CPUAdvanced (backfillCPUFlags ci vm).1 ≫= get) = (CPUAdvanced vm ≫= get).
Proof.
  intros Hnone Hget. unfold backfillCPUFlags, backfill_cpu_flag, mutate.
  destruct vm as [r [[l t h i n p]|] m]; repeat case_match; cbn; rewrite <-?Hnone; apply Hget || done.
Qed.

Lemma cpu_flags_read ci vm :
  let flags c := (ca_HotAddEnabled c, IOMMUEnabled c, NestedHardwareVirtualizationEnabled c, PerformanceCountersEnabled c) in
  from_option flags (None, None, None, None) (CPUAdvanced vm) = (None, None, None, None) →
  let vm' := (backfillCPUFlags ci vm).1 in
  desiredCPUHotAddEnabled vm' = default false (li_CpuHotAddEnabled ci) ∧
  desiredIOMMU vm' = default false (li_VvtdEnabled ci) ∧
  desiredNestedHV vm' = default false (li_NestedHVEnabled ci) ∧
  desiredPerfCounters vm' = default false (li_VPMCEnabled ci).
Proof.
  cbn zeta. intros Hf. unfold backfillCPUFlags, backfill_cpu_flag, mutate.
  unfold desiredCPUHotAddEnabled, desiredIOMMU, desiredNestedHV, desiredPerfCounters.
  destruct vm as [r [[l t h i n p]|] m]; [cbn in Hf; injection Hf as -> -> -> ->|]; cbn;
  destruct (default false (li_CpuHotAddEnabled ci)), (default false (li_VvtdEnabled ci)),
    (default false (li_NestedHVEnabled ci)), (default false (li_VPMCEnabled ci)); cbn; repeat split; reflexivity.
Qed.

Lemma latency_topology_read ci vm :
  CPUAdvanced vm = None →
  let vm' := (backfillCPUTopology ci (backfillLatencySensitivity ci vm).1).1 in
  (CPUAdvanced vm' ≫= ca_LatencySensitivity) = live_latency ci ∧
  (topologySpec vm' ≫= CoresPerSocket) = live_cores ci ∧ (topologySpec vm' ≫= VNUMANodeCount) = live_nodes ci ∧
  from_option (λ c, (ca_HotAddEnabled c, IOMMUEnabled c, NestedHardwareVirtualizationEnabled c, PerformanceCountersEnabled c))
    (None, None, None, None) (CPUAdvanced vm') = (None, None, None, None).
Proof.
  intros Hvm. destruct vm as [r c m]. cbn in Hvm. subst c. cbn zeta.
  unfold backfillCPUTopology, backfillLatencySensitivity, live_latency, live_cores, live_nodes, mutate, topologySpec.
  destruct (li_LatencySensitivity ci) as [ls|]; cbn;
  [destruct (if bool_decide (ls_Level ls = LevelHigh) then _ else _) as [l|]; cbn|];
  (destruct (li_NumCoresPerSocket ci) as [n|]; cbn; [destruct (negb _ && (0 <? n)); cbn|]);
  (destruct (li_NumaInfo ci) as [i|]; cbn; [destruct (ni_CoresPerNumaNode i) as [k|]; cbn;
     [destruct (negb _ && (0 <? li_NumCPU ci) && _ && _); cbn|]|]); repeat split; reflexivity.
Qed.

Lemma backfilled_advanced ci :
  let vm := backfilled ci in
  ((CPUAdvanced vm ≫= ca_LatencySensitivity) = live_latency ci ∧
   (topologySpec vm ≫= CoresPerSocket) = live_cores ci ∧ (topologySpec vm ≫= VNUMANodeCount) = live_nodes ci) ∧
  (desiredCPUHotAddEnabled vm = default false (li_CpuHotAddEnabled ci) ∧
   desiredIOMMU vm = default false (li_VvtdEnabled ci) ∧
   desiredNestedHV vm = default false (li_NestedHVEnabled ci) ∧
   desiredPerfCounters vm = default false (li_VPMCEnabled ci)) ∧
  desiredMemHotAdd vm = default false (li_MemoryHotAddEnabled ci) ∧
  desiredMemReservationLocked vm = default false (li_MemoryReservationLockedToMax ci).
Proof.
  cbn zeta. destruct (backfilled_parts ci) as (_ & (vc & Hvc & Hcpu) & (vmm & Hvm & Hmem)).
  destruct (latency_topology_read ci vc Hvc) as (Hlat & Hcores & Hnodes & Hflags).
  unfold desiredCPUHotAddEnabled, desiredIOMMU, desiredNestedHV, desiredPerfCounters, desiredMemHotAdd,
    desiredMemReservationLocked, topologySpec in *. rewrite Hcpu, Hmem. split_and!.
  - by rewrite (cpu_flags_keep ca_LatencySensitivity).
  - by rewrite (cpu_flags_keep Topology).
  - by rewrite (cpu_flags_keep Topology).
  - by apply (cpu_flags_read ci _ Hflags).
  - by apply (cpu_flags_read ci _ Hflags).
  - by apply (cpu_flags_read ci _ Hflags).
  - by apply (cpu_flags_read ci _ Hflags).
  - unfold backfillMemoryFlags, backfill_memory_flag, mutate. destruct vmm as [r c m]. cbn in Hvm. subst m. cbn.
    destruct (default false (li_MemoryHotAddEnabled ci)), (default false (li_MemoryReservationLockedToMax ci)); reflexivity.
  - unfold backfillMemoryFlags, backfill_memory_flag, mutate. destruct vmm as [r c m]. cbn in Hvm. subst m. cbn.
    destruct (default false (li_MemoryHotAddEnabled ci)), (default false (li_MemoryReservationLockedToMax ci)); reflexivity.
Qed.

(** A configuration that the spec can express: sizes are positive and fit their
    widths; reservations are not negative; limits are positive or -1; the latency
    sensitivity is high or normal, with threads only where it is high; the cores
    per socket are explicit or, from hardware version 20 on, automatic; the cores
    of a NUMA node are automatic or divide the CPUs; devices that need the memory
    lock have it. *)
Record expressible ci : Prop := {
  ex_CPUs : 0 < li_NumCPU ci < 2 ^ 31;
  ex_MemoryMB : 0 < li_MemoryMB ci < 2 ^ 43;
  ex_Cpu : let '(r, l) := allocation_values (li_CpuAllocation ci) in 0 ≤ r ∧ (0 < l ∨ l = -1);
  ex_Memory : let '(r, l) := allocation_values (li_MemoryAllocation ci) in 0 ≤ r < 2 ^ 43 ∧ (0 < l < 2 ^ 43 ∨ l = -1);
  ex_Latency : match li_LatencySensitivity ci with
    | None => li_SimultaneousThreads ci ≤ 1
    | Some ls => ls_Level ls = LevelHigh ∧ (li_SimultaneousThreads ci ≤ 1 ∨ li_SimultaneousThreads ci = 2) ∨
                 ls_Level ls = LevelNormal ∧ li_SimultaneousThreads ci ≤ 1
    end;
  ex_Cores : match li_NumCoresPerSocket ci with
    | Some n => default false (li_AutoCoresPerSocket ci) = false ∧ 0 < n
    | None => VMX20 ≤ parse (li_Version ci) ∧ li_AutoCoresPerSocket ci = Some true ∨ parse (li_Version ci) < VMX20
    end;
  ex_Numa : match li_NumaInfo ci with
    | None => True
    | Some i => if default false (AutoCoresPerNumaNode i) then True
                else ∃ c, ni_CoresPerNumaNode i = Some c ∧ 0 < c ∧ Z.rem (li_NumCPU ci) c = 0
    end;
  ex_Lock : default false (li_MemoryReservationLockedToMax ci) = true ∨ RequiresMemoryReservationLock (li_Device ci) [] = false
}.

(** The desired allocation that is read off an allocation is the allocation. *)
Lemma positive_quantity_value scale val (n : option Z) d :
  (∀ m, 0 < m → n = Some m → val (NewQuantity (scale m)) = m) → (default d n ≤ 0 → default d n = d) →
  from_option val d (positive_quantity scale n) = default d n.
Proof.
  intros Hv Hd. destruct n as [n|]; [|done]. cbn in *. destruct (0 <? n) eqn:E; bool_to_prop; cbn; [by apply Hv|].
  by rewrite Hd.
Qed.

Lemma backfilled_allocations ci :
  expressible ci →
  desiredCPUAllocation (backfilled ci) = allocation_values (li_CpuAllocation ci) ∧
  desiredMemoryAllocation (backfilled ci) = allocation_values (li_MemoryAllocation ci).
Proof using QuantityLaws0.
  intros [_ _ Hc Hm _ _ _ _]. destruct (backfilled_resources ci) as (_ & _ & Hrc & Hlc & Hrm & Hlm).
  unfold desiredCPUAllocation, desiredMemoryAllocation. rewrite Hrc, Hlc, Hrm, Hlm. unfold allocation_values in *.
  split; f_equal; apply positive_quantity_value; try lia; intros m Hpos Hs.
  - apply Value_NewQuantity.
  - apply Value_NewQuantity.
  - rewrite Hs in Hm. cbn in Hm. apply mebibytes_roundtrip. lia.
  - rewrite Hs in Hm. cbn in Hm. apply mebibytes_roundtrip. lia.
Qed.

Lemma quot_quot_exact n c : 0 < n → 0 < c → Z.rem n c = 0 → 0 < Z.quot n c ∧ Z.quot n (Z.quot n c) = c.
Proof.
  intros Hn Hc Hr. pose proof (Z.quot_rem' n c) as E. rewrite Hr, Z.add_0_r in E.
  set (k := Z.quot n c) in *. assert (0 < k) by nia. split; [done|]. rewrite E, Z.quot_mul; [done|lia].
Qed.

Lemma backfilled_vnuma ci : expressible ci → differs vnumaNodeCountField (backfilled ci) ci no_change = false.
Proof.
  intros [Hcpu _ _ _ _ _ Hn _]. destruct (backfilled_advanced ci) as ((_ & _ & Hnodes) & _).
  cbn [differs vnumaNodeCountField]. rewrite Hnodes. unfold live_nodes, resolved_cpus.
  cbn [no_change cc_NumCPUs cc_VirtualNuma mbind option_bind]. cbn [Z.eqb].
  destruct (li_NumaInfo ci) as [i|]; [|done]. cbn [mbind option_bind].
  destruct (default false (AutoCoresPerNumaNode i)); cbn [negb andb] in *; [by destruct (ni_CoresPerNumaNode i)|].
  destruct Hn as (c & -> & Hc & Hr). cbn [mbind option_bind]. rewrite Hr. rewrite !(proj2 (Z.ltb_lt _ _)) by lia. cbn [mbind option_bind andb Z.eqb].
  destruct (quot_quot_exact (li_NumCPU ci) c) as [Hq Hqq]; [lia..|done|].
  rewrite (proj2 (Z.ltb_lt 0 _) Hq). cbn. by rewrite Hqq, Z.eqb_refl.
Qed.

Lemma backfilled_latency ci : expressible ci → differs latencySensitivityField (backfilled ci) ci no_change = false.
Proof.
  intros [_ _ _ _ Hl _ _ _]. destruct (backfilled_advanced ci) as ((Hlat & _) & _).
  cbn [differs latencySensitivityField]. unfold desiredLatencySensitivity. rewrite Hlat. unfold live_latency.
  destruct (li_LatencySensitivity ci) as [ls|]; cbn [mbind option_bind from_option option_rect no_change cc_LatencySensitivity] in *.
  - destruct Hl as [[-> Ht]|[-> Ht]]; cbn [bool_decide decide_rel].
    + rewrite bool_decide_eq_true_2 by done. destruct (li_SimultaneousThreads ci =? 2) eqn:E; cbn; rewrite ?E; [done|].
      destruct (1 <? li_SimultaneousThreads ci) eqn:E'; bool_to_prop; [lia|done].
    + cbn. destruct (1 <? li_SimultaneousThreads ci) eqn:E'; bool_to_prop; [lia|done].
  - cbn. destruct (1 <? li_SimultaneousThreads ci) eqn:E'; bool_to_prop; [lia|done].
Qed.

Lemma backfilled_cores ci :
  expressible ci → differs (coresPerSocketField (parse (li_Version ci))) (backfilled ci) ci no_change = false.
Proof.
  intros [_ _ _ _ _ Hc _ _]. destruct (backfilled_advanced ci) as ((_ & Hcores & _) & _).
  cbn [differs coresPerSocketField]. unfold explicit_cores. rewrite Hcores. unfold live_cores.
  destruct (li_NumCoresPerSocket ci) as [n|]; cbn [mbind option_bind default from_option no_change cc_NumCoresPerSocket].
  - destruct Hc as [-> Hn]. cbn. rewrite (proj2 (Z.ltb_lt _ _) Hn). rewrite (proj2 (Z.ltb_lt _ _) Hn). by rewrite Z.eqb_refl.
  - destruct Hc as [[Hv ->]|Hv]; [by rewrite (proj2 (Z.leb_le _ _) Hv)|]. by rewrite (proj2 (Z.leb_gt _ _) Hv).
Qed.

Lemma backfilled_same ci :
  expressible ci → Forall (λ f, differs f (backfilled ci) ci no_change = false) (computeFields (parse (li_Version ci))).
Proof using QuantityLaws0.
  intros Hex. destruct (backfilled_resources ci) as (Hcpu & Hmem & _).
  destruct (backfilled_allocations ci Hex) as [Hca Hma].
  destruct (backfilled_advanced ci) as (_ & (Hf1 & Hf2 & Hf3 & Hf4) & Hf5 & Hlock).
  pose proof (ex_CPUs _ Hex). pose proof (ex_MemoryMB _ Hex).
  unfold computeFields. rewrite !Forall_cons. split_and!; [..|done].
  - cbn [differs cpuSizeField]. rewrite Hcpu. cbn. rewrite (proj2 (Z.ltb_lt _ _)) by lia.
    rewrite Value_NewQuantity, wrap32_id by (unfold in_int32, id; lia). unfold id. by rewrite Z.eqb_refl.
  - cbn [differs memorySizeField]. rewrite Hmem. cbn. rewrite (proj2 (Z.ltb_lt _ _)) by lia.
    rewrite mebibytes_roundtrip by lia. by rewrite Z.eqb_refl.
  - cbn [differs cpuAllocationField]. rewrite Hca. by rewrite bool_decide_eq_false_2 by (intros E; by apply E).
  - cbn [differs memoryAllocationField]. rewrite Hma. rewrite Z.eqb_refl.
    rewrite bool_decide_eq_false_2 by (intros E; by apply E). by destruct (desiredMemReservationLocked _).
  - by apply backfilled_latency.
  - by apply backfilled_cores.
  - by apply backfilled_vnuma.
  - cbn [differs cpuHotAddFlagField]. unfold flag_differs. by rewrite Hf1, eqb_reflx.
  - cbn [differs iommuField]. unfold flag_differs. by rewrite Hf2, eqb_reflx.
  - cbn [differs nestedHVField]. unfold flag_differs. by rewrite Hf3, eqb_reflx.
  - cbn [differs perfCountersField]. unfold flag_differs. by rewrite Hf4, eqb_reflx.
  - cbn [differs memHotAddFlagField]. unfold flag_differs. by rewrite Hf5, eqb_reflx.
  - cbn [differs memReservationLockedField]. unfold flag_differs. rewrite Hlock, eqb_reflx.
    destruct (ex_Lock _ Hex) as [-> | Hreq]; [done|]. cbn [no_change cc_DeviceChange]. by rewrite Hreq, andb_false_r.
Qed.

(** The backfill is faithful: what it reads off a VM into a blank spec, for a
    configuration that the spec can express, is what the VM has, so that the
    reconfiguration changes nothing and reports nothing, powered on or off. *)
Theorem backfill_roundtrip ci p :
  expressible ci →
  OverwriteSpecComputeConfig parse (ComputeConfigFromMoVM blank (Some ci)).1 ci p no_change = mkOverwrite no_change [] [].
Proof using QuantityLaws0.
  intros Hex. unfold OverwriteSpecComputeConfig. pose proof (backfilled_same ci Hex) as Hfs. revert Hfs.
  generalize (computeFields (Q:=Q) (parse (li_Version ci))). intros fs Hfs.
  induction Hfs as [|f fs Hf _ IH]; [done|]. cbn [foldl overwrite_field]. by rewrite Hf.
Qed.

(** The backfill of a VM whose memory reservation is locked writes both the lock
    and the reservation that vSphere holds, which the webhook does not accept
    together. *)
Theorem backfilled_lock_rejected ci net r :
  li_MemoryReservationLockedToMax ci = Some true → (li_MemoryAllocation ci ≫= ra_Reservation) = Some r → 0 < r →
  ∃ e, e ∈ validateComputeConfig true (ComputeConfigFromMoVM blank (Some ci)).1 net ∧
       err_Type e = ErrorInvalid ∧ err_Field e = "spec.resources.requests.memory".
Proof.
  intros Hl Hr Hpos. destruct (backfilled_resources ci) as (_ & _ & _ & _ & Hrm & _).
  destruct (backfilled_advanced ci) as (_ & _ & _ & Hlock). rewrite Hr in Hrm. rewrite Hl in Hlock.
  unfold positive_quantity in Hrm. rewrite (proj2 (Z.ltb_lt _ _) Hpos) in Hrm.
  eexists. split; [|split].
  - unfold validateComputeConfig. cbn [negb]. do 2 (apply elem_of_app; right). apply elem_of_app; left.
    unfold validateComputeReservationLockedToMax. unfold desiredMemReservationLocked in Hlock. rewrite Hlock.
    cbn [negb default from_option]. rewrite Hrm. rewrite bool_decide_eq_true_2 by done. by left.
  - done.
  - done.
Qed.
End Compose.

(** ** Witnesses *)


Definition ex_unlimited : ComputeSpec Z :=
  mkSpec (Some (mkResources None None (Some (mkQuantity (Some (-1)) (Some (-1)))))) None None.
Lemma unlimited_memory_becomes_zero_witness : (desiredMemoryAllocation ex_unlimited).2 = 0.
Proof. exact (proj2 (proj2 (unlimited_memory_becomes_zero ex_unlimited eq_refl eq_refl))). Defined.

(** A VM with reservations, limits, high latency sensitivity, explicit topology
    and locked memory. *)
Definition ex_upgraded : LiveConfig :=
  mkLive "vmx-21" 8 16384 (Some true) (Some false) (Some (mkAllocation (Some 1000) (Some 4000) None))
    (Some (mkAllocation (Some 16384) (Some (-1)) None)) (Some (mkLatency LevelHigh 0)) 2 (Some 4) (Some false)
    (Some (mkNumaInfo (Some 4) (Some false) None)) (Some true) None (Some false) (Some true)
    [mkLockDevice PCIPassthroughDevice 13000].

Lemma backfill_roundtrip_witness :
  OverwriteSpecComputeConfig (Q:=Z) (λ _, 21) (ComputeConfigFromMoVM blank (Some ex_upgraded)).1 ex_upgraded false no_change =
  mkOverwrite no_change [] [].
Proof.
  refine (backfill_roundtrip (λ _, 21) ex_upgraded false _). split; try (split; vm_compute; congruence).
  - split; [vm_compute; discriminate|by left].
  - split; [split; [vm_compute; discriminate|reflexivity]|by right].
  - left. split; [reflexivity|by right].
  - exists 4. split; [reflexivity|split; reflexivity].
  - by left.
Defined.

Lemma backfilled_lock_rejected_witness :
  ∃ e, e ∈ validateComputeConfig (Q:=Z) true (ComputeConfigFromMoVM blank (Some ex_upgraded)).1 None ∧
       err_Type e = ErrorInvalid ∧ err_Field e = "spec.resources.requests.memory".
Proof. refine (backfilled_lock_rejected ex_upgraded None 16384 _ _ _); reflexivity. Defined.
