(* ===== verification/Volumes.v ===== *)
(** * Volumes of a VM: objects and shared steps

    What the two volume controllers (controllers/virtualmachine/volume and
    volumebatch) share: the volumes of a VM's spec and status, the attachment
    objects of the CSI driver, claims, and the helpers of pkg/util/cns.go,
    pkg/util/vmopv1/target_id.go and api/v1alpha6.

    The API server, the provider and the libraries are the interface
    [VolumeAPI]; a quantity is only copied and stands for its text.  Owner
    references are compared by a library function. *)

From S2P Require Import Prelude Conditions Hardware GoErrors.
Local Open Scope Z_scope.

(** ** Objects *)

Definition quantity : Type := string.

Record InstanceVolumeClaimVolumeSource := mkInstanceClaim { StorageClass : string; ic_Size : quantity }.
Record PersistentVolumeClaimVolumeSource := mkClaimSource {
  ClaimName : string;
  InstanceVolumeClaim : option InstanceVolumeClaimVolumeSource
}.
(** A volume of the spec: what the mutators see of it, and its claim. *)
Record VMVolume := mkVMVolume {
  vv_volume : VirtualMachineVolume;
  PersistentVolumeClaim : option PersistentVolumeClaimVolumeSource
}.
Definition vv_Name (v : VMVolume) : string := vol_Name (vv_volume v).

Inductive VolumeType := VolumeTypeClassic | VolumeTypeManaged | OtherVolumeType (s : string).
#[global] Instance VolumeType_eq_dec : EqDecision VolumeType.
Proof. solve_decision. Defined.

Record VolumeCryptoStatus := mkVolumeCrypto { ProviderID : string; vc_KeyID : string }.

Record VirtualMachineVolumeStatus := mkVolumeStatus {
  vs_Name : string;
  vs_ControllerBusNumber : option Z;
  vs_ControllerType : VirtualControllerType;
  vs_UnitNumber : option Z;
  vs_Type : VolumeType;
  vs_DiskMode : string;
  vs_SharingMode : string;
  vs_ProvisioningMode : string;
  vs_Crypto : option VolumeCryptoStatus;
  vs_Limit : option quantity;
  vs_Requested : option quantity;
  vs_Used : option quantity;
  vs_Attached : bool;
  vs_DiskUUID : string;
  vs_Error : string
}.

Record ControllerStatus := mkControllerStatus {
  cst_BusNumber : Z;
  cst_Type : VirtualControllerType;
  DeviceKey : Z
}.

Record OwnerReference := mkOwnerReference { or_UID : string; or_Controller : bool }.

(** What the volume controllers read and write of a VM.  [vm_Hardware] is the
    pointer to the hardware status; [vm_Crypto] the encryption class of its
    crypto settings. *)
Record VolumeVM := mkVolumeVM {
  vm_Namespace : string;
  vm_Name : string;
  vm_UID : string;
  vm_Annotations : gmap string string;
  vm_Labels : gmap string string;
  vm_Deleting : bool;
  vm_Volumes : list VMVolume;
  vm_Crypto : option string;
  vm_InstanceUUID : string;
  vm_BiosUUID : string;
  vm_Zone : string;
  vm_PowerState : string;
  vm_Hardware : option (list ControllerStatus);
  vm_StatusVolumes : list VirtualMachineVolumeStatus
}.

Definition set_vm_Annotations (a : gmap string string) (vm : VolumeVM) : VolumeVM :=
  mkVolumeVM (vm_Namespace vm) (vm_Name vm) (vm_UID vm) a (vm_Labels vm) (vm_Deleting vm) (vm_Volumes vm) (vm_Crypto vm)
    (vm_InstanceUUID vm) (vm_BiosUUID vm) (vm_Zone vm) (vm_PowerState vm) (vm_Hardware vm) (vm_StatusVolumes vm).
Definition set_vm_StatusVolumes (s : list VirtualMachineVolumeStatus) (vm : VolumeVM) : VolumeVM :=
  mkVolumeVM (vm_Namespace vm) (vm_Name vm) (vm_UID vm) (vm_Annotations vm) (vm_Labels vm) (vm_Deleting vm)
    (vm_Volumes vm) (vm_Crypto vm) (vm_InstanceUUID vm) (vm_BiosUUID vm) (vm_Zone vm) (vm_PowerState vm) (vm_Hardware vm) s.

(** ** The objects of the CSI driver *)

Record CnsNodeVmAttachment := mkAttachment {
  at_Namespace : string;
  at_Name : string;
  at_OwnerReferences : list OwnerReference;
  at_Deleting : bool;
  at_NodeUUID : string;
  at_VolumeName : string;
  at_Attached : bool;
  at_Metadata : gmap string string;
  at_Error : string
}.
Definition AttributeFirstClassDiskUUID : string := "diskUUID".

Record PersistentVolumeClaimSpec := mkClaimSpec {
  cs_ClaimName : string;
  cs_DiskMode : string;
  cs_SharingMode : string;
  ControllerKey : option Z;
  cs_UnitNumber : option Z
}.
Record VolumeSpec := mkVolumeSpec { sp_Name : string; sp_Claim : PersistentVolumeClaimSpec }.
Record VolumeStatus := mkCnsStatus {
  st_Name : string;
  st_ClaimName : string;
  st_DiskUUID : string;
  st_Conditions : list Condition
}.
Record CnsNodeVMBatchAttachment := mkBatch {
  ba_Namespace : string;
  ba_Name : string;
  ba_OwnerReferences : list OwnerReference;
  ba_InstanceUUID : string;
  ba_Volumes : list VolumeSpec;
  ba_VolumeStatus : list VolumeStatus
}.
Definition ConditionAttached : string := "VolumeAttached".
Definition ConditionDetached : string := "VolumeDetached".

Definition IndependentPersistent : string := "independent_persistent".
Definition Persistent : string := "persistent".
Definition IndependentNonPersistent : string := "independent_nonpersistent".
Definition NonPersistent : string := "nonpersistent".
Definition SharingMultiWriter : string := "sharingMultiWriter".
Definition SharingNone : string := "sharingNone".

(** ** Claims *)

Record TypedObjectReference := mkObjectReference { dr_APIGroup : option string; dr_Kind : string; dr_Name : string }.
Record Claim := mkClaim {
  pvc_Namespace : string;
  pvc_Name : string;
  pvc_Labels : gmap string string;
  pvc_Annotations : gmap string string;
  pvc_OwnerReferences : list OwnerReference;
  pvc_Deleting : bool;
  pvc_Created : Z;
  StorageClassName : option string;
  AccessModes : list string;
  DataSourceRef : option TypedObjectReference;
  pvc_Requests : option quantity;
  pvc_Limits : option quantity;
  pvc_Phase : string
}.
Definition ClaimBound : string := "Bound".
Definition set_pvc_Annotations (a : gmap string string) (p : Claim) : Claim :=
  mkClaim (pvc_Namespace p) (pvc_Name p) (pvc_Labels p) a (pvc_OwnerReferences p) (pvc_Deleting p) (pvc_Created p)
    (StorageClassName p) (AccessModes p) (DataSourceRef p) (pvc_Requests p) (pvc_Limits p) (pvc_Phase p).

Definition AnnSelectedNode : string := "volume.kubernetes.io/selected-node".
Definition CNSSelectedNodeIsZoneAnnotationKey : string := "cns.vmware.com/selected-node-is-zone".
Definition LabelTopologyZone : string := "topology.kubernetes.io/zone".
Definition VolumeBindingWaitForFirstConsumer : string := "WaitForFirstConsumer".
Definition PauseAnnotation : string := "vmoperator.vmware.com/paused".
Definition PausedVMLabelKey : string := "vmoperator.vmware.com/paused".
Definition MinSupportedHWVersionForPVC : Z := 15.

(** A Go map read at an absent key gives the empty string. *)
Definition map_get (m : gmap string string) (k : string) : string := default "" (m !! k).

(** ** The interface *)

Class VolumeAPI (W : Type) := {
  va_Now : W → Z;
  va_IsNotFound : goerror → bool;
  va_IsAlreadyExists : goerror → bool;
  va_GetVM : string → string → W → goerror + VolumeVM;
  va_NewHelper : VolumeVM → option goerror;
  va_Patch : VolumeVM → VolumeVM → W → W * option goerror;
  va_ListAttachments : string → string → W → goerror + list CnsNodeVmAttachment;
  va_GetAttachment : string → string → W → goerror + CnsNodeVmAttachment;
  va_CreateAttachment : CnsNodeVmAttachment → W → W * option goerror;
  va_DeleteAttachment : CnsNodeVmAttachment → W → W * option goerror;
  va_GetBatch : string → string → W → goerror + CnsNodeVMBatchAttachment;
  va_CreateOrPatchBatch : string → string →
    (CnsNodeVMBatchAttachment → goerror + CnsNodeVMBatchAttachment) → W → W * option goerror;
  va_GetPVC : string → string → W → goerror + Claim;
  va_UpdatePVC : Claim → W → W * option goerror;
  va_CreatePVC : Claim → W → W * option goerror;
  va_DeletePVC : string → string → W → W * option goerror;
  va_GetStorageClass : string → W → goerror + option string;
  va_HardwareVersion : VolumeVM → W → goerror + Z;
  va_IsValidHardwareVersion : Z → bool;
  va_IsControlledBy : list OwnerReference → string → bool;
  va_SetControllerReference : VolumeVM → list OwnerReference → goerror + list OwnerReference;
  va_Jitter : Z → W → Z;
  (** [%q] of a string and of an integer. *)
  Quote : string → string;
  QuoteRune : Z → string;
  (** The order in which a map is ranged over. *)
  range {A} : gmap string A → list (string * A);
  range_perm {A} (m : gmap string A) : range m ≡ₚ map_to_list m
}.

(** The part of the configuration that is read. *)
Record VolumeConfig := mkVolumeConfig {
  InstanceStorage : bool;
  VMWaitForFirstConsumerPVC : bool;
  SeedRequeueDuration : Z;
  PVPlacementFailedTTL : Z
}.

(** ** Helpers *)

Definition CNSAttachmentNameForVolume (vmName volumeName : string) : string := vmName +:+ "-" +:+ volumeName.
Definition CNSBatchAttachmentNameForVM (vmName : string) : string := vmName.

Definition SanitizeCNSErrorMessage (msg : string) : string :=
  if Contains msg "opId:" then
    match String.index 0 ":" msg with Some idx => String.substring 0 idx msg | None => msg end
  else msg.

Definition VolumeDiskModePersistent : string := "Persistent".
Definition VolumeDiskModeIndependentPersistent : string := "IndependentPersistent".
Definition VolumeDiskModeNonPersistent : string := "NonPersistent".
Definition VolumeDiskModeIndependentNonPersistent : string := "IndependentNonPersistent".
Definition VolumeSharingModeNone : string := "None".
Definition VolumeSharingModeMultiWriter : string := "MultiWriter".

Definition GetCnsDiskModeFromDiskMode (diskMode : string) : goerror + string :=
  if bool_decide (diskMode = VolumeDiskModePersistent) then inr Persistent
  else if bool_decide (diskMode = VolumeDiskModeIndependentPersistent) then inr IndependentPersistent
  else if bool_decide (diskMode = VolumeDiskModeIndependentNonPersistent) then inr IndependentNonPersistent
  else if bool_decide (diskMode = VolumeDiskModeNonPersistent) then inr NonPersistent
  else inl (ErrorString ("unsupported disk mode: " +:+ diskMode)).

Definition GetCnsSharingModeFromSharingMode (sharingMode : string) : goerror + string :=
  if bool_decide (sharingMode = VolumeSharingModeNone) then inr SharingNone
  else if bool_decide (sharingMode = VolumeSharingModeMultiWriter) then inr SharingMultiWriter
  else inl (ErrorString ("unsupported sharing mode: " +:+ sharingMode)).

(** [fmt] of a number and of a controller type. *)
Definition format_int (n : Z) : string :=
  if n <? 0 then "-" +:+ format_digits 20 (- n) "" else format_digits 20 n "".
Definition controller_type_string (t : VirtualControllerType) : string :=
  match t with
  | VirtualControllerTypeIDE => "IDE"
  | VirtualControllerTypeNVME => "NVME"
  | VirtualControllerTypeSCSI => "SCSI"
  | VirtualControllerTypeSATA => "SATA"
  | NoControllerType => ""
  | OtherControllerType s => s
  end.

Definition GetTargetID (ct : VirtualControllerType) (cb un : option Z) : string :=
  if bool_decide (controller_type_string ct = "") then ""
  else match cb, un with
       | Some cb, Some un => controller_type_string ct +:+ ":" +:+ format_int cb +:+ ":" +:+ format_int un
       | _, _ => ""
       end.

Definition SortVirtualMachineVolumeStatuses (s : list VirtualMachineVolumeStatus) : list VirtualMachineVolumeStatus :=
  go_sort (λ a b, string_lt (vs_DiskUUID a) (vs_DiskUUID b)) s.

(** [apierrorsutil.NewAggregate]: nil errors are dropped, none gives nil. *)
Definition NewAggregate (errs : list (option goerror)) : option goerror :=
  match omap id errs with [] => None | l => Some (Aggregate l) end.

Section Shared.
Context {W : Type} `{ErrorsLib} `{VolumeAPI W}.
Implicit Types (vm : VolumeVM) (w : W).

Definition GetCnsNodeVMAttachmentsForVM vm w : goerror + gmap string CnsNodeVmAttachment :=
  if bool_decide (vm_BiosUUID vm = "") then inr ∅
  else match va_ListAttachments (vm_Namespace vm) (ToLower (vm_BiosUUID vm)) w with
       | inl err => inl (Wrapped "failed to list CnsNodeVmAttachments" err)
       | inr items => inr (foldl (λ m a, <[at_Name a := a]> m) ∅ items)
       end.

(** The claims that the volumes of the spec have, by the name of the attachment. *)
Definition expected_attachments vm : gmap string string :=
  foldl (λ m volume, match PersistentVolumeClaim volume with
                     | Some c => <[CNSAttachmentNameForVolume (vm_Name vm) (vv_Name volume) := ClaimName c]> m
                     | None => m
                     end) ∅ (vm_Volumes vm).

Definition attachment_disk (a : CnsNodeVmAttachment) : string := map_get (at_Metadata a) AttributeFirstClassDiskUUID.

(** The status of a volume with an attachment. *)
Definition legacyAttachmentToVolumeStatus (volumeName : string) (a : CnsNodeVmAttachment) : VirtualMachineVolumeStatus :=
  mkVolumeStatus volumeName None NoControllerType None VolumeTypeManaged "" "" "" None None None None
    (at_Attached a) (attachment_disk a) (SanitizeCNSErrorMessage (at_Error a)).

Definition volumeNameDetachSuffix : string := ":detaching".
Definition detaching_name (volName : string) : string :=
  if HasSuffix volName volumeNameDetachSuffix then volName else volName +:+ volumeNameDetachSuffix.

(** The attachments by the disk they hold. *)
Definition attachments_by_disk (attachments : list CnsNodeVmAttachment) : gmap string CnsNodeVmAttachment :=
  foldl (λ m a, if bool_decide (attachment_disk a = "") then m else <[attachment_disk a := a]> m) ∅ attachments.

(** The entries of the status whose disk an orphaned attachment holds, renamed. *)
Definition detaching_statuses vm (orphaned : list CnsNodeVmAttachment) : list VirtualMachineVolumeStatus :=
  let uuidAttachments := attachments_by_disk orphaned in
  omap (λ volume, (λ a, legacyAttachmentToVolumeStatus (detaching_name (vs_Name volume)) a)
                    <$> uuidAttachments !! vs_DiskUUID volume) (vm_StatusVolumes vm).

(** The entries of managed volumes by name. *)
Definition managed_statuses vm : gmap string VirtualMachineVolumeStatus :=
  foldl (λ m vol, if bool_decide (vs_Type vol = VolumeTypeClassic) then m else <[vs_Name vol := vol]> m) ∅
    (vm_StatusVolumes vm).

Definition set_capacity (requested limit : option quantity) (s : VirtualMachineVolumeStatus) : VirtualMachineVolumeStatus :=
  mkVolumeStatus (vs_Name s) (vs_ControllerBusNumber s) (vs_ControllerType s) (vs_UnitNumber s) (vs_Type s) (vs_DiskMode s)
    (vs_SharingMode s) (vs_ProvisioningMode s) (vs_Crypto s) limit requested (vs_Used s) (vs_Attached s) (vs_DiskUUID s)
    (vs_Error s).

(** Capacities of a claim; what they were remains if the claim is not found. *)
Definition updateVolumeStatusWithPVCInfo vm (pvcName : string) (s : VirtualMachineVolumeStatus) w
    : VirtualMachineVolumeStatus :=
  match va_GetPVC (vm_Namespace vm) pvcName w with
  | inl _ => s
  | inr pvc =>
    let requested := match pvc_Requests pvc with Some v => Some v | None => vs_Requested s end in
    set_capacity requested (match pvc_Limits pvc with Some v => Some v | None => requested end) s
  end.

(** The update of the status at the end: managed entries are replaced. *)
Definition updateVMVolumeStatus vm (v1 v2 : list VirtualMachineVolumeStatus) : VolumeVM :=
  set_vm_StatusVolumes
    (SortVirtualMachineVolumeStatuses
       (filter (λ e, vs_Type e = VolumeTypeClassic) (vm_StatusVolumes vm) ++ v1 ++ v2)) vm.

(** ** Claims that wait for their first consumer *)

(** The part of handlePVCWithWFFC that both controllers have: [prefix] ends the
    text of two errors. *)
Definition select_node (cfg : VolumeConfig) vm (pvc : Claim) (noClass : string) (getClass : string) w : W * option goerror :=
  if bool_decide (pvc_Phase pvc = ClaimBound) then (w, None)
  else if bool_decide (map_get (pvc_Annotations pvc) AnnSelectedNode ≠ "") then (w, None)
  else match StorageClassName pvc with
       | None => (w, Some (ErrorString noClass))
       | Some scName =>
         if bool_decide (scName = "") then (w, None)
         else match va_GetStorageClass scName w with
              | inl err => (w, Some (Wrapped getClass err))
              | inr mode =>
                if bool_decide (mode ≠ Some VolumeBindingWaitForFirstConsumer) then (w, None)
                else if negb (VMWaitForFirstConsumerPVC cfg)
                then (w, Some (ErrorString "PVC with WFFC storage class support is not enabled"))
                else
                  let zoneName := if bool_decide (vm_Zone vm = "") then map_get (vm_Labels vm) LabelTopologyZone
                                  else vm_Zone vm in
                  if bool_decide (zoneName = "") then (w, Some (ErrorString "VM does not have Zone set"))
                  else
                    let annotations := <[AnnSelectedNode := zoneName]>
                      (<[CNSSelectedNodeIsZoneAnnotationKey := "true"]> (pvc_Annotations pvc)) in
                    match va_UpdatePVC (set_pvc_Annotations annotations pvc) w with
                    | (w, Some err) => (w, Some (Wrapped "cannot update PVC to add selected-node annotation" err))
                    | (w, None) => (w, None)
                    end
              end
       end.
End Shared.
