(* ===== verification/InstanceStorage.v ===== *)
(** * Instance storage

    pkg/util/vmopv1/instancestorage.go: a VM's instance storage volumes are
    claims that the operator creates on the node that was selected for the VM;
    when a claim fails there, placement starts over.  Events are left out. *)

From S2P Require Import Prelude Conditions Hardware GoErrors Volumes.
Local Open Scope Z_scope.

Definition InstanceStorageLabelKey : string := "vmoperator.vmware.com/instance-storage-resource".
Definition InstanceStoragePVCsBoundAnnotationKey : string := "vmoperator.vmware.com/instance-storage-pvcs-bound".
Definition InstanceStoragePVPlacementErrorAnnotationKey : string := "failure-domain.beta.vmware.com/storagepool".
Definition InstanceStorageSelectedNodeMOIDAnnotationKey : string := "vmoperator.vmware.com/instance-storage-selected-node-moid".
Definition InstanceStorageSelectedNodeAnnotationKey : string := "vmoperator.vmware.com/instance-storage-selected-node".
Definition InstanceStoragePVPlacementErrorPrefix : string := "FAILED_".
Definition EncryptionClassNameAnnotation : string := "encryption.vmware.com/encryption-class-name".
Definition ReadWriteOnce : string := "ReadWriteOnce".

Definition is_instance_volume (vol : VMVolume) : bool :=
  match PersistentVolumeClaim vol with
  | Some pvc => match InstanceVolumeClaim pvc with Some _ => true | None => false end
  | None => false
  end.

Definition IsInstanceStoragePresent (vm : VolumeVM) : bool := existsb is_instance_volume (vm_Volumes vm).
Definition FilterInstanceStorageVolumes (vm : VolumeVM) : list VMVolume :=
  List.filter is_instance_volume (vm_Volumes vm).

Section Instance.
Context {W : Type} `{ErrorsLib} `{VolumeAPI W}.
Implicit Types (vm : VolumeVM) (w : W) (cfg : VolumeConfig).

Definition ShouldRequeueForInstanceStoragePVCs cfg vm w : Result :=
  if negb (InstanceStorage cfg) then no_result
  else if negb (bool_decide (is_Some (vm_Annotations vm !! InstanceStoragePVCsBoundAnnotationKey))) &&
          IsInstanceStoragePresent vm
  then mkResult false (va_Jitter (SeedRequeueDuration cfg) w)
  else no_result.

(** The claim name of an instance storage volume. *)
Definition claim_name (vol : VMVolume) : string := from_option ClaimName "" (PersistentVolumeClaim vol).

Fixpoint getInstanceStoragePVCs (namespace : string) (volumes : list VMVolume) w : list Claim * list goerror :=
  match volumes with
  | [] => ([], [])
  | vol :: volumes' =>
    let '(pvcs, errs) := getInstanceStoragePVCs namespace volumes' w in
    match va_GetPVC namespace (claim_name vol) w with
    | inl err => (pvcs, if va_IsNotFound err then errs else err :: errs)
    | inr pvc => (pvc :: pvcs, errs)
    end
  end.

Fixpoint deleteInstanceStoragePVCs (keys : list (string * string)) w : W * list goerror :=
  match keys with
  | [] => (w, [])
  | (name, namespace) :: keys' =>
    let '(w, err) := va_DeletePVC namespace name w in
    let '(w, errs) := deleteInstanceStoragePVCs keys' w in
    (w, match err with
        | Some e => if va_IsNotFound e then errs else e :: errs
        | None => errs
        end)
  end.

Definition createInstanceStoragePVC vm (vol : VMVolume) (claim : InstanceVolumeClaimVolumeSource) (selectedNode : string) w
    : W * option goerror :=
  let annotations : gmap string string := {[AnnSelectedNode := selectedNode]} in
  let annotations := match vm_Crypto vm with
                     | Some c => if bool_decide (c = "") then annotations
                                 else <[EncryptionClassNameAnnotation := c]> annotations
                     | None => annotations
                     end in
  match va_SetControllerReference vm [] with
  | inl err => (w, Some (Wrapped "cannot set controller reference on PersistentVolumeClaim" err))
  | inr owners =>
    va_CreatePVC (mkClaim (vm_Namespace vm) (claim_name vol) {[InstanceStorageLabelKey := "true"]} annotations owners false 0
                    (Some (StorageClass claim)) [ReadWriteOnce] None (Some (ic_Size claim)) None "") w
  end.

Fixpoint createMissingInstanceStoragePVCs vm (volumes : list VMVolume) (existingVolumes : gset string)
    (selectedNode : string) w : W * list goerror :=
  match volumes with
  | [] => (w, [])
  | vol :: volumes' =>
    let '(w, err) :=
      if bool_decide (vv_Name vol ∈ existingVolumes) then (w, None)
      else match PersistentVolumeClaim vol ≫= InstanceVolumeClaim with
           | Some claim => createInstanceStoragePVC vm vol claim selectedNode w
           | None => (w, None)
           end in
    let '(w, errs) := createMissingInstanceStoragePVCs vm volumes' existingVolumes selectedNode w in
    (w, match err with Some e => e :: errs | None => errs end)
  end.

Definition instanceStoragePVCFailed cfg (pvc : Claim) w : bool :=
  HasPrefix (map_get (pvc_Annotations pvc) InstanceStoragePVPlacementErrorAnnotationKey)
    InstanceStoragePVPlacementErrorPrefix &&
  (PVPlacementFailedTTL cfg <=? va_Now w - pvc_Created pvc).

Definition instanceStoragePlacementFailed vm (failedVolumes : gmap string unit) w : W * VolumeVM * option goerror :=
  let vm := set_vm_Annotations
    (delete InstanceStorageSelectedNodeMOIDAnnotationKey
       (delete InstanceStorageSelectedNodeAnnotationKey (vm_Annotations vm))) vm in
  let '(w, errs) := deleteInstanceStoragePVCs ((λ p, (p.1, vm_Namespace vm)) <$> range failedVolumes) w in
  (w, vm, NewAggregate (Some <$> errs)).

(** What the loop over the claims gathers. *)
Record instance_scan := mkScan {
  stalePVCs : list (string * string);
  existingVolumes : gset string;
  failedVolumes : gmap string unit;
  boundCount : nat
}.

(** One claim; [w] gives the time. *)
Definition scan_claim cfg vm (selectedNode : string) w (st : instance_scan) (pvc : Claim) : instance_scan :=
  let '(mkScan stale existing failed bound) := st in
  if pvc_Deleting pvc then st
  else if negb (va_IsControlledBy (pvc_OwnerReferences pvc) (vm_UID vm)) then st
  else
    let existing := {[pvc_Name pvc]} ∪ existing in
    if bool_decide (pvc_Annotations pvc !! AnnSelectedNode ≠ Some selectedNode)
    then mkScan (stale ++ [(pvc_Name pvc, pvc_Namespace pvc)]) existing failed bound
    else if instanceStoragePVCFailed cfg pvc w
    then mkScan stale existing (<[pvc_Name pvc := tt]> failed) bound
    else if bool_decide (pvc_Phase pvc ≠ ClaimBound) then mkScan stale existing failed bound
    else mkScan stale existing failed (S bound).

Definition ReconcileInstanceStoragePVCs cfg vm w : W * VolumeVM * bool * option goerror :=
  let isVolumes := FilterInstanceStorageVolumes vm in
  match isVolumes with
  | [] => (w, vm, true, None)
  | _ =>
    let '(pvcList, getErrs) := getInstanceStoragePVCs (vm_Namespace vm) isVolumes w in
    match getErrs with
    | _ :: _ => (w, vm, false, NewAggregate (Some <$> getErrs))
    | [] =>
      let selectedNode := map_get (vm_Annotations vm) InstanceStorageSelectedNodeAnnotationKey in
      let st := foldl (scan_claim cfg vm selectedNode w) (mkScan [] ∅ ∅ 0) pvcList in
      if bool_decide (failedVolumes st ≠ ∅)
      then let '(w, vm, err) := instanceStoragePlacementFailed vm (failedVolumes st) w in (w, vm, false, err)
      else
        let '(w, deleteErrs) := deleteInstanceStoragePVCs (stalePVCs st) w in
        let '(w, createErrs) :=
          if bool_decide (selectedNode = "") then (w, [])
          else createMissingInstanceStoragePVCs vm isVolumes (existingVolumes st) selectedNode w in
        let fullyBound := bool_decide (boundCount st = length isVolumes) in
        let vm := if fullyBound
                  then set_vm_Annotations (<[InstanceStoragePVCsBoundAnnotationKey := "true"]> (vm_Annotations vm)) vm
                  else vm in
        (w, vm, fullyBound, NewAggregate (Some <$> (deleteErrs ++ createErrs)))
    end
  end.
End Instance.
