(* ===== verification/VolumeFrame.v ===== *)
(** * What the volume controllers may rely on

    The laws of [VolumeAPI] that the theorems on the two volume controllers use,
    and what their shared steps leave unchanged: instance storage and the
    selection of a node only touch claims. *)

From S2P Require Import Prelude Conditions Hardware GoErrors Volumes InstanceStorage.
Local Open Scope Z_scope.

(** What the theorems rely on: claims and attachments are other objects than the
    batch attachment, CreateOrPatch hands the stored object, or an empty one, to
    the callback and stores what that returns, and an update of the annotations
    of a claim leaves the phase and the data source of all claims. *)
Definition claim_state (p : Claim) : string * option TypedObjectReference := (pvc_Phase p, DataSourceRef p).
Definition found_state (r : goerror + Claim) : option (string * option TypedObjectReference) :=
  match r with inl _ => None | inr p => Some (claim_state p) end.

Definition empty_batch (namespace name : string) : CnsNodeVMBatchAttachment := mkBatch namespace name [] "" [] [].

Class VolumeLaws (W : Type) `{VolumeAPI W} := {
  vl_delete_attachment a w w' e : va_DeleteAttachment a w = (w', e) →
    (∀ ns n, va_GetBatch ns n w' = va_GetBatch ns n w) ∧
    (∀ ns n e, va_GetAttachment ns n w = inl e → ∃ e', va_GetAttachment ns n w' = inl e') ∧
    (∀ ns n, va_GetPVC ns n w' = va_GetPVC ns n w);
  vl_create_attachment a w w' e : va_CreateAttachment a w = (w', e) →
    ∀ ns n, (ns, n) ≠ (at_Namespace a, at_Name a) → va_GetAttachment ns n w' = va_GetAttachment ns n w;
  vl_create_pvc p w w' e : va_CreatePVC p w = (w', e) →
    (∀ ns n, va_GetBatch ns n w' = va_GetBatch ns n w) ∧
    (∀ ns u, va_ListAttachments ns u w' = va_ListAttachments ns u w) ∧
    (∀ ns n, va_GetAttachment ns n w' = va_GetAttachment ns n w);
  vl_delete_pvc ns n w w' e : va_DeletePVC ns n w = (w', e) →
    (∀ ns n, va_GetBatch ns n w' = va_GetBatch ns n w) ∧
    (∀ ns u, va_ListAttachments ns u w' = va_ListAttachments ns u w) ∧
    (∀ ns n, va_GetAttachment ns n w' = va_GetAttachment ns n w);
  vl_update_pvc p w w' e : va_UpdatePVC p w = (w', e) →
    (∀ ns n, va_GetBatch ns n w' = va_GetBatch ns n w) ∧
    (∀ ns n, va_GetAttachment ns n w' = va_GetAttachment ns n w) ∧
    ∀ q a, va_GetPVC (pvc_Namespace q) (pvc_Name q) w = inr q → p = set_pvc_Annotations a q →
      ∀ ns n, found_state (va_GetPVC ns n w') = found_state (va_GetPVC ns n w);
  vl_get_pvc ns n w p : va_GetPVC ns n w = inr p → pvc_Namespace p = ns ∧ pvc_Name p = n;
  vl_create_or_patch ns n f w w' : va_CreateOrPatchBatch ns n f w = (w', None) →
    ∃ b b', f b = inr b' ∧ va_GetBatch ns n w' = inr b' ∧
      match va_GetBatch ns n w with inr b0 => b = b0 | inl _ => b = empty_batch ns n end;
  vl_create_or_patch_error ns n f w w' e : va_CreateOrPatchBatch ns n f w = (w', Some e) →
    va_GetBatch ns n w' = va_GetBatch ns n w ∨ ∃ b b', f b = inr b' ∧ va_GetBatch ns n w' = inr b'
}.

Section Frame.
Context {W : Type} `{ErrorsLib} `{VolumeAPI W} `{!VolumeLaws W}.
Implicit Types (vm : VolumeVM) (w : W) (cfg : VolumeConfig).

(** ** Which worlds have the same batch attachments *)

Definition same_batch w w' : Prop := ∀ ns n, va_GetBatch ns n w' = va_GetBatch ns n w.

#[global] Instance same_batch_po : PreOrder same_batch.
Proof. split; [by intros w ns n|]. intros w1 w2 w3 H1 H2 ns n. by rewrite H2, H1. Qed.

(** The claim of a world with the same claims, as far as the loop looks at them. *)
Definition same_claims w w' : Prop := ∀ ns n, found_state (va_GetPVC ns n w') = found_state (va_GetPVC ns n w).

#[global] Instance same_claims_po : PreOrder same_claims.
Proof. split; [by intros w ns n|]. intros w1 w2 w3 H1 H2 ns n. by rewrite H2, H1. Qed.

Lemma select_node_same cfg vm pvc m1 m2 w w' err ns n :
  va_GetPVC ns n w = inr pvc → select_node cfg vm pvc m1 m2 w = (w', err) →
  same_batch w w' ∧ same_claims w w' ∧ ∀ ns n, va_GetAttachment ns n w' = va_GetAttachment ns n w.
Proof using VolumeLaws0.
  intros Hget. unfold select_node.
  assert (same_batch w w ∧ same_claims w w ∧ ∀ ns n, va_GetAttachment ns n w = va_GetAttachment ns n w) as Hrefl by done.
  repeat (case_match; [by intros [= <- _]|]). destruct (StorageClassName pvc) as [sc|]; [|by intros [= <- _]].
  case_match; [by intros [= <- _]|]. destruct (va_GetStorageClass sc w); [by intros [= <- _]|].
  repeat (case_match; [by intros [= <- _]|]).
  destruct (va_UpdatePVC _ w) as [w1 e] eqn:E. intros Hw.
  assert (w' = w1) as -> by (destruct e; congruence).
  destruct (vl_update_pvc _ _ _ _ E) as (Hb & Ha & Hc). destruct (vl_get_pvc _ _ _ _ Hget) as [<- <-].
  split_and!; [done| |done]. intros ns' n'. by eapply Hc.
Qed.

(** ** Instance storage leaves the attachments *)

Definition same_legacy w w' : Prop := ∀ ns u, va_ListAttachments ns u w' = va_ListAttachments ns u w.
Definition same_objects w w' : Prop := ∀ ns n, va_GetAttachment ns n w' = va_GetAttachment ns n w.
Definition same_attachments w w' : Prop := same_batch w w' ∧ same_legacy w w' ∧ same_objects w w'.

#[global] Instance same_attachments_po : PreOrder same_attachments.
Proof.
  split; [by intros w; split_and!; intros ??|]. intros w1 w2 w3 (H1 & H1' & H1'') (H2 & H2' & H2'').
  split_and!; intros ??; [by rewrite H2, H1|by rewrite H2', H1'|by rewrite H2'', H1''].
Qed.

Lemma delete_pvcs_same keys w w' errs : deleteInstanceStoragePVCs keys w = (w', errs) → same_attachments w w'.
Proof using VolumeLaws0.
  revert w errs. induction keys as [|[n ns] keys IH]; cbn [deleteInstanceStoragePVCs]; intros w errs; [by intros [= -> _]|].
  destruct (va_DeletePVC ns n w) as [w1 e] eqn:E. destruct (deleteInstanceStoragePVCs keys w1) as [w2 errs'] eqn:E'.
  intros [= <- _]. transitivity w1; [exact (vl_delete_pvc _ _ _ _ _ E)|by eapply IH].
Qed.

Lemma create_pvcs_same vm vols ex node w w' errs :
  createMissingInstanceStoragePVCs vm vols ex node w = (w', errs) → same_attachments w w'.
Proof using VolumeLaws0.
  revert w errs. induction vols as [|v vols IH]; cbn [createMissingInstanceStoragePVCs]; intros w errs; [by intros [= -> _]|].
  destruct (if bool_decide _ then _ else _) as [w1 e] eqn:E.
  destruct (createMissingInstanceStoragePVCs vm vols ex node w1) as [w2 errs'] eqn:E'. intros [= <- _].
  transitivity w1; [|by eapply IH]. destruct (bool_decide _); [by simplify_eq|].
  destruct (PersistentVolumeClaim v ≫= InstanceVolumeClaim); [|by simplify_eq].
  unfold createInstanceStoragePVC in E. destruct (va_SetControllerReference vm []); [by simplify_eq|].
  exact (vl_create_pvc _ _ _ _ E).
Qed.

Lemma instance_storage_frame cfg vm w w' vm' ready err :
  ReconcileInstanceStoragePVCs cfg vm w = (w', vm', ready, err) →
  same_attachments w w' ∧ ∃ a, vm' = set_vm_Annotations a vm.
Proof using VolumeLaws0.
  assert (vm = set_vm_Annotations (vm_Annotations vm) vm) as Hvm by (by destruct vm).
  unfold ReconcileInstanceStoragePVCs. destruct (FilterInstanceStorageVolumes vm) as [|v vs].
  { intros [= <- <- _ _]. split; [done|by eexists]. }
  destruct (getInstanceStoragePVCs _ _ w) as [pvcs errs]. destruct errs as [|e errs].
  2:{ intros [= <- <- _ _]. split; [done|by eexists]. }
  case_match.
  - unfold instanceStoragePlacementFailed. destruct (deleteInstanceStoragePVCs _ w) as [w1 errs] eqn:Ed.
    intros [= <- <- _ _]. split; [by eapply delete_pvcs_same|by eexists].
  - destruct (deleteInstanceStoragePVCs _ w) as [w1 errs] eqn:Ed.
    destruct (if bool_decide _ then (w1, []) else _) as [w2 errs2] eqn:Ec. intros [= <- <- _ _]. split.
    + transitivity w1; [by eapply delete_pvcs_same|]. destruct (bool_decide (map_get _ _ = "")); [by simplify_eq|].
      by eapply create_pvcs_same.
    + destruct (bool_decide (boundCount _ = _)); eexists; (exact Hvm || reflexivity).
Qed.

End Frame.
