(* ===== verification/VolumeBatch.v ===== *)
(** * The batch volume controller

    controllers/virtualmachine/volumebatch: the volumes of a VM's spec are
    written into one CnsNodeVMBatchAttachment, from which the CSI driver
    attaches and detaches disks, and the status of the volumes is gathered from
    it and from the attachment objects of the former controller, which remain
    for volumes attached before.

    The VM is threaded through; a nil pointer that is read is [Panic].  Logging
    and events are left out, and so are the sets of names kept only for them. *)

From S2P Require Import Prelude Conditions Hardware GoErrors Volumes InstanceStorage.
Local Open Scope Z_scope.

Definition CNSNodeVMAttachmentDeprecatedErrorMsg : string :=
  "CnsNodeVMAttachment CR is deprecated. Please detach this PVC from the VM and then reattach it.".

Section Batch.
Context {W : Type} `{ErrorsLib} `{VolumeAPI W}.
Implicit Types (vm : VolumeVM) (w : W) (cfg : VolumeConfig).

Definition errOrNoRequeueErr (err1 err2 : option goerror) : option goerror :=
  match err1, err2 with
  | None, _ => err2
  | _, None => err1
  | Some e1, Some e2 =>
    let mergedErr := WrappedBoth e1 e2 in
    if IsNoRequeueError e1 && IsNoRequeueError e2
    then Some (NoRequeueError (Error mergedErr) (IsNoRequeueNoError e1 && IsNoRequeueNoError e2))
    else Some mergedErr
  end.

(** ** Attachments of the former controller *)

Definition attachment_orphaned vm (a : CnsNodeVmAttachment) : bool :=
  if bool_decide (expected_attachments vm !! at_Name a ≠ Some (at_VolumeName a)) then true
  else negb (at_Attached a) && bool_decide (at_Error a = CNSNodeVMAttachmentDeprecatedErrorMsg).

Definition attachmentsToDelete vm (attachments : gmap string CnsNodeVmAttachment) : list CnsNodeVmAttachment :=
  List.filter (attachment_orphaned vm) (snd <$> range attachments).

Fixpoint deleteOrphanedAttachments (attachments : list CnsNodeVmAttachment) (retErr : option goerror) w
    : W * option goerror :=
  match attachments with
  | [] => (w, retErr)
  | a :: attachments' =>
    if at_Deleting a then deleteOrphanedAttachments attachments' retErr w
    else match va_DeleteAttachment a w with
         | (w, Some err) =>
           deleteOrphanedAttachments attachments' (if va_IsNotFound err then retErr else errOrNoRequeueErr retErr (Some err)) w
         | (w, None) => deleteOrphanedAttachments attachments' retErr w
         end
  end.

(** The attachment object that already holds a volume, if there is one. *)
Definition legacy_attachment vm (legacy : gmap string CnsNodeVmAttachment) (vol : VMVolume) : option CnsNodeVmAttachment :=
  legacy !! CNSAttachmentNameForVolume (vm_Name vm) (vv_Name vol).

(** Whether it holds the claim that the volume has now. *)
Definition tracked_by_legacy vm (legacy : gmap string CnsNodeVmAttachment) (vol : VMVolume) : bool :=
  match legacy_attachment vm legacy vol with
  | Some a => bool_decide (at_VolumeName a = claim_name vol)
  | None => false
  end.

Definition has_claim (vol : VMVolume) : bool := match PersistentVolumeClaim vol with Some _ => true | None => false end.

(** The two lists of categorizeVolumeSpecs. *)
Definition categorizeVolumeSpecs vm (legacy : gmap string CnsNodeVmAttachment) : list VMVolume * list VMVolume :=
  let vols := List.filter has_claim (vm_Volumes vm) in
  (List.filter (λ vol, negb (tracked_by_legacy vm legacy vol)) vols,
   List.filter (λ vol, match legacy_attachment vm legacy vol with Some _ => true | None => false end) vols).

(** ** The batch attachment *)

Definition getBatchAttachmentForVM vm w : goerror + option CnsNodeVMBatchAttachment :=
  match va_GetBatch (vm_Namespace vm) (CNSBatchAttachmentNameForVM (vm_Name vm)) w with
  | inl err => if va_IsNotFound err then inr None else inl (Wrapped "failed to find CnsNodeVMBatchAttachment" err)
  | inr attachment =>
    if negb (va_IsControlledBy (ba_OwnerReferences attachment) (vm_UID vm))
    then inl (ErrorString ("CnsNodeVMBatchAttachment " +:+ ba_Name attachment +:+ " has a different controlling owner"))
    else inr (Some attachment)
  end.

Definition pvcDataSourceRefPointsToVM (pvc : Claim) vm : bool :=
  match DataSourceRef pvc with
  | None => false
  | Some ds => bool_decide (dr_Kind ds = "VirtualMachine") && bool_decide (dr_Name ds = vm_Name vm) &&
               bool_decide (dr_APIGroup ds = Some "vmoperator.vmware.com")
  end.

Definition getPVC vm (pvcName : string) w : goerror + Claim :=
  match va_GetPVC (vm_Namespace vm) pvcName w with
  | inl err => inl (Wrapped "cannot get PVC" err)
  | inr pvc => inr pvc
  end.

Definition handlePVCWithWFFC cfg vm (volume : VMVolume) (pvc : Claim) w : W * option goerror :=
  if is_instance_volume volume then (w, None)
  else select_node cfg vm pvc "PVC does not have StorageClassName set" "cannot get StorageClass" w.

Definition validateHardwareVersion vm w : option goerror :=
  match va_HardwareVersion vm w with
  | inl err => Some (Wrapped "failed to get VM hardware version" err)
  | inr hardwareVersion =>
    if va_IsValidHardwareVersion hardwareVersion && (hardwareVersion <? MinSupportedHWVersionForPVC)
    then Some (ErrorString ("VM has an unsupported hardware version " +:+ format_int hardwareVersion +:+
      " for PersistentVolumes. Minimum supported hardware version " +:+ format_int MinSupportedHWVersionForPVC))
    else None
  end.

(** *** Volume specs *)

Definition buildErrMsg : string := "failed to build volume specs:".

(** The device keys of the controllers; a later controller overrides. *)
Definition controller_device_keys (controllers : list ControllerStatus) : gmap ControllerID Z :=
  foldl (λ m c, <[mkControllerID (cst_Type c) (cst_BusNumber c) := DeviceKey c]> m) ∅ controllers.

Definition applyApplicationTypePresets (vol : VirtualMachineVolume) (cns : PersistentVolumeClaimSpec)
    : goerror + PersistentVolumeClaimSpec :=
  match ApplicationType vol with
  | VolumeApplicationTypeOracleRAC =>
    inr (mkClaimSpec (cs_ClaimName cns) IndependentPersistent SharingMultiWriter (ControllerKey cns) (cs_UnitNumber cns))
  | VolumeApplicationTypeMicrosoftWSFC =>
    inr (mkClaimSpec (cs_ClaimName cns) IndependentPersistent (cs_SharingMode cns) (ControllerKey cns) (cs_UnitNumber cns))
  | OtherApplicationType s =>
    if bool_decide (s = "") then inr cns else inl (ErrorString ("unsupported application type: " +:+ s))
  end.

Definition no_requeue (message : string) : goerror := NoRequeueError message false.

Definition build_volume_spec (keys : gmap ControllerID Z) (v : VMVolume) : goerror + VolumeSpec :=
  let vol := vv_volume v in
  match vol_ControllerBusNumber vol with
  | None => inl (no_requeue (buildErrMsg +:+ " volume " +:+ Quote (vol_Name vol) +:+ " is missing controller bus number"))
  | Some bus =>
    match keys !! mkControllerID (vol_ControllerType vol) bus with
    | None => inl (no_requeue (buildErrMsg +:+ " waiting for the device controller " +:+
        Quote (controller_type_string (vol_ControllerType vol)) +:+ " " +:+ QuoteRune bus +:+
        " to be created for volume " +:+ Quote (vol_Name vol)))
    | Some key =>
      let cns := mkClaimSpec (claim_name v) "" "" (Some key) (vol_UnitNumber vol) in
      match applyApplicationTypePresets vol cns with
      | inl err => inl (no_requeue (Error (Wrapped
          (buildErrMsg +:+ " failed to apply application type presets for volume " +:+ vol_Name vol) err)))
      | inr cns =>
        match GetCnsDiskModeFromDiskMode (DiskMode vol) with
        | inl err => inl (no_requeue (Error (Wrapped
            (buildErrMsg +:+ " failed to get CNS disk mode for volume " +:+ vol_Name vol) err)))
        | inr diskMode =>
          match GetCnsSharingModeFromSharingMode (SharingMode vol) with
          | inl err => inl (no_requeue (Error (Wrapped
              (buildErrMsg +:+ " failed to get CNS sharing mode for volume " +:+ vol_Name vol) err)))
          | inr sharingMode =>
            inr (mkVolumeSpec (vol_Name vol)
                   (mkClaimSpec (cs_ClaimName cns) diskMode sharingMode (ControllerKey cns) (cs_UnitNumber cns)))
          end
        end
      end
    end
  end.

Fixpoint build_volume_specs (keys : gmap ControllerID Z) (volumes : list VMVolume) : goerror + list VolumeSpec :=
  match volumes with
  | [] => inr []
  | v :: volumes' =>
    match build_volume_spec keys v with
    | inl err => inl err
    | inr s => match build_volume_specs keys volumes' with inl err => inl err | inr l => inr (s :: l) end
    end
  end.

Definition buildVolumeSpecs (volumes : list VMVolume) (hardware : option (list ControllerStatus))
    : goerror + list VolumeSpec :=
  match hardware with
  | None => inr []
  | Some controllers => build_volume_specs (controller_device_keys controllers) volumes
  end.

(** *** Creating and updating *)

Definition validateVolumeSpecs (volumeSpecs : list VolumeSpec) : option goerror := None.

(** The callback of CreateOrPatch. *)
Definition write_batch_spec vm (volumeSpecs : list VolumeSpec) (b : CnsNodeVMBatchAttachment)
    : goerror + CnsNodeVMBatchAttachment :=
  match va_SetControllerReference vm (ba_OwnerReferences b) with
  | inl err => inl (Wrapped "failed to set controller reference on CnsNodeVMBatchAttachment" err)
  | inr owners => inr (mkBatch (ba_Namespace b) (ba_Name b) owners (vm_InstanceUUID vm) volumeSpecs (ba_VolumeStatus b))
  end.

Definition createOrUpdateBatchAttachment vm (volumeSpecs : list VolumeSpec) w : W * option goerror :=
  match validateVolumeSpecs volumeSpecs with
  | Some err => (w, Some (Wrapped "volume spec validation failed" err))
  | None =>
    let attachmentName := CNSBatchAttachmentNameForVM (vm_Name vm) in
    match va_CreateOrPatchBatch (vm_Namespace vm) attachmentName (write_batch_spec vm volumeSpecs) w with
    | (w, Some err) => (w, Some (Wrapped ("failed to create or patch CnsNodeVMBatchAttachment " +:+ attachmentName) err))
    | (w, None) => (w, None)
    end
  end.

(** The pair of a volume and its claim that is in the attachment. *)
Definition volume_key (name claimName : string) : string := name +:+ ":" +:+ claimName.
Definition batch_keys (batch : option CnsNodeVMBatchAttachment) : gset string :=
  match batch with
  | None => ∅
  | Some b => list_to_set ((λ s, volume_key (sp_Name s) (cs_ClaimName (sp_Claim s))) <$> ba_Volumes b)
  end.

(** The loop over the volumes: those to be built, and the error so far. *)
Fixpoint collect_volumes cfg vm (volumes : list VMVolume) (existing : gset string) (acc : list VMVolume)
    (retErr : option goerror) w : W * list VMVolume * option goerror :=
  match volumes with
  | [] => (w, acc, retErr)
  | vol :: volumes' =>
    match PersistentVolumeClaim vol with
    | None => collect_volumes cfg vm volumes' existing acc retErr w
    | Some claim =>
      let key := volume_key (vv_Name vol) (ClaimName claim) in
      if bool_decide (key ∈ existing)
      then collect_volumes cfg vm volumes' (existing ∖ {[key]}) (acc ++ [vol]) retErr w
      else
        match getPVC vm (ClaimName claim) w with
        | inl err =>
          collect_volumes cfg vm volumes' existing acc
            (errOrNoRequeueErr retErr (Some (Wrapped ("failed to get PVC " +:+ ClaimName claim +:+ " for volume " +:+ vv_Name vol) err))) w
        | inr pvc =>
          match handlePVCWithWFFC cfg vm vol pvc w with
          | (w, Some err) =>
            collect_volumes cfg vm volumes' existing acc
              (errOrNoRequeueErr retErr (Some (Wrapped ("failed to handle PVC " +:+ pvc_Name pvc +:+ " with WFFC for volume " +:+ vv_Name vol) err))) w
          | (w, None) =>
            if bool_decide (pvc_Phase pvc ≠ ClaimBound) && negb (pvcDataSourceRefPointsToVM pvc vm)
            then collect_volumes cfg vm volumes' existing acc retErr w
            else collect_volumes cfg vm volumes' existing (acc ++ [vol]) retErr w
          end
        end
    end
  end.

Definition processBatchAttachmentAndFilterVolumeSpecs cfg vm (volumes : list VMVolume)
    (batch : option CnsNodeVMBatchAttachment) w : W * list VolumeSpec * option goerror :=
  let '(w, toBeBuilt, retErr) := collect_volumes cfg vm volumes (batch_keys batch) [] None w in
  match buildVolumeSpecs toBeBuilt (vm_Hardware vm) with
  | inl err => (w, from_option ba_Volumes [] batch, errOrNoRequeueErr retErr (Some err))
  | inr volumeSpecs =>
    let '(w, err) := createOrUpdateBatchAttachment vm volumeSpecs w in
    (w, volumeSpecs, errOrNoRequeueErr retErr err)
  end.

(** ** The status *)

(** The messages of a volume's conditions, and whether it is attached. *)
Definition condition_message (c : Condition) : list string :=
  if bool_decide (c_Message c = "") then [] else [SanitizeCNSErrorMessage (c_Message c)].
Definition read_condition (st : bool * list string) (c : Condition) : bool * list string :=
  let '(attached, messages) := st in
  if bool_decide (c_Type c = ConditionAttached) then
    if bool_decide (c_Status c = ConditionTrue) then (true, messages) else (attached, messages ++ condition_message c)
  else if bool_decide (c_Type c = ConditionDetached) then
    if bool_decide (c_Status c = ConditionFalse) then (attached, messages ++ condition_message c) else st
  else st.

Definition attachmentStatusToVolumeStatus (volName : string) (s : VolumeStatus) : VirtualMachineVolumeStatus :=
  let '(attached, messages) := foldl read_condition (false, []) (st_Conditions s) in
  mkVolumeStatus volName None NoControllerType None VolumeTypeManaged "" "" "" None None None None
    attached (st_DiskUUID s) (String.concat "." messages).

Definition no_volume_status : VirtualMachineVolumeStatus :=
  mkVolumeStatus "" None NoControllerType None (OtherVolumeType "") "" "" "" None None None None false "" "".

Definition updateVolumeStatusWithExistingVMStatus (s : VirtualMachineVolumeStatus)
    (existing : gmap string VirtualMachineVolumeStatus) : VirtualMachineVolumeStatus :=
  let e := default no_volume_status (existing !! vs_Name s) in
  mkVolumeStatus (vs_Name s) (vs_ControllerBusNumber e) (vs_ControllerType e) (vs_UnitNumber e) (vs_Type s) (vs_DiskMode e)
    (vs_SharingMode e) (vs_ProvisioningMode e) (vs_Crypto e) (vs_Limit s) (vs_Requested s) (vs_Used e) (vs_Attached s)
    (vs_DiskUUID s) (vs_Error s).

Definition batch_statuses (batch : option CnsNodeVMBatchAttachment) : gmap string VolumeStatus :=
  match batch with
  | None => ∅
  | Some b => foldl (λ m s, <[st_Name s := s]> m) ∅ (ba_VolumeStatus b)
  end.

Definition getVolumeStatusWithDetachingVolumeFromBatchAttachment (existing : gmap string VolumeStatus)
    (volumeSpecs : list VolumeSpec) : list VirtualMachineVolumeStatus :=
  let names : gset string := list_to_set (sp_Name <$> volumeSpecs) in
  omap (λ s, if bool_decide (st_Name s ∈ names) then None
             else Some (attachmentStatusToVolumeStatus (detaching_name (st_Name s)) s)) (snd <$> range existing).

Definition classic_targets vm : gset string :=
  list_to_set ((λ s, GetTargetID (vs_ControllerType s) (vs_ControllerBusNumber s) (vs_UnitNumber s)) <$>
    filter (λ s, vs_Type s = VolumeTypeClassic) (vm_StatusVolumes vm)).

(** The controllers by device key; one that is not there has no type and bus
    number zero. *)
Definition controller_ids (controllers : list ControllerStatus) : gmap Z ControllerID :=
  foldl (λ m c, <[DeviceKey c := mkControllerID (cst_Type c) (cst_BusNumber c)]> m) ∅ controllers.

Definition on_classic_disk vm (controllers : list ControllerStatus) (s : VolumeSpec) : bool :=
  match ControllerKey (sp_Claim s) with
  | None => false
  | Some key =>
    let id := default (mkControllerID NoControllerType 0) (controller_ids controllers !! key) in
    bool_decide (GetTargetID (cid_Type id) (Some (cid_BusNumber id)) (cs_UnitNumber (sp_Claim s)) ∈ classic_targets vm)
  end.

Definition batch_volume_status vm (existing : gmap string VolumeStatus) (managed : gmap string VirtualMachineVolumeStatus)
    w (s : VolumeSpec) : VirtualMachineVolumeStatus :=
  let basic := mkVolumeStatus (sp_Name s) None NoControllerType None VolumeTypeManaged "" "" "" None None None None false "" "" in
  match existing !! sp_Name s with
  | Some st =>
    if bool_decide (cs_ClaimName (sp_Claim s) = st_ClaimName st)
    then updateVolumeStatusWithPVCInfo vm (st_ClaimName st)
           (updateVolumeStatusWithExistingVMStatus (attachmentStatusToVolumeStatus (sp_Name s) st) managed) w
    else basic
  | None => basic
  end.

Definition getVMVolStatusesFromBatchAttachment vm (batch : option CnsNodeVMBatchAttachment) (volumeSpecs : list VolumeSpec)
    (managed : gmap string VirtualMachineVolumeStatus) w : outcome goerror (list VirtualMachineVolumeStatus) :=
  match vm_Hardware vm with
  | None => Panic
  | Some controllers =>
    let existing := batch_statuses batch in
    Ok ((batch_volume_status vm existing managed w <$>
           List.filter (λ s, negb (on_classic_disk vm controllers s)) volumeSpecs) ++
        getVolumeStatusWithDetachingVolumeFromBatchAttachment existing volumeSpecs)
  end.

(** The attachments whose claim changed are not reported as detaching. *)
Definition legacy_statuses vm (legacy : gmap string CnsNodeVmAttachment) (managed : gmap string VirtualMachineVolumeStatus)
    (volumes : list VMVolume) w : list VirtualMachineVolumeStatus :=
  omap (λ vol, match legacy_attachment vm legacy vol with
               | Some a =>
                 if bool_decide (claim_name vol = at_VolumeName a)
                 then Some (updateVolumeStatusWithPVCInfo vm (claim_name vol)
                        (updateVolumeStatusWithExistingVMStatus (legacyAttachmentToVolumeStatus (vv_Name vol) a) managed) w)
                 else None
               | None => None
               end) volumes.

Definition drop_changed vm (legacy : gmap string CnsNodeVmAttachment) (volumes : list VMVolume)
    (orphaned : gmap string CnsNodeVmAttachment) : gmap string CnsNodeVmAttachment :=
  foldl (λ m vol, match legacy_attachment vm legacy vol with
                  | Some a => if bool_decide (claim_name vol = at_VolumeName a) then m else delete (at_Name a) m
                  | None => m
                  end) orphaned volumes.

Definition getVMVolStatusesFromLegacyAttachments vm (legacy : gmap string CnsNodeVmAttachment)
    (orphaned : list CnsNodeVmAttachment) (managed : gmap string VirtualMachineVolumeStatus) (volumes : list VMVolume) w
    : list VirtualMachineVolumeStatus :=
  let orphanedMap := drop_changed vm legacy volumes (foldl (λ m a, <[at_Name a := a]> m) ∅ orphaned) in
  legacy_statuses vm legacy managed volumes w ++ detaching_statuses vm (snd <$> range orphanedMap).

(** ** Reconcile *)

(** What remains once the attachments were read: [deleteErr] is the error of the
    deletions before. *)
Definition reconcile_batch cfg vm (legacy : gmap string CnsNodeVmAttachment) (toDelete : list CnsNodeVmAttachment)
    (deleteErr : option goerror) w : W * VolumeVM * outcome goerror unit :=
  let managed := managed_statuses vm in
  let '(forBatch, forLegacy) := categorizeVolumeSpecs vm legacy in
  match getBatchAttachmentForVM vm w with
  | inl err => (w, vm, Err (Wrapped "error getting existing CnsNodeVMBatchAttachment for VM" err))
  | inr batch =>
    match (match batch, forBatch with None, _ :: _ => validateHardwareVersion vm w | _, _ => None end) with
    | Some err => (w, vm, Err (Wrapped "hardware version validation failed" err))
    | None =>
      let '(w, volumeSpecs, processErr) := processBatchAttachmentAndFilterVolumeSpecs cfg vm forBatch batch w in
      match getVMVolStatusesFromBatchAttachment vm batch volumeSpecs managed w with
      | Ok fromBatch =>
        let fromLegacy := getVMVolStatusesFromLegacyAttachments vm legacy toDelete managed forLegacy w in
        let vm := updateVMVolumeStatus vm fromBatch fromLegacy in
        (w, vm, match errOrNoRequeueErr deleteErr processErr with Some err => Err err | None => Ok tt end)
      | Err err => (w, vm, Err err)
      | Panic => (w, vm, Panic)
      end
    end
  end.

(** After instance storage. *)
Definition reconcile_volumes cfg vm w : W * VolumeVM * outcome goerror unit :=
  if bool_decide (vm_InstanceUUID vm = "") then (w, vm, Ok tt)
  else if bool_decide (vm_BiosUUID vm = "") then (w, vm, Ok tt)
  else match GetCnsNodeVMAttachmentsForVM vm w with
       | inl err => (w, vm, Err (Wrapped "error getting existing CnsNodeVmAttachments for VM" err))
       | inr legacy =>
         let toDelete := attachmentsToDelete vm legacy in
         let '(w, deleteErr) := deleteOrphanedAttachments toDelete None w in
         reconcile_batch cfg vm legacy toDelete deleteErr w
       end.

Definition batch_ReconcileNormal cfg vm w : W * VolumeVM * outcome goerror unit :=
  if InstanceStorage cfg && IsInstanceStoragePresent vm then
    match ReconcileInstanceStoragePVCs cfg vm w with
    | (w, vm, _, Some err) => (w, vm, Err err)
    | (w, vm, false, None) => (w, vm, Ok tt)
    | (w, vm, true, None) => reconcile_volumes cfg vm w
    end
  else reconcile_volumes cfg vm w.

Definition batch_ReconcileDelete vm : option goerror := None.

(** The deferred patch runs on every way out, a panic included. *)
Definition patch_at_exit (original vm : VolumeVM) (res : outcome goerror Result) w : W * outcome goerror Result :=
  let '(w, err) := va_Patch original vm w in
  (w, match res, err with
      | Ok _, Some err => Err err
      | _, _ => res
      end).

Definition batch_Reconcile cfg (namespace name : string) w : W * outcome goerror Result :=
  match va_GetVM namespace name w with
  | inl err => (w, if va_IsNotFound err then Ok no_result else Err err)
  | inr vm =>
    if bool_decide (is_Some (vm_Annotations vm !! PauseAnnotation)) then (w, Ok no_result)
    else if bool_decide (is_Some (vm_Labels vm !! PausedVMLabelKey)) then (w, Ok no_result)
    else match va_NewHelper vm with
         | Some err => (w, Err (Wrapped "failed to init patch helper" err))
         | None =>
           if vm_Deleting vm
           then patch_at_exit vm vm (match batch_ReconcileDelete vm with Some err => Err err | None => Ok no_result end) w
           else
             let '(w, vm', res) := batch_ReconcileNormal cfg vm w in
             patch_at_exit vm vm'
               (match res with
                | Ok _ => Ok (ShouldRequeueForInstanceStoragePVCs cfg vm' w)
                | Err err => match ResultFromError (Some err) with
                             | (r, None) => Ok r
                             | (_, Some e) => Err e
                             end
                | Panic => Panic
                end) w
         end
  end.
End Batch.
