(* ===== verification/VolumeBatchResults.v ===== *)
(** * The batch volume controller attaches what the spec lists

    Theorems on [VolumeBatch], for every implementation of [VolumeAPI] that
    satisfies [VolumeLaws]: volumes that stay in the spec are never detached,
    whatever fails; a reconciliation without errors writes exactly the volumes
    that are ready; the status keeps the classic disks and lists every volume.
    Two defects are proved: a missing hardware status empties the attachment,
    and errors that ask for no retry hide the ones that need it. *)

From S2P Require Import Prelude Conditions Hardware GoErrors Volumes InstanceStorage VolumeFrame VolumeBatch.
Local Open Scope Z_scope.

(** ** Names of volumes *)

Definition colon_free (s : string) : Prop := Ascii.ascii_of_N 58 ∉ String.list_ascii_of_string s.

Lemma volume_key_inj n c n' c' :
  colon_free n → colon_free n' → volume_key n c = volume_key n' c' → n = n' ∧ c = c'.
Proof.
  unfold colon_free, volume_key. revert n'. induction n as [|a n IH]; intros [|a' n']; cbn; intros Hn Hn' Heq.
  - by simplify_eq.
  - injection Heq as <- _. set_solver.
  - injection Heq as -> _. set_solver.
  - injection Heq as -> Heq. destruct (IH n') as [-> ->]; [set_solver..|done|done].
Qed.

Section Results.
Context {W : Type} `{ErrorsLib} `{VolumeAPI W} `{!VolumeLaws W}.
Implicit Types (vm : VolumeVM) (w : W) (cfg : VolumeConfig).

Lemma delete_orphaned_same l err w w' err' :
  deleteOrphanedAttachments l err w = (w', err') → same_batch w w' ∧ same_claims w w'.
Proof using VolumeLaws0.
  revert err w. induction l as [|a l IH]; cbn [deleteOrphanedAttachments]; intros err w; [by intros [= -> ->]|].
  destruct (at_Deleting a); [apply IH|]. destruct (va_DeleteAttachment a w) as [w1 e] eqn:E. intros Hd.
  destruct (vl_delete_attachment _ _ _ _ E) as (Hb & _ & Hp).
  assert (same_batch w1 w' ∧ same_claims w1 w') as [Hb' Hc'] by (destruct e; by eapply IH).
  split; intros ns n; [by rewrite Hb', Hb|by rewrite Hc', Hp].
Qed.

Lemma handle_same cfg vm vol pvc w w' err ns n :
  va_GetPVC ns n w = inr pvc → handlePVCWithWFFC cfg vm vol pvc w = (w', err) → same_batch w w' ∧ same_claims w w'.
Proof using VolumeLaws0.
  intros Hget. unfold handlePVCWithWFFC. destruct (is_instance_volume vol); [by intros [= <- _]|].
  intros Hs. by destruct (select_node_same _ _ _ _ _ _ _ _ _ _ Hget Hs) as (? & ? & _).
Qed.

(** ** The loop over the volumes *)

Definition key_of (vol : VMVolume) : string := volume_key (vv_Name vol) (claim_name vol).

Lemma collect_same cfg vm vols ex acc err w w' l err' :
  collect_volumes cfg vm vols ex acc err w = (w', l, err') → same_batch w w' ∧ same_claims w w'.
Proof using VolumeLaws0.
  revert ex acc err w. induction vols as [|v vols IH]; cbn [collect_volumes]; intros ex acc err w; [by intros [= -> -> ->]|].
  destruct (PersistentVolumeClaim v) as [c|]; [|apply IH]. case_match; [apply IH|].
  unfold getPVC. destruct (va_GetPVC (vm_Namespace vm) (ClaimName c) w) as [e|pvc] eqn:Hp; [apply IH|].
  destruct (handlePVCWithWFFC cfg vm v pvc w) as [w1 e] eqn:Eh. pose proof (handle_same _ _ _ _ _ _ _ _ _ Hp Eh) as [Hb Hc].
  intros Hcol. assert (same_batch w1 w' ∧ same_claims w1 w') as [Hb' Hc'].
  { destruct e; [by eapply IH|]. case_match; by eapply IH. }
  split; by etrans.
Qed.

(** What is collected stays collected, and volumes that are in the attachment
    are collected whatever happens. *)
Lemma collect_acc cfg vm vols ex acc err w w' l err' :
  collect_volumes cfg vm vols ex acc err w = (w', l, err') → acc ⊆ l.
Proof using VolumeLaws0.
  revert ex acc err w. induction vols as [|v vols IH]; cbn [collect_volumes]; intros ex acc err w; [by intros [= _ <- _]|].
  intros Hc. repeat (case_match; simplify_eq); try (by eapply IH);
    (etrans; [|by eapply IH]); set_solver.
Qed.

Lemma collect_keeps cfg vm vols ex acc err w w' l err' vol :
  collect_volumes cfg vm vols ex acc err w = (w', l, err') →
  vol ∈ vols → has_claim vol = true → key_of vol ∈ ex → ∃ vol', vol' ∈ l ∧ vol' ∈ vols ∧ has_claim vol' = true ∧ key_of vol' = key_of vol.
Proof using VolumeLaws0.
  revert ex acc err w. induction vols as [|v vols IH]; intros ex acc err w Hcol Hin Hcl Hk; [by apply elem_of_nil in Hin|].
  cbn [collect_volumes] in Hcol. destruct (PersistentVolumeClaim v) as [c|] eqn:Hv.
  - assert (key_of v = volume_key (vv_Name v) (ClaimName c)) as Hkv by (unfold key_of, claim_name; by rewrite Hv).
    rewrite <-Hkv in Hcol. destruct (decide (key_of v = key_of vol)) as [Heq|Hne].
    + rewrite Heq, bool_decide_eq_true_2 in Hcol by done. exists v. split_and!; [|by left|unfold has_claim; by rewrite Hv|done].
      apply collect_acc in Hcol. apply Hcol. set_solver.
    + assert (vol ∈ vols) as Hin' by set_solver.
      repeat (case_match; simplify_eq); (edestruct IH as (v' & ? & ? & ? & ?); [done|done|done|set_solver|exists v'; set_solver]).
  - apply elem_of_cons in Hin as [->|Hin]; [unfold has_claim in Hcl; by rewrite Hv in Hcl|].
    edestruct IH as (v' & ? & ? & ? & ?); [done..|]. exists v'. set_solver.
Qed.

(** ** Building and writing the specs *)

Definition spec_of (v : VMVolume) (s : VolumeSpec) : Prop :=
  sp_Name s = vv_Name v ∧ cs_ClaimName (sp_Claim s) = claim_name v.

Lemma build_volume_spec_of keys v s : build_volume_spec keys v = inr s → spec_of v s.
Proof.
  unfold build_volume_spec, applyApplicationTypePresets. intros Hb.
  repeat (case_match; simplify_eq; try done).
Qed.

Lemma build_specs_of keys vols specs : build_volume_specs keys vols = inr specs → Forall2 spec_of vols specs.
Proof.
  revert specs. induction vols as [|v vols IH]; cbn; intros specs Hb; [by simplify_eq|].
  destruct (build_volume_spec keys v) eqn:E; [done|]. destruct (build_volume_specs keys vols); [done|]. simplify_eq.
  constructor; [by eapply build_volume_spec_of|by apply IH].
Qed.

Lemma create_or_update_cases vm specs w w' err :
  createOrUpdateBatchAttachment vm specs w = (w', err) →
  let ns := vm_Namespace vm in let n := vm_Name vm in
  (err ≠ None ∧ va_GetBatch ns n w' = va_GetBatch ns n w) ∨
  ∃ b', va_GetBatch ns n w' = inr b' ∧ ba_Volumes b' = specs ∧ ba_InstanceUUID b' = vm_InstanceUUID vm.
Proof using VolumeLaws0.
  unfold createOrUpdateBatchAttachment. cbn [validateVolumeSpecs]. unfold CNSBatchAttachmentNameForVM.
  assert (∀ b b', write_batch_spec vm specs b = inr b' → ba_Volumes b' = specs ∧ ba_InstanceUUID b' = vm_InstanceUUID vm) as Hw.
  { intros b b'. unfold write_batch_spec. destruct (va_SetControllerReference _ _); [done|]. by intros [= <-]. }
  destruct (va_CreateOrPatchBatch _ _ _ w) as [w1 [e|]] eqn:E; intros [= <- <-].
  - destruct (vl_create_or_patch_error _ _ _ _ _ _ E) as [Hs|(b & b' & Hf & Hg)]; [by left|].
    right. exists b'. destruct (Hw _ _ Hf). done.
  - destruct (vl_create_or_patch _ _ _ _ _ E) as (b & b' & Hf & Hg & _). right. exists b'. destruct (Hw _ _ Hf). done.
Qed.

(** A volume that the attachment has and that is not taken off the list stays. *)
Definition holds (w : W) (ns n name claim : string) : Prop :=
  ∃ b, va_GetBatch ns n w = inr b ∧ ∃ s, s ∈ ba_Volumes b ∧ sp_Name s = name ∧ cs_ClaimName (sp_Claim s) = claim.

Lemma holds_same w w' ns n name claim : same_batch w w' → holds w ns n name claim → holds w' ns n name claim.
Proof. intros Hs (b & Hb & Hh). exists b. by rewrite Hs. Qed.

Lemma process_keeps cfg vm vols batch w w' specs err vol c ctrls :
  processBatchAttachmentAndFilterVolumeSpecs cfg vm vols (Some batch) w = (w', specs, err) →
  vm_Hardware vm = Some ctrls → vol ∈ vols → PersistentVolumeClaim vol = Some c →
  (∀ v, v ∈ vols → colon_free (vv_Name v)) → key_of vol ∈ batch_keys (Some batch) →
  holds w (vm_Namespace vm) (vm_Name vm) (vv_Name vol) (ClaimName c) →
  holds w' (vm_Namespace vm) (vm_Name vm) (vv_Name vol) (ClaimName c).
Proof using VolumeLaws0.
  unfold processBatchAttachmentAndFilterVolumeSpecs. destruct (collect_volumes _ _ _ _ _ _ w) as [[w1 l] e1] eqn:Ec.
  intros Hp Hhw Hvol Hc Hcolon Hkey Hh. destruct (collect_same _ _ _ _ _ _ _ _ _ _ Ec) as [Hsame _].
  apply (holds_same _ _ _ _ _ _ Hsame) in Hh. assert (has_claim vol = true) as Hcl by (unfold has_claim; by rewrite Hc).
  destruct (collect_keeps _ _ _ _ _ _ _ _ _ _ vol Ec Hvol Hcl Hkey) as (v & Hv & Hvin & Hvcl & Hvk).
  apply volume_key_inj in Hvk as [Hname Hclaim]; [|by apply Hcolon..].
  assert (claim_name vol = ClaimName c) as Hcn by (unfold claim_name; by rewrite Hc).
  rewrite Hhw in Hp. cbn [buildVolumeSpecs] in Hp. destruct (build_volume_specs _ l) as [e|sp] eqn:Eb; [by simplify_eq|].
  destruct (createOrUpdateBatchAttachment vm sp w1) as [w2 e2] eqn:Eu. simplify_eq.
  destruct (create_or_update_cases _ _ _ _ _ Eu) as [[_ Hg]|(b' & Hg & <- & _)].
  - destruct Hh as (b & Hb & Hh). exists b. by rewrite Hg.
  - apply build_specs_of in Eb. apply list_elem_of_lookup in Hv as [i Hi].
    destruct (Forall2_lookup_l _ _ _ _ _ Eb Hi) as (s & Hs & Hsn & Hsc).
    exists b'. split; [done|]. exists s. split; [by eapply list_elem_of_lookup_2|]. rewrite Hsn, Hsc. by rewrite Hname, Hclaim.
Qed.

(** ** Properties *)

Lemma reconcile_volumes_keeps cfg vm w w' vm' res b s vol c ctrls :
  reconcile_volumes cfg vm w = (w', vm', res) → vm_Hardware vm = Some ctrls →
  va_GetBatch (vm_Namespace vm) (vm_Name vm) w = inr b → s ∈ ba_Volumes b →
  vol ∈ vm_Volumes vm → PersistentVolumeClaim vol = Some c →
  vv_Name vol = sp_Name s → ClaimName c = cs_ClaimName (sp_Claim s) →
  (∀ legacy, GetCnsNodeVMAttachmentsForVM vm w = inr legacy → tracked_by_legacy vm legacy vol = false) →
  (∀ v, v ∈ vm_Volumes vm → colon_free (vv_Name v)) →
  holds w' (vm_Namespace vm) (vm_Name vm) (sp_Name s) (cs_ClaimName (sp_Claim s)).
Proof using VolumeLaws0.
  intros Hr Hhw Hb Hs Hvol Hc Hname Hclaim Hleg Hcolon.
  assert (holds w (vm_Namespace vm) (vm_Name vm) (sp_Name s) (cs_ClaimName (sp_Claim s))) as Hh by (exists b; eauto).
  unfold reconcile_volumes in Hr. case_match; [by simplify_eq|]. case_match; [by simplify_eq|].
  destruct (GetCnsNodeVMAttachmentsForVM vm w) as [|legacy]; [by simplify_eq|]. specialize (Hleg legacy eq_refl).
  destruct (deleteOrphanedAttachments _ None w) as [w1 derr] eqn:Ed. destruct (delete_orphaned_same _ _ _ _ _ Ed) as [Hsame Hcl].
  apply (holds_same _ _ _ _ _ _ Hsame) in Hh. unfold reconcile_batch in Hr. cbn [categorizeVolumeSpecs] in Hr.
  assert (getBatchAttachmentForVM vm w1 = inr (Some b) ∨ ∃ e, getBatchAttachmentForVM vm w1 = inl e) as Hget.
  { unfold getBatchAttachmentForVM, CNSBatchAttachmentNameForVM. rewrite Hsame, Hb. destruct (negb _); [right; by eexists|by left]. }
  destruct Hget as [Hget|[e Hget]]; rewrite Hget in Hr; [|by simplify_eq].
  destruct (processBatchAttachmentAndFilterVolumeSpecs _ _ _ _ w1) as [[w2 specs] perr] eqn:Ep.
  assert (w' = w2) as -> by (repeat (case_match; simplify_eq; try done)).
  rewrite <-Hname, <-Hclaim in Hh |- *. eapply process_keeps; [exact Ep|exact Hhw| |exact Hc| | |exact Hh].
  - apply list_elem_of_In, filter_In. split; [|by rewrite Hleg].
    apply filter_In. split; [by apply list_elem_of_In|]. unfold has_claim. by rewrite Hc.
  - intros v Hv. apply Hcolon. apply list_elem_of_In, filter_In in Hv as [Hv _]. apply filter_In in Hv as [Hv _].
    by apply list_elem_of_In.
  - cbn [batch_keys]. apply elem_of_list_to_set, list_elem_of_fmap. exists s. split; [|done].
    unfold key_of, claim_name. rewrite Hc. cbn. by rewrite Hname, Hclaim.
Qed.


(** *** The volumes that are written *)

Lemma merged_error e1 e : errOrNoRequeueErr e1 (Some e) ≠ None.
Proof. unfold errOrNoRequeueErr. destruct e1; [|done]. by case_match. Qed.

Lemma merged_none e1 e2 : errOrNoRequeueErr e1 e2 = None → e1 = None ∧ e2 = None.
Proof. destruct e1, e2; cbn; try done. by case_match. Qed.

Lemma collect_error cfg vm vols ex acc err w w' l :
  collect_volumes cfg vm vols ex acc err w = (w', l, None) → err = None.
Proof.
  revert ex acc err w. induction vols as [|v vols IH]; cbn [collect_volumes]; intros ex acc err w; [by intros [= _ _ ->]|].
  intros Hc. repeat (case_match; simplify_eq); try (by eapply IH); apply IH in Hc; by apply merged_error in Hc.
Qed.

Definition claim_ready vm w (vol : VMVolume) : bool :=
  match va_GetPVC (vm_Namespace vm) (claim_name vol) w with
  | inr pvc => bool_decide (pvc_Phase pvc = ClaimBound) || pvcDataSourceRefPointsToVM pvc vm
  | inl _ => false
  end.

Lemma claim_ready_same vm w w' vol : same_claims w w' → claim_ready vm w' vol = claim_ready vm w vol.
Proof.
  intros Hs. specialize (Hs (vm_Namespace vm) (claim_name vol)). unfold claim_ready, pvcDataSourceRefPointsToVM.
  destruct (va_GetPVC _ _ w'), (va_GetPVC _ _ w); try done. cbn in Hs. injection Hs as -> ->. done.
Qed.

Lemma collect_exact cfg vm vols ex acc w w' l :
  Forall (λ v, has_claim v = true) vols → NoDup (key_of <$> vols) →
  collect_volumes cfg vm vols ex acc None w = (w', l, None) →
  l = acc ++ List.filter (λ v, bool_decide (key_of v ∈ ex) || claim_ready vm w v) vols.
Proof using VolumeLaws0.
  revert ex acc w. induction vols as [|v vols IH]; intros ex acc w Hcl Hnd; [intros [= _ <-]; by rewrite app_nil_r|].
  apply Forall_cons in Hcl as [Hv Hcl]. apply NoDup_cons in Hnd as [Hk Hnd]. cbn [collect_volumes List.filter].
  unfold has_claim in Hv. destruct (PersistentVolumeClaim v) as [c|] eqn:Hc; [|done].
  assert (key_of v = volume_key (vv_Name v) (ClaimName c)) as Hkv by (unfold key_of, claim_name; by rewrite Hc).
  assert (claim_name v = ClaimName c) as Hcn by (unfold claim_name; by rewrite Hc).
  rewrite <-Hkv. destruct (bool_decide (key_of v ∈ ex)) eqn:Hin; cbn [orb]; intros Hcol.
  - rewrite (IH _ _ _ Hcl Hnd Hcol), <-app_assoc. cbn. f_equal. f_equal. apply filter_ext_in. intros v' Hv'.
    f_equal. apply bool_decide_ext. apply list_elem_of_In in Hv'.
    assert (key_of v' ≠ key_of v) by (intros Heq; apply Hk; rewrite <-Heq; by apply list_elem_of_fmap_2). set_solver.
  - unfold claim_ready at 1. rewrite Hcn. unfold getPVC in Hcol.
    destruct (va_GetPVC (vm_Namespace vm) (ClaimName c) w) as [e|pvc] eqn:Hg.
    + apply collect_error in Hcol. by apply merged_error in Hcol.
    + destruct (handlePVCWithWFFC cfg vm v pvc w) as [w1 [e|]] eqn:Eh.
      { apply collect_error in Hcol. by apply merged_error in Hcol. }
      destruct (handle_same _ _ _ _ _ _ _ _ _ Hg Eh) as [_ Hs].
      assert (List.filter (λ v0, bool_decide (key_of v0 ∈ ex) || claim_ready vm w1 v0) vols =
              List.filter (λ v0, bool_decide (key_of v0 ∈ ex) || claim_ready vm w v0) vols) as Hf.
      { apply filter_ext_in. intros v' _. by rewrite (claim_ready_same vm w w1). }
      destruct (bool_decide (pvc_Phase pvc = ClaimBound)) eqn:Hb.
      * rewrite bool_decide_eq_false_2 in Hcol by (apply bool_decide_eq_true in Hb; tauto). cbn [andb orb] in *.
        rewrite (IH _ _ _ Hcl Hnd Hcol), <-app_assoc. cbn. by rewrite Hf.
      * rewrite bool_decide_eq_true_2 in Hcol by (by apply bool_decide_eq_false in Hb). cbn [andb orb] in *.
        destruct (pvcDataSourceRefPointsToVM pvc vm); cbn [negb] in Hcol; rewrite (IH _ _ _ Hcl Hnd Hcol), ?Hf, <-?app_assoc; done.
Qed.

Lemma filter_filter_andb {A} (f g : A → bool) l : List.filter f (List.filter g l) = List.filter (λ x, g x && f x) l.
Proof. induction l as [|x l IH]; [done|]. cbn. destruct (g x); cbn; [destruct (f x); cbn; by rewrite ?IH|done]. Qed.

Lemma NoDup_fmap_filter {A B} (f : A → B) (g : A → bool) l : NoDup (f <$> l) → NoDup (f <$> List.filter g l).
Proof.
  induction l as [|x l IH]; [done|]. rewrite fmap_cons, NoDup_cons. intros [Hx Hl]. cbn. destruct (g x); [|by apply IH].
  rewrite fmap_cons, NoDup_cons. split; [|by apply IH]. intros (y & Hxy & Hy)%list_elem_of_fmap. apply Hx.
  apply list_elem_of_In, filter_In in Hy as [Hy _]. apply list_elem_of_fmap. exists y. by rewrite list_elem_of_In.
Qed.

(** A volume is written if it has a claim that no attachment object of the former
    controller holds for it, and it is in the batch attachment already, or its
    claim is bound or is filled from the VM itself. *)
Definition wanted vm (legacy : gmap string CnsNodeVmAttachment) (batch : option CnsNodeVMBatchAttachment) w (vol : VMVolume) : bool :=
  has_claim vol && negb (tracked_by_legacy vm legacy vol) &&
  (bool_decide (key_of vol ∈ batch_keys batch) || claim_ready vm w vol).

(** The entry of the attachment for a volume: the device key is that of the
    controller with the type and the bus number of the volume. *)
Definition attaches (ctrls : list ControllerStatus) (v : VMVolume) (s : VolumeSpec) : Prop :=
  let vol := vv_volume v in
  sp_Name s = vol_Name vol ∧ cs_ClaimName (sp_Claim s) = claim_name v ∧ cs_UnitNumber (sp_Claim s) = vol_UnitNumber vol ∧
  GetCnsDiskModeFromDiskMode (DiskMode vol) = inr (cs_DiskMode (sp_Claim s)) ∧
  GetCnsSharingModeFromSharingMode (SharingMode vol) = inr (cs_SharingMode (sp_Claim s)) ∧
  ∃ c, c ∈ ctrls ∧ vol_ControllerType vol = cst_Type c ∧ vol_ControllerBusNumber vol = Some (cst_BusNumber c) ∧
    ControllerKey (sp_Claim s) = Some (DeviceKey c).

Lemma controller_keys_in ctrls id key :
  controller_device_keys ctrls !! id = Some key → ∃ c, c ∈ ctrls ∧ id = mkControllerID (cst_Type c) (cst_BusNumber c) ∧ DeviceKey c = key.
Proof.
  unfold controller_device_keys. induction ctrls as [|c ctrls IH] using rev_ind; [done|]. rewrite foldl_snoc. intros Hl.
  apply lookup_insert_Some in Hl as [[<- <-]|[_ Hl]].
  - exists c. split_and!; [apply elem_of_app; right; by left|done|done].
  - destruct (IH Hl) as (c' & Hc & ? & ?). exists c'. split_and!; [apply elem_of_app; by left|done|done].
Qed.

Lemma build_volume_spec_attaches ctrls v s : build_volume_spec (controller_device_keys ctrls) v = inr s → attaches ctrls v s.
Proof.
  unfold build_volume_spec, applyApplicationTypePresets, attaches. intros Hb.
  destruct (vol_ControllerBusNumber (vv_volume v)) as [bus|] eqn:Ebus; [|done].
  destruct (controller_device_keys ctrls !! _) as [key|] eqn:Ek; [|done].
  apply controller_keys_in in Ek as (c & Hc & [= Et Eb] & <-).
  repeat (case_match; simplify_eq; try done); cbn; split_and!; try done; exists c; split_and!; done.
Qed.

Lemma build_specs_attaches ctrls vols specs :
  build_volume_specs (controller_device_keys ctrls) vols = inr specs → Forall2 (attaches ctrls) vols specs.
Proof.
  revert specs. induction vols as [|v vols IH]; cbn; intros specs Hb; [by simplify_eq|].
  destruct (build_volume_spec _ v) eqn:E; [done|]. destruct (build_volume_specs _ vols); [done|]. simplify_eq.
  constructor; [by apply build_volume_spec_attaches|by apply IH].
Qed.

(** What a reconciliation without error went through. *)
Lemma reconcile_ok_inv cfg vm w w' vm' ctrls :
  reconcile_volumes cfg vm w = (w', vm', Ok tt) →
  vm_InstanceUUID vm ≠ "" → vm_BiosUUID vm ≠ "" → vm_Hardware vm = Some ctrls →
  ∃ legacy batch w1 l, let vols := List.filter (λ v, has_claim v && negb (tracked_by_legacy vm legacy v)) (vm_Volumes vm) in
    GetCnsNodeVMAttachmentsForVM vm w = inr legacy ∧ getBatchAttachmentForVM vm w = inr batch ∧
    same_claims w w1 ∧ (∃ w2, collect_volumes cfg vm vols (batch_keys batch) [] None w1 = (w2, l, None)) ∧
    ∃ b' fromLegacy, va_GetBatch (vm_Namespace vm) (vm_Name vm) w' = inr b' ∧ ba_InstanceUUID b' = vm_InstanceUUID vm ∧
      build_volume_specs (controller_device_keys ctrls) l = inr (ba_Volumes b') ∧
      getVMVolStatusesFromBatchAttachment vm batch (ba_Volumes b') (managed_statuses vm) w' = Ok fromLegacy.1 ∧
      Forall (λ st, vs_Type st = VolumeTypeManaged) fromLegacy.2 ∧
      vm' = updateVMVolumeStatus vm fromLegacy.1 fromLegacy.2.
Proof using VolumeLaws0.
  intros Hr Hi Hbios Hhw. unfold reconcile_volumes in Hr. do 2 rewrite bool_decide_eq_false_2 in Hr by done.
  destruct (GetCnsNodeVMAttachmentsForVM vm w) as [|legacy]; [done|].
  destruct (deleteOrphanedAttachments _ None w) as [w1 derr] eqn:Ed. destruct (delete_orphaned_same _ _ _ _ _ Ed) as [Hsame Hcl].
  unfold reconcile_batch in Hr. cbn [categorizeVolumeSpecs] in Hr. rewrite filter_filter_andb in Hr.
  assert (getBatchAttachmentForVM vm w1 = getBatchAttachmentForVM vm w) as Hget.
  { unfold getBatchAttachmentForVM. by rewrite Hsame. }
  rewrite Hget in Hr. destruct (getBatchAttachmentForVM vm w) as [|batch]; [done|].
  destruct (match batch with Some _ => None | None => _ end); [done|].
  unfold processBatchAttachmentAndFilterVolumeSpecs in Hr.
  destruct (collect_volumes _ _ _ _ _ _ w1) as [[w2 l] e1] eqn:Ec. rewrite Hhw in Hr. cbn [buildVolumeSpecs] in Hr.
  destruct (build_volume_specs _ l) as [e|sp] eqn:Eb.
  { destruct (getVMVolStatusesFromBatchAttachment _ _ _ _ w2); simplify_eq.
    destruct (errOrNoRequeueErr derr _) eqn:Em; [done|]. apply merged_none in Em as [_ Em]. by apply merged_error in Em. }
  destruct (createOrUpdateBatchAttachment vm sp w2) as [w3 e3] eqn:Eu.
  destruct (getVMVolStatusesFromBatchAttachment vm batch sp _ w3) as [fb| |] eqn:Es; simplify_eq.
  destruct (errOrNoRequeueErr derr _) eqn:Em; [done|]. apply merged_none in Em as [_ Em]. apply merged_none in Em as [-> ->].
  destruct (create_or_update_cases _ _ _ _ _ Eu) as [[? _]|(b' & Hg & <- & Hu)]; [done|].
  exists legacy, batch, w1, l. split_and!; [done..|by eexists|].
  eexists b', (_, _). cbn [fst snd]. split_and!; [done..| |reflexivity].
  unfold getVMVolStatusesFromLegacyAttachments, legacy_statuses, detaching_statuses. apply Forall_app. split; apply Forall_forall.
  - intros st (v & _ & Hst)%list_elem_of_omap. destruct (legacy_attachment vm legacy v); [|done]. case_match; [|done].
    simplify_eq. unfold updateVolumeStatusWithPVCInfo. by case_match.
  - intros st (v & _ & Hst)%list_elem_of_omap. apply fmap_Some in Hst as (a & _ & ->). done.
Qed.

(** C17: A reconciliation without error writes exactly the volumes that are wanted, in
    the order of the spec, each at the device key of its controller with its unit
    number and modes, for the instance UUID of the VM. *)
Theorem batch_spec_exact cfg vm w w' vm' ctrls :
  batch_ReconcileNormal cfg vm w = (w', vm', Ok tt) → InstanceStorage cfg && IsInstanceStoragePresent vm = false →
  vm_InstanceUUID vm ≠ "" → vm_BiosUUID vm ≠ "" → vm_Hardware vm = Some ctrls →
  NoDup (key_of <$> List.filter has_claim (vm_Volumes vm)) →
  ∃ legacy batch b', GetCnsNodeVMAttachmentsForVM vm w = inr legacy ∧ getBatchAttachmentForVM vm w = inr batch ∧
    va_GetBatch (vm_Namespace vm) (vm_Name vm) w' = inr b' ∧ ba_InstanceUUID b' = vm_InstanceUUID vm ∧
    Forall2 (attaches ctrls) (List.filter (wanted vm legacy batch w) (vm_Volumes vm)) (ba_Volumes b').
Proof using VolumeLaws0.
  intros Hr Hi Hu Hbios Hhw Hnd. unfold batch_ReconcileNormal in Hr. rewrite Hi in Hr.
  destruct (reconcile_ok_inv _ _ _ _ _ _ Hr Hu Hbios Hhw)
    as (legacy & batch & w1 & l & Hleg & Hbatch & Hs & [w2 Hcol] & b' & ? & Hb' & Hu' & Hbuild & _).
  exists legacy, batch, b'. split_and!; [done..|]. apply build_specs_attaches.
  apply collect_exact in Hcol.
  - rewrite <-Hbuild, Hcol, filter_filter_andb. cbn [app]. f_equal. apply filter_ext. intros v. unfold wanted.
    by rewrite (claim_ready_same vm w w1).
  - apply Forall_forall. intros v Hv%list_elem_of_In. apply filter_In in Hv as [_ Hv]. by apply andb_true_iff in Hv as [? _].
  - rewrite <-filter_filter_andb. by apply NoDup_fmap_filter.
Qed.

(** *** Entries of the status *)

Lemma pvc_info_keeps vm n st w :
  vs_Name (updateVolumeStatusWithPVCInfo vm n st w) = vs_Name st ∧ vs_Type (updateVolumeStatusWithPVCInfo vm n st w) = vs_Type st.
Proof. unfold updateVolumeStatusWithPVCInfo. by case_match. Qed.

Lemma batch_volume_status_entry vm ex managed w s :
  vs_Name (batch_volume_status vm ex managed w s) = sp_Name s ∧
  vs_Type (batch_volume_status vm ex managed w s) = VolumeTypeManaged.
Proof.
  unfold batch_volume_status. destruct (ex !! sp_Name s) as [st|]; [|done]. case_match; [|done].
  destruct (pvc_info_keeps vm (st_ClaimName st)
    (updateVolumeStatusWithExistingVMStatus (attachmentStatusToVolumeStatus (sp_Name s) st) managed) w) as [-> ->].
  cbn. unfold attachmentStatusToVolumeStatus. by destruct (foldl _ _ _).
Qed.

Lemma batch_statuses_managed vm batch specs managed w l :
  getVMVolStatusesFromBatchAttachment vm batch specs managed w = Ok l → Forall (λ st, vs_Type st = VolumeTypeManaged) l.
Proof.
  unfold getVMVolStatusesFromBatchAttachment. destruct (vm_Hardware vm); [|done]. intros [= <-]. apply Forall_app. split.
  - apply Forall_fmap, Forall_true. intros s. apply batch_volume_status_entry.
  - apply Forall_forall. intros st (s & _ & Hs)%list_elem_of_omap. case_match; simplify_eq.
    unfold attachmentStatusToVolumeStatus. by destruct (foldl _ _ _).
Qed.

Lemma no_classic l : Forall (λ st, vs_Type st = VolumeTypeManaged) l → filter (λ st, vs_Type st = VolumeTypeClassic) l = [].
Proof. induction 1 as [|st l Hst _ IH]; [done|]. rewrite filter_cons_False; [done|]. by rewrite Hst. Qed.

(** The status after a reconciliation without error: the entries of classic disks
    are those that were there, every volume of the batch attachment has a managed
    entry unless a classic disk is at its place, and the list is sorted by disk. *)
Theorem volume_status_reported cfg vm w w' vm' ctrls :
  batch_ReconcileNormal cfg vm w = (w', vm', Ok tt) → InstanceStorage cfg && IsInstanceStoragePresent vm = false →
  vm_InstanceUUID vm ≠ "" → vm_BiosUUID vm ≠ "" → vm_Hardware vm = Some ctrls →
  filter (λ st, vs_Type st = VolumeTypeClassic) (vm_StatusVolumes vm') ≡ₚ
    filter (λ st, vs_Type st = VolumeTypeClassic) (vm_StatusVolumes vm) ∧
  StronglySorted (λ a b, string_lt (vs_DiskUUID b) (vs_DiskUUID a) = false) (vm_StatusVolumes vm') ∧
  ∃ b', va_GetBatch (vm_Namespace vm) (vm_Name vm) w' = inr b' ∧
    ∀ s, s ∈ ba_Volumes b' → on_classic_disk vm ctrls s = true ∨
      ∃ st, st ∈ vm_StatusVolumes vm' ∧ vs_Name st = sp_Name s ∧ vs_Type st = VolumeTypeManaged.
Proof using VolumeLaws0.
  intros Hr Hi Hu Hbios Hhw. unfold batch_ReconcileNormal in Hr. rewrite Hi in Hr.
  destruct (reconcile_ok_inv _ _ _ _ _ _ Hr Hu Hbios Hhw)
    as (legacy & batch & w1 & l & _ & _ & _ & _ & b' & [fb fl] & Hb' & _ & _ & Hst & Hfl & ->). cbn [fst snd] in *.
  pose proof (batch_statuses_managed _ _ _ _ _ _ Hst) as Hfb.
  cbn [updateVMVolumeStatus set_vm_StatusVolumes vm_StatusVolumes]. unfold SortVirtualMachineVolumeStatuses. split_and!.
  - rewrite go_sort_perm, !filter_app, (no_classic fb), (no_classic fl), !app_nil_r by done.
    rewrite list_filter_filter_l; [done|]. by intros st ?.
  - apply go_sort_sorted; intros *; [apply string_lt_asym|]. rewrite !string_lt_false. intros ??. by etrans.
  - exists b'. split; [done|]. intros s Hs. destruct (on_classic_disk vm ctrls s) eqn:Ec; [by left|]. right.
    exists (batch_volume_status vm (batch_statuses batch) (managed_statuses vm) w' s).
    split; [|apply batch_volume_status_entry]. rewrite go_sort_perm. apply elem_of_app; right. apply elem_of_app; left.
    unfold getVMVolStatusesFromBatchAttachment in Hst. rewrite Hhw in Hst. injection Hst as <-.
    apply elem_of_app; left. apply list_elem_of_fmap_2, list_elem_of_In, filter_In.
    split; [by apply list_elem_of_In|]. by rewrite Ec.
Qed.

(** ** Defects *)

(** Without a hardware status no volume spec is built, so the batch attachment of
    the VM is emptied, which detaches every volume, before the status update reads
    the missing hardware status and panics. *)
Theorem missing_hardware_detaches cfg vm w legacy b :
  vm_Hardware vm = None → InstanceStorage cfg && IsInstanceStoragePresent vm = false →
  vm_InstanceUUID vm ≠ "" → vm_BiosUUID vm ≠ "" →
  GetCnsNodeVMAttachmentsForVM vm w = inr legacy → getBatchAttachmentForVM vm w = inr (Some b) →
  (∀ w1, (va_CreateOrPatchBatch (vm_Namespace vm) (vm_Name vm) (write_batch_spec vm []) w1).2 = None) →
  ∃ w', batch_ReconcileNormal cfg vm w = (w', vm, Panic) ∧
    ∃ b', va_GetBatch (vm_Namespace vm) (vm_Name vm) w' = inr b' ∧ ba_Volumes b' = [].
Proof using VolumeLaws0.
  intros Hhw Hi Hu Hbios Hleg Hget Hok. unfold batch_ReconcileNormal. rewrite Hi. unfold reconcile_volumes.
  do 2 rewrite bool_decide_eq_false_2 by done. rewrite Hleg.
  destruct (deleteOrphanedAttachments _ None w) as [w1 derr] eqn:Ed. destruct (delete_orphaned_same _ _ _ _ _ Ed) as [Hsame _].
  unfold reconcile_batch. cbn [categorizeVolumeSpecs].
  assert (getBatchAttachmentForVM vm w1 = inr (Some b)) as ->.
  { rewrite <-Hget. unfold getBatchAttachmentForVM. by rewrite Hsame. }
  unfold processBatchAttachmentAndFilterVolumeSpecs. destruct (collect_volumes _ _ _ _ _ _ w1) as [[w2 l] e1].
  rewrite Hhw. cbn [buildVolumeSpecs]. destruct (createOrUpdateBatchAttachment vm [] w2) as [w3 e3] eqn:Eu.
  exists w3. unfold getVMVolStatusesFromBatchAttachment. rewrite Hhw. split; [done|].
  destruct (create_or_update_cases _ _ _ _ _ Eu) as [[Hne _]|(b' & Hg & Hv & _)]; [|by exists b'].
  unfold createOrUpdateBatchAttachment in Eu. cbn [validateVolumeSpecs] in Eu. specialize (Hok w2).
  unfold CNSBatchAttachmentNameForVM in Eu. destruct (va_CreateOrPatchBatch _ _ _ w2) as [w4 [e|]]; [done|]. by simplify_eq.
Qed.

Lemma As_both {A} (f : goerror → option A) e1 e2 :
  f (WrappedBoth e1 e2) = None → As f (WrappedBoth e1 e2) = match As f e1 with Some a => Some a | None => As f e2 end.
Proof. intros Hf. cbn [As]. by rewrite Hf. Qed.

(** An error that asks for no retry hides one that needs it: when one of two
    errors that are merged is a NoRequeueError, the request is not retried, even
    if the other one is an ordinary error. *)
Theorem no_requeue_hides_retry e1 e2 e :
  errOrNoRequeueErr (Some e1) (Some e2) = Some e → IsNoRequeueError e1 || IsNoRequeueError e2 = true →
  IsRequeueError e1 = false → IsRequeueError e2 = false →
  (ResultFromError (Some e)).1 = no_result ∧
  ((ResultFromError (Some e)).2 = None ∨ ∃ t, (ResultFromError (Some e)).2 = Some (TerminalError t)).
Proof.
  unfold IsNoRequeueError, IsRequeueError. intros He Hno Hr1 Hr2. apply bool_decide_eq_false in Hr1, Hr2.
  apply eq_None_not_Some in Hr1, Hr2. cbn [errOrNoRequeueErr] in He.
  assert (∀ d e, As is_requeue e = None → As is_norequeue e = Some d →
    (ResultFromError (Some e)).1 = no_result ∧
    ((ResultFromError (Some e)).2 = None ∨ ∃ t, (ResultFromError (Some e)).2 = Some (TerminalError t))) as Hres.
  { intros d e' Hq Hn. cbn [ResultFromError]. rewrite Hq, Hn. destruct d; cbn; eauto. }
  destruct (IsNoRequeueError e1 && IsNoRequeueError e2); injection He as <-; [by eapply Hres|].
  assert (is_Some (As is_norequeue (WrappedBoth e1 e2))) as [d Hd].
  { rewrite As_both by done. destruct (As is_norequeue e1) as [d|]; [by eexists|].
    apply orb_true_iff in Hno as [Hno|Hno]; apply bool_decide_eq_true in Hno; [by destruct Hno|done]. }
  eapply Hres; [|done]. rewrite As_both by done. by rewrite Hr1.
Qed.
End Results.
