(* ===== verification/VolumeLegacy.v ===== *)
(** * The volume controller

    controllers/virtualmachine/volume: one CnsNodeVmAttachment for every volume
    of a VM's spec.  Before the VM runs, attachments are created one after the
    other, in the order of the spec.

    The deferred client for instance storage claims is an argument: absent, an
    error, or there.  Logging and events are left out. *)

From S2P Require Import Prelude Conditions Hardware GoErrors Volumes InstanceStorage.
Local Open Scope Z_scope.

Definition PowerStateOff : string := "PoweredOff".

Section Legacy.
Context {W : Type} `{ErrorsLib} `{VolumeAPI W}.
Implicit Types (vm : VolumeVM) (w : W) (cfg : VolumeConfig).

Definition getAttachmentsForVM vm w : goerror + gmap string CnsNodeVmAttachment :=
  match va_ListAttachments (vm_Namespace vm) (ToLower (vm_BiosUUID vm)) w with
  | inl err => inl (Wrapped "failed to list CnsNodeVmAttachments" err)
  | inr items => inr (foldl (λ m a, <[at_Name a := a]> m) ∅ items)
  end.

Definition vol_attachmentsToDelete vm (attachments : gmap string CnsNodeVmAttachment) : list CnsNodeVmAttachment :=
  List.filter (λ a, bool_decide (expected_attachments vm !! at_Name a ≠ Some (at_VolumeName a))) (snd <$> range attachments).

Fixpoint delete_orphaned (attachments : list CnsNodeVmAttachment) (errs : list goerror) w : W * list goerror :=
  match attachments with
  | [] => (w, errs)
  | a :: attachments' =>
    if at_Deleting a then delete_orphaned attachments' errs w
    else match va_DeleteAttachment a w with
         | (w, Some err) => delete_orphaned attachments' (if va_IsNotFound err then errs else errs ++ [err]) w
         | (w, None) => delete_orphaned attachments' errs w
         end
  end.
Definition vol_deleteOrphanedAttachments (attachments : list CnsNodeVmAttachment) w : W * option goerror :=
  let '(w, errs) := delete_orphaned attachments [] w in (w, NewAggregate (Some <$> errs)).

Definition vol_handlePVCWithWFFC cfg vm (volume : VMVolume) w : W * option goerror :=
  match PersistentVolumeClaim volume with
  | None => (w, None)
  | Some source =>
    if is_instance_volume volume then (w, None)
    else match va_GetPVC (vm_Namespace vm) (ClaimName source) w with
         | inl err => (w, Some (Wrapped "cannot get PVC" err))
         | inr pvc => select_node cfg vm pvc ("PVC " +:+ pvc_Name pvc +:+ " does not have StorageClassName set")
                        ("cannot get StorageClass for PVC " +:+ pvc_Name pvc) w
         end
  end.

(** ** Creating attachments *)

Definition createCNSAttachmentButAlreadyExists vm (attachmentName : string) w : W * option goerror :=
  match va_GetAttachment (vm_Namespace vm) attachmentName w with
  | inl err =>
    (w, Some (if va_IsNotFound err
              then ErrorString ("stale client cache for CnsNodeVmAttachment " +:+ attachmentName +:+
                                " that now does not exist. Force re-reconcile")
              else err))
  | inr attachment =>
    if negb (va_IsControlledBy (at_OwnerReferences attachment) (vm_UID vm))
    then (w, Some (ErrorString ("the CnsNodeVmAttachment " +:+ attachmentName +:+ " has a different controlling owner")))
    else if bool_decide (ToLower (at_NodeUUID attachment) ≠ ToLower (vm_BiosUUID vm))
    then match va_DeleteAttachment attachment w with
         | (w, Some err) => (w, Some (Wrapped "failed to delete existing CnsNodeVmAttachment with stale BiosUUID" err))
         | (w, None) => (w, Some (ErrorString ("deleted stale CnsNodeVmAttachment " +:+ attachmentName +:+
                                               " with old NodeUUID: " +:+ at_NodeUUID attachment)))
         end
    else (w, Some (ErrorString ("stale client cache for expected CnsNodeVmAttachment " +:+ attachmentName +:+
                                ". Force re-reconcile")))
  end.

Definition createCNSAttachment vm (attachmentName : string) (source : PersistentVolumeClaimVolumeSource) w : W * option goerror :=
  match va_SetControllerReference vm [] with
  | inl err => (w, Some (Wrapped "cannot set controller reference on CnsNodeVmAttachment" err))
  | inr owners =>
    match va_CreateAttachment
            (mkAttachment (vm_Namespace vm) attachmentName owners false (vm_BiosUUID vm) (ClaimName source) false ∅ "") w with
    | (w, Some err) => if va_IsAlreadyExists err then createCNSAttachmentButAlreadyExists vm attachmentName w
                       else (w, Some (Wrapped "cannot create CnsNodeVmAttachment" err))
    | (w, None) => (w, None)
    end
  end.

(** ** The status *)

Definition updateVolumeStatusWithLimitAndRequest vm (source : PersistentVolumeClaimVolumeSource)
    (s : VirtualMachineVolumeStatus) w : VirtualMachineVolumeStatus :=
  match InstanceVolumeClaim source with
  | Some claim => set_capacity (Some (ic_Size claim)) (Some (ic_Size claim)) s
  | None => updateVolumeStatusWithPVCInfo vm (ClaimName source) s w
  end.

(** The fields of the status that other controllers set. *)
Definition keep_observed (e s : VirtualMachineVolumeStatus) : VirtualMachineVolumeStatus :=
  mkVolumeStatus (vs_Name s) (vs_ControllerBusNumber e) (vs_ControllerType e) (vs_UnitNumber e) (vs_Type s) (vs_DiskMode e)
    (vs_SharingMode e) (vs_ProvisioningMode s) (vs_Crypto e) (vs_Limit s) (vs_Requested s) (vs_Used e) (vs_Attached s)
    (vs_DiskUUID s) (vs_Error s).

Definition vol_no_status : VirtualMachineVolumeStatus :=
  mkVolumeStatus "" None NoControllerType None (OtherVolumeType "") "" "" "" None None None None false "" "".

(** [slices.Delete] of the first attachment with the name. *)
Fixpoint remove_named (name : string) (l : list CnsNodeVmAttachment) : list CnsNodeVmAttachment :=
  match l with
  | [] => []
  | a :: l' => if bool_decide (at_Name a = name) then l' else a :: remove_named name l'
  end.

(** ** The loop *)

(** The variables of the loop. *)
Record process_state := mkProcess {
  ps_orphaned : list CnsNodeVmAttachment;
  ps_statuses : list VirtualMachineVolumeStatus;
  ps_createErrs : list goerror;
  ps_pending : bool;
  ps_checkHWVersion : bool
}.

Definition check_hardware vm w : option goerror :=
  match va_HardwareVersion vm w with
  | inl err => Some (Wrapped "failed to get VM hardware version" err)
  | inr hardwareVersion =>
    if va_IsValidHardwareVersion hardwareVersion && (hardwareVersion <? MinSupportedHWVersionForPVC)
    then Some (ErrorString ("VM has an unsupported hardware version " +:+ format_int hardwareVersion +:+
      " for PersistentVolumes. Minimum supported hardware version " +:+ format_int MinSupportedHWVersionForPVC))
    else None
  end.

Definition onlyAllowOnePendingAttachment vm : bool :=
  bool_decide (vm_PowerState vm = "") || bool_decide (vm_PowerState vm = PowerStateOff).

(** A volume without a current attachment. *)
Definition process_missing cfg vm (volume : VMVolume) (source : PersistentVolumeClaimVolumeSource) (st : process_state) w
    : W * (goerror + process_state) :=
  let '(mkProcess orphaned statuses createErrs pending checkHWVersion) := st in
  match (if checkHWVersion then check_hardware vm w else None) with
  | Some err => (w, inl err)
  | None =>
    match vol_handlePVCWithWFFC cfg vm volume w with
    | (w, Some err) => (w, inr (mkProcess orphaned statuses (createErrs ++ [err]) true false))
    | (w, None) =>
      if onlyAllowOnePendingAttachment vm && pending then (w, inr (mkProcess orphaned statuses createErrs pending false))
      else match createCNSAttachment vm (CNSAttachmentNameForVolume (vm_Name vm) (vv_Name volume)) source w with
           | (w, Some err) =>
             (w, inr (mkProcess orphaned statuses (createErrs ++ [Wrapped "cannot create CnsNodeVmAttachment" err]) true false))
           | (w, None) =>
             (w, inr (mkProcess orphaned
               (statuses ++ [mkVolumeStatus (vv_Name volume) None NoControllerType None VolumeTypeManaged "" "" ""
                               None None None None false "" ""]) createErrs true false))
           end
    end
  end.

Definition process_attachment cfg vm (attachments : gmap string CnsNodeVmAttachment)
    (managed : gmap string VirtualMachineVolumeStatus) (volume : VMVolume) (st : process_state) w : W * (goerror + process_state) :=
  match PersistentVolumeClaim volume with
  | None => (w, inr st)
  | Some source =>
    match attachments !! CNSAttachmentNameForVolume (vm_Name vm) (vv_Name volume) with
    | Some a =>
      if bool_decide (ClaimName source = at_VolumeName a) then
        let s := keep_observed (default vol_no_status (managed !! vv_Name volume))
                   (legacyAttachmentToVolumeStatus (vv_Name volume) a) in
        (w, inr (mkProcess (ps_orphaned st) (ps_statuses st ++ [updateVolumeStatusWithLimitAndRequest vm source s w])
                   (ps_createErrs st) (ps_pending st || negb (at_Attached a)) (ps_checkHWVersion st)))
      else process_missing cfg vm volume source
             (mkProcess (remove_named (at_Name a) (ps_orphaned st)) (ps_statuses st) (ps_createErrs st) (ps_pending st)
                (ps_checkHWVersion st)) w
    | None => process_missing cfg vm volume source st w
    end
  end.

Fixpoint process_attachments cfg vm (attachments : gmap string CnsNodeVmAttachment)
    (managed : gmap string VirtualMachineVolumeStatus) (volumes : list VMVolume) (st : process_state) w
    : W * (goerror + process_state) :=
  match volumes with
  | [] => (w, inr st)
  | volume :: volumes' =>
    match process_attachment cfg vm attachments managed volume st w with
    | (w, inl err) => (w, inl err)
    | (w, inr st) => process_attachments cfg vm attachments managed volumes' st w
    end
  end.

Definition processAttachments cfg vm (attachments : gmap string CnsNodeVmAttachment)
    (orphanedAttachments : list CnsNodeVmAttachment) w : W * VolumeVM * option goerror :=
  let st := mkProcess orphanedAttachments [] [] false (bool_decide (attachments = ∅)) in
  match process_attachments cfg vm attachments (managed_statuses vm) (vm_Volumes vm) st w with
  | (w, inl err) => (w, vm, Some err)
  | (w, inr st) =>
    (w, updateVMVolumeStatus vm (ps_statuses st) (detaching_statuses vm (ps_orphaned st)),
     NewAggregate (Some <$> ps_createErrs st))
  end.

(** ** Reconcile *)

Definition vol_reconcile cfg vm w : W * VolumeVM * option goerror :=
  if bool_decide (vm_BiosUUID vm = "") then (w, vm, None)
  else match getAttachmentsForVM vm w with
       | inl err => (w, vm, Some err)
       | inr attachments =>
         let toDelete := vol_attachmentsToDelete vm attachments in
         let '(w, deleteErr) := vol_deleteOrphanedAttachments toDelete w in
         let '(w, vm, processErr) := processAttachments cfg vm attachments toDelete w in
         (w, vm, NewAggregate [deleteErr; processErr])
       end.

Definition vol_ReconcileNormal cfg (pvcClient : option (option goerror)) vm w : W * VolumeVM * option goerror :=
  if InstanceStorage cfg && IsInstanceStoragePresent vm then
    match pvcClient with
    | None => (w, vm, Some (ErrorString "GetInstanceStoragePVCClient is not initialized"))
    | Some (Some err) => (w, vm, Some (Wrapped "failed to get deferred PVC client for instance storage" err))
    | Some None =>
      match ReconcileInstanceStoragePVCs cfg vm w with
      | (w, vm, _, Some err) => (w, vm, Some err)
      | (w, vm, false, None) => (w, vm, None)
      | (w, vm, true, None) => vol_reconcile cfg vm w
      end
    end
  else vol_reconcile cfg vm w.

Definition vol_ReconcileDelete vm : option goerror := None.

Definition vol_patch (original vm : VolumeVM) (res : Result) (err : option goerror) w : W * Result * option goerror :=
  let '(w, patchErr) := va_Patch original vm w in
  (w, res, match err with Some _ => err | None => patchErr end).

Definition vol_Reconcile cfg (pvcClient : option (option goerror)) (namespace name : string) w
    : W * Result * option goerror :=
  match va_GetVM namespace name w with
  | inl err => (w, no_result, if va_IsNotFound err then None else Some err)
  | inr vm =>
    if bool_decide (is_Some (vm_Annotations vm !! PauseAnnotation)) then (w, no_result, None)
    else if bool_decide (is_Some (vm_Labels vm !! PausedVMLabelKey)) then (w, no_result, None)
    else match va_NewHelper vm with
         | Some err => (w, no_result, Some (Wrapped "failed to init patch helper" err))
         | None =>
           if vm_Deleting vm then vol_patch vm vm no_result (vol_ReconcileDelete vm) w
           else match vol_ReconcileNormal cfg pvcClient vm w with
                | (w, vm', Some err) => vol_patch vm vm' no_result (Some err) w
                | (w, vm', None) => vol_patch vm vm' (ShouldRequeueForInstanceStoragePVCs cfg vm' w) None w
                end
         end
  end.
End Legacy.
