(* ===== verification/VolumeLegacyResults.v ===== *)
(** * Attachments in order, instance storage when bound

    Theorems on [VolumeLegacy] and [InstanceStorage]: before the VM runs an
    attachment is created only once the volumes before it in the spec are
    attached, and volumes are handled only once every instance storage claim is
    bound on the node that was selected. *)

From S2P Require Import Prelude Conditions Hardware GoErrors Volumes InstanceStorage VolumeFrame VolumeLegacy.
Local Open Scope Z_scope.

Lemma attachment_name_inj vmName n n' :
  CNSAttachmentNameForVolume vmName n = CNSAttachmentNameForVolume vmName n' → n = n'.
Proof.
  unfold CNSAttachmentNameForVolume. induction vmName as [|c s IH]; cbn; intros E; [by simplify_eq|].
  injection E as E. by apply IH.
Qed.

Section Results.
Context {W : Type} `{ErrorsLib} `{VolumeAPI W} `{!VolumeLaws W}.
Implicit Types (vm : VolumeVM) (w : W) (cfg : VolumeConfig).

(** ** Instance storage *)

Definition claim_bound vm (selectedNode : string) (pvc : Claim) : Prop :=
  pvc_Deleting pvc = false ∧ va_IsControlledBy (pvc_OwnerReferences pvc) (vm_UID vm) = true ∧
  pvc_Annotations pvc !! AnnSelectedNode = Some selectedNode ∧ pvc_Phase pvc = ClaimBound.

Lemma scan_claim_bound cfg vm node w st pvc :
  boundCount (scan_claim cfg vm node w st pvc) = boundCount st ∨
  boundCount (scan_claim cfg vm node w st pvc) = S (boundCount st) ∧ claim_bound vm node pvc.
Proof.
  destruct st as [stale ex failed bound]. cbn [scan_claim]. destruct (pvc_Deleting pvc) eqn:Hd; [by left|].
  destruct (va_IsControlledBy _ _) eqn:Hc; cbn [negb]; [|by left]. case_bool_decide as Ha; [by left|].
  destruct (instanceStoragePVCFailed cfg pvc w); [by left|]. case_bool_decide as Hp; [by left|]. by right.
Qed.

Lemma scan_bound cfg vm node w l st :
  let st' := foldl (scan_claim cfg vm node w) st l in
  (boundCount st' ≤ boundCount st + length l)%nat ∧
  (boundCount st' = (boundCount st + length l)%nat → Forall (claim_bound vm node) l).
Proof.
  revert st. induction l as [|pvc l IH]; intros st; cbn [foldl length]; [split; [lia|done]|].
  destruct (IH (scan_claim cfg vm node w st pvc)) as [Hle Heq].
  destruct (scan_claim_bound cfg vm node w st pvc) as [E|[E Hb]]; rewrite E in Hle, Heq; cbn zeta.
  - split; [lia|]. intros; lia.
  - split; [lia|]. intros Hst. constructor; [done|]. apply Heq. lia.
Qed.

Lemma get_pvcs_found ns vols w pvcs :
  getInstanceStoragePVCs ns vols w = (pvcs, []) →
  (length pvcs ≤ length vols)%nat ∧
  (length pvcs = length vols → ∀ v, v ∈ vols → ∃ pvc, va_GetPVC ns (claim_name v) w = inr pvc ∧ pvc ∈ pvcs).
Proof.
  revert pvcs. induction vols as [|v vols IH]; cbn [getInstanceStoragePVCs]; intros pvcs Hg.
  - simplify_eq. split; [done|]. intros _ v Hv. by apply elem_of_nil in Hv.
  - destruct (getInstanceStoragePVCs ns vols w) as [p errs]. destruct (va_GetPVC ns (claim_name v) w) as [e|pvc] eqn:E.
    + assert (p = pvcs ∧ errs = []) as [-> ->] by (destruct (va_IsNotFound e); by simplify_eq).
      destruct (IH pvcs eq_refl) as [Hle _]. cbn [length]. split; lia.
    + simplify_eq. destruct (IH p eq_refl) as [Hle Hf]. cbn [length]. split; [lia|]. intros Hlen v' Hv'.
      apply elem_of_cons in Hv' as [->|Hv']; [exists pvc; split; [done|by left]|].
      destruct (Hf ltac:(lia) v' Hv') as (pvc' & ? & ?). exists pvc'. split; [done|by right].
Qed.

(** Volumes are attached only after instance storage is there: when the step for
    instance storage reports that it is ready, every instance storage volume of
    the VM has a claim that the VM owns, that is bound, and that is on the node
    selected for the VM; the VM is annotated. *)
Theorem instance_storage_ready cfg vm w w' vm' err :
  ReconcileInstanceStoragePVCs cfg vm w = (w', vm', true, err) → IsInstanceStoragePresent vm = true →
  vm_Annotations vm' !! InstanceStoragePVCsBoundAnnotationKey = Some "true" ∧
  ∀ v, v ∈ FilterInstanceStorageVolumes vm →
    ∃ pvc, va_GetPVC (vm_Namespace vm) (claim_name v) w = inr pvc ∧
      claim_bound vm (map_get (vm_Annotations vm) InstanceStorageSelectedNodeAnnotationKey) pvc.
Proof.
  intros Hr Hp. unfold ReconcileInstanceStoragePVCs in Hr. destruct (FilterInstanceStorageVolumes vm) as [|v0 vs] eqn:Hf.
  { exfalso. apply existsb_exists in Hp as (v & Hv & Hi).
    assert (In v (FilterInstanceStorageVolumes vm)) as Hin by (by apply filter_In). by rewrite Hf in Hin. }
  rewrite <-Hf in *. clear Hf. set (vols := FilterInstanceStorageVolumes vm) in *.
  destruct (getInstanceStoragePVCs _ vols w) as [pvcs errs] eqn:Eg. destruct errs as [|e errs]; [|done].
  set (node := map_get _ _) in *. set (st := foldl _ _ _) in *. destruct (bool_decide (failedVolumes st ≠ ∅)).
  { by destruct (instanceStoragePlacementFailed vm (failedVolumes st) w) as [[? ?] ?]. }
  destruct (deleteInstanceStoragePVCs _ w) as [w1 ?]. destruct (if bool_decide (node = "") then _ else _) as [w2 ?].
  destruct (bool_decide (boundCount st = length vols)) eqn:Hb; [|done]. simplify_eq. apply bool_decide_eq_true in Hb.
  split; [apply lookup_insert_eq|]. intros v Hv.
  destruct (get_pvcs_found _ _ _ _ Eg) as [Hle Hfound].
  destruct (scan_bound cfg vm node w pvcs (mkScan [] ∅ ∅ 0)) as [Hle' Hall]. fold st in Hle', Hall. cbn [boundCount] in *.
  destruct (Hfound ltac:(lia) v Hv) as (pvc & Hg & Hin). exists pvc. split; [done|].
  rewrite Forall_forall in Hall. apply Hall; [lia|done].
Qed.

(** ** The order of attachments *)

Definition absent vm (name : string) w : Prop :=
  ∃ e, va_GetAttachment (vm_Namespace vm) (CNSAttachmentNameForVolume (vm_Name vm) name) w = inl e.

Lemma absent_objects vm name w w' : same_objects w w' → absent vm name w → absent vm name w'.
Proof. intros Hs [e He]. exists e. by rewrite Hs. Qed.

Lemma delete_orphaned_absent vm name l errs w w' errs' :
  delete_orphaned l errs w = (w', errs') → absent vm name w → absent vm name w'.
Proof using VolumeLaws0.
  revert errs w. induction l as [|a l IH]; cbn [delete_orphaned]; intros errs w; [by intros [= <- _]|].
  destruct (at_Deleting a); [apply IH|]. destruct (va_DeleteAttachment a w) as [w1 e] eqn:E. intros Hd [e0 He0].
  destruct (vl_delete_attachment _ _ _ _ E) as (_ & Ha & _). destruct (Ha _ _ _ He0) as [e1 He1].
  destruct e; eapply IH; try done; by exists e1.
Qed.

Lemma create_absent vm name name' source w w' err :
  createCNSAttachment vm (CNSAttachmentNameForVolume (vm_Name vm) name') source w = (w', err) →
  name ≠ name' → absent vm name w → absent vm name w'.
Proof using VolumeLaws0.
  intros Hc Hne Hab. unfold createCNSAttachment in Hc. destruct (va_SetControllerReference vm []); [by simplify_eq|].
  destruct (va_CreateAttachment _ w) as [w1 e] eqn:E. pose proof (vl_create_attachment _ _ _ _ E) as Hother.
  assert (absent vm name w1) as Hab1.
  { destruct Hab as [e0 He0]. exists e0. rewrite Hother; [done|]. cbn. intros [= Heq]. by apply attachment_name_inj in Heq. }
  destruct e as [e|]; [|by simplify_eq]. destruct (va_IsAlreadyExists e); [|by simplify_eq].
  unfold createCNSAttachmentButAlreadyExists in Hc. destruct (va_GetAttachment _ _ w1) as [|a]; [by simplify_eq|].
  case_match; [by simplify_eq|]. case_match; [|by simplify_eq].
  destruct (va_DeleteAttachment a w1) as [w2 e2] eqn:Ed. destruct (vl_delete_attachment _ _ _ _ Ed) as (_ & Ha & _).
  destruct Hab1 as [e0 He0]. destruct (Ha _ _ _ He0) as [e1 He1]. exists e1. destruct e2; by simplify_eq.
Qed.

Lemma handle_objects cfg vm v w w' err : vol_handlePVCWithWFFC cfg vm v w = (w', err) → same_objects w w'.
Proof using VolumeLaws0.
  unfold vol_handlePVCWithWFFC. destruct (PersistentVolumeClaim v); [|by intros [= <- _]].
  destruct (is_instance_volume v); [by intros [= <- _]|].
  destruct (va_GetPVC _ _ w) as [|pvc] eqn:E; [by intros [= <- _]|]. intros Hs.
  by destruct (select_node_same _ _ _ _ _ _ _ _ _ _ E Hs) as (_ & _ & ?).
Qed.

(** A step for another volume does not create the attachment, and while one is
    pending no step does. *)
Lemma process_missing_absent cfg vm v source st w w' r name :
  process_missing cfg vm v source st w = (w', r) → absent vm name w →
  name ≠ vv_Name v ∨ (onlyAllowOnePendingAttachment vm = true ∧ ps_pending st = true) → absent vm name w'.
Proof using VolumeLaws0.
  intros Hm Hab Hor. destruct st as [orphaned statuses cerrs pending chk]. cbn [process_missing ps_pending] in *.
  destruct (if chk then _ else _); [by simplify_eq|].
  destruct (vol_handlePVCWithWFFC cfg vm v w) as [w1 [e|]] eqn:Eh; pose proof (handle_objects _ _ _ _ _ _ Eh) as Hs;
    apply (absent_objects _ _ _ _ Hs) in Hab; [by simplify_eq|].
  destruct (onlyAllowOnePendingAttachment vm && pending) eqn:Eo; [by simplify_eq|].
  destruct (createCNSAttachment _ _ source w1) as [w2 e2] eqn:Ec. destruct Hor as [Hne|[H1 H2]]; [|by rewrite H1, H2 in Eo].
  assert (w' = w2) as -> by (destruct e2; by simplify_eq). by eapply create_absent.
Qed.

Lemma process_attachment_absent cfg vm atts managed v st w w' r name :
  process_attachment cfg vm atts managed v st w = (w', r) → absent vm name w →
  name ≠ vv_Name v ∨ (onlyAllowOnePendingAttachment vm = true ∧ ps_pending st = true) → absent vm name w'.
Proof using VolumeLaws0.
  unfold process_attachment. intros Hp Hab Hor. destruct (PersistentVolumeClaim v) as [source|]; [|by simplify_eq].
  destruct (atts !! _) as [a|]; [|by eapply process_missing_absent]. case_match; [by simplify_eq|].
  by eapply process_missing_absent.
Qed.

Lemma process_attachments_absent cfg vm atts managed vols st w w' r name :
  process_attachments cfg vm atts managed vols st w = (w', r) → absent vm name w → name ∉ (vv_Name <$> vols) → absent vm name w'.
Proof using VolumeLaws0.
  revert st w. induction vols as [|v vols IH]; cbn [process_attachments]; intros st w; [by intros [= <- _]|].
  destruct (process_attachment cfg vm atts managed v st w) as [w1 r1] eqn:E. rewrite fmap_cons, not_elem_of_cons.
  intros Hp Hab [Hne Hni]. assert (absent vm name w1) as Hab1 by (eapply process_attachment_absent; [done..|by left]).
  destruct r1; [by simplify_eq|]. by eapply IH.
Qed.

(** A volume whose attachment is current and attached. *)
Definition attached vm (atts : gmap string CnsNodeVmAttachment) (v : VMVolume) : Prop :=
  ∀ source, PersistentVolumeClaim v = Some source → ∃ a,
    atts !! CNSAttachmentNameForVolume (vm_Name vm) (vv_Name v) = Some a ∧ at_VolumeName a = ClaimName source ∧ at_Attached a = true.

Lemma process_attachment_pending cfg vm atts managed v st w w' st' :
  process_attachment cfg vm atts managed v st w = (w', inr st') → onlyAllowOnePendingAttachment vm = true →
  ps_pending st' = false → ps_pending st = false ∧ attached vm atts v.
Proof.
  unfold process_attachment, attached. intros Hp Hone Hpend. destruct (PersistentVolumeClaim v) as [source|]; [|by simplify_eq].
  assert (∀ st0, process_missing cfg vm v source st0 w = (w', inr st') → False) as Hmiss.
  { intros [orphaned statuses cerrs pending chk] Hm. cbn [process_missing] in Hm. rewrite Hone in Hm. cbn [andb] in Hm.
    destruct (if chk then _ else _); [done|]. destruct (vol_handlePVCWithWFFC cfg vm v w) as [w1 [e|]]; [by simplify_eq|].
    destruct pending; [by simplify_eq|]. destruct (createCNSAttachment _ _ source w1) as [w2 [e|]]; by simplify_eq. }
  destruct (atts !! _) as [a|] eqn:Ea; [|by apply Hmiss in Hp].
  case_bool_decide as Hcl; [|by apply Hmiss in Hp]. simplify_eq. cbn [ps_pending] in Hpend.
  apply orb_false_iff in Hpend as [-> Hat]. apply negb_false_iff in Hat. split; [done|]. intros s [= <-]. by exists a.
Qed.

Lemma process_attachments_pending cfg vm atts managed vols st w w' st' :
  process_attachments cfg vm atts managed vols st w = (w', inr st') → onlyAllowOnePendingAttachment vm = true →
  ps_pending st' = false → Forall (attached vm atts) vols.
Proof.
  assert (∀ vols st w, process_attachments cfg vm atts managed vols st w = (w', inr st') → onlyAllowOnePendingAttachment vm = true →
    ps_pending st' = false → ps_pending st = false ∧ Forall (attached vm atts) vols) as Hgen; [|by intros; eapply Hgen].
  clear. induction vols as [|v vols IH]; cbn [process_attachments]; intros st w Hp Hone Hpend; [by simplify_eq|].
  destruct (process_attachment cfg vm atts managed v st w) as [w1 [e|st1]] eqn:E; [done|].
  destruct (IH _ _ Hp Hone Hpend) as [Hst1 Hall]. destruct (process_attachment_pending _ _ _ _ _ _ _ _ _ E Hone Hst1). auto.
Qed.

Lemma process_attachments_app cfg vm atts managed l1 l2 st w :
  process_attachments cfg vm atts managed (l1 ++ l2) st w =
  match process_attachments cfg vm atts managed l1 st w with
  | (w, inl err) => (w, inl err)
  | (w, inr st) => process_attachments cfg vm atts managed l2 st w
  end.
Proof.
  revert st w. induction l1 as [|v l1 IH]; intros st w; [done|]. cbn [app process_attachments].
  destruct (process_attachment cfg vm atts managed v st w) as [w1 [e|st1]]; [done|]. apply IH.
Qed.

Lemma reconcile_in_order cfg vm w w' vm' err l1 v l2 atts a :
  vol_reconcile cfg vm w = (w', vm', err) → onlyAllowOnePendingAttachment vm = true →
  vm_Volumes vm = l1 ++ v :: l2 → NoDup (vv_Name <$> vm_Volumes vm) → absent vm (vv_Name v) w →
  getAttachmentsForVM vm w = inr atts →
  va_GetAttachment (vm_Namespace vm) (CNSAttachmentNameForVolume (vm_Name vm) (vv_Name v)) w' = inr a →
  Forall (attached vm atts) l1.
Proof using VolumeLaws0.
  intros Hr Hone Hvols Hnd Hab Hatts Hpres.
  assert (¬ absent vm (vv_Name v) w') as Hnot by (intros [e He]; by rewrite He in Hpres). clear Hpres.
  unfold vol_reconcile in Hr. case_match; [by simplify_eq|]. rewrite Hatts in Hr.
  unfold vol_deleteOrphanedAttachments in Hr. destruct (delete_orphaned _ [] w) as [w1 derrs] eqn:Ed.
  apply (delete_orphaned_absent vm (vv_Name v)) in Ed; [|done]. unfold processAttachments in Hr.
  destruct (process_attachments _ _ _ _ _ _ w1) as [w2 r] eqn:Ep. assert (w' = w2) as -> by (destruct r; by simplify_eq). clear Hr.
  rewrite Hvols, process_attachments_app in Ep. rewrite Hvols, fmap_app, fmap_cons in Hnd.
  apply NoDup_app in Hnd as (_ & Hdisj & Hnd). apply NoDup_cons in Hnd as [Hni _].
  assert (vv_Name v ∉ vv_Name <$> l1) as Hni1 by (intros Hin; apply (Hdisj _ Hin); by left).
  destruct (process_attachments cfg vm atts _ l1 _ w1) as [w3 r1] eqn:E1.
  pose proof (process_attachments_absent _ _ _ _ _ _ _ _ _ _ E1 Ed Hni1) as H3.
  destruct r1 as [e|st1]; [by simplify_eq|]. destruct (ps_pending st1) eqn:Hpend; [|by eapply process_attachments_pending].
  exfalso. apply Hnot. cbn [process_attachments] in Ep.
  destruct (process_attachment cfg vm atts _ v st1 w3) as [w4 r4] eqn:E4.
  assert (absent vm (vv_Name v) w4) as H4 by (eapply process_attachment_absent; [done..|by right]).
  destruct r4; [by simplify_eq|]. by eapply process_attachments_absent.
Qed.

(** Before a VM runs its volumes are attached in the order of the spec: if the
    reconciliation of a VM that is not powered on creates the attachment of a
    volume, every volume before it in the spec already had a current attachment
    that is attached. *)
Theorem attachments_created_in_order cfg client vm w w' vm' err l1 v l2 atts a :
  vol_ReconcileNormal cfg client vm w = (w', vm', err) → onlyAllowOnePendingAttachment vm = true →
  vm_Volumes vm = l1 ++ v :: l2 → NoDup (vv_Name <$> vm_Volumes vm) → absent vm (vv_Name v) w →
  getAttachmentsForVM vm w = inr atts →
  va_GetAttachment (vm_Namespace vm) (CNSAttachmentNameForVolume (vm_Name vm) (vv_Name v)) w' = inr a →
  Forall (attached vm atts) l1.
Proof using VolumeLaws0.
  intros Hr Hone Hvols Hnd Hab Hatts Hpres. unfold vol_ReconcileNormal in Hr.
  destruct (InstanceStorage cfg && IsInstanceStoragePresent vm); [|by eapply reconcile_in_order].
  destruct Hab as [e0 He0]. destruct client as [[e|]|]; [simplify_eq; congruence| |simplify_eq; congruence].
  destruct (ReconcileInstanceStoragePVCs cfg vm w) as [[[w1 vm1] ready] e] eqn:Ei.
  destruct (instance_storage_frame _ _ _ _ _ _ _ Ei) as [(_ & Hsl & Hso) [an ->]].
  assert (va_GetAttachment (vm_Namespace vm) (CNSAttachmentNameForVolume (vm_Name vm) (vv_Name v)) w1 = inl e0) as Hab1 by (by rewrite Hso).
  destruct e as [e|]; [destruct ready; simplify_eq; congruence|]. destruct ready; [|simplify_eq; congruence].
  eapply (reconcile_in_order cfg (set_vm_Annotations an vm) w1); try done; [by exists e0|].
  rewrite <-Hatts. unfold getAttachmentsForVM. by rewrite Hsl.
Qed.
End Results.
