(* ===== verification/VolumeWitnesses.v ===== *)
(** * A server for the volume controllers

    A concrete implementation of [VolumeAPI] that satisfies [VolumeLaws], and the
    theorems on the volume controllers applied to it. *)

From S2P Require Import Prelude Conditions Hardware GoErrors Volumes InstanceStorage VolumeFrame VolumeBatch.
From S2P Require Import VolumeBatchResults VolumeLegacy VolumeLegacyResults.
Local Open Scope Z_scope.

(** ** The server *)

Record vol_world := mkVolWorld {
  vw_batches : gmap (string * string) CnsNodeVMBatchAttachment;
  vw_attachments : gmap (string * string) CnsNodeVmAttachment;
  vw_claims : gmap (string * string) Claim
}.

Definition not_found : goerror := StatusError "NotFound" "not found".
Definition is_not_found (e : goerror) : bool := match e with StatusError r _ => bool_decide (r = "NotFound") | _ => false end.

Definition get_claim (ns n : string) (w : vol_world) : goerror + Claim :=
  match vw_claims w !! (ns, n) with
  | Some p => if bool_decide (pvc_Namespace p = ns ∧ pvc_Name p = n) then inr p else inl not_found
  | None => inl not_found
  end.
Definition get_of {A} (m : gmap (string * string) A) (ns n : string) : goerror + A :=
  match m !! (ns, n) with Some x => inr x | None => inl not_found end.

#[local] Instance errors_lib : ErrorsLib :=
  { aggregate_unwraps := false; aggregate_Error := String.concat ", "; Duration_String := λ _, "" }.

#[local] Instance vol_server : VolumeAPI vol_world := {
  va_Now _ := 0;
  va_IsNotFound := is_not_found;
  va_IsAlreadyExists e := match e with StatusError r _ => bool_decide (r = "AlreadyExists") | _ => false end;
  va_GetVM _ _ _ := inl not_found;
  va_NewHelper _ := None;
  va_Patch _ _ w := (w, None);
  va_ListAttachments ns uuid w :=
    inr (List.filter (λ a, bool_decide (at_Namespace a = ns) && bool_decide (ToLower (at_NodeUUID a) = uuid))
           (snd <$> map_to_list (vw_attachments w)));
  va_GetAttachment ns n w := get_of (vw_attachments w) ns n;
  va_CreateAttachment a w :=
    (mkVolWorld (vw_batches w) (<[(at_Namespace a, at_Name a) := a]> (vw_attachments w)) (vw_claims w), None);
  va_DeleteAttachment a w :=
    (mkVolWorld (vw_batches w) (delete (at_Namespace a, at_Name a) (vw_attachments w)) (vw_claims w), None);
  va_GetBatch ns n w := get_of (vw_batches w) ns n;
  va_CreateOrPatchBatch ns n f w :=
    match f (default (empty_batch ns n) (vw_batches w !! (ns, n))) with
    | inl e => (w, Some e)
    | inr b => (mkVolWorld (<[(ns, n) := b]> (vw_batches w)) (vw_attachments w) (vw_claims w), None)
    end;
  va_GetPVC := get_claim;
  va_UpdatePVC p w :=
    (mkVolWorld (vw_batches w) (vw_attachments w) (<[(pvc_Namespace p, pvc_Name p) := p]> (vw_claims w)), None);
  va_CreatePVC p w :=
    (mkVolWorld (vw_batches w) (vw_attachments w) (<[(pvc_Namespace p, pvc_Name p) := p]> (vw_claims w)), None);
  va_DeletePVC ns n w := (mkVolWorld (vw_batches w) (vw_attachments w) (delete (ns, n) (vw_claims w)), None);
  va_GetStorageClass _ _ := inr (Some VolumeBindingWaitForFirstConsumer);
  va_HardwareVersion _ _ := inr 21;
  va_IsValidHardwareVersion v := 0 <? v;
  va_IsControlledBy owners uid := existsb (λ o, or_Controller o && bool_decide (or_UID o = uid)) owners;
  va_SetControllerReference vm owners := inr [mkOwnerReference (vm_UID vm) true];
  va_Jitter d _ := d;
  Quote s := s;
  QuoteRune _ := "";
  range A m := map_to_list m;
  range_perm A m := Permutation_refl _
}.

Lemma get_of_insert {A} (m : gmap (string * string) A) k x ns n :
  (ns, n) ≠ k → get_of (<[k := x]> m) ns n = get_of m ns n.
Proof. intros Hne. unfold get_of. by rewrite lookup_insert_ne. Qed.

#[local] Instance vol_server_laws : VolumeLaws vol_world.
Proof.
  split; try (intros * [= <- <-]); try done.
  - split_and!; [done| |done]. intros ns n e. unfold va_GetAttachment, vol_server, get_of. cbn.
    destruct (decide ((ns, n) = (at_Namespace a, at_Name a))) as [->|Hne].
    + intros _. rewrite lookup_delete_eq. by eexists.
    + rewrite lookup_delete_ne by done. eauto.
  - intros ns n Hne. by apply get_of_insert.
  - split_and!; [done..|]. intros q a Hq -> ns n. unfold va_GetPVC, vol_server in *. unfold get_claim. cbn [vw_claims].
    cbn [set_pvc_Annotations pvc_Namespace pvc_Name].
    destruct (decide ((ns, n) = (pvc_Namespace q, pvc_Name q))) as [Heq|Hne]; [|by rewrite lookup_insert_ne].
    injection Heq as -> ->. rewrite lookup_insert_eq. rewrite bool_decide_eq_true_2 by done. unfold get_claim in Hq. by rewrite Hq.
  - intros ns n w p. unfold va_GetPVC, vol_server, get_claim. destruct (vw_claims w !! (ns, n)) as [p0|]; [|done].
    case_bool_decide as Hp; [|done]. by intros [= <-].
  - intros ns n f w w'. unfold va_CreateOrPatchBatch, va_GetBatch, vol_server, get_of.
    destruct (f _) as [e|b'] eqn:Ef; [done|]. intros [= <-]. eexists _, b'. cbn. rewrite lookup_insert_eq.
    split_and!; [exact Ef|done|]. by destruct (vw_batches w !! (ns, n)).
  - intros ns n f w w' e. unfold va_CreateOrPatchBatch, vol_server. destruct (f _); [|done]. intros [= <- _]. by left.
Qed.

(** ** The batch controller *)

(** A VM with the volume [data], which is attached, and [logs], whose claim is
    bound; a classic disk is in its status. *)
Definition ex_volume (name : string) (unit : Z) : VMVolume :=
  mkVMVolume (mkVolume name (OtherApplicationType "") VirtualControllerTypeSCSI (Some 0) (Some unit) "Persistent" "None")
    (Some (mkClaimSource ("pvc-" +:+ name) None)).
Definition ex_classic : VirtualMachineVolumeStatus :=
  mkVolumeStatus "disk-0" (Some 0) VirtualControllerTypeSCSI (Some 0) VolumeTypeClassic "" "" "" None None None None true "6000" "".
Definition ex_vm (hardware : option (list ControllerStatus)) (power : string) : VolumeVM :=
  mkVolumeVM "ns" "vm" "uid" ∅ ∅ false [ex_volume "data" 1; ex_volume "logs" 2] None "instance" "BIOS" "zone" power hardware
    [ex_classic].
Definition ex_ctrls : list ControllerStatus := [mkControllerStatus 0 VirtualControllerTypeSCSI 1000].
Definition ex_claim (name : string) : Claim :=
  mkClaim "ns" name ∅ ∅ [] false 0 (Some "sc") [] None (Some "10Gi") None ClaimBound.
Definition ex_spec (name : string) (unit : Z) : VolumeSpec :=
  mkVolumeSpec name (mkClaimSpec ("pvc-" +:+ name) Persistent SharingNone (Some 1000) (Some unit)).
Definition ex_batch (volumes : list VolumeSpec) : CnsNodeVMBatchAttachment :=
  mkBatch "ns" "vm" [mkOwnerReference "uid" true] "instance" volumes
    [mkCnsStatus "data" "pvc-data" "6001" [mkCondition ConditionAttached ConditionTrue 0 0 "" ""]].
Definition ex_world : vol_world :=
  mkVolWorld {[("ns", "vm") := ex_batch [ex_spec "data" 1]]} ∅ {[("ns", "pvc-logs") := ex_claim "pvc-logs"]}.
Definition ex_cfg : VolumeConfig := mkVolumeConfig true true 10 300.

Definition ex_result : vol_world * VolumeVM * outcome goerror unit :=
  Eval vm_compute in batch_ReconcileNormal ex_cfg (ex_vm (Some ex_ctrls) "PoweredOn") ex_world.

Lemma colon_free_dec s : forallb (λ c, negb (bool_decide (c = Ascii.ascii_of_N 58))) (String.list_ascii_of_string s) = true → colon_free s.
Proof.
  intros Hs Hin. rewrite forallb_forall in Hs. apply list_elem_of_In in Hin. specialize (Hs _ Hin).
  by rewrite bool_decide_eq_true_2 in Hs.
Qed.


Lemma batch_spec_exact_witness :
  ∃ legacy batch b', GetCnsNodeVMAttachmentsForVM (ex_vm (Some ex_ctrls) "PoweredOn") ex_world = inr legacy ∧
    getBatchAttachmentForVM (ex_vm (Some ex_ctrls) "PoweredOn") ex_world = inr batch ∧
    va_GetBatch "ns" "vm" ex_result.1.1 = inr b' ∧ ba_InstanceUUID b' = "instance" ∧
    Forall2 (attaches ex_ctrls)
      (List.filter (wanted (ex_vm (Some ex_ctrls) "PoweredOn") legacy batch ex_world) [ex_volume "data" 1; ex_volume "logs" 2])
      (ba_Volumes b').
Proof.
  refine (batch_spec_exact ex_cfg (ex_vm (Some ex_ctrls) "PoweredOn") ex_world ex_result.1.1 ex_result.1.2 ex_ctrls
    _ eq_refl _ _ eq_refl _).
  - vm_compute. reflexivity.
  - discriminate.
  - discriminate.
  - apply (bool_decide_unpack _). vm_compute. exact I.
Defined.

Lemma volume_status_reported_witness :
  filter (λ st, vs_Type st = VolumeTypeClassic) (vm_StatusVolumes ex_result.1.2) ≡ₚ [ex_classic].
Proof.
  refine (proj1 (volume_status_reported ex_cfg (ex_vm (Some ex_ctrls) "PoweredOn") ex_world ex_result.1.1 ex_result.1.2 ex_ctrls
    _ eq_refl _ _ eq_refl)).
  - vm_compute. reflexivity.
  - discriminate.
  - discriminate.
Defined.

Lemma missing_hardware_detaches_witness :
  ∃ w', batch_ReconcileNormal ex_cfg (ex_vm None "PoweredOn") ex_world = (w', ex_vm None "PoweredOn", Panic) ∧
    ∃ b', va_GetBatch "ns" "vm" w' = inr b' ∧ ba_Volumes b' = [].
Proof.
  refine (missing_hardware_detaches ex_cfg (ex_vm None "PoweredOn") ex_world ∅ (ex_batch [ex_spec "data" 1])
    eq_refl eq_refl _ _ _ _ _).
  - discriminate.
  - discriminate.
  - reflexivity.
  - reflexivity.
  - reflexivity.
Defined.

(** A claim that could not be read, and a controller that is awaited. *)
Definition ex_transient : goerror := Wrapped "failed to get PVC pvc-a for volume a" (ErrorString "etcdserver: request timed out").
Definition ex_awaited : goerror := NoRequeueError "waiting for the device controller" false.
Lemma no_requeue_hides_retry_witness : (ResultFromError (Some (WrappedBoth ex_transient ex_awaited))).1 = no_result.
Proof. exact (proj1 (no_requeue_hides_retry ex_transient ex_awaited _ eq_refl eq_refl eq_refl eq_refl)). Defined.

(** ** The former controller and instance storage *)

Definition ex_attached : CnsNodeVmAttachment :=
  mkAttachment "ns" "vm-data" [mkOwnerReference "uid" true] false "BIOS" "pvc-data" true {[AttributeFirstClassDiskUUID := "6001"]} "".
Definition ex_legacy_world : vol_world :=
  mkVolWorld ∅ {[("ns", "vm-data") := ex_attached]} {[("ns", "pvc-logs") := ex_claim "pvc-logs"]}.
Definition ex_created : CnsNodeVmAttachment :=
  mkAttachment "ns" "vm-logs" [mkOwnerReference "uid" true] false "BIOS" "pvc-logs" false ∅ "".

Lemma attachments_created_in_order_witness :
  Forall (attached (ex_vm (Some ex_ctrls) "PoweredOff") {["vm-data" := ex_attached]}) [ex_volume "data" 1].
Proof.
  refine (attachments_created_in_order ex_cfg None (ex_vm (Some ex_ctrls) "PoweredOff") ex_legacy_world
    _ _ _ [ex_volume "data" 1] (ex_volume "logs" 2) [] _ ex_created _ eq_refl eq_refl _ _ _ _).
  - vm_compute. reflexivity.
  - apply (bool_decide_unpack _). vm_compute. exact I.
  - exists not_found. vm_compute. reflexivity.
  - vm_compute. reflexivity.
  - vm_compute. reflexivity.
Defined.

(** A VM with an instance storage claim that is bound on its node. *)
Definition ex_instance_vm : VolumeVM :=
  mkVolumeVM "ns" "vm" "uid" {[InstanceStorageSelectedNodeAnnotationKey := "node-1"]} ∅ false
    [mkVMVolume (mkVolume "instance-pvc-1" (OtherApplicationType "") NoControllerType None None "" "")
       (Some (mkClaimSource "instance-pvc-1" (Some (mkInstanceClaim "sc" "100Gi"))))]
    None "instance" "BIOS" "zone" "" None [].
Definition ex_instance_world : vol_world :=
  mkVolWorld ∅ ∅ {[("ns", "instance-pvc-1") :=
    mkClaim "ns" "instance-pvc-1" ∅ {[AnnSelectedNode := "node-1"]} [mkOwnerReference "uid" true] false 0 (Some "sc") [] None
      (Some "100Gi") None ClaimBound]}.

Lemma instance_storage_ready_witness :
  vm_Annotations (ReconcileInstanceStoragePVCs ex_cfg ex_instance_vm ex_instance_world).1.1.2 !!
    InstanceStoragePVCsBoundAnnotationKey = Some "true".
Proof.
  refine (proj1 (instance_storage_ready ex_cfg ex_instance_vm ex_instance_world
    (ReconcileInstanceStoragePVCs ex_cfg ex_instance_vm ex_instance_world).1.1.1 _ None _ eq_refl)).
  vm_compute. reflexivity.
Defined.
