(* ===== verification/ResizeAnnotations.v ===== *)
(** * Resize annotations and the always-applied changes

    pkg/util/vmopv1/resize.go and resize_overwrite.go.  A VM carries the class it
    was last resized to in an annotation; [ResizeNeeded] compares it with the
    spec and the class.  [OverwriteAlwaysResizeConfigSpec] adds the changes that
    do not depend on the class: the managed-by mark and the namespaced name in
    ExtraConfig.

    The value of an annotation is JSON; encoding/json is the interface
    [AnnotationCodec]. *)

From S2P Require Import Prelude GoErrors OptionValues.
Local Open Scope Z_scope.

(** ** The annotations *)

Definition LastResizedAnnotationKey : string := "vmoperator.vmware.com/last-resized-vm-class".
Definition LastResizedInstanceAnnotationKey : string :=
  "vmoperator.vmware.com/last-resized-vm-class-instance".
Definition VirtualMachineSameVMClassResizeAnnotation : string :=
  "vmoperator.vmware.com/same-vm-class-resize".

Record lastResizedAnnotation := mkResized { lr_Name : string; lr_UID : string; lr_Generation : Z }.

#[global] Instance lastResizedAnnotation_eq_dec : EqDecision lastResizedAnnotation.
Proof. solve_decision. Defined.

(** The annotation of the class instance has the same three fields. *)
Abbreviation lastResizedInstanceAnnotation := lastResizedAnnotation.

(** [json.Marshal] and [json.Unmarshal] at these types. *)
Class AnnotationCodec := {
  marshal : lastResizedAnnotation → goerror + string;
  unmarshal : string → option lastResizedAnnotation
}.

Fixpoint ascii_only (s : string) : bool :=
  match s with
  | EmptyString => true
  | String.String c s => Nat.ltb (Ascii.nat_of_ascii c) 128 && ascii_only s
  end.

(** Names and UIDs of Kubernetes objects are ASCII, generations 64-bit; such
    values survive the encoding. *)
Definition encodable (a : lastResizedAnnotation) : bool :=
  ascii_only (lr_Name a) && ascii_only (lr_UID a) && bool_decide (in_int64 (lr_Generation a)).

Class AnnotationCodecLaws `{AnnotationCodec} : Prop := {
  marshal_total a : ∃ s, marshal a = inr s;
  marshal_unmarshal a s : encodable a = true → marshal a = inr s → unmarshal s = Some a
}.

Record ResizeClass := mkResizeClass { rc_Name : string; rc_UID : string; rc_Generation : Z }.

Abbreviation annotations := (gmap string string).

Section Annotations.
Context `{AnnotationCodec}.
Implicit Types (anno : annotations) (vmClass : ResizeClass).

(** The functions that set an annotation return the annotations of the VM. *)
Definition SetLastResizedAnnotation anno vmClass : goerror + annotations :=
  match marshal (mkResized (rc_Name vmClass) (rc_UID vmClass) (rc_Generation vmClass)) with
  | inl err => inl err
  | inr b => inr (<[LastResizedAnnotationKey := b]> anno)
  end.

Definition MustSetLastResizedAnnotation anno vmClass : outcome goerror annotations :=
  match SetLastResizedAnnotation anno vmClass with
  | inl _ => Panic
  | inr anno => Ok anno
  end.

Definition SetLastResizedAnnotationClassName anno (className : string) : goerror + annotations :=
  match marshal (mkResized className "" 0) with
  | inl err => inl err
  | inr b => inr (<[LastResizedAnnotationKey := b]> anno)
  end.

Definition SetLastResizedAnnotationClassInstanceName anno (classInstanceName : string) :
    goerror + annotations :=
  match marshal (mkResized classInstanceName "" 0) with
  | inl err => inl err
  | inr b => inr (<[LastResizedInstanceAnnotationKey := b]> anno)
  end.

Definition getLastResizeAnnotation anno : option lastResizedAnnotation :=
  match anno !! LastResizedAnnotationKey with
  | None => None
  | Some val => unmarshal val
  end.

Definition GetLastResizedAnnotation anno : string * string * Z * bool :=
  match getLastResizeAnnotation anno with
  | None => ("", "", 0, false)
  | Some lra => (lr_Name lra, lr_UID lra, lr_Generation lra, true)
  end.

Definition getLastResizeInstanceAnnotation anno : option lastResizedInstanceAnnotation :=
  match anno !! LastResizedInstanceAnnotationKey with
  | None => None
  | Some val => unmarshal val
  end.

Definition GetLastResizedInstanceAnnotation anno : string * string * Z * bool :=
  match getLastResizeInstanceAnnotation anno with
  | None => ("", "", 0, false)
  | Some lra => (lr_Name lra, lr_UID lra, lr_Generation lra, true)
  end.

Definition same_class_opt_in anno : bool :=
  bool_decide (is_Some (anno !! VirtualMachineSameVMClassResizeAnnotation)).

Definition ResizeNeeded anno (className : string) vmClass : bool :=
  match getLastResizeAnnotation anno with
  | None => same_class_opt_in anno
  | Some lra =>
    if negb (bool_decide (className = lr_Name lra)) then true
    else if same_class_opt_in anno then
      negb (bool_decide (rc_UID vmClass = lr_UID lra) && (rc_Generation vmClass =? lr_Generation lra))
    else false
  end.
End Annotations.

(** ** The changes applied with every resize *)

Definition ManagedByExtensionKey : string := "com.vmware.vcenter.wcp".
Definition ManagedByExtensionType : string := "VirtualMachine".
Definition ExtraConfigVMServiceNamespacedName : string := "vmservice.namespacedName".

Record ManagedByInfo := mkManagedBy { ExtensionKey : string; mb_Type : string }.

#[global] Instance ManagedByInfo_eq_dec : EqDecision ManagedByInfo.
Proof. solve_decision. Defined.

Definition emptyManagedBy : ManagedByInfo := mkManagedBy "" "".

(** [overwrite] of a comparable type with the zero value [empty]; the result is
    the new value of [*dst]. *)
Definition overwrite {T} `{EqDecision T} (empty dst user current : T) : T :=
  match (if bool_decide (user = empty) then
           if bool_decide (dst = empty) then None else Some dst
         else Some user) with
  | None => dst
  | Some desired =>
    if bool_decide (current = empty) || negb (bool_decide (current = desired)) then desired
    else empty
  end.

Section AlwaysResize.
Context {A : Type} `{EqDecision A} (sprint_v : A → string).

Abbreviation ExtraConfig := (list (option (string * @any A))).

Record AlwaysConfig := mkAlways { ac_ManagedBy : option ManagedByInfo; ac_ExtraConfig : ExtraConfig }.

Definition overwriteManagedBy (ci cs : AlwaysConfig) : AlwaysConfig :=
  let current := default emptyManagedBy (ac_ManagedBy ci) in
  let dst := default emptyManagedBy (ac_ManagedBy cs) in
  let user := mkManagedBy ManagedByExtensionKey ManagedByExtensionType in
  let dst := overwrite emptyManagedBy dst user current in
  mkAlways (if bool_decide (dst = emptyManagedBy) then None else Some dst) (ac_ExtraConfig cs).

(** The changed ConfigSpec and the entries to merge into it. *)
Definition ensureNamespaceName (namespacedName : string) (ci cs : AlwaysConfig) :
    AlwaysConfig * ExtraConfig :=
  let curEC := StringMap sprint_v (ac_ExtraConfig ci) in
  let inEC := StringMap sprint_v (ac_ExtraConfig cs) in
  let key := ExtraConfigVMServiceNamespacedName in
  let val := if bool_decide (namespacedName = "/") then "" else namespacedName in
  match curEC !! key with
  | Some v =>
    if bool_decide (v = val) then
      match inEC !! key with
      | Some _ => (mkAlways (ac_ManagedBy cs) (Delete (ac_ExtraConfig cs) key), [])
      | None => (cs, [])
      end
    else (cs, [Some (key, AnyString val)])
  | None => (cs, [Some (key, AnyString val)])
  end.

Definition overwriteExtraConfigNamespaceName (namespacedName : string) (ci cs : AlwaysConfig) :
    AlwaysConfig :=
  let '(cs, toMerge) := ensureNamespaceName namespacedName ci cs in
  mkAlways (ac_ManagedBy cs) (Merge (ac_ExtraConfig cs) toMerge).

Definition OverwriteAlwaysResizeConfigSpec (namespacedName : string) (ci cs : AlwaysConfig) :
    AlwaysConfig :=
  overwriteExtraConfigNamespaceName namespacedName ci (overwriteManagedBy ci cs).
End AlwaysResize.
