(* ===== verification/AdmissionVM.v ===== *)
(** * The VM as the admission webhooks see it

    The parts of a VirtualMachine that webhooks/virtualmachine reads or writes,
    the request, the feature switches and what the webhooks read elsewhere.

    A struct that the code compares as a whole has all its fields; durations and
    enumerations are their text.  Volumes, CD-ROMs and interfaces carry the
    placement fields as the values the placement mutators work on
    ([VolumeMutator], [CdromMutator], [NicMutator]). *)

From S2P Require Import Prelude Conditions Features Hardware NicMutator CdromMutator GoErrors VMGroup Compute.
Local Open Scope Z_scope.

(** ** References *)

Record ImageRef := mkImageRef { ir_Kind : string; ir_Name : string }.
Record LocalObjectRef := mkLocalRef { lo_APIVersion : string; lo_Kind : string; lo_Name : string }.
Record PartialObjectRef := mkPartialRef { po_APIVersion : string; po_Kind : string; po_Name : string }.

#[global] Instance ImageRef_eq_dec : EqDecision ImageRef.
Proof. solve_decision. Defined.
#[global] Instance LocalObjectRef_eq_dec : EqDecision LocalObjectRef.
Proof. solve_decision. Defined.
#[global] Instance PartialObjectRef_eq_dec : EqDecision PartialObjectRef.
Proof. solve_decision. Defined.

(** ** Network *)

Record Route := mkRoute { rt_To : string; rt_Via : string; rt_Metric : Z }.
Record VMXNet3Spec := mkVMXNet3 {
  UPTv2Enabled : option bool;
  CtxPerDev : option string;
  RSSOffloadEnabled : option bool;
  UDPRSSEnabled : option string;
  PNICFeatures : list string;
  CoalescingScheme : option string;
  CoalescingParams : option string
}.
(** [ni_Base] has the name and the unit number. *)
Record InterfaceSpec := mkIface {
  ni_Base : VirtualMachineNetworkInterfaceSpec;
  ni_Network : option PartialObjectRef;
  ni_GuestDeviceName : string;
  ni_MACAddr : string;
  ni_Addresses : list string;
  ni_DHCP4 : option bool;
  ni_DHCP6 : option bool;
  ni_Gateway4 : string;
  ni_Gateway6 : string;
  ni_MTU : option Z;
  ni_Nameservers : list string;
  ni_Routes : list Route;
  ni_SearchDomains : list string;
  ni_Type : string;
  ni_VNUMANodeID : option Z;
  ni_VMXNet3 : option VMXNet3Spec;
  ni_AdvancedProperties : list (string * string);
  ni_IPAMModes : list string
}.
Record VLANSpec := mkVLAN { vl_Name : string; vl_ID : Z; vl_Link : string }.
Record NetworkSpec := mkNetwork {
  HostName : string;
  DomainName : string;
  nw_Disabled : bool;
  nw_Nameservers : list string;
  nw_SearchDomains : list string;
  Interfaces : list InterfaceSpec;
  VLANs : list VLANSpec
}.

#[global] Instance Route_eq_dec : EqDecision Route.
Proof. solve_decision. Defined.
#[global] Instance VMXNet3Spec_eq_dec : EqDecision VMXNet3Spec.
Proof. solve_decision. Defined.
#[global] Instance NicBase_eq_dec : EqDecision VirtualMachineNetworkInterfaceSpec.
Proof. solve_decision. Defined.
#[global] Instance InterfaceSpec_eq_dec : EqDecision InterfaceSpec.
Proof. solve_decision. Defined.

Definition ni_Name (i : InterfaceSpec) : string := if_Name (ni_Base i).

Definition set_ni_Base (x : VirtualMachineNetworkInterfaceSpec) (i : InterfaceSpec) : InterfaceSpec :=
  mkIface x (ni_Network i) (ni_GuestDeviceName i) (ni_MACAddr i) (ni_Addresses i) (ni_DHCP4 i)
    (ni_DHCP6 i) (ni_Gateway4 i) (ni_Gateway6 i) (ni_MTU i) (ni_Nameservers i) (ni_Routes i)
    (ni_SearchDomains i) (ni_Type i) (ni_VNUMANodeID i) (ni_VMXNet3 i) (ni_AdvancedProperties i)
    (ni_IPAMModes i).
Definition set_ni_Network (x : option PartialObjectRef) (i : InterfaceSpec) : InterfaceSpec :=
  mkIface (ni_Base i) x (ni_GuestDeviceName i) (ni_MACAddr i) (ni_Addresses i) (ni_DHCP4 i)
    (ni_DHCP6 i) (ni_Gateway4 i) (ni_Gateway6 i) (ni_MTU i) (ni_Nameservers i) (ni_Routes i)
    (ni_SearchDomains i) (ni_Type i) (ni_VNUMANodeID i) (ni_VMXNet3 i) (ni_AdvancedProperties i)
    (ni_IPAMModes i).
Definition set_ni_Type (x : string) (i : InterfaceSpec) : InterfaceSpec :=
  mkIface (ni_Base i) (ni_Network i) (ni_GuestDeviceName i) (ni_MACAddr i) (ni_Addresses i) (ni_DHCP4 i)
    (ni_DHCP6 i) (ni_Gateway4 i) (ni_Gateway6 i) (ni_MTU i) (ni_Nameservers i) (ni_Routes i)
    (ni_SearchDomains i) x (ni_VNUMANodeID i) (ni_VMXNet3 i) (ni_AdvancedProperties i)
    (ni_IPAMModes i).
Definition set_Interfaces (x : list InterfaceSpec) (n : NetworkSpec) : NetworkSpec :=
  mkNetwork (HostName n) (DomainName n) (nw_Disabled n) (nw_Nameservers n) (nw_SearchDomains n) x
    (VLANs n).

(** ** Bootstrap: whether a reference to a secret is set is a boolean *)

Record ValueOrSecret := mkValueOrSecret { From : bool; Value_ : bool }.
Record CloudInitSpec := mkCloudInit {
  InstanceID : string;
  CloudConfig : option string;
  RawCloudConfig : bool;
  UseGlobalNameserversAsDefault : option bool;
  UseGlobalSearchDomainsAsDefault : option bool
}.
Record LinuxPrepSpec := mkLinuxPrep {
  lp_ExpirePasswordAfterNextLogin : bool;
  lp_Password : bool;
  lp_ScriptText : option ValueOrSecret
}.
(** The password selector is its secret's name. *)
Record GUIUnattended := mkGUI { AutoLogon : bool; AutoLogonCount : Z; gu_Password : option string }.
Record Identification := mkIdentification {
  DomainAdmin : string;
  DomainAdminPassword : option string;
  DomainOU : string;
  JoinWorkgroup : string
}.
Record InlineSysprep := mkInlineSysprep {
  is_GUIUnattended : option GUIUnattended;
  is_Identification : option Identification;
  is_ExpirePasswordAfterNextLogin : bool;
  is_ScriptText : option ValueOrSecret
}.
Record SysprepSpec := mkSysprep { sp_Sysprep : option InlineSysprep; RawSysprep : bool }.
Record VAppConfigSpec := mkVApp { Properties : list (string * ValueOrSecret); RawProperties : string }.
Record BootstrapSpec := mkBootstrap {
  CloudInit : option CloudInitSpec;
  LinuxPrep : option LinuxPrepSpec;
  Sysprep : option SysprepSpec;
  VAppConfig : option VAppConfigSpec
}.

Definition set_InstanceID (x : string) (ci : CloudInitSpec) : CloudInitSpec :=
  mkCloudInit x (CloudConfig ci) (RawCloudConfig ci) (UseGlobalNameserversAsDefault ci)
    (UseGlobalSearchDomainsAsDefault ci).
Definition set_CloudInit (x : option CloudInitSpec) (b : BootstrapSpec) : BootstrapSpec :=
  mkBootstrap x (LinuxPrep b) (Sysprep b) (VAppConfig b).

(** ** Volumes and hardware *)

Record PVCSource := mkPVCSource {
  ClaimName : string;
  ReadOnly : bool;
  InstanceVolumeClaim : option (string * string)
}.
Record AdmissionVolume := mkAVolume {
  av_Base : VirtualMachineVolume;
  av_PVC : option PVCSource;
  av_Removable : option bool
}.
Record AdmissionCdrom := mkACdrom {
  ac_Base : VirtualMachineCdromSpec;
  ac_Image : ImageRef;
  ac_Connected : option bool
}.
Record HardwareSpec := mkAHardware {
  hs_SCSI : list SCSIControllerSpec;
  hs_SATA : list SATAControllerSpec;
  hs_NVME : list NVMEControllerSpec;
  hs_IDE : list IDEControllerSpec;
  hs_Cdrom : list AdmissionCdrom
}.

#[global] Instance PVCSource_eq_dec : EqDecision PVCSource.
Proof. solve_decision. Defined.
#[global] Instance AdmissionVolume_eq_dec : EqDecision AdmissionVolume.
Proof. solve_decision. Defined.
#[global] Instance AdmissionCdrom_eq_dec : EqDecision AdmissionCdrom.
Proof. solve_decision. Defined.
#[global] Instance HardwareSpec_eq_dec : EqDecision HardwareSpec.
Proof. solve_decision. Defined.

Definition av_VolName (v : AdmissionVolume) : string := vol_Name (av_Base v).
Definition ac_Name (c : AdmissionCdrom) : string := cdrom_Name (ac_Base c).
Definition set_av_Base (v : AdmissionVolume) (x : VirtualMachineVolume) : AdmissionVolume :=
  mkAVolume x (av_PVC v) (av_Removable v).
Definition set_ac_Base (c : AdmissionCdrom) (x : VirtualMachineCdromSpec) : AdmissionCdrom :=
  mkACdrom x (ac_Image c) (ac_Connected c).
Definition set_ac_Kind (k : string) (c : AdmissionCdrom) : AdmissionCdrom :=
  mkACdrom (ac_Base c) (mkImageRef k (ir_Name (ac_Image c))) (ac_Connected c).
Definition set_hs_Cdrom (x : list AdmissionCdrom) (h : HardwareSpec) : HardwareSpec :=
  mkAHardware (hs_SCSI h) (hs_SATA h) (hs_NVME h) (hs_IDE h) x.
Definition set_hs_IDE (x : list IDEControllerSpec) (h : HardwareSpec) : HardwareSpec :=
  mkAHardware (hs_SCSI h) (hs_SATA h) (hs_NVME h) x (hs_Cdrom h).

Definition emptyHardwareSpec : HardwareSpec := mkAHardware [] [] [] [] [].

(** The hardware as the placement mutators see it, and their result put back:
    they change CD-ROMs in place and add none. *)
Definition hw_base (h : HardwareSpec) : VirtualMachineHardwareSpec :=
  mkHardware (hs_SCSI h) (hs_SATA h) (hs_NVME h) (hs_IDE h) (ac_Base <$> hs_Cdrom h).
Definition hw_rebase (h : option HardwareSpec) (b : VirtualMachineHardwareSpec) : HardwareSpec :=
  mkAHardware (SCSIControllers b) (SATAControllers b) (NVMEControllers b) (IDEControllers b)
    (zip_with set_ac_Base (match h with Some h => hs_Cdrom h | None => [] end) (Cdrom b)).

(** ** The rest of the spec *)

Record BootableDevice := mkBootable { bd_Type : string; bd_Name : string }.
Record BootOptionsSpec := mkBootOptions {
  Firmware : string;
  BootDelay : option string;
  BootOrder : option (list BootableDevice);
  BootRetry : string;
  BootRetryDelay : option string;
  EFISecureBoot : string;
  NetworkBootProtocol : string
}.
Record LabelExpression := mkExpression { ex_Key : string; ex_Operator : string; ex_Values : list string }.
Record AffinitySelector := mkSelector {
  MatchLabels : gmap string string;
  MatchExpressions : list LabelExpression
}.
Record AffinityTerm := mkTerm { LabelSelector_ : option AffinitySelector; TopologyKey : string }.
Record AffinityRules := mkRules {
  RequiredPreferred : list AffinityTerm;
  PreferredPreferred : list AffinityTerm;
  RequiredRequired : list AffinityTerm
}.
Record AffinitySpec := mkAffinity { VMAffinity : option AffinityRules; VMAntiAffinity : option AffinityRules }.
(** The port is the value of [IntValue]. *)
Record ReadinessProbeSpec := mkProbe { TCPSocket : option Z; GuestHeartbeat : bool; GuestInfo : list string }.

#[global] Instance BootableDevice_eq_dec : EqDecision BootableDevice.
Proof. solve_decision. Defined.
#[global] Instance BootOptionsSpec_eq_dec : EqDecision BootOptionsSpec.
Proof. solve_decision. Defined.
#[global] Instance LabelExpression_eq_dec : EqDecision LabelExpression.
Proof. solve_decision. Defined.
#[global] Instance AffinitySelector_eq_dec : EqDecision AffinitySelector.
Proof. solve_decision. Defined.
#[global] Instance AffinityTerm_eq_dec : EqDecision AffinityTerm.
Proof. solve_decision. Defined.
#[global] Instance AffinityRules_eq_dec : EqDecision AffinityRules.
Proof. solve_decision. Defined.
#[global] Instance AffinitySpec_eq_dec : EqDecision AffinitySpec.
Proof. solve_decision. Defined.

Section VM.
Context {Q : Type}.

(** The fields of spec.advanced; those with a [vmx] tag are kept as pairs of
    their JSON name and their text, absent when unset. *)
Record AdvancedSpec := mkAdvanced {
  BootDiskCapacity : option Q;
  adv_VMX : gmap string string;
  adv_ExtraConfig : list (string * string)
}.

Record AdmissionVM := mkAVM {
  av_Name : string;
  av_Namespace : string;
  av_Labels : gmap string string;
  av_Annotations : gmap string string;
  av_Owners : list OwnerRef;
  av_ClassName : string;
  av_Class : option LocalObjectRef;
  av_ImageName : string;
  av_Image : option ImageRef;
  av_StorageClass : string;
  av_VolumeAttributesClassName : string;
  av_Crypto : option string;
  av_PowerState : string;
  av_NextRestartTime : string;
  av_InstanceUUID : string;
  av_BiosUUID : string;
  av_GuestID : string;
  av_GroupName : string;
  av_ResourcePolicyName : option string;
  av_MinHardwareVersion : Z;
  av_CurrentSnapshotName : string;
  av_Network : option NetworkSpec;
  av_Bootstrap : option BootstrapSpec;
  av_Volumes : list AdmissionVolume;
  av_Hardware : option HardwareSpec;
  av_BootOptions : option BootOptionsSpec;
  av_Affinity : option AffinitySpec;
  av_ReadinessProbe : option ReadinessProbeSpec;
  av_Advanced : option AdvancedSpec;
  av_Compute : ComputeSpec Q;
  av_Conditions : Conditions;
  av_StatusPowerState : string;
  av_StatusVolumes : list string;
  av_StatusControllers : option (list VirtualControllerStatus)
}.

Definition set_Annotations (x : gmap string string) (vm : AdmissionVM) : AdmissionVM :=
  mkAVM (av_Name vm) (av_Namespace vm) (av_Labels vm) x (av_Owners vm) (av_ClassName vm)
    (av_Class vm) (av_ImageName vm) (av_Image vm) (av_StorageClass vm)
    (av_VolumeAttributesClassName vm) (av_Crypto vm) (av_PowerState vm) (av_NextRestartTime vm)
    (av_InstanceUUID vm) (av_BiosUUID vm) (av_GuestID vm) (av_GroupName vm)
    (av_ResourcePolicyName vm) (av_MinHardwareVersion vm) (av_CurrentSnapshotName vm)
    (av_Network vm) (av_Bootstrap vm) (av_Volumes vm) (av_Hardware vm) (av_BootOptions vm)
    (av_Affinity vm) (av_ReadinessProbe vm) (av_Advanced vm) (av_Compute vm) (av_Conditions vm)
    (av_StatusPowerState vm) (av_StatusVolumes vm) (av_StatusControllers vm).
Definition set_Owners (x : list OwnerRef) (vm : AdmissionVM) : AdmissionVM :=
  mkAVM (av_Name vm) (av_Namespace vm) (av_Labels vm) (av_Annotations vm) x (av_ClassName vm)
    (av_Class vm) (av_ImageName vm) (av_Image vm) (av_StorageClass vm)
    (av_VolumeAttributesClassName vm) (av_Crypto vm) (av_PowerState vm) (av_NextRestartTime vm)
    (av_InstanceUUID vm) (av_BiosUUID vm) (av_GuestID vm) (av_GroupName vm)
    (av_ResourcePolicyName vm) (av_MinHardwareVersion vm) (av_CurrentSnapshotName vm)
    (av_Network vm) (av_Bootstrap vm) (av_Volumes vm) (av_Hardware vm) (av_BootOptions vm)
    (av_Affinity vm) (av_ReadinessProbe vm) (av_Advanced vm) (av_Compute vm) (av_Conditions vm)
    (av_StatusPowerState vm) (av_StatusVolumes vm) (av_StatusControllers vm).
Definition set_ClassName (x : string) (vm : AdmissionVM) : AdmissionVM :=
  mkAVM (av_Name vm) (av_Namespace vm) (av_Labels vm) (av_Annotations vm) (av_Owners vm) x
    (av_Class vm) (av_ImageName vm) (av_Image vm) (av_StorageClass vm)
    (av_VolumeAttributesClassName vm) (av_Crypto vm) (av_PowerState vm) (av_NextRestartTime vm)
    (av_InstanceUUID vm) (av_BiosUUID vm) (av_GuestID vm) (av_GroupName vm)
    (av_ResourcePolicyName vm) (av_MinHardwareVersion vm) (av_CurrentSnapshotName vm)
    (av_Network vm) (av_Bootstrap vm) (av_Volumes vm) (av_Hardware vm) (av_BootOptions vm)
    (av_Affinity vm) (av_ReadinessProbe vm) (av_Advanced vm) (av_Compute vm) (av_Conditions vm)
    (av_StatusPowerState vm) (av_StatusVolumes vm) (av_StatusControllers vm).
Definition set_Class (x : option LocalObjectRef) (vm : AdmissionVM) : AdmissionVM :=
  mkAVM (av_Name vm) (av_Namespace vm) (av_Labels vm) (av_Annotations vm) (av_Owners vm)
    (av_ClassName vm) x (av_ImageName vm) (av_Image vm) (av_StorageClass vm)
    (av_VolumeAttributesClassName vm) (av_Crypto vm) (av_PowerState vm) (av_NextRestartTime vm)
    (av_InstanceUUID vm) (av_BiosUUID vm) (av_GuestID vm) (av_GroupName vm)
    (av_ResourcePolicyName vm) (av_MinHardwareVersion vm) (av_CurrentSnapshotName vm)
    (av_Network vm) (av_Bootstrap vm) (av_Volumes vm) (av_Hardware vm) (av_BootOptions vm)
    (av_Affinity vm) (av_ReadinessProbe vm) (av_Advanced vm) (av_Compute vm) (av_Conditions vm)
    (av_StatusPowerState vm) (av_StatusVolumes vm) (av_StatusControllers vm).
Definition set_ImageName (x : string) (vm : AdmissionVM) : AdmissionVM :=
  mkAVM (av_Name vm) (av_Namespace vm) (av_Labels vm) (av_Annotations vm) (av_Owners vm)
    (av_ClassName vm) (av_Class vm) x (av_Image vm) (av_StorageClass vm)
    (av_VolumeAttributesClassName vm) (av_Crypto vm) (av_PowerState vm) (av_NextRestartTime vm)
    (av_InstanceUUID vm) (av_BiosUUID vm) (av_GuestID vm) (av_GroupName vm)
    (av_ResourcePolicyName vm) (av_MinHardwareVersion vm) (av_CurrentSnapshotName vm)
    (av_Network vm) (av_Bootstrap vm) (av_Volumes vm) (av_Hardware vm) (av_BootOptions vm)
    (av_Affinity vm) (av_ReadinessProbe vm) (av_Advanced vm) (av_Compute vm) (av_Conditions vm)
    (av_StatusPowerState vm) (av_StatusVolumes vm) (av_StatusControllers vm).
Definition set_Image (x : option ImageRef) (vm : AdmissionVM) : AdmissionVM :=
  mkAVM (av_Name vm) (av_Namespace vm) (av_Labels vm) (av_Annotations vm) (av_Owners vm)
    (av_ClassName vm) (av_Class vm) (av_ImageName vm) x (av_StorageClass vm)
    (av_VolumeAttributesClassName vm) (av_Crypto vm) (av_PowerState vm) (av_NextRestartTime vm)
    (av_InstanceUUID vm) (av_BiosUUID vm) (av_GuestID vm) (av_GroupName vm)
    (av_ResourcePolicyName vm) (av_MinHardwareVersion vm) (av_CurrentSnapshotName vm)
    (av_Network vm) (av_Bootstrap vm) (av_Volumes vm) (av_Hardware vm) (av_BootOptions vm)
    (av_Affinity vm) (av_ReadinessProbe vm) (av_Advanced vm) (av_Compute vm) (av_Conditions vm)
    (av_StatusPowerState vm) (av_StatusVolumes vm) (av_StatusControllers vm).
Definition set_Crypto (x : option string) (vm : AdmissionVM) : AdmissionVM :=
  mkAVM (av_Name vm) (av_Namespace vm) (av_Labels vm) (av_Annotations vm) (av_Owners vm)
    (av_ClassName vm) (av_Class vm) (av_ImageName vm) (av_Image vm) (av_StorageClass vm)
    (av_VolumeAttributesClassName vm) x (av_PowerState vm) (av_NextRestartTime vm)
    (av_InstanceUUID vm) (av_BiosUUID vm) (av_GuestID vm) (av_GroupName vm)
    (av_ResourcePolicyName vm) (av_MinHardwareVersion vm) (av_CurrentSnapshotName vm)
    (av_Network vm) (av_Bootstrap vm) (av_Volumes vm) (av_Hardware vm) (av_BootOptions vm)
    (av_Affinity vm) (av_ReadinessProbe vm) (av_Advanced vm) (av_Compute vm) (av_Conditions vm)
    (av_StatusPowerState vm) (av_StatusVolumes vm) (av_StatusControllers vm).
Definition set_PowerState (x : string) (vm : AdmissionVM) : AdmissionVM :=
  mkAVM (av_Name vm) (av_Namespace vm) (av_Labels vm) (av_Annotations vm) (av_Owners vm)
    (av_ClassName vm) (av_Class vm) (av_ImageName vm) (av_Image vm) (av_StorageClass vm)
    (av_VolumeAttributesClassName vm) (av_Crypto vm) x (av_NextRestartTime vm) (av_InstanceUUID
    vm) (av_BiosUUID vm) (av_GuestID vm) (av_GroupName vm) (av_ResourcePolicyName vm)
    (av_MinHardwareVersion vm) (av_CurrentSnapshotName vm) (av_Network vm) (av_Bootstrap vm)
    (av_Volumes vm) (av_Hardware vm) (av_BootOptions vm) (av_Affinity vm) (av_ReadinessProbe vm)
    (av_Advanced vm) (av_Compute vm) (av_Conditions vm) (av_StatusPowerState vm)
    (av_StatusVolumes vm) (av_StatusControllers vm).
Definition set_NextRestartTime (x : string) (vm : AdmissionVM) : AdmissionVM :=
  mkAVM (av_Name vm) (av_Namespace vm) (av_Labels vm) (av_Annotations vm) (av_Owners vm)
    (av_ClassName vm) (av_Class vm) (av_ImageName vm) (av_Image vm) (av_StorageClass vm)
    (av_VolumeAttributesClassName vm) (av_Crypto vm) (av_PowerState vm) x (av_InstanceUUID vm)
    (av_BiosUUID vm) (av_GuestID vm) (av_GroupName vm) (av_ResourcePolicyName vm)
    (av_MinHardwareVersion vm) (av_CurrentSnapshotName vm) (av_Network vm) (av_Bootstrap vm)
    (av_Volumes vm) (av_Hardware vm) (av_BootOptions vm) (av_Affinity vm) (av_ReadinessProbe vm)
    (av_Advanced vm) (av_Compute vm) (av_Conditions vm) (av_StatusPowerState vm)
    (av_StatusVolumes vm) (av_StatusControllers vm).
Definition set_InstanceUUID (x : string) (vm : AdmissionVM) : AdmissionVM :=
  mkAVM (av_Name vm) (av_Namespace vm) (av_Labels vm) (av_Annotations vm) (av_Owners vm)
    (av_ClassName vm) (av_Class vm) (av_ImageName vm) (av_Image vm) (av_StorageClass vm)
    (av_VolumeAttributesClassName vm) (av_Crypto vm) (av_PowerState vm) (av_NextRestartTime vm)
    x (av_BiosUUID vm) (av_GuestID vm) (av_GroupName vm) (av_ResourcePolicyName vm)
    (av_MinHardwareVersion vm) (av_CurrentSnapshotName vm) (av_Network vm) (av_Bootstrap vm)
    (av_Volumes vm) (av_Hardware vm) (av_BootOptions vm) (av_Affinity vm) (av_ReadinessProbe vm)
    (av_Advanced vm) (av_Compute vm) (av_Conditions vm) (av_StatusPowerState vm)
    (av_StatusVolumes vm) (av_StatusControllers vm).
Definition set_BiosUUID (x : string) (vm : AdmissionVM) : AdmissionVM :=
  mkAVM (av_Name vm) (av_Namespace vm) (av_Labels vm) (av_Annotations vm) (av_Owners vm)
    (av_ClassName vm) (av_Class vm) (av_ImageName vm) (av_Image vm) (av_StorageClass vm)
    (av_VolumeAttributesClassName vm) (av_Crypto vm) (av_PowerState vm) (av_NextRestartTime vm)
    (av_InstanceUUID vm) x (av_GuestID vm) (av_GroupName vm) (av_ResourcePolicyName vm)
    (av_MinHardwareVersion vm) (av_CurrentSnapshotName vm) (av_Network vm) (av_Bootstrap vm)
    (av_Volumes vm) (av_Hardware vm) (av_BootOptions vm) (av_Affinity vm) (av_ReadinessProbe vm)
    (av_Advanced vm) (av_Compute vm) (av_Conditions vm) (av_StatusPowerState vm)
    (av_StatusVolumes vm) (av_StatusControllers vm).
Definition set_Network (x : option NetworkSpec) (vm : AdmissionVM) : AdmissionVM :=
  mkAVM (av_Name vm) (av_Namespace vm) (av_Labels vm) (av_Annotations vm) (av_Owners vm)
    (av_ClassName vm) (av_Class vm) (av_ImageName vm) (av_Image vm) (av_StorageClass vm)
    (av_VolumeAttributesClassName vm) (av_Crypto vm) (av_PowerState vm) (av_NextRestartTime vm)
    (av_InstanceUUID vm) (av_BiosUUID vm) (av_GuestID vm) (av_GroupName vm)
    (av_ResourcePolicyName vm) (av_MinHardwareVersion vm) (av_CurrentSnapshotName vm) x
    (av_Bootstrap vm) (av_Volumes vm) (av_Hardware vm) (av_BootOptions vm) (av_Affinity vm)
    (av_ReadinessProbe vm) (av_Advanced vm) (av_Compute vm) (av_Conditions vm)
    (av_StatusPowerState vm) (av_StatusVolumes vm) (av_StatusControllers vm).
Definition set_Bootstrap (x : option BootstrapSpec) (vm : AdmissionVM) : AdmissionVM :=
  mkAVM (av_Name vm) (av_Namespace vm) (av_Labels vm) (av_Annotations vm) (av_Owners vm)
    (av_ClassName vm) (av_Class vm) (av_ImageName vm) (av_Image vm) (av_StorageClass vm)
    (av_VolumeAttributesClassName vm) (av_Crypto vm) (av_PowerState vm) (av_NextRestartTime vm)
    (av_InstanceUUID vm) (av_BiosUUID vm) (av_GuestID vm) (av_GroupName vm)
    (av_ResourcePolicyName vm) (av_MinHardwareVersion vm) (av_CurrentSnapshotName vm)
    (av_Network vm) x (av_Volumes vm) (av_Hardware vm) (av_BootOptions vm) (av_Affinity vm)
    (av_ReadinessProbe vm) (av_Advanced vm) (av_Compute vm) (av_Conditions vm)
    (av_StatusPowerState vm) (av_StatusVolumes vm) (av_StatusControllers vm).
Definition set_Volumes (x : list AdmissionVolume) (vm : AdmissionVM) : AdmissionVM :=
  mkAVM (av_Name vm) (av_Namespace vm) (av_Labels vm) (av_Annotations vm) (av_Owners vm)
    (av_ClassName vm) (av_Class vm) (av_ImageName vm) (av_Image vm) (av_StorageClass vm)
    (av_VolumeAttributesClassName vm) (av_Crypto vm) (av_PowerState vm) (av_NextRestartTime vm)
    (av_InstanceUUID vm) (av_BiosUUID vm) (av_GuestID vm) (av_GroupName vm)
    (av_ResourcePolicyName vm) (av_MinHardwareVersion vm) (av_CurrentSnapshotName vm)
    (av_Network vm) (av_Bootstrap vm) x (av_Hardware vm) (av_BootOptions vm) (av_Affinity vm)
    (av_ReadinessProbe vm) (av_Advanced vm) (av_Compute vm) (av_Conditions vm)
    (av_StatusPowerState vm) (av_StatusVolumes vm) (av_StatusControllers vm).
Definition set_Hardware (x : option HardwareSpec) (vm : AdmissionVM) : AdmissionVM :=
  mkAVM (av_Name vm) (av_Namespace vm) (av_Labels vm) (av_Annotations vm) (av_Owners vm)
    (av_ClassName vm) (av_Class vm) (av_ImageName vm) (av_Image vm) (av_StorageClass vm)
    (av_VolumeAttributesClassName vm) (av_Crypto vm) (av_PowerState vm) (av_NextRestartTime vm)
    (av_InstanceUUID vm) (av_BiosUUID vm) (av_GuestID vm) (av_GroupName vm)
    (av_ResourcePolicyName vm) (av_MinHardwareVersion vm) (av_CurrentSnapshotName vm)
    (av_Network vm) (av_Bootstrap vm) (av_Volumes vm) x (av_BootOptions vm) (av_Affinity vm)
    (av_ReadinessProbe vm) (av_Advanced vm) (av_Compute vm) (av_Conditions vm)
    (av_StatusPowerState vm) (av_StatusVolumes vm) (av_StatusControllers vm).
Definition set_Conditions (x : Conditions) (vm : AdmissionVM) : AdmissionVM :=
  mkAVM (av_Name vm) (av_Namespace vm) (av_Labels vm) (av_Annotations vm) (av_Owners vm)
    (av_ClassName vm) (av_Class vm) (av_ImageName vm) (av_Image vm) (av_StorageClass vm)
    (av_VolumeAttributesClassName vm) (av_Crypto vm) (av_PowerState vm) (av_NextRestartTime vm)
    (av_InstanceUUID vm) (av_BiosUUID vm) (av_GuestID vm) (av_GroupName vm)
    (av_ResourcePolicyName vm) (av_MinHardwareVersion vm) (av_CurrentSnapshotName vm)
    (av_Network vm) (av_Bootstrap vm) (av_Volumes vm) (av_Hardware vm) (av_BootOptions vm)
    (av_Affinity vm) (av_ReadinessProbe vm) (av_Advanced vm) (av_Compute vm) x
    (av_StatusPowerState vm) (av_StatusVolumes vm) (av_StatusControllers vm).
End VM.
Arguments AdvancedSpec : clear implicits.
Arguments AdmissionVM : clear implicits.

(** A VM is a member of groups. *)
#[global] Instance AdmissionVM_member {Q} : MemberObject (AdmissionVM Q) := {
  GetMemberKind := vmKind;
  mo_Name := av_Name;
  mo_Namespace := av_Namespace;
  GetGroupName := av_GroupName;
  GetPowerState := av_StatusPowerState;
  mo_Conditions := av_Conditions;
  mo_SetConditions := set_Conditions;
  mo_Owners := av_Owners;
  mo_SetOwners := set_Owners
}.

#[global] Instance AdmissionVM_member_laws {Q} : MemberObjectLaws (AdmissionVM Q).
Proof. done. Qed.

Definition VirtualMachinePowerStateSuspended : string := "Suspended".

Definition vmiKind : string := "VirtualMachineImage".
Definition cvmiKind : string := "ClusterVirtualMachineImage".
Definition vmclassKind : string := "VirtualMachineClass".

(** [vm.Annotations[key]] is [annotation] of [Features]; labels alike. *)
Definition label (m : gmap string string) (key : string) : string := default "" (m !! key).

Definition annotated {Q} (vm : AdmissionVM Q) (key : string) : bool :=
  bool_decide (is_Some (av_Annotations vm !! key)).

Definition IsClasslessVM {Q} (vm : AdmissionVM Q) : bool := bool_decide (av_ClassName vm = "").
Definition IsImagelessVM {Q} (vm : AdmissionVM Q) : bool :=
  bool_decide (av_Image vm = None) && bool_decide (av_ImageName vm = "").
Definition ImageRefsEqual (ref1 ref2 : option ImageRef) : bool :=
  match ref1, ref2 with
  | None, None => true
  | Some r1, Some r2 => bool_decide (r1 = r2)
  | _, _ => false
  end.

(** ** The request and the configuration *)

Inductive Operation := Create | Update | Delete | Connect.

(** [rq_Now] is [time.Now().UTC().Format(time.RFC3339Nano)]; the two UUIDs are
    what [uuid.NewString] returns for the instance and for the BIOS. *)
Record WebhookRequest := mkRequest {
  rq_Op : Operation;
  IsPrivilegedAccount : bool;
  IsVMOperatorAccount : bool;
  IsSystemMasters : bool;
  Username : string;
  rq_Namespace : string;
  rq_Now : string;
  rq_InstanceUUID : string;
  rq_BiosUUID : string
}.

Record WebhookConfig := mkConfig {
  Features_ : FeatureStates;
  BuildVersion : string;
  NetworkProviderType : string;
  PerNamespaceNetworkProvider : bool;
  BringYourOwnEncryptionKey : bool;
  ImmutableClasses : bool;
  MutableNetworks : bool;
  VMGroups : bool;
  VMResizeCPUMemory : bool;
  VMIncrementalRestore : bool;
  VMImportNewNet : bool;
  GuestCustomizationVCDParity : bool;
  WorkloadDomainIsolation : bool;
  VMVlanSubinterface : bool;
  WorkloadIPv6 : bool;
  VMAffinityDuringExecution : bool;
  VMHardAffinityDuringExecution : bool
}.

(** [vmopv1.GroupVersion.Version] *)
Definition SchemaVersion : string := "v1alpha6".

(** ** What the webhooks read elsewhere *)

Record ClassInstance := mkInstance {
  in_APIVersion : string;
  in_Kind : string;
  in_Name : string;
  in_Labels : gmap string string;
  in_Owners : list OwnerRef
}.
Record ClaimObject := mkClaimObject { AccessModes : list string; StorageClassName : option string }.
Record NetworkSettings := mkNetworkSettings { ns_Provider : string; ns_LegacyProvider : string }.

Inductive IPFamily := IPv4 | IPv6.
#[global] Instance IPFamily_eq_dec : EqDecision IPFamily.
Proof. solve_decision. Defined.

(** Reads of the API server (a request sees one state of it) and the libraries
    the webhooks call.  Images are their names; [GetDefaultEncryptionClass]
    returns [None] for [ErrNoDefaultEncryptionClass]. *)
Class WebhookAPI := {
  ProviderConfigMap : string → goerror + gmap string string;
  getNetworkSettings : string → goerror + NetworkSettings;
  ListActiveInstances : string → goerror + list ClassInstance;
  GetClassInstance : string → string → goerror + ClassInstance;
  GetVMI : string → string → goerror + string;
  GetCVMI : string → goerror + string;
  ListVMIByStatusName : string → string → goerror + list string;
  ListCVMIByStatusName : string → goerror + list string;
  IsEncryptedStorageClass : string → goerror + bool;
  GetDefaultEncryptionClass : string → goerror + option string;
  GetPVCObject : string → string → goerror + ClaimObject;
  GetStoragePolicyID : string → string → string → goerror + string;
  IsStoragePolicyInNamespace : string → string → string → goerror + bool;
  (** the zone's deletion timestamp is set *)
  GetZone : string → string → goerror + bool;
  GetAvailabilityZone : string → goerror + ();
  ListExecutionPolicies : string → goerror + list string;
  (** libraries *)
  time_Parse : string → bool;
  uuid_Validate : string → bool;
  ParseIP : string → option IPFamily;
  ParseCIDR : string → goerror + IPFamily;
  ParseGroupVersion : string → goerror + string * string;
  NameIsDNSSubdomain : string → list string;
  IsValidHostName : string → bool;
  IsValidDomainName : string → bool;
  CloudConfigErrors : string → list string;
  (** [vimtypes.HardwareVersion] of an int32, and the largest valid one *)
  HardwareVersion : Z → Z;
  MaxValidHardwareVersion : Z;
  (** the tables of pkg/util/vmopv1/extraconfig.go, built by reflection *)
  IsSystemReservedExtraConfigKey : string → bool;
  IsEthernetDeviceKey : string → bool;
  IsFirstClassVMXnet3NICKey : string → bool;
  (** constants of the net-operator and NSX API packages *)
  netop_GroupVersion : string * string;
  vpc_GroupVersion : string * string;
  NetworkProviderVSphereDistributed : string;
  NetworkProviderNSXTier1 : string;
  NetworkProviderVPC : string
}.

(** [GroupVersion.String] *)
Definition gv_String (gv : string * string) : string :=
  if bool_decide (gv.1 = "") then gv.2 else gv.1 +:+ "/" +:+ gv.2.

Definition ncp_GroupVersion : string * string := ("vmware.com", "v1alpha1").

Definition NetworkProviderTypeNamed : string := "NAMED".
Definition NetworkProviderTypeNSXT : string := "NSXT".
Definition NetworkProviderTypeVDS : string := "VSPHERE_NETWORK".
Definition NetworkProviderTypeVPC : string := "NSXT_VPC".
Definition reservedSupervisorNamespace : string := "vmware-system-supervisor".

Section NetworkSettings.
Context `{WebhookAPI} (cfg : WebhookConfig).

Definition NetworkProviderToType (p : string) : goerror + string :=
  if bool_decide (p = NetworkProviderVSphereDistributed) then inr NetworkProviderTypeVDS
  else if bool_decide (p = NetworkProviderNSXTier1) then inr NetworkProviderTypeNSXT
  else if bool_decide (p = NetworkProviderVPC) then inr NetworkProviderTypeVPC
  else inl (ErrorString ("unknown network provider " +:+ quoted p)).

Definition GetProviderType (namespace : string) : goerror + string :=
  if negb (PerNamespaceNetworkProvider cfg) then inr (NetworkProviderType cfg)
  else match getNetworkSettings namespace with
  | inl err => inl err
  | inr ns => NetworkProviderToType (ns_Provider ns)
  end.

Definition GetSupportedProviderTypes (namespace : string) : goerror + list string :=
  if negb (PerNamespaceNetworkProvider cfg) then inr [NetworkProviderType cfg]
  else match getNetworkSettings namespace with
  | inl err => inl err
  | inr ns =>
    match NetworkProviderToType (ns_Provider ns) with
    | inl err => inl err
    | inr defaultProvider =>
      if negb (bool_decide (ns_LegacyProvider ns = "")) then
        match NetworkProviderToType (ns_LegacyProvider ns) with
        | inl err => inl (Wrapped "legacy provider" err)
        | inr legacyProvider => inr [defaultProvider; legacyProvider]
        end
      else if bool_decide (namespace = reservedSupervisorNamespace) &&
              negb (bool_decide (defaultProvider = NetworkProviderTypeVDS))
      then inr [defaultProvider; NetworkProviderTypeVDS]
      else inr [defaultProvider]
    end
  end.
End NetworkSettings.
