(* ===== verification/VMMutator.v ===== *)
(** * The mutation webhook of VMs

    webhooks/virtualmachine/mutation/virtualmachine_mutator.go and
    virtualmachine_mutator_network_interface_type.go, with [ResolveImageName] of
    pkg/util/vmopv1/vm.go.  The placement mutators are those of [VolumeMutator],
    [CdromMutator] and [NicMutator].

    A mutator takes the VM and returns it with the flag it reports; an error of
    a mutator denies the request.  The functions registered in a [sync.Map] run
    in an unspecified order, which is an argument of [Mutate]. *)

From S2P Require Import Prelude Conditions Features Hardware NicMutator VolumeMutator CdromMutator.
From S2P Require Import GoErrors VMGroup Compute ResizeAnnotations AdmissionVM.
Local Open Scope Z_scope.
Local Open Scope go_scope.

Definition defaultInterfaceName : string := "eth0".
Definition defaultNamedNetwork : string := "VM Network".
Definition VMClassInstanceActiveLabelKey : string := "vmoperator.vmware.com/active".
Definition NoDefaultNicAnnotation : string := "vmoperator.vmware.com/no-default-nic".
Definition CreatedAtBuildVersionAnnotationKey : string :=
  "vmoperator.vmware.com/created-at-build-version".
Definition CreatedAtSchemaVersionAnnotationKey : string :=
  "vmoperator.vmware.com/created-at-schema-version".
Definition VMXNet3Type : string := "VMXNet3".

(** [strings.EqualFold("now", s)]: no other letter folds to one of "now". *)
Definition is_now (s : string) : bool := bool_decide (ToLower s = "now").

(** ** Images *)

Definition ImageNotFound (name : string) : goerror :=
  StatusError "NotFound" ("no VM image exists for " +:+ quoted name +:+ " in namespace or cluster scope").
Definition IsNotFound (err : goerror) : bool :=
  match err with StatusError r _ => bool_decide (r = "NotFound") | _ => false end.

(** ** The registered functions *)

Inductive MutateOnCreateFn := FnCreatedAtAnnotations | FnDefaultControllers.
Inductive MutateOnUpdateFn :=
  FnDefaultCdromImageKind | FnCdromController | FnDefaultInterfaceType | FnNICUnitNumbers.

#[global] Instance MutateOnUpdateFn_eq_dec : EqDecision MutateOnUpdateFn.
Proof. solve_decision. Defined.

Definition MutateOnCreateFuncs : list MutateOnCreateFn := [FnCreatedAtAnnotations; FnDefaultControllers].
Definition MutateOnUpdateFuncs : list MutateOnUpdateFn :=
  [FnDefaultCdromImageKind; FnCdromController; FnDefaultInterfaceType; FnNICUnitNumbers].

Section Mutators.
Context {Q : Type} `{WebhookAPI} `{AnnotationCodec}.
Context (cfg : WebhookConfig) (rq : WebhookRequest).
Implicit Types vm oldVM : AdmissionVM Q.
Abbreviation mutation := (goerror + AdmissionVM Q * bool)%type.

(** The kind and the name of the image. *)
Definition ResolveImageName (namespace imgName : string) : goerror + ImageRef :=
  if bool_decide (imgName = "") then inl (ErrorString "imgName is empty")
  else if HasPrefix imgName "vmi-" then
    match GetVMI namespace imgName with
    | inr name => inr (mkImageRef vmiKind name)
    | inl err =>
      if negb (IsNotFound err) then inl err
      else match GetCVMI imgName with
      | inr name => inr (mkImageRef cvmiKind name)
      | inl err => if negb (IsNotFound err) then inl err else inl (ImageNotFound imgName)
      end
    end
  else match ListVMIByStatusName namespace imgName with
  | inl err => inl err
  | inr vmis =>
    match vmis with
    | _ :: _ :: _ =>
      inl (ErrorString ("multiple VM images exist for " +:+ quoted imgName +:+ " in namespace scope"))
    | _ =>
      match ListCVMIByStatusName imgName with
      | inl err => inl err
      | inr cvmis =>
        match vmis, cvmis with
        | _, _ :: _ :: _ =>
          inl (ErrorString ("multiple VM images exist for " +:+ quoted imgName +:+ " in cluster scope"))
        | _ :: _, [_] =>
          inl (ErrorString ("multiple VM images exist for " +:+ quoted imgName +:+
                            " in namespace and cluster scope"))
        | [], [name] => inr (mkImageRef cvmiKind name)
        | name :: _, [] => inr (mkImageRef vmiKind name)
        | [], [] => inl (ImageNotFound imgName)
        end
      end
    end
  end.

Definition ResolveImageNameOnCreate vm : mutation :=
  if bool_decide (av_ImageName vm = "") then inr (vm, false)
  else match ResolveImageName (av_Namespace vm) (av_ImageName vm) with
  | inl err => inl err
  | inr resolved =>
    match av_Image vm with
    | None => inr (set_Image (Some resolved) vm, true)
    | Some image =>
      if negb (bool_decide (ir_Kind resolved = ir_Kind image)) ||
         negb (bool_decide (ir_Name resolved = ir_Name image))
      then inl (ErrorString "spec.imageName: must refer to the same resource as spec.image")
      else inr (vm, false)
    end
  end.

(** ** Classes *)

Definition owned_by (className : string) (o : OwnerRef) : bool :=
  bool_decide (ow_Name o = className) && bool_decide (ow_Kind o = vmclassKind).

Definition ResolveClassAndClassName vm : mutation :=
  let className := av_ClassName vm in
  match av_Class vm with
  | None =>
    if bool_decide (className = "") then inr (vm, false)
    else match ListActiveInstances (av_Namespace vm) with
    | inl err => inl err
    | inr items =>
      match filter (λ i, existsb (owned_by className) (in_Owners i) = true) items with
      | i :: _ => inr (set_Class (Some (mkLocalRef (in_APIVersion i) (in_Kind i) (in_Name i))) vm, true)
      | [] => inr (vm, false)
      end
    end
  | Some classInstance =>
    if bool_decide (lo_Name classInstance = "") then inl (ErrorString "empty class instance name")
    else if negb (bool_decide (className = "")) then inr (vm, false)
    else match GetClassInstance (av_Namespace vm) (lo_Name classInstance) with
    | inl err => inl err
    | inr i =>
      match in_Labels i !! VMClassInstanceActiveLabelKey with
      | None => inl (ErrorString "must specify a VirtualMachineClassInstance that is active")
      | Some _ =>
        match filter (λ o, ow_Kind o = vmclassKind) (in_Owners i) with
        | o :: _ => inr (set_ClassName (ow_Name o) vm, true)
        | [] => inr (vm, false)
        end
      end
    end
  end.

(** ** Restart time and power state *)

Definition SetNextRestartTime vm oldVM : mutation :=
  if bool_decide (av_NextRestartTime vm = "") then
    inr (set_NextRestartTime (av_NextRestartTime oldVM) vm,
         negb (bool_decide (av_NextRestartTime oldVM = "")))
  else if is_now (av_NextRestartTime vm) then
    if negb (bool_decide (av_PowerState oldVM = VirtualMachinePowerStateOn))
    then inl (ErrorString "spec.nextRestartTime: can only restart powered on VM")
    else inr (set_NextRestartTime (rq_Now rq) vm, true)
  else if bool_decide (av_NextRestartTime vm = av_NextRestartTime oldVM) then inr (vm, false)
  else inl (ErrorString "spec.nextRestartTime: may only be set to now").

Definition SetDefaultPowerState vm : AdmissionVM Q * bool :=
  if bool_decide (av_PowerState vm = "") then (set_PowerState VirtualMachinePowerStateOn vm, true)
  else (vm, false).

Definition CleanupApplyPowerStateChangeTimeAnno vm oldVM : AdmissionVM Q * bool :=
  let oldAnnoTime := annotation (av_Annotations oldVM) ApplyPowerStateTimeAnnotation in
  let newAnnoTime := annotation (av_Annotations vm) ApplyPowerStateTimeAnnotation in
  if negb (bool_decide (oldAnnoTime = newAnnoTime)) then (vm, false)
  else if negb (bool_decide (av_PowerState oldVM = av_PowerState vm)) &&
          negb (bool_decide (newAnnoTime = ""))
  then (set_Annotations (delete ApplyPowerStateTimeAnnotation (av_Annotations vm)) vm, true)
  else (vm, false).

(** ** Network *)

(** The interface's reference, completed from the default one. *)
Definition setDefaultNetworkInterfaceNetwork (networkRef : PartialObjectRef) (i : InterfaceSpec) :
    InterfaceSpec * bool :=
  if bool_decide (po_Kind networkRef = "") then
    match ni_Network i with
    | None => (set_ni_Network (Some (mkPartialRef "" "" (po_Name networkRef))) i, true)
    | Some n =>
      if negb (bool_decide (po_Name networkRef = "")) && bool_decide (po_Name n = "")
      then (set_ni_Network (Some (mkPartialRef (po_APIVersion n) (po_Kind n) (po_Name networkRef))) i, true)
      else (i, false)
    end
  else match ni_Network i with
  | None => (set_ni_Network (Some (mkPartialRef (po_APIVersion networkRef) (po_Kind networkRef) "")) i, true)
  | Some n =>
    let noVersion := bool_decide (po_APIVersion n = "") in
    let noKind := bool_decide (po_Kind n = "") in
    (set_ni_Network (Some (mkPartialRef (if noVersion then po_APIVersion networkRef else po_APIVersion n)
                             (if noKind then po_Kind networkRef else po_Kind n) (po_Name n))) i,
     noVersion || noKind)
  end.

Definition getProviderConfigMap : goerror + string :=
  match ProviderConfigMap (rq_Namespace rq) with
  | inl err => inl err
  | inr data => inr (label data "Network")
  end.

(** [None] for a provider without a default. *)
Definition getDefaultNetworkRef (namespace : string) : goerror + option PartialObjectRef :=
  match GetProviderType cfg namespace with
  | inl err => inl err
  | inr t =>
    if bool_decide (t = NetworkProviderTypeNSXT)
    then inr (Some (mkPartialRef (gv_String ncp_GroupVersion) "VirtualNetwork" ""))
    else if bool_decide (t = NetworkProviderTypeVDS)
    then inr (Some (mkPartialRef (gv_String netop_GroupVersion) "Network" ""))
    else if bool_decide (t = NetworkProviderTypeVPC)
    then inr (Some (mkPartialRef (gv_String vpc_GroupVersion) "SubnetSet" ""))
    else if bool_decide (t = NetworkProviderTypeNamed) then
      let netName := match getProviderConfigMap with inl _ => "" | inr n => n end in
      inr (Some (mkPartialRef "" "" (if bool_decide (netName = "") then defaultNamedNetwork else netName)))
    else inr None
  end.

(** The loop over the interfaces of both functions below. *)
Definition fill_interfaces (networkRef : PartialObjectRef) (n : NetworkSpec) vm : AdmissionVM Q * bool :=
  let rs := setDefaultNetworkInterfaceNetwork networkRef <$> Interfaces n in
  (set_Network (Some (set_Interfaces (fst <$> rs) n)) vm, existsb snd rs).

Definition emptyNetwork : NetworkSpec := mkNetwork "" "" false [] [] [] [].

(** An interface with the name and the network only. *)
Definition newInterface (name : string) (network : PartialObjectRef) : InterfaceSpec :=
  mkIface (mkInterface name None) (Some network) "" "" [] None None "" "" None [] [] [] "" None None [] [].

Definition has_interfaces (n : option NetworkSpec) : bool :=
  match n with Some n => negb (bool_decide (Interfaces n = [])) | None => false end.

Definition AddDefaultNetworkInterface vm : mutation :=
  if negb (has_interfaces (av_Network vm)) then
    if annotated vm NoDefaultNicAnnotation then inr (vm, false)
    else if match av_Network vm with Some n => nw_Disabled n | None => false end then inr (vm, false)
    else match getDefaultNetworkRef (av_Namespace vm) with
    | inl err => inl err
    | inr None => inr (vm, false)
    | inr (Some networkRef) =>
      let n := default emptyNetwork (av_Network vm) in
      inr (set_Network (Some (set_Interfaces [newInterface defaultInterfaceName networkRef] n)) vm, true)
    end
  else match getDefaultNetworkRef (av_Namespace vm), av_Network vm with
  | inl err, _ => inl err
  | inr (Some networkRef), Some n => inr (fill_interfaces networkRef n vm)
  | _, _ => inr (vm, false)
  end.

Definition SetDefaultNetworkOnUpdate vm : mutation :=
  if negb (has_interfaces (av_Network vm)) then inr (vm, false)
  else match getDefaultNetworkRef (av_Namespace vm), av_Network vm with
  | inl err, _ => inl err
  | inr (Some networkRef), Some n => inr (fill_interfaces networkRef n vm)
  | _, _ => inr (vm, false)
  end.

Definition default_type (i : InterfaceSpec) : InterfaceSpec * bool :=
  if bool_decide (ni_Type i = "") then (set_ni_Type VMXNet3Type i, true) else (i, false).

Definition SetDefaultNetworkInterfaceTypesOnUpdate vm : AdmissionVM Q * bool :=
  match av_Network vm with
  | None => (vm, false)
  | Some n =>
    if bool_decide (Interfaces n = []) then (vm, false)
    else
      let v := ParseFeatureVersion (annotation (av_Annotations vm) UpgradedToFeatureVersionAnnotationKey) in
      if Has v FeatureVersionTelcoVMServiceAPI then
        let rs := default_type <$> Interfaces n in
        (set_Network (Some (set_Interfaces (fst <$> rs) n)) vm, existsb snd rs)
      else (vm, false)
  end.

Definition mutateOnUpdateDefaultNetworkInterfaceType vm : AdmissionVM Q * bool :=
  if negb (VMServiceClasslessVM (Features_ cfg)) then (vm, false)
  else SetDefaultNetworkInterfaceTypesOnUpdate vm.

(** ** UUIDs *)

Definition SetDefaultInstanceUUID vm : mutation :=
  if negb (IsPrivilegedAccount rq) && negb (bool_decide (av_InstanceUUID vm = ""))
  then inl (ErrorString "spec.instanceUUID: only privileged users may set this field")
  else if bool_decide (av_InstanceUUID vm = "") then inr (set_InstanceUUID (rq_InstanceUUID rq) vm, true)
  else inr (vm, false).

Definition SetDefaultBiosUUID vm : AdmissionVM Q * bool :=
  let '(vm, wasMutated) :=
    if bool_decide (av_BiosUUID vm = "") then (set_BiosUUID (rq_BiosUUID rq) vm, true) else (vm, false) in
  match av_Bootstrap vm with
  | None => (vm, wasMutated)
  | Some bs =>
    match CloudInit bs with
    | None => (vm, wasMutated)
    | Some ci =>
      if bool_decide (InstanceID ci = "")
      then (set_Bootstrap (Some (set_CloudInit (Some (set_InstanceID (av_BiosUUID vm) ci)) bs)) vm, true)
      else (vm, wasMutated)
    end
  end.

(** ** Annotations *)

Definition SetCreatedAtAnnotations vm : AdmissionVM Q * bool :=
  (set_Annotations (<[CreatedAtSchemaVersionAnnotationKey := SchemaVersion]>
     (<[CreatedAtBuildVersionAnnotationKey := BuildVersion cfg]> (av_Annotations vm))) vm, true).

Definition SetLastResizeAnnotations vm oldVM : mutation :=
  if negb (VMResizeCPUMemory cfg) then inr (vm, false)
  else if bool_decide (av_ClassName vm = av_ClassName oldVM) &&
          (negb (ImmutableClasses cfg) ||
           match av_Class vm, av_Class oldVM with
           | Some c, Some oldC => bool_decide (lo_Name c = lo_Name oldC)
           | _, _ => false
           end)
  then inr (vm, false)
  else
    match (if (GetLastResizedAnnotation (av_Annotations vm)).2 then inr (vm, false)
           else match SetLastResizedAnnotationClassName (av_Annotations vm) (av_ClassName oldVM) with
                | inl err => inl err
                | inr a => inr (set_Annotations a vm, true)
                end) with
    | inl err => inl err
    | inr (vm, modified) =>
      if ImmutableClasses cfg && negb (GetLastResizedInstanceAnnotation (av_Annotations vm)).2 then
        let instanceName := match av_Class oldVM with Some c => lo_Name c | None => "" end in
        match SetLastResizedAnnotationClassInstanceName (av_Annotations vm) instanceName with
        | inl err => inl err
        | inr a => inr (set_Annotations a vm, modified)
        end
      else inr (vm, modified)
    end.

(** ** CD-ROMs, controllers and volumes *)

Definition SetDefaultCdromImgKindOnCreate vm : AdmissionVM Q :=
  match av_Hardware vm with
  | None => vm
  | Some hw =>
    set_Hardware (Some (set_hs_Cdrom
      ((λ c, if bool_decide (ir_Kind (ac_Image c) = "") then set_ac_Kind vmiKind c else c) <$> hs_Cdrom hw)
      hw)) vm
  end.

(** The kinds of the old CD-ROMs, by image name; a later one wins. *)
Definition imgNameToOldKind (oldHW : option HardwareSpec) : gmap string string :=
  match oldHW with
  | None => ∅
  | Some hw => foldl (λ m c, <[ir_Name (ac_Image c) := ir_Kind (ac_Image c)]> m) ∅ (hs_Cdrom hw)
  end.

Definition restore_kind (old : gmap string string) (c : AdmissionCdrom) : AdmissionCdrom * bool :=
  if bool_decide (ir_Kind (ac_Image c) = "") && bool_decide (label old (ir_Name (ac_Image c)) = vmiKind)
  then (set_ac_Kind vmiKind c, true) else (c, false).

Definition SetDefaultCdromImgKindOnUpdate vm oldVM : AdmissionVM Q * bool :=
  match av_Hardware vm with
  | None => (vm, false)
  | Some newHW =>
    let rs := restore_kind (imgNameToOldKind (av_Hardware oldVM)) <$> hs_Cdrom newHW in
    (set_Hardware (Some (set_hs_Cdrom (fst <$> rs) newHW)) vm, existsb snd rs)
  end.

Definition SetImageNameFromCdrom vm : AdmissionVM Q :=
  match av_Hardware vm with
  | None => vm
  | Some hw =>
    match hs_Cdrom hw with
    | [] => vm
    | first :: _ =>
      if negb (bool_decide (av_ImageName vm = "")) then vm
      else
        let name := match filter (λ c, ac_Connected c = Some true) (hs_Cdrom hw) with
                    | c :: _ => ir_Name (ac_Image c) | [] => "" end in
        set_ImageName (if bool_decide (name = "") then ir_Name (ac_Image first) else name) vm
    end
  end.

Definition SetDefaultControllers vm : AdmissionVM Q * bool :=
  let hw := default emptyHardwareSpec (av_Hardware vm) in
  if bool_decide (hs_IDE hw = []) then
    (set_Hardware (Some (set_hs_IDE (mkIDE <$> seqZ 0 (type_MaxCount VirtualControllerTypeIDE)) hw)) vm, true)
  else (set_Hardware (Some hw) vm, false).

Definition SetPVCDefaults vm : AdmissionVM Q * bool :=
  let '(vols, mutated) := SetPVCVolumeDefaults (av_Base <$> av_Volumes vm) in
  (set_Volumes (zip_with set_av_Base (av_Volumes vm) vols) vm, mutated).

Definition AddControllers vm : AdmissionVM Q * bool :=
  let '(hw, vols, mutated) :=
    AddControllersForVolumes (hw_base <$> av_Hardware vm) (av_Base <$> av_Volumes vm) in
  (set_Hardware (hw_rebase (av_Hardware vm) <$> hw)
     (set_Volumes (zip_with set_av_Base (av_Volumes vm) vols) vm), mutated).

(** ** Encryption *)

Definition SetDefaultEncryptionClass vm : mutation :=
  if match av_Crypto vm with Some c => negb (bool_decide (c = "")) | None => false end then inr (vm, false)
  else if bool_decide (av_StorageClass vm = "") then inr (vm, false)
  else match IsEncryptedStorageClass (av_StorageClass vm) with
  | inl err => inl err
  | inr false => inr (vm, false)
  | inr true =>
    match GetDefaultEncryptionClass (av_Namespace vm) with
    | inl err => inl err
    | inr None => inr (vm, false)
    | inr (Some name) => inr (set_Crypto (Some name) vm, true)
    end
  end.

Definition run_create_fn (f : MutateOnCreateFn) vm : AdmissionVM Q :=
  match f with
  | FnCreatedAtAnnotations => (SetCreatedAtAnnotations vm).1
  | FnDefaultControllers => (SetDefaultControllers vm).1
  end.

Definition isUpdate : bool := match rq_Op rq with Update => true | _ => false end.

(** [None] is a panic. *)
Definition run_update_fn (f : MutateOnUpdateFn) vm oldVM : option (AdmissionVM Q * bool) :=
  match f with
  | FnDefaultCdromImageKind => Some (SetDefaultCdromImgKindOnUpdate vm oldVM)
  | FnCdromController =>
    match MutateCdromControllerOnUpdate (BuildVersion cfg) SchemaVersion (Features_ cfg) isUpdate
            (av_Annotations vm) (hw_base <$> av_Hardware vm) (av_StatusControllers vm) with
    | Ok (hw, m) => Some (set_Hardware (hw_rebase (av_Hardware vm) <$> hw) vm, m)
    | _ => None
    end
  | FnDefaultInterfaceType => Some (mutateOnUpdateDefaultNetworkInterfaceType vm)
  | FnNICUnitNumbers =>
    let '(ifs, m) :=
      MutateNICUnitNumbersOnUpdate (BuildVersion cfg) SchemaVersion (Features_ cfg) isUpdate
        (av_Annotations vm) ((λ n, ni_Base <$> Interfaces n) <$> av_Network vm) in
    Some (set_Network (match av_Network vm, ifs with
                       | Some n, Some ifs => Some (set_Interfaces (zip_with set_ni_Base ifs (Interfaces n)) n)
                       | n, _ => n
                       end) vm, m)
  end.

Fixpoint run_update_fns (fs : list MutateOnUpdateFn) vm oldVM (wasMutated : bool) :
    option (AdmissionVM Q * bool) :=
  match fs with
  | [] => Some (vm, wasMutated)
  | f :: fs =>
    match run_update_fn f vm oldVM with
    | None => None
    | Some (vm, wm) => run_update_fns fs vm oldVM (wasMutated || wm)
    end
  end.

(** ** The handler *)

Inductive MutateResponse :=
  | MAllowed
  | MPatched (vm : AdmissionVM Q)
  | MDenied (err : goerror)
  | MPanic.

Definition upgraded vm : bool :=
  match IsObjectUpgraded (BuildVersion cfg) SchemaVersion (Features_ cfg) (av_Annotations vm) with
  | [] => true | _ => false
  end.

(** A mutator that only runs with a feature. *)
Definition when_feature (b : bool) (m : AdmissionVM Q → mutation) vm : mutation :=
  if b then m vm else inr (vm, false).

(** The defaults of a created VM, then what is resolved with the API server and
    the registered functions. *)
Definition create_defaults vm : goerror + AdmissionVM Q :=
  match AddDefaultNetworkInterface vm with
  | inl err => inl err
  | inr (vm, _) =>
    let vm := (SetDefaultPowerState vm).1 in
    let vm := SetDefaultCdromImgKindOnCreate vm in
    let vm := SetImageNameFromCdrom vm in
    match SetDefaultInstanceUUID vm with
    | inl err => inl err
    | inr (vm, _) => inr (SetDefaultBiosUUID vm).1
    end
  end.

Definition create_resolved (order : list MutateOnCreateFn) vm : MutateResponse :=
  match ResolveImageNameOnCreate vm with
  | inl err => MDenied err
  | inr (vm, _) =>
    match when_feature (BringYourOwnEncryptionKey cfg) SetDefaultEncryptionClass vm with
    | inl err => MDenied err
    | inr (vm, _) =>
      match when_feature (ImmutableClasses cfg) ResolveClassAndClassName vm with
      | inl err => MDenied err
      | inr (vm, _) =>
        let vm := if VMSharedDisks (Features_ cfg) then (SetPVCDefaults vm).1 else vm in
        MPatched (foldl (λ vm f, run_create_fn f vm) vm order)
      end
    end
  end.

Definition mutate_create (order : list MutateOnCreateFn) vm : MutateResponse :=
  match create_defaults vm with
  | inl err => MDenied err
  | inr vm => create_resolved order vm
  end.

(** The mutations of an update, with the flag of each; [ResolveClassAndClassName]
    does not count. *)
Definition update_steps vm oldVM : mutation :=
  match when_feature (ImmutableClasses cfg) ResolveClassAndClassName vm with
  | inl err => inl err
  | inr (vm, _) =>
    match SetLastResizeAnnotations vm oldVM with
    | inl err => inl err
    | inr (vm, m1) =>
      match SetNextRestartTime vm oldVM with
      | inl err => inl err
      | inr (vm, m2) =>
        match when_feature (MutableNetworks cfg) SetDefaultNetworkOnUpdate vm with
        | inl err => inl err
        | inr (vm, m3) =>
          let '(vm, m4) := if VMGroups cfg then RemoveStaleGroupOwnerRef vm oldVM else (vm, false) in
          let '(vm, m5) := if VMGroups cfg then CleanupApplyPowerStateChangeTimeAnno vm oldVM
                           else (vm, false) in
          let '(vm, m6, m7) :=
            if (VMSharedDisks (Features_ cfg) || AllDisksArePVCs (Features_ cfg)) && upgraded vm then
              let '(vm, m6) := SetPVCDefaults vm in
              let '(vm, m7) := AddControllers vm in (vm, m6, m7)
            else (vm, false, false) in
          inr (vm, m1 || m2 || m3 || m4 || m5 || m6 || m7)
        end
      end
    end
  end.

Definition mutate_update (order : list MutateOnUpdateFn) vm oldVM : MutateResponse :=
  match update_steps vm oldVM with
  | inl err => MDenied err
  | inr (vm, m) =>
    match run_update_fns order vm oldVM m with
    | None => MPanic
    | Some (vm, wasMutated) => if wasMutated then MPatched vm else MAllowed
    end
  end.

Definition Mutate (createOrder : list MutateOnCreateFn) (updateOrder : list MutateOnUpdateFn)
    vm oldVM : MutateResponse :=
  match rq_Op rq with
  | Delete | Connect => MAllowed
  | Create => mutate_create createOrder vm
  | Update => mutate_update updateOrder vm oldVM
  end.
End Mutators.
