(* ===== verification/VMMutatorResults.v ===== *)
(** * What each mutator of the mutation webhook leaves alone

    For every mutator of [VMMutator]: when it reports no change the VM is the
    same, and which parts of a VM it may touch. *)

From S2P Require Import Prelude Conditions Features Hardware NicMutator VolumeMutator CdromMutator.
From S2P Require Import GoErrors VMGroup Compute ResizeAnnotations AdmissionVM VMMutator.
Local Open Scope Z_scope.
Local Open Scope go_scope.

(** ** Lists with flags *)

Lemma flags_unchanged {A} (f : A → A * bool) l :
  (∀ x, (f x).2 = false → (f x).1 = x) → existsb snd (f <$> l) = false → fst <$> (f <$> l) = l.
Proof.
  intros Hf. induction l as [|x l IH]; [done|]. rewrite !fmap_cons. cbn [existsb].
  intros [H1 H2]%orb_false_iff. by rewrite Hf, IH.
Qed.

Lemma zip_with_fst {A B} (f : A → B → A) (g : A → B) (l : list A) :
  (∀ x, f x (g x) = x) → zip_with f l (g <$> l) = l.
Proof. intros Hf. induction l as [|x l IH]; [done|]. rewrite fmap_cons. simpl. by rewrite Hf, IH. Qed.

Lemma zip_with_snd {A B} (f : B → A → A) (g : A → B) (l : list A) :
  (∀ x, f (g x) x = x) → zip_with f (g <$> l) l = l.
Proof. intros Hf. induction l as [|x l IH]; [done|]. rewrite fmap_cons. simpl. by rewrite Hf, IH. Qed.

Lemma fmap_zip_with {A B C} (h : A → C) (f : A → B → A) (l : list A) (k : list B) :
  (∀ x y, h (f x y) = h x) → length k = length l → h <$> zip_with f l k = h <$> l.
Proof.
  intros Hf. revert k. induction l as [|x l IH]; intros [|y k] Hl; simplify_eq/=; [done|].
  by rewrite Hf, IH.
Qed.

Lemma fmap_zip_with_snd {A B C} (h : A → C) (f : A → B → A) (g : B → C) (l : list A) (k : list B) :
  (∀ x y, h (f x y) = g y) → length k = length l → h <$> zip_with f l k = g <$> k.
Proof.
  intros Hf. revert k. induction l as [|x l IH]; intros [|y k] Hl; simplify_eq/=; [done|].
  by rewrite Hf, IH.
Qed.

(** ** The controllers of volumes *)

Lemma place_volume_quiet id c i v st :
  let st' := place_volume id c i v st in
  Volumes st !! i = Some v →
  Hardware_ st' = Hardware_ st ∧ length (Volumes st') = length (Volumes st) ∧
  (wasMutated st' = false → Volumes st' = Volumes st ∧ wasMutated st = false).
Proof.
  intros st' Hv. subst st'. unfold place_volume.
  destruct v as [n a t b u d s]. cbn [vol_ControllerType vol_ControllerBusNumber vol_UnitNumber set_type set_bus].
  repeat (case_decide || case_match); simplify_eq; cbn [Hardware_ Volumes wasMutated];
    rewrite length_insert; (split_and!; [done|done|]); try done;
    intros ?; split; try done; by rewrite list_insert_id.
Qed.

Lemma ensure_controller_quiet c st :
  let id := GenerateControllerID (Some c) in
  let st' := (ensure_controller id c st).1 in
  0 ≤ cid_BusNumber id →
  Volumes st' = Volumes st ∧ cdroms (Hardware_ st') = cdroms (Hardware_ st) ∧
  (wasMutated st' = false → Hardware_ st' = Hardware_ st ∧ wasMutated st = false).
Proof.
  intros id st' Hb. subst st'. unfold ensure_controller.
  destruct (Get _ _ _); [done|]. destruct (_ <=? _); [done|]. cbv zeta.
  destruct (append_controller c _) as [hw'|] eqn:Ha; [|by destruct c; vm_compute in Hb].
  cbn [fst Volumes Hardware_ wasMutated]. split_and!; [done| |done].
  destruct (Hardware_ st) as [hw|]; destruct c; simplify_eq/=; done.
Qed.

Lemma process_volume_quiet st i :
  let st' := process_volume st i in
  length (Volumes st') = length (Volumes st) ∧ cdroms (Hardware_ st') = cdroms (Hardware_ st) ∧
  (wasMutated st' = false → Hardware_ st' = Hardware_ st ∧ Volumes st' = Volumes st ∧ wasMutated st = false).
Proof.
  unfold process_volume. destruct (Volumes st !! i) as [v|] eqn:Hv; [|done].
  destruct (determineTargetController _ _ _) as [[c|] occ]; [|done]. cbv zeta.
  destruct (0 <=? _) eqn:Hb; [|done]. bool_to_prop.
  set (st0 := mkState _ _ _ occ _).
  destruct (ensure_controller_quiet c st0 Hb) as (Hvs & Hcd & Hm).
  destruct (ensure_controller _ c st0) as [st1 [|]]; cbn [fst] in *.
  - destruct (place_volume_quiet (GenerateControllerID (Some c)) c i v st1) as (Hh & Hl & Hp);
      [by rewrite Hvs|].
    rewrite Hh, Hl, Hcd, Hvs. split_and!; [done|done|]. intros [-> Hw]%Hp.
    destruct (Hm Hw) as [-> ?]. done.
  - rewrite Hvs, Hcd. split_and!; [done|done|]. intros [-> ?]%Hm. done.
Qed.

Lemma processVolumes_quiet ids st :
  let st' := processVolumes ids st in
  length (Volumes st') = length (Volumes st) ∧ cdroms (Hardware_ st') = cdroms (Hardware_ st) ∧
  (wasMutated st' = false → Hardware_ st' = Hardware_ st ∧ Volumes st' = Volumes st ∧ wasMutated st = false).
Proof.
  revert st. induction ids as [|i ids IH]; intros st; [done|]. cbn [processVolumes foldl].
  destruct (IH (process_volume st i)) as (Hl & Hc & Hm). destruct (process_volume_quiet st i) as (Hl' & Hc' & Hm').
  unfold processVolumes in *. split_and!; [congruence|congruence|].
  intros (-> & -> & Hw)%Hm. by apply Hm'.
Qed.

(** The volume mutator changes volumes in place, keeps the CD-ROMs, and reports
    every change. *)
Lemma AddControllersForVolumes_quiet hw vols :
  let '(hw', vols', m) := AddControllersForVolumes hw vols in
  length vols' = length vols ∧ cdroms hw' = cdroms hw ∧ (m = false → hw' = hw ∧ vols' = vols).
Proof.
  unfold AddControllersForVolumes. destruct vols as [|v vols]; [done|]. cbv zeta.
  set (st0 := mkState hw _ _ _ false). set (ids1 := indices_where explicit _). set (ids2 := indices_where _ _).
  destruct (processVolumes_quiet ids1 st0) as (Hl1 & Hc1 & Hm1).
  destruct (processVolumes_quiet ids2 (processVolumes ids1 st0)) as (Hl2 & Hc2 & Hm2).
  split_and!; [by rewrite Hl2, Hl1|by rewrite Hc2, Hc1|].
  intros (-> & -> & Hw)%Hm2. by destruct (Hm1 Hw) as (-> & -> & _).
Qed.

(** ** Hardware put back *)

Lemma hw_rebase_base h : hw_rebase (Some h) (hw_base h) = h.
Proof. destruct h as [s a n i c]. unfold hw_rebase, hw_base. simpl. f_equal. apply zip_with_fst. by intros []. Qed.

Lemma hw_rebase_images h b :
  length (Cdrom b) = length (hs_Cdrom h) →
  ac_Image <$> hs_Cdrom (hw_rebase (Some h) b) = ac_Image <$> hs_Cdrom h.
Proof. intros Hl. unfold hw_rebase. cbn [hs_Cdrom]. by apply fmap_zip_with. Qed.

Lemma hw_base_rebase h b :
  length (Cdrom b) = length (hs_Cdrom h) → hw_base (hw_rebase (Some h) b) = b.
Proof.
  intros Hl. destruct b as [s a n i c]. unfold hw_rebase, hw_base. cbn [hs_SCSI hs_SATA hs_NVME hs_IDE hs_Cdrom] in *.
  cbn [SCSIControllers SATAControllers NVMEControllers IDEControllers Cdrom] in *. f_equal.
  rewrite (fmap_zip_with_snd ac_Base set_ac_Base id); [by rewrite list_fmap_id|done|done].
Qed.

(** ** Setting a field to its value *)

Section Frame.
Context {Q : Type} `{WebhookAPI} `{AnnotationCodec}.
Context (cfg : WebhookConfig) (rq : WebhookRequest).
Implicit Types vm oldVM : AdmissionVM Q.

Lemma set_NextRestartTime_id vm : set_NextRestartTime (av_NextRestartTime vm) vm = vm.
Proof. by destruct vm. Qed.
Lemma set_Network_id vm : set_Network (av_Network vm) vm = vm.
Proof. by destruct vm. Qed.
Lemma set_Hardware_id vm : set_Hardware (av_Hardware vm) vm = vm.
Proof. by destruct vm. Qed.
Lemma set_Volumes_id vm : set_Volumes (av_Volumes vm) vm = vm.
Proof. by destruct vm. Qed.
Lemma set_Annotations_id vm : set_Annotations (av_Annotations vm) vm = vm.
Proof. by destruct vm. Qed.
Lemma set_Class_id vm : set_Class (av_Class vm) vm = vm.
Proof. by destruct vm. Qed.
Lemma set_ClassName_id vm : set_ClassName (av_ClassName vm) vm = vm.
Proof. by destruct vm. Qed.
Lemma set_Interfaces_id n : set_Interfaces (Interfaces n) n = n.
Proof. by destruct n. Qed.
Lemma set_hs_Cdrom_id h : set_hs_Cdrom (hs_Cdrom h) h = h.
Proof. by destruct h. Qed.

(** A result that reports no change is the VM itself. *)
Definition quiet vm (r : AdmissionVM Q * bool) : Prop := r.2 = false → r.1 = vm.

Lemma interfaces_quiet (f : InterfaceSpec → InterfaceSpec * bool) n vm :
  av_Network vm = Some n → (∀ i, (f i).2 = false → (f i).1 = i) →
  quiet vm (set_Network (Some (set_Interfaces (fst <$> (f <$> Interfaces n)) n)) vm,
            existsb snd (f <$> Interfaces n)).
Proof.
  intros Hn Hf Hm. cbn [fst snd] in *. rewrite (flags_unchanged f) by done.
  by rewrite set_Interfaces_id, <-Hn, set_Network_id.
Qed.

Lemma setDefaultNetwork_quiet ref i :
  (setDefaultNetworkInterfaceNetwork ref i).2 = false → (setDefaultNetworkInterfaceNetwork ref i).1 = i.
Proof.
  unfold setDefaultNetworkInterfaceNetwork. destruct i as [b [[v k n]|]]; cbn [ni_Network];
    repeat case_bool_decide; simplify_eq/=; try done.
Qed.

Lemma default_type_quiet i : (default_type i).2 = false → (default_type i).1 = i.
Proof. unfold default_type. by case_bool_decide. Qed.

Lemma restore_kind_quiet old c : (restore_kind old c).2 = false → (restore_kind old c).1 = c.
Proof. unfold restore_kind. by destruct (_ && _). Qed.

Lemma SetNextRestartTime_quiet vm oldVM r : SetNextRestartTime rq vm oldVM = inr r → quiet vm r.
Proof.
  unfold SetNextRestartTime, quiet. repeat (case_bool_decide || case_match); intros [= <-]; try done.
  all: intros _; cbn [fst]; rewrite <-(set_NextRestartTime_id vm) at 2; congruence.
Qed.

Lemma SetDefaultNetworkOnUpdate_quiet vm r : SetDefaultNetworkOnUpdate cfg rq vm = inr r → quiet vm r.
Proof.
  unfold SetDefaultNetworkOnUpdate. destruct (negb _); [by intros [= <-]|].
  destruct (getDefaultNetworkRef _ _ _) as [|[ref|]]; [done| |by intros [= <-]].
  destruct (av_Network vm) as [n|] eqn:Hn; intros [= <-]; [|done].
  unfold fill_interfaces. apply interfaces_quiet; [done|apply setDefaultNetwork_quiet].
Qed.

Lemma RemoveStale_quiet vm oldVM : quiet vm (RemoveStaleGroupOwnerRef vm oldVM).
Proof. unfold RemoveStaleGroupOwnerRef, quiet. destruct (_ || _); [done|]. by destruct (existsb _ _). Qed.

Lemma CleanupApply_quiet vm oldVM : quiet vm (CleanupApplyPowerStateChangeTimeAnno vm oldVM).
Proof. unfold CleanupApplyPowerStateChangeTimeAnno, quiet. destruct (negb _); [done|]. by destruct (_ && _). Qed.

Lemma SetPVC_eq vols :
  SetPVCVolumeDefaults vols = (fst ∘ pvc_defaults <$> vols, existsb (snd ∘ pvc_defaults) vols).
Proof. unfold SetPVCVolumeDefaults. by rewrite SetPVC_foldl. Qed.

Lemma SetPVCDefaults_quiet vm : quiet vm (SetPVCDefaults vm).
Proof.
  unfold SetPVCDefaults, quiet. rewrite SetPVC_eq. cbn [fst snd]. intros Hm.
  set (vols := av_Base <$> av_Volumes vm) in *.
  destruct (decide ((fst ∘ pvc_defaults <$> vols) = vols)) as [->|Hne].
  - subst vols. rewrite zip_with_fst by (by intros []). apply set_Volumes_id.
  - apply existsb_flag in Hne. congruence.
Qed.

Lemma AddControllers_quiet vm : quiet vm (AddControllers vm).
Proof.
  unfold AddControllers, quiet.
  pose proof (AddControllersForVolumes_quiet (hw_base <$> av_Hardware vm) (av_Base <$> av_Volumes vm)) as Hq.
  destruct (AddControllersForVolumes _ _) as [[hw vols] m]. destruct Hq as (_ & _ & Hq). cbn [fst snd].
  intros Hm. destruct (Hq Hm) as [-> ->]. rewrite zip_with_fst by (by intros []). rewrite set_Volumes_id.
  transitivity (set_Hardware (av_Hardware vm) vm); [f_equal|apply set_Hardware_id].
  destruct (av_Hardware vm) as [h|]; [|done]. simpl. by rewrite hw_rebase_base.
Qed.

(** ** The registered functions *)

(** The CD-ROM mutator never panics, keeps the number of CD-ROMs and reports
    every change. *)
Lemma MutateCdrom_quiet u a hw status :
  ∃ hw' m, MutateCdromControllerOnUpdate (BuildVersion cfg) SchemaVersion (Features_ cfg) u a hw status =
             Ok (hw', m) ∧ length (cdroms hw') = length (cdroms hw) ∧ (m = false → hw' = hw) ∧
             (hw' = None ↔ hw = None).
Proof.
  destruct (MutateCdrom_ok (BuildVersion cfg) SchemaVersion (Features_ cfg) u a hw status)
    as [->|(h & st & -> & -> & Hi)]; do 2 eexists; (split; [done|]); [done|].
  split_and!; [apply (pa_len _ _ _ _ Hi)| |done]. intros Hm. by rewrite (pa_same _ _ _ _ Hi Hm).
Qed.

(** The NIC mutator keeps the number of interfaces and reports every change. *)
Lemma MutateNIC_quiet u a ifs :
  ∃ ifs' m, MutateNICUnitNumbersOnUpdate (BuildVersion cfg) SchemaVersion (Features_ cfg) u a (Some ifs) =
              (Some ifs', m) ∧ length ifs' = length ifs ∧ (m = false → ifs' = ifs).
Proof.
  pose proof (nic_unit_numbers_unique (BuildVersion cfg) SchemaVersion (Features_ cfg) u a ifs) as Hn.
  destruct (MutateNICUnitNumbersOnUpdate _ _ _ _ _ _) as [r m]. destruct Hn as (ifs' & -> & Hl & Hm & _).
  exists ifs', m. split_and!; [done|done|]. intros ->. destruct (decide (ifs' = ifs)) as [|Hne]; [done|].
  by apply Hm in Hne.
Qed.

Lemma MutateNIC_None u a :
  MutateNICUnitNumbersOnUpdate (BuildVersion cfg) SchemaVersion (Features_ cfg) u a None = (None, false).
Proof. unfold MutateNICUnitNumbersOnUpdate. repeat case_match; done. Qed.

Lemma run_update_fn_quiet f vm oldVM : ∃ r, run_update_fn cfg rq f vm oldVM = Some r ∧ quiet vm r.
Proof.
  destruct f; cbn [run_update_fn].
  - eexists. split; [done|]. unfold SetDefaultCdromImgKindOnUpdate, quiet.
    destruct (av_Hardware vm) as [h|] eqn:Hh; [|done]. cbn [fst snd]. intros Hm.
    rewrite (flags_unchanged (restore_kind _)) by (done || apply restore_kind_quiet).
    by rewrite set_hs_Cdrom_id, <-Hh, set_Hardware_id.
  - destruct (MutateCdrom_quiet (isUpdate rq) (av_Annotations vm) (hw_base <$> av_Hardware vm)
                (av_StatusControllers vm)) as (hw' & m & -> & _ & Hm & _).
    eexists. split; [done|]. unfold quiet. cbn [fst snd]. intros ->%Hm.
    transitivity (set_Hardware (av_Hardware vm) vm); [f_equal|apply set_Hardware_id].
    destruct (av_Hardware vm) as [h|]; [|done]. simpl. by rewrite hw_rebase_base.
  - eexists. split; [done|]. unfold mutateOnUpdateDefaultNetworkInterfaceType.
    destruct (negb _); [done|]. unfold SetDefaultNetworkInterfaceTypesOnUpdate.
    destruct (av_Network vm) as [n|] eqn:Hn; [|done]. case_bool_decide; [done|]. cbv zeta.
    destruct (Has _ _); [|done]. apply interfaces_quiet; [done|apply default_type_quiet].
  - destruct (av_Network vm) as [n|] eqn:Hn; cbn [fmap option_fmap option_map].
    + destruct (MutateNIC_quiet (isUpdate rq) (av_Annotations vm) (ni_Base <$> Interfaces n))
        as (ifs' & m & -> & _ & Hm). eexists. split; [done|]. unfold quiet. cbn [fst snd]. intros ->%Hm.
      rewrite zip_with_snd by (by intros []). by rewrite set_Interfaces_id, <-Hn, set_Network_id.
    + rewrite MutateNIC_None. eexists. split; [done|]. unfold quiet. cbn [fst snd]. intros _.
      by rewrite <-Hn, set_Network_id.
Qed.

Lemma run_update_fns_quiet fs vm oldVM m :
  ∃ r, run_update_fns cfg rq fs vm oldVM m = Some r ∧ (r.2 = false → r.1 = vm ∧ m = false).
Proof.
  revert vm m. induction fs as [|f fs IH]; intros vm m; cbn [run_update_fns]; [by eexists|].
  destruct (run_update_fn_quiet f vm oldVM) as ([vm1 m1] & -> & Hq).
  destruct (IH vm1 (m || m1)) as (r & -> & Hr). exists r. split; [done|].
  intros [-> [-> Hm]%orb_false_iff]%Hr. split; [by apply Hq|done].
Qed.
End Frame.

(** * Results on the mutation webhook of VMs

    No change is lost when the webhook answers without a patch, up to the class
    reference; the order in which the registered functions run does not matter;
    what a created VM has; restarts; class changes and resizes. *)

Section Results.
Context {Q : Type} `{WebhookAPI} `{AnnotationCodec}.
Implicit Types vm oldVM : AdmissionVM Q.
Implicit Types (cfg : WebhookConfig) (rq : WebhookRequest).

(** ** No lost changes *)

(** The VM after every mutator of an update has run. *)
Definition mutated_vm cfg rq (order : list MutateOnUpdateFn) vm oldVM : option (AdmissionVM Q) :=
  match update_steps cfg rq vm oldVM with
  | inl _ => None
  | inr (vm, m) => fst <$> run_update_fns cfg rq order vm oldVM m
  end.

Lemma ResolveClass_shape vm r :
  ResolveClassAndClassName vm = inr r →
  ∃ c n, r.1 = set_ClassName n (set_Class c vm) ∧
    (av_ClassName vm ≠ "" → n = av_ClassName vm) ∧ (is_Some (av_Class vm) → c = av_Class vm).
Proof.
  assert (∃ c n, vm = set_ClassName n (set_Class c vm) ∧
    (av_ClassName vm ≠ "" → n = av_ClassName vm) ∧ (is_Some (av_Class vm) → c = av_Class vm)) as Hid.
  { exists (av_Class vm), (av_ClassName vm). split_and!; [by destruct vm|done..]. }
  assert (∀ c, av_Class vm = None → ∃ c' n, set_Class c vm = set_ClassName n (set_Class c' vm) ∧
    (av_ClassName vm ≠ "" → n = av_ClassName vm) ∧ (is_Some (av_Class vm) → c' = av_Class vm)) as Hc.
  { intros c Hn. exists c, (av_ClassName vm). split_and!; [by destruct vm|done|].
    rewrite Hn. by intros [? ?]. }
  unfold ResolveClassAndClassName. destruct (av_Class vm) as [c0|] eqn:Hcl.
  - case_bool_decide; [done|]. case_bool_decide as He; cbn [negb]; [|by intros [= <-]].
    destruct (GetClassInstance _ _); [done|]. destruct (in_Labels _ !! _); [|done].
    destruct (filter _ _) as [|o os]; intros [= <-]; [done|].
    exists (av_Class vm), (ow_Name o). split_and!; [by destruct vm|done|done].
  - case_bool_decide; [by intros [= <-]|]. destruct (ListActiveInstances _); [done|].
    destruct (filter _ _) as [|i ins]; intros [= <-]; [done|]. by apply Hc.
Qed.

Lemma SetLastResize_shape cfg vm oldVM r :
  SetLastResizeAnnotations cfg vm oldVM = inr r →
  ∃ a, r.1 = set_Annotations a vm ∧
    (∀ k, k ≠ LastResizedAnnotationKey → k ≠ LastResizedInstanceAnnotationKey →
       a !! k = av_Annotations vm !! k) ∧
    (r.2 = false → delete LastResizedInstanceAnnotationKey a =
       delete LastResizedInstanceAnnotationKey (av_Annotations vm)) ∧
    (r.2 = false → ImmutableClasses cfg = false → a = av_Annotations vm).
Proof.
  assert (∃ a, vm = set_Annotations a vm ∧
    (∀ k, k ≠ LastResizedAnnotationKey → k ≠ LastResizedInstanceAnnotationKey →
       a !! k = av_Annotations vm !! k) ∧
    (false = false → delete LastResizedInstanceAnnotationKey a =
       delete LastResizedInstanceAnnotationKey (av_Annotations vm)) ∧
    (false = false → ImmutableClasses cfg = false → a = av_Annotations vm)) as Hid.
  { exists (av_Annotations vm). split_and!; try done. by destruct vm. }
  unfold SetLastResizeAnnotations. destruct (negb _); [by intros [= <-]|].
  destruct (_ && (_ || _)); [by intros [= <-]|].
  assert (∀ vm1 m1 r, (∃ a1, vm1 = set_Annotations a1 vm ∧
      (∀ k, k ≠ LastResizedAnnotationKey → a1 !! k = av_Annotations vm !! k) ∧
      (m1 = false → a1 = av_Annotations vm)) →
    (if ImmutableClasses cfg && negb (GetLastResizedInstanceAnnotation (av_Annotations vm1)).2 then
       match SetLastResizedAnnotationClassInstanceName (av_Annotations vm1)
               match av_Class oldVM with Some c => lo_Name c | None => "" end with
       | inl err => inl err | inr a => inr (set_Annotations a vm1, m1) end
     else inr (vm1, m1)) = inr r →
    ∃ a, r.1 = set_Annotations a vm ∧
    (∀ k, k ≠ LastResizedAnnotationKey → k ≠ LastResizedInstanceAnnotationKey →
       a !! k = av_Annotations vm !! k) ∧
    (r.2 = false → delete LastResizedInstanceAnnotationKey a =
       delete LastResizedInstanceAnnotationKey (av_Annotations vm)) ∧
    (r.2 = false → ImmutableClasses cfg = false → a = av_Annotations vm)) as Hlast.
  { clear r. intros vm1 m1 r (a1 & -> & Hk & Hsame). cbn [av_Annotations set_Annotations].
    destruct (ImmutableClasses cfg) eqn:Hi; cbn [andb].
    2: { intros [= <-]. exists a1. split_and!; [done|naive_solver| |naive_solver].
         intros ->%Hsame. done. }
    destruct (negb _).
    2: { intros [= <-]. exists a1. split_and!; [done|naive_solver| |done]. intros ->%Hsame. done. }
    unfold SetLastResizedAnnotationClassInstanceName. destruct (marshal _) as [|b]; [done|].
    intros [= <-]. exists (<[LastResizedInstanceAnnotationKey := b]> a1). split_and!; [done| | |done].
    - intros k H1 H2. rewrite lookup_insert_ne by done. by apply Hk.
    - intros ->%Hsame. by rewrite delete_insert_eq. }
  destruct (GetLastResizedAnnotation _).2.
  - apply Hlast. exists (av_Annotations vm). split_and!; [by destruct vm|done|done].
  - unfold SetLastResizedAnnotationClassName. destruct (marshal _) as [|b]; [done|].
    apply Hlast. exists (<[LastResizedAnnotationKey := b]> (av_Annotations vm)). split_and!; [done| |done].
    intros k Hk. by rewrite lookup_insert_ne.
Qed.

Lemma when_feature_inr cfg b m vm (r : AdmissionVM Q * bool) (P : AdmissionVM Q * bool → Prop) :
  when_feature b m vm = inr r → P (vm, false) → (∀ r, m vm = inr r → P r) → P r.
Proof. unfold when_feature. destruct b; [eauto|]. by intros [= <-]. Qed.

Lemma guarded_quiet (b : bool) vm (r : AdmissionVM Q * bool) :
  quiet vm r → quiet vm (if b then r else (vm, false)).
Proof. by destruct b. Qed.

(** The later steps of an update report what they change. *)
Lemma update_steps_quiet cfg rq vm oldVM vm' :
  update_steps cfg rq vm oldVM = inr (vm', false) →
  (ImmutableClasses cfg = false → vm' = vm) ∧
  ∃ c n a, vm' = set_Annotations a (set_ClassName n (set_Class c vm)) ∧
    delete LastResizedInstanceAnnotationKey a =
    delete LastResizedInstanceAnnotationKey (av_Annotations vm).
Proof.
  unfold update_steps.
  destruct (when_feature (ImmutableClasses cfg) _ vm) as [|[vm0 m0]] eqn:H1; [done|].
  destruct (SetLastResizeAnnotations cfg vm0 oldVM) as [|[vm1 m1]] eqn:H2; [done|].
  destruct (SetNextRestartTime rq vm1 oldVM) as [|[vm2 m2]] eqn:H3; [done|].
  destruct (when_feature (MutableNetworks cfg) _ vm2) as [|[vm3 m3]] eqn:H4; [done|].
  pose proof (guarded_quiet (VMGroups cfg) vm3 _ (RemoveStale_quiet vm3 oldVM)) as H5.
  destruct (if VMGroups cfg then RemoveStaleGroupOwnerRef vm3 oldVM else _) as [vm4 m4].
  pose proof (guarded_quiet (VMGroups cfg) vm4 _ (CleanupApply_quiet vm4 oldVM)) as H6.
  destruct (if VMGroups cfg then CleanupApplyPowerStateChangeTimeAnno vm4 oldVM else _) as [vm5 m5].
  assert (∀ vm6 m6 m7, (if (VMSharedDisks (Features_ cfg) || AllDisksArePVCs (Features_ cfg)) && upgraded cfg vm5
     then let '(vm, m6) := SetPVCDefaults vm5 in let '(vm, m7) := AddControllers vm in (vm, m6, m7)
     else (vm5, false, false)) = (vm6, m6, m7) → m6 = false → m7 = false → vm6 = vm5) as H7.
  { intros vm6 m6 m7. destruct (_ && _); [|by intros [= <- <- <-]].
    pose proof (SetPVCDefaults_quiet vm5) as Hp. destruct (SetPVCDefaults vm5) as [vm6' m6'].
    pose proof (AddControllers_quiet vm6') as Ha. destruct (AddControllers vm6') as [vm7' m7'].
    intros [= <- <- <-] ? ?. rewrite Ha by done. by apply Hp. }
  destruct (if (_ || _) && _ then _ else _) as [[vm6 m6] m7]. specialize (H7 _ _ _ eq_refl).
  intros [= <- Hm]. repeat (apply orb_false_iff in Hm as [Hm ?]). subst.
  specialize (H7 eq_refl eq_refl). specialize (H5 eq_refl). specialize (H6 eq_refl). simpl in H5, H6. subst.
  assert (vm3 = vm2) as ->.
  { apply (when_feature_inr cfg _ _ _ _ (quiet vm2) H4); [done| |done].
    intros r. apply SetDefaultNetworkOnUpdate_quiet. }
  assert (vm2 = vm1) as -> by (by apply (SetNextRestartTime_quiet _ _ _ _ H3)).
  apply SetLastResize_shape in H2 as (a & Heq & _ & Hd & Ha). cbn [fst snd] in *. subst vm1.
  split.
  - intros Hi. rewrite Hi in H1. injection H1 as <- <-. rewrite (Ha eq_refl Hi). apply set_Annotations_id.
  - apply (when_feature_inr cfg _ _ _ _ (λ r, ∃ c n a', set_Annotations a r.1 =
       set_Annotations a' (set_ClassName n (set_Class c vm)) ∧
       delete LastResizedInstanceAnnotationKey a' = delete LastResizedInstanceAnnotationKey a ∧
       av_Annotations r.1 = av_Annotations vm)) in H1.
    + destruct H1 as (c & n & a' & Heq & Ha' & Hv). exists c, n, a'. split; [done|].
      cbn [fst] in Hv. by rewrite Ha', (Hd eq_refl), Hv.
    + exists (av_Class vm), (av_ClassName vm), a. split_and!; [by destruct vm|done|done].
    + intros r (c & n & -> & _)%ResolveClass_shape. exists c, n, a. done.
Qed.

(** When the update webhook answers without a patch, no mutator changed
    the VM, provided class instances are not resolved; with them, only the class
    reference and the instance annotation may differ. *)
Theorem update_patch_complete cfg rq (order : list MutateOnUpdateFn) vm oldVM :
  mutate_update cfg rq order vm oldVM = MAllowed →
  ∃ vm', mutated_vm cfg rq order vm oldVM = Some vm' ∧
    (ImmutableClasses cfg = false → vm' = vm) ∧
    ∃ c n a, vm' = set_Annotations a (set_ClassName n (set_Class c vm)) ∧
      delete LastResizedInstanceAnnotationKey a =
      delete LastResizedInstanceAnnotationKey (av_Annotations vm).
Proof.
  unfold mutate_update, mutated_vm. destruct (update_steps _ _ _ _) as [|[vm1 m]] eqn:Hs; [done|].
  destruct (run_update_fns_quiet cfg rq order vm1 oldVM m) as ([vm2 m2] & -> & Hq).
  destruct m2; [done|]. intros _. destruct (Hq eq_refl) as [Heq ->]. cbn [fst] in Heq. subst vm2.
  exists vm1. split; [done|]. by apply (update_steps_quiet _ _ _ _ _ Hs).
Qed.

(** ** The order of the registered functions *)

Definition kind_hw (oldHW h : option HardwareSpec) : option HardwareSpec * bool :=
  match h with
  | None => (None, false)
  | Some h => let rs := restore_kind (imgNameToOldKind oldHW) <$> hs_Cdrom h in
              (Some (set_hs_Cdrom (fst <$> rs) h), existsb snd rs)
  end.

Definition ctrl_hw cfg rq a status (h : option HardwareSpec) : option HardwareSpec * bool :=
  match MutateCdromControllerOnUpdate (BuildVersion cfg) SchemaVersion (Features_ cfg) (isUpdate rq)
          a (hw_base <$> h) status with
  | Ok (b, m) => (hw_rebase h <$> b, m)
  | _ => (h, false)
  end.

Definition type_nw cfg a (n : option NetworkSpec) : option NetworkSpec * bool :=
  match n with
  | None => (None, false)
  | Some n =>
    if VMServiceClasslessVM (Features_ cfg) && negb (bool_decide (Interfaces n = [])) &&
       Has (ParseFeatureVersion (annotation a UpgradedToFeatureVersionAnnotationKey))
         FeatureVersionTelcoVMServiceAPI
    then let rs := default_type <$> Interfaces n in
         (Some (set_Interfaces (fst <$> rs) n), existsb snd rs)
    else (Some n, false)
  end.

Definition unit_nw cfg rq a (n : option NetworkSpec) : option NetworkSpec * bool :=
  match n with
  | None => (None, false)
  | Some n =>
    match MutateNICUnitNumbersOnUpdate (BuildVersion cfg) SchemaVersion (Features_ cfg) (isUpdate rq)
            a (Some (ni_Base <$> Interfaces n)) with
    | (Some ifs, m) => (Some (set_Interfaces (zip_with set_ni_Base ifs (Interfaces n)) n), m)
    | (None, m) => (Some n, m)
    end
  end.

(** Each registered function changes the hardware or the network only. *)
Lemma run_update_fn_eq cfg rq f vm oldVM :
  run_update_fn cfg rq f vm oldVM =
  Some match f with
       | FnDefaultCdromImageKind =>
         let r := kind_hw (av_Hardware oldVM) (av_Hardware vm) in (set_Hardware r.1 vm, r.2)
       | FnCdromController =>
         let r := ctrl_hw cfg rq (av_Annotations vm) (av_StatusControllers vm) (av_Hardware vm) in
         (set_Hardware r.1 vm, r.2)
       | FnDefaultInterfaceType =>
         let r := type_nw cfg (av_Annotations vm) (av_Network vm) in (set_Network r.1 vm, r.2)
       | FnNICUnitNumbers =>
         let r := unit_nw cfg rq (av_Annotations vm) (av_Network vm) in (set_Network r.1 vm, r.2)
       end.
Proof.
  destruct f; cbn [run_update_fn]; cbv zeta.
  - unfold SetDefaultCdromImgKindOnUpdate, kind_hw. destruct (av_Hardware vm) as [h|] eqn:Hh; [done|].
    cbn [fst snd]. by rewrite <-Hh, set_Hardware_id.
  - unfold ctrl_hw. destruct (MutateCdrom_quiet cfg (isUpdate rq) (av_Annotations vm)
      (hw_base <$> av_Hardware vm) (av_StatusControllers vm)) as (b & m & -> & _). done.
  - unfold mutateOnUpdateDefaultNetworkInterfaceType, SetDefaultNetworkInterfaceTypesOnUpdate, type_nw.
    destruct (av_Network vm) as [n|] eqn:Hn; cbn [fst snd].
    + destruct (VMServiceClasslessVM _); cbn [negb andb fst snd]; [|by rewrite <-Hn, set_Network_id].
      case_bool_decide; cbn [negb andb fst snd]; [by rewrite <-Hn, set_Network_id|]. cbv zeta.
      destruct (Has _ _); cbn [fst snd]; [done|by rewrite <-Hn, set_Network_id].
    + rewrite <-Hn, set_Network_id. by destruct (negb _).
  - unfold unit_nw. destruct (av_Network vm) as [n|] eqn:Hn; cbn [fmap option_fmap option_map].
    + by destruct (MutateNICUnitNumbersOnUpdate _ _ _ _ _ _) as [[ifs|] m].
    + by rewrite MutateNIC_None.
Qed.

(** A pass that works on the first part of an element and one that works on the
    second commute. *)
Lemma restore_set_Base old c x :
  restore_kind old (set_ac_Base c x) = (set_ac_Base (restore_kind old c).1 x, (restore_kind old c).2).
Proof. unfold restore_kind, set_ac_Base, set_ac_Kind. cbn [ac_Image]. by destruct (_ && _). Qed.

Lemma restore_Base old c : ac_Base (restore_kind old c).1 = ac_Base c.
Proof. unfold restore_kind. by destruct (_ && _). Qed.

Lemma default_type_Base x i :
  default_type (set_ni_Base x i) = (set_ni_Base x (default_type i).1, (default_type i).2).
Proof. unfold default_type, set_ni_Base, set_ni_Type. cbn [ni_Type]. by case_bool_decide. Qed.

Lemma default_type_ni_Base i : ni_Base (default_type i).1 = ni_Base i.
Proof. unfold default_type. by case_bool_decide. Qed.

Lemma flags_zip {A B} (f : A → A * bool) (s : A → B → A) (l : list A) (k : list B) :
  (∀ x y, f (s x y) = (s (f x).1 y, (f x).2)) → length k = length l →
  fst <$> (f <$> zip_with s l k) = zip_with s (fst <$> (f <$> l)) k ∧
  existsb snd (f <$> zip_with s l k) = existsb snd (f <$> l).
Proof.
  intros Hf. revert k. induction l as [|x l IH]; intros [|y k] Hl; simplify_eq/=; [done|].
  rewrite Hf. destruct (IH k Hl) as [H1 H2]. cbn [fst snd]. by rewrite <-H1, <-H2.
Qed.

Lemma kind_ctrl_comm cfg rq a status oldHW h :
  let k := kind_hw oldHW h in let c := ctrl_hw cfg rq a status h in
  kind_hw oldHW c.1 = ((ctrl_hw cfg rq a status k.1).1, k.2) ∧ (ctrl_hw cfg rq a status k.1).2 = c.2.
Proof.
  destruct h as [h|]; cbv zeta.
  - unfold ctrl_hw, kind_hw. cbn [fmap option_fmap option_map fst snd].
    set (cds := fst <$> (restore_kind (imgNameToOldKind oldHW) <$> hs_Cdrom h)).
    assert (hw_base (set_hs_Cdrom cds h) = hw_base h) as ->.
    { unfold hw_base, set_hs_Cdrom. cbn [hs_SCSI hs_SATA hs_NVME hs_IDE hs_Cdrom]. f_equal. subst cds.
      rewrite <-!list_fmap_compose. apply list_fmap_ext. intros i x _. apply restore_Base. }
    destruct (MutateCdrom_quiet cfg (isUpdate rq) a (Some (hw_base h)) status) as (b & m & -> & Hl & _ & Hb).
    destruct b as [b|]; [|by destruct Hb as [Hb _]; specialize (Hb eq_refl)].
    cbn [cdroms fmap option_fmap option_map] in *. unfold hw_base in Hl. cbn [Cdrom] in Hl. rewrite length_fmap in Hl.
    unfold hw_rebase. cbn [fst snd]. cbn [hs_Cdrom set_hs_Cdrom hs_SCSI hs_SATA hs_NVME hs_IDE].
    destruct (flags_zip (restore_kind (imgNameToOldKind oldHW)) set_ac_Base (hs_Cdrom h) (Cdrom b)
                (restore_set_Base _) Hl) as [-> ->].
    done.
  - unfold ctrl_hw, kind_hw. cbn [fmap option_fmap option_map fst snd].
    destruct (MutateCdrom_quiet cfg (isUpdate rq) a None status) as (b & m & -> & _ & _ & Hb).
    destruct b as [b|]; [by destruct Hb as [_ Hb]; specialize (Hb eq_refl)|]. done.
Qed.

Lemma zip_with_flip' {A B C} (f : A → B → C) l k : zip_with f l k = zip_with (flip f) k l.
Proof. revert k. induction l as [|x l IH]; intros [|y k]; simpl; [done..|]. by rewrite IH. Qed.

Lemma type_unit_comm cfg rq a n :
  let k := type_nw cfg a n in let c := unit_nw cfg rq a n in
  type_nw cfg a c.1 = ((unit_nw cfg rq a k.1).1, k.2) ∧ (unit_nw cfg rq a k.1).2 = c.2.
Proof.
  destruct n as [n|]; [|done]. cbv zeta. unfold unit_nw.
  destruct (MutateNIC_quiet cfg (isUpdate rq) a (ni_Base <$> Interfaces n)) as (ifs & m & Hrun & Hl & _).
  rewrite length_fmap in Hl. rewrite Hrun. unfold type_nw. cbn [fst snd set_Interfaces Interfaces].
  assert (bool_decide (zip_with set_ni_Base ifs (Interfaces n) = []) = bool_decide (Interfaces n = [])) as ->.
  { apply bool_decide_ext. rewrite <-!length_zero_iff_nil, length_zip_with, Hl. lia. }
  destruct (_ && _ && _) eqn:Hc; cbn [fst snd]; [|by rewrite Hrun].
  cbn [Interfaces set_Interfaces].
  assert (ni_Base <$> (fst <$> (default_type <$> Interfaces n)) = ni_Base <$> Interfaces n) as ->.
  { rewrite <-!list_fmap_compose. apply list_fmap_ext. intros i x _. apply default_type_ni_Base. }
  rewrite Hrun. cbn [fst snd]. rewrite !(zip_with_flip' set_ni_Base).
  destruct (flags_zip default_type (flip set_ni_Base) (Interfaces n) ifs) as [-> ->];
    [intros; apply default_type_Base|done|]. done.
Qed.

Lemma run_update_fns_swap cfg rq f g vm oldVM m :
  run_update_fns cfg rq [f; g] vm oldVM m = run_update_fns cfg rq [g; f] vm oldVM m.
Proof.
  destruct (decide (f = g)) as [->|Hne]; [done|].
  cbn [run_update_fns]. rewrite !run_update_fn_eq. cbv zeta.
  pose proof (kind_ctrl_comm cfg rq (av_Annotations vm) (av_StatusControllers vm)
    (av_Hardware oldVM) (av_Hardware vm)) as Hh.
  pose proof (type_unit_comm cfg rq (av_Annotations vm) (av_Network vm)) as Hn. cbv zeta in Hh, Hn.
  destruct Hh as [Hh1 Hh2], Hn as [Hn1 Hn2].
  destruct f, g; try done; rewrite !run_update_fn_eq; cbv zeta; cbn [fst snd];
    cbn [av_Hardware av_Annotations av_StatusControllers av_Network set_Hardware set_Network];
    rewrite ?Hh1, ?Hh2, ?Hn1, ?Hn2; cbn [fst snd]; f_equal; f_equal;
    try (rewrite <-!orb_assoc; f_equal; apply orb_comm); destruct vm; done.
Qed.

Lemma run_update_fns_app cfg rq fs gs vm oldVM m :
  run_update_fns cfg rq (fs ++ gs) vm oldVM m =
  match run_update_fns cfg rq fs vm oldVM m with
  | None => None
  | Some (vm, m) => run_update_fns cfg rq gs vm oldVM m
  end.
Proof.
  revert vm m. induction fs as [|f fs IH]; intros vm m; cbn [app run_update_fns]; [done|].
  destruct (run_update_fn _ _ _ _ _) as [[vm1 m1]|]; [apply IH|done].
Qed.

(** The answer to an update does not depend on the order in which the
    registered functions are visited. *)
Theorem update_order_irrelevant cfg rq (order : list MutateOnUpdateFn) vm oldVM :
  order ≡ₚ MutateOnUpdateFuncs →
  mutate_update cfg rq order vm oldVM = mutate_update cfg rq MutateOnUpdateFuncs vm oldVM.
Proof.
  intros Hp. unfold mutate_update. destruct (update_steps _ _ _ _) as [|[vm1 m]]; [done|].
  assert (run_update_fns cfg rq order vm1 oldVM m = run_update_fns cfg rq MutateOnUpdateFuncs vm1 oldVM m)
    as ->; [|done].
  clear vm. revert vm1 m. induction Hp as [|f fs gs _ IH|f g fs|fs gs hs _ IH1 _ IH2]; intros vm1 m.
  - done.
  - cbn [run_update_fns]. destruct (run_update_fn _ _ _ _ _) as [[vm2 m2]|]; [apply IH|done].
  - change (g :: f :: fs) with ([g; f] ++ fs). change (f :: g :: fs) with ([f; g] ++ fs).
    by rewrite !run_update_fns_app, run_update_fns_swap.
  - by rewrite IH1.
Qed.
End Results.
