(* ===== verification/VMMutatorFields.v ===== *)
(** * Fields after the mutation webhook

    What a created VM has; that an update only touches the fields the webhook
    owns; restarts; class changes and resizes. *)

From S2P Require Import Prelude Conditions Features Hardware NicMutator VolumeMutator CdromMutator.
From S2P Require Import GoErrors VMGroup Compute ResizeAnnotations AdmissionVM VMMutator VMMutatorResults.
Local Open Scope Z_scope.

Section Fields.
Context {Q : Type} `{WebhookAPI} `{AnnotationCodec}.
Implicit Types vm oldVM : AdmissionVM Q.
Implicit Types (cfg : WebhookConfig) (rq : WebhookRequest).

(** ** Creation *)

Lemma AddDefault_shape cfg rq vm r : AddDefaultNetworkInterface cfg rq vm = inr r → ∃ n, r.1 = set_Network n vm.
Proof.
  assert (∃ n, vm = set_Network n vm) as Hid by (exists (av_Network vm); by rewrite set_Network_id).
  unfold AddDefaultNetworkInterface, fill_interfaces.
  repeat case_match; intros [= <-]; cbn [fst]; done || by eexists.
Qed.

Lemma PowerState_shape vm :
  (SetDefaultPowerState vm).1 =
  set_PowerState (if bool_decide (av_PowerState vm = "") then VirtualMachinePowerStateOn else av_PowerState vm) vm.
Proof. unfold SetDefaultPowerState. case_bool_decide; [done|]. by destruct vm. Qed.

Definition kinds_set (h : option HardwareSpec) : Prop :=
  ∀ hw c, h = Some hw → c ∈ hs_Cdrom hw → ir_Kind (ac_Image c) ≠ "".

Lemma CdromKind_shape vm : ∃ h, SetDefaultCdromImgKindOnCreate vm = set_Hardware h vm ∧ kinds_set h.
Proof.
  unfold SetDefaultCdromImgKindOnCreate. destruct (av_Hardware vm) as [hw|] eqn:Hh.
  - eexists. split; [done|]. intros hw' c [= <-] (c' & -> & _)%list_elem_of_fmap. by case_bool_decide.
  - exists None. split; [rewrite <-Hh; symmetry; apply set_Hardware_id|done].
Qed.

Lemma ImageName_shape vm :
  ∃ n, SetImageNameFromCdrom vm = set_ImageName n vm ∧ (av_ImageName vm ≠ "" → n = av_ImageName vm).
Proof.
  assert (∃ n, vm = set_ImageName n vm ∧ (av_ImageName vm ≠ "" → n = av_ImageName vm)) as Hid.
  { exists (av_ImageName vm). split; [by destruct vm|done]. }
  unfold SetImageNameFromCdrom. destruct (av_Hardware vm) as [hw|]; [|done].
  destruct (hs_Cdrom hw); [done|]. case_bool_decide; [|done]. cbn [negb]. by eexists.
Qed.

Lemma InstanceUUID_shape rq vm r :
  SetDefaultInstanceUUID rq vm = inr r →
  r.1 = set_InstanceUUID (if bool_decide (av_InstanceUUID vm = "") then rq_InstanceUUID rq else av_InstanceUUID vm) vm ∧
  (IsPrivilegedAccount rq = false → av_InstanceUUID vm = "").
Proof.
  unfold SetDefaultInstanceUUID. case_bool_decide as He; cbn [negb andb].
  - rewrite andb_false_r. intros [= <-]. done.
  - rewrite andb_true_r. destruct (IsPrivilegedAccount rq); [|done]. intros [= <-]. split; [|done].
    by destruct vm.
Qed.

Definition instance_id_set (b : option BootstrapSpec) : Prop :=
  ∀ bs ci, b = Some bs → CloudInit bs = Some ci → InstanceID ci ≠ "".

Lemma BiosUUID_shape rq vm :
  rq_BiosUUID rq ≠ "" →
  ∃ b, (SetDefaultBiosUUID rq vm).1 =
    set_Bootstrap b (set_BiosUUID (if bool_decide (av_BiosUUID vm = "") then rq_BiosUUID rq else av_BiosUUID vm) vm) ∧
    instance_id_set b.
Proof.
  intros Hne. unfold SetDefaultBiosUUID.
  set (u := if bool_decide (av_BiosUUID vm = "") then rq_BiosUUID rq else av_BiosUUID vm).
  assert ((if bool_decide (av_BiosUUID vm = "") then (set_BiosUUID (rq_BiosUUID rq) vm, true) else (vm, false)) =
    (set_BiosUUID u vm, bool_decide (av_BiosUUID vm = ""))) as ->.
  { subst u. case_bool_decide; [done|]. f_equal. by destruct vm. }
  assert (u ≠ "") as Hu. { subst u. by case_bool_decide. }
  cbn [av_Bootstrap set_BiosUUID av_BiosUUID]. destruct (av_Bootstrap vm) as [bs|] eqn:Hb.
  - destruct (CloudInit bs) as [ci|] eqn:Hc.
    + case_bool_decide as Hi; cbn [fst].
      * eexists. split; [done|]. intros bs' ci' [= <-] [= <-]. done.
      * exists (Some bs). split; [rewrite <-Hb; by destruct vm|]. intros bs' ci' [= <-]. rewrite Hc.
        by intros [= <-].
    + exists (Some bs). split; [rewrite <-Hb; by destruct vm|]. intros bs' ci' [= <-]. by rewrite Hc.
  - exists None. split; [rewrite <-Hb; by destruct vm|done].
Qed.

Lemma ResolveImage_shape vm r :
  ResolveImageNameOnCreate vm = inr r →
  ∃ i, r.1 = set_Image i vm ∧ (is_Some (av_Image vm) → i = av_Image vm) ∧
    (av_ImageName vm ≠ "" → ∃ ref, i = Some ref ∧ ResolveImageName (av_Namespace vm) (av_ImageName vm) = inr ref).
Proof.
  unfold ResolveImageNameOnCreate. case_bool_decide.
  { intros [= <-]. exists (av_Image vm). split_and!; [by destruct vm|done|done]. }
  destruct (ResolveImageName _ _) as [|ref]; [done|]. destruct (av_Image vm) as [img|] eqn:Hi.
  - destruct (_ || _) eqn:Hm; [done|]. intros [= <-]. apply orb_false_iff in Hm as [Hk Hn].
    apply negb_false_iff in Hk, Hn. apply bool_decide_eq_true in Hk, Hn.
    exists (Some img). split_and!; [rewrite <-Hi; by destruct vm|done|].
    intros _. exists ref. split; [|done]. destruct img, ref; simplify_eq/=; done.
  - intros [= <-]. eexists. split_and!; [done|by intros [? ?]|]. intros _. by exists ref.
Qed.

Lemma Encryption_shape vm r :
  SetDefaultEncryptionClass vm = inr r → ∃ c, r.1 = set_Crypto c vm ∧ (∀ e, av_Crypto vm = Some e → e ≠ "" → c = Some e).
Proof.
  unfold SetDefaultEncryptionClass.
  assert (∃ c, vm = set_Crypto c vm ∧ (∀ e, av_Crypto vm = Some e → e ≠ "" → c = Some e)) as Hid.
  { exists (av_Crypto vm). split; [by destruct vm|done]. }
  destruct (av_Crypto vm) as [e|] eqn:Hc.
  - case_bool_decide as He; cbn [negb]; [|by intros [= <-]].
    repeat case_match; intros [= <-]; try done. eexists. split; [done|]. intros e' [= <-]. done.
  - repeat case_match; intros [= <-]; try done. by eexists.
Qed.

(** The functions registered for creation, in either order. *)
Lemma create_fns_shape cfg order vm :
  order ≡ₚ MutateOnCreateFuncs →
  ∃ h, foldl (λ vm f, run_create_fn cfg f vm) vm order =
    set_Hardware (Some h) (set_Annotations (<[CreatedAtSchemaVersionAnnotationKey := SchemaVersion]>
      (<[CreatedAtBuildVersionAnnotationKey := BuildVersion cfg]> (av_Annotations vm))) vm) ∧
    hs_IDE h ≠ [] ∧ hs_Cdrom h = match av_Hardware vm with Some h => hs_Cdrom h | None => [] end.
Proof.
  intros Hp. assert (order = [FnCreatedAtAnnotations; FnDefaultControllers] ∨
    order = [FnDefaultControllers; FnCreatedAtAnnotations]) as [-> | ->].
  { apply Permutation_sym, Permutation_length_2_inv in Hp. done. }
  all: cbn [foldl run_create_fn]; unfold SetDefaultControllers, SetCreatedAtAnnotations; cbn [fst];
    cbn [av_Hardware set_Annotations]; destruct (av_Hardware vm) as [h|]; cbn [default from_option id];
    case_bool_decide; cbn [fst]; eexists; (split; [by destruct vm|]); try done; split; done.
Qed.

(** The defaults, field by field. *)
Lemma create_defaults_fields cfg rq vm vm5 :
  rq_BiosUUID rq ≠ "" → create_defaults cfg rq vm = inr vm5 →
  (av_PowerState vm5 = (if bool_decide (av_PowerState vm = "") then VirtualMachinePowerStateOn else av_PowerState vm) ∧
   av_InstanceUUID vm5 = (if bool_decide (av_InstanceUUID vm = "") then rq_InstanceUUID rq else av_InstanceUUID vm) ∧
   av_BiosUUID vm5 = (if bool_decide (av_BiosUUID vm = "") then rq_BiosUUID rq else av_BiosUUID vm)) ∧
  instance_id_set (av_Bootstrap vm5) ∧ kinds_set (av_Hardware vm5) ∧
  (av_ImageName vm ≠ "" → av_ImageName vm5 = av_ImageName vm) ∧
  av_Image vm5 = av_Image vm ∧ av_Namespace vm5 = av_Namespace vm ∧
  (IsPrivilegedAccount rq = false → av_InstanceUUID vm = "").
Proof.
  intros Hb. unfold create_defaults.
  destruct (AddDefaultNetworkInterface cfg rq vm) as [|[vm0 m1]] eqn:H1; [done|].
  apply AddDefault_shape in H1 as [n E0]. cbn [fst] in E0. cbv zeta.
  rewrite PowerState_shape. remember (set_PowerState _ vm0) as vm1 eqn:E1.
  destruct (CdromKind_shape vm1) as (h & -> & Hk). remember (set_Hardware h vm1) as vm2 eqn:E2.
  destruct (ImageName_shape vm2) as (img & -> & Himg). remember (set_ImageName img vm2) as vm3 eqn:E3.
  destruct (SetDefaultInstanceUUID rq vm3) as [|[vm4 m4]] eqn:H4; [done|].
  apply InstanceUUID_shape in H4 as [E4 Hpriv]. cbn [fst] in E4.
  destruct (BiosUUID_shape rq vm4 Hb) as (b & -> & Hbs). remember (set_BiosUUID _ vm4) as vm4' eqn:E4'.
  remember (set_Bootstrap b vm4') as vm5' eqn:E5. intros [= <-].
  assert (av_ImageName vm2 = av_ImageName vm) as F by (rewrite E2, E1, E0; done).
  assert (av_InstanceUUID vm3 = av_InstanceUUID vm) as F3 by (by rewrite E3, E2, E1, E0).
  assert (av_BiosUUID vm4 = av_BiosUUID vm) as F4 by (by rewrite E4, E3, E2, E1, E0).
  rewrite F3 in *. rewrite F4 in *. rewrite F in Himg.
  split_and!.
  - rewrite E5, E4', E4, E3, E2, E1. by rewrite E0.
  - rewrite E5, E4', E4. done.
  - rewrite E5, E4'. done.
  - by rewrite E5.
  - rewrite E5, E4', E4, E3, E2. done.
  - rewrite E5, E4', E4, E3. done.
  - rewrite E5, E4', E4, E3, E2, E1, E0. done.
  - rewrite E5, E4', E4, E3, E2, E1, E0. done.
  - done.
Qed.

(** What is resolved afterwards, and what it leaves alone. *)
Lemma create_resolved_fields cfg order vm vm' :
  order ≡ₚ MutateOnCreateFuncs → create_resolved cfg order vm = MPatched vm' →
  (av_PowerState vm' = av_PowerState vm ∧ av_InstanceUUID vm' = av_InstanceUUID vm ∧
   av_BiosUUID vm' = av_BiosUUID vm ∧ av_Bootstrap vm' = av_Bootstrap vm ∧ av_ImageName vm' = av_ImageName vm) ∧
  (kinds_set (av_Hardware vm) → kinds_set (av_Hardware vm')) ∧
  (∃ h, av_Hardware vm' = Some h ∧ hs_IDE h ≠ []) ∧
  av_Annotations vm' !! CreatedAtBuildVersionAnnotationKey = Some (BuildVersion cfg) ∧
  av_Annotations vm' !! CreatedAtSchemaVersionAnnotationKey = Some SchemaVersion ∧
  (is_Some (av_Image vm) → av_Image vm' = av_Image vm) ∧
  (av_ImageName vm ≠ "" → ∃ ref, av_Image vm' = Some ref ∧
     ResolveImageName (av_Namespace vm) (av_ImageName vm) = inr ref).
Proof.
  intros Ho. unfold create_resolved.
  destruct (ResolveImageNameOnCreate vm) as [|[vm6 m6]] eqn:H6; [done|].
  apply ResolveImage_shape in H6 as (i & E6 & Hi1 & Hi2). cbn [fst] in E6.
  destruct (when_feature _ SetDefaultEncryptionClass vm6) as [|[vm7 m7]] eqn:H7; [done|].
  assert (∃ c, vm7 = set_Crypto c vm6) as [c E7].
  { apply (when_feature_inr cfg _ _ _ _ (λ r, ∃ c, r.1 = set_Crypto c vm6) H7).
    - exists (av_Crypto vm6). cbn [fst]. by destruct vm6.
    - intros r (c & ? & _)%Encryption_shape. by exists c. }
  clear H7. destruct (when_feature _ ResolveClassAndClassName vm7) as [|[vm8 m8]] eqn:H8; [done|].
  assert (∃ c n, vm8 = set_ClassName n (set_Class c vm7)) as (c8 & n8 & E8).
  { apply (when_feature_inr cfg _ _ _ _ (λ r, ∃ c n, r.1 = set_ClassName n (set_Class c vm7)) H8).
    - exists (av_Class vm7), (av_ClassName vm7). cbn [fst]. by destruct vm7.
    - intros r (c' & n' & ? & _)%ResolveClass_shape. by exists c', n'. }
  clear H8. assert (∃ vols, (if VMSharedDisks (Features_ cfg) then (SetPVCDefaults vm8).1 else vm8) =
    set_Volumes vols vm8) as [vols ->].
  { destruct (VMSharedDisks _); [|exists (av_Volumes vm8); by rewrite set_Volumes_id].
    unfold SetPVCDefaults. destruct (SetPVCVolumeDefaults _) as [vs m]. by eexists. }
  destruct (create_fns_shape cfg order (set_Volumes vols vm8) Ho) as (h' & Hf & Hide & Hcd).
  intros [= Hvm]. rewrite Hf in Hvm. clear Hf. symmetry in Hvm. rewrite Hvm.
  cbn [av_PowerState av_InstanceUUID av_BiosUUID av_Bootstrap av_Hardware av_Annotations av_ImageName
    av_Image av_Namespace set_Hardware set_Annotations set_Volumes].
  assert (av_Image vm8 = i ∧ av_Hardware vm8 = av_Hardware vm) as [-> Hh] by (rewrite E8, E7, E6; done).
  split_and!; try (rewrite E8, E7, E6; done); try done.
  - intros Hk hw cd [= <-]. rewrite Hcd. cbn [av_Hardware set_Volumes]. rewrite Hh.
    destruct (av_Hardware vm) as [hw|]; [by apply Hk|by intros ?%not_elem_of_nil].
  - by exists h'.
  - rewrite lookup_insert_ne by done. apply lookup_insert_eq.
  - apply lookup_insert_eq.
Qed.


(** ** Updates *)

(** The VM without what an update may change. *)
Definition core vm : AdmissionVM Q :=
  set_Annotations ∅ (set_Owners [] (set_ClassName "" (set_Class None (set_NextRestartTime ""
    (set_Network None (set_Volumes [] (set_Hardware None vm))))))).

Lemma SetNextRestartTime_shape rq vm oldVM r :
  SetNextRestartTime rq vm oldVM = inr r →
  ∃ t, r.1 = set_NextRestartTime t vm ∧
    (t = av_NextRestartTime oldVM ∨
     (t = rq_Now rq ∧ is_now (av_NextRestartTime vm) = true ∧
      av_PowerState oldVM = VirtualMachinePowerStateOn)).
Proof.
  unfold SetNextRestartTime. case_bool_decide as He; [intros [= <-]; eexists; split; [done|by left]|].
  destruct (is_now _) eqn:Hn.
  - case_bool_decide; [|done]. intros [= <-]. eexists. split; [done|by right].
  - case_bool_decide as Heq; [|done]. intros [= <-]. exists (av_NextRestartTime vm).
    split; [by rewrite set_NextRestartTime_id|by left].
Qed.

Lemma SetDefaultNetwork_shape cfg rq vm r :
  SetDefaultNetworkOnUpdate cfg rq vm = inr r → ∃ n, r.1 = set_Network n vm.
Proof.
  assert (∃ n, vm = set_Network n vm) as Hid by (exists (av_Network vm); by rewrite set_Network_id).
  unfold SetDefaultNetworkOnUpdate, fill_interfaces.
  repeat case_match; intros [= <-]; cbn [fst]; done || by eexists.
Qed.

(** What an update did to the fields it may change. *)
Record updated cfg rq vm oldVM vm' : Prop := {
  up_core : core vm' = core vm;
  up_restart : av_NextRestartTime vm' = av_NextRestartTime oldVM ∨
    (av_NextRestartTime vm' = rq_Now rq ∧ is_now (av_NextRestartTime vm) = true ∧
     av_PowerState oldVM = VirtualMachinePowerStateOn);
  up_className : av_ClassName vm ≠ "" → av_ClassName vm' = av_ClassName vm;
  up_resized : ∃ vm0 vm1 m, SetLastResizeAnnotations cfg vm0 oldVM = inr (vm1, m) ∧
    av_ClassName vm' = av_ClassName vm0 ∧ av_Annotations vm0 = av_Annotations vm ∧
    av_Annotations vm' !! LastResizedAnnotationKey = av_Annotations vm1 !! LastResizedAnnotationKey ∧
    (is_Some (av_Class vm) → av_Class vm0 = av_Class vm) ∧
    ∀ k, k ≠ ApplyPowerStateTimeAnnotation → av_Annotations vm' !! k = av_Annotations vm1 !! k
}.

Lemma update_steps_updated cfg rq vm oldVM vm' m :
  update_steps cfg rq vm oldVM = inr (vm', m) → updated cfg rq vm oldVM vm'.
Proof.
  unfold update_steps.
  destruct (when_feature (ImmutableClasses cfg) _ vm) as [|[vm0 m0]] eqn:H1; [done|].
  destruct (SetLastResizeAnnotations cfg vm0 oldVM) as [|[vm1 m1]] eqn:H2; [done|].
  destruct (SetNextRestartTime rq vm1 oldVM) as [|[vm2 m2]] eqn:H3; [done|].
  destruct (when_feature (MutableNetworks cfg) _ vm2) as [|[vm3 m3]] eqn:H4; [done|].
  assert (∃ c n, vm0 = set_ClassName n (set_Class c vm) ∧ (av_ClassName vm ≠ "" → n = av_ClassName vm) ∧
    (is_Some (av_Class vm) → c = av_Class vm)) as (c & n & E0 & Hn & Hc).
  { apply (when_feature_inr cfg _ _ _ _ (λ r, ∃ c n, r.1 = set_ClassName n (set_Class c vm) ∧
      (av_ClassName vm ≠ "" → n = av_ClassName vm) ∧ (is_Some (av_Class vm) → c = av_Class vm)) H1).
    - exists (av_Class vm), (av_ClassName vm). split_and!; [cbn [fst]; by destruct vm|done..].
    - intros r. apply ResolveClass_shape. }
  pose proof H2 as Hlast. apply SetLastResize_shape in H2 as (a & E1 & _). cbn [fst] in E1.
  apply SetNextRestartTime_shape in H3 as (t & E2 & Ht). cbn [fst] in E2.
  assert (∃ nw, vm3 = set_Network nw vm2) as [nw E3].
  { apply (when_feature_inr cfg _ _ _ _ (λ r, ∃ nw, r.1 = set_Network nw vm2) H4).
    - exists (av_Network vm2). cbn [fst]. by rewrite set_Network_id.
    - intros r. apply SetDefaultNetwork_shape. }
  assert (∃ o m4, (if VMGroups cfg then RemoveStaleGroupOwnerRef vm3 oldVM else (vm3, false)) =
    (set_Owners o vm3, m4)) as (o & m4 & ->).
  { assert (∃ o m4, (vm3, false) = (set_Owners o vm3, m4)) as Hid
      by (exists (av_Owners vm3), false; f_equal; by destruct vm3).
    destruct (VMGroups cfg); [|done]. unfold RemoveStaleGroupOwnerRef. destruct (_ || _); [done|].
    destruct (existsb _ _); [by do 2 eexists|done]. }
  assert (∃ a5 m5, (if VMGroups cfg then CleanupApplyPowerStateChangeTimeAnno (set_Owners o vm3) oldVM
      else (set_Owners o vm3, false)) = (set_Annotations a5 (set_Owners o vm3), m5) ∧
    ∀ k, k ≠ ApplyPowerStateTimeAnnotation → a5 !! k = av_Annotations vm3 !! k) as (a5 & m5 & -> & Ha5).
  { assert (∃ a5 m5, (set_Owners o vm3, false) = (set_Annotations a5 (set_Owners o vm3), m5) ∧
      ∀ k, k ≠ ApplyPowerStateTimeAnnotation → a5 !! k = av_Annotations vm3 !! k) as Hid
      by (exists (av_Annotations vm3), false; split; [f_equal; by destruct vm3|done]).
    destruct (VMGroups cfg); [|done]. unfold CleanupApplyPowerStateChangeTimeAnno.
    destruct (negb _); [done|]. destruct (_ && _); [|done]. do 2 eexists. split; [done|].
    intros k Hk. by rewrite lookup_delete_ne. }
  set (vm5 := set_Annotations a5 _).
  assert (∃ h vols m6 m7, (if (VMSharedDisks (Features_ cfg) || AllDisksArePVCs (Features_ cfg)) && upgraded cfg vm5
     then let '(vm, m6) := SetPVCDefaults vm5 in let '(vm, m7) := AddControllers vm in (vm, m6, m7)
     else (vm5, false, false)) = (set_Hardware h (set_Volumes vols vm5), m6, m7)) as (h & vols & m6 & m7 & ->).
  { destruct (_ && _); [|exists (av_Hardware vm5), (av_Volumes vm5), false, false; f_equal; f_equal; by destruct vm5].
    unfold SetPVCDefaults, AddControllers. destruct (SetPVCVolumeDefaults _) as [vs mm].
    destruct (AddControllersForVolumes _ _) as [[hw vs'] mm']. do 4 eexists. done. }
  intros [= <- _]. subst vm3 vm2 vm1 vm0. split.
  - by destruct vm.
  - exact Ht.
  - exact Hn.
  - do 3 eexists. split; [exact Hlast|]. split_and!; [done|done|by apply Ha5|exact Hc|exact Ha5].
Qed.

Lemma run_update_fns_shape cfg rq fs vm oldVM m vm' m' :
  run_update_fns cfg rq fs vm oldVM m = Some (vm', m') → ∃ h n, vm' = set_Hardware h (set_Network n vm).
Proof.
  revert vm m. induction fs as [|f fs IH]; intros vm m; cbn [run_update_fns].
  { intros [= <- _]. exists (av_Hardware vm), (av_Network vm). by destruct vm. }
  rewrite run_update_fn_eq. cbv zeta.
  destruct f; intros (h & n & ->)%IH.
  - exists h, n. by destruct vm.
  - exists h, n. by destruct vm.
  - exists h, n. by destruct vm.
  - exists h, n. by destruct vm.
Qed.

Lemma mutate_update_updated cfg rq order vm oldVM vm' :
  mutated_vm cfg rq order vm oldVM = Some vm' → updated cfg rq vm oldVM vm'.
Proof.
  unfold mutated_vm. destruct (update_steps _ _ _ _) as [|[vm1 m]] eqn:Hs; [done|].
  apply update_steps_updated in Hs. destruct (run_update_fns _ _ _ _ _ _) as [[vm2 m2]|] eqn:Hr; [|done].
  intros [= <-]. apply run_update_fns_shape in Hr as (h & n & ->). cbn [fst].
  destruct Hs as [Hc Hr Hn (vm0 & vm3 & m3 & H1 & H2 & H3 & H4 & H5 & H6)]. split; [|done|done|].
  - etransitivity; [|exact Hc]. by destruct vm1.
  - by exists vm0, vm3, m3.
Qed.

(** The VM of the response: the patched one, or the one of the request. *)
Definition admitted_vm vm (r : MutateResponse) : option (AdmissionVM Q) :=
  match r with
  | MAllowed => Some vm
  | MPatched vm' => Some vm'
  | _ => None
  end.

(** The mutation webhook restarts a VM only on a request to do so now, for
    a VM that is meant to be on; in every other case the recorded time is kept. *)
Theorem restart_time_controlled cfg rq order vm oldVM vm' :
  mutate_update cfg rq order vm oldVM = MPatched vm' →
  av_NextRestartTime vm' = av_NextRestartTime oldVM ∨
  (av_NextRestartTime vm' = rq_Now rq ∧ ToLower (av_NextRestartTime vm) = "now" ∧
   av_PowerState oldVM = VirtualMachinePowerStateOn).
Proof.
  intros Hm. assert (mutated_vm cfg rq order vm oldVM = Some vm') as Hv.
  { unfold mutate_update in Hm. unfold mutated_vm. destruct (update_steps _ _ _ _) as [|[vm1 m]]; [done|].
    destruct (run_update_fns _ _ _ _ _ _) as [[vm2 [|]]|]; simplify_eq; done. }
  destruct (up_restart _ _ _ _ _ (mutate_update_updated _ _ _ _ _ _ Hv)) as [?|(? & Hn & ?)]; [by left|right].
  split_and!; [done| |done]. by apply bool_decide_eq_true in Hn.
Qed.

(** ** Class changes and resizes *)

Lemma mutated_vm_admitted cfg rq order vm oldVM vm' :
  admitted_vm vm (mutate_update cfg rq order vm oldVM) = Some vm' →
  ∃ vm'' , mutated_vm cfg rq order vm oldVM = Some vm'' ∧
    (vm' = vm'' ∨ (vm' = vm ∧ mutate_update cfg rq order vm oldVM = MAllowed)).
Proof.
  unfold mutate_update, mutated_vm. destruct (update_steps _ _ _ _) as [|[vm1 m]]; [done|].
  destruct (run_update_fns _ _ _ _ _ _) as [[vm2 [|]]|]; intros [= <-]; eexists; (split; [done|]);
    [by left|by right].
Qed.

(** A VM whose annotation is missing gets the old class name, and the change is
    reported. *)
Lemma SetLastResize_records `{!AnnotationCodecLaws} cfg vm0 oldVM vm1 m :
  VMResizeCPUMemory cfg = true → ascii_only (av_ClassName oldVM) = true →
  getLastResizeAnnotation (av_Annotations vm0) = None →
  SetLastResizeAnnotations cfg vm0 oldVM = inr (vm1, m) →
  m = false ∨ getLastResizeAnnotation (av_Annotations vm1) = Some (mkResized (av_ClassName oldVM) "" 0).
Proof.
  intros Hf Hasc Hn. unfold SetLastResizeAnnotations, GetLastResizedAnnotation. rewrite Hf, Hn. cbn [negb snd].
  destruct (_ && (_ || _)); [intros [= _ <-]; by left|].
  unfold SetLastResizedAnnotationClassName, SetLastResizedAnnotationClassInstanceName.
  destruct (marshal (mkResized (av_ClassName oldVM) "" 0)) as [|s] eqn:Hs; [done|].
  assert (unmarshal s = Some (mkResized (av_ClassName oldVM) "" 0)) as Hu.
  { apply marshal_unmarshal; [|done]. unfold encodable. cbn [lr_Name lr_UID lr_Generation].
    rewrite Hasc. cbn [andb ascii_only]. by apply bool_decide_eq_true. }
  cbn [av_Annotations set_Annotations].
  repeat case_match; intros [= <- <-]; right; unfold getLastResizeAnnotation;
    cbn [av_Annotations set_Annotations]; simplify_eq; rewrite ?lookup_insert_ne, lookup_insert_eq by done; done.
Qed.

Lemma admitted_class_change `{!AnnotationCodecLaws} cfg rq order vm oldVM vm' :
  VMResizeCPUMemory cfg = true → av_ClassName vm ≠ "" → av_ClassName vm ≠ av_ClassName oldVM →
  ascii_only (av_ClassName oldVM) = true → getLastResizeAnnotation (av_Annotations vm) = None →
  admitted_vm vm (mutate_update cfg rq order vm oldVM) = Some vm' →
  av_ClassName vm' = av_ClassName vm ∧
  getLastResizeAnnotation (av_Annotations vm') = Some (mkResized (av_ClassName oldVM) "" 0).
Proof.
  intros Hf Hc Hne Hasc Hn Hm. apply mutated_vm_admitted in Hm as (vm'' & Hv & Hm).
  pose proof (mutate_update_updated _ _ _ _ _ _ Hv) as [_ _ Hcn (vm0 & vm1 & m & Hl & F1 & F2 & F3 & _)].
  specialize (Hcn Hc). rewrite <-F2 in Hn.
  assert (m ≠ false) as Hmod.
  { intros ->. apply SetLastResize_shape in Hl as Hshape. unfold SetLastResizeAnnotations in Hl.
    rewrite Hf in Hl. cbn [negb] in Hl. rewrite bool_decide_false in Hl by congruence. cbn [andb] in Hl.
    unfold GetLastResizedAnnotation in Hl. rewrite Hn in Hl. cbn [snd] in Hl.
    repeat case_match; simplify_eq. }
  destruct (SetLastResize_records cfg vm0 oldVM vm1 m) as [?|Hr]; [done..|].
  destruct Hm as [->|[_ Hal]].
  - split; [done|]. unfold getLastResizeAnnotation in *. by rewrite F3.
  - exfalso. apply Hmod. apply update_patch_complete in Hal as (v & Hv' & _ & c & n & a & Heq & Hd).
    rewrite Hv in Hv'. injection Hv' as <-.
    assert (av_Annotations vm'' !! LastResizedAnnotationKey = av_Annotations vm !! LastResizedAnnotationKey) as Ha.
    { rewrite Heq. cbn [av_Annotations set_Annotations].
      rewrite <-(lookup_delete_ne a LastResizedInstanceAnnotationKey) by done. rewrite Hd.
      by rewrite lookup_delete_ne. }
    unfold getLastResizeAnnotation in Hr, Hn. rewrite <-F3, Ha, <-F2 in Hr. congruence.
Qed.

(** When the class of a VM that was never resized changes, the admitted VM
    needs a resize, whatever its class looks like. *)
Theorem class_change_needs_resize `{!AnnotationCodecLaws} cfg rq order vm oldVM vm' (vmClass : ResizeClass) :
  VMResizeCPUMemory cfg = true → av_ClassName vm ≠ "" → av_ClassName vm ≠ av_ClassName oldVM →
  ascii_only (av_ClassName oldVM) = true → getLastResizeAnnotation (av_Annotations vm) = None →
  admitted_vm vm (mutate_update cfg rq order vm oldVM) = Some vm' →
  ResizeNeeded (av_Annotations vm') (av_ClassName vm') vmClass = true.
Proof.
  intros Hf Hc Hne Hasc Hn Hm.
  destruct (admitted_class_change _ _ _ _ _ _ Hf Hc Hne Hasc Hn Hm) as [Hcn Hl].
  unfold ResizeNeeded. rewrite Hl. cbn [lr_Name]. by rewrite bool_decide_false by congruence.
Qed.

(** Recording a resize settles it: afterwards a resize is needed exactly when
    the VM names another class, or opted in and the class object changed. *)
Theorem resize_recorded `{!AnnotationCodecLaws} (anno anno' : annotations) (done_ vmClass : ResizeClass)
    (className : string) :
  encodable (mkResized (rc_Name done_) (rc_UID done_) (rc_Generation done_)) = true →
  SetLastResizedAnnotation anno done_ = inr anno' →
  ResizeNeeded anno' className vmClass = true ↔
  className ≠ rc_Name done_ ∨
  (is_Some (anno !! VirtualMachineSameVMClassResizeAnnotation) ∧
   (rc_UID vmClass ≠ rc_UID done_ ∨ rc_Generation vmClass ≠ rc_Generation done_)).
Proof.
  intros He. unfold SetLastResizedAnnotation. destruct (marshal _) as [|s] eqn:Hs; [done|].
  intros [= <-]. unfold ResizeNeeded, getLastResizeAnnotation. rewrite lookup_insert_eq.
  rewrite (marshal_unmarshal _ _ He Hs). cbn [lr_Name lr_UID lr_Generation].
  case_bool_decide as Hn; cbn [negb]; [|split; [by left|done]]. unfold same_class_opt_in.
  rewrite lookup_insert_ne by done. case_bool_decide as Ho; [|naive_solver].
  rewrite negb_true_iff, andb_false_iff, bool_decide_eq_false, Z.eqb_neq. naive_solver.
Qed.

(** A change of the class instance alone needs no resize: the annotation the
    webhook writes for it is never read. *)
Theorem instance_change_ignored `{!AnnotationCodecLaws} cfg rq order vm oldVM vm' (vmClass : ResizeClass) :
  VMResizeCPUMemory cfg = true → av_ClassName vm ≠ "" → av_ClassName vm = av_ClassName oldVM →
  ascii_only (av_ClassName oldVM) = true → getLastResizeAnnotation (av_Annotations vm) = None →
  av_Annotations vm !! VirtualMachineSameVMClassResizeAnnotation = None →
  admitted_vm vm (mutate_update cfg rq order vm oldVM) = Some vm' →
  ResizeNeeded (av_Annotations vm') (av_ClassName vm') vmClass = false.
Proof.
  intros Hf Hc Heq Hasc Hn Hopt Hm. apply mutated_vm_admitted in Hm as (vm'' & Hv & Hm).
  pose proof (mutate_update_updated _ _ _ _ _ _ Hv) as [_ _ Hcn (vm0 & vm1 & m & Hl & F1 & F2 & F3 & _ & F4)].
  specialize (Hcn Hc). rewrite <-F2 in Hn.
  assert (∀ anno, (getLastResizeAnnotation anno = None ∨
      getLastResizeAnnotation anno = Some (mkResized (av_ClassName oldVM) "" 0)) →
    anno !! VirtualMachineSameVMClassResizeAnnotation = None →
    ResizeNeeded anno (av_ClassName vm) vmClass = false) as Hno.
  { intros anno Hl' Ho. unfold ResizeNeeded, same_class_opt_in. rewrite Ho.
    destruct Hl' as [->| ->]; [by rewrite bool_decide_false by (by intros [? ?])|].
    cbn [lr_Name]. rewrite bool_decide_true by done. cbn [negb].
    by rewrite bool_decide_false by (by intros [? ?]). }
  destruct Hm as [->|[-> Hal]].
  - rewrite Hcn. apply Hno.
    + unfold getLastResizeAnnotation in *. rewrite F3.
      destruct (SetLastResize_records cfg vm0 oldVM vm1 m) as [->|Hr]; [done..| |by right].
      left. apply SetLastResize_shape in Hl as (a & Ha & _ & Hd & _). cbn [fst snd] in *.
      rewrite Ha. cbn [av_Annotations set_Annotations].
      rewrite <-(lookup_delete_ne a LastResizedInstanceAnnotationKey) by done.
      by rewrite (Hd eq_refl), lookup_delete_ne by done.
    + rewrite F4 by done. apply SetLastResize_shape in Hl as (a & Ha & Hk & _). cbn [fst] in Ha.
      rewrite Ha. cbn [av_Annotations set_Annotations]. rewrite Hk by done. by rewrite F2.
  - apply Hno; [left; by rewrite <-F2|done].
Qed.
End Fields.
