(* ===== verification/VMValidator.v ===== *)
(** * The validation webhook of VMs: spec and metadata

    webhooks/virtualmachine/validation/virtualmachine_validator.go and
    virtualmachine_validator_cdrom.go, without volumes and network
    ([VMVolumeValidator], [VMNetworkValidator]).

    A [field.Error] is its kind, path and detail; the value it quotes is left
    out.  A loop over a Go map that collects errors visits the map in the order
    of [map_to_list]: only the order of the errors depends on it. *)

From S2P Require Import Prelude Conditions Features Hardware NicMutator CdromMutator HardwareValidator.
From S2P Require Import GoErrors VMGroup Compute ComputeWebhook AdmissionVM VMMutator.
Local Open Scope Z_scope.

(** ** Errors *)

Inductive ErrorKind :=
  KForbidden | KInvalid | KRequired | KNotSupported | KDuplicate | KInternal | KTypeInvalid.

Inductive VMError :=
  | VErr (k : ErrorKind) (path detail : string)
  | VCompute (e : ComputeError)
  | VController (e : FieldError).

Definition err_if (b : bool) (k : ErrorKind) (path detail : string) : list VMError :=
  if b then [VErr k path detail] else [].

Definition index (p : string) (i : nat) : string := p +:+ "[" +:+ pretty i +:+ "]".
Definition child (p c : string) : string := p +:+ "." +:+ c.
Definition key (p k : string) : string := p +:+ "[" +:+ k +:+ "]".

(** The text of an error as a detail; texts that depend on libraries are not
    modelled further. *)
Definition detail_of (err : goerror) : string :=
  match err with ErrorString m => m | StatusError _ m => m | _ => "error" end.

Definition FieldImmutableErrorMsg : string := "field is immutable".
Definition restrictedToPrivUsers : string := "restricted to privileged users".
Definition updatesNotAllowedWhenPowerOn : string :=
  "updates to this field are not allowed when VM power is on".
Definition modifyAnnotationNotAllowedForNonAdmin : string :=
  "modifying this annotation is not allowed for non-admin users".
Definition modRestrictedAnnotation : string := "modifying this annotation is restricted to privileged users".
Definition addRestrictedAnnotation : string := "adding this annotation is restricted to privileged users".
Definition delRestrictedAnnotation : string := "removing this annotation is restricted to privileged users".
Definition notUpgradedText : string := "modifying this VM is not allowed until it is upgraded".

(** [validation.ValidateImmutableField] *)
Definition ValidateImmutableField {A} `{EqDecision A} (new old : A) (path : string) : list VMError :=
  err_if (negb (bool_decide (new = old))) KInvalid path FieldImmutableErrorMsg.

Definition InstanceIDAnnotation : string := "vmoperator.vmware.com/cloud-init-instance-id".
Definition FirstBootDoneAnnotation : string := "virtualmachine.vmoperator.vmware.com/first-boot-done".
Definition RestoredVMAnnotation : string := "vmoperator.vmware.com/restored-vm".
Definition ImportedVMAnnotation : string := "vmoperator.vmware.com/imported-vm".
Definition FailedOverVMAnnotation : string := "vmoperator.vmware.com/failed-over-vm".
Definition PausedVMLabelKey : string := "vmoperator.vmware.com/paused".
Definition ClusterModuleNameAnnotationKey : string := "vsphere-cluster-module-group".
Definition CheckAnnotationPowerOn : string := "poweron.check.vmoperator.vmware.com".
Definition CheckAnnotationDelete : string := "delete.check.vmoperator.vmware.com".
Definition LabelHostname : string := "kubernetes.io/hostname".
Definition VMOperatorLabelDomain : string := "vmoperator.vmware.com".

Definition HasVMOperatorLabels (labels : gmap string string) : bool :=
  existsb (λ kv, Contains kv.1 VMOperatorLabelDomain) (map_to_list labels).

(** The keys of [anno2extraconfig.AnnotationsToExtraConfigKeys]. *)
Definition AnnotationsToExtraConfigKeys : list string :=
  ["mgmt.proxy.vmware.com/watermark"; "mgmt.proxy.vmware.com/allowlist"].

Definition KubernetesNodeLabelKey : string := "cluster.x-k8s.io/cluster-name".

(** [strings.TrimSpace(s) == ""]: only the characters of [unicode.IsSpace]. *)
Definition utf8 (l : list nat) : string :=
  foldr (λ n s, String.String (Ascii.ascii_of_nat n) s) EmptyString l.
Definition spaces : list string :=
  utf8 <$> ([[32]; [9]; [10]; [11]; [12]; [13]; [194; 133]; [194; 160]; [225; 154; 128]] ++
            ((λ n, [226; 128; n]) <$> (seq 128 11 ++ [168; 169; 175])) ++ [[226; 129; 159]; [227; 128; 128]])%nat.

Fixpoint blank_from (fuel : nat) (s : string) : bool :=
  match fuel, find (λ w, String.prefix w s) spaces with
  | S fuel, Some w => blank_from fuel (String.substring (String.length w) (String.length s) s)
  | _, _ => bool_decide (s = "")
  end.
Definition blank (s : string) : bool := blank_from (String.length s) s.

(** [capvDefaultServiceAccount]: the fixed start, a name without colons, and one
    of the two accounts. *)
Definition capvPrefix : string := "system:serviceaccount:svc-tkg-".
Definition capv_account (username account : string) : bool :=
  let name := String.substring (String.length capvPrefix)
                (String.length username - String.length capvPrefix - String.length account) username in
  bool_decide (username = capvPrefix +:+ name +:+ account) && negb (bool_decide (name = "")) &&
  negb (Contains name ":").
Definition isCAPVServiceAccount (username : string) : bool :=
  capv_account username ":default" || capv_account username ":capv-manager".

Example capv_accounts :
  isCAPVServiceAccount "system:serviceaccount:svc-tkg-domain-c8:default" = true ∧
  isCAPVServiceAccount "system:serviceaccount:svc-tkg-x:y:capv-manager" = false ∧
  isCAPVServiceAccount "system:serviceaccount:svc-tkg-:default" = false.
Proof. by vm_compute. Qed.

Section Validators.
Context {Q : Type} `{Quantity Q} `{WebhookAPI}.
Context (cfg : WebhookConfig) (rq : WebhookRequest).
Implicit Types vm oldVM : AdmissionVM Q.
Implicit Types old : option (AdmissionVM Q).

Definition anno vm (k : string) : string := annotation (av_Annotations vm) k.
Definition lbl vm (k : string) : string := label (av_Labels vm) k.

(** The annotations and labels of the old VM, none at creation. *)
Definition old_anno old (k : string) : string := match old with Some vm => anno vm k | None => "" end.
Definition old_lbl old (k : string) : string := match old with Some vm => lbl vm k | None => "" end.

(** [GetContextWithWorkloadDomainIsolation]: the switch for this VM. *)
Definition domain_isolation vm : bool :=
  WorkloadDomainIsolation cfg || negb (bool_decide (is_Some (av_Labels vm !! KubernetesNodeLabelKey))).

(** ** Image and class *)

Definition validateImageOnCreate vm : list VMError :=
  let f := "spec.image" in
  if IsImagelessVM vm && (VMImportNewNet cfg || VMIncrementalRestore cfg) then
    err_if (negb (IsPrivilegedAccount rq)) KForbidden f restrictedToPrivUsers
  else match av_Image vm with
  | None => [VErr KRequired f ""]
  | Some image =>
    if bool_decide (ir_Kind image = "") then [VErr KRequired (child f "kind") "supported kinds"]
    else err_if (negb (bool_decide (ir_Kind image = vmiKind)) && negb (bool_decide (ir_Kind image = cvmiKind)))
           KInvalid (child f "kind") "supported kinds"
  end.

Definition validateImageOnUpdate vm oldVM : list VMError :=
  if VMIncrementalRestore cfg && IsImagelessVM vm && annotated vm FailedOverVMAnnotation then
    if IsPrivilegedAccount rq then []
    else err_if (negb (ImageRefsEqual (av_Image vm) (av_Image oldVM))) KForbidden "spec.image" restrictedToPrivUsers ++
         err_if (negb (bool_decide (av_ImageName oldVM = av_ImageName vm))) KForbidden "spec.imageName"
           restrictedToPrivUsers
  else ValidateImmutableField (av_ImageName vm) (av_ImageName oldVM) "spec.imageName" ++
       ValidateImmutableField (av_Image vm) (av_Image oldVM) "spec.image".

Definition validateClassInstance vm : list VMError :=
  let f := "spec.class.name" in
  match av_Class vm with
  | None => []
  | Some c =>
    match GetClassInstance (av_Namespace vm) (lo_Name c) with
    | inl _ => [VErr KInvalid f "must specify a valid reference to a VirtualMachineClassInstance object"]
    | inr i =>
      match in_Labels i !! VMClassInstanceActiveLabelKey with
      | None =>
        [VErr KInvalid f "must specify a reference to a VirtualMachineClassInstance object that is active"]
      | Some _ =>
        err_if (negb (existsb (owned_by (av_ClassName vm)) (in_Owners i))) KInvalid f
          "VirtualMachineClassInstance must be an instance of the VM Class specified by spec.class"
      end
    end
  end.

Definition validateClassOnCreate vm : list VMError :=
  (if IsClasslessVM vm then
     if VMImportNewNet cfg
     then err_if (negb (IsPrivilegedAccount rq)) KForbidden "spec.className" restrictedToPrivUsers
     else [VErr KRequired "spec.className" ""]
   else []) ++
  (if ImmutableClasses cfg then validateClassInstance vm else []).

Definition validateClassOnUpdate vm oldVM : list VMError :=
  if bool_decide (av_ClassName oldVM = av_ClassName vm) then []
  else if negb (VMResizeCPUMemory cfg)
  then ValidateImmutableField (av_ClassName vm) (av_ClassName oldVM) "spec.className"
  else
    (if bool_decide (av_ClassName vm = "") then
       if VMImportNewNet cfg
       then err_if (negb (IsPrivilegedAccount rq)) KRequired "spec.className" ""
       else [VErr KRequired "spec.className" ""]
     else []) ++
    (if ImmutableClasses cfg then validateClassInstance vm else []).

(** ** Storage and encryption *)

Definition validateStorageFields vm : list VMError :=
  if bool_decide (av_StorageClass vm = "") then [VErr KRequired "spec.storageClass" ""]
  else
    let '(objPath, objName) :=
      if bool_decide (av_VolumeAttributesClassName vm = "")
      then ("spec.storageClass", av_StorageClass vm)
      else ("spec.volumeAttributesClassName", av_VolumeAttributesClassName vm) in
    match GetStoragePolicyID (av_Namespace vm) (av_StorageClass vm) (av_VolumeAttributesClassName vm) with
    | inl err => [VErr KInvalid objPath (detail_of err)]
    | inr policyID =>
      match IsStoragePolicyInNamespace objName policyID (av_Namespace vm) with
      | inl err => [VErr KInvalid objPath (detail_of err)]
      | inr ok =>
        err_if (negb ok) KInvalid objPath
          ("Storage policy is not associated with the namespace " +:+ av_Namespace vm +:+ " by object " +:+ objName)
      end
    end.

Definition validateCrypto vm : list VMError :=
  match av_Crypto vm with
  | None => []
  | Some encClassName =>
    if negb (BringYourOwnEncryptionKey cfg)
    then [VErr KInvalid "spec.crypto" "the Bring Your Own Key (Provider) feature is not enabled"]
    else if bool_decide (encClassName = "") then []
    else match IsEncryptedStorageClass (av_StorageClass vm) with
    | inl err => [VErr KInternal "spec.crypto.encryptionClassName" (detail_of err)]
    | inr ok => err_if (negb ok) KInvalid "spec.crypto.encryptionClassName"
                  "requires spec.storageClass specify an encryption storage class"
    end
  end.

(** ** Probes and advanced settings *)

Definition validateReadinessProbe vm : goerror + list VMError :=
  let p := "spec.readinessProbe" in
  match av_ReadinessProbe vm with
  | None => inr []
  | Some probe =>
    let actionsCnt := ((if bool_decide (is_Some (TCPSocket probe)) then 1 else 0) + (if GuestHeartbeat probe then 1 else 0) +
                       (if bool_decide (GuestInfo probe = []) then 0 else 1))%nat in
    let errs := err_if (Nat.ltb 1 actionsCnt) KForbidden p "only one action can be specified" in
    match TCPSocket probe with
    | None => inr errs
    | Some port =>
      match GetSupportedProviderTypes cfg (av_Namespace vm) with
      | inl err => inl err
      | inr providerTypes =>
        if bool_decide (NetworkProviderTypeVPC ∈ providerTypes)
        then inr (errs ++ [VErr KForbidden (child p "tcpSocket")
                             "VPC networking doesn't allow TCP readiness probe to be specified"])
        else if port =? 6443 then inr errs
        else match ProviderConfigMap (rq_Namespace rq) with
        | inl err => inr (errs ++ [VErr KForbidden (child p "tcpSocket") (detail_of err)])
        | inr data =>
          inr (errs ++ err_if (bool_decide (label data "IsRestrictedNetwork" = "true")) KNotSupported
                         (child p "tcpSocket.port") "6443")
        end
      end
    end
  end.

(** The keys of [AdvancedVMXKeyMap]: the [vmx] tags of VirtualMachineAdvancedSpec,
    with the JSON names of the fields. *)
Definition AdvancedVMXKeys : list (string * string) :=
  [("numa.vcpu.preferHT", "preferHtEnabled");
   ("sched.mem.lpage.enable1GPage", "hugePages1GEnabled");
   ("timeTracker.lowLatency", "timeTrackerLowLatencyEnabled");
   ("sched.cpu.affinity.exclusiveNoStats", "cpuAffinityExclusiveNoStatsEnabled");
   ("sched.swap.vmxSwapEnabled", "vmxSwapEnabled");
   ("numa.nodeAffinity", "pnumaNodeAffinity")].

Definition isFirstClassVMAdvancedProperty (k : string) : bool :=
  bool_decide (k ∈ AdvancedVMXKeys.*1).

Definition check_extra_config (i : nat) (kv : string * string) : list VMError :=
  let p := child (index "spec.advanced.extraConfig" i) "key" in
  if isFirstClassVMAdvancedProperty kv.1
  then [VErr KForbidden p (kv.1 +:+ ": use the corresponding first-class field in spec.advanced instead")]
  else if IsEthernetDeviceKey kv.1
  then [VErr KForbidden p (kv.1 +:+ ": use spec.network.interfaces[].vmxnet3 or advancedProperties instead")]
  else err_if (IsSystemReservedExtraConfigKey kv.1) KForbidden p (kv.1 +:+ ": this key is reserved for the system").

Definition validateAdvancedExtraConfig (adv : AdvancedSpec Q) : list VMError :=
  concat (imap check_extra_config (adv_ExtraConfig adv)).

Definition validateAdvanced vm : list VMError :=
  match av_Advanced vm with
  | None => []
  | Some adv =>
    match BootDiskCapacity adv with
    | Some c => err_if (negb (IsZero c) && negb (Z.rem (Value c) (1024 * 1024) =? 0)) KInvalid
                  "spec.advanced.bootDiskCapacity" "value must be a multiple of MB"
    | None => []
    end ++
    (if VMServiceClasslessVM (Features_ cfg) then validateAdvancedExtraConfig adv else [])
  end.

(** ** Power state and restarts *)

Definition validateNextRestartTimeOnCreate vm : list VMError :=
  err_if (negb (bool_decide (av_NextRestartTime vm = ""))) KInvalid "spec.nextRestartTime"
    "cannot restart VM on create".

Definition validateNextRestartTimeOnUpdate vm oldVM : list VMError :=
  if bool_decide (av_NextRestartTime vm = av_NextRestartTime oldVM) then []
  else if is_now (av_NextRestartTime vm)
  then [VErr KInvalid "spec.nextRestartTime" "mutation webhooks are required to restart VM"]
  else err_if (negb (time_Parse (av_NextRestartTime vm))) KInvalid "spec.nextRestartTime"
         "must be formatted as RFC3339Nano".

Definition validatePowerStateOnCreate vm : list VMError :=
  err_if (bool_decide (av_PowerState vm = VirtualMachinePowerStateSuspended)) KInvalid "spec.powerState"
    "cannot set a new VM's power state to Suspended".

(** ** CD-ROMs: virtualmachine_validator_cdrom.go *)

Definition cdrom_path : string := "spec.hardware.cdrom".

Definition validateControllerTypeAndRanges (cd : VirtualMachineCdromSpec) (p : string) : list VMError :=
  match cdrom_ControllerBusNumber cd, cdrom_UnitNumber cd with
  | Some busNum, Some unitNum =>
    let ranges (maxCount maxSlots : Z) :=
      err_if ((busNum <? 0) || (maxCount <=? busNum)) KInvalid (child p "controllerBusNumber") "out of range" ++
      err_if ((unitNum <? 0) || (maxSlots <=? unitNum)) KInvalid (child p "unitNumber") "out of range" in
    match cdrom_ControllerType cd with
    | NoControllerType => []
    | VirtualControllerTypeIDE => ranges (type_MaxCount VirtualControllerTypeIDE) (MaxSlots (mkIDE 0))
    | VirtualControllerTypeSATA => ranges (type_MaxCount VirtualControllerTypeSATA) (MaxSlots (mkSATA 0))
    | _ => [VErr KNotSupported (child p "controllerType") "IDE, SATA"]
    end
  | _, _ => []
  end.

Definition validateControllerSpecOnUpdate (cd : VirtualMachineCdromSpec) (p : string) : list VMError :=
  let missing :=
    err_if (bool_decide (cdrom_ControllerType cd = NoControllerType)) KRequired (child p "controllerType") "" ++
    err_if (bool_decide (cdrom_ControllerBusNumber cd = None)) KRequired (child p "controllerBusNumber") "" ++
    err_if (bool_decide (cdrom_UnitNumber cd = None)) KRequired (child p "unitNumber") "" in
  match missing with
  | [] => validateControllerTypeAndRanges cd p
  | _ => missing
  end.

(** The slot of a CD-ROM all of whose placement fields are set. *)
Definition placed_slot (cd : VirtualMachineCdromSpec) : option (ControllerID * Z) :=
  match cdrom_ControllerBusNumber cd, cdrom_UnitNumber cd with
  | Some b, Some u => if decide (cdrom_ControllerType cd = NoControllerType) then None
                      else Some (mkControllerID (cdrom_ControllerType cd) b, u)
  | _, _ => None
  end.

Fixpoint duplicate_units (i : nat) (seen : gset (ControllerID * Z)) (cds : list VirtualMachineCdromSpec) :
    list VMError :=
  match cds with
  | [] => []
  | cd :: cds =>
    match placed_slot cd with
    | None => duplicate_units (S i) seen cds
    | Some s =>
      if decide (s ∈ seen)
      then VErr KDuplicate (child (index cdrom_path i) "unitNumber") "" :: duplicate_units (S i) seen cds
      else duplicate_units (S i) ({[s]} ∪ seen) cds
    end
  end.

Definition validateDuplicateUnitNumbers (cds : list VirtualMachineCdromSpec) : list VMError :=
  duplicate_units 0 ∅ cds.

Definition validateCdromControllerSpecsOnUpdate (cds : list VirtualMachineCdromSpec) : list VMError :=
  concat (imap (λ i cd, validateControllerSpecOnUpdate cd (index cdrom_path i)) cds) ++
  validateDuplicateUnitNumbers cds.

Definition cdrom_spec_on_create (i : nat) (cd : VirtualMachineCdromSpec) : list VMError :=
  let p := index cdrom_path i in
  let hasType := negb (bool_decide (cdrom_ControllerType cd = NoControllerType)) in
  let hasBus := bool_decide (is_Some (cdrom_ControllerBusNumber cd)) in
  (if hasType && negb hasBus
   then [VErr KRequired (child p "controllerBusNumber") "must be set when controllerType is specified"]
   else err_if (negb hasType && hasBus) KRequired (child p "controllerType")
          "must be set when controllerBusNumber is specified") ++
  validateControllerTypeAndRanges cd p.

Definition validateCdromControllerSpecsOnCreate (cds : list VirtualMachineCdromSpec) : list VMError :=
  concat (imap cdrom_spec_on_create cds).

(** The old CD-ROMs by name; a later one wins. *)
Definition cdroms_by_name (cds : list AdmissionCdrom) : gmap string AdmissionCdrom :=
  foldl (λ m c, <[ac_Name c := c]> m) ∅ cds.

Definition cdrom_when_on (old : gmap string AdmissionCdrom) (i : nat) (c : AdmissionCdrom) : list VMError :=
  let p := index cdrom_path i in
  match old !! ac_Name c with
  | None => []
  | Some o =>
    err_if (negb (bool_decide (cdrom_ControllerType (ac_Base c) = cdrom_ControllerType (ac_Base o)))) KForbidden
      (child p "controllerType") updatesNotAllowedWhenPowerOn ++
    err_if (negb (bool_decide (cdrom_ControllerBusNumber (ac_Base c) = cdrom_ControllerBusNumber (ac_Base o))))
      KForbidden (child p "controllerBusNumber") updatesNotAllowedWhenPowerOn ++
    err_if (negb (bool_decide (cdrom_UnitNumber (ac_Base c) = cdrom_UnitNumber (ac_Base o)))) KForbidden
      (child p "unitNumber") updatesNotAllowedWhenPowerOn
  end.

Definition validateCdromControllerSpecWhenPoweredOn (newCD oldCD : list AdmissionCdrom) : list VMError :=
  concat (imap (cdrom_when_on (cdroms_by_name oldCD)) newCD).

(** ** CD-ROMs *)

Definition cdroms_of vm : list AdmissionCdrom :=
  match av_Hardware vm with Some hw => hs_Cdrom hw | None => [] end.

Definition vm_upgraded vm : bool := upgraded cfg vm.

Fixpoint check_images (i : nat) (seen : gset string) (cds : list AdmissionCdrom) : list VMError :=
  match cds with
  | [] => []
  | c :: cds =>
    let p := child (index cdrom_path i) "image" in
    let kind := ir_Kind (ac_Image c) in
    let name := ir_Name (ac_Image c) in
    err_if (negb (bool_decide (kind = vmiKind)) && negb (bool_decide (kind = cvmiKind))) KNotSupported
      (child p "kind") kind ++
    err_if (bool_decide (name ∈ seen)) KDuplicate (child p "name") name ++
    check_images (S i) ({[name]} ∪ seen) cds
  end.

Definition validateCdrom vm old : list VMError :=
  let newCD := cdroms_of vm in
  if bool_decide (newCD = []) then []
  else
    err_if (bool_decide (av_GuestID vm = "")) KRequired "spec.guestID" "when deploying a VM with CD-ROMs" ++
    check_images 0 ∅ newCD ++
    (if VMSharedDisks (Features_ cfg) then
       match old with
       | None => validateCdromControllerSpecsOnCreate (ac_Base <$> newCD)
       | Some oldVM =>
         if vm_upgraded oldVM then validateCdromControllerSpecsOnUpdate (ac_Base <$> newCD) else []
       end
     else []).

Definition image_when_on (old : gmap string AdmissionCdrom) (i : nat) (c : AdmissionCdrom) : list VMError :=
  match old !! ac_Name c with
  | None => [VErr KForbidden (child (index cdrom_path i) "name")
               "adding new CD-ROMs is not allowed when VM is powered on"]
  | Some o => err_if (negb (bool_decide (ac_Image c = ac_Image o))) KForbidden (child (index cdrom_path i) "image")
                updatesNotAllowedWhenPowerOn
  end.

Definition validateCdromWhenPoweredOn vm oldVM : list VMError :=
  let newCD := cdroms_of vm in
  let oldCD := cdroms_of oldVM in
  if negb (Nat.eqb (length newCD) (length oldCD))
  then [VErr KForbidden cdrom_path updatesNotAllowedWhenPowerOn]
  else
    concat ((λ c, err_if (negb (bool_decide (ac_Name c ∈ ac_Name <$> newCD))) KForbidden (child cdrom_path "name")
                    "removing CD-ROMs is not allowed when VM is powered on") <$> oldCD) ++
    concat (imap (image_when_on (cdroms_by_name oldCD)) newCD) ++
    (if VMSharedDisks (Features_ cfg) && negb (bool_decide (av_StatusPowerState oldVM = "")) && vm_upgraded oldVM
     then validateCdromControllerSpecWhenPoweredOn newCD oldCD else []).

Definition validateBootOptionsWhenPoweredOn vm oldVM : list VMError :=
  err_if (negb (bool_decide (av_BootOptions oldVM = av_BootOptions vm))) KForbidden "spec.bootOptions"
    updatesNotAllowedWhenPowerOn.

Definition validateHardwareWhenPoweredOn vm oldVM : list VMError :=
  validateCdromWhenPoweredOn vm oldVM ++ validateBootOptionsWhenPoweredOn vm oldVM.

Definition validateUpdatesWhenPoweredOn vm oldVM : list VMError :=
  err_if (negb (bool_decide (av_GuestID vm = av_GuestID oldVM))) KForbidden "spec.guestID"
    updatesNotAllowedWhenPowerOn ++
  validateHardwareWhenPoweredOn vm oldVM.

(** The VM is halted from being powered on, as this check sees it. *)
Definition isHalted oldVM : bool :=
  existsb (λ kv, HasPrefix kv.1 CheckAnnotationPowerOn) (map_to_list (av_Annotations oldVM)).

Definition validatePowerStateOnUpdate vm oldVM : list VMError :=
  let newDesPS := av_PowerState vm in
  let oldDesPS := av_PowerState oldVM in
  if bool_decide (newDesPS = "")
  then [VErr KInvalid "spec.powerState" "cannot set power state to empty string"]
  else if bool_decide (oldDesPS = VirtualMachinePowerStateOn) then
    if bool_decide (newDesPS = VirtualMachinePowerStateOn) && negb (isHalted oldVM)
    then validateUpdatesWhenPoweredOn vm oldVM else []
  else err_if (bool_decide (oldDesPS = VirtualMachinePowerStateOff) &&
               bool_decide (newDesPS = VirtualMachinePowerStateSuspended)) KInvalid "spec.powerState"
         "cannot suspend a VM that is powered off".

Definition validateNextPowerStateChangeTimeFormat vm : list VMError :=
  match av_Annotations vm !! ApplyPowerStateTimeAnnotation with
  | None => []
  | Some val => err_if (negb (time_Parse val)) KInvalid (key "metadata.annotations" ApplyPowerStateTimeAnnotation)
                  "must be formatted as RFC3339Nano"
  end.

(** ** The schema upgrade *)

(** One of the three annotations that record the upgrade. *)
Definition upgrade_annotation vm oldVM (k : string) : list VMError :=
  err_if (negb (bool_decide (anno vm k = "")) && negb (bool_decide (anno vm k = anno oldVM k))) KForbidden
    (key "metadata.annotations" k) modRestrictedAnnotation.

Definition validateAdvancedVMXFieldsNotChanged (newAdv oldAdv : option (AdvancedSpec Q)) : list VMError :=
  let vmx (a : option (AdvancedSpec Q)) := match a with Some a => adv_VMX a | None => ∅ end in
  concat ((λ kf, err_if (negb (bool_decide (vmx newAdv !! kf.2 = vmx oldAdv !! kf.2))) KForbidden
                   (child "spec.advanced" kf.2) notUpgradedText) <$> AdvancedVMXKeys).

Definition interfaces_of vm : list InterfaceSpec :=
  match av_Network vm with Some n => Interfaces n | None => [] end.

Definition validateNICBackfilledFieldsNotChanged vm oldVM : list VMError :=
  err_if (negb (bool_decide (interfaces_of vm = interfaces_of oldVM))) KForbidden "spec.network.interfaces"
    notUpgradedText.

Definition hardware_of vm : HardwareSpec := default emptyHardwareSpec (av_Hardware vm).

Definition validateFieldsDuringSchemaUpgrade vm oldVM : list VMError :=
  err_if (negb (bool_decide (av_BiosUUID vm = av_BiosUUID oldVM))) KForbidden "spec.biosUUID" notUpgradedText ++
  (if VMServiceClasslessVM (Features_ cfg) then
     validateAdvancedVMXFieldsNotChanged (av_Advanced vm) (av_Advanced oldVM) ++
     validateNICBackfilledFieldsNotChanged vm oldVM ++
     (VCompute <$> validateComputeConfigBackfilledFieldsNotChanged (av_Compute vm) (av_Compute oldVM))
   else []) ++
  (if VMSharedDisks (Features_ cfg) then
     let n := hardware_of vm in
     let o := hardware_of oldVM in
     err_if (negb (bool_decide (hs_IDE o = hs_IDE n))) KForbidden "spec.hardware.ideControllers" notUpgradedText ++
     err_if (negb (bool_decide (hs_NVME o = hs_NVME n))) KForbidden "spec.hardware.nvmeControllers" notUpgradedText ++
     err_if (negb (bool_decide (hs_SATA o = hs_SATA n))) KForbidden "spec.hardware.sataControllers" notUpgradedText ++
     err_if (negb (bool_decide (hs_SCSI o = hs_SCSI n))) KForbidden "spec.hardware.scsiControllers" notUpgradedText
   else []).

Definition validateSchemaUpgrade vm oldVM : list VMError :=
  if IsVMOperatorAccount rq || IsSystemMasters rq then []
  else
    upgrade_annotation vm oldVM UpgradedToBuildVersionAnnotationKey ++
    upgrade_annotation vm oldVM UpgradedToSchemaVersionAnnotationKey ++
    upgrade_annotation vm oldVM UpgradedToFeatureVersionAnnotationKey ++
    (if vm_upgraded oldVM then [] else validateFieldsDuringSchemaUpgrade vm oldVM).

(** ** Immutable fields *)

Definition validateImmutableReserved vm oldVM : list VMError :=
  ValidateImmutableField (default "" (av_ResourcePolicyName vm)) (default "" (av_ResourcePolicyName oldVM))
    "spec.reserved.resourcePolicyName".

Definition interface_immutable (i : nat) (p : InterfaceSpec * InterfaceSpec) : list VMError :=
  let path := index "spec.network.interfaces" i in
  err_if (negb (bool_decide (ni_Name p.1 = ni_Name p.2))) KForbidden (child path "name") FieldImmutableErrorMsg ++
  err_if (negb (bool_decide (ni_Network p.1 = ni_Network p.2))) KForbidden (child path "network")
    FieldImmutableErrorMsg ++
  ValidateImmutableField (ni_MACAddr p.1) (ni_MACAddr p.2) (child path "macAddr").

Definition validateImmutableNetwork vm oldVM : list VMError :=
  match av_Network oldVM, av_Network vm with
  | None, None => []
  | _, _ =>
    if MutableNetworks cfg then []
    else if negb (Nat.eqb (length (interfaces_of oldVM)) (length (interfaces_of vm)))
    then [VErr KForbidden "spec.network.interfaces" "network interfaces cannot be added or removed"]
    else if annotated vm FailedOverVMAnnotation then []
    else concat (imap interface_immutable (zip (interfaces_of vm) (interfaces_of oldVM)))
  end.

Definition validateImmutableVMAffinity vm oldVM : list VMError :=
  err_if (negb (bool_decide (av_Affinity vm = av_Affinity oldVM))) KForbidden "spec.affinity"
    "updating Affinity is not allowed".

Definition validateImmutableFields vm oldVM : list VMError :=
  validateImageOnUpdate vm oldVM ++
  validateClassOnUpdate vm oldVM ++
  ValidateImmutableField (av_StorageClass vm) (av_StorageClass oldVM) "spec.storageClass" ++
  (if bool_decide (av_BiosUUID oldVM = "") then []
   else ValidateImmutableField (av_BiosUUID vm) (av_BiosUUID oldVM) "spec.biosUUID") ++
  (if bool_decide (av_InstanceUUID oldVM = "") then []
   else ValidateImmutableField (av_InstanceUUID vm) (av_InstanceUUID oldVM) "spec.instanceUUID") ++
  validateImmutableReserved vm oldVM ++
  validateImmutableNetwork vm oldVM ++
  validateImmutableVMAffinity vm oldVM.

(** ** Zone, annotations, labels *)

Definition zone_path : string := key "metadata.labels" LabelTopologyZone.

Definition check_zone vm : list VMError :=
  let zoneName := lbl vm LabelTopologyZone in
  if bool_decide (zoneName = "") then []
  else if domain_isolation vm then
    match GetZone zoneName (av_Namespace vm) with
    | inl err => [VErr KInvalid zone_path (detail_of err)]
    | inr deleting =>
      err_if (deleting && negb (IsPrivilegedAccount rq) && negb (isCAPVServiceAccount (Username rq))) KInvalid
        zone_path "cannot use zone that is being deleted"
    end
  else match GetAvailabilityZone zoneName with
  | inl err => [VErr KInvalid zone_path (detail_of err)]
  | inr _ => []
  end.

Definition validateAvailabilityZone vm old : list VMError :=
  if negb (bool_decide (old_lbl old LabelTopologyZone = "")) then
    if IsPrivilegedAccount rq then []
    else ValidateImmutableField (lbl vm LabelTopologyZone) (old_lbl old LabelTopologyZone) zone_path
  else check_zone vm.

Definition annotation_kept vm old (k : string) : list VMError :=
  err_if (negb (bool_decide (anno vm k = old_anno old k))) KForbidden (key "metadata.annotations" k)
    modifyAnnotationNotAllowedForNonAdmin.

(** Annotations only privileged users change; the others of an existing VM,
    which is never the empty object. *)
Definition protected_annotations : list string :=
  [InstanceIDAnnotation; FirstBootDoneAnnotation; RestoredVMAnnotation; FailedOverVMAnnotation;
   ImportedVMAnnotation] ++ AnnotationsToExtraConfigKeys.
Definition protected_on_update : list string :=
  [CreatedAtBuildVersionAnnotationKey; CreatedAtSchemaVersionAnnotationKey; ClusterModuleNameAnnotationKey].

Definition validateAnnotation vm old : list VMError :=
  err_if (negb (bool_decide (anno vm ClusterModuleNameAnnotationKey = "")) &&
          bool_decide (default "" (av_ResourcePolicyName vm) = "")) KForbidden
    (key "metadata.annotations" ClusterModuleNameAnnotationKey)
    "cluster module assignment requires spec.reserved.resourcePolicyName to specify a VirtualMachineSetResourcePolicy" ++
  (if IsPrivilegedAccount rq then []
   else concat (annotation_kept vm old <$> protected_annotations) ++
        match old with
        | None => []
        | Some _ => concat (annotation_kept vm old <$> protected_on_update)
        end).

Definition validateLabel vm old : list VMError :=
  if IsPrivilegedAccount rq then []
  else err_if (negb (bool_decide (lbl vm PausedVMLabelKey = old_lbl old PausedVMLabelKey))) KForbidden
         (child "metadata.labels" PausedVMLabelKey) "modifying this label is not allowed for non-admin users".

Definition check_removed vm (prefix : string) (kv : string * string) : list VMError :=
  err_if (HasPrefix kv.1 prefix && negb (annotated vm kv.1)) KForbidden (child "metadata.annotations" kv.1)
    delRestrictedAnnotation.

Definition check_added old (prefix : string) (allowAddOnCreate : bool) (kv : string * string) : list VMError :=
  let p := child "metadata.annotations" kv.1 in
  if negb (HasPrefix kv.1 prefix) then []
  else match old with
  | None => err_if (negb allowAddOnCreate) KForbidden p addRestrictedAnnotation
  | Some oldVM =>
    match av_Annotations oldVM !! kv.1 with
    | None => [VErr KForbidden p addRestrictedAnnotation]
    | Some oldVal => err_if (negb (bool_decide (oldVal = kv.2))) KForbidden p modRestrictedAnnotation
    end
  end.

Definition validateChecksAnnotation vm old (prefix : string) (allowAddOnCreate : bool) : list VMError :=
  if IsPrivilegedAccount rq then []
  else
    match old with
    | Some oldVM => concat (check_removed vm prefix <$> map_to_list (av_Annotations oldVM))
    | None => []
    end ++
    concat (check_added old prefix allowAddOnCreate <$> map_to_list (av_Annotations vm)).

Definition validateChecks vm old : list VMError :=
  validateChecksAnnotation vm old (CheckAnnotationPowerOn +:+ "/") true ++
  validateChecksAnnotation vm old (CheckAnnotationDelete +:+ "/") false.

(** ** Hardware version, boot options, snapshot, group *)

Definition validateMinHardwareVersion vm old : list VMError :=
  let p := "spec.minHardwareVersion" in
  err_if (MaxValidHardwareVersion <? HardwareVersion (av_MinHardwareVersion vm)) KInvalid p "not supported" ++
  match old with
  | None => []
  | Some oldVM =>
    let oldHV := av_MinHardwareVersion oldVM in
    let newHV := av_MinHardwareVersion vm in
    err_if (newHV <? oldHV) KInvalid p "cannot downgrade hardware version" ++
    err_if ((oldHV <? newHV) && negb (bool_decide (av_PowerState oldVM = VirtualMachinePowerStateOff)) &&
            negb (bool_decide (av_PowerState vm = VirtualMachinePowerStateOff))) KInvalid p
      "cannot upgrade hardware version unless powered off"
  end.

Definition BootableNetworkDevice : string := "Network".
Definition BootableDiskDevice : string := "Disk".
Definition BootableCDRomDevice : string := "CDRom".

Definition boot_path : string := "spec.bootOptions.bootOrder".

(** The switch on the type of a device. *)
Definition check_boot_device vm (i : nat) (bd : BootableDevice) : list VMError :=
  let p := index boot_path i in
  if bool_decide (bd_Type bd = BootableNetworkDevice) then
    match av_Network vm with
    | None => [VErr KInvalid p "cannot specify network device when vm.spec.network is empty"]
    | Some n => err_if (negb (bool_decide (bd_Name bd ∈ ni_Name <$> Interfaces n))) KInvalid p
                  "bootable network device was not found in vm.Spec.Network.Interfaces"
    end
  else if bool_decide (bd_Type bd = BootableDiskDevice) then
    err_if (negb (bool_decide (bd_Name bd ∈ av_StatusVolumes vm))) KInvalid p
      "bootable disk device was not found in vm.Status.Volumes"
  else if bool_decide (bd_Type bd = BootableCDRomDevice) then
    err_if (bool_decide (cdroms_of vm = [])) KInvalid p "no CD-ROM device(s) defined for this VM"
  else [VErr KInvalid (child p "type") "unsupported bootable device type"].

Fixpoint check_boot_order vm (i : nat) (seen : gset string) (bds : list BootableDevice) : list VMError :=
  match bds with
  | [] => []
  | bd :: bds =>
    let named := bool_decide (bd_Type bd = BootableNetworkDevice) || bool_decide (bd_Type bd = BootableDiskDevice) in
    if named && bool_decide (bd_Name bd = "") then
      VErr KRequired (child (index boot_path i) "name") "name must not be empty" :: check_boot_order vm (S i) seen bds
    else if decide (bd_Name bd ∈ seen) then
      VErr KDuplicate (index boot_path i) (bd_Name bd) :: check_boot_order vm (S i) seen bds
    else check_boot_device vm i bd ++ check_boot_order vm (S i) ({[bd_Name bd]} ∪ seen) bds
  end.

Definition validateBootOrder vm (order : list BootableDevice) (create : bool) : list VMError :=
  if create then [VErr KForbidden boot_path "when creating a VM"] else check_boot_order vm 0 ∅ order.

Definition validateBootOptions vm old : list VMError :=
  match av_BootOptions vm with
  | None => []
  | Some bo =>
    match BootOrder bo with
    | Some order => validateBootOrder vm order (match old with None => true | Some _ => false end)
    | None => []
    end ++
    err_if (bool_decide (is_Some (BootRetryDelay bo)) && negb (bool_decide (BootRetry bo = "Enabled"))) KRequired
      "spec.bootOptions.bootRetry" "bootRetry must be set when setting bootRetryDelay" ++
    err_if (bool_decide (EFISecureBoot bo = "Enabled") && negb (bool_decide (Firmware bo = "efi"))) KForbidden
      "spec.bootOptions.efiSecureBoot" "cannot set efiSecureBoot when image firmware is not 'efi'"
  end.

Definition snapshot_path : string := "spec.currentSnapshotName".

Definition validateSnapshot vm old : list VMError :=
  let name := av_CurrentSnapshotName vm in
  if bool_decide (name = "") then []
  else match old with
  | None => [VErr KForbidden snapshot_path "creating VM with current snapshot is not allowed"]
  | Some oldVM =>
    if blank name then [VErr KInvalid snapshot_path "currentSnapshotName cannot be empty"]
    else
      err_if (negb (bool_decide (av_CurrentSnapshotName oldVM = "")) &&
              negb (bool_decide (av_CurrentSnapshotName oldVM = name))) KForbidden snapshot_path
        "a snapshot revert is already in progress" ++
      err_if (HasCAPILabels (av_Labels vm)) KForbidden snapshot_path "snapshot revert is not allowed for VKS nodes"
  end.

Definition validateGroupName vm : list VMError :=
  err_if (negb (bool_decide (av_GroupName vm = "")) && negb (VMGroups cfg)) KInvalid "spec.groupName"
    "the VM Groups feature is not enabled".

Definition validateBiosUUID vm : list VMError :=
  err_if (negb (bool_decide (av_BiosUUID vm = "")) && negb (uuid_Validate (av_BiosUUID vm))) KInvalid "spec.biosUUID"
    "must provide a valid UUID".

(** ** Affinity *)

Definition hasRequiredDuringExecutionPolicy (namespace : string) : goerror + bool :=
  match ListExecutionPolicies namespace with
  | inl err => inl (Wrapped ("failed to list RequiredDuringExecutionVMPlacementPolicies in " +:+ namespace) err)
  | inr items => inr (negb (bool_decide (items = [])))
  end.

Definition has_required_required (a : option AffinityRules) : bool :=
  match a with Some a => negb (bool_decide (RequiredRequired a = [])) | None => false end.

Definition validateRequiredDuringExecution vm (affinity : AffinitySpec) : list VMError :=
  let fields :=
    (if has_required_required (VMAffinity affinity)
     then ["spec.affinity.vmAffinity.requiredDuringSchedulingRequiredDuringExecution"] else []) ++
    (if has_required_required (VMAntiAffinity affinity)
     then ["spec.affinity.vmAntiAffinity.requiredDuringSchedulingRequiredDuringExecution"] else []) in
  match fields with
  | [] => []
  | first :: _ =>
    if negb (VMHardAffinityDuringExecution cfg)
    then (λ p, VErr KForbidden p "requiredDuringSchedulingRequiredDuringExecution is not supported") <$> fields
    else match hasRequiredDuringExecutionPolicy (av_Namespace vm) with
    | inl err => [VErr KInternal first (detail_of err)]
    | inr true => []
    | inr false =>
      (λ p, VErr KForbidden p "requiredDuringSchedulingRequiredDuringExecution requires a RequiredDuringExecutionVMPlacementPolicy in the namespace") <$> fields
    end
  end.

Definition operatorLabels : string :=
  "label selector can not contain VM Operator managed labels (vmoperator.vmware.com)".

Definition check_expression (p : string) (i : nat) (e : LabelExpression) : list VMError :=
  let p := index (child p "matchExpressions") i in
  if negb (bool_decide (ex_Operator e = "In")) then [VErr KNotSupported (child p "operator") (ex_Operator e)]
  else err_if (HasVMOperatorLabels {[ex_Key e := ""]}) KForbidden (child p "key") operatorLabels.

(** The body of each of the four loops over terms, with the topology keys it
    allows. *)
Definition check_term (allowed : list string) (p : string) (i : nat) (rs : AffinityTerm) : list VMError :=
  let p := index p i in
  match LabelSelector_ rs with
  | Some sel =>
    let p := child p "labelSelector" in
    err_if (HasVMOperatorLabels (MatchLabels sel)) KForbidden (child p "matchLabels") operatorLabels ++
    concat (imap (check_expression p) (MatchExpressions sel))
  | None => []
  end ++
  err_if (negb (bool_decide (TopologyKey rs ∈ allowed))) KNotSupported (child p "topologyKey") (TopologyKey rs).

Definition check_terms (allowed : list string) (p : string) (ts : list AffinityTerm) : list VMError :=
  concat (imap (check_term allowed p) ts).

Definition validateVMAffinity vm : list VMError :=
  match av_Affinity vm with
  | None => []
  | Some affinity =>
    let any := [LabelTopologyZone; LabelHostname] in
    let keys (b : bool) := if b then any else [LabelTopologyZone] in
    err_if (bool_decide (av_GroupName vm = "") && negb (VMHardAffinityDuringExecution cfg)) KRequired
      "spec.groupName" "when setting affinity" ++
    validateRequiredDuringExecution vm affinity ++
    match VMAffinity affinity with
    | None => []
    | Some a =>
      let p := "spec.affinity.vmAffinity" in
      check_terms (keys (VMAffinityDuringExecution cfg))
        (child p "requiredDuringSchedulingPreferredDuringExecution") (RequiredPreferred a) ++
      check_terms (keys (VMAffinityDuringExecution cfg))
        (child p "preferredDuringSchedulingPreferredDuringExecution") (PreferredPreferred a)
    end ++
    match VMAntiAffinity affinity with
    | None => []
    | Some a =>
      let p := "spec.affinity.vmAntiAffinity" in
      check_terms (keys (IsPrivilegedAccount rq || VMAffinityDuringExecution cfg))
        (child p "requiredDuringSchedulingPreferredDuringExecution") (RequiredPreferred a) ++
      check_terms any (child p "preferredDuringSchedulingPreferredDuringExecution") (PreferredPreferred a)
    end
  end.

(** ** Controllers *)

Definition controllers_view vm : VirtualMachine :=
  mkVM (av_Annotations vm) (av_PowerState vm) (hw_base <$> av_Hardware vm) (av_Base <$> av_Volumes vm).

(** [conflicts] is [validateControllerConflictsOnCreate], which reads the class
    and the image. *)
Definition validateHardware (conflicts : AdmissionVM Q → list VMError) vm old : list VMError :=
  match old with
  | None => if VMSharedDisks (Features_ cfg) then conflicts vm else []
  | Some _ => []
  end ++
  validateCdrom vm old ++
  (VController <$> validateControllers (BuildVersion cfg) SchemaVersion (Features_ cfg) (controllers_view vm)
     (controllers_view <$> old)).
End Validators.
