(* ===== verification/VMVolumeValidator.v ===== *)
(** * The validation webhook of VMs: volumes

    [validateVolumes] and what it calls in
    webhooks/virtualmachine/validation/virtualmachine_validator.go.  The shared
    volume rules dereference the bus number of a volume without a check; a nil
    one panics, and is [Panic] here. *)

From S2P Require Import Prelude Conditions Features Hardware NicMutator CdromMutator HardwareValidator.
From S2P Require Import GoErrors VMGroup Compute Volumes AdmissionVM VMMutator VMValidator.
Local Open Scope Z_scope.
Local Open Scope go_scope.

Abbreviation errors := (outcome Empty_set (list VMError)).

Section VolumeValidators.
Context {Q : Type} `{Quantity Q} `{WebhookAPI}.
Context (cfg : WebhookConfig) (rq : WebhookRequest).
Implicit Types vm oldVM : AdmissionVM Q.
Implicit Types old : option (AdmissionVM Q).
Implicit Types (vol : AdmissionVolume).

Definition volumes_path : string := "spec.volumes".

(** The volumes by name, without the unnamed ones; a later one wins. *)
Definition volumes_map (vols : list AdmissionVolume) : gmap string AdmissionVolume :=
  foldl (λ m v, if bool_decide (av_VolName v = "") then m else <[av_VolName v := v]> m) ∅ vols.

Definition validateControllerFields vol old (p : string) : list VMError :=
  let v := av_Base vol in
  let update := match old with Some _ => true | None => false end in
  let hasUnit := bool_decide (is_Some (vol_UnitNumber v)) in
  let hasBus := bool_decide (is_Some (vol_ControllerBusNumber v)) in
  let hasType := negb (bool_decide (vol_ControllerType v = NoControllerType)) in
  err_if (update && negb hasUnit) KRequired (child p "unitNumber") "" ++
  err_if ((update || hasUnit || hasBus) && negb hasType) KRequired (child p "controllerType") "" ++
  err_if ((update || hasUnit || hasType) && negb hasBus) KRequired (child p "controllerBusNumber") "".

Definition MultiWriter : string := "MultiWriter".
Definition IndependentPersistent : string := "IndependentPersistent".

Definition controller_of vm vol : option Controller :=
  match vol_ControllerBusNumber (av_Base vol) with
  | Some b =>
    if bool_decide (vol_ControllerType (av_Base vol) = NoControllerType) then None
    else Get (NewControllerSpecs (hw_base <$> av_Hardware vm)) (vol_ControllerType (av_Base vol)) b
  | None => None
  end.

Definition validateApplicationFields vm vol (p : string) : list VMError :=
  let v := av_Base vol in
  match ApplicationType v with
  | VolumeApplicationTypeOracleRAC =>
    err_if (negb (bool_decide (SharingMode v = MultiWriter))) KInvalid (child p "sharingMode")
      "SharingMode must be MultiWriter for OracleRAC volumes" ++
    err_if (negb (bool_decide (DiskMode v = IndependentPersistent))) KInvalid (child p "diskMode")
      "DiskMode must be IndependentPersistent for OracleRAC volumes"
  | VolumeApplicationTypeMicrosoftWSFC =>
    err_if (negb (bool_decide (DiskMode v = IndependentPersistent))) KInvalid (child p "diskMode")
      "DiskMode must be IndependentPersistent for MicrosoftWSFC volumes" ++
    match controller_of vm vol with
    | Some c =>
      err_if (negb (bool_decide (GetControllerSharingMode c = VirtualControllerSharingModePhysical))) KInvalid
        (child p "applicationType") "Controller sharing mode must be Physical for a MicrosoftWSFC volume"
    | None => []
    end
  | OtherApplicationType _ => []
  end.

Definition validateVolumeImmutableFields vol oldVol (p : string) : list VMError :=
  let v := av_Base vol in
  let o := av_Base oldVol in
  ValidateImmutableField (ApplicationType v) (ApplicationType o) (child p "applicationType") ++
  ValidateImmutableField (vol_ControllerBusNumber v) (vol_ControllerBusNumber o) (child p "controllerBusNumber") ++
  ValidateImmutableField (vol_ControllerType v) (vol_ControllerType o) (child p "controllerType") ++
  ValidateImmutableField (DiskMode v) (DiskMode o) (child p "diskMode") ++
  ValidateImmutableField (SharingMode v) (SharingMode o) (child p "sharingMode") ++
  ValidateImmutableField (vol_UnitNumber v) (vol_UnitNumber o) (child p "unitNumber").

Definition getControllerSharingMode vm vol : VirtualControllerSharingMode :=
  match controller_of vm vol with
  | Some c => GetControllerSharingMode c
  | None => DefaultControllerSharingMode (av_Base vol)
  end.

(** An error whose value is [fmt.Sprintf("%s:%d", type, *bus)]. *)
Definition bus_error (b : bool) vol (p detail : string) : errors :=
  if negb b then Ok []
  else match vol_ControllerBusNumber (av_Base vol) with
  | None => Panic
  | Some _ => Ok [VErr KInvalid (child p "controllerBusNumber") detail]
  end.

(** What the rules read of the claim; [None] when there is nothing to check. *)
Definition read_claim vm vol (p : string) : list VMError + option (bool * bool) :=
  match av_PVC vol with
  | None => inr (Some (false, false))
  | Some pvc =>
    match GetPVCObject (av_Namespace vm) (ClaimName pvc) with
    | inl err => if IsNotFound err then inr None
                 else inl [VErr KInvalid (child p "persistentVolumeClaim.claimName") (detail_of err)]
    | inr obj =>
      inr (Some (bool_decide ("ReadWriteMany" ∈ AccessModes obj),
        match StorageClassName obj with
        | None => false
        | Some sc => match IsEncryptedStorageClass sc with inl _ => false | inr b => b end
        end))
    end
  end.

Definition shared_rules vm vol (p : string) (pvcShared pvcEncrypted : bool) : errors :=
  let v := av_Base vol in
  let volShared := bool_decide (SharingMode v = MultiWriter) in
  let sharingMode := getControllerSharingMode vm vol in
  let controllerShared := bool_decide (vol_ControllerType v = VirtualControllerTypeSCSI) &&
    (bool_decide (sharingMode = VirtualControllerSharingModePhysical) ||
     bool_decide (sharingMode = VirtualControllerSharingModeVirtual)) in
  let e1 := err_if (pvcEncrypted && volShared) KInvalid (child p "sharingMode")
              "MultiWriter disk sharing is not supported for encrypted volumes" in
  let? e2 := bus_error (pvcEncrypted && controllerShared) vol p
               "Controller with this sharing mode is not supported for encrypted volumes" in
  match ApplicationType v with
  | OtherApplicationType _ => Ok (e1 ++ e2)
  | _ =>
    let e3 := err_if (negb pvcShared && volShared) KInvalid (child p "sharingMode")
                "MultiWriter sharing mode is not allowed for ReadWriteOnce volume" in
    let? e4 := bus_error (negb pvcShared && controllerShared) vol p
                 "Controller with this sharing mode is not allowed for ReadWriteOnce volume" in
    let e5 := err_if (pvcShared && negb volShared &&
                      negb (bool_decide (vol_ControllerType v = NoControllerType)) && negb controllerShared) KInvalid
                (child p "sharingMode") "ReadWriteMany PVC must have a shared volume or controller" in
    Ok (e1 ++ e2 ++ e3 ++ e4 ++ e5)
  end.

Definition validateSharedVolumesOrControllers vm vol (p : string) : errors :=
  match read_claim vm vol p with
  | inl errs => Ok errs
  | inr None => Ok []
  | inr (Some (pvcShared, pvcEncrypted)) => shared_rules vm vol p pvcShared pvcEncrypted
  end.

Definition validateVolume vm old (oldVol : option AdmissionVolume) vol (p : string) : errors :=
  let e1 := match av_PVC vol with
            | Some pvc =>
              err_if (ReadOnly pvc) KNotSupported (child p "persistentVolumeClaim.readOnly") "false" ++
              err_if (bool_decide (ClaimName pvc = "")) KRequired (child p "persistentVolumeClaim.claimName") ""
            | None => []
            end in
  if negb (VMSharedDisks (Features_ cfg)) && negb (AllDisksArePVCs (Features_ cfg)) then Ok e1
  else
    let e2 := match oldVol with
              | Some o => if bool_decide (av_VolName o = av_VolName vol)
                          then validateVolumeImmutableFields vol o p else []
              | None => []
              end in
    let e3 := validateApplicationFields vm vol p in
    let volumeChanged := negb (bool_decide (oldVol = Some vol)) in
    let hardwareChanged :=
      match oldVol, old with
      | Some _, Some oldVM => negb (bool_decide (av_Hardware oldVM = av_Hardware vm))
      | _, _ => true
      end in
    let? e4 := if volumeChanged || hardwareChanged then validateSharedVolumesOrControllers vm vol p else Ok [] in
    Ok (e1 ++ e2 ++ e3 ++ e4 ++ validateControllerFields vol old p).

(** Backfilled from a classic disk: no claim, but a target. *)
Definition isBackfilledVolume vol : bool :=
  match av_PVC vol with
  | Some _ => false
  | None => negb (bool_decide (GetTargetID (vol_ControllerType (av_Base vol))
              (vol_ControllerBusNumber (av_Base vol)) (vol_UnitNumber (av_Base vol)) = ""))
  end.

Definition validateBackfilledVolumesNotRemoved vm old : list VMError :=
  match old with
  | None => []
  | Some oldVM =>
    concat ((λ o, err_if (negb (bool_decide (av_VolName o = "")) && isBackfilledVolume o &&
                          negb (bool_decide (is_Some (volumes_map (av_Volumes vm) !! av_VolName o)))) KForbidden
                    volumes_path (av_VolName o +:+ ": removing volume backfilled from classic disk is not allowed"))
            <$> av_Volumes oldVM)
  end.

Definition removable_kept vm (i : nat) (o : AdmissionVolume) : list VMError :=
  err_if (negb (bool_decide (av_VolName o = "")) &&
          negb (bool_decide (is_Some (volumes_map (av_Volumes vm) !! av_VolName o))) &&
          bool_decide (av_Removable o = Some false)) KForbidden (index volumes_path i)
    "cannot remove volume with removable=false".

(** The claim name that counts for duplicates. *)
Definition claim_name vol : option string :=
  match av_PVC vol with
  | Some pvc => if bool_decide (ClaimName pvc = "") then None else Some (ClaimName pvc)
  | None => None
  end.

Fixpoint check_volume_list vm old (oldVolumes : gmap string AdmissionVolume) (i : nat) (names claims : gset string)
    (vols : list AdmissionVolume) : errors :=
  match vols with
  | [] => Ok []
  | vol :: vols =>
    let p := index volumes_path i in
    let name := av_VolName vol in
    let e1 :=
      if bool_decide (name = "") then [VErr KRequired (child p "name") ""]
      else err_if (bool_decide (name ∈ names)) KDuplicate (child p "name") name ++
           ((λ msg, VErr KInvalid (child p "name") msg) <$>
              NameIsDNSSubdomain (CNSAttachmentNameForVolume (av_Name vm) name)) in
    let e2 := match claim_name vol with
              | Some c => err_if (bool_decide (c ∈ claims)) KDuplicate (child p "persistentVolumeClaim.claimName") c
              | None => []
              end in
    let? e3 := validateVolume vm old (oldVolumes !! name) vol p in
    let? rest := check_volume_list vm old oldVolumes (S i)
                   (if bool_decide (name = "") then names else {[name]} ∪ names)
                   (match claim_name vol with Some c => {[c]} ∪ claims | None => claims end) vols in
    Ok (e1 ++ e2 ++ e3 ++ rest)
  end.

Definition validateVolumes vm old : errors :=
  if IsVMOperatorAccount rq then Ok []
  else if match old with Some oldVM => negb (upgraded cfg oldVM) | None => false end then Ok []
  else
    let oldVols := match old with Some oldVM => av_Volumes oldVM | None => [] end in
    let e1 := concat (imap (removable_kept vm) oldVols) in
    let? e2 := check_volume_list vm old (volumes_map oldVols) 0 ∅ ∅ (av_Volumes vm) in
    Ok (e1 ++ e2 ++ validateBackfilledVolumesNotRemoved vm old).

Definition instance_storage_volumes vm : list AdmissionVolume :=
  filter (λ v, is_Some (av_PVC v ≫= InstanceVolumeClaim)) (av_Volumes vm).

Definition validateInstanceStorageVolumes vm old : list VMError :=
  if IsPrivilegedAccount rq then []
  else
    let oldVols := match old with Some oldVM => instance_storage_volumes oldVM | None => [] end in
    err_if (negb (bool_decide (instance_storage_volumes vm = oldVols))) KForbidden volumes_path
      "adding or modifying instance storage volume claim(s) is not allowed".
End VolumeValidators.
