(* ===== verification/VMNetworkValidator.v ===== *)
(** * The validation webhook of VMs: network and bootstrap

    [validateNetwork], [validateBootstrap], the bootstrap provider and the host
    name in webhooks/virtualmachine/validation/virtualmachine_validator.go and
    pkg/util/vmopv1/network.go.  Addresses are parsed by the net package, whose
    functions are parameters that return the address family. *)

From S2P Require Import Prelude Conditions Features Priority Hardware NicMutator CdromMutator.
From S2P Require Import GoErrors VMGroup Compute AdmissionVM VMMutator VMValidator.
Local Open Scope Z_scope.

(** [strings.Join]s of values quoted in errors are left out. *)
Section NetworkValidators.
Context {Q : Type} `{WebhookAPI}.
Context (cfg : WebhookConfig) (rq : WebhookRequest).
Implicit Types vm oldVM : AdmissionVM Q.

Definition network_path : string := "spec.network".
Definition ifaces_path : string := "spec.network.interfaces".

Definition cloud_init vm : option CloudInitSpec := av_Bootstrap vm ≫= CloudInit.
Definition linux_prep vm : option LinuxPrepSpec := av_Bootstrap vm ≫= LinuxPrep.
Definition sys_prep vm : option SysprepSpec := av_Bootstrap vm ≫= Sysprep.
Definition vapp_config vm : option VAppConfigSpec := av_Bootstrap vm ≫= VAppConfig.
Definition given {A} (x : option A) : bool := match x with Some _ => true | None => false end.
Definition nonempty {A} (l : list A) : bool := match l with [] => false | _ => true end.

(** ** References to networks *)

Record networkProviderValidation := mkProviderValidation {
  pv_group : string; pv_apiVersion : string; pv_kinds : list string }.

Definition networkProviderValidations (t : string) : option networkProviderValidation :=
  if bool_decide (t = NetworkProviderTypeVDS)
  then Some (mkProviderValidation netop_GroupVersion.1 (gv_String netop_GroupVersion) ["Network"])
  else if bool_decide (t = NetworkProviderTypeNSXT)
  then Some (mkProviderValidation ncp_GroupVersion.1 (gv_String ncp_GroupVersion) ["VirtualNetwork"])
  else if bool_decide (t = NetworkProviderTypeVPC)
  then Some (mkProviderValidation vpc_GroupVersion.1 (gv_String vpc_GroupVersion) ["Subnet"; "SubnetSet"])
  else None.

Definition validateNetworkInterfaceNetworkRef (providerTypes : list string) (p group kind : string) :
    list VMError :=
  let validations := omap networkProviderValidations providerTypes in
  match validations with
  | [] => []
  | _ =>
    match find (λ v, bool_decide (group = pv_group v)) validations with
    | None => [VErr KNotSupported (child p "network.apiVersion") "supported versions"]
    | Some matched => err_if (negb (bool_decide (kind ∈ pv_kinds matched))) KNotSupported (child p "network.kind") kind
    end
  end.

(** ** VMXNet3 and advanced properties *)

(** [strconv.Atoi] followed by the test of a power of two. *)
Definition isPowerOf2String (s : string) : bool :=
  match Atoi s with
  | None => false
  | Some n => if n <=? 0 then false else Z.land n (n - 1) =? 0
  end.

(** [strconv.ParseUint] in base 10 with 32 bits. *)
Definition ParseUint32 (s : string) : option Z :=
  match s with
  | EmptyString => None
  | _ => match parse_digits s 0 with
         | Some n => if n <=? 2 ^ 32 - 1 then Some n else None
         | None => None
         end
  end.

Definition check_feature (p : string) (i : nat) (feature : string) : list VMError :=
  err_if (negb (bool_decide (feature = "LargeReceiveOffload")) &&
          negb (bool_decide (feature = "ReceiveSideScaling")) && negb (isPowerOf2String feature)) KInvalid
    (index (child p "pnicFeatures") i) "must be a known enum value or a power-of-2 integer".

Definition validateVMXNet3Spec (p : string) (s : VMXNet3Spec) : list VMError :=
  concat (imap (check_feature p) (PNICFeatures s)) ++
  match CoalescingScheme s, CoalescingParams s with
  | Some scheme, Some params =>
    err_if (bool_decide (scheme = "RateBasedCoalescing") && negb (given (ParseUint32 params))) KInvalid
      (child p "coalescingParams") "must be a valid 32-bit unsigned integer"
  | _, _ => []
  end.

Definition systemReservedNetworkDeviceProperties : list string :=
  ["address"; "addresstype"; "allowguestconnectioncontrol"; "devname"; "dvs.connectionid"; "dvs.portgroupid";
   "dvs.portid"; "dvs.switchid"; "externalid"; "filename"; "generatedaddress"; "key"; "limit"; "measurelatency";
   "migrateconnect"; "name"; "networkname"; "opaquenetwork.id"; "opaquenetwork.type"; "present"; "pxm"; "realtime";
   "reservation"; "rtdisableoffload"; "rtmaxrxqueues"; "rtmaxtxqueues"; "rtrxdataringdescsize";
   "rttxdataringdescsize"; "shares"; "startconnected"; "upt"; "uptcompatibility"; "virtualdev"; "vnet";
   "wakeonpcktrcv"].

Definition check_nic_property (p : string) (i : nat) (kv : string * string) : list VMError :=
  let p := child (index p i) "key" in
  if IsFirstClassVMXnet3NICKey kv.1
  then [VErr KForbidden p (kv.1 +:+ ": use the corresponding first-class field in spec.network.interfaces[].vmxnet3 instead")]
  else if IsEthernetDeviceKey kv.1
  then [VErr KForbidden p (kv.1 +:+ ": use the bare key name without the network device prefix")]
  else err_if (bool_decide (kv.1 ∈ systemReservedNetworkDeviceProperties)) KForbidden p
         (kv.1 +:+ ": this key is reserved for the system").

Definition validateNetworkInterfaceAdvancedProperties (p : string) (props : list (string * string)) :
    list VMError :=
  concat (imap (check_nic_property p) props).

(** ** An interface *)

Definition is_family (f : IPFamily) (x : option IPFamily) : bool := bool_decide (x = Some f).

Definition parse_address (cidr : string) : option IPFamily :=
  match ParseCIDR cidr with inl _ => None | inr f => Some f end.

Definition check_address (p : string) (i : nat) (cidr : string) : list VMError :=
  match ParseCIDR cidr with
  | inl err => [VErr KInvalid (index (child p "addresses") i) (detail_of err)]
  | inr _ => []
  end.

Definition check_gateway (f : IPFamily) (p : string) (addrs : list IPFamily) (gw : string) : list VMError :=
  if bool_decide (gw = "") || bool_decide (gw = "None") then []
  else
    err_if (negb (bool_decide (f ∈ addrs))) KInvalid p "must have an address of its family in the addresses field" ++
    err_if (negb (is_family f (ParseIP gw))) KInvalid p "must be a valid address of its family".

Definition check_dhcp (f : IPFamily) (p dhcpName gwName : string) (addrs : list IPFamily) (dhcp : option bool)
    (gw : string) : list VMError :=
  if negb (bool_decide (dhcp = Some true)) then []
  else
    err_if (bool_decide (f ∈ addrs)) KInvalid (child p dhcpName) "cannot be used with addresses of its family" ++
    err_if (negb (bool_decide (gw = ""))) KInvalid (child p gwName) "mutually exclusive with dhcp".

Definition check_nameserver (p : string) (i : nat) (n : string) : list VMError :=
  err_if (negb (given (ParseIP n))) KInvalid (index (child p "nameservers") i) "must be an IPv4 or IPv6 address".

(** [toIP] of a route to an unparsable network is nil. *)
Definition check_route (p : string) (i : nat) (r : Route) : list VMError :=
  let p := index (child p "routes") i in
  let to := if bool_decide (rt_To r = "default") then inr None
            else match ParseCIDR (rt_To r) with inl err => inl err | inr f => inr (Some f) end in
  let via := ParseIP (rt_Via r) in
  match to with inl err => [VErr KInvalid (child p "to") (detail_of err)] | inr _ => [] end ++
  err_if (negb (given via)) KInvalid (child p "via") "must be an IPv4 or IPv6 address" ++
  match to with
  | inr (Some f) =>
    err_if (negb (Bool.eqb (bool_decide (f = IPv4)) (is_family IPv4 via))) KInvalid p "cannot mix IP address families"
  | _ => []
  end.

Definition validateNetworkInterfaceSpec (vmName : string) (providerTypes : list string) (p : string)
    (i : InterfaceSpec) : list VMError :=
  let n := default (mkPartialRef "" "" "") (ni_Network i) in
  let '(e1, group) :=
    if bool_decide (po_APIVersion n = "") then ([], "")
    else match ParseGroupVersion (po_APIVersion n) with
         | inl err => ([VErr KInvalid (child p "network.apiVersion") (detail_of err)], "")
         | inr gv => ([], gv.1)
         end in
  let e2 := if negb (bool_decide (group = "")) && negb (bool_decide (po_Kind n = ""))
            then validateNetworkInterfaceNetworkRef providerTypes p group (po_Kind n) else [] in
  let crName := if bool_decide (po_Name n = "") then vmName +:+ "-" +:+ ni_Name i
                else vmName +:+ "-" +:+ po_Name n +:+ "-" +:+ ni_Name i in
  let e3 := (λ msg, VErr KInvalid (child p "name") ("is the resulting network interface name: " +:+ msg)) <$>
              NameIsDNSSubdomain crName in
  let e4 := err_if (negb (bool_decide (ni_MACAddr i = "")) && negb (bool_decide (group = vpc_GroupVersion.1))) KInvalid
              (child p "macAddr") "macAddr is not available with this network provider" in
  let addrs := omap parse_address (ni_Addresses i) in
  e1 ++ e2 ++ e3 ++ e4 ++
  concat (imap (check_address p) (ni_Addresses i)) ++
  check_gateway IPv4 (child p "gateway4") addrs (ni_Gateway4 i) ++
  check_gateway IPv6 (child p "gateway6") addrs (ni_Gateway6 i) ++
  check_dhcp IPv4 p "dhcp4" "gateway4" addrs (ni_DHCP4 i) (ni_Gateway4 i) ++
  check_dhcp IPv6 p "dhcp6" "gateway6" addrs (ni_DHCP6 i) (ni_Gateway6 i) ++
  concat (imap (check_nameserver p) (ni_Nameservers i)) ++
  concat (imap (check_route p) (ni_Routes i)) ++
  (if VMServiceClasslessVM (Features_ cfg)
   then validateNetworkInterfaceAdvancedProperties (child p "advancedProperties") (ni_AdvancedProperties i) else []) ++
  err_if (nonempty (ni_IPAMModes i) && negb (WorkloadIPv6 cfg)) KForbidden (child p "ipamModes")
    "the WorkloadIPv6 feature is not enabled" ++
  match ni_VMXNet3 i with
  | None => []
  | Some s =>
    if negb (bool_decide (ni_Type i = VMXNet3Type))
    then [VErr KForbidden (child p "vmxnet3") "vmxnet3 configuration is only allowed when type is VMXNet3"]
    else validateVMXNet3Spec (child p "vmxnet3") s
  end.

Definition validateNetworkInterfaceSpecWithBootstrap vm (p : string) (i : InterfaceSpec) : list VMError :=
  let ci := given (cloud_init vm) in
  err_if (negb (bool_decide (ni_GuestDeviceName i = "")) && negb ci) KInvalid (child p "guestDeviceName")
    "available only with CloudInit" ++
  err_if (given (ni_MTU i) && negb ci) KInvalid (child p "mtu") "available only with CloudInit" ++
  err_if (nonempty (ni_Routes i) && negb ci) KInvalid (child p "routes") "available only with CloudInit" ++
  err_if (nonempty (ni_Nameservers i) && negb ci && negb (given (sys_prep vm))) KInvalid (child p "nameservers")
    "available only with CloudInit and Sysprep" ++
  err_if (nonempty (ni_SearchDomains i) && negb ci) KInvalid (child p "searchDomains")
    "available only with CloudInit".

(** ** The network *)

(** Global name servers or search domains need a provider that uses them. *)
Definition global_setting vm (l : list string) (use : CloudInitSpec → option bool) (p : string) : list VMError :=
  if negb (nonempty l) then []
  else match cloud_init vm with
  | Some ci => err_if (negb (default true (use ci))) KInvalid p "available only when used as default"
  | None => err_if (negb (given (linux_prep vm)) && negb (given (sys_prep vm))) KInvalid p
              "available only with LinuxPrep and Sysprep"
  end.

Definition validateNetworkSpecWithBootStrap vm (n : NetworkSpec) : list VMError :=
  global_setting vm (nw_Nameservers n) UseGlobalNameserversAsDefault (child network_path "nameservers") ++
  global_setting vm (nw_SearchDomains n) UseGlobalSearchDomainsAsDefault (child network_path "searchDomains").

(** The key of an interface with a network: name, network and kind. *)
Definition interface_key (i : InterfaceSpec) : option string :=
  match ni_Network i with
  | None => None
  | Some n => Some (ni_Name i +:+ "::" +:+ po_Name n +:+ "::" +:+ po_Kind n)
  end.

Definition interfaces_to_macs (ifs : list InterfaceSpec) : gmap string string :=
  foldl (λ m i, match interface_key i with Some k => <[k := ni_MACAddr i]> m | None => m end) ∅ ifs.

Definition check_mac (macs : gmap string string) (i : nat) (s : InterfaceSpec) : list VMError :=
  match interface_key s ≫= (λ k, macs !! k) with
  | Some oldMAC => err_if (negb (bool_decide (ni_MACAddr s = oldMAC))) KInvalid (child (index ifaces_path i) "macAddr")
                     FieldImmutableErrorMsg
  | None => []
  end.

Definition validateNetworkInterfaceMacAddressNotChanged vm oldVM : list VMError :=
  if nonempty (interfaces_of vm) && nonempty (interfaces_of oldVM)
  then concat (imap (check_mac (interfaces_to_macs (interfaces_of oldVM))) (interfaces_of vm))
  else [].

Definition vlans_path : string := "spec.network.vlans".

Fixpoint check_vlans (names devices : list string) (i : nat) (used : gmap (string * Z) string) (vlans : list VLANSpec) :
    list VMError :=
  match vlans with
  | [] => []
  | v :: vlans =>
    let p := index vlans_path i in
    err_if (bool_decide (vl_Name v ∈ names)) KInvalid (child p "name")
      "vlan name must not conflict with an interface name" ++
    err_if (bool_decide (vl_Name v ∈ devices)) KInvalid (child p "name")
      "vlan name must not conflict with an interface guestDeviceName" ++
    if bool_decide (vl_Link v = "") then
      VErr KRequired (child p "link") "link must reference an interface name" ::
      check_vlans names devices (S i) used vlans
    else if negb (bool_decide (vl_Link v ∈ names)) then
      VErr KInvalid (child p "link") "link must reference an existing interface name" ::
      check_vlans names devices (S i) used vlans
    else match used !! (vl_Link v, vl_ID v) with
    | Some existing => VErr KInvalid (child p "id") existing :: check_vlans names devices (S i) used vlans
    | None => check_vlans names devices (S i) (<[(vl_Link v, vl_ID v) := vl_Name v]> used) vlans
    end
  end.

Definition validateNetworkVLANs vm (n : NetworkSpec) : list VMError :=
  if negb (VMVlanSubinterface cfg)
  then [VErr KForbidden vlans_path "the VLAN Sub Interface feature is not enabled"]
  else if negb (given (cloud_init vm))
  then [VErr KForbidden vlans_path "vlans is available only with the following bootstrap providers: CloudInit"]
  else check_vlans (ni_Name <$> Interfaces n)
         (filter (λ d, d ≠ "") (ni_GuestDeviceName <$> Interfaces n)) 0 ∅ (VLANs n).

Definition check_interface vm (providerTypes : list string) (k : nat) (i : InterfaceSpec) : list VMError :=
  validateNetworkInterfaceSpec (av_Name vm) providerTypes (index ifaces_path k) i ++
  validateNetworkInterfaceSpecWithBootstrap vm (index ifaces_path k) i.

Definition validateNetwork vm (old : option (AdmissionVM Q)) : goerror + list VMError :=
  match av_Network vm with
  | None => inr []
  | Some n =>
    let e1 := validateNetworkSpecWithBootStrap vm n ++ concat (imap (check_nameserver network_path) (nw_Nameservers n)) in
    match (if nonempty (Interfaces n) then
             match GetSupportedProviderTypes cfg (av_Namespace vm) with
             | inl err => inl err
             | inr types => inr (concat (imap (check_interface vm types) (Interfaces n)))
             end
           else inr []) with
    | inl err => inl err
    | inr e2 =>
      inr (e1 ++ e2 ++
        (if nonempty (VLANs n) then validateNetworkVLANs vm n else []) ++
        match old with
        | Some oldVM => if MutableNetworks cfg then validateNetworkInterfaceMacAddressNotChanged vm oldVM else []
        | None => []
        end)
    end
  end.

(** ** Host names: pkg/util/vmopv1/network.go *)

Definition ErrInvalidHostNameWindows : string := "host name may not exceed 15 characters for Windows".

Definition host_name vm : string :=
  match av_Network vm with
  | Some n => if bool_decide (HostName n = "") then av_Name vm else HostName n
  | None => av_Name vm
  end.

(** The path and the detail of the error. *)
Definition ValidateHostAndDomainName vm : option (string * string) :=
  let hostName := host_name vm in
  let domainName := match av_Network vm with Some n => DomainName n | None => "" end in
  let hostField := match av_Network vm with
                   | Some n => if bool_decide (HostName n = "") then "metadata.name" else "spec.network.hostName"
                   | None => "metadata.name"
                   end in
  let isWindowsVM := HasPrefix (av_GuestID vm) "win" || given (sys_prep vm) in
  if negb (IsValidHostName hostName) then Some (hostField, "host name must adhere to RFC-1123")
  else if negb (bool_decide (domainName = "")) && given (ParseIP hostName)
  then Some (hostField, "host name may not be IP address when domain name is non-empty")
  else if isWindowsVM && Nat.ltb 15 (String.length hostName) then Some (hostField, ErrInvalidHostNameWindows)
  else if negb (bool_decide (domainName = "")) && negb (IsValidDomainName domainName)
  then Some ("spec.network.domainName", "domain name must adhere to RFC-1123")
  else if negb (bool_decide (hostName = "")) && negb (bool_decide (domainName = "")) &&
          Nat.ltb 255 (String.length (hostName +:+ "." +:+ domainName))
  then Some ("spec.network", "host name and domain name combined exceed 255 characters")
  else None.

Definition validateNetworkHostAndDomainName vm (old : option (AdmissionVM Q)) : list VMError :=
  match ValidateHostAndDomainName vm with
  | None => []
  | Some (path, detail) =>
    match old with
    | Some oldVM =>
      if bool_decide (detail = ErrInvalidHostNameWindows) && given (sys_prep oldVM) &&
         Nat.ltb 15 (String.length (host_name oldVM))
      then [] else [VErr KInvalid path detail]
    | None => [VErr KInvalid path detail]
    end
  end.

(** ** Bootstrap *)

Definition bootstrap_path : string := "spec.bootstrap".
Definition providerChanged : string := "bootstrap provider type cannot be changed".

Definition validateBootstrapProviderImmutable vm oldVM : list VMError :=
  if IsPrivilegedAccount rq then []
  else match av_Bootstrap oldVM with
  | None => []
  | Some oldBS =>
    match av_Bootstrap vm with
    | None => [VErr KForbidden bootstrap_path providerChanged]
    | Some bs =>
      if given (CloudInit oldBS) && negb (given (CloudInit bs))
      then [VErr KForbidden (child bootstrap_path "cloudInit") providerChanged]
      else if given (LinuxPrep oldBS) && negb (given (LinuxPrep bs))
      then [VErr KForbidden (child bootstrap_path "linuxPrep") providerChanged]
      else err_if (given (Sysprep oldBS) && negb (given (Sysprep bs))) KForbidden (child bootstrap_path "sysprep")
             providerChanged
    end
  end.

Definition parityNotEnabled : string := "VC guest customization VCD parity capability is not enabled".
Definition both (v : ValueOrSecret) : bool := From v && Value_ v.

Definition no_secret (s : option string) : bool := bool_decide (default "" s = "").

Definition validateInlineSysprep vm (s : InlineSysprep) : list VMError :=
  let p := child bootstrap_path "sysprep" in
  let sp := child p "sysprep" in
  match is_GUIUnattended s with
  | None => []
  | Some g =>
    err_if (AutoLogon g && (AutoLogonCount g =? 0)) KInvalid sp "autoLogon requires autoLogonCount to be specified" ++
    err_if (AutoLogon g && no_secret (gu_Password g)) KInvalid sp "autoLogon requires password selector to be set"
  end ++
  match is_Identification s with
  | None => []
  | Some i =>
    let domain := negb (bool_decide (match av_Network vm with Some n => DomainName n | None => "" end = "")) in
    let workgroup := negb (bool_decide (JoinWorkgroup i = "")) in
    err_if (domain && workgroup) KInvalid sp "spec.network.domainName and joinWorkgroup are mutually exclusive" ++
    err_if (domain && (bool_decide (DomainAdmin i = "") || no_secret (DomainAdminPassword i))) KInvalid sp
      "spec.network.domainName requires domainAdmin and domainAdminPassword selector to be set" ++
    err_if (workgroup && (negb (bool_decide (DomainAdmin i = "")) || given (DomainAdminPassword i) ||
                          negb (bool_decide (DomainOU i = "")))) KInvalid sp
      "joinWorkgroup and domainAdmin/domainAdminPassword/domainOU are mutually exclusive"
  end ++
  (if GuestCustomizationVCDParity cfg then
     match is_ScriptText s with
     | Some t => err_if (both t) KInvalid (child sp "scriptText.value") "from and value are mutually exclusive"
     | None => []
     end
   else
     err_if (is_ExpirePasswordAfterNextLogin s) KForbidden (child p "expirePasswordAfterNextLogin") parityNotEnabled ++
     err_if (given (is_ScriptText s)) KForbidden (child p "scriptText") parityNotEnabled).

Definition check_cloud_init vm (ci : CloudInitSpec) : list VMError :=
  let p := child bootstrap_path "cloudInit" in
  err_if (given (linux_prep vm) || given (sys_prep vm) || given (vapp_config vm)) KForbidden p
    "CloudInit may not be used with any other bootstrap provider" ++
  match CloudConfig ci with
  | None => []
  | Some c =>
    err_if (RawCloudConfig ci) KInvalid p "cloudConfig and rawCloudConfig are mutually exclusive" ++
    ((λ msg, VErr KInvalid p msg) <$> CloudConfigErrors c)
  end.

Definition check_linux_prep vm (lp : LinuxPrepSpec) : list VMError :=
  let p := child bootstrap_path "linuxPrep" in
  err_if (given (cloud_init vm) || given (sys_prep vm)) KForbidden p
    "LinuxPrep may not be used with either CloudInit or Sysprep bootstrap providers" ++
  (if GuestCustomizationVCDParity cfg then
     match lp_ScriptText lp with
     | Some t => err_if (both t) KInvalid (child p "scriptText.value") "from and value are mutually exclusive"
     | None => []
     end
   else
     err_if (lp_ExpirePasswordAfterNextLogin lp) KForbidden (child p "expirePasswordAfterNextLogin") parityNotEnabled ++
     err_if (lp_Password lp) KForbidden (child p "password") parityNotEnabled ++
     err_if (given (lp_ScriptText lp)) KForbidden (child p "scriptText") parityNotEnabled).

Definition check_sysprep vm (sp : SysprepSpec) : list VMError :=
  let p := child bootstrap_path "sysprep" in
  err_if (given (cloud_init vm) || given (linux_prep vm)) KForbidden p
    "Sysprep may not be used with either CloudInit or LinuxPrep bootstrap providers" ++
  (if given (sp_Sysprep sp) && RawSysprep sp
   then [VErr KInvalid p "sysprep and rawSysprep are mutually exclusive"]
   else err_if (negb (given (sp_Sysprep sp)) && negb (RawSysprep sp)) KInvalid p
          "either sysprep or rawSysprep must be provided") ++
  match sp_Sysprep sp with Some s => validateInlineSysprep vm s | None => [] end.

Definition check_vapp vm (va : VAppConfigSpec) : list VMError :=
  let p := child bootstrap_path "vAppConfig" in
  err_if (given (cloud_init vm)) KForbidden p
    "vAppConfig may not be used in conjunction with CloudInit bootstrap provider" ++
  err_if (nonempty (Properties va) && negb (bool_decide (RawProperties va = ""))) KTypeInvalid p
    "properties and rawProperties are mutually exclusive" ++
  concat ((λ kv, err_if (bool_decide (kv.1 = "")) KInvalid (child p "properties.key")
                   "key is a required field in vAppConfig Properties" ++
                 err_if (both kv.2) KInvalid (child p "properties.value") "from and value are mutually exclusive")
          <$> Properties va).

Definition validateBootstrap vm : list VMError :=
  match cloud_init vm with Some ci => check_cloud_init vm ci | None => [] end ++
  match linux_prep vm with Some lp => check_linux_prep vm lp | None => [] end ++
  match sys_prep vm with Some sp => check_sysprep vm sp | None => [] end ++
  match vapp_config vm with Some va => check_vapp vm va | None => [] end.
End NetworkValidators.
