(* ===== verification/VMValidateHandlers.v ===== *)
(** * The validation webhook of VMs: the handlers

    [ValidateCreate], [ValidateUpdate] and [ValidateDelete] of
    webhooks/virtualmachine/validation/virtualmachine_validator.go, and
    [BuildValidationResponse] of webhooks/common/response.go.  The checks run in
    the order of the source and all of them run; the errors of the checks that
    read the API server are joined. *)

From S2P Require Import Prelude Conditions Features Hardware NicMutator CdromMutator HardwareValidator.
From S2P Require Import GoErrors VMGroup Compute ComputeWebhook AdmissionVM VMMutator VMValidator VMVolumeValidator.
From S2P Require Import VMNetworkValidator.
Local Open Scope Z_scope.
Local Open Scope go_scope.

Inductive ValidationResponse :=
  | VAllowed
  | VDenied (errs : list VMError)
  | VErrored (code : Z) (err : goerror).

Section Handlers.
Context {Q : Type} `{Quantity Q} `{WebhookAPI} `{ErrorsLib}.
Context (cfg : WebhookConfig) (rq : WebhookRequest) (conflicts : AdmissionVM Q → list VMError).
Implicit Types vm oldVM : AdmissionVM Q.
Implicit Types old : option (AdmissionVM Q).

(** [apierrors.ReasonForError], which looks through wrapped errors. *)
Definition as_status (err : goerror) : option string :=
  match err with StatusError r _ => Some r | _ => None end.
Definition ReasonForError (err : goerror) : string := default "" (As as_status err).

Definition error_code (err : goerror) : Z :=
  let r := ReasonForError err in
  if bool_decide (r = "NotFound") then 404
  else if bool_decide (r = "Gone") || bool_decide (r = "Expired") then 410
  else if bool_decide (r = "ServiceUnavailable") then 503
  else if bool_decide (r = "Timeout") || bool_decide (r = "ServerTimeout") then 504
  else 500.

Definition BuildValidationResponse (validationErrs : list VMError) (err : option goerror) : ValidationResponse :=
  match err with
  | Some err => VErrored (error_code err) err
  | None => match validationErrs with [] => VAllowed | _ => VDenied validationErrs end
  end.

(** [errors.Join] of the errors that occurred. *)
Definition errors_Join (errs : list goerror) : option goerror :=
  match errs with [] => None | _ => Some (Joined errs) end.

(** Errors of a check that may also fail. *)
Definition field_errs (r : goerror + list VMError) : list VMError :=
  match r with inl _ => [] | inr l => l end.
Definition failures (rs : list (goerror + list VMError)) : list goerror :=
  omap (λ r : goerror + list VMError, match r with inl e => Some e | inr _ => None end) rs.

Definition upt_of vm : option upt_interfaces :=
  (λ n, (λ i, UPTv2Enabled <$> ni_VMXNet3 i) <$> Interfaces n) <$> av_Network vm.

Definition compute_errors vm : list VMError :=
  VCompute <$> validateComputeConfig (VMServiceClasslessVM (Features_ cfg)) (av_Compute vm) (upt_of vm).

Definition ValidateCreate vm : outcome Empty_set ValidationResponse :=
  let net := validateNetwork cfg vm None in
  let probe := validateReadinessProbe cfg rq vm in
  let e1 :=
    validateAvailabilityZone cfg rq vm None ++ validateImageOnCreate cfg rq vm ++ validateClassOnCreate cfg rq vm ++
    validateStorageFields vm ++ validateCrypto cfg vm ++ validateBootstrap cfg vm ++ field_errs net in
  let? e2 := validateVolumes cfg rq vm None in
  let e3 :=
    validateInstanceStorageVolumes rq vm None ++ field_errs probe ++ validateAdvanced cfg vm ++ compute_errors vm ++
    validatePowerStateOnCreate vm ++ validateNextRestartTimeOnCreate vm ++ validateAnnotation rq vm None ++
    validateLabel rq vm None ++ validateNetworkHostAndDomainName vm None ++ validateMinHardwareVersion vm None ++
    validateHardware cfg conflicts vm None ++ validateChecks rq vm None ++
    validateNextPowerStateChangeTimeFormat vm ++ validateBootOptions vm None ++ validateSnapshot vm None ++
    validateGroupName cfg vm ++ validateVMAffinity cfg rq vm ++ validateBiosUUID vm in
  Ok (BuildValidationResponse (e1 ++ e2 ++ e3) (errors_Join (failures [net; probe]))).

Definition ValidateUpdate vm oldVM : outcome Empty_set ValidationResponse :=
  let net := validateNetwork cfg vm (Some oldVM) in
  let probe := validateReadinessProbe cfg rq vm in
  let e1 :=
    validateSchemaUpgrade cfg rq vm oldVM ++ validateImmutableFields cfg rq vm oldVM ++
    validatePowerStateOnUpdate cfg vm oldVM ++ validateCrypto cfg vm ++
    validateAvailabilityZone cfg rq vm (Some oldVM) ++ validateBootstrapProviderImmutable rq vm oldVM ++
    validateBootstrap cfg vm ++ field_errs net in
  let? e2 := validateVolumes cfg rq vm (Some oldVM) in
  let e3 :=
    validateInstanceStorageVolumes rq vm (Some oldVM) ++ field_errs probe ++ validateAdvanced cfg vm ++
    compute_errors vm ++ validateNextRestartTimeOnUpdate vm oldVM ++ validateAnnotation rq vm (Some oldVM) ++
    validateMinHardwareVersion vm (Some oldVM) ++ validateLabel rq vm (Some oldVM) ++
    validateNetworkHostAndDomainName vm (Some oldVM) ++ validateHardware cfg conflicts vm (Some oldVM) ++
    validateChecks rq vm (Some oldVM) ++ validateNextPowerStateChangeTimeFormat vm ++
    validateBootOptions vm (Some oldVM) ++ validateSnapshot vm (Some oldVM) ++ validateGroupName cfg vm in
  Ok (BuildValidationResponse (e1 ++ e2 ++ e3) (errors_Join (failures [net; probe]))).

Definition ValidateDelete vm : outcome Empty_set ValidationResponse := Ok VAllowed.

(** ** What an accepted request says *)

Lemma response_allowed errs err : BuildValidationResponse errs err = VAllowed → errs = [] ∧ err = None.
Proof. unfold BuildValidationResponse. by repeat case_match. Qed.

Lemma errors_Join_None errs : errors_Join errs = None → errs = [].
Proof. by destruct errs. Qed.

(** Every check of an accepted update found nothing. *)
Record update_clean vm oldVM : Prop := {
  uc_upgrade : validateSchemaUpgrade cfg rq vm oldVM = [];
  uc_immutable : validateImmutableFields cfg rq vm oldVM = [];
  uc_power : validatePowerStateOnUpdate cfg vm oldVM = [];
  uc_zone : validateAvailabilityZone cfg rq vm (Some oldVM) = [];
  uc_provider : validateBootstrapProviderImmutable rq vm oldVM = [];
  uc_network : validateNetwork cfg vm (Some oldVM) = inr [];
  uc_volumes : validateVolumes cfg rq vm (Some oldVM) = Ok [];
  uc_instance : validateInstanceStorageVolumes rq vm (Some oldVM) = [];
  uc_compute : compute_errors vm = [];
  uc_restart : validateNextRestartTimeOnUpdate vm oldVM = [];
  uc_annotation : validateAnnotation rq vm (Some oldVM) = [];
  uc_version : validateMinHardwareVersion vm (Some oldVM) = [];
  uc_label : validateLabel rq vm (Some oldVM) = [];
  uc_hardware : validateHardware cfg conflicts vm (Some oldVM) = [];
  uc_checks : validateChecks rq vm (Some oldVM) = [];
  uc_snapshot : validateSnapshot vm (Some oldVM) = []
}.

Lemma update_allowed_clean vm oldVM : ValidateUpdate vm oldVM = Ok VAllowed → update_clean vm oldVM.
Proof.
  unfold ValidateUpdate. destruct (validateVolumes _ _ _ _) as [e2|[]|] eqn:Hv; [|done..].
  cbn [outcome_bind]. intros Hok. injection Hok as (He & Hj%errors_Join_None)%response_allowed.
  rewrite !app_nil in He. destruct_and! He.
  destruct (validateNetwork _ _ _) eqn:Hn; [done|]. cbn [field_errs] in *. subst. split; assumption.
Qed.
End Handlers.
