(* ===== verification/VMAdmissionResults.v ===== *)
(** * Updates that both webhooks accept

    [ValidateUpdate] after the mutation webhook, and sequences of admitted
    updates: the fields that never change, what users without privileges cannot
    change, volumes, powered-on VMs, and the schema upgrade. *)

From S2P Require Import Prelude Conditions Features Hardware NicMutator CdromMutator HardwareValidator.
From S2P Require Import GoErrors VMGroup Compute ComputeWebhook ResizeAnnotations AdmissionVM VMMutator.
From S2P Require Import VMMutatorResults VMMutatorFields VMValidator VMVolumeValidator VMNetworkValidator VMValidateHandlers.
Local Open Scope Z_scope.
Local Open Scope go_scope.

(** ** Lists of errors *)

Lemma err_if_nil b k p d : err_if b k p d = [] ↔ b = false.
Proof. by destruct b. Qed.

Lemma immutable_nil {A} `{EqDecision A} (x y : A) p : ValidateImmutableField x y p = [] ↔ x = y.
Proof. unfold ValidateImmutableField. rewrite err_if_nil. by case_bool_decide. Qed.

Lemma concat_fmap_nil {A B} (f : A → list B) l : concat (f <$> l) = [] ↔ ∀ x, x ∈ l → f x = [].
Proof.
  induction l as [|a l IH]; [by split; [intros _ x ?%not_elem_of_nil|]|].
  cbn. rewrite app_nil, IH. setoid_rewrite elem_of_cons. naive_solver.
Qed.

Create Rewrite HintDb verdicts.
#[export] Hint Rewrite err_if_nil @immutable_nil @concat_fmap_nil @concat_imap_nil @app_nil negb_false_iff negb_true_iff
  bool_decide_eq_true bool_decide_eq_false andb_false_iff : verdicts.

Section Updates.
Context {Q : Type} `{Quantity Q} `{WebhookAPI} `{ErrorsLib} `{AnnotationCodec}.
Implicit Types vm oldVM : AdmissionVM Q.
Implicit Types (cfg : WebhookConfig) (rq : WebhookRequest) (conflicts : AdmissionVM Q → list VMError).

(** An update that the mutation webhook turns into [vm'] and the validation
    webhook accepts, under a configuration and from a user that [by_] allows. *)
Inductive admitted (by_ : WebhookConfig → WebhookRequest → Prop) oldVM vm' : Prop :=
  | admitted_by cfg rq conflicts order vm :
    by_ cfg rq →
    admitted_vm vm (mutate_update cfg rq order vm oldVM) = Some vm' →
    ValidateUpdate cfg rq conflicts vm' oldVM = Ok VAllowed →
    admitted by_ oldVM vm'.

(** ** The identity of a VM *)

Record same_identity oldVM vm : Prop := {
  si_storage : av_StorageClass vm = av_StorageClass oldVM;
  si_policy : default "" (av_ResourcePolicyName vm) = default "" (av_ResourcePolicyName oldVM);
  si_affinity : av_Affinity vm = av_Affinity oldVM;
  si_bios : av_BiosUUID oldVM ≠ "" → av_BiosUUID vm = av_BiosUUID oldVM;
  si_instance : av_InstanceUUID oldVM ≠ "" → av_InstanceUUID vm = av_InstanceUUID oldVM;
  si_version : av_MinHardwareVersion oldVM ≤ av_MinHardwareVersion vm
}.

#[global] Instance same_identity_preorder : PreOrder same_identity.
Proof.
  split; [by split|]. intros x y z [] []. split; [congruence..| | |lia].
  - intros Hx. rewrite si_bios1; [auto|]. by rewrite si_bios0.
  - intros Hx. rewrite si_instance1; [auto|]. by rewrite si_instance0.
Qed.

Lemma update_same_identity cfg rq conflicts vm oldVM :
  ValidateUpdate cfg rq conflicts vm oldVM = Ok VAllowed → same_identity oldVM vm.
Proof.
  intros Hok%update_allowed_clean.
  pose proof (uc_immutable _ _ _ _ _ Hok) as Hi. pose proof (uc_version _ _ _ _ _ Hok) as Hv.
  unfold validateImmutableFields, validateImmutableVMAffinity, validateImmutableReserved in Hi.
  unfold validateMinHardwareVersion in Hv. autorewrite with verdicts in Hi, Hv.
  destruct Hi as (_ & _ & ? & Hb & Hu & ? & _ & ?), Hv as (_ & Hv & _). split; [done..| | |].
  - intros ?. rewrite bool_decide_eq_false_2 in Hb by done. by apply immutable_nil in Hb.
  - intros ?. rewrite bool_decide_eq_false_2 in Hu by done. by apply immutable_nil in Hu.
  - by apply Z.ltb_ge.
Qed.

(** C31: No sequence of admitted updates, by any account and under any
    configuration, changes the storage class, the resource policy, the affinity,
    or a BIOS or instance UUID that has been set, and the minimum hardware version
    never goes down. *)
Theorem identity_never_changes oldVM vm :
  rtc (admitted (λ _ _, True)) oldVM vm → same_identity oldVM vm.
Proof.
  induction 1 as [|x y z [cfg rq conflicts order vm0 _ _ Hok] _ IH]; [done|].
  etransitivity; [|exact IH]. by eapply update_same_identity.
Qed.

(** ** What users without privileges cannot change *)

Definition check_annotation (k : string) : Prop :=
  HasPrefix k (CheckAnnotationPowerOn +:+ "/") = true ∨ HasPrefix k (CheckAnnotationDelete +:+ "/") = true.

Record user_kept oldVM vm : Prop := {
  uk_imageName : av_ImageName vm = av_ImageName oldVM;
  uk_image : av_Image vm = av_Image oldVM;
  uk_zone : lbl oldVM LabelTopologyZone ≠ "" → lbl vm LabelTopologyZone = lbl oldVM LabelTopologyZone;
  uk_protected : ∀ k, k ∈ protected_annotations ++ protected_on_update → anno vm k = anno oldVM k;
  uk_checks : ∀ k, check_annotation k → av_Annotations vm !! k = av_Annotations oldVM !! k;
  uk_paused : lbl vm PausedVMLabelKey = lbl oldVM PausedVMLabelKey;
  uk_cloudInit : is_Some (cloud_init oldVM) → is_Some (cloud_init vm);
  uk_linuxPrep : is_Some (linux_prep oldVM) → is_Some (linux_prep vm);
  uk_sysprep : is_Some (sys_prep oldVM) → is_Some (sys_prep vm);
  uk_instanceStorage : instance_storage_volumes vm = instance_storage_volumes oldVM
}.

#[global] Instance user_kept_preorder : PreOrder user_kept.
Proof.
  split; [by split|]. intros x y z Hxy Hyz. split; try (destruct Hxy, Hyz; by auto || congruence).
  - intros Hx. destruct Hxy, Hyz. rewrite uk_zone1; [auto|]. by rewrite uk_zone0.
  - intros k Hk. destruct Hxy, Hyz. rewrite uk_protected1; auto.
  - intros k Hk. destruct Hxy, Hyz. rewrite uk_checks1; auto.
Qed.

Section Unprivileged.
Context cfg rq conflicts vm oldVM (Huser : IsPrivilegedAccount rq = false).

Lemma image_kept :
  validateImageOnUpdate cfg rq vm oldVM = [] → av_ImageName vm = av_ImageName oldVM ∧ av_Image vm = av_Image oldVM.
Proof using Huser.
  unfold validateImageOnUpdate. rewrite Huser. destruct (_ && _ && _).
  - autorewrite with verdicts. intros [Hi Hn]. split; [done|].
    unfold ImageRefsEqual in Hi. repeat case_match; try done. apply bool_decide_eq_true in Hi. congruence.
  - autorewrite with verdicts. intros [Hn Hi]. done.
Qed.

Lemma zone_kept :
  validateAvailabilityZone cfg rq vm (Some oldVM) = [] → lbl oldVM LabelTopologyZone ≠ "" →
  lbl vm LabelTopologyZone = lbl oldVM LabelTopologyZone.
Proof using Huser.
  unfold validateAvailabilityZone. rewrite Huser. cbn [old_lbl]. intros Hz Hne.
  rewrite bool_decide_eq_false_2 in Hz by done. by apply immutable_nil in Hz.
Qed.

Lemma annotations_kept k :
  validateAnnotation rq vm (Some oldVM) = [] → k ∈ protected_annotations ++ protected_on_update →
  anno vm k = anno oldVM k.
Proof using Huser.
  unfold validateAnnotation. rewrite Huser. autorewrite with verdicts. intros (_ & Hp & Hu) [Hk|Hk]%elem_of_app.
  - specialize (Hp k Hk). unfold annotation_kept in Hp. by autorewrite with verdicts in Hp.
  - specialize (Hu k Hk). unfold annotation_kept in Hu. by autorewrite with verdicts in Hu.
Qed.

Lemma checks_kept prefix allow k :
  validateChecksAnnotation rq vm (Some oldVM) prefix allow = [] → HasPrefix k prefix = true →
  av_Annotations vm !! k = av_Annotations oldVM !! k.
Proof using Huser.
  unfold validateChecksAnnotation. rewrite Huser. autorewrite with verdicts. intros [Hrem Hadd] Hk.
  destruct (av_Annotations vm !! k) as [v|] eqn:Hv.
  - specialize (Hadd (k, v)). rewrite elem_of_map_to_list in Hadd. specialize (Hadd Hv).
    unfold check_added in Hadd. cbn [fst snd] in Hadd. rewrite Hk in Hadd. cbn [negb] in Hadd.
    destruct (av_Annotations oldVM !! k); [|done]. autorewrite with verdicts in Hadd. by subst.
  - destruct (av_Annotations oldVM !! k) as [o|] eqn:Ho; [|done]. specialize (Hrem (k, o)).
    rewrite elem_of_map_to_list in Hrem. specialize (Hrem Ho). unfold check_removed, annotated in Hrem.
    cbn [fst] in Hrem. rewrite Hk, Hv in Hrem. autorewrite with verdicts in Hrem. by destruct Hrem as [|[]].
Qed.

Lemma providers_kept :
  validateBootstrapProviderImmutable rq vm oldVM = [] →
  (is_Some (cloud_init oldVM) → is_Some (cloud_init vm)) ∧ (is_Some (linux_prep oldVM) → is_Some (linux_prep vm)) ∧
  (is_Some (sys_prep oldVM) → is_Some (sys_prep vm)).
Proof using Huser.
  unfold validateBootstrapProviderImmutable, cloud_init, linux_prep, sys_prep. rewrite Huser.
  destruct (av_Bootstrap oldVM) as [o|]; [|intros _; split_and!; by intros []].
  destruct (av_Bootstrap vm) as [b|]; [cbn [mbind option_bind]|done].
  destruct (CloudInit o), (CloudInit b), (LinuxPrep o), (LinuxPrep b), (Sysprep o), (Sysprep b);
    cbn; try done; intros _; split_and!; intros Hg; (by eexists) || by destruct Hg.
Qed.

Lemma update_user_kept : ValidateUpdate cfg rq conflicts vm oldVM = Ok VAllowed → user_kept oldVM vm.
Proof using Huser.
  intros Hok%update_allowed_clean.
  pose proof (uc_immutable _ _ _ _ _ Hok) as Hi. unfold validateImmutableFields in Hi.
  apply app_nil in Hi as [[Hn Himg]%image_kept _].
  pose proof (uc_label _ _ _ _ _ Hok) as Hl. pose proof (uc_checks _ _ _ _ _ Hok) as Hc.
  pose proof (uc_instance _ _ _ _ _ Hok) as Hs.
  destruct (providers_kept (uc_provider _ _ _ _ _ Hok)) as (? & ? & ?).
  unfold validateLabel in Hl. unfold validateInstanceStorageVolumes in Hs. rewrite Huser in Hl, Hs.
  unfold validateChecks in Hc. autorewrite with verdicts in Hl, Hs, Hc. destruct Hc as [Hon Hdel].
  split; [done|done|exact (zone_kept (uc_zone _ _ _ _ _ Hok))| | |done..].
  - intros k Hk. exact (annotations_kept k (uc_annotation _ _ _ _ _ Hok) Hk).
  - intros k [Hk|Hk]; [exact (checks_kept _ _ k Hon Hk)|exact (checks_kept _ _ k Hdel Hk)].
Qed.
End Unprivileged.

(** C32: However often a user without privileges updates a VM, the image, the zone
    once assigned, the annotations and labels reserved for the operator, the
    power-on and delete checks, the kind of bootstrap and the instance storage
    volumes stay as they are. *)
Theorem user_updates_keep oldVM vm :
  rtc (admitted (λ _ rq, IsPrivilegedAccount rq = false)) oldVM vm → user_kept oldVM vm.
Proof.
  induction 1 as [|x y z [cfg rq conflicts order vm0 Hu _ Hok] _ IH]; [done|].
  etransitivity; [|exact IH]. by eapply update_user_kept.
Qed.
End Updates.
