(* ===== verification/VMAdmissionDevices.v ===== *)
(** * Volumes, powered-on VMs and the schema upgrade in admitted updates *)

From S2P Require Import Prelude Conditions Features Hardware NicMutator CdromMutator HardwareValidator.
From S2P Require Import GoErrors VMGroup Compute ComputeWebhook ResizeAnnotations AdmissionVM VMMutator.
From S2P Require Import VMValidator VMVolumeValidator VMNetworkValidator VMValidateHandlers VMAdmissionResults.
Local Open Scope Z_scope.
Local Open Scope go_scope.

Section Devices.
Context {Q : Type} `{Quantity Q} `{WebhookAPI} `{ErrorsLib} `{AnnotationCodec}.
Implicit Types vm oldVM : AdmissionVM Q.
Implicit Types old : option (AdmissionVM Q).
Implicit Types (cfg : WebhookConfig) (rq : WebhookRequest) (conflicts : AdmissionVM Q → list VMError).

(** ** Volumes by name *)

Lemma volumes_map_lookup vols n v :
  volumes_map vols !! n = Some v → v ∈ vols ∧ av_VolName v = n ∧ n ≠ "".
Proof.
  unfold volumes_map. induction vols as [|x vols IH] using rev_ind; [cbn [foldl]; by rewrite lookup_empty|].
  rewrite foldl_app. cbn [foldl]. rewrite elem_of_app, list_elem_of_singleton. case_bool_decide as He; [naive_solver|].
  destruct (decide (av_VolName x = n)) as [<-|Hne].
  - rewrite lookup_insert_eq. intros [= <-]. naive_solver.
  - rewrite lookup_insert_ne by done. naive_solver.
Qed.

Lemma volumes_map_unique vols v :
  NoDup (av_VolName <$> vols) → v ∈ vols → av_VolName v ≠ "" → volumes_map vols !! av_VolName v = Some v.
Proof.
  unfold volumes_map. induction vols as [|x vols IH] using rev_ind; [by intros _ ?%not_elem_of_nil|].
  rewrite fmap_app, NoDup_app, elem_of_app, list_elem_of_singleton. intros (Hd & Hx & _) Hv Hne.
  rewrite foldl_app. cbn [foldl]. destruct Hv as [Hv| ->].
  - assert (av_VolName x ≠ av_VolName v) as Hxv.
    { intros Heq. apply (Hx (av_VolName v)); [by apply list_elem_of_fmap_2|]. cbn. rewrite Heq. set_solver. }
    case_bool_decide; [by apply IH|]. rewrite lookup_insert_ne by done. by apply IH.
  - rewrite bool_decide_eq_false_2 by done. by rewrite lookup_insert_eq.
Qed.

Lemma volume_list_clean cfg vm old oldVolumes i names claims vols :
  check_volume_list cfg vm old oldVolumes i names claims vols = Ok [] →
  (NoDup (av_VolName <$> vols) ∧ (∀ v, v ∈ vols → av_VolName v ≠ "" ∧ av_VolName v ∉ names)) ∧
  (NoDup (omap claim_name vols) ∧ ∀ c, c ∈ omap claim_name vols → c ∉ claims) ∧
  ∀ v, v ∈ vols → ∃ p, validateVolume cfg vm old (oldVolumes !! av_VolName v) v p = Ok [].
Proof.
  revert i names claims. induction vols as [|v vols IH]; intros i names claims.
  { intros _. split_and!; (by apply NoDup_nil_2) || (by intros ? ?%not_elem_of_nil). }
  cbn [check_volume_list].
  destruct (validateVolume _ _ _ _ _ _) as [e3|[]|] eqn:Hv; [cbn [outcome_bind]|done..].
  destruct (check_volume_list _ _ _ _ _ _ _ _) as [rest|[]|] eqn:Hr; [cbn [outcome_bind]|done..].
  intros Hok. injection Hok as Hok. rewrite !app_nil in Hok. destruct Hok as (He1 & He2 & -> & ->).
  destruct (IH _ _ _ Hr) as ([Hn Hin] & [Hc Hcin] & Hval). clear IH Hr.
  case_bool_decide as Hempty; [done|]. rewrite app_nil, err_if_nil, bool_decide_eq_false in He1. destruct He1 as [He1 _].
  split_and!.
  - cbn. apply NoDup_cons. split; [|done]. intros (w & Hw & Hvw)%list_elem_of_fmap.
    apply Hin in Hvw as [_ Hvw]. apply Hvw. rewrite <-Hw. set_solver.
  - intros w [->|Hw]%elem_of_cons; [done|]. apply Hin in Hw. set_solver.
  - cbn. destruct (claim_name v) as [c|]; [|done]. apply NoDup_cons. split; [|done].
    intros Hcv. apply Hcin in Hcv. set_solver.
  - intros c. cbn. destruct (claim_name v) as [c'|]; [|apply Hcin]. intros [->|Hcv]%elem_of_cons.
    + by rewrite err_if_nil, bool_decide_eq_false in He2.
    + apply Hcin in Hcv. set_solver.
  - intros w [->|Hw]%elem_of_cons; [by eexists|by apply Hval].
Qed.

(** ** Volumes of an admitted update *)

(** The volume is attached to the same slot of the same controller, in the same
    modes. *)
Definition same_attachment (o v : AdmissionVolume) : Prop :=
  ApplicationType (av_Base v) = ApplicationType (av_Base o) ∧
  vol_ControllerType (av_Base v) = vol_ControllerType (av_Base o) ∧
  vol_ControllerBusNumber (av_Base v) = vol_ControllerBusNumber (av_Base o) ∧
  vol_UnitNumber (av_Base v) = vol_UnitNumber (av_Base o) ∧
  DiskMode (av_Base v) = DiskMode (av_Base o) ∧ SharingMode (av_Base v) = SharingMode (av_Base o).

Definition fully_placed (v : AdmissionVolume) : Prop :=
  vol_ControllerType (av_Base v) ≠ NoControllerType ∧ is_Some (vol_ControllerBusNumber (av_Base v)) ∧
  is_Some (vol_UnitNumber (av_Base v)).

Lemma volume_clean cfg vm oldVM oldVol v p :
  VMSharedDisks (Features_ cfg) || AllDisksArePVCs (Features_ cfg) = true →
  validateVolume cfg vm (Some oldVM) oldVol v p = Ok [] →
  fully_placed v ∧ ∀ o, oldVol = Some o → av_VolName o = av_VolName v → same_attachment o v.
Proof.
  intros Hf. unfold validateVolume.
  destruct (negb _ && negb _) eqn:Hn. { rewrite <-negb_orb, Hf in Hn. done. }
  set (shared := if _ || _ then _ else _). destruct shared as [e4|[]|]; [cbn [outcome_bind]|done..].
  intros Hok. injection Hok as Hok. rewrite !app_nil in Hok. destruct Hok as (_ & Hi & _ & _ & Hc).
  unfold validateControllerFields in Hc. cbn [andb orb] in Hc. autorewrite with verdicts in Hc.
  destruct Hc as (Hu & Ht & Hb). split; [done|]. intros o -> Hname.
  rewrite bool_decide_eq_true_2 in Hi by done. unfold validateVolumeImmutableFields in Hi.
  autorewrite with verdicts in Hi. unfold same_attachment. naive_solver.
Qed.


(** ** A bus number that is missing *)

Lemma volume_panics cfg vm v pvc obj p :
  VMSharedDisks (Features_ cfg) || AllDisksArePVCs (Features_ cfg) = true →
  ApplicationType (av_Base v) = VolumeApplicationTypeMicrosoftWSFC →
  vol_ControllerType (av_Base v) = VirtualControllerTypeSCSI → vol_ControllerBusNumber (av_Base v) = None →
  av_PVC v = Some pvc → GetPVCObject (av_Namespace vm) (ClaimName pvc) = inr obj → "ReadWriteMany" ∉ AccessModes obj →
  validateVolume cfg vm None None v p = Panic.
Proof.
  intros Hf Ha Ht Hb Hp Ho Hrw. unfold validateVolume.
  rewrite <-negb_orb, Hf. cbn [negb orb]. rewrite orb_true_r.
  unfold validateSharedVolumesOrControllers, read_claim. rewrite Hp, Ho.
  rewrite (bool_decide_eq_false_2 ("ReadWriteMany" ∈ _)) by done. unfold shared_rules.
  assert (getControllerSharingMode vm v = VirtualControllerSharingModePhysical) as ->.
  { unfold getControllerSharingMode, controller_of, DefaultControllerSharingMode. rewrite Hb, Ha. done. }
  rewrite Ha, Ht. cbn [negb]. rewrite !(bool_decide_eq_true_2 (_ = _)) by done. cbn [andb orb].
  unfold bus_error. rewrite Hb. by case_match.
Qed.

(** Creating a VM with a WSFC volume that asks for a SCSI controller without a
    bus number, for a claim that is not ReadWriteMany, panics. *)
Theorem wsfc_without_bus_panics cfg rq conflicts vm v pvc obj :
  IsVMOperatorAccount rq = false → VMSharedDisks (Features_ cfg) || AllDisksArePVCs (Features_ cfg) = true →
  v ∈ av_Volumes vm → ApplicationType (av_Base v) = VolumeApplicationTypeMicrosoftWSFC →
  vol_ControllerType (av_Base v) = VirtualControllerTypeSCSI → vol_ControllerBusNumber (av_Base v) = None →
  av_PVC v = Some pvc → GetPVCObject (av_Namespace vm) (ClaimName pvc) = inr obj → "ReadWriteMany" ∉ AccessModes obj →
  ValidateCreate cfg rq conflicts vm = Panic.
Proof.
  intros Hop Hf Hv Ha Ht Hb Hp Ho Hrw.
  assert (∀ i names claims, check_volume_list cfg vm None ∅ i names claims (av_Volumes vm) = Panic) as Hl.
  { induction (av_Volumes vm) as [|x vols IH]; [by apply not_elem_of_nil in Hv|].
    intros i names claims. cbn [check_volume_list]. rewrite lookup_empty. apply elem_of_cons in Hv as [<-|Hv].
    - by rewrite (volume_panics cfg vm v pvc obj).
    - destruct (validateVolume _ _ _ _ _ _) as [e|[]|]; cbn [outcome_bind]; [|done]. by rewrite IH by done. }
  unfold ValidateCreate, validateVolumes. rewrite Hop. cbn [negb volumes_map foldl]. by rewrite Hl.
Qed.

(** ** Powered-on VMs *)

Lemma cdroms_by_name_lookup cds n c : cdroms_by_name cds !! n = Some c → c ∈ cds ∧ ac_Name c = n.
Proof.
  unfold cdroms_by_name. induction cds as [|x cds IH] using rev_ind; [cbn [foldl]; by rewrite lookup_empty|].
  rewrite foldl_app. cbn [foldl]. rewrite elem_of_app, list_elem_of_singleton.
  destruct (decide (ac_Name x = n)) as [<-|Hne].
  - rewrite lookup_insert_eq. intros [= <-]. naive_solver.
  - rewrite lookup_insert_ne by done. naive_solver.
Qed.

Lemma cdroms_by_name_Some cds n : n ∈ ac_Name <$> cds → is_Some (cdroms_by_name cds !! n).
Proof.
  unfold cdroms_by_name. induction cds as [|x cds IH] using rev_ind; [by intros ?%not_elem_of_nil|].
  rewrite foldl_app, fmap_app, elem_of_app. cbn [foldl fmap list_fmap]. rewrite list_elem_of_singleton.
  destruct (decide (ac_Name x = n)) as [<-|Hne].
  - rewrite lookup_insert_eq. by eexists.
  - rewrite lookup_insert_ne by done. naive_solver.
Qed.

(** If every new CD-ROM has an old one of its name with the same [f], and every
    old name stays, then [f] by name is the same. *)
Lemma cdroms_same {A} (f : AdmissionCdrom → A) news olds :
  (∀ o, o ∈ olds → ac_Name o ∈ ac_Name <$> news) →
  (∀ c, c ∈ news → ∃ o, cdroms_by_name olds !! ac_Name c = Some o ∧ f c = f o) →
  f <$> cdroms_by_name news = f <$> cdroms_by_name olds.
Proof.
  intros Hold Hnew. apply map_eq. intros n. rewrite !lookup_fmap.
  destruct (cdroms_by_name news !! n) as [c|] eqn:Hc.
  - apply cdroms_by_name_lookup in Hc as [Hc <-]. destruct (Hnew c Hc) as (o & -> & Hf). cbn. by rewrite Hf.
  - destruct (cdroms_by_name olds !! n) as [o|] eqn:Ho; [|done].
    apply cdroms_by_name_lookup in Ho as [Ho <-]. apply Hold, cdroms_by_name_Some in Ho. rewrite Hc in Ho.
    by destruct Ho.
Qed.

Definition slot_fields (c : AdmissionCdrom) : VirtualControllerType * option Z * option Z :=
  (cdrom_ControllerType (ac_Base c), cdrom_ControllerBusNumber (ac_Base c), cdrom_UnitNumber (ac_Base c)).

Lemma cdroms_when_on cfg vm oldVM :
  validateCdromWhenPoweredOn cfg vm oldVM = [] →
  ac_Image <$> cdroms_by_name (cdroms_of vm) = ac_Image <$> cdroms_by_name (cdroms_of oldVM) ∧
  (VMSharedDisks (Features_ cfg) = true → av_StatusPowerState oldVM ≠ "" → upgraded cfg oldVM = true →
   slot_fields <$> cdroms_by_name (cdroms_of vm) = slot_fields <$> cdroms_by_name (cdroms_of oldVM)).
Proof.
  unfold validateCdromWhenPoweredOn. destruct (Nat.eqb _ _); cbn [negb]; [|done].
  rewrite !app_nil, concat_fmap_nil, concat_imap_nil. intros (Hold & Himg & Hslot).
  assert (∀ o, o ∈ cdroms_of oldVM → ac_Name o ∈ ac_Name <$> cdroms_of vm) as Hnames.
  { intros o Ho. specialize (Hold o Ho). by autorewrite with verdicts in Hold. }
  assert (∀ c, c ∈ cdroms_of vm → ∃ o, cdroms_by_name (cdroms_of oldVM) !! ac_Name c = Some o ∧ ac_Image c = ac_Image o)
    as Hfound.
  { intros c [i Hi]%list_elem_of_lookup. specialize (Himg i c Hi). unfold image_when_on in Himg.
    destruct (cdroms_by_name _ !! _) as [o|]; [|done]. autorewrite with verdicts in Himg. by exists o. }
  split; [by apply cdroms_same|]. intros Hf Hs Hu. apply cdroms_same; [done|]. intros c Hc.
  destruct (Hfound c Hc) as (o & Ho & _). exists o. split; [done|].
  unfold vm_upgraded in Hslot. rewrite Hf, Hu, bool_decide_eq_false_2 in Hslot by done. cbn [andb negb] in Hslot.
  unfold validateCdromControllerSpecWhenPoweredOn in Hslot. rewrite concat_imap_nil in Hslot.
  apply list_elem_of_lookup in Hc as [i Hi]. specialize (Hslot i c Hi). unfold cdrom_when_on in Hslot.
  rewrite Ho in Hslot. autorewrite with verdicts in Hslot. unfold slot_fields. naive_solver congruence.
Qed.


(** ** The schema upgrade *)

Lemma upgraded_iff cfg vm :
  upgraded cfg vm = true ↔
  anno vm UpgradedToBuildVersionAnnotationKey ≠ "" ∧ anno vm UpgradedToBuildVersionAnnotationKey = BuildVersion cfg ∧
  anno vm UpgradedToSchemaVersionAnnotationKey ≠ "" ∧ anno vm UpgradedToSchemaVersionAnnotationKey = SchemaVersion ∧
  ParseFeatureVersion (anno vm UpgradedToFeatureVersionAnnotationKey) ≠ FeatureVersionEmpty ∧
  IsOrSuperset (ParseFeatureVersion (anno vm UpgradedToFeatureVersionAnnotationKey))
    (ActivatedFeatureVersion (Features_ cfg)) = true.
Proof.
  unfold upgraded, IsObjectUpgraded. fold (anno vm UpgradedToBuildVersionAnnotationKey).
  fold (anno vm UpgradedToSchemaVersionAnnotationKey) (anno vm UpgradedToFeatureVersionAnnotationKey).
  destruct (Z.eqb_spec (ParseFeatureVersion (anno vm UpgradedToFeatureVersionAnnotationKey)) FeatureVersionEmpty);
    destruct (IsOrSuperset _ _); repeat case_bool_decide; naive_solver.
Qed.

Record frozen cfg oldVM vm : Prop := {
  fz_pending : upgraded cfg vm = false;
  fz_bios : av_BiosUUID vm = av_BiosUUID oldVM;
  fz_interfaces : VMServiceClasslessVM (Features_ cfg) = true → interfaces_of vm = interfaces_of oldVM;
  fz_controllers : VMSharedDisks (Features_ cfg) = true →
    hs_IDE (hardware_of vm) = hs_IDE (hardware_of oldVM) ∧ hs_NVME (hardware_of vm) = hs_NVME (hardware_of oldVM) ∧
    hs_SATA (hardware_of vm) = hs_SATA (hardware_of oldVM) ∧ hs_SCSI (hardware_of vm) = hs_SCSI (hardware_of oldVM)
}.

Lemma upgrade_annotation_kept vm oldVM k :
  upgrade_annotation vm oldVM k = [] → anno vm k ≠ "" → anno vm k = anno oldVM k.
Proof. unfold upgrade_annotation. autorewrite with verdicts. naive_solver. Qed.

Lemma update_frozen cfg rq conflicts vm oldVM :
  IsVMOperatorAccount rq = false → IsSystemMasters rq = false → upgraded cfg oldVM = false →
  ValidateUpdate cfg rq conflicts vm oldVM = Ok VAllowed → frozen cfg oldVM vm.
Proof.
  intros Hop Hms Hup Hok%update_allowed_clean. pose proof (uc_upgrade _ _ _ _ _ Hok) as Hs.
  unfold validateSchemaUpgrade, vm_upgraded in Hs. rewrite Hop, Hms, Hup in Hs. cbn [orb] in Hs.
  rewrite !app_nil in Hs. destruct Hs as (Hb & Hsv & Hfv & Hf).
  unfold validateFieldsDuringSchemaUpgrade in Hf. rewrite !app_nil in Hf. destruct Hf as (Hbios & Hcl & Hsd). split.
  - apply not_true_iff_false. rewrite upgraded_iff. intros (Hb1 & Hb2 & Hs1 & Hs2 & Hf1 & Hf2).
    apply upgrade_annotation_kept in Hb; [|done]. apply upgrade_annotation_kept in Hsv; [|done].
    apply upgrade_annotation_kept in Hfv; [|by intros Hfe; rewrite Hfe in Hf1].
    apply not_true_iff_false in Hup. apply Hup, upgraded_iff. rewrite <-Hb, <-Hsv, <-Hfv. done.
  - by autorewrite with verdicts in Hbios.
  - intros Hc. rewrite Hc in Hcl. unfold validateNICBackfilledFieldsNotChanged in Hcl.
    rewrite !app_nil in Hcl. destruct Hcl as (_ & Hn & _). by autorewrite with verdicts in Hn.
  - intros Hc. rewrite Hc in Hsd. autorewrite with verdicts in Hsd. naive_solver.
Qed.

(** Until the operator has upgraded a VM to this build, schema and set of
    features, no sequence of admitted updates by others marks it as upgraded or
    changes what the upgrade fills in: the BIOS UUID, the network interfaces and
    the storage controllers. *)
Theorem frozen_until_upgraded cfg oldVM vm :
  upgraded cfg oldVM = false →
  rtc (admitted (λ c rq, c = cfg ∧ IsVMOperatorAccount rq = false ∧ IsSystemMasters rq = false)) oldVM vm →
  frozen cfg oldVM vm.
Proof.
  intros Hup Hr. induction Hr as [vm|x y z [cfg' rq conflicts order vm0 (-> & Hop & Hms) _ Hok] _ IH]; [by split|].
  apply update_frozen in Hok as [Hy Hb Hi Hc]; [|done..]. destruct (IH Hy) as [Hz Hb' Hi' Hc'].
  split; [done|congruence|intros Hf; rewrite Hi' by done; by apply Hi|].
  intros Hf. destruct (Hc Hf) as (? & ? & ? & ?), (Hc' Hf) as (? & ? & ? & ?). split_and!; congruence.
Qed.
End Devices.
