(* ===== verification/VMWebhookWitnesses.v ===== *)
(** * Concrete VMs through the webhooks

    An API server and an encoding of annotations that satisfy the interfaces, a
    VM that is admitted, and the theorems at it.  Two concrete runs show where
    the webhooks do not do what they mean to. *)

From stdpp Require Import countable.
From S2P Require Import Prelude Conditions Features Hardware NicMutator CdromMutator HardwareValidator.
From S2P Require Import GoErrors VMGroup Compute ComputeWebhook ResizeAnnotations AdmissionVM VMMutator.
From S2P Require Import VMMutatorResults VMMutatorFields VMValidator VMVolumeValidator VMNetworkValidator.
From S2P Require Import VMValidateHandlers VMAdmissionResults VMAdmissionDevices.
Local Open Scope Z_scope.
Local Open Scope go_scope.

(** ** An encoding of annotations *)

Definition zero : Ascii.ascii := Ascii.ascii_of_nat 48.
Definition one : Ascii.ascii := Ascii.ascii_of_nat 49.

Fixpoint bits (p : positive) : string :=
  match p with
  | xH => EmptyString
  | xO p => String.String zero (bits p)
  | xI p => String.String one (bits p)
  end.
Fixpoint unbits (s : string) : positive :=
  match s with
  | EmptyString => xH
  | String.String c s => if bool_decide (c = one) then xI (unbits s) else xO (unbits s)
  end.

Lemma unbits_bits p : unbits (bits p) = p.
Proof. induction p as [p IH|p IH|]; cbn; [by rewrite IH..|done]. Qed.

#[local] Instance resized_countable : Countable lastResizedAnnotation :=
  inj_countable' (λ a, (lr_Name a, lr_UID a, lr_Generation a)) (λ '(n, u, g), mkResized n u g)
    ltac:(by intros []).

#[local] Instance bits_codec : AnnotationCodec := {
  marshal a := inr (bits (encode a));
  unmarshal s := decode (unbits s)
}.

#[local] Instance bits_codec_laws : AnnotationCodecLaws.
Proof.
  split; [by eexists|]. intros a s _ [= <-]. cbn. rewrite unbits_bits. apply decode_encode.
Qed.

(** ** An API server *)

#[local] Instance ex_errors_lib : ErrorsLib := {
  aggregate_unwraps := true;
  aggregate_Error es := String.concat ", " es;
  Duration_String d := "duration"
}.

Definition ex_not_found : goerror := StatusError "NotFound" "not found".

#[local] Instance ex_api : WebhookAPI := {
  ProviderConfigMap _ := inr ∅;
  getNetworkSettings _ := inl ex_not_found;
  ListActiveInstances _ :=
    inr [mkInstance "v1" "VirtualMachineClassInstance" "inst-1" ∅ [mkOwnerRef vmclassKind "class-1" "uid"]];
  GetClassInstance _ _ := inl ex_not_found;
  GetVMI _ n := if bool_decide (n = "vmi-1") then inr n else inl ex_not_found;
  GetCVMI _ := inl ex_not_found;
  ListVMIByStatusName _ _ := inr [];
  ListCVMIByStatusName _ := inr [];
  IsEncryptedStorageClass _ := inr false;
  GetDefaultEncryptionClass _ := inr None;
  GetPVCObject _ _ := inr (mkClaimObject ["ReadWriteOnce"] None);
  GetStoragePolicyID _ _ _ := inr "policy";
  IsStoragePolicyInNamespace _ _ _ := inr true;
  GetZone _ _ := inr false;
  GetAvailabilityZone _ := inr ();
  ListExecutionPolicies _ := inr [];
  time_Parse s := negb (bool_decide (s = ""));
  uuid_Validate s := negb (bool_decide (s = ""));
  ParseIP _ := Some IPv4;
  ParseCIDR _ := inr IPv4;
  ParseGroupVersion s := inr ("", s);
  NameIsDNSSubdomain _ := [];
  IsValidHostName s := negb (bool_decide (s = ""));
  IsValidDomainName _ := true;
  CloudConfigErrors _ := [];
  HardwareVersion z := z;
  MaxValidHardwareVersion := 22;
  IsSystemReservedExtraConfigKey _ := false;
  IsEthernetDeviceKey _ := false;
  IsFirstClassVMXnet3NICKey _ := false;
  netop_GroupVersion := ("netoperator.vmware.com", "v1alpha1");
  vpc_GroupVersion := ("crd.nsx.vmware.com", "v1alpha1");
  NetworkProviderVSphereDistributed := "vsphere-distributed";
  NetworkProviderNSXTier1 := "nsx-tier1";
  NetworkProviderVPC := "nsx-vpc"
}.

(** ** A configuration, a request and a VM *)

Definition ex_features : FeatureStates := mkFeatures true true false false.
Definition ex_cfg (immutableClasses : bool) : WebhookConfig :=
  mkConfig ex_features "build-1" NetworkProviderTypeVDS false false immutableClasses false true true
    false false false false false false false false.
Definition ex_rq (op : Operation) : WebhookRequest :=
  mkRequest op false false false "user" "ns" "2024-01-01T00:00:00Z" "uuid-i" "uuid-b".
Definition no_conflicts (_ : AdmissionVM Z) : list VMError := [].

Definition ex_volume : AdmissionVolume :=
  mkAVolume (mkVolume "data" (OtherApplicationType "") VirtualControllerTypeSCSI (Some 0) (Some 0)
    "Persistent" "None") (Some (mkPVCSource "claim" false None)) (Some false).
Definition ex_hardware : HardwareSpec :=
  mkAHardware [mkSCSI 0 VirtualControllerSharingModeNone SCSIControllerTypeParaVirtualSCSI] [] [] [mkIDE 0; mkIDE 1] [].

(** The annotations of an upgraded VM. *)
Definition ex_upgraded : gmap string string :=
  <[UpgradedToBuildVersionAnnotationKey := "build-1"]> (<[UpgradedToSchemaVersionAnnotationKey := SchemaVersion]>
  {[UpgradedToFeatureVersionAnnotationKey := "7"]}).

Definition ex_vm (annotations : gmap string string) (guestID : string) (volumes : list AdmissionVolume) :
    AdmissionVM Z :=
  mkAVM "vm" "ns" ∅ annotations [] "class-1" None "" (Some (mkImageRef vmiKind "vmi-1")) "storage" "" None
    VirtualMachinePowerStateOn "" "uuid-i" "uuid-b" guestID "" None 0 "" None None volumes (Some ex_hardware) None None
    None None (mkSpec None None None) [] VirtualMachinePowerStateOn [] None.

(** A second volume, which the mutation webhook places. *)
Definition ex_new_volume : AdmissionVolume :=
  mkAVolume (mkVolume "logs" (OtherApplicationType "") NoControllerType None None "" "")
    (Some (mkPVCSource "claim-2" false None)) None.

Definition ex_old : AdmissionVM Z := ex_vm ex_upgraded "guest" [ex_volume].
Definition ex_request : AdmissionVM Z := ex_vm ex_upgraded "guest" [ex_volume; ex_new_volume].
Definition ex_new : AdmissionVM Z :=
  default ex_old (admitted_vm ex_request
    (mutate_update (ex_cfg false) (ex_rq Update) MutateOnUpdateFuncs ex_request ex_old)).

Example ex_new_placed :
  (λ v, vol_UnitNumber (av_Base v)) <$> av_Volumes ex_new = [Some 0; Some 1].
Proof. vm_compute. reflexivity. Qed.

Lemma ex_admitted (by_ : WebhookConfig → WebhookRequest → Prop) :
  by_ (ex_cfg false) (ex_rq Update) → admitted by_ ex_old ex_new.
Proof.
  intros Hby. apply (admitted_by by_ _ _ (ex_cfg false) (ex_rq Update) no_conflicts MutateOnUpdateFuncs ex_request);
    [done|vm_compute; reflexivity..].
Qed.

(** ** The theorems at these VMs *)

Lemma identity_never_changes_witness : same_identity ex_old ex_new.
Proof. apply (identity_never_changes ex_old ex_new). apply rtc_once, ex_admitted. done. Defined.

Lemma user_updates_keep_witness : user_kept ex_old ex_new.
Proof. apply (user_updates_keep ex_old ex_new). apply rtc_once, ex_admitted. done. Defined.



Lemma frozen_until_upgraded_witness :
  frozen (ex_cfg false) (ex_vm ∅ "guest" [ex_volume]) (ex_vm ∅ "guest" [ex_volume; ex_new_volume]).
Proof.
  apply (frozen_until_upgraded (ex_cfg false)); [vm_compute; reflexivity|]. apply rtc_once.
  apply (admitted_by _ _ _ (ex_cfg false) (ex_rq Update) no_conflicts MutateOnUpdateFuncs
    (ex_vm ∅ "guest" [ex_volume; ex_new_volume])); [done|vm_compute; reflexivity..].
Defined.

Definition ex_wsfc : AdmissionVolume :=
  mkAVolume (mkVolume "shared" VolumeApplicationTypeMicrosoftWSFC VirtualControllerTypeSCSI None None
    "IndependentPersistent" "None") (Some (mkPVCSource "claim" false None)) None.

Lemma wsfc_without_bus_panics_witness :
  ValidateCreate (ex_cfg false) (ex_rq Create) no_conflicts (ex_vm ∅ "guest" [ex_wsfc]) = Panic.
Proof.
  apply (wsfc_without_bus_panics (ex_cfg false) (ex_rq Create) no_conflicts (ex_vm ∅ "guest" [ex_wsfc]) ex_wsfc
    (mkPVCSource "claim" false None) (mkClaimObject ["ReadWriteOnce"] None)); try reflexivity; by vm_compute; set_solver.
Defined.

(** A VM as the user writes it. *)
Definition ex_draft : AdmissionVM Z :=
  mkAVM "vm" "ns" ∅ ∅ [] "class-1" None "vmi-1" None "storage" "" None "" "" "" "" "guest" "" None 0 "" None None [] None
    None None None None (mkSpec None None None) [] "" [] None.
Definition ex_created : AdmissionVM Z :=
  default ex_draft (admitted_vm ex_draft (mutate_create (ex_cfg false) (ex_rq Create) MutateOnCreateFuncs ex_draft)).


Lemma update_order_irrelevant_witness :
  mutate_update (ex_cfg false) (ex_rq Update) (rev MutateOnUpdateFuncs) ex_request ex_old =
  mutate_update (ex_cfg false) (ex_rq Update) MutateOnUpdateFuncs ex_request ex_old.
Proof. apply (update_order_irrelevant (ex_cfg false) (ex_rq Update)). symmetry. apply Permutation_rev. Defined.

(** The VM with another class. *)
Definition ex_resized : AdmissionVM Z :=
  default ex_old (admitted_vm (set_ClassName "class-2" ex_old)
    (mutate_update (ex_cfg false) (ex_rq Update) MutateOnUpdateFuncs (set_ClassName "class-2" ex_old) ex_old)).

Lemma class_change_needs_resize_witness :
  ResizeNeeded (av_Annotations ex_resized) (av_ClassName ex_resized) (mkResizeClass "class-2" "uid" 1) = true.
Proof.
  apply (class_change_needs_resize (ex_cfg false) (ex_rq Update) MutateOnUpdateFuncs (set_ClassName "class-2" ex_old)
    ex_old ex_resized); [done..|vm_compute; reflexivity].
Defined.

(** ** Changes that are lost, and a check that is evaded *)

Definition ex_last_resized : gmap string string :=
  <[LastResizedAnnotationKey := bits (encode (mkResized "class-1" "uid" 1))]> ex_upgraded.

(** An update with class instances on whose mutations do not reach the object:
    the webhook resolves the class instance and records the old instance, but
    answers without a patch. *)
Theorem mutations_lost :
  ∃ vm oldVM vm' : AdmissionVM Z,
    mutated_vm (ex_cfg true) (ex_rq Update) MutateOnUpdateFuncs vm oldVM = Some vm' ∧
    av_Class vm' ≠ av_Class vm ∧
    is_Some (av_Annotations vm' !! LastResizedInstanceAnnotationKey) ∧
    av_Annotations vm !! LastResizedInstanceAnnotationKey = None ∧
    mutate_update (ex_cfg true) (ex_rq Update) MutateOnUpdateFuncs vm oldVM = MAllowed.
Proof.
  exists (ex_vm ex_last_resized "guest" []), (ex_vm ex_last_resized "guest" []).
  eexists. split; [vm_compute; reflexivity|]. split; [vm_compute; discriminate|].
  split; [vm_compute; by eexists|]. split; vm_compute; reflexivity.
Qed.

(** A user without privileges changes the guest of a VM that is on and stays on,
    with no power-on check on the VM: the webhook takes any annotation that starts
    like the domain of the checks for one. *)
Theorem guest_changed_while_on :
  ∃ vm vm' : AdmissionVM Z,
    rtc (admitted (λ _ rq, IsPrivilegedAccount rq = false)) vm vm' ∧
    av_PowerState vm = VirtualMachinePowerStateOn ∧ av_PowerState vm' = VirtualMachinePowerStateOn ∧
    (∀ k, check_annotation k → av_Annotations vm' !! k = None) ∧ av_GuestID vm' ≠ av_GuestID vm.
Proof.
  pose (mark := <[CheckAnnotationPowerOn := ""]> ex_upgraded).
  exists (ex_vm ex_upgraded "guest" []), (ex_vm mark "other" []). split_and!; [|done|done| |done].
  - eapply rtc_l; [|apply rtc_once].
    + apply (admitted_by _ _ (ex_vm mark "guest" []) (ex_cfg false) (ex_rq Update) no_conflicts MutateOnUpdateFuncs
        (ex_vm mark "guest" [])); [done|vm_compute; reflexivity..].
    + apply (admitted_by _ _ _ (ex_cfg false) (ex_rq Update) no_conflicts MutateOnUpdateFuncs (ex_vm mark "other" []));
        [done|vm_compute; reflexivity..].
  - assert (map_Forall (λ k _, ¬ (HasPrefix k (CheckAnnotationPowerOn +:+ "/") = true) ∧
      ¬ (HasPrefix k (CheckAnnotationDelete +:+ "/") = true)) mark) as Hm.
    { apply (bool_decide_unpack _). vm_compute. reflexivity. }
    intros k Hk. destruct (av_Annotations _ !! k) as [v|] eqn:Hv; [|done].
    destruct (Hm k v Hv) as [Hon Hdel]. destruct Hk; [exfalso; by apply Hon|exfalso; by apply Hdel].
Qed.
