(* ===== verification/SnapshotCapacity.v ===== *)
(** * Storage accounting: objects and the capacity of a snapshot

    api/v1alpha6/virtualmachinesnapshot_types.go and pkg/util/kube/vmsnapshot.go.
    The capacity a snapshot may need, per storage class, is the memory of the VM
    if it is included, its classic disks and its claims.

    The API server, the provider and controller-runtime are the class
    [StorageAPI].  Quantities are those of [Compute], with sums: [Amounts]. *)

From S2P Require Import Prelude Conditions Hardware GoErrors VMGroup Compute Volumes AdmissionVM.
Local Open Scope Z_scope.
Local Open Scope go_scope.

(** ** Sums of quantities *)

Class Amounts (Q : Type) := { q_Add : Q → Q → Q; q_Sub : Q → Q → Q }.

(** Quantities are multiples of a billionth; [amount] counts those. *)
Class AmountsLaws (Q : Type) `{Quantity Q} `{Amounts Q} := {
  amount : Q → Z;
  amount_New n : amount (NewQuantity n) = n * 1000000000;
  amount_Add a b : amount (q_Add a b) = amount a + amount b;
  amount_Sub a b : amount (q_Sub a b) = amount a - amount b;
  amount_Cmp a b : Cmp a b = (amount a ?= amount b)
}.

#[global] Instance Z_amounts : Amounts Z := { q_Add := Z.add; q_Sub := Z.sub }.
#[global] Instance Z_amounts_laws : AmountsLaws Z.
Proof.
  refine {| amount q := q * 1000000000 |}; [done|intros; cbn; lia..|].
  intros a b. cbn. destruct (Z.compare_spec a b), (Z.compare_spec (a * 1000000000) (b * 1000000000)); done || lia.
Defined.

(** ** Objects *)

Section Objects.
Context {Q : Type}.

Record UsageVolume := mkUsageVolume {
  us_Name : string;
  us_Type : VolumeType;
  us_Requested : option Q;
  us_Limit : option Q
}.
(** A claim of a volume: its name, or an instance storage volume with its
    storage class and size. *)
Record UsageClaim := mkUsageClaim { uc_ClaimName : string; uc_Instance : option (string * Q) }.

(** What is read of a VM.  [uv_Memory] is the memory of the hardware status with
    its total, [uv_Storage] the storage status with its total. *)
Record UsageVM := mkUsageVM {
  uv_Namespace : string;
  uv_Name : string;
  uv_UID : string;
  uv_Labels : gmap string string;
  uv_Annotations : gmap string string;
  uv_Deleting : bool;
  uv_Conditions : Conditions;
  uv_ClassName : string;
  uv_StorageClass : string;
  uv_Image : option ImageRef;
  uv_Volumes : list (string * option UsageClaim);
  uv_SCSIControllers : list SCSIControllerSpec;
  uv_BootDiskCapacity : option Q;
  uv_UniqueID : string;
  uv_Memory : option (option Q);
  uv_Storage : option (option Q);
  uv_StatusVolumes : list UsageVolume;
  uv_CurrentSnapshot : option string;
  uv_RootSnapshots : list string
}.

Record SnapshotRequested := mkSnapRequested { sr_StorageClass : string; sr_Total : option Q }.
Record SnapshotStorage := mkSnapStorage { ss_Used : option Q; ss_Requested : option (list SnapshotRequested) }.

(** [sn_Quiesce] is the quiesce spec with its timeout. *)
Record Snapshot := mkSnapshot {
  sn_Namespace : string;
  sn_Name : string;
  sn_Labels : gmap string string;
  sn_Annotations : gmap string string;
  sn_Finalizers : list string;
  sn_Owners : list OwnerRef;
  sn_Deleting : bool;
  sn_Memory : bool;
  sn_Quiesce : option (option Z);
  sn_Description : string;
  sn_VMName : string;
  sn_Conditions : Conditions;
  sn_Storage : option SnapshotStorage
}.

Definition set_sn_Labels (x : gmap string string) (s : Snapshot) : Snapshot :=
  mkSnapshot (sn_Namespace s) (sn_Name s) x (sn_Annotations s) (sn_Finalizers s) (sn_Owners s) (sn_Deleting s)
    (sn_Memory s) (sn_Quiesce s) (sn_Description s) (sn_VMName s) (sn_Conditions s) (sn_Storage s).
Definition set_sn_Annotations (x : gmap string string) (s : Snapshot) : Snapshot :=
  mkSnapshot (sn_Namespace s) (sn_Name s) (sn_Labels s) x (sn_Finalizers s) (sn_Owners s) (sn_Deleting s)
    (sn_Memory s) (sn_Quiesce s) (sn_Description s) (sn_VMName s) (sn_Conditions s) (sn_Storage s).
Definition set_sn_Finalizers (x : list string) (s : Snapshot) : Snapshot :=
  mkSnapshot (sn_Namespace s) (sn_Name s) (sn_Labels s) (sn_Annotations s) x (sn_Owners s) (sn_Deleting s)
    (sn_Memory s) (sn_Quiesce s) (sn_Description s) (sn_VMName s) (sn_Conditions s) (sn_Storage s).
Definition set_sn_Owners (x : list OwnerRef) (s : Snapshot) : Snapshot :=
  mkSnapshot (sn_Namespace s) (sn_Name s) (sn_Labels s) (sn_Annotations s) (sn_Finalizers s) x (sn_Deleting s)
    (sn_Memory s) (sn_Quiesce s) (sn_Description s) (sn_VMName s) (sn_Conditions s) (sn_Storage s).
Definition set_sn_Conditions (x : Conditions) (s : Snapshot) : Snapshot :=
  mkSnapshot (sn_Namespace s) (sn_Name s) (sn_Labels s) (sn_Annotations s) (sn_Finalizers s) (sn_Owners s)
    (sn_Deleting s) (sn_Memory s) (sn_Quiesce s) (sn_Description s) (sn_VMName s) x (sn_Storage s).
Definition set_sn_Storage (x : option SnapshotStorage) (s : Snapshot) : Snapshot :=
  mkSnapshot (sn_Namespace s) (sn_Name s) (sn_Labels s) (sn_Annotations s) (sn_Finalizers s) (sn_Owners s)
    (sn_Deleting s) (sn_Memory s) (sn_Quiesce s) (sn_Description s) (sn_VMName s) (sn_Conditions s) x.

(** [pc_Requested] is [Resources.Requests.Storage()], absent when there are no
    requests. *)
Record PVC := mkPVC { pc_Name : string; pc_StorageClassName : option string; pc_Requested : option Q }.

(** A StoragePolicyUsage: its storage class and the usage of the resource type. *)
Record StoragePolicyUsage := mkSPU {
  spu_StorageClassName : string;
  spu_Usage : option (option Q * option Q)
}.

Record UsageImage := mkUsageImage { ui_Type : string; ui_Conditions : Conditions; ui_DiskLimits : list (option Q) }.
End Objects.
Arguments UsageVolume : clear implicits.
Arguments UsageClaim : clear implicits.
Arguments UsageVM : clear implicits.
Arguments SnapshotRequested : clear implicits.
Arguments SnapshotStorage : clear implicits.
Arguments Snapshot : clear implicits.
Arguments PVC : clear implicits.
Arguments StoragePolicyUsage : clear implicits.
Arguments UsageImage : clear implicits.

(** ** The API server, the provider and controller-runtime *)

Class StorageAPI (W Q : Type) := {
  st_Now : W → Z;
  st_IsNotFound : goerror → bool;
  st_GetVM : string → string → W → goerror + UsageVM Q;
  st_GetSnapshot : string → string → W → goerror + Snapshot Q;
  st_NewHelper : Snapshot Q → option goerror;
  st_PatchSnapshot : Snapshot Q → Snapshot Q → W → W * option goerror;
  st_ContainsFinalizer : list string → string → bool;
  st_AddFinalizer : list string → string → list string;
  st_RemoveFinalizer : list string → string → list string;
  st_SetOwnerReference : UsageVM Q → list OwnerRef → goerror + list OwnerRef;
  (** the provider: delete a snapshot (true if the VM is gone), read the tree of
      snapshots into the status of the VM, the size of a snapshot *)
  st_DeleteSnapshot : Snapshot Q → UsageVM Q → W → W * (goerror + bool);
  st_SyncVMSnapshotTreeStatus : UsageVM Q → W → goerror + UsageVM Q;
  st_PatchVMStatus : UsageVM Q → UsageVM Q → W → W * option goerror;
  st_GetSnapshotSize : string → UsageVM Q → W → goerror + Z;
  (** the event that makes the usage of a storage class be computed *)
  st_SyncStorageUsage : string → string → W → W;
  st_GetPVC : string → string → W → goerror + PVC Q;
  st_ListVMs : string → string → W → goerror + list (UsageVM Q);
  st_ListSnapshots : string → W → goerror + list (Snapshot Q);
  (** a usage is read twice; others may write in between *)
  st_GetSPU : string → string → W → W * (goerror + StoragePolicyUsage Q);
  st_PatchSPU : string → string → StoragePolicyUsage Q → StoragePolicyUsage Q → W → W * option goerror;
  st_GetVMI : string → string → W → goerror + UsageImage Q;
  st_GetCVMI : string → W → goerror + UsageImage Q;
  (** the parameters of a storage class *)
  st_GetStorageClass : string → W → goerror + gmap string string;
  (** the ConfigSpec of a class, as it is stored; its memory and reservation, in MB *)
  st_GetClassConfigSpec : string → string → W → goerror + string;
  st_UnmarshalConfigSpecFromJSON : string → goerror + Z * option Z;
  (** the orders in which maps and sets are visited *)
  st_range {A} : gmap string A → list (string * A);
  st_range_perm {A} (m : gmap string A) : st_range m ≡ₚ map_to_list m;
  st_UnsortedList : gset string → list string;
  st_UnsortedList_perm (s : gset string) : st_UnsortedList s ≡ₚ elements s
}.

(** ** The capacity of a snapshot *)

Section Capacity.
Context {W Q : Type} `{Quantity Q} `{Amounts Q} `{StorageAPI W Q}.
Implicit Types (vm : UsageVM Q) (snap : Snapshot Q) (w : W).

Definition zero_quantity : Q := NewQuantity 0.

(** [requestedMap[sc].Add(q)], with an entry made if there is none. *)
Definition add_capacity (m : gmap string Q) (sc : string) (q : Q) : gmap string Q :=
  <[sc := q_Add (default zero_quantity (m !! sc)) q]> m.

Definition memory_capacity snap vm (m : gmap string Q) : outcome goerror (gmap string Q) :=
  if negb (sn_Memory snap) then Ok m
  else match uv_Memory vm with
  | None => Err (ErrorString "failed to calculate reserved storage capacity for snapshot since VM does not have memory usage set")
  | Some None => Panic
  | Some (Some total) => Ok (add_capacity m (uv_StorageClass vm) total)
  end.

(** The claims of the spec by volume name; a later one wins. *)
Definition volumePVCMap vm : gmap string (UsageClaim Q) :=
  foldl (λ m v, match v.2 with Some c => <[v.1 := c]> m | None => m end) ∅ (uv_Volumes vm).

(** The storage class and size a volume adds, if any. *)
Definition volume_capacity vm (namespace : string) (v : UsageVolume Q) w : goerror + option (string * Q) :=
  match us_Type v with
  | VolumeTypeClassic =>
    match us_Requested v with
    | None => inl (ErrorString "requested is not set for classic disk")
    | Some q => inr (Some (uv_StorageClass vm, q))
    end
  | VolumeTypeManaged =>
    match volumePVCMap vm !! us_Name v with
    | None => inr None
    | Some claim =>
      match uc_Instance claim with
      | Some c => inr (Some c)
      | None =>
        match st_GetPVC namespace (uc_ClaimName claim) w with
        | inl err => inl (Wrapped ("failed to get pvc " +:+ uc_ClaimName claim +:+ " for volume " +:+ us_Name v) err)
        | inr pvc =>
          match pc_StorageClassName pvc with
          | None => inl (ErrorString ("storage class is not set for pvc " +:+ pc_Name pvc))
          | Some sc =>
            match pc_Requested pvc with
            | None => inl (ErrorString ("requests is not set for pvc " +:+ pc_Name pvc))
            | Some q => inr (Some (sc, q))
            end
          end
        end
      end
    end
  | OtherVolumeType t => inl (ErrorString ("unsupported volume type " +:+ t))
  end.

Fixpoint volumes_capacity vm (namespace : string) (vols : list (UsageVolume Q)) (m : gmap string Q) w :
    goerror + gmap string Q :=
  match vols with
  | [] => inr m
  | v :: vols =>
    match volume_capacity vm namespace v w with
    | inl err => inl err
    | inr None => volumes_capacity vm namespace vols m w
    | inr (Some (sc, q)) => volumes_capacity vm namespace vols (add_capacity m sc q) w
    end
  end.

Definition CalculateReservedForSnapshotPerStorageClass snap w : outcome goerror (list (SnapshotRequested Q)) :=
  if bool_decide (sn_VMName snap = "") then Err (ErrorString "vmName is not set")
  else match st_GetVM (sn_Namespace snap) (sn_VMName snap) w with
  | inl err => Err (Wrapped ("failed to get VM " +:+ sn_VMName snap) err)
  | inr vm =>
    let? m := memory_capacity snap vm ∅ in
    match volumes_capacity vm (sn_Namespace snap) (uv_StatusVolumes vm) m w with
    | inl err => Err err
    | inr m => Ok ((λ '(sc, q), mkSnapRequested sc (Some q)) <$> st_range m)
    end
  end.
End Capacity.
