(* ===== verification/Snapshots.v ===== *)
(** * VM snapshots: the controller and the webhooks

    controllers/virtualmachinesnapshot/virtualmachinesnapshot_controller.go and
    webhooks/virtualmachinesnapshot.  The set of storage classes whose usage has
    to be computed again is passed along; logging is left out. *)

From S2P Require Import Prelude Conditions Hardware GoErrors VMGroup Compute Volumes AdmissionVM VMValidator.
From S2P Require Import SnapshotCapacity.
Local Open Scope Z_scope.
Local Open Scope go_scope.

Definition snapshotFinalizer : string := "vmoperator.vmware.com/virtualmachinesnapshot".
Definition VMNameForSnapshotLabel : string := "snapshot.vmoperator.vmware.com/vm-name".
Definition CSIVSphereVolumeSyncAnnotationKey : string := "csi.vsphere.volume.sync".
Definition CSIVSphereVolumeSyncAnnotationValueRequested : string := "requested".
Definition CSIVSphereVolumeSyncAnnotationValueCompleted : string := "completed".
Definition VirtualMachineSnapshotReadyCondition : string := "VirtualMachineSnapshotReady".
Definition VirtualMachineSnapshotWaitingForCreationReason : string := "VirtualMachineSnapshotWaitingForCreation".
Definition VirtualMachineSnapshotWaitingForCSISyncReason : string := "VirtualMachineSnapshotWaitingForCSISync".
Definition VirtualMachineSnapshotCreatedCondition : string := "VirtualMachineSnapshotCreated".
Definition VirtualMachineSnapshotWaitingForDiskRegistrationReason : string :=
  "VirtualMachineSnapshotWaitingForDiskRegistration".
Definition VirtualMachineSnapshotCSIVolumeSyncedCondition : string := "VirtualMachineSnapshotCSISynced".
Definition VirtualMachineSnapshotCSIVolumeSyncInProgressReason : string := "VirtualMachineSnapshotCSISyncInProgress".

Definition SkipValidationAnnotationKey : string := "vmoperator.vmware.com.protected/skip-validation".

Definition errVMNameEmpty : goerror := NoRequeueError "VirtualMachineSnapshot VMName is empty" true.

Section Snapshots.
Context {W Q : Type} `{Quantity Q} `{Amounts Q} `{StorageAPI W Q}.
Implicit Types (vm : UsageVM Q) (snap : Snapshot Q) (w : W) (sync : gset string).

(** ** Steps *)

Definition ensureVMNameLabel snap : Snapshot Q :=
  set_sn_Labels (<[VMNameForSnapshotLabel := sn_VMName snap]> (sn_Labels snap)) snap.

Definition sync_completed snap : bool :=
  bool_decide (sn_Annotations snap !! CSIVSphereVolumeSyncAnnotationKey =
    Some CSIVSphereVolumeSyncAnnotationValueCompleted).

Definition ensureCSIVolumeSyncAnnotation snap : Snapshot Q :=
  if sync_completed snap then snap
  else set_sn_Annotations
         (<[CSIVSphereVolumeSyncAnnotationKey := CSIVSphereVolumeSyncAnnotationValueRequested]> (sn_Annotations snap)) snap.

Definition is_created snap : bool := IsTrue (sn_Conditions snap) VirtualMachineSnapshotCreatedCondition.
Definition is_synced snap : bool := IsTrue (sn_Conditions snap) VirtualMachineSnapshotCSIVolumeSyncedCondition.

Definition reconcileSnapshotReadyCondition (now : Z) snap : Snapshot Q :=
  if sn_Deleting snap then snap
  else
    let l := sn_Conditions snap in
    let ready := VirtualMachineSnapshotReadyCondition in
    set_sn_Conditions
      (if negb (is_created snap) &&
          bool_decide (GetReason l VirtualMachineSnapshotCreatedCondition =
                       VirtualMachineSnapshotWaitingForDiskRegistrationReason)
       then MarkFalse now l ready VirtualMachineSnapshotWaitingForDiskRegistrationReason
              "Snapshot is not ready because disk registration hasn't been completed"
       else if negb (is_created snap)
       then MarkFalse now l ready VirtualMachineSnapshotWaitingForCreationReason
              "Snapshot is not ready because it doesn't have created condition"
       else if negb (is_synced snap)
       then MarkFalse now l ready VirtualMachineSnapshotWaitingForCSISyncReason
              "Snapshot is not ready because CSI volume sync hasn't been completed"
       else MarkTrue now l ready) snap.

Definition requested_classes snap : list string :=
  match sn_Storage snap with
  | Some st => sr_StorageClass <$> default [] (ss_Requested st)
  | None => []
  end.

(** The storage status is set before. *)
Definition calculateRequestedCapacity snap sync w : Snapshot Q * gset string * outcome goerror unit :=
  match CalculateReservedForSnapshotPerStorageClass snap w with
  | Ok requested =>
    let used := match sn_Storage snap with Some st => ss_Used st | None => None end in
    let snap := set_sn_Storage (Some (mkSnapStorage used (Some requested))) snap in
    (snap, list_to_set (requested_classes snap) ∪ sync, Ok tt)
  | Err err => (snap, sync, Err (Wrapped "failed to calculate requested capacity for snapshot" err))
  | Panic => (snap, sync, Panic)
  end.

Definition calculateUsedCapacity snap vm sync w : Snapshot Q * gset string * outcome goerror unit :=
  match st_GetSnapshotSize (sn_Name snap) vm w with
  | inl err => (snap, sync, Err (Wrapped "failed to get snapshot size" err))
  | inr size =>
    let requested := match sn_Storage snap with Some st => ss_Requested st | None => None end in
    let snap := set_sn_Storage (Some (mkSnapStorage (Some (NewQuantity size)) requested)) snap in
    if sync_completed snap then
      if negb (is_synced snap)
      then (set_sn_Conditions
              (MarkTrue (st_Now w) (sn_Conditions snap) VirtualMachineSnapshotCSIVolumeSyncedCondition) snap,
            list_to_set (requested_classes snap) ∪ sync, Ok tt)
      else (snap, {[uv_StorageClass vm]} ∪ sync, Ok tt)
    else (snap, sync, Ok tt)
  end.

(** ** Reconciliation *)

(** Once the snapshot exists, its size is read. *)
Definition reconcile_created snap vm sync w : Snapshot Q * gset string * outcome goerror unit :=
  if negb (is_created snap) then (snap, sync, Ok tt)
  else
    let snap := ensureCSIVolumeSyncAnnotation snap in
    let snap := set_sn_Conditions
      (MarkFalse (st_Now w) (sn_Conditions snap) VirtualMachineSnapshotCSIVolumeSyncedCondition
         VirtualMachineSnapshotCSIVolumeSyncInProgressReason "Sync CSI volume requested") snap in
    calculateUsedCapacity snap vm sync w.

Definition snap_ReconcileNormal snap sync w : Snapshot Q * gset string * outcome goerror unit :=
  if negb (st_ContainsFinalizer (sn_Finalizers snap) snapshotFinalizer)
  then (set_sn_Finalizers (st_AddFinalizer (sn_Finalizers snap) snapshotFinalizer) snap, sync, Ok tt)
  else if bool_decide (sn_VMName snap = "") then (snap, sync, Err (ErrorString "vmName is required"))
  else
    let snap := ensureVMNameLabel snap in
    match st_GetVM (sn_Namespace snap) (sn_VMName snap) w with
    | inl err => (snap, sync, Err (Wrapped "failed to get VirtualMachine" err))
    | inr vm =>
      match st_SetOwnerReference vm (sn_Owners snap) with
      | inl err => (snap, sync, Err (Wrapped "failed to set owner reference to snapshot" err))
      | inr owners =>
        let snap := set_sn_Owners owners snap in
        if bool_decide (uv_UniqueID vm = "")
        then (snap, sync, Err (ErrorString "VM hasn't been created and has no uniqueID"))
        else
          let st := default (mkSnapStorage None None) (sn_Storage snap) in
          let snap := set_sn_Storage (Some st) snap in
          match ss_Requested st with
          | Some _ => reconcile_created snap vm sync w
          | None =>
            match calculateRequestedCapacity snap sync w with
            | (snap, sync, Ok _) => reconcile_created snap vm sync w
            | r => r
            end
          end
      end
    end.

Definition deleteSnapshot snap vm w : W * (goerror + bool) :=
  match st_DeleteSnapshot snap vm w with
  | (w, inl err) => (w, inl (Wrapped "failed to delete snapshot" err))
  | r => r
  end.

Definition syncVMSSnapshotTreeStatus vm w : W * option goerror :=
  match st_SyncVMSnapshotTreeStatus vm w with
  | inl err => (w, Some err)
  | inr vm' => st_PatchVMStatus vm vm' w
  end.

Definition remove_finalizer snap : Snapshot Q :=
  set_sn_Finalizers (st_RemoveFinalizer (sn_Finalizers snap) snapshotFinalizer) snap.

Definition snap_ReconcileDelete snap sync w : W * Snapshot Q * gset string * option goerror :=
  if negb (st_ContainsFinalizer (sn_Finalizers snap) snapshotFinalizer) then (w, snap, sync, None)
  else if bool_decide (sn_VMName snap = "") then (w, snap, sync, Some errVMNameEmpty)
  else
    let sync := list_to_set (requested_classes snap) ∪ sync in
    match st_GetVM (sn_Namespace snap) (sn_VMName snap) w with
    | inl err =>
      if st_IsNotFound err then (w, remove_finalizer snap, sync, None)
      else (w, snap, sync, Some (Wrapped "failed to get VirtualMachine" err))
    | inr vm =>
      match deleteSnapshot snap vm w with
      | (w, inl err) => (w, snap, sync, Some (Wrapped "failed to delete snapshot" err))
      | (w, inr true) => (w, remove_finalizer snap, sync, None)
      | (w, inr false) =>
        match syncVMSSnapshotTreeStatus vm w with
        | (w, Some err) => (w, snap, sync, Some err)
        | (w, None) => (w, remove_finalizer snap, sync, None)
        end
      end
    end.

(** The deferred function. *)
Definition snap_finish (original snap : Snapshot Q) sync (res : outcome goerror unit) w : W * outcome goerror unit :=
  let w := foldl (λ w sc, st_SyncStorageUsage (sn_Namespace snap) sc w) w (st_UnsortedList sync) in
  let snap := reconcileSnapshotReadyCondition (st_Now w) snap in
  let '(w, err) := st_PatchSnapshot original snap w in
  (w, match res, err with Ok _, Some err => Err err | _, _ => res end).

Definition snap_Reconcile (namespace name : string) w : W * outcome goerror unit :=
  match st_GetSnapshot namespace name w with
  | inl err => (w, if st_IsNotFound err then Ok tt else Err err)
  | inr snap =>
    match st_NewHelper snap with
    | Some err => (w, Err (Wrapped "failed to init patch helper" err))
    | None =>
      if sn_Deleting snap then
        let '(w, snap', sync, err) := snap_ReconcileDelete snap ∅ w in
        snap_finish snap snap' sync
          (match err with Some err => Err (Wrapped "failed to delete VirtualMachineSnapshot" err) | None => Ok tt end) w
      else
        let '(snap', sync, res) := snap_ReconcileNormal snap ∅ w in
        snap_finish snap snap' sync res w
    end
  end.

(** ** Webhooks *)

Definition SetVMNameLabel snap : Snapshot Q * bool :=
  if bool_decide (sn_VMName snap = "") then (snap, false)
  else match sn_Labels snap !! VMNameForSnapshotLabel with
  | Some _ => (snap, false)
  | None => (ensureVMNameLabel snap, true)
  end.

(** The snapshot after the mutation webhook. *)
Definition snap_Mutate (op : Operation) snap : Snapshot Q :=
  match op with
  | Create | Update => (SetVMNameLabel snap).1
  | _ => snap
  end.

Definition vmNameLabelMismatchErr snap : list VMError :=
  match sn_Labels snap !! VMNameForSnapshotLabel with
  | None => []
  | Some label => err_if (negb (bool_decide (label = sn_VMName snap))) KInvalid
                    (key "metadata.labels" VMNameForSnapshotLabel) "must match spec.vmName"
  end.

Definition validateVMNotVKSNode vm : option string :=
  if HasCAPILabels (uv_Labels vm) then Some "snapshots are not allowed for VKS/TKG nodes" else None.

Definition validateVMControllerSharingMode vm : list VMError :=
  concat ((λ c, err_if (negb (bool_decide (scsi_SharingMode c = VirtualControllerSharingModeNone))) KNotSupported
                  "spec.vmName" "controller sharing mode") <$> uv_SCSIControllers vm).

(** After another error the checks see an empty VM, and find nothing. *)
Definition validateVMFields (vmName namespace : string) w : list VMError :=
  match st_GetVM namespace vmName w with
  | inl err => if st_IsNotFound err then [] else [VErr KInvalid "spec.vmName" (detail_of err)]
  | inr vm =>
    match validateVMNotVKSNode vm with Some msg => [VErr KForbidden "spec.vmName" msg] | None => [] end ++
    validateVMControllerSharingMode vm
  end.

Definition snap_ValidateCreate snap w : list VMError :=
  if bool_decide (sn_VMName snap = "") then [VErr KRequired "spec.vmName" "vmName must be provided"]
  else vmNameLabelMismatchErr snap ++ validateVMFields (sn_VMName snap) (sn_Namespace snap) w.

Definition snap_ValidateUpdate snap (oldSnap : Snapshot Q) : list VMError :=
  ValidateImmutableField (sn_Memory snap) (sn_Memory oldSnap) "spec.memory" ++
  ValidateImmutableField (sn_Quiesce snap) (sn_Quiesce oldSnap) "spec.quiesce" ++
  ValidateImmutableField (sn_VMName snap) (sn_VMName oldSnap) "spec.vmName" ++
  vmNameLabelMismatchErr snap.

(** The webhooks as the builder calls them: what is stored of a snapshot that is
    created, or that replaces an old one; [None] if it is denied.  An update of
    a snapshot that is being deleted is let through. *)
Definition snap_skips snap : bool := bool_decide (is_Some (sn_Annotations snap !! SkipValidationAnnotationKey)).

Definition snap_AdmitCreate snap w : option (Snapshot Q) :=
  let snap := snap_Mutate Create snap in
  if snap_skips snap || bool_decide (snap_ValidateCreate snap w = []) then Some snap else None.

Definition snap_AdmitUpdate snap (oldSnap : Snapshot Q) : option (Snapshot Q) :=
  if sn_Deleting snap then Some snap
  else
    let snap := snap_Mutate Update snap in
    if snap_skips snap || bool_decide (snap_ValidateUpdate snap oldSnap = []) then Some snap else None.
End Snapshots.
