(* ===== verification/StorageUsage.v ===== *)
(** * Storage usage: what the VMs and snapshots of a storage class use

    controllers/virtualmachine/storagepolicyusage/storagepolicyusage_controller.go
    and the names of pkg/util/kube/spq/spq.go.  For a namespace and a storage
    class, one StoragePolicyUsage has the usage of the VMs, another that of the
    snapshots.  A total that cannot be read is [Panic]; logging is left out. *)

From S2P Require Import Prelude Conditions Hardware GoErrors VMGroup Compute Volumes AdmissionVM Priority.
From S2P Require Import SnapshotCapacity Snapshots.
Local Open Scope Z_scope.
Local Open Scope go_scope.

Definition StoragePolicyUsageNameForVM (storageClassName : string) : string := storageClassName +:+ "-vm-usage".
Definition StoragePolicyUsageNameForVMSnapshot (storageClassName : string) : string :=
  storageClassName +:+ "-vmsnapshot-usage".

Section StorageUsage.
Context {W Q : Type} `{Quantity Q} `{Amounts Q} `{StorageAPI W Q}.
Implicit Types (vm : UsageVM Q) (snap : Snapshot Q) (w : W) (total : Q).

(** ** VMs *)

Definition reportUsed vm total : Q :=
  match uv_Storage vm with Some (Some t) => q_Add total t | _ => total end.

Definition add_limits (disks : list (option Q)) total : Q :=
  foldl (λ total d, match d with Some v => q_Add total v | None => total end) total disks.

(** The disks of the image of a VM; an image of another kind has none. *)
Definition image_disks vm (kind name : string) w : goerror + list (option Q) :=
  let disks := λ r : goerror + UsageImage Q,
    match r with
    | inl err => if st_IsNotFound err then inr [] else inl (Wrapped ("failed to get " +:+ kind +:+ " " +:+ name) err)
    | inr img => inr (ui_DiskLimits img)
    end in
  if bool_decide (kind = "VirtualMachineImage") then disks (st_GetVMI (uv_Namespace vm) name w)
  else if bool_decide (kind = "ClusterVirtualMachineImage") then disks (st_GetCVMI name w)
  else inr [].

Definition reportReserved vm total w : goerror + Q :=
  match uv_Image vm with
  | None => inr total
  | Some ref =>
    if bool_decide (ir_Kind ref = "") || bool_decide (ir_Name ref = "") then inr total
    else match image_disks vm (ir_Kind ref) (ir_Name ref) w with
    | inl err => inl err
    | inr disks => inr (add_limits disks total)
    end
  end.

(** Whether a VM is still to report what it uses. *)
Definition unreported vm : bool :=
  negb (bool_decide (is_Some (uv_Storage vm))) || negb (IsTrue (uv_Conditions vm) VirtualMachineConditionCreated).

(** The totals, reserved and used. *)
Fixpoint vm_totals (vms : list (UsageVM Q)) (reserved used : Q) w : goerror + Q * Q :=
  match vms with
  | [] => inr (reserved, used)
  | vm :: vms =>
    if uv_Deleting vm then vm_totals vms reserved used w
    else if unreported vm then
      match reportReserved vm reserved w with
      | inl err => inl (Wrapped ("failed to report reserved capacity for " +:+ uv_Name vm) err)
      | inr reserved => vm_totals vms reserved used w
      end
    else vm_totals vms reserved (reportUsed vm used) w
  end.

Definition write_usage (namespace name : string) (reserved used : Q) w : W * option goerror :=
  match st_GetSPU namespace name w with
  | (w, inl err) => (w, Some (Wrapped ("failed to get StoragePolicyUsage " +:+ name) err))
  | (w, inr spu) =>
    match st_PatchSPU namespace name spu (mkSPU (spu_StorageClassName spu) (Some (Some reserved, Some used))) w with
    | (w, Some err) => (w, Some (Wrapped ("failed to patch StoragePolicyUsage " +:+ name) err))
    | r => r
    end
  end.

Definition ReconcileSPUForVM (namespace scName : string) (vms : list (UsageVM Q)) w : W * option goerror :=
  let name := StoragePolicyUsageNameForVM scName in
  match st_GetSPU namespace name w with
  | (w, inl err) => (w, Some (Wrapped ("failed to get StoragePolicyUsage " +:+ name) err))
  | (w, inr _) =>
    match vm_totals vms zero_quantity zero_quantity w with
    | inl err => (w, Some err)
    | inr (reserved, used) => write_usage namespace name reserved used w
    end
  end.

(** ** Snapshots *)

(** Whether the VMs of the storage class are being deleted, by name. *)
Definition vmDeletionState (vms : list (UsageVM Q)) : gmap string bool :=
  foldl (λ m vm, <[uv_Name vm := uv_Deleting vm]> m) ∅ vms.

(** The first entry of a storage class; a total that is not set is dereferenced. *)
Fixpoint requested_for (sc : string) (l : list (SnapshotRequested Q)) total : outcome goerror Q :=
  match l with
  | [] => Ok total
  | r :: l =>
    if bool_decide (sr_StorageClass r = sc)
    then match sr_Total r with Some t => Ok (q_Add total t) | None => Panic end
    else requested_for sc l total
  end.

Definition reportReservedForSnapshot snap total (storageClass : string) (state : gmap string bool) : outcome goerror Q :=
  if bool_decide (sn_VMName snap = "") then Ok total
  else if default false (state !! sn_VMName snap) then Ok total
  else match sn_Storage snap with
  | Some st => match ss_Requested st with Some l => requested_for storageClass l total | None => Ok total end
  | None => Ok total
  end.

Definition reportUsedForSnapshot snap total (state : gmap string bool) : Q :=
  if bool_decide (sn_VMName snap = "") then total
  else match state !! sn_VMName snap with
  | Some false =>
    match sn_Storage snap with
    | Some st => match ss_Used st with Some u => q_Add total u | None => total end
    | None => total
    end
  | _ => total
  end.

Fixpoint snapshot_totals (snaps : list (Snapshot Q)) (sc : string) (state : gmap string bool) (reserved used : Q) :
    outcome goerror (Q * Q) :=
  match snaps with
  | [] => Ok (reserved, used)
  | snap :: snaps =>
    if sn_Deleting snap then snapshot_totals snaps sc state reserved used
    else if sync_completed snap
    then snapshot_totals snaps sc state reserved (reportUsedForSnapshot snap used state)
    else
      let? reserved := reportReservedForSnapshot snap reserved sc state in
      snapshot_totals snaps sc state reserved used
  end.

Definition ReconcileSPUForVMSnapshot (namespace scName : string) (vms : list (UsageVM Q)) w : W * outcome goerror unit :=
  let name := StoragePolicyUsageNameForVMSnapshot scName in
  match st_GetSPU namespace name w with
  | (w, inl err) => (w, Err (Wrapped ("failed to get StoragePolicyUsage " +:+ name) err))
  | (w, inr spu) =>
    match st_ListSnapshots namespace w with
    | inl err => (w, Err (Wrapped ("failed to list VirtualMachineSnapshots in namespace " +:+ namespace) err))
    | inr snaps =>
      match snapshot_totals snaps (spu_StorageClassName spu) (vmDeletionState vms) zero_quantity zero_quantity with
      | Ok (reserved, used) =>
        let '(w, err) := write_usage namespace name reserved used w in
        (w, match err with Some err => Err err | None => Ok tt end)
      | Err err => (w, Err err)
      | Panic => (w, Panic)
      end
    end
  end.

(** ** Both *)

(** [VMSnapshots] is the feature gate. *)
Definition usage_ReconcileNormal (VMSnapshots : bool) (namespace scName : string) w : W * outcome goerror unit :=
  match st_ListVMs namespace scName w with
  | inl err => (w, Err (Wrapped ("failed to list VMs in namespace " +:+ namespace) err))
  | inr vms =>
    let '(w, err) := ReconcileSPUForVM namespace scName vms w in
    let '(w, snapRes) := if VMSnapshots then ReconcileSPUForVMSnapshot namespace scName vms w else (w, Ok tt) in
    (w, match snapRes with
        | Panic => Panic
        | Err err' => match NewAggregate [err; Some err'] with Some e => Err e | None => Ok tt end
        | Ok _ => match NewAggregate [err] with Some e => Err e | None => Ok tt end
        end)
  end.
End StorageUsage.
