(* ===== verification/StorageQuota.v ===== *)
(** * The storage quota webhook: what a VM or a snapshot would need

    webhooks/unifiedstoragequota/validation/unifiedstoragequota_validator.go.
    The quota framework calls it, with an admission request, for the capacity a
    VM or a snapshot would need in its storage classes.  A request is the
    outcome of decoding it; a reply is the list of what is written to the
    response.  Logging and registration are left out. *)

From S2P Require Import Prelude Conditions Hardware GoErrors VMGroup Compute Volumes AdmissionVM Priority.
From S2P Require Import SnapshotCapacity Snapshots StorageUsage.
Local Open Scope Z_scope.
Local Open Scope go_scope.

Definition vmWebhookPath : string := "/getrequestedcapacityforvirtualmachine".
Definition vmSnapshotWebhookPath : string := "/getrequestedcapacityforvirtualmachinesnapshot".
Definition scParamStoragePolicyID : string := "storagePolicyID".
Definition SkipValidationAllowed : string := "Allowed due to skipping validation".
Definition AdmitMesgUpdateOnDeleting : string :=
  "Update is allowed during deletion in order to remove the finalizers.".
Definition maxRequestSize : Z := 7 * 1024 * 1024.

Definition StatusBadRequest : Z := 400.
Definition StatusNotFound : Z := 404.
Definition StatusRequestEntityTooLarge : Z := 413.
Definition StatusInternalServerError : Z := 500.

(** The text of a request's operation. *)
Definition operation_string (op : Operation) : string :=
  match op with Create => "CREATE" | Update => "UPDATE" | Delete => "DELETE" | Connect => "CONNECT" end.

Section StorageQuota.
Context {W Q : Type} `{Quantity Q} `{Amounts Q} `{StorageAPI W Q} `{ErrorsLib}.
Implicit Types (vm : UsageVM Q) (snap : Snapshot Q) (w : W).

(** ** Requests and responses *)

(** An object of a request: what is read before it is converted, and what
    converting it gives. *)
Record RawObject (A : Type) := mkRaw {
  raw_Annotations : gmap string string;
  raw_Deleting : bool;
  raw_Converted : goerror + A
}.
Arguments mkRaw {A}.
Arguments raw_Annotations {A}.
Arguments raw_Deleting {A}.
Arguments raw_Converted {A}.

Record CapacityRequest (A : Type) := mkRequest {
  req_Operation : Operation;
  req_Object : goerror + RawObject A;
  req_OldObject : goerror + RawObject A
}.
Arguments mkRequest {A}.
Arguments req_Operation {A}.
Arguments req_Object {A}.
Arguments req_OldObject {A}.

Record RequestedCapacity := mkCapacity {
  rc_Capacity : Q;
  rc_StorageClassName : string;
  rc_StoragePolicyID : string
}.

(** The [admission.Response] of an answer, with [webhook.Allowed] and
    [webhook.Errored]. *)
Inductive Admission := CapAllowed (message : string) | CapErrored (code : Z) (err : goerror).

Record CapacityResponse := mkResponse { cr_Capacities : list RequestedCapacity; cr_Response : Admission }.

Definition allowed_with (message : string) : CapacityResponse := mkResponse [] (CapAllowed message).
Definition errored (code : Z) (err : goerror) : CapacityResponse := mkResponse [] (CapErrored code err).

(** A resource that is not found, or another error. *)
Definition get_failed (what : string) (err : goerror) : CapacityResponse :=
  if st_IsNotFound err then errored StatusNotFound err
  else errored StatusInternalServerError (Wrapped ("failed to get " +:+ what) err).

Definition policy_id (params : gmap string string) : string := default "" (params !! scParamStoragePolicyID).

(** ** VMs *)

Definition getSwapCapacity vm w : goerror + option Q :=
  match st_GetClassConfigSpec (uv_Namespace vm) (uv_ClassName vm) w with
  | inl err => inl (Wrapped "failed to get VM class" err)
  | inr raw =>
    match st_UnmarshalConfigSpecFromJSON raw with
    | inl err => inl (Wrapped ("failed to unmarshal ConfigSpec for VM class " +:+ uv_ClassName vm) err)
    | inr (memoryMB, Some reservation) =>
      inr (Some (NewQuantity (wrap64 (wrap64 (memoryMB - reservation) * (1024 * 1024)))))
    | inr (_, None) => inr None
    end
  end.

(** The image of a VM; the image is dereferenced before. *)
Definition vm_image vm (ref : ImageRef) w : CapacityResponse + UsageImage Q :=
  let found := λ (kind : string) (r : goerror + UsageImage Q),
    match r with inl err => inl (get_failed (kind +:+ " " +:+ ir_Name ref) err) | inr img => inr img end in
  if bool_decide (ir_Kind ref = "VirtualMachineImage")
  then found "VirtualMachineImage" (st_GetVMI (uv_Namespace vm) (ir_Name ref) w)
  else if bool_decide (ir_Kind ref = "ClusterVirtualMachineImage")
  then found "ClusterVirtualMachineImage" (st_GetCVMI (ir_Name ref) w)
  else inl (errored StatusBadRequest (ErrorString ("unsupported image kind " +:+ ir_Kind ref))).

(** The sum of the disks of an image; one with no limit adds an empty capacity. *)
Definition disk_capacity (disks : list (option Q)) : Q :=
  foldl (λ capacity d, q_Add capacity (default (NewQuantity 0) d)) (NewQuantity 0) disks.

(** An error of the class does not prevent an answer. *)
Definition with_swap vm (capacity : Q) w : Q :=
  match getSwapCapacity vm w with inr (Some swap) => q_Add capacity swap | _ => capacity end.

Definition vm_HandleCreate (obj : RawObject (UsageVM Q)) w : outcome Empty_set CapacityResponse :=
  match raw_Converted obj with
  | inl err => Ok (errored StatusBadRequest (Wrapped "failed to convert unstructured Object to VirtualMachine" err))
  | inr vm =>
    let scName := uv_StorageClass vm in
    match st_GetStorageClass scName w with
    | inl err => Ok (get_failed ("storage class " +:+ scName) err)
    | inr params =>
      match uv_Image vm with
      | None => Panic
      | Some ref =>
        Ok (match vm_image vm ref w with
            | inl res => res
            | inr img =>
              if bool_decide (ui_Type img = "ISO") then allowed_with ""
              else match ui_DiskLimits img with
              | [] => if IsTrue (ui_Conditions img) ReadyConditionType then allowed_with ""
                      else errored StatusNotFound
                             (ErrorString ("no disks found in image " +:+ ir_Name ref +:+ " status.disks"))
              | disks =>
                mkResponse [mkCapacity (with_swap vm (disk_capacity disks) w) scName (policy_id params)] (CapAllowed "")
              end
            end)
      end
    end
  end.

(** The limit of the first classic disk that has one. *)
Fixpoint first_classic_limit (vols : list (UsageVolume Q)) : Q :=
  match vols with
  | [] => NewQuantity 0
  | v :: vols =>
    match us_Type v, us_Limit v with
    | VolumeTypeClassic, Some q => q
    | _, _ => first_classic_limit vols
    end
  end.

Definition old_capacity (oldVM : UsageVM Q) : Q :=
  match uv_BootDiskCapacity oldVM with
  | Some q => q
  | None => first_classic_limit (uv_StatusVolumes oldVM)
  end.

Definition vm_HandleUpdate (obj oldObj : RawObject (UsageVM Q)) w : CapacityResponse :=
  if raw_Deleting obj then allowed_with AdmitMesgUpdateOnDeleting
  else match raw_Converted obj, raw_Converted oldObj with
  | inl err, _ => errored StatusBadRequest (Wrapped "failed to convert unstructured Object to VirtualMachine" err)
  | inr _, inl err =>
    errored StatusBadRequest (Wrapped "failed to convert unstructured OldObject to VirtualMachine" err)
  | inr vm, inr oldVM =>
    match uv_BootDiskCapacity vm with
    | None => allowed_with ""
    | Some capacity =>
      match Cmp capacity (old_capacity oldVM) with
      | Gt =>
        let scName := uv_StorageClass vm in
        match st_GetStorageClass scName w with
        | inl err => get_failed ("StorageClass " +:+ scName) err
        | inr params =>
          mkResponse [mkCapacity (q_Sub capacity (old_capacity oldVM)) scName (policy_id params)] (CapAllowed "")
        end
      | _ => allowed_with ""
      end
    end
  end.

Definition skips {A} (obj : RawObject A) : bool :=
  bool_decide (is_Some (raw_Annotations obj !! SkipValidationAnnotationKey)).

(** The annotations are read before it is checked that there is an object. *)
Definition vm_Handle (req : CapacityRequest (UsageVM Q)) w : outcome Empty_set CapacityResponse :=
  let decode := λ k : RawObject (UsageVM Q) → outcome Empty_set CapacityResponse,
    match req_Object req with
    | inl err => Ok (errored StatusBadRequest (Wrapped "failed to decode raw Request.Object" err))
    | inr obj => if skips obj then Ok (allowed_with SkipValidationAllowed) else k obj
    end in
  match req_Operation req with
  | Create => decode (λ obj, vm_HandleCreate obj w)
  | Update =>
    decode (λ obj, match req_OldObject req with
                   | inl err => Ok (errored StatusBadRequest (Wrapped "failed to decode raw Request.OldObject" err))
                   | inr oldObj => Ok (vm_HandleUpdate obj oldObj w)
                   end)
  | Delete | Connect => Panic
  end.

(** ** Snapshots *)

(** The policy of each storage class; a total that is not set is dereferenced. *)
Fixpoint snapshot_capacities (l : list (SnapshotRequested Q)) w :
    outcome Empty_set (CapacityResponse + list RequestedCapacity) :=
  match l with
  | [] => Ok (inr [])
  | r :: l =>
    match sr_Total r with
    | None => Panic
    | Some total =>
      let scName := sr_StorageClass r in
      match st_GetStorageClass scName w with
      | inl err => Ok (inl (get_failed ("storage class " +:+ scName) err))
      | inr params =>
        let? rest := snapshot_capacities l w in
        Ok (match rest with
            | inl res => inl res
            | inr rest => inr (mkCapacity total scName (policy_id params) :: rest)
            end)
      end
    end
  end.

Definition snapshot_HandleCreate (obj : RawObject (Snapshot Q)) w : outcome Empty_set CapacityResponse :=
  match raw_Converted obj with
  | inl err => Ok (errored StatusBadRequest (Wrapped "unable to convert unstructured to VirtualMachineSnapshot" err))
  | inr snap =>
    match CalculateReservedForSnapshotPerStorageClass snap w with
    | Panic => Panic
    | Err err =>
      Ok (errored StatusInternalServerError
            (Wrapped ("unable to calculate reserved capacity for snapshot " +:+ sn_Name snap) err))
    | Ok requested =>
      let? r := snapshot_capacities requested w in
      Ok (match r with inl res => res | inr caps => mkResponse caps (CapAllowed "") end)
    end
  end.

Definition snapshot_Handle (req : CapacityRequest (Snapshot Q)) w : outcome Empty_set CapacityResponse :=
  match req_Operation req with
  | Create =>
    match req_Object req with
    | inl err => Ok (errored StatusBadRequest (Wrapped "unable to decode object" err))
    | inr obj => if skips obj then Ok (allowed_with SkipValidationAllowed) else snapshot_HandleCreate obj w
    end
  | op => Ok (allowed_with (operation_string op))
  end.

(** ** HTTP *)

(** The body that is read ([None]: there is none), its content type, and the
    request it decodes to. *)
Record HTTPRequest (A : Type) := mkHTTP {
  http_Body : option (goerror + Z);
  http_ContentType : string;
  http_Review : goerror + A
}.
Arguments mkHTTP {A}.
Arguments http_Body {A}.
Arguments http_ContentType {A}.
Arguments http_Review {A}.

(** What is written: an error with its status, the capacities, the legacy
    answer with at most one capacity, or a JSON null. *)
Inductive Written :=
  | HTTPError (message : string) (code : Z)
  | JSONCapacities (l : list RequestedCapacity)
  | JSONLegacy (c : option RequestedCapacity)
  | JSONNull
  | JSONServerError (err : goerror).

(** Encoding a value writes it, or fails and writes an error if that works. *)
Definition encode (enc : Written → option goerror) (v : Written) : list Written :=
  match enc v with
  | None => [v]
  | Some err =>
    match enc (JSONServerError err) with None => [JSONServerError err] | Some _ => [] end
  end.

Definition write_error (path : string) (code : Z) (err : goerror) : Written :=
  HTTPError (path +:+ ": " +:+ Error err) code.

Definition vm_WriteResponse (enc : Written → option goerror) (VMSnapshots : bool) (res : CapacityResponse) : list Written :=
  match cr_Response res with
  | CapErrored code err => [write_error vmWebhookPath code err]
  | CapAllowed _ =>
    encode enc
      (if VMSnapshots then JSONCapacities (cr_Capacities res)
       else match cr_Capacities res with
       | [c] => JSONLegacy (Some c)
       | [] => JSONLegacy None
       | _ => JSONNull
       end)
  end.

(** The capacities are written after an error too. *)
Definition snapshot_WriteResponse (enc : Written → option goerror) (res : CapacityResponse) : list Written :=
  match cr_Response res with CapErrored code err => [write_error vmSnapshotWebhookPath code err] | CapAllowed _ => [] end ++
  encode enc (JSONCapacities (cr_Capacities res)).

Definition serveHTTP {A} (write : CapacityResponse → list Written) (handle : A → W → outcome Empty_set CapacityResponse)
    (r : HTTPRequest A) w : outcome Empty_set (list Written) :=
  let bad := λ code msg, Ok (write (errored code (ErrorString msg))) in
  match http_Body r with
  | None => bad StatusBadRequest "request body is empty"
  | Some (inl err) => Ok (write (errored StatusBadRequest err))
  | Some (inr size) =>
    if maxRequestSize <=? size
    then bad StatusRequestEntityTooLarge ("request entity is too large; limit is " +:+ pretty maxRequestSize +:+ " bytes")
    else if negb (bool_decide (http_ContentType r = "application/json"))
    then bad StatusBadRequest ("contentType=" +:+ http_ContentType r +:+ ", expected application/json")
    else match http_Review r with
    | inl err => Ok (write (errored StatusBadRequest err))
    | inr req => let? res := handle req w in Ok (write res)
    end
  end.
End StorageQuota.
Arguments RequestedCapacity : clear implicits.
Arguments CapacityResponse : clear implicits.
Arguments Written : clear implicits.
#[global] Arguments mkRaw {A}.
#[global] Arguments raw_Annotations {A}.
#[global] Arguments raw_Deleting {A}.
#[global] Arguments raw_Converted {A}.
#[global] Arguments mkRequest {A}.
#[global] Arguments req_Operation {A}.
#[global] Arguments req_Object {A}.
#[global] Arguments req_OldObject {A}.
#[global] Arguments mkHTTP {A}.
#[global] Arguments http_Body {A}.
#[global] Arguments http_ContentType {A}.
#[global] Arguments http_Review {A}.
