(* ===== verification/StorageResults.v ===== *)
(** * Storage accounting: results on capacities and usage

    The capacity of a snapshot per storage class is the sum of what its memory
    and its volumes need there.  The usage of a storage class is the sum of what
    its VMs and snapshots use or may need.  What the quota webhook asks for a
    snapshot is what its usage reserves later. *)

From S2P Require Import Prelude Conditions Hardware GoErrors VMGroup Compute Volumes AdmissionVM Priority.
From S2P Require Import SnapshotCapacity Snapshots StorageUsage StorageQuota.
Local Open Scope Z_scope.
Local Open Scope go_scope.

(** ** Sums *)

Fixpoint sum_of {A} (f : A → Z) (l : list A) : Z :=
  match l with [] => 0 | a :: l => f a + sum_of f l end.

Lemma sum_of_app {A} (f : A → Z) l l' : sum_of f (l ++ l') = sum_of f l + sum_of f l'.
Proof. induction l as [|a l IH]; [done|]. cbn. rewrite IH. lia. Qed.

#[global] Instance sum_of_proper {A} (f : A → Z) : Proper ((≡ₚ) ==> eq) (sum_of f).
Proof. intros l l'. induction 1; cbn; lia. Qed.

Section Sums.
Context {Q : Type} `{AmountsLaws Q}.

Definition amount_of (q : option Q) : Z := from_option amount 0 q.
(** What a list of storage classes and sizes has of a storage class. *)
Definition class_amount (sc : string) (c : string * Q) : Z := if bool_decide (c.1 = sc) then amount c.2 else 0.
Definition class_sum (sc : string) (l : list (string * Q)) : Z := sum_of (class_amount sc) l.

Lemma amount_zero : amount zero_quantity = 0.
Proof. unfold zero_quantity. rewrite amount_New. lia. Qed.

Lemma amount_default (q : option Q) : amount (default zero_quantity q) = amount_of q.
Proof. destruct q; [done|apply amount_zero]. Qed.

Lemma add_capacity_amount (m : gmap string Q) sc q sc' :
  amount_of (add_capacity m sc q !! sc') = amount_of (m !! sc') + class_amount sc' (sc, q).
Proof.
  unfold add_capacity, class_amount. cbn. destruct (decide (sc = sc')) as [->|Hne].
  - rewrite lookup_insert_eq, bool_decide_true by done. cbn. by rewrite amount_Add, amount_default.
  - rewrite lookup_insert_ne, bool_decide_false by done. lia.
Qed.

Lemma add_capacity_dom (m : gmap string Q) sc q : dom (add_capacity m sc q) = {[sc]} ∪ dom m.
Proof. unfold add_capacity. by rewrite dom_insert_L. Qed.

(** With one entry per storage class, the sum is the entry. *)
Lemma class_sum_entry (m : gmap string Q) sc : class_sum sc (map_to_list m) = amount_of (m !! sc).
Proof.
  induction m as [|i x m Hi IH] using map_ind; [by rewrite map_to_list_empty, lookup_empty|].
  unfold class_sum in *. rewrite map_to_list_insert by done. cbn. rewrite IH. unfold class_amount. cbn.
  destruct (decide (i = sc)) as [->|Hne].
  - rewrite bool_decide_true, lookup_insert_eq, Hi by done. cbn. lia.
  - rewrite bool_decide_false, lookup_insert_ne by done. lia.
Qed.
End Sums.

(** ** The capacity of a snapshot *)

Section Capacity.
Context {W Q : Type} `{AmountsLaws Q} `{StorageAPI W Q}.
Implicit Types (vm : UsageVM Q) (snap : Snapshot Q) (w : W) (sc : string).

(** What the memory and the volumes of a VM need, one by one. *)
Definition memory_needs snap vm : list (string * Q) :=
  match sn_Memory snap, uv_Memory vm with
  | true, Some (Some total) => [(uv_StorageClass vm, total)]
  | _, _ => []
  end.
Definition volume_needs vm (namespace : string) w (v : UsageVolume Q) : list (string * Q) :=
  match volume_capacity vm namespace v w with inr (Some c) => [c] | _ => [] end.
Definition snapshot_needs snap vm w : list (string * Q) :=
  memory_needs snap vm ++ (uv_StatusVolumes vm ≫= volume_needs vm (sn_Namespace snap) w).

(** Everything that is needed can be read. *)
Definition readable snap vm w : Prop :=
  (sn_Memory snap = true → ∃ total, uv_Memory vm = Some (Some total)) ∧
  ∀ v, v ∈ uv_StatusVolumes vm → is_Some (maybe inr (volume_capacity vm (sn_Namespace snap) v w)).

Lemma volumes_capacity_spec vm ns vols (m : gmap string Q) w m' :
  volumes_capacity vm ns vols m w = inr m' →
  (∀ v, v ∈ vols → is_Some (maybe inr (volume_capacity vm ns v w))) ∧
  (∀ sc, amount_of (m' !! sc) = amount_of (m !! sc) + class_sum sc (vols ≫= volume_needs vm ns w)) ∧
  dom m' = dom m ∪ list_to_set (vols ≫= volume_needs vm ns w).*1.
Proof.
  revert m. induction vols as [|v vols IH]; intros m; cbn.
  { intros [= ->]. split_and!; [set_solver|intros; unfold class_sum; cbn; lia|set_solver]. }
  unfold volume_needs at 1 3. destruct (volume_capacity vm ns v w) as [err|[[sc q]|]] eqn:E; [done|..].
  - intros (Hr & Hs & Hd)%IH. split_and!.
    + intros v' [->|Hv]%elem_of_cons; [by rewrite E|by apply Hr].
    + intros sc'. rewrite Hs, add_capacity_amount. unfold class_sum. cbn. lia.
    + rewrite Hd, add_capacity_dom. cbn. set_solver.
  - intros (Hr & Hs & Hd)%IH. split_and!; [|done..].
    intros v' [->|Hv]%elem_of_cons; [by rewrite E|by apply Hr].
Qed.

Lemma volumes_capacity_total vm ns vols (m : gmap string Q) w :
  (∀ v, v ∈ vols → is_Some (maybe inr (volume_capacity vm ns v w))) →
  ∃ m', volumes_capacity vm ns vols m w = inr m'.
Proof.
  revert m. induction vols as [|v vols IH]; intros m Hr; cbn; [by eexists|].
  destruct (Hr v ltac:(set_solver)) as [c Ec]. destruct (volume_capacity vm ns v w) as [|[[sc q]|]]; [done|..];
    apply IH; set_solver.
Qed.

(** The map the capacities are summed in. *)
Definition capacity_map snap vm w (m : gmap string Q) : Prop :=
  (∀ sc, amount_of (m !! sc) = class_sum sc (snapshot_needs snap vm w)) ∧
  dom m = list_to_set (snapshot_needs snap vm w).*1.

Lemma memory_capacity_spec snap vm (m : gmap string Q) :
  memory_capacity snap vm ∅ = Ok m →
  (sn_Memory snap = true → ∃ total, uv_Memory vm = Some (Some total)) ∧
  (∀ sc, amount_of (m !! sc) = class_sum sc (memory_needs snap vm)) ∧
  dom m = list_to_set (memory_needs snap vm).*1.
Proof.
  unfold memory_capacity, memory_needs. destruct (sn_Memory snap); cbn [negb].
  - destruct (uv_Memory vm) as [[total|]|]; [|done..]. intros [= <-]. split_and!; [by eauto|..].
    + intros sc. rewrite add_capacity_amount, lookup_empty. unfold class_sum. cbn. lia.
    + rewrite add_capacity_dom, dom_empty_L. cbn. set_solver.
  - intros [= <-]. split_and!; [done|intros sc; by rewrite lookup_empty|by rewrite dom_empty_L].
Qed.

Lemma calculate_inv snap w l :
  CalculateReservedForSnapshotPerStorageClass snap w = Ok l →
  ∃ vm m, sn_VMName snap ≠ "" ∧ st_GetVM (sn_Namespace snap) (sn_VMName snap) w = inr vm ∧ readable snap vm w ∧
    capacity_map snap vm w m ∧ l = (λ '(sc, q), mkSnapRequested sc (Some q)) <$> st_range m.
Proof.
  unfold CalculateReservedForSnapshotPerStorageClass. case_bool_decide as Hn; [done|].
  destruct (st_GetVM _ _ w) as [|vm] eqn:Ev; [done|].
  destruct (memory_capacity snap vm ∅) as [m0| |] eqn:Em; cbn [outcome_bind]; [|done..].
  destruct (volumes_capacity _ _ _ m0 w) as [|m] eqn:Evol; [done|]. intros [= <-].
  apply memory_capacity_spec in Em as (Hm & Hs & Hd). apply volumes_capacity_spec in Evol as (Hr & Hs' & Hd').
  exists vm, m. split_and!; [done..|by split| |done]. split.
  - intros sc. rewrite Hs', Hs. unfold class_sum, snapshot_needs. by rewrite sum_of_app.
  - rewrite Hd', Hd. unfold snapshot_needs. by rewrite fmap_app, list_to_set_app_L.
Qed.

Lemma calculate_total snap w vm :
  sn_VMName snap ≠ "" → st_GetVM (sn_Namespace snap) (sn_VMName snap) w = inr vm → readable snap vm w →
  ∃ l, CalculateReservedForSnapshotPerStorageClass snap w = Ok l.
Proof.
  intros Hn Ev [Hm Hr]. unfold CalculateReservedForSnapshotPerStorageClass.
  rewrite bool_decide_false, Ev by done. unfold memory_capacity. destruct (sn_Memory snap); cbn [negb].
  - destruct Hm as [total ->]; [done|]. cbn [outcome_bind].
    destruct (volumes_capacity_total vm _ _ (add_capacity ∅ (uv_StorageClass vm) total) w Hr) as [m' ->]. eauto.
  - cbn [outcome_bind]. destruct (volumes_capacity_total vm _ _ ∅ w Hr) as [m' ->]. eauto.
Qed.

(** What a list of requested capacities has of a storage class. *)
Definition requested_sum (sc : string) (l : list (SnapshotRequested Q)) : Z :=
  sum_of (λ r, if bool_decide (sr_StorageClass r = sc) then amount_of (sr_Total r) else 0) l.

Lemma requested_sum_range sc (m : gmap string Q) :
  requested_sum sc ((λ '(sc, q), mkSnapRequested sc (Some q)) <$> st_range m) = amount_of (m !! sc).
Proof.
  rewrite <-class_sum_entry. unfold requested_sum, class_sum. rewrite <-(st_range_perm m).
  induction (st_range m) as [|[sc' q] l IH]; [done|]. cbn. by rewrite IH.
Qed.

Lemma range_classes (m : gmap string Q) :
  sr_StorageClass <$> ((λ '(sc, q), mkSnapRequested sc (Some q)) <$> st_range m) = (st_range m).*1.
Proof. rewrite <-list_fmap_compose. apply list_fmap_ext. by intros ? [sc q] _. Qed.

(** The capacity of a snapshot is computed when its VM, the memory and the
    volumes can be read, and then, and only then: it has each storage class
    once, exactly those that something is needed of, with the sum of it. *)
Theorem snapshot_capacity_exact snap w :
  (is_ok (CalculateReservedForSnapshotPerStorageClass snap w) = true ↔
   sn_VMName snap ≠ "" ∧
   ∃ vm, st_GetVM (sn_Namespace snap) (sn_VMName snap) w = inr vm ∧ readable snap vm w) ∧
  ∀ l, CalculateReservedForSnapshotPerStorageClass snap w = Ok l →
  ∃ vm, st_GetVM (sn_Namespace snap) (sn_VMName snap) w = inr vm ∧
    NoDup (sr_StorageClass <$> l) ∧
    (∀ sc, sc ∈ sr_StorageClass <$> l ↔ sc ∈ (snapshot_needs snap vm w).*1) ∧
    ∀ r, r ∈ l → ∃ total, sr_Total r = Some total ∧
      amount total = class_sum (sr_StorageClass r) (snapshot_needs snap vm w).
Proof.
  split.
  { split.
    - destruct (CalculateReservedForSnapshotPerStorageClass snap w) as [l| |] eqn:E; [|done..]. intros _.
      apply calculate_inv in E as (vm & _ & Hn & Hv & Hr & _). eauto.
    - intros (Hn & vm & Hv & Hr). by destruct (calculate_total _ _ _ Hn Hv Hr) as [l ->]. }
  intros l (vm & m & _ & Hv & _ & [Hs Hd] & ->)%calculate_inv. exists vm. rewrite range_classes. split_and!.
  - done.
  - rewrite (st_range_perm m). apply NoDup_fst_map_to_list.
  - intros sc. trans (sc ∈ dom m); [|rewrite Hd; apply elem_of_list_to_set].
    rewrite (st_range_perm m), elem_of_dom, list_elem_of_fmap. split.
    + intros ([sc' q] & -> & Hq%elem_of_map_to_list). eauto.
    + intros [q Hq]. exists (sc, q). by rewrite elem_of_map_to_list.
  - intros r ([sc q] & -> & Hq)%list_elem_of_fmap. cbn. exists q. split; [done|]. rewrite <-Hs.
    rewrite (st_range_perm m), elem_of_map_to_list in Hq. by rewrite Hq.
Qed.
End Capacity.

(** ** The usage of a storage class *)

Section Usage.
Context {W Q : Type} `{AmountsLaws Q} `{StorageAPI W Q}.
Implicit Types (vm : UsageVM Q) (snap : Snapshot Q) (w : W) (sc : string) (reserved used total : Q).

(** The limits of the disks of the image of a VM, as far as they are known. *)
Definition image_limits w vm : list (option Q) :=
  match uv_Image vm with
  | Some ref =>
    if bool_decide (ir_Kind ref = "") || bool_decide (ir_Name ref = "") then []
    else default [] (maybe inr (image_disks vm (ir_Kind ref) (ir_Name ref) w))
  | None => []
  end.
(** What a VM may need, until it reports what it uses. *)
Definition vm_reserves w vm : Z :=
  if uv_Deleting vm || negb (unreported vm) then 0 else sum_of amount_of (image_limits w vm).
Definition vm_uses vm : Z := if uv_Deleting vm || unreported vm then 0 else amount_of (mjoin (uv_Storage vm)).

Lemma add_limits_amount disks total : amount (add_limits disks total) = amount total + sum_of amount_of disks.
Proof.
  unfold add_limits. revert total. induction disks as [|[v|] disks IH]; intros total; cbn; [lia|..]; rewrite IH.
  - rewrite amount_Add. lia.
  - lia.
Qed.

Lemma reportReserved_amount vm total w total' :
  reportReserved vm total w = inr total' → amount total' = amount total + sum_of amount_of (image_limits w vm).
Proof.
  unfold reportReserved, image_limits. destruct (uv_Image vm) as [ref|]; [|intros [= <-]; cbn; lia].
  destruct (_ || _); [intros [= <-]; cbn; lia|].
  destruct (image_disks vm _ _ w) as [|disks]; [done|]. intros [= <-]. apply add_limits_amount.
Qed.

Lemma vm_totals_amount vms reserved used w reserved' used' :
  vm_totals vms reserved used w = inr (reserved', used') →
  amount reserved' = amount reserved + sum_of (vm_reserves w) vms ∧ amount used' = amount used + sum_of vm_uses vms.
Proof.
  revert reserved used. induction vms as [|vm vms IH]; intros reserved used; cbn; [intros [= -> ->]; lia|].
  unfold vm_reserves at 1, vm_uses at 1. destruct (uv_Deleting vm); cbn [orb]; [intros ?%IH; lia|].
  destruct (unreported vm); cbn [negb].
  - destruct (reportReserved vm reserved w) as [|reserved1] eqn:E; [done|]. apply reportReserved_amount in E.
    intros ?%IH. lia.
  - intros [? Hu]%IH. split; [lia|]. rewrite Hu. unfold reportUsed.
    destruct (uv_Storage vm) as [[t|]|]; cbn; [rewrite amount_Add|..]; lia.
Qed.

(** The first entry of a storage class. *)
Definition first_requested sc (l : list (SnapshotRequested Q)) : Z :=
  from_option (λ r, amount_of (sr_Total r.2)) 0 (list_find (λ r, sr_StorageClass r = sc) l).
Definition requested_of snap : option (list (SnapshotRequested Q)) := sn_Storage snap ≫= ss_Requested.

(** What a snapshot may need of a storage class until its volumes are synced;
    what it uses after that counts for the VMs of the storage class. *)
Definition snap_reserves sc (state : gmap string bool) snap : Z :=
  if sn_Deleting snap || sync_completed snap || bool_decide (sn_VMName snap = "") || default false (state !! sn_VMName snap)
  then 0 else first_requested sc (default [] (requested_of snap)).
Definition snap_uses (state : gmap string bool) snap : Z :=
  if sn_Deleting snap || negb (sync_completed snap) || bool_decide (sn_VMName snap = "") ||
     negb (bool_decide (state !! sn_VMName snap = Some false))
  then 0 else amount_of (sn_Storage snap ≫= ss_Used).

Lemma requested_for_amount sc (l : list (SnapshotRequested Q)) total total' :
  requested_for sc l total = Ok total' → amount total' = amount total + first_requested sc l.
Proof.
  unfold first_requested. induction l as [|r l IH]; cbn; [intros [= ->]; lia|].
  case_bool_decide as Hc; rewrite decide_bool_decide.
  - rewrite bool_decide_true by done. cbn. destruct (sr_Total r) as [t|]; [|done]. intros [= <-]. apply amount_Add.
  - rewrite bool_decide_false by done. intros ->%IH. by destruct (list_find _ l) as [[]|].
Qed.

Lemma reportReservedForSnapshot_amount snap total sc state total' :
  sn_Deleting snap = false → sync_completed snap = false →
  reportReservedForSnapshot snap total sc state = Ok total' → amount total' = amount total + snap_reserves sc state snap.
Proof.
  unfold reportReservedForSnapshot, snap_reserves, requested_of. intros -> ->. cbn [orb].
  destruct (bool_decide (sn_VMName snap = "")); cbn [orb]; [intros [= ->]; lia|].
  destruct (default false _); [intros [= ->]; lia|].
  destruct (sn_Storage snap) as [[u [l|]]|]; cbn; [apply requested_for_amount|intros [= ->]; unfold first_requested; cbn; lia..].
Qed.

Lemma reportUsedForSnapshot_amount snap total state :
  sn_Deleting snap = false → sync_completed snap = true →
  amount (reportUsedForSnapshot snap total state) = amount total + snap_uses state snap.
Proof.
  unfold reportUsedForSnapshot, snap_uses. intros -> ->. cbn [orb negb].
  destruct (bool_decide (sn_VMName snap = "")); cbn [orb]; [lia|].
  destruct (state !! sn_VMName snap) as [[]|]; [rewrite bool_decide_false by done; cbn; lia| |
    rewrite bool_decide_false by done; cbn; lia].
  rewrite bool_decide_true by done. cbn [negb].
  destruct (sn_Storage snap) as [[[u|] l]|]; cbn; [rewrite amount_Add|..]; lia.
Qed.

Lemma snapshot_totals_amount snaps sc state reserved used reserved' used' :
  snapshot_totals snaps sc state reserved used = Ok (reserved', used') →
  amount reserved' = amount reserved + sum_of (snap_reserves sc state) snaps ∧
  amount used' = amount used + sum_of (snap_uses state) snaps.
Proof.
  revert reserved used. induction snaps as [|snap snaps IH]; intros reserved used; cbn; [intros [= -> ->]; lia|].
  destruct (sn_Deleting snap) eqn:Ed.
  { unfold snap_reserves at 1, snap_uses at 1. rewrite Ed. cbn [orb]. intros ?%IH. lia. }
  destruct (sync_completed snap) eqn:Es.
  - unfold snap_reserves at 1. rewrite Ed, Es. cbn [orb]. intros [? Hu]%IH.
    rewrite reportUsedForSnapshot_amount in Hu by done. lia.
  - unfold snap_uses at 1. rewrite Ed, Es. cbn [orb negb].
    destruct (reportReservedForSnapshot snap reserved sc state) as [reserved1| |] eqn:E; cbn [outcome_bind]; [|done..].
    apply reportReservedForSnapshot_amount in E; [|done..]. intros ?%IH. lia.
Qed.

(** A usage is written: what it was when it was read last, with these totals. *)
Definition usage_written (namespace name : string) (reserved used : Z) (w w' : W) : Prop :=
  ∃ w1 spu r u, st_GetSPU namespace name w = (w1, inr spu) ∧
    st_PatchSPU namespace name spu (mkSPU (spu_StorageClassName spu) (Some (Some r, Some u))) w1 = (w', None) ∧
    amount r = reserved ∧ amount u = used.

Lemma write_usage_inv ns name reserved used w w' :
  write_usage ns name reserved used w = (w', None) → usage_written ns name (amount reserved) (amount used) w w'.
Proof.
  unfold write_usage, usage_written. destruct (st_GetSPU ns name w) as [w1 [|spu]]; [done|].
  destruct (st_PatchSPU _ _ _ _ _) as [w2 [|]] eqn:E; [done|]. intros [= <-]. eauto 10.
Qed.

Lemma vm_usage_inv ns sc vms w w' :
  ReconcileSPUForVM ns sc vms w = (w', None) →
  ∃ w1 spu, st_GetSPU ns (StoragePolicyUsageNameForVM sc) w = (w1, inr spu) ∧
    usage_written ns (StoragePolicyUsageNameForVM sc) (sum_of (vm_reserves w1) vms) (sum_of vm_uses vms) w1 w'.
Proof.
  unfold ReconcileSPUForVM. destruct (st_GetSPU _ _ w) as [w1 [|spu]]; [done|].
  destruct (vm_totals _ _ _ w1) as [|[r u]] eqn:E; [done|]. intros Hw%write_usage_inv. exists w1, spu. split; [done|].
  apply vm_totals_amount in E as [Er Eu]. rewrite amount_zero in Er, Eu. by rewrite Er, Eu in Hw.
Qed.

Lemma snapshot_usage_inv ns sc vms w w' :
  ReconcileSPUForVMSnapshot ns sc vms w = (w', Ok tt) →
  ∃ w1 spu snaps, st_GetSPU ns (StoragePolicyUsageNameForVMSnapshot sc) w = (w1, inr spu) ∧
    st_ListSnapshots ns w1 = inr snaps ∧
    usage_written ns (StoragePolicyUsageNameForVMSnapshot sc)
      (sum_of (snap_reserves (spu_StorageClassName spu) (vmDeletionState vms)) snaps)
      (sum_of (snap_uses (vmDeletionState vms)) snaps) w1 w'.
Proof.
  unfold ReconcileSPUForVMSnapshot. destruct (st_GetSPU _ _ w) as [w1 [|spu]]; [done|].
  destruct (st_ListSnapshots ns w1) as [|snaps] eqn:El; [done|].
  destruct (snapshot_totals _ _ _ _ _) as [[r u]| |] eqn:E; [|done..].
  destruct (write_usage _ _ r u w1) as [w2 [|]] eqn:Ew; [done|]. intros [= <-]. exists w1, spu, snaps. split_and!; [done..|].
  apply write_usage_inv in Ew. apply snapshot_totals_amount in E as [Er Eu]. rewrite amount_zero in Er, Eu.
  by rewrite Er, Eu in Ew.
Qed.

(** C29: When the usage of a storage class has been computed, the usage of its VMs
    was written with what those that are not being deleted may need, from their
    images, and use; and that of the snapshots of the namespace with what they
    may need of the storage class and, for its VMs, use. *)
Theorem usage_exact ns sc w w' :
  usage_ReconcileNormal true ns sc w = (w', Ok tt) →
  ∃ vms w1 w2 w3 spu spu' snaps,
    st_ListVMs ns sc w = inr vms ∧
    st_GetSPU ns (StoragePolicyUsageNameForVM sc) w = (w1, inr spu) ∧
    usage_written ns (StoragePolicyUsageNameForVM sc) (sum_of (vm_reserves w1) vms) (sum_of vm_uses vms) w1 w2 ∧
    st_GetSPU ns (StoragePolicyUsageNameForVMSnapshot sc) w2 = (w3, inr spu') ∧
    st_ListSnapshots ns w3 = inr snaps ∧
    usage_written ns (StoragePolicyUsageNameForVMSnapshot sc)
      (sum_of (snap_reserves (spu_StorageClassName spu') (vmDeletionState vms)) snaps)
      (sum_of (snap_uses (vmDeletionState vms)) snaps) w3 w'.
Proof.
  unfold usage_ReconcileNormal. destruct (st_ListVMs ns sc w) as [|vms]; [done|].
  destruct (ReconcileSPUForVM ns sc vms w) as [w2 [err|]] eqn:Ev.
  { destruct (ReconcileSPUForVMSnapshot ns sc vms w2) as [w3 [[]| |]]; done. }
  destruct (ReconcileSPUForVMSnapshot ns sc vms w2) as [w3 [[]| |]] eqn:Es; [|done..]. intros [= <-].
  apply vm_usage_inv in Ev as (w1 & spu & ? & ?). apply snapshot_usage_inv in Es as (w4 & spu' & snaps & ? & ? & ?).
  by exists vms, w1, w2, w4, spu, spu', snaps.
Qed.
End Usage.
