(* ===== verification/QuotaResults.v ===== *)
(** * Storage accounting: results on the quota webhook

    What the webhook asks for: the difference when a boot disk grows, the disks
    of the image and the swap file of a new VM, and for a snapshot exactly what
    its usage reserves once the controller has seen it. *)

From S2P Require Import Prelude Conditions Hardware GoErrors VMGroup Compute Volumes AdmissionVM Priority.
From S2P Require Import SnapshotCapacity Snapshots StorageUsage StorageQuota StorageResults.
Local Open Scope Z_scope.
Local Open Scope go_scope.

Section Quota.
Context {W Q : Type} `{AmountsLaws Q} `{StorageAPI W Q} `{ErrorsLib}.
Implicit Types (vm : UsageVM Q) (snap : Snapshot Q) (w : W) (sc : string).

(** What an answer asks of a storage class. *)
Definition granted sc (l : list (RequestedCapacity Q)) : Z :=
  sum_of (λ c, if bool_decide (rc_StorageClassName c = sc) then amount (rc_Capacity c) else 0) l.

(** ** VMs *)

Lemma disk_capacity_amount (disks : list (option Q)) : amount (disk_capacity disks) = sum_of amount_of disks.
Proof.
  unfold disk_capacity. assert (∀ total, amount (foldl (λ capacity d, q_Add capacity (default (NewQuantity 0) d)) total disks) =
    amount total + sum_of amount_of disks) as ->; [|rewrite amount_New; lia].
  induction disks as [|d disks IH]; intros total; cbn; [lia|]. rewrite IH, amount_Add.
  rewrite (amount_default d : amount (default (NewQuantity 0) d) = _). lia.
Qed.

(** The swap file of a VM of a class that reserves a part of its memory. *)
Definition swap_amount vm w : Z := match getSwapCapacity vm w with inr (Some q) => amount q | _ => 0 end.

Lemma with_swap_amount vm q w : amount (with_swap vm q w) = amount q + swap_amount vm w.
Proof.
  unfold with_swap, swap_amount. destruct (getSwapCapacity vm w) as [|[swap|]]; rewrite ?amount_Add; lia.
Qed.

Lemma get_failed_denied what err m : cr_Response (get_failed what err) ≠ CapAllowed m.
Proof. unfold get_failed. by destruct (st_IsNotFound err). Qed.

(** The image the webhook finds is the one whose disks the usage adds. *)
Lemma vm_image_limits vm ref w img :
  uv_Image vm = Some ref → ir_Name ref ≠ "" → vm_image vm ref w = inr img → image_limits w vm = ui_DiskLimits img.
Proof.
  intros Hi Hn. unfold vm_image, image_limits, image_disks. rewrite Hi.
  repeat case_bool_decide; cbn [orb]; try congruence;
    [destruct (st_GetVMI _ _ w) as [|i]|destruct (st_GetCVMI _ w) as [|i]]; by intros [= ->].
Qed.

Lemma granted_one sc c :
  granted sc [c] = if bool_decide (rc_StorageClassName c = sc) then amount (rc_Capacity c) else 0.
Proof. unfold granted. cbn. lia. Qed.

(** The webhook asks of a new VM, for its storage class, what its usage will
    reserve and the swap file; nothing for an ISO image or one with no disk. *)
Theorem vm_quota_covers_usage obj vm ref w res m :
  raw_Converted obj = inr vm → uv_Image vm = Some ref → ir_Name ref ≠ "" →
  uv_Deleting vm = false → unreported vm = true →
  vm_HandleCreate obj w = Ok res → cr_Response res = CapAllowed m →
  ∃ img, vm_image vm ref w = inr img ∧
    ∀ sc, granted sc (cr_Capacities res) =
      if bool_decide (uv_StorageClass vm = sc) && negb (bool_decide (ui_Type img = "ISO")) &&
         negb (bool_decide (ui_DiskLimits img = []))
      then vm_reserves w vm + swap_amount vm w else 0.
Proof.
  intros Hc Hi Hn Hd Hu Hres Hm. unfold vm_HandleCreate in Hres. rewrite Hc, Hi in Hres.
  destruct (st_GetStorageClass _ w) as [err|params].
  { injection Hres as <-. by apply get_failed_denied in Hm. }
  injection Hres as <-. destruct (vm_image vm ref w) as [r|img] eqn:Ev.
  { exfalso. revert Ev Hm. unfold vm_image. repeat case_bool_decide.
    - destruct (st_GetVMI _ _ w); intros [= <-]. apply get_failed_denied.
    - destruct (st_GetCVMI _ w); intros [= <-]. apply get_failed_denied.
    - by intros [= <-]. }
  exists img. split; [done|]. intros sc.
  unfold vm_reserves. rewrite Hd, Hu, (vm_image_limits _ _ _ _ Hi Hn Ev). cbn [orb negb].
  case_bool_decide; [by rewrite andb_false_r|]. destruct (ui_DiskLimits img) as [|d disks].
  { rewrite andb_false_r. by destruct (IsTrue _ _). }
  cbn [cr_Capacities]. rewrite granted_one. cbn [rc_StorageClassName rc_Capacity negb andb].
  rewrite with_swap_amount, disk_capacity_amount, (bool_decide_false (_ = [])), !andb_true_r by done. done.
Qed.

(** When a VM is updated the webhook asks for what its boot disk grows, and
    nothing if it does not: the difference to the old boot disk capacity or, if
    that was not set, to the limit of the first classic disk. *)
Theorem update_quota_difference obj oldObj vm oldVM w m :
  raw_Deleting obj = false → raw_Converted obj = inr vm → raw_Converted oldObj = inr oldVM →
  cr_Response (vm_HandleUpdate obj oldObj w) = CapAllowed m →
  ∀ sc, granted sc (cr_Capacities (vm_HandleUpdate obj oldObj w)) =
    match uv_BootDiskCapacity vm with
    | Some c => if bool_decide (uv_StorageClass vm = sc) then Z.max 0 (amount c - amount (old_capacity oldVM)) else 0
    | None => 0
    end.
Proof.
  unfold vm_HandleUpdate. intros -> -> -> Hm sc. destruct (uv_BootDiskCapacity vm) as [c|]; [|done].
  rewrite amount_Cmp in *. destruct (Z.compare_spec (amount c) (amount (old_capacity oldVM))).
  - cbn. case_bool_decide; lia.
  - cbn. case_bool_decide; lia.
  - destruct (st_GetStorageClass _ w) as [err|params]; [by apply get_failed_denied in Hm|].
    cbn [cr_Capacities]. rewrite granted_one. cbn [rc_StorageClassName rc_Capacity]. rewrite amount_Sub.
    case_bool_decide; lia.
Qed.

(** ** Snapshots *)

Lemma snapshot_capacities_spec l w caps :
  snapshot_capacities l w = Ok (inr caps) →
  (∀ sc, granted sc caps = requested_sum sc l) ∧ rc_StorageClassName <$> caps = sr_StorageClass <$> l.
Proof.
  revert caps. induction l as [|[sc [total|]] l IH]; intros caps; cbn; [by intros [= <-]| |done].
  destruct (st_GetStorageClass sc w) as [|params]; [done|].
  destruct (snapshot_capacities l w) as [[|rest]|[]|]; cbn [outcome_bind]; [done| |done].
  intros [= <-]. destruct (IH rest eq_refl) as [Hg Hc]. split.
  - intros sc'. unfold granted, requested_sum in *. cbn. rewrite Hg. done.
  - cbn. by rewrite Hc.
Qed.

Lemma first_requested_absent sc (l : list (SnapshotRequested Q)) :
  sc ∉ (sr_StorageClass <$> l) → requested_sum sc l = 0.
Proof.
  unfold requested_sum. induction l as [|r l IH]; [done|]. rewrite fmap_cons, not_elem_of_cons. intros [Hr Hl].
  cbn [sum_of]. by rewrite bool_decide_false, IH.
Qed.

Lemma first_requested_sum sc (l : list (SnapshotRequested Q)) :
  NoDup (sr_StorageClass <$> l) → first_requested sc l = requested_sum sc l.
Proof.
  unfold first_requested. induction l as [|r l IH]; [done|]. rewrite fmap_cons, NoDup_cons. intros [Hr Hnd].
  unfold requested_sum. cbn [sum_of list_find]. change (sum_of _ l) with (requested_sum sc l).
  destruct (decide (sr_StorageClass r = sc)) as [<-|Hc].
  - rewrite bool_decide_true, first_requested_absent by done. cbn. lia.
  - rewrite bool_decide_false, <-IH by done. by destruct (list_find _ l) as [[]|].
Qed.

Lemma requested_for_total sc (l : list (SnapshotRequested Q)) total :
  (∀ r, r ∈ l → is_Some (sr_Total r)) → ∃ total', requested_for sc l total = Ok total'.
Proof.
  induction l as [|r l IH]; intros Hs; cbn; [by eexists|]. case_bool_decide; [|apply IH; set_solver].
  destruct (Hs r ltac:(set_solver)) as [t ->]. by eexists.
Qed.

(** What the capacity of a snapshot depends on. *)
Definition same_request (a b : Snapshot Q) : Prop :=
  sn_Namespace a = sn_Namespace b ∧ sn_VMName a = sn_VMName b ∧ sn_Memory a = sn_Memory b.

Lemma calculate_same a b w :
  same_request a b →
  CalculateReservedForSnapshotPerStorageClass a w = CalculateReservedForSnapshotPerStorageClass b w.
Proof.
  intros (En & Ev & Em). unfold CalculateReservedForSnapshotPerStorageClass, memory_capacity. by rewrite En, Ev, Em.
Qed.

Lemma ensureCSI_frame snap :
  let s := ensureCSIVolumeSyncAnnotation snap in
  sync_completed s = sync_completed snap ∧ sn_Storage s = sn_Storage snap ∧ sn_VMName s = sn_VMName snap ∧
  sn_Deleting s = sn_Deleting snap ∧ sn_Conditions s = sn_Conditions snap ∧ sn_Labels s = sn_Labels snap ∧
  sn_Memory s = sn_Memory snap ∧ sn_Quiesce s = sn_Quiesce snap ∧ sn_Name s = sn_Name snap.
Proof.
  unfold ensureCSIVolumeSyncAnnotation. destruct (sync_completed snap) eqn:E; [done|]. split_and!; try done.
  unfold sync_completed, set_sn_Annotations. cbn [sn_Annotations]. by rewrite lookup_insert_eq, bool_decide_false.
Qed.

Lemma calculateUsedCapacity_frame snap vm sync w snap' sync' r :
  calculateUsedCapacity snap vm sync w = (snap', sync', r) →
  requested_of snap' = requested_of snap ∧ sync ⊆ sync' ∧ sn_VMName snap' = sn_VMName snap ∧
  sn_Deleting snap' = sn_Deleting snap ∧ sn_Annotations snap' = sn_Annotations snap ∧
  sn_Labels snap' = sn_Labels snap ∧ sn_Memory snap' = sn_Memory snap ∧ sn_Quiesce snap' = sn_Quiesce snap.
Proof.
  unfold calculateUsedCapacity, requested_of. destruct (st_GetSnapshotSize _ _ w); [by intros [= <- <- <-]|].
  destruct (sync_completed _); [destruct (is_synced _)|]; cbn [negb]; intros [= <- <- <-];
    (split_and!; [by destruct (sn_Storage snap)|set_solver|done..]).
Qed.

Lemma reconcile_created_frame snap vm sync w snap' sync' r :
  reconcile_created snap vm sync w = (snap', sync', r) →
  requested_of snap' = requested_of snap ∧ sync ⊆ sync' ∧ sn_VMName snap' = sn_VMName snap ∧
  sn_Deleting snap' = sn_Deleting snap ∧ sync_completed snap' = sync_completed snap ∧
  sn_Labels snap' = sn_Labels snap ∧ sn_Memory snap' = sn_Memory snap ∧ sn_Quiesce snap' = sn_Quiesce snap.
Proof.
  unfold reconcile_created. destruct (is_created snap); cbn [negb]; [|by intros [= <- <- <-]].
  destruct (ensureCSI_frame snap) as (Ec & Est & Ev & Ed & _ & El & Em & Eq & _).
  intros (Hr & Hs & Hv & Hd & Ha & Hl & Hm & Hq)%calculateUsedCapacity_frame.
  unfold requested_of, sync_completed, set_sn_Conditions in *.
  cbn [sn_Annotations sn_Storage sn_VMName sn_Deleting sn_Labels sn_Memory sn_Quiesce] in *.
  split_and!; [congruence|done|congruence|congruence|by rewrite Ha, <-Ec|congruence..].
Qed.

(** The controller records the capacity of a snapshot when it sees it first. *)
Lemma reconcile_requests snap sync w snap' sync' r l :
  snap_ReconcileNormal snap sync w = (snap', sync', r) → requested_of snap = None → requested_of snap' = Some l →
  CalculateReservedForSnapshotPerStorageClass snap w = Ok l ∧ list_to_set (sr_StorageClass <$> l) ⊆ sync' ∧
  sn_VMName snap' = sn_VMName snap ∧ sn_Deleting snap' = sn_Deleting snap ∧
  sync_completed snap' = sync_completed snap.
Proof.
  intros Hr Hn Hl. unfold snap_ReconcileNormal in Hr.
  assert (∀ s, snap' = s → requested_of s = requested_of snap → False) as Hno by (intros; congruence).
  destruct (st_ContainsFinalizer _ _); cbn [negb] in Hr; [|injection Hr as E _ _; by destruct (Hno _ (eq_sym E))].
  case_bool_decide; [injection Hr as E _ _; by destruct (Hno _ (eq_sym E))|].
  destruct (st_GetVM _ _ w) as [|vm]; [injection Hr as E _ _; by destruct (Hno _ (eq_sym E))|].
  destruct (st_SetOwnerReference _ _) as [|owners]; [injection Hr as E _ _; by destruct (Hno _ (eq_sym E))|].
  case_bool_decide; [injection Hr as E _ _; by destruct (Hno _ (eq_sym E))|].
  unfold requested_of in Hn.
  assert (ss_Requested (default (mkSnapStorage None None) (sn_Storage snap)) = None) as Hnone
    by (by destruct (sn_Storage snap)).
  cbn [sn_Storage set_sn_Owners ensureVMNameLabel set_sn_Labels] in Hr. rewrite Hnone in Hr.
  unfold calculateRequestedCapacity in Hr.
  rewrite (calculate_same _ snap) in Hr by done.
  destruct (CalculateReservedForSnapshotPerStorageClass snap w) as [l'| |]; cbn [sn_Storage set_sn_Storage] in Hr.
  - apply reconcile_created_frame in Hr as (Hreq & Hs & Hv & Hd & Ha & _). rewrite Hl in Hreq.
    cbn in Hreq. injection Hreq as ->. split_and!; [done| |done..]. cbn in Hs. set_solver.
  - injection Hr as <- _ _. cbn in Hl. congruence.
  - injection Hr as <- _ _. cbn in Hl. congruence.
Qed.

(** C28: What the quota webhook is told of a snapshot is what is reserved for it: if
    the webhook lets a snapshot be created, and the controller then records its
    capacity while the VM has not changed, then the usage of every storage class
    grows by just what the webhook asked of it, until the volumes are synced;
    and every one of those storage classes is to be computed again. *)
Theorem quota_is_reserved req obj asked w res m snap snap' sync r l state :
  req_Operation req = Create → req_Object req = inr obj → skips obj = false → raw_Converted obj = inr asked →
  snapshot_Handle req w = Ok res → cr_Response res = CapAllowed m →
  same_request snap asked → requested_of snap = None →
  snap_ReconcileNormal snap ∅ w = (snap', sync, r) → requested_of snap' = Some l →
  sn_Deleting snap = false → sync_completed snap = false → state !! sn_VMName snap ≠ Some true →
  (∀ sc total, ∃ total', reportReservedForSnapshot snap' total sc state = Ok total' ∧
     amount total' = amount total + granted sc (cr_Capacities res)) ∧
  ∀ c, c ∈ cr_Capacities res → rc_StorageClassName c ∈ sync.
Proof.
  intros Hop Hobj Hskip Hconv Hh Hm Hsame Hnone Hrec Hl Hd Hs Hstate.
  destruct (reconcile_requests _ _ _ _ _ _ _ Hrec Hnone Hl) as (Hcalc & Hsync & Hv & Hd' & Hs').
  unfold snapshot_Handle, snapshot_HandleCreate in Hh. rewrite Hop, Hobj, Hskip, Hconv in Hh.
  rewrite <-(calculate_same _ _ w Hsame), Hcalc in Hh.
  destruct (snapshot_capacities l w) as [[r'|caps]|[]|] eqn:Ec; cbn [outcome_bind] in Hh; [exfalso| |done].
  { injection Hh as <-. revert r' Hm Ec. clear. induction l as [|[sc [t|]] l IH]; intros r' Hm; cbn; [done| |done].
    destruct (st_GetStorageClass sc w); [intros [= <-]; by apply get_failed_denied in Hm|].
    destruct (snapshot_capacities l w) as [[r1|]|[]|]; cbn [outcome_bind]; [|done..]. intros [= <-]. by eapply IH. }
  injection Hh as <-. cbn [cr_Capacities]. apply snapshot_capacities_spec in Ec as [Hg Hcl].
  destruct (snapshot_capacity_exact snap w) as [_ Hex]. destruct (Hex l Hcalc) as (vm & _ & Hnd & _ & Htot).
  apply calculate_inv in Hcalc as (_ & _ & Hvn & _). split.
  - intros sc total. destruct (requested_for_total sc l total) as [total' Ht].
    { intros r0 Hr0. destruct (Htot r0 Hr0) as (t & -> & _). by eexists. }
    exists total'. split; [|by rewrite Hg, <-first_requested_sum, (requested_for_amount _ _ _ _ Ht)].
    unfold reportReservedForSnapshot. rewrite Hv, bool_decide_false by done.
    unfold requested_of in Hl. destruct (sn_Storage snap') as [st|]; cbn in Hl; [|done]. rewrite Hl.
    by destruct (state !! sn_VMName snap) as [[]|].
  - intros c Hc. apply Hsync, elem_of_list_to_set. rewrite <-Hcl. by apply list_elem_of_fmap_2.
Qed.

(** ** HTTP *)

(** The VM webhook writes one answer. *)
Lemma vm_writes_one enc flag (res : CapacityResponse Q) : (length (vm_WriteResponse enc flag res) ≤ 1)%nat.
Proof.
  unfold vm_WriteResponse. destruct (cr_Response res); [|cbn; lia]. unfold encode.
  destruct (enc _); [destruct (enc _)|]; cbn; lia.
Qed.

(** A denied snapshot: the error is followed by the capacities. *)
Lemma denied_snapshot_writes_two code err enc (l : list (RequestedCapacity Q)) :
  enc (JSONCapacities l) = None →
  snapshot_WriteResponse enc (mkResponse l (CapErrored code err)) =
    [write_error vmSnapshotWebhookPath code err; JSONCapacities l].
Proof. intros E. unfold snapshot_WriteResponse, encode. cbn. by rewrite E. Qed.
End Quota.
