(* ===== verification/SnapshotResults.v ===== *)
(** * VM snapshots: results on the controller and the webhooks

    When a snapshot is ready, when its finalizer goes, and what of it never
    changes. *)

From S2P Require Import Prelude Hardware GoErrors VMGroup Compute Volumes AdmissionVM VMValidator GroupResults.
From S2P Require Import SnapshotCapacity Snapshots StorageUsage StorageQuota VMAdmissionResults StorageResults QuotaResults Conditions.
Local Open Scope Z_scope.
Local Open Scope go_scope.

Section SnapshotResults.
Context {W Q : Type} `{Quantity Q} `{Amounts Q} `{StorageAPI W Q}.
Implicit Types (vm : UsageVM Q) (snap s : Snapshot Q) (w : W) (sync : gset string).

(** ** Ready *)

Lemma mark_other_true l now c t : NoDup (c_Type <$> l) → c_Type c ≠ t → IsTrue (Set_ now l (Some c)) t = IsTrue l t.
Proof. intros Hl Hne. unfold IsTrue. by rewrite Set_Get_other by done. Qed.

Lemma ready_condition_exact now snap :
  NoDup (c_Type <$> sn_Conditions snap) → sn_Deleting snap = false →
  IsTrue (sn_Conditions (reconcileSnapshotReadyCondition now snap)) VirtualMachineSnapshotReadyCondition =
    is_created snap && is_synced snap.
Proof.
  intros Hnd Hd. unfold reconcileSnapshotReadyCondition. rewrite Hd. cbn [sn_Conditions set_sn_Conditions].
  destruct (is_created snap); cbn [negb andb].
  - destruct (is_synced snap); cbn [negb]; [by apply mark_true_is|by apply mark_false_not].
  - destruct (bool_decide _); by apply mark_false_not.
Qed.

(** Once the size is read, the condition that the volumes are synced follows the
    annotation. *)
Lemma used_capacity_synced snap vm sync w snap' sync' :
  NoDup (c_Type <$> sn_Conditions snap) →
  calculateUsedCapacity snap vm sync w = (snap', sync', Ok tt) → is_synced snap = false →
  is_synced snap' = sync_completed snap ∧ is_created snap' = is_created snap ∧
  NoDup (c_Type <$> sn_Conditions snap') ∧ sn_Deleting snap' = sn_Deleting snap ∧
  ∃ size, st_GetSnapshotSize (sn_Name snap) vm w = inr size ∧ (sn_Storage snap' ≫= ss_Used) = Some (NewQuantity size).
Proof.
  intros Hnd. unfold calculateUsedCapacity. destruct (st_GetSnapshotSize _ _ w) as [|size]; [done|]. intros Hr Hs.
  assert (∀ st, sync_completed (set_sn_Storage st snap) = sync_completed snap) as Hc by done. rewrite Hc in Hr.
  destruct (sync_completed snap).
  - unfold is_synced at 1 in Hr. cbn [sn_Conditions set_sn_Storage] in Hr. fold (is_synced snap) in Hr.
    rewrite Hs in Hr. cbn [negb] in Hr. injection Hr as <- _. unfold is_synced, is_created, MarkTrue.
    cbn [sn_Conditions set_sn_Conditions set_sn_Storage sn_Deleting sn_Storage].
    split_and!; [by apply mark_true_is|by apply mark_other_true|by apply Set_NoDup|done|by eexists].
  - injection Hr as <- _. split_and!; [done..|by eexists].
Qed.

Lemma created_ready snap vm sync w snap' sync' now :
  NoDup (c_Type <$> sn_Conditions snap) → sn_Deleting snap = false →
  reconcile_created snap vm sync w = (snap', sync', Ok tt) →
  IsTrue (sn_Conditions (reconcileSnapshotReadyCondition now snap')) VirtualMachineSnapshotReadyCondition =
    is_created snap && sync_completed snap ∧
  (is_created snap = true →
   ∃ size, st_GetSnapshotSize (sn_Name snap) vm w = inr size ∧ (sn_Storage snap' ≫= ss_Used) = Some (NewQuantity size)).
Proof.
  intros Hnd Hd. unfold reconcile_created. destruct (is_created snap) eqn:Ec; cbn [negb andb].
  2: { intros [= <- _]. rewrite ready_condition_exact by done. by rewrite Ec. }
  destruct (ensureCSI_frame snap) as (Es & _ & _ & Ed & Econd & _ & _ & _ & En).
  rewrite Econd. set (snap1 := set_sn_Conditions _ _). intros Hr.
  assert (is_created snap1 = is_created snap) as Hc1 by (unfold is_created; by apply mark_other_true).
  apply used_capacity_synced in Hr as (Hs & Hc & Hnd' & Hd' & size & Hsize & Hused);
    [|by apply Set_NoDup|by apply mark_false_not].
  change (sync_completed snap1) with (sync_completed (ensureCSIVolumeSyncAnnotation snap)) in Hs.
  change (sn_Deleting snap1) with (sn_Deleting (ensureCSIVolumeSyncAnnotation snap)) in Hd'.
  change (sn_Name snap1) with (sn_Name (ensureCSIVolumeSyncAnnotation snap)) in Hsize.
  rewrite ready_condition_exact by (done || congruence). split; [|rewrite <-En; eauto].
  by rewrite Hs, Hc, Hc1, Ec, Es.
Qed.

(** A reconciliation that succeeds, with the finalizer, gets to the size. *)
Lemma normal_reaches_created snap sync w snap' sync' :
  st_ContainsFinalizer (sn_Finalizers snap) snapshotFinalizer = true →
  snap_ReconcileNormal snap sync w = (snap', sync', Ok tt) →
  ∃ vm snap1 sync1, st_GetVM (sn_Namespace snap) (sn_VMName snap) w = inr vm ∧
    reconcile_created snap1 vm sync1 w = (snap', sync', Ok tt) ∧
    sn_Conditions snap1 = sn_Conditions snap ∧ sn_Annotations snap1 = sn_Annotations snap ∧
    sn_Deleting snap1 = sn_Deleting snap ∧ sn_Name snap1 = sn_Name snap.
Proof.
  intros Hf. unfold snap_ReconcileNormal. rewrite Hf. cbn [negb]. case_bool_decide; [done|].
  destruct (st_GetVM _ _ w) as [|vm] eqn:Ev; [done|]. destruct (st_SetOwnerReference _ _) as [|owners]; [done|].
  case_bool_decide; [done|]. destruct (ss_Requested _) as [l|].
  - intros Hr. eexists vm, _, _. split; [done|]. split; [exact Hr|]. done.
  - unfold calculateRequestedCapacity. destruct (CalculateReservedForSnapshotPerStorageClass _ w); [|done..].
    intros Hr. eexists vm, _, _. split; [done|]. split; [exact Hr|]. done.
Qed.

(** A reconciliation that succeeds leaves a snapshot ready if and only if it has
    been created and its volumes are synced; once it is created, its status has
    the size that was read. *)
Theorem snapshot_ready_iff snap sync w snap' sync' now :
  NoDup (c_Type <$> sn_Conditions snap) → sn_Deleting snap = false →
  st_ContainsFinalizer (sn_Finalizers snap) snapshotFinalizer = true →
  snap_ReconcileNormal snap sync w = (snap', sync', Ok tt) →
  IsTrue (sn_Conditions (reconcileSnapshotReadyCondition now snap')) VirtualMachineSnapshotReadyCondition =
    is_created snap && sync_completed snap ∧
  (is_created snap = true →
   ∃ vm size, st_GetVM (sn_Namespace snap) (sn_VMName snap) w = inr vm ∧
     st_GetSnapshotSize (sn_Name snap) vm w = inr size ∧ (sn_Storage snap' ≫= ss_Used) = Some (NewQuantity size)).
Proof.
  intros Hnd Hd Hf Hr.
  destruct (normal_reaches_created _ _ _ _ _ Hf Hr) as (vm & snap1 & sync1 & Hv & Hc & El & Ea & Ed & En).
  rewrite <-El in Hnd. rewrite <-Ed in Hd. destruct (created_ready _ _ _ _ _ _ now Hnd Hd Hc) as [Hready Hsize].
  assert (is_created snap1 = is_created snap) as E1 by (unfold is_created; by rewrite El).
  assert (sync_completed snap1 = sync_completed snap) as E2 by (unfold sync_completed; by rewrite Ea).
  rewrite E1, E2 in Hready. split; [done|]. intros Hcr. destruct Hsize as (size & Hs & Hu); [congruence|].
  rewrite En in Hs. eauto.
Qed.

(** ** Deletion *)

(** The finalizer of a snapshot that is being deleted goes only when the VM is
    not found, or the snapshot has been deleted of it and, unless the VM is gone
    by then, the snapshots of the VM have been read again.  Otherwise there is
    an error and the snapshot is as it was; the storage classes of its capacity
    are to be computed again in any case. *)
Theorem snapshot_finalizer_safe snap sync w w' snap' sync' err :
  st_ContainsFinalizer (sn_Finalizers snap) snapshotFinalizer = true →
  snap_ReconcileDelete snap sync w = (w', snap', sync', err) →
  (sn_VMName snap ≠ "" → list_to_set (requested_classes snap) ⊆ sync') ∧
  match err with
  | Some _ => snap' = snap
  | None =>
    snap' = remove_finalizer snap ∧
    ((∃ e, st_GetVM (sn_Namespace snap) (sn_VMName snap) w = inl e ∧ st_IsNotFound e = true) ∨
     ∃ vm w1 gone, st_GetVM (sn_Namespace snap) (sn_VMName snap) w = inr vm ∧
       st_DeleteSnapshot snap vm w = (w1, inr gone) ∧
       (gone = true ∨
        ∃ vm', st_SyncVMSnapshotTreeStatus vm w1 = inr vm' ∧ st_PatchVMStatus vm vm' w1 = (w', None)))
  end.
Proof.
  intros Hf. unfold snap_ReconcileDelete. rewrite Hf. cbn [negb]. case_bool_decide as Hn.
  { intros [= _ <- <- <-]. done. }
  destruct (st_GetVM _ _ w) as [e|vm].
  { destruct (st_IsNotFound e) eqn:En; intros [= _ <- <- <-]; (split; [set_solver|]); [|done]. split; [done|]. left. eauto. }
  unfold deleteSnapshot. destruct (st_DeleteSnapshot snap vm w) as [w1 [e|[]]] eqn:Ed.
  - intros [= _ <- <- <-]. split; [set_solver|done].
  - intros [= _ <- <- <-]. split; [set_solver|]. split; [done|]. right. exists vm, w1, true. eauto.
  - unfold syncVMSSnapshotTreeStatus. destruct (st_SyncVMSnapshotTreeStatus vm w1) as [e|vm'] eqn:Et.
    { intros [= _ <- <- <-]. split; [set_solver|done]. }
    destruct (st_PatchVMStatus vm vm' w1) as [w2 [e|]] eqn:Ep; intros [= <- <- <- <-]; (split; [set_solver|]); [done|].
    split; [done|]. right. exists vm, w1, false. eauto 10.
Qed.

(** ** Admission *)

Definition same_spec (a b : Snapshot Q) : Prop :=
  sn_VMName a = sn_VMName b ∧ sn_Memory a = sn_Memory b ∧ sn_Quiesce a = sn_Quiesce b.
Definition labelled s : Prop := sn_Labels s !! VMNameForSnapshotLabel = Some (sn_VMName s).

(** The life of a snapshot that is not being deleted: updates that the webhooks
    let through, for another reason than that they skip validation, and the
    controller. *)
Inductive snap_step : Snapshot Q → Snapshot Q → Prop :=
  | step_update s new s' :
      sn_Deleting new = false → snap_AdmitUpdate new s = Some s' → snap_skips s' = false → snap_step s s'
  | step_reconcile s sync w s1 sync' r now :
      snap_ReconcileNormal s sync w = (s1, sync', r) → snap_step s (reconcileSnapshotReadyCondition now s1).

Lemma same_spec_trans a b c : same_spec a b → same_spec b c → same_spec a c.
Proof. unfold same_spec. intuition congruence. Qed.

Lemma mutate_labels snap op :
  op = Create ∨ op = Update →
  same_spec (snap_Mutate op snap) snap ∧
  (sn_VMName snap ≠ "" → is_Some (sn_Labels (snap_Mutate op snap) !! VMNameForSnapshotLabel)).
Proof.
  intros Hop. assert (snap_Mutate op snap = (SetVMNameLabel snap).1) as -> by (by destruct Hop as [-> | ->]).
  unfold SetVMNameLabel. case_bool_decide as Hn; [done|]. destruct (sn_Labels snap !! _) eqn:El; cbn.
  - split; [done|]. intros _. by rewrite El.
  - split; [done|]. intros _. by rewrite lookup_insert_eq.
Qed.

Lemma label_matches s :
  vmNameLabelMismatchErr s = [] → is_Some (sn_Labels s !! VMNameForSnapshotLabel) → labelled s.
Proof.
  unfold vmNameLabelMismatchErr, labelled. intros He [label El]. rewrite El in *.
  apply err_if_nil, negb_false_iff, bool_decide_eq_true in He. by rewrite He.
Qed.

Lemma update_admitted s new s' :
  sn_Deleting new = false → snap_AdmitUpdate new s = Some s' → snap_skips s' = false →
  sn_VMName s ≠ "" → same_spec s' s ∧ labelled s'.
Proof.
  unfold snap_AdmitUpdate. intros ->. destruct (mutate_labels new Update) as [(Hv & _ & _) Hl]; [by right|].
  generalize dependent (snap_Mutate Update new). intros s1 Hv Hl Hu Hk Hn.
  destruct (_ || _) eqn:E; [|done]. injection Hu as <-.
  rewrite Hk in E. cbn [orb] in E. apply bool_decide_eq_true in E. unfold snap_ValidateUpdate in E.
  apply app_nil in E as [Em E]. apply app_nil in E as [Eq E]. apply app_nil in E as [Ev El].
  apply immutable_nil in Em, Eq, Ev.
  split; [done|]. apply label_matches; [done|]. apply Hl. congruence.
Qed.

Lemma reconcile_keeps_spec s sync w s1 sync' r :
  snap_ReconcileNormal s sync w = (s1, sync', r) → same_spec s1 s ∧ (labelled s → labelled s1).
Proof.
  unfold snap_ReconcileNormal. destruct (st_ContainsFinalizer _ _); cbn [negb]; [|by intros [= <- _ _]].
  case_bool_decide; [by intros [= <- _ _]|].
  assert (∀ s2, sn_VMName s2 = sn_VMName s → sn_Labels s2 = sn_Labels (ensureVMNameLabel s) →
    (labelled s → labelled s2)) as Hlab.
  { intros s2 Ev El _. unfold labelled. rewrite El, Ev. cbn. by rewrite lookup_insert_eq. }
  destruct (st_GetVM _ _ w) as [|vm]; [intros [= <- _ _]; by split; [|apply Hlab]|].
  destruct (st_SetOwnerReference _ _) as [|owners]; [intros [= <- _ _]; by split; [|apply Hlab]|].
  case_bool_decide; [intros [= <- _ _]; by split; [|apply Hlab]|].
  destruct (ss_Requested _) as [l|].
  - intros (_ & _ & Ev & _ & _ & El & Em & Eq)%reconcile_created_frame. split; [done|]. by apply Hlab.
  - unfold calculateRequestedCapacity. destruct (CalculateReservedForSnapshotPerStorageClass _ w);
      [|intros [= <- _ _]; by split; [|apply Hlab]..].
    intros (_ & _ & Ev & _ & _ & El & Em & Eq)%reconcile_created_frame. split; [done|]. by apply Hlab.
Qed.

Lemma ready_keeps now s :
  same_spec (reconcileSnapshotReadyCondition now s) s ∧ sn_Labels (reconcileSnapshotReadyCondition now s) = sn_Labels s.
Proof. unfold reconcileSnapshotReadyCondition. by destruct (sn_Deleting s). Qed.

(** C30: A snapshot that was created through the webhooks names a VM, and whatever
    updates are admitted and however often it is reconciled, until it is deleted:
    its VM, its memory and its quiescing are those it was created with, and its
    label has the name of the VM. *)
Theorem snapshot_identity_invariant obj w s0 s :
  snap_AdmitCreate obj w = Some s0 → snap_skips s0 = false → rtc snap_step s0 s →
  sn_VMName s ≠ "" ∧ same_spec s obj ∧ labelled s.
Proof.
  intros Hc Hk Hsteps.
  assert (sn_VMName s0 ≠ "" ∧ same_spec s0 obj ∧ labelled s0) as H0'.
  { unfold snap_AdmitCreate in Hc. destruct (mutate_labels obj Create) as [Hs Hl]; [by left|].
    generalize dependent (snap_Mutate Create obj). intros s1 Hc Hs Hl.
    destruct (_ || _) eqn:E; [|done]. injection Hc as <-. rewrite Hk in E. cbn [orb] in E. apply bool_decide_eq_true in E.
    unfold snap_ValidateCreate in E. case_bool_decide as Hn; [done|]. apply app_nil in E as [E _].
    destruct Hs as (Hv & Hm & Hq). split_and!; try done. apply label_matches; [done|]. apply Hl. congruence. }
  clear Hc Hk. revert H0'. induction Hsteps as [|s1 s2 s3 Hstep _ IH]; [done|]. intros (Hn & Hs & Hl). apply IH.
  destruct Hstep as [s new s' Hd Ha Hk|s sync w' s' sync' r now Hr].
  - destruct (update_admitted _ _ _ Hd Ha Hk Hn) as [Hs' Hl']. pose proof (same_spec_trans _ _ _ Hs' Hs).
    destruct Hs' as (Hv & _). split_and!; [congruence|done..].
  - apply reconcile_keeps_spec in Hr as [Hs' Hl']. destruct (ready_keeps now s') as [Hs2 El].
    pose proof (same_spec_trans _ _ _ Hs2 (same_spec_trans _ _ _ Hs' Hs)).
    destruct Hs2 as (Hv2 & _), Hs' as (Hv & _). split_and!; [congruence|done|].
    unfold labelled in *. rewrite El, Hv2. by apply Hl'.
Qed.

(** The state of a snapshot that was ready when its size can not be read. *)
Lemma size_error_not_ready snap vm sync w err now :
  NoDup (c_Type <$> sn_Conditions snap) → sn_Deleting snap = false → is_created snap = true →
  st_GetSnapshotSize (sn_Name snap) vm w = inl err →
  ∃ snap' sync' e, reconcile_created snap vm sync w = (snap', sync', Err e) ∧
    IsTrue (sn_Conditions (reconcileSnapshotReadyCondition now snap')) VirtualMachineSnapshotReadyCondition = false.
Proof.
  intros Hnd Hd Hc He. unfold reconcile_created. rewrite Hc. cbn [negb].
  destruct (ensureCSI_frame snap) as (_ & _ & _ & Ed & Econd & _ & _ & _ & En). rewrite Econd.
  unfold calculateUsedCapacity. cbn [sn_Name set_sn_Conditions]. rewrite En, He. eexists _, _, _. split; [done|].
  rewrite ready_condition_exact; [|by apply Set_NoDup|by rewrite <-Hd, <-Ed].
  apply andb_false_iff. right. unfold is_synced. cbn [sn_Conditions set_sn_Conditions]. by apply mark_false_not.
Qed.
End SnapshotResults.
