(* ===== verification/StorageWitnesses.v ===== *)
(** * Storage accounting: a small world, and the results in it

    A namespace with a VM that is created and uses ten bytes, one that is not and
    whose image has a disk of five bytes, and two snapshots of the first: one of
    which the volumes are synced, with three bytes, and one that may need seven
    bytes of a storage class and two of another. *)

From S2P Require Import Prelude Conditions Hardware GoErrors VMGroup Compute Volumes AdmissionVM Priority.
From S2P Require Import SnapshotCapacity Snapshots StorageUsage StorageQuota StorageResults QuotaResults SnapshotResults.
Local Open Scope Z_scope.
Local Open Scope go_scope.

Record StorageWorld := mkStorageWorld {
  sw_VMs : list (UsageVM Z);
  sw_Snapshots : list (Snapshot Z);
  sw_Usages : gmap string (StoragePolicyUsage Z);
  sw_Synced : list string
}.

Definition not_found : goerror := StatusError "NotFound" "not found".
Definition is_not_found (e : goerror) : bool := match e with StatusError reason _ => bool_decide (reason = "NotFound") | _ => false end.

Definition find_or {A} (l : list A) (f : A → bool) : goerror + A :=
  match List.find f l with Some a => inr a | None => inl not_found end.

Definition sw_image : UsageImage Z := mkUsageImage "OVF" [] [Some 5; None].
Definition sw_params : gmap string string := {["storagePolicyID" := "policy"]}.

#[export] Instance StorageWorld_API : StorageAPI StorageWorld Z := {
  st_Now _ := 0;
  st_IsNotFound := is_not_found;
  st_GetVM ns name w := find_or (sw_VMs w) (λ vm, bool_decide (uv_Namespace vm = ns) && bool_decide (uv_Name vm = name));
  st_GetSnapshot ns name w :=
    find_or (sw_Snapshots w) (λ s, bool_decide (sn_Namespace s = ns) && bool_decide (sn_Name s = name));
  st_NewHelper _ := None;
  st_PatchSnapshot _ s w := (mkStorageWorld (sw_VMs w) [s] (sw_Usages w) (sw_Synced w), None);
  st_ContainsFinalizer l f := bool_decide (f ∈ l);
  st_AddFinalizer l f := l ++ [f];
  st_RemoveFinalizer l f := filter (λ x, x ≠ f) l;
  st_SetOwnerReference _ l := inr l;
  st_DeleteSnapshot _ _ w := (w, inr false);
  st_SyncVMSnapshotTreeStatus vm _ := inr vm;
  st_PatchVMStatus _ _ w := (w, None);
  st_GetSnapshotSize _ _ _ := inr 3;
  st_SyncStorageUsage _ sc w := mkStorageWorld (sw_VMs w) (sw_Snapshots w) (sw_Usages w) (sw_Synced w ++ [sc]);
  st_GetPVC ns name _ := if bool_decide (name = "data") then inr (mkPVC "data" (Some "silver") (Some 2)) else inl not_found;
  st_ListVMs ns sc w :=
    inr (filter (λ vm, bool_decide (uv_Namespace vm = ns) && bool_decide (uv_StorageClass vm = sc)) (sw_VMs w));
  st_ListSnapshots ns w := inr (filter (λ s, bool_decide (sn_Namespace s = ns)) (sw_Snapshots w));
  st_GetSPU ns name w := (w, from_option inr (inl not_found) (sw_Usages w !! name));
  st_PatchSPU ns name _ spu w :=
    (mkStorageWorld (sw_VMs w) (sw_Snapshots w) (<[name := spu]> (sw_Usages w)) (sw_Synced w), None);
  st_GetVMI _ _ _ := inl not_found;
  st_GetCVMI name _ := if bool_decide (name = "image") then inr sw_image else inl not_found;
  st_GetStorageClass _ _ := inr sw_params;
  st_GetClassConfigSpec _ _ _ := inr "class";
  st_UnmarshalConfigSpecFromJSON _ := inr (4, Some 3);
  st_range A m := map_to_list m;
  st_range_perm A m := reflexivity _;
  st_UnsortedList := elements;
  st_UnsortedList_perm s := reflexivity _
}.

Definition sw_created : Conditions := MarkTrue 0 [] VirtualMachineConditionCreated.
Definition vm_base (name : string) (conds : Conditions) (storage : option (option Z)) : UsageVM Z :=
  mkUsageVM "ns" name "uid" ∅ ∅ false conds "class" "gold" (Some (mkImageRef "ClusterVirtualMachineImage" "image"))
    [("data", Some (mkUsageClaim "data" None))] [] None "unique" (Some (Some 4)) storage
    [mkUsageVolume "boot" VolumeTypeClassic (Some 3) None; mkUsageVolume "data" VolumeTypeManaged None None] None [].
Definition vm_one : UsageVM Z := vm_base "one" sw_created (Some (Some 10)).
Definition vm_two : UsageVM Z := vm_base "two" [] None.

Definition snap_base (name : string) (ann : gmap string string) (fin : list string) (conds : Conditions)
    (st : option (SnapshotStorage Z)) : Snapshot Z :=
  mkSnapshot "ns" name {[VMNameForSnapshotLabel := "one"]} ann fin [] false true None "" "one" conds st.
Definition snap_synced : Snapshot Z :=
  snap_base "synced" {[CSIVSphereVolumeSyncAnnotationKey := CSIVSphereVolumeSyncAnnotationValueCompleted]} [snapshotFinalizer]
    (MarkTrue 0 [] VirtualMachineSnapshotCreatedCondition) (Some (mkSnapStorage (Some 3) (Some []))).
Definition snap_new : Snapshot Z := snap_base "new" ∅ [snapshotFinalizer] [] None.

Definition storage_world : StorageWorld :=
  mkStorageWorld [vm_one; vm_two] [snap_synced; snap_new]
    {["gold-vm-usage" := mkSPU "gold" None; "gold-vmsnapshot-usage" := mkSPU "gold" None]} [].

(** ** The results in this world *)

Definition after_new : Snapshot Z * gset string * outcome goerror unit := snap_ReconcileNormal snap_new ∅ storage_world.

(** The new snapshot may need the memory and the boot disk, and a claim of
    another storage class. *)
Example new_requested : requested_of after_new.1.1 = Some [mkSnapRequested "gold" (Some 7); mkSnapRequested "silver" (Some 2)]
  ∨ requested_of after_new.1.1 = Some [mkSnapRequested "silver" (Some 2); mkSnapRequested "gold" (Some 7)].
Proof. vm_compute. auto. Qed.

Definition usage_world : StorageWorld := mkStorageWorld [vm_one; vm_two] [snap_synced; after_new.1.1] (sw_Usages storage_world) [].
Definition usage_result : StorageWorld * outcome goerror unit := usage_ReconcileNormal true "ns" "gold" usage_world.

(** VMs: five bytes reserved, ten used; snapshots: seven reserved, three used. *)
Example usage_computed :
  sw_Usages usage_result.1 !! "gold-vm-usage" = Some (mkSPU "gold" (Some (Some 5, Some 10))) ∧
  sw_Usages usage_result.1 !! "gold-vmsnapshot-usage" = Some (mkSPU "gold" (Some (Some 7, Some 3))).
Proof. split; vm_compute; reflexivity. Qed.

Lemma usage_exact_witness :
  ∃ vms, st_ListVMs "ns" "gold" usage_world = inr vms ∧ sum_of vm_uses vms = 10 * 1000000000.
Proof.
  destruct (usage_exact "ns" "gold" usage_world usage_result.1) as (vms & _ & _ & _ & _ & _ & _ & Hl & _).
  - vm_compute. reflexivity.
  - exists vms. split; [exact Hl|]. injection Hl as <-. vm_compute. reflexivity.
Defined.

Definition quota_request : CapacityRequest (Snapshot Z) :=
  mkRequest Create (inr (mkRaw ∅ false (inr snap_new))) (inl not_found).
Definition quota_answer : outcome Empty_set (CapacityResponse Z) := snapshot_Handle quota_request storage_world.
Definition quota_response : CapacityResponse Z :=
  match quota_answer with Ok r => r | _ => mkResponse [] (CapAllowed "") end.

(** Seven bytes are asked for, and seven are reserved. *)
Lemma quota_is_reserved_witness :
  granted "gold" (cr_Capacities quota_response) = 7 * 1000000000 ∧
  ∀ total, ∃ total', reportReservedForSnapshot after_new.1.1 total "gold" ∅ = Ok total' ∧
    amount total' = amount total + granted "gold" (cr_Capacities quota_response).
Proof.
  split; [vm_compute; reflexivity|].
  eapply (quota_is_reserved quota_request (mkRaw ∅ false (inr snap_new)) snap_new storage_world quota_response ""
    snap_new after_new.1.1 after_new.1.2 after_new.2); try (vm_compute; reflexivity).
  - done.
  - done.
Defined.

Definition vm_answer : outcome Empty_set (CapacityResponse Z) := vm_HandleCreate (mkRaw ∅ false (inr vm_two)) storage_world.
Definition vm_response : CapacityResponse Z := match vm_answer with Ok r => r | _ => mkResponse [] (CapAllowed "") end.

(** The disk of the image and a swap file of one MB. *)
Lemma vm_quota_covers_usage_witness :
  granted "gold" (cr_Capacities vm_response) = (5 + 1024 * 1024) * 1000000000.
Proof.
  destruct (vm_quota_covers_usage (mkRaw ∅ false (inr vm_two)) vm_two (mkImageRef "ClusterVirtualMachineImage" "image")
    storage_world vm_response "") as (img & Hi & Hg); [try (vm_compute; reflexivity)..|].
  - done.
  - rewrite Hg. injection Hi as <-. vm_compute. reflexivity.
Defined.

Definition with_boot_disk (q : option Z) (vm : UsageVM Z) : UsageVM Z :=
  mkUsageVM (uv_Namespace vm) (uv_Name vm) (uv_UID vm) (uv_Labels vm) (uv_Annotations vm) (uv_Deleting vm)
    (uv_Conditions vm) (uv_ClassName vm) (uv_StorageClass vm) (uv_Image vm) (uv_Volumes vm) (uv_SCSIControllers vm) q
    (uv_UniqueID vm) (uv_Memory vm) (uv_Storage vm)
    [mkUsageVolume "boot" VolumeTypeClassic (Some 3) (Some 6)] (uv_CurrentSnapshot vm) (uv_RootSnapshots vm).

(** A boot disk grows from six bytes to nine. *)
Lemma update_quota_difference_witness :
  granted "gold" (cr_Capacities (vm_HandleUpdate (mkRaw ∅ false (inr (with_boot_disk (Some 9) vm_one)))
    (mkRaw ∅ false (inr (with_boot_disk None vm_one))) storage_world)) = 3 * 1000000000.
Proof.
  rewrite (update_quota_difference _ _ (with_boot_disk (Some 9) vm_one) (with_boot_disk None vm_one) storage_world "");
    vm_compute; reflexivity.
Defined.

Definition snap_ready : Snapshot Z * gset string * outcome goerror unit := snap_ReconcileNormal snap_synced ∅ storage_world.

(** The snapshot of which the volumes are synced becomes ready. *)
Lemma snapshot_ready_iff_witness :
  IsTrue (sn_Conditions (reconcileSnapshotReadyCondition 0 snap_ready.1.1)) VirtualMachineSnapshotReadyCondition = true.
Proof.
  rewrite (proj1 (snapshot_ready_iff snap_synced ∅ storage_world snap_ready.1.1 snap_ready.1.2 0
    ltac:(vm_compute; repeat constructor; set_solver) ltac:(vm_compute; reflexivity) ltac:(vm_compute; reflexivity)
    ltac:(vm_compute; reflexivity))).
  vm_compute. reflexivity.
Defined.

Definition deleted : StorageWorld * Snapshot Z * gset string * option goerror :=
  snap_ReconcileDelete snap_synced ∅ storage_world.

(** A snapshot whose VM exists loses its finalizer after it is deleted of it. *)
Lemma snapshot_finalizer_safe_witness :
  sn_Finalizers deleted.1.1.2 = [] ∧ deleted.2 = None ∧
  ∃ vm w1 gone, st_GetVM "ns" "one" storage_world = inr vm ∧
    st_DeleteSnapshot snap_synced vm storage_world = (w1, inr gone).
Proof.
  split; [vm_compute; reflexivity|]. split; [vm_compute; reflexivity|].
  destruct (snapshot_finalizer_safe snap_synced ∅ storage_world deleted.1.1.1 deleted.1.1.2 deleted.1.2 None)
    as (_ & _ & [(e & He & _)|(vm & w1 & gone & Hv & Hd & _)]).
  - vm_compute. reflexivity.
  - vm_compute. reflexivity.
  - vm_compute in He. discriminate He.
  - exists vm, w1, gone. split; [exact Hv|exact Hd].
Defined.

Definition snap_asked : Snapshot Z := set_sn_Labels ∅ snap_new.
Definition snap_described : Snapshot Z :=
  mkSnapshot "ns" "new" ∅ ∅ [snapshotFinalizer] [] false true None "described" "one" [] None.

(** The label is set when a snapshot is created, set again when an update drops
    it, and there after a reconciliation. *)
Lemma snapshot_identity_invariant_witness :
  labelled (reconcileSnapshotReadyCondition 0 after_new.1.1).
Proof.
  apply (snapshot_identity_invariant snap_asked storage_world snap_new); [vm_compute; reflexivity..|].
  eapply rtc_l.
  { apply (step_update snap_new snap_described (set_sn_Labels {[VMNameForSnapshotLabel := "one"]} snap_described));
      vm_compute; reflexivity. }
  eapply rtc_l.
  { apply (step_update _ snap_new snap_new); vm_compute; reflexivity. }
  eapply rtc_once. apply (step_reconcile snap_new ∅ storage_world after_new.1.1 after_new.1.2 after_new.2).
  vm_compute. reflexivity.
Defined.

(** ** An answer written twice *)

(** A snapshot of which the VM is not found is denied; the response has the error
    and then a list of no capacities. *)
Definition gone_request : CapacityRequest (Snapshot Z) :=
  mkRequest Create (inr (mkRaw ∅ false (inr (mkSnapshot "ns" "s" ∅ ∅ [] [] false false None "" "gone" [] None))))
    (inl not_found).
Definition plain_errors : ErrorsLib := {| aggregate_unwraps := true; aggregate_Error := String.concat ","; Duration_String _ := "" |}.

Example denied_snapshot_answered_twice :
  ∃ message, serveHTTP (snapshot_WriteResponse (H2 := plain_errors) (λ _, None)) snapshot_Handle
    (mkHTTP (Some (inr 100)) "application/json" (inr gone_request)) storage_world =
    Ok [HTTPError message 500; JSONCapacities []].
Proof. eexists. vm_compute. reflexivity. Qed.
