(* ===== verification/VMLifecycle.v ===== *)
(** * The life of a VM: objects, the claims it owns, and waiting for an image

    The VM as its controller and the provider see it, the interfaces of both,
    pkg/util/kube/pvc.go (claims that a deleted VM must not take along) and
    pkg/errors/vmicache_not_ready_error.go (waiting for a cached image). *)

From S2P Require Import Prelude Conditions Hardware GoErrors VMGroup Volumes VMValidator.
Local Open Scope Z_scope.
Local Open Scope go_scope.

(** ** Constants *)

Definition ManagerID : string := "vmoperator.vmware.com/manager-id".
Definition VMICacheLabelKey : string := "vmicache.vmoperator.vmware.com/name".
Definition VMICacheLocationAnnotationKey : string := "vmicache.vmoperator.vmware.com/location".
Definition FastDeployAnnotationKey : string := "vmoperator.vmware.com/fast-deploy".
Definition FastDeployModeDirect : string := "direct".
Definition FastDeployModeLinked : string := "linked".
Definition SkipDeletePlatformResourceKey : string :=
  "vmoperator.vmware.com.protected/skip-delete-platform-resource".
Definition KeepOwnerRefAnnotationKey : string := "vmoperator.vmware.com/keep-owner-ref".
Definition VirtualMachineConditionImageCacheReady : string := "VirtualMachineConditionImageCacheReady".
Definition VirtualMachineImageCacheConditionHardwareReady : string := "VirtualMachineImageCacheHardwareReady".
Definition apiGroupNamePrefix : string := "vmoperator.vmware.com/".

(** ** Objects *)

(** [lv_Volumes] has the claim of each volume, with whether it is one of instance
    storage; [lv_NetworkDisabled] the network spec; [lv_ProbeTCP] the readiness
    probe, with whether it is a TCP probe; [lv_IPs] the network status with its
    primary addresses. *)
Record LifeVM := mkLifeVM {
  lv_Namespace : string;
  lv_Name : string;
  lv_UID : string;
  lv_Annotations : gmap string string;
  lv_Labels : gmap string string;
  lv_Finalizers : list string;
  lv_Deleting : bool;
  lv_StorageClass : string;
  lv_ClassName : string;
  lv_Volumes : list (option (string * bool));
  lv_PowerState : string;
  lv_PowerOffMode : string;
  lv_SuspendMode : string;
  lv_RestartMode : string;
  lv_NextRestartTime : string;
  lv_NetworkDisabled : option bool;
  lv_ProbeTCP : option bool;
  lv_Conditions : Conditions;
  lv_StatusPowerState : string;
  lv_Zone : string;
  lv_UniqueID : string;
  lv_IPs : option (string * string);
  lv_LastRestartTime : option Z
}.

(** What the controller and the provider change of it. *)
Record LifePart := mkLifePart {
  lp_Annotations : gmap string string;
  lp_Labels : gmap string string;
  lp_Finalizers : list string;
  lp_Conditions : Conditions;
  lp_UniqueID : string;
  lp_LastRestartTime : option Z
}.
Definition life_part (vm : LifeVM) : LifePart :=
  mkLifePart (lv_Annotations vm) (lv_Labels vm) (lv_Finalizers vm) (lv_Conditions vm) (lv_UniqueID vm)
    (lv_LastRestartTime vm).
Definition with_part (vm : LifeVM) (p : LifePart) : LifeVM :=
  mkLifeVM (lv_Namespace vm) (lv_Name vm) (lv_UID vm) (lp_Annotations p) (lp_Labels p) (lp_Finalizers p)
    (lv_Deleting vm) (lv_StorageClass vm) (lv_ClassName vm) (lv_Volumes vm) (lv_PowerState vm) (lv_PowerOffMode vm)
    (lv_SuspendMode vm) (lv_RestartMode vm) (lv_NextRestartTime vm) (lv_NetworkDisabled vm) (lv_ProbeTCP vm)
    (lp_Conditions p) (lv_StatusPowerState vm) (lv_Zone vm) (lp_UniqueID p) (lv_IPs vm) (lp_LastRestartTime p).

Definition set_lv_Annotations (x : gmap string string) (vm : LifeVM) : LifeVM :=
  with_part vm (mkLifePart x (lv_Labels vm) (lv_Finalizers vm) (lv_Conditions vm) (lv_UniqueID vm) (lv_LastRestartTime vm)).
Definition set_lv_Labels (x : gmap string string) (vm : LifeVM) : LifeVM :=
  with_part vm (mkLifePart (lv_Annotations vm) x (lv_Finalizers vm) (lv_Conditions vm) (lv_UniqueID vm) (lv_LastRestartTime vm)).
Definition set_lv_Finalizers (x : list string) (vm : LifeVM) : LifeVM :=
  with_part vm (mkLifePart (lv_Annotations vm) (lv_Labels vm) x (lv_Conditions vm) (lv_UniqueID vm) (lv_LastRestartTime vm)).
Definition set_lv_Conditions (x : Conditions) (vm : LifeVM) : LifeVM :=
  with_part vm (mkLifePart (lv_Annotations vm) (lv_Labels vm) (lv_Finalizers vm) x (lv_UniqueID vm) (lv_LastRestartTime vm)).
Definition set_lv_UniqueID (x : string) (vm : LifeVM) : LifeVM :=
  with_part vm (mkLifePart (lv_Annotations vm) (lv_Labels vm) (lv_Finalizers vm) (lv_Conditions vm) x (lv_LastRestartTime vm)).
Definition set_lv_LastRestartTime (x : option Z) (vm : LifeVM) : LifeVM :=
  with_part vm (mkLifePart (lv_Annotations vm) (lv_Labels vm) (lv_Finalizers vm) (lv_Conditions vm) (lv_UniqueID vm) x).

Definition lv_annotation (vm : LifeVM) (k : string) : string := default "" (lv_Annotations vm !! k).
Definition lv_label (vm : LifeVM) (k : string) : string := default "" (lv_Labels vm !! k).
Definition lv_key (vm : LifeVM) : string := lv_Namespace vm +:+ "/" +:+ lv_Name vm.

Definition lv_IsInstanceStoragePresent (vm : LifeVM) : bool :=
  existsb (λ v, match v with Some (_, instance) => instance | None => false end) (lv_Volumes vm).

Record ClaimOwner := mkClaimOwner { co_APIVersion : string; co_Kind : string; co_Name : string; co_UID : string }.
Record LifeClaim := mkClaim {
  cl_Namespace : string;
  cl_Name : string;
  cl_Annotations : gmap string string;
  cl_Owners : list ClaimOwner
}.
Definition set_cl_Owners (x : list ClaimOwner) (c : LifeClaim) : LifeClaim :=
  mkClaim (cl_Namespace c) (cl_Name c) (cl_Annotations c) x.

Record CacheLocation := mkCacheLocation {
  cal_DatacenterID : string;
  cal_DatastoreID : string;
  cal_ProfileID : string;
  cal_Conditions : Conditions
}.
Record ImageCache := mkImageCache { ic_Conditions : Conditions; ic_Locations : list CacheLocation }.

Record LifeConfig := mkLifeConfig {
  lc_FastDeploy : bool;
  lc_BringYourOwnEncryptionKey : bool;
  lc_InstanceStorage : bool;
  lc_WorkloadDomainIsolation : bool;
  lc_VMSnapshots : bool;
  lc_AllDisksArePVCs : bool;
  lc_VMGroups : bool;
  lc_VMEviction : bool;
  lc_AsyncSignalEnabled : bool;
  lc_AsyncCreateEnabled : bool;
  lc_FastDeployMode : string;
  lc_PodNamespace : string;
  lc_CreateVMRequeueDelay : Z;
  lc_PoweredOnVMHasIPRequeueDelay : Z;
  lc_MaxDeployThreads : Z
}.
Definition set_lc_FastDeploy (b : bool) (c : LifeConfig) : LifeConfig :=
  mkLifeConfig b (lc_BringYourOwnEncryptionKey c) (lc_InstanceStorage c) (lc_WorkloadDomainIsolation c)
    (lc_VMSnapshots c) (lc_AllDisksArePVCs c) (lc_VMGroups c) (lc_VMEviction c) (lc_AsyncSignalEnabled c)
    (lc_AsyncCreateEnabled c) (lc_FastDeployMode c) (lc_PodNamespace c) (lc_CreateVMRequeueDelay c)
    (lc_PoweredOnVMHasIPRequeueDelay c) (lc_MaxDeployThreads c).
Definition set_lc_WorkloadDomainIsolation (b : bool) (c : LifeConfig) : LifeConfig :=
  mkLifeConfig (lc_FastDeploy c) (lc_BringYourOwnEncryptionKey c) (lc_InstanceStorage c) b
    (lc_VMSnapshots c) (lc_AllDisksArePVCs c) (lc_VMGroups c) (lc_VMEviction c) (lc_AsyncSignalEnabled c)
    (lc_AsyncCreateEnabled c) (lc_FastDeployMode c) (lc_PodNamespace c) (lc_CreateVMRequeueDelay c)
    (lc_PoweredOnVMHasIPRequeueDelay c) (lc_MaxDeployThreads c).

(** ** The API server, controller-runtime and the prober *)

Class LifeAPI (W : Type) := {
  lf_Now : W → Z;
  lf_IsNotFound : goerror → bool;
  lf_GetVM : string → string → W → goerror + LifeVM;
  lf_NewHelper : LifeVM → option goerror;
  lf_PatchVM : LifeVM → LifeVM → W → W * option goerror;
  lf_ContainsFinalizer : list string → string → bool;
  lf_AddFinalizer : list string → string → list string;
  lf_RemoveFinalizer : list string → string → list string;
  (** the event that makes the usage of a storage class be computed *)
  lf_SyncStorageUsage : string → string → W → W;
  (** of pkg/util/kube/storage.go *)
  lf_IsEncryptedStorageClass : string → W → goerror + bool;
  lf_GetImageCache : string → string → W → goerror + ImageCache;
  (** claims by the UID of a VM that owns them, claims, and [retry.RetryOnConflict] *)
  lf_ListOwnedClaims : string → string → W → goerror + list LifeClaim;
  lf_GetClaim : string → string → W → goerror + LifeClaim;
  lf_PatchClaim : LifeClaim → LifeClaim → W → W * option goerror;
  lf_RetryOnConflict : (W → W * option goerror) → W → W * option goerror;
  (** the manager of readiness probes *)
  lf_AddToProber : LifeVM → W → W;
  lf_RemoveFromProber : LifeVM → W → W;
  (** the recorder of events; the goroutine that waits for a create to report *)
  lf_EmitEvent : LifeVM → string → option goerror → bool → W → W;
  lf_Warn : LifeVM → string → string → W → W;
  lf_GoHandleCreate : LifeVM → W → W
}.

(** ** The interface of the provider *)

(** The operation a call turned out to be. *)
Inductive CtxOp := OpNone | OpCreate | OpUpdate.

(** What a call returns: the VM it changed, the operation, whether a channel is
    returned, and the error. *)
Record ProviderReply := mkReply { re_VM : LifeVM; re_Op : CtxOp; re_Chan : bool; re_Err : option goerror }.

Class VMProvider (W : Type) := {
  pv_CreateOrUpdateVirtualMachine : LifeConfig → LifeVM → W → W * ProviderReply;
  pv_CreateOrUpdateVirtualMachineAsync : LifeConfig → LifeVM → W → W * ProviderReply;
  pv_DeleteVirtualMachine : LifeConfig → LifeVM → W → W * LifeVM * option goerror;
  pv_CleanupVirtualMachine : LifeConfig → LifeVM → W → W * LifeVM * option goerror
}.

Definition ErrTooManyCreates : goerror := ErrorString "too many creates".
Definition ErrReconcileInProgress : goerror := ErrorString "reconcile already in progress".

(** ** Claims *)

Definition PVCOwnerRefVMUIDIndexerFunc (c : LifeClaim) : list string :=
  co_UID <$> filter (λ ref, co_Kind ref = vmKind ∧ HasPrefix (co_APIVersion ref) apiGroupNamePrefix = true) (cl_Owners c).

Definition attachedClaimNames (vm : LifeVM) : gset string :=
  list_to_set (omap (λ v, match v with
    | Some (claim, _) => if bool_decide (claim = "") then None else Some claim
    | None => None
    end) (lv_Volumes vm)).

Definition owned_by_vm (vm : LifeVM) (ref : ClaimOwner) : bool :=
  HasPrefix (co_APIVersion ref) apiGroupNamePrefix && bool_decide (co_Kind ref = vmKind) &&
  bool_decide (co_Name ref = lv_Name vm) && bool_decide (co_UID ref = lv_UID vm).

Section Claims.
Context {W : Type} `{LifeAPI W}.

(** The function that is retried. *)
Definition remove_owner (vm : LifeVM) (namespace name : string) (w : W) : W * option goerror :=
  match lf_GetClaim namespace name w with
  | inl err => (w, if lf_IsNotFound err then None else Some err)
  | inr pvc =>
    if bool_decide (is_Some (cl_Annotations pvc !! KeepOwnerRefAnnotationKey)) then (w, None)
    else
      let filteredRefs := filter (λ ref, owned_by_vm vm ref = false) (cl_Owners pvc) in
      if existsb (owned_by_vm vm) (cl_Owners pvc) then lf_PatchClaim pvc (set_cl_Owners filteredRefs pvc) w
      else (w, None)
  end.

Definition removeVMOwnerRefFromPVC (vm : LifeVM) (namespace name : string) (w : W) : W * option goerror :=
  lf_RetryOnConflict (remove_owner vm namespace name) w.

Fixpoint remove_owners (vm : LifeVM) (pvcs : list LifeClaim) (errs : list goerror) (w : W) : W * list goerror :=
  match pvcs with
  | [] => (w, errs)
  | pvc :: pvcs =>
    if bool_decide (cl_Name pvc ∈ attachedClaimNames vm) then remove_owners vm pvcs errs w
    else match removeVMOwnerRefFromPVC vm (cl_Namespace pvc) (cl_Name pvc) w with
    | (w, Some err) =>
      remove_owners vm pvcs (errs ++ [Wrapped ("failed to remove owner ref from pvc " +:+ cl_Name pvc) err]) w
    | (w, None) => remove_owners vm pvcs errs w
    end
  end.

Definition RemoveStaleVMOwnerRefFromPVCs (vm : LifeVM) (w : W) : W * option goerror :=
  match lf_ListOwnedClaims (lv_Namespace vm) (lv_UID vm) w with
  | inl err => (w, Some (Wrapped ("failed to list pvcs owned by vm " +:+ lv_key vm) err))
  | inr pvcs =>
    let '(w, errs) := remove_owners vm pvcs [] w in
    (w, NewAggregate (Some <$> errs))
  end.
End Claims.

(** ** Waiting for a cached image *)

Section Cache.
Context `{ErrorsLib}.

Definition is_cache_not_ready (e : goerror) : option (string * string * string * string * string) :=
  match e with VMICacheNotReadyError msg name dc ds p => Some (msg, name, dc, ds, p) | _ => None end.

(** The VM is left to be reconciled when the cache object changes. *)
Definition WatchVMICacheIfNotReady (now : Z) (err : option goerror) (vm : LifeVM) : LifeVM * bool :=
  match err ≫= As is_cache_not_ready with
  | None => (vm, false)
  | Some (msg, name, dc, ds, p) =>
    let vm := set_lv_Labels (<[VMICacheLabelKey := name]> (lv_Labels vm)) vm in
    let vm := set_lv_Conditions
      (MarkFalse now (lv_Conditions vm) VirtualMachineConditionImageCacheReady "NotReady"
         (Error (VMICacheNotReadyError msg name dc ds p))) vm in
    let vm :=
      if negb (bool_decide (dc = "")) || negb (bool_decide (ds = "")) || negb (bool_decide (p = ""))
      then set_lv_Annotations (<[VMICacheLocationAnnotationKey := dc +:+ "," +:+ ds +:+ "," +:+ p]> (lv_Annotations vm)) vm
      else vm in
    (vm, true)
  end.

End Cache.
