(* ===== verification/VMController.v ===== *)
(** * The VM controller

    controllers/virtualmachine/virtualmachine/virtualmachine_controller.go.  The
    provider is the interface [VMProvider]; what is registered in the context for
    the reconfiguration of VMs, logging and watches are left out. *)

From S2P Require Import Prelude Conditions Hardware GoErrors VMGroup Volumes VMValidator Priority AdmissionVM VMLifecycle.
Local Open Scope Z_scope.
Local Open Scope go_scope.

Definition vm_finalizerName : string := "vmoperator.vmware.com/virtualmachine".
Definition deprecatedFinalizerName : string := "virtualmachine.vmoperator.vmware.com".

(** [strings.Split] at a character. *)
Fixpoint split_at (sep : Ascii.ascii) (s cur : string) : list string :=
  match s with
  | EmptyString => [cur]
  | String.String c s =>
    if bool_decide (c = sep) then cur :: split_at sep s ""
    else split_at sep s (cur +:+ String.String c EmptyString)
  end.
Definition comma : Ascii.ascii := Ascii.ascii_of_N 44.
Definition Split (s : string) : list string := split_at comma s "".

Section VMController.
Context {W : Type} `{ErrorsLib} `{LifeAPI W} `{VMProvider W}.
Implicit Types (cfg : LifeConfig) (vm : LifeVM) (w : W) (err : option goerror).

(** ** Errors *)

Definition is_err (f : goerror → bool) err : bool := match err with Some e => f e | None => false end.

Definition ignoredCreateErr err : bool :=
  is_err (λ e, IsSentinel "reconcile already in progress" e || IsSentinel "too many creates" e) err.

Definition filterNoRequeueErr err : option goerror := if is_err IsNoRequeueError err then None else err.

(** The recorder of the controller: a create that waits is no failure. *)
Definition vm_EmitEvent vm (opName : string) err (ignoreSuccess : bool) w : W :=
  match err with
  | Some e =>
    if bool_decide (opName = "Create") && IsNoRequeueError e then lf_Warn vm (opName +:+ "Pending") (Error e) w
    else lf_EmitEvent vm opName err ignoreSuccess w
  | None => lf_EmitEvent vm opName err ignoreSuccess w
  end.

Definition not_ready_err : goerror := NoRequeueError "disk image cache is not ready" false.

Definition handleBlockingCreateErr cfg vm err w : W * LifeVM * option goerror :=
  let '(vm, err) :=
    if lc_FastDeploy cfg then
      match WatchVMICacheIfNotReady (lf_Now w) err vm with
      | (vm, true) => (vm, Some not_ready_err)
      | (vm, false) => (vm, err)
      end
    else (vm, err) in
  (vm_EmitEvent vm "Create" err false w, vm, err).

(** The goroutine that receives the errors of a create until the channel is
    closed; [ErrCreate] is the success. *)
Definition handleNonBlockingCreateErr vm (received : list (option goerror)) w : W :=
  let '(w, failed) := foldl (λ '(w, failed) err,
    if is_err (λ e, negb (IsNoRequeueNoErr "created vm" e) && negb (IsNoRequeueError e)) err
    then (vm_EmitEvent vm "Create" err false w, true) else (w, failed)) (w, false) received in
  if failed then w else vm_EmitEvent vm "Create" None false w.

(** ** The image cache *)

Definition find_location (dc ds p : string) (l : list CacheLocation) : option CacheLocation :=
  List.find (λ c, bool_decide (cal_DatacenterID c = dc) && bool_decide (cal_DatastoreID c = ds) &&
                  bool_decide (cal_ProfileID c = p)) l.

Definition drop_label vm : LifeVM := set_lv_Labels (delete VMICacheLabelKey (lv_Labels vm)) vm.
Definition drop_wait vm : LifeVM :=
  set_lv_Annotations (delete VMICacheLocationAnnotationKey (lv_Annotations vm)) (drop_label vm).

Definition isVMICacheReady cfg vm w : LifeVM * bool :=
  let vmicName := lv_label vm VMICacheLabelKey in
  if bool_decide (vmicName = "") then (vm, true)
  else match lf_GetImageCache (lc_PodNamespace cfg) vmicName w with
  | inl _ => (vm, false)
  | inr vmic =>
    if negb (IsTrue (ic_Conditions vmic) VirtualMachineImageCacheConditionHardwareReady) then (vm, false)
    else
      let location := lv_annotation vm VMICacheLocationAnnotationKey in
      if bool_decide (location = "") then (drop_label vm, true)
      else
        match Split location with
        | [_; _] => (drop_wait vm, false)
        | parts =>
          let locStatus := match parts with [dc; ds; p] => find_location dc ds p (ic_Locations vmic) | _ => None end in
          match locStatus with
          | Some l => if IsTrue (cal_Conditions l) ReadyConditionType then (drop_wait vm, true) else (vm, false)
          | None => (vm, false)
          end
        end
  end.

(** ** A VM that is wanted *)

Definition call_provider cfg vm w : W * ProviderReply :=
  if lc_AsyncSignalEnabled cfg && lc_AsyncCreateEnabled cfg then pv_CreateOrUpdateVirtualMachineAsync cfg vm w
  else pv_CreateOrUpdateVirtualMachine cfg vm w.

(** The switch after the call: events, and the error that is returned. *)
Definition after_provider cfg (r : ProviderReply) w : W * LifeVM * option goerror :=
  let vm := re_VM r in
  let err := re_Err r in
  match re_Op r with
  | OpCreate =>
    if negb (ignoredCreateErr err) then
      if negb (re_Chan r) then handleBlockingCreateErr cfg vm err w
      else match err with
      | Some _ => handleBlockingCreateErr cfg vm err w
      | None => (lf_GoHandleCreate vm w, vm, err)
      end
    else (w, vm, err)
  | OpUpdate => (vm_EmitEvent vm "Update" (filterNoRequeueErr err) false w, vm, err)
  | OpNone =>
    if is_err (λ _, true) err && negb (ignoredCreateErr err)
    then (vm_EmitEvent vm "ReconcileNormal" (filterNoRequeueErr err) true w, vm, err)
    else (w, vm, err)
  end.

Definition update_prober cfg vm w : W :=
  if negb (lc_AsyncSignalEnabled cfg) then lf_AddToProber vm w
  else if bool_decide (lv_ProbeTCP vm = Some true) then lf_AddToProber vm w
  else lf_RemoveFromProber vm w.

Definition vm_ReconcileNormal cfg vm w : W * LifeVM * option goerror :=
  if bool_decide (is_Some (lv_Annotations vm !! PauseAnnotation)) then (w, vm, None)
  else if negb (lf_ContainsFinalizer (lv_Finalizers vm) vm_finalizerName) then
    (w, set_lv_Finalizers
          (lf_AddFinalizer (lf_RemoveFinalizer (lv_Finalizers vm) deprecatedFinalizerName) vm_finalizerName) vm, None)
  else
    let '(vm, ready) := if lc_FastDeploy cfg then isVMICacheReady cfg vm w else (vm, true) in
    if negb ready then (w, vm, Some not_ready_err)
    else
      let '(w, reply) := call_provider cfg vm w in
      let '(w, vm, err) := after_provider cfg reply w in
      (update_prober cfg vm w, vm, err).

(** ** A VM that is deleted *)

Definition skipDelete vm : bool :=
  existsb (λ kv, bool_decide (kv.1 = PauseAnnotation) || HasPrefix kv.1 (CheckAnnotationDelete +:+ "/"))
    (map_to_list (lv_Annotations vm)).

Definition remove_finalizers vm : LifeVM :=
  set_lv_Finalizers (lf_RemoveFinalizer (lf_RemoveFinalizer (lv_Finalizers vm) vm_finalizerName) deprecatedFinalizerName) vm.

(** The owner references, then the finalizers. *)
Definition release vm w : W * LifeVM * option goerror :=
  match RemoveStaleVMOwnerRefFromPVCs vm w with
  | (w, Some err) => (w, vm, Some (Wrapped "failed to remove stale pvc owner refs" err))
  | (w, None) => let vm := remove_finalizers vm in (lf_RemoveFromProber vm w, vm, None)
  end.

Definition vm_ReconcileDelete cfg vm w : W * LifeVM * option goerror :=
  if skipDelete vm then (w, vm, None)
  else if lf_ContainsFinalizer (lv_Finalizers vm) vm_finalizerName ||
          lf_ContainsFinalizer (lv_Finalizers vm) deprecatedFinalizerName
  then
    if bool_decide (is_Some (lv_Annotations vm !! SkipDeletePlatformResourceKey)) then
      match pv_CleanupVirtualMachine cfg vm w with
      | (w, vm, Some err) => (w, vm, Some (Wrapped "failed to cleanup VM Operator modifications" err))
      | (w, vm, None) => release vm w
      end
    else
      let '(w, vm, err) :=
        match pv_DeleteVirtualMachine cfg vm w with
        | (w, vm, None) => release vm w
        | r => r
        end in
      (vm_EmitEvent vm "Delete" err false w, vm, err)
  else (lf_RemoveFromProber vm w, vm, None).

(** ** Reconciliation *)

Definition requeueDelay cfg vm err : Z :=
  if negb (bool_decide (lv_label vm VMICacheLabelKey = "")) then 0
  else if ignoredCreateErr err || negb (IsTrue (lv_Conditions vm) VirtualMachineConditionCreated)
  then lc_CreateVMRequeueDelay cfg
  else if lc_AsyncSignalEnabled cfg then 0
  else if bool_decide (lv_StatusPowerState vm = VirtualMachinePowerStateOn) &&
          bool_decide (lv_NetworkDisabled vm = Some false) &&
          match lv_IPs vm with
          | None => true
          | Some (ip4, ip6) => bool_decide (ip4 = "") && bool_decide (ip6 = "")
          end
  then lc_PoweredOnVMHasIPRequeueDelay cfg
  else 0.

(** The mode of fast deploy of a VM; an encrypted storage class or instance
    storage rules it out. *)
Definition fast_deploy_mode cfg vm w : goerror + string :=
  let mode := lv_annotation vm FastDeployAnnotationKey in
  let mode := if bool_decide (mode = "") then lc_FastDeployMode cfg else mode in
  let rest := λ mode,
    if negb (bool_decide (mode = "")) && lc_InstanceStorage cfg && lv_IsInstanceStoragePresent vm then "" else mode in
  if negb (lc_BringYourOwnEncryptionKey cfg) then
    match lf_IsEncryptedStorageClass (lv_StorageClass vm) w with
    | inl err => inl (Wrapped ("failed to check if storage class " +:+ lv_StorageClass vm +:+ " is encrypted") err)
    | inr true => inr (rest "")
    | inr false => inr (rest mode)
    end
  else inr (rest mode).

Definition GetContextWithWorkloadDomainIsolation cfg vm : LifeConfig :=
  set_lc_WorkloadDomainIsolation
    (lc_WorkloadDomainIsolation cfg || negb (bool_decide (is_Some (lv_Labels vm !! KubernetesNodeLabelKey)))) cfg.

(** The configuration for this VM. *)
Definition vm_config cfg vm w : goerror + LifeConfig :=
  let isolate := λ cfg, GetContextWithWorkloadDomainIsolation cfg vm in
  if lc_FastDeploy cfg then
    match fast_deploy_mode cfg vm w with
    | inl err => inl err
    | inr mode =>
      let mode := ToLower mode in
      if bool_decide (mode = FastDeployModeDirect) || bool_decide (mode = FastDeployModeLinked)
      then inr (isolate cfg) else inr (isolate (set_lc_FastDeploy false cfg))
    end
  else inr (isolate cfg).

(** The deferred function. *)
Definition vm_finish (original vm : LifeVM) (res : Result * option goerror) w : W * (Result * option goerror) :=
  let w := lf_SyncStorageUsage (lv_Namespace vm) (lv_StorageClass vm) w in
  let '(w, err) := lf_PatchVM original vm w in
  (w, match res.2 with None => (res.1, err) | _ => res end).

Definition vm_Reconcile cfg (namespace name : string) w : W * (Result * option goerror) :=
  match lf_GetVM namespace name w with
  | inl err => (w, (no_result, if lf_IsNotFound err then None else Some err))
  | inr vm =>
    match vm_config cfg vm w with
    | inl err => (w, (no_result, Some err))
    | inr cfg =>
      match lf_NewHelper vm with
      | Some err => (w, (no_result, Some (Wrapped "failed to init patch helper" err)))
      | None =>
        if lv_Deleting vm then
          let '(w, vm', err) := vm_ReconcileDelete cfg vm w in
          vm_finish vm vm' (ResultFromError err) w
        else
          let '(w, vm', err) := vm_ReconcileNormal cfg vm w in
          vm_finish vm vm'
            (if is_err (λ _, true) err && negb (ignoredCreateErr err) then ResultFromError err
             else (mkResult false (requeueDelay cfg vm' err), None)) w
      end
    end
  end.
End VMController.
