(* ===== verification/ProviderVM.v ===== *)
(** * The provider: creating, updating and deleting a VM in vCenter

    pkg/providers/vsphere/vmprovider_vm.go with the dispatch of
    pkg/providers/vsphere/session/session_vm_update.go, the deletion of
    pkg/providers/vsphere/virtualmachine/delete.go, the running tasks of
    pkg/context/virtualmachine_context.go and the namespaces of
    pkg/topology/availability_zones.go.

    The variables the package shares between reconciliations, the VMs that are
    created in the background and the number of creates, are [ProviderState]; the
    goroutines that were started are listed in it.  vCenter and the steps of an
    update that are modelled elsewhere or not at all are [ProviderAPI]; power
    operations are those of [PowerState]. *)

From S2P Require Import Prelude Conditions Hardware GoErrors VMGroup Volumes InstanceStorage VMValidator PowerState Priority.
From S2P Require Import AdmissionVM VMLifecycle.
Local Open Scope Z_scope.
Local Open Scope go_scope.

(** ** Constants *)

Definition VirtualMachineLocationValid : string := "VirtualMachineLocationValid".
Definition VirtualMachinePowerStateSynced : string := "VirtualMachinePowerStateSynced".
Definition VirtualMachineInfraInMaintenanceReason : string := "InfraInMaintenance".
Definition VirtualMachineConditionPlacementReady : string := "VirtualMachineConditionPlacementReady".
Definition ForceEnableBackupAnnotation : string := "vmoperator.vmware.com/force-enable-backup".
Definition UnmanagedVolumesRegistered : string := "VirtualMachineUnmanagedVolumesRegistered".
Definition PromoteDisksTaskKey : string := "VirtualMachine.promoteDisks".
Definition ignoredTaskDescriptionIDs : list string := ["com.vmware.wcp.mobility.virtualmachinesimport.create"].
Definition VMPausedByAdminError : string :=
  "failed to delete this VM because extraConfig Key 'vmservice.virtualmachine.pause' is set by admin".
Definition PowerOpModeHard : string := "Hard".
Definition PowerOpModeTrySoft : string := "TrySoft".

Definition ErrSetPowerState : goerror := NoRequeueError "updated power state" true.
Definition ErrRestart : goerror := NoRequeueError "restarted vm" true.
Definition ErrIsPaused : goerror := NoRequeueError "is paused" true.
Definition ErrHasTask : goerror := NoRequeueError "has outstanding task" true.
Definition ErrCreate : goerror := NoRequeueError "created vm" true.
Definition ErrInfraMaintenanceFault : goerror :=
  ErrorString "vm power operation failed due to infrastructure in maintenance".

(** ** Objects *)

(** What is read of a VM in vCenter; [mv_RuntimePower] is [runtime.powerState],
    [mv_SummaryPower] that of the summary. *)
Record ManagedVM := mkManagedVM {
  mv_HasConfig : bool;
  mv_PausedByAdmin : bool;
  mv_ConnectionState : string;
  mv_RuntimePower : string;
  mv_SummaryPower : string;
  mv_ResourcePool : option string;
  mv_Parent : option string;
  mv_RecentTask : list string
}.

Record RecentTask := mkRecentTask {
  rt_Task : string;
  rt_State : string;
  rt_DescriptionId : string;
  rt_Entity : option string;
  rt_Locked : list string
}.
(** The content of a task as it is retrieved: it may have expired. *)
Inductive TaskContent := TaskMissing | TaskError (err : goerror) | TaskOther | TaskFound (t : RecentTask).

Record CreateArgs := mkCreateArgs {
  ca_ResourcePolicy : option string;
  ca_HasInstanceStorage : bool;
  ca_ZoneName : string
}.

(** A zone of a namespace; what an availability zone has of a namespace. *)
Record ZoneInfo := mkZoneInfo { zi_FolderMoID : string; zi_PoolMoIDs : list string }.
Record NamespaceInfo := mkNamespaceInfo { ni_FolderMoId : string; ni_PoolMoId : string; ni_PoolMoIDs : list string }.

(** A create that runs in the background, and the name it gives back at its end. *)
Record AsyncCreate := mkAsyncCreate { as_Key : string; as_Config : LifeConfig; as_VM : LifeVM; as_Args : CreateArgs }.

Record ProviderState := mkProviderState {
  ps_Reconciling : gset string;
  ps_CreateCount : Z;
  ps_Async : list AsyncCreate
}.

(** ** vCenter and the other steps *)

Class ProviderAPI (W : Type) := {
  pa_Now : W → Z;
  pa_ParseTime : string → goerror + Z;
  pa_SyncGVK : LifeVM → option goerror;
  (** the client, with the UUID of vCenter; whether the VM is there *)
  pa_getVcClient : W → goerror + string;
  pa_getVM : LifeVM → W → goerror + bool;
  pa_Properties : LifeVM → W → goerror + ManagedVM;
  pa_RetrieveTasks : list string → W → goerror + list (string * TaskContent);
  pa_CancelTask : string → W → W * option goerror;
  pa_ListAttachedTags : W → option goerror;
  (** the power operations on a VM *)
  pa_VSphere : string → PowerState.VSphere W goerror;
  (** steps of a create *)
  pa_GetArgs : LifeConfig → LifeVM → W → W * LifeVM * (goerror + CreateArgs);
  pa_DoPlacement : LifeConfig → CreateArgs → LifeVM → W → W * LifeVM * (goerror + CreateArgs);
  pa_GetFolderAndRPMoIDs : CreateArgs → LifeVM → W → W * LifeVM * (goerror + CreateArgs);
  pa_GetSourceFilePaths : CreateArgs → LifeVM → W → W * LifeVM * (goerror + CreateArgs);
  pa_PathNameFromDatastore : CreateArgs → LifeVM → W → W * LifeVM * (goerror + CreateArgs);
  pa_PathName : CreateArgs → LifeVM → W → W * LifeVM * (goerror + CreateArgs);
  pa_FindClusterModuleUUID : string → CreateArgs → string;
  pa_CreateVirtualMachine : LifeConfig → CreateArgs → LifeVM → W → W * LifeVM * (goerror + string);
  pa_PatchStatus : LifeVM → LifeVM → W → W * option goerror;
  (** steps of an update *)
  pa_ReconcileStatus : LifeVM → ManagedVM → W → W * LifeVM * option goerror;
  pa_SchemaUpgrade : LifeVM → ManagedVM → W → W * LifeVM * option goerror;
  pa_DiskUUIDToPVC : LifeVM → W → option goerror;
  pa_AdditionalResources : LifeVM → W → option goerror;
  pa_Backup : LifeVM → W → W * option goerror;
  pa_SnapshotRevert : LifeVM → W → W * LifeVM * option goerror;
  pa_CurrentSnapshot : LifeVM → W → W * LifeVM * option goerror;
  pa_WaitForCRV : LifeVM → W → W * option goerror;
  pa_reconcileSuspendedVM : LifeVM → ManagedVM → W → W * LifeVM * option goerror;
  pa_reconcileVMWithTask : LifeVM → ManagedVM → W → W * LifeVM * option goerror;
  pa_reconcilePausedVM : LifeVM → ManagedVM → W → W * LifeVM * option goerror;
  pa_reconcilePoweredVM : LifeVM → ManagedVM → W → W * LifeVM * option goerror;
  (** where a VM may be *)
  pa_GetZone : string → string → W → goerror + ZoneInfo;
  pa_GetAvailabilityZone : string → W → goerror + gmap string NamespaceInfo;
  pa_PoolParent : string → W → goerror + option string;
  pa_FolderParent : string → W → goerror + option string;
  pa_ResourcePoolOwner : string → W → option goerror;
  (** deletion *)
  pa_Destroy : LifeVM → W → W * (goerror + option goerror);
  pa_CleanupVMServiceState : LifeVM → W → W * option goerror
}.

Section Provider.
Context {W : Type} `{ErrorsLib} `{ProviderAPI W}.
Implicit Types (cfg : LifeConfig) (vm : LifeVM) (mo : ManagedVM) (w : W) (ps : ProviderState).

(** ** Checks *)

Definition connected mo : bool :=
  bool_decide (mv_ConnectionState mo = "") || bool_decide (mv_ConnectionState mo = "connected").
Definition connection_error mo : goerror :=
  NoRequeueError ("unsupported connection state: " +:+ mv_ConnectionState mo) false.

Definition verifyConfigInfo mo : option goerror :=
  if mv_HasConfig mo then None else Some (NoRequeueError "nil config info" false).
Definition verifyConnectionState mo : option goerror := if connected mo then None else Some (connection_error mo).
Definition verifyResourcePool mo : option goerror :=
  match mv_ResourcePool mo with
  | Some _ => None
  | None => Some (NoRequeueError "VM does not belong to a resource pool" false)
  end.

Definition isVMPaused vm mo : LifeVM * bool :=
  let byAdmin := mv_HasConfig mo && mv_PausedByAdmin mo in
  let byDevOps := bool_decide (is_Some (lv_Annotations vm !! PauseAnnotation)) in
  if byAdmin || byDevOps then
    (set_lv_Labels (<[PausedVMLabelKey := if byAdmin && byDevOps then "both" else if byAdmin then "admin" else "devops"]>
       (lv_Labels vm)) vm, true)
  else (set_lv_Labels (delete PausedVMLabelKey (lv_Labels vm)) vm, false).

Definition IsOnToOff vm mo : bool :=
  bool_decide (mv_RuntimePower mo = PoweredOn) && bool_decide (lv_PowerState vm = VirtualMachinePowerStateOff).

Definition ConvertPowerState (powerState : string) : string :=
  if bool_decide (powerState = PoweredOn) then VirtualMachinePowerStateOn
  else if bool_decide (powerState = PoweredOff) then VirtualMachinePowerStateOff
  else if bool_decide (powerState = Suspended) then VirtualMachinePowerStateSuspended
  else VirtualMachinePowerStateOff.

(** ** Tasks *)

Definition running (t : RecentTask) : bool := bool_decide (rt_State t = "running").

(** The first running task decides. *)
Fixpoint HasVMRunningTask (tasks : list RecentTask) (checkSharedLock : bool) : bool :=
  match tasks with
  | [] => false
  | t :: tasks =>
    if running t && negb (bool_decide (rt_DescriptionId t ∈ ignoredTaskDescriptionIDs)) then
      match rt_Entity t with
      | Some e => if checkSharedLock then bool_decide (e ∈ rt_Locked t) else true
      | None => true
      end
    else HasVMRunningTask tasks checkSharedLock
  end.

(** The tasks in the order of the VM; of a task that is reported twice the last
    content counts. *)
Fixpoint collect_tasks (contents : gmap string TaskContent) (refs : list string) : goerror + list RecentTask :=
  match refs with
  | [] => inr []
  | ref :: refs =>
    match contents !! ref with
    | None | Some TaskMissing => collect_tasks contents refs
    | Some (TaskError err) => inl (Wrapped "failed to retrieve task info" err)
    | Some TaskOther => inl (ErrorString ("failed to retrieve task info for " +:+ ref +:+ ": unexpected object type"))
    | Some (TaskFound t) =>
      match collect_tasks contents refs with inl err => inl err | inr ts => inr (t :: ts) end
    end
  end.

Definition getRecentTaskInfo mo w : goerror + list RecentTask :=
  match mv_RecentTask mo with
  | [] => inr []
  | refs =>
    match pa_RetrieveTasks refs w with
    | inl err => inl (Wrapped "failed to retrieve task info" err)
    | inr contents => collect_tasks (foldl (λ m c, <[c.1 := c.2]> m) ∅ contents) refs
    end
  end.

(** ** Where a VM may be *)

Definition GetNamespaceFolderAndRPMoID cfg (zone namespace : string) w : goerror + string * string :=
  if lc_WorkloadDomainIsolation cfg then
    match pa_GetZone zone namespace w with
    | inl err => inl err
    | inr z => inr (zi_FolderMoID z, default "" (head (zi_PoolMoIDs z)))
    end
  else
    match pa_GetAvailabilityZone zone w with
    | inl err => inl err
    | inr namespaces =>
      match namespaces !! namespace with
      | None => inl (ErrorString ("availability zone " +:+ zone +:+ " missing info for namespace " +:+ namespace))
      | Some ns => inr (ni_FolderMoId ns, default (ni_PoolMoId ns) (head (ni_PoolMoIDs ns)))
      end
    end.

(** The place itself or one directly below it. *)
Definition in_place (parent : string → W → goerror + option string) (here expected : string) w : goerror + bool :=
  if bool_decide (here = expected) then inr true
  else match parent here w with
  | inl err => inl err
  | inr (Some p) => inr (bool_decide (p = expected))
  | inr None => inr false
  end.
Definition validateVMResourcePool (pool expectedRootRPMoID : string) w : goerror + bool :=
  in_place pa_PoolParent pool expectedRootRPMoID w.
Definition validateVMFolder (folder expectedFolder : string) w : goerror + bool :=
  in_place pa_FolderParent folder expectedFolder w.

Definition reconcileLocation cfg vm mo w : LifeVM * option goerror :=
  match mv_ResourcePool mo, mv_Parent mo with
  | None, _ => (vm, Some (ErrorString "VM is not assigned to any resource pools"))
  | Some _, None => (vm, Some (ErrorString "VM has no parent folder"))
  | Some pool, Some parent =>
    if bool_decide (lv_Zone vm = "") then (vm, None)
    else
      match GetNamespaceFolderAndRPMoID cfg (lv_Zone vm) (lv_Namespace vm) w with
      | inl err => (vm, Some (Wrapped "failed to get expected namespace resource pool" err))
      | inr (expectedFolder, expectedRootRPMoID) =>
        match validateVMResourcePool pool expectedRootRPMoID w with
        | inl err => (vm, Some (Wrapped "failed to validate VM resource pool" err))
        | inr isVMInValidRP =>
          match validateVMFolder parent expectedFolder w with
          | inl err => (vm, Some (Wrapped "failed to validate VM folder" err))
          | inr isVMInValidFolder =>
            if negb isVMInValidRP || negb isVMInValidFolder then
              let reason :=
                if negb isVMInValidRP && negb isVMInValidFolder then "ResourcePoolAndFolderMismatch"
                else if negb isVMInValidRP then "ResourcePoolMismatch" else "FolderMismatch" in
              (set_lv_Conditions
                 (MarkFalse (pa_Now w) (lv_Conditions vm) VirtualMachineLocationValid reason
                    "VM was moved to an unexpected ResourcePool or Folder") vm,
               Some (NoRequeueError ("VM " +:+ lv_key vm +:+ " relocated outside expected hierarchy") false))
            else (set_lv_Conditions (MarkTrue (pa_Now w) (lv_Conditions vm) VirtualMachineLocationValid) vm, None)
          end
        end
      end
  end.

(** ** Backup and configuration *)

Definition reconcileBackupState vm w : W * LifeVM * option goerror :=
  if HasCAPILabels (lv_Labels vm) && negb (bool_decide (is_Some (lv_Annotations vm !! ForceEnableBackupAnnotation)))
  then (w, vm, None)
  else match pa_DiskUUIDToPVC vm w with
  | Some err => (w, vm, Some err)
  | None =>
    match pa_AdditionalResources vm w with
    | Some err => (w, vm, Some err)
    | None => let '(w, err) := pa_Backup vm w in (w, vm, err)
    end
  end.

(** [Session.UpdateVirtualMachine]; what is told to the reconcilers of the context
    about the result is left out. *)
Definition UpdateVirtualMachine vm mo (tasks : list RecentTask) w : W * LifeVM * option goerror :=
  let '(w, vm, err) :=
    if bool_decide (mv_RuntimePower mo = Suspended) then pa_reconcileSuspendedVM vm mo w
    else if HasVMRunningTask tasks false then pa_reconcileVMWithTask vm mo w
    else
      let '(vm, paused) := isVMPaused vm mo in
      if paused then pa_reconcilePausedVM vm mo w
      else if bool_decide (mv_RuntimePower mo = PoweredOn) || bool_decide (mv_RuntimePower mo = PoweredOff)
      then pa_reconcilePoweredVM vm mo w
      else (w, vm, None) in
  (w, vm, match err with
          | Some e => Some (if IsNoRequeueError e then e else Wrapped "updating state failed with" e)
          | None => None
          end).

Definition reconcileConfig vm mo tasks w : W * LifeVM * option goerror :=
  match verifyConfigInfo mo with
  | Some err => (w, vm, Some err)
  | None =>
    match verifyConnectionState mo with
    | Some err => (w, vm, Some err)
    | None =>
      match mv_ResourcePool mo with
      | None => (w, vm, verifyResourcePool mo)
      | Some pool =>
        match pa_ResourcePoolOwner pool w with
        | Some err => (w, vm, Some err)
        | None => UpdateVirtualMachine vm mo tasks w
        end
      end
    end
  end.

(** ** Power state *)

(** The errors of [PowerState] as errors; a fault of the infrastructure wraps
    [ErrInfraMaintenanceFault]. *)
Definition power_goerror (e : powerError goerror) : goerror :=
  match e with
  | ErrProperties e => Wrapped "failed to retrieve properties" e
  | ErrInvokeHard s e => Wrapped ("failed to invoke hard power op for " +:+ s) e
  | ErrHard s infra msg e =>
    Wrapped ("hard set power state to " +:+ s +:+ " failed") (if infra then WrappedBoth ErrInfraMaintenanceFault e else e)
  | ErrSoft s e => Wrapped ("soft set power state to " +:+ s +:+ " failed") e
  | ErrWait s e => Wrapped ("failed to wait for power state " +:+ s) e
  | ErrInvokeHardRestart e | ErrHardRestart e => Wrapped "hard restart failed" e
  | ErrSoftRestart e => Wrapped "soft restart failed" e
  | ErrInvokeReconfigure e | PowerState.ErrReconfigure e => Wrapped "failed to record the restart" e
  | ErrTimeout s => ErrorString ("timed out waiting for power state " +:+ s)
  | ErrNilConfig => ErrorString "nil config"
  | ErrInvalidPowerState s => ErrorString ("invalid power state: " +:+ s)
  | ErrInvalidPowerOpBehavior b => ErrorString "invalid power op behavior"
  | ErrMissingOps => ErrorString "missing hard and soft power op functions"
  | ErrSoftRestartTimeout => ErrorString "timed out while soft restarting VM"
  | ErrParseRestartTime s => ErrorString ("failed to parse last restart time " +:+ s)
  end.

(** [VirtualMachine.SetPowerState] of pkg/providers/vsphere/resources/vm.go. *)
Definition res_SetPowerState vm (current desired mode : string) w : W * option goerror :=
  match setPowerState (H := pa_VSphere (lv_key vm)) (mkMO (ParsePowerState current) None) false (ParsePowerState desired) (ParsePowerOpMode mode) w with
  | (w, inl e) => (w, Some (power_goerror e))
  | (w, inr r) => (w, if AnyChange r then Some ErrSetPowerState else None)
  end.

Definition SetPowerStateSyncedCondition cfg vm (err : option goerror) (now : Z) : LifeVM :=
  let held := λ f : goerror → bool, match err with Some e => f e | None => false end in
  let l := lv_Conditions vm in
  set_lv_Conditions
    (if bool_decide (lv_StatusPowerState vm = lv_PowerState vm) || held (IsNoRequeueNoErr "updated power state")
     then Conditions.Set_ now l (Some (mkCondition VirtualMachinePowerStateSynced ConditionTrue 0 0 "Synced" (lv_PowerState vm)))
     else if lc_VMEviction cfg && held (IsSentinel "vm power operation failed due to infrastructure in maintenance")
     then MarkFalse now l VirtualMachinePowerStateSynced VirtualMachineInfraInMaintenanceReason
            "Unable to reconcile virtual machine power state because the underlying infrastructure is in maintenance"
     else MarkFalse now l VirtualMachinePowerStateSynced "NotSynced"
            ("spec.powerState=" +:+ lv_PowerState vm +:+ " != status.powerState=" +:+ lv_StatusPowerState vm)) vm.

Definition restart_vm vm w : W * LifeVM * option goerror :=
  if bool_decide (lv_NextRestartTime vm = "") then (w, vm, None)
  else match pa_ParseTime (lv_NextRestartTime vm) with
  | inl err => (w, vm, Some (Wrapped ("spec.nextRestartTime " +:+ lv_NextRestartTime vm +:+ " cannot be parsed") err))
  | inr nextRestartTime =>
    match restart (H := pa_VSphere (lv_key vm)) (mkMO "" None) false nextRestartTime (pa_Now w) (ParsePowerOpMode (lv_RestartMode vm)) w with
    | (w, inl e) => (w, vm, Some (power_goerror e))
    | (w, inr r) =>
      if AnyChange r then (w, set_lv_LastRestartTime (Some nextRestartTime) vm, Some ErrRestart) else (w, vm, None)
    end
  end.

(** The power operation, with its mode, if one is due. *)
Definition power_op_due vm (current : string) : option string :=
  let desired := lv_PowerState vm in
  if bool_decide (desired = VirtualMachinePowerStateOn) then
    if existsb (λ kv, HasPrefix kv.1 (CheckAnnotationPowerOn +:+ "/")) (map_to_list (lv_Annotations vm))
    then None else Some PowerOpModeHard
  else if bool_decide (desired = VirtualMachinePowerStateOff) then
    if bool_decide (current = VirtualMachinePowerStateOn) ||
       (bool_decide (current = VirtualMachinePowerStateSuspended) &&
        (bool_decide (lv_PowerOffMode vm = PowerOpModeHard) || bool_decide (lv_PowerOffMode vm = PowerOpModeTrySoft)))
    then Some (lv_PowerOffMode vm) else None
  else if bool_decide (desired = VirtualMachinePowerStateSuspended) then
    if bool_decide (current = VirtualMachinePowerStateOn) then Some (lv_SuspendMode vm) else None
  else None.

Definition change_power vm (current mode : string) w : W * LifeVM * option goerror :=
  let '(w, err) := res_SetPowerState vm current (lv_PowerState vm) mode w in
  let done := match err with Some e => IsNoRequeueNoErr "updated power state" e | None => false end in
  (w, if done && bool_decide (lv_PowerState vm = VirtualMachinePowerStateOn)
      then set_lv_Annotations (<[FirstBootDoneAnnotation := "true"]> (lv_Annotations vm)) vm else vm, err).

(** Whether the group of the VM asks to wait; the annotation goes when its time
    has come. *)
Definition group_delay cfg vm w : LifeVM * option goerror :=
  let val := lv_annotation vm ApplyPowerStateTimeAnnotation in
  if lc_VMGroups cfg &&
     (bool_decide (lv_PowerState vm = VirtualMachinePowerStateOn) ||
      bool_decide (lv_PowerState vm = VirtualMachinePowerStateOff)) && negb (bool_decide (val = ""))
  then match pa_ParseTime val with
  | inl err => (vm, Some err)
  | inr when =>
    if pa_Now w <? when then (vm, Some (RequeueError (when - pa_Now w) ""))
    else (set_lv_Annotations (delete ApplyPowerStateTimeAnnotation (lv_Annotations vm)) vm, None)
  end
  else (vm, None).

(** The body, without the deferred condition. *)
Definition power_state_body cfg vm mo (tasks : list RecentTask) w : W * LifeVM * option goerror :=
  match verifyConnectionState mo with
  | Some err => (w, vm, Some err)
  | None =>
    match verifyResourcePool mo with
    | Some err => (w, vm, Some err)
    | None =>
      match group_delay cfg vm w with
      | (vm, Some err) => (w, vm, Some err)
      | (vm, None) =>
        let '(vm, paused) := isVMPaused vm mo in
        if paused then (w, vm, Some ErrIsPaused)
        else if HasVMRunningTask tasks false then (w, vm, Some ErrHasTask)
        else
          let current := ConvertPowerState (mv_SummaryPower mo) in
          if bool_decide (lv_PowerState vm = VirtualMachinePowerStateOn) &&
             bool_decide (current = VirtualMachinePowerStateOn) then restart_vm vm w
          else match power_op_due vm current with
          | Some mode => change_power vm current mode w
          | None => (w, vm, None)
          end
      end
    end
  end.

Definition reconcilePowerState cfg vm mo tasks w : W * LifeVM * option goerror :=
  let '(w, vm, err) := power_state_body cfg vm mo tasks w in
  (w, SetPowerStateSyncedCondition cfg vm err (pa_Now w), err).

(** ** Update *)

Definition getReconcileErr (msg : string) (reconcileErr : option goerror) (err : goerror) : goerror :=
  let err := Wrapped ("failed to reconcile " +:+ msg) err in
  match reconcileErr with None => err | Some e => WrappedBoth err e end.

Definition errOrReconcileErr (reconcileErr : option goerror) (err : goerror) : goerror := default err reconcileErr.

(** A step of the update: an error that asks for no requeue ends it, another one
    is kept. *)
Definition update_step (msg : string) (r : W * LifeVM * option goerror) (reconcileErr : option goerror)
    (k : LifeVM → option goerror → W → W * LifeVM * option goerror) : W * LifeVM * option goerror :=
  match r with
  | (w, vm, None) => k vm reconcileErr w
  | (w, vm, Some err) =>
    if IsNoRequeueError err then (w, vm, Some (errOrReconcileErr reconcileErr err))
    else k vm (Some (getReconcileErr msg reconcileErr err)) w
  end.

Definition power_and_snapshot cfg mo tasks vm (reconcileErr : option goerror) w : W * LifeVM * option goerror :=
  update_step "power state" (reconcilePowerState cfg vm mo tasks w) reconcileErr (λ vm reconcileErr w,
  if lc_VMSnapshots cfg
  then update_step "snapshot create" (pa_CurrentSnapshot vm w) reconcileErr (λ vm reconcileErr w, (w, vm, reconcileErr))
  else (w, vm, reconcileErr)).

(** The error of the configuration: snapshots that wait for volumes are told, and
    only a VM that is to be powered off goes on. *)
Definition config_step cfg mo tasks vm (reconcileErr : option goerror) w : W * LifeVM * option goerror :=
  match reconcileConfig vm mo tasks w with
  | (w, vm, None) => power_and_snapshot cfg mo tasks vm reconcileErr w
  | (w, vm, Some err) =>
    if IsNoRequeueError err then
      let '(w, reconcileErr) :=
        if lc_VMSnapshots cfg && lc_AllDisksArePVCs cfg && negb (IsTrue (lv_Conditions vm) UnmanagedVolumesRegistered)
        then match pa_WaitForCRV vm w with
             | (w, Some e) => (w, Some (getReconcileErr "snapshot wait-for-crv condition" reconcileErr e))
             | (w, None) => (w, reconcileErr)
             end
        else (w, reconcileErr) in
      (w, vm, Some (errOrReconcileErr reconcileErr err))
    else
      let e := getReconcileErr "config" reconcileErr err in
      if negb (IsOnToOff vm mo) then (w, vm, Some e) else power_and_snapshot cfg mo tasks vm (Some e) w
  end.

(** The volumes that are read of the VM, which cannot fail, are left to the steps. *)
Definition updateVirtualMachine cfg vm w : W * LifeVM * option goerror :=
  match pa_Properties vm w with
  | inl err => (w, vm, Some (Wrapped "failed to fetch vm properties" err))
  | inr mo =>
    match getRecentTaskInfo mo w with
    | inl err => (w, vm, Some (Wrapped "failed to fetch recent tasks" err))
    | inr tasks =>
      match pa_ListAttachedTags w with
      | Some err => (w, vm, Some (Wrapped "failed to fetch vm tags" err))
      | None =>
        update_step "status" (pa_ReconcileStatus vm mo w) None (λ vm reconcileErr w,
        let '(vm', err) := reconcileLocation cfg vm mo w in
        update_step "location" (w, vm', err) reconcileErr (λ vm reconcileErr w,
        update_step "schema upgrade" (pa_SchemaUpgrade vm mo w) reconcileErr (λ vm reconcileErr w,
        update_step "backup state" (reconcileBackupState vm w) reconcileErr (λ vm reconcileErr w,
        if lc_VMSnapshots cfg
        then update_step "snapshot revert" (pa_SnapshotRevert vm w) reconcileErr (config_step cfg mo tasks)
        else config_step cfg mo tasks vm reconcileErr w))))
      end
    end
  end.

(** ** Creation *)

Definition vmCreateIsReady vm (args : CreateArgs) : option goerror :=
  let module := lv_annotation vm ClusterModuleNameAnnotationKey in
  if bool_decide (is_Some (ca_ResourcePolicy args)) && negb (bool_decide (module = "")) &&
     bool_decide (pa_FindClusterModuleUUID module args = "")
  then Some (ErrorString "VirtualMachineSetResourcePolicy cluster module is not ready")
  else if ca_HasInstanceStorage args &&
          negb (bool_decide (is_Some (lv_Annotations vm !! InstanceStoragePVCsBoundAnnotationKey)))
  then Some (ErrorString "instance storage PVCs are not bound yet")
  else None.

Definition args_step (r : W * LifeVM * (goerror + CreateArgs))
    (k : LifeVM → CreateArgs → W → W * LifeVM * (goerror + CreateArgs)) : W * LifeVM * (goerror + CreateArgs) :=
  match r with (w, vm, inl err) => (w, vm, inl err) | (w, vm, inr args) => k vm args w end.

Definition getCreateArgs cfg vm w : W * LifeVM * (goerror + CreateArgs) :=
  args_step (pa_GetArgs cfg vm w) (λ vm args w,
  args_step (pa_DoPlacement cfg args vm w) (λ vm args w,
  args_step (pa_GetFolderAndRPMoIDs args vm w) (λ vm args w,
  args_step
    (if lc_FastDeploy cfg then args_step (pa_GetSourceFilePaths args vm w) (λ vm args w, pa_PathNameFromDatastore args vm w)
     else pa_PathName args vm w) (λ vm args w,
  match vmCreateIsReady vm args with Some err => (w, vm, inl err) | None => (w, vm, inr args) end)))).

(** What a create leaves in the VM. *)
Definition mark_created cfg (args : CreateArgs) (moRef : string) (now : Z) vm : LifeVM :=
  let vm := set_lv_UniqueID moRef vm in
  let vm := set_lv_Conditions (MarkTrue now (lv_Conditions vm) VirtualMachineConditionCreated) vm in
  if lc_FastDeploy cfg && negb (bool_decide (ca_ZoneName args = ""))
  then set_lv_Labels (<[LabelTopologyZone := ca_ZoneName args]> (lv_Labels vm)) vm else vm.

Definition mark_failed (t : string) (err : goerror) (now : Z) vm : LifeVM :=
  set_lv_Conditions (MarkError now (lv_Conditions vm) t "Error" (Error err)) vm.

Definition createVirtualMachine cfg (args : CreateArgs) vm w : W * LifeVM * option goerror :=
  match pa_CreateVirtualMachine cfg args vm w with
  | (w, vm, inl err) =>
    let vm := mark_failed VirtualMachineConditionCreated err (pa_Now w) vm in
    (w, if lc_FastDeploy cfg then mark_failed VirtualMachineConditionPlacementReady err (pa_Now w) vm else vm, Some err)
  | (w, vm, inr moRef) => (w, mark_created cfg args moRef (pa_Now w) vm, Some ErrCreate)
  end.

(** A create in the background on its copy of the VM, with what it sends on the
    channel before it closes it. *)
Definition createVirtualMachineAsync (a : AsyncCreate) w : W * list goerror :=
  let '(w, vm, res) := pa_CreateVirtualMachine (as_Config a) (as_Args a) (as_VM a) w in
  let sent := match res with inl err => err | inr _ => ErrCreate end in
  let vm' :=
    match res with
    | inl err => mark_failed VirtualMachineConditionCreated err (pa_Now w) vm
    | inr moRef => mark_created (as_Config a) (as_Args a) moRef (pa_Now w) vm
    end in
  let '(w, err) := pa_PatchStatus vm vm' w in
  (w, sent :: match err with Some e => [e] | None => [] end).

(** ** The shared variables *)

Definition vmCreateConcurrentAllowed cfg ps : option ProviderState :=
  if lc_MaxDeployThreads cfg <=? ps_CreateCount ps then None
  else Some (mkProviderState (ps_Reconciling ps) (ps_CreateCount ps + 1) (ps_Async ps)).

Definition decrementConcurrentCreates ps : ProviderState :=
  mkProviderState (ps_Reconciling ps) (ps_CreateCount ps - 1) (ps_Async ps).

Definition cleanup_async (key : string) ps : ProviderState :=
  decrementConcurrentCreates (mkProviderState (ps_Reconciling ps ∖ {[key]}) (ps_CreateCount ps) (ps_Async ps)).

Definition create_blocking cfg vm ps w : ProviderState * W * ProviderReply :=
  match getCreateArgs cfg vm w with
  | (w, vm, inl err) => (decrementConcurrentCreates ps, w, mkReply vm OpCreate false (Some err))
  | (w, vm, inr args) =>
    let '(w, vm, err) := createVirtualMachine cfg args vm w in
    (decrementConcurrentCreates ps, w, mkReply vm OpCreate false err)
  end.

Definition create_async cfg vm ps w : ProviderState * W * ProviderReply :=
  let key := lv_key vm in
  if bool_decide (key ∈ ps_Reconciling ps)
  then (decrementConcurrentCreates ps, w, mkReply vm OpCreate false (Some ErrReconcileInProgress))
  else
    let ps := mkProviderState ({[key]} ∪ ps_Reconciling ps) (ps_CreateCount ps) (ps_Async ps) in
    match getCreateArgs cfg vm w with
    | (w, vm, inl err) => (cleanup_async key ps, w, mkReply vm OpCreate false (Some err))
    | (w, vm, inr args) =>
      (mkProviderState (ps_Reconciling ps) (ps_CreateCount ps) (ps_Async ps ++ [mkAsyncCreate key cfg vm args]), w,
       mkReply vm OpCreate true None)
    end.

Definition createOrUpdateVirtualMachine (async : bool) cfg vm ps w : ProviderState * W * ProviderReply :=
  let fail := λ vm err, (ps, w, mkReply vm OpNone false (Some err)) in
  match pa_SyncGVK vm with
  | Some err => fail vm (Wrapped "failed to sync vm gvk" err)
  | None =>
    if bool_decide (lv_key vm ∈ ps_Reconciling ps) then fail vm ErrReconcileInProgress
    else match pa_getVcClient w with
    | inl err => fail vm err
    | inr uuid =>
      let vm := set_lv_Annotations (<[ManagerID := uuid]> (lv_Annotations vm)) vm in
      match pa_getVM vm w with
      | inl err => fail vm err
      | inr true =>
        let '(w, vm, err) := updateVirtualMachine cfg vm w in (ps, w, mkReply vm OpUpdate false err)
      | inr false =>
        match vmCreateConcurrentAllowed cfg ps with
        | None => (ps, w, mkReply vm OpCreate false (Some ErrTooManyCreates))
        | Some ps => if async then create_async cfg vm ps w else create_blocking cfg vm ps w
        end
      end
    end
  end.

(** ** Deletion *)

Fixpoint cancel_promotions (tasks : list RecentTask) w : W * option goerror :=
  match tasks with
  | [] => (w, None)
  | t :: tasks =>
    if running t && bool_decide (rt_DescriptionId t = PromoteDisksTaskKey) then
      match pa_CancelTask (rt_Task t) w with
      | (w, Some err) => (w, Some (Wrapped "failed to cancel disk promotion task" err))
      | (w, None) => cancel_promotions tasks w
      end
    else cancel_promotions tasks w
  end.

(** [virtualmachine.DeleteVirtualMachine]: power off, then destroy. *)
Definition destroy_vm vm w : W * option goerror :=
  match setPowerState (H := pa_VSphere (lv_key vm)) (mkMO "" None) false PoweredOff (ParsePowerOpMode (lv_PowerOffMode vm)) w with
  | (w, inl e) => (w, Some (power_goerror e))
  | (w, inr _) =>
    match pa_Destroy vm w with
    | (w, inl err) => (w, Some err)
    | (w, inr (Some err)) => (w, Some (Wrapped "destroy VM task failed" err))
    | (w, inr None) => (w, None)
    end
  end.

Definition delete_found cfg vm mo w : W * LifeVM * option goerror :=
  if negb (connected mo) then (w, vm, Some (Wrapped "failed to delete vm" (connection_error mo)))
  else if mv_HasConfig mo && mv_PausedByAdmin mo then
    (w, set_lv_Labels (<[PausedVMLabelKey := "admin"]> (lv_Labels vm)) vm,
     Some (Wrapped "failed to delete vm" (NoRequeueError VMPausedByAdminError false)))
  else
    let '(w, err) :=
      if lc_FastDeploy cfg then
        match getRecentTaskInfo mo w with
        | inl err => (w, Some (Wrapped "failed to fetch recent tasks" err))
        | inr tasks => cancel_promotions tasks w
        end
      else (w, None) in
    match err with
    | Some err => (w, vm, Some err)
    | None => let '(w, err) := destroy_vm vm w in (w, vm, err)
    end.

Definition DeleteVirtualMachine cfg vm ps w : W * LifeVM * option goerror :=
  if bool_decide (lv_key vm ∈ ps_Reconciling ps) then (w, vm, Some ErrReconcileInProgress)
  else match pa_getVcClient w with
  | inl err => (w, vm, Some err)
  | inr _ =>
    match pa_getVM vm w with
    | inl err => (w, vm, Some err)
    | inr false => (w, vm, None)
    | inr true =>
      match pa_Properties vm w with
      | inl err => (w, vm, Some (Wrapped "failed to fetch props when deleting VM" err))
      | inr mo => delete_found cfg vm mo w
      end
    end
  end.

Definition CleanupVirtualMachine vm ps w : W * LifeVM * option goerror :=
  if bool_decide (lv_key vm ∈ ps_Reconciling ps) then (w, vm, Some ErrReconcileInProgress)
  else match pa_getVcClient w with
  | inl err => (w, vm, Some err)
  | inr _ =>
    match pa_getVM vm w with
    | inl err => (w, vm, Some err)
    | inr false => (w, vm, None)
    | inr true =>
      let '(w, err) := pa_CleanupVMServiceState vm w in
      (w, vm, match err with Some e => Some (Wrapped "failed to cleanup VM service state" e) | None => None end)
    end
  end.

(** The provider as the controller knows it. *)
#[global] Instance provider_interface : VMProvider (ProviderState * W) := {
  pv_CreateOrUpdateVirtualMachine cfg vm s :=
    let '(ps, w, r) := createOrUpdateVirtualMachine false cfg vm s.1 s.2 in ((ps, w), r);
  pv_CreateOrUpdateVirtualMachineAsync cfg vm s :=
    let '(ps, w, r) := createOrUpdateVirtualMachine true cfg vm s.1 s.2 in ((ps, w), r);
  pv_DeleteVirtualMachine cfg vm s :=
    let '(w, vm, err) := DeleteVirtualMachine cfg vm s.1 s.2 in ((s.1, w), vm, err);
  pv_CleanupVirtualMachine cfg vm s :=
    let '(w, vm, err) := CleanupVirtualMachine vm s.1 s.2 in ((s.1, w), vm, err)
}.
End Provider.
