(* ===== verification/ProviderConcurrency.v ===== *)
(** * The provider: creates at the same time

    createOrUpdateVirtualMachine, DeleteVirtualMachine and
    createVirtualMachineAsync of pkg/providers/vsphere/vmprovider_vm.go as steps
    that interleave: every access to the variables the package shares, to vCenter
    and every start and end is one.  The work queue runs one reconciliation per VM
    at a time; goroutines run beside it. *)

From S2P Require Import Prelude Conditions Hardware GoErrors VMGroup Volumes VMValidator PowerState AdmissionVM.
From S2P Require Import VMLifecycle ProviderVM.
Local Open Scope Z_scope.

(** ** States and steps *)

(** How far the reconciliation of a VM is.  [Checked]: it was not being created in
    the background; [Missing]: it is not in vCenter; [Counted]: the create is
    counted; [Built]: a blocking create is done; [Stored]: its name is recorded;
    [Unstored]: it failed and the name is removed; the last two: deletion. *)
Inductive Phase :=
  | Checked (async : bool)
  | Missing (async : bool)
  | Counted (async : bool)
  | Built
  | Stored
  | Unstored
  | DeleteChecked
  | DeleteFound.

(** Goroutines: [cs_Creating] have not created their VM, [cs_Ending] have or
    failed, [cs_Leaving] have removed the name of their VM. *)
Record CreateState := mkCreateState {
  cs_Count : Z;
  cs_Reconciling : gset string;
  cs_Inventory : list string;
  cs_Runs : gmap string Phase;
  cs_Creating : list string;
  cs_Ending : list string;
  cs_Leaving : list string
}.

Definition idle_state : CreateState := mkCreateState 0 ∅ [] ∅ [] [] [].

Inductive CreateLabel :=
  | Begin (k : string) (async : bool)
  | GiveUp (k : string)
  | FindMissing (k : string)
  | Count (k : string)
  | Build (k : string) (ok : bool)
  | Uncount (k : string)
  | Store (k : string)
  | Spawn (k : string)
  | Unstore (k : string)
  | AsyncBuild (k : string) (ok : bool)
  | AsyncUnstore (k : string)
  | AsyncUncount (k : string)
  | BeginDelete (k : string)
  | FindForDelete (k : string)
  | Destroy (k : string).

Definition set_run (k : string) (p : Phase) (s : CreateState) : CreateState :=
  mkCreateState (cs_Count s) (cs_Reconciling s) (cs_Inventory s) (<[k := p]> (cs_Runs s)) (cs_Creating s) (cs_Ending s)
    (cs_Leaving s).
Definition end_run (k : string) (s : CreateState) : CreateState :=
  mkCreateState (cs_Count s) (cs_Reconciling s) (cs_Inventory s) (delete k (cs_Runs s)) (cs_Creating s) (cs_Ending s)
    (cs_Leaving s).
Definition set_count (n : Z) (s : CreateState) : CreateState :=
  mkCreateState n (cs_Reconciling s) (cs_Inventory s) (cs_Runs s) (cs_Creating s) (cs_Ending s) (cs_Leaving s).
Definition set_reconciling (x : gset string) (s : CreateState) : CreateState :=
  mkCreateState (cs_Count s) x (cs_Inventory s) (cs_Runs s) (cs_Creating s) (cs_Ending s) (cs_Leaving s).
Definition set_inventory (l : list string) (s : CreateState) : CreateState :=
  mkCreateState (cs_Count s) (cs_Reconciling s) l (cs_Runs s) (cs_Creating s) (cs_Ending s) (cs_Leaving s).
Definition set_threads (c e l : list string) (s : CreateState) : CreateState :=
  mkCreateState (cs_Count s) (cs_Reconciling s) (cs_Inventory s) (cs_Runs s) c e l.

(** One goroutine of a VM leaves a list. *)
Fixpoint remove_one (k : string) (l : list string) : list string :=
  match l with
  | [] => []
  | x :: l => if bool_decide (x = k) then l else x :: remove_one k l
  end.

(** [max] is the number of creates that are allowed; [None]: the step is not
    possible. *)
Definition create_step (max : Z) (l : CreateLabel) (s : CreateState) : option CreateState :=
  match l with
  | Begin k async =>
    if bool_decide (cs_Runs s !! k = None) && bool_decide (k ∉ cs_Reconciling s)
    then Some (set_run k (Checked async) s) else None
  (* the VM is there and updated, or something failed that leaves nothing behind *)
  | GiveUp k =>
    match cs_Runs s !! k with
    | Some (Checked _) | Some (Missing _) | Some DeleteChecked | Some DeleteFound => Some (end_run k s)
    | _ => None
    end
  | FindMissing k =>
    match cs_Runs s !! k with
    | Some (Checked async) => if bool_decide (k ∉ cs_Inventory s) then Some (set_run k (Missing async) s) else None
    | _ => None
    end
  | Count k =>
    match cs_Runs s !! k with
    | Some (Missing async) =>
      if cs_Count s <? max then Some (set_run k (Counted async) (set_count (cs_Count s + 1) s)) else None
    | _ => None
    end
  | Build k ok =>
    match cs_Runs s !! k with
    | Some (Counted false) =>
      Some (set_run k Built (if ok : bool then set_inventory (k :: cs_Inventory s) s else s))
    | _ => None
    end
  | Uncount k =>
    match cs_Runs s !! k with
    | Some Built | Some Unstored => Some (end_run k (set_count (cs_Count s - 1) s))
    | Some (Counted true) =>
      if bool_decide (k ∈ cs_Reconciling s) then Some (end_run k (set_count (cs_Count s - 1) s)) else None
    | _ => None
    end
  | Store k =>
    match cs_Runs s !! k with
    | Some (Counted true) =>
      if bool_decide (k ∉ cs_Reconciling s) then Some (set_run k Stored (set_reconciling ({[k]} ∪ cs_Reconciling s) s))
      else None
    | _ => None
    end
  | Spawn k =>
    match cs_Runs s !! k with
    | Some Stored => Some (end_run k (set_threads (k :: cs_Creating s) (cs_Ending s) (cs_Leaving s) s))
    | _ => None
    end
  | Unstore k =>
    match cs_Runs s !! k with
    | Some Stored => Some (set_run k Unstored (set_reconciling (cs_Reconciling s ∖ {[k]}) s))
    | _ => None
    end
  | AsyncBuild k ok =>
    if bool_decide (k ∈ cs_Creating s)
    then Some (set_threads (remove_one k (cs_Creating s)) (k :: cs_Ending s) (cs_Leaving s)
                 (if ok : bool then set_inventory (k :: cs_Inventory s) s else s))
    else None
  | AsyncUnstore k =>
    if bool_decide (k ∈ cs_Ending s)
    then Some (set_threads (cs_Creating s) (remove_one k (cs_Ending s)) (k :: cs_Leaving s)
                 (set_reconciling (cs_Reconciling s ∖ {[k]}) s))
    else None
  | AsyncUncount k =>
    if bool_decide (k ∈ cs_Leaving s)
    then Some (set_threads (cs_Creating s) (cs_Ending s) (remove_one k (cs_Leaving s)) (set_count (cs_Count s - 1) s))
    else None
  | BeginDelete k =>
    if bool_decide (cs_Runs s !! k = None) && bool_decide (k ∉ cs_Reconciling s)
    then Some (set_run k DeleteChecked s) else None
  | FindForDelete k =>
    match cs_Runs s !! k with
    | Some DeleteChecked => if bool_decide (k ∈ cs_Inventory s) then Some (set_run k DeleteFound s) else None
    | _ => None
    end
  | Destroy k =>
    match cs_Runs s !! k with
    | Some DeleteFound => Some (end_run k (set_inventory (remove_one k (cs_Inventory s)) s))
    | _ => None
    end
  end.

Definition create_steps (max : Z) (s s' : CreateState) : Prop := ∃ l, create_step max l s = Some s'.

(** ** The invariant *)

(** Whether a phase is counted, and whether the VM is known to be missing. *)
Definition is_counted (p : Phase) : bool :=
  match p with Counted _ | Built | Stored | Unstored => true | _ => false end.
Definition missing (p : Phase) : bool :=
  match p with Missing _ | Counted _ | Stored => true | _ => false end.

Definition held_creates (runs : gmap string Phase) : Z :=
  map_fold (λ _ p n, (if is_counted p then 1 else 0) + n) 0 runs.

Record create_inv (max : Z) (s : CreateState) : Prop := {
  inv_count : cs_Count s = held_creates (cs_Runs s) + Z.of_nat (length (cs_Creating s)) + Z.of_nat (length (cs_Ending s)) +
                           Z.of_nat (length (cs_Leaving s));
  inv_bound : cs_Count s ≤ Z.max 0 max;
  inv_names k : k ∈ cs_Reconciling s ↔ cs_Runs s !! k = Some Stored ∨ k ∈ cs_Creating s ++ cs_Ending s;
  inv_threads : NoDup (cs_Creating s ++ cs_Ending s);
  inv_alone k : k ∈ cs_Creating s ++ cs_Ending s → cs_Runs s !! k = None;
  inv_missing k p : cs_Runs s !! k = Some p → missing p = true → k ∉ cs_Inventory s;
  inv_creating k : k ∈ cs_Creating s → k ∉ cs_Inventory s;
  inv_once : NoDup (cs_Inventory s)
}.

Definition phase_weight (p : option Phase) : Z := match p with Some p => if is_counted p then 1 else 0 | None => 0 end.

Lemma held_delete runs k : held_creates runs = phase_weight (runs !! k) + held_creates (delete k runs).
Proof.
  destruct (runs !! k) as [p|] eqn:E; [|by rewrite delete_id].
  unfold held_creates, phase_weight. rewrite (map_fold_delete_L _ _ k p runs); [done|lia|done].
Qed.
Lemma held_insert runs k p : held_creates (<[k := p]> runs) = phase_weight (Some p) + held_creates (delete k runs).
Proof.
  rewrite (held_delete (<[k := p]> runs) k), lookup_insert_eq. by rewrite delete_insert_eq.
Qed.
Lemma held_nonneg runs : 0 ≤ held_creates runs.
Proof.
  unfold held_creates. induction runs as [|k p runs Hk IH] using map_ind; [done|].
  rewrite map_fold_insert_L; [destruct (is_counted p); lia|lia|done].
Qed.

Lemma remove_one_perm k l : k ∈ l → l ≡ₚ k :: remove_one k l.
Proof.
  induction l as [|x l IH]; [by intros ?%elem_of_nil|]. cbn. case_bool_decide as E; [by subst|].
  intros [->|Hk]%elem_of_cons; [done|]. rewrite (IH Hk) at 1. apply perm_swap.
Qed.
Lemma remove_one_subset k x l : x ∈ remove_one k l → x ∈ l.
Proof. induction l as [|y l IH]; [done|]. cbn. case_bool_decide; set_solver. Qed.
Lemma remove_one_other k x l : x ≠ k → x ∈ l → x ∈ remove_one k l.
Proof. intros Hx. induction l as [|y l IH]; [done|]. cbn. case_bool_decide; set_solver. Qed.
Lemma remove_one_NoDup k l : NoDup l → NoDup (remove_one k l) ∧ k ∉ remove_one k l.
Proof.
  intros Hnd. destruct (decide (k ∈ l)) as [Hk|Hk].
  - rewrite (remove_one_perm k l Hk), NoDup_cons in Hnd. tauto.
  - induction l as [|x l IH]; [split; [constructor|set_solver]|]. apply NoDup_cons in Hnd as [Hx Hl]. cbn.
    rewrite bool_decide_false by set_solver. destruct IH as [IH1 IH2]; [done|set_solver|].
    split; [constructor; [intros ?%remove_one_subset|]; done|set_solver].
Qed.

Lemma remove_one_length k l : k ∈ l → length l = S (length (remove_one k l)).
Proof. intros Hk. by rewrite (remove_one_perm k l Hk) at 1. Qed.

(** Every step either changes the phase of one VM and at most the count, the
    names and the inventory at that VM, or moves one goroutine. *)
Ltac step_cases :=
  repeat (match goal with
    | H : match ?x with _ => _ end = Some _ |- _ => destruct x eqn:?; try discriminate H
    | H : (if ?x then _ else _) = Some _ |- _ => destruct x eqn:?; try discriminate H
    end);
  repeat (match goal with
    | H : Some _ = Some _ |- _ => injection H as <-
    | H : _ && _ = true |- _ => apply andb_true_iff in H as [??]
    | H : bool_decide _ = true |- _ => apply bool_decide_eq_true in H
    | H : bool_decide _ = false |- _ => apply bool_decide_eq_false in H
    | H : (_ <? _) = true |- _ => apply Z.ltb_lt in H
    end).

Lemma held_alter runs k o : held_creates (partial_alter (λ _, o) k runs) = phase_weight o - phase_weight (runs !! k) + held_creates runs.
Proof.
  rewrite (held_delete runs k). destruct o as [p|].
  - change (partial_alter (λ _, Some p) k runs) with (<[k := p]> runs). rewrite held_insert. lia.
  - change (partial_alter (λ _, None) k runs) with (delete k runs). cbn. lia.
Qed.

(** A step of the reconciliation of [k]. *)
Lemma inv_phase max s k o c R I :
  create_inv max s → k ∉ cs_Creating s ++ cs_Ending s →
  c = cs_Count s + phase_weight o - phase_weight (cs_Runs s !! k) → c ≤ Z.max 0 max →
  (∀ x, x ∈ R ↔ (x ≠ k ∧ x ∈ cs_Reconciling s) ∨ (x = k ∧ o = Some Stored)) →
  (∀ x, x ≠ k → x ∈ I ↔ x ∈ cs_Inventory s) → NoDup I → (∀ p, o = Some p → missing p = true → k ∉ I) →
  ∀ s', s' = mkCreateState c R I (partial_alter (λ _, o) k (cs_Runs s)) (cs_Creating s) (cs_Ending s) (cs_Leaving s) →
  create_inv max s'.
Proof.
  intros [Hcount Hbound Hnames Hthreads Halone Hmissing Hcreating Honce] Hk Hc Hmax HR HI Hnd Hnew s' ->.
  assert (∀ x, partial_alter (λ _, o) k (cs_Runs s) !! x = if decide (x = k) then o else cs_Runs s !! x) as Hl.
  { intros x. case_decide as E; [subst; by rewrite lookup_partial_alter_eq|by rewrite lookup_partial_alter_ne]. }
  split; cbn [cs_Count cs_Reconciling cs_Inventory cs_Runs cs_Creating cs_Ending cs_Leaving].
  - rewrite held_alter. lia.
  - done.
  - intros x. rewrite HR, Hl, Hnames. case_decide as E; [subst|]; naive_solver.
  - done.
  - intros x Hx. rewrite Hl. case_decide; [by subst|by apply Halone].
  - intros x p. rewrite Hl. case_decide as E; [subst; apply Hnew|]. rewrite HI by done. apply Hmissing.
  - intros x Hx. assert (x ≠ k) by set_solver. rewrite HI by done. by apply Hcreating.
  - done.
Qed.

(** A goroutine goes on. *)
Lemma inv_thread max s R I C E L n :
  create_inv max s → C ++ E ⊆ cs_Creating s ++ cs_Ending s → NoDup (C ++ E) → C ⊆ cs_Creating s →
  Z.of_nat (length C + length E + length L) = n + Z.of_nat (length (cs_Creating s) + length (cs_Ending s) + length (cs_Leaving s)) →
  n ≤ 0 →
  (∀ x, x ∈ R ↔ cs_Runs s !! x = Some Stored ∨ x ∈ C ++ E) →
  (∀ x, x ∈ I → x ∈ cs_Inventory s ∨ (x ∈ cs_Creating s ∧ x ∉ C)) → NoDup I →
  create_inv max (mkCreateState (cs_Count s + n) R I (cs_Runs s) C E L).
Proof.
  intros [Hcount Hbound Hnames Hthreads Halone Hmissing Hcreating Honce] Hsub Hnd HC Hlen Hn HR HI Hnd'.
  split; cbn [cs_Count cs_Reconciling cs_Inventory cs_Runs cs_Creating cs_Ending cs_Leaving]; try done; try lia.
  - intros x Hx. apply Halone. by apply Hsub.
  - intros x p Hx Hp [Hi|[Hi _]]%HI; [by eapply Hmissing|].
    assert (cs_Runs s !! x = None) as Hno by (apply Halone; set_solver). congruence.
  - intros x Hx [Hi|[_ Hi]]%HI; [|done]. by apply (Hcreating x); [apply HC|].
Qed.

(** ... that neither records nor removes its name. *)
Lemma inv_quiet max s k o c I :
  create_inv max s → k ∉ cs_Creating s ++ cs_Ending s → cs_Runs s !! k ≠ Some Stored → o ≠ Some Stored →
  c = cs_Count s + phase_weight o - phase_weight (cs_Runs s !! k) → c ≤ Z.max 0 max →
  (∀ x, x ≠ k → x ∈ I ↔ x ∈ cs_Inventory s) → NoDup I → (∀ p, o = Some p → missing p = true → k ∉ I) →
  ∀ s', s' = mkCreateState c (cs_Reconciling s) I (partial_alter (λ _, o) k (cs_Runs s)) (cs_Creating s)
               (cs_Ending s) (cs_Leaving s) → create_inv max s'.
Proof.
  intros HI Hk Hold Hnew ????? s' ->. eapply (inv_phase max s k o); try done. intros x.
  assert (k ∉ cs_Reconciling s) by (rewrite (inv_names _ _ HI); tauto).
  destruct (decide (x = k)); naive_solver.
Qed.

(** A goroutine starts. *)
Lemma inv_spawn max s k :
  create_inv max s → cs_Runs s !! k = Some Stored →
  create_inv max (end_run k (set_threads (k :: cs_Creating s) (cs_Ending s) (cs_Leaving s) s)).
Proof.
  intros [Hcount Hbound Hnames Hthreads Halone Hmissing Hcreating Honce] Hk.
  assert (k ∉ cs_Creating s ++ cs_Ending s) as Hnew by (intros Hx%Halone; congruence).
  split; cbn [end_run set_threads cs_Count cs_Reconciling cs_Inventory cs_Runs cs_Creating cs_Ending cs_Leaving app length].
  - rewrite Hcount, (held_delete (cs_Runs s) k), Hk. cbn [phase_weight is_counted]. lia.
  - done.
  - intros x. rewrite Hnames, elem_of_cons, lookup_delete_Some.
    destruct (decide (x = k)) as [->|]; naive_solver.
  - by constructor.
  - intros x [->|Hx]%elem_of_cons; [by rewrite lookup_delete_eq|]. rewrite lookup_delete_None. right. by apply Halone.
  - intros x p [_ Hx]%lookup_delete_Some. by apply Hmissing.
  - intros x [->|Hx]%elem_of_cons; [by apply (Hmissing k Stored)|by apply Hcreating].
  - done.
Qed.

(** The steps of a goroutine. *)
Lemma inv_async_build max s k (ok : bool) :
  create_inv max s → k ∈ cs_Creating s →
  create_inv max (set_threads (remove_one k (cs_Creating s)) (k :: cs_Ending s) (cs_Leaving s)
    (if ok then set_inventory (k :: cs_Inventory s) s else s)).
Proof.
  intros HI Hk. pose proof HI as [Hcount Hbound Hnames Hthreads Halone Hmissing Hcreating Honce].
  assert (remove_one k (cs_Creating s) ++ k :: cs_Ending s ≡ₚ cs_Creating s ++ cs_Ending s) as Hp.
  { rewrite (remove_one_perm k (cs_Creating s) Hk) at 2. cbn. by rewrite Permutation_middle. }
  pose proof (proj1 (proj1 (NoDup_app _ _) Hthreads)) as Hnd.
  pose proof (remove_one_NoDup k _ Hnd) as [_ Hgone].
  pose proof (remove_one_length k _ Hk) as Hlen.
  assert (∀ I, NoDup I → (∀ x, x ∈ I → x ∈ cs_Inventory s ∨ x = k) → create_inv max
    (mkCreateState (cs_Count s) (cs_Reconciling s) I (cs_Runs s) (remove_one k (cs_Creating s)) (k :: cs_Ending s)
       (cs_Leaving s))) as Hall.
  { intros I HndI HI'. rewrite <- (Z.add_0_r (cs_Count s)). apply inv_thread; try done.
    - intros x. by rewrite Hp.
    - by rewrite Hp.
    - intros x. apply remove_one_subset.
    - cbn [length]. lia.
    - intros x. by rewrite Hp, Hnames.
    - intros x [?| ->]%HI'; auto. }
  destruct ok.
  - apply Hall; [constructor; [by apply Hcreating|done]|set_solver].
  - apply Hall; [done|by left].
Qed.

Lemma inv_async_unstore max s k :
  create_inv max s → k ∈ cs_Ending s →
  create_inv max (set_threads (cs_Creating s) (remove_one k (cs_Ending s)) (k :: cs_Leaving s)
    (set_reconciling (cs_Reconciling s ∖ {[k]}) s)).
Proof.
  intros HI Hk. pose proof HI as [Hcount Hbound Hnames Hthreads Halone Hmissing Hcreating Honce].
  assert (k :: cs_Creating s ++ remove_one k (cs_Ending s) ≡ₚ cs_Creating s ++ cs_Ending s) as Hp.
  { rewrite (remove_one_perm k (cs_Ending s) Hk) at 2. by rewrite Permutation_middle. }
  pose proof Hthreads as Hnd. rewrite <- Hp, NoDup_cons in Hnd. destruct Hnd as [Hgone Hnd].
  assert (cs_Runs s !! k = None) as Hno by (apply Halone; set_solver).
  pose proof (remove_one_length k _ Hk) as Hlen.
  unfold set_threads, set_reconciling. cbn. rewrite <- (Z.add_0_r (cs_Count s)).
  apply inv_thread; try done.
  - rewrite <- Hp. set_solver.
  - cbn [length]. lia.
  - intros x. rewrite elem_of_difference, elem_of_singleton, Hnames, <- Hp, elem_of_cons.
    destruct (decide (x = k)) as [->|]; [|tauto]. rewrite Hno. split; [tauto|]. intros [?|?]; [congruence|done].
  - intros x Hx. by left.
Qed.

Lemma inv_async_uncount max s k :
  create_inv max s → k ∈ cs_Leaving s →
  create_inv max (set_threads (cs_Creating s) (cs_Ending s) (remove_one k (cs_Leaving s)) (set_count (cs_Count s - 1) s)).
Proof.
  intros HI Hk. pose proof (remove_one_length k _ Hk) as Hlen.
  apply (inv_thread max s _ _ _ _ _ (-1)); try done; try apply HI.
  - lia.
  - intros x Hx. by left.
Qed.

(** Steps that change the phase of a VM whose name is not recorded. *)
Ltac quiet_step k o :=
  match goal with HI : create_inv ?max ?s, Hk : cs_Runs ?s !! k = _ |- _ =>
    eapply (inv_quiet max s k o _ _ HI); [..|reflexivity]; rewrite ?Hk;
    cbn [phase_weight is_counted cs_Count cs_Inventory set_count set_inventory];
    try done; try lia; try (intros ? [= <-]; try done); eauto
  end.

Lemma create_inv_step max l s s' : create_inv max s → create_step max l s = Some s' → create_inv max s'.
Proof.
  intros HI Hs. pose proof HI as [Hcount Hbound Hnames Hthreads Halone Hmissing Hcreating Honce].
  assert (∀ k p, cs_Runs s !! k = Some p → k ∉ cs_Creating s ++ cs_Ending s) as Hrun.
  { intros k p Hk Hx. apply Halone in Hx. congruence. }
  assert (∀ k, k ∉ cs_Reconciling s → k ∉ cs_Creating s ++ cs_Ending s) as Hfree by (intros k; rewrite Hnames; tauto).
  destruct l as [k async|k|k|k|k ok|k|k|k|k|k ok|k|k|k|k|k]; cbn [create_step] in Hs; step_cases.
  all: try (by apply inv_spawn || by apply inv_async_build || by apply inv_async_unstore || by apply inv_async_uncount).
  all: try match goal with |- create_inv _ (end_run ?k ?x) => quiet_step k (@None Phase) end.
  - quiet_step k (Some (Checked async)).
  - quiet_step k (Some (Missing async)).
  - quiet_step k (Some (Counted async)).
  - assert (k ∉ cs_Inventory s) by (eapply Hmissing; done).
    destruct ok; quiet_step k (Some Built); [set_solver|by constructor].
  - eapply (inv_phase max s k (Some Stored)); [..|reflexivity]; rewrite ?Heqo; cbn [phase_weight is_counted]; eauto.
    + cbn. lia.
    + intros x. cbn [cs_Reconciling set_reconciling]. rewrite elem_of_union, elem_of_singleton. destruct (decide (x = k)); naive_solver.
  - eapply (inv_phase max s k (Some Unstored)); [..|reflexivity]; rewrite ?Heqo; cbn [phase_weight is_counted]; eauto.
    + cbn. lia.
    + intros x. cbn [cs_Reconciling set_reconciling]. rewrite elem_of_difference, elem_of_singleton. naive_solver.
  - quiet_step k (Some DeleteChecked).
  - quiet_step k (Some DeleteFound).
  - intros x Hx. split; [apply remove_one_subset|by apply remove_one_other].
  - by apply remove_one_NoDup.
Qed.

(** ** Paths *)

(** The labels of a whole path. *)
Fixpoint create_run (max : Z) (ls : list CreateLabel) (s : CreateState) : option CreateState :=
  match ls with
  | [] => Some s
  | l :: ls => match create_step max l s with Some s => create_run max ls s | None => None end
  end.

Lemma create_run_rtc max ls s s' : create_run max ls s = Some s' → rtc (create_steps max) s s'.
Proof.
  revert s. induction ls as [|l ls IH]; cbn; intros s Hr; [by injection Hr as ->|].
  destruct (create_step max l s) as [s1|] eqn:E; [|done]. eapply rtc_l; [by exists l|by apply IH].
Qed.

Lemma create_inv_start max l : NoDup l → create_inv max (set_inventory l idle_state).
Proof.
  intros Hl.
  split; cbn [idle_state set_inventory cs_Count cs_Reconciling cs_Inventory cs_Runs cs_Creating cs_Ending cs_Leaving app];
    try done; try lia; try apply NoDup_nil_2; intros k; try rewrite lookup_empty; set_solver.
Qed.

Lemma create_inv_rtc max s s' : create_inv max s → rtc (create_steps max) s s' → create_inv max s'.
Proof. intros Hi Hr. induction Hr as [|x y z [l Hl] _ IH]; [done|]. by eapply IH, create_inv_step. Qed.

Lemma create_inv_reachable max s : rtc (create_steps max) idle_state s → create_inv max s.
Proof. apply create_inv_rtc, (create_inv_start max []), NoDup_nil_2. Qed.

(** One reconciliation on its own. *)
Section Paths.
Context (max : Z) (k : string) (s : CreateState).
Context (Hruns : cs_Runs s !! k = None).

Lemma run_cons l ls s1 s2 r : create_step max l s1 = Some s2 → create_run max ls s2 = r → create_run max (l :: ls) s1 = r.
Proof using Type. intros Hl Hr. cbn. by rewrite Hl. Qed.

Ltac flat :=
  cbv beta iota delta [set_run end_run set_count set_reconciling set_inventory set_threads cs_Runs cs_Count cs_Inventory
    cs_Reconciling cs_Creating cs_Ending cs_Leaving].
Ltac step :=
  eapply run_cons;
  [unfold create_step; flat; rewrite ?lookup_insert_eq; cbv beta iota;
   rewrite ?bool_decide_true by assumption; rewrite ?(proj2 (Z.ltb_lt _ _)) by assumption; reflexivity|].
Ltac go := destruct s as [c R I runs C E L]; cbn [cs_Reconciling cs_Inventory cs_Count cs_Runs] in *; repeat step; cbn [create_run]; flat.

Lemma runs_back p (runs : gmap string Phase) : runs !! k = None → delete k (<[k := p]> runs) = runs.
Proof using Type. intros Hk. by rewrite delete_insert_eq, delete_id. Qed.

Lemma run_found async : k ∉ cs_Reconciling s → create_run max [Begin k async; GiveUp k] s = Some s.
Proof using Hruns. intros ?. go. by rewrite runs_back. Qed.

Lemma run_refused async : k ∉ cs_Reconciling s → k ∉ cs_Inventory s →
  create_run max [Begin k async; FindMissing k; GiveUp k] s = Some s.
Proof using Hruns. intros ??. go. by rewrite insert_insert_eq, runs_back. Qed.

Lemma run_blocking (ok : bool) : k ∉ cs_Reconciling s → k ∉ cs_Inventory s → cs_Count s < max →
  create_run max [Begin k false; FindMissing k; Count k; Build k ok; Uncount k] s =
  Some (set_inventory (if ok then k :: cs_Inventory s else cs_Inventory s) s).
Proof using Hruns. intros ???. destruct ok; go; by rewrite Z.add_simpl_r, !insert_insert_eq, runs_back. Qed.

Lemma run_async_failed : k ∉ cs_Reconciling s → k ∉ cs_Inventory s → cs_Count s < max →
  create_run max [Begin k true; FindMissing k; Count k; Store k; Unstore k; Uncount k] s = Some s.
Proof using Hruns.
  intros ???. go. assert (({[k]} ∪ R) ∖ {[k]} = R) as -> by set_solver.
  by rewrite Z.add_simpl_r, !insert_insert_eq, runs_back.
Qed.

Lemma run_async : k ∉ cs_Reconciling s → k ∉ cs_Inventory s → cs_Count s < max →
  create_run max [Begin k true; FindMissing k; Count k; Store k; Spawn k] s =
  Some (mkCreateState (cs_Count s + 1) ({[k]} ∪ cs_Reconciling s) (cs_Inventory s) (cs_Runs s) (k :: cs_Creating s)
          (cs_Ending s) (cs_Leaving s)).
Proof using Hruns. intros ???. go. by rewrite !insert_insert_eq, runs_back. Qed.

Lemma run_delete : k ∉ cs_Reconciling s → k ∈ cs_Inventory s →
  create_run max [BeginDelete k; FindForDelete k; Destroy k] s =
  Some (set_inventory (remove_one k (cs_Inventory s)) s).
Proof using Hruns. intros ??. go. by rewrite !insert_insert_eq, runs_back. Qed.

(** A goroutine on its own. *)
Lemma run_goroutine (ok : bool) : k ∈ cs_Creating s →
  create_run max [AsyncBuild k ok; AsyncUnstore k; AsyncUncount k] s =
  Some (mkCreateState (cs_Count s - 1) (cs_Reconciling s ∖ {[k]}) (if ok then k :: cs_Inventory s else cs_Inventory s)
          (cs_Runs s) (remove_one k (cs_Creating s)) (cs_Ending s) (cs_Leaving s)).
Proof using Type.
  clear Hruns. intros Hk. assert (∀ l, k ∈ k :: l) as Hc by (intros; apply list_elem_of_here).
  assert (∀ l, remove_one k (k :: l) = l) as Hr by (intros; cbn; by rewrite bool_decide_true).
  destruct s as [c R I runs C E L], ok; cbn [cs_Creating] in *.
  all: do 3 (eapply run_cons; [unfold create_step; flat; rewrite ?Hr, bool_decide_true by auto; reflexivity|]); flat; by rewrite ?Hr.
Qed.
End Paths.

(** ** What every interleaving keeps *)

Definition creates_in_flight (s : CreateState) : Z :=
  held_creates (cs_Runs s) + Z.of_nat (length (cs_Creating s ++ cs_Ending s ++ cs_Leaving s)).

(** C6: The number of creates, however reconciliations and background creates
    interleave, is exactly that of the creates in flight and within 0 and the
    limit; when everything has ended, none is counted and no name is recorded. *)
Theorem creates_bounded max s :
  rtc (create_steps max) idle_state s →
  0 ≤ cs_Count s ≤ Z.max 0 max ∧ cs_Count s = creates_in_flight s ∧
  (cs_Runs s = ∅ → cs_Creating s ++ cs_Ending s ++ cs_Leaving s = [] → cs_Count s = 0 ∧ cs_Reconciling s = ∅).
Proof.
  intros Hr%create_inv_reachable. pose proof (held_nonneg (cs_Runs s)).
  pose proof Hr as [Hcount Hbound Hnames _ _ _ _ _]. unfold creates_in_flight. rewrite !length_app.
  split; [lia|]. split; [lia|]. intros Hruns Hnil.
  apply app_eq_nil in Hnil as [Hc [He Hl]%app_eq_nil]. rewrite Hcount, Hruns, Hc, He, Hl. split; [done|].
  apply set_eq. intros k. rewrite Hnames, Hruns, Hc, He, lookup_empty. set_solver.
Qed.

(** C5: However reconciliations, background creates and deletions interleave, no
    VM is in vCenter twice; of a VM at most one create runs in the background, and
    while it runs no reconciliation of the VM, so no deletion, is under way; a
    create that is about to run, in the background or not, never finds the VM
    there. *)
Theorem created_once max s :
  rtc (create_steps max) idle_state s →
  NoDup (cs_Inventory s) ∧ NoDup (cs_Creating s ++ cs_Ending s) ∧
  (∀ k, k ∈ cs_Creating s ++ cs_Ending s → cs_Runs s !! k = None ∧ k ∈ cs_Reconciling s) ∧
  (∀ k, k ∈ cs_Creating s ∨ (∃ async, cs_Runs s !! k = Some (Counted async)) → k ∉ cs_Inventory s).
Proof.
  intros Hr%create_inv_reachable. pose proof Hr as [_ _ Hnames Hthreads Halone Hmissing Hcreating Honce].
  split; [done|]. split; [done|]. split.
  - intros k Hk. rewrite Hnames. auto.
  - intros k [Hk|[async Hk]]; [by apply Hcreating|by eapply Hmissing].
Qed.
