(* ===== verification/ProviderResults.v ===== *)
(** * The provider: what creates and deletes at the same time keep

    The calls of [ProviderVM] and the goroutines they start, interleaved, are
    paths of the steps of [ProviderConcurrency]; along every path the number of
    creates stays within the limit, nothing is left behind, and no VM is created
    twice. *)

From S2P Require Import Prelude Conditions Hardware GoErrors VMGroup Volumes VMValidator PowerState AdmissionVM GroupResults.
From S2P Require Import VMLifecycle ProviderVM ProviderConcurrency.
Local Open Scope Z_scope.

(** ** The inventory of vCenter *)

(** Creating adds the VM, destroying removes it; either may have happened when an
    error is reported.  Nothing else adds or removes a VM, and the steps of a
    create leave the name of the VM. *)
Class InventoryLaws (W : Type) `{ProviderAPI W} := {
  inventory : W → list string;
  il_getVM vm w b : pa_getVM vm w = inr b → b = bool_decide (lv_key vm ∈ inventory w);
  il_create cfg args vm w w' vm' res : pa_CreateVirtualMachine cfg args vm w = (w', vm', res) →
    inventory w' = lv_key vm :: inventory w ∨ inventory w' = inventory w ∧ ∃ err, res = inl err;
  il_destroy vm w w' res : pa_Destroy vm w = (w', res) →
    inventory w' = remove_one (lv_key vm) (inventory w) ∨ inventory w' = inventory w ∧ res ≠ inr None;
  il_hard k op w : inventory (hard_op (VSphere := pa_VSphere k) op w).1 = inventory w;
  il_soft k op w : inventory (soft_op (VSphere := pa_VSphere k) op w).1 = inventory w;
  il_wait k p w : inventory (WaitForPowerState (VSphere := pa_VSphere k) p w).1 = inventory w;
  il_reconfigure k key v w : inventory (Reconfigure (VSphere := pa_VSphere k) key v w).1 = inventory w;
  il_args cfg vm w : inventory (pa_GetArgs cfg vm w).1.1 = inventory w ∧ lv_key (pa_GetArgs cfg vm w).1.2 = lv_key vm;
  il_placement cfg args vm w :
    inventory (pa_DoPlacement cfg args vm w).1.1 = inventory w ∧ lv_key (pa_DoPlacement cfg args vm w).1.2 = lv_key vm;
  il_folder args vm w :
    inventory (pa_GetFolderAndRPMoIDs args vm w).1.1 = inventory w ∧ lv_key (pa_GetFolderAndRPMoIDs args vm w).1.2 = lv_key vm;
  il_source args vm w :
    inventory (pa_GetSourceFilePaths args vm w).1.1 = inventory w ∧ lv_key (pa_GetSourceFilePaths args vm w).1.2 = lv_key vm;
  il_datastore args vm w :
    inventory (pa_PathNameFromDatastore args vm w).1.1 = inventory w ∧
    lv_key (pa_PathNameFromDatastore args vm w).1.2 = lv_key vm;
  il_path args vm w : inventory (pa_PathName args vm w).1.1 = inventory w ∧ lv_key (pa_PathName args vm w).1.2 = lv_key vm;
  il_patch vm vm' w : inventory (pa_PatchStatus vm vm' w).1 = inventory w;
  il_status vm mo w : inventory (pa_ReconcileStatus vm mo w).1.1 = inventory w;
  il_schema vm mo w : inventory (pa_SchemaUpgrade vm mo w).1.1 = inventory w;
  il_backup vm w : inventory (pa_Backup vm w).1 = inventory w;
  il_revert vm w : inventory (pa_SnapshotRevert vm w).1.1 = inventory w;
  il_snapshot vm w : inventory (pa_CurrentSnapshot vm w).1.1 = inventory w;
  il_crv vm w : inventory (pa_WaitForCRV vm w).1 = inventory w;
  il_suspended vm mo w : inventory (pa_reconcileSuspendedVM vm mo w).1.1 = inventory w;
  il_task vm mo w : inventory (pa_reconcileVMWithTask vm mo w).1.1 = inventory w;
  il_paused vm mo w : inventory (pa_reconcilePausedVM vm mo w).1.1 = inventory w;
  il_powered vm mo w : inventory (pa_reconcilePoweredVM vm mo w).1.1 = inventory w;
  il_cancel t w : inventory (pa_CancelTask t w).1 = inventory w;
  il_cleanup vm w : inventory (pa_CleanupVMServiceState vm w).1 = inventory w
}.

(** ** Interleaved calls *)

Section System.
Context {W : Type} `{ErrorsLib} `{ProviderAPI W}.

(** The calls of the controller with the limit [max], and the end of a goroutine. *)
Inductive system_step (max : Z) : ProviderState * W → ProviderState * W → Prop :=
  | step_create async cfg vm ps w ps' w' r :
      lc_MaxDeployThreads cfg = max →
      createOrUpdateVirtualMachine async cfg vm ps w = (ps', w', r) → system_step max (ps, w) (ps', w')
  | step_delete cfg vm ps w w' vm' err :
      DeleteVirtualMachine cfg vm ps w = (w', vm', err) → system_step max (ps, w) (ps, w')
  | step_cleanup vm ps w w' vm' err :
      CleanupVirtualMachine vm ps w = (w', vm', err) → system_step max (ps, w) (ps, w')
  | step_async a l1 l2 ps w w' sent :
      ps_Async ps = l1 ++ a :: l2 → createVirtualMachineAsync a w = (w', sent) →
      system_step max (ps, w)
        (cleanup_async (as_Key a) (mkProviderState (ps_Reconciling ps) (ps_CreateCount ps) (l1 ++ l2)), w').
End System.

Section Inventory.
Context {W : Type} `{ErrorsLib} `{InventoryLaws W}.

(** Destructs a call of vCenter and keeps what its law says. *)
Tactic Notation "call" constr(L) "as" simple_intropattern(p) :=
  let K := fresh "K" in
  pose proof L as K;
  lazymatch type of K with
  | inventory ?t.1.1 = _ => destruct t as p
  | inventory ?t.1 = _ => destruct t as p
  end; cbn [fst snd] in K |- *.

Lemma hard_keeps k d op w : inventory (doAndWaitOnHardPowerOp (H := pa_VSphere k) d op w).1 = inventory w.
Proof.
  unfold doAndWaitOnHardPowerOp. call (il_hard k op w) as [w1 [|[f|]]]; [done| |].
  - destruct (fault_invalidPowerState f) as [[??]|]; [case_bool_decide|]; done.
  - repeat case_bool_decide; done.
Qed.
Lemma soft_keeps k d op w : inventory (doAndWaitOnSoftPowerOp (H := pa_VSphere k) d op w).1 = inventory w.
Proof.
  unfold doAndWaitOnSoftPowerOp. call (il_soft k op w) as [w1 [|]]; [done|]. call (il_wait k d w1) as [w2 [[? []]|]]; cbn; congruence.
Qed.

Lemma set_power_keeps k mo f d b w : inventory (setPowerState (H := pa_VSphere k) mo f d b w).1 = inventory w.
Proof.
  unfold setPowerState. destruct (if _ || _ then _ else _); [done|]. case_bool_decide; [done|].
  destruct (power_ops d b) as [|[[hard|] [soft|]]]; [done| | | |done]; cbn [run_ops].
  - call (soft_keeps k d soft w) as [w1 [|]]; [|done]. by rewrite hard_keeps.
  - apply hard_keeps.
  - apply soft_keeps.
Qed.

Lemma restart_keeps k mo f d now b w : inventory (restart (H := pa_VSphere k) mo f d now b w).1 = inventory w.
Proof.
  assert (∀ w, inventory (restart_op (H := pa_VSphere k) b w).1 = inventory w) as Hop.
  { intros w0. destruct b; cbn [restart_op]; try done; unfold doAndWaitOnSoftRestart, doAndWaitOnHardRestart.
    - by call (il_hard k Reset w0) as [w1 [|[|]]].
    - call (il_soft k RebootGuest w0) as [w1 [|]]; [by case_match|done].
    - call (il_soft k RebootGuest w0) as [w1 [|]]; [|done].
      match goal with |- context [if ?c then _ else _] => destruct c end; call (il_hard k Reset w1) as [? [|[|]]]; cbn; congruence. }
  unfold restart. destruct (restart_props (H := pa_VSphere k) mo f w) as [|mo']; [done|].
  destruct (mo_Config mo') as [ec|]; [|done]. destruct (negb _); [done|].
  destruct (GetLastRestartTimeFromExtraConfig ec) as [|cur]; [done|].
  destruct (match cur with Some t => d <=? t | None => false end); [done|]. destruct (now <? d); [done|].
  call (Hop w) as [w1 [|r]]; [done|]. destruct (AnyChange r); [|done].
  unfold setLastRestartTimeInExtraConfigAndWait.
  call (il_reconfigure k ExtraConfigKeyLastRestartTime (FormatInt d) w1) as [w2 [|[|]]]; cbn; congruence.
Qed.

(** ** An update leaves the inventory *)

Lemma update_step_keeps msg (r : W * LifeVM * option goerror) e k w :
  inventory r.1.1 = inventory w → (∀ vm e w, inventory (k vm e w).1.1 = inventory w) →
  inventory (update_step msg r e k).1.1 = inventory w.
Proof.
  intros Hr Hk. destruct r as [[w' vm] [err|]]; cbn in *; [|by rewrite Hk].
  case_match; [done|by rewrite Hk].
Qed.

Lemma power_state_keeps cfg vm mo tasks w : inventory (reconcilePowerState cfg vm mo tasks w).1.1 = inventory w.
Proof.
  assert (inventory (power_state_body cfg vm mo tasks w).1.1 = inventory w) as Hb.
  { unfold power_state_body. repeat (case_match; [done|]). destruct (group_delay cfg vm w) as [vm1 [|]]; [done|].
    destruct (isVMPaused vm1 mo) as [vm2 []]; [done|]. case_match; [done|]. case_match.
    - unfold restart_vm. case_match; [done|]. case_match; [done|].
      match goal with |- context [restart ?a ?b ?c ?d ?e w] => call (restart_keeps (lv_key vm2) a b c d e w) as [w1 [|]] end; [done|]. by case_match.
    - case_match; [|done]. unfold change_power, res_SetPowerState.
      match goal with |- context [setPowerState ?a ?b ?c ?d w] => by call (set_power_keeps (lv_key vm2) a b c d w) as [w1 [|]] end. }
  unfold reconcilePowerState. destruct (power_state_body cfg vm mo tasks w) as [[??]?]. done.
Qed.

Lemma config_keeps vm mo tasks w : inventory (reconcileConfig vm mo tasks w).1.1 = inventory w.
Proof.
  unfold reconcileConfig. case_match; [done|]. case_match; [done|]. case_match; [|done]. case_match; [done|].
  unfold UpdateVirtualMachine. destruct (bool_decide (mv_RuntimePower mo = Suspended)).
  { by call (il_suspended vm mo w) as [[??]?]. }
  destruct (HasVMRunningTask tasks false). { by call (il_task vm mo w) as [[??]?]. }
  destruct (isVMPaused vm mo) as [vm1 []]. { by call (il_paused vm1 mo w) as [[??]?]. }
  destruct (_ || _); [|done]. by call (il_powered vm1 mo w) as [[??]?].
Qed.

Lemma power_and_snapshot_keeps cfg mo tasks vm e w :
  inventory (power_and_snapshot cfg mo tasks vm e w).1.1 = inventory w.
Proof.
  apply update_step_keeps; [apply power_state_keeps|]. intros. case_match; [|done].
  apply update_step_keeps; [apply il_snapshot|done].
Qed.

Lemma config_step_keeps cfg mo tasks vm e w : inventory (config_step cfg mo tasks vm e w).1.1 = inventory w.
Proof.
  unfold config_step. call (config_keeps vm mo tasks w) as [[w1 vm1] [err|]]; [|by rewrite power_and_snapshot_keeps].
  destruct (IsNoRequeueError err); [|case_match; [done|by rewrite power_and_snapshot_keeps]].
  destruct (_ && _); [|done]. call (il_crv vm1 w1) as [w2 [|]]; cbn; congruence.
Qed.

Lemma update_keeps cfg vm w : inventory (updateVirtualMachine cfg vm w).1.1 = inventory w.
Proof.
  unfold updateVirtualMachine. do 3 (case_match; [done|]).
  apply update_step_keeps; [apply il_status|]. intros. destruct (reconcileLocation _ _ _ _).
  apply update_step_keeps; [done|]. intros.
  apply update_step_keeps; [apply il_schema|]. intros.
  apply update_step_keeps; [|intros; case_match; [|apply config_step_keeps]].
  - unfold reconcileBackupState. do 3 (case_match; [done|]). by call (il_backup vm2 w2) as [??].
  - apply update_step_keeps; [apply il_revert|]. intros. apply config_step_keeps.
Qed.
(** ** The steps of a create and of a deletion *)

Definition same_vm (vm : LifeVM) (w : W) {A} (r : W * LifeVM * A) : Prop :=
  inventory r.1.1 = inventory w ∧ lv_key r.1.2 = lv_key vm.

Lemma args_step_same vm w (r : W * LifeVM * (goerror + CreateArgs)) k :
  same_vm vm w r → (∀ vm args w, same_vm vm w (k vm args w)) → same_vm vm w (args_step r k).
Proof.
  unfold same_vm. intros [Hw Hv] Hk. destruct r as [[w1 vm1] [|args]]; cbn in *; [done|].
  destruct (Hk vm1 args w1). split; congruence.
Qed.

Lemma create_args_same cfg vm w : same_vm vm w (getCreateArgs cfg vm w).
Proof.
  apply args_step_same; [apply il_args|]. intros.
  apply args_step_same; [apply il_placement|]. intros.
  apply args_step_same; [apply il_folder|]. intros.
  apply args_step_same; [|intros; by case_match].
  case_match; [|apply il_path]. apply args_step_same; [apply il_source|]. intros. apply il_datastore.
Qed.

Lemma cancel_keeps tasks w : inventory (cancel_promotions tasks w).1 = inventory w.
Proof.
  revert w. induction tasks as [|t tasks IH]; intros w; [done|]. cbn. case_match; [|done].
  call (il_cancel (rt_Task t) w) as [w1 [|]]; [done|]. by rewrite IH.
Qed.

(** A deletion destroys the VM, or nothing changes; without an error the VM is not
    there at the end. *)
Lemma delete_inventory cfg vm ps w w' vm' err :
  DeleteVirtualMachine cfg vm ps w = (w', vm', err) →
  (inventory w' = inventory w ∧ (err = None → lv_key vm ∉ inventory w)) ∨
  ((lv_key vm ∉ ps_Reconciling ps) ∧ lv_key vm ∈ inventory w ∧ inventory w' = remove_one (lv_key vm) (inventory w)).
Proof.
  unfold DeleteVirtualMachine. case_bool_decide as Hr; [intros [= <- _ <-]; by left|].
  destruct (pa_getVcClient w); [intros [= <- _ <-]; by left|].
  destruct (pa_getVM vm w) as [|[]] eqn:Eg; [intros [= <- _ <-]; by left| |].
  all: apply il_getVM in Eg; symmetry in Eg.
  2: { intros [= <- _ _]. left. split; [done|]. intros _. by apply bool_decide_eq_false in Eg. }
  apply bool_decide_eq_true in Eg.
  destruct (pa_Properties vm w) as [|mo]; [intros [= <- _ <-]; by left|]. unfold delete_found.
  case_match; [intros [= <- _ <-]; by left|]. case_match; [intros [= <- _ <-]; by left|].
  match goal with |- context [if lc_FastDeploy cfg then ?a else ?b] =>
    assert (inventory (if lc_FastDeploy cfg then a else b).1 = inventory w) as K end.
  { destruct (lc_FastDeploy cfg); [|done]. destruct (getRecentTaskInfo mo w); [done|apply cancel_keeps]. }
  destruct (if lc_FastDeploy cfg then _ else _) as [w1 [|]]; cbn [fst] in K; [intros [= <- _ <-]; by left|].
  unfold destroy_vm.
  match goal with |- context [setPowerState ?a ?b ?c ?d w1] =>
    call (set_power_keeps (lv_key vm) a b c d w1) as [w2 [|]] end; [intros [= <- _ <-]; left; split; [congruence|done]|].
  destruct (pa_Destroy vm w2) as [w3 res] eqn:Ed. apply il_destroy in Ed as [Hd|[Hd Hres]].
  - rewrite K0, K in Hd. right. destruct res as [|[|]]; by simplify_eq.
  - left. destruct res as [|[|]]; simplify_eq; split; congruence.
Qed.

(** ** Calls are paths *)

(** The state of the provider and of vCenter between calls, and that of the steps. *)
Record agrees (c : ProviderState * W) (s : CreateState) : Prop := {
  ag_count : cs_Count s = ps_CreateCount c.1;
  ag_names : cs_Reconciling s = ps_Reconciling c.1;
  ag_inventory : cs_Inventory s = inventory c.2;
  ag_runs : cs_Runs s = ∅;
  ag_creating : cs_Creating s ≡ₚ as_Key <$> ps_Async c.1;
  ag_ended : cs_Ending s = [] ∧ cs_Leaving s = [];
  ag_keys : Forall (λ a, as_Key a = lv_key (as_VM a)) (ps_Async c.1)
}.

Lemma agrees_world ps w w' s : agrees (ps, w) s → inventory w' = inventory w → agrees (ps, w') s.
Proof. intros [] Hw. split; cbn in *; congruence. Qed.

Lemma agrees_inventory ps w w' s :
  agrees (ps, w) s → agrees (ps, w') (set_inventory (inventory w') s).
Proof. intros []. by split. Qed.

Definition with_create (ps : ProviderState) : ProviderState :=
  mkProviderState (ps_Reconciling ps) (ps_CreateCount ps + 1) (ps_Async ps).
Lemma count_back ps : decrementConcurrentCreates (with_create ps) = ps.
Proof. unfold decrementConcurrentCreates. cbn. rewrite Z.add_simpl_r. by destruct ps. Qed.

Section Simulation.
Context (max : Z) (s : CreateState) (ps : ProviderState) (w : W) (vm : LifeVM).
Context (Ha : agrees (ps, w) s) (Hfree : lv_key vm ∉ ps_Reconciling ps).

Definition simulated (c : ProviderState * W) : Prop := ∃ s', rtc (create_steps max) s s' ∧ agrees c s'.

Lemma sim_same w' : inventory w' = inventory w → simulated (ps, w').
Proof using Ha. intros Hw. exists s. split; [done|]. by eapply agrees_world. Qed.

Lemma sim_free : cs_Runs s !! lv_key vm = None ∧ (lv_key vm ∉ cs_Reconciling s).
Proof using Ha Hfree. rewrite (ag_runs _ _ Ha), (ag_names _ _ Ha). by rewrite lookup_empty. Qed.

Context (Hmissing : lv_key vm ∉ inventory w) (Hroom : ps_CreateCount ps < max).

Lemma sim_room : (lv_key vm ∉ cs_Inventory s) ∧ cs_Count s < max.
Proof using Ha Hmissing Hroom. by rewrite (ag_inventory _ _ Ha), (ag_count _ _ Ha). Qed.

Lemma sim_blocking cfg vm0 ps' w' r :
  lv_key vm0 = lv_key vm → create_blocking cfg vm0 (with_create ps) w = (ps', w', r) → simulated (ps', w').
Proof using Ha Hfree Hmissing Hroom.
  intros Hkey. unfold create_blocking. pose proof (create_args_same cfg vm0 w) as [Hw Hv].
  destruct (getCreateArgs cfg vm0 w) as [[w1 vm1] [err|args]]; cbn [fst snd] in Hw, Hv.
  { intros [= <- <- _]. rewrite count_back. by apply sim_same. }
  unfold createVirtualMachine. destruct (pa_CreateVirtualMachine cfg args vm1 w1) as [[w2 vm2] res] eqn:Ec.
  apply il_create in Ec as Hc. rewrite Hw, Hv, Hkey in Hc.
  assert (simulated (ps, w2)) as Hsim.
  { destruct Hc as [Hc|[Hc _]]; [|by apply sim_same].
    destruct sim_free as [Hruns Hrec]. destruct sim_room as [Hinv Hcount].
    pose proof (run_blocking max _ s Hruns true Hrec Hinv Hcount) as Hrun.
    eexists. split; [by eapply create_run_rtc|]. rewrite (ag_inventory _ _ Ha). cbn [snd]. rewrite <- Hc. by eapply agrees_inventory. }
  destruct res; intros [= <- <- _]; rewrite count_back; exact Hsim.
Qed.

Lemma sim_async cfg vm0 ps' w' r :
  lv_key vm0 = lv_key vm → create_async cfg vm0 (with_create ps) w = (ps', w', r) → simulated (ps', w').
Proof using Ha Hfree Hmissing Hroom.
  intros Hkey. unfold create_async. rewrite Hkey. cbn [ps_Reconciling with_create]. rewrite bool_decide_false by done.
  pose proof (create_args_same cfg vm0 w) as [Hw Hv].
  destruct (getCreateArgs cfg vm0 w) as [[w1 vm1] [err|args]]; cbn [fst snd] in Hw, Hv; intros [= <- <- _].
  - unfold cleanup_async. cbn [ps_Reconciling ps_CreateCount ps_Async with_create].
    replace (({[lv_key vm]} ∪ ps_Reconciling ps) ∖ {[lv_key vm]}) with (ps_Reconciling ps) by set_solver.
    fold (with_create ps). rewrite count_back. by apply sim_same.
  - destruct sim_free as [Hruns Hrec]. destruct sim_room as [Hinv Hcount].
    pose proof (run_async max _ s Hruns Hrec Hinv Hcount) as Hrun.
    eexists. split; [by eapply create_run_rtc|]. destruct Ha as [Hcnt Hnames Hi Hr Hc He Hk].
    split; cbn in *; try congruence; [|by apply Forall_app_2; [|apply Forall_singleton; cbn; congruence]].
    rewrite fmap_app, Hc. cbn. by rewrite Permutation_app_comm.
Qed.
End Simulation.

Lemma sim_create max s async cfg vm ps w ps' w' r :
  agrees (ps, w) s → lc_MaxDeployThreads cfg = max →
  createOrUpdateVirtualMachine async cfg vm ps w = (ps', w', r) → simulated max s (ps', w').
Proof.
  intros Ha Hmax. unfold createOrUpdateVirtualMachine.
  assert (simulated max s (ps, w)) as Hsame by by eapply sim_same.
  destruct (pa_SyncGVK vm); [by intros [= <- <- _]|].
  case_bool_decide as Hfree; [by intros [= <- <- _]|].
  destruct (pa_getVcClient w) as [|uuid]; [by intros [= <- <- _]|].
  set (vm0 := set_lv_Annotations _ vm).
  destruct (pa_getVM vm0 w) as [|[]] eqn:Eg; [by intros [= <- <- _]| |].
  { pose proof (update_keeps cfg vm0 w) as Hu. destruct (updateVirtualMachine cfg vm0 w) as [[w1 vm1] err].
    intros [= <- <- _]. by eapply sim_same. }
  apply il_getVM in Eg. symmetry in Eg. apply bool_decide_eq_false in Eg.
  unfold vmCreateConcurrentAllowed. rewrite Hmax.
  destruct (Z.leb_spec max (ps_CreateCount ps)) as [|Hroom]; [by intros [= <- <- _]|].
  destruct async; [by eapply (sim_async max s ps w vm)|by eapply (sim_blocking max s ps w vm)].
Qed.

Lemma sim_goroutine max s a l1 l2 ps w w' sent :
  agrees (ps, w) s → ps_Async ps = l1 ++ a :: l2 → createVirtualMachineAsync a w = (w', sent) →
  simulated max s (cleanup_async (as_Key a) (mkProviderState (ps_Reconciling ps) (ps_CreateCount ps) (l1 ++ l2)), w').
Proof.
  intros [Hcnt Hnames Hi Hr Hc He Hk] Hl. cbn [fst snd] in *. rewrite Hl in Hk, Hc.
  apply Forall_app in Hk as [Hk1 [Hka Hk2]%Forall_cons].
  assert (as_Key a ∈ cs_Creating s) as Hin.
  { rewrite Hc, fmap_app. cbn. apply elem_of_app. right. apply list_elem_of_here. }
  unfold createVirtualMachineAsync.
  destruct (pa_CreateVirtualMachine (as_Config a) (as_Args a) (as_VM a) w) as [[w1 vm1] res] eqn:Ec.
  apply il_create in Ec. match goal with |- context [pa_PatchStatus vm1 ?v w1] => call (il_patch vm1 v w1) as [w2 e] end.
  intros [= <- _].
  assert (∃ ok : bool, inventory w2 = if ok then as_Key a :: inventory w else inventory w) as [ok Hok].
  { destruct Ec as [Ec|[Ec _]]; [exists true|exists false]; congruence. }
  pose proof (run_goroutine max (as_Key a) s ok Hin) as Hrun.
  eexists. split; [by eapply create_run_rtc|]. unfold cleanup_async, decrementConcurrentCreates.
  split; cbn in *; try congruence; [by rewrite Hok, Hi; destruct ok| |by apply Forall_app_2].
  apply (Permutation_cons_inv (a := as_Key a)). rewrite <- remove_one_perm by done. rewrite Hc, !fmap_app. cbn.
  by rewrite Permutation_middle.
Qed.

Lemma sim_step max c c' s : system_step max c c' → agrees c s → simulated max s c'.
Proof.
  intros Hstep Ha. destruct Hstep as [async cfg vm ps w ps' w' r Hmax Hc|cfg vm ps w w' vm' err Hd|vm ps w w' vm' err Hcl|
    a l1 l2 ps w w' sent Hl Hg].
  - by eapply sim_create.
  - apply delete_inventory in Hd as [[Hd _]|(Hfree & Hin & Hd)]; [by eapply sim_same|].
    destruct (sim_free s ps w vm Ha Hfree) as [Hruns Hrec]. pose proof (ag_inventory _ _ Ha) as Hi. cbn [snd] in Hi. rewrite <- Hi in Hin.
    pose proof (run_delete max _ s Hruns Hrec Hin) as Hrun.
    eexists. split; [by eapply create_run_rtc|]. rewrite (ag_inventory _ _ Ha). cbn [snd]. rewrite <- Hd. by eapply agrees_inventory.
  - eapply sim_same; [done|]. revert Hcl. unfold CleanupVirtualMachine. case_bool_decide; [by intros [= <- _ _]|].
    destruct (pa_getVcClient w); [by intros [= <- _ _]|]. destruct (pa_getVM vm w) as [|[]]; try by intros [= <- _ _].
    call (il_cleanup vm w) as [w1 e]. by intros [= <- _ _].
  - by eapply sim_goroutine.
Qed.

(** C4: Every call of the provider, blocking or not, every deletion and every
    background create, in any order and with any failures, is a path of the steps
    of [create_step] between states that agree with the shared variables and with
    the inventory of vCenter. *)
Theorem provider_refines_steps max c c' s :
  system_step max c c' → agrees c s → ∃ s', rtc (create_steps max) s s' ∧ agrees c' s'.
Proof. apply sim_step. Qed.

Lemma sim_rtc max c c' s : rtc (system_step max) c c' → agrees c s → simulated max s c'.
Proof.
  intros Hr. revert s. induction Hr as [|c1 c2 c3 Hstep _ IH]; intros s Ha; [by exists s|].
  destruct (sim_step _ _ _ _ Hstep Ha) as (s1 & Hs1 & Ha1). destruct (IH s1 Ha1) as (s2 & Hs2 & Ha2).
  exists s2. split; [by etrans|done].
Qed.

(** From a provider that has just started, after any calls and background
    creates with any failures, the creates that are counted are those that run in
    the background, within the limit, their VMs are exactly the ones whose
    reconciliation and deletion is refused, and vCenter has no VM twice. *)
Theorem provider_accounts max w0 ps w :
  NoDup (inventory w0) → rtc (system_step max) (mkProviderState ∅ 0 [], w0) (ps, w) →
  ps_CreateCount ps = Z.of_nat (length (ps_Async ps)) ∧ ps_CreateCount ps ≤ Z.max 0 max ∧
  NoDup (as_Key <$> ps_Async ps) ∧ list_to_set (as_Key <$> ps_Async ps) = ps_Reconciling ps ∧ NoDup (inventory w).
Proof.
  intros Hw Hr. set (s0 := set_inventory (inventory w0) idle_state).
  assert (agrees (mkProviderState ∅ 0 [], w0) s0) as Ha0 by (split; try done; constructor).
  destruct (sim_rtc _ _ _ _ Hr Ha0) as (s & Hs & [Hcnt Hnames Hi Hruns Hc [He Hl] Hk]). cbn [fst snd] in *.
  apply (create_inv_rtc max s0) in Hs as [Hcount Hbound Hrec Hthreads _ _ _ Honce]; [|by apply create_inv_start].
  rewrite Hruns, He, Hl in Hcount. unfold held_creates in Hcount. rewrite map_fold_empty in Hcount. cbn [length] in Hcount. rewrite He, app_nil_r in Hthreads.
  assert (length (cs_Creating s) = length (ps_Async ps)) as Hlen by (rewrite Hc; apply length_fmap).
  split; [lia|]. split; [lia|]. split; [by rewrite <- Hc|]. split; [|by rewrite <- Hi].
  apply set_eq. intros k. rewrite elem_of_list_to_set, <- Hnames, Hrec, <- Hc, Hruns, He, app_nil_r, lookup_empty.
  split; [auto|]. by intros [?|?].
Qed.
End Inventory.

(** * The provider: what an update of a VM does

    A VM outside the hierarchy of its namespace is only reported; a VM that is to
    be powered off is, even when its configuration cannot be reconciled. *)

(** What a condition that was set says. *)
Lemma set_says now l c :
  NoDup (c_Type <$> l) →
  ∃ c', Conditions.Get (Conditions.Set_ now l (Some c)) (c_Type c) = Some c' ∧ c_Status c' = c_Status c ∧ c_Reason c' = c_Reason c.
Proof.
  intros Hnd. destruct (Set_Get_same now l c Hnd) as (c' & Hg & Hs). apply hasSameState_spec in Hs.
  exists c'. naive_solver.
Qed.

(** A power operation that succeeds ends in its state. *)
Lemma power_reaches {W E : Type} `{VSphereLaws W E} mo (desired : string) b w w' r :
  mo_PowerState mo = vm_power w ∨ mo_PowerState mo = "" →
  setPowerState mo false desired b w = (w', inr r) → vm_power w' = desired.
Proof.
  intros Hmo. unfold setPowerState. rewrite orb_false_r.
  assert (∀ cur : string, (if bool_decide (cur = desired) then (w, inr PowerOpResultNone)
    else match power_ops desired b with inl e => (w, inl e) | inr ops => run_ops desired ops w end) = (w', inr r) →
    cur = vm_power w → vm_power w' = desired) as Hgo.
  { intros cur Hrun ->. revert Hrun. case_bool_decide; [by intros [= <- _]|].
    destruct (power_ops desired b) as [|[hard soft]] eqn:Hops; [done|].
    destruct (power_ops_target _ _ _ _ Hops) as [Hh _].
    destruct hard as [hop|], soft as [sop|]; cbn [run_ops]; [| | |done].
    - destruct (doAndWaitOnSoftPowerOp desired sop w) as [w1 [|r1]] eqn:Hs; intros Hr.
      + eapply hard_power_op_ok; [done|by apply Hh].
      + injection Hr as <- <-. eapply soft_power_op_ok. exact Hs.
    - intros Hr. eapply hard_power_op_ok; [done|by apply Hh].
    - intros Hr. by eapply soft_power_op_ok. }
  case_bool_decide as Hempty.
  - destruct (PowerState.Properties w) as [|[p cfg]] eqn:Hp; [done|]. apply Properties_sound in Hp as [-> _]. intros Hr. by eapply Hgo.
  - intros Hr. eapply Hgo; [done|]. by destruct Hmo.
Qed.

(** A running task that does not lock the VM hides one after it that does. *)
Lemma unlocked_task_hides_lock t t' e tasks :
  running t = true → rt_DescriptionId t ∉ ignoredTaskDescriptionIDs → rt_Entity t = Some e → e ∉ rt_Locked t →
  running t' = true → rt_Entity t' = Some e → e ∈ rt_Locked t' →
  HasVMRunningTask (t :: t' :: tasks) true = false.
Proof. intros Hr Hi He Hl _ _ _. cbn [HasVMRunningTask].
  by rewrite Hr, He, (bool_decide_false _ Hi), (bool_decide_false _ Hl). Qed.

Section Update.
Context {W : Type} `{ErrorsLib} `{ProviderAPI W}.
Implicit Types (cfg : LifeConfig) (vm : LifeVM) (mo : ManagedVM) (w : W).

(** ** Location *)

(** Where a VM is against where its namespace has it in its zone; [None] if that
    cannot be told. *)
Definition placement cfg vm mo w : option (bool * bool) :=
  match mv_ResourcePool mo, mv_Parent mo with
  | Some pool, Some parent =>
    if bool_decide (lv_Zone vm = "") then None
    else match GetNamespaceFolderAndRPMoID cfg (lv_Zone vm) (lv_Namespace vm) w with
    | inl _ => None
    | inr (folder, rp) =>
      match validateVMResourcePool pool rp w, validateVMFolder parent folder w with
      | inr a, inr b => Some (a, b)
      | _, _ => None
      end
    end
  | _, _ => None
  end.

Definition mismatch_reason (p : bool * bool) : string :=
  match p with
  | (false, false) => "ResourcePoolAndFolderMismatch"
  | (false, true) => "ResourcePoolMismatch"
  | _ => "FolderMismatch"
  end.

Lemma location_placed cfg vm mo w a b :
  placement cfg vm mo w = Some (a, b) → NoDup (c_Type <$> lv_Conditions vm) →
  ∃ vm' err, reconcileLocation cfg vm mo w = (vm', err) ∧ vm' = set_lv_Conditions (lv_Conditions vm') vm ∧
    (a && b = true → err = None ∧ IsTrue (lv_Conditions vm') VirtualMachineLocationValid = true) ∧
    (a && b = false → is_Some err ∧ (∀ e, err = Some e → IsNoRequeueError e = true) ∧
       IsFalse (lv_Conditions vm') VirtualMachineLocationValid = true ∧
       GetReason (lv_Conditions vm') VirtualMachineLocationValid = mismatch_reason (a, b)).
Proof.
  unfold placement, reconcileLocation. intros Hp Hnd.
  destruct (mv_ResourcePool mo) as [pool|]; [|done]. destruct (mv_Parent mo) as [parent|]; [|done].
  case_bool_decide; [done|]. destruct (GetNamespaceFolderAndRPMoID _ _ _ _) as [|[folder rp]]; [done|].
  destruct (validateVMResourcePool pool rp w) as [|a']; [done|]. destruct (validateVMFolder parent folder w) as [|b']; [done|].
  injection Hp as -> ->. unfold MarkFalse, MarkTrue.
  destruct (set_says (pa_Now w) (lv_Conditions vm) (TrueCondition VirtualMachineLocationValid) Hnd) as (ct & Ht & Hts & _).
  assert (∀ r m, r ≠ "" → let l := Conditions.Set_ (pa_Now w) (lv_Conditions vm) (Some (FalseCondition VirtualMachineLocationValid r m)) in
    IsFalse l VirtualMachineLocationValid = true ∧ GetReason l VirtualMachineLocationValid = r) as Hf.
  { intros r m Hr. cbn zeta. destruct (set_says (pa_Now w) (lv_Conditions vm) (FalseCondition VirtualMachineLocationValid r m) Hnd)
      as (cf & Hg & Hgs & Hgr). cbn [c_Type FalseCondition c_Status c_Reason] in *. unfold IsFalse, GetReason.
    rewrite Hg, bool_decide_true by done. by rewrite decide_False in Hgr. }
  cbn [c_Type TrueCondition c_Status] in *.
  destruct a, b; cbn [negb orb andb mismatch_reason]; eexists _, _; (split; [done|]); (split; [done|]);
    cbn [lv_Conditions set_lv_Conditions with_part lp_Conditions]; (split; [|try done]); try done.
  1: intros _; split; [done|]; unfold IsTrue; rewrite Ht; by rewrite bool_decide_true.
  all: intros _; split; [done|]; split; [intros e [= <-]; reflexivity|]; by apply Hf.
Qed.

(** A VM that somebody moved out of the resource pool or the folder that its
    namespace has in its zone is reported and nothing else: after its status, no
    step of the update runs, only the condition of its location changes, with what
    does not match, and it is not queued again; that of a VM in its place, or one
    level below, is true. *)
Theorem relocated_vm_only_reported cfg vm mo tasks w w1 vm1 e a b :
  pa_Properties vm w = inr mo → getRecentTaskInfo mo w = inr tasks → pa_ListAttachedTags w = None →
  pa_ReconcileStatus vm mo w = (w1, vm1, e) → (∀ x, e = Some x → IsNoRequeueError x = false) →
  placement cfg vm1 mo w1 = Some (a, b) → NoDup (c_Type <$> lv_Conditions vm1) →
  (a && b = false →
   ∃ vm' err, updateVirtualMachine cfg vm w = (w1, vm', Some err) ∧ vm' = set_lv_Conditions (lv_Conditions vm') vm1 ∧
     (e = None → IsNoRequeueError err = true) ∧ IsFalse (lv_Conditions vm') VirtualMachineLocationValid = true ∧
     GetReason (lv_Conditions vm') VirtualMachineLocationValid = mismatch_reason (a, b)) ∧
  (a && b = true → IsTrue (lv_Conditions (reconcileLocation cfg vm1 mo w1).1) VirtualMachineLocationValid = true).
Proof.
  intros Hp Ht Htags Hst He Hpl Hnd. destruct (location_placed _ _ _ _ _ _ Hpl Hnd) as (vm' & err & Hloc & Hvm & Hok & Hbad).
  split; intros Hab; [|rewrite Hloc; by apply Hok].
  destruct (Hbad Hab) as ([x ->] & Hx & Hf & Hr). unfold updateVirtualMachine. rewrite Hp, Ht, Htags, Hst.
  destruct e as [y|]; cbn [update_step].
  - rewrite (He y eq_refl), Hloc. cbn [update_step]. rewrite (Hx x eq_refl). by eexists _, _.
  - rewrite Hloc. cbn [update_step]. rewrite (Hx x eq_refl). eexists _, _. split; [done|].
    split; [done|]. split; [intros _; by apply Hx|done].
Qed.

(** ** Power *)

Context (laws : ∀ k, VSphereLaws W goerror (H := pa_VSphere k)).
Definition power_of (k : string) w : string := vm_power (VSphereLaws := laws k) w.

(** Nothing keeps the provider from changing the power state. *)
Definition may_change_power cfg vm mo (tasks : list RecentTask) w : bool :=
  connected mo && bool_decide (is_Some (mv_ResourcePool mo)) && negb (HasVMRunningTask tasks false) &&
  match group_delay cfg vm w with (vm, None) => negb (isVMPaused vm mo).2 | _ => false end.

Lemma changed_synced cfg vm now :
  NoDup (c_Type <$> lv_Conditions vm) →
  IsTrue (lv_Conditions (SetPowerStateSyncedCondition cfg vm (Some ErrSetPowerState) now)) VirtualMachinePowerStateSynced = true.
Proof.
  intros Hnd. unfold SetPowerStateSyncedCondition.
  change (IsNoRequeueNoErr "updated power state" ErrSetPowerState) with true. rewrite orb_true_r.
  destruct (set_says now (lv_Conditions vm)
    (mkCondition VirtualMachinePowerStateSynced ConditionTrue 0 0 "Synced" (lv_PowerState vm)) Hnd) as (c & Hg & Hs & _).
  cbn [lv_Conditions set_lv_Conditions with_part lp_Conditions c_Type c_Status] in *. unfold IsTrue. rewrite Hg.
  by rewrite bool_decide_true.
Qed.

Lemma power_off_changes cfg vm mo tasks w w' r :
  may_change_power cfg vm mo tasks w = true → mv_SummaryPower mo = PoweredOn → lv_PowerState vm = VirtualMachinePowerStateOff →
  setPowerState (H := pa_VSphere (lv_key vm)) (mkMO PoweredOn None) false PoweredOff
    (ParsePowerOpMode (lv_PowerOffMode vm)) w = (w', inr r) →
  AnyChange r = true → NoDup (c_Type <$> lv_Conditions vm) →
  ∃ vm', reconcilePowerState cfg vm mo tasks w = (w', vm', Some ErrSetPowerState) ∧
    IsTrue (lv_Conditions vm') VirtualMachinePowerStateSynced = true.
Proof.
  unfold may_change_power. intros Hmay Hsum Hoff Hset Hr Hnd.
  destruct (group_delay cfg vm w) as [vm1 [|]] eqn:Hg; [by rewrite andb_false_r in Hmay|].
  rewrite !andb_true_iff, !negb_true_iff, bool_decide_eq_true in Hmay. destruct Hmay as (((Hcon & [pool Hpool]) & Hrun) & Hpause).
  assert (∃ l a, vm1 = set_lv_Labels l (set_lv_Annotations a vm)) as (l1 & a1 & ->).
  { revert Hg. unfold group_delay. repeat case_match; intros [= <-]; try (eexists _, _; reflexivity);
      exists (lv_Labels vm), (lv_Annotations vm); by destruct vm. }
  set (vm1 := set_lv_Labels l1 _) in *. destruct (isVMPaused vm1 mo) as [vm2 p] eqn:Hp. cbn [snd] in Hpause. subst p.
  assert (∃ l, vm2 = set_lv_Labels l vm1) as [l2 ->].
  { revert Hp. unfold isVMPaused. case_match; intros [= <-]. by eexists. }
  unfold reconcilePowerState, power_state_body, verifyConnectionState, verifyResourcePool.
  rewrite Hcon, Hpool, Hg, Hp, Hrun, Hsum. change (ConvertPowerState PoweredOn) with VirtualMachinePowerStateOn.
  cbn [lv_PowerState set_lv_Labels set_lv_Annotations with_part vm1]. rewrite Hoff.
  change Priority.VirtualMachinePowerStateOn with VirtualMachinePowerStateOn.
  change (bool_decide (VirtualMachinePowerStateOff = VirtualMachinePowerStateOn)) with false. cbn [andb].
  unfold power_op_due. cbn [lv_PowerState set_lv_Labels set_lv_Annotations with_part vm1 lv_PowerOffMode]. rewrite Hoff.
  change Priority.VirtualMachinePowerStateOn with VirtualMachinePowerStateOn.
  change (bool_decide (VirtualMachinePowerStateOff = VirtualMachinePowerStateOn)) with false.
  change (bool_decide (VirtualMachinePowerStateOff = VirtualMachinePowerStateOff)) with true.
  change (bool_decide (VirtualMachinePowerStateOn = VirtualMachinePowerStateOn)) with true. cbn [orb].
  unfold change_power, res_SetPowerState.
  change (lv_key (set_lv_Labels l2 vm1)) with (lv_key vm).
  cbn [lv_PowerState set_lv_Labels set_lv_Annotations with_part vm1 lv_PowerOffMode]. rewrite Hoff.
  change (ParsePowerState VirtualMachinePowerStateOn) with PoweredOn.
  change (ParsePowerState VirtualMachinePowerStateOff) with PoweredOff.
  rewrite Hset, Hr. eexists. split; [done|].
  apply changed_synced. by case_match.
Qed.

End Update.
