(* ===== verification/VMLifeResults.v ===== *)
(** * The life of a VM: results on its controller

    When the finalizer of a VM goes, which claims it leaves, and what it waits
    for.  What the controller relies on of the provider is the class
    [ProviderPromise]; the provider of [ProviderVM] keeps it. *)

From S2P Require Import Prelude Conditions Hardware GoErrors VMGroup Volumes VMValidator PowerState AdmissionVM.
From S2P Require Import VMLifecycle VMController ProviderVM ProviderConcurrency ProviderResults.
Local Open Scope Z_scope.

(** ** The promise of the provider *)

Definition same_life (vm vm' : LifeVM) : Prop :=
  lv_Namespace vm' = lv_Namespace vm ∧ lv_Name vm' = lv_Name vm ∧ lv_UID vm' = lv_UID vm ∧
  lv_Volumes vm' = lv_Volumes vm ∧ lv_Finalizers vm' = lv_Finalizers vm.

(** A deletion that reports no error has removed the VM. *)
Class ProviderPromise (W : Type) `{VMProvider W} := {
  provider_ok : W → Prop;
  vm_gone : string → W → Prop;
  pp_delete cfg vm w w' vm' err : pv_DeleteVirtualMachine cfg vm w = (w', vm', err) →
    same_life vm vm' ∧ (provider_ok w → err = None → vm_gone (lv_key vm) w');
  pp_cleanup cfg vm w w' vm' err : pv_CleanupVirtualMachine cfg vm w = (w', vm', err) → same_life vm vm'
}.

Lemma same_life_refl vm : same_life vm vm.
Proof. done. Qed.

Section Keeps.
Context {W : Type} `{ErrorsLib} `{InventoryLaws W}.

Lemma delete_same cfg vm ps w w' vm' err : DeleteVirtualMachine cfg vm ps w = (w', vm', err) → same_life vm vm'.
Proof.
  unfold DeleteVirtualMachine, delete_found. intros Hd.
  repeat (match type of Hd with
    | match ?x with _ => _ end = _ => lazymatch x with destroy_vm _ _ => fail | _ => destruct x end
    | (let '(_, _) := ?x in _) = _ => destruct x
    end); by injection Hd as <- <- <-.
Qed.

(** A deletion without error. *)
Lemma delete_gone cfg vm ps w w' vm' :
  NoDup (inventory w) → DeleteVirtualMachine cfg vm ps w = (w', vm', None) → lv_key vm ∉ inventory w'.
Proof.
  intros Hnd Hd. pose proof (delete_inventory _ _ _ _ _ _ _ Hd) as Hinv.
  destruct Hinv as [[-> Hno]|(_ & _ & ->)]; [by apply Hno|by apply remove_one_NoDup].
Qed.

#[global] Instance provider_promise : ProviderPromise (ProviderState * W).
Proof using All.
  refine {| provider_ok := λ s, NoDup (inventory s.2); vm_gone := λ k s, k ∉ inventory s.2 |}.
  - intros cfg vm [ps w] s' vm' err. cbn. destruct (DeleteVirtualMachine cfg vm ps w) as [[w1 vm1] e] eqn:Hd.
    intros [= <- <- <-]. split; [by eapply delete_same|]. intros Hok ->. by eapply delete_gone.
  - intros cfg vm [ps w] s' vm' err. cbn. unfold CleanupVirtualMachine.
    case_bool_decide; [by intros [= <- <- <-]|]. destruct (pa_getVcClient w); [by intros [= <- <- <-]|].
    destruct (pa_getVM vm w) as [|[]]; [by intros [= <- <- <-]| |by intros [= <- <- <-]].
    destruct (pa_CleanupVMServiceState vm w). by intros [= <- <- <-].
Defined.
End Keeps.

(** ** Claims *)

(** What a claim is known by, and what is written to it, as long as nobody else
    writes; the objects are those of their names. *)
Class ClaimLaws (W : Type) `{LifeAPI W} := {
  claims : W → gmap (string * string) LifeClaim;
  cw_name w k c : claims w !! k = Some c → k = (cl_Namespace c, cl_Name c);
  cw_get ns name w c : lf_GetClaim ns name w = inr c → claims w !! (ns, name) = Some c;
  cw_missing ns name w err : lf_GetClaim ns name w = inl err → lf_IsNotFound err = true → claims w !! (ns, name) = None;
  cw_list ns uid w l : lf_ListOwnedClaims ns uid w = inr l →
    NoDup (cl_Name <$> l) ∧
    ∀ c, c ∈ l ↔ claims w !! (ns, cl_Name c) = Some c ∧ uid ∈ PVCOwnerRefVMUIDIndexerFunc c;
  cw_patch c c' w w' : lf_PatchClaim c c' w = (w', None) → claims w' = <[(cl_Namespace c, cl_Name c) := c']> (claims w);
  cw_failed c c' w w' err : lf_PatchClaim c c' w = (w', Some err) → claims w' = claims w;
  cw_retry f w w' err : lf_RetryOnConflict f w = (w', err) → ∃ w1, claims w1 = claims w ∧ f w1 = (w', err)
}.

Section Claims.
Context {W : Type} `{ClaimLaws W}.

(** A claim the VM owns and does not use; what is left of its owners. *)
Definition stale_claim (vm : LifeVM) (c : LifeClaim) : bool :=
  bool_decide (cl_Namespace c = lv_Namespace vm) && bool_decide (lv_UID vm ∈ PVCOwnerRefVMUIDIndexerFunc c) &&
  bool_decide (cl_Name c ∉ attachedClaimNames vm) && negb (bool_decide (is_Some (cl_Annotations c !! KeepOwnerRefAnnotationKey))).
Definition without_owner (vm : LifeVM) (c : LifeClaim) : LifeClaim :=
  set_cl_Owners (filter (λ ref, owned_by_vm vm ref = false) (cl_Owners c)) c.

Definition kept_claim (vm : LifeVM) (c : LifeClaim) : bool := bool_decide (is_Some (cl_Annotations c !! KeepOwnerRefAnnotationKey)).

Lemma not_owner vm c : existsb (owned_by_vm vm) (cl_Owners c) = false → without_owner vm c = c.
Proof.
  intros Ho. unfold without_owner. rewrite list_filter_all; [by destruct c|].
  intros ref Href. destruct (owned_by_vm vm ref) eqn:E; [|done]. exfalso.
  assert (existsb (owned_by_vm vm) (cl_Owners c) = true) by (apply existsb_exists; exists ref; split; [by apply list_elem_of_In|done]).
  congruence.
Qed.

Lemma remove_owner_claims vm c w w' :
  claims w !! (cl_Namespace c, cl_Name c) = Some c → removeVMOwnerRefFromPVC vm (cl_Namespace c) (cl_Name c) w = (w', None) →
  claims w' = <[(cl_Namespace c, cl_Name c) := if kept_claim vm c then c else without_owner vm c]> (claims w).
Proof.
  intros Hc (w1 & Hw1 & Hf)%cw_retry. rewrite <- Hw1 in Hc |- *. revert Hf. unfold remove_owner.
  destruct (lf_GetClaim _ _ w1) as [err|c'] eqn:Hg.
  { destruct (lf_IsNotFound err) eqn:Hn; [|done]. rewrite (cw_missing _ _ _ _ Hg Hn) in Hc. done. }
  apply cw_get in Hg. rewrite Hc in Hg. injection Hg as <-. unfold kept_claim. case_bool_decide.
  { intros [= <-]. by rewrite insert_id. }
  destruct (existsb _ _) eqn:Ho; [by apply cw_patch|]. intros [= <-]. by rewrite not_owner, insert_id.
Qed.
End Claims.

Section Release.
Context {W : Type} `{ClaimLaws W}.

Lemma remove_owners_errs vm pvcs errs (w : W) w' : remove_owners vm pvcs errs w = (w', []) → errs = [].
Proof.
  revert errs w. induction pvcs as [|c pvcs IH]; intros errs w; cbn; [by intros [= _ <-]|].
  case_bool_decide; [apply IH|]. destruct (removeVMOwnerRefFromPVC _ _ _ w) as [w1 [|]]; intros Hr%IH; [|done].
  by destruct errs.
Qed.

(** Every claim of the list is changed or left as it is to be, the others are
    left. *)
Lemma remove_owners_claims vm ns pvcs (w : W) w' :
  remove_owners vm pvcs [] w = (w', []) → NoDup (cl_Name <$> pvcs) →
  (∀ c, c ∈ pvcs → cl_Namespace c = ns ∧ claims w !! (ns, cl_Name c) = Some c) →
  (∀ c, c ∈ pvcs → claims w' !! (ns, cl_Name c) =
    Some (if bool_decide (cl_Name c ∈ attachedClaimNames vm) || kept_claim vm c then c else without_owner vm c)) ∧
  (∀ k, k ∉ (λ c, (ns, cl_Name c)) <$> pvcs → claims w' !! k = claims w !! k).
Proof.
  revert w. induction pvcs as [|c pvcs IH]; intros w Hrun Hnd Hin.
  { injection Hrun as <-. split; [set_solver|done]. }
  cbn in Hnd. apply NoDup_cons in Hnd as [Hfresh Hnd].
  destruct (Hin c (list_elem_of_here _ _)) as [Hns Hc].
  assert (∃ w1, remove_owners vm pvcs [] w1 = (w', []) ∧ claims w1 = <[(ns, cl_Name c) :=
    if bool_decide (cl_Name c ∈ attachedClaimNames vm) || kept_claim vm c then c else without_owner vm c]> (claims w))
    as (w1 & Hrun1 & Hw1).
  { cbn in Hrun. case_bool_decide; [exists w; by rewrite insert_id|].
    destruct (removeVMOwnerRefFromPVC _ _ _ w) as [w1 [|]] eqn:Hr; [by apply remove_owners_errs in Hrun|].
    exists w1. split; [done|]. rewrite <- Hns in Hc |- *. by apply remove_owner_claims. }
  assert (∀ x, x ∈ pvcs → (ns, cl_Name x) ≠ (ns, cl_Name c)) as Hne.
  { intros x Hx [= Heq]. apply Hfresh. rewrite <- Heq. by apply list_elem_of_fmap_2. }
  destruct (IH w1 Hrun1 Hnd) as [IH1 IH2].
  { intros x Hx. destruct (Hin x (list_elem_of_further _ _ _ Hx)). rewrite Hw1, lookup_insert_ne by (apply not_eq_sym; auto). done. }
  split.
  - intros x [->|Hx]%elem_of_cons; [|by apply IH1]. rewrite IH2; [by rewrite Hw1, lookup_insert_eq|].
    intros (y & Heq & Hy)%list_elem_of_fmap. by apply (Hne y Hy).
  - intros k Hk. cbn in Hk. rewrite elem_of_cons in Hk. rewrite IH2, Hw1 by tauto. apply lookup_insert_ne. intros <-. tauto.
Qed.

Lemma stale_claims_map vm (w : W) w' :
  RemoveStaleVMOwnerRefFromPVCs vm w = (w', None) →
  claims w' = (λ c, if stale_claim vm c then without_owner vm c else c) <$> claims w.
Proof.
  unfold RemoveStaleVMOwnerRefFromPVCs. destruct (lf_ListOwnedClaims _ _ w) as [|pvcs] eqn:Hl; [done|].
  apply cw_list in Hl as [Hnd Hl]. destruct (remove_owners vm pvcs [] w) as [w1 errs] eqn:Hrun.
  intros [= <- Hnone]. assert (errs = []) as -> by (destruct errs; [done|discriminate Hnone]).
  destruct (remove_owners_claims vm (lv_Namespace vm) pvcs w w1 Hrun Hnd) as [Hin Hout].
  { intros c Hc%Hl. destruct Hc as [Hc _]. split; [|done]. by apply cw_name in Hc as [= Hx]. }
  apply map_eq. intros k. rewrite lookup_fmap. destruct (claims w !! k) as [c|] eqn:Hk; cbn.
  2: { rewrite Hout; [done|]. intros (c & -> & Hc%Hl)%list_elem_of_fmap. destruct Hc. congruence. }
  pose proof (cw_name _ _ _ Hk) as Hname. subst k. unfold stale_claim.
  destruct (decide (cl_Namespace c = lv_Namespace vm ∧ lv_UID vm ∈ PVCOwnerRefVMUIDIndexerFunc c)) as [[Hns Huid]|Hno].
  - rewrite !(bool_decide_true _ Hns), !(bool_decide_true _ Huid), Hns. rewrite Hns in Hk. rewrite Hin by (by apply Hl).
    unfold kept_claim. destruct (bool_decide (is_Some _)); [by rewrite orb_true_r, andb_false_r|].
    rewrite orb_false_r, andb_true_r. cbn [andb]. do 2 case_bool_decide; done.
  - rewrite Hout.
    + rewrite Hk. destruct (bool_decide (cl_Namespace c = _)) eqn:E1, (bool_decide (lv_UID vm ∈ _)) eqn:E2; try done.
      apply bool_decide_eq_true in E1, E2. tauto.
    + intros (x & [= Hns Hx] & Hc%Hl)%list_elem_of_fmap. destruct Hc as [Hc Huid]. rewrite Hns, Hx in Hk.
      rewrite Hk in Hc. injection Hc as <-. tauto.
Qed.

(** C18: When the stale owner references of a VM are removed without an error, every
    claim in its namespace that it owns, that no volume of it uses and that is not
    to be kept loses exactly the references to this VM, by name and UID; every
    other claim and every other owner is as before. *)
Theorem stale_claims_released vm (w : W) w' :
  RemoveStaleVMOwnerRefFromPVCs vm w = (w', None) →
  claims w' = (λ c, if stale_claim vm c then without_owner vm c else c) <$> claims w.
Proof. apply stale_claims_map. Qed.
End Release.

(** ** Deletion *)

(** What is done after the provider does not bring a VM back, and leaves claims. *)
Class LifeLaws (W : Type) `{ClaimLaws W} `{ProviderPromise W} := {
  ll_patch c c' k w : vm_gone k w → vm_gone k (lf_PatchClaim c c' w).1;
  ll_retry f k w : (∀ w, vm_gone k w → vm_gone k (f w).1) → vm_gone k w → vm_gone k (lf_RetryOnConflict f w).1;
  ll_prober vm k w : vm_gone k w → vm_gone k (lf_RemoveFromProber vm w);
  ll_event vm op err b k w : vm_gone k w → vm_gone k (lf_EmitEvent vm op err b w);
  ll_warn vm op msg k w : vm_gone k w → vm_gone k (lf_Warn vm op msg w);
  ll_prober_claims vm w : claims (lf_RemoveFromProber vm w) = claims w;
  ll_event_claims vm op err b w : claims (lf_EmitEvent vm op err b w) = claims w;
  ll_warn_claims vm op msg w : claims (lf_Warn vm op msg w) = claims w
}.

Section Delete.
Context {W : Type} `{ErrorsLib} `{LifeLaws W}.
Implicit Types (cfg : LifeConfig) (vm : LifeVM) (w : W).

Lemma owners_gone vm pvcs errs k w : vm_gone k w → vm_gone k (remove_owners vm pvcs errs w).1.
Proof using Type*.
  revert errs w. induction pvcs as [|c pvcs IH]; intros errs w Hg; [done|]. cbn. case_bool_decide; [by apply IH|].
  assert (vm_gone k (removeVMOwnerRefFromPVC vm (cl_Namespace c) (cl_Name c) w).1) as Hr.
  { apply ll_retry; [|done]. intros w1 Hw1. unfold remove_owner. destruct (lf_GetClaim _ _ w1); [done|].
    case_match; [done|]. case_match; [by apply ll_patch|done]. }
  destruct (removeVMOwnerRefFromPVC _ _ _ w) as [w1 [|]]; by apply IH.
Qed.

Lemma same_attached vm vm' : same_life vm vm' → stale_claim vm' = stale_claim vm ∧ owned_by_vm vm' = owned_by_vm vm.
Proof using Type*.
  intros (Hns & Hn & Hu & Hv & _). unfold stale_claim, owned_by_vm, attachedClaimNames. by rewrite Hns, Hn, Hu, Hv.
Qed.

(** After the stale references are gone. *)
Definition released vm w : Prop :=
  ∀ k c, claims w !! k = Some c → stale_claim vm c = true → existsb (owned_by_vm vm) (cl_Owners c) = false.

Lemma without_owner_none vm c : existsb (owned_by_vm vm) (cl_Owners (without_owner vm c)) = false.
Proof using Type*.
  unfold without_owner. cbn. induction (cl_Owners c) as [|ref l IH]; [done|]. rewrite filter_cons.
  case_decide as E; [cbn; by rewrite E, IH|done].
Qed.

Lemma release_ok vm0 vm w w' vm' err k :
  same_life vm0 vm → release vm w = (w', vm', err) →
  match err with
  | Some _ => lv_Finalizers vm' = lv_Finalizers vm
  | None => released vm0 w' ∧ (vm_gone k w → vm_gone k w')
  end.
Proof using Type*.
  intros Hsame Hrel. destruct (same_attached _ _ Hsame) as [Hst Hown]. revert Hrel. unfold release.
  destruct (RemoveStaleVMOwnerRefFromPVCs vm w) as [w1 [e|]] eqn:Hr; [by intros [= <- <- <-]|].
  pose proof (stale_claims_map _ _ _ Hr) as Hc. intros [= <- <- <-]. split.
  - intros key c. rewrite ll_prober_claims, Hc, lookup_fmap, fmap_Some. intros (c0 & _ & ->). rewrite <- Hst, <- Hown.
    case_match eqn:Hs; [intros _; apply without_owner_none|congruence].
  - intros Hg. apply ll_prober. revert Hr. unfold RemoveStaleVMOwnerRefFromPVCs. destruct (lf_ListOwnedClaims _ _ w) as [|l]; [done|].
    pose proof (owners_gone vm l [] k w Hg) as Ho. destruct (remove_owners vm l [] w). by intros [= <- _].
Qed.

Lemma event_keeps vm op err b k w : vm_gone k w → vm_gone k (vm_EmitEvent vm op err b w).
Proof using Type*.
  intros Hg. unfold vm_EmitEvent. destruct err; [case_match|]; first [by apply ll_event|by apply ll_warn].
Qed.
Lemma event_claims vm op err b w : claims (vm_EmitEvent vm op err b w) = claims w.
Proof using Type*. unfold vm_EmitEvent. destruct err; [case_match|]; first [apply ll_event_claims|apply ll_warn_claims]. Qed.

End Delete.

(** ** Waiting for an image *)

Fixpoint no_sep (sep : Ascii.ascii) (s : string) : bool :=
  match s with EmptyString => true | String.String c s => negb (bool_decide (c = sep)) && no_sep sep s end.

Lemma string_app_cons x (a b : string) : String.String x a +:+ b = String.String x (a +:+ b).
Proof. done. Qed.
Lemma string_app_assoc (a b c : string) : (a +:+ b) +:+ c = a +:+ (b +:+ c).
Proof. induction a as [|x a IH]; [done|]. by rewrite !string_app_cons, IH. Qed.
Lemma string_app_nil (a : string) : a +:+ "" = a.
Proof. induction a as [|x a IH]; [done|]. by rewrite !string_app_cons, IH. Qed.

Lemma split_last sep s cur : no_sep sep s = true → split_at sep s cur = [cur +:+ s].
Proof.
  revert cur. induction s as [|c s IH]; intros cur; cbn [no_sep split_at]; [by rewrite string_app_nil|].
  rewrite andb_true_iff, negb_true_iff. intros [Hc Hs]. rewrite Hc, IH by done. by rewrite string_app_assoc.
Qed.
Lemma split_first sep s rest cur :
  no_sep sep s = true → split_at sep (s +:+ String.String sep rest) cur = (cur +:+ s) :: split_at sep rest "".
Proof.
  revert cur. induction s as [|c s IH]; intros cur.
  { change ("" +:+ String.String sep rest) with (String.String sep rest). cbn [split_at].
    by rewrite bool_decide_true, string_app_nil. }
  rewrite string_app_cons. cbn [no_sep split_at].
  rewrite andb_true_iff, negb_true_iff. intros [Hc Hs]. rewrite Hc, IH by done. by rewrite string_app_assoc.
Qed.
Lemma split_three a b c :
  no_sep comma a = true → no_sep comma b = true → no_sep comma c = true → Split (a +:+ "," +:+ b +:+ "," +:+ c) = [a; b; c].
Proof.
  intros Ha Hb Hc. unfold Split. change ("," +:+ b +:+ "," +:+ c) with (String.String comma (b +:+ String.String comma c)).
  rewrite split_first, split_first, split_last by done. done.
Qed.

Section Cache.
Context {W : Type} `{ErrorsLib} `{LifeAPI W}.

(** C20: A VM whose create found its image not cached waits for exactly the place
    that the error names: the place written in its annotation is read back, the VM
    goes on exactly when the cache object has it, ready, and then neither label nor
    annotation is left; until then nothing of the VM changes. *)
Theorem cache_wait_roundtrip cfg vm err now (w : W) msg name dc ds p vmic :
  As is_cache_not_ready err = Some (msg, name, dc, ds, p) → name ≠ "" → dc ≠ "" →
  no_sep comma dc = true → no_sep comma ds = true → no_sep comma p = true →
  lf_GetImageCache (lc_PodNamespace cfg) name w = inr vmic →
  IsTrue (ic_Conditions vmic) VirtualMachineImageCacheConditionHardwareReady = true →
  let '(vm1, waits) := WatchVMICacheIfNotReady now (Some err) vm in
  let '(vm2, ready) := isVMICacheReady cfg vm1 w in
  waits = true ∧
  (ready = true ↔ ∃ l, find_location dc ds p (ic_Locations vmic) = Some l ∧ IsTrue (cal_Conditions l) ReadyConditionType = true) ∧
  (ready = true → lv_Labels vm2 = delete VMICacheLabelKey (lv_Labels vm) ∧
     lv_Annotations vm2 = delete VMICacheLocationAnnotationKey (lv_Annotations vm)) ∧
  (ready = false → vm2 = vm1).
Proof.
  intros Herr Hname Hdc Hn1 Hn2 Hn3 Hget Hhw. unfold WatchVMICacheIfNotReady. cbn [mbind option_bind]. rewrite Herr.
  rewrite (bool_decide_false (dc = "")) by done. cbn [negb orb].
  set (loc := dc +:+ "," +:+ ds +:+ "," +:+ p).
  assert (loc ≠ "") as Hloc by (unfold loc; by destruct dc).
  unfold isVMICacheReady, lv_label, lv_annotation.
  cbn [lv_Labels lv_Annotations set_lv_Annotations set_lv_Conditions set_lv_Labels with_part lp_Labels lp_Annotations].
  rewrite !lookup_insert_eq. cbn [from_option id].
  rewrite (bool_decide_false (name = "")), Hget, Hhw, (bool_decide_false (loc = "")) by done.
  assert (Split loc = [dc; ds; p]) as -> by (by apply split_three). cbn [negb].
  destruct (find_location dc ds p (ic_Locations vmic)) as [l|]; [destruct (IsTrue (cal_Conditions l) ReadyConditionType) eqn:Hr|].
  all: split; [done|]; split; [split; [try done; eauto|intros (x & Hx & Hxr); congruence]|]; split; try done.
  intros _. unfold drop_wait, drop_label.
  cbn [lv_Labels lv_Annotations set_lv_Annotations set_lv_Conditions set_lv_Labels with_part lp_Labels lp_Annotations].
  by rewrite !delete_insert_eq.
Qed.
End Cache.
