(* ===== verification/LifeWitnesses.v ===== *)
(** * The life of a VM: a small world, and the results in it

    A vCenter with the names of its VMs and their power states, the state of one
    VM as it is fetched, an image cache and claims; every other call succeeds and
    changes nothing. *)

From S2P Require Import Prelude Conditions Hardware GoErrors VMGroup Volumes VMValidator PowerState AdmissionVM.
From S2P Require Import VMLifecycle VMController ProviderVM ProviderConcurrency ProviderResults VMLifeResults.
Local Open Scope Z_scope.

Record LifeWorld := mkLifeWorld {
  lw_Inventory : list string;
  lw_Power : gmap string string;
  lw_MO : ManagedVM;
  lw_Cache : ImageCache;
  lw_Claims : list LifeClaim
}.
Definition lw_set_inventory (l : list string) (w : LifeWorld) : LifeWorld :=
  mkLifeWorld l (lw_Power w) (lw_MO w) (lw_Cache w) (lw_Claims w).
Definition lw_set_power (k s : string) (w : LifeWorld) : LifeWorld :=
  mkLifeWorld (lw_Inventory w) (<[k := s]> (lw_Power w)) (lw_MO w) (lw_Cache w) (lw_Claims w).
Definition lw_power (k : string) (w : LifeWorld) : string := default PoweredOff (lw_Power w !! k).

#[local] Instance life_errors : ErrorsLib := {
  aggregate_unwraps := false; aggregate_Error _ := ""; Duration_String _ := ""
}.

(** ** vCenter *)

#[local] Instance life_power (k : string) : PowerState.VSphere LifeWorld goerror := {
  PowerState.Properties w := inr (lw_power k w, Some []);
  hard_op op w := (lw_set_power k (hard_target op) w, inr None);
  soft_op op w := (w, match op with RebootGuest => None | _ => Some (ErrorString "no tools") end);
  WaitForPowerState s w := if bool_decide (lw_power k w = s) then (w, None) else (w, Some (ErrorString "timeout", true));
  deadline_exceeded _ := false;
  PowerState.Reconfigure _ _ w := (w, inr (Some (ErrorString "no reconfigure")))
}.

#[local] Instance life_provider : ProviderAPI LifeWorld := {
  pa_Now _ := 5;
  pa_ParseTime _ := inr 3;
  pa_SyncGVK _ := None;
  pa_getVcClient _ := inr "vc-uuid";
  pa_getVM vm w := inr (bool_decide (lv_key vm ∈ lw_Inventory w));
  pa_Properties _ w := inr (lw_MO w);
  pa_RetrieveTasks _ _ := inr [];
  pa_CancelTask _ w := (w, None);
  pa_ListAttachedTags _ := None;
  pa_VSphere := life_power;
  pa_GetArgs _ vm w := (w, vm, inr (mkCreateArgs None false "zone-1"));
  pa_DoPlacement _ args vm w := (w, vm, inr args);
  pa_GetFolderAndRPMoIDs args vm w := (w, vm, inr args);
  pa_GetSourceFilePaths args vm w := (w, vm, inr args);
  pa_PathNameFromDatastore args vm w := (w, vm, inr args);
  pa_PathName args vm w := (w, vm, inr args);
  pa_FindClusterModuleUUID _ _ := "module";
  pa_CreateVirtualMachine _ _ vm w := (lw_set_inventory (lv_key vm :: lw_Inventory w) w, vm, inr "vm-1");
  pa_PatchStatus _ _ w := (w, None);
  pa_ReconcileStatus vm _ w := (w, vm, None);
  pa_SchemaUpgrade vm _ w := (w, vm, None);
  pa_DiskUUIDToPVC _ _ := None;
  pa_AdditionalResources _ _ := None;
  pa_Backup _ w := (w, None);
  pa_SnapshotRevert vm w := (w, vm, None);
  pa_CurrentSnapshot vm w := (w, vm, None);
  pa_WaitForCRV _ w := (w, None);
  pa_reconcileSuspendedVM vm _ w := (w, vm, None);
  pa_reconcileVMWithTask vm _ w := (w, vm, None);
  pa_reconcilePausedVM vm _ w := (w, vm, None);
  pa_reconcilePoweredVM vm _ w := (w, vm, Some (ErrorString "no space"));
  pa_GetZone _ _ _ := inr (mkZoneInfo "folder-1" ["pool-1"]);
  pa_GetAvailabilityZone _ _ := inr ∅;
  pa_PoolParent _ _ := inr None;
  pa_FolderParent _ _ := inr None;
  pa_ResourcePoolOwner _ _ := None;
  pa_Destroy vm w := (lw_set_inventory (remove_one (lv_key vm) (lw_Inventory w)) w, inr None);
  pa_CleanupVMServiceState _ w := (w, None)
}.

#[local] Instance life_inventory : InventoryLaws LifeWorld.
Proof.
  refine {| inventory := lw_Inventory |}; try done.
  - by intros vm w b [= <-].
  - intros cfg args vm w w' vm' res [= <- <- <-]. by left.
  - intros vm w w' res [= <- <-]. by left.
  - intros k p w. cbn. by case_bool_decide.
Defined.

#[local] Instance life_power_laws (k : string) : VSphereLaws LifeWorld goerror (H := pa_VSphere k).
Proof.
  refine {| vm_power := lw_power k; vm_extra := λ _, [] |}.
  - intros w ps cfg [= <- <-]. split; [done|]. by intros ec [= <-].
  - intros op w w' [= <-]. unfold lw_power. cbn. by rewrite lookup_insert_eq.
  - done.
  - intros s w w'. cbn. case_bool_decide; [|done]. by intros [= <-].
  - by intros w w' [= <-].
  - done.
Defined.

(** ** The API server *)

Definition claim_key (c : LifeClaim) : string * string := (cl_Namespace c, cl_Name c).
Definition lw_claims (w : LifeWorld) : gmap (string * string) LifeClaim :=
  list_to_map ((λ c, (claim_key c, c)) <$> lw_Claims w).
Definition owned_claims (ns uid : string) (w : LifeWorld) : list LifeClaim :=
  filter (λ c, cl_Namespace c = ns ∧ uid ∈ PVCOwnerRefVMUIDIndexerFunc c) (snd <$> map_to_list (lw_claims w)).

Definition not_found_err : goerror := ErrorString "not found".

#[local] Instance life_api : LifeAPI (ProviderState * LifeWorld) := {
  lf_Now _ := 5;
  lf_IsNotFound e := bool_decide (Error e = "not found");
  lf_GetVM _ _ _ := inl not_found_err;
  lf_NewHelper _ := None;
  lf_PatchVM _ _ w := (w, None);
  lf_ContainsFinalizer l f := bool_decide (f ∈ l);
  lf_AddFinalizer l f := l ++ [f];
  lf_RemoveFinalizer l f := filter (λ x, x ≠ f) l;
  lf_SyncStorageUsage _ _ w := w;
  lf_IsEncryptedStorageClass _ _ := inr false;
  lf_GetImageCache _ _ s := inr (lw_Cache s.2);
  lf_ListOwnedClaims ns uid s := inr (owned_claims ns uid s.2);
  lf_GetClaim ns name s := from_option inr (inl not_found_err) (lw_claims s.2 !! (ns, name));
  lf_PatchClaim c c' s :=
    if bool_decide (claim_key c' = claim_key c)
    then ((s.1, mkLifeWorld (lw_Inventory s.2) (lw_Power s.2) (lw_MO s.2) (lw_Cache s.2) (c' :: lw_Claims s.2)), None)
    else (s, Some (ErrorString "invalid"));
  lf_RetryOnConflict f s := f s;
  lf_AddToProber _ s := s;
  lf_RemoveFromProber _ s := s;
  lf_EmitEvent _ _ _ _ s := s;
  lf_Warn _ _ _ s := s;
  lf_GoHandleCreate _ s := s
}.

Lemma lw_claims_name w k c : lw_claims w !! k = Some c → k = claim_key c.
Proof.
  intros Hk%elem_of_list_to_map_2. apply list_elem_of_fmap in Hk as (x & Heq & _). by injection Heq as -> ->.
Qed.

Lemma owned_NoDup ns uid w : NoDup (cl_Name <$> owned_claims ns uid w).
Proof.
  unfold owned_claims. assert (∀ p, p ∈ map_to_list (lw_claims w) → p.1 = claim_key p.2) as Hk.
  { intros [k c] Hp%elem_of_map_to_list. by apply lw_claims_name in Hp. }
  pose proof (NoDup_fst_map_to_list (lw_claims w)) as Hnd. revert Hk Hnd.
  induction (map_to_list (lw_claims w)) as [|[k c] l IH]; intros Hk Hnd; [constructor|].
  cbn [fmap list_fmap fst snd] in *. apply NoDup_cons in Hnd as [Hfresh Hnd]. rewrite filter_cons.
  assert (∀ p, p ∈ l → p.1 = claim_key p.2) as Hl by (intros p Hp; apply Hk; by right).
  case_decide as Hc; [|by apply IH]. cbn. apply NoDup_cons. split; [|by apply IH].
  intros (x & Hx & Hin)%list_elem_of_fmap. apply list_elem_of_filter in Hin as [[Hns _] Hin].
  apply list_elem_of_fmap in Hin as ([k' c'] & -> & Hp). apply Hfresh. apply list_elem_of_fmap. exists (k', c').
  split; [|done]. pose proof (Hl _ Hp) as H1. pose proof (Hk _ (list_elem_of_here _ _)) as H2. cbn in *. subst.
  unfold claim_key. destruct Hc as [Hc _]. congruence.
Qed.

#[local] Instance life_claims : ClaimLaws (ProviderState * LifeWorld).
Proof.
  refine {| claims := λ s, lw_claims s.2 |}.
  - intros s k c Hk. by apply lw_claims_name in Hk.
  - intros ns name s c. cbn. destruct (lw_claims s.2 !! (ns, name)); cbn; [by intros [= ->]|done].
  - intros ns name s err. cbn. by destruct (lw_claims s.2 !! (ns, name)).
  - intros ns uid s l [= <-]. split; [apply owned_NoDup|]. intros c. unfold owned_claims.
    rewrite list_elem_of_filter, list_elem_of_fmap. split.
    + intros [[<- Hu] ([k c'] & -> & Hp)]. apply elem_of_map_to_list in Hp. pose proof (lw_claims_name _ _ _ Hp) as ->. done.
    + intros [Hc Hu]. pose proof (lw_claims_name _ _ _ Hc) as Hk. injection Hk as ->. split; [done|].
      exists (claim_key c, c). split; [done|]. by apply elem_of_map_to_list.
  - intros c c' s s'. cbn. case_bool_decide as Hk; [|done]. intros [= <-]. cbn. unfold lw_claims. cbn. by rewrite Hk.
  - intros c c' s s' err. cbn. case_bool_decide; [done|]. by intros [= <-].
  - intros f s s' err Hf. by exists s.
Defined.

#[local] Instance life_laws : LifeLaws (ProviderState * LifeWorld).
Proof.
  refine {| ll_retry := λ f k w Hf Hw, Hf w Hw |}; try done.
  intros c c' k s Hg. cbn. by case_bool_decide.
Defined.

(** ** A VM, its claims and its image *)

Definition life_cfg : LifeConfig := mkLifeConfig true true false true false false false false true true "direct" "system" 10 10 1.

Definition life_vm : LifeVM :=
  mkLifeVM "ns" "vm" "uid-1" ∅ ∅ [vm_finalizerName] true "gold" "class" [Some ("data", false)] VirtualMachinePowerStateOff
    "Hard" "Hard" "Hard" "" None None [] VirtualMachinePowerStateOn "zone-1" "" None None.
Definition other_vm : LifeVM :=
  mkLifeVM "ns" "other" "uid-2" ∅ ∅ [vm_finalizerName] false "gold" "class" [] VirtualMachinePowerStateOn
    "Hard" "Hard" "Hard" "" None None [] VirtualMachinePowerStateOn "zone-1" "" None None.

Definition life_mo (pool : string) : ManagedVM :=
  mkManagedVM true false "connected" PoweredOn PoweredOn (Some pool) (Some "folder-1") [].

Definition vm_owner : ClaimOwner := mkClaimOwner "vmoperator.vmware.com/v1alpha6" "VirtualMachine" "vm" "uid-1".
Definition other_owner : ClaimOwner := mkClaimOwner "vmoperator.vmware.com/v1alpha6" "VirtualMachine" "other" "uid-2".
Definition data_claim : LifeClaim := mkClaim "ns" "data" ∅ [vm_owner].
Definition old_claim : LifeClaim := mkClaim "ns" "old" ∅ [vm_owner; other_owner].

Definition life_cache : ImageCache :=
  mkImageCache [mkCondition VirtualMachineImageCacheConditionHardwareReady ConditionTrue 0 0 "" ""]
    [mkCacheLocation "dc-1" "ds-1" "" [mkCondition ReadyConditionType ConditionTrue 0 0 "" ""]].

Definition life_world (inv : list string) (pool : string) : LifeWorld :=
  mkLifeWorld inv {["ns/vm" := PoweredOn]} (life_mo pool) life_cache [data_claim; old_claim].
Definition idle_provider : ProviderState := mkProviderState ∅ 0 [].

(** ** The results *)

(** Two VMs at a limit of one: the second waits until the first has been created
    in the background. *)
Definition two_creates : list CreateLabel :=
  [Begin "a" true; Begin "b" false; FindMissing "a"; FindMissing "b"; Count "a"; Store "a"; Spawn "a"; AsyncBuild "a" true;
   AsyncUnstore "a"; AsyncUncount "a"; Count "b"; Build "b" true].

Lemma creates_bounded_witness :
  match create_run 1 two_creates idle_state with Some s => 0 ≤ cs_Count s ≤ 1 ∧ cs_Count s = creates_in_flight s | None => False end.
Proof.
  destruct (create_run 1 two_creates idle_state) as [s|] eqn:Hr.
  - destruct (creates_bounded 1 s) as (Hb & Hf & _); [by eapply create_run_rtc|]. by split.
  - vm_compute in Hr. discriminate Hr.
Defined.

Lemma created_once_witness :
  match create_run 1 two_creates idle_state with Some s => cs_Inventory s = ["b"; "a"] ∧ NoDup (cs_Inventory s) | None => False end.
Proof.
  destruct (create_run 1 two_creates idle_state) as [s|] eqn:Hr.
  - split; [by vm_compute in Hr; injection Hr as <-|].
    apply (created_once 1 s). by eapply create_run_rtc.
  - vm_compute in Hr. discriminate Hr.
Defined.

Definition creating : ProviderState := mkProviderState {["ns/other"]} 1 [mkAsyncCreate "ns/other" life_cfg
  (set_lv_Annotations {[ManagerID := "vc-uuid"]} other_vm) (mkCreateArgs None false "zone-1")].

Lemma life_create_step :
  system_step 1 (idle_provider, life_world ["ns/vm"] "pool-1") (creating, life_world ["ns/vm"] "pool-1").
Proof.
  eapply (step_create 1 true life_cfg other_vm); [reflexivity|]. vm_compute. reflexivity.
Defined.

Lemma provider_refines_steps_witness :
  ∃ s', rtc (create_steps 1) (set_inventory ["ns/vm"] idle_state) s' ∧ agrees (creating, life_world ["ns/vm"] "pool-1") s'.
Proof.
  apply (provider_refines_steps 1 (idle_provider, life_world ["ns/vm"] "pool-1")); [exact life_create_step|].
  split; try reflexivity; [by split|constructor].
Defined.

Lemma provider_accounts_witness : NoDup (as_Key <$> ps_Async creating) ∧ ps_CreateCount creating ≤ 1.
Proof.
  destruct (provider_accounts 1 (life_world ["ns/vm"] "pool-1") creating (life_world ["ns/vm"] "pool-1")) as (_ & Hb & Hnd & _).
  - apply NoDup_singleton.
  - eapply rtc_once, life_create_step.
  - by split.
Defined.

Lemma relocated_vm_only_reported_witness :
  ∃ vm' err, updateVirtualMachine life_cfg life_vm (life_world ["ns/vm"] "pool-9") = (life_world ["ns/vm"] "pool-9", vm', Some err) ∧
    GetReason (lv_Conditions vm') VirtualMachineLocationValid = "ResourcePoolMismatch".
Proof.
  destruct (relocated_vm_only_reported life_cfg life_vm (life_mo "pool-9") [] (life_world ["ns/vm"] "pool-9")
    (life_world ["ns/vm"] "pool-9") life_vm None false true) as [Hb _]; try reflexivity; [done|constructor|].
  destruct (Hb eq_refl) as (vm' & err & Hu & _ & _ & _ & Hr). by exists vm', err.
Defined.


Lemma stale_claims_released_witness :
  claims (RemoveStaleVMOwnerRefFromPVCs life_vm (idle_provider, life_world [] "pool-1")).1 !! ("ns", "data") = Some data_claim ∧
  claims (RemoveStaleVMOwnerRefFromPVCs life_vm (idle_provider, life_world [] "pool-1")).1 !! ("ns", "old") = Some (set_cl_Owners [other_owner] old_claim).
Proof.
  destruct (RemoveStaleVMOwnerRefFromPVCs life_vm _) as [s' err] eqn:Hr.
  assert (err = None) as -> by (vm_compute in Hr; by injection Hr as _ <-).
  rewrite (stale_claims_released _ _ _ Hr). split; vm_compute; reflexivity.
Defined.


Lemma cache_wait_roundtrip_witness :
  (isVMICacheReady life_cfg
     (WatchVMICacheIfNotReady 7 (Some (Wrapped "create" (VMICacheNotReadyError "" "img" "dc-1" "ds-1" ""))) other_vm).1
     (idle_provider, life_world [] "pool-1")).2 = true.
Proof.
  pose proof (cache_wait_roundtrip life_cfg other_vm (Wrapped "create" (VMICacheNotReadyError "" "img" "dc-1" "ds-1" "")) 7
    (idle_provider, life_world [] "pool-1") "" "img" "dc-1" "ds-1" "" life_cache) as Hw.
  destruct (WatchVMICacheIfNotReady _ _ _) as [vm1 waits]. cbn [fst].
  destruct (isVMICacheReady _ _ _) as [vm2 ready]. apply Hw; try done. by eexists.
Defined.
