(* ===== verification/Prober.v ===== *)
(** * Readiness probes

    pkg/prober: the manager with its list and queue (prober_manager.go), the
    readiness worker (worker/readiness_worker.go) and the three probes
    (probe/tcp.go, probe/heartbeat.go, probe/guestinfo.go).

    The delaying work queue of client-go is the class [WorkQueue], the API server,
    the provider, the network and regular expressions are [ProbeAPI].  The manager
    holds its lock during an operation; the queue hands an item to one worker at a
    time. *)

From S2P Require Import Prelude Hardware GoErrors VMGroup Volumes Conditions.
Local Open Scope Z_scope.
Local Open Scope go_scope.

(** ** Objects *)

(** [intstr.IntOrString]. *)
Inductive IntOrString := IntPort (n : Z) | StringPort (s : string) | OtherPort.

Record TCPSocketAction := mkTCPSocket { tcp_Port : IntOrString; tcp_Host : string }.
Record GuestInfoAction := mkGuestInfo { gi_Key : string; gi_Value : string }.

(** [pb_GuestHeartbeat] is the threshold. *)
Record ProbeSpec := mkProbeSpec {
  pb_TCPSocket : option TCPSocketAction;
  pb_GuestHeartbeat : option string;
  pb_GuestInfo : list GuestInfoAction;
  pb_TimeoutSeconds : Z;
  pb_PeriodSeconds : Z
}.

#[global] Instance IntOrString_dec : EqDecision IntOrString.
Proof. solve_decision. Defined.
#[global] Instance TCPSocketAction_dec : EqDecision TCPSocketAction.
Proof. solve_decision. Defined.
#[global] Instance GuestInfoAction_dec : EqDecision GuestInfoAction.
Proof. solve_decision. Defined.
#[global] Instance ProbeSpec_dec : EqDecision ProbeSpec.
Proof. solve_decision. Defined.

Record ProbeVM := mkProbeVM {
  pm_Namespace : string;
  pm_Name : string;
  pm_UID : string;
  pm_Deleting : bool;
  pm_Probe : option ProbeSpec;
  pm_PowerState : string;
  pm_Network : option (string * string);
  pm_Conditions : Conditions
}.
Definition set_pm_Conditions (l : Conditions) (vm : ProbeVM) : ProbeVM :=
  mkProbeVM (pm_Namespace vm) (pm_Name vm) (pm_UID vm) (pm_Deleting vm) (pm_Probe vm) (pm_PowerState vm) (pm_Network vm) l.
Definition pm_key (vm : ProbeVM) : string * string := (pm_Namespace vm, pm_Name vm).
Definition pm_NamespacedName (vm : ProbeVM) : string := pm_Namespace vm +:+ "/" +:+ pm_Name vm.

(** [probe.Result]. *)
Inductive ProbeResult := Failure | Unknown | Success.

(** A property that was read: an option value with a string, one with another value,
    which is formatted, or something else. *)
Inductive PropertyValue := StringOption (s : string) | PrintedOption (s : string) | NoOption.

Definition GreenHeartbeatStatus : string := "green".
Definition YellowHeartbeatStatus : string := "yellow".
Definition readyReason : string := "Ready".
Definition notReadyReason : string := "NotReady".
Definition unknownReason : string := "Unknown".
Definition defaultPeriodSeconds : Z := 10.
Definition defaultConnectTimeout : Z := 10.

(** ** Interfaces *)

Class WorkQueue (Q : Type) := {
  wq_Add : string * string → Q → Q;
  (** the seconds *)
  wq_AddAfter : string * string → Z → Q → Q;
  (** [None]: the queue was shut down *)
  wq_Get : Q → Q * option (string * string);
  wq_Done : string * string → Q → Q
}.

Class ProbeAPI (W : Type) := {
  pr_Now : W → Z;
  pr_IsNotFound : goerror → bool;
  pr_GetVM : string → string → W → goerror + ProbeVM;
  pr_NewHelper : ProbeVM → option goerror;
  (** with Ready as an owned condition *)
  pr_Patch : ProbeVM → ProbeVM → W → W * option goerror;
  pr_Eventf : ProbeVM → string → string → W → W;
  pr_GuestHeartbeat : ProbeVM → W → goerror + string;
  pr_Properties : ProbeVM → list string → W → goerror + gmap string PropertyValue;
  (** [regexp.Compile] with [MatchString] *)
  pr_Compile : string → option (string → bool);
  pr_Dial : string → Z → Z → W → option goerror
}.

(** [reflect.DeepEqual] at a probe spec and at a pointer to one: values of different
    types are different. *)
Inductive ProbeValue := SpecValue (p : ProbeSpec) | SpecPointer (p : option ProbeSpec).
Definition DeepEqual (a b : ProbeValue) : bool :=
  match a, b with
  | SpecValue p, SpecValue q => bool_decide (p = q)
  | SpecPointer p, SpecPointer q => bool_decide (p = q)
  | _, _ => false
  end.

(** Whether a probe has an action. *)
Definition has_action (p : ProbeSpec) : bool :=
  bool_decide (is_Some (pb_TCPSocket p)) || bool_decide (is_Some (pb_GuestHeartbeat p)) ||
  negb (bool_decide (length (pb_GuestInfo p) = 0%nat)).

Section Prober.
Context {W Q : Type} `{ErrorsLib} `{WorkQueue Q} `{ProbeAPI W}.
Implicit Types (vm : ProbeVM) (w : W) (q : Q).

(** ** The probes *)

Definition findPort vm (portName : IntOrString) : goerror + Z :=
  match portName with
  | IntPort n => inr n
  | _ => inl (ErrorString ("no suitable port for manifest: " +:+ pm_UID vm))
  end.

(** [None]: the VM has no address. *)
Definition tcp_address vm (s : TCPSocketAction) : option string :=
  let ip :=
    if bool_decide (tcp_Host s = "") then
      match pm_Network vm with
      | Some (ip4, ip6) => if bool_decide (ip4 = "") then ip6 else ip4
      | None => ""
      end
    else tcp_Host s in
  if bool_decide (ip = "") then None else Some ip.

Definition tcp_Probe vm (p : ProbeSpec) (s : TCPSocketAction) w : ProbeResult * option goerror :=
  match findPort vm (tcp_Port s) with
  | inl err => (Failure, Some err)
  | inr portNum =>
    match tcp_address vm s with
    | None => (Failure, Some (ErrorString ("VM " +:+ pm_NamespacedName vm +:+ " doesn't have an IP assigned")))
    | Some ip =>
      let timeout := if pb_TimeoutSeconds p <=? 0 then defaultConnectTimeout else pb_TimeoutSeconds p in
      match pr_Dial ip portNum timeout w with
      | Some err => (Failure, Some err)
      | None => (Success, None)
      end
    end
  end.

Definition heartbeatValue (value : string) : Z :=
  if bool_decide (value = GreenHeartbeatStatus) then 1
  else if bool_decide (value = YellowHeartbeatStatus) then 0
  else -1.

Definition heartbeat_Probe vm (threshold : string) w : ProbeResult * option goerror :=
  match pr_GuestHeartbeat vm w with
  | inl err => (Unknown, Some err)
  | inr heartbeat =>
    if bool_decide (heartbeat = "") then (Unknown, Some (ErrorString "no heartbeat value"))
    else if heartbeatValue heartbeat <? heartbeatValue threshold
    then (Failure, Some (ErrorString ("heartbeat status " +:+ heartbeat +:+ " is below threshold")))
    else (Success, None)
  end.

Definition double_quote : string := String.String (Ascii.ascii_of_N 34) EmptyString.
Definition property_path (key : string) : string :=
  "config.extraConfig[" +:+ double_quote +:+ "guestinfo." +:+ key +:+ double_quote +:+ "]".

(** The expressions by path: of two for a key the last. *)
Definition propertyKeyVals (l : list GuestInfoAction) : gmap string string :=
  foldl (λ m gi, <[property_path (gi_Key gi) := gi_Value gi]> m) ∅ l.

Definition property_matches (expected : string) (val : PropertyValue) : bool :=
  if bool_decide (expected = "") then true
  else match pr_Compile expected with
  | None => true
  | Some rx => match val with StringOption s | PrintedOption s => rx s | NoOption => false end
  end.

Fixpoint check_properties (keyVals : gmap string string) (results : gmap string PropertyValue) (paths : list string) :
    ProbeResult :=
  match paths with
  | [] => Success
  | key :: paths =>
    match results !! key with
    | None => Failure
    | Some val =>
      if property_matches (default "" (keyVals !! key)) val then check_properties keyVals results paths else Failure
    end
  end.

Definition guestinfo_Probe vm (l : list GuestInfoAction) w : ProbeResult * option goerror :=
  match l with
  | [] => (Unknown, None)
  | _ =>
    let propertyPaths := (λ gi, property_path (gi_Key gi)) <$> l in
    match pr_Properties vm propertyPaths w with
    | inl err => (Unknown, Some err)
    | inr results => (check_properties (propertyKeyVals l) results propertyPaths, None)
    end
  end.

(** ** The worker *)

(** [getProbe] and [runProbe]. *)
Definition runProbe vm w : ProbeResult * option goerror :=
  let unknown :=
    (Unknown, Some (ErrorString ("unknown action specified for VM " +:+ pm_NamespacedName vm +:+ " readiness probe"))) in
  match pm_Probe vm with
  | None => unknown
  | Some p =>
    match pb_TCPSocket p, pb_GuestHeartbeat p, pb_GuestInfo p with
    | Some s, _, _ => tcp_Probe vm p s w
    | None, Some threshold, _ => heartbeat_Probe vm threshold w
    | None, None, [] => unknown
    | None, None, l => guestinfo_Probe vm l w
    end
  end.

Definition getCondition (res : ProbeResult) (err : option goerror) : Condition :=
  let msg := match err with Some e => Error e | None => "" end in
  match res with
  | Success => TrueCondition ReadyConditionType
  | Failure => FalseCondition ReadyConditionType notReadyReason msg
  | Unknown => UnknownCondition ReadyConditionType unknownReason msg
  end.

Definition ProcessProbeResult vm (res : ProbeResult) (resErr : option goerror) w : W * ProbeVM * option goerror :=
  let c := getCondition res resErr in
  let changed := match Conditions.Get (pm_Conditions vm) (c_Type c) with
                 | None => true
                 | Some old => negb (bool_decide (c_Status old = c_Status c))
                 end in
  let w :=
    if changed then
      if bool_decide (c_Status c = ConditionTrue) then pr_Eventf vm readyReason "" w
      else pr_Eventf vm (c_Reason c) (c_Message c) w
    else w in
  let vm' := set_pm_Conditions (Conditions.Set_ (pr_Now w) (pm_Conditions vm) (Some c)) vm in
  match pr_Patch vm vm' w with
  | (w, Some err) => (w, vm', Some (Wrapped "patched failed" err))
  | (w, None) => (w, vm', None)
  end.

Definition DoProbe vm w : W * ProbeVM * option goerror :=
  let '(res, err) := runProbe vm w in ProcessProbeResult vm res err w.

(** The period of a probe, [None] if there is none or it has no action; a VM without
    a probe is a nil pointer that is followed. *)
Definition CreateProbeContext vm : outcome goerror (option Z) :=
  match pm_Probe vm with
  | None => Panic
  | Some p =>
    if negb (has_action p) then Ok None
    else match pr_NewHelper vm with
    | Some err => Err err
    | None => Ok (Some (pb_PeriodSeconds p))
    end
  end.

(** ** The manager *)

Record ProbeManager := mkProbeManager { vmReadinessProbeList : gmap string ProbeSpec; readinessQueue : Q }.
Definition set_queue (m : ProbeManager) (q : Q) : ProbeManager := mkProbeManager (vmReadinessProbeList m) q.

Definition AddToProberManager vm (m : ProbeManager) : ProbeManager :=
  let vmName := pm_NamespacedName vm in
  match pm_Probe vm with
  | Some p =>
    if has_action p then
      if match vmReadinessProbeList m !! vmName with
         | Some oldProbe => DeepEqual (SpecValue oldProbe) (SpecPointer (pm_Probe vm))
         | None => false
         end
      then m
      else mkProbeManager (<[vmName := p]> (vmReadinessProbeList m)) (wq_Add (pm_key vm) (readinessQueue m))
    else mkProbeManager (delete vmName (vmReadinessProbeList m)) (readinessQueue m)
  | None => mkProbeManager (delete vmName (vmReadinessProbeList m)) (readinessQueue m)
  end.

Definition RemoveFromProberManager vm (m : ProbeManager) : ProbeManager :=
  mkProbeManager (delete (pm_NamespacedName vm) (vmReadinessProbeList m)) (readinessQueue m).

Definition processVMProbe vm w : W * ProbeVM * option goerror :=
  if negb (bool_decide (pm_PowerState vm = VirtualMachinePowerStateOn))
  then ProcessProbeResult vm Failure (Some (ErrorString "virtual machine is not powered on")) w
  else DoProbe vm w.

Definition addItemToQueue (q : Q) (period : Z) (item : string * string) (immediate : bool) : Q :=
  if immediate then wq_Add item q
  else wq_AddAfter item (if period <=? 0 then defaultPeriodSeconds else period) q.

(** Whether the worker ends. *)
Definition processItemFromQueue (m : ProbeManager) w : outcome goerror (bool * ProbeManager * W) :=
  match wq_Get (readinessQueue m) with
  | (q, None) => Ok (true, set_queue m q, w)
  | (q, Some item) =>
    let return_with := λ q w, Ok (false, set_queue m (wq_Done item q), w) in
    match pr_GetVM item.1 item.2 w with
    | inl err => return_with (if pr_IsNotFound err then q else wq_Add item q) w
    | inr vm =>
      match CreateProbeContext vm with
      | Panic => Panic
      | Err _ | Ok None => return_with q w
      | Ok (Some period) =>
        if pm_Deleting vm then return_with q w
        else
          let '(w, _, err) := processVMProbe vm w in
          return_with (addItemToQueue q period item (bool_decide (is_Some err))) w
      end
    end
  end.
End Prober.
Arguments ProbeManager : clear implicits.

(** * Readiness probes: what they report, and that they go on

    A probe that runs once runs until its VM is deleted or loses its actions; what
    it found is the Ready condition; a VM that loses its probe ends the worker. *)

(** ** What the prober relies on *)

(** The items that are queued, wait for their time or are to be queued again when
    they are done. *)
Class QueueLaws (Q : Type) `{WorkQueue Q} := {
  scheduled : Q → gset (string * string);
  ql_add k q : scheduled (wq_Add k q) = {[k]} ∪ scheduled q;
  ql_after k d q : scheduled (wq_AddAfter k d q) = {[k]} ∪ scheduled q;
  ql_get q q' k : wq_Get q = (q', Some k) → scheduled q ∖ {[k]} ⊆ scheduled q';
  ql_stop q q' : wq_Get q = (q', None) → scheduled q' = scheduled q;
  ql_done k q : scheduled (wq_Done k q) = scheduled q
}.

(** A VM the workers go on to probe: it is there, not deleted, and its probe has an
    action; reading it may fail for now. *)
Definition watched {W} `{ProbeAPI W} (k : string * string) (w : W) : Prop :=
  match pr_GetVM k.1 k.2 w with
  | inl err => pr_IsNotFound err = false
  | inr vm => pm_Deleting vm = false ∧ pr_NewHelper vm = None ∧ ∃ p, pm_Probe vm = Some p ∧ has_action p = true
  end.

(** Status and events do not change specs. *)
Class ProbeLaws (W : Type) `{ProbeAPI W} := {
  pl_patch vm vm' k w : watched k w → watched k (pr_Patch vm vm' w).1;
  pl_event vm r m k w : watched k w → watched k (pr_Eventf vm r m w)
}.

Lemma add_scheduled {Q} `{QueueLaws Q} vm (m : ProbeManager Q) : scheduled (readinessQueue m) ⊆ scheduled (readinessQueue (AddToProberManager vm m)).
Proof.
  unfold AddToProberManager. destruct (pm_Probe vm) as [p|]; [|done]. case_match; [|done]. case_match; [done|].
  cbn. rewrite ql_add. set_solver.
Qed.

Section Results.
Context {W Q : Type} `{ErrorsLib} `{QueueLaws Q} `{ProbeLaws W}.
Implicit Types (m : ProbeManager Q) (w : W).

(** The operations of the manager in any order, and anything else that leaves the
    VM [k] watched. *)
Inductive prober_step (k : string * string) : ProbeManager Q * W → ProbeManager Q * W → Prop :=
  | step_add vm m w : prober_step k (m, w) (AddToProberManager vm m, w)
  | step_remove vm m w : prober_step k (m, w) (RemoveFromProberManager vm m, w)
  | step_work m w quit m' w' : processItemFromQueue m w = Ok (quit, m', w') → prober_step k (m, w) (m', w')
  | step_other m w w' : watched k w' → prober_step k (m, w) (m, w').

Lemma process_result_watched vm res err k w : watched k w → watched k (ProcessProbeResult vm res err w).1.1.
Proof using Type*.
  intros Hk. unfold ProcessProbeResult.
  match goal with |- context [pr_Patch ?a ?b ?w0] =>
    assert (watched k w0) as Hw; [|pose proof (pl_patch a b k w0 Hw) as Hp; destruct (pr_Patch a b w0) as [w1 [|]]; exact Hp] end.
  repeat case_match; auto using pl_event.
Qed.

Lemma probe_watched vm k w : watched k w → watched k (processVMProbe vm w).1.1.
Proof using Type*.
  intros Hk. unfold processVMProbe, DoProbe. case_match; [by apply process_result_watched|].
  destruct (runProbe vm w). by apply process_result_watched.
Qed.

Lemma work_scheduled k m w quit m' w' :
  processItemFromQueue m w = Ok (quit, m', w') → watched k w → k ∈ scheduled (readinessQueue m) →
  watched k w' ∧ k ∈ scheduled (readinessQueue m').
Proof using Type*.
  unfold processItemFromQueue. intros Hp Hw Hk.
  destruct (wq_Get (readinessQueue m)) as [q [item|]] eqn:Hg.
  2: { injection Hp as <- <- <-. cbn. by rewrite (ql_stop _ _ Hg). }
  pose proof (ql_get _ _ _ Hg) as Hsub.
  assert (∀ q1, (item = k → k ∈ scheduled q1) → scheduled q ⊆ scheduled q1 → k ∈ scheduled (wq_Done item q1)) as Hdone.
  { intros q1 Hown Hq1. rewrite ql_done. destruct (decide (item = k)); set_solver. }
  destruct (pr_GetVM item.1 item.2 w) as [err|vm] eqn:Hget.
  - injection Hp as <- <- <-. split; [done|]. cbn. apply Hdone.
    + intros ->. unfold watched in Hw. rewrite Hget in Hw. rewrite Hw, ql_add. set_solver.
    + case_match; [done|]. rewrite ql_add. set_solver.
  - destruct (CreateProbeContext vm) as [[period|]|err|] eqn:Hc; [|injection Hp as <- <- <-|injection Hp as <- <- <-|done].
    2,3: split; [done|]; cbn; apply Hdone; [|done]; intros ->; exfalso; unfold watched in Hw; rewrite Hget in Hw;
      destruct Hw as (_ & Hh & p & Hpr & Ha); unfold CreateProbeContext in Hc; by rewrite Hpr, Ha, Hh in Hc.
    destruct (pm_Deleting vm) eqn:Hdel.
    + injection Hp as <- <- <-. split; [done|]. cbn. apply Hdone; [|done]. intros ->. exfalso.
      unfold watched in Hw. rewrite Hget in Hw. destruct Hw. congruence.
    + pose proof (probe_watched vm k w Hw) as Hw1. destruct (processVMProbe vm w) as [[w1 vm1] e]. injection Hp as <- <- <-.
      split; [done|]. cbn. unfold addItemToQueue. apply Hdone; case_match; rewrite ?ql_add, ?ql_after; set_solver.
Qed.


(** ** What is reported *)

Definition probe_status (r : ProbeResult) : ConditionStatus :=
  match r with Success => ConditionTrue | Failure => ConditionFalse | Unknown => ConditionUnknown end.

(** What a probe of the VM finds; a VM that is not on is not ready. *)
Definition found vm w : ProbeResult :=
  if bool_decide (pm_PowerState vm = VirtualMachinePowerStateOn) then (runProbe vm w).1 else Failure.

Lemma condition_status r err : c_Status (getCondition r err) = probe_status r ∧ c_Type (getCondition r err) = ReadyConditionType.
Proof using Type. by destruct r. Qed.

Lemma probe_writes vm w w' vm' err :
  processVMProbe vm w = (w', vm', err) →
  ∃ now c, c_Type c = ReadyConditionType ∧ c_Status c = probe_status (found vm w) ∧
    vm' = set_pm_Conditions (Set_ now (pm_Conditions vm) (Some c)) vm.
Proof using Type.
  intros Hp.
  assert (∃ res e, ProcessProbeResult vm res e w = (w', vm', err) ∧ res = found vm w) as (res & e & Hres & <-).
  { unfold processVMProbe, DoProbe, found in *. case_bool_decide; cbn [negb] in Hp; [|by eexists _, _].
    destruct (runProbe vm w) as [r e]. by eexists _, _. }
  clear Hp. revert Hres. unfold ProcessProbeResult.
  match goal with |- context [pr_Patch ?a ?b ?w0] => destruct (pr_Patch a b w0) as [w1 pe]; set (w2 := w0) in * end.
  destruct (condition_status res e) as [Hst Hty]. exists (pr_Now w2), (getCondition res e). split_and!; [done..|].
  destruct pe; by simplify_eq.
Qed.


(** ** A probe that is removed *)

(** C23: A VM whose probe is removed while it is scheduled makes the worker that gets it
    panic: removing the probe leaves the item in the queue, and the worker follows
    the nil pointer. *)
Theorem removed_probe_panics vm vm' p m :
  pm_Probe vm = Some p → has_action p = true → pm_Probe vm' = None → pm_key vm' = pm_key vm →
  let m' := AddToProberManager vm' (AddToProberManager vm m) in
  pm_key vm ∈ scheduled (readinessQueue m') ∧
  ∀ q w, wq_Get (readinessQueue m') = (q, Some (pm_key vm)) → pr_GetVM (pm_Namespace vm) (pm_Name vm) w = inr vm' →
    processItemFromQueue m' w = Panic.
Proof using Type*.
  intros Hp Ha Hno Hkey m'. split.
  - apply add_scheduled. unfold AddToProberManager. rewrite Hp, Ha. case_match; [|cbn; rewrite ql_add; set_solver].
    by case_match.
  - intros q w Hg Hget. unfold processItemFromQueue. rewrite Hg. cbn [pm_key fst snd]. rewrite Hget.
    unfold CreateProbeContext. by rewrite Hno.
Qed.

(** A VM is queued at every reconciliation, its probe changed or not. *)
Lemma unchanged_probe_queued vm p m :
  pm_Probe vm = Some p → has_action p = true → vmReadinessProbeList m !! pm_NamespacedName vm = Some p →
  readinessQueue (AddToProberManager vm m) = wq_Add (pm_key vm) (readinessQueue m).
Proof using Type. intros Hp Ha Hl. unfold AddToProberManager. by rewrite Hp, Ha, Hl. Qed.

(** ** GuestInfo *)

Lemma key_vals_last l1 gi l2 :
  (∀ x, x ∈ l2 → property_path (gi_Key x) ≠ property_path (gi_Key gi)) →
  propertyKeyVals (l1 ++ gi :: l2) !! property_path (gi_Key gi) = Some (gi_Value gi).
Proof using Type.
  intros Hl. unfold propertyKeyVals. rewrite foldl_app. cbn [foldl].
  assert (∀ m : gmap string string, m !! property_path (gi_Key gi) = Some (gi_Value gi) →
    foldl (λ (m : gmap string string) gi, <[property_path (gi_Key gi) := gi_Value gi]> m) m l2 !! property_path (gi_Key gi) = Some (gi_Value gi)) as Hgo.
  { induction l2 as [|x l2 IH]; intros m0 Hm; [done|]. cbn. apply IH; [intros y Hy; by apply Hl, list_elem_of_further|].
    rewrite lookup_insert_ne; [done|]. apply Hl. left. }
  apply Hgo. apply lookup_insert_eq.
Qed.

Lemma check_properties_success keyVals results paths :
  check_properties keyVals results paths = Success ↔
  ∀ k, k ∈ paths → ∃ val, results !! k = Some val ∧ property_matches (default "" (keyVals !! k)) val = true.
Proof using Type*.
  induction paths as [|k paths IH]; [by split; [intros _ ? ?%elem_of_nil|]|]. cbn.
  destruct (results !! k) as [val|] eqn:Hr.
  - destruct (property_matches _ val) eqn:Hm.
    + rewrite IH. split; [|set_solver]. intros Hall k' [->|Hk]%elem_of_cons; eauto.
    + split; [done|]. intros Hall. destruct (Hall k) as (v & Hv & Hx); [left|]. congruence.
  - split; [done|]. intros Hall. destruct (Hall k) as (v & Hv & _); [left|]. congruence.
Qed.

(** With a key in it at most once, a GuestInfo probe succeeds exactly if every key
    is there and its value matches the expression, one that is empty or not valid
    matching everything; of expressions for the same key only the last is looked at. *)
Theorem guest_info_exact vm l w results :
  l ≠ [] → pr_Properties vm ((λ gi, property_path (gi_Key gi)) <$> l) w = inr results →
  NoDup ((λ gi, property_path (gi_Key gi)) <$> l) →
  guestinfo_Probe vm l w = (Success, None) ↔
  ∀ gi, gi ∈ l → ∃ val, results !! property_path (gi_Key gi) = Some val ∧ property_matches (gi_Value gi) val = true.
Proof using Type*.
  intros Hl Hp Hnd. unfold guestinfo_Probe. rewrite Hp. destruct l as [|g l0] eqn:El; [done|]. rewrite <- El in *. clear Hl El.
  assert (∀ gi, gi ∈ l → propertyKeyVals l !! property_path (gi_Key gi) = Some (gi_Value gi)) as Hvals.
  { intros gi (l1 & l2 & ->)%list_elem_of_split. apply key_vals_last. intros x Hx Heq.
    rewrite fmap_app, NoDup_app in Hnd. destruct Hnd as (_ & _ & Hnd). cbn in Hnd. apply NoDup_cons in Hnd as [Hfresh _].
    apply Hfresh. rewrite <- Heq. by apply (list_elem_of_fmap_2 (λ gi, property_path (gi_Key gi))). }
  assert (∀ r : ProbeResult, (r, @None goerror) = (Success, None) ↔ r = Success) as Hpair by (intros; naive_solver).
  rewrite Hpair, check_properties_success. split.
  - intros Hall gi Hgi. destruct (Hall (property_path (gi_Key gi))) as (val & Hv & Hm).
    + by apply (list_elem_of_fmap_2 (λ gi, property_path (gi_Key gi))).
    + rewrite Hvals in Hm by done. eauto.
  - intros Hall k (gi & -> & Hgi)%list_elem_of_fmap. rewrite Hvals by done. by apply Hall.
Qed.
End Results.

(** ** A small world *)

Abbreviation SmallQueue := (list (string * string)).
Abbreviation SmallWorld := (gmap (string * string) ProbeVM).

#[local] Instance small_errors : ErrorsLib := {
  aggregate_unwraps := false; aggregate_Error _ := ""; Duration_String _ := ""
}.

#[local] Instance small_queue : WorkQueue SmallQueue := {
  wq_Add k q := q ++ [k];
  wq_AddAfter k _ q := q ++ [k];
  wq_Get q := match q with [] => ([], None) | k :: q => (q, Some k) end;
  wq_Done _ q := q
}.
#[local] Instance small_queue_laws : QueueLaws SmallQueue.
Proof.
  refine {| scheduled := λ q : SmallQueue, list_to_set q |}; try done.
  1,2: intros; cbn; rewrite list_to_set_app_L; set_solver.
  - intros [|x q] q' k; [done|]. intros [= <- <-]. set_solver.
  - intros [|x q] q'; [by intros [= <-]|done].
Defined.

#[local] Instance small_api : ProbeAPI SmallWorld := {
  pr_Now _ := 5;
  pr_IsNotFound _ := true;
  pr_GetVM ns name w := from_option inr (inl (ErrorString "not found")) (w !! (ns, name));
  pr_NewHelper _ := None;
  pr_Patch vm vm' w := (alter (set_pm_Conditions (pm_Conditions vm')) (pm_key vm) w, None);
  pr_Eventf _ _ _ w := w;
  pr_GuestHeartbeat _ _ := inr YellowHeartbeatStatus;
  pr_Properties _ _ _ := inr {[property_path "ready" := StringOption "yes"]};
  pr_Compile s := Some (λ v, bool_decide (v = s));
  pr_Dial _ _ _ _ := None
}.
#[local] Instance small_laws : ProbeLaws SmallWorld.
Proof.
  split; [|done]. intros vm vm' [ns name] w. unfold watched. cbn [pr_GetVM small_api pr_Patch fst snd pr_NewHelper].
  destruct (decide (pm_key vm = (ns, name))) as [->|Hne].
  - rewrite lookup_alter_eq. by destruct (w !! (ns, name)).
  - by rewrite lookup_alter_ne.
Defined.

Definition heartbeat_probe : ProbeSpec := mkProbeSpec None (Some GreenHeartbeatStatus) [] 0 0.
Definition small_vm (p : option ProbeSpec) : ProbeVM :=
  mkProbeVM "ns" "vm" "uid" false p VirtualMachinePowerStateOn None [].
Definition empty_manager : ProbeManager SmallQueue := mkProbeManager ∅ [].



Lemma removed_probe_panics_witness :
  processItemFromQueue (AddToProberManager (small_vm None) (AddToProberManager (small_vm (Some heartbeat_probe)) empty_manager))
    ({[("ns", "vm") := small_vm None]} : SmallWorld) = Panic.
Proof.
  eapply (removed_probe_panics (small_vm (Some heartbeat_probe)) (small_vm None) heartbeat_probe); reflexivity.
Defined.

Lemma guest_info_exact_witness :
  guestinfo_Probe (small_vm None) [mkGuestInfo "ready" "yes"] (∅ : SmallWorld) = (Success, None).
Proof.
  eapply (guest_info_exact (small_vm None) [mkGuestInfo "ready" "yes"] (∅ : SmallWorld)); [done|reflexivity|apply NoDup_singleton|].
  intros gi ->%list_elem_of_singleton. exists (StringOption "yes"). split; reflexivity.
Defined.
