(* ===== verification/Endpoints.v ===== *)
(** * Endpoints in canonical form

    controllers/virtualmachineservice/utils/endpoints.go: [RepackSubsets] turns
    subsets of endpoints into the layout that objects are compared in: for every set
    of addresses one subset with the ports that offer it, in an order that hashes
    determine.

    MD5 of what go-spew prints is the class [DeepHash]; the order in which Go ranges
    over a map is the class [GoRange].  Of the objects, the fields that the
    controller sets. *)

From S2P Require Import Prelude.
Local Open Scope Z_scope.

(** ** Objects *)

Record ObjectReference := mkObjectReference {
  obj_APIVersion : string;
  obj_Kind : string;
  obj_Namespace : string;
  obj_Name : string;
  obj_UID : string
}.
Record EndpointAddress := mkEndpointAddress { ea_IP : string; ea_TargetRef : option ObjectReference }.
Record EndpointPort := mkEndpointPort { ep_Name : string; ep_Port : Z; ep_Protocol : string }.
Record EndpointSubset := mkEndpointSubset {
  es_Addresses : list EndpointAddress;
  es_NotReadyAddresses : list EndpointAddress;
  es_Ports : list EndpointPort
}.

#[global] Instance ObjectReference_dec : EqDecision ObjectReference.
Proof. solve_decision. Defined.
#[global] Instance EndpointAddress_dec : EqDecision EndpointAddress.
Proof. solve_decision. Defined.
#[global] Instance EndpointPort_dec : EqDecision EndpointPort.
Proof. solve_decision. Defined.
#[global] Instance EndpointSubset_dec : EqDecision EndpointSubset.
Proof. solve_decision. Defined.
#[global] Program Instance EndpointPort_countable : Countable EndpointPort :=
  inj_countable' (λ p, (ep_Name p, ep_Port p, ep_Protocol p)) (λ t, mkEndpointPort t.1.1 t.1.2 t.2) _.
Next Obligation. by intros []. Qed.

(** IP and UID. *)
Abbreviation addressKey := (string * string)%type.

(** A pointer to an address is the key under which it was registered. *)
Abbreviation addressSet := (gmap addressKey bool).

(** ** Interfaces *)

(** What is hashed. *)
Inductive Hashed := HashAddresses (l : list (EndpointAddress * bool)) | HashPort (p : EndpointPort) | HashSubset (s : EndpointSubset).
Class DeepHash := { DeepHashObject : Hashed → string }.

Class GoRange := {
  go_range {K A} `{Countable K} : gmap K A → list (K * A);
  go_range_perm {K A} `{Countable K} (m : gmap K A) : go_range m ≡ₚ map_to_list m
}.

(** ** Order *)

Definition LessEndpointAddress (a b : EndpointAddress) : bool :=
  if negb (bool_decide (ea_IP a = ea_IP b)) then string_lt (ea_IP a) (ea_IP b)
  else match ea_TargetRef b, ea_TargetRef a with
  | None, _ => false
  | Some _, None => true
  | Some tb, Some ta => string_lt (obj_UID ta) (obj_UID tb)
  end.

Definition lessAddrReady (a b : EndpointAddress * bool) : bool := LessEndpointAddress a.1 b.1.

(** [hex.EncodeToString]. *)
Definition hex_digit (n : N) : Ascii.ascii :=
  Ascii.ascii_of_N (if (n <? 10)%N then 48 + n else 87 + n)%N.
Fixpoint hex_EncodeToString (s : string) : string :=
  match s with
  | EmptyString => EmptyString
  | String.String c s' =>
    let n := Ascii.N_of_ascii c in
    String.String (hex_digit (n / 16)%N) (String.String (hex_digit (n mod 16)%N) (hex_EncodeToString s'))
  end.

Section Endpoints.
Context `{DeepHash} `{GoRange}.

Definition portsByHash_Less (a b : EndpointPort) : bool :=
  string_lt (DeepHashObject (HashPort a)) (DeepHashObject (HashPort b)).
Definition subsetsByHash_Less (a b : EndpointSubset) : bool :=
  string_lt (DeepHashObject (HashSubset a)) (DeepHashObject (HashSubset b)).

Definition sort_subset (ss : EndpointSubset) : EndpointSubset :=
  mkEndpointSubset (go_sort LessEndpointAddress (es_Addresses ss)) (go_sort LessEndpointAddress (es_NotReadyAddresses ss))
    (go_sort portsByHash_Less (es_Ports ss)).
Definition SortSubsets (subsets : list EndpointSubset) : list EndpointSubset :=
  go_sort subsetsByHash_Less (sort_subset <$> subsets).

(** ** The addresses of every port *)

Record AddressMaps := mkAddressMaps {
  allAddrs : gmap addressKey EndpointAddress;
  portToAddrReadyMap : gmap EndpointPort addressSet
}.

Definition address_key (addr : EndpointAddress) : addressKey :=
  (ea_IP addr, match ea_TargetRef addr with Some t => obj_UID t | None => "" end).

Definition mapAddressByPort (addr : EndpointAddress) (port : EndpointPort) (ready : bool) (st : AddressMaps) : AddressMaps :=
  let key := address_key addr in
  let all := match allAddrs st !! key with
             | None => <[key := addr]> (allAddrs st)
             | Some _ => allAddrs st
             end in
  let addrs := default ∅ (portToAddrReadyMap st !! port) in
  let addrs' := match addrs !! key with
                | None | Some true => <[key := ready]> addrs
                | Some false => addrs
                end in
  mkAddressMaps all (<[port := addrs']> (portToAddrReadyMap st)).

Definition mapAddressesByPort (subset : EndpointSubset) (port : EndpointPort) (st : AddressMaps) : AddressMaps :=
  let st := foldl (λ st a, mapAddressByPort a port true st) st (es_Addresses subset) in
  foldl (λ st a, mapAddressByPort a port false st) st (es_NotReadyAddresses subset).

(** The port that stands for none. *)
Definition sentinel : EndpointPort := mkEndpointPort "" (-1) "".

Definition map_subset (st : AddressMaps) (subset : EndpointSubset) : AddressMaps :=
  match es_Ports subset with
  | [] => mapAddressesByPort subset sentinel st
  | ports => foldl (λ st port, mapAddressesByPort subset port st) st ports
  end.

(** ** Ports with the same addresses *)

Definition deref (all : gmap addressKey EndpointAddress) (k : addressKey) : EndpointAddress :=
  default (mkEndpointAddress "" None) (all !! k).

Definition hashAddresses (all : gmap addressKey EndpointAddress) (addrs : addressSet) : string :=
  let slice := (λ kr, (deref all kr.1, kr.2)) <$> go_range addrs in
  hex_EncodeToString (DeepHashObject (HashAddresses (go_sort lessAddrReady slice))).

Record PortGroups := mkPortGroups {
  keyToAddrReadyMap : gmap string addressSet;
  addrReadyMapKeyToPorts : gmap string (list EndpointPort)
}.

Definition group_port (all : gmap addressKey EndpointAddress) (g : PortGroups) (pa : EndpointPort * addressSet) : PortGroups :=
  let '(port, addrs) := pa in
  let key := hashAddresses all addrs in
  let keyToPorts := addrReadyMapKeyToPorts g in
  mkPortGroups (<[key := addrs]> (keyToAddrReadyMap g))
    (if 0 <? ep_Port port then <[key := default [] (keyToPorts !! key) ++ [port]]> keyToPorts
     else match keyToPorts !! key with
     | None => <[key := []]> keyToPorts
     | Some _ => keyToPorts
     end).

Definition build_subset (all : gmap addressKey EndpointAddress) (g : PortGroups) (kp : string * list EndpointPort) : EndpointSubset :=
  let addrs := go_range (default ∅ (keyToAddrReadyMap g !! kp.1)) in
  mkEndpointSubset ((λ kr, deref all kr.1) <$> filter (λ kr, kr.2 = true) addrs)
    ((λ kr, deref all kr.1) <$> filter (λ kr, kr.2 = false) addrs) kp.2.

Definition RepackSubsets (subsets : list EndpointSubset) : list EndpointSubset :=
  let st := foldl map_subset (mkAddressMaps ∅ ∅) subsets in
  let g := foldl (group_port (allAddrs st)) (mkPortGroups ∅ ∅) (go_range (portToAddrReadyMap st)) in
  SortSubsets (build_subset (allAddrs st) g <$> go_range (addrReadyMapKeyToPorts g)).
End Endpoints.

(** * Endpoints in canonical form: correctness

    [RepackSubsets] keeps for every port the addresses that offer it, with an
    address that is not ready somewhere not ready, and gives equal results for
    subsets that say the same, however maps are ranged over. *)

(** Different objects have different hashes. *)
Class HashLaws `{DeepHash} := { dh_inj : Inj (=) (=) DeepHashObject }.

(** ** What subsets say *)

Definition eff_ports (s : EndpointSubset) : list EndpointPort :=
  match es_Ports s with [] => [sentinel] | l => l end.
Definition addresses (s : EndpointSubset) (ready : bool) : list EndpointAddress :=
  if ready then es_Addresses s else es_NotReadyAddresses s.

(** The address is listed for the port. *)
Definition offers (ss : list EndpointSubset) (p : EndpointPort) (a : EndpointAddress) (ready : bool) : Prop :=
  ∃ s, s ∈ ss ∧ p ∈ eff_ports s ∧ a ∈ addresses s ready.
Definition occurs (ss : list EndpointSubset) (p : EndpointPort) (k : addressKey) (ready : bool) : Prop :=
  ∃ a, offers ss p a ready ∧ address_key a = k.

(** ** Order *)

Lemma LessEndpointAddress_asym a b : LessEndpointAddress a b = true → LessEndpointAddress b a = false.
Proof.
  unfold LessEndpointAddress. destruct a as [ia ta], b as [ib tb]; cbn.
  do 2 case_bool_decide; cbn; try congruence; [|apply string_lt_asym].
  destruct ta, tb; try done. apply string_lt_asym.
Qed.

Lemma string_lt_tie s t : string_lt s t = false → string_lt t s = false → s = t.
Proof. rewrite !string_lt_false. intros. by apply (anti_symm String.le). Qed.

Lemma string_lt_neg_trans s t u : string_lt t s = false → string_lt u t = false → string_lt u s = false.
Proof. rewrite !string_lt_false. intros. by etrans. Qed.

Lemma LessEndpointAddress_neg_trans a b c :
  LessEndpointAddress b a = false → LessEndpointAddress c b = false → LessEndpointAddress c a = false.
Proof.
  unfold LessEndpointAddress. destruct a as [ia ta], b as [ib tb], c as [ic tc]; cbn.
  repeat case_bool_decide; subst; cbn; try congruence.
  all: first [by destruct ta, tb, tc; try done; apply string_lt_neg_trans
    | by apply string_lt_neg_trans
    | intros H1 H2; by destruct (string_lt_tie _ _ H1 H2)].
Qed.

Lemma LessEndpointAddress_tie a b :
  LessEndpointAddress a b = false → LessEndpointAddress b a = false → address_key a = address_key b.
Proof.
  unfold LessEndpointAddress, address_key. destruct a as [ia ta], b as [ib tb]; cbn.
  do 2 case_bool_decide; subst; cbn; try congruence.
  - destruct ta, tb; try done. intros. f_equal. by apply string_lt_tie.
  - intros H1 H2. destruct (string_lt_tie ia ib); done.
Qed.

(** ** Hexadecimal digits *)

Definition hex_value (c : Ascii.ascii) : N :=
  let n := Ascii.N_of_ascii c in if (n <? 58)%N then n - 48 else n - 87.

Lemma hex_byte c :
  Ascii.ascii_of_N (16 * hex_value (hex_digit (Ascii.N_of_ascii c / 16)) + hex_value (hex_digit (Ascii.N_of_ascii c mod 16))) = c.
Proof. destruct c as [[] [] [] [] [] [] [] []]; reflexivity. Qed.

#[export] Instance hex_inj : Inj (=) (=) hex_EncodeToString.
Proof.
  intros s. induction s as [|c s IH]; intros [|c' s']; cbn; try done.
  intros [= E1 E2 E3]. apply IH in E3 as ->. f_equal. rewrite <-(hex_byte c), <-(hex_byte c'), E1, E2. done.
Qed.

(** ** The addresses of every port *)

Definition row : Type := EndpointPort * EndpointAddress * bool.
Definition rows (s : EndpointSubset) : list row :=
  p ← eff_ports s; ((λ a, (p, a, true)) <$> es_Addresses s) ++ ((λ a, (p, a, false)) <$> es_NotReadyAddresses s).
Definition row_step (st : AddressMaps) (r : row) : AddressMaps := mapAddressByPort r.1.2 r.1.1 r.2 st.
Definition maps_of (ss : list EndpointSubset) : AddressMaps := foldl map_subset (mkAddressMaps ∅ ∅) ss.

Lemma foldl_bind {A B S} (f : S → B → S) (g : A → list B) l st :
  foldl f st (l ≫= g) = foldl (λ st a, foldl f st (g a)) st l.
Proof. revert st. induction l as [|a l IH]; intros st; [done|]. cbn. by rewrite foldl_app, IH. Qed.

Lemma foldl_fmap_step {A B S} (f : S → B → S) (g : A → B) l st : foldl f st (g <$> l) = foldl (λ st a, f st (g a)) st l.
Proof. revert st. induction l as [|a l IH]; intros st; [done|]. cbn. by rewrite IH. Qed.

Lemma map_subset_rows st s : map_subset st s = foldl row_step st (rows s).
Proof.
  unfold map_subset, rows, eff_ports.
  assert (∀ p st0, mapAddressesByPort s p st0 = foldl row_step st0
    (((λ a, (p, a, true)) <$> es_Addresses s) ++ ((λ a, (p, a, false)) <$> es_NotReadyAddresses s))) as Hp.
  { intros p st0. unfold mapAddressesByPort. by rewrite foldl_app, !foldl_fmap_step. }
  rewrite foldl_bind. destruct (es_Ports s) as [|p0 l]; [by cbn; rewrite Hp|].
  generalize (p0 :: l). intros ps. revert st. induction ps as [|p ps IH]; intros st; [done|]. cbn. by rewrite Hp, IH.
Qed.

Lemma maps_of_rows ss : maps_of ss = foldl row_step (mkAddressMaps ∅ ∅) (ss ≫= rows).
Proof.
  unfold maps_of. rewrite foldl_bind. generalize (mkAddressMaps ∅ ∅).
  induction ss as [|s ss IH]; intros st; [done|]. cbn. by rewrite map_subset_rows, IH.
Qed.

Lemma elem_of_rows ss p a r : (p, a, r) ∈ ss ≫= rows ↔ offers ss p a r.
Proof.
  unfold offers, rows. rewrite list_elem_of_bind. split.
  - intros (s & Hr & Hs). exists s. apply list_elem_of_bind in Hr as (q & Hr & Hq).
    apply elem_of_app in Hr as [Hr|Hr]; apply list_elem_of_fmap in Hr as (a' & [= -> -> ->] & Ha); by split_and!.
  - intros (s & Hs & Hp & Ha). exists s. split; [|done]. apply list_elem_of_bind. exists p. split; [|done].
    apply elem_of_app. destruct r; [left|right]; by eapply list_elem_of_fmap_2'.
Qed.

Definition address_ready (st : AddressMaps) (p : EndpointPort) (k : addressKey) : option bool :=
  portToAddrReadyMap st !! p ≫= (.!! k).

(** What is known after some rows. *)
Record maps_ok (rs : list row) (st : AddressMaps) : Prop := {
  mo_addr k a : allAddrs st !! k = Some a → address_key a = k ∧ ∃ p r, (p, a, r) ∈ rs;
  mo_all p a r : (p, a, r) ∈ rs → is_Some (allAddrs st !! address_key a);
  mo_false p k : address_ready st p k = Some false ↔ ∃ a, (p, a, false) ∈ rs ∧ address_key a = k;
  mo_true p k : address_ready st p k = Some true ↔
    (∃ a, (p, a, true) ∈ rs ∧ address_key a = k) ∧ ¬ ∃ a, (p, a, false) ∈ rs ∧ address_key a = k;
  mo_some p addrs : portToAddrReadyMap st !! p = Some addrs → addrs ≠ ∅
}.

Lemma row_step_ready st p0 a0 r0 p k :
  address_ready (row_step st (p0, a0, r0)) p k =
  if decide (p = p0 ∧ k = address_key a0)
  then match address_ready st p k with Some false => Some false | _ => Some r0 end
  else address_ready st p k.
Proof.
  unfold address_ready, row_step, mapAddressByPort. cbn.
  destruct (decide (p = p0)) as [->|Hp].
  - rewrite lookup_insert_eq. cbn.
    assert ((portToAddrReadyMap st !! p0 ≫= (.!! k)) = default ∅ (portToAddrReadyMap st !! p0) !! k) as ->.
    { by destruct (portToAddrReadyMap st !! p0). }
    generalize (default ∅ (portToAddrReadyMap st !! p0)). intros addrs.
    destruct (decide (k = address_key a0)) as [->|Hk].
    + rewrite decide_True by done. destruct (addrs !! address_key a0) as [[]|] eqn:E; rewrite ?lookup_insert_eq; done.
    + rewrite decide_False by naive_solver. destruct (addrs !! address_key a0) as [[]|]; [|done|]; by rewrite lookup_insert_ne.
  - rewrite lookup_insert_ne by done. by rewrite decide_False by naive_solver.
Qed.

Lemma row_step_all st p0 a0 r0 k :
  allAddrs (row_step st (p0, a0, r0)) !! k =
  if decide (k = address_key a0 ∧ allAddrs st !! k = None) then Some a0 else allAddrs st !! k.
Proof.
  unfold row_step, mapAddressByPort. cbn. destruct (allAddrs st !! address_key a0) eqn:E.
  - rewrite decide_False; [done|]. intros [-> ?]. congruence.
  - destruct (decide (k = address_key a0)) as [->|Hk]; [by rewrite lookup_insert_eq, decide_True|].
    rewrite lookup_insert_ne by done. by rewrite decide_False by naive_solver.
Qed.

Lemma row_step_some st r p addrs :
  portToAddrReadyMap (row_step st r) !! p = Some addrs → addrs ≠ ∅ ∨ portToAddrReadyMap st !! p = Some addrs.
Proof.
  destruct r as [[p0 a0] r0]. unfold row_step, mapAddressByPort. cbn. rewrite lookup_insert. case_decide; [|by right].
  intros [= <-]. left. case_match eqn:E; [|apply insert_non_empty]. case_match; [apply insert_non_empty|].
  intros He. by rewrite He in E.
Qed.

Lemma row_snoc (rs : list row) p0 a0 r0 p k b :
  (∃ a, (p, a, b) ∈ rs ++ [(p0, a0, r0)] ∧ address_key a = k) ↔
  (∃ a, (p, a, b) ∈ rs ∧ address_key a = k) ∨ ((p = p0 ∧ k = address_key a0) ∧ b = r0).
Proof.
  setoid_rewrite elem_of_app. setoid_rewrite list_elem_of_singleton. split.
  - intros (a & [Ha|[= -> -> ->]] & Hk); [left; by exists a|by right].
  - intros [(a & Ha & Hk)|[[-> ->] ->]]; [exists a; by auto|exists a0; by auto].
Qed.

Lemma maps_ok_step rs st r : maps_ok rs st → maps_ok (rs ++ [r]) (row_step st r).
Proof.
  intros [Ha Hall Hf Ht Hs]. destruct r as [[p0 a0] r0]. split.
  - intros k a. rewrite row_step_all. case_decide as Hd; [|intros (? & p & r & ?)%Ha; split; [done|]; exists p, r; set_solver].
    intros [= <-]. destruct Hd as [-> _]. split; [done|]. exists p0, r0. set_solver.
  - intros p a r Hin. rewrite row_step_all. case_decide as Hd; [done|].
    apply elem_of_app in Hin as [Hin|Hin%list_elem_of_singleton]; [by eapply Hall|]. simplify_eq.
    destruct (allAddrs st !! address_key a0) eqn:E; [done|]. by destruct Hd.
  - intros p k. rewrite row_step_ready, row_snoc. specialize (Hf p k). specialize (Ht p k).
    case_decide as Hd; destruct (address_ready st p k) as [[]|], r0; intuition congruence.
  - intros p k. rewrite row_step_ready, !row_snoc. specialize (Hf p k). specialize (Ht p k).
    case_decide as Hd; destruct (address_ready st p k) as [[]|], r0; intuition congruence.
  - intros p addrs [?|?]%row_step_some; [done|by eapply Hs].
Qed.

Lemma maps_of_ok ss : maps_ok (ss ≫= rows) (maps_of ss).
Proof.
  rewrite maps_of_rows. generalize (ss ≫= rows). clear ss. intros rs.
  induction rs as [|r rs IH] using rev_ind; [|rewrite foldl_app; by apply maps_ok_step].
  split; cbn; unfold address_ready; cbn; intros *; rewrite ?lookup_empty; try done; set_solver.
Qed.

(** Sorting a permutation of a list without ties. *)
Lemma go_sort_perm_eq {A} (less : A → A → bool) l1 l2 :
  (∀ x y, less x y = true → less y x = false) →
  (∀ x y z, less y x = false → less z y = false → less z x = false) →
  (∀ x y, x ∈ l1 → y ∈ l1 → less x y = false → less y x = false → x = y) →
  l1 ≡ₚ l2 → go_sort less l1 = go_sort less l2.
Proof.
  intros Hasym Htrans Htie Hp. apply go_sort_unique; [done..| |by apply go_sort_sorted].
  by rewrite go_sort_perm.
Qed.

(** Every address of the set is registered under its key. *)
Definition registered (all : gmap addressKey EndpointAddress) (addrs : addressSet) : Prop :=
  ∀ k b, addrs !! k = Some b → ∃ a, all !! k = Some a ∧ address_key a = k.

Lemma deref_key all addrs k b : registered all addrs → addrs !! k = Some b → address_key (deref all k) = k.
Proof. intros Hr (a & Ha & Hk)%Hr. unfold deref. by rewrite Ha. Qed.

Lemma sorted_addresses all addrs b l1 l2 :
  registered all addrs → l1 ≡ₚ map_to_list addrs → l2 ≡ₚ map_to_list addrs →
  go_sort LessEndpointAddress ((λ kr, deref all kr.1) <$> filter (λ kr, kr.2 = b) l1) =
  go_sort LessEndpointAddress ((λ kr, deref all kr.1) <$> filter (λ kr, kr.2 = b) l2).
Proof.
  intros Hr H1 H2. apply go_sort_perm_eq; [apply LessEndpointAddress_asym|apply LessEndpointAddress_neg_trans| |by rewrite H1, H2].
  intros x y ([k c] & -> & Hx)%list_elem_of_fmap ([k' c'] & -> & Hy)%list_elem_of_fmap Hl1 Hl2. cbn in *.
  apply list_elem_of_filter in Hx as [_ Hx], Hy as [_ Hy]. rewrite H1, elem_of_map_to_list in Hx, Hy.
  pose proof (LessEndpointAddress_tie _ _ Hl1 Hl2) as E.
  by rewrite (deref_key _ _ _ _ Hr Hx), (deref_key _ _ _ _ Hr Hy) in E; subst.
Qed.

Definition slice (all : gmap addressKey EndpointAddress) (l : list (addressKey * bool)) : list (EndpointAddress * bool) :=
  go_sort lessAddrReady ((λ kr, (deref all kr.1, kr.2)) <$> l).

Lemma slice_perm all addrs l1 l2 :
  registered all addrs → l1 ≡ₚ map_to_list addrs → l2 ≡ₚ map_to_list addrs → slice all l1 = slice all l2.
Proof.
  intros Hr H1 H2. apply go_sort_perm_eq; [intros ??; apply LessEndpointAddress_asym|intros ???; apply LessEndpointAddress_neg_trans| |by rewrite H1, H2].
  intros x y ([k c] & -> & Hx)%list_elem_of_fmap ([k' c'] & -> & Hy)%list_elem_of_fmap Hl1 Hl2. cbn in *.
  rewrite H1, elem_of_map_to_list in Hx, Hy.
  pose proof (LessEndpointAddress_tie _ _ Hl1 Hl2) as E. cbn in E.
  rewrite (deref_key _ _ _ _ Hr Hx), (deref_key _ _ _ _ Hr Hy) in E. subst. congruence.
Qed.

Lemma slice_inj all addrs1 addrs2 l1 l2 :
  registered all addrs1 → registered all addrs2 → l1 ≡ₚ map_to_list addrs1 → l2 ≡ₚ map_to_list addrs2 →
  slice all l1 = slice all l2 → addrs1 = addrs2.
Proof.
  intros Hr1 Hr2 H1 H2 E.
  assert (∀ addrs l k b, registered all addrs → l ≡ₚ map_to_list addrs →
    addrs !! k = Some b ↔ ∃ a, (a, b) ∈ slice all l ∧ address_key a = k) as Hin.
  { clear. intros addrs l k b Hr Hl. unfold slice. setoid_rewrite elem_of_go_sort. setoid_rewrite list_elem_of_fmap. split.
    - intros Hk. exists (deref all k). split; [|by eapply deref_key]. exists (k, b). split; [done|].
      by rewrite Hl, elem_of_map_to_list.
    - intros (a & ([k' b'] & [= -> ->] & Hk') & <-). rewrite Hl, elem_of_map_to_list in Hk'. cbn in *.
      by rewrite (deref_key _ _ _ _ Hr Hk'). }
  apply map_eq. intros k. apply option_eq. intros b. rewrite (Hin _ _ _ _ Hr1 H1), (Hin _ _ _ _ Hr2 H2). by rewrite E.
Qed.

Section Groups.
Context `{HashLaws} `{GoRange}.

Lemma hash_inj all addrs1 addrs2 :
  registered all addrs1 → registered all addrs2 → hashAddresses all addrs1 = hashAddresses all addrs2 → addrs1 = addrs2.
Proof using Type*.
  intros Hr1 Hr2 E. apply (inj hex_EncodeToString) in E. apply dh_inj in E. injection E as E.
  eapply slice_inj; [apply Hr1|apply Hr2|apply go_range_perm..|done].
Qed.

Lemma elem_of_go_range {K A} `{Countable K} (m : gmap K A) k a : (k, a) ∈ go_range m ↔ m !! k = Some a.
Proof using Type. by rewrite go_range_perm, elem_of_map_to_list. Qed.

(** ** Ports with the same addresses *)

Definition groups (all : gmap addressKey EndpointAddress) (l : list (EndpointPort * addressSet)) : PortGroups := foldl (group_port all) (mkPortGroups ∅ ∅) l.

Lemma group_ports (all : gmap addressKey EndpointAddress) l x :
  addrReadyMapKeyToPorts (groups all l) !! x =
  match filter (λ pa, hashAddresses all pa.2 = x) l with
  | [] => None
  | l' => Some (filter (λ p, 0 < ep_Port p) l'.*1)
  end.
Proof using Type.
  induction l as [|[p addrs] l IH] using rev_ind; [done|]. unfold groups in *. rewrite foldl_app, filter_app.
  cbn [foldl group_port addrReadyMapKeyToPorts keyToAddrReadyMap]. rewrite filter_cons, filter_nil. cbn [snd]. case_decide as Hx.
  - subst x. destruct (0 <? ep_Port p) eqn:Ep.
    + apply Z.ltb_lt in Ep. rewrite lookup_insert_eq, IH.
      assert (filter (λ p, 0 < ep_Port p) [p] = [p]) as Hp by (by rewrite filter_cons_True, filter_nil).
      destruct (filter _ l) as [|y l'] eqn:El; cbn [app default]; f_equal; [by rewrite <-Hp|].
      rewrite app_comm_cons, fmap_app. change ([(p, addrs)].*1) with [p]. by rewrite filter_app, Hp.
    + apply Z.ltb_ge in Ep.
      assert (filter (λ p, 0 < ep_Port p) [p] = []) as Hp by (rewrite filter_cons_False by lia; done).
      destruct (addrReadyMapKeyToPorts _ !! _) as [ps|] eqn:Eps.
      * rewrite Eps, IH. destruct (filter _ l) as [|y l'] eqn:El; [congruence|]. cbn [app]. f_equal.
        rewrite (app_comm_cons l'), fmap_app. change ([(p, addrs)].*1) with [p]. by rewrite filter_app, Hp, app_nil_r.
      * rewrite lookup_insert_eq. destruct (filter _ l) as [|y l'] eqn:El; [|congruence]. cbn [app]. by rewrite <-Hp.
  - rewrite app_nil_r, <-IH. destruct (0 <? ep_Port p); [by rewrite lookup_insert_ne|].
    destruct (addrReadyMapKeyToPorts _ !! hashAddresses all addrs); [done|by rewrite lookup_insert_ne].
Qed.

Lemma group_addrs (all : gmap addressKey EndpointAddress) l x :
  keyToAddrReadyMap (groups all l) !! x = snd <$> last (filter (λ pa, hashAddresses all pa.2 = x) l).
Proof using Type.
  induction l as [|[p addrs] l IH] using rev_ind; [done|]. unfold groups in *. rewrite foldl_app, filter_app.
  cbn [foldl group_port addrReadyMapKeyToPorts keyToAddrReadyMap]. rewrite filter_cons, filter_nil. cbn [snd]. case_decide as Hx; [by subst; rewrite lookup_insert_eq, last_snoc|].
  by rewrite app_nil_r, lookup_insert_ne.
Qed.
End Groups.

(** ** The result *)

Definition pack `{DeepHash} `{GoRange} (st : AddressMaps) : list EndpointSubset :=
  let g := groups (allAddrs st) (go_range (portToAddrReadyMap st)) in
  SortSubsets (build_subset (allAddrs st) g <$> go_range (addrReadyMapKeyToPorts g)).

Definition maps_registered (st : AddressMaps) : Prop :=
  ∀ p addrs, portToAddrReadyMap st !! p = Some addrs → registered (allAddrs st) addrs.

Lemma maps_of_registered ss : maps_registered (maps_of ss).
Proof.
  intros p addrs Hp k b Hk. pose proof (maps_of_ok ss) as Hok.
  assert (address_ready (maps_of ss) p k = Some b) as Hr by (unfold address_ready; by rewrite Hp).
  assert (∃ a r, (p, a, r) ∈ ss ≫= rows ∧ address_key a = k) as (a & r & Ha & <-).
  { destruct b; [apply (mo_true _ _ Hok) in Hr as [(a & ? & ?) _]|apply (mo_false _ _ Hok) in Hr as (a & ? & ?)]; by eexists _, _. }
  destruct (mo_all _ _ Hok _ _ _ Ha) as [a' Ha']. exists a'. split; [done|]. by apply (mo_addr _ _ Hok) in Ha' as [? _].
Qed.

Section Pack.
Context `{HashLaws} `{R : GoRange} (st : AddressMaps) (Hreg : maps_registered st).
Let g := groups (allAddrs st) (go_range (portToAddrReadyMap st)).

(** The subset for a set of addresses. *)
Definition subset_for (addrs : addressSet) : EndpointSubset :=
  let x := hashAddresses (allAddrs st) addrs in
  sort_subset (build_subset (allAddrs st) g (x, default [] (addrReadyMapKeyToPorts g !! x))).

Lemma same_hash p addrs p' addrs' :
  portToAddrReadyMap st !! p = Some addrs → portToAddrReadyMap st !! p' = Some addrs' →
  hashAddresses (allAddrs st) addrs' = hashAddresses (allAddrs st) addrs → addrs' = addrs.
Proof using Type*. intros Hp Hp' E. eapply hash_inj; [by eapply Hreg..|done]. Qed.

Lemma keyed_addrs p addrs :
  portToAddrReadyMap st !! p = Some addrs → keyToAddrReadyMap g !! hashAddresses (allAddrs st) addrs = Some addrs.
Proof using Type*.
  intros Hp. unfold g. rewrite group_addrs.
  destruct (last _) as [[p' addrs']|] eqn:El.
  - apply last_Some_elem_of in El. apply list_elem_of_filter in El as [E Hin]. apply elem_of_go_range in Hin. cbn in *.
    by rewrite (same_hash _ _ _ _ Hp Hin E).
  - exfalso. apply last_None in El.
    assert ((p, addrs) ∈ filter (λ pa, hashAddresses (allAddrs st) pa.2 = hashAddresses (allAddrs st) addrs) (go_range (portToAddrReadyMap st))) as Hin
      by (apply list_elem_of_filter; split; [done|by apply elem_of_go_range]).
    rewrite El in Hin. by apply elem_of_nil in Hin.
Qed.

Lemma keyed_ports p addrs :
  portToAddrReadyMap st !! p = Some addrs → ∃ ps, addrReadyMapKeyToPorts g !! hashAddresses (allAddrs st) addrs = Some ps ∧
  NoDup ps ∧ ∀ q, q ∈ ps ↔ 0 < ep_Port q ∧ portToAddrReadyMap st !! q = Some addrs.
Proof using Type*.
  intros Hp. unfold g. rewrite group_ports.
  set (l := filter (λ pa, hashAddresses (allAddrs st) pa.2 = hashAddresses (allAddrs st) addrs) (go_range (portToAddrReadyMap st))).
  assert (∀ q a, (q, a) ∈ l ↔ portToAddrReadyMap st !! q = Some a ∧ a = addrs) as Hl.
  { intros q a. unfold l. rewrite list_elem_of_filter, elem_of_go_range. cbn. split; [|by intros [? ->]].
    intros [E Hq]. split; [done|by eapply same_hash]. }
  assert (NoDup l.*1) as Hnd.
  { unfold l. rewrite go_range_perm. eapply sublist_NoDup; [by apply (NoDup_fst_map_to_list (portToAddrReadyMap st))|]. apply fmap_sublist, sublist_filter. }
  destruct l as [|y l']; [exfalso; by eapply elem_of_nil, (proj2 (Hl p addrs))|].
  exists (filter (λ p, 0 < ep_Port p) (y :: l').*1). split_and!; [done|by apply NoDup_filter|].
  intros q. rewrite list_elem_of_filter, list_elem_of_fmap. split.
  - intros [? ([q' a] & -> & Hin)]. by apply Hl in Hin as [? ->].
  - intros [? Hq]. split; [done|]. exists (q, addrs). split; [done|by apply Hl].
Qed.

Lemma subset_for_ports p addrs q :
  portToAddrReadyMap st !! p = Some addrs →
  q ∈ es_Ports (subset_for addrs) ↔ 0 < ep_Port q ∧ portToAddrReadyMap st !! q = Some addrs.
Proof using Type*.
  intros Hp. destruct (keyed_ports _ _ Hp) as (ps & Eps & _ & Hps). unfold subset_for. rewrite Eps.
  cbn [sort_subset build_subset es_Ports]. by rewrite elem_of_go_sort.
Qed.

Lemma subset_for_addresses p addrs a b :
  portToAddrReadyMap st !! p = Some addrs →
  a ∈ addresses (subset_for addrs) b ↔ ∃ k, addrs !! k = Some b ∧ a = deref (allAddrs st) k.
Proof using Type*.
  intros Hp. unfold subset_for, sort_subset, build_subset. cbn [fst snd]. rewrite (keyed_addrs _ _ Hp). cbn [default].
  assert (∀ b0, a ∈ (λ kr, deref (allAddrs st) kr.1) <$> filter (λ kr, kr.2 = b0) (go_range addrs) ↔
    ∃ k, addrs !! k = Some b0 ∧ a = deref (allAddrs st) k) as Hin.
  { intros b0. rewrite list_elem_of_fmap. split.
    - intros ([k c] & -> & [<- Hk]%list_elem_of_filter). exists k. by rewrite <-elem_of_go_range.
    - intros (k & Hk & ->). exists (k, b0). split; [done|]. by rewrite list_elem_of_filter, elem_of_go_range. }
  unfold addresses. destruct b; cbn [es_Addresses es_NotReadyAddresses]; rewrite elem_of_go_sort; apply Hin.
Qed.

Lemma subset_for_inj p addrs p' addrs' :
  portToAddrReadyMap st !! p = Some addrs → portToAddrReadyMap st !! p' = Some addrs' →
  subset_for addrs = subset_for addrs' → addrs = addrs'.
Proof using Type*.
  intros Hp Hp' E. apply map_eq. intros k. apply option_eq. intros b.
  assert (∀ q a, portToAddrReadyMap st !! q = Some a →
    a !! k = Some b ↔ ∃ ad, ad ∈ addresses (subset_for a) b ∧ address_key ad = k) as Hin.
  { intros q a Hq. setoid_rewrite (subset_for_addresses q a _ b Hq). split.
    - intros Hk. exists (deref (allAddrs st) k). split; [by exists k|]. by eapply deref_key; [eapply Hreg|].
    - intros (ad & (k' & Hk' & ->) & <-). by rewrite (deref_key _ _ _ _ (Hreg _ _ Hq) Hk'). }
  by rewrite (Hin _ _ Hp), (Hin _ _ Hp'), E.
Qed.

Lemma group_key x ps :
  addrReadyMapKeyToPorts g !! x = Some ps →
  ∃ p addrs, portToAddrReadyMap st !! p = Some addrs ∧ x = hashAddresses (allAddrs st) addrs ∧
    sort_subset (build_subset (allAddrs st) g (x, ps)) = subset_for addrs.
Proof using Type*.
  intros Hx. pose proof Hx as Hx'. unfold g in Hx'. rewrite group_ports in Hx'.
  destruct (filter _ _) as [|[p addrs] l'] eqn:El; [done|].
  assert ((p, addrs) ∈ filter (λ pa, hashAddresses (allAddrs st) pa.2 = x) (go_range (portToAddrReadyMap st))) as Hin
    by (rewrite El; left).
  apply list_elem_of_filter in Hin as [E Hin]. apply elem_of_go_range in Hin. exists p, addrs. cbn in E.
  split_and!; [done..|]. unfold subset_for. by rewrite E, Hx.
Qed.

(** The subsets before they are sorted. *)
Definition unsorted : list EndpointSubset :=
  sort_subset <$> (build_subset (allAddrs st) g <$> go_range (addrReadyMapKeyToPorts g)).

Lemma elem_of_unsorted s : s ∈ unsorted ↔ ∃ p addrs, portToAddrReadyMap st !! p = Some addrs ∧ s = subset_for addrs.
Proof using Type*.
  unfold unsorted. rewrite <-list_fmap_compose, list_elem_of_fmap. split.
  - intros ([x ps] & -> & Hx). apply elem_of_go_range in Hx. destruct (group_key _ _ Hx) as (p & addrs & Hp & _ & E).
    by exists p, addrs.
  - intros (p & addrs & Hp & ->). destruct (keyed_ports _ _ Hp) as (ps & Eps & _).
    exists (hashAddresses (allAddrs st) addrs, ps). rewrite elem_of_go_range. split; [|done]. unfold subset_for. by rewrite Eps.
Qed.

Lemma NoDup_unsorted : NoDup unsorted.
Proof using Type*.
  unfold unsorted. rewrite <-list_fmap_compose. apply NoDup_fmap_2_strong.
  - intros [x1 ps1] [x2 ps2] H1 H2 E. cbn in E. apply elem_of_go_range in H1, H2.
    destruct (group_key _ _ H1) as (p1 & a1 & Hp1 & -> & E1), (group_key _ _ H2) as (p2 & a2 & Hp2 & -> & E2).
    rewrite E1, E2 in E. apply (subset_for_inj _ _ _ _ Hp1 Hp2) in E as ->. congruence.
  - rewrite go_range_perm. apply NoDup_map_to_list.
Qed.

Lemma elem_of_pack s : s ∈ pack st ↔ ∃ p addrs, portToAddrReadyMap st !! p = Some addrs ∧ s = subset_for addrs.
Proof using Type*. change (pack st) with (go_sort subsetsByHash_Less unsorted). by rewrite elem_of_go_sort, elem_of_unsorted. Qed.
End Pack.

Lemma occurs_rows ss p k b : occurs ss p k b ↔ ∃ a, (p, a, b) ∈ ss ≫= rows ∧ address_key a = k.
Proof. unfold occurs. by setoid_rewrite elem_of_rows. Qed.

Lemma ready_of ss p k b :
  address_ready (maps_of ss) p k = Some b ↔ if b then occurs ss p k true ∧ ¬ occurs ss p k false else occurs ss p k false.
Proof. destruct b; rewrite !occurs_rows; [apply (mo_true _ _ (maps_of_ok ss))|apply (mo_false _ _ (maps_of_ok ss))]. Qed.

Lemma occurs_somewhere ss p k b : occurs ss p k b → ∃ b', address_ready (maps_of ss) p k = Some b'.
Proof.
  intros Ho. destruct (address_ready (maps_of ss) p k) as [b'|] eqn:E; [by exists b'|]. exfalso.
  assert (¬ occurs ss p k false) as Hf by (intros Hf; apply (ready_of ss p k false) in Hf; congruence).
  destruct b; [|done]. assert (address_ready (maps_of ss) p k = Some true) by (by apply ready_of). congruence.
Qed.

Section Exact.
Context `{HashLaws} `{GoRange}.

Lemma occurs_pack st p k b :
  maps_registered st → 0 < ep_Port p → occurs (pack st) p k b ↔ address_ready st p k = Some b.
Proof using Type*.
  intros Hreg Hpos.
  assert (∀ s, p ∈ eff_ports s ↔ p ∈ es_Ports s) as Heff.
  { intros s. unfold eff_ports. destruct (es_Ports s); [|done]. rewrite list_elem_of_singleton, elem_of_nil. split; [intros ->|]; done. }
  unfold occurs, offers. split.
  - intros (a & (s & Hs & Hp & Ha) & <-). rewrite Heff in Hp. apply elem_of_pack in Hs as (q & addrs & Hq & ->); [|done].
    eapply subset_for_ports in Hp as [_ Hp]; [|done..]. eapply subset_for_addresses in Ha as (k & Hk & ->); [|done..].
    rewrite (deref_key _ _ _ _ (Hreg _ _ Hq) Hk). unfold address_ready. by rewrite Hp.
  - unfold address_ready. destruct (portToAddrReadyMap st !! p) as [addrs|] eqn:Hp; [|done]. cbn. intros Hk.
    exists (deref (allAddrs st) k). split; [|by eapply deref_key; [eapply Hreg|]].
    exists (subset_for st addrs). split_and!.
    + apply elem_of_pack; [done|]. by exists p, addrs.
    + rewrite Heff. by eapply subset_for_ports.
    + eapply subset_for_addresses; [done..|]. by exists k.
Qed.

Lemma repack_occurs ss p k b :
  0 < ep_Port p → occurs (RepackSubsets ss) p k b ↔ if b then occurs ss p k true ∧ ¬ occurs ss p k false else occurs ss p k false.
Proof using Type*.
  intros Hpos. change (RepackSubsets ss) with (pack (maps_of ss)). rewrite occurs_pack by (done || apply maps_of_registered).
  apply ready_of.
Qed.

(** Repacking keeps what subsets say.  For every port the addresses that offer it
    are those of the input, ready unless one of the input's subsets has the address
    not ready; no address is lost or made up; a port is in one subset. *)
Theorem repack_exact ss p k :
  0 < ep_Port p →
  (occurs (RepackSubsets ss) p k false ↔ occurs ss p k false) ∧
  (occurs (RepackSubsets ss) p k true ↔ occurs ss p k true ∧ ¬ occurs ss p k false) ∧
  (∀ s a b, s ∈ RepackSubsets ss → a ∈ addresses s b → ∃ q c, offers ss q a c) ∧
  (∀ q a c, offers ss q a c → ∃ s b a', s ∈ RepackSubsets ss ∧ a' ∈ addresses s b ∧ address_key a' = address_key a) ∧
  (∀ s s', s ∈ RepackSubsets ss → s' ∈ RepackSubsets ss → p ∈ es_Ports s → p ∈ es_Ports s' → s = s').
Proof using Type*.
  intros Hpos. split; [by apply (repack_occurs ss p k false)|]. split; [by apply (repack_occurs ss p k true)|].
  change (RepackSubsets ss) with (pack (maps_of ss)). pose proof (maps_of_registered ss) as Hreg. split_and!.
  - intros s a b Hs Ha. apply elem_of_pack in Hs as (q & addrs & Hq & ->); [|done].
    eapply subset_for_addresses in Ha as (k' & Hk & ->); [|done..]. destruct (Hreg _ _ Hq _ _ Hk) as (a & Ha & _).
    unfold deref. rewrite Ha. apply (mo_addr _ _ (maps_of_ok ss)) in Ha as (_ & r & c & Ha). exists r, c. by apply elem_of_rows.
  - intros q a c Ho. destruct (occurs_somewhere ss q (address_key a) c) as [b Hb]; [by exists a|].
    unfold address_ready in Hb. destruct (portToAddrReadyMap (maps_of ss) !! q) as [addrs|] eqn:Hq; [|done]. cbn in Hb.
    exists (subset_for (maps_of ss) addrs), b, (deref (allAddrs (maps_of ss)) (address_key a)). split_and!.
    + apply elem_of_pack; [done|]. by exists q, addrs.
    + eapply subset_for_addresses; [done..|]. by exists (address_key a).
    + by eapply deref_key; [eapply Hreg|].
  - intros s s' Hs Hs' Hp Hp'. apply elem_of_pack in Hs as (q & addrs & Hq & ->), Hs' as (q' & addrs' & Hq' & ->); [|done..].
    eapply subset_for_ports in Hp as [_ Hp], Hp' as [_ Hp']; [|done..]. congruence.
Qed.
End Exact.

(** ** Canonical form *)

Section Ranges.
Context `{HashLaws} (R1 R2 : GoRange).

Lemma ports_by_hash l1 l2 : l1 ≡ₚ l2 → go_sort portsByHash_Less l1 = go_sort portsByHash_Less l2.
Proof using Type*.
  unfold portsByHash_Less. apply go_sort_perm_eq; [intros ??; apply string_lt_asym|intros ???; apply string_lt_neg_trans|].
  intros x y _ _ Hx Hy. pose proof (string_lt_tie _ _ Hx Hy) as E. apply dh_inj in E. congruence.
Qed.

Lemma subset_for_range st p addrs :
  maps_registered st → portToAddrReadyMap st !! p = Some addrs → @subset_for _ R1 st addrs = @subset_for _ R2 st addrs.
Proof using Type*.
  intros Hreg Hp. pose proof (Hreg _ _ Hp) as Hr. unfold subset_for, sort_subset, build_subset. cbn [fst snd es_Addresses es_NotReadyAddresses es_Ports].
  rewrite !(keyed_addrs _ Hreg _ _ Hp). cbn [default].
  destruct (keyed_ports (R := R1) _ Hreg _ _ Hp) as (ps1 & E1 & Hn1 & Hp1).
  destruct (keyed_ports (R := R2) _ Hreg _ _ Hp) as (ps2 & E2 & Hn2 & Hp2).
  rewrite E1, E2. cbn [default]. f_equal; [by eapply sorted_addresses; [|apply go_range_perm..]..|].
  apply ports_by_hash, NoDup_Permutation; [done..|]. intros q. by rewrite Hp1, Hp2.
Qed.

Lemma pack_range st : maps_registered st → @pack _ R1 st = @pack _ R2 st.
Proof using Type*.
  intros Hreg. apply (go_sort_perm_eq subsetsByHash_Less (unsorted (R := R1) st) (unsorted (R := R2) st)); unfold subsetsByHash_Less.
  - intros ??; apply string_lt_asym.
  - intros ???; apply string_lt_neg_trans.
  - intros x y _ _ Hx Hy. pose proof (string_lt_tie _ _ Hx Hy) as E. apply dh_inj in E. congruence.
  - apply NoDup_Permutation; [by apply NoDup_unsorted..|]. intros s. rewrite !elem_of_unsorted by done.
    split; intros (p & addrs & Hp & ->); exists p, addrs; split; try done; [|symmetry]; by eapply subset_for_range.
Qed.
End Ranges.

(** Subsets that say the same lead to the same maps. *)
Lemma maps_of_same ss1 ss2 :
  (∀ p k b, occurs ss1 p k b ↔ occurs ss2 p k b) →
  (∀ p a b p' a' b', offers ss1 p a b → offers ss2 p' a' b' → address_key a = address_key a' → a = a') →
  maps_of ss1 = maps_of ss2.
Proof.
  intros Ho Ha.
  assert (∀ p k, address_ready (maps_of ss1) p k = address_ready (maps_of ss2) p k) as Hready.
  { intros p k. apply option_eq. intros b. rewrite !ready_of. destruct b; by rewrite !Ho. }
  assert (∀ ss p, portToAddrReadyMap (maps_of ss) !! p = None ↔ ∀ k, address_ready (maps_of ss) p k = None) as Hnone.
  { intros ss p. unfold address_ready. destruct (_ !! p) as [addrs|] eqn:E; [|done]. split; [done|]. cbn. intros Hk.
    exfalso. apply (mo_some _ _ (maps_of_ok ss)) in E. apply E, map_empty, Hk. }
  assert (portToAddrReadyMap (maps_of ss1) = portToAddrReadyMap (maps_of ss2)) as Hports.
  { apply map_eq. intros p. destruct (portToAddrReadyMap (maps_of ss1) !! p) as [addrs1|] eqn:E1,
      (portToAddrReadyMap (maps_of ss2) !! p) as [addrs2|] eqn:E2; [|exfalso|exfalso|done].
    - f_equal. apply map_eq. intros k. specialize (Hready p k). unfold address_ready in Hready. by rewrite E1, E2 in Hready.
    - rewrite Hnone in E2. setoid_rewrite <-Hready in E2. apply Hnone in E2. congruence.
    - rewrite Hnone in E1. setoid_rewrite Hready in E1. apply Hnone in E1. congruence. }
  assert (∀ ss ss', (∀ p k b, occurs ss p k b → occurs ss' p k b) →
    (∀ p a b p' a' b', offers ss p a b → offers ss' p' a' b' → address_key a = address_key a' → a = a') →
    ∀ k a, allAddrs (maps_of ss) !! k = Some a → allAddrs (maps_of ss') !! k = Some a) as Hall.
  { clear. intros ss ss' Ho Ha k a Hk. apply (mo_addr _ _ (maps_of_ok ss)) in Hk as (<- & p & r & Hr). apply elem_of_rows in Hr.
    destruct (Ho p (address_key a) r) as (a' & Hr' & Hk'); [by exists a|].
    assert (a = a') as <- by (by eapply Ha). apply elem_of_rows in Hr'.
    destruct (mo_all _ _ (maps_of_ok ss') _ _ _ Hr') as [a2 E2]. rewrite E2. f_equal.
    apply (mo_addr _ _ (maps_of_ok ss')) in E2 as (Ek & q & c & Hq). apply elem_of_rows in Hq. symmetry. by eapply Ha. }
  destruct (maps_of ss1) as [all1 ports1] eqn:M1, (maps_of ss2) as [all2 ports2] eqn:M2. cbn in Hports. f_equal; [|done].
  apply map_eq. intros k. apply option_eq. intros a. split; intros Hk.
  - pose proof (Hall ss1 ss2) as Hs. rewrite M1, M2 in Hs. apply Hs; [naive_solver|done..].
  - pose proof (Hall ss2 ss1) as Hs. rewrite M1, M2 in Hs. apply Hs; [naive_solver| |done].
    intros p x b p' x' b' Hx Hx' E. symmetry. by eapply Ha.
Qed.

Section Canonical.
Context `{HashLaws}.

(** C26: The form is canonical: subsets that list the same addresses for the same ports,
    in whatever order and grouping, are repacked to the same list, and the order in
    which maps are ranged over makes no difference. *)
Theorem repack_canonical (R1 R2 : GoRange) ss1 ss2 :
  (∀ p k b, occurs ss1 p k b ↔ occurs ss2 p k b) →
  (∀ p a b p' a' b', offers ss1 p a b → offers ss2 p' a' b' → address_key a = address_key a' → a = a') →
  @RepackSubsets _ R1 ss1 = @RepackSubsets _ R2 ss2.
Proof using Type*.
  intros Ho Ha. change (@pack _ R1 (maps_of ss1) = @pack _ R2 (maps_of ss2)).
  rewrite (maps_of_same ss1 ss2 Ho Ha). apply pack_range, maps_of_registered.
Qed.
End Canonical.
