(* ===== verification/VMService.v ===== *)
(** * VM services

    controllers/virtualmachineservice: the controller that keeps a Kubernetes
    Service and its Endpoints for a VirtualMachineService
    (virtualmachineservice_controller.go) and the load balancer providers
    (providers/loadbalancer_provider.go).

    The API server, controller-runtime and apimachinery are the class [ServiceAPI].
    A nil map and an empty one are the same.  A reconciliation reads one state of
    the network settings.  An operation on a service returns the object that it
    changed with its error, because a deferred call writes it in either case. *)

From S2P Require Import Prelude Conditions Hardware GoErrors VMGroup Volumes AdmissionVM VMValidator Prober Endpoints.
Local Open Scope Z_scope.

(** ** Objects *)

Record VirtualMachineServicePort := mkVMServicePort {
  vp_Name : string;
  vp_Protocol : string;
  vp_Port : Z;
  vp_TargetPort : Z
}.
#[global] Instance VirtualMachineServicePort_dec : EqDecision VirtualMachineServicePort.
Proof. solve_decision. Defined.

Record VirtualMachineServiceSpec := mkVMServiceSpec {
  vss_Type : string;
  vss_Ports : list VirtualMachineServicePort;
  vss_Selector : gmap string string;
  vss_LoadBalancerIP : string;
  vss_LoadBalancerSourceRanges : list string;
  vss_ClusterIP : string;
  vss_ExternalName : string;
  vss_IPFamilies : list string;
  vss_IPFamilyPolicy : option string
}.

(** [vs_Ingress]: IP and host name. *)
Record VirtualMachineService := mkVMService {
  vs_Namespace : string;
  vs_Name : string;
  vs_Deleting : bool;
  vs_Finalizers : list string;
  vs_Annotations : gmap string string;
  vs_Labels : gmap string string;
  vs_Spec : VirtualMachineServiceSpec;
  vs_Ingress : list (string * string);
  vs_Conditions : Conditions
}.
Definition vs_key (s : VirtualMachineService) : string * string := (vs_Namespace s, vs_Name s).
Definition set_vs_Finalizers x s : VirtualMachineService :=
  mkVMService (vs_Namespace s) (vs_Name s) (vs_Deleting s) x (vs_Annotations s) (vs_Labels s) (vs_Spec s) (vs_Ingress s) (vs_Conditions s).
Definition set_vs_Annotations x s : VirtualMachineService :=
  mkVMService (vs_Namespace s) (vs_Name s) (vs_Deleting s) (vs_Finalizers s) x (vs_Labels s) (vs_Spec s) (vs_Ingress s) (vs_Conditions s).
Definition set_vs_Labels x s : VirtualMachineService :=
  mkVMService (vs_Namespace s) (vs_Name s) (vs_Deleting s) (vs_Finalizers s) (vs_Annotations s) x (vs_Spec s) (vs_Ingress s) (vs_Conditions s).
Definition set_vs_Status ingress l s : VirtualMachineService :=
  mkVMService (vs_Namespace s) (vs_Name s) (vs_Deleting s) (vs_Finalizers s) (vs_Annotations s) (vs_Labels s) (vs_Spec s) ingress l.

Record ServicePort := mkServicePort {
  sp_Name : string;
  sp_Protocol : string;
  sp_Port : Z;
  sp_TargetPort : IntOrString;
  sp_NodePort : Z
}.

Record ServiceSpec := mkServiceSpec {
  ks_Type : string;
  ks_ExternalName : string;
  ks_LoadBalancerIP : string;
  ks_LoadBalancerSourceRanges : list string;
  ks_IPFamilies : list string;
  ks_IPFamilyPolicy : option string;
  ks_AllocateLoadBalancerNodePorts : option bool;
  ks_ClusterIP : string;
  ks_Ports : list ServicePort;
  ks_ExternalTrafficPolicy : string
}.

Record Service := mkService {
  se_Namespace : string;
  se_Name : string;
  se_ResourceVersion : string;
  se_Owners : list OwnerRef;
  se_Annotations : gmap string string;
  se_Labels : gmap string string;
  se_Spec : ServiceSpec;
  se_Ingress : list (string * string);
  se_Conditions : list Condition
}.

Record EndpointsObject := mkEndpoints {
  en_Owners : list OwnerRef;
  en_Labels : gmap string string;
  en_Annotations : gmap string string;
  en_Subsets : list EndpointSubset
}.

(** A VM, with what the prober reads of it. *)
Record ServiceVM := mkServiceVM {
  sv_APIVersion : string;
  sv_Kind : string;
  sv_Labels : gmap string string;
  sv_VM : ProbeVM
}.

Definition service_finalizerName : string := "vmoperator.vmware.com/virtualmachineservice".
Definition service_deprecatedFinalizerName : string := "virtualmachineservice.vmoperator.vmware.com".
Definition ServiceReadyConditionType : string := "VirtualMachineServiceServiceReady".
Definition VirtualMachineServiceTypeClusterIP : string := "ClusterIP".
Definition VirtualMachineServiceTypeLoadBalancer : string := "LoadBalancer".
Definition VirtualMachineServiceTypeExternalName : string := "ExternalName".
Definition ServiceTypeNodePort : string := "NodePort".
Definition TrafficPolicyLocal : string := "Local".
Definition TrafficPolicyCluster : string := "Cluster".
Definition IPv4Protocol : string := "IPv4".
Definition IPv6Protocol : string := "IPv6".

Definition AnnotationServiceExternalTrafficPolicyKey : string :=
  "virtualmachineservice.vmoperator.vmware.com/service.externalTrafficPolicy".
Definition AnnotationServiceHealthCheckNodePortKey : string :=
  "virtualmachineservice.vmoperator.vmware.com/service.healthCheckNodePort".
Definition AnnotationServiceExternalDNSHostnameAlphaKey : string := "external-dns.alpha.kubernetes.io/hostname".
Definition AnnotationServiceExternalDNSHostnameKey : string := "external-dns.kubernetes.io/hostname".

(** ** Interfaces *)

Inductive OperationResult := OperationCreated | OperationUpdated | OperationNone.

Class ServiceAPI (W : Type) := {
  sa_Now : W → Z;
  sa_IsNotFound : goerror → bool;
  sa_GetVMService : string → string → W → goerror + VirtualMachineService;
  sa_NewHelper : VirtualMachineService → option goerror;
  sa_Patch : VirtualMachineService → VirtualMachineService → W → W * option goerror;
  sa_SetControllerReference : VirtualMachineService → list OwnerRef → goerror + list OwnerRef;
  (** [CreateOrPatch] with namespace, name and the callback *)
  sa_CreateOrPatchService : string → string → (Service → goerror + Service) → W → W * (goerror + Service * OperationResult);
  sa_CreateOrPatchEndpoints : string → string → (EndpointsObject → goerror + EndpointsObject) → W → W * option goerror;
  sa_GetEndpoints : string → string → W → goerror + EndpointsObject;
  sa_DeleteEndpoints : string → string → W → W * option goerror;
  sa_DeleteService : string → string → W → W * option goerror;
  (** in a namespace, with matching labels *)
  sa_ListVMs : string → gmap string string → W → goerror + list ServiceVM;
  sa_ListVMServices : string → W → goerror + list VirtualMachineService;
  (** [SelectorFromValidatedSet] with [Matches] *)
  sa_Matches : gmap string string → gmap string string → bool;
  sa_EmitEvent : VirtualMachineService → string → W → W
}.

(** ** Load balancer providers *)

Definition NSXTLoadBalancer : string := "nsx-t-lb".
Definition ServiceLoadBalancerHealthCheckNodePortTagKey : string := "ncp/healthCheckNodePort".
Definition NSXTServiceProxy : string := "nsx-t".
Definition LabelServiceProxyName : string := "service.kubernetes.io/service-proxy-name".

(** The Go interface. *)
Record LoadbalancerProvider := mkLBProvider {
  EnsureLoadBalancer : VirtualMachineService → option goerror;
  GetServiceLabels : VirtualMachineService → goerror + gmap string string;
  GetToBeRemovedServiceLabels : VirtualMachineService → goerror + gmap string string;
  GetServiceAnnotations : VirtualMachineService → goerror + gmap string string;
  GetToBeRemovedServiceAnnotations : VirtualMachineService → goerror + gmap string string
}.

Definition NoopLoadbalancerProvider : LoadbalancerProvider :=
  mkLBProvider (λ _, None) (λ _, inr ∅) (λ _, inr ∅) (λ _, inr ∅) (λ _, inr ∅).

Definition nsxt_GetServiceLabels (s : VirtualMachineService) : goerror + gmap string string :=
  inr (if bool_decide (default "" (vs_Annotations s !! AnnotationServiceExternalTrafficPolicyKey) = TrafficPolicyLocal)
       then {[LabelServiceProxyName := NSXTServiceProxy]} else ∅).
Definition nsxt_GetToBeRemovedServiceLabels (s : VirtualMachineService) : goerror + gmap string string :=
  inr (if bool_decide (default "" (vs_Annotations s !! AnnotationServiceExternalTrafficPolicyKey) = TrafficPolicyLocal)
       then ∅ else {[LabelServiceProxyName := NSXTServiceProxy]}).
Definition nsxt_GetServiceAnnotations (s : VirtualMachineService) : goerror + gmap string string :=
  inr match vs_Annotations s !! AnnotationServiceHealthCheckNodePortKey with
      | Some port => {[ServiceLoadBalancerHealthCheckNodePortTagKey := port]}
      | None => ∅
      end.
Definition nsxt_GetToBeRemovedServiceAnnotations (s : VirtualMachineService) : goerror + gmap string string :=
  inr match vs_Annotations s !! AnnotationServiceHealthCheckNodePortKey with
      | Some _ => ∅
      | None => {[ServiceLoadBalancerHealthCheckNodePortTagKey := ""]}
      end.
Definition NsxtLoadbalancerProvider : LoadbalancerProvider :=
  mkLBProvider (λ _, None) nsxt_GetServiceLabels nsxt_GetToBeRemovedServiceLabels nsxt_GetServiceAnnotations
    nsxt_GetToBeRemovedServiceAnnotations.

Definition GetLoadbalancerProviderByType (providerType : string) : goerror + LoadbalancerProvider :=
  inr (if bool_decide (providerType = NSXTLoadBalancer) then NsxtLoadbalancerProvider else NoopLoadbalancerProvider).

(** ** VMs *)

Definition virtualMachineHasReadinessProbe (vm : ServiceVM) : bool :=
  match pm_Probe (sv_VM vm) with Some p => has_action p | None => false end.

Definition virtualMachinePrimaryIPs (vm : ServiceVM) : string * string := default ("", "") (pm_Network (sv_VM vm)).

(** The empty string is a status without a name. *)
Definition virtualMachineReadyStatus (vm : ServiceVM) : ConditionStatus :=
  match Conditions.Get (pm_Conditions (sv_VM vm)) ReadyConditionType with
  | Some c => c_Status c
  | None => ConditionOther ""
  end.

(** Whether the change could matter to endpoints, and whether labels changed. *)
Definition virtualMachineEndpointsChanged (oldVM newVM : ServiceVM) : bool * bool :=
  if negb (bool_decide (sv_Labels oldVM = sv_Labels newVM)) then (true, true)
  else if negb (Bool.eqb (pm_Deleting (sv_VM oldVM)) (pm_Deleting (sv_VM newVM))) then (true, false)
  else if negb (bool_decide (virtualMachinePrimaryIPs oldVM = virtualMachinePrimaryIPs newVM)) then (true, false)
  else if negb (Bool.eqb (virtualMachineHasReadinessProbe oldVM) (virtualMachineHasReadinessProbe newVM)) then (true, false)
  else (negb (bool_decide (virtualMachineReadyStatus oldVM = virtualMachineReadyStatus newVM)), false).

Record ServiceConfig := mkServiceConfig { sc_LoadBalancerProvider : string; sc_Config : WebhookConfig }.

Section Controller.
Context {W : Type} `{ErrorsLib} `{ServiceAPI W} `{WebhookAPI} `{DeepHash} `{GoRange} (cfg : ServiceConfig).
Implicit Types (vmService : VirtualMachineService) (service : Service) (vm : ServiceVM) (w : W).

(** ** Requests *)

Definition label_sets_match (selector : gmap string string) (labelSets : list (gmap string string)) : bool :=
  existsb (λ l, negb (bool_decide (l = ∅)) && sa_Matches selector l) labelSets.

(** The requests that are added to the queue. *)
Definition enqueueVirtualMachineServicesSelectingLabelSets (ns : string) (labelSets : list (gmap string string)) w :
    list (string * string) :=
  match sa_ListVMServices ns w with
  | inl _ => []
  | inr items =>
    vs_key <$> filter (λ s, vss_Selector (vs_Spec s) ≠ ∅ ∧ label_sets_match (vss_Selector (vs_Spec s)) labelSets = true) items
  end.

(** The handler of created, deleted and generic VMs. *)
Definition enqueueVirtualMachineServicesSelectingVM vm w : list (string * string) :=
  if bool_decide (sv_Labels vm = ∅) then []
  else enqueueVirtualMachineServicesSelectingLabelSets (pm_Namespace (sv_VM vm)) [sv_Labels vm] w.

(** The handler of updated VMs. *)
Definition vm_UpdateFunc (oldVM newVM : ServiceVM) w : list (string * string) :=
  let '(changed, labelsChanged) := virtualMachineEndpointsChanged oldVM newVM in
  if negb changed then []
  else if labelsChanged
  then enqueueVirtualMachineServicesSelectingLabelSets (pm_Namespace (sv_VM newVM)) [sv_Labels oldVM; sv_Labels newVM] w
  else enqueueVirtualMachineServicesSelectingVM newVM w.

(** ** The Service *)

Definition getLoadBalancerProvider (namespace : string) : goerror + LoadbalancerProvider :=
  if bool_decide (sc_LoadBalancerProvider cfg = "") then
    match GetProviderType (sc_Config cfg) namespace with
    | inl err => inl err
    | inr providerType =>
      GetLoadbalancerProviderByType
        (if bool_decide (providerType = NetworkProviderTypeNSXT) || bool_decide (providerType = NetworkProviderTypeVPC)
         then NSXTLoadBalancer else "")
    end
  else GetLoadbalancerProviderByType (sc_LoadBalancerProvider cfg).

Definition managed_annotations : list string :=
  [AnnotationServiceExternalTrafficPolicyKey; AnnotationServiceHealthCheckNodePortKey;
   AnnotationServiceExternalDNSHostnameAlphaKey; AnnotationServiceExternalDNSHostnameKey].

(** Without the managed annotations that the VirtualMachineService does not have. *)
Definition remove_managed (own annotations : gmap string string) : gmap string string :=
  foldl (λ m k, match own !! k with Some _ => m | None => delete k m end) annotations managed_annotations.

(** Annotations and labels. *)
Definition setServiceAnnotationsAndLabels vmService service : goerror + gmap string string * gmap string string :=
  let annotations := vs_Annotations vmService ∪ se_Annotations service in
  match getLoadBalancerProvider (vs_Namespace vmService) with
  | inl err => inl (Wrapped "failed to get load balancer provider" err)
  | inr lbProvider =>
    match GetToBeRemovedServiceAnnotations lbProvider vmService with
    | inl err => inl (Wrapped "failed to get load balancer specific annotations to remove from Service" err)
    | inr annotationsToBeRemoved =>
      let annotations := annotations ∖ annotationsToBeRemoved in
      let labels := vs_Labels vmService ∪ se_Labels service in
      match GetToBeRemovedServiceLabels lbProvider vmService with
      | inl err => inl (Wrapped "failed to get load balancer specific labels to remove from Service" err)
      | inr labelsToBeRemoved =>
        let labels := labels ∖ labelsToBeRemoved in
        inr (remove_managed (vs_Annotations vmService) annotations, labels)
      end
    end
  end.

(** Families and policy of a service when the feature is on. *)
Definition service_families (spec : VirtualMachineServiceSpec) (s : ServiceSpec) : list string * option string :=
  if WorkloadIPv6 (sc_Config cfg) then
    if bool_decide (vss_Type spec = VirtualMachineServiceTypeExternalName) then ([], None)
    else (match vss_IPFamilies spec with [] => ks_IPFamilies s | l => l end,
          match vss_IPFamilyPolicy spec with None => ks_IPFamilyPolicy s | p => p end)
  else (ks_IPFamilies s, ks_IPFamilyPolicy s).

Definition nodePortMap (ports : list ServicePort) : gmap string Z :=
  foldl (λ m port, <[sp_Name port := sp_NodePort port]> m) ∅ ports.

Definition service_ports (vmPorts : list VirtualMachineServicePort) (ports : list ServicePort) : list ServicePort :=
  (λ vmPort, mkServicePort (vp_Name vmPort) (vp_Protocol vmPort) (vp_Port vmPort) (IntPort (vp_TargetPort vmPort))
               (default 0 (nodePortMap ports !! vp_Name vmPort))) <$> vmPorts.

Definition traffic_policy (annotations : gmap string string) (type old : string) : string :=
  let policy := if bool_decide (type = ServiceTypeNodePort) || bool_decide (type = VirtualMachineServiceTypeLoadBalancer)
                then TrafficPolicyCluster else old in
  match annotations !! AnnotationServiceExternalTrafficPolicyKey with
  | Some p => if bool_decide (p = TrafficPolicyLocal) || bool_decide (p = TrafficPolicyCluster) then p else policy
  | None => policy
  end.

(** The callback of CreateOrPatch. *)
Definition mutate_service vmService service : goerror + Service :=
  match sa_SetControllerReference vmService (se_Owners service) with
  | inl err => inl err
  | inr owners =>
    match setServiceAnnotationsAndLabels vmService service with
    | inl err => inl err
    | inr (annotations, labels) =>
      let spec := vs_Spec vmService in
      let s := se_Spec service in
      let families := service_families spec s in
      inr (mkService (se_Namespace service) (se_Name service) (se_ResourceVersion service) owners annotations labels
        (mkServiceSpec (vss_Type spec) (vss_ExternalName spec) (vss_LoadBalancerIP spec) (vss_LoadBalancerSourceRanges spec)
          families.1 families.2
          (if bool_decide (vss_Type spec = VirtualMachineServiceTypeLoadBalancer) then Some false else None)
          (if bool_decide (se_ResourceVersion service = "") then vss_ClusterIP spec else ks_ClusterIP s)
          (service_ports (vss_Ports spec) (ks_Ports s))
          (traffic_policy annotations (vss_Type spec) (ks_ExternalTrafficPolicy s)))
        (se_Ingress service) (se_Conditions service))
    end
  end.

Definition createOrUpdateService vmService w : W * (goerror + Service) :=
  match sa_CreateOrPatchService (vs_Namespace vmService) (vs_Name vmService) (mutate_service vmService) w with
  | (w, inl err) => (w, inl err)
  | (w, inr (service, result)) =>
    (match result with
     | OperationCreated => sa_EmitEvent vmService "CreateK8sService" w
     | OperationUpdated => sa_EmitEvent vmService "UpdateK8sService" w
     | OperationNone => w
     end, inr service)
  end.

(** ** The Endpoints *)

(** Without a selector there is no list, which the caller excludes. *)
Definition getVirtualMachinesSelectedByVMService vmService w : goerror + list ServiceVM :=
  if bool_decide (vss_Selector (vs_Spec vmService) = ∅) then inr []
  else sa_ListVMs (vs_Namespace vmService) (vss_Selector (vs_Spec vmService)) w.

(** Empty if the endpoints cannot be read. *)
Definition getVMsReferencedByServiceEndpoints service w : gset string :=
  match sa_GetEndpoints (se_Namespace service) (se_Name service) w with
  | inl _ => ∅
  | inr endpoints =>
    list_to_set (subset ← en_Subsets endpoints; omap (λ epa, obj_UID <$> ea_TargetRef epa) (es_Addresses subset))
  end.

Definition findVMPortNum (port : IntOrString) : goerror + Z :=
  match port with
  | IntPort n => inr n
  | _ => inl (ErrorString "no matching port on VM")
  end.

Definition determineAllowedIPFamilies service : gset string := list_to_set (ks_IPFamilies (se_Spec service)).

Record addressInfo := mkAddressInfo { ai_addr : EndpointAddress; ai_ready : bool; ai_ports : list EndpointPort }.

Definition vm_IPs (allowedFamilies : gset string) vm : list string :=
  let '(ipV4, ipV6) := virtualMachinePrimaryIPs vm in
  (if negb (bool_decide (ipV4 = "")) && bool_decide (IPv4Protocol ∈ allowedFamilies) then [ipV4] else []) ++
  (if negb (bool_decide (ipV6 = "")) && bool_decide (IPv6Protocol ∈ allowedFamilies) then [ipV6] else []).

(** [vmInSubsets]: the VMs that are in the endpoints so far. *)
Definition vm_ready (vmInSubsets : gset string) vm : bool :=
  if virtualMachineHasReadinessProbe vm then
    match Conditions.Get (pm_Conditions (sv_VM vm)) ReadyConditionType with
    | None => bool_decide (pm_UID (sv_VM vm) ∈ vmInSubsets)
    | Some condition => bool_decide (c_Status condition = ConditionTrue)
    end
  else true.

Definition vm_ports service : list EndpointPort :=
  omap (λ servicePort,
    match findVMPortNum (sp_TargetPort servicePort) with
    | inl _ => None
    | inr portNum => Some (mkEndpointPort (sp_Name servicePort) (wrap32 portNum) (sp_Protocol servicePort))
    end) (ks_Ports (se_Spec service)).

Definition vm_address vm (ip : string) : EndpointAddress :=
  mkEndpointAddress ip (Some (mkObjectReference (sv_APIVersion vm) (sv_Kind vm) (pm_Namespace (sv_VM vm)) (pm_Name (sv_VM vm))
    (pm_UID (sv_VM vm)))).

Definition vm_addressInfos service (vmInSubsets : gset string) vm : list addressInfo :=
  if pm_Deleting (sv_VM vm) then []
  else (λ ip, mkAddressInfo (vm_address vm ip) (vm_ready vmInSubsets vm) (vm_ports service)) <$>
         vm_IPs (determineAllowedIPFamilies service) vm.

Definition info_subset (i : addressInfo) : EndpointSubset :=
  mkEndpointSubset (if ai_ready i then [ai_addr i] else []) (if ai_ready i then [] else [ai_addr i]) (ai_ports i).

Definition vms_subsets service (vmInSubsets : gset string) (vms : list ServiceVM) : list EndpointSubset :=
  info_subset <$> (vms ≫= vm_addressInfos service vmInSubsets).

Definition generateSubsetsForService vmService service w : goerror + list EndpointSubset :=
  match getVirtualMachinesSelectedByVMService vmService w with
  | inl err => inl err
  | inr vms => inr (vms_subsets service (getVMsReferencedByServiceEndpoints service w) vms)
  end.

Definition mutate_endpoints vmService service (subsets : list EndpointSubset) (endpoints : EndpointsObject) :
    goerror + EndpointsObject :=
  match sa_SetControllerReference vmService (en_Owners endpoints) with
  | inl err => inl err
  | inr owners => inr (mkEndpoints owners (se_Labels service) (se_Annotations service) subsets)
  end.

Definition createOrUpdateEndpoints vmService service w : W * option goerror :=
  if bool_decide (vss_Selector (vs_Spec vmService) = ∅) then (w, None)
  else match generateSubsetsForService vmService service w with
  | inl err => (w, Some err)
  | inr unpackedSubsets =>
    sa_CreateOrPatchEndpoints (se_Namespace service) (se_Name service)
      (mutate_endpoints vmService service (RepackSubsets unpackedSubsets)) w
  end.

(** ** The status *)

Definition syncServiceReadyCondition (now : Z) (l : Conditions) service : Conditions :=
  match find (λ c, bool_decide (c_Type c = "Ready")) (se_Conditions service) with
  | Some readyCond =>
    let or_default := λ s d, if bool_decide (s = "") then d else s in
    let unknown := MarkUnknown now l ServiceReadyConditionType (or_default (c_Reason readyCond) "ServiceReadinessUnknown")
                     (or_default (c_Message readyCond) "Underlying Service readiness is unknown") in
    match c_Status readyCond with
    | ConditionTrue => MarkTrue now l ServiceReadyConditionType
    | ConditionFalse =>
      MarkFalse now l ServiceReadyConditionType (or_default (c_Reason readyCond) "ServiceNotReady")
        (or_default (c_Message readyCond) "Underlying Service is not ready")
    | ConditionUnknown => unknown
    | ConditionOther s => if bool_decide (s = "") then unknown else l
    end
  | None =>
    MarkUnknown now l ServiceReadyConditionType "ServiceReadyNotPresent" "Underlying Service does not have Ready condition"
  end.

Definition updateVMService (now : Z) vmService service : VirtualMachineService :=
  set_vs_Status
    (if bool_decide (vss_Type (vs_Spec vmService) = VirtualMachineServiceTypeLoadBalancer) then se_Ingress service else [])
    (syncServiceReadyCondition now (vs_Conditions vmService) service) vmService.

(** ** Reconciliation *)

(** Annotations and labels of the load balancer. *)
Definition reconcile_load_balancer vmService : VirtualMachineService * option goerror :=
  match getLoadBalancerProvider (vs_Namespace vmService) with
  | inl err => (vmService, Some (Wrapped "failed to get load balancer provider" err))
  | inr lbProvider =>
    match EnsureLoadBalancer lbProvider vmService with
    | Some err => (vmService, Some (Wrapped "failed to create or get load balancer for VM Service" err))
    | None =>
      match GetServiceAnnotations lbProvider vmService with
      | inl err => (vmService, Some (Wrapped "failed to get load balancer annotations for service" err))
      | inr annotations =>
        let vmService := set_vs_Annotations (annotations ∪ vs_Annotations vmService) vmService in
        match GetServiceLabels lbProvider vmService with
        | inl err => (vmService, Some (Wrapped "failed to get load balancer labels for service" err))
        | inr svcLabels => (set_vs_Labels (svcLabels ∪ vs_Labels vmService) vmService, None)
        end
      end
    end
  end.

Definition reconcileVMService vmService w : W * VirtualMachineService * option goerror :=
  let '(vmService, err) :=
    if bool_decide (vss_Type (vs_Spec vmService) = VirtualMachineServiceTypeLoadBalancer)
    then reconcile_load_balancer vmService else (vmService, None) in
  match err with
  | Some err => (w, vmService, Some err)
  | None =>
    match createOrUpdateService vmService w with
    | (w, inl err) => (w, vmService, Some (Wrapped "failed to update VirtualMachineService k8s Service" err))
    | (w, inr service) =>
      match createOrUpdateEndpoints vmService service w with
      | (w, Some err) => (w, vmService, Some (Wrapped "failed to update VirtualMachineService Endpoints" err))
      | (w, None) => (w, updateVMService (sa_Now w) vmService service, None)
      end
    end
  end.

Definition without (f : string) (l : list string) : list string := filter (λ x, x ≠ f) l.

(** [client.IgnoreNotFound]. *)
Definition IgnoreNotFound (err : option goerror) : option goerror :=
  match err with Some e => if sa_IsNotFound e then None else Some e | None => None end.

Definition service_ReconcileDelete vmService w : W * VirtualMachineService * option goerror :=
  if bool_decide (service_finalizerName ∈ vs_Finalizers vmService) ||
     bool_decide (service_deprecatedFinalizerName ∈ vs_Finalizers vmService)
  then
    let '(w, err) := sa_DeleteEndpoints (vs_Namespace vmService) (vs_Name vmService) w in
    match IgnoreNotFound err with
    | Some err => (w, vmService, Some (Wrapped "failed to delete Endpoints" err))
    | None =>
      let '(w, err) := sa_DeleteService (vs_Namespace vmService) (vs_Name vmService) w in
      match IgnoreNotFound err with
      | Some err => (w, vmService, Some (Wrapped "failed to delete Service" err))
      | None =>
        (sa_EmitEvent vmService "DeleteK8sService" w,
         set_vs_Finalizers (without service_deprecatedFinalizerName (without service_finalizerName (vs_Finalizers vmService))) vmService,
         None)
      end
    end
  else (w, vmService, None).

Definition service_ReconcileNormal vmService w : W * VirtualMachineService * option goerror :=
  let vmService :=
    if bool_decide (service_finalizerName ∈ vs_Finalizers vmService) then vmService
    else set_vs_Finalizers (without service_deprecatedFinalizerName (vs_Finalizers vmService) ++ [service_finalizerName]) vmService in
  match reconcileVMService vmService w with
  | (w, vmService, Some err) => (w, vmService, Some (Wrapped "failed to reconcile VirtualMachineService" err))
  | r => r
  end.

Definition service_Reconcile (ns name : string) w : W * option goerror :=
  match sa_GetVMService ns name w with
  | inl err => (w, IgnoreNotFound (Some err))
  | inr vmService =>
    match sa_NewHelper vmService with
    | Some err => (w, Some (Wrapped "failed to init patch helper" err))
    | None =>
      let '(w, vmService', reterr) :=
        if vs_Deleting vmService then service_ReconcileDelete vmService w else service_ReconcileNormal vmService w in
      let '(w, err) := sa_Patch vmService vmService' w in
      (w, match reterr with None => err | Some _ => reterr end)
    end
  end.
End Controller.

(** * VM services: the validation webhook

    webhooks/virtualmachineservice/validation/virtualmachineservice_validator.go.
    The checks of names, numbers and addresses of apimachinery and of net are the
    class [ServiceFormats]; each returns its messages. *)

Class ServiceFormats := {
  IsDNS1035Label : string → list string;
  IsDNS1123Label : string → list string;
  IsDNS1123Subdomain : string → list string;
  IsValidPortNum : Z → list string;
  IsValidIP : string → list string;
  ValidateLabels : gmap string string → list string;
  net_ParseCIDR : string → option goerror
}.

(** Path, value and text. *)
Inductive ServiceFieldError :=
  | SInvalid (path value msg : string)
  | SForbidden (path msg : string)
  | SRequired (path : string)
  | SNotSupported (path value : string)
  | SDuplicate (path value : string)
  | SLabels (path msg : string).

Definition supportedServiceType : list string :=
  [VirtualMachineServiceTypeLoadBalancer; VirtualMachineServiceTypeClusterIP; VirtualMachineServiceTypeExternalName].
Definition supportedPortProtocols : list string := ["TCP"; "UDP"; "SCTP"].
Definition ClusterIPNone : string := "None".

Definition TrimSuffix (s suffix : string) : string :=
  if HasSuffix s suffix then String.substring 0 (String.length s - String.length suffix) s else s.

(** [strings.TrimSpace]; the length is enough fuel. *)
Fixpoint trim_left (fuel : nat) (s : string) : string :=
  match fuel, find (λ w, String.prefix w s) spaces with
  | S fuel, Some w => trim_left fuel (String.substring (String.length w) (String.length s) s)
  | _, _ => s
  end.
Fixpoint trim_right (fuel : nat) (s : string) : string :=
  match fuel, find (λ w, HasSuffix s w) spaces with
  | S fuel, Some w => trim_right fuel (TrimSuffix s w)
  | _, _ => s
  end.
Definition TrimSpace (s : string) : string :=
  let s := trim_left (String.length s) s in trim_right (String.length s) s.

Definition isHeadlessVMService (s : VirtualMachineService) : bool := bool_decide (vss_ClusterIP (vs_Spec s) = ClusterIPNone).

Section Validator.
Context `{ServiceFormats} (cfg : WebhookConfig).
Implicit Types (vmService : VirtualMachineService).

Definition validateMetadata vmService : list ServiceFieldError :=
  SInvalid "metadata.name" (vs_Name vmService) <$> IsDNS1035Label (vs_Name vmService).

Definition validateServicePort (sp : VirtualMachineServicePort) (requireName : bool) (allNames : gset string) (path : string) :
    list ServiceFieldError * gset string :=
  let '(name_errs, allNames) :=
    if requireName && bool_decide (vp_Name sp = "") then ([SRequired (path +:+ ".name")], allNames)
    else if negb (bool_decide (vp_Name sp = "")) then
      let errs := SInvalid (path +:+ ".name") (vp_Name sp) <$> IsDNS1123Label (vp_Name sp) in
      if bool_decide (vp_Name sp ∈ allNames) then (errs ++ [SDuplicate (path +:+ ".name") (vp_Name sp)], allNames)
      else (errs, {[vp_Name sp]} ∪ allNames)
    else ([], allNames) in
  (name_errs ++
   (SInvalid (path +:+ ".port") (pretty (vp_Port sp)) <$> IsValidPortNum (vp_Port sp)) ++
   (if bool_decide (vp_Protocol sp = "") then [SRequired (path +:+ ".protocol")]
    else if bool_decide (vp_Protocol sp ∈ supportedPortProtocols) then []
    else [SNotSupported (path +:+ ".protocol") (vp_Protocol sp)]) ++
   (SInvalid (path +:+ ".targetPort") (pretty (vp_TargetPort sp)) <$> IsValidPortNum (vp_TargetPort sp)), allNames).

Definition port_path (i : nat) : string := "spec.ports[" +:+ pretty i +:+ "]".

Fixpoint validate_each_port (requireName : bool) (i : nat) (ports : list VirtualMachineServicePort) (allNames : gset string) :
    list ServiceFieldError :=
  match ports with
  | [] => []
  | sp :: ports =>
    let '(errs, allNames) := validateServicePort sp requireName allNames (port_path i) in
    errs ++ validate_each_port requireName (S i) ports allNames
  end.

(** Protocol and port at most once. *)
Fixpoint validate_duplicate_ports (i : nat) (ports : list VirtualMachineServicePort) (seen : gset (string * Z)) :
    list ServiceFieldError :=
  match ports with
  | [] => []
  | sp :: ports =>
    let key := (vp_Protocol sp, vp_Port sp) in
    (if bool_decide (key ∈ seen) then [SDuplicate (port_path i) (vp_Protocol sp +:+ pretty (vp_Port sp))] else []) ++
    validate_duplicate_ports (S i) ports ({[key]} ∪ seen)
  end.

Definition validatePorts vmService : list ServiceFieldError :=
  let ports := vss_Ports (vs_Spec vmService) in
  (if bool_decide (ports = []) && negb (isHeadlessVMService vmService) &&
      negb (bool_decide (vss_Type (vs_Spec vmService) = VirtualMachineServiceTypeExternalName))
   then [SRequired "spec.ports"] else []) ++
  validate_each_port (1 <? length ports)%nat 0 ports ∅ ++
  validate_duplicate_ports 0 ports ∅.

Definition validate_type vmService : list ServiceFieldError :=
  let spec := vs_Spec vmService in
  if bool_decide (vss_Type spec = VirtualMachineServiceTypeLoadBalancer) then
    if isHeadlessVMService vmService
    then [SInvalid "spec.clusterIP" (vss_ClusterIP spec) "may not be set to 'None' for LoadBalancer services"] else []
  else if bool_decide (vss_Type spec = VirtualMachineServiceTypeExternalName) then
    (if bool_decide (vss_ClusterIP spec = "") then [] else [SForbidden "spec.clusterIP" "may not be set for ExternalName services"]) ++
    (let cname := TrimSuffix (vss_ExternalName spec) "." in
     if bool_decide (cname = "") then [SRequired "spec.externalName"]
     else SInvalid "spec.externalName" cname <$> IsDNS1123Subdomain cname)
  else [].

Definition validate_source_ranges vmService : list ServiceFieldError :=
  let ranges := vss_LoadBalancerSourceRanges (vs_Spec vmService) in
  match ranges with
  | [] => []
  | _ =>
    (if bool_decide (vss_Type (vs_Spec vmService) = VirtualMachineServiceTypeLoadBalancer) then []
     else [SForbidden "spec.loadBalancerSourceRanges" "may only be used when `type` is 'LoadBalancer'"]) ++
    concat (imap (λ i r,
      match net_ParseCIDR (TrimSpace r) with
      | Some _ => [SInvalid ("spec.loadBalancerSourceRanges[" +:+ pretty i +:+ "]") (TrimSpace r)
                     "must be compatible with https://pkg.go.dev/net#ParseCIDR"]
      | None => []
      end) ranges)
  end.

Definition validate_families vmService : list ServiceFieldError :=
  if WorkloadIPv6 cfg then []
  else
    (match vss_IPFamilies (vs_Spec vmService) with
     | [] => []
     | _ => [SForbidden "spec.ipFamilies" "the WorkloadIPv6 feature is not enabled"]
     end) ++
    (match vss_IPFamilyPolicy (vs_Spec vmService) with
     | None => []
     | Some _ => [SForbidden "spec.ipFamilyPolicy" "the WorkloadIPv6 feature is not enabled"]
     end).

Definition service_validateSpec vmService : list ServiceFieldError :=
  let spec := vs_Spec vmService in
  validate_type vmService ++
  validatePorts vmService ++
  (SLabels "spec.selector" <$> ValidateLabels (vss_Selector spec)) ++
  (if bool_decide (vss_ClusterIP spec = "") || bool_decide (vss_ClusterIP spec = ClusterIPNone) then []
   else SInvalid "spec.clusterIP" (vss_ClusterIP spec) <$> IsValidIP (vss_ClusterIP spec)) ++
  (if bool_decide (vss_Type spec = "") then [SRequired "spec.type"]
   else if bool_decide (vss_Type spec ∈ supportedServiceType) then []
   else [SNotSupported "spec.type" (vss_Type spec)]) ++
  validate_source_ranges vmService ++
  validate_families vmService.

Definition validateAllowedChanges vmService oldVMService : list ServiceFieldError :=
  (if bool_decide (vss_Type (vs_Spec vmService) = vss_Type (vs_Spec oldVMService)) then []
   else [SForbidden "spec.type" "field is immutable"]) ++
  (if bool_decide (vss_ClusterIP (vs_Spec vmService) = vss_ClusterIP (vs_Spec oldVMService)) then []
   else [SForbidden "spec.clusterIP" "field is immutable"]).

(** The errors; the request is admitted if there are none. *)
Definition service_ValidateCreate vmService : list ServiceFieldError :=
  validateMetadata vmService ++ service_validateSpec vmService.
Definition service_ValidateUpdate vmService oldVMService : list ServiceFieldError :=
  validateAllowedChanges vmService oldVMService ++ service_validateSpec vmService.
End Validator.
