(* ===== verification/VMServiceResults.v ===== *)
(** * VM services: correctness

    The Endpoints that are written list exactly the addresses of the VMs that the
    service selects, ready as their probes say; no change of a VM that matters is
    missed; the Service settles, keeps node ports and is gone before the finalizer
    is. *)

From S2P Require Import Prelude Hardware GoErrors VMGroup Volumes AdmissionVM VMValidator VMWebhookWitnesses Prober.
From S2P Require Import Endpoints VMService Conditions.
Local Open Scope Z_scope.

(** ** What the controller relies on *)

(** [stored_vms]: the VMs of the API server.  [going_endpoints] and [going_service]:
    there is no such object or its deletion was accepted. *)
Class ServiceLaws (W : Type) `{ServiceAPI W} := {
  stored_vms : W → list ServiceVM;
  going_endpoints : string → string → W → Prop;
  going_service : string → string → W → Prop;
  sl_matches sel l : sa_Matches sel l = true ↔ sel ⊆ l;
  sl_uids w : NoDup ((λ vm, pm_UID (sv_VM vm)) <$> stored_vms w);
  sl_list ns sel w vms : sa_ListVMs ns sel w = inr vms →
    ∀ vm, vm ∈ vms ↔ vm ∈ stored_vms w ∧ pm_Namespace (sv_VM vm) = ns ∧ sel ⊆ sv_Labels vm;
  sl_endpoints ns n f w w' : sa_CreateOrPatchEndpoints ns n f w = (w', None) →
    ∃ e e', f e = inr e' ∧ sa_GetEndpoints ns n w' = inr e';
  sl_owner s l l' : sa_SetControllerReference s l = inr l' → sa_SetControllerReference s l' = inr l';
  sl_delete_endpoints ns n w w' err : sa_DeleteEndpoints ns n w = (w', err) →
    (err = None ∨ ∃ e, err = Some e ∧ sa_IsNotFound e = true) → going_endpoints ns n w';
  sl_delete_service ns n w w' err : sa_DeleteService ns n w = (w', err) →
    (going_endpoints ns n w → going_endpoints ns n w') ∧
    ((err = None ∨ ∃ e, err = Some e ∧ sa_IsNotFound e = true) → going_service ns n w');
  sl_event s op w ns n : (going_endpoints ns n w → going_endpoints ns n (sa_EmitEvent s op w)) ∧
    (going_service ns n w → going_service ns n (sa_EmitEvent s op w))
}.

Implicit Types (vmService : VirtualMachineService) (service : Service) (vm : ServiceVM).

(** ** Which addresses are listed *)

(** The VM has the address, of a family of the service. *)
Definition has_address service vm (ip : string) : Prop :=
  ip ≠ "" ∧ ∃ ip4 ip6, pm_Network (sv_VM vm) = Some (ip4, ip6) ∧
    (ip = ip4 ∧ IPv4Protocol ∈ ks_IPFamilies (se_Spec service) ∨ ip = ip6 ∧ IPv6Protocol ∈ ks_IPFamilies (se_Spec service)).

(** Without a probe a VM is ready, with one its condition decides, and before there
    is a condition a VM that was listed as ready still is. *)
Definition counts_as_ready (listed : gset string) vm : Prop :=
  (∀ p, pm_Probe (sv_VM vm) = Some p → has_action p = false) ∨
  (∃ c, Get (pm_Conditions (sv_VM vm)) ReadyConditionType = Some c ∧ c_Status c = ConditionTrue) ∨
  (Get (pm_Conditions (sv_VM vm)) ReadyConditionType = None ∧ pm_UID (sv_VM vm) ∈ listed).

Lemma elem_of_vm_IPs service vm ip : ip ∈ vm_IPs (determineAllowedIPFamilies service) vm ↔ has_address service vm ip.
Proof.
  unfold vm_IPs, virtualMachinePrimaryIPs, has_address, determineAllowedIPFamilies.
  destruct (pm_Network (sv_VM vm)) as [[ip4 ip6]|]; cbn; [|set_solver].
  rewrite elem_of_app. repeat case_bool_decide; cbn; set_solver.
Qed.

Lemma vm_ready_iff listed vm : vm_ready listed vm = true ↔ counts_as_ready listed vm.
Proof.
  unfold vm_ready, virtualMachineHasReadinessProbe, counts_as_ready.
  destruct (pm_Probe (sv_VM vm)) as [p|]; [|naive_solver]. destruct (has_action p) eqn:Ep; [|naive_solver].
  destruct (Get _ _) as [c|]; rewrite bool_decide_eq_true; naive_solver congruence.
Qed.

Lemma info_offers service listed vms p a b :
  offers (vms_subsets service listed vms) p a b ↔
  (p ∈ vm_ports service ∨ vm_ports service = [] ∧ p = sentinel) ∧
  ∃ vm ip, vm ∈ vms ∧ pm_Deleting (sv_VM vm) = false ∧ has_address service vm ip ∧ a = vm_address vm ip ∧ b = vm_ready listed vm.
Proof.
  unfold offers, vms_subsets. setoid_rewrite list_elem_of_fmap. setoid_rewrite list_elem_of_bind.
  assert (∀ i vm, i ∈ vm_addressInfos service listed vm ↔ ∃ ip, pm_Deleting (sv_VM vm) = false ∧ has_address service vm ip ∧
    i = mkAddressInfo (vm_address vm ip) (vm_ready listed vm) (vm_ports service)) as Hi.
  { intros i vm. unfold vm_addressInfos. destruct (pm_Deleting _); [set_solver|]. rewrite list_elem_of_fmap.
    setoid_rewrite elem_of_vm_IPs. naive_solver. }
  assert (∀ ps, p ∈ eff_ports (mkEndpointSubset [] [] ps) ↔ p ∈ ps ∨ ps = [] ∧ p = sentinel) as He.
  { intros [|q ps]; cbn; set_solver. }
  split.
  - intros (s & (i & -> & vm & Hin & Hvm) & Hp & Ha). apply Hi in Hin as (ip & Hd & Hip & ->).
    split; [by apply He|]. exists vm, ip. unfold addresses, info_subset in Ha. cbn in Ha.
    destruct b, (vm_ready listed vm); set_solver.
  - intros [Hp (vm & ip & Hvm & Hd & Hip & -> & ->)].
    eexists. split; [eexists; split; [done|]; exists vm; split; [|done]; apply Hi; by exists ip|].
    split; [by apply He|]. unfold addresses, info_subset. cbn. destruct (vm_ready listed vm); set_solver.
Qed.

Lemma NoDup_uid_eq (vms : list ServiceVM) vm vm' :
  NoDup ((λ vm, pm_UID (sv_VM vm)) <$> vms) → vm ∈ vms → vm' ∈ vms → pm_UID (sv_VM vm) = pm_UID (sv_VM vm') → vm = vm'.
Proof. intros Hnd H1 H2 E. by eapply NoDup_fmap_inv_eq. Qed.

Section Results.
Context {W : Type} `{ServiceLaws W} `{HashLaws} `{GoRange}.
Implicit Types (w : W).

Definition selected vmService w vm : Prop :=
  vm ∈ stored_vms w ∧ pm_Namespace (sv_VM vm) = vs_Namespace vmService ∧ vss_Selector (vs_Spec vmService) ⊆ sv_Labels vm ∧
  pm_Deleting (sv_VM vm) = false.

(** C24: The Endpoints that are written are those of the selected VMs: an address is listed
    for a port exactly if the service has the port and a VM in its namespace, with its
    labels and not deleted, has the address, of a family of the service; it is listed
    as ready exactly if the VM has no probe, its Ready condition is true, or there is
    no condition yet and the VM was listed as ready before. *)
Theorem endpoints_exact vmService service w w' :
  createOrUpdateEndpoints vmService service w = (w', None) → vss_Selector (vs_Spec vmService) ≠ ∅ →
  ∃ e, sa_GetEndpoints (se_Namespace service) (se_Name service) w' = inr e ∧
    en_Labels e = se_Labels service ∧ en_Annotations e = se_Annotations service ∧
    ∀ p ip uid b, 0 < ep_Port p →
      occurs (en_Subsets e) p (ip, uid) b ↔
      p ∈ vm_ports service ∧ ∃ vm, selected vmService w vm ∧ pm_UID (sv_VM vm) = uid ∧ has_address service vm ip ∧
        (b = true ↔ counts_as_ready (getVMsReferencedByServiceEndpoints service w) vm).
Proof using Type*.
  intros He Hsel. unfold createOrUpdateEndpoints, generateSubsetsForService, getVirtualMachinesSelectedByVMService in He.
  rewrite !bool_decide_eq_false_2 in He by done. destruct (sa_ListVMs _ _ _) as [err|vms] eqn:Hl; [done|].
  pose proof (sl_list _ _ _ _ Hl) as Hvms. apply sl_endpoints in He as (e & e' & Hf & Hget). exists e'. split; [done|].
  unfold mutate_endpoints in Hf. destruct (sa_SetControllerReference _ _); [done|]. injection Hf as <-. cbn [en_Labels en_Annotations en_Subsets].
  split_and!; [done..|]. intros p ip uid b Hpos. rewrite repack_occurs by done.
  set (listed := getVMsReferencedByServiceEndpoints service w) in *.
  assert (∀ c, occurs (vms_subsets service listed vms) p (ip, uid) c ↔ p ∈ vm_ports service ∧
    ∃ vm, selected vmService w vm ∧ pm_UID (sv_VM vm) = uid ∧ has_address service vm ip ∧ (c = true ↔ counts_as_ready listed vm)) as Hocc.
  { intros c. unfold occurs. setoid_rewrite info_offers. split.
    - intros (a & [Hp (vm & ip' & Hvm & Hd & Hip & -> & ->)] & [= <- <-]). split.
      + destruct Hp as [?|[_ ->]]; [done|]. by cbn in Hpos.
      + exists vm. rewrite vm_ready_iff. unfold selected. apply Hvms in Hvm. naive_solver.
    - intros [Hp (vm & (Hs & Hns & Hlb & Hd) & <- & Hip & Hc)]. exists (vm_address vm ip). split; [|done]. split; [by left|].
      exists vm, ip. rewrite Hvms. split_and!; try done. apply eq_true_iff_eq. by rewrite vm_ready_iff. }
  assert (¬ (occurs (vms_subsets service listed vms) p (ip, uid) true ∧ occurs (vms_subsets service listed vms) p (ip, uid) false)) as Hone.
  { rewrite !Hocc. intros [[_ (vm & Hs & Hu & _ & Hc)] [_ (vm' & Hs' & Hu' & _ & Hc')]].
    assert (vm = vm') as <- by (eapply NoDup_uid_eq; [apply (sl_uids w)|apply Hs|apply Hs'|congruence]). intuition congruence. }
  destruct b; rewrite <-!Hocc; tauto.
Qed.
End Results.

(** ** Changes of VMs *)

Section Changes.
Context {W : Type} `{ServiceLaws W}.
Implicit Types (w : W).

Lemma subset_of_empty (m : gmap string string) : m ⊆ ∅ → m = ∅.
Proof using Type. intros Hm. apply (anti_symm (⊆)); [done|apply map_empty_subseteq]. Qed.

(** Another version of the same VM. *)
Definition same_object (oldVM newVM : ServiceVM) : Prop :=
  sv_APIVersion oldVM = sv_APIVersion newVM ∧ sv_Kind oldVM = sv_Kind newVM ∧ pm_key (sv_VM oldVM) = pm_key (sv_VM newVM) ∧
  pm_UID (sv_VM oldVM) = pm_UID (sv_VM newVM).

(** The Ready condition has a status, as the schema of conditions demands. *)
Definition ready_named vm : Prop :=
  ∀ c, Get (pm_Conditions (sv_VM vm)) ReadyConditionType = Some c → c_Status c ≠ ConditionOther "".

Lemma ready_same listed oldVM newVM :
  pm_UID (sv_VM oldVM) = pm_UID (sv_VM newVM) → ready_named oldVM → ready_named newVM →
  virtualMachineHasReadinessProbe oldVM = virtualMachineHasReadinessProbe newVM →
  virtualMachineReadyStatus oldVM = virtualMachineReadyStatus newVM → vm_ready listed oldVM = vm_ready listed newVM.
Proof using Type.
  unfold ready_named, virtualMachineReadyStatus, vm_ready. intros Hu Ho Hn -> Hs. destruct (virtualMachineHasReadinessProbe newVM); [|done].
  destruct (Get (pm_Conditions (sv_VM oldVM)) _) as [c|], (Get (pm_Conditions (sv_VM newVM)) _) as [c'|].
  - by rewrite Hs.
  - by destruct (Ho c).
  - by destruct (Hn c').
  - by rewrite Hu.
Qed.

Lemma infos_same service listed oldVM newVM :
  same_object oldVM newVM → ready_named oldVM → ready_named newVM →
  virtualMachineEndpointsChanged oldVM newVM = (false, false) →
  sv_Labels oldVM = sv_Labels newVM ∧ vm_addressInfos service listed oldVM = vm_addressInfos service listed newVM.
Proof using Type.
  intros (Hv & Hk & [= Hns Hn] & Hu) Ho Hn'. unfold virtualMachineEndpointsChanged. case_bool_decide as Hl; [|done].
  destruct (Bool.eqb _ _) eqn:Hd; [|done]. case_bool_decide as Hip; [|done].
  destruct (Bool.eqb (virtualMachineHasReadinessProbe oldVM) _) eqn:Hp; [|done]. cbn [negb].
  case_bool_decide as Hs; [|done]. intros _. split; [done|].
  apply Bool.eqb_prop in Hd, Hp. unfold vm_addressInfos, vm_IPs, vm_address.
  by rewrite Hd, Hip, (ready_same listed oldVM newVM), Hv, Hk, Hns, Hn, Hu.
Qed.

Lemma labels_changed oldVM newVM : (virtualMachineEndpointsChanged oldVM newVM).2 = false → sv_Labels oldVM = sv_Labels newVM.
Proof using Type. unfold virtualMachineEndpointsChanged. by case_bool_decide. Qed.

Lemma enqueued_selecting ns labelSets w services vmService :
  sa_ListVMServices ns w = inr services → vmService ∈ services → vss_Selector (vs_Spec vmService) ≠ ∅ →
  vs_key vmService ∉ enqueueVirtualMachineServicesSelectingLabelSets ns labelSets w →
  ∀ l, l ∈ labelSets → ¬ vss_Selector (vs_Spec vmService) ⊆ l.
Proof using Type*.
  intros Hls Hin Hsel Hnot l Hl Hsub. apply Hnot. unfold enqueueVirtualMachineServicesSelectingLabelSets. rewrite Hls.
  apply list_elem_of_fmap_2, list_elem_of_filter. split; [|done]. split; [done|].
  unfold label_sets_match. apply existsb_exists. exists l. split; [by apply list_elem_of_In|].
  apply andb_true_iff. split; [|by apply sl_matches]. apply negb_true_iff, bool_decide_eq_false. intros ->.
  by apply Hsel, subset_of_empty.
Qed.

(** C25: No change of a VM that matters to a service is missed: if the handler of updates
    does not enqueue a service, the subsets generated for it are the same with the old
    and with the new VM, whatever the Service, the endpoints and the other VMs are. *)
Theorem vm_updates_not_missed oldVM newVM w services vmService :
  sa_ListVMServices (pm_Namespace (sv_VM newVM)) w = inr services → vmService ∈ services →
  vss_Selector (vs_Spec vmService) ≠ ∅ → same_object oldVM newVM → ready_named oldVM → ready_named newVM →
  vs_key vmService ∉ vm_UpdateFunc oldVM newVM w →
  ∀ service listed l1 l2,
    let subsets := λ vm, vms_subsets service listed (filter (λ vm, vss_Selector (vs_Spec vmService) ⊆ sv_Labels vm) (l1 ++ vm :: l2)) in
    subsets oldVM = subsets newVM.
Proof using Type*.
  intros Hls Hin Hsel Hobj Ho Hn Hnot service listed l1 l2 subsets. unfold subsets, vms_subsets. f_equal.
  rewrite !filter_app, !bind_app, !filter_cons. f_equal. unfold vm_UpdateFunc in Hnot.
  destruct (virtualMachineEndpointsChanged oldVM newVM) as [changed labelsChanged] eqn:Hc.
  destruct changed; cbn [negb] in Hnot.
  - assert (¬ vss_Selector (vs_Spec vmService) ⊆ sv_Labels oldVM ∧ ¬ vss_Selector (vs_Spec vmService) ⊆ sv_Labels newVM) as [Hno Hno2];
      [|by rewrite !decide_False].
    destruct labelsChanged.
    + split; eapply enqueued_selecting; try done; set_solver.
    + rewrite (labels_changed oldVM newVM) by (by rewrite Hc).
      assert (¬ vss_Selector (vs_Spec vmService) ⊆ sv_Labels newVM); [|done]. unfold enqueueVirtualMachineServicesSelectingVM in Hnot.
      case_bool_decide as He; [rewrite He; by intros ?%subset_of_empty|].
      eapply enqueued_selecting; [done..|set_solver].
  - assert (labelsChanged = false) as ->.
    { revert Hc. unfold virtualMachineEndpointsChanged. repeat case_match; congruence. }
    destruct (infos_same service listed oldVM newVM Hobj Ho Hn Hc) as [-> E]. case_decide; [|done]. by rewrite !bind_cons, E.
Qed.
End Changes.

(** ** The Service *)

Lemma nodePort_lookup ports name n :
  (∀ q, q ∈ ports → sp_Name q = name → sp_NodePort q = n) → (∃ q, q ∈ ports ∧ sp_Name q = name) →
  nodePortMap ports !! name = Some n.
Proof.
  intros Hn [q [Hq Hname]]. unfold nodePortMap. revert Hn Hq. induction ports as [|r ports IH] using rev_ind; [set_solver|].
  intros Hn Hq. rewrite foldl_app. cbn. destruct (decide (sp_Name r = name)) as [<-|Hr].
  - rewrite lookup_insert_eq. f_equal. apply Hn; set_solver.
  - rewrite lookup_insert_ne by done. apply IH; [set_solver|]. apply elem_of_app in Hq as [?|?%list_elem_of_singleton]; [done|congruence].
Qed.

Lemma service_ports_settle vmPorts ports : service_ports vmPorts (service_ports vmPorts ports) = service_ports vmPorts ports.
Proof.
  unfold service_ports at 1 3. apply list_fmap_ext. intros i p Hp. f_equal.
  erewrite (nodePort_lookup _ (vp_Name p) (default 0 (nodePortMap ports !! vp_Name p))); [done| |].
  - intros q (p' & -> & _)%list_elem_of_fmap E. cbn in *. by rewrite E.
  - eexists. split; [by apply list_elem_of_fmap_2, (list_elem_of_lookup_2 _ i)|done].
Qed.

Lemma traffic_policy_settle annotations type old :
  traffic_policy annotations type (traffic_policy annotations type old) = traffic_policy annotations type old.
Proof. unfold traffic_policy. destruct (annotations !! _) as [p|]; repeat case_match; done. Qed.

Lemma families_settle cfg spec s a b c d e f g h :
  service_families cfg spec (mkServiceSpec a b c d (service_families cfg spec s).1 (service_families cfg spec s).2 e f g h) =
  service_families cfg spec s.
Proof.
  unfold service_families. destruct (WorkloadIPv6 _); [|done]. case_bool_decide; [done|].
  by destruct (vss_IPFamilies spec), (vss_IPFamilyPolicy spec).
Qed.

Section ServiceObject.
Context {W : Type} `{ServiceLaws W} `{WebhookAPI} (cfg : ServiceConfig).
Implicit Types (w : W).

Lemma managed_lookup (own m : gmap string string) ks k :
  foldl (λ m k, match own !! k with Some _ => m | None => delete k m end) m ks !! k =
  if decide (k ∈ ks ∧ own !! k = None) then None else m !! k.
Proof using Type.
  revert m. induction ks as [|k' ks IH]; intros m; cbn; [by rewrite decide_False by set_solver|].
  rewrite IH. destruct (own !! k') as [v|] eqn:E.
  - destruct (decide (k = k')) as [->|Hk].
    + by rewrite !decide_False by (rewrite E; naive_solver).
    + apply decide_ext. set_solver.
  - destruct (decide (k = k')) as [->|Hk].
    + rewrite lookup_delete_eq, (decide_True (P := k' ∈ k' :: ks ∧ _)) by set_solver. by case_decide.
    + rewrite lookup_delete_ne by done. apply decide_ext. set_solver.
Qed.

Lemma merge_settle {A} (own m removed : gmap string A) : (own ∪ (own ∪ m) ∖ removed) ∖ removed = (own ∪ m) ∖ removed.
Proof using Type.
  apply map_eq. intros k. rewrite !lookup_difference. destruct (removed !! k) eqn:E; [done|].
  rewrite !lookup_union, lookup_difference, E, lookup_union. by destruct (own !! k), (m !! k).
Qed.

Lemma managed_settle own m removed :
  remove_managed own ((own ∪ remove_managed own ((own ∪ m) ∖ removed)) ∖ removed) = remove_managed own ((own ∪ m) ∖ removed).
Proof using Type.
  apply map_eq. intros k. unfold remove_managed. rewrite !managed_lookup. case_decide as Hd; [done|].
  rewrite !lookup_difference. destruct (removed !! k) eqn:E; [done|]. rewrite lookup_union, managed_lookup, decide_False by done.
  rewrite lookup_difference, E, lookup_union. by destruct (own !! k), (m !! k).
Qed.

Lemma annotations_settle vmService service r :
  setServiceAnnotationsAndLabels cfg vmService service = inr r →
  ∀ service', se_Annotations service' = r.1 → se_Labels service' = r.2 →
  setServiceAnnotationsAndLabels cfg vmService service' = inr r.
Proof using Type.
  unfold setServiceAnnotationsAndLabels. destruct (getLoadBalancerProvider _ _) as [|lb]; [done|].
  destruct (GetToBeRemovedServiceAnnotations lb vmService) as [|ra]; [done|].
  destruct (GetToBeRemovedServiceLabels lb vmService) as [|rl]; [done|]. intros Hr. simplify_eq. intros service' Ha Hl.
  cbn [fst snd] in *. by rewrite Ha, Hl, merge_settle, managed_settle.
Qed.

(** C27: The Service settles: bringing it to a VirtualMachineService a second time changes
    nothing, so that no reconciliation causes the next; and a port keeps its node port
    as long as it keeps its name. *)
Theorem service_settles vmService service service' :
  mutate_service cfg vmService service = inr service' →
  mutate_service cfg vmService service' = inr service' ∧
  (NoDup (sp_Name <$> ks_Ports (se_Spec service)) →
   ∀ q q', q ∈ ks_Ports (se_Spec service) → q' ∈ ks_Ports (se_Spec service') → sp_Name q = sp_Name q' →
   sp_NodePort q = sp_NodePort q').
Proof using Type*.
  unfold mutate_service at 1. destruct (sa_SetControllerReference vmService (se_Owners service)) as [|owners] eqn:Eo; [done|].
  destruct (setServiceAnnotationsAndLabels cfg vmService service) as [|[annotations labels]] eqn:Ea; [done|].
  intros [= <-]. split.
  - unfold mutate_service. cbn [se_Owners se_Spec se_Namespace se_Name se_ResourceVersion se_Ingress se_Conditions].
    rewrite (sl_owner _ _ _ Eo), (annotations_settle _ _ _ Ea) by done.
    rewrite families_settle. cbn [ks_Ports ks_ExternalTrafficPolicy ks_ClusterIP]. rewrite service_ports_settle, traffic_policy_settle.
    by repeat case_bool_decide.
  - cbn. intros Hnd q q' Hq (p & -> & _)%list_elem_of_fmap E. cbn in *.
    erewrite (nodePort_lookup _ _ (sp_NodePort q)); [done| |by exists q].
    intros r Hr Er. assert (r = q) as -> by (eapply NoDup_fmap_inv_eq; [exact Hnd|done..|congruence]). done.
Qed.

(** A deleted VirtualMachineService loses its finalizers only when its Service and its
    Endpoints are gone or on their way; otherwise it is left as it is, with an error. *)
Theorem service_finalizer_safe vmService w w' s' err :
  service_ReconcileDelete vmService w = (w', s', err) →
  service_finalizerName ∈ vs_Finalizers vmService ∨ service_deprecatedFinalizerName ∈ vs_Finalizers vmService →
  (err = None ∧ (service_finalizerName ∉ vs_Finalizers s') ∧ (service_deprecatedFinalizerName ∉ vs_Finalizers s') ∧
   going_endpoints (vs_Namespace vmService) (vs_Name vmService) w' ∧ going_service (vs_Namespace vmService) (vs_Name vmService) w') ∨
  (is_Some err ∧ s' = vmService).
Proof using Type*.
  intros Hr Hf. unfold service_ReconcileDelete in Hr. rewrite <-bool_decide_or, bool_decide_eq_true_2 in Hr by done.
  assert (∀ e, IgnoreNotFound e = None → e = None ∨ ∃ e', e = Some e' ∧ sa_IsNotFound e' = true) as Hok.
  { intros [e|]; [|by left]. cbn. destruct (sa_IsNotFound e) eqn:E; [|done]. right. by exists e. }
  destruct (sa_DeleteEndpoints _ _ w) as [w1 e1] eqn:E1. destruct (IgnoreNotFound e1) eqn:F1; [simplify_eq; right; by eauto|].
  destruct (sa_DeleteService _ _ w1) as [w2 e2] eqn:E2. destruct (IgnoreNotFound e2) eqn:F2; [simplify_eq; right; by eauto|].
  simplify_eq. left. cbn [vs_Finalizers set_vs_Finalizers].
  apply sl_delete_endpoints in E1; [|by apply Hok]. apply sl_delete_service in E2 as [Hk Hg].
  split_and!; [done|unfold without; rewrite !list_elem_of_filter; naive_solver..|by apply sl_event, Hk|by apply sl_event, Hg, Hok].
Qed.
End ServiceObject.

(** ** Services that the webhook lets through *)

(** Port numbers are from 1 to 65535. *)
Class FormatLaws `{ServiceFormats} := { fl_port n : IsValidPortNum n = [] ↔ 1 ≤ n ≤ 65535 }.

Lemma duplicate_ports_valid i ports seen :
  validate_duplicate_ports i ports seen = [] →
  NoDup ((λ p, (vp_Protocol p, vp_Port p)) <$> ports) ∧ Forall (λ p, (vp_Protocol p, vp_Port p) ∉ seen) ports.
Proof.
  revert i seen. induction ports as [|p ports IH]; intros i seen; cbn [validate_duplicate_ports];
    [by split; [apply NoDup_nil_2|]|].
  case_bool_decide as Hin; [done|]. intros [_ Hrest]%app_nil. destruct (IH _ _ Hrest) as [Hnd Hfresh].
  rewrite Forall_forall in Hfresh. split.
  - rewrite fmap_cons. apply NoDup_cons. split; [|done]. intros (q & Eq & Hq)%list_elem_of_fmap.
    apply (Hfresh q Hq). rewrite <-Eq. set_solver.
  - constructor; [done|]. apply Forall_forall. intros q Hq Hn. apply (Hfresh q Hq). set_solver.
Qed.

Section AdmittedServices.
Context `{FormatLaws}.

Lemma each_port_valid require i ports names :
  validate_each_port require i ports names = [] →
  Forall (λ p, 1 ≤ vp_Port p ≤ 65535 ∧ 1 ≤ vp_TargetPort p ≤ 65535) ports ∧
  (require = true → NoDup (vp_Name <$> ports) ∧ Forall (λ p, vp_Name p ∉ names) ports).
Proof using Type*.
  revert i names. induction ports as [|p ports IH]; intros i names; cbn [validate_each_port];
    [by split; [|split; [apply NoDup_nil_2|]]|].
  destruct (validateServicePort p require names (port_path i)) as [errs names'] eqn:Ev.
  intros [-> Hrest]%app_nil. destruct (IH _ _ Hrest) as [Hports Hnames]. unfold validateServicePort in Ev.
  destruct (if require && _ then _ else _) as [name_errs names2] eqn:En in Ev. injection Ev as Ev <-.
  apply app_nil in Ev as [-> Ev]. apply app_nil in Ev as [Hport Ev]. apply app_nil in Ev as [_ Htarget].
  apply fmap_nil_inv in Hport, Htarget. rewrite fl_port in Hport, Htarget. split; [by constructor|].
  intros ->. destruct (Hnames eq_refl) as [Hnd Hfresh]. cbn [andb] in En. case_bool_decide as He; [done|]. cbn [negb] in En.
  case_bool_decide as Hin; [by apply (f_equal fst), app_eq_nil in En as [_ ?]|]. injection En as _ <-.
  rewrite Forall_forall in Hfresh. split.
  - rewrite fmap_cons. apply NoDup_cons. split; [|done]. intros (q & Eq & Hq)%list_elem_of_fmap.
    apply (Hfresh q Hq). rewrite <-Eq. set_solver.
  - constructor; [done|]. apply Forall_forall. intros q Hq Hn. apply (Hfresh q Hq). set_solver.
Qed.

Lemma admitted_names cfg vmService :
  service_validateSpec cfg vmService = [] →
  Forall (λ p, 1 ≤ vp_Port p ≤ 65535 ∧ 1 ≤ vp_TargetPort p ≤ 65535) (vss_Ports (vs_Spec vmService)) ∧
  NoDup (vp_Name <$> vss_Ports (vs_Spec vmService)) ∧
  NoDup ((λ p, (vp_Protocol p, vp_Port p)) <$> vss_Ports (vs_Spec vmService)).
Proof using Type*.
  unfold service_validateSpec, validatePorts. intros [_ [[_ [Heach Hdup]%app_nil]%app_nil _]%app_nil]%app_nil.
  apply each_port_valid in Heach as [Hports Hnames]. apply duplicate_ports_valid in Hdup as [Hdup _]. split_and!; [done| |done].
  destruct (vss_Ports (vs_Spec vmService)) as [|p [|p' ports]]; [apply NoDup_nil_2|apply NoDup_singleton|].
  by apply Hnames.
Qed.

Context {W : Type} `{ServiceAPI W} `{WebhookAPI}.

(** The ports of an admitted service are all served: the Service has a port for each of
    them, names and pairs of protocol and port are distinct, and the endpoint ports are
    the target ports, in range, none of them taken for the port that stands for none. *)
Theorem admitted_ports_served cfg vmService service service' :
  service_validateSpec (sc_Config cfg) vmService = [] → mutate_service cfg vmService service = inr service' →
  let ports := vss_Ports (vs_Spec vmService) in
  vm_ports service' = (λ p, mkEndpointPort (vp_Name p) (vp_TargetPort p) (vp_Protocol p)) <$> ports ∧
  Forall (λ p, 0 < ep_Port p ≤ 65535) (vm_ports service') ∧ NoDup (vm_ports service') ∧
  NoDup (sp_Name <$> ks_Ports (se_Spec service')) ∧
  NoDup ((λ p, (sp_Protocol p, sp_Port p)) <$> ks_Ports (se_Spec service')).
Proof using Type*.
  intros Hv Hm ports. apply admitted_names in Hv as (Hports & Hnames & Hdup). fold ports in Hports, Hnames, Hdup.
  assert (ks_Ports (se_Spec service') = service_ports ports (ks_Ports (se_Spec service))) as Hks.
  { unfold mutate_service in Hm. repeat case_match; by simplify_eq. }
  assert (vm_ports service' = (λ p, mkEndpointPort (vp_Name p) (vp_TargetPort p) (vp_Protocol p)) <$> ports) as Hvp.
  { unfold vm_ports. rewrite Hks. unfold service_ports. generalize (nodePortMap (ks_Ports (se_Spec service))). intros m.
    clear -Hports. induction Hports as [|p ports Hp _ IH]; [done|]. cbn. rewrite wrap32_id by (unfold in_int32; lia). f_equal. apply IH. }
  rewrite Hvp, Hks. unfold service_ports. split_and!; [done| | | |].
  - apply Forall_fmap. eapply Forall_impl; [done|]. cbn. intros p Hp. lia.
  - apply (NoDup_fmap_1 ep_Name). by rewrite <-list_fmap_compose.
  - by rewrite <-list_fmap_compose.
  - by rewrite <-list_fmap_compose.
Qed.
End AdmittedServices.

(** ** Probes *)

Section Probes.
Context {W : Type} `{ErrorsLib} `{ProbeAPI W}.

(** A probe decides about the endpoint: after it ran, the VM is listed as ready by the
    services that select it exactly if the probe succeeded, whatever was listed before. *)
Theorem probe_decides_endpoint vm p listed (w w' : W) (vm' : ProbeVM) err :
  pm_Probe (sv_VM vm) = Some p → has_action p = true → NoDup (c_Type <$> pm_Conditions (sv_VM vm)) →
  processVMProbe (sv_VM vm) w = (w', vm', err) →
  vm_ready listed (mkServiceVM (sv_APIVersion vm) (sv_Kind vm) (sv_Labels vm) vm') = true ↔ found (sv_VM vm) w = Success.
Proof using Type*.
  intros Hp Ha Hnd (now & c & Hty & Hst & ->)%probe_writes. unfold vm_ready, virtualMachineHasReadinessProbe.
  cbn [sv_VM pm_Probe set_pm_Conditions pm_Conditions]. rewrite Hp, Ha.
  destruct (Set_Get_same now (pm_Conditions (sv_VM vm)) c Hnd) as (c' & Hc & Hs).
  apply hasSameState_spec in Hs as (_ & Hs & _). rewrite Hty in Hc. rewrite Hc, bool_decide_eq_true.
  rewrite Hs, Hst. by destruct (found (sv_VM vm) w).
Qed.
End Probes.

(** * VM services: a small cluster

    An API server in which the theorems on VM services can be used, a hash without
    collisions, two orders of ranging over maps, and the theorems at concrete
    services. *)

(** ** A hash and two orders *)

#[local] Program Instance ObjectReference_countable : Countable ObjectReference :=
  inj_countable' (λ o, (obj_APIVersion o, obj_Kind o, obj_Namespace o, obj_Name o, obj_UID o))
    (λ '(a, b, c, d, e), mkObjectReference a b c d e) _.
Next Obligation. by intros []. Qed.
#[local] Program Instance EndpointAddress_countable : Countable EndpointAddress :=
  inj_countable' (λ a, (ea_IP a, ea_TargetRef a)) (λ '(a, b), mkEndpointAddress a b) _.
Next Obligation. by intros []. Qed.
#[local] Program Instance EndpointSubset_countable : Countable EndpointSubset :=
  inj_countable' (λ s, (es_Addresses s, es_NotReadyAddresses s, es_Ports s)) (λ '(a, b, c), mkEndpointSubset a b c) _.
Next Obligation. by intros []. Qed.
#[local] Instance Hashed_dec : EqDecision Hashed.
Proof. solve_decision. Defined.
#[local] Program Instance Hashed_countable : Countable Hashed :=
  inj_countable' (λ h, match h with HashAddresses l => inl l | HashPort p => inr (inl p) | HashSubset s => inr (inr s) end)
    (λ s, match s with inl l => HashAddresses l | inr (inl p) => HashPort p | inr (inr s) => HashSubset s end) _.
Next Obligation. by intros []. Qed.

Fixpoint bits (p : positive) : string :=
  match p with
  | xH => ""
  | xO p => String.String (Ascii.ascii_of_N 48) (bits p)
  | xI p => String.String (Ascii.ascii_of_N 49) (bits p)
  end.
#[local] Instance bits_inj : Inj (=) (=) bits.
Proof. intros p. induction p; intros []; cbn; intros E; simplify_eq; f_equal; auto. Qed.

#[local] Instance small_hash : DeepHash := { DeepHashObject h := bits (encode h) }.
#[local] Instance small_hash_laws : HashLaws.
Proof. constructor. intros a b E. apply (inj encode), (inj bits), E. Qed.

#[local] Instance forward_range : GoRange := { go_range K A _ _ m := map_to_list m; go_range_perm K A _ _ m := Permutation_refl _ }.
Definition backward_range : GoRange.
Proof. refine {| go_range K A _ _ m := reverse (map_to_list m) |}. intros. apply reverse_Permutation. Defined.

(** ** Endpoints *)

Definition small_port : EndpointPort := mkEndpointPort "http" 8080 "TCP".
Definition small_address (ip uid : string) : EndpointAddress :=
  mkEndpointAddress ip (Some (mkObjectReference "v1alpha6" "VirtualMachine" "ns" ("vm-" +:+ uid) uid)).
Definition one_subset (a : EndpointAddress) : EndpointSubset := mkEndpointSubset [a] [] [small_port].
Definition two_vms : list EndpointSubset := [one_subset (small_address "10.0.0.1" "1"); one_subset (small_address "10.0.0.2" "2")].

Example repack_two :
  RepackSubsets two_vms = [mkEndpointSubset [small_address "10.0.0.1" "1"; small_address "10.0.0.2" "2"] [] [small_port]].
Proof. vm_compute. reflexivity. Qed.

Lemma small_offers b : offers two_vms small_port (small_address "10.0.0.1" "1") b ↔ b = true.
Proof.
  unfold offers, two_vms. setoid_rewrite elem_of_cons. setoid_rewrite elem_of_cons. split.
  - intros (s & [->|[->|?%elem_of_nil]] & _ & Ha); [| |done]; destruct b; cbn in Ha; try done; set_solver.
  - intros ->. eexists. split; [by left|]. cbn. set_solver.
Qed.

Lemma repack_exact_witness : occurs (RepackSubsets two_vms) small_port ("10.0.0.1", "1") true.
Proof.
  apply (repack_exact two_vms small_port ("10.0.0.1", "1")); [done|]. split.
  - exists (small_address "10.0.0.1" "1"). split; [by apply small_offers|done].
  - intros (a & (s & Hs & _ & Ha) & _). unfold two_vms in Hs.
    apply elem_of_cons in Hs as [->|[->|?%elem_of_nil]%elem_of_cons]; [by apply elem_of_nil in Ha..|done].
Defined.

Lemma repack_canonical_witness : @RepackSubsets _ forward_range two_vms = @RepackSubsets _ backward_range (reverse two_vms).
Proof.
  assert (∀ p a b, offers two_vms p a b ↔ offers (reverse two_vms) p a b) as Ho.
  { intros p a b. unfold offers. by setoid_rewrite elem_of_reverse. }
  apply (repack_canonical forward_range backward_range two_vms (reverse two_vms)).
  - intros p k b. unfold occurs. by setoid_rewrite Ho.
  - intros p a b p' a' b' (s & Hs & _ & Ha) (s' & Hs' & _ & Ha') E. rewrite elem_of_reverse in Hs'.
    unfold two_vms in Hs, Hs'. apply elem_of_cons in Hs as [->|[->|?%elem_of_nil]%elem_of_cons], Hs' as [->|[->|?%elem_of_nil]%elem_of_cons];
      try done; destruct b, b'; try (by apply elem_of_nil in Ha); try (by apply elem_of_nil in Ha');
      apply list_elem_of_singleton in Ha, Ha'; subst; done.
Defined.

(** ** An API server *)

Record SmallCluster := mkCluster {
  cl_VMs : gmap string ServiceVM;
  cl_VMServices : list VirtualMachineService;
  cl_Services : gmap (string * string) Service;
  cl_Endpoints : gmap (string * string) EndpointsObject
}.

Definition set_uid (uid : string) (vm : ServiceVM) : ServiceVM :=
  let v := sv_VM vm in
  mkServiceVM (sv_APIVersion vm) (sv_Kind vm) (sv_Labels vm)
    (mkProbeVM (pm_Namespace v) (pm_Name v) uid (pm_Deleting v) (pm_Probe v) (pm_PowerState v) (pm_Network v) (pm_Conditions v)).
Definition cluster_vms (w : SmallCluster) : list ServiceVM := (λ kv, set_uid kv.1 kv.2) <$> map_to_list (cl_VMs w).

Definition no_service (ns name : string) : Service :=
  mkService ns name "" [] ∅ ∅ (mkServiceSpec "" "" "" [] [] None None "" [] "") [] [].

#[local] Instance small_services : ServiceAPI SmallCluster := {
  sa_Now _ := 5;
  sa_IsNotFound _ := true;
  sa_GetVMService ns name w :=
    from_option inr (inl (ErrorString "not found")) (find (λ s, bool_decide (vs_key s = (ns, name))) (cl_VMServices w));
  sa_NewHelper _ := None;
  sa_Patch _ _ w := (w, None);
  sa_SetControllerReference s _ := inr [mkOwnerRef "VirtualMachineService" (vs_Name s) "owner"];
  sa_CreateOrPatchService ns name f w :=
    match f (default (no_service ns name) (cl_Services w !! (ns, name))) with
    | inl err => (w, inl err)
    | inr s => (mkCluster (cl_VMs w) (cl_VMServices w) (<[(ns, name) := s]> (cl_Services w)) (cl_Endpoints w), inr (s, OperationUpdated))
    end;
  sa_CreateOrPatchEndpoints ns name f w :=
    match f (default (mkEndpoints [] ∅ ∅ []) (cl_Endpoints w !! (ns, name))) with
    | inl err => (w, Some err)
    | inr e => (mkCluster (cl_VMs w) (cl_VMServices w) (cl_Services w) (<[(ns, name) := e]> (cl_Endpoints w)), None)
    end;
  sa_GetEndpoints ns name w := from_option inr (inl (ErrorString "not found")) (cl_Endpoints w !! (ns, name));
  sa_DeleteEndpoints ns name w :=
    (mkCluster (cl_VMs w) (cl_VMServices w) (cl_Services w) (delete (ns, name) (cl_Endpoints w)), None);
  sa_DeleteService ns name w :=
    (mkCluster (cl_VMs w) (cl_VMServices w) (delete (ns, name) (cl_Services w)) (cl_Endpoints w), None);
  sa_ListVMs ns sel w := inr (filter (λ vm, pm_Namespace (sv_VM vm) = ns ∧ sel ⊆ sv_Labels vm) (cluster_vms w));
  sa_ListVMServices ns w := inr (filter (λ s, vs_Namespace s = ns) (cl_VMServices w));
  sa_Matches sel l := bool_decide (sel ⊆ l);
  sa_EmitEvent _ _ w := w
}.

#[local] Instance small_service_laws : ServiceLaws SmallCluster.
Proof.
  refine {| stored_vms := cluster_vms;
    going_endpoints ns n w := cl_Endpoints w !! (ns, n) = None; going_service ns n w := cl_Services w !! (ns, n) = None |}.
  - intros. apply bool_decide_eq_true.
  - intros w. unfold cluster_vms. rewrite <-list_fmap_compose. apply (NoDup_fst_map_to_list (cl_VMs w)).
  - intros ns sel w vms [= <-] vm. rewrite list_elem_of_filter. tauto.
  - intros ns n f w w'. cbn. destruct (f _) as [|e'] eqn:E; [done|]. intros [= <-]. eexists _, e'. split; [done|].
    cbn. by rewrite lookup_insert_eq.
  - done.
  - intros ns n w w' err [= <- <-] _. apply lookup_delete_eq.
  - intros ns n w w' err [= <- <-]. split; [done|]. intros _. apply lookup_delete_eq.
  - done.
Defined.

#[local] Existing Instances ex_api small_errors small_api.

Definition service_vm (probe : option ProbeSpec) (conditions : Conditions) (labels : gmap string string) : ServiceVM :=
  mkServiceVM "v1alpha6" "VirtualMachine" labels
    (mkProbeVM "ns" "vm" "1" false probe VirtualMachinePowerStateOn (Some ("10.0.0.1", "")) conditions).
Definition app_label : gmap string string := {["app" := "web"]}.
Definition web_spec : VirtualMachineServiceSpec :=
  mkVMServiceSpec VirtualMachineServiceTypeLoadBalancer [mkVMServicePort "http" "TCP" 80 8080] app_label "" [] "" "" [] None.
Definition web : VirtualMachineService := mkVMService "ns" "web" false [service_finalizerName] ∅ ∅ web_spec [] [].
Definition web_service : Service :=
  mkService "ns" "web" "7" [] ∅ ∅
    (mkServiceSpec VirtualMachineServiceTypeLoadBalancer "" "" [] [IPv4Protocol] None None "10.1.1.1"
      [mkServicePort "http" "TCP" 80 (IntPort 8080) 30001] "") [] [].
Definition cluster : SmallCluster := mkCluster {["1" := service_vm None [] app_label]} [web] ∅ ∅.
Definition service_cfg : ServiceConfig := mkServiceConfig "" (ex_cfg false).

Example web_endpoints :
  let w := (createOrUpdateEndpoints web web_service cluster).1 in
  en_Subsets <$> cl_Endpoints w !! ("ns", "web") =
  Some [mkEndpointSubset [mkEndpointAddress "10.0.0.1" (Some (mkObjectReference "v1alpha6" "VirtualMachine" "ns" "vm" "1"))] []
          [mkEndpointPort "http" 8080 "TCP"]].
Proof. vm_compute. reflexivity. Qed.

Lemma endpoints_exact_witness :
  ∃ e, sa_GetEndpoints "ns" "web" (createOrUpdateEndpoints web web_service cluster).1 = inr e ∧
    occurs (en_Subsets e) (mkEndpointPort "http" 8080 "TCP") ("10.0.0.1", "1") true.
Proof.
  destruct (endpoints_exact web web_service cluster (createOrUpdateEndpoints web web_service cluster).1) as (e & He & _ & _ & Hiff).
  - reflexivity.
  - apply map_non_empty_singleton.
  - exists e. split; [exact He|]. apply Hiff; [done|]. split; [left|]. exists (service_vm None [] app_label).
    split; [split_and!; [left|done|reflexivity|done]|]. split; [done|]. split; [split; [done|]; by exists "10.0.0.1", ""; split; [|left; split; [|left]]|].
    split; [|done]. intros _. left. done.
Defined.

Lemma vm_updates_not_missed_witness :
  let old := service_vm None [] app_label in
  let new := service_vm None [TrueCondition "Other"] app_label in
  vms_subsets web_service ∅ (filter (λ vm, app_label ⊆ sv_Labels vm) [old]) =
  vms_subsets web_service ∅ (filter (λ vm, app_label ⊆ sv_Labels vm) [new]).
Proof.
  intros old new. apply (vm_updates_not_missed old new cluster [web] web) with (l1 := []) (l2 := []).
  - by vm_compute.
  - left.
  - apply map_non_empty_singleton.
  - done.
  - done.
  - done.
  - vm_compute. apply not_elem_of_nil.
Defined.

Lemma service_settles_witness :
  match mutate_service service_cfg web web_service with
  | inr s => mutate_service service_cfg web s = inr s ∧ sp_NodePort <$> ks_Ports (se_Spec s) = [30001]
  | inl _ => False
  end.
Proof.
  destruct (mutate_service service_cfg web web_service) as [e|s] eqn:Es; [by vm_compute in Es|].
  destruct (service_settles service_cfg web web_service s Es) as [Hs _]. split; [exact Hs|].
  vm_compute in Es. injection Es as <-. reflexivity.
Defined.

Lemma service_finalizer_safe_witness :
  vs_Finalizers (service_ReconcileDelete web cluster).1.2 = [] ∧ going_service "ns" "web" (service_ReconcileDelete web cluster).1.1.
Proof.
  destruct (service_ReconcileDelete web cluster) as [[w' s'] err] eqn:Er.
  destruct (service_finalizer_safe web cluster w' s' err Er) as [(_ & _ & _ & _ & Hg)|[He _]].
  - left. left.
  - split; [|exact Hg]. vm_compute in Er. by injection Er as _ <- _.
  - exfalso. vm_compute in Er. injection Er as _ _ <-. by apply is_Some_None in He.
Defined.

#[local] Instance small_formats : ServiceFormats := {
  IsDNS1035Label _ := [];
  IsDNS1123Label _ := [];
  IsDNS1123Subdomain _ := [];
  IsValidPortNum n := if (1 <=? n) && (n <=? 65535) then [] else ["must be between 1 and 65535, inclusive"];
  IsValidIP _ := [];
  ValidateLabels _ := [];
  net_ParseCIDR _ := None
}.
#[local] Instance small_format_laws : FormatLaws.
Proof. constructor. intros n. cbn. destruct (1 <=? n) eqn:E1, (n <=? 65535) eqn:E2; cbn; split; (lia || done). Defined.

Lemma admitted_ports_served_witness :
  match mutate_service service_cfg web web_service with
  | inr s => NoDup (sp_Name <$> ks_Ports (se_Spec s))
  | inl _ => False
  end.
Proof.
  destruct (mutate_service service_cfg web web_service) as [e|s] eqn:Es; [by vm_compute in Es|].
  destruct (admitted_ports_served service_cfg web web_service s) as (_ & _ & _ & Hn & _); [by vm_compute|exact Es|exact Hn].
Defined.

Lemma probe_decides_endpoint_witness :
  match processVMProbe (sv_VM (service_vm (Some heartbeat_probe) [] app_label)) (∅ : SmallWorld) with
  | (_, vm', _) => vm_ready {["1"]} (mkServiceVM "v1alpha6" "VirtualMachine" app_label vm') ≠ true
  end.
Proof.
  destruct (processVMProbe (sv_VM (service_vm (Some heartbeat_probe) [] app_label)) (∅ : SmallWorld)) as [[w' vm'] err] eqn:Hp.
  intros Hr. apply (probe_decides_endpoint (service_vm (Some heartbeat_probe) [] app_label) heartbeat_probe {["1"]} _ _ _ _ eq_refl eq_refl
    (NoDup_nil_2) Hp) in Hr. by vm_compute in Hr.
Defined.
